(* ===== verification/_CoqProject ===== *)
-Q . S2P
Prelude.v
Runs.v
CString.v
Layout.v
Crc32.v
HalStorage.v
Ota.v
OtaThm.v
Module.v
ModuleThm.v
Driver.v
DriverThm.v
LinkFrame.v
LinkStream.v
LinkCrypto.v
LinkSession.v
LinkDispatch.v
TtyService.v
TtyThm.v
LinkBridge.v
LinkBridgeThm.v
LinkTalk.v
Dll.v
Alloc.v
AllocRep.v
AllocSpec.v
Power.v
PowerGovernor.v
Scheduler.v
SchedulerRep.v
SchedulerSpec.v
SchedulerThm.v
Event.v
EventThm.v
OsTime.v
OsTimeThm.v
OsClock.v
Ecs.v
EcsThm.v
Vfs.v
VfsThm.v
Tables.v
ConfigStore.v
ConfigThm.v
ConfigFile.v
AppRuntime.v
AppRuntimeThm.v
Syscall.v
App.v
AppThm.v
AppSched.v
Ssd1306.v
Ssd1306Thm.v
FwUi.v
Notify.v
NotifyThm.v
NotifyCard.v
Input.v
InputThm.v
InputKeys.v
Sensor.v
SensorThm.v
ClockService.v
DeviceRegistry.v
DeviceRegistryThm.v
SimGpio.v
AppKit.v
AppKitThm.v
AppKitRuns.v
AppKitTables.v
Widgets.v
WidgetLayout.v
WidgetTree.v
WidgetsThm.v
WidgetKeys.v
WidgetBoxes.v
WidgetRuns.v
WidgetDemos.v
Menu.v
MenuThm.v
