(* ===== verification/Prelude.v ===== *)
(** * ArdubotOS: a verification development

    ArdubotOS is a small operating system for microcontrollers: a cooperative
    kernel (src/kernel/), a link to a host computer (src/link/), file systems and
    stores (src/fs/), drivers (src/drivers/), a game library (src/game/) and
    applications.  This development models the parts that carry its logic and proves
    what they promise.  It is a shallow embedding: each C function is a function of
    the state it reads and writes, under its own name.

    ** Conventions

    - A value of an unsigned type of [w] bits is an integer in [0 .. 2^w)
      ([in_w]); where the code can wrap, [wrap w] ([u8], [u16], [u32], [u64]) is
      written out.  [size_t] has 32 or 64 bits, the class [Arch]; [usz] wraps it.
    - A pointer the code compares with NULL is an [option].  Arrays are lists, read
      and written through [rd], [wr], [rd_bytes], [wr_bytes] (bounds checked);
      linked nodes are keys of a [gmap] or indices.
    - A result [None] of type [option] is a fault: an access outside an array,
      through NULL or to a node that does not exist, a loop that ran out of fuel, or
      a lock that can no longer be had.  Return codes of the code are values inside
      [Some].  Every safety theorem therefore says [= Some ...].
    - Callbacks and platform services are parameters that act on an environment;
      allocations that may fail are boolean arguments.
    - Fuel bounds only loops that follow links or wait.  The bounds used are given
      with the definitions (the number of nodes for lists, [S len] for scans of a
      buffer, the number of queued events), and the theorems prove a result for
      them, not only under the assumption that there is one.

    ** Files

    Prelude (this file): machine integers, checked arrays, rings, tactics.
    CString: C strings and what [snprintf] prints.  Dll: intrusive doubly linked lists.
    Tables: association lists, arrays of slots, packed arrays and rings as maps and lists.
    Runs: counted loops, sequences of operations and their refinement.

    - Link (src/link/).  LinkFrame: link_frame.c, encode, decode, CRC and fields;
      LinkStream: [link_stream_push], the reassembly of frames from chunks;
      LinkCrypto: link_crypto.c, AES-128 and GCM as written; LinkSession:
      link_session.c, hello, seal and open, over LinkCrypto; LinkDispatch:
      link_dispatch.c, calls from the host, over the fields of LinkFrame.
      Theorems: frames and fields round trip; damage of one or two bytes is detected
      where the checksum can tell; hostile
      input is never read out of bounds; a stream pushed in any chunks is the
      parse of its concatenation; encryption round trips, accepts only what was
      sealed, and computes the field operations of the standard; sessions accept
      each frame at most once and never repeat a cipher block, until an
      unauthenticated hello resets them; dispatch computes its reference meaning.
    - The device's end of the link (src/apps/tty_service.c, link_bridge.c).  TtyService,
      TtyThm: the shell, its line editor, modes and
      commands, over the subsystems of the class [Shell] and the commands of
      applications ([CliCode]); LinkBridge, LinkBridgeThm: the bridge that joins
      stream, session, dispatcher and shell, over the class [BridgeServices];
      LinkTalk: host and device in conversation.  Theorems: what a typed line runs;
      no bytes lead shell or bridge out of their buffers; every conversation yields
      the reference replies and the shell's output.
    - Heap (src/kernel/alloc.c).  Alloc: the code, headers in a map from addresses;
      AllocRep: the abstract list of blocks and the representation of the free and
      physical lists; AllocSpec: first-fit allocation, freeing with coalescing, and
      safety of every run.
    - Scheduler (src/kernel/scheduler.c).  Scheduler: the code, [setjmp]/[longjmp] as
      resume points ([land] is the code behind a jump); SchedulerRep: task lists;
      SchedulerSpec: the invariant and each operation as a transformation of the
      lists; SchedulerThm: the machine of calls, ticks and interrupts.  It uses the
      governor through the class [Governor].
      Theorems: no run faults and every slot is where its state says; ticks wake
      exactly the due sleepers; steps pick the first task of the highest priority;
      creation and deletion are inverse; two yielding tasks starve the others.
    - Power (src/kernel/power.c) and PowerGovernor (src/kernel/power_governor.c):
      sleep modes, drivers' callbacks and frequencies; windows, levels, throttle.
      Theorems: the rule of a window, safety of runs, descent when idle, ranking of
      frequencies.
    - Events (src/kernel/event.c).  Event, EventThm: topics, subscriptions, queue and
      delivery over callbacks that may call back.  Theorems: refinement of the table
      and of delivery, termination of processing.
    - Time (src/kernel/os_time.c, os_clock.c).  OsTime, OsTimeThm: the timer list
      refines a sorted agenda, processing fires the due timers in order, sleeping;
      OsClock: the time-zone string.
    - Files (src/fs/).  Vfs, VfsThm: mounts and path resolution (vfs.c), longest
      prefix and table refinement; ConfigStore, ConfigThm, ConfigFile: the
      configuration store (config_store.c) refines a bounded map and survives a
      flush and a load, over a file given by the class [PosixFile].
    - Shared by the next two: Layout, little-endian fields of records; Crc32, the
      table-driven CRC-32 that ota.c and module.c both contain: it is the bitwise
      register, can be computed piecewise and tells any two messages apart that
      differ in four adjacent bytes.
    - Updates (src/fs/ota.c, ed25519.c; src/hal/arch/sim/hal_storage_sim.c).
      HalStorage: the class [StorageHal] of storage devices and the simulator's device
      as an instance; Ota, OtaThm: writing an image in pieces, the metadata record
      and the functions that switch images.  Theorems: the image is stored exactly
      and nothing else is touched; the switching functions act on the record alone.
    - Modules (src/drivers/module.c).  Module, ModuleThm: building, checking, loading
      and symbol lookup on bytes.  Theorems: the outcome of loading any bytes,
      refusal of damage, round trip of a built module.
    - Drivers (src/drivers/driver.c).  Driver, DriverThm: the registry of drivers and
      devices, the lock, the table of open handles, over driver code given by the
      class [DriverCode].  Theorems: reference counts and names in every run,
      exactness of handles.
    - Applications (src/apps/).  AppRuntime, AppRuntimeThm: the saved sessions
      (app_runtime.c), a map of at most sixteen; Syscall: capability sets and the table
      of handlers (syscall.c); App, AppThm: the chain of apps and their life cycle
      (app.c), over tasks and objects given by the class [AppOs] with the laws
      [AppOsLaws]; AppSched: the scheduler of Scheduler.v has these laws.  Theorems:
      sessions refine a map; a system call runs the handler last registered; every
      sequence of calls is a run of the life cycle and keeps the chain, the names and
      the tasks in order, up to a call of [os_app_switch_next] that has an app to
      switch, which never returns.
    - Display (src/sim/models/ssd1306_model.c, src/apps/fw/ui.c).
      Ssd1306: the three copies of the font, the panel on the bus [SimI2c], its dots,
      colours, shapes, texts and window, and the drawing calls once more with the
      arithmetic of int checked (the names in [_int]); FwUi: the drawing calls of applications.
      Ssd1306Thm: a call draws a shape with an ink ([draws]), a sequence of calls
      whose coordinates fit overflows nowhere and paints a picture, which the window
      shows.
    - Notifications (src/apps/notify_service.c, ardubot_keys.c).  Notify: cards, phases,
      keys and drawing, over the clock of the class [NotifyEnv]; NotifyThm: the ring of
      cards is a list for every sequence of calls; NotifyCard: a card is painted in its
      rectangle and nowhere else.
    - Input (src/apps/input.c).  Input: devices, bindings, keys and the queue of 64
      events; InputThm: the service refines tables and a queue for every sequence of
      calls; InputKeys: what a sequence of key levels means.
    - Sensors (src/apps/sensor_service.c).  Sensor, SensorThm: slots, providers, cached
      readings and their age; they refine a map for every sequence of calls.
    - Wall clock service (src/apps/clock_service.c).  ClockService: the
      clock kept in a file, over Vfs, OsClock and a file system of the class
      [SavedFile]; the time and the zone survive a restart.
    - Device registry (src/drivers/device_registry.c).  DeviceRegistry,
      DeviceRegistryThm: registration, events, scans of a bus of the class [I2cBus] and
      lookups, over the structures of Driver; sequences of calls, opening and closing
      among them, refine a list of devices.
    - Buttons of the simulator (src/sim/sim_gpio.c, fw/io.h).  SimGpio: pins, edges and
      [app_button_init].
    - Application kit (src/apps/app_kit.c, key bindings of app_ui.c).  AppKit: contexts,
      focus, pumped keys and the run loop, cut at its sleeps, over the kernel of
      the class [KitOs] and applications of [AppCode]; AppKitThm: the laws
      [KitOsLaws] and safety of focus and contexts in every sequence of steps;
      AppKitRuns: concrete runs; AppKitTables: overrides, manifests, icons, loading.
    - Widgets (src/apps/ui.c).  Widgets: contexts, themes and widgets as a heap, the
      trees they form by links, focus, keys and callbacks; WidgetLayout: rows, columns,
      grids and scroll areas in 16-bit coordinates, and drawing.  WidgetTree: a heap
      stores a tree of links; WidgetsThm: operations keep it so; WidgetKeys: Tab visits
      the focusable widgets in a circle; WidgetBoxes: every layout ends, and where it
      puts the children; WidgetRuns: the rules of use, under which no sequence of calls
      faults; WidgetDemos: concrete trees, what happens when a rule is broken, and that
      rendering lights the dots of the visible widgets and no others.
    - Menus (src/apps/ui/components/, header_app.c, the menu keys of app_ui.c and of the
      launcher).  Menu: canvas, icons, status cluster, header, catalog and menus;
      MenuThm: any sequence of menu calls computes a list and a selection and draws
      without a fault, up to a strip without items, and a drawn list gives every dot of
      its rows the colour that tells the selected one.
    - Game (src/game/ecs.c).  Ecs, EcsThm: entities, handles with generations and
      component storage; stale handles and stability of stored bytes.

    Each property is a theorem with a claim id in its comment; a [_witness] applies
    it to concrete values, and the Examples beside it show by evaluation the
    behaviours where the code departs from its intent.

    ** Interaction

    LinkSession calls LinkCrypto and LinkFrame by their definitions; LinkBridge runs
    LinkStream, LinkSession, LinkDispatch and TtyService on one state, and the theorem
    of LinkTalk goes through all of them. The scheduler's theorems hold for every
    instance of [Governor] that satisfies its laws, and PowerGovernor supplies one;
    ConfigStore calls the file operations of Vfs, and ConfigFile proves persistence
    for every file with the laws of [PosixFile] and gives a memory file as an
    instance. The application core uses AppRuntime, Syscall and Module by their
    definitions, and AppSched instantiates its tasks with the scheduler: the life
    cycle is a theorem of the two together. ClockService saves through Vfs and keeps
    its time with OsClock. DeviceRegistry creates and removes the devices of Driver.
    AppKit polls keys on the pins of SimGpio, and its callbacks may start, close and
    refocus contexts while the kit runs them. Notify draws through FwUi on the panel
    of Ssd1306, and its theorem uses the shapes of Ssd1306Thm. Widgets take key
    events and draw through FwUi on the same panel. Menus flush their frames through
    Notify, whose card lies over them, and bind their keys with AppKit.

    ** Not modelled

    Contents of heap blocks; the Windows fibre variant of the scheduler and its idle
    task, which never runs; stack switching in assembly (host_stack.c), whose effect
    is the resume point; the FreeRTOS back end (scheduler_esp32.c); vendored code
    (FatFs, littlefs) and the adapters over it; register and SDK access
    (hal/arch/esp*, avr); SDL windows and the other device models of the simulator;
    the drawing of the applications' screens (the rest of app_ui.c and app_helper.c).
    The drawing calls of the panel are modelled twice: with the arithmetic of int
    checked, which the theorem of the panel is about, and with integers, for the
    programs that draw (FwUi, Notify, Menu); Ssd1306Thm proves the two equal wherever
    no calculation overflows. Real concurrency occurs only between interrupt handlers and the main thread; the interrupts the
    code supports are steps of the scheduler's machine. *)

From Stdlib Require Import ZArith Lia.
From stdpp Require Import base tactics option list numbers.

#[export] Set Default Goal Selector "!".

#[export] Set Warnings "-notation-overridden,-clear-no-such-hyp".
Open Scope Z_scope.

(** ** Tactics *)

(** Split a conjunction of boolean tests in a hypothesis into propositions. *)
Ltac bool_hyps :=
  repeat match goal with
  | H : (_ && _)%bool = true |- _ => apply andb_true_iff in H as [? ?]
  | H : (_ || _)%bool = false |- _ => apply orb_false_iff in H as [? ?]
  | H : (_ <=? _)%Z = true |- _ => apply Z.leb_le in H
  | H : (_ <=? _) = false |- _ => apply Z.leb_gt in H
  | H : (_ <? _) = true |- _ => apply Z.ltb_lt in H
  | H : (_ <? _) = false |- _ => apply Z.ltb_ge in H
  | H : (_ =? _) = true |- _ => apply Z.eqb_eq in H
  | H : (_ =? _) = false |- _ => apply Z.eqb_neq in H
  | H : negb _ = true |- _ => apply negb_true_iff in H
  | H : negb _ = false |- _ => apply negb_false_iff in H
  end.

(** Decide the boolean comparison a goal branches on, when [lia] can. *)
Ltac zbool :=
  repeat match goal with
  | |- context [?a <=? ?b] =>
      first [ rewrite (proj2 (Z.leb_le a b)) by lia
            | rewrite (proj2 (Z.leb_gt a b)) by lia ]
  | |- context [?a <? ?b] =>
      first [ rewrite (proj2 (Z.ltb_lt a b)) by lia
            | rewrite (proj2 (Z.ltb_ge a b)) by lia ]
  | |- context [?a =? ?b] =>
      first [ rewrite (proj2 (Z.eqb_eq a b)) by lia
            | rewrite (proj2 (Z.eqb_neq a b)) by lia ]
  end.

(** Prove a decidable closed proposition by evaluation. *)
Ltac vm_decide := apply (bool_decide_unpack _); vm_compute; exact I.

(** ** Machine integers

    A w-bit unsigned integer is a [Z]; every C conversion that can drop bits is
    an explicit [wrap]. *)


Definition wrap (w z : Z) : Z := z mod 2 ^ w.
Abbreviation u8 := (wrap 8).
Abbreviation u16 := (wrap 16).
Abbreviation u32 := (wrap 32).
Abbreviation u64 := (wrap 64).

Definition UINT32_MAX : Z := 4294967295.
Definition UINT64_MAX : Z := 18446744073709551615.

(** [in_w w z]: [z] is a value of a [w]-bit unsigned type. *)
Definition in_w (w z : Z) : Prop := 0 <= z < 2 ^ w.
Abbreviation is_u8 := (in_w 8).
Abbreviation is_u16 := (in_w 16).
Abbreviation is_u32 := (in_w 32).
Abbreviation is_u64 := (in_w 64).

#[export] Instance in_w_dec w z : Decision (in_w w z).
Proof. unfold in_w. apply _. Defined.

(** C truth value of an integer expression. *)
Definition c_true (z : Z) : bool := negb (z =? 0).
(** [(x & mask) != 0] *)
Definition bits_set (x mask : Z) : bool := c_true (Z.land x mask).

Lemma pow2_pos w : 0 <= w → 0 < 2 ^ w.
Proof. intros. apply Z.pow_pos_nonneg; lia. Qed.

Lemma wrap_in_w w z : 0 <= w → in_w w (wrap w z).
Proof. intros H. apply Z.mod_pos_bound, pow2_pos, H. Qed.

Lemma wrap_id w z : in_w w z → wrap w z = z.
Proof. apply Z.mod_small. Qed.

Lemma wrap_wrap w z : 0 <= w → wrap w (wrap w z) = wrap w z.
Proof. intros. by apply wrap_id, wrap_in_w. Qed.

Lemma wrap_add_l w a b : wrap w (wrap w a + b) = wrap w (a + b).
Proof. unfold wrap. by rewrite Zplus_mod_idemp_l. Qed.

Lemma wrap_sub_l w a b : wrap w (wrap w a - b) = wrap w (a - b).
Proof. unfold wrap. by rewrite Zminus_mod_idemp_l. Qed.

Lemma in_w_mono v w z : 0 <= v <= w → in_w v z → in_w w z.
Proof.
  unfold in_w. intros Hvw [Hz1 Hz2]. split; [lia|].
  eapply Z.lt_le_trans; [done|]. apply Z.pow_le_mono_r; lia.
Qed.

(** Bits at or above the width of a [w]-bit value are zero. *)
Lemma in_w_testbit_high w z i : in_w w z → 0 <= w <= i → Z.testbit z i = false.
Proof.
  intros Hz Hi. rewrite <- (wrap_id w z Hz). unfold wrap.
  apply Z.mod_pow2_bits_high; lia.
Qed.

Lemma in_w_bits w z :
  0 <= w → 0 <= z → (∀ i, w <= i → Z.testbit z i = false) → in_w w z.
Proof.
  intros Hw Hz Hb. split; [done|].
  destruct (Z.eq_dec z 0) as [->|Hnz]; [by apply pow2_pos|].
  destruct (Z.lt_ge_cases z (2 ^ w)) as [?|Hge]; [done|].
  assert (w <= Z.log2 z) as Hl by (apply Z.log2_le_pow2; lia).
  specialize (Hb _ Hl). rewrite Z.bit_log2 in Hb; [done|lia].
Qed.

Lemma lxor_in_w w a b : 0 <= w → in_w w a → in_w w b → in_w w (Z.lxor a b).
Proof.
  intros Hw Ha Hb. apply in_w_bits; [done| |].
  - apply Z.lxor_nonneg. unfold in_w in *. lia.
  - intros i Hi. rewrite Z.lxor_spec.
    rewrite (in_w_testbit_high w a i), (in_w_testbit_high w b i); auto with lia.
Qed.

Lemma lor_in_w w a b : 0 <= w → in_w w a → in_w w b → in_w w (Z.lor a b).
Proof.
  intros Hw Ha Hb. apply in_w_bits; [done| |].
  - apply Z.lor_nonneg. unfold in_w in *. lia.
  - intros i Hi. rewrite Z.lor_spec.
    rewrite (in_w_testbit_high w a i), (in_w_testbit_high w b i); auto with lia.
Qed.

Lemma land_in_w_l w a b : 0 <= w → in_w w a → in_w w (Z.land a b).
Proof.
  intros Hw Ha. apply in_w_bits; [done| |].
  - apply Z.land_nonneg. unfold in_w in *. lia.
  - intros i Hi. rewrite Z.land_spec.
    by rewrite (in_w_testbit_high w a i) by auto with lia.
Qed.

Lemma shiftr_in_w w n z : 0 <= n → 0 <= w → in_w (w + n) z → in_w w (Z.shiftr z n).
Proof.
  intros Hn Hw [Hz1 Hz2]. unfold in_w. rewrite Z.shiftr_div_pow2 by lia.
  pose proof (pow2_pos n Hn). split; [apply Z.div_pos; lia|].
  apply Z.div_lt_upper_bound; [lia|]. rewrite <- Z.pow_add_r by lia.
  by replace (n + w) with (w + n) by lia.
Qed.

(** Truncation is the low-bits mask. *)
Lemma wrap_testbit w z i :
  0 <= w → Z.testbit (wrap w z) i = bool_decide (i < w) && Z.testbit z i.
Proof.
  intros Hw. unfold wrap. case_bool_decide as Hi; simpl.
  - destruct (Z.lt_ge_cases i 0).
    + by rewrite !Z.testbit_neg_r by done.
    + by rewrite Z.mod_pow2_bits_low by done.
  - apply Z.mod_pow2_bits_high. lia.
Qed.

Lemma wrap_lxor w a b : 0 <= w → wrap w (Z.lxor a b) = Z.lxor (wrap w a) (wrap w b).
Proof.
  intros Hw. apply Z.bits_inj. intros i.
  rewrite Z.lxor_spec, !wrap_testbit, Z.lxor_spec by done.
  case_bool_decide; simpl; [done|]. reflexivity.
Qed.

Lemma bits_set_pow2 x k : 0 <= k → bits_set x (2 ^ k) = Z.testbit x k.
Proof.
  intros Hk. unfold bits_set, c_true.
  assert (Z.land x (2 ^ k) = if Z.testbit x k then 2 ^ k else 0) as ->.
  { apply Z.bits_inj. intros i. rewrite Z.land_spec, Z.pow2_bits_eqb by done.
    destruct (Z.eqb_spec k i) as [->|Hne].
    - rewrite andb_true_r. destruct (Z.testbit x i); [|by rewrite Z.bits_0].
      by rewrite Z.pow2_bits_true.
    - rewrite andb_false_r. destruct (Z.testbit x k); [|by rewrite Z.bits_0].
      by rewrite Z.pow2_bits_false. }
  destruct (Z.testbit x k); [|done]. pose proof (pow2_pos k Hk). by zbool.
Qed.

Lemma lxor_swap a b c d :
  Z.lxor (Z.lxor a b) (Z.lxor c d) = Z.lxor (Z.lxor a c) (Z.lxor b d).
Proof.
  rewrite !Z.lxor_assoc. f_equal. rewrite <- !Z.lxor_assoc. f_equal. apply Z.lxor_comm.
Qed.

Lemma lxor_cancel_r a b c : Z.lxor a c = Z.lxor b c → a = b.
Proof.
  intros H%(f_equal (λ z, Z.lxor z c)).
  by rewrite !Z.lxor_assoc, !Z.lxor_nilpotent, !Z.lxor_0_r in H.
Qed.

Lemma lxor_cancel_l a b c : Z.lxor c a = Z.lxor c b → a = b.
Proof. rewrite !(Z.lxor_comm c). apply lxor_cancel_r. Qed.

Lemma land_ones_wrap w z : 0 <= w → Z.land z (2 ^ w - 1) = wrap w z.
Proof. intros. replace (2 ^ w - 1) with (Z.ones w) by (rewrite Z.ones_equiv; lia).
  by rewrite Z.land_ones by done. Qed.

Lemma land_255 z : Z.land z 255 = u8 z.
Proof. apply (land_ones_wrap 8). lia. Qed.

(** [lo | (hi << n)] is positional when [lo] has [n] bits. *)
Lemma lor_shiftl_add n lo hi :
  0 <= n → in_w n lo → Z.lor lo (Z.shiftl hi n) = lo + hi * 2 ^ n.
Proof.
  intros Hn Hlo. rewrite <- Z.shiftl_mul_pow2 by done.
  assert (Z.land lo (Z.shiftl hi n) = 0) as Hdisj.
  { apply Z.bits_inj. intros i. rewrite Z.bits_0, Z.land_spec.
    destruct (Z.lt_ge_cases i n).
    - rewrite Z.shiftl_spec_low by done. apply andb_false_r.
    - by rewrite (in_w_testbit_high n lo i) by auto with lia. }
  rewrite <- Z.lxor_lor by done. symmetry. by apply Z.add_nocarry_lxor.
Qed.

(** ** Little-endian fields *)

(** [(uint16_t)b0 | ((uint16_t)b1 << 8)] *)
Definition le16 (b0 b1 : Z) : Z := Z.lor b0 (Z.shiftl b1 8).
(** The two bytes [x & 0xff], [x >> 8] of a 16-bit value, as stored in bytes. *)
Definition lo8 (x : Z) : Z := u8 (Z.land x 255).
Definition hi8 (x : Z) : Z := u8 (Z.shiftr x 8).

Lemma lo8_u8 x : is_u8 (lo8 x).
Proof. by apply wrap_in_w. Qed.

Lemma hi8_u8 x : is_u8 (hi8 x).
Proof. by apply wrap_in_w. Qed.

Lemma le16_eq b0 b1 : is_u8 b0 → le16 b0 b1 = b0 + 256 * b1.
Proof. intros H. unfold le16. rewrite (lor_shiftl_add 8) by done. lia. Qed.

Lemma le16_u16 b0 b1 : is_u8 b0 → is_u8 b1 → is_u16 (le16 b0 b1).
Proof. intros H0 H1. rewrite le16_eq by done. unfold in_w in *. lia. Qed.

Lemma lo8_eq x : lo8 x = x mod 256.
Proof. unfold lo8. rewrite land_255. by apply wrap_wrap. Qed.

Lemma hi8_eq x : is_u16 x → hi8 x = x / 256.
Proof.
  intros H. unfold hi8. rewrite wrap_id; [by rewrite Z.shiftr_div_pow2|].
  by apply (shiftr_in_w 8 8).
Qed.

Lemma le16_split x : is_u16 x → le16 (lo8 x) (hi8 x) = x.
Proof.
  intros H. rewrite le16_eq by apply lo8_u8. rewrite lo8_eq, hi8_eq by done.
  pose proof (Z.div_mod x 256). lia.
Qed.

Lemma lo8_le16 b0 b1 : is_u8 b0 → is_u8 b1 → lo8 (le16 b0 b1) = b0.
Proof.
  intros H0 H1. rewrite lo8_eq, le16_eq by done. unfold in_w in *.
  rewrite Z.mul_comm, Z_mod_plus_full. apply Z.mod_small. lia.
Qed.

Lemma hi8_le16 b0 b1 : is_u8 b0 → is_u8 b1 → hi8 (le16 b0 b1) = b1.
Proof.
  intros H0 H1. rewrite hi8_eq by by apply le16_u16. rewrite le16_eq by done.
  unfold in_w in *. rewrite Z.mul_comm, Z_div_plus by lia.
  rewrite Z.div_small by lia. lia.
Qed.

(** ** Target architecture

    [size_t] and pointers are 32 bits wide on the boards and 64 bits wide in the
    simulator; definitions whose arithmetic is done in [size_t] take the width
    from this interface. *)

Class Arch := {
  size_bits : Z;
  size_bits_ok : size_bits = 32 ∨ size_bits = 64
}.

Definition arch32 : Arch := {| size_bits := 32; size_bits_ok := or_introl eq_refl |}.
Definition arch64 : Arch := {| size_bits := 64; size_bits_ok := or_intror eq_refl |}.

(** Truncation to [size_t]. *)
Definition usz `{Arch} (z : Z) : Z := wrap size_bits z.

Lemma usz_id `{Arch} z : 0 <= z < 2 ^ 32 → usz z = z.
Proof.
  intros H0. apply wrap_id. apply (in_w_mono 32); [|done].
  destruct size_bits_ok as [-> | ->]; lia.
Qed.

(** ** Byte buffers

    A C byte array is a [list Z].  Indices and sizes are [Z]; an access outside
    the array is [None], so a definition that returns [Some] never touched
    memory it does not own. *)

Definition blen {A} (b : list A) : Z := Z.of_nat (length b).

(** [b[i]] *)
Definition rd {A} (b : list A) (i : Z) : option A :=
  if 0 <=? i then b !! Z.to_nat i else None.

(** [b[i] = v] *)
Definition wr {A} (b : list A) (i : Z) (v : A) : option (list A) :=
  if (0 <=? i) && (i <? blen b) then Some (<[Z.to_nat i := v]> b) else None.

(** reading [n] elements from [b + off] *)
Definition rd_bytes {A} (b : list A) (off n : Z) : option (list A) :=
  if (0 <=? off) && (0 <=? n) && (off + n <=? blen b)
  then Some (take (Z.to_nat n) (drop (Z.to_nat off) b)) else None.

(** [memcpy (b + off, src, sizeof src)] *)
Definition wr_bytes {A} (b : list A) (off : Z) (src : list A) : option (list A) :=
  if (0 <=? off) && (off + blen src <=? blen b)
  then Some (take (Z.to_nat off) b ++ src ++ drop (Z.to_nat off + length src) b)
  else None.

(** [memmove (b, b + off, n)] *)
Definition move_down {A} (b : list A) (off n : Z) : option (list A) :=
  s ← rd_bytes b off n; wr_bytes b 0 s.

(** An array of [n] zero bytes ([memset] / [= {0}]). *)
Definition zeros (n : Z) : list Z := replicate (Z.to_nat n) 0.

Lemma blen_nonneg {A} (b : list A) : 0 <= blen b.
Proof. unfold blen. lia. Qed.

Lemma blen_app {A} (a b : list A) : blen (a ++ b) = blen a + blen b.
Proof. unfold blen. rewrite length_app. lia. Qed.

Lemma blen_cons {A} (x : A) b : blen (x :: b) = 1 + blen b.
Proof. unfold blen. simpl. lia. Qed.

Lemma blen_nil {A} : blen (@nil A) = 0.
Proof. done. Qed.

Lemma blen_zeros n : 0 <= n → blen (zeros n) = n.
Proof. intros. unfold blen, zeros. rewrite length_replicate. lia. Qed.

Lemma blen_take {A} n (b : list A) :
  0 <= n <= blen b → blen (take (Z.to_nat n) b) = n.
Proof. unfold blen. intros. rewrite length_take. lia. Qed.

Lemma blen_drop {A} n (b : list A) :
  0 <= n <= blen b → blen (drop (Z.to_nat n) b) = blen b - n.
Proof. unfold blen. intros. rewrite length_drop. lia. Qed.

Lemma zeros_split n k : 0 <= k <= n → zeros n = zeros k ++ zeros (n - k).
Proof. intros. unfold zeros. rewrite <- replicate_add. f_equal. lia. Qed.

Lemma rd_ok {A} (b : list A) i : 0 <= i < blen b → is_Some (rd b i).
Proof.
  intros H. unfold rd. rewrite (proj2 (Z.leb_le 0 i)) by lia.
  apply lookup_lt_is_Some. unfold blen in H. lia.
Qed.

Lemma wr_ok {A} (b : list A) i v :
  0 <= i < blen b → wr b i v = Some (<[Z.to_nat i := v]> b).
Proof.
  intros H. unfold wr.
  by rewrite (proj2 (Z.leb_le 0 i)), (proj2 (Z.ltb_lt i (blen b))) by lia.
Qed.

Lemma rd_bytes_ok {A} (b : list A) off n :
  0 <= off → 0 <= n → off + n <= blen b →
  rd_bytes b off n = Some (take (Z.to_nat n) (drop (Z.to_nat off) b)).
Proof.
  intros. unfold rd_bytes.
  rewrite (proj2 (Z.leb_le 0 off)), (proj2 (Z.leb_le 0 n)) by lia.
  by rewrite (proj2 (Z.leb_le (off + n) (blen b))) by lia.
Qed.

Lemma wr_bytes_ok {A} (b : list A) off src :
  0 <= off → off + blen src <= blen b →
  wr_bytes b off src =
    Some (take (Z.to_nat off) b ++ src ++ drop (Z.to_nat off + length src) b).
Proof.
  intros. unfold wr_bytes.
  rewrite (proj2 (Z.leb_le 0 off)) by lia.
  by rewrite (proj2 (Z.leb_le (off + blen src) (blen b))) by lia.
Qed.

(** Reading and writing at a known split of the buffer. *)
Lemma rd_bytes_app {A} (l m r : list A) :
  rd_bytes (l ++ m ++ r) (blen l) (blen m) = Some m.
Proof.
  rewrite rd_bytes_ok; [|apply blen_nonneg|apply blen_nonneg|].
  - unfold blen. rewrite !Nat2Z.id, drop_app_length, take_app_length. done.
  - rewrite !blen_app. pose proof (blen_nonneg r). lia.
Qed.

Lemma wr_bytes_app {A} (l m m' r : list A) :
  length m = length m' → wr_bytes (l ++ m ++ r) (blen l) m' = Some (l ++ m' ++ r).
Proof.
  intros Hm. rewrite wr_bytes_ok; [|apply blen_nonneg|].
  - f_equal. unfold blen. rewrite !Nat2Z.id, take_app_length. do 2 f_equal.
    rewrite <- Hm, (app_assoc l m r), <- length_app. apply drop_app_length.
  - rewrite !blen_app. unfold blen. rewrite Hm. lia.
Qed.

Lemma wr_bytes_length {A} (b b' : list A) off src :
  wr_bytes b off src = Some b' → length b' = length b.
Proof.
  unfold wr_bytes. destruct (0 <=? off) eqn:E0; [|done].
  destruct (off + blen src <=? blen b) eqn:E1; [|done]. simpl.
  intros [= <-]. apply Z.leb_le in E0, E1. unfold blen in E1.
  rewrite !length_app, length_take, length_drop. lia.
Qed.

Lemma rd_bytes_length {A} (b s : list A) off n :
  rd_bytes b off n = Some s → blen s = n ∧ 0 <= off ∧ off + n <= blen b.
Proof.
  unfold rd_bytes. destruct (0 <=? off) eqn:E0; [|done].
  destruct (0 <=? n) eqn:E1; [|done].
  destruct (off + n <=? blen b) eqn:E2; [|done]. simpl. intros [= <-].
  apply Z.leb_le in E0, E1, E2. split; [|lia].
  rewrite blen_take; [done|]. rewrite blen_drop; lia.
Qed.

Lemma rd_app_l {A} (l : list A) x r : rd (l ++ x :: r) (blen l) = Some x.
Proof.
  unfold rd, blen. rewrite (proj2 (Z.leb_le _ _)) by lia.
  rewrite Nat2Z.id. by apply list_lookup_middle.
Qed.

Lemma wr_app_l {A} (l : list A) x y r : wr (l ++ x :: r) (blen l) y = Some (l ++ y :: r).
Proof.
  rewrite wr_ok.
  - f_equal. unfold blen. rewrite Nat2Z.id. rewrite insert_app_r_alt by lia.
    by rewrite Nat.sub_diag.
  - rewrite blen_app, blen_cons. pose proof (blen_nonneg l). pose proof (blen_nonneg r). lia.
Qed.

(** [if (n > 0) memcpy (dst + off, src, n);] *)
Lemma copy_if_ok {A} (dst src : list A) off n :
  0 <= off → 0 <= n <= blen src → off + n <= blen dst →
  (if 0 <? n then p ← rd_bytes src 0 n; wr_bytes dst off p else Some dst) =
    Some (take (Z.to_nat off) dst ++ take (Z.to_nat n) src
          ++ drop (Z.to_nat off + Z.to_nat n) dst).
Proof.
  intros Hoff Hn Hlen. destruct (0 <? n) eqn:E.
  - rewrite rd_bytes_ok by lia. cbn [mbind option_bind]. rewrite drop_0.
    rewrite wr_bytes_ok; [|lia|rewrite blen_take by lia; lia].
    do 4 f_equal. rewrite length_take. unfold blen in Hn. lia.
  - apply Z.ltb_ge in E. replace n with 0 by lia. simpl.
    by rewrite Nat.add_0_r, take_drop.
Qed.

Lemma rd_bytes_prefix {A} (d r : list A) : rd_bytes (d ++ r) 0 (blen d) = Some d.
Proof. exact (rd_bytes_app [] d r). Qed.

Lemma rd_bytes_all {A} (b : list A) n : blen b = n → rd_bytes b 0 n = Some b.
Proof. intros <-. rewrite <- (app_nil_r b) at 1. apply rd_bytes_prefix. Qed.

Lemma wr_bytes_prefix {A} (b src : list A) :
  blen src <= blen b → wr_bytes b 0 src = Some (src ++ drop (length src) b).
Proof. intros. by rewrite wr_bytes_ok by lia. Qed.

Lemma wr_bytes_lookup {A} (b b' src : list A) off i :
  wr_bytes b off src = Some b' →
  b' !! i = if decide (off <= Z.of_nat i < off + blen src) then src !! (i - Z.to_nat off)%nat
            else b !! i.
Proof.
  unfold wr_bytes. destruct (0 <=? off) eqn:E0; [|done].
  destruct (off + blen src <=? blen b) eqn:E1; [|done]. cbn [andb]. intros [= <-].
  apply Z.leb_le in E0, E1. unfold blen in *.
  destruct (decide (i < Z.to_nat off)%nat) as [Hi|Hi].
  - rewrite lookup_app_l by (rewrite length_take; lia). rewrite lookup_take_lt by done.
    by rewrite decide_False by lia.
  - rewrite lookup_app_r by (rewrite length_take; lia). rewrite length_take, Nat.min_l by lia.
    case_decide as Hd.
    + by rewrite lookup_app_l by lia.
    + rewrite lookup_app_r by lia. rewrite lookup_drop. f_equal. lia.
Qed.

(** A write elsewhere does not change what is read. *)
Lemma rd_wr_disjoint {A} (b b' src : list A) off off' n :
  wr_bytes b off src = Some b' → off' + n <= off ∨ off + blen src <= off' →
  rd_bytes b' off' n = rd_bytes b off' n.
Proof.
  intros Hw Hd. unfold rd_bytes, blen. rewrite (wr_bytes_length _ _ _ _ Hw).
  destruct (0 <=? off') eqn:E0; [|done]. destruct (0 <=? n) eqn:E1; [|done]. bool_hyps.
  destruct (_ <=? Z.of_nat (length b)); [|done]. cbn [andb]. f_equal. apply list_eq. intros i.
  destruct (decide (i < Z.to_nat n)%nat) as [Hi|Hi].
  - rewrite !lookup_take_lt, !lookup_drop by done. rewrite (wr_bytes_lookup _ _ _ _ _ Hw).
    by rewrite decide_False by lia.
  - by rewrite !lookup_take_ge by lia.
Qed.

Lemma rd_lookup {A} (b : list A) i : 0 <= i → rd b i = b !! Z.to_nat i.
Proof. intros. unfold rd. by rewrite (proj2 (Z.leb_le _ _)) by lia. Qed.

Lemma rd_nat {A} (b : list A) (i : nat) : rd b (Z.of_nat i) = b !! i.
Proof. rewrite rd_lookup by lia. by rewrite Nat2Z.id. Qed.

Lemma wr_lookup {A} (b : list A) i v :
  0 <= i → (Z.to_nat i < length b)%nat → wr b i v = Some (<[Z.to_nat i := v]> b).
Proof. intros. apply wr_ok. unfold blen. lia. Qed.

Lemma move_down_ok {A} (b : list A) off n :
  0 <= off → 0 <= n → off + n <= blen b →
  move_down b off n =
    Some (take (Z.to_nat n) (drop (Z.to_nat off) b) ++ drop (Z.to_nat n) b).
Proof.
  intros Hoff Hn Hlen. unfold move_down. rewrite rd_bytes_ok by done. cbn [mbind option_bind].
  set (s := take _ (drop _ b)).
  assert (blen s = n) as Hs by (unfold s; rewrite blen_take; [done|]; rewrite blen_drop; lia).
  rewrite wr_bytes_ok by lia. simpl. do 3 f_equal. unfold blen in Hs. lia.
Qed.

Lemma Forall_zeros n : Forall is_u8 (zeros n).
Proof. apply Forall_replicate. unfold in_w. lia. Qed.

(** ** Parts of a buffer *)

Definition at_offset (off n : Z) (c : list Z) : list Z :=
  take (Z.to_nat n) (drop (Z.to_nat off) c).

(** [c] holds [b] at [off]. *)
Definition holds (off : Z) (b c : list Z) : Prop :=
  at_offset off (blen b) c = b ∧ off + blen b <= blen c.

Lemma at_offset_rd off n c :
  0 <= off → 0 <= n → off + n <= blen c → rd_bytes c off n = Some (at_offset off n c).
Proof. apply rd_bytes_ok. Qed.

Lemma at_offset_wr c c' off b p n :
  wr_bytes c off b = Some c' → 0 <= p → 0 <= n → p + n <= blen c →
  p + n <= off ∨ off + blen b <= p → at_offset p n c' = at_offset p n c.
Proof.
  intros Hw Hp Hn Hc Hd. pose proof (rd_wr_disjoint _ _ _ _ _ _ Hw Hd) as E.
  pose proof (wr_bytes_length _ _ _ _ Hw) as Hl.
  rewrite !at_offset_rd in E by (unfold blen in *; lia). by injection E.
Qed.

Lemma holds_wr c c' off b : wr_bytes c off b = Some c' → holds off b c'.
Proof.
  intros Hw. pose proof (wr_bytes_length _ _ _ _ Hw) as Hl. unfold wr_bytes in Hw.
  destruct (0 <=? off) eqn:E0; [|done]. destruct (off + blen b <=? blen c) eqn:E1; [|done].
  cbn in Hw. bool_hyps. split; [|unfold blen in *; lia]. injection Hw as <-. unfold at_offset.
  rewrite drop_app_length' by (rewrite length_take; unfold blen in *; lia).
  apply take_app_length'. unfold blen. lia.
Qed.

Lemma holds_wr_snoc c c' off a b :
  0 <= off → holds off a c → wr_bytes c (off + blen a) b = Some c' → holds off (a ++ b) c'.
Proof.
  intros Ho [Ha Hla] Hw. destruct (holds_wr _ _ _ _ Hw) as [Hb Hlb].
  pose proof (blen_nonneg a). pose proof (blen_nonneg b).
  split; [|rewrite blen_app; lia]. rewrite <- (at_offset_wr _ _ _ _ off (blen a) Hw) in Ha by lia.
  unfold at_offset in *. rewrite blen_app, Z2Nat.inj_add by lia.
  rewrite <- (take_drop (Z.to_nat (blen a)) (drop (Z.to_nat off) c')), Ha.
  rewrite drop_drop, take_app_add' by (unfold blen; lia). f_equal.
  by rewrite <- (Z2Nat.inj_add off) by lia.
Qed.

(** ** Linear registers

    A step on [w]-bit words that is linear over exclusive or and takes only 0 to 0
    is injective, and so are its iterates. *)

Section Linear.
Context (w : Z) (step : Z → Z).
Hypothesis w_pos : 0 <= w.
Hypothesis step_lxor : ∀ a b, step (Z.lxor a b) = Z.lxor (step a) (step b).
Hypothesis step_in_w : ∀ c, in_w w c → in_w w (step c).
Hypothesis step_zero : ∀ c, in_w w c → step c = 0 → c = 0.

Lemma iter_lxor n a b :
  Nat.iter n step (Z.lxor a b) = Z.lxor (Nat.iter n step a) (Nat.iter n step b).
Proof. induction n as [|n IH]; simpl; [done|]. by rewrite IH, step_lxor. Qed.

Lemma iter_in_w n c : in_w w c → in_w w (Nat.iter n step c).
Proof. intros Hc. induction n as [|n IH]; [done|]. by apply step_in_w. Qed.

Lemma iter_inj n a b : in_w w a → in_w w b → Nat.iter n step a = Nat.iter n step b → a = b.
Proof.
  intros Ha Hb E. apply Z.lxor_eq.
  assert (Nat.iter n step (Z.lxor a b) = 0) as H0 by (rewrite iter_lxor, E; apply Z.lxor_nilpotent).
  assert (in_w w (Z.lxor a b)) as Hx by (by apply lxor_in_w).
  clear E. induction n as [|n IH]; [done|]. by apply IH, step_zero; [apply iter_in_w|].
Qed.
End Linear.

(** ** Shifting

    [for (j = i; j < i + n; j++) l[j] = l[j + 1];] *)

Fixpoint shift_left {A} (n : nat) (j : Z) (l : list A) : option (list A) :=
  match n with
  | O => Some l
  | S n => x ← rd l (j + 1); l ← wr l j x; shift_left n (j + 1) l
  end.

(** The entry at [i] goes, the last one moved is still there behind the others. *)
Lemma shift_left_spec {A} (a m b : list A) x :
  ∃ z, z ∈ x :: m ∧
    shift_left (length m) (blen a) (a ++ x :: m ++ b) = Some (a ++ m ++ z :: b).
Proof.
  revert a x. induction m as [|y m IH]; intros a x; [by exists x; split; [left|]|].
  destruct (IH (a ++ [y]) y) as (z & Hz & E). exists z. split; [by right|].
  cbn [length shift_left app]. replace (blen a + 1) with (blen (a ++ [x])).
  2: { by rewrite blen_app, blen_cons, blen_nil. }
  replace (a ++ x :: y :: m ++ b) with ((a ++ [x]) ++ y :: m ++ b) by by rewrite <- app_assoc.
  rewrite rd_app_l. cbn [mbind option_bind].
  rewrite <- app_assoc. cbn [app]. rewrite wr_app_l. cbn [mbind option_bind].
  replace (blen (a ++ [x])) with (blen (a ++ [y])) by by rewrite !blen_app, !blen_cons.
  rewrite <- !app_assoc in E. exact E.
Qed.

(** ** Rings

    [count] elements of an array from index [head] on, with wrap-around. *)

Definition rot {A} (head : nat) (q : list A) : list A := drop head q ++ take head q.

Lemma rot_length {A} head (q : list A) : length (rot head q) = length q.
Proof. unfold rot. rewrite length_app, length_drop, length_take. lia. Qed.

Lemma rot_next {A} (q : list A) head x :
  q !! head = Some x →
  ∃ r, rot head q = x :: r ∧ rot ((head + 1) `mod` length q)%nat q = r ++ [x].
Proof.
  intros Hx. pose proof (lookup_lt_Some _ _ _ Hx) as Hl. unfold rot.
  exists (drop (S head) q ++ take head q). rewrite (drop_S _ _ _ Hx). split; [done|].
  rewrite Nat.add_1_r. destruct (decide (S head = length q)) as [E|E].
  - rewrite E, Nat.Div0.mod_same, drop_0, take_0, drop_all, !app_nil_r. cbn [app].
    rewrite <- (firstn_all q) at 1. rewrite <- E. by apply take_S_r.
  - rewrite Nat.mod_small by lia. rewrite (take_S_r _ _ _ Hx), app_assoc. done.
Qed.

Lemma rot_insert {A} (q : list A) head c (x : A) :
  (head < length q)%nat → (c < length q)%nat →
  rot head (<[((head + c) `mod` length q)%nat := x]> q) = <[c := x]> (rot head q).
Proof.
  intros Hh Hc. unfold rot. destruct (decide (head + c < length q)%nat) as [E|E].
  - rewrite Nat.mod_small by done. rewrite drop_insert_ge, take_insert_ge by lia.
    rewrite insert_app_l by (rewrite length_drop; lia). do 2 f_equal. lia.
  - assert ((head + c) `mod` length q = head + c - length q)%nat as ->.
    { symmetry. apply (Nat.mod_unique _ _ 1); lia. }
    rewrite drop_insert_lt, take_insert_lt by lia.
    rewrite insert_app_r_alt by (rewrite length_drop; lia). rewrite length_drop.
    do 2 f_equal. lia.
Qed.

Lemma take_insert_snoc {A} (l : list A) c (x : A) :
  (c < length l)%nat → take (S c) (<[c := x]> l) = take c l ++ [x].
Proof.
  intros. rewrite (take_S_r _ _ x) by (by apply list_lookup_insert_eq).
  by rewrite take_insert_ge by lia.
Qed.

(** ** Automation *)

Create HintDb cint.
#[export] Hint Resolve wrap_in_w lo8_u8 hi8_u8 le16_u16 lxor_in_w lor_in_w
  land_in_w_l blen_nonneg : cint.
#[export] Hint Extern 1 (0 <= _) => lia : cint.
#[export] Hint Extern 1 (_ <= _ <= _) => lia : cint.
Create Rewrite HintDb blen.
#[export] Hint Rewrite @blen_app @blen_cons @blen_nil : blen.

(** A write at a literal index of a list with an explicit prefix. *)
Ltac wr_lit :=
  rewrite wr_ok by (unfold blen in *; simpl length in *; lia);
  cbn [mbind option_bind]; simpl Z.to_nat; cbn [insert list_insert].

(** Split off the first element of a buffer known to be long enough. *)
Ltac head_byte o :=
  destruct o as [|? o]; [exfalso; unfold blen in *; simpl in *; lia|].
