(* ===== verification/Runs.v ===== *)
(** * Loops and runs of operations

    Counted loops [for (i = a; i < a + n && c; i++) body] on a state, with a body that
    may fault; sequences of operations, each with a result, and the induction that
    carries a step-by-step refinement to every sequence. *)

From Stdlib Require Import ZArith Lia.
From stdpp Require Import base tactics option numbers list.
From S2P Require Import Prelude.

(** ** Counted loops *)

(** At most [n] rounds from [i]; the loop ends when [c] does not hold ([break]). *)
Fixpoint for_while {S : Type} (n : nat) (i : Z) (c : Z → bool) (body : Z → S → option S) (s : S)
    : option S :=
  match n with
  | O => Some s
  | Datatypes.S n => if c i then s ← body i s; for_while n (i + 1) c body s else Some s
  end.

(** [for (i = a; i < b; i++)] *)
Definition for_z {S : Type} (a b : Z) (body : Z → S → option S) (s : S) : option S :=
  for_while (Z.to_nat (b - a)) a (λ _, true) body s.

Lemma for_while_inv {S : Type} (P : Z → S → Prop) n i c body (s : S) :
  P i s →
  (∀ j s, i <= j < i + Z.of_nat n → c j = true → P j s → ∃ s', body j s = Some s' ∧ P (j + 1) s') →
  (∀ j s, P j s → c j = false → P (i + Z.of_nat n) s) →
  ∃ s', for_while n i c body s = Some s' ∧ P (i + Z.of_nat n) s'.
Proof.
  revert i s. induction n as [|n IH]; intros i s Hs Hb Hc.
  { exists s. split; [done|]. by rewrite Z.add_0_r. }
  cbn [for_while]. destruct (c i) eqn:Ec; [|exists s; split; [done|by apply (Hc i s)]].
  destruct (Hb i s) as (s1 & -> & H1); [lia|done|done|]. cbn [mbind option_bind].
  replace (i + Z.of_nat (Datatypes.S n)) with (i + 1 + Z.of_nat n) in * by lia.
  apply IH; [done|intros j s2 Hj; apply Hb; lia|done].
Qed.

Lemma for_while_ext {S : Type} n i c (f g : Z → S → option S) s :
  (∀ j s, i <= j < i + Z.of_nat n → c j = true → f j s = g j s) →
  for_while n i c f s = for_while n i c g s.
Proof.
  revert i s. induction n as [|n IH]; intros i s Hf; [done|]. cbn [for_while].
  destruct (c i) eqn:Ec; [|done]. rewrite Hf by (done || lia).
  destruct (g i s) as [s1|]; [|done]. apply IH. intros j s2 Hj. apply Hf. lia.
Qed.

(** [body] for each element of the list, in order. *)
Fixpoint each {X S : Type} (body : X → S → option S) (l : list X) (s : S) : option S :=
  match l with [] => Some s | x :: l => s ← body x s; each body l s end.

(** ** Runs *)

(** The results of the operations, and the last state. *)
Fixpoint runs {O R S : Type} (step : O → S → option (R * S)) (l : list O) (s : S) : option (list R * S) :=
  match l with
  | [] => Some ([], s)
  | o :: l => '(r, s) ← step o s; '(rs, s) ← runs step l s; Some (r :: rs, s)
  end.

(** The outcome seen through an abstraction of the state. *)
Definition seen {R S M : Type} (abs : S → M) (x : option (R * S)) : option (R * M) :=
  '(r, s) ← x; Some (r, abs s).

Section Refines.
Context {O R S M : Type} (step : O → S → option (R * S)) (spec : O → M → option (R * M)).
Context (ok : O → Prop) (inv : S → Prop) (abs : S → M).

(** Each operation keeps the invariant, and does what its specification says. *)
Definition refines : Prop :=
  ∀ o s, ok o → inv s →
    spec o (abs s) = seen abs (step o s) ∧ ∀ r s', step o s = Some (r, s') → inv s'.

Lemma runs_refine l s :
  refines → Forall ok l → inv s →
  runs spec l (abs s) = seen abs (runs step l s) ∧ ∀ rs s', runs step l s = Some (rs, s') → inv s'.
Proof.
  intros Hr Hl. revert s. induction Hl as [|o l Ho _ IH]; intros s Hs.
  { split; [done|]. by intros rs s' [= _ <-]. }
  cbn [runs]. destruct (Hr o s Ho Hs) as [E Hi]. rewrite E.
  destruct (step o s) as [[r s1]|]; cbn [seen mbind option_bind]; [|done].
  destruct (IH s1 (Hi r s1 eq_refl)) as [E1 Hi1]. rewrite E1.
  destruct (runs step l s1) as [[rs s2]|]; cbn [seen mbind option_bind]; [|done].
  split; [done|]. intros rs' s' [= _ <-]. by eapply Hi1.
Qed.
End Refines.

Lemma runs_total {O R S} (step : O → S → option (R * S)) :
  (∀ o s, ∃ r s', step o s = Some (r, s')) → ∀ l s, ∃ x, runs step l s = Some x.
Proof.
  intros Ht l. induction l as [|o l IH]; intros s; cbn [runs]; [by eauto|].
  destruct (Ht o s) as (r & s1 & ->). cbn [mbind option_bind]. destruct (IH s1) as [[rs s2] ->]. cbn. eauto.
Qed.

Lemma runs_app {O R S} (step : O → S → option (R * S)) l1 l2 s rs1 s1 rs2 s2 :
  runs step l1 s = Some (rs1, s1) → runs step l2 s1 = Some (rs2, s2) →
  runs step (l1 ++ l2) s = Some (rs1 ++ rs2, s2).
Proof.
  revert s rs1. induction l1 as [|o l1 IH]; intros s rs1; cbn [runs app].
  { intros [= <- <-] E. exact E. }
  destruct (step o s) as [[r s']|]; cbn [mbind option_bind]; [|done].
  destruct (runs step l1 s') as [[rs s'']|] eqn:E1; cbn [mbind option_bind]; [|done].
  intros [= <- <-] E2. by rewrite (IH s' rs E1 E2).
Qed.
