(* ===== verification/CString.v ===== *)
(** * C strings

    Strings held in char arrays, the bytes up to the first NUL, with the library
    routines the kernel uses on them; then the texts of the services, literals as lists
    of bytes and the [printf] conversions they use: [%d], [%u], [%ld], [%lu] ([fmt_d]),
    [%-Ns] and [%-Nd] ([pad]), and the cut that [snprintf] makes to the size of its
    buffer ([row]). *)

From Stdlib Require Import ZArith Lia Ascii String.
From stdpp Require Import base tactics option numbers list.
From S2P Require Import Prelude.

(** The C string in a char array: the bytes before the first NUL. *)
Fixpoint c_str (b : list Z) : list Z :=
  match b with
  | [] => []
  | x :: b => if x =? 0 then [] else x :: c_str b
  end.

(** A string argument, without its terminator. *)
Definition is_cstr (s : list Z) : Prop := Forall (λ x, x ≠ 0) s.

#[export] Instance is_cstr_dec s : Decision (is_cstr s).
Proof. unfold is_cstr. apply _. Defined.

(** [strcmp (a, b) == 0] *)
Definition str_eq (a b : list Z) : bool := bool_decide (a = b).

(** [strncpy (dst, src, n)], for a [dst] of at least [n] bytes. *)
Definition strncpy (dst src : list Z) (n : nat) : list Z :=
  take n src ++ replicate (n - length src) 0 ++ drop n dst.

Lemma c_str_app_nul s r : c_str (s ++ 0 :: r) = c_str s.
Proof.
  induction s as [|x s IH]; [done|]. cbn [app c_str]. by rewrite IH.
Qed.

Lemma c_str_length s : blen (c_str s) <= blen s.
Proof.
  induction s as [|x s IH]; [done|]. cbn [c_str]. rewrite blen_cons.
  destruct (x =? 0); [pose proof (blen_nonneg s); rewrite blen_nil; lia|].
  rewrite blen_cons. lia.
Qed.

Lemma c_str_cons x b : x ≠ 0 → c_str (x :: b) = x :: c_str b.
Proof. intros H. cbn. by zbool. Qed.

Lemma c_str_app s r : is_cstr s → c_str (s ++ r) = s ++ c_str r.
Proof.
  intros Hs. induction Hs as [|x s Hx _ IH]; [done|]. cbn [app].
  by rewrite c_str_cons, IH.
Qed.

Lemma c_str_zeros n r : (0 < n)%nat → c_str (replicate n 0 ++ r) = [].
Proof. by destruct n; [lia|]. Qed.

Lemma c_str_cstr s : is_cstr (c_str s).
Proof.
  induction s as [|x s IH]; cbn; [constructor|].
  destruct (x =? 0) eqn:E; bool_hyps; [constructor|by constructor].
Qed.

Lemma is_cstr_take n s : is_cstr s → is_cstr (take n s).
Proof. apply Forall_take. Qed.

Lemma strncpy_length dst src n :
  (n <= length dst)%nat → length (strncpy dst src n) = length dst.
Proof.
  intros. unfold strncpy. rewrite !length_app, length_take, length_replicate, length_drop. lia.
Qed.

(** Copying a string that fits, or cutting one that does not, before a NUL. *)
Lemma c_str_strncpy dst src n :
  is_cstr src → dst !! n = Some 0 → c_str (strncpy dst src n) = take n src.
Proof.
  intros Hs Hn. unfold strncpy. rewrite c_str_app by by apply is_cstr_take.
  assert (∃ r, drop n dst = 0 :: r) as [r ->] by (eexists; by apply drop_S).
  destruct (n - length src)%nat as [|k]; cbn; by rewrite app_nil_r.
Qed.

(** A NUL bounds the string. *)
Lemma c_str_nul b n : b !! n = Some 0 → (length (c_str b) <= n)%nat.
Proof.
  revert n. induction b as [|x b IH]; intros n Hn; [done|]. cbn [c_str].
  destruct n as [|n]; [by injection Hn as ->|].
  destruct (x =? 0); cbn [length]; [lia|]. specialize (IH n Hn). lia.
Qed.

(** ** Literals and formats *)

(** A literal, without its terminator. *)
Fixpoint str (s : string) : list Z :=
  match s with
  | EmptyString => []
  | String c s => Z.of_nat (nat_of_ascii c) :: str s
  end.
Arguments str _%_string.

(** A literal that ends in a newline. *)
Definition ln (s : string) : list Z := str s ++ [10].
Arguments ln _%_string.

(** The decimal digits of a number below [10 ^ fuel]. *)
Fixpoint digits (fuel : nat) (n : Z) : list Z :=
  match fuel with
  | O => []
  | S fuel => if n <? 10 then [48 + n] else digits fuel (n / 10) ++ [48 + n mod 10]
  end.
Definition fmt_d (n : Z) : list Z := if n <? 0 then 45 :: digits 20 (- n) else digits 20 n.

Definition isspace (c : Z) : bool := (c =? 32) || ((9 <=? c) && (c <=? 13)).

(** [strtol (text, &end, 10)]: blanks, a sign and digits, clamped to a [long] of [bits] bits;
    [None] when there is no digit. *)
Definition isdigit (c : Z) : bool := (48 <=? c) && (c <=? 57).
Fixpoint leading (f : Z → bool) (l : list Z) : list Z :=
  match l with x :: l => if f x then x :: leading f l else [] | [] => [] end.
Definition strtol (bits : Z) (text : list Z) : option Z :=
  let t := drop (length (leading isspace text)) text in
  let neg := match t with 45 :: _ => true | _ => false end in
  let t := match t with 45 :: t => t | 43 :: t => t | _ => t end in
  match leading isdigit t with
  | [] => None
  | ds =>
    let n := foldl (λ n c, n * 10 + (c - 48)) 0 ds in
    Some (if neg then Z.max (- 2 ^ (bits - 1)) (- n) else Z.min (2 ^ (bits - 1) - 1) n)
  end.

(** Conversion to [long], which has the width of [size_t] on every target of the program. *)
Definition to_long `{Arch} (z : Z) : Z := (z + 2 ^ (size_bits - 1)) mod 2 ^ size_bits - 2 ^ (size_bits - 1).

Definition pad (width : nat) (text : list Z) : list Z :=
  text ++ replicate (width - length text) 32.

(** [snprintf (row, size, ...)] *)
Definition row (size : Z) (text : list Z) : list Z := take (Z.to_nat (size - 1)) text.

Lemma row_length size text : 0 < size → blen (row size text) < size.
Proof. intros. unfold row, blen. rewrite length_take. lia. Qed.

Lemma row_cstr size text : is_cstr text → is_cstr (row size text).
Proof. apply is_cstr_take. Qed.

Lemma is_cstr_app a b : is_cstr (a ++ b) ↔ is_cstr a ∧ is_cstr b.
Proof. apply Forall_app. Qed.
