(* ===== verification/Layout.v ===== *)
(** * Structs as bytes

    Fields of 16 and 32 bits as they lie in memory and in files, little endian. *)

From Stdlib Require Import ZArith Lia.
From stdpp Require Import base tactics option numbers list.
From S2P Require Import Prelude.

Definition bytes16 (x : Z) : list Z := [lo8 x; hi8 x].
Definition bytes32 (x : Z) : list Z := bytes16 (u16 x) ++ bytes16 (Z.shiftr x 16).
Definition get16 (b : list Z) (i : nat) : Z := le16 (b !!! i) (b !!! S i).
Definition get32 (b : list Z) (i : nat) : Z :=
  Z.lor (get16 b i) (Z.shiftl (get16 b (S (S i))) 16).

Lemma lor_halves x : Z.lor (u16 x) (Z.shiftl (Z.shiftr x 16) 16) = x.
Proof.
  apply Z.bits_inj'. intros n Hn. unfold wrap. rewrite Z.lor_spec, Z.shiftl_spec by lia.
  destruct (decide (n < 16)).
  - rewrite Z.mod_pow2_bits_low, (Z.testbit_neg_r _ (n - 16)) by lia. by rewrite orb_false_r.
  - rewrite Z.mod_pow2_bits_high by lia. rewrite Z.shiftr_spec by lia. cbn. f_equal. lia.
Qed.

Lemma shiftr16_u16 x : is_u32 x → is_u16 (Z.shiftr x 16).
Proof. intros Hx. apply (shiftr_in_w 16 16); [lia|lia|exact Hx]. Qed.

(** Reading a field behind others, and reading the field itself. *)
Lemma get32_here x r : is_u32 x → get32 (bytes32 x ++ r) 0 = x.
Proof.
  intros Hx. unfold get32, get16. cbn [bytes32 bytes16 app lookup_total list_lookup_total].
  rewrite !le16_split; [apply lor_halves|by apply shiftr16_u16|apply wrap_in_w; lia].
Qed.

Lemma get16_here x r : is_u16 x → get16 (bytes16 x ++ r) 0 = x.
Proof. apply le16_split. Qed.

Lemma get32_last x : is_u32 x → get32 (bytes32 x) 0 = x.
Proof. intros. rewrite <- (app_nil_r (bytes32 x)). by apply get32_here. Qed.

Lemma get32_skip32 y r k : get32 (bytes32 y ++ r) (S (S (S (S k)))) = get32 r k.
Proof. done. Qed.
Lemma get32_skip16 y r k : get32 (bytes16 y ++ r) (S (S k)) = get32 r k.
Proof. done. Qed.
Lemma get16_skip32 y r k : get16 (bytes32 y ++ r) (S (S (S (S k)))) = get16 r k.
Proof. done. Qed.
Lemma get16_skip16 y r k : get16 (bytes16 y ++ r) (S (S k)) = get16 r k.
Proof. done. Qed.

Create Rewrite HintDb layout.
#[export] Hint Rewrite get32_skip32 get32_skip16 get16_skip32 get16_skip16 : layout.

(** The fields of a struct read back from its bytes. *)
Ltac decode :=
  autorewrite with layout; f_equal;
  first [apply get32_here | apply get16_here | apply get32_last]; assumption.

(** Fields read from any bytes are in range. *)
Lemma get16_u16 b i : Forall is_u8 b → (S i < length b)%nat → is_u16 (get16 b i).
Proof.
  intros Hb Hi. unfold get16.
  assert (∀ j, (j < length b)%nat → is_u8 (b !!! j)) as Hj.
  { intros j Hj. destruct (lookup_lt_is_Some_2 b j Hj) as [x Hx].
    rewrite (list_lookup_total_correct _ _ _ Hx). by apply (Forall_lookup_1 _ _ _ _ Hb Hx). }
  apply le16_u16; apply Hj; lia.
Qed.

Lemma get32_u32 b i : Forall is_u8 b → (S (S (S i)) < length b)%nat → is_u32 (get32 b i).
Proof.
  intros Hb Hi. unfold get32. pose proof (get16_u16 b i Hb ltac:(lia)) as H0.
  pose proof (get16_u16 b (S (S i)) Hb ltac:(lia)) as H1.
  rewrite lor_shiftl_add by (done || lia). unfold in_w in *. lia.
Qed.

Lemma bytes16_u8 x : Forall is_u8 (bytes16 x).
Proof. apply Forall_cons. split; [apply lo8_u8|apply Forall_singleton, hi8_u8]. Qed.
Lemma bytes32_u8 x : Forall is_u8 (bytes32 x).
Proof. apply Forall_app. split; apply bytes16_u8. Qed.
#[export] Hint Resolve bytes16_u8 bytes32_u8 : cint.

(** Conversion of 32 bits to a signed [int]. *)
Definition to_i32 (x : Z) : Z := if x <? 2 ^ 31 then x else x - 2 ^ 32.
