(* ===== verification/Crc32.v ===== *)
(** * CRC-32 (fs/ota.c, drivers/module.c)

    Both files build the same table on first use and run the same loop; the table
    and its flag are the state.  The loop computes the bitwise register, so the
    checksum of a message can be computed piecewise, and two messages that differ
    in at most four adjacent bytes have different checksums. *)

From Stdlib Require Import ZArith Lia.
From stdpp Require Import base tactics option numbers list.
From S2P Require Import Prelude.
From S2P Require Import Layout.

Record crc32_state := mk_crc32 { crc32_table : list Z; crc32_table_ready : bool }.

(** Before the first use. *)
Definition crc32_boot : crc32_state := mk_crc32 (zeros 256) false.

Definition crc32_bit (c : Z) : Z :=
  if Z.testbit c 0 then Z.lxor 0xEDB88320 (Z.shiftr c 1) else Z.shiftr c 1.

Definition crc32_entry (i : Z) : Z := Nat.iter 8 crc32_bit i.

(** [for (i = ...; i < 256; i++) crc32_table[i] = ...] *)
Fixpoint fill_loop (n : nat) (i : Z) (table : list Z) : option (list Z) :=
  match n with
  | O => Some table
  | S n => table ← wr table i (crc32_entry i); fill_loop n (i + 1) table
  end.

Definition crc32_init_table (s : crc32_state) : option crc32_state :=
  if crc32_table_ready s then Some s else
  table ← fill_loop 256 0 (crc32_table s); Some (mk_crc32 table true).

Fixpoint crc32_loop (len : nat) (table : list Z) (crc : Z) (data : list Z) (p : Z) : option Z :=
  match len with
  | O => Some crc
  | S len =>
    b ← rd data p;
    t ← rd table (Z.land (Z.lxor crc b) 0xFF);
    crc32_loop len table (Z.lxor t (Z.shiftr crc 8)) data (p + 1)
  end.

Definition ota_crc32_update (crc : Z) (data : list Z) (len : Z) (s : crc32_state)
    : option (Z * crc32_state) :=
  s ← crc32_init_table s;
  crc ← crc32_loop (Z.to_nat len) (crc32_table s) (u32 (Z.lnot crc)) data 0;
  Some (u32 (Z.lnot crc), s).

(** ** The bitwise register *)

Definition crc32_byte (c b : Z) : Z := Nat.iter 8 crc32_bit (Z.lxor c b).
Definition crc32 (crc : Z) (data : list Z) : Z :=
  u32 (Z.lnot (foldl crc32_byte (u32 (Z.lnot crc)) data)).

Definition crc32_ok (s : crc32_state) : Prop :=
  length (crc32_table s) = 256%nat ∧
  (crc32_table_ready s = true →
   ∀ i : nat, (i < 256)%nat → crc32_table s !! i = Some (crc32_entry (Z.of_nat i))).

Lemma crc32_boot_ok : crc32_ok crc32_boot.
Proof. done. Qed.

Lemma crc32_bit_alt c :
  crc32_bit c = Z.lxor (Z.shiftr c 1) (if Z.testbit c 0 then 0xEDB88320 else 0).
Proof. unfold crc32_bit. destruct (Z.testbit c 0); [apply Z.lxor_comm|by rewrite Z.lxor_0_r]. Qed.

Lemma crc32_bit_lxor a b : crc32_bit (Z.lxor a b) = Z.lxor (crc32_bit a) (crc32_bit b).
Proof.
  rewrite !crc32_bit_alt, Z.lxor_spec, Z.shiftr_lxor, lxor_swap. f_equal.
  by destruct (Z.testbit a 0), (Z.testbit b 0).
Qed.

Lemma crc32_bit_u32 c : is_u32 c → is_u32 (crc32_bit c).
Proof.
  intros Hc. rewrite crc32_bit_alt. apply lxor_in_w; [lia| |by destruct (Z.testbit c 0)].
  unfold in_w in *. rewrite Z.shiftr_div_pow2 by lia. split; [apply Z.div_pos; lia|].
  apply Z.div_lt_upper_bound; lia.
Qed.

Lemma crc32_bit_zero c : is_u32 c → crc32_bit c = 0 → c = 0.
Proof.
  intros Hc. rewrite crc32_bit_alt. intros H0.
  apply (f_equal (λ z, Z.testbit z 31)) in H0 as Hb.
  rewrite Z.lxor_spec, Z.shiftr_spec, (in_w_testbit_high 32 c (31 + 1)) in Hb by (done || lia).
  destruct (Z.testbit c 0) eqn:E; [done|].
  rewrite Z.lxor_0_r, Z.shiftr_div_pow2 in H0 by lia. unfold in_w in Hc.
  apply Z.div_small_iff in H0; [|lia]. assert (c = 0 ∨ c = 1) as [->| ->] by lia; done.
Qed.

Lemma crc32_iter_u32 n c : is_u32 c → is_u32 (Nat.iter n crc32_bit c).
Proof. apply iter_in_w, crc32_bit_u32. Qed.

Lemma crc32_iter_lxor n a b :
  Nat.iter n crc32_bit (Z.lxor a b) = Z.lxor (Nat.iter n crc32_bit a) (Nat.iter n crc32_bit b).
Proof. apply iter_lxor, crc32_bit_lxor. Qed.

Lemma crc32_iter_inj n a b :
  is_u32 a → is_u32 b → Nat.iter n crc32_bit a = Nat.iter n crc32_bit b → a = b.
Proof. apply iter_inj; [lia|apply crc32_bit_lxor|apply crc32_bit_u32|apply crc32_bit_zero]. Qed.

(** Clear low bits are shifted out. *)
Lemma crc32_iter_shiftl n y : Nat.iter n crc32_bit (Z.shiftl y (Z.of_nat n)) = y.
Proof.
  induction n as [|n IH]; [apply Z.shiftl_0_r|]. rewrite Nat.iter_succ_r.
  assert (crc32_bit (Z.shiftl y (Z.of_nat (S n))) = Z.shiftl y (Z.of_nat n)) as ->; [|done].
  rewrite crc32_bit_alt, Z.shiftl_spec_low, Z.lxor_0_r, Z.shiftr_shiftl_l by lia.
  f_equal. lia.
Qed.

Lemma u8_u32 b : is_u8 b → is_u32 b.
Proof. unfold in_w. lia. Qed.

Lemma crc32_byte_u32 c b : is_u32 c → is_u8 b → is_u32 (crc32_byte c b).
Proof. intros. apply crc32_iter_u32, lxor_in_w; [lia|done|by apply u8_u32]. Qed.

Lemma crc32_foldl_u32 d c : Forall is_u8 d → is_u32 c → is_u32 (foldl crc32_byte c d).
Proof.
  intros Hd. revert c. induction Hd as [|b d Hb _ IH]; intros c Hc; [done|].
  by apply IH, crc32_byte_u32.
Qed.

Lemma low_high x n : 0 <= n → x = Z.lxor (Z.land x (2 ^ n - 1)) (Z.shiftl (Z.shiftr x n) n).
Proof.
  intros Hn. apply Z.bits_inj'. intros i Hi.
  rewrite Z.lxor_spec, land_ones_wrap, wrap_testbit, Z.shiftl_spec by lia.
  case_bool_decide as Hlt; cbn [andb].
  - rewrite (Z.testbit_neg_r _ (i - n)) by lia. by rewrite xorb_false_r.
  - rewrite Z.shiftr_spec, xorb_false_l by lia. f_equal. lia.
Qed.

(** One step of the table. *)
Lemma crc32_step c b :
  is_u8 b →
  Z.lxor (crc32_entry (Z.land (Z.lxor c b) 0xFF)) (Z.shiftr c 8) = crc32_byte c b.
Proof.
  intros Hb. unfold crc32_byte, crc32_entry. rewrite (low_high (Z.lxor c b) 8) at 2 by lia.
  rewrite crc32_iter_lxor. change (2 ^ 8 - 1) with 0xFF. f_equal.
  rewrite (crc32_iter_shiftl 8), Z.shiftr_lxor.
  rewrite (Z.shiftr_div_pow2 b), (Z.div_small b), Z.lxor_0_r by (unfold in_w in Hb; lia). done.
Qed.

(** ** The loop is the register *)

Lemma fill_loop_spec n i (table : list Z) :
  (i + n <= length table)%nat →
  ∃ t, fill_loop n (Z.of_nat i) table = Some t ∧ length t = length table ∧
    ∀ j : nat, t !! j = if decide (i <= j < i + n)%nat then Some (crc32_entry (Z.of_nat j))
                        else table !! j.
Proof.
  revert i table. induction n as [|n IH]; intros i table Hn; cbn [fill_loop].
  - exists table. split; [done|]. split; [done|]. intros j. by rewrite decide_False by lia.
  - rewrite wr_lookup by lia. cbn [mbind option_bind]. rewrite Nat2Z.id.
    replace (Z.of_nat i + 1) with (Z.of_nat (S i)) by lia.
    destruct (IH (S i) (<[i:=crc32_entry (Z.of_nat i)]> table)) as (t & E & Hl & Ht);
      [rewrite length_insert; lia|].
    exists t. split; [done|]. rewrite length_insert in Hl. split; [done|]. intros j. rewrite Ht.
    destruct (decide (j = i)) as [->|Hj].
    + rewrite decide_False, decide_True, list_lookup_insert_eq by lia. done.
    + rewrite list_lookup_insert_ne by done.
      destruct (decide (S i <= j < S i + n)%nat); [by rewrite decide_True by lia|].
      by rewrite decide_False by lia.
Qed.

Lemma crc32_init_spec s :
  crc32_ok s → ∃ s', crc32_init_table s = Some s' ∧ crc32_ok s' ∧ crc32_table_ready s' = true.
Proof.
  intros Hs. pose proof Hs as [Hl _]. unfold crc32_init_table. destruct (crc32_table_ready s) eqn:E; [by exists s|].
  destruct (fill_loop_spec 256 0 (crc32_table s)) as (t & E' & Hl' & Ht'); [lia|].
  change (Z.of_nat 0) with 0 in E'. rewrite E'.
  cbn [mbind option_bind]. eexists. split; [done|]. split; [|done]. split; [cbn [crc32_table]; congruence|].
  intros _ i Hi. cbn [crc32_table]. by rewrite Ht', decide_True by lia.
Qed.

Lemma crc32_loop_spec table data len p c :
  (∀ i : nat, (i < 256)%nat → table !! i = Some (crc32_entry (Z.of_nat i))) →
  Forall is_u8 data → (p + len <= length data)%nat →
  crc32_loop len table c data (Z.of_nat p) =
    Some (foldl crc32_byte c (take len (drop p data))).
Proof.
  intros Ht Hd. revert p c. induction len as [|len IH]; intros p c Hp; [done|].
  cbn [crc32_loop]. destruct (lookup_lt_is_Some_2 data p) as [b Hb]; [lia|].
  rewrite rd_nat, Hb. cbn [mbind option_bind].
  pose proof (Forall_lookup_1 _ _ _ _ Hd Hb) as Hu.
  assert (0 <= Z.land (Z.lxor c b) 255 < 256) as Hr.
  { rewrite (land_ones_wrap 8) by lia. apply wrap_in_w. lia. }
  rewrite rd_lookup by lia. rewrite Ht by lia. cbn [mbind option_bind].
  rewrite Z2Nat.id by lia. rewrite crc32_step by done.
  replace (Z.of_nat p + 1) with (Z.of_nat (S p)) by lia. rewrite IH by lia.
  by rewrite (drop_S _ _ _ Hb).
Qed.

Lemma ota_crc32_update_spec crc data len s :
  crc32_ok s → Forall is_u8 data → 0 <= len <= blen data →
  ∃ s', ota_crc32_update crc data len s = Some (crc32 crc (take (Z.to_nat len) data), s') ∧
    crc32_ok s'.
Proof.
  intros Hs Hd Hl. destruct (crc32_init_spec s Hs) as (s' & E & Hs' & Hr).
  exists s'. split; [|done]. unfold ota_crc32_update. rewrite E. cbn [mbind option_bind].
  pose proof (crc32_loop_spec _ _ (Z.to_nat len) 0 (u32 (Z.lnot crc)) (proj2 Hs' Hr) Hd) as El.
  change (Z.of_nat 0) with 0 in El. rewrite El by (unfold blen in Hl; lia). done.
Qed.

(** ** Piecewise checksums *)

Lemma u32_lnot_lnot x : is_u32 x → u32 (Z.lnot (u32 (Z.lnot x))) = x.
Proof.
  intros Hx. apply Z.bits_inj'. intros i Hi. rewrite wrap_testbit, Z.lnot_spec, wrap_testbit by lia.
  case_bool_decide as Hlt; cbn [andb].
  - rewrite Z.lnot_spec by lia. apply negb_involutive.
  - symmetry. apply (in_w_testbit_high 32); [done|lia].
Qed.

Lemma crc32_u32 crc data : is_u32 (crc32 crc data).
Proof. apply wrap_in_w. lia. Qed.

Lemma crc32_app crc a b : Forall is_u8 a → crc32 (crc32 crc a) b = crc32 crc (a ++ b).
Proof.
  intros Ha. unfold crc32. rewrite foldl_app, u32_lnot_lnot; [done|].
  apply crc32_foldl_u32; [done|]. apply wrap_in_w. lia.
Qed.

Lemma crc32_nil crc : is_u32 crc → crc32 crc [] = crc.
Proof. apply u32_lnot_lnot. Qed.

(** ** Burst errors *)

(** The word of at most four bytes. *)
Fixpoint le_word (b : list Z) : Z :=
  match b with [] => 0 | x :: b => Z.lxor x (Z.shiftl (le_word b) 8) end.

Lemma crc32_word b c :
  foldl crc32_byte c b = Nat.iter (8 * length b) crc32_bit (Z.lxor c (le_word b)).
Proof.
  revert c. induction b as [|x b IH]; intros c; [by rewrite Z.lxor_0_r|].
  cbn [foldl le_word length]. rewrite IH.
  replace (8 * S (length b))%nat with (8 * length b + 8)%nat by lia.
  rewrite Nat.iter_add. f_equal. rewrite <- Z.lxor_assoc, crc32_iter_lxor.
  by rewrite (crc32_iter_shiftl 8).
Qed.

Lemma le_word_bound b : Forall is_u8 b → in_w (8 * blen b) (le_word b).
Proof.
  induction 1 as [|x b Hx _ IH]; [done|]. cbn [le_word]. rewrite blen_cons.
  pose proof (blen_nonneg b). apply lxor_in_w; [lia| |].
  - eapply in_w_mono; [|done]. lia.
  - unfold in_w in *. rewrite Z.shiftl_mul_pow2 by lia.
    replace (8 * (1 + blen b)) with (8 * blen b + 8) by lia. rewrite Z.pow_add_r by lia. lia.
Qed.

Lemma le_word_inj a b :
  Forall is_u8 a → Forall is_u8 b → length a = length b → le_word a = le_word b → a = b.
Proof.
  intros Ha. revert b. induction Ha as [|x a Hx Ha IH]; intros b Hb Hl E.
  { by destruct b. }
  destruct Hb as [|y b Hy Hb]; [done|]. cbn [le_word] in E. injection Hl as Hl.
  assert (∀ z w, is_u8 z → u8 (Z.lxor z (Z.shiftl w 8)) = z ∧ Z.shiftr (Z.lxor z (Z.shiftl w 8)) 8 = w)
    as Hs.
  { intros z w Hz. rewrite wrap_lxor, Z.shiftr_lxor, Z.shiftr_shiftl_l, Z.shiftl_0_r by lia.
    rewrite (wrap_id 8 z) by done. unfold wrap. rewrite Z.shiftl_mul_pow2, Z.mod_mul, Z.lxor_0_r by lia.
    rewrite Z.shiftr_div_pow2, Z.div_small, Z.lxor_0_l by (unfold in_w in Hz; lia). done. }
  pose proof (Hs x (le_word a) Hx) as [E1 E2]. pose proof (Hs y (le_word b) Hy) as [E3 E4].
  f_equal; [congruence|]. apply IH; [done|done|congruence].
Qed.

Lemma crc32_foldl_inj s c c' :
  Forall is_u8 s → is_u32 c → is_u32 c' → foldl crc32_byte c s = foldl crc32_byte c' s → c = c'.
Proof.
  intros Hs. revert c c'. induction Hs as [|b s Hb _ IH]; intros c c' Hc Hc'; [done|].
  cbn [foldl]. intros E. apply IH in E; [|by apply crc32_byte_u32..].
  apply crc32_iter_inj in E; [by apply lxor_cancel_r in E|apply lxor_in_w..]; auto using u8_u32; lia.
Qed.

Lemma crc32_burst crc p a b s :
  Forall is_u8 p → Forall is_u8 a → Forall is_u8 b → Forall is_u8 s →
  length a = length b → (length a <= 4)%nat → is_u32 crc →
  crc32 crc (p ++ a ++ s) = crc32 crc (p ++ b ++ s) → a = b.
Proof.
  intros Hp Ha Hb Hs Hl H4 Hc E.
  assert (is_u32 (foldl crc32_byte (u32 (Z.lnot crc)) p)) as Hq.
  { apply crc32_foldl_u32; [done|]. apply wrap_in_w. lia. }
  unfold crc32 in E. rewrite !foldl_app in E.
  apply (f_equal (λ x, u32 (Z.lnot x))) in E.
  rewrite !u32_lnot_lnot in E by (do 2 (apply crc32_foldl_u32; [done|]); done).
  apply crc32_foldl_inj in E; [|done|by apply crc32_foldl_u32..].
  rewrite (crc32_word a), (crc32_word b), Hl in E.
  assert (∀ m, Forall is_u8 m → (length m <= 4)%nat → is_u32 (le_word m)) as Hw.
  { intros m Hm Hm4. eapply in_w_mono; [|by apply le_word_bound]. unfold blen. lia. }
  apply crc32_iter_inj in E; [|apply lxor_in_w; [lia|done|apply Hw; [done|lia]]..].
  apply lxor_cancel_l in E. by apply le_word_inj.
Qed.
