(* ===== verification/HalStorage.v ===== *)
(** * Storage devices (hal/include/hal_storage.h, hal/arch/sim/hal_storage_sim.c)

    [StorageHal] is what the rest of the system may assume of a storage device: a
    range of bytes that reads and writes reach by offset.  The simulator's device,
    a block of memory, is modelled as written and is an instance. *)

From Stdlib Require Import ZArith Lia.
From stdpp Require Import base tactics option numbers list.
From S2P Require Import Prelude.
From S2P Require Import CString.

(** ** The interface

    [S]: pointers to devices; [U]: the state they act on.  A failing read leaves
    the buffer alone. *)
Class StorageHal (S U : Type) := {
  hal_storage_read : S → Z → Z → U → option (Z * list Z * U);
  hal_storage_write : S → Z → list Z → U → option (Z * U);
  hal_storage_sync : S → U → option (Z * U);
  hal_content : S → U → list Z;
  hal_ready : S → U → Prop;
  hal_read_ok : ∀ s off n u, hal_ready s u → 0 <= off → 0 <= n → off + n <= blen (hal_content s u) →
    ∃ u', hal_storage_read s off n u =
            Some (0, take (Z.to_nat n) (drop (Z.to_nat off) (hal_content s u)), u') ∧
          hal_ready s u' ∧ hal_content s u' = hal_content s u;
  hal_write_ok : ∀ s off b u, hal_ready s u → 0 <= off → off + blen b <= blen (hal_content s u) →
    ∃ u', hal_storage_write s off b u = Some (0, u') ∧ hal_ready s u' ∧
          wr_bytes (hal_content s u) off b = Some (hal_content s u');
  hal_sync_ok : ∀ s u, hal_ready s u →
    ∃ u', hal_storage_sync s u = Some (0, u') ∧ hal_ready s u' ∧ hal_content s u' = hal_content s u
}.

(** ** The simulator's device *)

Module Sim.
Inductive hal_storage_op_t := OP_READ | OP_WRITE | OP_ERASE | OP_SYNC.
Definition SIM_STORAGE_SIZE : Z := 4 * 1024 * 1024.

Section Sim.
Context {U : Type} `{Arch}.

Record hal_storage := mk_storage {
  st_path : list Z; st_type : Z; st_data : option (list Z); st_size : Z;
  st_callback : option (hal_storage_op_t → Z → U → U); st_initialized : bool
}.

Definition with_data (d : list Z) (s : hal_storage) : hal_storage :=
  mk_storage (st_path s) (st_type s) (Some d) (st_size s) (st_callback s) (st_initialized s).
Definition with_initialized (b : bool) (s : hal_storage) : hal_storage :=
  mk_storage (st_path s) (st_type s) (st_data s) (st_size s) (st_callback s) b.

Definition hal_storage_open (storage_ok data_ok : bool) (path : list Z) (type : Z)
    : option hal_storage :=
  if negb storage_ok then None else
  Some (mk_storage (strncpy (zeros 64) path 63) type
          (if data_ok then Some (zeros SIM_STORAGE_SIZE) else None) SIM_STORAGE_SIZE None false).

Definition hal_storage_init (storage : option hal_storage) : Z * option hal_storage :=
  match storage with
  | Some s => (0, Some (with_initialized true s))
  | None => (-1, None)
  end.

Definition hal_storage_deinit (storage : option hal_storage) : Z * option hal_storage :=
  match storage with
  | Some s => (0, Some (with_initialized false s))
  | None => (-1, None)
  end.

(** [offset + size > storage->size], in [size_t]. *)
Definition outside (s : hal_storage) (offset size : Z) : bool := st_size s <? usz (offset + size).

Definition callback (op : hal_storage_op_t) (s : hal_storage) (u : U) : U :=
  match st_callback s with Some f => f op 0 u | None => u end.

(** The bytes read, when the call succeeds. *)
Definition read (storage : option hal_storage) (offset size : Z) : option (Z * list Z) :=
  match storage with
  | None => Some (-1, [])
  | Some s =>
    if negb (st_initialized s) then Some (-1, []) else
    if outside s offset size then Some (-1, []) else
    d ← st_data s; b ← rd_bytes d offset size; Some (0, b)
  end.

Definition write (storage : option hal_storage) (offset : Z) (buffer : option (list Z)) (size : Z)
    (u : U) : option (Z * option hal_storage * U) :=
  match storage, buffer with
  | Some s, Some buffer =>
    if negb (st_initialized s) then Some (-1, storage, u) else
    if outside s offset size then Some (-1, storage, u) else
    b ← rd_bytes buffer 0 size;
    d ← st_data s;
    d ← wr_bytes d offset b;
    let s := with_data d s in
    Some (0, Some s, callback OP_WRITE s u)
  | _, _ => Some (-1, storage, u)
  end.

Definition hal_storage_erase (storage : option hal_storage) (offset size : Z) (u : U)
    : option (Z * option hal_storage * U) :=
  match storage with
  | None => Some (-1, storage, u)
  | Some s =>
    if negb (st_initialized s) then Some (-1, storage, u) else
    if outside s offset size then Some (-1, storage, u) else
    d ← st_data s;
    d ← wr_bytes d offset (replicate (Z.to_nat size) 255);
    let s := with_data d s in
    Some (0, Some s, callback OP_ERASE s u)
  end.

Definition sync (storage : option hal_storage) (u : U) : Z * U :=
  match storage with
  | Some s => (0, callback OP_SYNC s u)
  | None => (-1, u)
  end.

Record hal_storage_info_t := mk_info {
  total_bytes : Z; free_bytes : Z; used_bytes : Z; block_size : Z; page_size : Z
}.
Definition hal_storage_get_info (storage : option hal_storage) : option hal_storage_info_t :=
  s ← storage; Some (mk_info (u32 (st_size s)) (u32 (st_size s)) 0 4096 256).

Definition hal_storage_set_callback (cb : option (hal_storage_op_t → Z → U → U))
    (storage : option hal_storage) : Z * option hal_storage :=
  match storage with
  | Some s => (0, Some (mk_storage (st_path s) (st_type s) (st_data s) (st_size s) cb
                          (st_initialized s)))
  | None => (-1, None)
  end.

Definition hal_storage_get_path (storage : option hal_storage) : option (list Z) :=
  st_path <$> storage.
Definition hal_storage_get_type (storage : option hal_storage) : Z :=
  match storage with Some s => st_type s | None => 0 end.
Definition hal_storage_suspend (storage : option hal_storage) : Z * option hal_storage :=
  hal_storage_deinit storage.
Definition hal_storage_resume (storage : option hal_storage) : Z * option hal_storage :=
  hal_storage_init storage.

(** ** It is a storage device *)

Definition sim_ready (s : hal_storage) : Prop :=
  st_initialized s = true ∧ ∃ d, st_data s = Some d ∧ st_size s = blen d ∧ blen d < 2 ^ 32.

Lemma inside s off n (d : list Z) :
  st_size s = blen d → blen d < 2 ^ 32 → 0 <= off → 0 <= n → off + n <= blen d →
  outside s off n = false.
Proof. intros E Hd Ho Hn Hl. unfold outside. rewrite usz_id by lia. apply Z.ltb_ge. lia. Qed.

(** The device is part of the state; its callback does not reach it. *)
Definition sim_read (_ : unit) (off n : Z) (u : hal_storage * U)
    : option (Z * list Z * (hal_storage * U)) :=
  '(r, b) ← read (Some u.1) off n; Some (r, b, u).
Definition sim_write (_ : unit) (off : Z) (b : list Z) (u : hal_storage * U)
    : option (Z * (hal_storage * U)) :=
  '(r, s, v) ← write (Some u.1) off (Some b) (blen b) u.2; Some (r, (default u.1 s, v)).
Definition sim_sync (_ : unit) (u : hal_storage * U) : option (Z * (hal_storage * U)) :=
  let '(r, v) := sync (Some u.1) u.2 in Some (r, (u.1, v)).

#[export] Program Instance sim_hal : StorageHal unit (hal_storage * U) := {|
  hal_storage_read := sim_read;
  hal_storage_write := sim_write;
  hal_storage_sync := sim_sync;
  hal_content _ u := default [] (st_data (fst u));
  hal_ready _ u := sim_ready (fst u)
|}.
Next Obligation.
  intros ? off n [s v] (Hi & d & Ed & Es & Hd) Ho Hn Hl. cbn [fst snd] in *.
  rewrite Ed in *. cbn [default] in *. unfold id in *. exists (s, v). unfold sim_read, read. cbn [fst snd].
  rewrite Hi, (inside s off n d), Ed by done. cbn [negb mbind option_bind].
  rewrite rd_bytes_ok by done. split; [done|]. split; [|done].
  split; [done|]. by exists d.
Qed.
Next Obligation.
  intros ? off b [s v] (Hi & d & Ed & Es & Hd) Ho Hl. cbn [fst snd] in *.
  rewrite Ed in *. cbn [default] in *. unfold id in *. unfold sim_write, write. cbn [fst snd]. pose proof (blen_nonneg b).
  rewrite Hi, (inside s off (blen b) d), Ed by done. cbn [negb mbind option_bind].
  rewrite rd_bytes_all by done. cbn [mbind option_bind].
  destruct (wr_bytes d off b) as [d'|] eqn:E; [|by rewrite wr_bytes_ok in E by lia].
  cbn [mbind option_bind]. eexists. split; [done|]. split; [|done].
  split; [done|]. exists d'. pose proof (wr_bytes_length _ _ _ _ E) as El.
  unfold blen in *. by rewrite El.
Qed.
Next Obligation.
  intros ? [s v] Hr. cbn [fst snd] in *. eexists. split; [done|]. by split.
Qed.
End Sim.
Arguments hal_storage : clear implicits.
End Sim.
