(* ===== verification/Ota.v ===== *)
(** * Over-the-air updates (fs/ota.c, fs/ed25519.c)

    A new image is written piece by piece into the area of its partition, with a
    running CRC-32; [ota_end] records it in the metadata at the start of the
    storage.  The functions that switch images read the metadata through a storage
    pointer that they set to NULL themselves; their bodies are given for any pointer
    ([mark_valid] ...), and the functions are those bodies at NULL.  The storage is
    any device of the class [StorageHal]; the progress callback acts on the same
    state. *)

From Stdlib Require Import ZArith Lia.
From stdpp Require Import base tactics option numbers list.
From S2P Require Import Prelude.
From S2P Require Import Layout.
From S2P Require Import Crc32.
From S2P Require Import HalStorage.

Definition OTA_MAGIC : Z := 0x4F54414D.
Definition OTA_VERSION : Z := 1.
Definition OTA_PARTITION_OTA_0 : Z := 0.
Definition OTA_PARTITION_OTA_1 : Z := 1.
Definition OTA_PARTITION_FACTORY : Z := 2.
Definition OTA_PARTITION_MAX : Z := 3.
Definition OTA_STATE_NEW : Z := 0.
Definition OTA_STATE_PENDING_VERIFY : Z := 1.
Definition OTA_STATE_VALID : Z := 2.
Definition OTA_STATE_INVALID : Z := 3.
Definition OTA_METADATA_OFFSET : Z := 0.
Definition SIZEOF_METADATA : Z := 48.

Record ota_metadata_t := mk_meta {
  om_magic : Z; om_version : Z; om_reserved : Z; om_sequence : Z;
  om_active_partition : Z; om_next_partition : Z;
  om_active_crc32 : Z; om_next_crc32 : Z; om_active_size : Z; om_next_size : Z;
  om_active_state : Z; om_next_state : Z; om_timestamp : Z
}.

Definition meta_zero : ota_metadata_t := mk_meta 0 0 0 0 0 0 0 0 0 0 0 0 0.

Definition enc_meta (m : ota_metadata_t) : list Z :=
  bytes32 (om_magic m) ++ bytes16 (om_version m) ++ bytes16 (om_reserved m) ++
  bytes32 (om_sequence m) ++ bytes32 (om_active_partition m) ++ bytes32 (om_next_partition m) ++
  bytes32 (om_active_crc32 m) ++ bytes32 (om_next_crc32 m) ++ bytes32 (om_active_size m) ++
  bytes32 (om_next_size m) ++ bytes32 (om_active_state m) ++ bytes32 (om_next_state m) ++
  bytes32 (om_timestamp m).

Definition dec_meta (b : list Z) : ota_metadata_t :=
  mk_meta (get32 b 0) (get16 b 4) (get16 b 6) (get32 b 8) (get32 b 12) (get32 b 16) (get32 b 20)
    (get32 b 24) (get32 b 28) (get32 b 32) (get32 b 36) (get32 b 40) (get32 b 44).

(** ** Signatures

    The functions of ed25519.c are placeholders. *)

Definition ed25519_sign (message private_key : list Z) : Z := -1.
Definition ed25519_verify (signature message : list Z) (message_len : Z) (public_key : list Z) : Z :=
  -1.
Definition ed25519_verify_signature (signature message : list Z) (message_len : Z)
    (public_key : list Z) : Z := ed25519_verify signature message message_len public_key.

(** The key of a private key: a marker byte. *)
Definition ed25519_derive_public_key (private_key : list Z) : Z * list Z := (0, 0xED :: zeros 31).

(** Both keys; only the first half of the private key is written. *)
Definition ed25519_seed_keypair (private_key seed : list Z) : option (Z * list Z * list Z) :=
  s ← rd_bytes seed 0 32;
  private_key ← wr_bytes private_key 0 s;
  let '(r, public_key) := ed25519_derive_public_key private_key in
  Some (r, public_key, private_key).

(** [rand]: the next value of the generator and its new state. *)
Fixpoint random_bytes {R} (rand : R → Z * R) (n : nat) (i : Z) (key : list Z) (r : R)
    : option (list Z * R) :=
  match n with
  | O => Some (key, r)
  | S n => let '(x, r) := rand r in key ← wr key i (Z.land x 0xFF); random_bytes rand n (i + 1) key r
  end.

Definition ed25519_generate_keypair {R} (rand : R → Z * R) (private_key : list Z) (r : R)
    : option (Z * list Z * list Z * R) :=
  '(private_key, r) ← random_bytes rand 32 0 private_key r;
  let '(ret, public_key) := ed25519_derive_public_key private_key in
  Some (ret, public_key, private_key, r).

Definition ota_verify_signature (firmware : option (list Z)) (size : Z)
    (signature : option (list Z)) (sig_size : Z) (pubkey : option (list Z)) (key_size : Z) : Z :=
  match firmware, signature, pubkey with
  | Some firmware, Some signature, Some pubkey =>
    if (size =? 0) || negb (sig_size =? 64) || negb (key_size =? 32) then -1 else
    if ed25519_verify signature firmware size pubkey =? 0 then 0 else -1
  | _, _, _ => -1
  end.

Definition ota_set_boot_partition (partition : Z) : Z :=
  if OTA_PARTITION_MAX <=? partition then -1 else 0.

Definition ota_get_running_partition : Z := OTA_PARTITION_OTA_0.

Section Ota.
Context {S U : Type} `{Arch} `{StorageHal S U}.

(** ** Metadata *)

Definition ota_read_metadata (storage : option S) (u : U) : option (Z * ota_metadata_t * U) :=
  match storage with
  | None => Some (-1, meta_zero, u)
  | Some s =>
    '(ret, b, u) ← hal_storage_read s OTA_METADATA_OFFSET SIZEOF_METADATA u;
    if negb (ret =? 0) then Some (-1, meta_zero, u) else
    let m := dec_meta b in
    if negb (om_magic m =? OTA_MAGIC) then Some (-1, m, u) else Some (0, m, u)
  end.

Definition ota_write_metadata (storage : option S) (m : ota_metadata_t) (u : U)
    : option (Z * U) :=
  match storage with
  | None => Some (-1, u)
  | Some s =>
    '(ret, u) ← hal_storage_write s OTA_METADATA_OFFSET (enc_meta m) u;
    if negb (ret =? 0) then Some (-1, u) else hal_storage_sync s u
  end.

(** ** Writing an image *)

Record ota_handle := mk_handle {
  oh_storage : S; oh_partition : Z; oh_offset : Z; oh_expected_size : Z;
  oh_written : Z; oh_crc32 : Z; oh_progress_cb : option (Z → Z → U → U)
}.

Definition with_written (n crc : Z) (h : ota_handle) : ota_handle :=
  mk_handle (oh_storage h) (oh_partition h) (oh_offset h) (oh_expected_size h) n crc
    (oh_progress_cb h).

Definition ota_begin (calloc_ok : bool) (storage : option S) (partition expected_size : Z)
    (cb : option (Z → Z → U → U)) : option ota_handle :=
  match storage with
  | None => None
  | Some s =>
    if OTA_PARTITION_MAX <=? partition then None else
    if negb calloc_ok then None else
    Some (mk_handle s partition (u32 (0x10000 + u32 (partition * 0x100000))) expected_size 0 0 cb)
  end.

Definition ota_write (handle : option ota_handle) (data : option (list Z)) (size : Z)
    (cs : crc32_state) (u : U) : option (Z * option ota_handle * crc32_state * U) :=
  match handle, data with
  | Some h, Some data =>
    if size =? 0 then Some (-1, handle, cs, u) else
    let size := if oh_expected_size h <? usz (oh_written h + size)
                then u32 (oh_expected_size h - oh_written h) else size in
    b ← rd_bytes data 0 size;
    '(ret, u) ← hal_storage_write (oh_storage h) (u32 (oh_offset h + oh_written h)) b u;
    if negb (ret =? 0) then Some (-1, handle, cs, u) else
    '(crc, cs) ← ota_crc32_update (oh_crc32 h) data size cs;
    let h := with_written (u32 (oh_written h + size)) crc h in
    let u := match oh_progress_cb h with
             | Some f => f (oh_written h) (oh_expected_size h) u
             | None => u
             end in
    Some (to_i32 (u32 size), Some h, cs, u)
  | _, _ => Some (-1, handle, cs, u)
  end.

(** The metadata [ota_end] writes, from what it read. *)
Definition end_meta (ret : Z) (m : ota_metadata_t) (verify_signature : bool) (h : ota_handle)
    : ota_metadata_t :=
  if negb (ret =? 0) then
    mk_meta OTA_MAGIC OTA_VERSION 0 1 OTA_PARTITION_OTA_0 (oh_partition h) 0 0 0 0 0 0 0
  else
    mk_meta (om_magic m) (om_version m) (om_reserved m) (u32 (om_sequence m + 1))
      (om_active_partition m) (oh_partition h) (om_active_crc32 m) (oh_crc32 h)
      (om_active_size m) (oh_written h) (om_active_state m)
      (if verify_signature then OTA_STATE_PENDING_VERIFY else OTA_STATE_NEW) 0.

(** The handle is freed. *)
Definition ota_end (handle : option ota_handle) (verify_signature : bool) (u : U)
    : option (Z * U) :=
  match handle with
  | None => Some (-1, u)
  | Some h =>
    '(_, u) ← hal_storage_sync (oh_storage h) u;
    '(ret, m, u) ← ota_read_metadata (Some (oh_storage h)) u;
    '(ret, u) ← ota_write_metadata (Some (oh_storage h)) (end_meta ret m verify_signature h) u;
    if negb (ret =? 0) then Some (-1, u) else Some (0, u)
  end.

(** ** Switching images *)

Definition ota_get_boot_partition (u : U) : option (Z * U) :=
  '(ret, m, u) ← ota_read_metadata None u;
  Some (if ret =? 0 then om_active_partition m else OTA_PARTITION_OTA_0, u).

Definition ota_get_metadata (meta : bool) (u : U) : option (Z * ota_metadata_t * U) :=
  if meta then ota_read_metadata None u else Some (-1, meta_zero, u).

Definition promoted (partition : Z) (m : ota_metadata_t) : ota_metadata_t :=
  mk_meta (om_magic m) (om_version m) (om_reserved m) (u32 (om_sequence m + 1))
    partition OTA_PARTITION_MAX (om_next_crc32 m) 0 (om_next_size m) 0
    OTA_STATE_VALID OTA_STATE_NEW (om_timestamp m).

Definition mark_valid (storage : option S) (partition : Z) (u : U) : option (Z * U) :=
  '(ret, m, u) ← ota_read_metadata storage u;
  if negb (ret =? 0) then Some (-1, u) else
  if partition =? om_next_partition m then ota_write_metadata storage (promoted partition m) u
  else Some (-1, u).

Definition with_states (active next : Z) (m : ota_metadata_t) : ota_metadata_t :=
  mk_meta (om_magic m) (om_version m) (om_reserved m) (om_sequence m)
    (om_active_partition m) (om_next_partition m) (om_active_crc32 m) (om_next_crc32 m)
    (om_active_size m) (om_next_size m) active next (om_timestamp m).

Definition mark_invalid (storage : option S) (partition : Z) (u : U) : option (Z * U) :=
  '(ret, m, u) ← ota_read_metadata storage u;
  if negb (ret =? 0) then Some (-1, u) else
  if partition =? om_next_partition m
  then ota_write_metadata storage (with_states (om_active_state m) OTA_STATE_INVALID m) u else
  if partition =? om_active_partition m
  then ota_write_metadata storage (with_states OTA_STATE_INVALID (om_next_state m) m) u
  else Some (-1, u).

Definition swapped (m : ota_metadata_t) : ota_metadata_t :=
  mk_meta (om_magic m) (om_version m) (om_reserved m) (u32 (om_sequence m + 1))
    (om_next_partition m) (om_active_partition m) (om_next_crc32 m) (om_active_crc32 m)
    (om_next_size m) (om_active_size m) (om_next_state m) (om_active_state m) (om_timestamp m).

Definition rollback (storage : option S) (u : U) : option (Z * U) :=
  '(ret, m, u) ← ota_read_metadata storage u;
  if negb (ret =? 0) then Some (-1, u) else
  if om_next_state m =? OTA_STATE_VALID then ota_write_metadata storage (swapped m) u
  else Some (-1, u).

Definition ota_mark_valid (partition : Z) (u : U) : option (Z * U) := mark_valid None partition u.
Definition ota_mark_invalid (partition : Z) (u : U) : option (Z * U) := mark_invalid None partition u.
Definition ota_rollback (u : U) : option (Z * U) := rollback None u.
End Ota.
