(* ===== verification/OtaThm.v ===== *)
(** * What an update does to the storage

    The image written in pieces is found in its partition, cut to the expected size,
    with its length and CRC-32 in the metadata; nothing else of the storage changes.
    No sequence of the switching functions ever makes a roll-back possible. *)

From Stdlib Require Import ZArith Lia.
From stdpp Require Import base tactics option numbers list.
From S2P Require Import Prelude.
From S2P Require Import Layout.
From S2P Require Import Crc32.
From S2P Require Import HalStorage.
From S2P Require Import Ota.

Section OtaThm.
Context {S U : Type} `{HA : Arch} `{HH : !StorageHal S U} (s : S).
Implicit Types (u : U) (m : ota_metadata_t) (data image : list Z) (cs : crc32_state)
  (h : ota_handle (S := S) (U := U)).

Abbreviation cont := (hal_content s).

(** ** Metadata *)

Definition meta_ok m : Prop :=
  is_u32 (om_magic m) ∧ is_u16 (om_version m) ∧ is_u16 (om_reserved m) ∧ is_u32 (om_sequence m) ∧
  is_u32 (om_active_partition m) ∧ is_u32 (om_next_partition m) ∧
  is_u32 (om_active_crc32 m) ∧ is_u32 (om_next_crc32 m) ∧ is_u32 (om_active_size m) ∧
  is_u32 (om_next_size m) ∧ is_u32 (om_active_state m) ∧ is_u32 (om_next_state m) ∧
  is_u32 (om_timestamp m).

Lemma meta_roundtrip m : meta_ok m → dec_meta (enc_meta m) = m.
Proof.
  destruct m. intros (? & ? & ? & ? & ? & ? & ? & ? & ? & ? & ? & ? & ?).
  unfold dec_meta, enc_meta. decode.
Qed.

Lemma dec_meta_ok b : Forall is_u8 b → blen b = SIZEOF_METADATA → meta_ok (dec_meta b).
Proof.
  intros Hb Hl. assert (length b = 48%nat) by (unfold blen, SIZEOF_METADATA in Hl; lia).
  unfold meta_ok, dec_meta. cbn.
  split_and!; first [apply get32_u32; [done|lia] | apply get16_u16; [done|lia]].
Qed.

Lemma enc_meta_u8 m : Forall is_u8 (enc_meta m).
Proof. unfold enc_meta. repeat (apply Forall_app; split); auto with cint. Qed.

(** The metadata in the storage. *)
Definition stored_meta u : ota_metadata_t := dec_meta (at_offset 0 SIZEOF_METADATA (cont u)).

(** A device with room for the metadata. *)
Record device_ok u : Prop := mk_device_ok {
  do_ready : hal_ready s u;
  do_bytes : Forall is_u8 (cont u);
  do_size : SIZEOF_METADATA <= blen (cont u)
}.

Lemma at_offset_u8 off n c : Forall is_u8 c → Forall is_u8 (at_offset off n c).
Proof. intros. by apply Forall_take, Forall_drop. Qed.

Lemma blen_at_offset off n (c : list Z) :
  0 <= off → 0 <= n → off + n <= blen c → blen (at_offset off n c) = n.
Proof. intros. unfold at_offset, blen in *. rewrite length_take, length_drop. lia. Qed.

Lemma stored_meta_ok u : device_ok u → meta_ok (stored_meta u).
Proof.
  intros [_ Hb Hs]. apply dec_meta_ok; [by apply at_offset_u8|].
  apply blen_at_offset; unfold SIZEOF_METADATA in *; lia.
Qed.

Lemma wr_bytes_u8 (c c' b : list Z) off :
  wr_bytes c off b = Some c' → Forall is_u8 c → Forall is_u8 b → Forall is_u8 c'.
Proof.
  intros Hw Hc Hb. unfold wr_bytes in Hw. destruct (_ && _); [|done]. injection Hw as <-.
  repeat (apply Forall_app; split); [by apply Forall_take|done|by apply Forall_drop].
Qed.

(** One write to the device. *)
Lemma device_write u off b :
  device_ok u → 0 <= off → off + blen b <= blen (cont u) → Forall is_u8 b →
  ∃ u', hal_storage_write s off b u = Some (0, u') ∧ device_ok u' ∧
    wr_bytes (cont u) off b = Some (cont u').
Proof.
  intros [Hr Hb Hs] Ho Hl Hu. destruct (hal_write_ok s off b u Hr Ho Hl) as (u' & E & Hr' & Ew).
  exists u'. split; [done|]. split; [|done]. pose proof (wr_bytes_length _ _ _ _ Ew) as El.
  split; [done| |unfold blen in *; by rewrite El]. by eapply wr_bytes_u8.
Qed.

Lemma read_meta_spec u :
  device_ok u → ∃ u' m, ota_read_metadata (Some s) u =
    Some (if om_magic (stored_meta u) =? OTA_MAGIC then 0 else -1, m, u') ∧
    m = stored_meta u ∧ device_ok u' ∧ cont u' = cont u.
Proof.
  intros Hd. pose proof Hd as [Hr Hb Hs]. unfold ota_read_metadata.
  destruct (hal_read_ok s OTA_METADATA_OFFSET SIZEOF_METADATA u Hr) as (u' & -> & Hr' & Ec); [done..|].
  cbn [mbind option_bind]. rewrite Z.eqb_refl. cbn [negb].
  change (dec_meta _) with (stored_meta u). exists u', (stored_meta u).
  destruct (om_magic (stored_meta u) =? OTA_MAGIC); cbn [negb];
    (split; [done|]; split; [done|]; split; [|done]; split; by rewrite ?Ec).
Qed.

Lemma write_meta_spec u m :
  device_ok u → meta_ok m →
  ∃ u', ota_write_metadata (Some s) m u = Some (0, u') ∧ device_ok u' ∧
    stored_meta u' = m ∧ wr_bytes (cont u) 0 (enc_meta m) = Some (cont u').
Proof.
  intros Hd Hm. destruct (device_write u 0 (enc_meta m) Hd) as (u1 & E & Hd1 & Ew);
    [done|apply Hd|apply enc_meta_u8|].
  destruct (hal_sync_ok s u1) as (u2 & E2 & Hr2 & Ec); [apply Hd1|].
  exists u2. unfold ota_write_metadata. change OTA_METADATA_OFFSET with 0. rewrite E.
  cbn [mbind option_bind]. rewrite Z.eqb_refl. cbn [negb]. split; [done|].
  split; [split; rewrite ?Ec; [done|apply Hd1..]|]. rewrite Ec. split; [|done].
  unfold stored_meta. rewrite Ec. destruct (holds_wr _ _ _ _ Ew) as [Hh _].
  change (blen (enc_meta m)) with SIZEOF_METADATA in Hh. rewrite Hh. by apply meta_roundtrip.
Qed.

(** ** Writing an image *)

Definition chunk_ok data : Prop := 0 < blen data < 2 ^ 31 ∧ Forall is_u8 data.

(** A progress callback that leaves the device alone. *)
Definition quiet (cb : option (Z → Z → U → U)) : Prop :=
  ∀ f a b u, cb = Some f → hal_ready s u → hal_ready s (f a b u) ∧ cont (f a b u) = cont u.

(** [image] has been written with the handle. *)
Record writing h image u : Prop := mk_writing {
  wr_storage : oh_storage h = s;
  wr_written : oh_written h = blen image;
  wr_crc : oh_crc32 h = crc32 0 image;
  wr_size : blen image <= oh_expected_size h < 2 ^ 31;
  wr_area : SIZEOF_METADATA <= oh_offset h ∧ oh_offset h + oh_expected_size h <= blen (cont u) < 2 ^ 32;
  wr_image : holds (oh_offset h) image (cont u);
  wr_image_u8 : Forall is_u8 image;
  wr_quiet : quiet (oh_progress_cb h);
  wr_device : device_ok u
}.

(** The storage is unchanged outside [off .. off + n). *)
Definition kept off n u u' : Prop :=
  blen (cont u') = blen (cont u) ∧
  ∀ q k, 0 <= q → 0 <= k → q + k <= blen (cont u) → q + k <= off ∨ off + n <= q →
         at_offset q k (cont u') = at_offset q k (cont u).

Definition piece h image data : list Z :=
  take (Z.to_nat (Z.min (blen data) (oh_expected_size h - blen image))) data.

Lemma write_step h image data cs u :
  writing h image u → chunk_ok data → crc32_ok cs →
  let next := image ++ piece h image data in
  let h' := with_written (blen next) (crc32 0 next) h in
  ∃ cs' u', ota_write (Some h) (Some data) (blen data) cs u =
              Some (blen (piece h image data), Some h', cs', u') ∧
    crc32_ok cs' ∧ writing h' next u' ∧ kept (oh_offset h) (blen next) u u'.
Proof.
  intros Hw [Hn Hd] Hcs next h'. pose proof Hw as [Es Ew Ec Hsz Ha Hi Hu Hq Hdev].
  unfold ota_write. rewrite (proj2 (Z.eqb_neq _ _)), Ew, Es by lia.
  pose proof (blen_nonneg image). set (k := Z.min (blen data) (oh_expected_size h - blen image)).
  assert (0 <= k <= blen data) as Hk by lia.
  assert ((if oh_expected_size h <? usz (blen image + blen data)
           then u32 (oh_expected_size h - blen image) else blen data) = k) as ->.
  { rewrite usz_id by lia. destruct (_ <? _) eqn:E; bool_hyps; [|lia].
    rewrite wrap_id by (unfold in_w; lia). lia. }
  assert (blen (piece h image data) = k) as Hp by (unfold piece; rewrite blen_take; unfold blen in *; lia).
  rewrite rd_bytes_ok by lia. change (drop (Z.to_nat 0) data) with data.
  cbn [mbind option_bind]. change (take (Z.to_nat k) data) with (piece h image data).
  assert (Forall is_u8 (piece h image data)) as Hpu by by apply Forall_take.
  destruct (device_write u (oh_offset h + blen image) (piece h image data) Hdev)
    as (u1 & E1 & Hd1 & Ew1); [unfold SIZEOF_METADATA in *; lia|lia|done|].
  rewrite (wrap_id 32 (oh_offset h + blen image)) by (unfold in_w, SIZEOF_METADATA in *; lia).
  rewrite E1. cbn [mbind option_bind]. rewrite Z.eqb_refl. cbn [negb].
  destruct (ota_crc32_update_spec (oh_crc32 h) data k cs Hcs Hd) as (cs' & E2 & Hcs'); [lia|].
  rewrite E2. cbn [mbind option_bind]. change (take (Z.to_nat k) data) with (piece h image data).
  rewrite Ec, crc32_app by done. fold next.
  assert (u32 (blen image + k) = blen next) as ->.
  { unfold next. rewrite blen_app, Hp. apply wrap_id. unfold in_w. lia. }
  fold h'. rewrite (wrap_id 32 k) by (unfold in_w; lia).
  assert (to_i32 k = blen (piece h image data)) as -> by (unfold to_i32; zbool; done).
  set (u2 := match oh_progress_cb h' with Some f => _ | None => _ end).
  assert (hal_ready s u2 ∧ cont u2 = cont u1) as [Hr2 Ec2].
  { unfold u2. destruct (oh_progress_cb h') as [f|] eqn:Ef; [|split; [apply Hd1|done]].
    apply (Hq f); [done|apply Hd1]. }
  pose proof (wr_bytes_length _ _ _ _ Ew1) as Hl1.
  assert (blen next = blen image + k) as Hnl by (unfold next; by rewrite blen_app, Hp).
  exists cs', u2. split; [done|]. split; [done|]. split; [|split].
  - split; try done; rewrite ?Ec2; cbn [h' with_written oh_expected_size oh_offset].
    + lia.
    + unfold blen in *. lia.
    + apply (holds_wr_snoc (cont u)); [unfold SIZEOF_METADATA in *; lia|done|done].
    + by apply Forall_app.
    + split; rewrite ?Ec2; [done|apply Hd1..].
  - rewrite Ec2. unfold blen. by rewrite Hl1.
  - intros q m Hq0 Hm Hqm Hout. rewrite Ec2. apply (at_offset_wr _ _ _ _ _ _ Ew1); [done|done|done|].
    lia.
Qed.

(** A sequence of writes. *)
Fixpoint write_all (chunks : list (list Z)) h cs u
    : option (list Z * ota_handle (S := S) (U := U) * crc32_state * U) :=
  match chunks with
  | [] => Some ([], h, cs, u)
  | data :: chunks =>
    '(r, h, cs, u) ← ota_write (Some h) (Some data) (blen data) cs u;
    h ← h;
    '(rs, h, cs, u) ← write_all chunks h cs u;
    Some (r :: rs, h, cs, u)
  end.

(** What the writes return when [room] bytes are still expected. *)
Fixpoint accepted (chunks : list (list Z)) (room : Z) : list Z :=
  match chunks with
  | [] => []
  | data :: chunks => Z.min (blen data) room :: accepted chunks (room - Z.min (blen data) room)
  end.

Lemma take_piece h image data (rest : list Z) :
  blen image <= oh_expected_size h →
  take (Z.to_nat (oh_expected_size h)) ((image ++ piece h image data) ++ rest) =
  take (Z.to_nat (oh_expected_size h)) (image ++ data ++ rest).
Proof.
  intros Hi. unfold piece. set (n := oh_expected_size h) in *. rewrite <- app_assoc.
  pose proof (blen_nonneg image). unfold blen in *.
  rewrite !take_app. rewrite (take_ge image) by lia. f_equal.
  destruct (decide (Z.of_nat (length data) <= n - Z.of_nat (length image))) as [Hle|Hgt].
  - by rewrite (take_ge data (Z.to_nat (Z.min _ _))) by lia.
  - rewrite Z.min_r by lia. rewrite take_take, length_take.
    replace (Z.to_nat (n - Z.of_nat (length image))) with (Z.to_nat n - length image)%nat by lia.
    rewrite Nat.min_id. f_equal.
    replace (Z.to_nat n - length image - _ `min` _)%nat with 0%nat by lia.
    by replace (Z.to_nat n - length image - length data)%nat with 0%nat by lia.
Qed.

Lemma writes_spec chunks h image cs u :
  writing h image u → Forall chunk_ok chunks → crc32_ok cs →
  let final := take (Z.to_nat (oh_expected_size h)) (image ++ concat chunks) in
  ∃ cs' u', write_all chunks h cs u =
      Some (accepted chunks (oh_expected_size h - blen image),
            with_written (blen final) (crc32 0 final) h, cs', u') ∧
    crc32_ok cs' ∧ writing (with_written (blen final) (crc32 0 final) h) final u' ∧
    kept (oh_offset h) (blen final) u u'.
Proof.
  revert h image cs u. induction chunks as [|data chunks IH]; intros h image cs u Hw Hc Hcs final.
  - pose proof Hw as [Es Ew Ec Hsz Ha Hi Hu Hq Hdev].
    assert (final = image) as ->.
    { unfold final. cbn [concat]. rewrite app_nil_r. apply take_ge. unfold blen in *. lia. }
    assert (with_written (blen image) (crc32 0 image) h = h) as -> by (by rewrite <- Ew, <- Ec; destruct h).
    exists cs, u. split; [done|]. split; [done|]. by split.
  - apply Forall_cons in Hc as [Hd Hc].
    destruct (write_step h image data cs u Hw Hd Hcs) as (cs1 & u1 & E1 & Hcs1 & Hw1 & Hl1 & Hk1).
    set (h1 := with_written _ _ h) in *.
    destruct (IH h1 (image ++ piece h image data) cs1 u1 Hw1 Hc Hcs1) as (cs2 & u2 & E2 & Hcs2 & Hw2 & Hl2 & Hk2).
    change (oh_expected_size h1) with (oh_expected_size h) in *.
    change (oh_offset h1) with (oh_offset h) in *.
    change (with_written ?a ?b h1) with (with_written a b h) in *.
    pose proof (wr_size _ _ _ Hw) as Hsz.
    rewrite take_piece in * by lia. change (image ++ data ++ concat chunks) with (image ++ concat (data :: chunks)) in *.
    fold final in E2, Hw2, Hk2. exists cs2, u2. cbn [write_all]. rewrite E1. cbn [mbind option_bind].
    rewrite E2. cbn [mbind option_bind accepted].
    assert (blen (piece h image data) = Z.min (blen data) (oh_expected_size h - blen image)) as Hp.
    { unfold piece. pose proof (blen_nonneg data). rewrite blen_take by (unfold blen in *; lia).
      unfold blen in *. lia. }
    rewrite blen_app, Hp, Z.sub_add_distr. split; [done|]. split; [done|]. split; [done|].
    split; [by rewrite Hl2|]. intros q k Hq Hk Hqk Hout. rewrite (Hk2 q k Hq Hk) by (rewrite ?Hl1; done). apply Hk1; try done.
    destruct Hout as [?|Hout]; [by left|right].
    enough (blen (image ++ piece h image data) <= blen final) by lia.
    unfold final. cbn [concat]. rewrite <- take_piece by lia.
    pose proof (wr_size _ _ _ Hw1) as Hs1. change (oh_expected_size h1) with (oh_expected_size h) in Hs1.
    unfold blen in *. rewrite length_take, (length_app (image ++ _)). lia.
Qed.

(** ** Ending an update *)

Definition part_offset (p : Z) : Z := 0x10000 + p * 0x100000.

(** The metadata after an update of partition [p] with [image]: without metadata
    before it, size and checksum are not recorded. *)
Definition recorded (m : ota_metadata_t) (p : Z) (image : list Z) (verify : bool)
    : ota_metadata_t :=
  if om_magic m =? OTA_MAGIC then
    mk_meta (om_magic m) (om_version m) (om_reserved m) (u32 (om_sequence m + 1))
      (om_active_partition m) p (om_active_crc32 m) (crc32 0 image)
      (om_active_size m) (blen image) (om_active_state m)
      (if verify then OTA_STATE_PENDING_VERIFY else OTA_STATE_NEW) 0
  else mk_meta OTA_MAGIC OTA_VERSION 0 1 OTA_PARTITION_OTA_0 p 0 0 0 0 0 0 0.

Definition handle_ok h : Prop :=
  oh_storage h = s ∧ is_u32 (oh_partition h) ∧ is_u32 (oh_written h) ∧ is_u32 (oh_crc32 h).

Lemma end_meta_ok (ret : Z) m verify h : meta_ok m → handle_ok h → meta_ok (end_meta ret m verify h).
Proof.
  intros (H1 & H2 & H3 & H4 & H5 & H6 & H7 & H8 & H9 & H10 & H11 & H12 & H13) (_ & Hp & Hw & Hc).
  unfold end_meta. destruct (negb (ret =? 0)); unfold meta_ok; cbn;
    split_and!; try done; try (apply wrap_in_w; lia). by destruct verify.
Qed.

Lemma ota_end_spec u h verify :
  device_ok u → handle_ok h →
  ∃ u', ota_end (Some h) verify u = Some (0, u') ∧ device_ok u' ∧
    stored_meta u' =
      end_meta (if om_magic (stored_meta u) =? OTA_MAGIC then 0 else -1) (stored_meta u) verify h ∧
    ∃ m, wr_bytes (cont u) 0 (enc_meta m) = Some (cont u').
Proof.
  intros Hd Hh. pose proof Hh as (Es & _). unfold ota_end. rewrite Es.
  destruct (hal_sync_ok s u (do_ready _ Hd)) as (u1 & -> & Hr1 & Ec1). cbn [mbind option_bind].
  assert (device_ok u1) as Hd1 by (split; rewrite ?Ec1; [done|apply Hd..]).
  destruct (read_meta_spec u1 Hd1) as (u2 & m & -> & -> & Hd2 & Ec2). cbn [mbind option_bind].
  assert (stored_meta u1 = stored_meta u) as -> by (unfold stored_meta; by rewrite Ec1).
  destruct (write_meta_spec u2 (end_meta (if om_magic (stored_meta u) =? OTA_MAGIC then 0 else -1)
              (stored_meta u) verify h) Hd2) as (u3 & -> & Hd3 & Em & Ew).
  { apply end_meta_ok; [by apply stored_meta_ok|done]. }
  cbn [mbind option_bind]. exists u3. split; [done|]. split; [done|]. split; [done|].
  eexists. rewrite <- Ec1, <- Ec2. exact Ew.
Qed.

Lemma begin_writing u p n cb :
  device_ok u → 0 <= p < OTA_PARTITION_MAX → 0 <= n < 2 ^ 31 →
  part_offset p + n <= blen (cont u) < 2 ^ 32 → quiet cb →
  ∃ h, ota_begin true (Some s) p n cb = Some h ∧ writing h [] u ∧
    oh_partition h = p ∧ oh_offset h = part_offset p ∧ oh_expected_size h = n.
Proof.
  intros Hd Hp Hn Hl Hq. unfold ota_begin. zbool. cbn [negb]. eexists. split; [done|].
  unfold part_offset, OTA_PARTITION_MAX in *.
  rewrite (wrap_id 32 (p * _)), wrap_id by (unfold in_w; lia). split; [|done].
  change (blen (@nil Z)) with 0 in *.
  split; cbn [oh_storage oh_written oh_crc32 oh_expected_size oh_offset oh_progress_cb]; try done.
  - unfold SIZEOF_METADATA. lia.
  - split; [done|]. change (blen (@nil Z)) with 0. lia.
Qed.

(** C36: However an image is cut into pieces, [ota_begin], [ota_write] and [ota_end]
    store exactly its first [n] bytes, [n] being the announced size, in the area of
    the partition, and change nothing else but the metadata; every write returns the
    number of bytes it accepted, and the metadata records size and CRC-32 of the
    stored image, except that the first update of a device records neither. *)
Theorem ota_image_stored u p n cb chunks cs verify :
  device_ok u → crc32_ok cs → 0 <= p < OTA_PARTITION_MAX → 0 <= n < 2 ^ 31 →
  part_offset p + n <= blen (cont u) < 2 ^ 32 → quiet cb → Forall chunk_ok chunks →
  let image := take (Z.to_nat n) (concat chunks) in
  ∃ h0 h cs1 u1 u2,
    ota_begin true (Some s) p n cb = Some h0 ∧
    write_all chunks h0 cs u = Some (accepted chunks n, h, cs1, u1) ∧
    ota_end (Some h) verify u1 = Some (0, u2) ∧
    holds (part_offset p) image (cont u2) ∧
    stored_meta u2 = recorded (stored_meta u) p image verify ∧
    ∀ q k, SIZEOF_METADATA <= q → 0 <= k → q + k <= blen (cont u) →
      q + k <= part_offset p ∨ part_offset p + blen image <= q →
      at_offset q k (cont u2) = at_offset q k (cont u).
Proof.
  intros Hd Hcs Hp Hn Hl Hq Hc image.
  destruct (begin_writing u p n cb Hd Hp Hn Hl Hq) as (h0 & E0 & Hw0 & Ep & Eo & En).
  destruct (writes_spec chunks h0 [] cs u Hw0 Hc Hcs) as (cs1 & u1 & E1 & Hcs1 & Hw1 & Hl1 & Hk1).
  rewrite En, Eo in *. change ([] ++ concat chunks) with (concat chunks) in E1, Hw1, Hk1.
  fold image in E1, Hw1, Hk1.
  set (h := with_written (blen image) (crc32 0 image) h0) in *.
  pose proof Hw1 as [Es Ew Ec Hsz Ha Hi Hu Hq1 Hd1]. change (oh_offset h) with (oh_offset h0) in *.
  change (oh_expected_size h) with (oh_expected_size h0) in *. rewrite En, Eo in *.
  pose proof (blen_nonneg image).
  destruct (ota_end_spec u1 h verify Hd1) as (u2 & E2 & Hd2 & Em & m & Ewm).
  { split; [done|]. change (oh_partition h) with (oh_partition h0). rewrite Ep, Ew, Ec.
    unfold OTA_PARTITION_MAX, in_w in *. split_and!; try lia; apply crc32_u32. }
  assert (∀ q k, SIZEOF_METADATA <= q → 0 <= k → q + k <= blen (cont u1) →
            at_offset q k (cont u2) = at_offset q k (cont u1)) as Hout.
  { intros q k Hq0 Hk0 Hqk. apply (at_offset_wr _ _ _ _ _ _ Ewm); try lia.
    - unfold SIZEOF_METADATA in *. lia.
    - right. exact Hq0. }
  exists h0, h, cs1, u1, u2. split; [done|]. split; [by rewrite E1, Z.sub_0_r|]. split; [done|].
  pose proof (wr_bytes_length _ _ _ _ Ewm) as Hl2.
  split; [|split].
  - destruct Hi as [Hi1 Hi2]. split; [|unfold blen in *; lia]. by rewrite Hout by lia.
  - rewrite Em. assert (stored_meta u1 = stored_meta u) as ->.
    { unfold stored_meta. rewrite Hk1; [done|done|done|apply Hd|]. left. unfold SIZEOF_METADATA in *. lia. }
    unfold end_meta, recorded. rewrite Ew, Ec. change (oh_partition h) with (oh_partition h0). rewrite Ep.
    by destruct (om_magic (stored_meta u) =? OTA_MAGIC).
  - intros q k Hq0 Hk0 Hqk Hd'. pose proof (do_size _ Hd).
    rewrite Hout by (rewrite ?Hl1; done). apply Hk1; try lia. unfold SIZEOF_METADATA in *. lia.
Qed.

(** ** Switching images *)

Inductive switch_op :=
  | OpEnd h (verify : bool)
  | OpMarkValid (p : Z)
  | OpMarkInvalid (p : Z)
  | OpRollback.

Definition switch (op : switch_op) u : option (Z * U) :=
  match op with
  | OpEnd h verify => ota_end (Some h) verify u
  | OpMarkValid p => mark_valid (Some s) p u
  | OpMarkInvalid p => mark_invalid (Some s) p u
  | OpRollback => rollback (Some s) u
  end.

Definition valid m : bool := om_magic m =? OTA_MAGIC.

(** The operations on the metadata alone. *)
Definition spec_switch (op : switch_op) m : Z * ota_metadata_t :=
  match op with
  | OpEnd h verify => (0, end_meta (if valid m then 0 else -1) m verify h)
  | OpMarkValid p => if valid m && (p =? om_next_partition m) then (0, promoted p m) else (-1, m)
  | OpMarkInvalid p =>
    if negb (valid m) then (-1, m) else
    if p =? om_next_partition m then (0, with_states (om_active_state m) OTA_STATE_INVALID m) else
    if p =? om_active_partition m then (0, with_states OTA_STATE_INVALID (om_next_state m) m) else
    (-1, m)
  | OpRollback => if valid m && (om_next_state m =? OTA_STATE_VALID) then (0, swapped m) else (-1, m)
  end.

Definition switch_ok (op : switch_op) : Prop :=
  match op with OpEnd h _ => handle_ok h | _ => True end.

Lemma rewrite_meta_spec u m :
  device_ok u → meta_ok m →
  ∃ u', ota_write_metadata (Some s) m u = Some (0, u') ∧ device_ok u' ∧ stored_meta u' = m.
Proof. intros Hd Hm. destruct (write_meta_spec u m Hd Hm) as (u' & ? & ? & ? & _). by exists u'. Qed.

(** The new metadata of a switch is well formed. *)
Lemma spec_switch_ok op m : meta_ok m → switch_ok op → meta_ok (spec_switch op m).2.
Proof.
  intros Hm Hop. pose proof Hm as (H1 & H2 & H3 & H4 & H5 & H6 & H7 & H8 & H9 & H10 & H11 & H12 & H13).
  assert (∀ z, is_u32 (u32 z)) as Hu by (intros; apply wrap_in_w; lia).
  destruct op as [h v|p|p|]; cbn [spec_switch].
  - by apply end_meta_ok.
  - destruct (valid m && (p =? om_next_partition m)) eqn:E; [|done]. bool_hyps.
    subst p. unfold meta_ok, promoted. cbn. by split_and!.
  - destruct (negb (valid m)); [done|].
    repeat match goal with |- context [if ?b then _ else _] => destruct b end; try done;
      unfold meta_ok, with_states; cbn; by split_and!.
  - destruct (_ && _); [|done]. unfold meta_ok, swapped. cbn. by split_and!.
Qed.

Lemma switch_spec op u :
  device_ok u → switch_ok op →
  ∃ u', switch op u = Some ((spec_switch op (stored_meta u)).1, u') ∧ device_ok u' ∧
    stored_meta u' = (spec_switch op (stored_meta u)).2.
Proof.
  intros Hd Hop. pose proof (spec_switch_ok op _ (stored_meta_ok u Hd) Hop) as Hm.
  destruct op as [h v|p|p|]; cbn [switch spec_switch] in *.
  { destruct (ota_end_spec u h v Hd Hop) as (u' & E & Hd' & Em & _). by exists u'. }
  all: destruct (read_meta_spec u Hd) as (u1 & m & E & -> & Hd1 & Ec);
    assert (stored_meta u1 = stored_meta u) as E1 by (unfold stored_meta; by rewrite Ec);
    unfold mark_valid, mark_invalid, rollback; rewrite E; cbn [mbind option_bind];
    change (om_magic (stored_meta u) =? OTA_MAGIC) with (valid (stored_meta u));
    destruct (valid (stored_meta u)); cbn [negb andb Z.eqb] in *; [|by exists u1];
    repeat match goal with |- context [if ?b then _ else _] => destruct b end;
    first [by exists u1 | by apply (rewrite_meta_spec u1)].
Qed.

Fixpoint switches (ops : list switch_op) u : option (list Z * U) :=
  match ops with
  | [] => Some ([], u)
  | op :: ops => '(r, u) ← switch op u; '(rs, u) ← switches ops u; Some (r :: rs, u)
  end.

Fixpoint spec_switches (ops : list switch_op) m : list Z * ota_metadata_t :=
  match ops with
  | [] => ([], m)
  | op :: ops => let '(r, m) := spec_switch op m in
                 let '(rs, m) := spec_switches ops m in (r :: rs, m)
  end.

Definition no_valid_next m : Prop := valid m = true → om_next_state m ≠ OTA_STATE_VALID.

Lemma spec_switch_next op m : no_valid_next m → no_valid_next (spec_switch op m).2.
Proof.
  intros Hn. destruct op as [h v|p|p|]; cbn [spec_switch].
  - unfold end_meta. destruct (valid m); cbn; [|done]. by destruct v.
  - by destruct (_ && _).
  - destruct (valid m) eqn:E; cbn [negb]; [|done].
    repeat match goal with |- context [if ?b then _ else _] => destruct b end; try done.
  - destruct (valid m) eqn:E; [|done]. cbn [andb].
    rewrite (proj2 (Z.eqb_neq _ _)); [done|by apply Hn].
Qed.

(** Run on a device, the functions that end an update, mark images valid or
    invalid and roll back do what they do to the metadata record alone, and keep it
    readable.  Nothing they can do makes the stand-by image valid, so a roll-back is
    always refused. *)
Theorem ota_switch_refines ops u :
  device_ok u → Forall switch_ok ops → no_valid_next (stored_meta u) →
  ∃ rs u', switches ops u = Some (rs, u') ∧ device_ok u' ∧
    spec_switches ops (stored_meta u) = (rs, stored_meta u') ∧
    Forall2 (λ op r, op = OpRollback → r = -1) ops rs.
Proof.
  intros Hd Hops. revert u Hd. induction Hops as [|op ops Hop _ IH]; intros u Hd Hn.
  { by exists [], u. }
  destruct (switch_spec op u Hd Hop) as (u1 & E1 & Hd1 & Em1).
  destruct (IH u1 Hd1) as (rs & u2 & E2 & Hd2 & Es & Hf).
  { rewrite Em1. by apply spec_switch_next. }
  exists ((spec_switch op (stored_meta u)).1 :: rs), u2. cbn [switches spec_switches].
  rewrite E1. cbn [mbind option_bind]. rewrite E2. cbn [mbind option_bind].
  rewrite Em1 in Es. destruct (spec_switch op (stored_meta u)) as [r m] eqn:Esw. cbn [fst snd] in *.
  rewrite Es. split; [done|]. split; [done|]. split; [done|]. constructor; [|done].
  intros ->. cbn [spec_switch] in Esw. destruct (valid (stored_meta u)) eqn:Ev; [|by injection Esw].
  cbn [andb] in Esw. rewrite (proj2 (Z.eqb_neq _ _)) in Esw by by apply Hn. by injection Esw.
Qed.

(** The functions of the API read the metadata through NULL. *)
Lemma switching_refused p u :
  ota_mark_valid p u = Some (-1, u) ∧ ota_mark_invalid p u = Some (-1, u) ∧
  ota_rollback u = Some (-1, u) ∧ ota_get_boot_partition u = Some (OTA_PARTITION_OTA_0, u).
Proof. done. Qed.
End OtaThm.

(** No signature verifies. *)
Lemma signatures_refused firmware size signature sig_size pubkey key_size :
  ota_verify_signature firmware size signature sig_size pubkey key_size = -1.
Proof.
  destruct firmware, signature, pubkey; try done. cbn. by destruct (_ || _).
Qed.

(** ** A run on the simulator's device *)

Module OtaRuns.
Import HalStorage.Sim.
#[local] Instance arch : Arch := arch32.

Definition device : hal_storage unit * unit :=
  (mk_storage [] 0 (Some (zeros 70000)) 70000 None true, tt).

Lemma device_is_ok : device_ok tt device.
Proof.
  split.
  - split; [done|]. exists (zeros 70000). by rewrite blen_zeros.
  - apply Forall_zeros.
  - change (blen (hal_content tt device)) with (blen (zeros 70000)). by rewrite blen_zeros.
Qed.

Definition chunks : list (list Z) := [[1; 2; 3]; [4; 5; 6; 7]; [8]].

Lemma quiet_none : quiet (S := unit) (U := hal_storage unit * unit) tt None.
Proof. by intros f a b u ?. Qed.

Lemma ota_image_stored_witness :
  let image := [1; 2; 3; 4; 5; 6] in
  ∃ h0 h cs1 u1 u2,
    ota_begin true (Some tt) 0 6 None = Some h0 ∧
    write_all chunks h0 crc32_boot device = Some (accepted chunks 6, h, cs1, u1) ∧
    ota_end (Some h) true u1 = Some (0, u2) ∧
    holds (part_offset 0) image (hal_content tt u2) ∧
    stored_meta tt u2 = recorded (stored_meta tt device) 0 image true ∧
    ∀ q k, SIZEOF_METADATA <= q → 0 <= k → q + k <= blen (hal_content tt device) →
      q + k <= part_offset 0 ∨ part_offset 0 + blen image <= q →
      at_offset q k (hal_content tt u2) = at_offset q k (hal_content tt device).
Proof.
  apply (ota_image_stored tt device 0 6 None chunks crc32_boot true device_is_ok crc32_boot_ok).
  - vm_decide.
  - vm_decide.
  - change (blen (hal_content tt device)) with (blen (zeros 70000)). by rewrite blen_zeros.
  - apply quiet_none.
  - repeat constructor; vm_decide.
Defined.

Definition switching : list (switch_op (S := unit) (U := hal_storage unit * unit)) :=
  [OpEnd (mk_handle tt 1 0x110000 10 10 99 None) true; OpRollback; OpMarkValid 1; OpRollback].

Lemma ota_switch_refines_witness :
  ∃ rs u', switches tt switching device = Some (rs, u') ∧ device_ok tt u' ∧
    spec_switches switching (stored_meta tt device) = (rs, stored_meta tt u') ∧
    Forall2 (λ op r, op = OpRollback → r = -1) switching rs.
Proof.
  apply (ota_switch_refines tt switching device device_is_ok).
  - repeat constructor; vm_decide.
  - vm_compute. discriminate.
Defined.

(** The first update of a device leaves size and checksum zero. *)
Example first_update_unrecorded :
  let m := recorded (stored_meta tt device) 1 [1; 2; 3] true in
  om_next_partition m = 1 ∧ om_next_size m = 0 ∧ om_next_crc32 m = 0 ∧ om_next_state m = OTA_STATE_NEW.
Proof. by vm_compute. Qed.
End OtaRuns.
