(* ===== verification/Module.v ===== *)
(** * Loadable modules (drivers/module.c)

    A module is a header, a table of symbols, a table of dependencies and code, all
    under one CRC-32.  The structs are their bytes: the tables a handle keeps are
    blocks of memory, and an access outside a block is [None].  Pointers returned
    for symbols are addresses, 0 for NULL.  The [_ok] flags say which allocations
    succeed. *)

From Stdlib Require Import ZArith Lia.
From stdpp Require Import base tactics option numbers list.
From S2P Require Import Prelude.
From S2P Require Import CString.
From S2P Require Import Layout.
From S2P Require Import Crc32.

Definition ARDMOD_MAGIC : Z := 0x4D4F4441.
Definition ARDMOD_VERSION : Z := 1.
Definition ARDMOD_MAX_SYMBOLS : Z := 64.
Definition ARDMOD_MAX_DEPS : Z := 16.
Definition ARDMOD_NAME_MAX : Z := 32.

Record ardmod_header_t := mk_mod_header {
  mh_magic : Z; mh_version : Z; mh_flags : Z; mh_size : Z; mh_crc32 : Z;
  mh_name : list Z; mh_version_str : list Z;
  mh_type : Z; mh_load_addr : Z; mh_entry_point : Z; mh_bss_size : Z; mh_data_size : Z;
  mh_symbol_count : Z; mh_dep_count : Z; mh_manifest_offset : Z; mh_code_offset : Z
}.
Record ardmod_symbol_t := mk_symbol { ms_name : list Z; ms_address : Z; ms_type : Z }.
Record ardmod_dep_t := mk_dep { md_name : list Z; md_version : list Z; md_optional : bool }.

Definition SIZEOF_MOD_HEADER : Z := 100.
Definition SIZEOF_SYMBOL : Z := 40.
Definition SIZEOF_DEP : Z := 49.

(** ** Layout *)

Definition enc_head (h : ardmod_header_t) : list Z :=
  bytes32 (mh_magic h) ++ bytes16 (mh_version h) ++ bytes16 (mh_flags h) ++
  bytes32 (mh_size h) ++ bytes32 (mh_crc32 h).
Definition enc_tail (h : ardmod_header_t) : list Z :=
  bytes32 (mh_type h) ++ bytes32 (mh_load_addr h) ++ bytes32 (mh_entry_point h) ++
  bytes32 (mh_bss_size h) ++ bytes32 (mh_data_size h) ++ bytes32 (mh_symbol_count h) ++
  bytes32 (mh_dep_count h) ++ bytes32 (mh_manifest_offset h) ++ bytes32 (mh_code_offset h).
Definition enc_mod_header (h : ardmod_header_t) : list Z :=
  enc_head h ++ mh_name h ++ mh_version_str h ++ enc_tail h.

Definition dec_mod_header (b : list Z) : ardmod_header_t :=
  let t := drop 64 b in
  mk_mod_header (get32 b 0) (get16 b 4) (get16 b 6) (get32 b 8) (get32 b 12)
    (take 32 (drop 16 b)) (take 16 (drop 48 b))
    (get32 t 0) (get32 t 4) (get32 t 8) (get32 t 12) (get32 t 16) (get32 t 20) (get32 t 24)
    (get32 t 28) (get32 t 32).

Definition enc_symbol (s : ardmod_symbol_t) : list Z :=
  ms_name s ++ bytes32 (ms_address s) ++ bytes32 (ms_type s).
Definition enc_dep (d : ardmod_dep_t) : list Z :=
  md_name d ++ md_version d ++ [if md_optional d then 1 else 0].

(** ** CRC

    The same text as in ota.c. *)
Definition crc32_update (crc : Z) (data : list Z) (len : Z) (s : crc32_state)
    : option (Z * crc32_state) := ota_crc32_update crc data len s.

Section Module.
Context `{Arch}.

Record ardmod_handle := mk_mod {
  mo_header : ardmod_header_t; mo_data : list Z; mo_size : Z;
  mo_symbols : option (list Z); mo_deps : option (list Z); mo_loaded : bool
}.

Definition ardmod_verify_crc (data : option (list Z)) (size : Z) (cs : crc32_state)
    : option (Z * crc32_state) :=
  match data with
  | None => Some (0, cs)
  | Some data =>
    if size <? SIZEOF_MOD_HEADER then Some (0, cs) else
    header_copy ← rd_bytes data 0 SIZEOF_MOD_HEADER;
    let stored_crc := get32 header_copy 12 in
    header_copy ← wr_bytes header_copy 12 (bytes32 0);
    '(crc, cs) ← crc32_update 0 header_copy SIZEOF_MOD_HEADER cs;
    '(crc, cs) ←
      (if SIZEOF_MOD_HEADER <? size
       then crc32_update crc (drop (Z.to_nat SIZEOF_MOD_HEADER) data) (size - SIZEOF_MOD_HEADER) cs
       else Some (crc, cs));
    Some (if crc =? stored_crc then 1 else 0, cs)
  end.

Definition ardmod_calculate_crc (data : option (list Z)) (size : Z) (crc : bool) (cs : crc32_state)
    : option (Z * Z * crc32_state) :=
  match data with
  | Some data => if crc then '(c, cs) ← crc32_update 0 data size cs; Some (0, c, cs)
                 else Some (-1, 0, cs)
  | None => Some (-1, 0, cs)
  end.

(** The symbol table and the dependency table of a handle. *)
Definition load_symbols (sym_ok : bool) (h : ardmod_header_t) (data : list Z)
    : option (option (list Z)) :=
  if (0 <? mh_symbol_count h) && (0 <? mh_manifest_offset h) then
    if sym_ok then
      b ← rd_bytes data (mh_manifest_offset h) (usz (mh_symbol_count h * SIZEOF_SYMBOL));
      Some (Some b)
    else Some None
  else Some None.

Definition load_deps (dep_ok : bool) (h : ardmod_header_t) (data : list Z)
    : option (option (list Z)) :=
  if 0 <? mh_dep_count h then
    let dep_offset := u32 (mh_manifest_offset h + usz (mh_symbol_count h * SIZEOF_SYMBOL)) in
    if dep_ok then
      b ← rd_bytes data dep_offset (usz (mh_dep_count h * SIZEOF_DEP));
      Some (Some b)
    else Some None
  else Some None.

Definition ardmod_load (handle_ok data_ok sym_ok dep_ok : bool) (data : option (list Z)) (size : Z)
    (cs : crc32_state) : option (option ardmod_handle * crc32_state) :=
  match data with
  | None => Some (None, cs)
  | Some data =>
    if size <? SIZEOF_MOD_HEADER then Some (None, cs) else
    if negb handle_ok then Some (None, cs) else
    b ← rd_bytes data 0 SIZEOF_MOD_HEADER;
    let h := dec_mod_header b in
    if negb (mh_magic h =? ARDMOD_MAGIC) then Some (None, cs) else
    if negb (mh_version h =? ARDMOD_VERSION) then Some (None, cs) else
    '(ok, cs) ← ardmod_verify_crc (Some data) size cs;
    if ok =? 0 then Some (None, cs) else
    if negb data_ok then Some (None, cs) else
    copy ← rd_bytes data 0 size;
    symbols ← load_symbols sym_ok h data;
    deps ← load_deps dep_ok h data;
    Some (Some (mk_mod h copy size symbols deps true), cs)
  end.

(** Every block of the handle is freed. *)
Definition ardmod_unload (handle : option ardmod_handle) : option ardmod_handle := None.

Definition ardmod_register_symbols (handle : option ardmod_handle) : Z :=
  match handle with Some h => if mo_loaded h then 0 else -1 | None => -1 end.
Definition ardmod_resolve_deps (handle : option ardmod_handle) : Z :=
  match handle with Some h => if mo_loaded h then 0 else -1 | None => -1 end.

(** [strcmp (mem, name) == 0], reading [mem] up to the first difference. *)
Fixpoint strcmp_mem (mem name : list Z) : option bool :=
  match mem, name with
  | [], _ => None
  | x :: _, [] => Some (x =? 0)
  | x :: mem, c :: name => if x =? c then strcmp_mem mem name else Some false
  end.

Fixpoint symbol_loop (n : nat) (i load_addr : Z) (symbols : option (list Z)) (name : list Z)
    : option Z :=
  match n with
  | O => Some 0
  | S n =>
    mem ← symbols;
    let s := drop (Z.to_nat (i * SIZEOF_SYMBOL)) mem in
    same ← strcmp_mem s name;
    if same : bool then a ← rd_bytes s ARDMOD_NAME_MAX 4; Some (u32 (load_addr + get32 a 0))
    else symbol_loop n (i + 1) load_addr symbols name
  end.

Definition ardmod_get_symbol (handle : option ardmod_handle) (name : option (list Z)) : option Z :=
  match handle, name with
  | Some h, Some name =>
    if negb (mo_loaded h) then Some 0 else
    symbol_loop (Z.to_nat (mh_symbol_count (mo_header h))) 0 (mh_load_addr (mo_header h))
      (mo_symbols h) name
  | _, _ => Some 0
  end.

(** The bytes copied to [symbols], and the count. *)
Definition ardmod_get_symbols (handle : option ardmod_handle) (symbols : bool) (max_symbols : Z)
    (count : bool) : option (Z * list Z * Z) :=
  match handle with
  | Some h =>
    if negb (mo_loaded h) || negb count then Some (-1, [], 0) else
    let n := mh_symbol_count (mo_header h) in
    let copy_count := if n <? max_symbols then n else max_symbols in
    if symbols then
      b ← rd_bytes (default [] (mo_symbols h)) 0 (usz (copy_count * SIZEOF_SYMBOL));
      Some (0, b, n)
    else Some (0, [], n)
  | None => Some (-1, [], 0)
  end.

Definition ardmod_get_name (handle : option ardmod_handle) : option (list Z) :=
  h ← handle; Some (mh_name (mo_header h)).
Definition ardmod_get_version (handle : option ardmod_handle) : option (list Z) :=
  h ← handle; Some (mh_version_str (mo_header h)).
Definition ardmod_get_entry_point (handle : option ardmod_handle) : Z :=
  match handle with Some h => mh_entry_point (mo_header h) | None => 0 end.

(** ** Building a module *)

(** "1.0.0" *)
Definition version_1_0_0 : list Z := [49; 46; 48; 46; 48].

Definition new_header (name : list Z) (type total symbol_count dep_count manifest_size : Z)
    : ardmod_header_t :=
  mk_mod_header ARDMOD_MAGIC ARDMOD_VERSION 0 (u32 total) 0
    (strncpy (zeros ARDMOD_NAME_MAX) name 31) (strncpy (zeros 16) version_1_0_0 15)
    type 0 0 0 0 (u32 symbol_count) (u32 dep_count) SIZEOF_MOD_HEADER
    (u32 (SIZEOF_MOD_HEADER + manifest_size)).

(** Copying [count] entries of a table to [data + off]. *)
Definition copy_table {A} (enc : A → list Z) (data : list Z) (off : Z) (table : option (list A))
    (count : Z) : option (list Z) :=
  match table with
  | Some t => if 0 <? count then t ← rd_bytes t 0 count; wr_bytes data off (mjoin (enc <$> t))
              else Some data
  | None => Some data
  end.

Definition ardmod_create (calloc_ok : bool) (name : option (list Z)) (type : Z)
    (code : option (list Z)) (code_size : Z)
    (symbols : option (list ardmod_symbol_t)) (symbol_count : Z)
    (deps : option (list ardmod_dep_t)) (dep_count : Z) (output : bool) (cs : crc32_state)
    : option (Z * option (list Z * Z) * crc32_state) :=
  match name, code with
  | Some name, Some code =>
    if negb output then Some (-1, None, cs) else
    if ARDMOD_MAX_SYMBOLS <? symbol_count then Some (-1, None, cs) else
    if ARDMOD_MAX_DEPS <? dep_count then Some (-1, None, cs) else
    let manifest_size := usz (symbol_count * SIZEOF_SYMBOL + dep_count * SIZEOF_DEP) in
    let total_size := usz (SIZEOF_MOD_HEADER + manifest_size + code_size) in
    if negb calloc_ok then Some (-1, None, cs) else
    let header := new_header name type total_size symbol_count dep_count manifest_size in
    data ← wr_bytes (zeros total_size) 0 (enc_mod_header header);
    data ← copy_table enc_symbol data (mh_manifest_offset header) symbols symbol_count;
    let dep_offset := u32 (mh_manifest_offset header + usz (symbol_count * SIZEOF_SYMBOL)) in
    data ← copy_table enc_dep data dep_offset deps dep_count;
    code ← rd_bytes code 0 code_size;
    data ← wr_bytes data (mh_code_offset header) code;
    '(crc, cs) ← crc32_update 0 data total_size cs;
    data ← wr_bytes data 12 (bytes32 crc);
    Some (0, Some (data, total_size), cs)
  | _, _ => Some (-1, None, cs)
  end.
End Module.
