(* ===== verification/ModuleThm.v ===== *)
(** * Modules load back, and damaged ones do not

    A module built by [ardmod_create] is accepted and its tables are found again; a
    change of up to four adjacent bytes outside the checksum field is refused.  The
    offsets in the header are trusted: [ardmod_load] reads outside the data exactly
    when an accepted header says so. *)

From Stdlib Require Import ZArith Lia.
From stdpp Require Import base tactics option numbers list.
From S2P Require Import Prelude.
From S2P Require Import CString.
From S2P Require Import Layout.
From S2P Require Import Crc32.
From S2P Require Import Module.

Section ModuleThm.
Context `{HA : Arch}.
Implicit Types (d p a b s code : list Z) (h : ardmod_header_t) (cs : crc32_state).

(** ** Checking the CRC *)

(** The bytes of a module with the checksum field zero. *)
Definition cleared d : list Z := take 12 d ++ zeros 4 ++ drop 16 d.

Definition crc_matches d : Prop := crc32 0 (cleared d) = get32 d 12.

#[local] Instance crc_matches_dec d : Decision (crc_matches d).
Proof. unfold crc_matches. apply _. Defined.

Lemma get16_take n d i : (S i < n)%nat → get16 (take n d) i = get16 d i.
Proof.
  intros Hi. unfold get16. by rewrite !list_lookup_total_alt, !lookup_take_lt by lia.
Qed.

Lemma get32_take n d i : (S (S (S i)) < n)%nat → get32 (take n d) i = get32 d i.
Proof. intros. unfold get32. by rewrite !get16_take by lia. Qed.

Lemma cleared_split d :
  (100 <= length d)%nat →
  take 12 (take 100 d) ++ zeros 4 ++ drop 16 (take 100 d) ++ drop 100 d = cleared d.
Proof.
  intros Hl. unfold cleared. rewrite take_take. do 2 f_equal. rewrite skipn_firstn_comm.
  rewrite <- (take_drop (100 - 16) (drop 16 d)) at 2. by rewrite drop_drop.
Qed.

Lemma cleared_u8 d : Forall is_u8 d → Forall is_u8 (cleared d).
Proof.
  intros Hd. unfold cleared. repeat (apply Forall_app; split);
    [by apply Forall_take|apply Forall_zeros|by apply Forall_drop].
Qed.

Lemma verify_spec d cs :
  crc32_ok cs → Forall is_u8 d → SIZEOF_MOD_HEADER <= blen d →
  ∃ cs', ardmod_verify_crc (Some d) (blen d) cs =
           Some (if decide (crc_matches d) then 1 else 0, cs') ∧ crc32_ok cs'.
Proof.
  intros Hcs Hd Hl. unfold ardmod_verify_crc, crc32_update, SIZEOF_MOD_HEADER in *.
  assert (100 <= length d)%nat as Hl' by (unfold blen in Hl; lia). zbool.
  rewrite rd_bytes_ok by lia. cbn [mbind option_bind].
  change (take (Z.to_nat 100) (drop (Z.to_nat 0) d)) with (take 100 d).
  assert (blen (take 100 d) = 100) as Hl2 by (by apply (blen_take 100)).
  rewrite wr_bytes_ok by (rewrite ?Hl2; by vm_compute). cbn [mbind option_bind].
  change (bytes32 0) with (zeros 4).
  change (Z.to_nat 12 + length (zeros 4))%nat with 16%nat. change (Z.to_nat 12) with 12%nat.
  set (hc := take 12 (take 100 d) ++ zeros 4 ++ drop 16 (take 100 d)).
  assert (Forall is_u8 hc) as Hhc by (by apply (cleared_u8 (take 100 d)), Forall_take).
  assert (blen hc = 100) as Hlc.
  { unfold hc, blen. rewrite !length_app, length_drop, !length_take. change (length (zeros 4)) with 4%nat. lia. }
  destruct (ota_crc32_update_spec 0 hc 100 cs Hcs Hhc) as (cs1 & -> & Hcs1); [lia|].
  cbn [mbind option_bind]. rewrite (take_ge hc) by (unfold blen in Hlc; lia).
  assert (∃ cs2, (if 100 <? blen d
      then ota_crc32_update (crc32 0 hc) (drop (Z.to_nat 100) d) (blen d - 100) cs1
      else Some (crc32 0 hc, cs1)) = Some (crc32 0 (cleared d), cs2) ∧ crc32_ok cs2)
    as (cs2 & -> & Hcs2).
  { rewrite <- (cleared_split d) by done.
    change (take 12 (take 100 d) ++ zeros 4 ++ drop 16 (take 100 d) ++ drop 100 d) with
      (take 12 (take 100 d) ++ zeros 4 ++ (drop 16 (take 100 d) ++ drop 100 d)).
    rewrite !app_assoc. fold hc || rewrite <- (app_assoc (take 12 _)). fold hc.
    rewrite <- crc32_app by done. destruct (100 <? blen d) eqn:E; bool_hyps.
    - destruct (ota_crc32_update_spec (crc32 0 hc) (drop 100 d) (blen d - 100) cs1 Hcs1)
        as (cs2 & E2 & Hcs2); [by apply Forall_drop|unfold blen in *; rewrite length_drop; lia|].
      exists cs2. split; [|done]. change (Z.to_nat 100) with 100%nat. rewrite E2.
      by rewrite take_ge by (rewrite length_drop; unfold blen in *; lia).
    - exists cs1. split; [|done]. rewrite (drop_ge d) by (unfold blen in *; lia).
      by rewrite crc32_nil by apply crc32_u32. }
  cbn [mbind option_bind]. rewrite get32_take by lia. exists cs2. split; [|done]. do 2 f_equal.
  unfold crc_matches. destruct (decide _) as [->|Hne]; [by rewrite Z.eqb_refl|].
  by rewrite (proj2 (Z.eqb_neq _ _)).
Qed.

(** ** Damaged modules *)

Lemma get32_app_l d r i : (S (S (S i)) < length d)%nat → get32 (d ++ r) i = get32 d i.
Proof.
  intros. unfold get32, get16. by rewrite !list_lookup_total_alt, !lookup_app_l by lia.
Qed.

Lemma get32_app_r d r i : get32 (d ++ r) (length d + i) = get32 r i.
Proof.
  assert (∀ j, (d ++ r) !! (length d + j)%nat = r !! j) as E.
  { intros j. rewrite lookup_app_r by lia. f_equal. lia. }
  unfold get32, get16. by rewrite !list_lookup_total_alt, <- !Nat.add_succ_r, !E.
Qed.

(** The checksum field and the rest of a module, with a window before or behind it. *)
Lemma cleared_before p a s :
  (length p + length a <= 12)%nat → (16 <= length p + length a + length s)%nat →
  ∃ s', (∀ b, length b = length a → cleared (p ++ b ++ s) = p ++ b ++ s') ∧
        (Forall is_u8 s → Forall is_u8 s') ∧
        (∀ b, length b = length a → get32 (p ++ b ++ s) 12 = get32 s (12 - length p - length a)).
Proof.
  intros Hl Hs. set (k := (12 - length p - length a)%nat).
  exists (take k s ++ zeros 4 ++ drop (k + 4) s). split; [|split].
  - intros b Hb. unfold cleared. rewrite !take_app, !drop_app.
    rewrite !(take_ge p), !(take_ge b), (drop_ge p), (drop_ge b) by lia.
    rewrite <- !app_assoc. cbn [app]. rewrite Hb.
    replace (12 - length p - length a)%nat with k by done.
    by replace (16 - length p - length a)%nat with (k + 4)%nat by lia.
  - intros Hu. repeat (apply Forall_app; split);
      [by apply Forall_take|apply Forall_zeros|by apply Forall_drop].
  - intros b Hb. replace 12%nat with (length p + (length b + k))%nat by lia.
    rewrite get32_app_r, get32_app_r. done.
Qed.

Lemma cleared_behind p r : (16 <= length p)%nat → cleared (p ++ r) = cleared p ++ r.
Proof.
  intros Hl. unfold cleared. rewrite !take_app, !drop_app.
  replace (12 - length p)%nat with 0%nat by lia. replace (16 - length p)%nat with 0%nat by lia.
  cbn [take drop]. rewrite app_nil_r. by rewrite <- !app_assoc.
Qed.

Lemma burst_mismatch p a b s :
  Forall is_u8 p → Forall is_u8 a → Forall is_u8 b → Forall is_u8 s →
  length a = length b → (length a <= 4)%nat → a ≠ b →
  (16 <= length p + length a + length s)%nat →
  (length p + length a <= 12 ∨ 16 <= length p)%nat →
  crc_matches (p ++ a ++ s) → ¬ crc_matches (p ++ b ++ s).
Proof.
  intros Hp Ha Hb Hs Hl H4 Hne Hlen [Hw|Hw]; unfold crc_matches; intros E1 E2; apply Hne.
  - destruct (cleared_before p a s Hw Hlen) as (s' & Hc & Hs' & Hg).
    rewrite (Hc a), (Hg a) in E1 by done. rewrite (Hc b), (Hg b) in E2 by done.
    apply (crc32_burst 0 p a b s'); auto; [vm_decide|]. by rewrite E1, E2.
  - rewrite cleared_behind in E1, E2 by done.
    rewrite get32_app_l in E1, E2 by lia.
    apply (crc32_burst 0 (cleared p) a b s); auto using cleared_u8; [vm_decide|]. by rewrite E1, E2.
Qed.

(** ** What loading does *)

Definition header_of d : ardmod_header_t := dec_mod_header (take 100 d).

Definition accepted d : Prop :=
  mh_magic (header_of d) = ARDMOD_MAGIC ∧ mh_version (header_of d) = ARDMOD_VERSION ∧ crc_matches d.

(** The tables an accepted header announces lie inside the data. *)
Definition tables_inside h (n : Z) : Prop :=
  (0 < mh_symbol_count h → 0 < mh_manifest_offset h →
   mh_manifest_offset h + usz (mh_symbol_count h * SIZEOF_SYMBOL) <= n) ∧
  (0 < mh_dep_count h →
   u32 (mh_manifest_offset h + usz (mh_symbol_count h * SIZEOF_SYMBOL)) +
     usz (mh_dep_count h * SIZEOF_DEP) <= n).

#[local] Instance accepted_dec d : Decision (accepted d).
Proof. unfold accepted. apply _. Defined.
#[local] Instance tables_inside_dec h n : Decision (tables_inside h n).
Proof. unfold tables_inside. apply _. Defined.

Definition symbols_of h d : option (list Z) :=
  if (0 <? mh_symbol_count h) && (0 <? mh_manifest_offset h)
  then Some (at_offset (mh_manifest_offset h) (usz (mh_symbol_count h * SIZEOF_SYMBOL)) d)
  else None.
Definition deps_of h d : option (list Z) :=
  if 0 <? mh_dep_count h
  then Some (at_offset (u32 (mh_manifest_offset h + usz (mh_symbol_count h * SIZEOF_SYMBOL)))
               (usz (mh_dep_count h * SIZEOF_DEP)) d)
  else None.

Lemma usz_nonneg z : 0 <= usz z.
Proof. apply wrap_in_w. destruct size_bits_ok as [->| ->]; lia. Qed.

Lemma rd_bytes_outside d off n : blen d < off + n → rd_bytes d off n = None.
Proof. intros. unfold rd_bytes. by rewrite (proj2 (Z.leb_gt (off + n) (blen d))), !andb_false_r. Qed.

Lemma load_tables h d :
  (x ← load_symbols true h d; y ← load_deps true h d; Some (x, y)) =
  (if decide (tables_inside h (blen d)) then Some (symbols_of h d, deps_of h d) else None).
Proof.
  unfold load_symbols, load_deps, symbols_of, deps_of, tables_inside.
  set (n1 := usz (mh_symbol_count h * SIZEOF_SYMBOL)). set (n2 := usz (mh_dep_count h * SIZEOF_DEP)).
  pose proof (usz_nonneg (mh_symbol_count h * SIZEOF_SYMBOL)) as H1. fold n1 in H1.
  pose proof (usz_nonneg (mh_dep_count h * SIZEOF_DEP)) as H2. fold n2 in H2.
  assert (0 <= u32 (mh_manifest_offset h + n1)) as H3 by (apply wrap_in_w; lia).
  set (off := u32 (mh_manifest_offset h + n1)) in *.
  destruct (0 <? mh_symbol_count h) eqn:E1, (0 <? mh_manifest_offset h) eqn:E2,
    (0 <? mh_dep_count h) eqn:E3; bool_hyps; cbn [andb mbind option_bind];
    repeat match goal with
    | |- context [rd_bytes d ?o ?n] =>
      destruct (decide (o + n <= blen d)); [rewrite (at_offset_rd o n d) by lia|
        rewrite (rd_bytes_outside d o n) by lia]; cbn [mbind option_bind]
    end; case_decide as Hd; try done; exfalso; tauto || lia.
Qed.

Lemma load_outcome d cs :
  crc32_ok cs → Forall is_u8 d → SIZEOF_MOD_HEADER <= blen d →
  ∃ cs', crc32_ok cs' ∧ ardmod_load true true true true (Some d) (blen d) cs =
    if decide (accepted d) then
      if decide (tables_inside (header_of d) (blen d)) then
        Some (Some (mk_mod (header_of d) d (blen d) (symbols_of (header_of d) d)
                      (deps_of (header_of d) d) true), cs')
      else None
    else Some (None, cs').
Proof.
  intros Hcs Hd Hl. unfold ardmod_load. rewrite (proj2 (Z.ltb_ge _ _)) by done. cbn [negb].
  rewrite (rd_bytes_ok d 0 SIZEOF_MOD_HEADER) by (unfold SIZEOF_MOD_HEADER in *; lia). cbn [mbind option_bind].
  change (dec_mod_header _) with (header_of d). unfold accepted.
  destruct (mh_magic (header_of d) =? ARDMOD_MAGIC) eqn:E1; bool_hyps.
  2: { exists cs. split; [done|]. cbn [negb]. rewrite decide_False by tauto. done. }
  destruct (mh_version (header_of d) =? ARDMOD_VERSION) eqn:E2; bool_hyps.
  2: { exists cs. split; [done|]. cbn [negb]. rewrite decide_False by tauto. done. }
  destruct (verify_spec d cs Hcs Hd Hl) as (cs' & -> & Hcs'). exists cs'. split; [done|].
  cbn [negb mbind option_bind].
  destruct (decide (crc_matches d)) as [Hm|Hm]; cbn [Z.eqb].
  2: { rewrite (decide_False (P := _ ∧ _)) by tauto. done. }
  rewrite (decide_True (P := _ ∧ _)) by done.
  rewrite rd_bytes_all by done. cbn [mbind option_bind].
  pose proof (load_tables (header_of d) d) as Ht.
  destruct (load_symbols true (header_of d) d) as [x|]; cbn [mbind option_bind] in *.
  2: { by destruct (decide (tables_inside _ _)). }
  destruct (load_deps true (header_of d) d) as [y|]; cbn [mbind option_bind] in *;
    destruct (decide (tables_inside _ _)); by simplify_eq.
Qed.

(** With its allocations granted, [ardmod_load] on any bytes refuses what has the
    wrong magic, version or checksum, and loads the rest with its tables - unless the
    header announces a table that does not lie inside the data, when it reads past
    the end; it never checks that. *)
Theorem module_load_outcome d cs :
  crc32_ok cs → Forall is_u8 d → SIZEOF_MOD_HEADER <= blen d →
  let load := ardmod_load true true true true (Some d) (blen d) cs in
  (¬ accepted d → ∃ cs', load = Some (None, cs')) ∧
  (accepted d → tables_inside (header_of d) (blen d) →
   ∃ cs', load = Some (Some (mk_mod (header_of d) d (blen d) (symbols_of (header_of d) d)
                               (deps_of (header_of d) d) true), cs')) ∧
  (accepted d → ¬ tables_inside (header_of d) (blen d) → load = None).
Proof.
  intros Hcs Hd Hl load. destruct (load_outcome d cs Hcs Hd Hl) as (cs' & _ & E). unfold load.
  rewrite E. split; [|split]; intros Ha.
  - rewrite decide_False by done. by exists cs'.
  - intros Ht. rewrite !decide_True by done. by exists cs'.
  - intros Ht. by rewrite decide_True, decide_False by done.
Qed.

(** A module that loads no longer does after any change of at most four adjacent
    bytes before or behind the checksum field. *)
Theorem module_damage_refused p a b s cs :
  Forall is_u8 (p ++ a ++ s) → Forall is_u8 b → length a = length b → (length a <= 4)%nat →
  a ≠ b → (length p + length a <= 12 ∨ 16 <= length p)%nat →
  SIZEOF_MOD_HEADER <= blen (p ++ a ++ s) → crc32_ok cs → accepted (p ++ a ++ s) →
  ∃ cs', ardmod_load true true true true (Some (p ++ b ++ s)) (blen (p ++ b ++ s)) cs =
    Some (None, cs').
Proof.
  intros Hd Hb Hl H4 Hne Hw Hn Hcs (_ & _ & Hm).
  apply Forall_app in Hd as [Hp [Ha Hs]%Forall_app].
  assert (blen (p ++ b ++ s) = blen (p ++ a ++ s)) as El by (unfold blen; by rewrite !length_app, Hl).
  destruct (load_outcome (p ++ b ++ s) cs Hcs) as (cs' & _ & ->); [|by rewrite El|].
  - by repeat (apply Forall_app; split).
  - exists cs'. rewrite decide_False; [done|]. intros (_ & _ & Hb'). revert Hb'.
    apply (burst_mismatch p a b s); try done.
    unfold SIZEOF_MOD_HEADER, blen in Hn. rewrite !length_app in Hn. lia.
Qed.

(** ** Building and loading *)

Definition mod_header_ok h : Prop :=
  is_u32 (mh_magic h) ∧ is_u16 (mh_version h) ∧ is_u16 (mh_flags h) ∧ is_u32 (mh_size h) ∧
  is_u32 (mh_crc32 h) ∧ length (mh_name h) = 32%nat ∧ length (mh_version_str h) = 16%nat ∧
  is_u32 (mh_type h) ∧ is_u32 (mh_load_addr h) ∧ is_u32 (mh_entry_point h) ∧
  is_u32 (mh_bss_size h) ∧ is_u32 (mh_data_size h) ∧ is_u32 (mh_symbol_count h) ∧
  is_u32 (mh_dep_count h) ∧ is_u32 (mh_manifest_offset h) ∧ is_u32 (mh_code_offset h).

Lemma drop_enc_header h :
  mod_header_ok h →
  drop 16 (enc_mod_header h) = mh_name h ++ mh_version_str h ++ enc_tail h ∧
  drop 48 (enc_mod_header h) = mh_version_str h ++ enc_tail h ∧
  drop 64 (enc_mod_header h) = enc_tail h.
Proof.
  intros (_ & _ & _ & _ & _ & Hn & Hv & _). unfold enc_mod_header.
  assert (∀ (a b : list Z) k m, length a = k → drop (k + m) (a ++ b) = drop m b) as Hd.
  { intros a b k m <-. apply drop_app_add. }
  split; [apply (Hd (enc_head h) _ 16%nat 0%nat eq_refl)|].
  rewrite (Hd (enc_head h) _ 16%nat 32%nat eq_refl : drop 48 _ = _).
  rewrite (Hd (enc_head h) _ 16%nat 48%nat eq_refl : drop 64 _ = _).
  rewrite (Hd (mh_name h) _ 32%nat 0%nat Hn : drop 32 _ = _).
  rewrite (Hd (mh_name h) _ 32%nat 16%nat Hn : drop 48 _ = _).
  by rewrite (Hd (mh_version_str h) _ 16%nat 0%nat Hv : drop 16 _ = _).
Qed.

Lemma mod_header_roundtrip h : mod_header_ok h → dec_mod_header (enc_mod_header h) = h.
Proof.
  intros Hok. destruct (drop_enc_header h Hok) as (E1 & E2 & E3). unfold dec_mod_header.
  rewrite E1, E2, E3. clear E1 E2 E3. destruct h.
  destruct Hok as (? & ? & ? & ? & ? & Hn & Hv & ? & ? & ? & ? & ? & ? & ? & ? & ?).
  cbn in Hn, Hv. rewrite !take_app_length' by done.
  unfold enc_mod_header, enc_head, enc_tail. rewrite <- !app_assoc. decode.
Qed.

Definition symbol_ok (y : ardmod_symbol_t) : Prop :=
  length (ms_name y) = 32%nat ∧ Forall is_u8 (ms_name y) ∧ 0 ∈ ms_name y ∧
  is_u32 (ms_address y) ∧ is_u32 (ms_type y).
Definition dep_ok (y : ardmod_dep_t) : Prop :=
  length (md_name y) = 32%nat ∧ length (md_version y) = 16%nat ∧
  Forall is_u8 (md_name y) ∧ Forall is_u8 (md_version y).

Definition table {A} (enc : A → list Z) (l : list A) : list Z := mjoin (enc <$> l).

Lemma table_cons {A} (enc : A → list Z) x l : table enc (x :: l) = enc x ++ table enc l.
Proof. done. Qed.

Lemma table_props {A} (enc : A → list Z) (n : Z) (P : A → Prop) l :
  (∀ x, P x → blen (enc x) = n ∧ Forall is_u8 (enc x)) → Forall P l →
  blen (table enc l) = blen l * n ∧ Forall is_u8 (table enc l).
Proof.
  intros HP. induction 1 as [|x l Hx _ [IH1 IH2]]; [done|].
  destruct (HP x Hx) as [H1 H2]. rewrite table_cons, blen_app, blen_cons, H1, IH1.
  split; [lia|by apply Forall_app].
Qed.

Lemma symbols_props ys :
  Forall symbol_ok ys →
  blen (table enc_symbol ys) = blen ys * SIZEOF_SYMBOL ∧ Forall is_u8 (table enc_symbol ys).
Proof.
  apply table_props. intros y (Hl & Hu & _). unfold enc_symbol. split.
  - rewrite !blen_app. unfold blen at 1. by rewrite Hl.
  - repeat (apply Forall_app; split); auto with cint.
Qed.

Lemma deps_props ys :
  Forall dep_ok ys → blen (table enc_dep ys) = blen ys * SIZEOF_DEP ∧ Forall is_u8 (table enc_dep ys).
Proof.
  apply table_props. intros y (Hl & Hv & Hu & Hw). unfold enc_dep. split.
  - rewrite !blen_app. unfold blen at 1 2. by rewrite Hl, Hv.
  - repeat (apply Forall_app; split); auto. by destruct (md_optional y); repeat constructor.
Qed.

Lemma zeros_app n m : 0 <= n → 0 <= m → zeros (n + m) = zeros n ++ zeros m.
Proof. intros. unfold zeros. by rewrite <- replicate_add, Z2Nat.inj_add. Qed.

Lemma copy_table_spec {A} (enc : A → list Z) (l : list A) pre r :
  copy_table enc (pre ++ zeros (blen (table enc l)) ++ r) (blen pre) (Some l) (blen l) =
  Some (pre ++ table enc l ++ r).
Proof.
  unfold copy_table. destruct l as [|x l]; [done|].
  rewrite (proj2 (Z.ltb_lt 0 _)) by (rewrite blen_cons; pose proof (blen_nonneg l); lia).
  rewrite rd_bytes_all by done. cbn [mbind option_bind]. apply wr_bytes_app.
  unfold zeros, blen. rewrite length_replicate. lia.
Qed.

(** The finished header: the new one with its checksum. *)
Definition with_crc (c : Z) h : ardmod_header_t :=
  mk_mod_header (mh_magic h) (mh_version h) (mh_flags h) (mh_size h) c (mh_name h)
    (mh_version_str h) (mh_type h) (mh_load_addr h) (mh_entry_point h) (mh_bss_size h)
    (mh_data_size h) (mh_symbol_count h) (mh_dep_count h) (mh_manifest_offset h) (mh_code_offset h).

Context (name code : list Z) (type : Z) (ss : list ardmod_symbol_t) (ds : list ardmod_dep_t).
Hypothesis name_ok : is_cstr name ∧ Forall is_u8 name.
Hypothesis type_ok : is_u32 type.
Hypothesis code_ok : Forall is_u8 code ∧ blen code < 2 ^ 31.
Hypothesis ss_ok : Forall symbol_ok ss ∧ blen ss <= ARDMOD_MAX_SYMBOLS.
Hypothesis ds_ok : Forall dep_ok ds ∧ blen ds <= ARDMOD_MAX_DEPS.

Definition manifest : Z := blen ss * SIZEOF_SYMBOL + blen ds * SIZEOF_DEP.
Definition total : Z := SIZEOF_MOD_HEADER + manifest + blen code.
Definition header0 : ardmod_header_t := new_header name type total (blen ss) (blen ds) manifest.
Definition body : list Z := table enc_symbol ss ++ table enc_dep ds ++ code.
Definition built (c : Z) : list Z := enc_mod_header (with_crc c header0) ++ body.

Lemma manifest_range : 0 <= manifest <= 64 * 40 + 16 * 49.
Proof.
  unfold manifest, SIZEOF_SYMBOL, SIZEOF_DEP. destruct ss_ok as [_ H1], ds_ok as [_ H2].
  unfold ARDMOD_MAX_SYMBOLS, ARDMOD_MAX_DEPS in *.
  pose proof (blen_nonneg ss). pose proof (blen_nonneg ds). lia.
Qed.

Lemma header0_ok c : is_u32 c → mod_header_ok (with_crc c header0).
Proof.
  intros Hc. assert (∀ z, is_u32 (u32 z)) as Hu by (intros; apply wrap_in_w; lia).
  unfold mod_header_ok, header0, new_header, with_crc.
  split_and!; try done; try apply Hu; cbn [mh_name mh_version_str].
  rewrite strncpy_length; [done|]. apply Nat.leb_le. by vm_compute.
Qed.

Lemma strncpy_u8 dst src n : Forall is_u8 dst → Forall is_u8 src → Forall is_u8 (strncpy dst src n).
Proof.
  intros. unfold strncpy. repeat (apply Forall_app; split);
    [by apply Forall_take| |by apply Forall_drop].
  apply Forall_replicate. unfold in_w. lia.
Qed.

Lemma blen_mod_header c : blen (enc_mod_header (with_crc c header0)) = SIZEOF_MOD_HEADER.
Proof.
  destruct (header0_ok 0) as (_ & _ & _ & _ & _ & Hn & Hv & _); [vm_decide|]. unfold enc_mod_header, blen.
  change (mh_name (with_crc c header0)) with (mh_name (with_crc 0 header0)).
  change (mh_version_str (with_crc c header0)) with (mh_version_str (with_crc 0 header0)).
  by rewrite !length_app, Hn, Hv.
Qed.

Lemma built_props c : Forall is_u8 (built c) ∧ blen (built c) = total.
Proof.
  destruct (symbols_props ss (proj1 ss_ok)) as [Es Us], (deps_props ds (proj1 ds_ok)) as [Ed Ud].
  unfold built, body. split.
  - unfold enc_mod_header, enc_head, enc_tail. rewrite !Forall_app.
    split_and!; auto with cint; try apply code_ok.
    + apply strncpy_u8; [apply Forall_zeros|apply name_ok].
    + vm_decide.
  - rewrite !blen_app, Es, Ed, blen_mod_header. unfold total, manifest. lia.
Qed.

Definition checksum : Z := crc32 0 (built 0).

Lemma create_spec cs :
  crc32_ok cs →
  ∃ cs', ardmod_create true (Some name) type (Some code) (blen code) (Some ss) (blen ss)
           (Some ds) (blen ds) true cs =
         Some (0, Some (built checksum, total), cs') ∧ crc32_ok cs'.
Proof.
  intros Hcs. pose proof manifest_range as Hm. destruct code_ok as [Hcu Hcl].
  pose proof (blen_nonneg code) as Hc0.
  destruct (symbols_props ss (proj1 ss_ok)) as [Es Us], (deps_props ds (proj1 ds_ok)) as [Ed Ud].
  pose proof (blen_nonneg (table enc_symbol ss)) as Hs0.
  pose proof (blen_nonneg (table enc_dep ds)) as Hd0.
  assert (0 <= blen ss * SIZEOF_SYMBOL <= 64 * 40) as Hss.
  { destruct ss_ok as [_ H1]. unfold ARDMOD_MAX_SYMBOLS in H1. unfold SIZEOF_SYMBOL.
    pose proof (blen_nonneg ss). lia. }
  unfold ardmod_create. cbn [negb]. rewrite (proj2 (Z.ltb_ge ARDMOD_MAX_SYMBOLS _)) by apply ss_ok.
  rewrite (proj2 (Z.ltb_ge ARDMOD_MAX_DEPS _)) by apply ds_ok.
  fold manifest. rewrite (usz_id manifest), (usz_id (_ + _ + _)) by (unfold SIZEOF_MOD_HEADER; lia).
  fold total header0. cbn [mh_manifest_offset header0 new_header mh_code_offset].
  rewrite (usz_id (blen ss * _)) by lia.
  rewrite !(wrap_id 32) by (unfold in_w, SIZEOF_MOD_HEADER; lia).
  assert (zeros total = [] ++ zeros SIZEOF_MOD_HEADER ++ zeros (blen (table enc_symbol ss)) ++
            zeros (blen (table enc_dep ds)) ++ zeros (blen code)) as ->.
  { unfold total, manifest. rewrite <- Es, <- Ed. cbn [app].
    rewrite <- !zeros_app by (unfold SIZEOF_MOD_HEADER; lia). f_equal. lia. }
  change 0 with (blen (@nil Z)) at 1.
  pose proof (blen_mod_header 0) as Eh. change (with_crc 0 header0) with header0 in Eh.
  rewrite wr_bytes_app by (unfold blen in Eh; unfold zeros; rewrite length_replicate; lia).
  change (blen (@nil Z)) with 0. cbn [mbind option_bind app].
  pose proof (copy_table_spec enc_symbol ss (enc_mod_header header0)) as Ec. rewrite Eh in Ec.
  rewrite Ec. clear Ec. cbn [mbind option_bind]. rewrite app_assoc.
  assert (SIZEOF_MOD_HEADER + blen ss * SIZEOF_SYMBOL =
          blen (enc_mod_header header0 ++ table enc_symbol ss)) as -> by (rewrite blen_app; lia).
  rewrite <- (app_nil_r (zeros (blen code))), copy_table_spec. cbn [mbind option_bind].
  rewrite rd_bytes_all by done. cbn [mbind option_bind]. rewrite app_assoc.
  assert (SIZEOF_MOD_HEADER + manifest =
          blen ((enc_mod_header header0 ++ table enc_symbol ss) ++ table enc_dep ds)) as ->.
  { rewrite !blen_app. unfold manifest. lia. }
  rewrite wr_bytes_app by (unfold zeros, blen; rewrite length_replicate; lia).
  cbn [mbind option_bind]. rewrite app_nil_r, <- !app_assoc.
  change (enc_mod_header header0 ++ table enc_symbol ss ++ table enc_dep ds ++ code) with (built 0).
  destruct (built_props 0) as [Hu Hl]. unfold crc32_update.
  destruct (ota_crc32_update_spec 0 (built 0) total cs Hcs Hu) as (cs' & -> & Hcs').
  { rewrite Hl. split; [unfold total, SIZEOF_MOD_HEADER; lia|done]. }
  cbn [mbind option_bind]. rewrite take_ge by (unfold blen in Hl; lia). fold checksum.
  assert (wr_bytes (built 0) 12 (bytes32 checksum) = Some (built checksum)) as ->.
  { rewrite wr_bytes_ok; [done|done|]. rewrite Hl. change (blen (bytes32 checksum)) with 4.
    unfold total, SIZEOF_MOD_HEADER. lia. }
  by exists cs'.
Qed.

(** ** The built module loads *)

Lemma built_crc c : is_u32 c → get32 (built c) 12 = c.
Proof.
  intros Hc. unfold built, enc_mod_header, enc_head. rewrite <- !app_assoc.
  autorewrite with layout. by apply get32_here.
Qed.

Lemma built_header c : is_u32 c → header_of (built c) = with_crc c header0.
Proof.
  intros Hc. unfold header_of, built. rewrite take_app_length'.
  - by apply mod_header_roundtrip, header0_ok.
  - pose proof (blen_mod_header c) as E. unfold blen, SIZEOF_MOD_HEADER in E. lia.
Qed.

Lemma built_accepted : accepted (built checksum).
Proof.
  assert (is_u32 checksum) as Hc by apply crc32_u32.
  unfold accepted. rewrite built_header by done. split; [done|]. split; [done|].
  unfold crc_matches. by rewrite built_crc.
Qed.

Lemma built_offset c off (pre m post : list Z) :
  built c = pre ++ m ++ post → off = blen pre → at_offset off (blen m) (built c) = m.
Proof.
  intros -> ->. unfold at_offset, blen. rewrite !Nat2Z.id, drop_app_length. apply take_app_length.
Qed.

(** The first symbol of a name. *)
Fixpoint find_symbol (ys : list ardmod_symbol_t) (nm : list Z) : Z :=
  match ys with
  | [] => 0
  | y :: ys => if decide (c_str (ms_name y) = nm) then ms_address y else find_symbol ys nm
  end.

Lemma strcmp_mem_spec (mem r nm : list Z) :
  0 ∈ mem → is_cstr nm → strcmp_mem (mem ++ r) nm = Some (bool_decide (c_str mem = nm)).
Proof.
  intros Hz Hn. revert nm Hn. induction mem as [|x mem IH]; intros nm Hn.
  { by apply elem_of_nil in Hz. }
  cbn [app strcmp_mem c_str]. destruct nm as [|c nm].
  - destruct (x =? 0); [by rewrite bool_decide_eq_true_2|by rewrite bool_decide_eq_false_2].
  - apply Forall_cons in Hn as [Hc Hn]. destruct (x =? c) eqn:E; bool_hyps.
    + subst c. rewrite (proj2 (Z.eqb_neq x 0)) by done. apply elem_of_cons in Hz as [?|Hz]; [by subst|].
      rewrite IH by done. f_equal. apply bool_decide_ext. split; [by intros ->|by intros [= ->]].
    + rewrite bool_decide_eq_false_2; [done|]. destruct (x =? 0); [done|]. by intros [= ? _].
Qed.

Lemma symbol_loop_spec (pre suf : list ardmod_symbol_t) nm :
  Forall symbol_ok (pre ++ suf) → is_cstr nm →
  symbol_loop (length suf) (blen pre) 0 (Some (table enc_symbol (pre ++ suf))) nm =
  Some (find_symbol suf nm).
Proof.
  intros Hok Hn. revert pre Hok. induction suf as [|y suf IH]; intros pre Hok; [done|].
  cbn [length symbol_loop mbind option_bind find_symbol].
  pose proof Hok as [Hpre [Hy Hsuf]%Forall_cons]%Forall_app.
  destruct (symbols_props pre Hpre) as [El _].
  assert (drop (Z.to_nat (blen pre * SIZEOF_SYMBOL)) (table enc_symbol (pre ++ y :: suf)) =
          ms_name y ++ bytes32 (ms_address y) ++ bytes32 (ms_type y) ++ table enc_symbol suf) as ->.
  { unfold table at 1. rewrite fmap_app, join_app. fold (table enc_symbol pre).
    rewrite drop_app_length' by (unfold blen in El at 1; lia).
    change (mjoin (enc_symbol <$> y :: suf)) with (enc_symbol y ++ table enc_symbol suf).
    unfold enc_symbol at 1. by rewrite <- !app_assoc. }
  destruct Hy as (Hlen & _ & Hz & Ha & _).
  rewrite strcmp_mem_spec by done. cbn [mbind option_bind].
  case_bool_decide as Hc; [rewrite decide_True by done|rewrite decide_False by done].
  - assert (ARDMOD_NAME_MAX = blen (ms_name y)) as -> by (unfold blen; by rewrite Hlen).
    change 4 with (blen (bytes32 (ms_address y))). rewrite rd_bytes_app. cbn [mbind option_bind].
    rewrite get32_last by done. by rewrite Z.add_0_l, wrap_id.
  - replace (blen pre + 1) with (blen (pre ++ [y])) by by rewrite blen_app.
    replace (pre ++ y :: suf) with ((pre ++ [y]) ++ suf) by by rewrite <- app_assoc.
    apply IH. by rewrite <- app_assoc.
Qed.

Lemma built_tables :
  tables_inside (with_crc checksum header0) total ∧
  (blen ss = 0 ∨ symbols_of (with_crc checksum header0) (built checksum) = Some (table enc_symbol ss)) ∧
  (blen ds = 0 ∨ deps_of (with_crc checksum header0) (built checksum) = Some (table enc_dep ds)).
Proof.
  destruct (symbols_props ss (proj1 ss_ok)) as [Es Us], (deps_props ds (proj1 ds_ok)) as [Ed Ud].
  pose proof (blen_nonneg code). pose proof (blen_mod_header checksum) as Eh.
  assert (0 <= blen ss * SIZEOF_SYMBOL <= 64 * 40 ∧ 0 <= blen ds * SIZEOF_DEP <= 16 * 49) as [Hss Hds].
  { destruct ss_ok as [_ H1], ds_ok as [_ H2]. unfold ARDMOD_MAX_SYMBOLS, ARDMOD_MAX_DEPS in *.
    unfold SIZEOF_SYMBOL, SIZEOF_DEP. pose proof (blen_nonneg ss). pose proof (blen_nonneg ds). lia. }
  assert (u32 (blen ss) = blen ss ∧ u32 (blen ds) = blen ds) as [E1 E2].
  { unfold SIZEOF_SYMBOL, SIZEOF_DEP in *. split; apply wrap_id; unfold in_w; lia. }
  unfold tables_inside, symbols_of, deps_of.
  cbn [with_crc header0 new_header mh_symbol_count mh_dep_count mh_manifest_offset].
  rewrite E1, E2, !usz_id, (wrap_id 32) by (unfold in_w, SIZEOF_MOD_HEADER; lia).
  split; [|split].
  - unfold total, manifest. split; intros; lia.
  - destruct (decide (blen ss = 0)); [by left|right].
    rewrite (proj2 (Z.ltb_lt 0 (blen ss))) by (pose proof (blen_nonneg ss); lia).
    cbn [andb Z.ltb Z.compare SIZEOF_MOD_HEADER]. rewrite <- Es. f_equal.
    by apply (built_offset _ _ (enc_mod_header (with_crc checksum header0)) _ (table enc_dep ds ++ code)).
  - destruct (decide (blen ds = 0)); [by left|right].
    rewrite (proj2 (Z.ltb_lt 0 (blen ds))) by (pose proof (blen_nonneg ds); lia).
    rewrite <- Ed. f_equal.
    apply (built_offset _ _ (enc_mod_header (with_crc checksum header0) ++ table enc_symbol ss) _ code).
    + unfold built, body. by rewrite <- !app_assoc.
    + rewrite blen_app. lia.
Qed.

(** C37: A module that [ardmod_create] builds from a name, symbols, dependencies and
    code is loaded by [ardmod_load]; looking up a name in the loaded module finds the
    address of the first symbol of that name, and 0 when there is none; name, type,
    dependencies and code are those given. *)
Theorem module_roundtrip cs :
  crc32_ok cs →
  ∃ d n cs1 hd cs2,
    ardmod_create true (Some name) type (Some code) (blen code) (Some ss) (blen ss)
      (Some ds) (blen ds) true cs = Some (0, Some (d, n), cs1) ∧
    ardmod_load true true true true (Some d) n cs1 = Some (Some hd, cs2) ∧
    c_str (mh_name (mo_header hd)) = take 31 name ∧ mh_type (mo_header hd) = type ∧
    (∀ nm, is_cstr nm → ardmod_get_symbol (Some hd) (Some nm) = Some (find_symbol ss nm)) ∧
    default [] (mo_deps hd) = table enc_dep ds ∧
    at_offset (mh_code_offset (mo_header hd)) (blen code) (mo_data hd) = code.
Proof.
  intros Hcs. destruct (create_spec cs Hcs) as (cs1 & E1 & Hcs1).
  destruct (built_props checksum) as [Hu Hl]. pose proof manifest_range as Hm.
  destruct (load_outcome (built checksum) cs1 Hcs1 Hu) as (cs2 & _ & E2).
  { rewrite Hl. pose proof (blen_nonneg code). unfold total. lia. }
  rewrite decide_True in E2 by apply built_accepted.
  assert (header_of (built checksum) = with_crc checksum header0) as Eh by apply built_header, crc32_u32.
  rewrite Eh, Hl in E2. destruct built_tables as (Hi & Hs & Hds). rewrite decide_True in E2 by done.
  exists (built checksum), total, cs1. eexists. exists cs2. split; [exact E1|]. split; [exact E2|].
  cbn [mo_header mo_deps mo_data with_crc header0 new_header mh_name mh_type mh_code_offset].
  split; [by apply c_str_strncpy; [apply name_ok|]|]. split; [done|]. split; [|split].
  - intros nm Hnm. unfold ardmod_get_symbol.
    cbn [mo_loaded negb mo_header mo_symbols with_crc header0 new_header mh_symbol_count mh_load_addr].
    assert (u32 (blen ss) = blen ss) as ->.
    { destruct ss_ok as [_ H1]. unfold ARDMOD_MAX_SYMBOLS in H1. pose proof (blen_nonneg ss).
      apply wrap_id. unfold in_w. lia. }
    assert (Z.to_nat (blen ss) = length ss) as -> by (unfold blen; lia).
    destruct Hs as [Hs0|Hs].
    + assert (length ss = 0%nat) as E by (unfold blen in Hs0; lia). by destruct ss.
    + rewrite Hs. apply (symbol_loop_spec []); [apply ss_ok|done].
  - destruct Hds as [Hd0|Hds]; [|by rewrite Hds].
    unfold deps_of. cbn [with_crc header0 new_header mh_dep_count]. rewrite Hd0.
    assert (length ds = 0%nat) as E by (unfold blen in Hd0; lia). by destruct ds.
  - destruct (symbols_props ss (proj1 ss_ok)) as [Es _], (deps_props ds (proj1 ds_ok)) as [Ed _].
    apply (built_offset checksum _ ((enc_mod_header (with_crc checksum header0) ++ table enc_symbol ss) ++
             table enc_dep ds) _ []).
    + unfold built, body. by rewrite app_nil_r, <- !app_assoc.
    + rewrite !blen_app, blen_mod_header, Es, Ed. fold manifest. unfold SIZEOF_MOD_HEADER, manifest in *.
      rewrite wrap_id by (unfold in_w; lia). lia.
Qed.
End ModuleThm.

(** ** Concrete modules *)

Module ModuleRuns.
#[local] Instance arch : Arch := arch32.

(** A 32-byte name. *)
Definition nm32 (s : list Z) : list Z := strncpy (zeros 32) s 31.
Definition blink : list Z := [98; 108; 105; 110; 107].
Definition init : list Z := [105; 110; 105; 116].
Definition syms : list ardmod_symbol_t := [mk_symbol (nm32 blink) 16 0; mk_symbol (nm32 init) 0 0].
Definition deps : list ardmod_dep_t := [mk_dep (nm32 init) (strncpy (zeros 16) [49] 15) true].
Definition code : list Z := [1; 2; 3; 4; 5].

Definition image : list Z :=
  match ardmod_create true (Some blink) 1 (Some code) 5 (Some syms) 2 (Some deps) 1 true crc32_boot with
  | Some (_, Some (d, _), _) => d
  | _ => []
  end.

Lemma syms_ok : Forall symbol_ok syms ∧ blen syms <= ARDMOD_MAX_SYMBOLS.
Proof. split; [|vm_decide]. repeat (constructor; [split_and!; vm_decide|]). constructor. Qed.
Lemma deps_ok : Forall dep_ok deps ∧ blen deps <= ARDMOD_MAX_DEPS.
Proof. split; [|vm_decide]. repeat (constructor; [split_and!; vm_decide|]). constructor. Qed.

Lemma module_roundtrip_witness :
  ∃ d n cs1 hd cs2,
    ardmod_create true (Some blink) 1 (Some code) (blen code) (Some syms) (blen syms)
      (Some deps) (blen deps) true crc32_boot = Some (0, Some (d, n), cs1) ∧
    ardmod_load true true true true (Some d) n cs1 = Some (Some hd, cs2) ∧
    c_str (mh_name (mo_header hd)) = take 31 blink ∧ mh_type (mo_header hd) = 1 ∧
    (∀ nm, is_cstr nm → ardmod_get_symbol (Some hd) (Some nm) = Some (find_symbol syms nm)) ∧
    default [] (mo_deps hd) = table enc_dep deps ∧
    at_offset (mh_code_offset (mo_header hd)) (blen code) (mo_data hd) = code.
Proof.
  apply (module_roundtrip blink code 1 syms deps); [split; vm_decide|vm_decide|split; vm_decide| | |done].
  - apply syms_ok.
  - apply deps_ok.
Defined.

Lemma module_load_outcome_witness :
  let load := ardmod_load true true true true (Some image) (blen image) crc32_boot in
  (¬ accepted image → ∃ cs', load = Some (None, cs')) ∧
  (accepted image → tables_inside (header_of image) (blen image) →
   ∃ cs', load = Some (Some (mk_mod (header_of image) image (blen image)
     (symbols_of (header_of image) image) (deps_of (header_of image) image) true), cs')) ∧
  (accepted image → ¬ tables_inside (header_of image) (blen image) → load = None).
Proof. apply (module_load_outcome image crc32_boot crc32_boot_ok); vm_decide. Defined.

(** One byte of the code changes. *)
Lemma module_damage_refused_witness :
  ∃ cs', ardmod_load true true true true (Some (take 229 image ++ [9] ++ drop 230 image))
    (blen (take 229 image ++ [9] ++ drop 230 image)) crc32_boot = Some (None, cs').
Proof.
  apply (module_damage_refused (take 229 image) [1] [9] (drop 230 image) crc32_boot);
    [vm_decide|vm_decide|done|cbn; lia|done|right; apply Nat.leb_le; by vm_compute|vm_decide|
     apply crc32_boot_ok|].
  split; [|split]; by vm_compute.
Defined.

(** A module of a header only, with a valid checksum, that announces a dependency:
    loading it reads past its end. *)
Definition hostile : list Z :=
  let h := mk_mod_header ARDMOD_MAGIC ARDMOD_VERSION 0 100 0 (zeros 32) (zeros 16) 0 0 0 0 0 0 1 100 100 in
  enc_mod_header (with_crc (crc32 0 (enc_mod_header h)) h).

Example hostile_overreads :
  accepted hostile ∧ ardmod_load true true true true (Some hostile) 100 crc32_boot = None.
Proof. split; [split; [|split]; by vm_compute|by vm_compute]. Qed.

(** A symbol at address 0 cannot be told from a missing one. *)
Example symbol_at_zero :
  (r ← ardmod_load true true true true (Some image) (blen image) crc32_boot;
   a ← ardmod_get_symbol r.1 (Some init); b ← ardmod_get_symbol r.1 (Some [120]); Some (a, b)) =
  Some (0, 0).
Proof. by vm_compute. Qed.

(** When the symbol table could not be allocated the module still loads, and looking
    up a symbol reads through NULL. *)
Example symbols_null_faults :
  (r ← ardmod_load true true false true (Some image) (blen image) crc32_boot;
   ardmod_get_symbol r.1 (Some blink)) = None ∧
  (r ← ardmod_load true true true true (Some image) (blen image) crc32_boot;
   ardmod_get_symbol r.1 (Some blink)) = Some 16.
Proof. by vm_compute. Qed.
End ModuleRuns.
