(* ===== verification/Driver.v ===== *)
(** * The driver core (drivers/driver.c)

    Drivers and devices are structs of their owners, registered by pointer: each is
    a key of a map, and a pointer to one that was freed leads nowhere ([None]).  The
    chain through the [next] fields of the registered nodes, which only this file
    writes, is the list of their keys, newest first.  Names and paths are the
    strings in their arrays.  The operations of a driver are values that
    [DriverCode] runs on the whole state, so they may call back; the lock is a flag,
    and taking it when it is set spins for ever ([None]). *)

From Stdlib Require Import ZArith Lia.
From stdpp Require Import base tactics option numbers fin_maps gmap sorting list.
From S2P Require Import Prelude.
From S2P Require Import CString.

Definition MAX_OPEN_HANDLES : Z := 32.

Section Driver.
(** Functions of drivers, and the rest of the world. *)
Context {Fn U : Type}.

Record driver_ops := mk_ops {
  op_probe : option Fn; op_remove : option Fn; op_open : option Fn; op_close : option Fn;
  op_read : option Fn; op_write : option Fn; op_ioctl : option Fn;
  op_suspend : option Fn; op_resume : option Fn
}.

Record driver := mk_driver {
  dr_name : list Z; dr_type : Z; dr_ops : option driver_ops; dr_private : Z; dr_refcount : Z
}.

Record device := mk_device {
  dv_name : list Z; dv_path : list Z; dv_driver : option nat; dv_private : Z; dv_bus : Z;
  dv_id : Z; dv_registered : bool; dv_owned : bool
}.

Record driver_core := mk_core {
  drivers : list nat; devices : list nat; next_device_id : Z; g_core_lock : bool;
  g_open_handles : list (Z * option nat);
  driver_at : gmap nat driver; device_at : gmap nat device; env : U
}.

(** The code of the drivers.  [run_open] is given the caller's handle variable and
    returns its new value. *)
Class DriverCode := {
  run_device : Fn → nat → driver_core → option (Z * driver_core);
  run_open : Fn → nat → Z → driver_core → option (Z * Z * driver_core);
  run_close : Fn → Z → driver_core → option (Z * driver_core);
  run_read : Fn → Z → Z → driver_core → option (Z * list Z * driver_core);
  run_write : Fn → Z → list Z → Z → driver_core → option (Z * driver_core);
  run_ioctl : Fn → Z → Z → Z → driver_core → option (Z * driver_core)
}.
Context `{DriverCode}.
Implicit Types (s : driver_core).

Definition with_lists (dr de : list nat) (next : Z) s : driver_core :=
  mk_core dr de next (g_core_lock s) (g_open_handles s) (driver_at s) (device_at s) (env s).
Definition with_lock (b : bool) s : driver_core :=
  mk_core (drivers s) (devices s) (next_device_id s) b (g_open_handles s) (driver_at s)
    (device_at s) (env s).
Definition with_handles (h : list (Z * option nat)) s : driver_core :=
  mk_core (drivers s) (devices s) (next_device_id s) (g_core_lock s) h (driver_at s)
    (device_at s) (env s).
Definition with_nodes (dr : gmap nat driver) (de : gmap nat device) s : driver_core :=
  mk_core (drivers s) (devices s) (next_device_id s) (g_core_lock s) (g_open_handles s) dr de (env s).

Definition set_refcount (n : Z) (d : driver) : driver :=
  mk_driver (dr_name d) (dr_type d) (dr_ops d) (dr_private d) n.
Definition set_registered (id : Z) (b : bool) (d : device) : device :=
  mk_device (dv_name d) (dv_path d) (dv_driver d) (dv_private d) (dv_bus d) id b (dv_owned d).

(** [p->refcount += n] *)
Definition add_ref (p : nat) (n : Z) s : option driver_core :=
  d ← driver_at s !! p;
  Some (with_nodes (<[p := set_refcount (dr_refcount d + n) d]> (driver_at s)) (device_at s) s).
Definition put_device (p : nat) (d : device) s : driver_core :=
  with_nodes (driver_at s) (<[p := d]> (device_at s)) s.

(** [if (d->owned) free (d);] *)
Definition release (p : nat) s : option driver_core :=
  d ← device_at s !! p;
  Some (if dv_owned d then with_nodes (driver_at s) (delete p (device_at s)) s else s).

(** ** The lock *)

Definition driver_core_lock s : option driver_core :=
  if g_core_lock s then None else Some (with_lock true s).
Definition driver_core_unlock s : driver_core := with_lock false s.

Definition driver_core_init s : Z * driver_core :=
  (0, mk_core [] [] 1 false (replicate (Z.to_nat MAX_OPEN_HANDLES) (0, None))
        (driver_at s) (device_at s) (env s)).

(** ** The table of open handles *)

Fixpoint track (handle : Z) (dev : nat) (t : list (Z * option nat)) : list (Z * option nat) :=
  match t with
  | [] => []
  | e :: t => if e.1 =? 0 then (handle, Some dev) :: t else e :: track handle dev t
  end.
Definition device_handle_track (handle : Z) (dev : nat) s : driver_core :=
  with_handles (track handle dev (g_open_handles s)) s.

Fixpoint lookup_handle (handle : Z) (t : list (Z * option nat)) : option nat :=
  match t with
  | [] => None
  | e :: t => if e.1 =? handle then e.2 else lookup_handle handle t
  end.
Definition device_handle_lookup (handle : Z) s : option nat :=
  lookup_handle handle (g_open_handles s).

Fixpoint untrack (handle : Z) (t : list (Z * option nat)) : list (Z * option nat) :=
  match t with
  | [] => []
  | e :: t => if e.1 =? handle then (0, None) :: t else e :: untrack handle t
  end.
Definition device_handle_untrack (handle : Z) s : driver_core :=
  with_handles (untrack handle (g_open_handles s)) s.

(** ** Drivers *)

(** The first node of a chain with the name. *)
Fixpoint find_driver (name : list Z) (l : list nat) s : option (option nat) :=
  match l with
  | [] => Some None
  | p :: l => d ← driver_at s !! p;
              if str_eq (dr_name d) name then Some (Some p) else find_driver name l s
  end.

Definition driver_register (driver : option nat) s : option (Z * driver_core) :=
  match driver with
  | None => Some (-1, s)
  | Some p =>
    d ← driver_at s !! p;
    if str_eq (dr_name d) [] then Some (-1, s) else
    match dr_ops d with
    | None => Some (-1, s)
    | Some _ =>
      s ← driver_core_lock s;
      found ← find_driver (dr_name d) (drivers s) s;
      match found with
      | Some _ => Some (-1, driver_core_unlock s)
      | None =>
        let s := with_nodes (<[p := set_refcount 0 d]> (driver_at s)) (device_at s) s in
        let s := with_lists (p :: drivers s) (devices s) (next_device_id s) s in
        Some (0, driver_core_unlock s)
      end
    end
  end.

(** Unlinking the first node of the name. *)
Definition unlink (p : nat) (l : list nat) : list nat :=
  match list_find (p =.) l with Some (i, _) => delete i l | None => l end.

Definition driver_unregister (name : option (list Z)) s : option (Z * driver_core) :=
  match name with
  | None => Some (-1, s)
  | Some name =>
    s ← driver_core_lock s;
    found ← find_driver name (drivers s) s;
    match found with
    | Some p =>
      d ← driver_at s !! p;
      if 0 <? dr_refcount d then Some (-1, driver_core_unlock s) else
      Some (0, driver_core_unlock
                 (with_lists (unlink p (drivers s)) (devices s) (next_device_id s) s))
    | None => Some (-1, driver_core_unlock s)
    end
  end.

Definition driver_find (name : option (list Z)) s : option (option nat * driver_core) :=
  match name with
  | None => Some (None, s)
  | Some name =>
    s ← driver_core_lock s;
    found ← find_driver name (drivers s) s;
    Some (found, driver_core_unlock s)
  end.

(** ** Devices *)

Fixpoint find_device (key : device → list Z) (name : list Z) (l : list nat) s : option (option nat) :=
  match l with
  | [] => Some None
  | p :: l => d ← device_at s !! p;
              if str_eq (key d) name then Some (Some p) else find_device key name l s
  end.

(** [d->driver && d->driver->ops ? d->driver->ops->op : NULL] *)
Definition device_op (op : driver_ops → option Fn) (p : nat) s : option (option Fn) :=
  d ← device_at s !! p;
  match dv_driver d with
  | None => Some None
  | Some q => r ← driver_at s !! q;
              Some (match dr_ops r with Some ops => op ops | None => None end)
  end.

Definition device_register (dev : option nat) s : option (Z * driver_core) :=
  match dev with
  | None => Some (-1, s)
  | Some p =>
    d ← device_at s !! p;
    if str_eq (dv_name d) [] then Some (-1, s) else
    match dv_driver d with
    | None => Some (-1, s)
    | Some q =>
      s ← driver_core_lock s;
      found ← find_device dv_name (dv_name d) (devices s) s;
      match found with
      | Some _ => Some (-1, driver_core_unlock s)
      | None =>
        let s := put_device p (set_registered (next_device_id s) true d) s in
        let s := with_lists (drivers s) (p :: devices s) (u32 (next_device_id s + 1)) s in
        s ← add_ref q 1 s;
        probe ← device_op op_probe p s;
        match probe with
        | None => Some (0, driver_core_unlock s)
        | Some f =>
          '(ret, s) ← run_device f p s;
          if ret =? 0 then Some (0, driver_core_unlock s) else
          d ← device_at s !! p;
          q ← dv_driver d;
          s ← add_ref q (-1) s;
          let s := with_lists (drivers s) (tail (devices s)) (next_device_id s) s in
          d ← device_at s !! p;
          let s := put_device p (set_registered (dv_id d) false d) s in
          Some (ret, driver_core_unlock s)
        end
      end
    end
  end.

(** [remove], when the driver has one. *)
Definition call_remove (p : nat) s : option driver_core :=
  remove ← device_op op_remove p s;
  match remove with
  | Some f => '(_, s) ← run_device f p s; Some s
  | None => Some s
  end.

Definition device_unregister (name : option (list Z)) s : option (Z * driver_core) :=
  match name with
  | None => Some (-1, s)
  | Some name =>
    s ← driver_core_lock s;
    found ← find_device dv_name name (devices s) s;
    match found with
    | None => Some (-1, driver_core_unlock s)
    | Some p =>
      s ← call_remove p s;
      d ← device_at s !! p;
      s ← match dv_driver d with Some q => add_ref q (-1) s | None => Some s end;
      let s := with_lists (drivers s) (unlink p (devices s)) (next_device_id s) s in
      d ← device_at s !! p;
      let s := put_device p (set_registered (dv_id d) false d) s in
      s ← release p s;
      Some (0, driver_core_unlock s)
    end
  end.

Definition device_find (name : option (list Z)) s : option (option nat * driver_core) :=
  match name with
  | None => Some (None, s)
  | Some name =>
    s ← driver_core_lock s;
    found ← find_device dv_name name (devices s) s;
    Some (found, driver_core_unlock s)
  end.

Definition device_find_by_path (path : option (list Z)) s : option (option nat * driver_core) :=
  match path with
  | None => Some (None, s)
  | Some path =>
    s ← driver_core_lock s;
    found ← find_device dv_path path (devices s) s;
    Some (found, driver_core_unlock s)
  end.

(** The devices, then the drivers, one by one from the head of the chain; the bound
    is on the nodes a [remove] may add. *)
Fixpoint deinit_devices (fuel : nat) s : option driver_core :=
  match devices s with
  | [] => Some s
  | p :: rest =>
    match fuel with
    | O => None
    | S fuel =>
      let s := with_lists (drivers s) rest (next_device_id s) s in
      s ← call_remove p s;
      d ← device_at s !! p;
      s ← release p (put_device p (set_registered (dv_id d) false d) s);
      deinit_devices fuel s
    end
  end.

Fixpoint deinit_drivers (l : list nat) s : option driver_core :=
  match l with
  | [] => Some (with_lists [] (devices s) (next_device_id s) s)
  | p :: l =>
    d ← driver_at s !! p;
    deinit_drivers l (with_nodes (<[p := set_refcount 0 d]> (driver_at s)) (device_at s) s)
  end.

Definition driver_core_deinit (fuel : nat) s : option driver_core :=
  s ← deinit_devices fuel s;
  deinit_drivers (drivers s) s.

(** ** Using devices *)

(** [handle]: the caller's variable, when its pointer is not NULL. *)
Definition device_open_internal (dev : nat) (handle : Z) s : option (Z * Z * driver_core) :=
  open ← device_op op_open dev s;
  match open with
  | None => Some (-1, handle, s)
  | Some f => run_open f dev handle s
  end.

Definition device_open (path : option (list Z)) (handle : option Z) s
    : option (Z * option Z * driver_core) :=
  match path, handle with
  | Some path, Some h =>
    '(dev, s) ← device_find_by_path (Some path) s;
    match dev with
    | None => Some (-1, handle, s)
    | Some dev =>
      '(ret, h, s) ← device_open_internal dev h s;
      Some (ret, Some h, if ret =? 0 then device_handle_track h dev s else s)
    end
  | _, _ => Some (-1, handle, s)
  end.

(** The operation of the device a handle belongs to. *)
Definition handle_op (op : driver_ops → option Fn) (handle : Z) s
    : option (option Fn * driver_core) :=
  s ← driver_core_lock s;
  let dev := device_handle_lookup handle s in
  let s := driver_core_unlock s in
  match dev with
  | None => Some (None, s)
  | Some p => f ← device_op op p s; Some (f, s)
  end.

Definition device_close (handle : Z) s : option (Z * driver_core) :=
  if handle =? 0 then Some (-1, s) else
  '(f, s) ← handle_op op_close handle s;
  match f with
  | None => Some (-1, s)
  | Some f =>
    '(ret, s) ← run_close f handle s;
    if ret =? 0 then s ← driver_core_lock s;
                     Some (ret, driver_core_unlock (device_handle_untrack handle s))
    else Some (ret, s)
  end.

Definition device_read (handle : Z) (buf : bool) (count : Z) s
    : option (Z * list Z * driver_core) :=
  if (handle =? 0) || negb buf then Some (-1, [], s) else
  '(f, s) ← handle_op op_read handle s;
  match f with
  | None => Some (-1, [], s)
  | Some f => run_read f handle count s
  end.

Definition device_write (handle : Z) (buf : option (list Z)) (count : Z) s
    : option (Z * driver_core) :=
  match buf with
  | None => Some (-1, s)
  | Some buf =>
    if handle =? 0 then Some (-1, s) else
    '(f, s) ← handle_op op_write handle s;
    match f with
    | None => Some (-1, s)
    | Some f => run_write f handle buf count s
    end
  end.

Definition device_ioctl (handle cmd arg : Z) s : option (Z * driver_core) :=
  if handle =? 0 then Some (-1, s) else
  '(f, s) ← handle_op op_ioctl handle s;
  match f with
  | None => Some (-1, s)
  | Some f => run_ioctl f handle cmd arg s
  end.

Definition path_op (op : driver_ops → option Fn) (path : option (list Z)) s
    : option (Z * driver_core) :=
  match path with
  | None => Some (-1, s)
  | Some path =>
    '(dev, s) ← device_find_by_path (Some path) s;
    match dev with
    | None => Some (-1, s)
    | Some p =>
      f ← device_op op p s;
      match f with
      | None => Some (-1, s)
      | Some f => run_device f p s
      end
    end
  end.

Definition device_suspend (path : option (list Z)) s : option (Z * driver_core) :=
  path_op op_suspend path s.
Definition device_resume (path : option (list Z)) s : option (Z * driver_core) :=
  path_op op_resume path s.
End Driver.

Arguments driver_ops : clear implicits.
Arguments driver : clear implicits.
Arguments driver_core : clear implicits.
Arguments DriverCode : clear implicits.
