(* ===== verification/DriverThm.v ===== *)
(** * Reference counts and handles of the driver core

    As long as devices are registered with registered drivers, a driver's reference
    count is the number of its registered devices, no call faults, and a driver can
    be unregistered exactly when no device needs it.  A handle belongs to the device
    that was opened, whatever other handles are opened and closed. *)

From Stdlib Require Import ZArith Lia.
From stdpp Require Import base tactics option numbers fin_maps gmap sorting list.
From S2P Require Import Prelude.
From S2P Require Import CString.
From S2P Require Import Driver.

Section DriverThm.
Context {Fn U : Type} `{HC : !DriverCode Fn U}.
Abbreviation core := (driver_core Fn U).
Implicit Types (s : core) (p q : nat) (d : driver Fn) (v : device).

(** Driver code that does its work outside the core. *)
Definition same_core s s' : Prop := ∃ u, s' = mk_core (drivers s) (devices s) (next_device_id s)
  (g_core_lock s) (g_open_handles s) (driver_at s) (device_at s) u.
Definition obedient : Prop :=
  ∀ f p s, ∃ r s', run_device f p s = Some (r, s') ∧ same_core s s'.

(** ** The invariant *)

Definition uses q s p : Prop := (dv_driver <$> device_at s !! p) = Some (Some q).
#[local] Instance uses_dec q s p : Decision (uses q s p).
Proof. unfold uses. apply _. Defined.

Definition users q s : list nat := filter (uses q s) (devices s).

Definition driver_ok s q : Prop :=
  ∃ d, driver_at s !! q = Some d ∧ dr_name d ≠ [] ∧ is_Some (dr_ops d) ∧
       dr_refcount d = blen (users q s).
Definition device_ok s p : Prop :=
  ∃ v q, device_at s !! p = Some v ∧ dv_name v ≠ [] ∧ dv_registered v = true ∧
         dv_driver v = Some q ∧ q ∈ drivers s.

Definition driver_name s q : option (list Z) := dr_name <$> driver_at s !! q.
Definition device_name s p : option (list Z) := dv_name <$> device_at s !! p.

Record core_wf s : Prop := mk_core_wf {
  co_drivers : Forall (driver_ok s) (drivers s);
  co_devices : Forall (device_ok s) (devices s);
  co_driver_names : NoDup (driver_name s <$> drivers s);
  co_device_names : NoDup (device_name s <$> devices s)
}.
Definition core_ok s : Prop := g_core_lock s = false ∧ core_wf s.

(** ** Searching *)

Lemma find_driver_spec name l s :
  (∀ q, q ∈ l → is_Some (driver_at s !! q)) →
  (∃ a q b, l = a ++ q :: b ∧ driver_name s q = Some name ∧ find_driver name l s = Some (Some q)) ∨
  ((∀ q, q ∈ l → driver_name s q ≠ Some name) ∧ find_driver name l s = Some None).
Proof.
  induction l as [|q l IH]; intros Hl.
  { right. split; [by intros q ?%elem_of_nil|done]. }
  destruct (Hl q ltac:(by left)) as [d Hd]. cbn [find_driver]. rewrite Hd. cbn [mbind option_bind].
  unfold driver_name at 1 2, str_eq. case_bool_decide as E.
  - left. exists [], q, l. by rewrite Hd, <- E.
  - destruct IH as [(a & r & b & -> & Hn & ->)|[Hn ->]]; [intros; apply Hl; by right|left|right].
    + by exists (q :: a), r, b.
    + split; [|done]. intros r [->|Hr]%elem_of_cons; [rewrite Hd; by intros [= ?]|by apply Hn].
Qed.

Lemma find_device_spec (key : device → list Z) name l s :
  (∀ q, q ∈ l → is_Some (device_at s !! q)) →
  (∃ a q b v, l = a ++ q :: b ∧ device_at s !! q = Some v ∧ key v = name ∧
     find_device key name l s = Some (Some q)) ∨
  ((∀ q v, q ∈ l → device_at s !! q = Some v → key v ≠ name) ∧ find_device key name l s = Some None).
Proof.
  induction l as [|q l IH]; intros Hl.
  { right. split; [by intros q v ?%elem_of_nil|done]. }
  destruct (Hl q ltac:(by left)) as [d Hd]. cbn [find_device]. rewrite Hd. cbn [mbind option_bind].
  unfold str_eq. case_bool_decide as E.
  - left. by exists [], q, l, d.
  - destruct IH as [(a & r & b & v & -> & Hv & Hn & ->)|[Hn ->]]; [intros; apply Hl; by right|left|right].
    + by exists (q :: a), r, b, v.
    + split; [|done]. intros r v [->|Hr]%elem_of_cons Hv; [congruence|by eapply Hn].
Qed.

Lemma unlink_mid p (a b : list nat) : p ∉ a → unlink p (a ++ p :: b) = a ++ b.
Proof.
  intros Hp. unfold unlink.
  assert (list_find (p =.) (a ++ p :: b) = Some (length a, p)) as ->.
  { apply list_find_Some. split; [by rewrite lookup_app_r, Nat.sub_diag by lia|]. split; [done|].
    intros j y Hy Hj ->. rewrite lookup_app_l in Hy by done. by apply Hp, list_elem_of_lookup_2 with j. }
  rewrite delete_middle. done.
Qed.

(** ** Frame lemmas *)

Lemma filter_agree (P1 P2 : nat → Prop) `{!∀ x, Decision (P1 x), !∀ x, Decision (P2 x)} (l : list nat) :
  (∀ x, x ∈ l → P1 x ↔ P2 x) → filter P1 l = filter P2 l.
Proof.
  induction l as [|x l IH]; intros Hl; [done|]. rewrite !filter_cons.
  rewrite IH by (intros y Hy; apply Hl; by right).
  pose proof (Hl x ltac:(by left)) as Hx. repeat case_decide; tauto.
Qed.

Lemma filter_nil_iff_elem (P : nat → Prop) `{!∀ x, Decision (P x)} (l : list nat) :
  (∀ x, x ∈ l → ¬ P x) → filter P l = [].
Proof.
  intros Hl. apply elem_of_nil_inv. intros x [Hx Hin]%list_elem_of_filter. by apply (Hl x).
Qed.

Lemma NoDup_app_remove_mid {A} (a b : list A) x : NoDup (a ++ x :: b) → NoDup (a ++ b).
Proof. rewrite <- Permutation_middle. by intros [_ ?]%NoDup_cons. Qed.

Lemma elem_of_mid {A} (a b : list A) x y : x ∈ a ++ y :: b ↔ x = y ∨ x ∈ a ++ b.
Proof. by rewrite <- Permutation_middle, elem_of_cons. Qed.

Lemma not_elem_of_l {A} (a b : list A) x : x ∉ a ++ b → x ∉ a.
Proof. rewrite not_elem_of_app. tauto. Qed.

Lemma users_agree q s s' :
  devices s' = devices s → (∀ p, p ∈ devices s → device_at s' !! p = device_at s !! p) →
  users q s' = users q s.
Proof.
  intros El Ha. unfold users. rewrite El. apply filter_agree.
  intros p Hp. unfold uses. by rewrite Ha.
Qed.

Lemma fmap_agree {A} (f g : nat → A) (l : list nat) : (∀ x, x ∈ l → f x = g x) → f <$> l = g <$> l.
Proof.
  induction l as [|x l IH]; intros Hl; [done|]. rewrite !fmap_cons, (Hl x) by by left.
  f_equal. apply IH. intros y Hy. apply Hl. by right.
Qed.

(** Only the registered nodes matter. *)
Lemma core_wf_agree s s' :
  drivers s' = drivers s → devices s' = devices s →
  (∀ q, q ∈ drivers s → driver_at s' !! q = driver_at s !! q) →
  (∀ p, p ∈ devices s → device_at s' !! p = device_at s !! p) → core_wf s → core_wf s'.
Proof.
  intros E1 E2 H1 H2 [Hd Hv Nd Nv].
  split; rewrite ?E1, ?E2.
  - rewrite Forall_forall in *. intros q Hq. destruct (Hd q Hq) as (d & ? & ? & ? & ?).
    exists d. rewrite H1, (users_agree q s s') by done. done.
  - rewrite Forall_forall in *. intros p Hp. destruct (Hv p Hp) as (v & q & ?).
    exists v, q. by rewrite H2, E1.
  - erewrite fmap_agree; [exact Nd|]. intros q Hq. unfold driver_name. by rewrite H1.
  - erewrite fmap_agree; [exact Nv|]. intros p Hp. unfold device_name. by rewrite H2.
Qed.

Lemma core_wf_lock b s : core_wf s → core_wf (with_lock b s).
Proof. by apply core_wf_agree. Qed.

Lemma core_wf_same s s' : same_core s s' → core_wf s → core_wf s'.
Proof. intros [u ->]. by apply core_wf_agree. Qed.

Lemma lock_spec s : core_ok s → driver_core_lock s = Some (with_lock true s) ∧ core_wf (with_lock true s).
Proof. intros [Hl Hw]. unfold driver_core_lock. rewrite Hl. split; [done|by apply core_wf_lock]. Qed.

Lemma unlock_ok s : core_wf s → core_ok (driver_core_unlock s).
Proof. intros Hw. split; [done|by apply core_wf_lock]. Qed.

Lemma driver_node s q : core_wf s → q ∈ drivers s → driver_ok s q.
Proof. intros Hw. pose proof (co_drivers _ Hw) as Hd. rewrite Forall_forall in Hd. apply Hd. Qed.
Lemma device_node s p : core_wf s → p ∈ devices s → device_ok s p.
Proof. intros Hw. pose proof (co_devices _ Hw) as Hd. rewrite Forall_forall in Hd. apply Hd. Qed.

Lemma find_driver_wf name s :
  core_wf s →
  (∃ a q b, drivers s = a ++ q :: b ∧ driver_name s q = Some name ∧ (q ∉ a ++ b) ∧
     find_driver name (drivers s) s = Some (Some q)) ∨
  ((∀ q, q ∈ drivers s → driver_name s q ≠ Some name) ∧ find_driver name (drivers s) s = Some None).
Proof.
  intros Hw. destruct (find_driver_spec name (drivers s) s) as [(a & q & b & E & Hn & Hf)|Hr];
    [|left|by right].
  { intros q Hq. destruct (driver_node s q Hw Hq) as (d & Hd & _). by exists d. }
  exists a, q, b. split; [done|]. split; [done|]. split; [|done].
  pose proof (co_driver_names _ Hw) as Hnd. rewrite E in Hnd. apply NoDup_fmap_1 in Hnd.
  rewrite <- Permutation_middle in Hnd. by apply NoDup_cons in Hnd as [? _].
Qed.

Lemma find_device_wf name s :
  core_wf s →
  (∃ a p b v, devices s = a ++ p :: b ∧ device_at s !! p = Some v ∧ dv_name v = name ∧ (p ∉ a ++ b) ∧
     find_device dv_name name (devices s) s = Some (Some p)) ∨
  ((∀ p v, p ∈ devices s → device_at s !! p = Some v → dv_name v ≠ name) ∧
   find_device dv_name name (devices s) s = Some None).
Proof.
  intros Hw. destruct (find_device_spec dv_name name (devices s) s) as [(a & p & b & v & E & Hv & Hn & Hf)|Hr];
    [|left|by right].
  { intros q Hq. destruct (device_node s q Hw Hq) as (v & ? & Hd & _). by exists v. }
  exists a, p, b, v. split; [done|]. split; [done|]. split; [done|]. split; [|done].
  pose proof (co_device_names _ Hw) as Hnd. rewrite E in Hnd. apply NoDup_fmap_1 in Hnd.
  rewrite <- Permutation_middle in Hnd. by apply NoDup_cons in Hnd as [? _].
Qed.

(** ** The operations *)

Lemma driver_register_ok p s :
  core_ok s → is_Some (driver_at s !! p) →
  ∃ r s', driver_register (Some p) s = Some (r, s') ∧ core_ok s'.
Proof.
  intros Hok [d Hd]. unfold driver_register. rewrite Hd. cbn [mbind option_bind]. unfold str_eq.
  case_bool_decide as En; [by eexists _, s|]. destruct (dr_ops d) as [ops|] eqn:Eo; [|by eexists _, s].
  destruct (lock_spec s Hok) as [-> Hw]. cbn [mbind option_bind]. set (s1 := with_lock true s) in *.
  destruct (find_driver_wf (dr_name d) s1 Hw) as [(a & q & b & _ & _ & _ & ->)|[Hn ->]];
    cbn [mbind option_bind]; eexists _, _; (split; [done|apply unlock_ok]); [done|].
  assert (p ∉ drivers s1) as Hp.
  { intros Hp. apply (Hn p Hp). unfold driver_name. change (driver_at s1) with (driver_at s). by rewrite Hd. }
  assert (users p s1 = []) as Hu.
  { apply filter_nil_iff_elem. intros x Hx Hux. destruct (device_node s1 x Hw Hx) as (v & q & Hv & _ & _ & Hq & Hin).
    unfold uses in Hux. rewrite Hv in Hux. cbn in Hux. congruence. }
  pose proof Hw as [Hdr Hdv Nd Nv]. set (s2 := with_lists _ _ _ _).
  assert (∀ q, q ∈ drivers s1 → driver_at s2 !! q = driver_at s1 !! q) as Ha.
  { intros q Hq. cbn. rewrite lookup_insert_ne by (by intros ->). done. }
  split.
  - change (drivers s2) with (p :: drivers s1). apply Forall_cons. split.
    + eexists. split; [apply lookup_insert_eq|]. split; [done|]. split; [cbn; by rewrite Eo|].
      change (users p s2) with (users p s1). by rewrite Hu.
    + rewrite Forall_forall in *. intros q Hq. destruct (Hdr q Hq) as (e & He).
      exists e. by rewrite Ha.
  - eapply Forall_impl; [exact Hdv|]. intros x (v & q & ? & ? & ? & ? & ?).
    exists v, q. split_and!; try done. by right.
  - change (drivers s2) with (p :: drivers s1). rewrite fmap_cons. apply NoDup_cons.
    rewrite (fmap_agree (driver_name s2) (driver_name s1)) by (intros q Hq; unfold driver_name; by rewrite Ha).
    split; [|exact Nd]. intros (q & Hq & Hin)%list_elem_of_fmap. apply (Hn q Hin).
    rewrite <- Hq. unfold driver_name. cbn. by rewrite lookup_insert_eq.
  - exact Nv.
Qed.

Lemma driver_unregister_ok name s :
  core_ok s →
  ∃ r s', driver_unregister (Some name) s = Some (r, s') ∧ core_ok s' ∧
    (r = 0 ↔ ∃ q, q ∈ drivers s ∧ driver_name s q = Some name ∧ users q s = []).
Proof.
  intros Hok. unfold driver_unregister. destruct (lock_spec s Hok) as [-> Hw].
  cbn [mbind option_bind]. set (s1 := with_lock true s) in *.
  destruct (find_driver_wf name s1 Hw) as [(a & q & b & El & Hq & Hab & ->)|[Hn ->]];
    cbn [mbind option_bind].
  2: { eexists _, _. split; [done|]. split; [by apply unlock_ok|]. split; [done|].
       intros (q & Hin & Hq & _). by destruct (Hn q Hin). }
  assert (q ∈ drivers s1) as Hin by (rewrite El; apply elem_of_mid; by left).
  destruct (driver_node s1 q Hw Hin) as (d & Hd & Hne & Hops & Hr). rewrite Hd. cbn [mbind option_bind].
  assert (∀ q', q' ∈ drivers s → driver_name s q' = Some name → q' = q) as Huniq.
  { intros q' Hin' Hq'. pose proof (co_driver_names _ Hw) as Hnd.
    change (drivers s) with (drivers s1) in Hin'. change (driver_name s) with (driver_name s1) in Hq'.
    apply list_elem_of_lookup in Hin as [i Hi], Hin' as [j Hj].
    assert (i = j) as ->; [|congruence]. apply (NoDup_lookup _ i j (Some name) Hnd);
      by rewrite list_lookup_fmap, ?Hi, ?Hj; cbn; f_equal. }
  destruct (0 <? dr_refcount d) eqn:E; bool_hyps.
  - eexists _, _. split; [done|]. split; [by apply unlock_ok|]. split; [done|].
    intros (q' & Hin' & Hq' & Hu). rewrite (Huniq q') in Hu by done.
    change (users q s1) with (users q s) in Hr. rewrite Hu in Hr. unfold blen in Hr. cbn in Hr. lia.
  - assert (users q s1 = []) as Hu.
    { destruct (users q s1) as [|x l]; [done|]. unfold blen in Hr. cbn in Hr. lia. }
    eexists _, _. split; [done|]. split; [|by split; [exists q|]]. apply unlock_ok.
    pose proof Hw as [Hdr Hdv Nd Nv].
    rewrite El, unlink_mid by by eapply not_elem_of_l. rewrite El in *.
    split; cbn [with_lists drivers devices].
    + rewrite Forall_forall in *. intros q' Hq'. apply Hdr, elem_of_mid. by right.
    + rewrite Forall_forall in *. intros x Hx.
      destruct (Hdv x Hx) as (v & q' & Hv & ? & ? & Hq' & Hin').
      exists v, q'. split_and!; try done.
      rewrite El in Hin'. apply elem_of_mid in Hin' as [->|?]; [exfalso|done].
      assert (x ∈ users q s1) as Hxu; [|rewrite Hu in Hxu; by apply elem_of_nil in Hxu].
      apply list_elem_of_filter. split; [|done]. unfold uses. by rewrite Hv, <- Hq'.
    + rewrite fmap_app, fmap_cons in Nd. rewrite fmap_app. by apply NoDup_app_remove_mid in Nd.
    + exact Nv.
Qed.

(** Linking a device, and unlinking one, with its driver's count. *)
Lemma link_device_ok p v q d s s' :
  core_wf s → p ∉ devices s → q ∈ drivers s → driver_at s !! q = Some d →
  dv_driver v = Some q → dv_name v ≠ [] → dv_registered v = true →
  (∀ x, x ∈ devices s → device_name s x ≠ Some (dv_name v)) →
  drivers s' = drivers s → devices s' = p :: devices s →
  driver_at s' = <[q := set_refcount (dr_refcount d + 1) d]> (driver_at s) →
  device_at s' = <[p := v]> (device_at s) → core_wf s'.
Proof.
  intros Hw Hp Hq Hd Hv Hn Hreg Hfresh E1 E2 E3 E4. pose proof Hw as [Hdr Hdv Nd Nv].
  assert (∀ x, x ∈ devices s → device_at s' !! x = device_at s !! x) as Ha.
  { intros x Hx. rewrite E4, lookup_insert_ne by (by intros ->). done. }
  assert (∀ r, users r s' = if decide (r = q) then p :: users r s else users r s) as Hu.
  { intros r. unfold users. rewrite E2, filter_cons.
    rewrite (filter_agree (uses r s') (uses r s)) by (intros x Hx; unfold uses; by rewrite Ha).
    apply decide_ext. unfold uses. rewrite E4, lookup_insert_eq. cbn. rewrite Hv.
    split; [by intros [= ?]|by intros ->]. }
  split; rewrite ?E1, ?E2.
  - rewrite Forall_forall in *. intros r Hr. destruct (Hdr r Hr) as (e & He & ? & ? & Hc).
    unfold driver_ok. rewrite E3, Hu. destruct (decide (r = q)) as [->|Hne].
    + exists (set_refcount (dr_refcount d + 1) d). rewrite lookup_insert_eq. simplify_eq.
      rewrite blen_cons, <- Hc. split_and!; try done. cbn. lia.
    + exists e. by rewrite lookup_insert_ne.
  - apply Forall_cons. split.
    + exists v, q. by rewrite E4, lookup_insert_eq, E1.
    + rewrite Forall_forall in *. intros x Hx. destruct (Hdv x Hx) as (w & r & ?).
      exists w, r. by rewrite Ha, E1.
  - erewrite fmap_agree; [exact Nd|]. intros r Hr. unfold driver_name. rewrite E3.
    destruct (decide (r = q)) as [->|]; [by rewrite lookup_insert_eq, Hd|by rewrite lookup_insert_ne].
  - rewrite fmap_cons. apply NoDup_cons.
    rewrite (fmap_agree (device_name s') (device_name s)) by (intros x Hx; unfold device_name; by rewrite Ha).
    split; [|exact Nv]. intros (x & Hx & Hin)%list_elem_of_fmap. apply (Hfresh x Hin).
    rewrite <- Hx. unfold device_name. by rewrite E4, lookup_insert_eq.
Qed.

Lemma unlink_device_ok a p b v q d s s' :
  core_wf s → devices s = a ++ p :: b → p ∉ a ++ b → device_at s !! p = Some v →
  dv_driver v = Some q → driver_at s !! q = Some d →
  drivers s' = drivers s → devices s' = a ++ b →
  driver_at s' = <[q := set_refcount (dr_refcount d - 1) d]> (driver_at s) →
  (∀ x, x ≠ p → device_at s' !! x = device_at s !! x) → core_wf s'.
Proof.
  intros Hw El Hp Hv Hvq Hd E1 E2 E3 Ha0. pose proof Hw as [Hdr Hdv Nd Nv]. rewrite El in *.
  assert (∀ x, x ∈ a ++ b → device_at s' !! x = device_at s !! x) as Ha.
  { intros x Hx. apply Ha0. by intros ->. }
  assert (∀ r, blen (users r s') = blen (users r s) - if decide (r = q) then 1 else 0) as Hu.
  { intros r. unfold users. rewrite E2, El.
    rewrite (filter_agree (uses r s') (uses r s)) by (intros x Hx; unfold uses; by rewrite Ha).
    rewrite !filter_app, filter_cons, !blen_app.
    assert (uses r s p ↔ r = q) as Hpq.
    { unfold uses. rewrite Hv. cbn. rewrite Hvq. split; [by intros [= ?]|by intros ->]. }
    destruct (decide (uses r s p)), (decide (r = q)); try tauto; rewrite ?blen_cons; lia. }
  split; rewrite ?E1, ?E2.
  - rewrite Forall_forall in *. intros r Hr. destruct (Hdr r Hr) as (e & He & ? & ? & Hc).
    unfold driver_ok. rewrite E3, Hu. destruct (decide (r = q)) as [->|Hne].
    + exists (set_refcount (dr_refcount d - 1) d). rewrite lookup_insert_eq. simplify_eq.
      rewrite <- Hc. done.
    + exists e. rewrite lookup_insert_ne by done. split_and!; try done. lia.
  - rewrite Forall_forall in *. intros x Hx. destruct (Hdv x) as (w & r & ?).
    { apply elem_of_mid. by right. }
    exists w, r. by rewrite Ha, E1.
  - erewrite fmap_agree; [exact Nd|]. intros r Hr. unfold driver_name. rewrite E3.
    destruct (decide (r = q)) as [->|]; [by rewrite lookup_insert_eq, Hd|by rewrite lookup_insert_ne].
  - rewrite (fmap_agree (device_name s') (device_name s)) by (intros x Hx; unfold device_name; by rewrite Ha).
    rewrite fmap_app, fmap_cons in Nv. rewrite fmap_app. by apply NoDup_app_remove_mid in Nv.
Qed.

Hypothesis drivers_obey : obedient.

(** A device whose driver is registered. *)
Definition registrable s p : Prop :=
  ∃ v, device_at s !! p = Some v ∧ ∀ q, dv_driver v = Some q → q ∈ drivers s.

Lemma device_op_wf op s p : core_wf s → p ∈ devices s → ∃ f, device_op op p s = Some f.
Proof.
  intros Hw Hp. destruct (device_node s p Hw Hp) as (v & q & Hv & _ & _ & Hq & Hin).
  destruct (driver_node s q Hw Hin) as (d & Hd & _). unfold device_op. rewrite Hv.
  cbn [mbind option_bind]. rewrite Hq, Hd. by eexists.
Qed.

Lemma add_ref_some q n s d :
  driver_at s !! q = Some d →
  add_ref q n s = Some (with_nodes (<[q := set_refcount (dr_refcount d + n) d]> (driver_at s)) (device_at s) s).
Proof. intros Hd. unfold add_ref. by rewrite Hd. Qed.

(** Nodes are where they were when only the chains changed. *)
Ltac unlinked s :=
  match goal with |- context [device_at (with_lists ?a ?b ?c ?x)] =>
    change (device_at (with_lists a b c x)) with (device_at s) end.

Lemma put_device_lookup p v s : device_at (put_device p v s) !! p = Some v.
Proof. apply lookup_insert_eq. Qed.

Lemma device_register_ok p s :
  core_ok s → registrable s p →
  ∃ r s', device_register (Some p) s = Some (r, s') ∧ core_ok s'.
Proof.
  intros Hok (v & Hv & Hreg). unfold device_register. rewrite Hv. cbn [mbind option_bind]. unfold str_eq.
  case_bool_decide as En; [by eexists _, s|]. destruct (dv_driver v) as [q|] eqn:Eq; [|by eexists _, s].
  specialize (Hreg q eq_refl). destruct (lock_spec s Hok) as [-> Hw]. cbn [mbind option_bind].
  set (s1 := with_lock true s) in *.
  destruct (find_device_wf (dv_name v) s1 Hw) as [(a & x & b & w & _ & _ & _ & _ & ->)|[Hn ->]];
    cbn [mbind option_bind]; [eexists _, _; split; [done|by apply unlock_ok]|].
  assert (p ∉ devices s1) as Hp by (intros Hp; by apply (Hn p v)).
  destruct (driver_node s1 q Hw Hreg) as (d & Hd & _).
  set (s2 := with_lists _ _ _ _). rewrite (add_ref_some q 1 s2 d) by done. cbn [mbind option_bind].
  set (v' := set_registered (next_device_id s1) true v). set (s3 := with_nodes _ _ _).
  assert (core_wf s3) as Hw3.
  { apply (link_device_ok p v' q d s1); try done. intros x Hx Hx'. unfold device_name in Hx'.
    destruct (device_at s1 !! x) as [w|] eqn:Ew; [|done]. injection Hx' as Hx'. by apply (Hn x w). }
  destruct (device_op_wf op_probe s3 p Hw3) as [f ->]; [by left|]. cbn [mbind option_bind].
  destruct f as [f|]; [|eexists _, _; split; [done|by apply unlock_ok]].
  destruct (drivers_obey f p s3) as (r & s4 & -> & Hs4). cbn [mbind option_bind].
  pose proof (core_wf_same _ _ Hs4 Hw3) as Hw4. destruct Hs4 as [u Hs4].
  destruct (r =? 0); [eexists _, _; split; [done|by apply unlock_ok]|].
  assert (device_at s4 !! p = Some v') as Hv4 by (rewrite Hs4; apply lookup_insert_eq).
  rewrite Hv4. cbn [mbind option_bind]. change (dv_driver v') with (dv_driver v). rewrite Eq.
  cbn [mbind option_bind].
  assert (driver_at s4 !! q = Some (set_refcount (dr_refcount d + 1) d)) as Hd4
    by (rewrite Hs4; apply lookup_insert_eq).
  rewrite (add_ref_some q (-1) s4 _ Hd4). cbn [mbind option_bind].
  unlinked s4. rewrite Hv4. cbn [mbind option_bind].
  eexists _, _. split; [done|]. apply unlock_ok.
  eapply (unlink_device_ok [] p (devices s1) v' q _ s4); [done|by rewrite Hs4|exact Hp|done|done|exact Hd4|done| |done|].
  - cbn. by rewrite Hs4.
  - intros x Hx. cbn. by rewrite lookup_insert_ne.
Qed.

Lemma call_remove_ok p s :
  core_wf s → p ∈ devices s → ∃ s', call_remove p s = Some s' ∧ same_core s s'.
Proof.
  intros Hw Hp. unfold call_remove. destruct (device_op_wf op_remove s p Hw Hp) as [[f|] ->];
    cbn [mbind option_bind].
  - destruct (drivers_obey f p s) as (r & s' & -> & Hs). by exists s'.
  - exists s. split; [done|]. exists (env s). by destruct s.
Qed.

Lemma device_unregister_ok name s :
  core_ok s →
  ∃ r s', device_unregister (Some name) s = Some (r, s') ∧ core_ok s'.
Proof.
  intros Hok. unfold device_unregister. destruct (lock_spec s Hok) as [-> Hw].
  cbn [mbind option_bind]. set (s1 := with_lock true s) in *.
  destruct (find_device_wf name s1 Hw) as [(a & p & b & v & El & Hv & Hn & Hab & ->)|[Hn ->]];
    cbn [mbind option_bind]; [|eexists _, _; split; [done|by apply unlock_ok]].
  assert (p ∈ devices s1) as Hp by (rewrite El; apply elem_of_mid; by left).
  destruct (call_remove_ok p s1 Hw Hp) as (s2 & -> & Hs2). cbn [mbind option_bind].
  pose proof (core_wf_same _ _ Hs2 Hw) as Hw2. destruct Hs2 as [u Hs2].
  assert (device_at s2 !! p = Some v) as Hv2 by (by rewrite Hs2).
  destruct (device_node s1 p Hw Hp) as (v1 & q & Hv1 & _ & _ & Hq & Hin).
  rewrite Hv in Hv1. injection Hv1 as <-.
  destruct (driver_node s1 q Hw Hin) as (d & Hd & _).
  assert (driver_at s2 !! q = Some d) as Hd2 by (by rewrite Hs2).
  rewrite Hv2. cbn [mbind option_bind]. rewrite Hq, (add_ref_some q (-1) s2 d Hd2).
  cbn [mbind option_bind]. unlinked s2. rewrite Hv2.
  cbn [mbind option_bind]. unfold release.
  rewrite (put_device_lookup p). cbn [mbind option_bind]. eexists _, _. split; [done|]. apply unlock_ok.
  assert (devices s2 = a ++ p :: b) as El2 by (by rewrite Hs2).
  apply (unlink_device_ok a p b v q d s2); try done.
  - by destruct (dv_owned _).
  - destruct (dv_owned _); cbn; rewrite El2, unlink_mid by (by eapply not_elem_of_l); done.
  - by destruct (dv_owned _).
  - intros x Hx. destruct (dv_owned _); cbn; by rewrite ?lookup_delete_ne, lookup_insert_ne.
Qed.

(** ** Every run of the registry *)

Inductive reg_call :=
  | DriverRegister p
  | DriverUnregister (name : list Z)
  | DeviceRegister p
  | DeviceUnregister (name : list Z)
  | DriverFind (name : list Z)
  | DeviceFind (name : list Z)
  | DeviceFindPath (path : list Z).

Definition run_call (c : reg_call) s : option (Z * core) :=
  match c with
  | DriverRegister p => driver_register (Some p) s
  | DriverUnregister name => driver_unregister (Some name) s
  | DeviceRegister p => device_register (Some p) s
  | DeviceUnregister name => device_unregister (Some name) s
  | DriverFind name => '(_, s) ← driver_find (Some name) s; Some (0, s)
  | DeviceFind name => '(_, s) ← device_find (Some name) s; Some (0, s)
  | DeviceFindPath path => '(_, s) ← device_find_by_path (Some path) s; Some (0, s)
  end.

Definition call_ok (c : reg_call) s : Prop :=
  match c with
  | DriverRegister p => is_Some (driver_at s !! p)
  | DeviceRegister p => registrable s p
  | _ => True
  end.

(** What the owners of the nodes and the rest of the world do between calls:
    anything but writing a registered node. *)
Definition outside s s' : Prop :=
  ∃ dr de u, s' = mk_core (drivers s) (devices s) (next_device_id s) (g_core_lock s)
                    (g_open_handles s) dr de u ∧
  (∀ q, q ∈ drivers s → dr !! q = driver_at s !! q) ∧
  (∀ p, p ∈ devices s → de !! p = device_at s !! p).

Inductive reachable : core → Prop :=
  | reach_init s : reachable (driver_core_init s).2
  | reach_call c r s s' : reachable s → call_ok c s → run_call c s = Some (r, s') → reachable s'
  | reach_outside s s' : reachable s → outside s s' → reachable s'.

Lemma find_path_spec path s :
  core_wf s → ∃ r, find_device dv_path path (devices s) s = Some r ∧ ∀ p, r = Some p → p ∈ devices s.
Proof.
  intros Hw. destruct (find_device_spec dv_path path (devices s) s) as [(a & p & b & v & E & _ & _ & ->)|[_ ->]].
  - intros p Hp. destruct (device_node s p Hw Hp) as (v & ? & Hv & _). by exists v.
  - eexists. split; [done|]. intros ? [= <-]. rewrite E. apply elem_of_mid. by left.
  - by exists None.
Qed.

Lemma run_call_ok c s :
  core_ok s → call_ok c s → ∃ r s', run_call c s = Some (r, s') ∧ core_ok s'.
Proof.
  intros Hok Hc. destruct (lock_spec s Hok) as [El Hw].
  destruct c as [p|name|p|name|name|name|path]; cbn [run_call].
  - by apply driver_register_ok.
  - destruct (driver_unregister_ok name s Hok) as (r & s' & ? & ? & _). by exists r, s'.
  - by apply device_register_ok.
  - by apply device_unregister_ok.
  - unfold driver_find. rewrite El. cbn [mbind option_bind].
    destruct (find_driver_wf name _ Hw) as [(a & q & b & _ & _ & _ & ->)|[_ ->]];
      eexists _, _; (split; [done|by apply unlock_ok]).
  - unfold device_find. rewrite El. cbn [mbind option_bind].
    destruct (find_device_wf name _ Hw) as [(a & q & b & v & _ & _ & _ & _ & ->)|[_ ->]];
      eexists _, _; (split; [done|by apply unlock_ok]).
  - unfold device_find_by_path. rewrite El. cbn [mbind option_bind].
    destruct (find_path_spec path _ Hw) as (r & -> & _).
    eexists _, _. split; [done|by apply unlock_ok].
Qed.

Lemma reachable_ok s : reachable s → core_ok s.
Proof.
  induction 1 as [s|c r s s' _ IH Hc E|s s' _ [Hl Hw] (dr & de & u & -> & H1 & H2)].
  - split; [done|]. split; [apply Forall_nil_2|apply Forall_nil_2|apply NoDup_nil_2|apply NoDup_nil_2].
  - destruct (run_call_ok c s IH Hc) as (r' & s'' & E' & Hok). congruence.
  - split; [done|]. by apply (core_wf_agree s).
Qed.

(** C38: When driver code keeps off the core ([probe] and [remove] run with the lock held:
    Example [probe_calling_back_hangs]), and every device is registered after the driver it
    names ([registrable]; in the other order the count is lost: Example
    [late_driver_forgets]), every run of the registry keeps each driver's reference count
    equal to the number of its registered devices, with names unique; no call faults, and
    unregistering a driver succeeds exactly when it is registered and has no device. *)
Theorem driver_core_safe s :
  reachable s →
  core_ok s ∧
  (∀ c, call_ok c s → ∃ r s', run_call c s = Some (r, s') ∧ reachable s') ∧
  (∀ name, ∃ r s', driver_unregister (Some name) s = Some (r, s') ∧
     (r = 0 ↔ ∃ q, q ∈ drivers s ∧ driver_name s q = Some name ∧ users q s = [])).
Proof.
  intros Hr. pose proof (reachable_ok s Hr) as Hok. split; [done|]. split.
  - intros c Hc. destruct (run_call_ok c s Hok Hc) as (r & s' & E & _).
    exists r, s'. split; [done|]. by eapply reach_call.
  - intros name. destruct (driver_unregister_ok name s Hok) as (r & s' & E & _ & Hi). by exists r, s'.
Qed.

(** ** Handles *)

(** What can happen while a handle [h] is open: other handles are opened and closed,
    and anything that leaves the table of handles alone. *)
Inductive others (h : Z) : core → core → Prop :=
  | others_refl s : others h s s
  | others_open s s' path h0 h1 ret : h1 ≠ h →
      device_open (Some path) (Some h0) s = Some (ret, Some h1, s') → others h s s'
  | others_close s s' h1 ret : h1 ≠ h → device_close h1 s = Some (ret, s') → others h s s'
  | others_keep s s' : g_open_handles s' = g_open_handles s → others h s s'
  | others_trans s1 s2 s3 : others h s1 s2 → others h s2 s3 → others h s1 s3.

Lemma track_other h h1 p t :
  h ≠ 0 → h1 ≠ h → lookup_handle h (track h1 p t) = lookup_handle h t.
Proof.
  intros H0 Hne. induction t as [|e t IH]; [done|]. cbn [track].
  destruct (e.1 =? 0) eqn:E; cbn [lookup_handle fst snd].
  - bool_hyps. rewrite E, !(proj2 (Z.eqb_neq _ _)) by congruence. done.
  - by rewrite IH.
Qed.

Lemma untrack_other h h1 t : h ≠ 0 → h1 ≠ h → lookup_handle h (untrack h1 t) = lookup_handle h t.
Proof.
  intros H0 Hne. induction t as [|e t IH]; [done|]. cbn [untrack].
  destruct (e.1 =? h1) eqn:E; cbn [lookup_handle fst snd].
  - bool_hyps. rewrite E, !(proj2 (Z.eqb_neq _ _)) by congruence. done.
  - by rewrite IH.
Qed.

Lemma track_same h p t :
  h ≠ 0 → h ∉ t.*1 → 0 ∈ t.*1 → lookup_handle h (track h p t) = Some p.
Proof.
  intros H0. induction t as [|e t IH]; intros Hh Hz; [by apply elem_of_nil in Hz|].
  rewrite fmap_cons in *. apply not_elem_of_cons in Hh as [Hh1 Hh]. cbn [track].
  destruct (e.1 =? 0) eqn:E; cbn [lookup_handle fst snd]; bool_hyps.
  - by rewrite Z.eqb_refl.
  - rewrite (proj2 (Z.eqb_neq _ _)) by congruence. apply IH; [done|].
    apply elem_of_cons in Hz as [?|?]; [congruence|done].
Qed.

Lemma track_full h p t : 0 ∉ t.*1 → track h p t = t.
Proof.
  induction t as [|e t IH]; intros Hz; [done|]. rewrite fmap_cons in Hz.
  apply not_elem_of_cons in Hz as [Hz1 Hz]. cbn [track].
  rewrite (proj2 (Z.eqb_neq _ _)) by congruence. by rewrite IH.
Qed.

Lemma lookup_absent h t : h ∉ t.*1 → lookup_handle h t = None.
Proof.
  induction t as [|e t IH]; intros Hh; [done|]. rewrite fmap_cons in Hh.
  apply not_elem_of_cons in Hh as [Hh1 Hh]. cbn. rewrite (proj2 (Z.eqb_neq _ _)) by congruence. by apply IH.
Qed.

(** Code of handles leaves the table alone. *)
Definition table_kept : Prop :=
  (∀ f p h s r h' s', run_open f p h s = Some (r, h', s') → g_open_handles s' = g_open_handles s) ∧
  (∀ f h s r s', run_close f h s = Some (r, s') → g_open_handles s' = g_open_handles s).
Hypothesis table_obeyed : table_kept.

Lemma open_table path h0 s ret h1 s' :
  device_open (Some path) (Some h0) s = Some (ret, Some h1, s') →
  (ret ≠ 0 ∧ g_open_handles s' = g_open_handles s) ∨
  (ret = 0 ∧ ∃ p, find_device dv_path path (devices s) s = Some (Some p) ∧
                  g_open_handles s' = track h1 p (g_open_handles s)).
Proof.
  unfold device_open, device_find_by_path, driver_core_lock.
  destruct (g_core_lock s); [done|]. cbn [mbind option_bind].
  replace (find_device dv_path path (devices (with_lock true s)) (with_lock true s)) with
    (find_device dv_path path (devices s) s).
  2: { cbn. induction (devices s) as [|x l IH]; [done|]. cbn [find_device]. by rewrite IH. }
  destruct (find_device dv_path path (devices s) s) as [[p|]|] eqn:Ef; [|by intros [= <- _ <-]; left|done].
  cbn [mbind option_bind]. unfold device_open_internal.
  set (s1 := driver_core_unlock (with_lock true s)).
  destruct (device_op op_open p s1) as [[f|]|]; cbn [mbind option_bind]; [|by intros [= <- _ <-]; left|done].
  destruct (run_open f p h0 s1) as [[[r h2] s2]|] eqn:Eo; [|done]. cbn [mbind option_bind].
  apply table_obeyed in Eo. intros [= <- <- <-]. destruct (r =? 0) eqn:Er; bool_hyps; [right|left].
  - split; [done|]. exists p. split; [done|]. cbn. by rewrite Eo.
  - by rewrite Eo.
Qed.

Lemma close_table h1 s ret s' :
  device_close h1 s = Some (ret, s') →
  g_open_handles s' = g_open_handles s ∨ g_open_handles s' = untrack h1 (g_open_handles s).
Proof.
  unfold device_close. destruct (h1 =? 0); [by intros [= _ <-]; left|].
  unfold handle_op, driver_core_lock. destruct (g_core_lock s); [done|]. cbn [mbind option_bind].
  set (s1 := driver_core_unlock (with_lock true s)).
  destruct (device_handle_lookup h1 (with_lock true s)) as [p|]; [|by intros [= _ <-]; left].
  destruct (device_op op_close p s1) as [[f|]|]; cbn [mbind option_bind];
    [|by intros [= _ <-]; left|done].
  destruct (run_close f h1 s1) as [[r s2]|] eqn:Ec; [|done]. cbn [mbind option_bind].
  apply table_obeyed in Ec. destruct (r =? 0).
  - destruct (g_core_lock s2); [done|]. cbn [mbind option_bind]. intros [= _ <-]. right. cbn. by rewrite Ec.
  - intros [= _ <-]. left. by rewrite Ec.
Qed.

Lemma others_lookup h s s' :
  h ≠ 0 → others h s s' → device_handle_lookup h s' = device_handle_lookup h s.
Proof.
  intros H0. unfold device_handle_lookup.
  induction 1 as [|s s' path h0 h1 ret Hne E|s s' h1 ret Hne E|s s' E|s1 s2 s3 _ IH1 _ IH2].
  - done.
  - apply open_table in E as [[_ ->]|(_ & p & _ & ->)]; [done|by apply track_other].
  - apply close_table in E as [->| ->]; [done|by apply untrack_other].
  - by rewrite E.
  - by rewrite IH2.
Qed.

Lemma handle_op_lookup op h s :
  g_core_lock s = false →
  handle_op op h s = match device_handle_lookup h s with
                     | Some p => f ← device_op op p s; Some (f, s)
                     | None => Some (None, s)
                     end.
Proof.
  intros Hl. unfold handle_op, driver_core_lock. rewrite Hl. cbn [mbind option_bind].
  assert (driver_core_unlock (with_lock true s) = s) as -> by (destruct s; cbn in *; by subst).
  done.
Qed.

(** When [device_open] returns a handle that was not in use and the table of 32
    has room, every later operation on the handle runs the code of the device that
    was opened, whatever other handles are opened and closed meanwhile.  When the
    table is full the call reports success all the same, and every operation on the
    handle fails, closing it included. *)
Theorem device_handle_exact path p h h0 s s1 s2 :
  h ≠ 0 → h ∉ (g_open_handles s).*1 →
  find_device dv_path path (devices s) s = Some (Some p) →
  device_open (Some path) (Some h0) s = Some (0, Some h, s1) →
  others h s1 s2 → g_core_lock s2 = false →
  (0 ∈ (g_open_handles s).*1 →
   ∀ op, handle_op op h s2 = (f ← device_op op p s2; Some (f, s2))) ∧
  (0 ∉ (g_open_handles s).*1 →
   device_close h s2 = Some (-1, s2) ∧ ∀ n, device_read h true n s2 = Some (-1, [], s2)).
Proof.
  intros H0 Hh Hf Ho Hs Hl. apply open_table in Ho as [[? _]|(_ & p' & Hf' & Ht)]; [done|].
  rewrite Hf in Hf'. injection Hf' as <-. pose proof (others_lookup h s1 s2 H0 Hs) as E.
  unfold device_handle_lookup at 2 in E. rewrite Ht in E. split.
  - intros Hz op. rewrite handle_op_lookup by done. by rewrite E, track_same.
  - intros Hz. rewrite track_full, lookup_absent in E by done.
    unfold device_close, device_read. rewrite (proj2 (Z.eqb_neq h 0)) by done. cbn [negb orb].
    by rewrite !handle_op_lookup, E by done.
Qed.
End DriverThm.

(** ** Concrete drivers *)

Module DriverRuns.
(** Functions are numbers; the environment counts the handles given out. *)
#[local] Instance code : DriverCode Z Z := {|
  run_device f p s := Some (if f =? 9 then -1 else 0, s);
  run_open f p h s := Some (0, 100 + env s, mk_core (drivers s) (devices s) (next_device_id s)
    (g_core_lock s) (g_open_handles s) (driver_at s) (device_at s) (env s + 1));
  run_close f h s := Some (0, s);
  run_read f h n s := Some (n, [f], s);
  run_write f h b n s := Some (n, s);
  run_ioctl f h c a s := Some (0, s)
|}.

Lemma code_obeys : obedient.
Proof. intros f p s. eexists _, s. split; [done|]. exists (env s). by destruct s. Qed.
Lemma code_keeps_table : table_kept.
Proof. split; [by intros f p h s r h' s' [= _ _ <-]|by intros f h s r s' [= _ <-]]. Qed.

(** A driver whose functions are [f], and devices of it. *)
Definition ops (f : Z) : driver_ops Z :=
  mk_ops (Some f) (Some f) (Some f) (Some f) (Some f) (Some f) (Some f) (Some f) (Some f).
Definition gpio : driver Z := mk_driver [103] 0 (Some (ops 1)) 0 0.
Definition uart : driver Z := mk_driver [117] 0 (Some (ops 2)) 0 0.
Definition pin (n : Z) (owned : bool) : device :=
  mk_device [112; n] [47; 112; n] (Some 1%nat) 0 0 0 false owned.
Definition tty : device := mk_device [116] [47; 116] (Some 2%nat) 0 0 0 false false.

Definition bare : driver_core Z Z := mk_core [] [] 0 false [] ∅ ∅ 0.
Definition booted : driver_core Z Z := (driver_core_init bare).2.
Definition prepared : driver_core Z Z :=
  mk_core [] [] 1 false (g_open_handles booted) {[1%nat := gpio; 2%nat := uart]}
    {[1%nat := pin 48 true; 2%nat := pin 49 false; 3%nat := tty]} 0.

Fixpoint run_calls (cs : list reg_call) (s : driver_core Z Z) : option (list Z * driver_core Z Z) :=
  match cs with
  | [] => Some ([], s)
  | c :: cs => '(r, s) ← run_call c s; '(rs, s) ← run_calls cs s; Some (r :: rs, s)
  end.
Definition after (cs : list reg_call) : driver_core Z Z :=
  match run_calls cs prepared with Some (_, s) => s | None => bare end.

Definition setup : list reg_call :=
  [DriverRegister 1; DriverRegister 2; DeviceRegister 1; DeviceRegister 2; DeviceRegister 3].
Definition running : driver_core Z Z := after setup.

Lemma prepared_reachable : reachable prepared.
Proof.
  apply (reach_outside booted); [apply reach_init|]. eexists _, _, _. split; [done|].
  split; intros ? Hq; apply elem_of_nil in Hq; destruct Hq.
Qed.

(** The state after [n] of the calls. *)
Definition stage (n : nat) : driver_core Z Z := after (take n setup).
Lemma stage_next n c r :
  reachable (stage n) → call_ok c (stage n) → run_call c (stage n) = Some (r, stage (S n)) →
  reachable (stage (S n)).
Proof. apply reach_call. Qed.

Ltac stage n c :=
  apply (stage_next n c 0);
  [|first [by eexists | eexists; split; [vm_compute; reflexivity|]; intros q [= <-]; vm_decide]
   |by vm_compute].

Lemma running_reachable : reachable running.
Proof.
  change running with (stage 5). stage 4%nat (DeviceRegister 3). stage 3%nat (DeviceRegister 2).
  stage 2%nat (DeviceRegister 1). stage 1%nat (DriverRegister 2). stage 0%nat (DriverRegister 1).
  apply prepared_reachable.
Qed.

Lemma driver_core_safe_witness :
  core_ok running ∧
  (∀ c, call_ok c running → ∃ r s', run_call c running = Some (r, s') ∧ reachable s') ∧
  (∀ name, ∃ r s', driver_unregister (Some name) running = Some (r, s') ∧
     (r = 0 ↔ ∃ q, q ∈ drivers running ∧ driver_name running q = Some name ∧ users q running = [])).
Proof. apply (driver_core_safe code_obeys running running_reachable). Defined.

(** The first device is opened, then the other two, and the first handle is used. *)
Definition opened (p : list Z) (s : driver_core Z Z) : driver_core Z Z :=
  match device_open (Some p) (Some 0) s with Some (_, _, s) => s | None => bare end.
Definition open1 : driver_core Z Z := opened [47; 112; 48] running.
Definition open3 : driver_core Z Z := opened [47; 116] (opened [47; 112; 49] open1).

Lemma open3_others : others 100 open1 open3.
Proof.
  eapply others_trans; [|apply (others_open 100 (opened [47; 112; 49] open1) open3 [47; 116] 0 102 0); [done|by vm_compute]].
  by apply (others_open 100 open1 _ [47; 112; 49] 0 101 0); [done|vm_compute].
Qed.

Lemma device_handle_exact_witness :
  (0 ∈ (g_open_handles running).*1 →
   ∀ op, handle_op op 100 open3 = (f ← device_op op 1%nat open3; Some (f, open3))) ∧
  (0 ∉ (g_open_handles running).*1 →
   device_close 100 open3 = Some (-1, open3) ∧
   ∀ n, device_read 100 true n open3 = Some (-1, [], open3)).
Proof.
  apply (device_handle_exact code_keeps_table [47; 112; 48] 1 100 0 running open1 open3).
  - done.
  - vm_decide.
  - by vm_compute.
  - by vm_compute.
  - apply open3_others.
  - by vm_compute.
Defined.

(** A device registered before its driver: [driver_register] forgets it. *)
Example late_driver_forgets :
  let s := after [DeviceRegister 3; DriverRegister 2; DriverUnregister [117]; DeviceUnregister [116]] in
  option_map fst (run_calls [DeviceRegister 3; DriverRegister 2; DriverUnregister [117]; DeviceUnregister [116]]
    prepared) = Some [0; 0; 0; 0] ∧ dr_refcount <$> driver_at s !! 2%nat = Some (-1).
Proof. by vm_compute. Qed.

(** Unregistering a device that is open leaves its handle in the table: when the
    device was heap-allocated, using the handle reads freed memory. *)
Example open_handle_dangles :
  (r ← device_unregister (Some [112; 48]) open1; device_read 100 true 4 r.2) = None.
Proof. by vm_compute. Qed.

(** The 33rd open device: [device_open] succeeds, the handle is dead. *)
Example table_full_handle_dead :
  let s := Nat.iter 32 (opened [47; 112; 48]) running in
  let r := device_open (Some [47; 112; 48]) (Some 0) s in
  option_map (λ x, x.1) r = Some (0, Some 132) ∧
  (x ← r; y ← device_read 132 true 4 x.2; Some y.1) = Some (-1, []).
Proof. by vm_compute. Qed.

(** A probe function that looks something up spins on the lock for ever. *)
Definition curious : DriverCode Z Z := {|
  run_device f p s := '(_, s) ← driver_find (Some [103]) s; Some (0, s);
  run_open f p h s := Some (0, h, s); run_close f h s := Some (0, s);
  run_read f h n s := Some (0, [], s); run_write f h b n s := Some (0, s);
  run_ioctl f h c a s := Some (0, s)
|}.
Example probe_calling_back_hangs :
  device_register (H := curious) (Some 1%nat) prepared = None.
Proof. by vm_compute. Qed.
End DriverRuns.
