(* ===== verification/LinkFrame.v ===== *)
(** * Link frames (link/link_frame.c, link/link_frame.h)

    The wire format of the host/device link: CRC-16, frame encode and decode,
    and the tag/length/value payload fields.
    Pointers that the code tests against NULL are options.  Every array access
    goes through the checked accessors of the prelude, so [None] stands for an
    access outside an array (or for a loop that ran out of fuel). *)

From Stdlib Require Import ZArith Lia.
From stdpp Require Import base tactics option list numbers.
From S2P Require Import Prelude.

Definition LINK_MAGIC : Z := 0xAB07.
Definition LINK_VERSION : Z := 1.
Definition LINK_MAX_PAYLOAD : Z := 240.
Definition LINK_HEADER_LEN : Z := 9.
Definition LINK_MAX_FRAME : Z := LINK_HEADER_LEN + LINK_MAX_PAYLOAD + 2.

Record link_frame_t := mk_frame {
  lf_version : Z;
  lf_flags : Z;
  lf_channel : Z;
  lf_msg_id : Z;
  lf_length : Z;
  lf_payload : list Z
}.

Ltac link_consts := unfold LINK_MAX_FRAME, LINK_HEADER_LEN, LINK_MAX_PAYLOAD in *.

(** ** CRC-16/CCITT-FALSE *)

Definition crc16_bit (crc : Z) : Z :=
  if bits_set crc 0x8000 then u16 (Z.lxor (Z.shiftl crc 1) 0x1021)
  else u16 (Z.shiftl crc 1).

Definition crc16_byte (crc b : Z) : Z :=
  Nat.iter 8 crc16_bit (u16 (Z.lxor crc (Z.shiftl b 8))).

Definition link_crc16 (data : list Z) (len : Z) : option Z :=
  d ← rd_bytes data 0 len; Some (foldl crc16_byte 0xffff d).

(** ** Encode and decode *)

Definition link_frame_encode (frame : option link_frame_t) (out : option (list Z))
    (cap : Z) : option (Z * option (list Z)) :=
  match frame, out with
  | Some f, Some o =>
    if LINK_MAX_PAYLOAD <? lf_length f then Some (-1, out) else
    let total := LINK_HEADER_LEN + lf_length f + 2 in
    if cap <? total then Some (-1, out) else
    o ← wr o 0 (lo8 LINK_MAGIC);
    o ← wr o 1 (hi8 LINK_MAGIC);
    o ← wr o 2 (if c_true (lf_version f) then lf_version f else LINK_VERSION);
    o ← wr o 3 (lf_flags f);
    o ← wr o 4 (lf_channel f);
    o ← wr o 5 (lo8 (lf_msg_id f));
    o ← wr o 6 (hi8 (lf_msg_id f));
    o ← wr o 7 (lo8 (lf_length f));
    o ← wr o 8 (hi8 (lf_length f));
    o ← (if 0 <? lf_length f
         then p ← rd_bytes (lf_payload f) 0 (lf_length f); wr_bytes o LINK_HEADER_LEN p
         else Some o);
    crc ← link_crc16 o (LINK_HEADER_LEN + lf_length f);
    o ← wr o (LINK_HEADER_LEN + lf_length f) (lo8 crc);
    o ← wr o (LINK_HEADER_LEN + lf_length f + 1) (hi8 crc);
    Some (total, Some o)
  | _, _ => Some (-1, out)
  end.

Definition link_frame_decode (inp : option (list Z)) (n : Z)
    (frame : option link_frame_t) : option (Z * option link_frame_t) :=
  match inp, frame with
  | Some b, Some _ =>
    if n <? LINK_HEADER_LEN + 2 then Some (-1, frame) else
    b0 ← rd b 0;
    if negb (b0 =? lo8 LINK_MAGIC) then Some (-1, frame) else
    b1 ← rd b 1;
    if negb (b1 =? hi8 LINK_MAGIC) then Some (-1, frame) else
    l0 ← rd b 7;
    l1 ← rd b 8;
    let length := le16 l0 l1 in
    if (LINK_MAX_PAYLOAD <? length) || (n <? LINK_HEADER_LEN + length + 2)
    then Some (-1, frame) else
    crc ← link_crc16 b (LINK_HEADER_LEN + length);
    g0 ← rd b (LINK_HEADER_LEN + length);
    g1 ← rd b (LINK_HEADER_LEN + length + 1);
    if negb (crc =? le16 g0 g1) then Some (-1, frame) else
    version ← rd b 2;
    flags ← rd b 3;
    channel ← rd b 4;
    m0 ← rd b 5;
    m1 ← rd b 6;
    let payload := zeros LINK_MAX_PAYLOAD in
    payload ← (if 0 <? length
               then p ← rd_bytes b LINK_HEADER_LEN length; wr_bytes payload 0 p
               else Some payload);
    Some (LINK_HEADER_LEN + length + 2,
          Some (mk_frame version flags channel (le16 m0 m1) length payload))
  | _, _ => Some (-1, frame)
  end.

(** ** Tag/length/value fields *)

Section Tlv.
Context `{Arch}.

(** [buf], [*used] are returned; [value] is the memory behind the value pointer. *)
Definition link_tlv_put (buf : option (list Z)) (cap : Z) (used : option Z)
    (tag : Z) (value : option (list Z)) (len : Z)
    : option (Z * option (list Z) * option Z) :=
  match buf, used with
  | Some b, Some at_ =>
    match value with
    | None => if 0 <? len then Some (-1, buf, used) else
      if cap <? usz (at_ + 2 + len) then Some (-1, buf, used) else
      b ← wr b at_ tag;
      b ← wr b (at_ + 1) len;
      Some (0, Some b, Some (usz (at_ + 2 + len)))
    | Some v =>
      if cap <? usz (at_ + 2 + len) then Some (-1, buf, used) else
      b ← wr b at_ tag;
      b ← wr b (at_ + 1) len;
      b ← (if 0 <? len then p ← rd_bytes v 0 len; wr_bytes b (at_ + 2) p else Some b);
      Some (0, Some b, Some (usz (at_ + 2 + len)))
    end
  | _, _ => Some (-1, buf, used)
  end.

Definition link_tlv_put_u8 (buf : option (list Z)) (cap : Z) (used : option Z)
    (tag value : Z) : option (Z * option (list Z) * option Z) :=
  link_tlv_put buf cap used tag (Some [value]) 1.

Definition link_tlv_put_u16 (buf : option (list Z)) (cap : Z) (used : option Z)
    (tag value : Z) : option (Z * option (list Z) * option Z) :=
  link_tlv_put buf cap used tag (Some [lo8 value; hi8 value]) 2.

Definition link_tlv_put_u32 (buf : option (list Z)) (cap : Z) (used : option Z)
    (tag value : Z) : option (Z * option (list Z) * option Z) :=
  link_tlv_put buf cap used tag
    (Some [u8 (Z.land value 255); u8 (Z.land (Z.shiftr value 8) 255);
           u8 (Z.land (Z.shiftr value 16) 255); u8 (Z.shiftr value 24)]) 4.

(** A C string is the list of its bytes before the terminator. *)
Definition link_tlv_put_str (buf : option (list Z)) (cap : Z) (used : option Z)
    (tag : Z) (text : option (list Z)) : option (Z * option (list Z) * option Z) :=
  let text := default [] text in
  let n := blen text in
  if 255 <? n then Some (-1, buf, used)
  else link_tlv_put buf cap used tag (Some text) (u8 n).

(** [while (i + 2 <= n)]: every round advances [i] by at least 2. *)
Fixpoint tlv_get_loop (fuel : nat) (buf : list Z) (n : Z) (tag : Z)
    (out : option (list Z)) (cap : Z) (out_len : Z) (i : Z)
    : option (Z * option (list Z) * Z) :=
  match fuel with
  | O => None
  | S fuel =>
    if usz (i + 2) <=? n then
      t ← rd buf i;
      len ← rd buf (i + 1);
      if n <? usz (i + 2 + len) then Some (-1, out, out_len) else
      if t =? tag then
        if cap <? len then Some (-1, out, out_len) else
        if 0 <? len then
          match out with
          | None => Some (-1, out, out_len)
          | Some o => p ← rd_bytes buf (i + 2) len; o ← wr_bytes o 0 p;
                      Some (0, Some o, len)
          end
        else Some (0, out, len)
      else tlv_get_loop fuel buf n tag out cap out_len (usz (i + 2 + len))
    else Some (-1, out, out_len)
  end.

Definition link_tlv_get (buf : option (list Z)) (n : Z) (tag : Z)
    (out : option (list Z)) (cap : Z) (out_len : option Z)
    : option (Z * option (list Z) * option Z) :=
  match buf, out_len with
  | Some b, Some ol =>
    '(rc, o, ol) ← tlv_get_loop (S (Z.to_nat n)) b n tag out cap ol 0;
    Some (rc, o, Some ol)
  | _, _ => Some (-1, out, out_len)
  end.
End Tlv.

(** ** What a frame looks like on the wire *)

Definition frame_wf (f : link_frame_t) : Prop :=
  is_u8 (lf_version f) ∧ is_u8 (lf_flags f) ∧ is_u8 (lf_channel f) ∧
  is_u16 (lf_msg_id f) ∧ 0 <= lf_length f <= LINK_MAX_PAYLOAD ∧
  blen (lf_payload f) = LINK_MAX_PAYLOAD ∧ Forall is_u8 (lf_payload f).

#[export] Instance frame_wf_dec f : Decision (frame_wf f).
Proof. unfold frame_wf. apply _. Defined.

(** The version byte that is sent. *)
Definition wire_version (f : link_frame_t) : Z :=
  if c_true (lf_version f) then lf_version f else LINK_VERSION.

Definition frame_payload (f : link_frame_t) : list Z :=
  take (Z.to_nat (lf_length f)) (lf_payload f).

Definition frame_header (f : link_frame_t) : list Z :=
  [lo8 LINK_MAGIC; hi8 LINK_MAGIC; wire_version f; lf_flags f; lf_channel f;
   lo8 (lf_msg_id f); hi8 (lf_msg_id f); lo8 (lf_length f); hi8 (lf_length f)].

Definition frame_body (f : link_frame_t) : list Z := frame_header f ++ frame_payload f.

Definition frame_crc (f : link_frame_t) : Z := foldl crc16_byte 0xffff (frame_body f).

Definition frame_bytes (f : link_frame_t) : list Z :=
  frame_body f ++ [lo8 (frame_crc f); hi8 (frame_crc f)].

Arguments frame_body : simpl never.
Arguments frame_bytes : simpl never.

(** What the receiver reconstructs: the payload array is zero past [length]. *)
Definition frame_received (f : link_frame_t) : link_frame_t :=
  mk_frame (wire_version f) (lf_flags f) (lf_channel f) (lf_msg_id f) (lf_length f)
    (frame_payload f ++ zeros (LINK_MAX_PAYLOAD - lf_length f)).

(** ** CRC facts *)

Lemma crc16_bit_u16 c : is_u16 (crc16_bit c).
Proof. unfold crc16_bit. destruct (bits_set c 0x8000); by apply wrap_in_w. Qed.

Lemma crc16_byte_u16 c b : is_u16 (crc16_byte c b).
Proof. apply crc16_bit_u16. Qed.

Lemma crc16_foldl_u16 d c : is_u16 c → is_u16 (foldl crc16_byte c d).
Proof.
  revert c. induction d as [|b d IH]; intros c Hc; simpl; [done|].
  apply IH, crc16_byte_u16.
Qed.

Lemma frame_crc_u16 f : is_u16 (frame_crc f).
Proof. apply crc16_foldl_u16. unfold in_w. lia. Qed.

Lemma link_crc16_ok data len :
  0 <= len <= blen data →
  link_crc16 data len = Some (foldl crc16_byte 0xffff (take (Z.to_nat len) data)).
Proof. intros. unfold link_crc16. by rewrite rd_bytes_ok by lia. Qed.

Lemma link_crc16_prefix d r :
  link_crc16 (d ++ r) (blen d) = Some (foldl crc16_byte 0xffff d).
Proof. unfold link_crc16. by rewrite rd_bytes_prefix. Qed.

(** ** Lengths *)

Lemma blen_frame_payload f : frame_wf f → blen (frame_payload f) = lf_length f.
Proof. intros (?&?&?&?&?&Hp&?). unfold frame_payload. rewrite blen_take; lia. Qed.

Lemma blen_frame_body f : frame_wf f → blen (frame_body f) = LINK_HEADER_LEN + lf_length f.
Proof.
  intros Hf. unfold frame_body. rewrite blen_app, blen_frame_payload by done. done.
Qed.

Lemma blen_frame_bytes f :
  frame_wf f → blen (frame_bytes f) = LINK_HEADER_LEN + lf_length f + 2.
Proof.
  intros Hf. unfold frame_bytes. rewrite blen_app, blen_frame_body by done.
  unfold blen. simpl. lia.
Qed.

Lemma wire_version_u8 f : frame_wf f → is_u8 (wire_version f).
Proof.
  intros (?&_). unfold wire_version. destruct (c_true _); [done|]. unfold in_w. by cbv.
Qed.

Lemma frame_body_u8 f : frame_wf f → Forall is_u8 (frame_body f).
Proof.
  intros Hf. pose proof Hf as (?&?&?&?&?&?&?). unfold frame_body. apply Forall_app.
  split; [|by apply Forall_take].
  repeat (constructor; [by auto using wire_version_u8 with cint|]). constructor.
Qed.

(** ** Encode *)

Lemma link_frame_encode_ok f o cap :
  frame_wf f → LINK_HEADER_LEN + lf_length f + 2 <= cap <= blen o →
  link_frame_encode (Some f) (Some o) cap =
    Some (blen (frame_bytes f), Some (frame_bytes f ++ drop (length (frame_bytes f)) o)).
Proof.
  intros Hf Hcap. pose proof Hf as (?&?&?&?&Hl&Hp&?).
  pose proof (blen_frame_body f Hf) as Hbody.
  rewrite blen_frame_bytes by done. unfold link_frame_encode.
  link_consts.
  zbool. do 9 head_byte o. do 9 wr_lit.
  assert (Z.of_nat (length o) >= lf_length f + 2) as Ho by (unfold blen in Hcap; simpl in Hcap; lia).
  rewrite copy_if_ok; [|lia..|unfold blen; simpl; lia].
  cbn [mbind option_bind].
  set (n := Z.to_nat (lf_length f)).
  assert (length (drop n o) >= 2)%nat as Hd by (rewrite length_drop; lia).
  assert (∃ a b r, drop n o = a :: b :: r) as (a & b & r & Er).
  { destruct (drop n o) as [|a [|b r]]; simpl in Hd; [lia..|eauto]. }
  match goal with |- link_crc16 ?o' _ ≫= _ = _ =>
    replace o' with (frame_body f ++ a :: b :: r) end.
  2:{ unfold frame_body, frame_header, frame_payload. simpl. fold n. by rewrite <- Er. }
  rewrite <- Hbody, link_crc16_prefix. cbn [mbind option_bind].
  fold (frame_crc f). rewrite wr_app_l. cbn [mbind option_bind].
  rewrite (cons_middle (lo8 _)), app_assoc.
  replace (blen (frame_body f) + 1) with (blen (frame_body f ++ [lo8 (frame_crc f)]))
    by (by rewrite blen_app).
  rewrite wr_app_l. cbn [mbind option_bind]. do 3 f_equal.
  assert (length (frame_bytes f) = 9 + (n + 2))%nat as ->.
  { unfold frame_bytes, n. rewrite length_app. unfold blen in Hbody. cbn [length]. lia. }
  unfold frame_bytes. rewrite <- !app_assoc. simpl. by rewrite <- drop_drop, Er.
Qed.

(** A frame that does not fit, or a NULL pointer, is refused and nothing is
    written. *)
Lemma link_frame_encode_small f o cap :
  0 <= lf_length f → cap < LINK_HEADER_LEN + lf_length f + 2 →
  link_frame_encode (Some f) (Some o) cap = Some (-1, Some o).
Proof.
  intros. unfold link_frame_encode.
  destruct (LINK_MAX_PAYLOAD <? lf_length f); [done|]. by zbool.
Qed.

(** ** Decode *)

Lemma take_zeros_app (p : list Z) n :
  blen p <= n → p ++ drop (length p) (zeros n) = p ++ zeros (n - blen p).
Proof.
  intros H. f_equal. unfold zeros. rewrite drop_replicate. f_equal. unfold blen in *. lia.
Qed.

(** [if (n > 0) memcpy (dst, src + blen l, n);] with the source split. *)
Lemma copy_mid_if_ok {A} (dst l m r : list A) off n :
  off = blen l → n = blen m → n <= blen dst →
  (if 0 <? n then p ← rd_bytes (l ++ m ++ r) off n; wr_bytes dst 0 p else Some dst) =
    Some (m ++ drop (length m) dst).
Proof.
  intros -> -> Hn. destruct (0 <? blen m) eqn:E.
  - rewrite rd_bytes_app. cbn [mbind option_bind]. by rewrite wr_bytes_ok by lia.
  - apply Z.ltb_ge in E. destruct m; [done|]. unfold blen in E. simpl in E. lia.
Qed.

(** The fields of an encoded frame, read back from the start of a buffer. *)
Lemma rd_frame_header f r i :
  0 <= i < 9 → rd (frame_bytes f ++ r) i = rd (frame_header f) i.
Proof.
  intros Hi. unfold rd. zbool. unfold frame_bytes, frame_body.
  rewrite <- !app_assoc. apply lookup_app_l. simpl. lia.
Qed.

Lemma rd_frame_body f r :
  rd_bytes (frame_bytes f ++ r) 0 (blen (frame_body f)) = Some (frame_body f).
Proof. unfold frame_bytes. rewrite <- !app_assoc. apply rd_bytes_prefix. Qed.

Lemma rd_frame_crc_lo f r :
  rd (frame_bytes f ++ r) (blen (frame_body f)) = Some (lo8 (frame_crc f)).
Proof. unfold frame_bytes. rewrite <- !app_assoc. apply rd_app_l. Qed.

Lemma rd_frame_crc_hi f r :
  rd (frame_bytes f ++ r) (blen (frame_body f) + 1) = Some (hi8 (frame_crc f)).
Proof.
  unfold frame_bytes.
  replace (blen _ + 1) with (blen (frame_body f ++ [lo8 (frame_crc f)])) by (by rewrite blen_app).
  rewrite <- app_assoc. cbn [app]. rewrite (cons_middle (lo8 _)), (app_assoc (frame_body f)).
  apply rd_app_l.
Qed.

Lemma link_frame_decode_ok f r n g :
  frame_wf f → blen (frame_bytes f) <= n →
  link_frame_decode (Some (frame_bytes f ++ r)) n (Some g) =
    Some (blen (frame_bytes f), Some (frame_received f)).
Proof.
  intros Hf Hn. pose proof Hf as (?&?&?&?&Hl&Hp&?).
  pose proof (blen_frame_body f Hf) as Hbody.
  pose proof (blen_frame_payload f Hf) as Hpay.
  rewrite blen_frame_bytes in * by done. unfold link_frame_decode.
  link_consts. zbool.
  rewrite !rd_frame_header by lia.
  repeat match goal with |- context [rd (frame_header f) ?i] =>
    let v := eval hnf in (rd (frame_header f) i) in
    change (rd (frame_header f) i) with v end.
  cbn [mbind option_bind]. rewrite !Z.eqb_refl. cbn [negb].
  rewrite !le16_split by (done || (unfold in_w; lia)). zbool. cbn [orb].
  unfold link_crc16. rewrite <- !Hbody.
  rewrite rd_frame_body, rd_frame_crc_lo, rd_frame_crc_hi. cbn [mbind option_bind].
  fold (frame_crc f). rewrite le16_split, Z.eqb_refl by apply frame_crc_u16. cbn [negb].
  assert (frame_bytes f ++ r = frame_header f ++ frame_payload f ++
            [lo8 (frame_crc f); hi8 (frame_crc f)] ++ r) as ->.
  { unfold frame_bytes, frame_body. by rewrite <- !app_assoc. }
  rewrite copy_mid_if_ok by (rewrite ?blen_zeros; lia || done).
  cbn [mbind option_bind]. unfold frame_received.
  by rewrite take_zeros_app, Hpay by lia.
Qed.

(** ** The CRC detects burst errors *)

(** One shift of the register is linear over exclusive or. *)
Lemma crc16_bit_alt c :
  crc16_bit c = Z.lxor (u16 (Z.shiftl c 1)) (if Z.testbit c 15 then 0x1021 else 0).
Proof.
  unfold crc16_bit. change 0x8000 with (2 ^ 15). rewrite bits_set_pow2 by lia.
  destruct (Z.testbit c 15); [by rewrite wrap_lxor by lia|by rewrite Z.lxor_0_r].
Qed.

Lemma crc16_bit_lxor a b : crc16_bit (Z.lxor a b) = Z.lxor (crc16_bit a) (crc16_bit b).
Proof.
  rewrite !crc16_bit_alt, Z.lxor_spec, Z.shiftl_lxor, wrap_lxor by lia.
  rewrite lxor_swap. f_equal. by destruct (Z.testbit a 15), (Z.testbit b 15).
Qed.

(** ... and invertible, because the polynomial has a constant term. *)
Lemma crc16_bit_zero c : is_u16 c → crc16_bit c = 0 → c = 0.
Proof.
  intros Hc. rewrite crc16_bit_alt. intros H0.
  apply (f_equal (λ z, Z.testbit z 0)) in H0 as Hb.
  rewrite Z.lxor_spec, wrap_testbit, Z.shiftl_spec_low in Hb by lia.
  destruct (Z.testbit c 15) eqn:E; [done|].
  rewrite Z.lxor_0_r in H0. unfold wrap in H0. rewrite Z.shiftl_mul_pow2 in H0 by lia.
  assert (in_w 15 c) as Hc15.
  { apply in_w_bits; [lia|unfold in_w in Hc; lia|]. intros i Hi.
    destruct (Z.eq_dec i 15) as [->|]; [done|]. apply (in_w_testbit_high 16); [done|lia]. }
  unfold in_w in Hc15. rewrite Z.mod_small in H0; lia.
Qed.

Definition crc16_shift (n : nat) (c : Z) : Z := Nat.iter n crc16_bit c.

Lemma crc16_shift_lxor n a b :
  crc16_shift n (Z.lxor a b) = Z.lxor (crc16_shift n a) (crc16_shift n b).
Proof. apply iter_lxor, crc16_bit_lxor. Qed.

Lemma crc16_shift_add n m c : crc16_shift n (crc16_shift m c) = crc16_shift (n + m) c.
Proof. unfold crc16_shift. by rewrite Nat.iter_add. Qed.

Lemma crc16_shift_inj n a b :
  is_u16 a → is_u16 b → crc16_shift n a = crc16_shift n b → a = b.
Proof.
  apply iter_inj; [lia|apply crc16_bit_lxor|intros; apply crc16_bit_u16|apply crc16_bit_zero].
Qed.

Lemma crc16_byte_alt c b :
  is_u16 c → is_u8 b → crc16_byte c b = crc16_shift 8 (Z.lxor c (Z.shiftl b 8)).
Proof.
  intros Hc Hb. unfold crc16_byte, crc16_shift. rewrite wrap_id; [done|].
  apply lxor_in_w; [lia|done|]. unfold in_w in *. rewrite Z.shiftl_mul_pow2; lia.
Qed.

(** Eight shifts of a byte move it to the top half of the register. *)
Lemma crc16_shift_low b : is_u8 b → crc16_shift 8 b = Z.shiftl b 8.
Proof.
  intros Hb.
  assert (forallb (λ n, crc16_shift 8 (Z.of_nat n) =? Z.shiftl (Z.of_nat n) 8) (seq 0 256) = true)
    as Hall by (by vm_compute).
  rewrite forallb_forall in Hall. specialize (Hall (Z.to_nat b)).
  unfold in_w in Hb. rewrite Z2Nat.id in Hall by lia. apply Z.eqb_eq, Hall.
  apply in_seq. lia.
Qed.

(** Two bytes enter the register as one 16-bit word. *)
Lemma crc16_two_bytes c b0 b1 :
  is_u16 c → is_u8 b0 → is_u8 b1 →
  crc16_byte (crc16_byte c b0) b1 = crc16_shift 16 (Z.lxor c (Z.lor b1 (Z.shiftl b0 8))).
Proof.
  intros Hc H0 H1. rewrite !crc16_byte_alt by (done || apply crc16_byte_u16).
  rewrite <- (crc16_shift_low b1) by done. rewrite <- crc16_shift_lxor.
  rewrite crc16_shift_add, Z.lxor_assoc.
  apply (f_equal (λ x, crc16_shift 16 (Z.lxor c x))). rewrite Z.lxor_comm. apply Z.lxor_lor.
  rewrite Z.land_comm. apply Z.bits_inj. intros i. rewrite Z.land_spec, Z.bits_0.
  destruct (Z.lt_ge_cases i 8).
  - by rewrite Z.shiftl_spec_low by done.
  - rewrite (in_w_testbit_high 8 b1 i), andb_false_r by (done || lia). done.
Qed.

Lemma crc16_foldl_inj s c c' :
  Forall is_u8 s → is_u16 c → is_u16 c' →
  foldl crc16_byte c s = foldl crc16_byte c' s → c = c'.
Proof.
  intros Hs. revert c c'. induction Hs as [|b s Hb Hs IH]; intros c c' Hc Hc'; simpl; [done|].
  intros Heq. apply IH in Heq; [|apply crc16_byte_u16..].
  rewrite !crc16_byte_alt in Heq by done.
  assert (is_u16 (Z.shiftl b 8)) by (unfold in_w in *; rewrite Z.shiftl_mul_pow2; lia).
  apply crc16_shift_inj in Heq; [|by apply lxor_in_w..].
  by apply lxor_cancel_r in Heq.
Qed.

(** Two messages that differ in at most two adjacent bytes have different
    checksums. *)
Lemma crc16_burst p s a0 a1 b0 b1 :
  Forall is_u8 s → is_u8 a0 → is_u8 a1 → is_u8 b0 → is_u8 b1 →
  foldl crc16_byte 0xffff (p ++ a0 :: a1 :: s) = foldl crc16_byte 0xffff (p ++ b0 :: b1 :: s) →
  a0 = b0 ∧ a1 = b1.
Proof.
  intros Hs Ha0 Ha1 Hb0 Hb1. rewrite !foldl_app. simpl.
  set (c := foldl crc16_byte 65535 p).
  assert (is_u16 c) as Hc by (apply crc16_foldl_u16; unfold in_w; lia).
  intros Heq. apply crc16_foldl_inj in Heq; [|done|apply crc16_byte_u16..].
  rewrite !crc16_two_bytes in Heq by done.
  assert (∀ x y, is_u8 x → is_u8 y → is_u16 (Z.lor x (Z.shiftl y 8))) as Hor by apply le16_u16.
  apply crc16_shift_inj in Heq; [|apply lxor_in_w; auto with lia..].
  assert (le16 a1 a0 = le16 b1 b0) as Hle by (by apply lxor_cancel_l in Heq).
  split.
  - by rewrite <- (hi8_le16 a1 a0), <- (hi8_le16 b1 b0), Hle.
  - by rewrite <- (lo8_le16 a1 a0), <- (lo8_le16 b1 b0), Hle.
Qed.

(** ** What decode does on other inputs *)

(** A body whose stored checksum does not match is refused. *)
Lemma link_frame_decode_bad_crc b g0 g1 r n len g :
  0 <= len <= LINK_MAX_PAYLOAD → blen b = LINK_HEADER_LEN + len →
  b !! 7%nat = Some (lo8 len) → b !! 8%nat = Some (hi8 len) →
  foldl crc16_byte 0xffff b ≠ le16 g0 g1 → blen b + 2 <= n →
  link_frame_decode (Some (b ++ g0 :: g1 :: r)) n (Some g) = Some (-1, Some g).
Proof.
  intros Hlen Hb H7 H8 Hcrc Hn. unfold link_frame_decode.
  link_consts. zbool.
  assert (∀ i x, b !! Z.to_nat i = Some x → 0 <= i → rd (b ++ g0 :: g1 :: r) i = Some x) as Hrd.
  { intros i x Hx Hi. unfold rd. zbool. by apply lookup_app_l_Some. }
  destruct (lookup_lt_is_Some_2 b 0%nat) as [b0 Hb0]; [unfold blen in Hb; lia|].
  destruct (lookup_lt_is_Some_2 b 1%nat) as [b1 Hb1]; [unfold blen in Hb; lia|].
  rewrite (Hrd 0 b0), (Hrd 1 b1), (Hrd 7 _ H7), (Hrd 8 _ H8) by (done || lia).
  cbn [mbind option_bind].
  destruct (negb (b0 =? _)); [done|]. destruct (negb (b1 =? _)); [done|].
  rewrite le16_split by (unfold in_w; lia). zbool. cbn [orb].
  rewrite <- Hb, link_crc16_prefix, rd_app_l. cbn [mbind option_bind].
  rewrite (cons_middle g0), (app_assoc b).
  replace (blen b + 1) with (blen (b ++ [g0])) by (by rewrite blen_app).
  rewrite rd_app_l. cbn [mbind option_bind]. by zbool.
Qed.

(** On any byte buffer decode stays inside the [n] bytes it was given, and what
    it accepts is a well-formed frame of the reported size. *)
Definition decode_post (n : Z) (g : link_frame_t) (res : Z * option link_frame_t) : Prop :=
  res = (-1, Some g) ∨
  ∃ f, res = (LINK_HEADER_LEN + lf_length f + 2, Some f) ∧ frame_wf f ∧
       LINK_HEADER_LEN + lf_length f + 2 <= n.

Lemma rd_u8 b i : Forall is_u8 b → 0 <= i < blen b → ∃ x, rd b i = Some x ∧ is_u8 x.
Proof.
  intros Hb Hi. destruct (rd_ok b i Hi) as [x Hx]. exists x. split; [done|].
  unfold rd in Hx. destruct (0 <=? i); [|done]. by eapply Forall_lookup_1.
Qed.

Lemma decode_payload_ok b len :
  Forall is_u8 b → 0 <= len <= LINK_MAX_PAYLOAD → LINK_HEADER_LEN + len <= blen b →
  ∃ p, (if 0 <? len then p ← rd_bytes b LINK_HEADER_LEN len; wr_bytes (zeros LINK_MAX_PAYLOAD) 0 p
        else Some (zeros LINK_MAX_PAYLOAD)) = Some p ∧
       blen p = LINK_MAX_PAYLOAD ∧ Forall is_u8 p.
Proof.
  intros Hb Hlen Hn. destruct (0 <? len).
  2:{ eexists. split; [done|]. split; [by apply blen_zeros|apply Forall_zeros]. }
  unfold LINK_HEADER_LEN in *. rewrite rd_bytes_ok by lia. cbn [mbind option_bind].
  set (s := take _ (drop _ b)).
  assert (blen s = len) as Hs by (unfold s; rewrite blen_take; [done|]; rewrite blen_drop; lia).
  destruct (wr_bytes (zeros LINK_MAX_PAYLOAD) 0 s) as [p|] eqn:E.
  - exists p. split; [done|]. split.
    + apply wr_bytes_length in E. unfold blen. by rewrite E.
    + revert E. rewrite wr_bytes_ok by (unfold LINK_MAX_PAYLOAD in *; rewrite ?blen_zeros; lia).
      intros [= <-]. apply Forall_app. split.
      * by apply Forall_take, Forall_drop.
      * apply Forall_drop, Forall_zeros.
  - rewrite wr_bytes_ok in E by (unfold LINK_MAX_PAYLOAD in *; rewrite ?blen_zeros; lia). done.
Qed.

(** Name the byte at a literal index, given that all of them can be read. *)
Ltac read_byte H k x := destruct (H k) as (x & -> & ?); [lia|].

Lemma link_frame_decode_safe b n g :
  Forall is_u8 b → n <= blen b →
  ∃ res, link_frame_decode (Some b) n (Some g) = Some res ∧ decode_post n g res.
Proof.
  intros Hb Hn. unfold link_frame_decode.
  destruct (n <? _) eqn:En; [eexists; split; [done|by left]|]. bool_hyps.
  assert (∀ i, 0 <= i < 11 → ∃ x, rd b i = Some x ∧ is_u8 x) as Hrd.
  { intros. apply rd_u8; [done|]. link_consts. lia. }
  read_byte Hrd 0 b0. read_byte Hrd 1 b1. read_byte Hrd 2 b2. read_byte Hrd 3 b3.
  read_byte Hrd 4 b4. read_byte Hrd 5 b5. read_byte Hrd 6 b6. read_byte Hrd 7 b7.
  read_byte Hrd 8 b8. clear Hrd.
  cbn [mbind option_bind].
  destruct (negb (b0 =? _)); [eexists; split; [done|by left]|].
  destruct (negb (b1 =? _)); [eexists; split; [done|by left]|].
  destruct (_ || _) eqn:El; [eexists; split; [done|by left]|]. bool_hyps.
  set (len := le16 b7 b8) in *.
  assert (is_u16 len) as Hlen by (by apply le16_u16). unfold in_w in Hlen.
  rewrite link_crc16_ok by (link_consts; lia). cbn [mbind option_bind].
  destruct (rd_u8 b (LINK_HEADER_LEN + len)) as (g0 & -> & ?); [done|link_consts; lia|].
  destruct (rd_u8 b (LINK_HEADER_LEN + len + 1)) as (g1 & -> & ?); [done|link_consts; lia|].
  cbn [mbind option_bind]. destruct (negb _); [eexists; split; [done|by left]|].
  destruct (decode_payload_ok b len) as (p & -> & Hp1 & Hp2); [done|lia|link_consts; lia|].
  cbn [mbind option_bind]. eexists. split; [done|]. right.
  eexists (mk_frame b2 b3 b4 (le16 b5 b6) len p). split; [done|]. split; [|simpl; lia].
  repeat split; try done; unfold in_w in *; simpl; try lia; apply le16_u16; done.
Qed.

(** Decode looks only at the first [n] bytes. *)
Lemma rd_app_lt {A} (b r : list A) i : 0 <= i < blen b → rd (b ++ r) i = rd b i.
Proof. intros Hi. unfold rd. zbool. apply lookup_app_l. unfold blen in Hi. lia. Qed.

Lemma rd_bytes_app_lt {A} (b r : list A) off n :
  0 <= off → 0 <= n → off + n <= blen b → rd_bytes (b ++ r) off n = rd_bytes b off n.
Proof.
  intros. pose proof (blen_nonneg r).
  rewrite !rd_bytes_ok by (rewrite ?blen_app; lia). f_equal.
  rewrite drop_app_le by (unfold blen in *; lia).
  apply take_app_le. rewrite length_drop. unfold blen in *. lia.
Qed.

Lemma link_frame_decode_prefix b r n g :
  Forall is_u8 b → n <= blen b →
  link_frame_decode (Some (b ++ r)) n (Some g) = link_frame_decode (Some b) n (Some g).
Proof.
  intros Hb Hn. unfold link_frame_decode. destruct (n <? _) eqn:En; [done|]. bool_hyps.
  assert (11 <= n) as H11 by (link_consts; lia).
  rewrite !(rd_app_lt b r 0), !(rd_app_lt b r 1), !(rd_app_lt b r 2), !(rd_app_lt b r 3),
    !(rd_app_lt b r 4), !(rd_app_lt b r 5), !(rd_app_lt b r 6), !(rd_app_lt b r 7),
    !(rd_app_lt b r 8) by lia.
  assert (∀ i, 0 <= i < 11 → ∃ x, rd b i = Some x ∧ is_u8 x) as Hrd.
  { intros. apply rd_u8; [done|lia]. }
  read_byte Hrd 0 b0. read_byte Hrd 1 b1. read_byte Hrd 7 b7. read_byte Hrd 8 b8.
  cbn [mbind option_bind]. destruct (negb _); [done|]. destruct (negb _); [done|].
  destruct (_ || _) eqn:El; [done|]. bool_hyps.
  assert (is_u16 (le16 b7 b8)) as Hlen by (by apply le16_u16). unfold in_w in Hlen.
  unfold link_crc16. rewrite !rd_bytes_app_lt, !rd_app_lt by (link_consts; lia). done.
Qed.

(** ** Payload fields *)

(** Reference view of a payload: a sequence of tagged values. *)
Definition tlv_field (e : Z * list Z) : list Z := e.1 :: blen e.2 :: e.2.
Definition tlv_bytes (es : list (Z * list Z)) : list Z := concat (tlv_field <$> es).

Fixpoint tlv_lookup (tag : Z) (es : list (Z * list Z)) : option (list Z) :=
  match es with
  | [] => None
  | (t, v) :: es => if t =? tag then Some v else tlv_lookup tag es
  end.

(** The first [used] bytes of [b] are the fields [es]. *)
Definition tlv_holds (b : list Z) (used : Z) (es : list (Z * list Z)) : Prop :=
  take (Z.to_nat used) b = tlv_bytes es ∧ 0 <= used <= blen b.

Lemma tlv_bytes_app es es' : tlv_bytes (es ++ es') = tlv_bytes es ++ tlv_bytes es'.
Proof. unfold tlv_bytes. by rewrite fmap_app, concat_app. Qed.

Lemma tlv_holds_nil b : tlv_holds b 0 [].
Proof. split; [done|]. pose proof (blen_nonneg b). lia. Qed.

Lemma tlv_holds_split b used es :
  tlv_holds b used es → b = tlv_bytes es ++ drop (Z.to_nat used) b ∧ blen (tlv_bytes es) = used.
Proof.
  intros [E Hu]. rewrite <- E. split; [by rewrite take_drop|]. by apply blen_take.
Qed.

Section TlvFacts.
Context `{Arch}.

Lemma link_tlv_put_ok b cap used es tag v :
  tlv_holds b used es → blen v < 256 → used + 2 + blen v <= cap → cap <= blen b →
  cap < 2 ^ 32 →
  ∃ b', link_tlv_put (Some b) cap (Some used) tag (Some v) (blen v) =
          Some (0, Some b', Some (used + 2 + blen v)) ∧
        tlv_holds b' (used + 2 + blen v) (es ++ [(tag, v)]) ∧ length b' = length b.
Proof.
  intros Hes Hv Hcap Hb H32. pose proof Hes as [_ Hu]. pose proof (blen_nonneg v).
  destruct (tlv_holds_split _ _ _ Hes) as [Eb El]. set (r := drop (Z.to_nat used) b) in *.
  assert (blen r = blen b - used) as Hr by (apply blen_drop; lia).
  unfold link_tlv_put. rewrite usz_id by lia. zbool.
  clearbody r. subst b. rewrite <- El in *.
  destruct r as [|x [|y r]]; [unfold blen in Hr at 1; simpl in Hr; lia..|].
  autorewrite with blen in *.
  rewrite wr_app_l. cbn [mbind option_bind].
  rewrite (cons_middle tag), (app_assoc (tlv_bytes es)).
  replace (blen (tlv_bytes es) + 1) with (blen (tlv_bytes es ++ [tag])) by (by rewrite blen_app).
  rewrite wr_app_l. cbn [mbind option_bind]. rewrite <- app_assoc. cbn [app].
  rewrite copy_if_ok by (autorewrite with blen; lia). cbn [mbind option_bind].
  eexists. split; [done|].
  assert (tlv_bytes es ++ tag :: blen v :: r = (tlv_bytes es ++ [tag; blen v]) ++ r) as ->
    by (by rewrite <- app_assoc).
  assert (Z.to_nat (blen (tlv_bytes es) + 2) = length (tlv_bytes es ++ [tag; blen v])) as ->
    by (rewrite length_app; unfold blen; simpl; lia).
  rewrite take_app_length, drop_app_add.
  rewrite (take_ge v) by (unfold blen; lia). split; [split|].
  - rewrite app_assoc. unfold blen at 1 2.
    assert (Z.to_nat (Z.of_nat (length (tlv_bytes es)) + 2 + Z.of_nat (length v)) =
            length ((tlv_bytes es ++ [tag; blen v]) ++ v)) as ->.
    { rewrite !length_app. simpl. lia. }
    rewrite take_app_length, tlv_bytes_app, <- app_assoc. f_equal.
    unfold tlv_bytes, tlv_field. simpl. by rewrite app_nil_r.
  - autorewrite with blen. rewrite blen_drop by lia. lia.
  - rewrite !length_app, length_drop. simpl. unfold blen in *. lia.
Qed.

(** A field that does not fit leaves the payload alone. *)
Lemma link_tlv_put_full b cap used tag v :
  0 <= used <= cap → cap < 2 ^ 31 → 0 <= blen v < 256 → cap < used + 2 + blen v →
  link_tlv_put (Some b) cap (Some used) tag (Some v) (blen v) = Some (-1, Some b, Some used).
Proof. intros. unfold link_tlv_put. rewrite usz_id by lia. by zbool. Qed.

(** Reading one field of [es] at position [i]. *)
Lemma tlv_get_loop_ok es p b n tag out cap ol fuel :
  take (Z.to_nat n) b = p ++ tlv_bytes es → 0 <= n <= blen b → n < 2 ^ 31 →
  Forall (λ e, blen e.2 < 256) es → (length es < fuel)%nat →
  tlv_get_loop fuel b n tag (Some out) cap ol (blen p) =
    match tlv_lookup tag es with
    | None => Some (-1, Some out, ol)
    | Some v => if cap <? blen v then Some (-1, Some out, ol)
                else if 0 <? blen v then o ← wr_bytes out 0 v; Some (0, Some o, blen v)
                else Some (0, Some out, blen v)
    end.
Proof.
  revert p fuel. induction es as [|[t v] es IH]; intros p fuel Hb Hn H31 Hes Hf;
    (destruct fuel as [|fuel]; [simpl in Hf; lia|]); simpl.
  all: assert (blen (take (Z.to_nat n) b) = n) as Hlen by (apply blen_take; lia).
  all: rewrite Hb in Hlen; autorewrite with blen in Hlen; pose proof (blen_nonneg p).
  - change (blen (tlv_bytes [])) with 0 in Hlen. rewrite usz_id by lia. by zbool.
  - apply Forall_cons_1 in Hes as [Hv Hes]. simpl in Hv.
    assert (tlv_bytes ((t, v) :: es) = t :: blen v :: v ++ tlv_bytes es) as E by done.
    rewrite E in *. autorewrite with blen in Hlen. pose proof (blen_nonneg v).
    pose proof (blen_nonneg (tlv_bytes es)).
    assert (b = p ++ t :: blen v :: v ++ tlv_bytes es ++ drop (Z.to_nat n) b) as Eb.
    { rewrite <- (take_drop (Z.to_nat n) b) at 1. rewrite Hb, <- app_assoc. simpl. by rewrite <- app_assoc. }
    set (r := tlv_bytes es ++ drop (Z.to_nat n) b) in *.
    rewrite !usz_id by lia. zbool.
    assert (rd b (blen p) = Some t) as -> by (rewrite Eb; apply rd_app_l).
    assert (rd b (blen p + 1) = Some (blen v)) as ->.
    { rewrite Eb. replace (blen p + 1) with (blen (p ++ [t])) by (by rewrite blen_app).
      rewrite (cons_middle t), app_assoc. apply rd_app_l. }
    cbn [mbind option_bind]. rewrite !usz_id by lia. zbool.
    assert (rd_bytes b (blen p + 2) (blen v) = Some v) as Hrdv.
    { rewrite Eb. replace (blen p + 2) with (blen (p ++ [t; blen v])) by (by rewrite blen_app).
      replace (p ++ t :: blen v :: v ++ r) with ((p ++ [t; blen v]) ++ v ++ r) by (by rewrite <- app_assoc).
      apply rd_bytes_app. }
    rewrite Hrdv. destruct (t =? tag); [done|].
    replace (blen p + 2 + blen v) with (blen (p ++ t :: blen v :: v)) by (autorewrite with blen; lia).
    apply IH; [|done..|simpl in Hf; lia]. rewrite Hb, <- app_assoc. done.
Qed.

Lemma tlv_bytes_length es : (2 * length es <= length (tlv_bytes es))%nat.
Proof.
  induction es as [|[t v] es IH]; [done|].
  change (tlv_bytes ((t, v) :: es)) with (t :: blen v :: v ++ tlv_bytes es).
  simpl. rewrite length_app. lia.
Qed.

(** What a reader gets for [tag]: the first field with it, if it fits in [cap]. *)
Definition tlv_answer (tag : Z) (es : list (Z * list Z)) (out : list Z) (cap ol : Z)
    : option (Z * option (list Z) * option Z) :=
  match tlv_lookup tag es with
  | Some v => if cap <? blen v then Some (-1, Some out, Some ol)
              else Some (0, Some (v ++ drop (length v) out), Some (blen v))
  | None => Some (-1, Some out, Some ol)
  end.

Lemma link_tlv_get_ok b n es tag out cap ol :
  tlv_holds b n es → n < 2 ^ 31 → Forall (λ e, blen e.2 < 256) es → cap <= blen out →
  link_tlv_get (Some b) n tag (Some out) cap (Some ol) = tlv_answer tag es out cap ol.
Proof.
  intros [Hb Hn] H31 Hes Hcap. unfold link_tlv_get, tlv_answer.
  rewrite (tlv_get_loop_ok es []) by (try done; pose proof (tlv_bytes_length es);
    rewrite <- Hb, length_take in *; lia).
  destruct (tlv_lookup tag es) as [v|]; [|done].
  destruct (cap <? blen v) eqn:E; [done|]. bool_hyps.
  destruct (0 <? blen v) eqn:E0; bool_hyps; cbn [mbind option_bind].
  - by rewrite wr_bytes_ok by lia.
  - pose proof (blen_nonneg v). destruct v; [done|]. unfold blen in *. simpl in *. lia.
Qed.

(** On any payload the reader stays inside it and terminates. *)
Lemma tlv_get_loop_safe b n tag out cap ol fuel i :
  Forall is_u8 b → 0 <= n <= blen b → n < 2 ^ 31 → cap <= blen out → 0 <= i <= n →
  (Z.to_nat (n - i) < fuel)%nat →
  ∃ rc o l, tlv_get_loop fuel b n tag (Some out) cap ol i = Some (rc, Some o, l) ∧
            ((rc = -1 ∧ o = out ∧ l = ol) ∨
             (rc = 0 ∧ length o = length out ∧ 0 <= l <= cap)).
Proof.
  intros Hb Hn H31 Hcap. revert i. induction fuel as [|fuel IH]; intros i Hi Hf; [lia|]. simpl.
  rewrite (usz_id (i + 2)) by lia.
  destruct (i + 2 <=? n) eqn:E; bool_hyps; [|by exists (-1), out, ol; auto].
  destruct (rd_u8 b i) as (t & -> & Ht); [done|lia|].
  destruct (rd_u8 b (i + 1)) as (len & -> & Hl); [done|lia|]. cbn [mbind option_bind].
  unfold in_w in Hl. rewrite !usz_id by lia.
  destruct (n <? i + 2 + len) eqn:E2; bool_hyps; [by exists (-1), out, ol; auto|].
  destruct (t =? tag); [|apply IH; lia].
  destruct (cap <? len) eqn:E3; bool_hyps; [by exists (-1), out, ol; auto|].
  destruct (0 <? len) eqn:E4; bool_hyps; [|by exists 0, out, len; auto with lia].
  destruct (rd_bytes b (i + 2) len) as [p|] eqn:Ep; [|by rewrite rd_bytes_ok in Ep by lia].
  apply rd_bytes_length in Ep as [Hp _]. cbn [mbind option_bind].
  destruct (wr_bytes out 0 p) as [o|] eqn:Eo; [|by rewrite wr_bytes_ok in Eo by lia].
  exists 0, o, len. split; [done|]. right. apply wr_bytes_length in Eo. auto with lia.
Qed.

Lemma link_tlv_get_safe b n tag out cap ol :
  Forall is_u8 b → 0 <= n <= blen b → n < 2 ^ 31 → cap <= blen out →
  ∃ rc o l, link_tlv_get (Some b) n tag (Some out) cap (Some ol) = Some (rc, Some o, Some l) ∧
    (rc = -1 ∧ o = out ∧ l = ol ∨ rc = 0 ∧ length o = length out ∧ 0 <= l <= cap).
Proof.
  intros Hb Hn H31 Hcap. unfold link_tlv_get.
  destruct (tlv_get_loop_safe b n tag out cap ol (S (Z.to_nat n)) 0)
    as (rc & o & l & -> & Hres); [done..|lia|lia|].
  by exists rc, o, l.
Qed.

(** A field written behind [l], before zeros. *)
Lemma link_tlv_put_zeros l n cap tag v :
  blen v < 256 → 2 + blen v <= n → blen l + 2 + blen v <= cap → cap < 2 ^ 31 →
  link_tlv_put (Some (l ++ zeros n)) cap (Some (blen l)) tag (Some v) (blen v) =
    Some (0, Some ((l ++ tlv_field (tag, v)) ++ zeros (n - 2 - blen v)), Some (blen l + 2 + blen v)).
Proof.
  intros Hv Hn Hc H31. pose proof (blen_nonneg v). pose proof (blen_nonneg l). unfold link_tlv_put.
  rewrite usz_id by lia. zbool. rewrite (zeros_split n 2) by lia. rewrite (zeros_split (n - 2) (blen v)) by lia.
  change (zeros 2 ++ ?r) with (0 :: 0 :: r). rewrite wr_app_l. cbn [mbind option_bind].
  rewrite (cons_middle tag), app_assoc. replace (blen l + 1) with (blen (l ++ [tag])) by (by rewrite blen_app).
  rewrite wr_app_l. cbn [mbind option_bind]. rewrite <- app_assoc. cbn [app].
  replace (l ++ tag :: blen v :: zeros (blen v) ++ zeros (n - 2 - blen v)) with
    ((l ++ [tag; blen v]) ++ zeros (blen v) ++ zeros (n - 2 - blen v)) by (by rewrite <- app_assoc).
  assert (blen l + 2 = blen (l ++ [tag; blen v])) as E by by rewrite blen_app.
  assert ((if 0 <? blen v then p ← rd_bytes v 0 (blen v);
             wr_bytes ((l ++ [tag; blen v]) ++ zeros (blen v) ++ zeros (n - 2 - blen v)) (blen l + 2) p
           else Some ((l ++ [tag; blen v]) ++ zeros (blen v) ++ zeros (n - 2 - blen v))) =
          Some ((l ++ tlv_field (tag, v)) ++ zeros (n - 2 - blen v))) as ->; [|done].
  unfold tlv_field. cbn [fst snd].
  replace ((l ++ tag :: blen v :: v) ++ zeros (n - 2 - blen v)) with
    ((l ++ [tag; blen v]) ++ v ++ zeros (n - 2 - blen v)) by (by rewrite <- !app_assoc).
  destruct (0 <? blen v) eqn:E0; bool_hyps.
  - rewrite rd_bytes_all by done. cbn [mbind option_bind]. rewrite E. apply wr_bytes_app.
    unfold zeros, blen. rewrite length_replicate. lia.
  - assert (v = []) as -> by (destruct v; [done|rewrite blen_cons in *; pose proof (blen_nonneg v); lia]).
    done.
Qed.

(** Writing a list of fields one after the other. *)
Fixpoint tlv_put_all (es : list (Z * list Z)) (b : list Z) (cap used : Z)
    : option (Z * option (list Z) * option Z) :=
  match es with
  | [] => Some (0, Some b, Some used)
  | (tag, v) :: es =>
      r ← link_tlv_put (Some b) cap (Some used) tag (Some v) (blen v);
      match r with
      | (0, Some b, Some used) => tlv_put_all es b cap used
      | r => Some r
      end
  end.

Lemma tlv_put_all_ok es b cap used es0 :
  tlv_holds b used es0 → Forall (λ e, blen e.2 < 256) es →
  used + blen (tlv_bytes es) <= cap → cap <= blen b → cap < 2 ^ 32 →
  ∃ b', tlv_put_all es b cap used = Some (0, Some b', Some (used + blen (tlv_bytes es))) ∧
        tlv_holds b' (used + blen (tlv_bytes es)) (es0 ++ es).
Proof.
  revert b used es0. induction es as [|[t v] es IH]; intros b used es0 Hh Hes Hcap Hb H32.
  - exists b. rewrite app_nil_r. change (blen (tlv_bytes [])) with 0. by rewrite Z.add_0_r.
  - apply Forall_cons_1 in Hes as [Hv Hes]. simpl in Hv.
    change (tlv_bytes ((t, v) :: es)) with (t :: blen v :: v ++ tlv_bytes es) in *.
    autorewrite with blen in *. pose proof (blen_nonneg v). pose proof (blen_nonneg (tlv_bytes es)).
    destruct (link_tlv_put_ok b cap used es0 t v) as (b1 & E1 & Hh1 & L1); [done|lia..|].
    cbn [tlv_put_all]. rewrite E1. cbn [mbind option_bind].
    destruct (IH b1 (used + 2 + blen v) (es0 ++ [(t, v)])) as (b2 & E2 & Hh2);
      [done|done|lia|unfold blen in *; lia|done|].
    exists b2. rewrite <- app_assoc in Hh2.
    replace (used + (1 + (1 + (blen v + blen (tlv_bytes es)))))
      with (used + 2 + blen v + blen (tlv_bytes es)) by lia. done.
Qed.
End TlvFacts.

(** ** Main theorems *)

(** C25: a frame survives the wire: encoding any well-formed frame into a buffer
    with room writes exactly its size and nothing beyond it, and decoding those
    bytes gives back version (0 is sent as 1), flags, channel, message id,
    length and payload. *)
Theorem link_frame_roundtrip f o cap g :
  frame_wf f → LINK_HEADER_LEN + lf_length f + 2 <= cap <= blen o →
  ∃ n o', link_frame_encode (Some f) (Some o) cap = Some (n, Some o') ∧
          n = LINK_HEADER_LEN + lf_length f + 2 ∧
          drop (Z.to_nat n) o' = drop (Z.to_nat n) o ∧ length o' = length o ∧
          link_frame_decode (Some o') n (Some g) = Some (n, Some (frame_received f)).
Proof.
  intros Hf Hcap. pose proof (blen_frame_bytes f Hf) as Hn.
  eexists _, _. split; [by apply link_frame_encode_ok|]. split; [done|].
  split; [|split; [|by apply link_frame_decode_ok]].
  - unfold blen. rewrite Nat2Z.id. by rewrite drop_app_length.
  - rewrite length_app, length_drop. unfold blen in *. lia.
Qed.

Definition sample_frame : link_frame_t :=
  mk_frame 1 0 1 0x0201 3 ([0x11; 0x22; 0x33] ++ zeros 237).

Lemma sample_frame_wf : frame_wf sample_frame.
Proof. apply (bool_decide_unpack _). by vm_compute. Qed.

Lemma link_frame_roundtrip_witness :
  ∃ n o', link_frame_encode (Some sample_frame) (Some (zeros 64)) 64 = Some (n, Some o') ∧
          n = LINK_HEADER_LEN + lf_length sample_frame + 2 ∧
          drop (Z.to_nat n) o' = drop (Z.to_nat n) (zeros 64) ∧ length o' = length (zeros 64) ∧
          link_frame_decode (Some o') n (Some sample_frame) =
            Some (n, Some (frame_received sample_frame)).
Proof.
  apply (link_frame_roundtrip sample_frame (zeros 64) 64 sample_frame);
    [apply sample_frame_wf|by vm_compute].
Defined.

(** Damage of one byte or of two adjacent ones changes the checksum. *)
Lemma crc16_damage p w w' s :
  Forall is_u8 w → Forall is_u8 w' → Forall is_u8 s → length w' = length w → (length w <= 2)%nat → w' ≠ w →
  foldl crc16_byte 0xffff (p ++ w' ++ s) ≠ foldl crc16_byte 0xffff (p ++ w ++ s).
Proof.
  intros Hw Hw' Hs Hl H2 Hne E.
  destruct w as [|a0 [|a1 [|]]], w' as [|b0 [|b1 [|]]]; cbn [length] in *; try lia; try done; cbn [app] in E.
  - apply Forall_cons_1 in Hw as [Ha _]. apply Forall_cons_1 in Hw' as [Hb _]. assert (is_u8 0) by (unfold in_w; lia).
    assert (b0 = a0) as ->; [|done]. destruct s as [|c s].
    + destruct (crc16_burst p [] b0 0 a0 0) as [-> _]; [done..| |done].
      change (p ++ [b0; 0]) with (p ++ [b0] ++ [0]). change (p ++ [a0; 0]) with (p ++ [a0] ++ [0]).
      rewrite !(app_assoc p), !(foldl_app _ _ [0]). by rewrite E.
    + apply Forall_cons_1 in Hs as [Hc Hs]. by destruct (crc16_burst p s b0 c a0 c) as [-> _].
  - apply Forall_cons_1 in Hw as [? [? _]%Forall_cons_1]. apply Forall_cons_1 in Hw' as [? [? _]%Forall_cons_1].
    by destruct (crc16_burst p s b0 b1 a0 a1) as [-> ->].
Qed.

(** Where a frame that ends with its checksum is cut. *)
Lemma cut_before {A} (b e p s : list A) :
  b ++ e = p ++ s → (length p <= length b)%nat → ∃ s0, b = p ++ s0 ∧ s = s0 ++ e.
Proof.
  intros E Hl. exists (drop (length p) b).
  assert (p = take (length p) b) as Ep.
  { rewrite <- (take_app_le b e) by done. rewrite E. by rewrite take_app_length. }
  split; [rewrite Ep at 1; by rewrite take_drop|]. rewrite <- (drop_app_le b e) by done. rewrite E. by rewrite drop_app_length.
Qed.

(** What the two length bytes of [d] announce. *)
Definition announced (d : list Z) : Z := le16 (default 0 (d !! 7%nat)) (default 0 (d !! 8%nat)).

(** The damage to [k] bytes from the place [i] is one that the checksum tells: not to the length,
    and not astride the end of the payload. *)
Definition checked_place (f : link_frame_t) (i k : Z) : Prop :=
  i + k <= 7 ∨ LINK_HEADER_LEN <= i ∧ (i + k <= LINK_HEADER_LEN + lf_length f ∨ LINK_HEADER_LEN + lf_length f <= i).

(** An input that announces more than there is, or than a frame holds, is refused. *)
Lemma link_frame_decode_too_long d n g :
  LINK_HEADER_LEN + 2 <= n → LINK_HEADER_LEN <= blen d →
  LINK_MAX_PAYLOAD < announced d ∨ n < LINK_HEADER_LEN + announced d + 2 →
  link_frame_decode (Some d) n (Some g) = Some (-1, Some g).
Proof.
  intros Hn Hd Hlong. unfold link_frame_decode, announced in *. link_consts. zbool.
  assert (∀ i, 0 <= i < 9 → ∃ x, d !! Z.to_nat i = Some x ∧ rd d i = Some x) as Hrd.
  { intros i Hi. destruct (lookup_lt_is_Some_2 d (Z.to_nat i)) as [x Ex]; [unfold blen in Hd; lia|].
    exists x. split; [done|]. unfold rd. by zbool. }
  destruct (Hrd 0) as (b0 & _ & ->); [lia|]. destruct (Hrd 1) as (b1 & _ & ->); [lia|].
  destruct (Hrd 7) as (b7 & E7 & ->); [lia|]. destruct (Hrd 8) as (b8 & E8 & ->); [lia|].
  change (Z.to_nat 7) with 7%nat in E7. change (Z.to_nat 8) with 8%nat in E8.
  rewrite E7, E8 in Hlong. cbn [default from_option id mbind option_bind] in *. unfold id in Hlong.
  destruct (negb _); [done|]. destruct (negb _); [done|].
  destruct (Z.ltb_spec 240 (le16 b7 b8)); cbn [orb]; [done|].
  destruct (Z.ltb_spec n (9 + le16 b7 b8 + 2)); [done|lia].
Qed.

(** C26: the receiver rejects every frame of which one byte, or two adjacent ones, arrived
    changed, whatever the new bytes are and whatever follows the frame, when they are bytes of the
    magic, version, flags, channel or message id, of the payload, or of the checksum, and do not
    lie astride the end of the payload; and when they are bytes of the length that announce more
    than the 240 bytes of a frame or than arrived.  A length that announces less, and two bytes
    astride the end of the payload, can pass: Examples [shorter_length_passes] and
    [astride_passes]. *)
Theorem link_frame_detects_burst f p w w' s r n g :
  frame_wf f → frame_bytes f = p ++ w ++ s →
  length w' = length w → (length w <= 2)%nat → Forall is_u8 w' → w' ≠ w → blen (frame_bytes f) <= n →
  (checked_place f (blen p) (blen w) ∨
   LINK_MAX_PAYLOAD < announced (p ++ w' ++ s) ∨ n < LINK_HEADER_LEN + announced (p ++ w' ++ s) + 2) →
  link_frame_decode (Some (p ++ w' ++ s ++ r)) n (Some g) = Some (-1, Some g).
Proof.
  intros Hf Hbytes Hl H2 Hu Hne Hn Hplace. pose proof (blen_frame_body f Hf) as Hlen.
  pose proof (blen_frame_bytes f Hf) as Hlen2. pose proof (frame_body_u8 f Hf) as Hub.
  destruct (Hf) as (_&_&_&_&Hl0&_).
  destruct Hplace as [Hplace|Hlong].
  2:{ assert (LINK_HEADER_LEN + 2 <= blen (p ++ w' ++ s)) as Hd.
      { rewrite Hbytes in Hlen2. unfold blen in *. rewrite !length_app in *. link_consts. lia. }
      replace (p ++ w' ++ s ++ r) with ((p ++ w' ++ s) ++ r) by by rewrite <- !app_assoc.
      apply link_frame_decode_too_long; [lia|unfold blen in *; rewrite length_app; lia|].
      unfold announced in *. link_consts. unfold blen in Hd.
      by rewrite !(lookup_app_l (p ++ w' ++ s)) by lia. }
  assert (∀ i x, (i = 7 ∨ i = 8)%nat → blen p + blen w <= 7 ∨ LINK_HEADER_LEN <= blen p →
    (p ++ w ++ s) !! i = Some x → (p ++ w' ++ s) !! i = Some x) as Hkeep.
  { intros i x Hi Hp E. link_consts. unfold blen in Hp. destruct (decide (i < length p)%nat).
    - by rewrite lookup_app_l in E |- * by done.
    - rewrite lookup_app_r in E |- * by lia. rewrite lookup_app_r in E |- * by lia. by rewrite Hl. }
  assert (∀ i x, (i = 7 ∨ i = 8)%nat → frame_body f !! i = Some x → (p ++ w ++ s) !! i = Some x) as Hin.
  { intros i x Hi E. rewrite <- Hbytes. unfold frame_bytes. by apply lookup_app_l_Some. }
  assert (blen (frame_body f) = blen p + blen w + blen s - 2) as Hsum.
  { rewrite Hbytes in Hlen2. unfold blen in *. rewrite !length_app in Hlen2. lia. }
  assert (frame_body f !! 7%nat = Some (lo8 (lf_length f)) ∧ frame_body f !! 8%nat = Some (hi8 (lf_length f))) as [F7 F8] by done.
  destruct (Z.le_gt_cases (blen p + blen w) (blen (frame_body f))) as [Hin_body|Hafter].
  - destruct (cut_before (frame_body f) [lo8 (frame_crc f); hi8 (frame_crc f)] (p ++ w) s) as (s0 & Eb & ->).
    { by rewrite <- app_assoc. } { unfold blen in Hin_body. rewrite length_app. lia. }
    rewrite <- app_assoc in Eb.
    assert (blen p + blen w <= 7 ∨ LINK_HEADER_LEN <= blen p) as Hp by (destruct Hplace as [?|[? _]]; [by left|by right]).
    assert (∀ i x, (i = 7 ∨ i = 8)%nat → frame_body f !! i = Some x → (p ++ w' ++ s0) !! i = Some x) as Hk.
    { intros i x Hi E. pose proof (Hkeep i x Hi Hp (Hin i x Hi E)) as E2.
      apply lookup_lt_Some in E as Hi2. rewrite Eb, !length_app in Hi2.
      rewrite !app_assoc in E2. rewrite lookup_app_l in E2 by (rewrite !length_app; lia). by rewrite app_assoc. }
    replace (p ++ w' ++ (s0 ++ [lo8 (frame_crc f); hi8 (frame_crc f)]) ++ r)
      with ((p ++ w' ++ s0) ++ lo8 (frame_crc f) :: hi8 (frame_crc f) :: r) by by rewrite <- !app_assoc.
    assert (blen (p ++ w' ++ s0) = blen (frame_body f)) as Hlen3.
    { rewrite Eb. unfold blen. rewrite !length_app. lia. }
    apply (link_frame_decode_bad_crc _ _ _ _ _ (lf_length f));
      [done|lia|by apply Hk; [lia|]|by apply Hk; [lia|]| |lia].
    rewrite le16_split by apply frame_crc_u16. unfold frame_crc. rewrite Eb in Hub |- *.
    apply Forall_app in Hub as [_ [? ?]%Forall_app]. by apply crc16_damage.
  - assert (LINK_HEADER_LEN + lf_length f <= blen p) as Hp by (destruct Hplace as [?|[? [?|?]]]; link_consts; lia).
    destruct (cut_before p (w ++ s) (frame_body f) [lo8 (frame_crc f); hi8 (frame_crc f)]) as (p0 & -> & Ecrc).
    { by rewrite <- Hbytes. } { unfold blen in *. lia. }
    assert (∃ g0 g1, p0 ++ w' ++ s = [g0; g1] ∧ is_u8 g0 ∧ is_u8 g1 ∧ (g0, g1) ≠ (lo8 (frame_crc f), hi8 (frame_crc f)))
      as (g0 & g1 & Eg & Hg0 & Hg1 & Hgne).
    { pose proof (f_equal length Ecrc) as El. rewrite !length_app in El. cbn [length] in El.
      assert (Forall is_u8 (p0 ++ w ++ s)) as Hall.
      { rewrite <- Ecrc. pose proof (lo8_u8 (frame_crc f)). pose proof (hi8_u8 (frame_crc f)).
        apply Forall_cons_2; [done|]. apply Forall_cons_2; [done|]. apply Forall_nil_2. }
      apply Forall_app in Hall as [? [? ?]%Forall_app].
      assert (Forall is_u8 (p0 ++ w' ++ s)) as Hall' by by repeat apply Forall_app_2.
      assert (p0 ++ w' ++ s ≠ p0 ++ w ++ s) as Hdiff.
      { intros E. apply app_inv_head in E. apply app_inv_tail in E. done. }
      rewrite <- Ecrc in Hdiff. assert (length (p0 ++ w' ++ s) = 2%nat) as El' by (rewrite !length_app; lia).
      destruct (p0 ++ w' ++ s) as [|g0 [|g1 [|]]]; try done. exists g0, g1.
      apply Forall_cons_1 in Hall' as [? [? _]%Forall_cons_1]. split_and!; [done..|]. by intros [= -> ->]. }
    replace ((frame_body f ++ p0) ++ w' ++ s ++ r) with (frame_body f ++ g0 :: g1 :: r).
    2:{ change (g0 :: g1 :: r) with ([g0; g1] ++ r). rewrite <- Eg. by rewrite <- !app_assoc. }
    apply (link_frame_decode_bad_crc _ _ _ _ _ (lf_length f)); [done|lia|done|done| |].
    + change (foldl crc16_byte 0xffff (frame_body f)) with (frame_crc f). intros E. apply Hgne.
      rewrite E. by rewrite lo8_le16, hi8_le16.
    + link_consts. lia.
Qed.

Lemma link_frame_detects_burst_witness :
  link_frame_decode
    (Some ((frame_header sample_frame ++ [0x11]) ++ [0; 0] ++
           [lo8 (frame_crc sample_frame); hi8 (frame_crc sample_frame)] ++ [7])) 15 (Some sample_frame)
  = Some (-1, Some sample_frame) ∧
  link_frame_decode (Some (take 7 (frame_bytes sample_frame) ++ [4] ++ drop 8 (frame_bytes sample_frame) ++ []))
    14 (Some sample_frame) = Some (-1, Some sample_frame).
Proof.
  split.
  - apply (link_frame_detects_burst sample_frame (frame_header sample_frame ++ [0x11]) [0x22; 0x33] [0; 0]);
      [apply sample_frame_wf|vm_compute; reflexivity|reflexivity|cbn; lia|vm_decide|discriminate
      |vm_compute; discriminate|left; right; vm_compute; split; [discriminate|left; discriminate]].
  - apply (link_frame_detects_burst sample_frame (take 7 (frame_bytes sample_frame)) [3] [4]);
      [apply sample_frame_wf|vm_compute; reflexivity|reflexivity|cbn; lia|vm_decide|discriminate
      |vm_compute; discriminate|right; right; vm_compute; reflexivity].
Defined.

(** What can pass: a payload that holds the end of a shorter frame, when the length is damaged to
    that of the shorter one; and two bytes astride the end of the payload, since the checksum is
    sent with its low byte first. *)
Definition nested_frame : link_frame_t := mk_frame 1 0 1 0x0201 3 ([17; 92; 145] ++ zeros 237).
Example shorter_length_passes :
  let b := frame_bytes nested_frame in
  option_map fst (link_frame_decode (Some (take 7 b ++ [1] ++ drop 8 b)) 14 (Some nested_frame)) = Some 12.
Proof. vm_compute. reflexivity. Qed.

Definition one_byte_frame : link_frame_t := mk_frame 1 0 1 0x0201 1 (17 :: zeros 239).
Example astride_passes :
  let b := frame_bytes one_byte_frame in
  drop 9 b = [17; 92; 145] ∧
  option_map fst (link_frame_decode (Some (take 9 b ++ [152; 253] ++ drop 11 b)) 12 (Some one_byte_frame)) = Some 12.
Proof. split; vm_compute; reflexivity. Qed.

(** the parsers are safe on hostile bytes: for every byte buffer,
    [link_frame_decode] and [link_tlv_get] terminate without reading outside the
    [n] bytes they were given or writing outside the caller's arrays; a frame
    that is accepted is well formed and no longer than the input, and a field
    that is accepted is no longer than [cap]. *)
Theorem link_parsers_safe `{Arch} b n g tag out cap ol :
  Forall is_u8 b → 0 <= n <= blen b → n < 2 ^ 31 → cap <= blen out →
  (∃ rc fr, link_frame_decode (Some b) n (Some g) = Some (rc, Some fr) ∧
     (rc = -1 ∧ fr = g ∨
      rc = LINK_HEADER_LEN + lf_length fr + 2 ∧ frame_wf fr ∧ rc <= n)) ∧
  (∃ rc o l, link_tlv_get (Some b) n tag (Some out) cap (Some ol) = Some (rc, Some o, Some l) ∧
     (rc = -1 ∧ o = out ∧ l = ol ∨ rc = 0 ∧ length o = length out ∧ 0 <= l <= cap)).
Proof.
  intros Hb Hn H31 Hcap. split.
  - destruct (link_frame_decode_safe b n g) as (res & -> & [->|(f & -> & Hf & Hle)]); [done|lia| |].
    + exists (-1), g. auto.
    + eexists _, f. split; [done|]. auto.
  - by apply link_tlv_get_safe.
Qed.

Lemma link_parsers_safe_witness :
  (∃ rc fr, link_frame_decode (Some [7; 171; 1; 0; 0; 0; 0; 255; 0; 1; 2]) 11 (Some sample_frame)
              = Some (rc, Some fr) ∧
     (rc = -1 ∧ fr = sample_frame ∨
      rc = LINK_HEADER_LEN + lf_length fr + 2 ∧ frame_wf fr ∧ rc <= 11)) ∧
  (∃ rc o l, @link_tlv_get arch32 (Some [7; 171; 1; 0; 0; 0; 0; 255; 0; 1; 2]) 11 1
               (Some [0; 0]) 2 (Some 0) = Some (rc, Some o, Some l) ∧
     (rc = -1 ∧ o = [0; 0] ∧ l = 0 ∨ rc = 0 ∧ length o = 2%nat ∧ 0 <= l <= 2)).
Proof.
  apply (@link_parsers_safe arch32 [7; 171; 1; 0; 0; 0; 0; 255; 0; 1; 2] 11 sample_frame 1
           [0; 0] 2 0);
    [apply (bool_decide_unpack _); by vm_compute|by vm_compute..].
Defined.

(** payload fields round trip: writing any list of fields with
    [link_tlv_put] into a payload with room succeeds, and [link_tlv_get] of any
    tag then finds the first field with that tag, copies it when it fits the
    caller's array, and fails when there is none or it does not fit. *)
Theorem link_tlv_roundtrip `{Arch} es b cap tag out ocap ol :
  Forall (λ e, blen e.2 < 256) es → blen (tlv_bytes es) <= cap <= blen b → cap < 2 ^ 31 →
  ocap <= blen out →
  ∃ b' n, tlv_put_all es b cap 0 = Some (0, Some b', Some n) ∧ n = blen (tlv_bytes es) ∧
          link_tlv_get (Some b') n tag (Some out) ocap (Some ol) = tlv_answer tag es out ocap ol.
Proof.
  intros Hes Hcap H31 Ho.
  destruct (tlv_put_all_ok es b cap 0 []) as (b' & E & Hh); [apply tlv_holds_nil|done|lia..|].
  rewrite Z.add_0_l in *. exists b', (blen (tlv_bytes es)). split; [done|]. split; [done|].
  apply link_tlv_get_ok; [done|lia|done|done].
Qed.

Lemma link_tlv_roundtrip_witness :
  ∃ b' n, @tlv_put_all arch32 [(1, [4]); (3, [117; 112]); (1, [5])] (zeros 16) 16 0
            = Some (0, Some b', Some n) ∧ n = 10 ∧
          @link_tlv_get arch32 (Some b') n 3 (Some [0; 0; 0]) 3 (Some 0)
            = Some (0, Some [117; 112; 0], Some 2).
Proof.
  apply (@link_tlv_roundtrip arch32 [(1, [4]); (3, [117; 112]); (1, [5])] (zeros 16) 16 3
           [0; 0; 0] 3 0);
    [apply (bool_decide_unpack _); by vm_compute|by vm_compute..].
Defined.
