(* ===== verification/LinkStream.v ===== *)
(** * The link receive stream (link/link_frame.c, [link_stream_push])

    A byte stream arrives in chunks of any size; [link_stream_push] buffers it,
    hunts for the frame magic and hands every complete frame whose checksum is
    right to a callback.  The loop is modelled on the 251-byte array, and proved
    to compute a parser on byte lists; the theorems about lost, split and noisy
    frames are about that parser. *)

From Stdlib Require Import ZArith Lia.
From stdpp Require Import base tactics option list numbers.
From S2P Require Import Prelude.
From S2P Require Import LinkFrame.

Record link_stream_t := mk_stream { ls_buf : list Z; ls_len : Z }.

(** ** The receive stream *)

(** [magic_at]: the two bounds tests are the code's short-circuit [&&]. *)
Definition magic_at (buf : list Z) (len i : Z) : option bool :=
  if i + 1 <? len then
    b0 ← rd buf i;
    if negb (b0 =? lo8 LINK_MAGIC) then Some false else
    b1 ← rd buf (i + 1);
    Some (b1 =? hi8 LINK_MAGIC)
  else Some false.

(** One round of the append loop: drop the oldest byte when full. *)
Definition stream_put (st : link_stream_t) (d : Z) : option link_stream_t :=
  st ← (if LINK_MAX_FRAME <=? ls_len st
        then b ← move_down (ls_buf st) 1 (ls_len st - 1);
             Some (mk_stream b (ls_len st - 1))
        else Some st);
  b ← wr (ls_buf st) (ls_len st) d;
  Some (mk_stream b (ls_len st + 1)).

Fixpoint stream_append (st : link_stream_t) (data : list Z) : option link_stream_t :=
  match data with
  | [] => Some st
  | d :: data => st ← stream_put st d; stream_append st data
  end.

(** [while (start + 1 < len && !magic_at (buf, len, start)) start++;] *)
Fixpoint scan_magic (fuel : nat) (buf : list Z) (len start : Z) : option Z :=
  match fuel with
  | O => None
  | S fuel =>
    if start + 1 <? len then
      m ← magic_at buf len start;
      if (m : bool) then Some start else scan_magic fuel buf len (start + 1)
    else Some start
  end.

(** [memmove (buf, buf + k, len - k); len -= k;] *)
Definition stream_drop (st : link_stream_t) (k : Z) : option link_stream_t :=
  b ← move_down (ls_buf st) k (ls_len st - k); Some (mk_stream b (ls_len st - k)).

Section Stream.
Context {U : Type}.
Variable on_frame : list Z → Z → U → U * Z.

(** One round of the [for (;;)] loop: either the function returned, or it
    [continue]s with a new stream. *)
Inductive round :=
  | Return (rc : Z) (st : link_stream_t) (user : U)
  | Continue (st : link_stream_t) (user : U).

Definition stream_round (st : link_stream_t) (user : U) : option round :=
  start ← scan_magic (S (Z.to_nat (ls_len st))) (ls_buf st) (ls_len st) 0;
  st ← (if 0 <? start then stream_drop st start else Some st);
  if ls_len st <? LINK_HEADER_LEN then Some (Return 0 st user) else
  l0 ← rd (ls_buf st) 7;
  l1 ← rd (ls_buf st) 8;
  let length := le16 l0 l1 in
  if LINK_MAX_PAYLOAD <? length
  then st ← stream_drop st 1; Some (Continue st user) else
  let total := LINK_HEADER_LEN + length + 2 in
  if ls_len st <? total then Some (Return 0 st user) else
  '(used, _) ← link_frame_decode (Some (ls_buf st)) total
                 (Some (mk_frame 0 0 0 0 0 (zeros LINK_MAX_PAYLOAD)));
  if used <? 0 then st ← stream_drop st 1; Some (Continue st user) else
  let '(user, rc) := on_frame (ls_buf st) used user in
  if c_true rc then Some (Return (-1) st user) else
  st ← stream_drop st used; Some (Continue st user).

Fixpoint stream_loop (fuel : nat) (st : link_stream_t) (user : U)
    : option (Z * link_stream_t * U) :=
  match fuel with
  | O => None
  | S fuel =>
    r ← stream_round st user;
    match r with
    | Return rc st user => Some (rc, st, user)
    | Continue st user => stream_loop fuel st user
    end
  end.

End Stream.
Arguments round : clear implicits.
Arguments Return {U}.
Arguments Continue {U}.

(** Each round that continues drops at least one of the buffered bytes, so their
    number is enough fuel. *)
Definition link_stream_push {U} (stream : option link_stream_t)
    (data : option (list Z)) (n : Z) (on_frame : option (list Z → Z → U → U * Z))
    (user : U) : option (Z * option link_stream_t * U) :=
  match stream, on_frame with
  | Some st, Some cb =>
    if (0 <? n) && negb (bool_decide (is_Some data)) then Some (-1, stream, user) else
    d ← rd_bytes (default [] data) 0 n;
    st ← stream_append st d;
    '(rc, st, user) ← stream_loop cb (S (Z.to_nat (ls_len st))) st user;
    Some (rc, Some st, user)
  | _, _ => Some (-1, stream, user)
  end.

(** ** The receive buffer *)

Definition stream_wf (st : link_stream_t) : Prop :=
  blen (ls_buf st) = LINK_MAX_FRAME ∧ 0 <= ls_len st <= LINK_MAX_FRAME ∧
  Forall is_u8 (ls_buf st).

(** The bytes that are waiting. *)
Definition contents (st : link_stream_t) : list Z :=
  take (Z.to_nat (ls_len st)) (ls_buf st).

Lemma blen_contents st : stream_wf st → blen (contents st) = ls_len st.
Proof. intros (Hb & Hl & _). unfold contents. rewrite blen_take; lia. Qed.

Lemma contents_u8 st : stream_wf st → Forall is_u8 (contents st).
Proof. intros (_ & _ & H). by apply Forall_take. Qed.

Lemma buf_split st : ls_buf st = contents st ++ drop (Z.to_nat (ls_len st)) (ls_buf st).
Proof. unfold contents. by rewrite take_drop. Qed.

Lemma stream_drop_ok st k :
  stream_wf st → 0 <= k <= ls_len st →
  ∃ st', stream_drop st k = Some st' ∧ stream_wf st' ∧
         contents st' = drop (Z.to_nat k) (contents st).
Proof.
  intros Hst Hk. pose proof Hst as (Hb & Hl & Hu). unfold stream_drop.
  rewrite move_down_ok by lia. cbn [mbind option_bind]. unfold blen in Hb.
  eexists. split; [done|]. unfold stream_wf, contents, blen. simpl.
  rewrite length_app, length_take, !length_drop.
  split; [split; [lia|]; split; [lia|]|].
  - apply Forall_app. split; [by apply Forall_take, Forall_drop|by apply Forall_drop].
  - rewrite take_app_le, take_take by (rewrite length_take, length_drop; lia).
    rewrite skipn_firstn_comm. f_equal. lia.
Qed.

Lemma stream_put_ok st d :
  stream_wf st → is_u8 d →
  ∃ st', stream_put st d = Some st' ∧ stream_wf st' ∧
         contents st' = (if bool_decide (ls_len st = LINK_MAX_FRAME)
                         then drop 1 (contents st) else contents st) ++ [d].
Proof.
  intros Hst Hd.
  assert (∀ st1, stream_wf st1 → ls_len st1 < LINK_MAX_FRAME →
    ∃ st', (b ← wr (ls_buf st1) (ls_len st1) d; Some (mk_stream b (ls_len st1 + 1))) = Some st'
           ∧ stream_wf st' ∧ contents st' = contents st1 ++ [d]) as Hroom.
  { intros st1 (Hb & Hl & Hu) Hlt. rewrite wr_ok by lia. cbn [mbind option_bind].
    eexists. split; [done|]. unfold stream_wf, contents, blen in *. simpl.
    rewrite length_insert. split; [split; [lia|]; split; [lia|]|].
    - by apply Forall_insert.
    - replace (Z.to_nat (ls_len st1 + 1)) with (S (Z.to_nat (ls_len st1))) by lia.
      rewrite (take_S_r _ _ d) by (apply list_lookup_insert_eq; lia).
      by rewrite take_insert_ge by lia. }
  pose proof Hst as (Hb & Hl & Hu). unfold stream_put. case_bool_decide as Hfull.
  - rewrite Hfull. simpl Z.leb. cbv iota.
    destruct (stream_drop_ok st 1) as (st1 & E1 & Hwf1 & Hc1); [done|link_consts; lia|].
    unfold stream_drop in E1. rewrite Hfull in E1. rewrite E1. cbn [mbind option_bind].
    change (Z.to_nat 1) with 1%nat in Hc1. rewrite <- Hc1. apply Hroom; [done|].
    assert (ls_len st1 = LINK_MAX_FRAME - 1) as ->; [|lia].
    destruct (move_down _ _ _); [|done]. by injection E1 as <-.
  - zbool. cbn [mbind option_bind]. apply Hroom; [done|lia].
Qed.

Lemma stream_append_ok data st :
  stream_wf st → Forall is_u8 data → ls_len st + blen data <= LINK_MAX_FRAME →
  ∃ st', stream_append st data = Some st' ∧ stream_wf st' ∧
         contents st' = contents st ++ data.
Proof.
  revert st. induction data as [|d data IH]; intros st Hst Hd Hlen; simpl.
  - exists st. by rewrite app_nil_r.
  - apply Forall_cons_1 in Hd as [Hd Hds]. rewrite blen_cons in Hlen.
    pose proof (blen_nonneg data).
    destruct (stream_put_ok st d Hst Hd) as (st1 & -> & Hwf1 & Hc1). cbn [mbind option_bind].
    rewrite bool_decide_false in Hc1 by lia.
    assert (ls_len st1 = ls_len st + 1) as Hl1.
    { rewrite <- !blen_contents, Hc1, blen_app by done. done. }
    destruct (IH st1) as (st2 & -> & ? & Hc2); [done|done|lia|].
    exists st2. by rewrite Hc2, Hc1, <- app_assoc.
Qed.

(** Whatever arrives, the buffer stays well formed. *)
Lemma stream_append_wf data st :
  stream_wf st → Forall is_u8 data → ∃ st', stream_append st data = Some st' ∧ stream_wf st'.
Proof.
  intros Hst Hd. revert st Hst. induction Hd as [|d data Hd Hds IH]; intros st Hst; simpl; [eauto|].
  destruct (stream_put_ok st d Hst Hd) as (st1 & -> & Hwf1 & _). by apply IH.
Qed.

(** ** Searching for the magic *)

(** Reference definition: the longest suffix that starts with the magic, or the
    last byte when there is none. *)
Fixpoint skip_noise (c : list Z) : list Z :=
  match c with
  | a :: ((b :: _) as r) =>
      if (a =? lo8 LINK_MAGIC) && (b =? hi8 LINK_MAGIC) then c else skip_noise r
  | _ => c
  end.

Lemma skip_noise_length c : (length (skip_noise c) <= length c)%nat.
Proof.
  induction c as [|a [|b c] IH]; simpl in *; [done..|].
  destruct (_ && _); simpl; lia.
Qed.

Lemma rd_contents st i x :
  stream_wf st → contents st !! Z.to_nat i = Some x → 0 <= i → rd (ls_buf st) i = Some x.
Proof.
  intros Hst Hx Hi. unfold rd. zbool. rewrite buf_split. by apply lookup_app_l_Some.
Qed.

Lemma drop_S_lookup {A} (c : list A) n x r : drop n c = x :: r → c !! n = Some x ∧ drop (S n) c = r.
Proof.
  intros H. split.
  - by rewrite <- (Nat.add_0_r n), <- lookup_drop, H.
  - replace (S n) with (n + 1)%nat by lia. by rewrite <- drop_drop, H.
Qed.

Lemma scan_magic_ok st start fuel :
  stream_wf st → 0 <= start <= ls_len st → (Z.to_nat (ls_len st - start) < fuel)%nat →
  ∃ s, scan_magic fuel (ls_buf st) (ls_len st) start = Some s ∧ start <= s <= ls_len st ∧
       drop (Z.to_nat s) (contents st) = skip_noise (drop (Z.to_nat start) (contents st)).
Proof.
  intros Hst. revert start. induction fuel as [|fuel IH]; intros start Hs Hf; [lia|].
  pose proof (blen_contents st Hst) as Hlen. simpl.
  assert (blen (drop (Z.to_nat start) (contents st)) = ls_len st - start) as Hd
    by (rewrite blen_drop; lia).
  destruct (drop (Z.to_nat start) (contents st)) as [|a [|b r]] eqn:E;
    [unfold blen in Hd; simpl in Hd; zbool; exists start; rewrite E; eauto with lia..|].
  autorewrite with blen in Hd. pose proof (blen_nonneg r).
  apply drop_S_lookup in E as [Ha E']. apply drop_S_lookup in E' as [Hb E''].
  zbool. unfold magic_at. zbool.
  rewrite (rd_contents st start a) by (done || lia). cbn [mbind option_bind].
  replace (S (Z.to_nat start)) with (Z.to_nat (start + 1)) in * by lia.
  rewrite (rd_contents st (start + 1) b) by (done || lia). cbn [mbind option_bind].
  destruct (IH (start + 1)) as (s & Hs1 & Hs2 & Hs3); [lia..|].
  assert (drop (Z.to_nat (start + 1)) (contents st) = b :: r) as Hbr.
  { rewrite <- E''. by apply drop_S. }
  rewrite Hbr in Hs3. simpl skip_noise.
  destruct (a =? lo8 LINK_MAGIC); cbn [negb andb mbind option_bind].
  - destruct (b =? hi8 LINK_MAGIC).
    + exists start. split; [done|]. split; [lia|].
      rewrite <- E'', <- (drop_S _ _ _ Hb). replace (Z.to_nat (start + 1)) with (S (Z.to_nat start)) by lia.
      by apply drop_S.
    + exists s. eauto with lia.
  - exists s. eauto with lia.
Qed.

(** ** The receive loop refines a parser on byte lists *)

Inductive verdict :=
  | PStop (c : list Z)
  | PSkip (c : list Z)
  | PFrame (n : Z) (c : list Z).

(** What one round decides about the waiting bytes [c]. *)
Definition parse1 (c : list Z) : verdict :=
  let c := skip_noise c in
  if blen c <? LINK_HEADER_LEN then PStop c else
  let total := LINK_HEADER_LEN + le16 (default 0 (c !! 7%nat)) (default 0 (c !! 8%nat)) + 2 in
  if LINK_MAX_FRAME <? total then PSkip (drop 1 c) else
  if blen c <? total then PStop c else
  match link_frame_decode (Some c) total (Some (mk_frame 0 0 0 0 0 (zeros LINK_MAX_PAYLOAD))) with
  | Some (used, _) => if used <? 0 then PSkip (drop 1 c) else PFrame used c
  | None => PStop c
  end.

Section StreamRefinement.
Context {U : Type}.
Variable h : list Z → U → U * Z.

(** A handler that looks only at the frame it is given. *)
Definition frame_cb : list Z → Z → U → U * Z := λ b n u, h (take (Z.to_nat n) b) u.

Fixpoint parse (fuel : nat) (c : list Z) (u : U) : option (Z * list Z * U) :=
  match fuel with
  | O => None
  | S fuel =>
    match parse1 c with
    | PStop c => Some (0, c, u)
    | PSkip c => parse fuel c u
    | PFrame n c =>
        let '(u, rc) := h (take (Z.to_nat n) c) u in
        if c_true rc then Some (-1, c, u) else parse fuel (drop (Z.to_nat n) c) u
    end
  end.

Definition round_matches (u : U) (v : verdict) (r : round U) : Prop :=
  match v with
  | PStop c => ∃ st, r = Return 0 st u ∧ stream_wf st ∧ contents st = c
  | PSkip c => ∃ st, r = Continue st u ∧ stream_wf st ∧ contents st = c
  | PFrame n c =>
      if c_true (h (take (Z.to_nat n) c) u).2
      then ∃ st, r = Return (-1) st (h (take (Z.to_nat n) c) u).1 ∧ stream_wf st ∧ contents st = c
      else ∃ st, r = Continue st (h (take (Z.to_nat n) c) u).1 ∧ stream_wf st ∧
                 contents st = drop (Z.to_nat n) c
  end.

(** After the scan the stream holds exactly the bytes from the magic on. *)
Lemma scan_drop_ok st :
  stream_wf st →
  ∃ st', (start ← scan_magic (S (Z.to_nat (ls_len st))) (ls_buf st) (ls_len st) 0;
          if 0 <? start then stream_drop st start else Some st) = Some st' ∧
         stream_wf st' ∧ contents st' = skip_noise (contents st).
Proof.
  intros Hst. pose proof Hst as (_ & Hl & _).
  destruct (scan_magic_ok st 0 (S (Z.to_nat (ls_len st)))) as (s & -> & Hs & Hd); [done|lia..|].
  cbn [mbind option_bind]. change (Z.to_nat 0) with 0%nat in Hd. rewrite drop_0 in Hd.
  destruct (0 <? s) eqn:E; bool_hyps.
  - destruct (stream_drop_ok st s) as (st' & -> & ? & Hc); [done|lia|].
    exists st'. by rewrite Hc.
  - replace s with 0 in Hd by lia. exists st. by rewrite <- Hd.
Qed.

Lemma stream_drop_matches st k (f : link_stream_t → option (round U)) :
  stream_wf st → 0 <= k <= ls_len st →
  ∃ st', stream_drop st k ≫= f = f st' ∧ stream_wf st' ∧
         contents st' = drop (Z.to_nat k) (contents st).
Proof.
  intros Hst Hk. destruct (stream_drop_ok st k Hst Hk) as (st' & -> & ?). eauto.
Qed.

Lemma stream_round_ok st u :
  stream_wf st →
  ∃ r, stream_round frame_cb st u = Some r ∧ round_matches u (parse1 (contents st)) r.
Proof.
  intros Hst. unfold stream_round, parse1.
  destruct (scan_drop_ok st Hst) as (st1 & E & Hst1 & Hc).
  destruct (scan_magic _ _ _ _) as [s|]; [|done]. cbn [mbind option_bind] in *.
  rewrite E. cbn [mbind option_bind]. rewrite <- Hc. clear E Hc.
  pose proof (blen_contents st1 Hst1) as Hlen. pose proof Hst1 as (Hbl & Hl & Hu).
  rewrite Hlen. destruct (ls_len st1 <? _) eqn:E9; [eexists; split; [done|]; simpl; eauto|].
  bool_hyps. set (c := contents st1) in *.
  destruct (lookup_lt_is_Some_2 c 7%nat) as [l0 H7]; [unfold blen in Hlen; link_consts; lia|].
  destruct (lookup_lt_is_Some_2 c 8%nat) as [l1 H8]; [unfold blen in Hlen; link_consts; lia|].
  rewrite (rd_contents st1 7 l0), (rd_contents st1 8 l1), H7, H8 by (done || lia).
  cbn [mbind option_bind default from_option id]. set (len := le16 l0 l1).
  assert (is_u16 len) as Hl16.
  { pose proof (contents_u8 st1 Hst1) as Hcu. apply le16_u16; by eapply Forall_lookup_1. }
  unfold in_w in Hl16. replace (LINK_MAX_FRAME <? LINK_HEADER_LEN + len + 2)
    with (LINK_MAX_PAYLOAD <? len) by (link_consts; destruct (Z.ltb_spec 240 len); by zbool).
  destruct (LINK_MAX_PAYLOAD <? len) eqn:Emax.
  { destruct (stream_drop_matches st1 1 (λ st, Some (Continue st u))) as (st2 & -> & ? & ?);
      [done|link_consts; lia|]. eexists. split; [done|]. by exists st2. }
  bool_hyps. destruct (ls_len st1 <? _) eqn:Et; [eexists; split; [done|]; simpl; eauto|].
  bool_hyps. rewrite (buf_split st1). fold c.
  rewrite link_frame_decode_prefix by (apply contents_u8 || rewrite Hlen; done).
  destruct (link_frame_decode_safe c (LINK_HEADER_LEN + len + 2) (mk_frame 0 0 0 0 0 (zeros LINK_MAX_PAYLOAD)))
    as ([used fo] & -> & Hpost); [by apply contents_u8|lia|]. cbn [mbind option_bind].
  assert (used = -1 ∨ 0 <= used <= ls_len st1 ∧ 0 < used) as Hused.
  { destruct Hpost as [[= -> _]|(f & [= -> _] & (_&_&_&_&?&_) & ?)]; [by left|right]. link_consts. lia. }
  destruct (used <? 0) eqn:Eu; bool_hyps.
  { destruct (stream_drop_matches st1 1 (λ st, Some (Continue st u))) as (st2 & -> & ? & ?);
      [done|link_consts; lia|]. eexists. split; [done|]. by exists st2. }
  unfold frame_cb. rewrite take_app_le by (unfold blen in Hlen; lia). simpl round_matches.
  destruct (h _ u) as [u' rc]. cbn [fst snd]. destruct (c_true rc).
  { eexists. split; [done|]. by exists st1. }
  destruct (stream_drop_matches st1 used (λ st, Some (Continue st u'))) as (st2 & -> & ? & ?);
    [done|lia|]. eexists. split; [done|]. by exists st2.
Qed.

(** A round that does not stop consumes at least one byte. *)
Lemma parse1_shrinks c :
  Forall is_u8 c →
  match parse1 c with
  | PStop c' => Forall is_u8 c'
  | PSkip c' => Forall is_u8 c' ∧ (length c' < length c)%nat
  | PFrame n c' => Forall is_u8 c' ∧ (0 < Z.to_nat n <= length c')%nat ∧ (length c' <= length c)%nat
  end.
Proof.
  intros Hu. unfold parse1. pose proof (skip_noise_length c) as Hn.
  assert (Forall is_u8 (skip_noise c)) as Hu'.
  { clear Hn. induction Hu as [|a [|b r] Ha Hr IH]; simpl; [done|by constructor|].
    destruct (_ && _); [by constructor|done]. }
  revert Hn Hu'. generalize (skip_noise c) as c'. intros c' Hn Hu'.
  destruct (blen c' <? _) eqn:E9; [done|]. bool_hyps.
  assert (0 < length c')%nat by (unfold blen in *; link_consts; lia).
  assert (Forall is_u8 (drop 1 c') ∧ (length (drop 1 c') < length c)%nat) as Hdrop.
  { split; [by apply Forall_drop|]. rewrite length_drop. lia. }
  set (total := LINK_HEADER_LEN + _ + 2).
  destruct (LINK_MAX_FRAME <? total); [done|]. destruct (blen c' <? total) eqn:Et; [done|].
  bool_hyps.
  destruct (link_frame_decode_safe c' total (mk_frame 0 0 0 0 0 (zeros LINK_MAX_PAYLOAD)))
    as ([used fo] & -> & Hpost); [done|done|].
  destruct (used <? 0) eqn:Eu; [done|]. bool_hyps. split; [done|].
  destruct Hpost as [[= -> _]|(f & [= -> _] & (_&_&_&_&?&_) & ?)]; [lia|].
  unfold blen in *. link_consts. lia.
Qed.

(** The receive loop terminates and computes [parse] on the waiting bytes. *)
Lemma stream_loop_refines st u fuel :
  stream_wf st → (length (contents st) < fuel)%nat →
  ∃ rc st' u', stream_loop frame_cb fuel st u = Some (rc, st', u') ∧ stream_wf st' ∧
               parse fuel (contents st) u = Some (rc, contents st', u').
Proof.
  revert st u. induction fuel as [|fuel IH]; intros st u Hst Hf; [lia|]. simpl.
  destruct (stream_round_ok st u Hst) as (r & -> & Hr). cbn [mbind option_bind].
  pose proof (parse1_shrinks (contents st) (contents_u8 st Hst)) as Hs.
  destruct (parse1 (contents st)) as [c|c|n c]; cbn [round_matches] in Hr.
  - destruct Hr as (st' & -> & ? & <-). by exists 0, st', u.
  - destruct Hr as (st' & -> & ? & <-). apply IH; [done|lia].
  - destruct (h (take (Z.to_nat n) c) u) as [u' rc]. cbn [fst snd] in Hr.
    destruct (c_true rc); destruct Hr as (st' & -> & ? & Hc).
    + exists (-1), st', u'. by rewrite Hc.
    + destruct (IH st' u') as (rc' & st'' & u'' & H1 & H2 & H3); [done| |].
      { rewrite Hc, length_drop. lia. }
      exists rc', st'', u''. by rewrite <- Hc.
Qed.
End StreamRefinement.

(** ** Frames in the stream *)

(** [q] is waiting for the rest of its frame: nothing in it is complete. *)
Definition incomplete (q : list Z) : Prop :=
  q = [] ∨ ∃ f r, frame_wf f ∧ r ≠ [] ∧ frame_bytes f = q ++ r.

Lemma skip_noise_magic c : skip_noise (lo8 LINK_MAGIC :: hi8 LINK_MAGIC :: c) =
  lo8 LINK_MAGIC :: hi8 LINK_MAGIC :: c.
Proof. done. Qed.

Lemma skip_noise_frame f r : skip_noise (frame_bytes f ++ r) = frame_bytes f ++ r.
Proof. apply skip_noise_magic. Qed.

Lemma frame_bytes_len_field f r :
  frame_wf f → ∃ l0 l1, (frame_bytes f ++ r) !! 7%nat = Some l0 ∧
    (frame_bytes f ++ r) !! 8%nat = Some l1 ∧ le16 l0 l1 = lf_length f.
Proof.
  intros (_&_&_&_&Hl&_&_). exists (lo8 (lf_length f)), (hi8 (lf_length f)).
  split; [done|]. split; [done|]. apply le16_split. link_consts. unfold in_w. lia.
Qed.

Lemma parse1_frame f r :
  frame_wf f → parse1 (frame_bytes f ++ r) = PFrame (blen (frame_bytes f)) (frame_bytes f ++ r).
Proof.
  intros Hf. unfold parse1. rewrite skip_noise_frame.
  pose proof (blen_frame_bytes f Hf) as Hb. pose proof Hf as (_&_&_&_&Hl&_&_).
  pose proof (blen_nonneg r). destruct (frame_bytes_len_field f r Hf) as (l0 & l1 & -> & -> & E).
  cbn [default from_option id]. rewrite E, <- Hb, blen_app.
  rewrite (proj2 (Z.ltb_ge _ LINK_HEADER_LEN)), (proj2 (Z.ltb_ge LINK_MAX_FRAME _)),
    (proj2 (Z.ltb_ge _ (blen (frame_bytes f)))) by (link_consts; lia).
  rewrite link_frame_decode_ok by done. by zbool.
Qed.

Lemma parse1_incomplete q : incomplete q → parse1 q = PStop q.
Proof.
  intros [->|(f & r & Hf & Hr & E)]; [done|]. unfold parse1.
  assert (skip_noise q = q) as ->.
  { destruct q as [|a [|b q]]; [done..|]. injection E as <- <- _. apply skip_noise_magic. }
  destruct (blen q <? _) eqn:E9; [done|]. bool_hyps.
  assert (∀ i x, (i < 9)%nat → frame_bytes f !! i = Some x → q !! i = Some x) as Hi.
  { intros i x Hi. rewrite E, lookup_app_l; [done|]. unfold blen in *. link_consts. lia. }
  destruct (frame_bytes_len_field f [] Hf) as (l0 & l1 & H7 & H8 & El).
  rewrite app_nil_r in H7, H8. rewrite (Hi 7%nat l0), (Hi 8%nat l1) by (done || lia).
  cbn [default from_option id]. rewrite El.
  pose proof (blen_frame_bytes f Hf) as Hb. pose proof Hf as (_&_&_&_&Hl&_&_).
  rewrite E, blen_app in Hb.
  assert (0 < blen r) by (destruct r; [done|]; unfold blen; simpl; lia).
  rewrite (proj2 (Z.ltb_ge LINK_MAX_FRAME _)), (proj2 (Z.ltb_lt (blen q) _)) by (link_consts; lia).
  done.
Qed.

(** ** Pushing a chunk *)

Section Push.
Context {U : Type}.
Variable h : list Z → U → U.

(** A handler that never fails. *)
Definition ok_cb : list Z → Z → U → U * Z := frame_cb (λ fr u, (h fr u, 0)).

Lemma parse_frames fs q u fuel :
  Forall frame_wf fs → incomplete q →
  (length (concat (frame_bytes <$> fs) ++ q) < fuel)%nat →
  parse (λ fr u, (h fr u, 0)) fuel (concat (frame_bytes <$> fs) ++ q) u =
    Some (0, q, foldl (λ u fr, h fr u) u (frame_bytes <$> fs)).
Proof.
  intros Hfs Hq. revert u fuel. induction Hfs as [|f fs Hf Hfs IH]; intros u fuel Hf'.
  - destruct fuel as [|fuel]; [simpl in Hf'; lia|]. simpl. by rewrite parse1_incomplete.
  - destruct fuel as [|fuel]; [lia|]. rewrite fmap_cons in *. cbn [parse concat foldl] in *.
    rewrite <- app_assoc, parse1_frame by done. unfold blen. rewrite Nat2Z.id.
    rewrite take_app_length, drop_app_length. cbn [c_true negb Z.eqb].
    apply IH. pose proof (blen_frame_bytes f Hf) as Hb. destruct Hf as (_&_&_&_&Hl&_).
    rewrite <- app_assoc, length_app in Hf'. unfold blen in Hb. link_consts. lia.
Qed.

Lemma link_stream_push_frames st data fs q u :
  stream_wf st → Forall is_u8 data → Forall frame_wf fs → incomplete q →
  contents st ++ data = concat (frame_bytes <$> fs) ++ q →
  ls_len st + blen data <= LINK_MAX_FRAME →
  ∃ st', link_stream_push (Some st) (Some data) (blen data) (Some ok_cb) u =
           Some (0, Some st', foldl (λ u fr, h fr u) u (frame_bytes <$> fs)) ∧
         stream_wf st' ∧ contents st' = q.
Proof.
  intros Hst Hd Hfs Hq Heq Hroom. unfold link_stream_push. cbn [default from_option id].
  rewrite bool_decide_true by eauto. rewrite andb_false_r.
  pose proof (rd_bytes_prefix data []) as Ed. rewrite app_nil_r in Ed. rewrite Ed.
  cbn [mbind option_bind].
  destruct (stream_append_ok data st) as (st1 & -> & Hst1 & Hc1); [done..|].
  cbn [mbind option_bind]. rewrite Heq in Hc1. pose proof (blen_contents st1 Hst1) as Hl1.
  assert (length (contents st1) < S (Z.to_nat (ls_len st1)))%nat as Hf by (unfold blen in Hl1; lia).
  destruct (stream_loop_refines (λ fr u, (h fr u, 0)) st1 u (S (Z.to_nat (ls_len st1))))
    as (rc & st2 & u2 & E & Hst2 & P); [done..|].
  unfold ok_cb. rewrite E. cbn [mbind option_bind].
  rewrite Hc1, parse_frames in P by (done || rewrite <- Hc1; done).
  injection P as <- Hc2 <-. by exists st2.
Qed.
End Push.

(** Bytes arriving one chunk after the other. *)
Fixpoint push_chunks {U} (cb : list Z → Z → U → U * Z) (st : link_stream_t)
    (chunks : list (list Z)) (u : U) : option (Z * option link_stream_t * U) :=
  match chunks with
  | [] => Some (0, Some st, u)
  | d :: chunks =>
      r ← link_stream_push (Some st) (Some d) (blen d) (Some cb) u;
      match r with
      | (0, Some st, u) => push_chunks cb st chunks u
      | r => Some r
      end
  end.

Definition collect : list Z → list (list Z) → list (list Z) := λ fr got, got ++ [fr].

Definition empty_stream : link_stream_t := mk_stream (zeros LINK_MAX_FRAME) 0.

Lemma empty_stream_wf : stream_wf empty_stream.
Proof. split; [done|]. split; [done|]. apply Forall_zeros. Qed.

Lemma foldl_collect fs got : foldl (λ u fr, collect fr u) got fs = got ++ fs.
Proof.
  revert got. induction fs as [|f fs IH]; intros got; simpl; [by rewrite app_nil_r|].
  rewrite IH. unfold collect. by rewrite <- app_assoc.
Qed.

(** Arrival byte by byte: [q] is the received part of the first of the frames
    [fs] that are still to be delivered. *)
Definition pending (fs : list link_frame_t) (q : list Z) : Prop :=
  match fs with [] => q = [] | f :: _ => (length q < length (frame_bytes f))%nat end.

Lemma pending_incomplete fs q ds :
  Forall frame_wf fs → pending fs q → q ++ ds = concat (frame_bytes <$> fs) → incomplete q.
Proof.
  intros Hfs Hp Heq. destruct fs as [|f fs]; [by left|right]. unfold pending in Hp.
  apply Forall_cons_1 in Hfs as [Hf _]. exists f, (drop (length q) (frame_bytes f)).
  split; [done|]. split.
  - intros E%(f_equal length). rewrite length_drop in E. change (length []) with 0%nat in E. lia.
  - rewrite <- (take_drop (length q) (frame_bytes f)) at 1. f_equal.
    rewrite <- (take_app_le (frame_bytes f) (concat (frame_bytes <$> fs))) by lia.
    rewrite fmap_cons in Heq. cbn [concat] in Heq. rewrite <- Heq. apply take_app_length.
Qed.

Lemma frame_bytes_nonempty f : frame_wf f → (0 < length (frame_bytes f))%nat.
Proof.
  intros Hf. pose proof (blen_frame_bytes f Hf) as Hb. destruct Hf as (_&_&_&_&?&_).
  unfold blen in Hb. link_consts. lia.
Qed.

Lemma frame_prefix_step fs q d ds :
  Forall frame_wf fs → pending fs q → q ++ d :: ds = concat (frame_bytes <$> fs) →
  ∃ fs1 fs2 q', fs = fs1 ++ fs2 ∧ pending fs2 q' ∧
    q ++ [d] = concat (frame_bytes <$> fs1) ++ q' ∧ q' ++ ds = concat (frame_bytes <$> fs2).
Proof.
  intros Hfs Hq Heq. destruct fs as [|f fs]; [by destruct q|]. unfold pending in Hq.
  apply Forall_cons_1 in Hfs as [Hf Hfs].
  destruct (decide (length (q ++ [d]) < length (frame_bytes f))%nat) as [Hlt|Hge].
  - exists [], (f :: fs), (q ++ [d]). rewrite <- app_assoc. done.
  - exists [f], fs, []. rewrite fmap_cons in Heq. cbn [concat] in Heq.
    rewrite (cons_middle d), app_assoc in Heq.
    rewrite length_app in Hge. change (length [d]) with 1%nat in Hge.
    apply app_inj_1 in Heq as [E1 E2]; [|rewrite length_app; change (length [d]) with 1%nat; lia].
    split; [done|]. split; [|by rewrite app_nil_r; simpl; rewrite app_nil_r].
    destruct Hfs as [|f' fs Hf' Hfs]; [done|by apply frame_bytes_nonempty].
Qed.

Lemma pending_room fs q : Forall frame_wf fs → pending fs q → blen q + 1 <= LINK_MAX_FRAME.
Proof.
  intros Hfs Hp. destruct Hfs as [|f fs Hf Hfs]; unfold pending in Hp; [by subst q|].
  pose proof (blen_frame_bytes f Hf). destruct Hf as (_&_&_&_&?&_).
  unfold blen in *. link_consts. lia.
Qed.

Lemma frame_bytes_u8 f : frame_wf f → Forall is_u8 (frame_bytes f).
Proof.
  intros Hf. unfold frame_bytes. apply Forall_app. split; [by apply frame_body_u8|].
  repeat (constructor; [by auto with cint|]). constructor.
Qed.

Lemma push_bytes fs ds st q got :
  Forall frame_wf fs → Forall is_u8 ds → stream_wf st → contents st = q → pending fs q →
  q ++ ds = concat (frame_bytes <$> fs) →
  ∃ st', push_chunks (ok_cb collect) st ((λ d, [d]) <$> ds) got =
           Some (0, Some st', got ++ (frame_bytes <$> fs)) ∧ stream_wf st' ∧ contents st' = [].
Proof.
  intros Hfs Hds. revert fs st q got Hfs.
  induction Hds as [|d ds Hd Hds IH]; intros fs st q got Hfs Hst Hc Hp Heq.
  - destruct fs as [|f fs].
    + exists st. simpl in *. subst q. by rewrite app_nil_r.
    + unfold pending in Hp. rewrite app_nil_r in Heq. subst q. rewrite Heq, fmap_cons in Hp.
      cbn [concat] in Hp. rewrite length_app in Hp. lia.
  - destruct (frame_prefix_step fs q d ds) as (fs1 & fs2 & q' & -> & Hp' & E1 & E2); [done..|].
    apply Forall_app in Hfs as [Hfs1 Hfs2].
    assert (ls_len st + blen [d] <= LINK_MAX_FRAME) as Hroom.
    { rewrite <- blen_contents, Hc by done. change (blen [d]) with 1.
      apply (pending_room (fs1 ++ fs2)); [by apply Forall_app|done]. }
    assert (incomplete q') as Hq' by (by eapply pending_incomplete).
    destruct (link_stream_push_frames collect st [d] fs1 q' got) as (st1 & E & Hst1 & Hc1);
      [done|by constructor|done|done|by rewrite Hc|done|].
    rewrite fmap_cons. cbn [push_chunks]. rewrite E. cbn [mbind option_bind].
    rewrite foldl_collect. destruct (IH fs2 st1 q' (got ++ (frame_bytes <$> fs1)))
      as (st2 & -> & ? & ?); [done..|].
    exists st2. by rewrite fmap_app, app_assoc.
Qed.

(** Any chunk: the result is the parser's. *)
Lemma link_stream_push_ok {U} (h : list Z → U → U * Z) st data u :
  stream_wf st → Forall is_u8 data →
  ∃ st1 rc st' u', stream_append st data = Some st1 ∧
    link_stream_push (Some st) (Some data) (blen data) (Some (frame_cb h)) u =
      Some (rc, Some st', u') ∧
    stream_wf st' ∧
    parse h (S (length (contents st1))) (contents st1) u = Some (rc, contents st', u').
Proof.
  intros Hst Hd. destruct (stream_append_wf data st Hst Hd) as (st1 & E1 & Hst1).
  pose proof (blen_contents st1 Hst1) as Hl1. unfold blen in Hl1.
  destruct (stream_loop_refines h st1 u (S (Z.to_nat (ls_len st1))))
    as (rc & st2 & u2 & E & Hst2 & P); [done|lia|].
  exists st1, rc, st2, u2. split; [done|]. split; [|split; [done|]].
  - unfold link_stream_push. cbn [default from_option id].
    rewrite bool_decide_true by eauto. rewrite andb_false_r.
    pose proof (rd_bytes_prefix data []) as Ed. rewrite app_nil_r in Ed. rewrite Ed.
    cbn [mbind option_bind]. rewrite E1. cbn [mbind option_bind]. by rewrite E.
  - replace (length (contents st1)) with (Z.to_nat (ls_len st1)) by lia. done.
Qed.

(** What the handler keeps, the parser keeps. *)
Lemma parse_keeps {U} (h : list Z → U → U * Z) (P : U → Prop) fuel c u rc c' u' :
  (∀ fr u, Forall is_u8 fr → blen fr <= blen c → P u → P (h fr u).1) → Forall is_u8 c → P u →
  parse h fuel c u = Some (rc, c', u') → P u' ∧ (rc = 0 ∨ rc = -1).
Proof.
  revert c u. induction fuel as [|fuel IH]; intros c u Hh Hc Hu E; [done|]. cbn [parse] in E.
  pose proof (parse1_shrinks c Hc) as Hs. destruct (parse1 c) as [c1|c1|n c1].
  - injection E as <- <- <-. auto.
  - destruct Hs as [Hc1 Hl]. apply (IH c1 u); [|done..]. intros. apply Hh; [done| |done]. unfold blen in *. lia.
  - destruct Hs as (Hc1 & Hn & Hl).
    assert (P (h (take (Z.to_nat n) c1) u).1) as Hu1.
    { apply Hh; [by apply Forall_take| |done]. unfold blen in *. rewrite length_take. lia. }
    destruct (h _ u) as [u1 r]. cbn [fst] in Hu1.
    destruct (c_true r); [injection E as <- <- <-; auto|].
    apply (IH (drop (Z.to_nat n) c1) u1); [|by apply Forall_drop|done..].
    intros. apply Hh; [done| |done]. unfold blen in *. rewrite length_drop in *. lia.
Qed.

(** ** Main theorems *)

(** Frames are reassembled from single bytes: feeding the bytes of any
    sequence of well-formed frames one at a time into an empty stream delivers
    every frame, whole, once and in order, and leaves nothing behind. *)
Theorem link_stream_reassembles fs :
  Forall frame_wf fs →
  ∃ st', push_chunks (ok_cb collect) empty_stream
           ((λ d, [d]) <$> concat (frame_bytes <$> fs)) [] =
         Some (0, Some st', frame_bytes <$> fs) ∧ stream_wf st' ∧ contents st' = [].
Proof.
  intros Hfs.
  destruct (push_bytes fs (concat (frame_bytes <$> fs)) empty_stream [] []) as (st' & E & ? & ?);
    [done| |apply empty_stream_wf|done| |done|by exists st'].
  - induction Hfs as [|f fs Hf Hfs IH]; [by constructor|]. rewrite fmap_cons. cbn [concat].
    apply Forall_app. split; [by apply frame_bytes_u8|done].
  - destruct Hfs as [|f fs Hf Hfs]; [done|by apply frame_bytes_nonempty].
Qed.

Lemma link_stream_reassembles_witness :
  ∃ st', push_chunks (ok_cb collect) empty_stream
           ((λ d, [d]) <$> concat (frame_bytes <$> [sample_frame; sample_frame])) [] =
         Some (0, Some st', frame_bytes <$> [sample_frame; sample_frame]) ∧
         stream_wf st' ∧ contents st' = [].
Proof.
  apply (link_stream_reassembles [sample_frame; sample_frame]).
  repeat constructor; apply sample_frame_wf.
Defined.

(** pushing any bytes, in a chunk of any size, to a well-formed stream
    terminates inside its arrays, leaves the stream well formed, and calls the
    handler exactly as the byte-list parser [parse] says, stopping with -1 at
    the first frame the handler refuses. *)
Theorem link_stream_push_refines {U} (h : list Z → U → U * Z) st data u :
  stream_wf st → Forall is_u8 data →
  ∃ st1 rc st' u', stream_append st data = Some st1 ∧
    link_stream_push (Some st) (Some data) (blen data) (Some (frame_cb h)) u =
      Some (rc, Some st', u') ∧
    stream_wf st' ∧
    parse h (S (length (contents st1))) (contents st1) u = Some (rc, contents st', u').
Proof. intros. by apply link_stream_push_ok. Qed.

Lemma link_stream_push_refines_witness :
  ∃ st1 rc st' (u' : nat), stream_append empty_stream [7; 171; 7] = Some st1 ∧
    link_stream_push (Some empty_stream) (Some [7; 171; 7]) (blen [7; 171; 7])
      (Some (frame_cb (λ _ n, (S n, 0)))) 0%nat = Some (rc, Some st', u') ∧
    stream_wf st' ∧
    parse (λ _ n, (S n, 0)) (S (length (contents st1))) (contents st1) 0%nat =
      Some (rc, contents st', u').
Proof.
  apply (link_stream_push_refines (λ _ n, (S n, 0)) empty_stream [7; 171; 7] 0%nat);
    [apply empty_stream_wf|apply (bool_decide_unpack _); by vm_compute].
Defined.

(** a chunk larger than the free room overwrites the oldest waiting bytes
    before any of them is examined: two valid frames that arrive in one chunk of
    more than LINK_MAX_FRAME bytes deliver only the second one. *)
Theorem link_stream_chunk_overrun :
  ∃ f1 f2 st', frame_wf f1 ∧ frame_wf f2 ∧
    link_stream_push (Some empty_stream) (Some (frame_bytes f1 ++ frame_bytes f2))
      (blen (frame_bytes f1 ++ frame_bytes f2)) (Some (ok_cb collect)) [] =
      Some (0, Some st', [frame_bytes f2]).
Proof.
  exists (mk_frame 1 0 1 1 120 (zeros 240)), (mk_frame 1 0 1 2 120 (zeros 240)).
  eexists. split; [|split]; [apply (bool_decide_unpack _); by vm_compute..|].
  vm_compute. reflexivity.
Qed.
