(* ===== verification/LinkCrypto.v ===== *)
(** * AES-128-GCM (link/link_crypto.c)

    The cipher the link session uses, on byte lists.  Fixed-size local arrays
    ([state], [round_key], blocks) are lists of that length; the caller's
    pointers are options and the arrays behind them are accessed with the
    checked accessors. *)

From Stdlib Require Import ZArith Lia.
From stdpp Require Import base tactics option list numbers.
From S2P Require Import Prelude.

(** Element of a fixed-size local array at a constant index. *)
Definition at0 (b : list Z) (i : nat) : Z := default 0 (b !! i).

Definition k_sbox : list Z :=
  [0x63; 0x7c; 0x77; 0x7b; 0xf2; 0x6b; 0x6f; 0xc5; 0x30; 0x01; 0x67; 0x2b; 0xfe; 0xd7; 0xab; 0x76;
   0xca; 0x82; 0xc9; 0x7d; 0xfa; 0x59; 0x47; 0xf0; 0xad; 0xd4; 0xa2; 0xaf; 0x9c; 0xa4; 0x72; 0xc0;
   0xb7; 0xfd; 0x93; 0x26; 0x36; 0x3f; 0xf7; 0xcc; 0x34; 0xa5; 0xe5; 0xf1; 0x71; 0xd8; 0x31; 0x15;
   0x04; 0xc7; 0x23; 0xc3; 0x18; 0x96; 0x05; 0x9a; 0x07; 0x12; 0x80; 0xe2; 0xeb; 0x27; 0xb2; 0x75;
   0x09; 0x83; 0x2c; 0x1a; 0x1b; 0x6e; 0x5a; 0xa0; 0x52; 0x3b; 0xd6; 0xb3; 0x29; 0xe3; 0x2f; 0x84;
   0x53; 0xd1; 0x00; 0xed; 0x20; 0xfc; 0xb1; 0x5b; 0x6a; 0xcb; 0xbe; 0x39; 0x4a; 0x4c; 0x58; 0xcf;
   0xd0; 0xef; 0xaa; 0xfb; 0x43; 0x4d; 0x33; 0x85; 0x45; 0xf9; 0x02; 0x7f; 0x50; 0x3c; 0x9f; 0xa8;
   0x51; 0xa3; 0x40; 0x8f; 0x92; 0x9d; 0x38; 0xf5; 0xbc; 0xb6; 0xda; 0x21; 0x10; 0xff; 0xf3; 0xd2;
   0xcd; 0x0c; 0x13; 0xec; 0x5f; 0x97; 0x44; 0x17; 0xc4; 0xa7; 0x7e; 0x3d; 0x64; 0x5d; 0x19; 0x73;
   0x60; 0x81; 0x4f; 0xdc; 0x22; 0x2a; 0x90; 0x88; 0x46; 0xee; 0xb8; 0x14; 0xde; 0x5e; 0x0b; 0xdb;
   0xe0; 0x32; 0x3a; 0x0a; 0x49; 0x06; 0x24; 0x5c; 0xc2; 0xd3; 0xac; 0x62; 0x91; 0x95; 0xe4; 0x79;
   0xe7; 0xc8; 0x37; 0x6d; 0x8d; 0xd5; 0x4e; 0xa9; 0x6c; 0x56; 0xf4; 0xea; 0x65; 0x7a; 0xae; 0x08;
   0xba; 0x78; 0x25; 0x2e; 0x1c; 0xa6; 0xb4; 0xc6; 0xe8; 0xdd; 0x74; 0x1f; 0x4b; 0xbd; 0x8b; 0x8a;
   0x70; 0x3e; 0xb5; 0x66; 0x48; 0x03; 0xf6; 0x0e; 0x61; 0x35; 0x57; 0xb9; 0x86; 0xc1; 0x1d; 0x9e;
   0xe1; 0xf8; 0x98; 0x11; 0x69; 0xd9; 0x8e; 0x94; 0x9b; 0x1e; 0x87; 0xe9; 0xce; 0x55; 0x28; 0xdf;
   0x8c; 0xa1; 0x89; 0x0d; 0xbf; 0xe6; 0x42; 0x68; 0x41; 0x99; 0x2d; 0x0f; 0xb0; 0x54; 0xbb; 0x16].

Definition k_rcon : list Z := [0x00; 0x01; 0x02; 0x04; 0x08; 0x10; 0x20; 0x40; 0x80; 0x1b; 0x36].

Definition sbox (x : Z) : Z := at0 k_sbox (Z.to_nat x).

(** ** The AES-128 block cipher *)

Definition xtime (x : Z) : Z :=
  u8 (Z.lxor (Z.shiftl x 1) (if bits_set x 0x80 then 0x1b else 0)).

(** One iteration [i] of the key schedule: [round_key] is filled left to right,
    four bytes at a time. *)
Definition expand_word (round_key : list Z) (i : nat) : list Z :=
  let temp := take 4 (drop ((i - 1) * 4) round_key) in
  let temp :=
    if (i mod 4 =? 0)%nat then
      let t := at0 temp 0 in
      let temp := <[0%nat := sbox (at0 temp 1)]> temp in
      let temp := <[1%nat := sbox (at0 temp 2)]> temp in
      let temp := <[2%nat := sbox (at0 temp 3)]> temp in
      let temp := <[3%nat := sbox t]> temp in
      <[0%nat := Z.lxor (at0 temp 0) (at0 k_rcon (i / 4))]> temp
    else temp in
  round_key ++ zip_with Z.lxor (take 4 (drop ((i - 4) * 4) round_key)) temp.

Definition expand_key (key : list Z) : list Z :=
  foldl expand_word (take 16 key) (seq 4 40).

Definition add_round_key (state round_key : list Z) : list Z :=
  zip_with Z.lxor state (take 16 round_key).

Definition sub_bytes (state : list Z) : list Z := sbox <$> state.

Definition shift_rows (state : list Z) : list Z :=
  let t := at0 state 1 in
  let state := <[1%nat := at0 state 5]> state in
  let state := <[5%nat := at0 state 9]> state in
  let state := <[9%nat := at0 state 13]> state in
  let state := <[13%nat := t]> state in
  let t := at0 state 2 in
  let state := <[2%nat := at0 state 10]> state in
  let state := <[10%nat := t]> state in
  let t := at0 state 6 in
  let state := <[6%nat := at0 state 14]> state in
  let state := <[14%nat := t]> state in
  let t := at0 state 15 in
  let state := <[15%nat := at0 state 11]> state in
  let state := <[11%nat := at0 state 7]> state in
  let state := <[7%nat := at0 state 3]> state in
  <[3%nat := t]> state.

Definition mix_column (a0 a1 a2 a3 : Z) : list Z :=
  [Z.lxor (Z.lxor (Z.lxor (xtime a0) (Z.lxor (xtime a1) a1)) a2) a3;
   Z.lxor (Z.lxor (Z.lxor a0 (xtime a1)) (Z.lxor (xtime a2) a2)) a3;
   Z.lxor (Z.lxor (Z.lxor a0 a1) (xtime a2)) (Z.lxor (xtime a3) a3);
   Z.lxor (Z.lxor (Z.lxor (Z.lxor (xtime a0) a0) a1) a2) (xtime a3)].

(** The loop body for column [c], in place. *)
Definition mix_column_at (s : list Z) (c : nat) : list Z :=
  let o := (c * 4)%nat in
  take o s ++ mix_column (at0 s o) (at0 s (o + 1)) (at0 s (o + 2)) (at0 s (o + 3))
  ++ drop (o + 4) s.

Definition mix_columns (state : list Z) : list Z := foldl mix_column_at state (seq 0 4).

Definition aes_round (round_key : list Z) (state : list Z) (round : nat) : list Z :=
  add_round_key (mix_columns (shift_rows (sub_bytes state))) (drop (round * 16) round_key).

Definition aes_encrypt_block (round_key inp : list Z) : list Z :=
  let state := add_round_key inp round_key in
  let state := foldl (aes_round round_key) state (seq 1 9) in
  add_round_key (shift_rows (sub_bytes state)) (drop 160 round_key).

(** ** GHASH *)

Definition xor_block (dst src : list Z) : list Z := zip_with Z.lxor dst src.

(** The loop runs from byte 15 down to 1, so every byte takes the low bit of the
    old byte before it. *)
Fixpoint shift_right_bytes (carry : Z) (v : list Z) : list Z :=
  match v with
  | [] => []
  | x :: v => u8 (Z.lor (Z.shiftr x 1) (Z.shiftl carry 7)) :: shift_right_bytes x v
  end.

Definition shift_right_block (v : list Z) : list Z :=
  let lsb := Z.land (at0 v 15) 1 in
  let v := shift_right_bytes 0 v in
  if c_true lsb then <[0%nat := Z.lxor (at0 v 0) 0xe1]> v else v.

(** State of the double loop of [gcm_mul]: the product so far and the shifted
    multiplicand. *)
Definition gcm_bit (x : list Z) (zv : list Z * list Z) (k : nat) : list Z * list Z :=
  let '(z, v) := zv in
  let z := if bits_set (at0 x (k / 8)) (Z.shiftl 1 (7 - Z.of_nat (k mod 8)))
           then xor_block z v else z in
  (z, shift_right_block v).

Definition gcm_mul (x h : list Z) : list Z :=
  (foldl (gcm_bit x) (zeros 16, h) (seq 0 128)).1.

Fixpoint ghash_loop (fuel : nat) (y h data : list Z) : list Z :=
  match fuel, data with
  | S fuel, _ :: _ =>
      let n := Nat.min 16 (length data) in
      let block := take n data ++ replicate (16 - n) 0 in
      ghash_loop fuel (gcm_mul (xor_block y block) h) h (drop n data)
  | _, _ => y
  end.

(** Each round consumes at least one byte. *)
Definition ghash_update (y h data : list Z) : list Z := ghash_loop (length data) y h data.

(** [for (i = 7; i >= 0; i--)]: least significant byte last. *)
Definition put_be64 (value : Z) : list Z :=
  (λ i, u8 (Z.land (Z.shiftr value (8 * (7 - Z.of_nat i))) 0xff)) <$> seq 0 8.

(** [inc32]: increment byte [i], carry on to [i - 1] while it wraps to 0. *)
Fixpoint inc32_loop (n : nat) (counter : list Z) (i : nat) : list Z :=
  match n with
  | O => counter
  | S n =>
      let b := u8 (at0 counter i + 1) in
      let counter := <[i := b]> counter in
      if c_true b then counter else inc32_loop n counter (i - 1)
  end.

Definition inc32 (counter : list Z) : list Z := inc32_loop 4 counter 15.

Definition gcm_tag (round_key h j0 aad ct : list Z) : list Z :=
  let y := zeros 16 in
  let y := if 0 <? blen aad then ghash_update y h aad else y in
  let y := if 0 <? blen ct then ghash_update y h ct else y in
  let lengths := put_be64 (u64 (blen aad * 8)) ++ put_be64 (u64 (blen ct * 8)) in
  let y := ghash_update y h lengths in
  xor_block y (aes_encrypt_block round_key j0).

(** ** Counter mode *)

Fixpoint ctr_loop (fuel : nat) (round_key counter inp : list Z) : list Z :=
  match fuel, inp with
  | S fuel, _ :: _ =>
      let n := Nat.min 16 (length inp) in
      let counter := inc32 counter in
      let stream := aes_encrypt_block round_key counter in
      zip_with (λ a b, u8 (Z.lxor a b)) (take n inp) (take n stream)
      ++ ctr_loop fuel round_key counter (drop n inp)
  | _, _ => []
  end.

Definition ctr_xor (round_key counter inp : list Z) : list Z :=
  ctr_loop (length inp) round_key counter inp.

Definition gcm_j0 (nonce : list Z) : list Z := take 12 nonce ++ [0; 0; 0; 1].

(** ** The two entry points *)

Definition link_aesgcm_encrypt (key nonce aad : option (list Z)) (aad_len : Z)
    (pt : option (list Z)) (pt_len : Z) (ct tag : option (list Z))
    : option (Z * option (list Z) * option (list Z)) :=
  match key, nonce, tag with
  | Some k, Some nn, Some tg =>
    if (0 <? pt_len) && negb (bool_decide (is_Some pt) && bool_decide (is_Some ct))
    then Some (-1, ct, tag) else
    if (0 <? aad_len) && negb (bool_decide (is_Some aad)) then Some (-1, ct, tag) else
    k ← rd_bytes k 0 16;
    nn ← rd_bytes nn 0 12;
    a ← rd_bytes (default [] aad) 0 aad_len;
    p ← rd_bytes (default [] pt) 0 pt_len;
    let round_key := expand_key k in
    let h := aes_encrypt_block round_key (zeros 16) in
    let j0 := gcm_j0 nn in
    let c := if 0 <? pt_len then ctr_xor round_key j0 p else [] in
    ct ← (if 0 <? pt_len then o ← wr_bytes (default [] ct) 0 c; Some (Some o) else Some ct);
    tg ← wr_bytes tg 0 (gcm_tag round_key h j0 a c);
    Some (0, ct, Some tg)
  | _, _, _ => Some (-1, ct, tag)
  end.

(** [diff |= expect[i] ^ tag[i]] over the 16 bytes. *)
Definition tag_diff (expect tag : list Z) : Z :=
  foldl Z.lor 0 (zip_with (λ a b, u8 (Z.lxor a b)) expect tag).

Definition link_aesgcm_decrypt (key nonce aad : option (list Z)) (aad_len : Z)
    (ct : option (list Z)) (ct_len : Z) (tag pt : option (list Z))
    : option (Z * option (list Z)) :=
  match key, nonce, tag with
  | Some k, Some nn, Some tg =>
    if (0 <? ct_len) && negb (bool_decide (is_Some ct) && bool_decide (is_Some pt))
    then Some (-1, pt) else
    if (0 <? aad_len) && negb (bool_decide (is_Some aad)) then Some (-1, pt) else
    k ← rd_bytes k 0 16;
    nn ← rd_bytes nn 0 12;
    a ← rd_bytes (default [] aad) 0 aad_len;
    c ← rd_bytes (default [] ct) 0 ct_len;
    tg ← rd_bytes tg 0 16;
    let round_key := expand_key k in
    let h := aes_encrypt_block round_key (zeros 16) in
    let j0 := gcm_j0 nn in
    let expect := gcm_tag round_key h j0 a c in
    if c_true (tag_diff expect tg) then Some (-1, pt) else
    pt ← (if 0 <? ct_len
          then o ← wr_bytes (default [] pt) 0 (ctr_xor round_key j0 c); Some (Some o)
          else Some pt);
    Some (0, pt)
  | _, _, _ => Some (-1, pt)
  end.

(** ** Blocks stay blocks *)

Definition block (n : nat) (b : list Z) : Prop := length b = n ∧ Forall is_u8 b.

#[export] Instance block_dec n b : Decision (block n b).
Proof. unfold block. apply _. Defined.

Lemma at0_u8 b i : Forall is_u8 b → is_u8 (at0 b i).
Proof.
  intros Hb. unfold at0. destruct (b !! i) as [x|] eqn:E; simpl.
  - by eapply Forall_lookup_1.
  - unfold in_w. lia.
Qed.

Lemma zeros_block n : 0 <= n → block (Z.to_nat n) (zeros n).
Proof.
  intros Hn. split; [by apply length_replicate|]. apply Forall_replicate. unfold in_w. lia.
Qed.

Lemma block_insert n b i x : block n b → is_u8 x → block n (<[i:=x]> b).
Proof. intros [Hl Hb] Hx. split; [by rewrite length_insert|by apply Forall_insert]. Qed.

Lemma Forall_zip_lxor a b :
  Forall is_u8 a → Forall is_u8 b → Forall is_u8 (zip_with Z.lxor a b).
Proof.
  intros Ha. revert b. induction Ha as [|x a Hx Ha IH]; intros b Hb; [constructor|].
  destruct Hb as [|y b Hy Hb]; constructor; [auto with cint|by apply IH].
Qed.

Lemma block_lxor n a b : block n a → block n b → block n (zip_with Z.lxor a b).
Proof.
  intros [Hla Ha] [Hlb Hb]. split; [rewrite length_zip_with; lia|by apply Forall_zip_lxor].
Qed.

Lemma block_take n m b : block n b → (m <= n)%nat → block m (take m b).
Proof. intros [Hl Hb] Hm. split; [rewrite length_take; lia|by apply Forall_take]. Qed.

Lemma block_drop n m b : block n b → block (n - m) (drop m b).
Proof. intros [Hl Hb]. split; [rewrite length_drop; lia|by apply Forall_drop]. Qed.

Lemma block_app n m a b : block n a → block m b → block (n + m) (a ++ b).
Proof. intros [? ?] [? ?]. split; [rewrite length_app; lia|by apply Forall_app]. Qed.

Lemma k_sbox_u8 : Forall is_u8 k_sbox.
Proof. apply (bool_decide_unpack _). by vm_compute. Qed.

Lemma k_rcon_u8 : Forall is_u8 k_rcon.
Proof. apply (bool_decide_unpack _). by vm_compute. Qed.

Lemma sbox_u8 x : is_u8 (sbox x).
Proof. apply at0_u8, k_sbox_u8. Qed.

Lemma xtime_u8 x : is_u8 (xtime x).
Proof. by apply wrap_in_w. Qed.

#[local] Hint Resolve sbox_u8 xtime_u8 at0_u8 k_rcon_u8 block_insert : cint.

Lemma expand_word_block n rk i :
  (4 <= i)%nat → n = (i * 4)%nat → block n rk → block (n + 4) (expand_word rk i).
Proof.
  intros Hi Hn Hrk. unfold expand_word. apply block_app; [done|].
  assert (∀ k, (1 <= k <= 4)%nat → block 4 (take 4 (drop ((i - k) * 4) rk))) as Hw.
  { intros k Hk. apply (block_take (n - (i - k) * 4)); [by apply block_drop|lia]. }
  apply block_lxor; [apply Hw; lia|].
  pose proof (Hw 1%nat ltac:(lia)) as Ht. pose proof Ht as [_ Hu].
  set (temp := take 4 _) in *. destruct (_ =? _)%nat; [|done].
  apply block_insert; [by repeat (apply block_insert; [|by auto with cint])|].
  apply lxor_in_w; [lia|apply at0_u8|apply at0_u8, k_rcon_u8].
  repeat (apply Forall_insert; [|by auto with cint]). done.
Qed.

Lemma expand_key_block key : block 16 key → block 176 (expand_key key).
Proof.
  intros Hk. unfold expand_key.
  assert (∀ m i rk, (4 <= i)%nat → block (i * 4) rk →
          block ((i + m) * 4) (foldl expand_word rk (seq i m))) as Hgen.
  { induction m as [|m IH]; intros i rk Hi Hrk; simpl; [by rewrite Nat.add_0_r|].
    replace ((i + S m) * 4)%nat with ((S i + m) * 4)%nat by lia. apply IH; [lia|].
    replace (S i * 4)%nat with (i * 4 + 4)%nat by lia. by apply expand_word_block. }
  rewrite take_ge by (destruct Hk; lia). by apply (Hgen 40%nat 4%nat); [lia|].
Qed.

Lemma add_round_key_block s rk n :
  block 16 s → block n rk → (16 <= n)%nat → block 16 (add_round_key s rk).
Proof. intros Hs Hrk Hn. apply block_lxor; [done|]. by eapply block_take. Qed.

Lemma sub_bytes_block n s : block n s → block n (sub_bytes s).
Proof.
  intros [Hl Hs]. unfold sub_bytes. split; [by rewrite length_fmap|].
  apply Forall_fmap, Forall_true. intros x. apply sbox_u8.
Qed.

Lemma shift_rows_block n s : block n s → block n (shift_rows s).
Proof.
  intros Hs. unfold shift_rows.
  assert (∀ s i j, block n s → block n (<[i := at0 s j]> s)) as Hi.
  { intros s' i j Hs'. apply block_insert; [done|apply at0_u8, Hs']. }
  assert (∀ s j, block n s → is_u8 (at0 s j)) as Ha by (intros s' j [_ ?]; by apply at0_u8).
  repeat first [done | apply Hi | apply Ha | apply block_insert].
Qed.

Lemma mix_column_block a0 a1 a2 a3 :
  is_u8 a0 → is_u8 a1 → is_u8 a2 → is_u8 a3 → block 4 (mix_column a0 a1 a2 a3).
Proof.
  intros. split; [done|]. unfold mix_column.
  repeat (constructor; [repeat (apply lxor_in_w; [lia| |]); auto with cint|]). constructor.
Qed.

Lemma mix_column_at_block s c : block 16 s → (c <= 3)%nat → block 16 (mix_column_at s c).
Proof.
  intros Hs Hc. unfold mix_column_at.
  replace 16%nat with (c * 4 + (4 + (16 - (c * 4 + 4))))%nat by lia.
  apply block_app; [apply (block_take 16); [done|lia]|].
  apply block_app; [|by apply block_drop]. destruct Hs as [_ Hs].
  apply mix_column_block; by apply at0_u8.
Qed.

(** A loop over indices keeps a block a block if its body does. *)
Lemma foldl_block {A} (f : list Z → A → list Z) (P : A → Prop) n l s :
  (∀ s x, block n s → P x → block n (f s x)) → Forall P l → block n s →
  block n (foldl f s l).
Proof. intros Hf Hl. revert s. induction Hl; intros s Hs; simpl; auto. Qed.

Lemma mix_columns_block s : block 16 s → block 16 (mix_columns s).
Proof.
  apply (foldl_block _ (λ c, c <= 3)%nat); [apply mix_column_at_block|].
  apply (bool_decide_unpack _). by vm_compute.
Qed.

Lemma aes_round_block rk s r :
  block 176 rk → block 16 s → (r <= 9)%nat → block 16 (aes_round rk s r).
Proof.
  intros Hrk Hs Hr. unfold aes_round. eapply add_round_key_block; [|by apply block_drop|lia].
  by apply mix_columns_block, shift_rows_block, sub_bytes_block.
Qed.

Lemma aes_encrypt_block_block rk inp :
  block 176 rk → block 16 inp → block 16 (aes_encrypt_block rk inp).
Proof.
  intros Hrk Hin. unfold aes_encrypt_block.
  eapply add_round_key_block; [|by apply block_drop|lia].
  apply shift_rows_block, sub_bytes_block.
  apply (foldl_block _ (λ r, r <= 9)%nat); [by auto using aes_round_block| |].
  - apply (bool_decide_unpack _). by vm_compute.
  - eapply add_round_key_block; [done..|lia].
Qed.

(** ** GHASH and the tag *)

Lemma xor_block_block n a b : block n a → block n b → block n (xor_block a b).
Proof. apply block_lxor. Qed.

Lemma shift_right_bytes_block n c v : block n v → block n (shift_right_bytes c v).
Proof.
  intros [Hl Hv]. split.
  - rewrite <- Hl. clear Hl Hv. revert c. induction v; intros c; simpl; auto.
  - clear Hl. revert c. induction Hv; intros c; simpl; constructor; auto with cint.
Qed.

Lemma shift_right_block_block n v : block n v → block n (shift_right_block v).
Proof.
  intros Hv. pose proof (shift_right_bytes_block n 0 v Hv) as Hs. unfold shift_right_block.
  destruct (c_true _); [|done]. apply block_insert; [done|]. destruct Hs as [_ Hs].
  apply lxor_in_w; [lia|by apply at0_u8|]. unfold in_w. lia.
Qed.

Lemma gcm_bits_block n x l z v :
  block n z → block n v →
  block n (foldl (gcm_bit x) (z, v) l).1 ∧ block n (foldl (gcm_bit x) (z, v) l).2.
Proof.
  revert z v. induction l as [|k l IH]; intros z v Hz Hv; [done|]. cbn [foldl gcm_bit].
  apply IH; [|by apply shift_right_block_block].
  destruct (bits_set _ _); [by apply xor_block_block|done].
Qed.

Lemma gcm_mul_block x h : block 16 h → block 16 (gcm_mul x h).
Proof. intros Hh. apply gcm_bits_block; [by apply (zeros_block 16)|done]. Qed.

Lemma ghash_loop_block fuel y h data :
  block 16 y → block 16 h → block 16 (ghash_loop fuel y h data).
Proof.
  revert y data. induction fuel as [|fuel IH]; intros y data Hy Hh; [done|].
  destruct data; [done|]. cbn [ghash_loop]. apply IH; [by apply gcm_mul_block|done].
Qed.

Lemma gcm_tag_block rk h j0 aad ct :
  block 176 rk → block 16 h → block 16 j0 → block 16 (gcm_tag rk h j0 aad ct).
Proof.
  intros Hrk Hh Hj. unfold gcm_tag.
  apply xor_block_block; [|by apply aes_encrypt_block_block].
  apply ghash_loop_block; [|done].
  pose proof (zeros_block 16 ltac:(lia)) as Hz. change (Z.to_nat 16) with 16%nat in Hz.
  repeat case_match; try done; repeat (apply ghash_loop_block; [|done]); done.
Qed.

Lemma zip_xor_u8 a b : Forall is_u8 (zip_with (λ a b, u8 (Z.lxor a b)) a b).
Proof.
  revert b. induction a as [|x a IH]; intros [|y b]; simpl; constructor; auto with cint.
Qed.

(** The comparison of the tags is equality. *)
Lemma lor_foldl_zero l a : Forall (λ z, 0 <= z) l → 0 <= a →
  foldl Z.lor a l = 0 ↔ a = 0 ∧ Forall (λ z, z = 0) l.
Proof.
  intros Hl. revert a. induction Hl as [|x l Hx Hl IH]; intros a Ha; simpl.
  - split; [intros ->; auto|by intros [-> _]].
  - rewrite IH by (apply Z.lor_nonneg; lia). rewrite Z.lor_eq_0_iff.
    split; [intros [[-> ->] ?]; auto|]. intros [-> H]. by apply Forall_cons_1 in H as [-> ?].
Qed.

Lemma tag_diff_zero n a b : block n a → block n b → c_true (tag_diff a b) = false ↔ a = b.
Proof.
  intros [Hla Ha] [Hlb Hb]. unfold c_true. rewrite negb_false_iff, Z.eqb_eq. unfold tag_diff.
  rewrite lor_foldl_zero; [|eapply List.Forall_impl; [|apply zip_xor_u8]; by intros ? []|lia].
  rewrite <- Hla in Hlb. clear Hla n. split.
  - intros [_ H]. revert b Hlb Hb H. induction Ha as [|x a Hx Ha IH]; intros [|y b] Hlb Hb H;
      try done. apply Forall_cons_1 in Hb as [Hy Hb]. simpl in H, Hlb.
    apply Forall_cons_1 in H as [Hxy H]. f_equal; [|apply IH; auto].
    rewrite wrap_id in Hxy by auto with cint. by apply Z.lxor_eq in Hxy.
  - intros <-. split; [done|]. clear Hlb Hb. induction Ha as [|x a Hx Ha IH]; simpl; [constructor|].
    constructor; [|done]. by rewrite Z.lxor_nilpotent.
Qed.

(** ** Counter mode *)

Lemma inc32_block n c : block n c → block n (inc32 c).
Proof.
  intros Hc. unfold inc32. generalize 4%nat, 15%nat. intros m. revert c Hc.
  induction m as [|m IH]; intros c Hc i; simpl; [done|].
  assert (block n (<[i:=u8 (at0 c i + 1)]> c)) by (apply block_insert; [done|auto with cint]).
  destruct (c_true _); [done|by apply IH].
Qed.

#[local] Opaque aes_encrypt_block inc32 expand_key gcm_tag.

(** The bytes of one block of counter mode. *)
Definition chunk (b : list Z) : nat := Nat.min 16 (length b).

Definition xor_stream (a s : list Z) : list Z := zip_with (λ a b, u8 (Z.lxor a b)) a s.

Lemma chunk_bound b : b ≠ [] → (0 < chunk b <= length b)%nat ∧ (chunk b <= 16)%nat.
Proof. destruct b; [done|]. intros _. unfold chunk. cbn [length]. lia. Qed.

Lemma ctr_loop_step fuel rk c inp :
  inp ≠ [] →
  ctr_loop (S fuel) rk c inp =
    xor_stream (take (chunk inp) inp) (take (chunk inp) (aes_encrypt_block rk (inc32 c)))
    ++ ctr_loop fuel rk (inc32 c) (drop (chunk inp) inp).
Proof. intros Hne. destruct inp as [|x inp]; [done|]. cbn [ctr_loop]. reflexivity. Qed.

Lemma ctr_loop_nil fuel rk c : ctr_loop fuel rk c [] = [].
Proof. by destruct fuel. Qed.

Lemma xor_stream_length a s : (length a <= length s)%nat → length (xor_stream a s) = length a.
Proof. intros. unfold xor_stream. rewrite length_zip_with. lia. Qed.

Lemma ctr_loop_length rk c inp fuel :
  block 176 rk → block 16 c → (length inp <= fuel)%nat →
  length (ctr_loop fuel rk c inp) = length inp.
Proof.
  intros Hrk. revert c inp. induction fuel as [|fuel IH]; intros c inp Hc Hf.
  - destruct inp; [done|simpl in Hf; lia].
  - destruct (decide (inp = [])) as [->|Hne]; [by rewrite ctr_loop_nil|].
    pose proof (chunk_bound inp Hne) as [Hn Hn'].
    destruct (aes_encrypt_block_block rk (inc32 c)) as [Hl _]; [done|by apply inc32_block|].
    rewrite ctr_loop_step, length_app, IH;
      [|by apply inc32_block|rewrite length_drop; lia|done].
    rewrite xor_stream_length; rewrite !length_take; [rewrite length_drop|]; lia.
Qed.

Lemma ctr_loop_u8 rk c inp fuel : Forall is_u8 (ctr_loop fuel rk c inp).
Proof.
  revert c inp. induction fuel as [|fuel IH]; intros c inp; [constructor|].
  destruct (decide (inp = [])) as [->|Hne]; [constructor|].
  rewrite ctr_loop_step by done. apply Forall_app. split; [apply zip_xor_u8|apply IH].
Qed.

Lemma xor_stream_twice a s :
  Forall is_u8 a → (length a <= length s)%nat → Forall is_u8 s →
  xor_stream (xor_stream a s) s = a.
Proof.
  unfold xor_stream.
  intros Ha. revert s. induction Ha as [|x a Hx Ha IH]; intros [|y s] Hl Hs; simpl in *;
    try done; [lia|].
  apply Forall_cons_1 in Hs as [Hy Hs]. f_equal; [|apply IH; [lia|done]].
  rewrite (wrap_id _ (Z.lxor x y)) by auto with cint.
  rewrite Z.lxor_assoc, Z.lxor_nilpotent, Z.lxor_0_r. by apply wrap_id.
Qed.

(** Encrypting twice with the same counter gives the input back. *)
Lemma ctr_loop_involutive rk c inp fuel :
  block 176 rk → block 16 c → Forall is_u8 inp → (length inp <= fuel)%nat →
  ctr_loop fuel rk c (ctr_loop fuel rk c inp) = inp.
Proof.
  intros Hrk. revert c inp. induction fuel as [|fuel IH]; intros c inp Hc Hi Hf.
  - destruct inp; [done|simpl in Hf; lia].
  - destruct (decide (inp = [])) as [->|Hne]; [by rewrite !ctr_loop_nil|].
    pose proof (chunk_bound inp Hne) as [Hn Hn'].
    pose proof (ctr_loop_length rk c inp (S fuel) Hrk Hc Hf) as Hlen.
    assert (ctr_loop (S fuel) rk c inp ≠ []) as Hne'.
    { intros E. rewrite E in Hlen. simpl in Hlen. lia. }
    rewrite (ctr_loop_step _ _ _ (ctr_loop _ _ _ _)) by done.
    assert (chunk (ctr_loop (S fuel) rk c inp) = chunk inp) as -> by (unfold chunk; lia).
    rewrite (ctr_loop_step _ _ _ inp) by done.
    destruct (aes_encrypt_block_block rk (inc32 c)) as [Hl Hu]; [done|by apply inc32_block|].
    set (s := aes_encrypt_block rk (inc32 c)) in *.
    assert (length (xor_stream (take (chunk inp) inp) (take (chunk inp) s)) = chunk inp) as Hz.
    { rewrite xor_stream_length; rewrite !length_take; lia. }
    rewrite take_app_length', drop_app_length' by done.
    rewrite IH; [|by apply inc32_block|by apply Forall_drop|rewrite length_drop; lia].
    rewrite xor_stream_twice; [apply take_drop|by apply Forall_take| |by apply Forall_take].
    rewrite !length_take. lia.
Qed.

Lemma ctr_xor_involutive rk c inp :
  block 176 rk → block 16 c → Forall is_u8 inp → ctr_xor rk c (ctr_xor rk c inp) = inp.
Proof.
  intros Hrk Hc Hi. unfold ctr_xor at 1.
  assert (length (ctr_xor rk c inp) = length inp) as -> by by apply ctr_loop_length.
  by apply ctr_loop_involutive.
Qed.

Lemma ctr_xor_length rk c inp :
  block 176 rk → block 16 c → length (ctr_xor rk c inp) = length inp.
Proof. intros. by apply ctr_loop_length. Qed.

Lemma ctr_xor_u8 rk c inp : Forall is_u8 (ctr_xor rk c inp).
Proof. apply ctr_loop_u8. Qed.

Lemma gcm_j0_block nonce : block 12 nonce → block 16 (gcm_j0 nonce).
Proof.
  intros Hn. apply (block_app 12 4); [by apply (block_take 12)|].
  split; [done|]. apply (bool_decide_unpack _). by vm_compute.
Qed.

(** ** Sealing a message and opening it

    [gcm_seal] is what the two entry points compute on valid arguments. *)

Definition gcm_seal (key nonce aad pt : list Z) : list Z * list Z :=
  let rk := expand_key key in
  let j0 := gcm_j0 nonce in
  let ct := ctr_xor rk j0 pt in
  (ct, gcm_tag rk (aes_encrypt_block rk (zeros 16)) j0 aad ct).

Lemma gcm_seal_length key nonce aad pt :
  block 16 key → block 12 nonce →
  length (gcm_seal key nonce aad pt).1 = length pt ∧ block 16 (gcm_seal key nonce aad pt).2.
Proof.
  intros Hk Hn. pose proof (gcm_j0_block _ Hn). pose proof (expand_key_block _ Hk).
  split; [by apply ctr_xor_length|]. apply gcm_tag_block; [done| |done].
  apply aes_encrypt_block_block; [done|by apply (zeros_block 16)].
Qed.

Lemma link_aesgcm_encrypt_ok key nonce aad pt ct tag :
  block 16 key → block 12 nonce → blen pt <= blen ct → 16 <= blen tag →
  let '(c, t) := gcm_seal key nonce aad pt in
  link_aesgcm_encrypt (Some key) (Some nonce) (Some aad) (blen aad) (Some pt) (blen pt)
    (Some ct) (Some tag) =
  Some (0, Some (c ++ drop (length c) ct), Some (t ++ drop 16 tag)).
Proof.
  intros Hk Hn Hc Ht. pose proof (gcm_seal_length key nonce aad pt Hk Hn) as [Hl [Htl _]].
  unfold gcm_seal in *. cbn [fst snd] in *. unfold link_aesgcm_encrypt.
  rewrite !bool_decide_true by (by eexists). cbn [andb negb]. rewrite !andb_false_r.
  assert (blen key = 16 ∧ blen nonce = 12) as [Hk' Hn'].
  { unfold blen. by rewrite (proj1 Hk), (proj1 Hn). }
  repeat (rewrite rd_bytes_all by done; cbn [mbind option_bind default from_option id]).
  generalize dependent (gcm_j0 nonce). generalize dependent (expand_key key).
  intros rk j0 Hl Htl. clear Hk Hn.
  generalize dependent (gcm_tag rk (aes_encrypt_block rk (zeros 16)) j0 aad). intros tg Htl.
  assert ((if 0 <? blen pt then ctr_xor rk j0 pt else []) = ctr_xor rk j0 pt) as ->.
  { destruct pt; [done|]. rewrite (proj2 (Z.ltb_lt _ _)); [done|].
    rewrite blen_cons. pose proof (blen_nonneg pt). lia. }
  assert ((if 0 <? blen pt
           then o ← wr_bytes ct 0 (ctr_xor rk j0 pt); Some (Some o)
           else Some (Some ct)) =
          Some (Some (ctr_xor rk j0 pt ++ drop (length (ctr_xor rk j0 pt)) ct))) as ->.
  { destruct (0 <? blen pt) eqn:E; [|destruct pt; [done|]].
    - rewrite wr_bytes_prefix; [done|]. unfold blen in *. lia.
    - rewrite blen_cons in E. pose proof (blen_nonneg pt). zbool. lia. }
  cbn [mbind option_bind]. rewrite wr_bytes_prefix by (unfold blen in *; lia).
  cbn [mbind option_bind]. by rewrite Htl.
Qed.

Lemma link_aesgcm_decrypt_ok key nonce aad ct tag pt :
  block 16 key → block 12 nonce → block 16 tag → blen ct <= blen pt →
  let rk := expand_key key in
  link_aesgcm_decrypt (Some key) (Some nonce) (Some aad) (blen aad) (Some ct) (blen ct)
    (Some tag) (Some pt) =
  if decide (gcm_tag rk (aes_encrypt_block rk (zeros 16)) (gcm_j0 nonce) aad ct = tag)
  then Some (0, Some (ctr_xor rk (gcm_j0 nonce) ct ++ drop (length ct) pt))
  else Some (-1, Some pt).
Proof.
  intros Hk Hn Ht Hc. cbv zeta. unfold link_aesgcm_decrypt.
  rewrite !bool_decide_true by (by eexists). cbn [andb negb]. rewrite !andb_false_r.
  assert (blen key = 16 ∧ blen nonce = 12 ∧ blen tag = 16) as (Hk' & Hn' & Ht').
  { unfold blen. by rewrite (proj1 Hk), (proj1 Hn), (proj1 Ht). }
  repeat (rewrite rd_bytes_all by done; cbn [mbind option_bind default from_option id]).
  pose proof (expand_key_block _ Hk) as Hrk. pose proof (gcm_j0_block _ Hn) as Hj.
  generalize dependent (gcm_j0 nonce). generalize dependent (expand_key key).
  intros rk Hrk j0 Hj. clear Hk Hn.
  pose proof (tag_diff_zero 16
    (gcm_tag rk (aes_encrypt_block rk (zeros 16)) j0 aad ct) tag) as Hd.
  destruct (decide _) as [E|E].
  - rewrite (proj2 (Hd ltac:(rewrite E; done) Ht)) by done.
    assert (length (ctr_xor rk j0 ct) = length ct) as Hl by by apply ctr_xor_length.
    destruct (0 <? blen ct) eqn:E0.
    + rewrite wr_bytes_prefix by (unfold blen in *; lia). cbn [mbind option_bind]. by rewrite Hl.
    + destruct ct; [done|]. rewrite blen_cons in E0. pose proof (blen_nonneg ct). zbool. lia.
  - destruct (c_true _) eqn:Ed; [done|]. destruct E. apply Hd; [|done..].
    apply gcm_tag_block; [done| |done].
    apply aes_encrypt_block_block; [done|by apply (zeros_block 16)].
Qed.

(** ** The field arithmetic behind the cipher

    The reference definitions of FIPS 197 and SP 800-38D, on integers read as
    polynomials over GF(2). *)

(** Multiplication in GF(2^8) modulo x^8 + x^4 + x^3 + x + 1. *)
Fixpoint gf256_mul_loop (n : nat) (a b : Z) : Z :=
  match n with
  | O => 0
  | S n =>
      let a2 := if Z.testbit a 7 then Z.lxor (Z.shiftl a 1) 0x11b else Z.shiftl a 1 in
      Z.lxor (if Z.testbit b 0 then a else 0) (gf256_mul_loop n a2 (Z.shiftr b 1))
  end.
Definition gf256_mul (a b : Z) : Z := gf256_mul_loop 8 a b.

(** [a^254]: the inverse of [a], and 0 for 0. *)
Definition gf256_inv (a : Z) : Z :=
  let r := foldl (λ r _, gf256_mul (gf256_mul r r) a) a (seq 0 6) in gf256_mul r r.

Definition rotl8 (b k : Z) : Z := Z.lor (u8 (Z.shiftl b k)) (Z.shiftr b (8 - k)).

(** The S-box of FIPS 197: inversion, then the affine map. *)
Definition sbox_ref (x : Z) : Z :=
  let b := gf256_inv x in foldl Z.lxor 0x63 (b :: (rotl8 b <$> [1; 2; 3; 4])).

(** A column times the circulant matrix (2, 3, 1, 1). *)
Definition mix_column_ref (a : list Z) : list Z :=
  (λ r, foldl Z.lxor 0
     (zip_with (λ m j, gf256_mul (at0 a ((r + j) mod 4)) m) [2; 3; 1; 1] (seq 0 4)))
  <$> seq 0 4.

(** Multiplication in GF(2^128) of SP 800-38D, Algorithm 1. *)
Fixpoint gf128_loop (n : nat) (x z v : Z) : Z :=
  match n with
  | O => z
  | S n =>
      gf128_loop n x (if Z.testbit x (Z.of_nat n) then Z.lxor z v else z)
        (if Z.testbit v 0 then Z.lxor (Z.shiftr v 1) (Z.shiftl 0xe1 120) else Z.shiftr v 1)
  end.
Definition gf128_mul (x y : Z) : Z := gf128_loop 128 x 0 y.

(** A byte string as a big-endian integer. *)
Fixpoint block_Z (b : list Z) : Z :=
  match b with
  | [] => 0
  | x :: b => block_Z b + x * 2 ^ (8 * blen b)
  end.

Lemma all_u8 (P : Z → bool) :
  forallb P (Z.of_nat <$> seq 0 256) = true → ∀ x, is_u8 x → P x = true.
Proof.
  intros H x Hx. rewrite forallb_forall in H. apply H.
  apply list_elem_of_In, list_elem_of_fmap. exists (Z.to_nat x).
  split; [unfold in_w in Hx; lia|]. apply elem_of_seq. unfold in_w in Hx. lia.
Qed.

Lemma sbox_table x : is_u8 x → sbox x = sbox_ref x.
Proof.
  intros Hx. apply Z.eqb_eq. revert x Hx. apply all_u8. by vm_compute.
Qed.

Lemma gf256_small x : is_u8 x →
  gf256_mul x 1 = x ∧ gf256_mul x 2 = xtime x ∧ gf256_mul x 3 = Z.lxor (xtime x) x.
Proof.
  intros Hx. rewrite <- !Z.eqb_eq, <- !andb_true_iff. revert x Hx. apply all_u8. by vm_compute.
Qed.

Ltac lxor_bits :=
  apply Z.bits_inj; intros ?i; rewrite !Z.lxor_spec;
  repeat match goal with |- context [Z.testbit ?a ?i] => destruct (Z.testbit a i) end; done.

Lemma mix_column_gf a0 a1 a2 a3 :
  is_u8 a0 → is_u8 a1 → is_u8 a2 → is_u8 a3 →
  mix_column a0 a1 a2 a3 = mix_column_ref [a0; a1; a2; a3].
Proof.
  intros [H0 [H0' H0'']]%gf256_small [H1 [H1' H1'']]%gf256_small
    [H2 [H2' H2'']]%gf256_small [H3 [H3' H3'']]%gf256_small.
  unfold mix_column_ref, mix_column. cbn -[gf256_mul Z.lxor xtime].
  rewrite H0, H0', H0'', H1, H1', H1'', H2, H2', H2'', H3, H3', H3'', !Z.lxor_0_l.
  repeat (apply (f_equal2 cons); [lxor_bits|]). done.
Qed.

(** ** Blocks as integers *)

Lemma block_Z_in_w b : Forall is_u8 b → in_w (8 * blen b) (block_Z b).
Proof.
  induction 1 as [|x b Hx Hb IH]; [split; done|]. simpl. rewrite blen_cons.
  unfold in_w in *. pose proof (blen_nonneg b).
  replace (8 * (1 + blen b)) with (8 + 8 * blen b) by lia.
  rewrite Z.pow_add_r by lia. pose proof (pow2_pos (8 * blen b)). nia.
Qed.

(** Gluing two bit fields commutes with xor. *)
Lemma glue_lxor n lo hi lo' hi' :
  0 <= n → in_w n lo → in_w n lo' →
  Z.lxor (lo + hi * 2 ^ n) (lo' + hi' * 2 ^ n) = Z.lxor lo lo' + Z.lxor hi hi' * 2 ^ n.
Proof.
  intros Hn Hlo Hlo'.
  rewrite <- !lor_shiftl_add by (auto using lxor_in_w).
  apply Z.bits_inj. intros i. rewrite !Z.lxor_spec, !Z.lor_spec, !Z.lxor_spec.
  destruct (Z.lt_ge_cases i n).
  - by rewrite !Z.shiftl_spec_low, !orb_false_r by lia.
  - rewrite (in_w_testbit_high n lo), (in_w_testbit_high n lo') by (done || lia).
    rewrite !Z.shiftl_spec, Z.lxor_spec by lia. done.
Qed.

Lemma block_Z_lxor a b :
  length a = length b → Forall is_u8 a → Forall is_u8 b →
  block_Z (zip_with Z.lxor a b) = Z.lxor (block_Z a) (block_Z b).
Proof.
  intros Hl Ha. revert b Hl. induction Ha as [|x a Hx Ha IH]; intros [|y b] Hl Hb; try done.
  apply Forall_cons_1 in Hb as [Hy Hb]. injection Hl as Hl. cbn [zip_with block_Z].
  assert (blen (zip_with Z.lxor a b) = blen a ∧ blen b = blen a) as [-> E].
  { unfold blen. rewrite length_zip_with. lia. }
  rewrite E, glue_lxor, IH; [done..| |by apply block_Z_in_w|].
  - pose proof (blen_nonneg a). lia.
  - rewrite <- E. by apply block_Z_in_w.
Qed.

(** Bit [j] of byte [i], counted from the most significant byte. *)
Lemma block_Z_testbit b i j :
  Forall is_u8 b → (i < length b)%nat → 0 <= j < 8 →
  Z.testbit (block_Z b) (8 * (blen b - 1 - Z.of_nat i) + j) = Z.testbit (at0 b i) j.
Proof.
  intros Hb. revert i. induction Hb as [|x b Hx Hb IH]; intros i Hi Hj; [simpl in Hi; lia|].
  cbn [block_Z]. pose proof (block_Z_in_w b Hb) as Hw. pose proof (blen_nonneg b) as Hnn.
  rewrite <- lor_shiftl_add, Z.lor_spec by (done || lia). rewrite blen_cons.
  destruct i as [|i].
  - rewrite (in_w_testbit_high (8 * blen b)) by (done || lia).
    rewrite Z.shiftl_spec by lia. cbn [orb]. unfold at0. simpl. f_equal. lia.
  - simpl in Hi. rewrite Z.shiftl_spec_low by (unfold blen in *; lia). rewrite orb_false_r.
    change (at0 (x :: b) (S i)) with (at0 b i). rewrite <- (IH i) by lia. f_equal. lia.
Qed.

Lemma shift_byte x c :
  is_u8 x → u8 (Z.lor (Z.shiftr x 1) (Z.shiftl c 7)) = x / 2 + 128 * (c mod 2).
Proof.
  intros Hx. rewrite lor_shiftl_add by (lia || by apply (shiftr_in_w 7 1)).
  rewrite Z.shiftr_div_pow2 by lia. unfold wrap, in_w in *.
  pose proof (Z.div_mod c 2). change (2 ^ 1) with 2. change (2 ^ 7) with 128.
  change (2 ^ 8) with 256 in *.
  replace (x / 2 + c * 128) with (x / 2 + 128 * (c mod 2) + c / 2 * 256) by lia.
  rewrite Z_mod_plus_full. apply Z.mod_small.
  pose proof (Z.mod_pos_bound c 2). pose proof (Z.div_pos x 2).
  pose proof (Z.div_lt_upper_bound x 2 128). lia.
Qed.

Lemma block_Z_shift_right c b :
  b ≠ [] → Forall is_u8 b →
  block_Z (shift_right_bytes c b) = block_Z b / 2 + (c mod 2) * 2 ^ (8 * blen b - 1).
Proof.
  intros Hne Hb. revert c Hne. induction Hb as [|x b Hx Hb IH]; intros c Hne; [done|].
  cbn [shift_right_bytes block_Z]. rewrite shift_byte, blen_cons by done.
  assert (blen (shift_right_bytes x b) = blen b) as ->.
  { unfold blen. f_equal. clear. revert x. induction b; intros x; simpl; auto. }
  replace (8 * (1 + blen b) - 1) with (7 + 8 * blen b) by lia.
  pose proof (blen_nonneg b). rewrite Z.pow_add_r by lia. change (2 ^ 7) with 128.
  destruct b as [|y b].
  { cbn [shift_right_bytes block_Z]. change (2 ^ (8 * blen (@nil Z))) with 1.
    rewrite !Z.add_0_l, !Z.mul_1_r. lia. }
  rewrite IH by done. set (n := blen (y :: b)) in *.
  assert (1 <= n) by (unfold n; rewrite blen_cons; pose proof (blen_nonneg b); lia).
  replace (8 * n) with (1 + (8 * n - 1)) by lia. rewrite Z.pow_add_r by lia.
  replace (1 + (8 * n - 1) - 1) with (8 * n - 1) by lia. change (2 ^ 1) with 2.
  set (M := 2 ^ (8 * n - 1)).
  replace (block_Z (y :: b) + x * (2 * M)) with (block_Z (y :: b) + (x * M) * 2) by ring.
  rewrite Z.div_add by lia. pose proof (Z.div_mod x 2). nia.
Qed.

Lemma insert_lxor_0 b x :
  length b = 16%nat →
  <[0%nat := Z.lxor (at0 b 0) x]> b = zip_with Z.lxor b (x :: replicate 15 0).
Proof.
  intros Hl. do 16 (destruct b as [|? b]; [done|]). destruct b; [|done].
  unfold at0. simpl. by rewrite !Z.lxor_0_r.
Qed.

Lemma block_Z_odd b :
  block 16 b → c_true (Z.land (at0 b 15) 1) = Z.testbit (block_Z b) 0.
Proof.
  intros [Hl Hb]. change 1 with (2 ^ 0). change (c_true (Z.land ?a ?b)) with (bits_set a b).
  rewrite bits_set_pow2 by lia. rewrite <- (block_Z_testbit b 15 0) by (done || lia).
  f_equal. unfold blen. rewrite Hl. done.
Qed.

(** One right shift with reduction. *)
Lemma shift_right_block_Z v :
  block 16 v →
  block_Z (shift_right_block v) =
    if Z.testbit (block_Z v) 0 then Z.lxor (Z.shiftr (block_Z v) 1) (Z.shiftl 0xe1 120)
    else Z.shiftr (block_Z v) 1.
Proof.
  intros Hv. destruct (shift_right_bytes_block 16 0 v Hv) as [Hl' Hb']. pose proof Hv as [Hl Hb].
  assert (block_Z (shift_right_bytes 0 v) = Z.shiftr (block_Z v) 1) as E.
  { rewrite block_Z_shift_right; [|by destruct v|done]. rewrite Z.shiftr_div_pow2 by lia.
    change (0 mod 2) with 0. rewrite Z.mul_0_l, Z.add_0_r. done. }
  unfold shift_right_block. cbv zeta. rewrite block_Z_odd by done.
  destruct (Z.testbit _ 0); [|done]. rewrite insert_lxor_0 by done.
  rewrite block_Z_lxor, E; [done|by rewrite Hl'|done|].
  apply (bool_decide_unpack _). by vm_compute.
Qed.

Lemma gcm_bit_Z x k :
  block 16 x → (k < 128)%nat →
  bits_set (at0 x (k / 8)) (Z.shiftl 1 (7 - Z.of_nat (k mod 8))) =
    Z.testbit (block_Z x) (Z.of_nat (127 - k)).
Proof.
  intros [Hl Hb] Hk. pose proof (Nat.div_mod_eq k 8) as E.
  pose proof (Nat.mod_upper_bound k 8 ltac:(lia)) as Hm.
  assert (k / 8 < 16)%nat by (apply Nat.Div0.div_lt_upper_bound; lia).
  rewrite Z.shiftl_mul_pow2, Z.mul_1_l, bits_set_pow2 by lia.
  rewrite <- block_Z_testbit by (done || lia). f_equal. unfold blen. rewrite Hl. lia.
Qed.

Lemma gcm_loop_Z x n z v :
  block 16 x → block 16 z → block 16 v → (n <= 128)%nat →
  block_Z (foldl (gcm_bit x) (z, v) (seq (128 - n) n)).1 =
    gf128_loop n (block_Z x) (block_Z z) (block_Z v).
Proof.
  intros Hx. revert z v. induction n as [|n IH]; intros z v Hz Hv Hn; [done|].
  cbn [seq foldl gf128_loop]. unfold gcm_bit at 2. rewrite gcm_bit_Z by (done || lia).
  replace (S (128 - S n)) with (128 - n)%nat by lia.
  replace (127 - (128 - S n))%nat with n by lia.
  rewrite IH; [|destruct (Z.testbit _ _); [by apply xor_block_block|done]
               |by apply shift_right_block_block|lia].
  rewrite shift_right_block_Z by done. f_equal. destruct (Z.testbit _ _); [|done].
  destruct Hz, Hv. apply block_Z_lxor; [congruence|done..].
Qed.

Lemma gcm_mul_gf128 x h :
  block 16 x → block 16 h → block_Z (gcm_mul x h) = gf128_mul (block_Z x) (block_Z h).
Proof.
  intros Hx Hh. unfold gcm_mul, gf128_mul. change 0%nat with (128 - 128)%nat.
  rewrite gcm_loop_Z; [done|done|by apply (zeros_block 16)|done|lia].
Qed.

(** ** The block counter *)

Lemma block_Z_app a b : block_Z (a ++ b) = block_Z b + block_Z a * 2 ^ (8 * blen b).
Proof.
  induction a as [|x a IH]; [simpl; lia|]. cbn [app block_Z]. rewrite IH, blen_app.
  pose proof (blen_nonneg a). pose proof (blen_nonneg b).
  rewrite Z.mul_add_distr_l, Z.pow_add_r by lia. ring.
Qed.

Lemma inc_byte x : is_u8 x →
  (c_true (u8 (x + 1)) = true ∧ u8 (x + 1) = x + 1 ∧ x < 255)
  ∨ (c_true (u8 (x + 1)) = false ∧ u8 (x + 1) = 0 ∧ x = 255).
Proof.
  intros Hx. unfold in_w in Hx. destruct (decide (x = 255)) as [->|]; [right; done|left].
  rewrite wrap_id by (unfold in_w; lia). unfold c_true. split; [|lia].
  rewrite (proj2 (Z.eqb_neq _ _)) by lia. done.
Qed.

Lemma inc32_loop_step n p x r :
  inc32_loop (S n) (p ++ x :: r) (length p) =
    if c_true (u8 (x + 1)) then p ++ u8 (x + 1) :: r
    else inc32_loop n (p ++ u8 (x + 1) :: r) (length p - 1).
Proof.
  cbn [inc32_loop]. unfold at0. rewrite list_lookup_middle by done.
  cbn [default from_option id]. rewrite insert_app_r_alt, Nat.sub_diag by lia. done.
Qed.

(** The carry loop adds one to the [n]-byte field that ends at its start index. *)
Lemma inc32_loop_Z n p q r :
  length q = n → Forall is_u8 q →
  ∃ q', inc32_loop n (p ++ q ++ r) (length p + n - 1) = p ++ q' ++ r ∧ length q' = n ∧
    Forall is_u8 q' ∧ block_Z q' = (block_Z q + 1) mod 2 ^ (8 * Z.of_nat n).
Proof.
  revert q r. induction n as [|n IH]; intros q r Hl Hq.
  { destruct q; [|done]. exists []. done. }
  destruct q as [|x q0 _] using rev_ind; [done|]. rewrite length_app in Hl. simpl in Hl.
  apply Forall_app in Hq as [Hq0 Hx]. apply Forall_cons_1 in Hx as [Hx _].
  replace (length p + S n - 1)%nat with (length (p ++ q0)) by (rewrite length_app; lia).
  replace (p ++ (q0 ++ [x]) ++ r) with ((p ++ q0) ++ x :: r) by (by rewrite <- !app_assoc).
  rewrite inc32_loop_step, block_Z_app. cbn [block_Z].
  change (2 ^ (8 * blen [x])) with 256. change (2 ^ (8 * blen (@nil Z))) with 1.
  pose proof (block_Z_in_w q0 Hq0) as Hw. unfold blen in Hw.
  replace (length q0) with n in Hw by lia.
  destruct (inc_byte x Hx) as [(-> & -> & Hlt)|(-> & -> & ->)].
  - exists (q0 ++ [x + 1]). rewrite length_app, Forall_app, block_Z_app. cbn [block_Z length].
    change (2 ^ (8 * blen [x + 1])) with 256. change (2 ^ (8 * blen (@nil Z))) with 1.
    unfold in_w in *. split_and!; [by rewrite <- !app_assoc|simpl; lia|done|repeat constructor; lia|].
    rewrite Z.mod_small; [lia|]. rewrite Nat2Z.inj_succ.
    replace (8 * Z.succ (Z.of_nat n)) with (8 + 8 * Z.of_nat n) by lia.
    rewrite Z.pow_add_r by lia. lia.
  - destruct (IH q0 (0 :: r)) as (q' & Hq' & Hl' & Hu & HZ); [lia|done|].
    exists (q' ++ [0]). rewrite length_app, Forall_app, block_Z_app, HZ. cbn [block_Z length].
    change (2 ^ (8 * blen [0])) with 256. rewrite length_app, <- !app_assoc.
    split_and!; [|simpl; lia|done|repeat constructor; unfold in_w; lia|].
    + replace (length p + length q0 - 1)%nat with (length p + n - 1)%nat by lia. done.
    + rewrite Nat2Z.inj_succ.
      replace (8 * Z.succ (Z.of_nat n)) with (8 * Z.of_nat n + 8) by lia.
      rewrite Z.pow_add_r, Z.mul_0_l, !Z.add_0_l, <- Z.mul_mod_distr_r by lia.
      change (2 ^ 8) with 256. f_equal. lia.
Qed.

Lemma inc32_counter p q :
  block 12 p → block 4 q →
  ∃ q', inc32 (p ++ q) = p ++ q' ∧ block 4 q' ∧ block_Z q' = (block_Z q + 1) mod 2 ^ 32.
Proof.
  intros [Hp _] [Hq Hu]. destruct (inc32_loop_Z 4 p q [] Hq Hu) as (q' & E & ? & ? & ?).
  rewrite !app_nil_r, Hp in E. exists q'. done.
Qed.

(** The [i]-th counter block of a message: its nonce, then 2 + i modulo 2^32. *)
Lemma counter_block nonce i :
  block 12 nonce →
  ∃ q, Nat.iter i inc32 (gcm_j0 nonce) = nonce ++ q ∧ block 4 q ∧
    block_Z q = (1 + Z.of_nat i) mod 2 ^ 32.
Proof.
  intros Hn. induction i as [|i (q & E & Hq & HZ)].
  - exists [0; 0; 0; 1]. cbn [Nat.iter]. unfold gcm_j0. destruct Hn as [Hl Hn].
    rewrite take_ge by lia. split; [done|]. split; [|done].
    apply (bool_decide_unpack _). by vm_compute.
  - rewrite Nat.iter_succ, E. destruct (inc32_counter nonce q Hn Hq) as (q' & -> & Hq' & HZ').
    exists q'. split; [done|]. split; [done|]. rewrite HZ', HZ, Zplus_mod_idemp_l. f_equal. lia.
Qed.

(** ** Theorems *)

#[local] Opaque ctr_xor.

Lemma gcm_seal_inv key nonce aad pt c t :
  gcm_seal key nonce aad pt = (c, t) →
  ctr_xor (expand_key key) (gcm_j0 nonce) pt = c ∧
  gcm_tag (expand_key key) (aes_encrypt_block (expand_key key) (zeros 16)) (gcm_j0 nonce)
    aad c = t.
Proof.
  unfold gcm_seal. intros [E1 E2]%pair_equal_spec. subst c. split; [reflexivity|exact E2].
Qed.

(** Test case 2 of the GCM specification: zero key, zero nonce, one zero block. *)
Example gcm_test_case_2 :
  prod_map block_Z block_Z (gcm_seal (zeros 16) (zeros 12) [] (zeros 16)) =
    (0x0388dace60b6a392f328c2b971b2fe78, 0xab6e47d42cec13bdf53a67b21257bddf).
Proof. by vm_compute. Qed.

(** The column loop replaces each column of the state by its product. *)
Lemma mix_columns_ref s :
  block 16 s → mix_columns s = concat ((λ c, mix_column_ref (take 4 (drop (4 * c) s))) <$> seq 0 4).
Proof.
  intros [Hl Hu]. do 16 (destruct s as [|? s]; [done|]). destruct s; [|done].
  repeat (apply Forall_cons_1 in Hu as [? Hu]). unfold mix_columns. cbn [seq fmap list_fmap concat foldl].
  unfold mix_column_at. cbn [take drop app at0 nth Nat.mul Nat.add]. unfold at0. cbn [lookup list_lookup default from_option].
  unfold id. rewrite !mix_column_gf by done. cbn [app take drop Nat.mul Nat.add mix_column_ref]. reflexivity.
Qed.

(** Row [r] of the state moves [r] columns to the left, around. *)
Lemma shift_rows_ref s : block 16 s → shift_rows s = (λ i, at0 s ((5 * i) mod 16)) <$> seq 0 16.
Proof.
  intros [Hl Hu]. do 16 (destruct s as [|? s]; [done|]). destruct s; [|done]. reflexivity.
Qed.

(** C28: the steps of the ciphers, written on tables and byte arrays, are those of the standards.
    Substitution puts each byte through inversion in GF(2^8) and the affine map; shifting rows
    moves the byte in row r and column c + r to column c; mixing columns multiplies every one of
    the four columns by the circulant matrix (2, 3, 1, 1); the loop of [gcm_mul] is the product in
    GF(2^128); and [inc32] adds one, modulo 2^32, to the last four bytes of the counter block as
    a big-endian number, and leaves the first twelve alone. *)
Theorem link_crypto_field x s b h nonce count :
  is_u8 x → block 16 s → block 16 b → block 16 h → block 12 nonce → block 4 count →
  sbox x = sbox_ref x ∧
  sub_bytes s = sbox_ref <$> s ∧
  shift_rows s = (λ i, at0 s ((5 * i) mod 16)) <$> seq 0 16 ∧
  mix_columns s = concat ((λ c, mix_column_ref (take 4 (drop (4 * c) s))) <$> seq 0 4) ∧
  block_Z (gcm_mul b h) = gf128_mul (block_Z b) (block_Z h) ∧
  ∃ count', inc32 (nonce ++ count) = nonce ++ count' ∧ block 4 count' ∧
    block_Z count' = (block_Z count + 1) mod 2 ^ 32.
Proof.
  intros Hx Hs Hb Hh Hn Hc. split; [by apply sbox_table|]. split.
  { destruct Hs as [_ Hu]. unfold sub_bytes. apply list_fmap_ext. intros i y Hy. apply sbox_table.
    rewrite Forall_lookup in Hu. by eapply Hu. }
  split; [by apply shift_rows_ref|]. split; [by apply mix_columns_ref|]. split; [by apply gcm_mul_gf128|].
  by apply inc32_counter.
Qed.

Lemma link_crypto_field_witness :
  let s := [0xdb; 0x13; 0x53; 0x45; 0xf2; 0x0a; 0x22; 0x5c; 1; 1; 1; 1; 0x2d; 0x26; 0x31; 0x4c] in
  (sbox 0x53 = sbox_ref 0x53 ∧
   sub_bytes s = sbox_ref <$> s ∧
   shift_rows s = (λ i, at0 s ((5 * i) mod 16)) <$> seq 0 16 ∧
   mix_columns s = concat ((λ c, mix_column_ref (take 4 (drop (4 * c) s))) <$> seq 0 4) ∧
   block_Z (gcm_mul (replicate 16 7) (replicate 16 9)) =
     gf128_mul (block_Z (replicate 16 7)) (block_Z (replicate 16 9)) ∧
   ∃ count', inc32 (replicate 12 1 ++ replicate 4 255) = replicate 12 1 ++ count' ∧ block 4 count' ∧
     block_Z count' = (block_Z (replicate 4 255) + 1) mod 2 ^ 32) ∧
  mix_columns s = [0x8e; 0x4d; 0xa1; 0xbc; 0x9f; 0xdc; 0x58; 0x9d; 1; 1; 1; 1; 0x4d; 0x7e; 0xbd; 0xf8] ∧
  inc32 (replicate 12 1 ++ replicate 4 255) = replicate 12 1 ++ replicate 4 0.
Proof.
  intros s. split; [|split; vm_compute; reflexivity].
  apply (link_crypto_field 0x53 s (replicate 16 7) (replicate 16 9) (replicate 12 1) (replicate 4 255));
    by apply (bool_decide_unpack _); vm_compute.
Defined.

(** what [link_aesgcm_encrypt] seals, [link_aesgcm_decrypt] opens: on buffers
    that are large enough both return 0, the plaintext comes back, and nothing
    beyond the message is written. *)
Theorem link_aesgcm_roundtrip key nonce aad pt ct tag out :
  block 16 key → block 12 nonce → Forall is_u8 pt →
  blen pt <= blen ct → 16 <= blen tag → blen pt <= blen out →
  ∃ c t,
    link_aesgcm_encrypt (Some key) (Some nonce) (Some aad) (blen aad) (Some pt) (blen pt)
      (Some ct) (Some tag) =
      Some (0, Some (c ++ drop (length pt) ct), Some (t ++ drop 16 tag)) ∧
    length c = length pt ∧ block 16 t ∧
    link_aesgcm_decrypt (Some key) (Some nonce) (Some aad) (blen aad) (Some c) (blen c)
      (Some t) (Some out) = Some (0, Some (pt ++ drop (length pt) out)).
Proof.
  intros Hk Hn Hp Hc Ht Ho. pose proof (link_aesgcm_encrypt_ok key nonce aad pt ct tag) as He.
  pose proof (gcm_seal_length key nonce aad pt Hk Hn) as [Hl Htag].
  destruct (gcm_seal key nonce aad pt) as [c t] eqn:E. cbn [fst snd] in *.
  exists c, t. rewrite He by done. rewrite Hl. do 3 (split; [done|]).
  rewrite link_aesgcm_decrypt_ok; [|done..|unfold blen in *; lia].
  apply gcm_seal_inv in E as [Ec Et].
  rewrite decide_True by exact Et. rewrite <- Ec at 1.
  rewrite ctr_xor_involutive, Hl; [done|by apply expand_key_block|by apply gcm_j0_block|done].
Qed.

Lemma link_aesgcm_roundtrip_witness :
  ∃ c t,
    link_aesgcm_encrypt (Some (replicate 16 1)) (Some (replicate 12 2)) (Some [3; 4]) 2
      (Some [5; 6; 7]) 3 (Some (replicate 5 9)) (Some (replicate 16 0)) =
      Some (0, Some (c ++ [9; 9]), Some t) ∧
    link_aesgcm_decrypt (Some (replicate 16 1)) (Some (replicate 12 2)) (Some [3; 4]) 2
      (Some c) 3 (Some t) (Some [0; 0; 0; 8]) = Some (0, Some [5; 6; 7; 8]).
Proof.
  destruct (link_aesgcm_roundtrip (replicate 16 1) (replicate 12 2) [3; 4] [5; 6; 7]
    (replicate 5 9) (replicate 16 0) [0; 0; 0; 8]) as (c & t & E1 & Hl & Ht & E2);
    [by apply (bool_decide_unpack _); vm_compute..|done|done|done|].
  exists c, t. split.
  - rewrite app_nil_r in E1. exact E1.
  - unfold blen at 2 in E2. rewrite Hl in E2. exact E2.
Defined.

(** C27: [link_aesgcm_decrypt] opens exactly the sealed messages: for a 16-byte tag
    it returns 0 iff ciphertext and tag are the sealing of some plaintext under
    this key, nonce and associated data (which it then delivers), and otherwise it
    returns -1 and leaves the output buffer as it was. *)
Theorem link_aesgcm_authentic key nonce aad ct tag out :
  block 16 key → block 12 nonce → block 16 tag → Forall is_u8 ct → blen ct <= blen out →
  (∃ pt, Forall is_u8 pt ∧ gcm_seal key nonce aad pt = (ct, tag) ∧
     link_aesgcm_decrypt (Some key) (Some nonce) (Some aad) (blen aad) (Some ct) (blen ct)
       (Some tag) (Some out) = Some (0, Some (pt ++ drop (length ct) out)))
  ∨ ((∀ pt, Forall is_u8 pt → gcm_seal key nonce aad pt ≠ (ct, tag)) ∧
     link_aesgcm_decrypt (Some key) (Some nonce) (Some aad) (blen aad) (Some ct) (blen ct)
       (Some tag) (Some out) = Some (-1, Some out)).
Proof.
  intros Hk Hn Ht Hc Ho. rewrite link_aesgcm_decrypt_ok by done.
  pose proof (expand_key_block _ Hk). pose proof (gcm_j0_block _ Hn).
  destruct (decide _) as [E|E].
  - left. eexists. split; [|split; [|reflexivity]]; [apply ctr_xor_u8|].
    unfold gcm_seal. rewrite ctr_xor_involutive by done. f_equal. exact E.
  - right. split; [|done]. intros pt Hpt [_ Et]%gcm_seal_inv. exact (E Et).
Qed.

Lemma link_aesgcm_authentic_witness :
  link_aesgcm_decrypt (Some (replicate 16 1)) (Some (replicate 12 2)) (Some [3; 4]) 2
    (Some [5]) 1 (Some (replicate 16 0)) (Some [8]) = Some (-1, Some [8]).
Proof.
  destruct (link_aesgcm_authentic (replicate 16 1) (replicate 12 2) [3; 4] [5]
    (replicate 16 0) [8]) as [(pt & Hp & E & D)|[_ D]];
    [by apply (bool_decide_unpack _); vm_compute..|done| |exact D].
  exfalso. vm_compute in D. discriminate D.
Defined.
