(* ===== verification/LinkSession.v ===== *)
(** * The encrypted link session (link/link_session.c)

    Hello exchange, sealing of outgoing payloads and opening of received frames.
    The frame is a local variable in the code; its payload array is the list
    [lf_payload], and the pointers [frame.payload + 8] and
    [frame.payload + 8 + pt_len] passed to the cipher are the slices of it that
    the cipher may touch, written back after the call. *)

From Stdlib Require Import ZArith Lia Sorted.
From stdpp Require Import base tactics option list numbers.
From S2P Require Import Prelude.
From S2P Require Import LinkFrame.
From S2P Require Import LinkCrypto.

Definition LINK_DIR_HOST : Z := 0.
Definition LINK_DIR_DEVICE : Z := 1.
Definition LINK_CH_HELLO : Z := 0.
Definition LINK_FLAG_ENCRYPTED : Z := 8.
Definition LINK_TAG_VERSION : Z := 1.
Definition LINK_TAG_KEY_ID : Z := 2.
Definition LINK_TAG_SESSION : Z := 3.

Record link_session_t := mk_session {
  se_key : list Z;
  se_key_id : Z;
  se_session : Z;
  se_tx_counter : Z;
  se_rx_counter : Z;
  se_tx_dir : Z;
  se_open : bool
}.

Definition link_session_init (key : option (list Z)) (key_id tx_dir : Z)
    : option link_session_t :=
  k ← (match key with Some k => rd_bytes k 0 16 | None => Some (zeros 16) end);
  Some (mk_session k key_id 0 0 0 tx_dir false).

(** The eight bytes of a counter, least significant first. *)
Definition counter_bytes (counter : Z) : list Z :=
  [u8 (Z.land counter 255); u8 (Z.land (Z.shiftr counter 8) 255);
   u8 (Z.land (Z.shiftr counter 16) 255); u8 (Z.land (Z.shiftr counter 24) 255);
   u8 (Z.land (Z.shiftr counter 32) 255); u8 (Z.land (Z.shiftr counter 40) 255);
   u8 (Z.land (Z.shiftr counter 48) 255); u8 (Z.land (Z.shiftr counter 56) 255)].

Definition nonce_for (s : link_session_t) (direction counter : Z) : list Z :=
  [direction; se_key_id s; lo8 (se_session s); hi8 (se_session s)] ++ counter_bytes counter.

Definition header_aad (f : link_frame_t) : list Z :=
  [if c_true (lf_version f) then lf_version f else LINK_VERSION;
   lf_flags f; lf_channel f; lo8 (lf_msg_id f); hi8 (lf_msg_id f);
   lo8 (lf_length f); hi8 (lf_length f)].

Section Session.
Context `{Arch}.

Definition link_session_encode_hello (session : option link_session_t)
    (session_id msg_id : Z) (out : option (list Z)) (cap : Z)
    : option (Z * option (list Z)) :=
  match session, out with
  | Some s, Some _ =>
    let p := zeros LINK_MAX_PAYLOAD in
    '(rc, p, used) ← link_tlv_put_u8 (Some p) LINK_MAX_PAYLOAD (Some 0)
                       LINK_TAG_VERSION LINK_VERSION;
    if c_true rc then Some (-1, out) else
    '(rc, p, used) ← link_tlv_put_u8 p LINK_MAX_PAYLOAD used LINK_TAG_KEY_ID (se_key_id s);
    if c_true rc then Some (-1, out) else
    '(rc, p, used) ← link_tlv_put_u16 p LINK_MAX_PAYLOAD used LINK_TAG_SESSION session_id;
    if c_true rc then Some (-1, out) else
    p ← p; used ← used;
    link_frame_encode (Some (mk_frame LINK_VERSION 0 LINK_CH_HELLO msg_id (u16 used) p)) out cap
  | _, _ => Some (-1, out)
  end.

(** [version], [key_id] and [raw] are locals that start at 0 ([raw] is read only
    after both its bytes were written). *)
Definition link_session_accept_hello (session : option link_session_t)
    (frame : option link_frame_t) (session_id : Z) : option (Z * option link_session_t) :=
  match session, frame with
  | Some s, Some f =>
    if negb (lf_channel f =? LINK_CH_HELLO) || bits_set (lf_flags f) LINK_FLAG_ENCRYPTED
    then Some (-1, session) else
    '(rc, version, n) ← link_tlv_get (Some (lf_payload f)) (lf_length f) LINK_TAG_VERSION
                          (Some [0]) 1 (Some 0);
    version ← version; v ← rd version 0; n ← n;
    if c_true rc || negb (n =? 1) || negb (v =? LINK_VERSION) then Some (-1, session) else
    '(rc, key_id, n) ← link_tlv_get (Some (lf_payload f)) (lf_length f) LINK_TAG_KEY_ID
                         (Some [0]) 1 (Some n);
    key_id ← key_id; k ← rd key_id 0; n ← n;
    if c_true rc || negb (n =? 1) || negb (k =? se_key_id s) then Some (-1, session) else
    '(rc, raw, n) ← link_tlv_get (Some (lf_payload f)) (lf_length f) LINK_TAG_SESSION
                      (Some [0; 0]) 2 (Some n);
    raw ← raw; r0 ← rd raw 0; r1 ← rd raw 1; n ← n;
    if c_true rc || negb (n =? 2) then Some (-1, session) else
    let got_session := le16 r0 r1 in
    if se_tx_dir s =? LINK_DIR_DEVICE then
      Some (0, Some (mk_session (se_key s) (se_key_id s) session_id 0 0 (se_tx_dir s) true))
    else if got_session =? 0 then Some (-1, session)
    else
      Some (0, Some (mk_session (se_key s) (se_key_id s) got_session 0 0 (se_tx_dir s) true))
  | _, _ => Some (-1, session)
  end.
End Session.

Definition session_with_tx (s : link_session_t) (c : Z) : link_session_t :=
  mk_session (se_key s) (se_key_id s) (se_session s) c (se_rx_counter s) (se_tx_dir s)
    (se_open s).

Definition session_with_rx (s : link_session_t) (c : Z) : link_session_t :=
  mk_session (se_key s) (se_key_id s) (se_session s) (se_tx_counter s) c (se_tx_dir s)
    (se_open s).

Definition link_session_seal (session : option link_session_t) (channel msg_id : Z)
    (pt : option (list Z)) (pt_len : Z) (out : option (list Z)) (cap : Z)
    : option (Z * option link_session_t * option (list Z)) :=
  match session, out with
  | Some s, Some _ =>
    if negb (se_open s) || (LINK_MAX_PAYLOAD - 24 <? pt_len)
       || ((0 <? pt_len) && negb (bool_decide (is_Some pt)))
    then Some (-1, session, out) else
    let counter := u64 (se_tx_counter s + 1) in
    payload ← wr_bytes (zeros LINK_MAX_PAYLOAD) 0 (counter_bytes counter);
    let frame := mk_frame LINK_VERSION LINK_FLAG_ENCRYPTED channel msg_id
                   (u16 (8 + pt_len + 16)) payload in
    aad8 ← rd_bytes payload 0 8;
    let aad := header_aad frame ++ aad8 in
    let nonce := nonce_for s (se_tx_dir s) counter in
    ct ← rd_bytes payload 8 pt_len;
    tag ← rd_bytes payload (8 + pt_len) 16;
    '(rc, ct, tag) ← link_aesgcm_encrypt (Some (se_key s)) (Some nonce) (Some aad) 15
                       pt pt_len (Some ct) (Some tag);
    ct ← ct; tag ← tag;
    payload ← wr_bytes payload 8 ct;
    payload ← wr_bytes payload (8 + pt_len) tag;
    if c_true rc then Some (-1, session, out) else
    let s := session_with_tx s counter in
    let frame := mk_frame LINK_VERSION LINK_FLAG_ENCRYPTED channel msg_id
                   (u16 (8 + pt_len + 16)) payload in
    '(rc, out) ← link_frame_encode (Some frame) out cap;
    Some (rc, Some s, out)
  | _, _ => Some (-1, session, out)
  end.

(** [(uint64_t)b0 | (uint64_t)b1 << 8 | ...] *)
Definition counter_of (b : list Z) : option Z :=
  match b with
  | [b0; b1; b2; b3; b4; b5; b6; b7] =>
    Some (Z.lor (Z.lor (Z.lor (Z.lor (Z.lor (Z.lor (Z.lor b0 (Z.shiftl b1 8))
      (Z.shiftl b2 16)) (Z.shiftl b3 24)) (Z.shiftl b4 32)) (Z.shiftl b5 40))
      (Z.shiftl b6 48)) (Z.shiftl b7 56))
  | _ => None
  end.

(** [memset (plain, 0, sizeof *plain)] *)
Definition frame_zero : link_frame_t := mk_frame 0 0 0 0 0 (zeros LINK_MAX_PAYLOAD).

Definition link_session_open (session : option link_session_t) (frame : option link_frame_t)
    (plain : option link_frame_t)
    : option (Z * option link_session_t * option link_frame_t) :=
  match session, frame, plain with
  | Some s, Some f, Some _ =>
    if negb (se_open s) then Some (-1, session, plain) else
    if negb (bits_set (lf_flags f) LINK_FLAG_ENCRYPTED) || (lf_length f <? 24)
    then Some (-1, session, plain) else
    b ← rd_bytes (lf_payload f) 0 8;
    counter ← counter_of b;
    if (counter =? 0) || (counter <=? se_rx_counter s) then Some (-1, session, plain) else
    let ct_len := lf_length f - 24 in
    let direction := if se_tx_dir s =? LINK_DIR_HOST then LINK_DIR_DEVICE else LINK_DIR_HOST in
    let nonce := nonce_for s direction counter in
    let aad := header_aad f ++ b in
    ct ← rd_bytes (lf_payload f) 8 ct_len;
    tag ← rd_bytes (lf_payload f) (8 + ct_len) 16;
    '(rc, pt) ← link_aesgcm_decrypt (Some (se_key s)) (Some nonce) (Some aad) 15
                  (Some ct) ct_len (Some tag) (Some (lf_payload frame_zero));
    if c_true rc then Some (-1, session, Some frame_zero) else
    pt ← pt;
    Some (0, Some (session_with_rx s counter),
          Some (mk_frame (lf_version f)
                  (u8 (Z.land (lf_flags f) (u8 (Z.lnot LINK_FLAG_ENCRYPTED))))
                  (lf_channel f) (lf_msg_id f) (u16 ct_len) pt))
  | _, _, _ => Some (-1, session, plain)
  end.

(** ** Counters on the wire *)

Lemma lor_byte_wrap n c :
  0 <= n →
  Z.lor (wrap n c) (Z.shiftl (u8 (Z.land (Z.shiftr c n) 255)) n) = wrap (n + 8) c.
Proof.
  intros Hn. rewrite land_255, wrap_wrap by lia. apply Z.bits_inj. intros i.
  rewrite Z.lor_spec, !wrap_testbit by lia.
  destruct (Z.lt_ge_cases i n).
  - rewrite Z.shiftl_spec_low, orb_false_r by lia.
    by rewrite !bool_decide_true by lia.
  - rewrite (bool_decide_false (i < n)), Z.shiftl_spec, wrap_testbit by lia. cbn [orb andb].
    rewrite Z.shiftr_spec by lia. replace (i - n + n) with i by lia.
    f_equal. apply bool_decide_ext. lia.
Qed.

Lemma counter_of_bytes c : is_u64 c → counter_of (counter_bytes c) = Some c.
Proof.
  intros Hc. unfold counter_of, counter_bytes. f_equal.
  rewrite land_255 at 1. rewrite (wrap_wrap 8) at 1 by lia.
  do 7 rewrite lor_byte_wrap by lia. by apply wrap_id.
Qed.

Lemma counter_bytes_block c : block 8 (counter_bytes c).
Proof.
  split; [done|]. unfold counter_bytes. repeat (constructor; [auto with cint|]). constructor.
Qed.

Lemma counter_bytes_inj c c' :
  is_u64 c → is_u64 c' → counter_bytes c = counter_bytes c' → c = c'.
Proof.
  intros H H' E. apply (f_equal counter_of) in E. rewrite !counter_of_bytes in E by done.
  by injection E.
Qed.

(** Every 8-byte string is the encoding of the counter it is read as. *)
Lemma counter_of_u64 b c : block 8 b → counter_of b = Some c → is_u64 c.
Proof.
  intros [Hl Hb] E. do 8 (destruct b as [|? b]; [done|]). destruct b; [|done].
  repeat match goal with H : Forall _ (_ :: _) |- _ => apply Forall_cons_1 in H as [? H] end.
  cbn [counter_of] in E. injection E as <-.
  assert (∀ n x, 0 <= n → n + 8 <= 64 → is_u8 x → is_u64 (Z.shiftl x n)) as Hs.
  { intros n x Hn Hn' [Hz Hz']. unfold in_w. rewrite Z.shiftl_mul_pow2 by lia.
    pose proof (pow2_pos n Hn). split; [nia|]. apply Z.lt_le_trans with (2 ^ (8 + n)).
    - rewrite Z.pow_add_r by lia. nia.
    - apply Z.pow_le_mono_r; lia. }
  repeat (apply lor_in_w; [lia| |by apply Hs]). by apply (in_w_mono 8).
Qed.

(** ** Well-formed sessions *)

Definition session_wf (s : link_session_t) : Prop :=
  block 16 (se_key s) ∧ is_u8 (se_key_id s) ∧ is_u16 (se_session s) ∧
  is_u64 (se_tx_counter s) ∧ is_u64 (se_rx_counter s) ∧ is_u8 (se_tx_dir s).

#[export] Instance session_wf_dec s : Decision (session_wf s).
Proof. unfold session_wf. apply _. Defined.

Lemma nonce_for_block s d c :
  session_wf s → is_u8 d → block 12 (nonce_for s d c).
Proof.
  intros (?&?&?&?) Hd. apply (block_app 4 8); [|apply counter_bytes_block].
  split; [done|]. repeat (constructor; [auto with cint|]). constructor.
Qed.

Lemma lohi_inj x y : is_u16 x → is_u16 y → lo8 x = lo8 y → hi8 x = hi8 y → x = y.
Proof. intros Hx Hy E1 E2. rewrite <- (le16_split x), <- (le16_split y) by done. congruence. Qed.

(** A nonce determines direction, key, session and counter. *)
Lemma nonce_for_inj s d c s' d' c' :
  session_wf s → session_wf s' → is_u64 c → is_u64 c' →
  nonce_for s d c = nonce_for s' d' c' →
  d = d' ∧ se_key_id s = se_key_id s' ∧ se_session s = se_session s' ∧ c = c'.
Proof.
  intros (_&_&Hs&_) (_&_&Hs'&_) Hc Hc' E. unfold nonce_for in E.
  apply app_inj_1 in E as [E1 E2]; [|done]. injection E1 as -> -> E3 E4.
  split_and!; [done|done|by apply lohi_inj|by apply counter_bytes_inj].
Qed.

(** ** What sealing puts on the wire *)

Definition seal_header (channel msg_id n : Z) (payload : list Z) : link_frame_t :=
  mk_frame LINK_VERSION LINK_FLAG_ENCRYPTED channel msg_id (24 + n) payload.

Definition seal_text (s : link_session_t) (c channel msg_id : Z) (pt : list Z)
    : list Z * list Z :=
  gcm_seal (se_key s) (nonce_for s (se_tx_dir s) c)
    (header_aad (seal_header channel msg_id (blen pt) []) ++ counter_bytes c) pt.

Definition sealed_frame (s : link_session_t) (c channel msg_id : Z) (pt : list Z)
    : link_frame_t :=
  let '(ct, tag) := seal_text s c channel msg_id pt in
  seal_header channel msg_id (blen pt)
    (counter_bytes c ++ ct ++ tag ++ zeros (216 - blen pt)).

Lemma seal_text_block s c channel msg_id pt ct tag :
  session_wf s → seal_text s c channel msg_id pt = (ct, tag) →
  length ct = length pt ∧ block 16 tag.
Proof.
  intros Hs E.
  pose proof (gcm_seal_length (se_key s) (nonce_for s (se_tx_dir s) c)
    (header_aad (seal_header channel msg_id (blen pt) []) ++ counter_bytes c) pt) as Hl.
  unfold seal_text in E. rewrite E in Hl. apply Hl; [apply Hs|].
  apply nonce_for_block; [done|]. apply Hs.
Qed.

#[local] Opaque gcm_seal link_aesgcm_encrypt link_aesgcm_decrypt.

Lemma gcm_seal_ct_u8 key nonce aad pt ct tag :
  gcm_seal key nonce aad pt = (ct, tag) → Forall is_u8 ct.
Proof. intros [<- _]%gcm_seal_inv. apply ctr_xor_u8. Qed.

Lemma sealed_frame_wf s c channel msg_id pt :
  session_wf s → is_u8 channel → is_u16 msg_id → blen pt <= 216 →
  frame_wf (sealed_frame s c channel msg_id pt).
Proof.
  intros Hs Hch Hm Hp. unfold sealed_frame.
  destruct (seal_text s c channel msg_id pt) as [ct tag] eqn:E.
  destruct (seal_text_block _ _ _ _ _ _ _ Hs E) as [Hl [Ht Ht']].
  pose proof (gcm_seal_ct_u8 _ _ _ _ _ _ E) as Hc.
  destruct (counter_bytes_block c) as [_ Hcb]. pose proof (blen_nonneg pt).
  unfold seal_header, frame_wf, LINK_MAX_PAYLOAD. cbn [lf_version lf_flags lf_channel
    lf_msg_id lf_length lf_payload]. split_and!; [by cbv..|done|done|lia|lia| |].
  - rewrite !blen_app, blen_zeros by lia. unfold blen. rewrite Hl, Ht. simpl length.
    unfold blen. lia.
  - repeat (apply Forall_app; split); try done. apply Forall_zeros.
Qed.

Lemma rd_bytes_at {A} (l m r : list A) b off n :
  b = l ++ m ++ r → off = blen l → n = blen m → rd_bytes b off n = Some m.
Proof. intros -> -> ->. apply rd_bytes_app. Qed.

Lemma wr_bytes_at {A} (l m r : list A) b m' off :
  b = l ++ m ++ r → off = blen l → length m = length m' →
  wr_bytes b off m' = Some (l ++ m' ++ r).
Proof. intros -> ->. apply wr_bytes_app. Qed.

(** The zeroed payload, cut where the sealed message will lie. *)
Lemma payload_cut c n :
  0 <= n <= 216 →
  wr_bytes (zeros LINK_MAX_PAYLOAD) 0 (counter_bytes c) =
    Some (counter_bytes c ++ zeros n ++ zeros 16 ++ zeros (216 - n)).
Proof.
  intros Hn. rewrite wr_bytes_prefix by by cbv. do 2 f_equal. unfold zeros.
  rewrite <- !replicate_add, drop_replicate. f_equal. unfold LINK_MAX_PAYLOAD. simpl length. lia.
Qed.

Lemma link_session_seal_ok s channel msg_id pt o cap :
  session_wf s → se_open s = true → is_u8 channel → is_u16 msg_id →
  blen pt <= 216 → 35 + blen pt <= cap <= blen o →
  let c := u64 (se_tx_counter s + 1) in
  let w := frame_bytes (sealed_frame s c channel msg_id pt) in
  link_session_seal (Some s) channel msg_id (Some pt) (blen pt) (Some o) cap =
    Some (blen w, Some (session_with_tx s c), Some (w ++ drop (length w) o)).
Proof.
  intros Hs Ho Hch Hm Hp Hcap c w. pose proof (blen_nonneg pt) as Hnn.
  pose proof (sealed_frame_wf s c channel msg_id pt Hs Hch Hm Hp) as Hwf.
  unfold link_session_seal. rewrite Ho, bool_decide_true by (by eexists).
  cbn [negb orb]. rewrite andb_false_r, orb_false_r. unfold LINK_MAX_PAYLOAD at 1. zbool.
  fold c. rewrite (payload_cut c (blen pt)) by lia. cbn [mbind option_bind].
  set (cb := counter_bytes c). set (z := zeros (blen pt)).
  set (r := zeros (216 - blen pt)).
  assert (blen z = blen pt) as Hz by by apply blen_zeros.
  rewrite (rd_bytes_at [] cb (z ++ zeros 16 ++ r) _ 0 8) by done. cbn [mbind option_bind].
  rewrite (rd_bytes_at cb z (zeros 16 ++ r) _ 8) by done. cbn [mbind option_bind].
  rewrite (rd_bytes_at (cb ++ z) (zeros 16) r _ (8 + blen pt))
    by (by rewrite <- app_assoc || done || by rewrite blen_app, Hz).
  cbn [mbind option_bind]. rewrite wrap_id by (unfold in_w; lia).
  replace (8 + blen pt + 16) with (24 + blen pt) by lia.
  change (header_aad (mk_frame _ _ channel msg_id (24 + blen pt) _))
    with (header_aad (seal_header channel msg_id (blen pt) [])).
  pose proof (link_aesgcm_encrypt_ok (se_key s) (nonce_for s (se_tx_dir s) c)
    (header_aad (seal_header channel msg_id (blen pt) []) ++ counter_bytes c) pt
    z (zeros 16)) as He.
  pose proof (eq_refl : seal_text s c channel msg_id pt = gcm_seal _ _ _ _) as Et.
  destruct (seal_text s c channel msg_id pt) as [ct tag] eqn:E in Et. rewrite <- Et in He.
  destruct (seal_text_block _ _ _ _ _ _ _ Hs E) as [Hl [Ht _]].
  fold cb in He. change (blen (header_aad _ ++ cb)) with 15 in He.
  rewrite He; [|apply Hs|apply nonce_for_block; [done|apply Hs]|by rewrite Hz|done].
  cbn [mbind option_bind].
  assert (drop (length ct) z = []) as -> by (apply drop_ge; unfold blen in Hz; lia).
  rewrite !app_nil_r. rewrite (wr_bytes_at cb z (zeros 16 ++ r)) by (done || unfold blen in Hz; lia).
  cbn [mbind option_bind].
  rewrite (wr_bytes_at (cb ++ ct) (zeros 16) r)
    by (by rewrite <- app_assoc || (unfold blen in Hz; rewrite blen_app; unfold blen; rewrite Hl; done)
        || (rewrite Ht; done)).
  cbn [mbind option_bind c_true Z.eqb negb].
  assert (seal_header channel msg_id (blen pt) ((cb ++ ct) ++ tag ++ r) =
          sealed_frame s c channel msg_id pt) as Ef.
  { unfold sealed_frame. rewrite E. by rewrite <- app_assoc. }
  unfold seal_header in Ef. rewrite Ef, link_frame_encode_ok; [done|done|].
  rewrite <- Ef. cbn [lf_length]. unfold LINK_HEADER_LEN. lia.
Qed.

(** ** Opening *)

Definition peer_dir (s : link_session_t) : Z :=
  if se_tx_dir s =? LINK_DIR_HOST then LINK_DIR_DEVICE else LINK_DIR_HOST.

(** The two ends of one session. *)
Definition paired (s d : link_session_t) : Prop :=
  se_key s = se_key d ∧ se_key_id s = se_key_id d ∧ se_session s = se_session d ∧
  se_tx_dir s = peer_dir d.

Lemma sealed_frame_received s c channel msg_id pt ct tag :
  session_wf s → blen pt <= 216 → seal_text s c channel msg_id pt = (ct, tag) →
  frame_received (sealed_frame s c channel msg_id pt) =
    seal_header channel msg_id (blen pt)
      (counter_bytes c ++ ct ++ tag ++ zeros (216 - blen pt)).
Proof.
  intros Hs Hp E. destruct (seal_text_block _ _ _ _ _ _ _ Hs E) as [Hl [Ht _]].
  pose proof (blen_nonneg pt).
  unfold sealed_frame, frame_received, frame_payload, seal_header. rewrite E.
  cbn [lf_version lf_flags lf_channel lf_msg_id lf_length lf_payload]. f_equal.
  rewrite !(app_assoc (counter_bytes c)), !app_assoc, take_app_length'.
  - do 2 f_equal. unfold LINK_MAX_PAYLOAD. lia.
  - rewrite !length_app, Hl, Ht. unfold blen. simpl length. lia.
Qed.

Lemma link_session_open_ok s d c channel msg_id pt g :
  session_wf s → session_wf d → paired s d → se_open d = true →
  is_u64 c → se_rx_counter d < c → Forall is_u8 pt → blen pt <= 216 →
  link_session_open (Some d) (Some (frame_received (sealed_frame s c channel msg_id pt)))
    (Some g) =
    Some (0, Some (session_with_rx d c),
      Some (mk_frame LINK_VERSION 0 channel msg_id (blen pt)
              (pt ++ zeros (LINK_MAX_PAYLOAD - blen pt)))).
Proof.
  intros Hs Hd (Ek & Ei & Es & Ed) Ho Hc Hrx Hpt Hp. pose proof (blen_nonneg pt) as Hnn.
  destruct (seal_text s c channel msg_id pt) as [ct tag] eqn:E.
  destruct (seal_text_block _ _ _ _ _ _ _ Hs E) as [Hl Ht].
  rewrite (sealed_frame_received _ _ _ _ _ _ _ Hs Hp E). unfold link_session_open.
  rewrite Ho. unfold seal_header at 1 2 3. cbn [lf_flags lf_length negb].
  change (bits_set LINK_FLAG_ENCRYPTED LINK_FLAG_ENCRYPTED) with true. cbn [negb orb].
  zbool. unfold seal_header. cbn [lf_payload lf_length lf_version lf_flags lf_channel lf_msg_id].
  set (cb := counter_bytes c). set (r := zeros (216 - blen pt)).
  assert (blen ct = blen pt ∧ blen tag = 16) as [Hl' Ht'].
  { unfold blen. by rewrite Hl, (proj1 Ht). }
  rewrite (rd_bytes_at [] cb (ct ++ tag ++ r) _ 0 8) by done. cbn [mbind option_bind].
  rewrite (counter_of_bytes c Hc : counter_of cb = _). cbn [mbind option_bind].
  destruct Hd as (_&_&_&_&[? _]&_). zbool. cbn [orb].
  rewrite (rd_bytes_at cb ct (tag ++ r) _ 8) by (done || lia). cbn [mbind option_bind].
  rewrite (rd_bytes_at (cb ++ ct) tag r _ (8 + (24 + blen pt - 24)))
    by (by rewrite <- app_assoc || (rewrite Ht'; done)
        || (rewrite blen_app, Hl'; change (blen cb) with 8; lia)).
  cbn [mbind option_bind].
  change (header_aad (mk_frame _ _ channel msg_id (24 + blen pt) _))
    with (header_aad (seal_header channel msg_id (blen pt) [])).
  fold (peer_dir d). rewrite <- Ed, <- Ek.
  assert (nonce_for d (se_tx_dir s) c = nonce_for s (se_tx_dir s) c) as ->.
  { unfold nonce_for. by rewrite Ei, Es. }
  pose proof (link_aesgcm_decrypt_ok (se_key s) (nonce_for s (se_tx_dir s) c)
    (header_aad (seal_header channel msg_id (blen pt) []) ++ cb) ct tag
    (lf_payload frame_zero)) as Hdec. cbv zeta in Hdec.
  change (blen (header_aad _ ++ cb)) with 15 in Hdec.
  replace (24 + blen pt - 24) with (blen ct) by lia.
  assert (block 12 (nonce_for s (se_tx_dir s) c)) as Hn.
  { apply nonce_for_block; [done|]. apply Hs. }
  rewrite Hdec; [|apply Hs|done|done|cbn [lf_payload frame_zero]; rewrite blen_zeros; [unfold LINK_MAX_PAYLOAD|unfold LINK_MAX_PAYLOAD]; lia].
  apply gcm_seal_inv in E as [E1 E2]. fold cb in E2. rewrite decide_True by exact E2.
  cbn [mbind option_bind c_true Z.eqb negb].
  assert (ctr_xor (expand_key (se_key s)) (gcm_j0 (nonce_for s (se_tx_dir s) c)) ct = pt) as ->.
  { rewrite <- E1. apply ctr_xor_involutive;
      [apply expand_key_block, Hs|by apply gcm_j0_block|done]. }
  rewrite Hl', (wrap_id 16) by (unfold in_w; lia).
  cbn [lf_payload frame_zero]. rewrite Hl, take_zeros_app by (unfold LINK_MAX_PAYLOAD; lia).
  done.
Qed.

(** The counter a received frame carries. *)
Definition frame_counter (f : link_frame_t) : option Z :=
  b ← rd_bytes (lf_payload f) 0 8; counter_of b.

(** Opening never leaves the frame, changes the session only by advancing the
    receive counter, and advances it whenever it accepts. *)
Lemma link_session_open_spec s f g :
  session_wf s → frame_wf f →
  ∃ rc s' p, link_session_open (Some s) (Some f) (Some g) = Some (rc, Some s', Some p) ∧
    ((rc = -1 ∧ s' = s) ∨
     (rc = 0 ∧ frame_wf p ∧ ∃ c, frame_counter f = Some c ∧ se_rx_counter s < c ∧ is_u64 c ∧
        s' = session_with_rx s c)).
Proof.
  intros Hs Hf. pose proof Hf as (Hfv&_&Hfc&Hfm&Hlen&Hp&Hu). unfold LINK_MAX_PAYLOAD in Hlen, Hp.
  unfold link_session_open, frame_counter.
  destruct (negb (se_open s)); [by eauto 8|].
  destruct (negb _ || _) eqn:E0; [by eauto 8|]. bool_hyps.
  destruct (rd_bytes (lf_payload f) 0 8) as [b|] eqn:Eb; [|by rewrite rd_bytes_ok in Eb by lia].
  assert (block 8 b) as Hb.
  { rewrite rd_bytes_ok in Eb by lia. injection Eb as <-.
    change (Z.to_nat 0) with 0%nat. rewrite drop_0.
    apply (block_take 240); [|lia]. split; [unfold blen in Hp; lia|done]. }
  cbn [mbind option_bind].
  destruct (counter_of b) as [c|] eqn:Ec.
  2:{ destruct Hb as [Hb _]. do 8 (destruct b as [|? b]; [done|]). by destruct b. }
  cbn [mbind option_bind]. destruct (_ || _) eqn:E1; [by eauto 8|]. bool_hyps.
  rewrite rd_bytes_ok by lia. cbn [mbind option_bind]. rewrite rd_bytes_ok by lia.
  cbn [mbind option_bind].
  match goal with |- context [link_aesgcm_decrypt (Some ?k) (Some ?n) (Some ?a) 15
      (Some ?ct) _ (Some ?tag) (Some ?o)] =>
    pose proof (link_aesgcm_decrypt_ok k n a ct tag o) as Hd;
    replace (blen a) with 15 in Hd by (rewrite blen_app; unfold blen; by rewrite (proj1 Hb));
    assert (blen ct = lf_length f - 24) as Hct by (rewrite blen_take; [done|rewrite blen_drop; lia])
  end.
  rewrite Hct in Hd. cbv zeta in Hd. rewrite Hd; clear Hd;
    [|apply Hs|apply nonce_for_block; [done|]|..].
  - destruct (decide _); cbn [mbind option_bind c_true Z.eqb negb]; [|by eauto 8].
    do 3 eexists. split; [done|]. right. split; [done|]. split.
    2: { exists c. split_and!; [done|lia|by eapply counter_of_u64|done]. }
    rewrite (wrap_id 16) by (unfold in_w; lia). unfold frame_wf.
    cbn [lf_version lf_flags lf_channel lf_msg_id lf_length lf_payload frame_zero].
    split_and!; [done|by apply wrap_in_w|done|done|lia|unfold LINK_MAX_PAYLOAD; lia| |].
    + unfold blen in *. rewrite length_app, ctr_xor_length, length_drop;
        [|apply expand_key_block, Hs|apply gcm_j0_block, nonce_for_block; [done|]].
      * unfold zeros. rewrite length_replicate. unfold LINK_MAX_PAYLOAD. lia.
      * destruct (_ =? _); by cbv.
    + apply Forall_app. split; [apply ctr_xor_u8|apply Forall_drop, Forall_zeros].
  - destruct (_ =? _); by cbv.
  - split; [|by apply Forall_take, Forall_drop]. rewrite length_take, length_drop.
    unfold blen in *. lia.
  - cbn [lf_payload frame_zero]. rewrite blen_zeros; unfold LINK_MAX_PAYLOAD; lia.
Qed.

(** A receiver fed a sequence of frames: the counters of those it accepts. *)
Fixpoint open_all (s : link_session_t) (fs : list link_frame_t) : option (list Z) :=
  match fs with
  | [] => Some []
  | f :: fs =>
    '(rc, s', _) ← link_session_open (Some s) (Some f) (Some frame_zero);
    s' ← s';
    l ← open_all s' fs;
    if rc =? 0 then c ← frame_counter f; Some (c :: l) else Some l
  end.

Lemma session_with_rx_wf s c : session_wf s → is_u64 c → session_wf (session_with_rx s c).
Proof. intros (?&?&?&?&?&?) Hc. by do 5 (split; [done|]). Qed.

Lemma session_with_tx_wf s c : session_wf s → is_u64 c → session_wf (session_with_tx s c).
Proof. intros (?&?&?&?&?&?) Hc. by do 5 (split; [done|]). Qed.

Lemma open_all_increasing s fs :
  session_wf s → Forall frame_wf fs →
  ∃ cs, open_all s fs = Some cs ∧ StronglySorted Z.lt (se_rx_counter s :: cs).
Proof.
  intros Hs Hfs. revert s Hs. induction Hfs as [|f fs Hf Hfs IH]; intros s Hs.
  { exists []. split; [done|]. repeat constructor. }
  cbn [open_all].
  destruct (link_session_open_spec s f frame_zero Hs Hf) as (rc & s' & p & -> & H).
  cbn [mbind option_bind]. destruct H as [[-> ->]|(-> & _ & c & Hc & Hlt & Hu & ->)].
  - destruct (IH s Hs) as (cs & -> & ?). exists cs. done.
  - destruct (IH (session_with_rx s c)) as (cs & -> & Hcs); [by apply session_with_rx_wf|].
    cbn [mbind option_bind Z.eqb]. rewrite Hc. exists (c :: cs). split; [done|].
    cbn [se_rx_counter session_with_rx] in Hcs. constructor; [done|]. constructor; [done|].
    apply StronglySorted_inv in Hcs as [_ Hcs]. eapply List.Forall_impl; [|exact Hcs].
    intros x Hx. cbv beta in Hx. lia.
Qed.

(** A sender that seals a sequence of messages: the nonces it uses. *)
Fixpoint seal_all (s : link_session_t) (ms : list (Z * Z * list Z)) : option (list (list Z)) :=
  match ms with
  | [] => Some []
  | (channel, msg_id, pt) :: ms =>
    '(rc, s', _) ← link_session_seal (Some s) channel msg_id (Some pt) (blen pt)
                     (Some (zeros LINK_MAX_FRAME)) LINK_MAX_FRAME;
    s' ← s';
    l ← seal_all s' ms;
    Some (nonce_for s (se_tx_dir s) (se_tx_counter s') :: l)
  end.

Definition msg_ok (m : Z * Z * list Z) : Prop :=
  is_u8 m.1.1 ∧ is_u16 m.1.2 ∧ Forall is_u8 m.2 ∧ blen m.2 <= 216.

#[export] Instance msg_ok_dec m : Decision (msg_ok m).
Proof. unfold msg_ok. apply _. Defined.

Lemma seal_all_nonces s ms :
  session_wf s → se_open s = true → Forall msg_ok ms →
  se_tx_counter s + blen ms < 2 ^ 64 →
  seal_all s ms =
    Some ((λ i, nonce_for s (se_tx_dir s) (se_tx_counter s + 1 + Z.of_nat i))
            <$> seq 0 (length ms)).
Proof.
  intros Hs Ho Hms. revert s Hs Ho. induction Hms as [|[[ch mid] pt] ms Hm Hms IH];
    intros s Hs Ho Hb; [done|].
  destruct Hm as (Hch & Hmid & Hpt & Hl). cbn [fst snd] in *. cbn [seal_all].
  rewrite blen_cons in Hb. pose proof (blen_nonneg ms). pose proof (blen_nonneg pt).
  assert (is_u64 (se_tx_counter s + 1)) as Hc.
  { destruct Hs as (_&_&_&[? _]&_). unfold in_w. lia. }
  rewrite link_session_seal_ok; try done.
  2:{ rewrite blen_zeros; unfold LINK_MAX_FRAME, LINK_HEADER_LEN, LINK_MAX_PAYLOAD; lia. }
  rewrite wrap_id by done. cbn [mbind option_bind].
  rewrite IH; [|by apply session_with_tx_wf|done|cbn [se_tx_counter session_with_tx]; lia].
  cbn [mbind option_bind se_tx_counter session_with_tx length seq fmap list_fmap].
  f_equal. f_equal; [f_equal; lia|]. rewrite <- fmap_S_seq, <- list_fmap_compose.
  apply list_fmap_ext. intros i x Hx. cbn [compose]. unfold nonce_for. f_equal. f_equal. lia.
Qed.

(** Follow the one path of a function body that does not fail. *)
Ltac walk_match H :=
  repeat match type of H with
  | context [match ?x with _ => _ end] => destruct x; try discriminate H
  end.

(** Acceptance of a Hello does not look at the counters. *)
Lemma accept_hello_rx `{Arch} d c h sid d' :
  link_session_accept_hello (Some d) (Some h) sid = Some (0, Some d') →
  link_session_accept_hello (Some (session_with_rx d c)) (Some h) sid = Some (0, Some d').
Proof.
  unfold link_session_accept_hello.
  cbn [session_with_rx se_key se_key_id se_tx_dir].
  unfold mbind, option_bind. intros H0. walk_match H0; exact H0.
Qed.

Lemma accept_hello_device `{Arch} d h sid d' :
  se_tx_dir d = LINK_DIR_DEVICE →
  link_session_accept_hello (Some d) (Some h) sid = Some (0, Some d') →
  d' = mk_session (se_key d) (se_key_id d) sid 0 0 (se_tx_dir d) true.
Proof.
  intros Hd. unfold link_session_accept_hello. rewrite Hd, Z.eqb_refl. unfold mbind, option_bind.
  intros H0. walk_match H0. by injection H0.
Qed.

(** A session whose receive counter went back accepts the same frame again. *)
Lemma link_session_open_rewind d f g d1 p :
  0 <= se_rx_counter d →
  link_session_open (Some d) (Some f) (Some g) = Some (0, Some d1, Some p) →
  ∃ d2, link_session_open
      (Some (mk_session (se_key d) (se_key_id d) (se_session d) 0 0 (se_tx_dir d) true))
      (Some f) (Some g) = Some (0, Some d2, Some p).
Proof.
  intros Hrx. unfold link_session_open. cbn [se_open se_rx_counter se_tx_dir se_key negb].
  destruct (negb (se_open d)); [done|]. destruct (negb _ || _); [done|].
  destruct (rd_bytes (lf_payload f) 0 8) as [b|]; [|done]. cbn [mbind option_bind].
  destruct (counter_of b) as [c|]; [|done]. cbn [mbind option_bind].
  destruct ((c =? 0) || (c <=? se_rx_counter d)) eqn:E; [done|]. bool_hyps.
  zbool. cbn [orb].
  change (nonce_for (mk_session (se_key d) (se_key_id d) (se_session d) 0 0 (se_tx_dir d) true))
    with (nonce_for d).
  unfold mbind, option_bind. intros Ho. walk_match Ho. injection Ho as <- <-. by eexists.
Qed.

(** The host's and the device's end of a sample session. *)
Definition sample_host : link_session_t :=
  mk_session (replicate 16 0x5a) 7 1 41 0 LINK_DIR_HOST true.
Definition sample_device : link_session_t :=
  mk_session (replicate 16 0x5a) 7 1 3 40 LINK_DIR_DEVICE true.

(** ** Theorems *)

(** A message sealed by one end and carried over the wire is opened by the
    other end: the sealed frame decodes, the plaintext, channel and message id
    come back, the encrypted flag is cleared, and both counters advance to the
    counter of the message. *)
Theorem link_session_roundtrip s d channel msg_id pt o cap g p r :
  session_wf s → session_wf d → paired s d → se_open s = true → se_open d = true →
  is_u8 channel → is_u16 msg_id → Forall is_u8 pt → blen pt <= 216 →
  35 + blen pt <= cap <= blen o →
  se_tx_counter s + 1 < 2 ^ 64 → se_rx_counter d <= se_tx_counter s →
  let c := se_tx_counter s + 1 in
  ∃ w f,
    link_session_seal (Some s) channel msg_id (Some pt) (blen pt) (Some o) cap =
      Some (blen w, Some (session_with_tx s c), Some (w ++ drop (length w) o)) ∧
    link_frame_decode (Some (w ++ r)) (blen (w ++ r)) (Some g) = Some (blen w, Some f) ∧
    link_session_open (Some d) (Some f) (Some p) =
      Some (0, Some (session_with_rx d c),
        Some (mk_frame LINK_VERSION 0 channel msg_id (blen pt)
                (pt ++ zeros (LINK_MAX_PAYLOAD - blen pt)))).
Proof.
  intros Hs Hd Hsd Ho Ho' Hch Hm Hpt Hl Hcap Hc Hrx c.
  assert (is_u64 c) as Hu by (destruct Hs as (_&_&_&[? _]&_); unfold in_w, c; lia).
  pose proof (sealed_frame_wf s c channel msg_id pt Hs Hch Hm Hl) as Hwf.
  exists (frame_bytes (sealed_frame s c channel msg_id pt)),
    (frame_received (sealed_frame s c channel msg_id pt)).
  split; [rewrite link_session_seal_ok by done; by rewrite wrap_id by done|]. split.
  - apply link_frame_decode_ok; [done|]. rewrite blen_app. pose proof (blen_nonneg r). lia.
  - apply link_session_open_ok; try done. unfold c. lia.
Qed.

Lemma link_session_roundtrip_witness :
  ∃ w f, link_session_seal (Some sample_host) 1 9 (Some [1; 2; 3]) 3 (Some (zeros 251)) 251 =
      Some (38, Some (session_with_tx sample_host 42), Some (w ++ drop (length w) (zeros 251))) ∧
    link_session_open (Some sample_device) (Some f) (Some frame_zero) =
      Some (0, Some (session_with_rx sample_device 42),
        Some (mk_frame LINK_VERSION 0 1 9 3 ([1; 2; 3] ++ zeros 237))).
Proof.
  destruct (link_session_roundtrip sample_host sample_device 1 9 [1; 2; 3] (zeros 251) 251
    frame_zero frame_zero []) as (w & f & E1 & E2 & E3);
    [vm_decide|vm_decide|done|done|done|vm_decide..|].
  exists w, f. split; [|exact E3].
  replace (blen w) with 38 in E1; [exact E1|].
  apply (f_equal (fmap (M := option) (λ x, x.1.1))) in E1. vm_compute in E1.
  by injection E1.
Defined.

(** C29: a receiver accepts every frame at most once: whatever well-formed frames
    arrive, in whatever order, the counters of the accepted ones strictly
    increase, starting above the counter of the session; no frame makes the
    parser leave its payload. *)
Theorem link_session_no_replay s fs :
  session_wf s → Forall frame_wf fs →
  ∃ cs, open_all s fs = Some cs ∧ StronglySorted Z.lt (se_rx_counter s :: cs).
Proof. apply open_all_increasing. Qed.

Lemma link_session_no_replay_witness :
  let f := sealed_frame sample_host 42 1 9 [1; 2; 3] in
  ∃ cs, open_all sample_device [f; f] = Some cs ∧ cs = [42] ∧
    StronglySorted Z.lt (40 :: cs).
Proof.
  destruct (link_session_no_replay sample_device
    (let f := sealed_frame sample_host 42 1 9 [1; 2; 3] in [f; f])) as (cs & E & Hs);
    [vm_decide..|].
  exists cs. split; [exact E|]. split; [|exact Hs]. vm_compute in E. by injection E.
Defined.

(** within a session no AES input block is used twice: over any sequence of
    sealed messages (until the 64-bit counter runs out) all blocks [J0, J0 + 1,
    ...] of all messages are distinct, and no nonce of this end is one of the
    other end, whatever its counter. *)
Theorem link_session_blocks_fresh s d ms :
  session_wf s → session_wf d → paired s d → se_open s = true → Forall msg_ok ms →
  se_tx_counter s + blen ms < 2 ^ 64 →
  ∃ ns, seal_all s ms = Some ns ∧ length ns = length ms ∧
    (∀ i j n m k l, ns !! i = Some n → ns !! j = Some m →
      Z.of_nat k < 2 ^ 32 - 1 → Z.of_nat l < 2 ^ 32 - 1 →
      Nat.iter k inc32 (gcm_j0 n) = Nat.iter l inc32 (gcm_j0 m) → i = j ∧ k = l) ∧
    (∀ n c, n ∈ ns → n ≠ nonce_for d (se_tx_dir d) c).
Proof.
  intros Hs Hd (_ & _ & _ & Hdir) Ho Hms Hb. rewrite seal_all_nonces by done. eexists.
  split; [done|]. split; [by rewrite length_fmap, length_seq|]. split.
  - intros i j n m k l. rewrite !list_lookup_fmap.
    intros (i' & [-> Hi]%lookup_seq & ->)%fmap_Some_1 (j' & [-> Hj]%lookup_seq & ->)%fmap_Some_1.
    intros Hk Hl. assert (is_u8 (se_tx_dir s)) as Hdir8 by apply Hs.
    destruct (counter_block _ k (nonce_for_block s _ (se_tx_counter s + 1 + Z.of_nat (0 + i)) Hs Hdir8))
      as (q & -> & _ & Hq).
    destruct (counter_block _ l (nonce_for_block s _ (se_tx_counter s + 1 + Z.of_nat (0 + j)) Hs Hdir8))
      as (q' & -> & _ & Hq').
    intros [E ->]%app_inj_1; [|done]. rewrite Hq in Hq'. rewrite !Z.mod_small in Hq' by lia.
    assert (is_u64 (se_tx_counter s)) as [? _] by apply Hs. unfold blen in Hb.
    apply nonce_for_inj in E as (_ & _ & _ & E); [|done|done|unfold in_w; lia..].
    split; lia.
  - intros n c (i & -> & _)%list_elem_of_fmap E. injection E as E _.
    unfold peer_dir in Hdir. rewrite Hdir in E.
    destruct (Z.eqb_spec (se_tx_dir d) LINK_DIR_HOST) as [E'|E'];
      unfold LINK_DIR_DEVICE, LINK_DIR_HOST in *; congruence.
Qed.

Lemma link_session_blocks_fresh_witness :
  ∃ ns, seal_all sample_host [(1, 9, [1; 2; 3]); (2, 9, [])] = Some ns ∧ length ns = 2%nat ∧
    (∀ n c, n ∈ ns → n ≠ nonce_for sample_device 1 c).
Proof.
  destruct (link_session_blocks_fresh sample_host sample_device [(1, 9, [1; 2; 3]); (2, 9, [])])
    as (ns & E & Hl & _ & H); [vm_decide..|done|done| |done|].
  - vm_decide.
  - exists ns. split; [exact E|]. split; [exact Hl|exact H].
Defined.

Definition sample_hello : link_frame_t :=
  mk_frame LINK_VERSION 0 LINK_CH_HELLO 1 10
    (tlv_bytes [(LINK_TAG_VERSION, [LINK_VERSION]); (LINK_TAG_KEY_ID, [7]);
                (LINK_TAG_SESSION, [0; 0])] ++ zeros 230).

(** a Hello is not authenticated and rewinds the device: once a device that
    always offers the same session id has accepted a frame, an accepted Hello
    makes it accept that very frame again, with the same plaintext, and makes its
    next sealed message use the nonce of the first message again. *)
Theorem link_session_hello_rewinds `{Arch} d f g d1 p h d2 :
  session_wf d → se_tx_dir d = LINK_DIR_DEVICE →
  link_session_open (Some d) (Some f) (Some g) = Some (0, Some d1, Some p) →
  link_session_accept_hello (Some d) (Some h) (se_session d) = Some (0, Some d2) →
  link_session_accept_hello (Some d1) (Some h) (se_session d) = Some (0, Some d2) ∧
  (∃ d3, link_session_open (Some d2) (Some f) (Some g) = Some (0, Some d3, Some p)) ∧
  nonce_for d2 (se_tx_dir d2) (u64 (se_tx_counter d2 + 1)) = nonce_for d (se_tx_dir d) 1.
Proof.
  intros Hd Hdir Ho Hh. pose proof (accept_hello_device d h _ d2 Hdir Hh) as ->.
  assert (0 <= se_rx_counter d) as Hrx by apply Hd. split; [|split].
  - assert (∃ c, d1 = session_with_rx d c) as [c ->]; [|by apply accept_hello_rx].
    unfold link_session_open, mbind, option_bind in Ho. walk_match Ho.
    injection Ho as <- _. by eexists.
  - by eapply link_session_open_rewind.
  - done.
Qed.

Lemma link_session_hello_rewinds_witness :
  ∃ d1 d2 d3 p,
    let f := sealed_frame sample_host 42 1 9 [1; 2; 3] in
    link_session_open (Some sample_device) (Some f) (Some frame_zero) =
      Some (0, Some d1, Some p) ∧
    link_session_accept_hello (H := arch64) (Some d1) (Some sample_hello) 1 = Some (0, Some d2) ∧
    link_session_open (Some d2) (Some f) (Some frame_zero) = Some (0, Some d3, Some p).
Proof.
  set (f := sealed_frame sample_host 42 1 9 [1; 2; 3]).
  set (p := mk_frame LINK_VERSION 0 1 9 3 ([1; 2; 3] ++ zeros 237)).
  set (d1 := session_with_rx sample_device 42).
  set (d2 := mk_session (replicate 16 0x5a) 7 1 0 0 LINK_DIR_DEVICE true).
  assert (link_session_open (Some sample_device) (Some f) (Some frame_zero) =
    Some (0, Some d1, Some p)) as E by (vm_compute; reflexivity).
  destruct (link_session_hello_rewinds (H := arch64) sample_device f frame_zero d1 p
    sample_hello d2) as (H1 & [d3 H2] & _); [vm_decide|done|exact E|vm_compute; reflexivity|].
  exists d1, d2, d3, p. split; [exact E|]. split; [exact H1|exact H2].
Defined.
