(* ===== verification/LinkDispatch.v ===== *)
(** * Calls over the link (link/link_dispatch.c)

    A call payload names a method and its arguments in tagged fields; the
    dispatcher decodes them, calls the handler and writes the reply payload.
    Handlers are function pointers that may be NULL: options of functions that
    thread the caller's state.  Local arrays start out as zeros; none of their
    bytes is read before it is written. *)

From Stdlib Require Import ZArith Lia.
From stdpp Require Import base tactics option list numbers.
From S2P Require Import Prelude.
From S2P Require Import CString.
From S2P Require Import LinkFrame.

Definition LINK_CH_RESULT : Z := 2.
Definition LINK_CH_ERROR : Z := 3.
Definition LINK_METHOD_NOTIFY : Z := 1.
Definition LINK_METHOD_MESSAGE : Z := 2.
Definition LINK_METHOD_EVENT : Z := 3.
Definition LINK_METHOD_KEY : Z := 4.
Definition LINK_TAG_METHOD : Z := 1.
Definition LINK_TAG_APP : Z := 2.
Definition LINK_TAG_TEXT : Z := 3.
Definition LINK_TAG_BODY : Z := 4.
Definition LINK_TAG_EXTENT : Z := 5.
Definition LINK_TAG_DURATION : Z := 6.
Definition LINK_TAG_PRESSED : Z := 7.
Definition LINK_TAG_STATUS : Z := 1.
Definition LINK_TAG_CODE : Z := 1.
Definition LINK_TAG_ERRMSG : Z := 2.
Definition LINK_EXTENT_BAND : Z := 0.
Definition LINK_ERR_UNKNOWN_APP : Z := 1.
Definition LINK_ERR_BAD_ARGS : Z := 2.
Definition LINK_ERR_UNKNOWN_METHOD : Z := 3.

(** The literals of the error replies. *)
Definition s_method : list Z := [109; 101; 116; 104; 111; 100].
Definition s_title : list Z := [116; 105; 116; 108; 101].
Definition s_notify : list Z := [110; 111; 116; 105; 102; 121].
Definition s_app : list Z := [97; 112; 112].
Definition s_message : list Z := [109; 101; 115; 115; 97; 103; 101].
Definition s_event : list Z := [101; 118; 101; 110; 116].
Definition s_key : list Z := [107; 101; 121].

Record link_handlers_t (U : Type) := mk_handlers {
  lh_notify : option (list Z → option (list Z) → Z → Z → U → Z * U);
  lh_message : option (list Z → list Z → U → Z * U);
  lh_event : option (list Z → list Z → option (list Z) → Z → U → Z * U);
  lh_key : option (list Z → Z → U → Z * U)
}.
Arguments mk_handlers {U}.
Arguments lh_notify {U}.
Arguments lh_message {U}.
Arguments lh_event {U}.
Arguments lh_key {U}.

Section Dispatch.
Context `{Arch}.

Definition copy_str (payload : option (list Z)) (len tag : Z) (out : list Z) (cap : Z)
    : option (Z * list Z) :=
  if cap =? 0 then Some (-1, out) else
  '(rc, raw, n) ← link_tlv_get payload len tag (Some (zeros 160)) 160 (Some 0);
  if c_true rc then out ← wr out 0 0; Some (-1, out) else
  raw ← raw; n ← n;
  let n := if cap <=? n then u8 (cap - 1) else n in
  s ← rd_bytes raw 0 n;
  out ← wr_bytes out 0 s;
  out ← wr out n 0;
  Some (0, out).

(** Result of the dispatcher: return code, [reply], [*reply_len], [*channel]. *)
Record reply_t := mk_reply { rp_buf : list Z; rp_len : Z; rp_channel : Z }.

Definition put_error (r : reply_t) (cap code : Z) (text : list Z) : option (Z * reply_t) :=
  '(rc, b, used) ← link_tlv_put_u16 (Some (rp_buf r)) cap (Some 0) LINK_TAG_CODE code;
  b ← b;
  if c_true rc then Some (-1, mk_reply b (rp_len r) (rp_channel r)) else
  '(rc, b, used) ← link_tlv_put_str (Some b) cap used LINK_TAG_ERRMSG (Some text);
  b ← b;
  if c_true rc then Some (-1, mk_reply b (rp_len r) (rp_channel r)) else
  used ← used;
  Some (0, mk_reply b used LINK_CH_ERROR).

Definition put_ok (r : reply_t) (cap : Z) : option (Z * reply_t) :=
  '(rc, b, used) ← link_tlv_put_u8 (Some (rp_buf r)) cap (Some 0) LINK_TAG_STATUS 0;
  b ← b;
  if c_true rc then Some (-1, mk_reply b (rp_len r) (rp_channel r)) else
  used ← used;
  Some (0, mk_reply b used LINK_CH_RESULT).

Context {U : Type}.

(** [return put_error (...)] / [return put_ok (...)] beside the handlers' state. *)
Definition ret_error (u : U) (r : reply_t) (cap code : Z) (text : list Z)
    : option (Z * reply_t * U) := '(rc, r) ← put_error r cap code text; Some (rc, r, u).
Definition ret_ok (u : U) (r : reply_t) (cap : Z) : option (Z * reply_t * U) :=
  '(rc, r) ← put_ok r cap; Some (rc, r, u).

(** [(uint32_t)d[0] | (uint32_t)d[1] << 8 | ...] *)
Definition le32 (d0 d1 d2 d3 : Z) : Z :=
  Z.lor (Z.lor (Z.lor d0 (Z.shiftl d1 8)) (Z.shiftl d2 16)) (Z.shiftl d3 24).

Definition dispatch_notify (hs : link_handlers_t U) (payload : option (list Z)) (len : Z)
    (r : reply_t) (cap : Z) (u : U) : option (Z * reply_t * U) :=
  match lh_notify hs with
  | None => ret_error u r cap LINK_ERR_BAD_ARGS s_title
  | Some notify =>
    '(rc, text) ← copy_str payload len LINK_TAG_TEXT (zeros 160) 160;
    t0 ← rd text 0;
    if c_true rc || (t0 =? 0) then ret_error u r cap LINK_ERR_BAD_ARGS s_title else
    '(rc, body) ← copy_str payload len LINK_TAG_BODY (zeros 160) 160;
    body ← (if c_true rc then wr body 0 0 else Some body);
    '(rc, ext, n) ← link_tlv_get payload len LINK_TAG_EXTENT (Some [LINK_EXTENT_BAND]) 1 (Some 1);
    ext ← ext; n ← n; e0 ← rd ext 0;
    let extent := if c_true rc || negb (n =? 1) then LINK_EXTENT_BAND else e0 in
    '(rc, d, n) ← link_tlv_get payload len LINK_TAG_DURATION (Some (zeros 4)) 4 (Some n);
    d ← d; n ← n; d0 ← rd d 0; d1 ← rd d 1; d2 ← rd d 2; d3 ← rd d 3;
    let duration := if negb (c_true rc) && (n =? 4) then le32 d0 d1 d2 d3 else 0 in
    b0 ← rd body 0;
    let '(rc, u) := notify (c_str text) (if c_true b0 then Some (c_str body) else None)
                      extent duration u in
    if c_true rc then ret_error u r cap LINK_ERR_BAD_ARGS s_notify else ret_ok u r cap
  end.

Definition dispatch_app (hs : link_handlers_t U) (method : Z) (payload : option (list Z))
    (len : Z) (r : reply_t) (cap : Z) (u : U) : option (Z * reply_t * U) :=
  '(rc, app) ← copy_str payload len LINK_TAG_APP (zeros 32) 32;
  a0 ← rd app 0;
  if c_true rc || (a0 =? 0) then ret_error u r cap LINK_ERR_BAD_ARGS s_app else
  '(rc, text) ← copy_str payload len LINK_TAG_TEXT (zeros 160) 160;
  t0 ← rd text 0;
  if c_true rc || (t0 =? 0) then ret_error u r cap LINK_ERR_BAD_ARGS s_app else
  let finish rc u :=
    if c_true rc then
      ret_error u r cap (if 0 <? rc then u16 rc else LINK_ERR_UNKNOWN_APP) (c_str app)
    else ret_ok u r cap in
  if method =? LINK_METHOD_MESSAGE then
    match lh_message hs with
    | None => ret_error u r cap LINK_ERR_UNKNOWN_METHOD s_message
    | Some message => let '(rc, u) := message (c_str app) (c_str text) u in finish rc u
    end
  else
    match lh_event hs with
    | None => ret_error u r cap LINK_ERR_UNKNOWN_METHOD s_event
    | Some event =>
      '(rc, extra, n) ← link_tlv_get payload len LINK_TAG_BODY (Some (zeros 64)) 64 (Some 0);
      extra ← extra; n ← n;
      let extra_n := if c_true rc then 0 else n in
      p ← rd_bytes extra 0 extra_n;
      let '(rc, u) := event (c_str app) (c_str text)
                        (if c_true extra_n then Some p else None) extra_n u in
      finish rc u
    end.

Definition dispatch_key (hs : link_handlers_t U) (payload : option (list Z)) (len : Z)
    (r : reply_t) (cap : Z) (u : U) : option (Z * reply_t * U) :=
  match lh_key hs with
  | None => ret_error u r cap LINK_ERR_BAD_ARGS s_key
  | Some key =>
    '(rc, text) ← copy_str payload len LINK_TAG_TEXT (zeros 160) 160;
    t0 ← rd text 0;
    if c_true rc || (t0 =? 0) then ret_error u r cap LINK_ERR_BAD_ARGS s_key else
    '(rc, pr, n) ← link_tlv_get payload len LINK_TAG_PRESSED (Some [1]) 1 (Some 1);
    pr ← pr; n ← n; p0 ← rd pr 0;
    let pressed := if c_true rc || negb (n =? 1) then 1 else p0 in
    let '(rc, u) := key (c_str text) (if c_true pressed then 1 else 0) u in
    if c_true rc then ret_error u r cap LINK_ERR_BAD_ARGS s_key else ret_ok u r cap
  end.

Definition link_dispatch_call (handlers : option (link_handlers_t U))
    (payload : option (list Z)) (len : Z) (reply : option reply_t) (cap : Z) (u : U)
    : option (Z * option reply_t * U) :=
  match handlers, reply with
  | Some hs, Some r =>
    if negb (bool_decide (is_Some payload)) && (0 <? len) then Some (-1, reply, u) else
    '(rc, m, n) ← link_tlv_get payload len LINK_TAG_METHOD (Some [0]) 1 (Some 0);
    m ← m; n ← n; method ← rd m 0;
    '(rc, r, u) ←
      (if c_true rc || negb (n =? 1) then ret_error u r cap LINK_ERR_BAD_ARGS s_method
       else if method =? LINK_METHOD_NOTIFY then dispatch_notify hs payload len r cap u
       else if (method =? LINK_METHOD_MESSAGE) || (method =? LINK_METHOD_EVENT)
         then dispatch_app hs method payload len r cap u
       else if method =? LINK_METHOD_KEY then dispatch_key hs payload len r cap u
       else ret_error u r cap LINK_ERR_UNKNOWN_METHOD s_method);
    Some (rc, Some r, u)
  | _, _ => Some (-1, reply, u)
  end.
End Dispatch.

(** ** Reading any payload

    The fields a payload holds, up to the first one that is cut short. *)

Fixpoint tlv_parse (fuel : nat) (b : list Z) : list (Z * list Z) :=
  match fuel, b with
  | S fuel, t :: len :: r =>
      if blen r <? len then []
      else (t, take (Z.to_nat len) r) :: tlv_parse fuel (drop (Z.to_nat len) r)
  | _, _ => []
  end.

Definition tlv_fields (b : list Z) : list (Z * list Z) := tlv_parse (length b) b.

Lemma tlv_parse_fuel fuel fuel' b :
  (length b <= fuel)%nat → (length b <= fuel')%nat → tlv_parse fuel b = tlv_parse fuel' b.
Proof.
  revert fuel' b. induction fuel as [|fuel IH]; intros fuel' b Hf Hf'.
  - destruct b; [by destruct fuel'|simpl in Hf; lia].
  - destruct fuel' as [|fuel']; [destruct b; [done|simpl in Hf'; lia]|].
    destruct b as [|t [|len r]]; [done..|]. cbn [tlv_parse].
    destruct (blen r <? len); [done|]. f_equal. simpl in *. apply IH; rewrite length_drop; lia.
Qed.

Section Facts.
Context `{Arch}.

Lemma tlv_get_loop_any b n tag out cap ol fuel i :
  Forall is_u8 b → 0 <= n <= blen b → n < 2 ^ 31 → cap <= blen out → 0 <= i <= n →
  (Z.to_nat (n - i) < fuel)%nat →
  tlv_get_loop fuel b n tag (Some out) cap ol i =
    match tlv_lookup tag (tlv_parse (Z.to_nat (n - i)) (drop (Z.to_nat i) (take (Z.to_nat n) b))) with
    | Some v => if cap <? blen v then Some (-1, Some out, ol)
                else Some (0, Some (v ++ drop (length v) out), blen v)
    | None => Some (-1, Some out, ol)
    end.
Proof.
  intros Hb Hn H31 Hcap. revert i. induction fuel as [|fuel IH]; intros i Hi Hf; [lia|].
  cbn [tlv_get_loop]. rewrite (usz_id (i + 2)) by lia.
  set (d := drop (Z.to_nat i) (take (Z.to_nat n) b)).
  assert (length d = Z.to_nat (n - i)) as Hd.
  { unfold d. rewrite length_drop, length_take. unfold blen in Hn. lia. }
  assert (∀ k, i + k < n → 0 <= k → rd b (i + k) = d !! Z.to_nat k) as Hrd.
  { intros k Hk Hk0. unfold rd. zbool. unfold d.
    rewrite lookup_drop, lookup_take_lt by lia. f_equal. lia. }
  destruct (i + 2 <=? n) eqn:E; bool_hyps.
  2:{ rewrite <- Hd. destruct d as [|x [|y d']]; [done|done|simpl in Hd; lia]. }
  pose proof (Hrd 0 ltac:(lia) ltac:(lia)) as H0. pose proof (Hrd 1 ltac:(lia) ltac:(lia)) as H1.
  rewrite Z.add_0_r in H0. rewrite H0, H1.
  destruct d as [|t [|len r]] eqn:Ed; [simpl in Hd; lia..|].
  change (Z.to_nat 0) with 0%nat. change (Z.to_nat 1) with 1%nat.
  cbn [mbind option_bind lookup list_lookup].
  assert (is_u8 len) as Hlen.
  { assert (Forall is_u8 (t :: len :: r)) as Hu
      by (rewrite <- Ed; apply Forall_drop, Forall_take; done).
    by apply Forall_cons_1 in Hu as [_ [Hu _]%Forall_cons_1]. }
  unfold in_w in Hlen. rewrite !usz_id by lia.
  assert (blen r = n - i - 2) as Hr by (unfold blen; simpl in Hd; lia).
  replace (Z.to_nat (n - i)) with (S (Z.to_nat (n - i - 1))) by lia. cbn [tlv_parse].
  rewrite Hr. destruct (n <? i + 2 + len) eqn:E2; bool_hyps; zbool; [done|]. cbn [tlv_lookup].
  destruct (t =? tag).
  - rewrite blen_take by lia. destruct (cap <? len) eqn:E3; [done|]. bool_hyps.
    assert (rd_bytes b (i + 2) len = Some (take (Z.to_nat len) r)) as ->.
    { rewrite rd_bytes_ok by lia. f_equal.
      assert (r = drop (Z.to_nat (i + 2)) (take (Z.to_nat n) b)) as ->.
      { replace (Z.to_nat (i + 2)) with (Z.to_nat i + 2)%nat by lia.
        rewrite <- drop_drop. fold d. by rewrite Ed. }
      rewrite skipn_firstn_comm, take_take. f_equal. lia. }
    destruct (0 <? len) eqn:E4; bool_hyps; cbn [mbind option_bind].
    + rewrite wr_bytes_ok by (rewrite ?blen_take; lia). done.
    + replace len with 0 by lia. done.
  - rewrite IH by lia.
    rewrite (tlv_parse_fuel _ (Z.to_nat (n - i - 1)));
      [|rewrite length_drop, length_take; unfold blen in Hn; lia..].
    do 2 f_equal. replace (Z.to_nat (i + 2 + len)) with (Z.to_nat i + (2 + Z.to_nat len))%nat by lia.
    rewrite <- drop_drop. fold d. rewrite Ed. done.
Qed.

(** [link_tlv_get] on any bytes at all. *)
Lemma link_tlv_get_any b tag out cap ol :
  Forall is_u8 b → blen b < 2 ^ 31 → cap <= blen out →
  link_tlv_get (Some b) (blen b) tag (Some out) cap (Some ol) =
    tlv_answer tag (tlv_fields b) out cap ol.
Proof.
  intros Hb Hn Hc. unfold link_tlv_get, tlv_answer. pose proof (blen_nonneg b).
  rewrite tlv_get_loop_any by (done || lia). rewrite Z.sub_0_r, drop_0.
  unfold tlv_fields. rewrite take_ge by (unfold blen; lia).
  replace (Z.to_nat (blen b)) with (length b) by (unfold blen; lia).
  destruct (tlv_lookup _ _); [|done]. by destruct (cap <? _).
Qed.

(** ** What a call means

    The reference semantics, on the fields of the payload. *)

Definition u8_field (tag : Z) (es : list (Z * list Z)) : option Z :=
  match tlv_lookup tag es with Some [x] => Some x | _ => None end.

(** A text argument: at most 160 bytes, cut to the array, up to the first NUL. *)
Definition str_field (tag cap : Z) (es : list (Z * list Z)) : option (list Z) :=
  v ← tlv_lookup tag es;
  if 160 <? blen v then None else Some (c_str (take (Z.to_nat (cap - 1)) v)).

Definition nonempty (s : option (list Z)) : option (list Z) :=
  match s with Some (_ :: _) => s | _ => None end.

Definition duration_field (es : list (Z * list Z)) : Z :=
  match tlv_lookup LINK_TAG_DURATION es with
  | Some [d0; d1; d2; d3] => le32 d0 d1 d2 d3
  | _ => 0
  end.

Definition reply_error (code : Z) (text : list Z) : Z * list (Z * list Z) :=
  (LINK_CH_ERROR, [(LINK_TAG_CODE, [lo8 code; hi8 code]); (LINK_TAG_ERRMSG, text)]).
Definition reply_ok : Z * list (Z * list Z) := (LINK_CH_RESULT, [(LINK_TAG_STATUS, [0])]).

Context {U : Type}.

Definition spec_notify (hs : link_handlers_t U) (es : list (Z * list Z)) (u : U)
    : (Z * list (Z * list Z)) * U :=
  match lh_notify hs, nonempty (str_field LINK_TAG_TEXT 160 es) with
  | Some notify, Some title =>
    let '(rc, u) := notify title (nonempty (str_field LINK_TAG_BODY 160 es))
                      (default LINK_EXTENT_BAND (u8_field LINK_TAG_EXTENT es))
                      (duration_field es) u in
    (if c_true rc then reply_error LINK_ERR_BAD_ARGS s_notify else reply_ok, u)
  | _, _ => (reply_error LINK_ERR_BAD_ARGS s_title, u)
  end.

Definition app_reply (app : list Z) (rc : Z) : Z * list (Z * list Z) :=
  if c_true rc
  then reply_error (if 0 <? rc then u16 rc else LINK_ERR_UNKNOWN_APP) app
  else reply_ok.

Definition extra_field (es : list (Z * list Z)) : list Z :=
  match tlv_lookup LINK_TAG_BODY es with
  | Some v => if 64 <? blen v then [] else v
  | None => []
  end.

Definition spec_app (hs : link_handlers_t U) (method : Z) (es : list (Z * list Z)) (u : U)
    : (Z * list (Z * list Z)) * U :=
  match nonempty (str_field LINK_TAG_APP 32 es), nonempty (str_field LINK_TAG_TEXT 160 es) with
  | Some app, Some text =>
    if method =? LINK_METHOD_MESSAGE then
      match lh_message hs with
      | None => (reply_error LINK_ERR_UNKNOWN_METHOD s_message, u)
      | Some message => let '(rc, u) := message app text u in (app_reply app rc, u)
      end
    else
      match lh_event hs with
      | None => (reply_error LINK_ERR_UNKNOWN_METHOD s_event, u)
      | Some event =>
        let x := extra_field es in
        let '(rc, u) := event app text (match x with [] => None | _ => Some x end)
                          (blen x) u in
        (app_reply app rc, u)
      end
  | _, _ => (reply_error LINK_ERR_BAD_ARGS s_app, u)
  end.

Definition spec_key (hs : link_handlers_t U) (es : list (Z * list Z)) (u : U)
    : (Z * list (Z * list Z)) * U :=
  match lh_key hs, nonempty (str_field LINK_TAG_TEXT 160 es) with
  | Some key, Some text =>
    let '(rc, u) := key text
                      (if c_true (default 1 (u8_field LINK_TAG_PRESSED es)) then 1 else 0) u in
    (if c_true rc then reply_error LINK_ERR_BAD_ARGS s_key else reply_ok, u)
  | _, _ => (reply_error LINK_ERR_BAD_ARGS s_key, u)
  end.

Definition spec_call (hs : link_handlers_t U) (es : list (Z * list Z)) (u : U)
    : (Z * list (Z * list Z)) * U :=
  match u8_field LINK_TAG_METHOD es with
  | None => (reply_error LINK_ERR_BAD_ARGS s_method, u)
  | Some method =>
    if method =? LINK_METHOD_NOTIFY then spec_notify hs es u
    else if (method =? LINK_METHOD_MESSAGE) || (method =? LINK_METHOD_EVENT)
      then spec_app hs method es u
    else if method =? LINK_METHOD_KEY then spec_key hs es u
    else (reply_error LINK_ERR_UNKNOWN_METHOD s_method, u)
  end.

(** ** Strings *)

Lemma c_str_head s r : ∃ x, rd (s ++ 0 :: r) 0 = Some x ∧
  (x =? 0) = bool_decide (c_str s = []).
Proof.
  destruct s as [|x s]; [by exists 0|]. exists x. split; [done|]. cbn [c_str].
  destruct (x =? 0); [by rewrite bool_decide_true|by rewrite bool_decide_false].
Qed.

(** What [copy_str] leaves in a zeroed array. *)
Definition str_raw (tag cap : Z) (es : list (Z * list Z)) : option (list Z) :=
  v ← tlv_lookup tag es;
  if 160 <? blen v then None else Some (take (Z.to_nat (cap - 1)) v).

Lemma str_field_raw tag cap es : str_field tag cap es = c_str <$> str_raw tag cap es.
Proof.
  unfold str_field, str_raw. destruct (tlv_lookup tag es) as [v|]; [|done].
  cbn [mbind option_bind]. by destruct (160 <? blen v).
Qed.

Lemma copy_str_any b tag cap :
  Forall is_u8 b → blen b < 2 ^ 31 → 0 < cap <= 160 →
  ∃ r, copy_str (Some b) (blen b) tag (zeros cap) cap =
    match str_raw tag cap (tlv_fields b) with
    | Some v => Some (0, v ++ 0 :: r)
    | None => Some (-1, 0 :: r)
    end.
Proof.
  intros Hb Hl Hcap. unfold copy_str, str_raw. zbool.
  rewrite link_tlv_get_any by (done || by rewrite blen_zeros).
  unfold tlv_answer. destruct (tlv_lookup tag (tlv_fields b)) as [v|]; cbn [mbind option_bind].
  2:{ exists (zeros (cap - 1)). cbn [c_true Z.eqb negb Z.opp].
      unfold zeros. replace (Z.to_nat cap) with (S (Z.to_nat (cap - 1))) by lia. done. }
  destruct (160 <? blen v) eqn:E; cbn [mbind option_bind].
  { exists (zeros (cap - 1)). unfold zeros.
    replace (Z.to_nat cap) with (S (Z.to_nat (cap - 1))) by lia. done. }
  bool_hyps. cbn [c_true Z.eqb negb]. pose proof (blen_nonneg v).
  set (n := if cap <=? blen v then u8 (cap - 1) else blen v).
  assert (n = Z.min (cap - 1) (blen v)) as Hn.
  { unfold n. destruct (cap <=? blen v) eqn:E2; bool_hyps; [|lia].
    rewrite wrap_id by (unfold in_w; lia). lia. }
  assert (rd_bytes (v ++ drop (length v) (zeros 160)) 0 n =
          Some (take (Z.to_nat (cap - 1)) v)) as ->.
  { rewrite rd_bytes_ok by (rewrite ?blen_app; pose proof (blen_nonneg (drop (length v) (zeros 160))); lia).
    change (Z.to_nat 0) with 0%nat. rewrite drop_0, take_app_le by (unfold blen in Hn; lia).
    f_equal. destruct (Z.le_gt_cases (blen v) (cap - 1)).
    - rewrite !take_ge; [done|unfold blen in *; lia..].
    - f_equal. lia. }
  cbn [mbind option_bind]. set (s := take (Z.to_nat (cap - 1)) v).
  assert (blen s = n) as Hs by (unfold s, blen in *; rewrite length_take; lia).
  rewrite wr_bytes_prefix by (rewrite blen_zeros; lia). cbn [mbind option_bind].
  destruct (drop (length s) (zeros cap)) as [|x r] eqn:Ed.
  { apply (f_equal length) in Ed. unfold zeros in Ed.
    rewrite length_drop, length_replicate in Ed. unfold blen in *. simpl in Ed. lia. }
  rewrite <- Hs, wr_app_l. by exists r.
Qed.

(** ** Replies *)

Definition replied (r : reply_t) (ans : Z * list (Z * list Z)) : Prop :=
  rp_channel r = ans.1 ∧ rp_len r = blen (tlv_bytes ans.2) ∧
  tlv_holds (rp_buf r) (rp_len r) ans.2.

Lemma ret_ok_spec (u : U) r cap :
  37 <= cap <= blen (rp_buf r) → cap < 2 ^ 31 →
  ∃ r', ret_ok u r cap = Some (0, r', u) ∧ replied r' reply_ok.
Proof.
  intros Hcap H31. unfold ret_ok, put_ok, link_tlv_put_u8.
  destruct (link_tlv_put_ok (rp_buf r) cap 0 [] LINK_TAG_STATUS [0]) as (b & E & Hh & _);
    [apply tlv_holds_nil|by cbv|change (blen [0]) with 1; lia|lia|lia|].
  change (blen [0]) with 1 in *. rewrite E. cbn [mbind option_bind c_true Z.eqb negb].
  eexists. split; [done|]. by split.
Qed.

Lemma ret_error_spec (u : U) r cap code text :
  37 <= cap <= blen (rp_buf r) → cap < 2 ^ 31 → blen text <= 31 →
  ∃ r', ret_error u r cap code text = Some (0, r', u) ∧ replied r' (reply_error code text).
Proof.
  intros Hcap H31 Ht. unfold ret_error, put_error, link_tlv_put_u16, link_tlv_put_str.
  pose proof (blen_nonneg text).
  destruct (link_tlv_put_ok (rp_buf r) cap 0 [] LINK_TAG_CODE [lo8 code; hi8 code])
    as (b & E & Hh & Hl); [apply tlv_holds_nil|by cbv|change (blen [_; _]) with 2; lia|lia|lia|].
  change (blen [lo8 code; hi8 code]) with 2 in *. rewrite E.
  cbn [mbind option_bind c_true Z.eqb negb default from_option id].
  zbool. rewrite wrap_id by (unfold in_w; lia).
  destruct (link_tlv_put_ok b cap 4 [(LINK_TAG_CODE, [lo8 code; hi8 code])] LINK_TAG_ERRMSG text)
    as (b' & E' & Hh' & Hl'); [exact Hh|lia|lia|unfold blen in *; lia|lia|].
  change (0 + 2 + 2) with 4. rewrite E'. cbn [mbind option_bind c_true Z.eqb negb].
  eexists. split; [done|]. split; [done|]. split; [|exact Hh'].
  cbn [rp_len]. change (tlv_bytes (reply_error code text).2) with
    (LINK_TAG_CODE :: 2 :: lo8 code :: hi8 code :: LINK_TAG_ERRMSG :: blen text :: text ++ []).
  rewrite !blen_cons, app_nil_r. lia.
Qed.

(** ** The dispatcher computes the reference semantics *)

Section Refine.
Variable hs : link_handlers_t U.
Variable b : list Z.
Variables (r : reply_t) (cap : Z) (u : U).
Hypothesis Hb : Forall is_u8 b.
Hypothesis Hlen : blen b < 2 ^ 31.
Hypothesis Hcap : 37 <= cap <= blen (rp_buf r).
Hypothesis H31 : cap < 2 ^ 31.

Definition refines (res : option (Z * reply_t * U)) (ans : (Z * list (Z * list Z)) * U) : Prop :=
  ∃ r', res = Some (0, r', ans.2) ∧ replied r' ans.1.

Lemma refine_ok v : refines (ret_ok v r cap) (reply_ok, v).
Proof. destruct (ret_ok_spec v r cap) as (r' & E & ?); [done..|]. by exists r'. Qed.

Lemma refine_error v code text :
  blen text <= 31 → refines (ret_error v r cap code text) (reply_error code text, v).
Proof. intros. destruct (ret_error_spec v r cap code text) as (r' & E & ?); [done..|]. by exists r'. Qed.

(** A required text argument. *)
Lemma refine_text (tag n : Z) (k : list Z → option (Z * reply_t * U)) bad ans ans_bad :
  0 < n <= 160 →
  (∀ s t, str_raw tag n (tlv_fields b) = Some s → c_str s ≠ [] → refines (k (s ++ 0 :: t)) (ans (c_str s))) →
  refines bad ans_bad →
  refines
    ('(rc, text) ← copy_str (Some b) (blen b) tag (zeros n) n;
     t0 ← rd text 0;
     if c_true rc || (t0 =? 0) then bad else k text)
    (match nonempty (str_field tag n (tlv_fields b)) with
     | Some s => ans s | None => ans_bad end).
Proof.
  intros Hn Hk Hbad. destruct (copy_str_any b tag n) as [t E]; [done..|]. rewrite E.
  rewrite str_field_raw. destruct (str_raw tag n (tlv_fields b)) as [s|]; cbn [mbind option_bind].
  - destruct (c_str_head s t) as (x & -> & Hx). cbn [mbind option_bind c_true Z.eqb negb orb].
    rewrite Hx. cbn [fmap option_fmap option_map nonempty].
    destruct (c_str s) eqn:Ec; [by rewrite bool_decide_true|].
    rewrite bool_decide_false by done. rewrite <- Ec. apply Hk; [done|by rewrite Ec].
  - exact Hbad.
Qed.

(** An optional one-byte argument. *)
Lemma get_u8_field tag d n0 :
  ∃ rc x n, link_tlv_get (Some b) (blen b) tag (Some [d]) 1 (Some n0) =
    Some (rc, Some [x], Some n) ∧
    (if c_true rc || negb (n =? 1) then None else Some x) = u8_field tag (tlv_fields b).
Proof.
  rewrite link_tlv_get_any by done. unfold tlv_answer, u8_field.
  destruct (tlv_lookup tag (tlv_fields b)) as [v|]; [|by exists (-1), d, n0].
  destruct v as [|x [|y v]].
  - by exists 0, d, 0.
  - by exists 0, x, 1.
  - rewrite !blen_cons. pose proof (blen_nonneg v). zbool. by exists (-1), d, n0.
Qed.

Lemma refine_key : refines (dispatch_key hs (Some b) (blen b) r cap u) (spec_key hs (tlv_fields b) u).
Proof.
  unfold dispatch_key, spec_key. destruct (lh_key hs) as [key|]; [|by apply refine_error].
  apply refine_text; [lia| |by apply refine_error].
  intros s t _ _. destruct (get_u8_field LINK_TAG_PRESSED 1 1) as (rc & x & n & -> & Hf).
  cbn [mbind option_bind rd Z.leb Z.compare]. change (Z.to_nat 0) with 0%nat.
  cbn [lookup list_lookup mbind option_bind]. rewrite <- Hf, c_str_app_nul.
  destruct (c_true rc || _); cbn [default from_option id];
    destruct (key _ _ u) as [rc' v];
    (destruct (c_true rc'); [by apply refine_error|apply refine_ok]).
Qed.

Lemma str_raw_length tag n s :
  0 < n → str_raw tag n (tlv_fields b) = Some s → blen (c_str s) <= n - 1.
Proof.
  intros Hn. unfold str_raw. destruct (tlv_lookup _ _) as [v|]; [|done]. cbn [mbind option_bind].
  destruct (160 <? blen v); [done|]. intros [= <-]. etrans; [apply c_str_length|].
  unfold blen. rewrite length_take. lia.
Qed.

Lemma get_extra_field :
  ∃ rc o n, link_tlv_get (Some b) (blen b) LINK_TAG_BODY (Some (zeros 64)) 64 (Some 0) =
      Some (rc, Some o, Some n) ∧
    (if c_true rc then 0 else n) = blen (extra_field (tlv_fields b)) ∧
    rd_bytes o 0 (blen (extra_field (tlv_fields b))) = Some (extra_field (tlv_fields b)).
Proof.
  rewrite link_tlv_get_any by done. unfold tlv_answer, extra_field.
  destruct (tlv_lookup LINK_TAG_BODY (tlv_fields b)) as [v|]; [|by do 3 eexists].
  destruct (64 <? blen v); [by do 3 eexists|]. do 3 eexists. split; [done|]. split; [done|].
  apply rd_bytes_prefix.
Qed.

Lemma refine_app method :
  refines (dispatch_app hs method (Some b) (blen b) r cap u) (spec_app hs method (tlv_fields b) u).
Proof.
  unfold dispatch_app, spec_app.
  apply refine_text; [lia| |by apply refine_error]. intros a t Ha _.
  apply refine_text; [lia| |by apply refine_error]. intros s t' _ _.
  rewrite !c_str_app_nul. apply str_raw_length in Ha; [|lia].
  assert (∀ rc v, refines
    (if c_true rc then ret_error v r cap (if 0 <? rc then u16 rc else LINK_ERR_UNKNOWN_APP) (c_str a)
     else ret_ok v r cap) (app_reply (c_str a) rc, v)) as Hfin.
  { intros rc v. unfold app_reply. destruct (c_true rc); [by apply refine_error|apply refine_ok]. }
  destruct (method =? LINK_METHOD_MESSAGE).
  - destruct (lh_message hs) as [message|]; [|by apply refine_error].
    destruct (message _ _ u) as [rc v]. apply Hfin.
  - destruct (lh_event hs) as [event|]; [|by apply refine_error].
    destruct get_extra_field as (rc & o & n & -> & Hn & Hx). cbn [mbind option_bind].
    rewrite Hn, Hx. cbn [mbind option_bind].
    set (x := extra_field (tlv_fields b)).
    assert ((if c_true (blen x) then Some x else None) =
            match x with [] => None | _ => Some x end) as ->.
    { destruct x as [|y x']; [done|]. unfold c_true. rewrite blen_cons.
      pose proof (blen_nonneg x'). by zbool. }
    destruct (event _ _ _ _ u) as [rc' v]. apply Hfin.
Qed.

Lemma get_body_field :
  ∃ rc body body' b0,
    copy_str (Some b) (blen b) LINK_TAG_BODY (zeros 160) 160 = Some (rc, body) ∧
    (if c_true rc then wr body 0 0 else Some body) = Some body' ∧ rd body' 0 = Some b0 ∧
    (if c_true b0 then Some (c_str body') else None) =
      nonempty (str_field LINK_TAG_BODY 160 (tlv_fields b)).
Proof.
  destruct (copy_str_any b LINK_TAG_BODY 160) as [t E]; [done..|]. rewrite E, str_field_raw.
  destruct (str_raw _ _ _) as [s|].
  - destruct (c_str_head s t) as (x & Hx & Hx0). exists 0, (s ++ 0 :: t), (s ++ 0 :: t), x.
    split_and!; [done..|]. rewrite c_str_app_nul. unfold c_true. rewrite Hx0.
    cbn [fmap option_fmap option_map nonempty].
    by destruct (c_str s).
  - exists (-1), (0 :: t), (0 :: t), 0. split_and!; [done| |done|done].
    cbn [c_true Z.eqb negb]. rewrite wr_ok; [done|]. rewrite blen_cons. pose proof (blen_nonneg t). lia.
Qed.

Lemma get_duration_field n0 :
  ∃ rc d0 d1 d2 d3 n,
    link_tlv_get (Some b) (blen b) LINK_TAG_DURATION (Some (zeros 4)) 4 (Some n0) =
      Some (rc, Some [d0; d1; d2; d3], Some n) ∧
    (if negb (c_true rc) && (n =? 4) then le32 d0 d1 d2 d3 else 0) =
      duration_field (tlv_fields b).
Proof.
  rewrite link_tlv_get_any by done. unfold tlv_answer, duration_field.
  destruct (tlv_lookup LINK_TAG_DURATION (tlv_fields b)) as [v|]; [|by do 6 eexists].
  destruct v as [|x0 [|x1 [|x2 [|x3 [|x4 v]]]]]; [by do 6 eexists..|].
  rewrite !blen_cons. pose proof (blen_nonneg v). zbool. by do 6 eexists.
Qed.

Lemma refine_notify :
  refines (dispatch_notify hs (Some b) (blen b) r cap u) (spec_notify hs (tlv_fields b) u).
Proof.
  unfold dispatch_notify, spec_notify.
  destruct (lh_notify hs) as [notify|]; [|by apply refine_error].
  apply refine_text; [lia| |by apply refine_error]. intros s t _ _. rewrite c_str_app_nul.
  destruct get_body_field as (rc & body & body' & b0 & -> & E & E0 & Hbody).
  cbn [mbind option_bind]. rewrite E. cbn [mbind option_bind].
  destruct (get_u8_field LINK_TAG_EXTENT LINK_EXTENT_BAND 1) as (rce & x & n & -> & Hext).
  cbn [mbind option_bind]. change (rd [x] 0) with (Some x). cbn [mbind option_bind].
  destruct (get_duration_field n) as (rcd & d0 & d1 & d2 & d3 & m & -> & Hdur).
  cbn [mbind option_bind].
  change (rd [d0; d1; d2; d3] 0) with (Some d0). change (rd [d0; d1; d2; d3] 1) with (Some d1).
  change (rd [d0; d1; d2; d3] 2) with (Some d2). change (rd [d0; d1; d2; d3] 3) with (Some d3).
  cbn [mbind option_bind]. rewrite E0. cbn [mbind option_bind]. rewrite Hbody, Hdur, <- Hext.
  assert ((if c_true rce || negb (n =? 1) then LINK_EXTENT_BAND else x) =
    default LINK_EXTENT_BAND (if c_true rce || negb (n =? 1) then None else Some x)) as ->
    by by destruct (_ || _).
  destruct (notify _ _ _ _ u) as [rc' v].
  destruct (c_true rc'); [by apply refine_error|apply refine_ok].
Qed.

Lemma link_dispatch_ok :
  ∃ r', link_dispatch_call (Some hs) (Some b) (blen b) (Some r) cap u =
      Some (0, Some r', (spec_call hs (tlv_fields b) u).2) ∧
    replied r' (spec_call hs (tlv_fields b) u).1.
Proof.
  unfold link_dispatch_call, spec_call. rewrite bool_decide_true by (by eexists). cbn [negb andb].
  destruct (get_u8_field LINK_TAG_METHOD 0 0) as (rc & x & n & -> & Hm).
  cbn [mbind option_bind]. change (rd [x] 0) with (Some x). cbn [mbind option_bind].
  rewrite <- Hm.
  assert (∀ res ans, refines res ans → ∃ r', ('(rc, r, u) ← res; Some (rc, Some r, u)) =
    Some (0, Some r', ans.2) ∧ replied r' ans.1) as Hk.
  { intros res ans (r' & -> & Hr). by exists r'. }
  apply Hk. destruct (c_true rc || _); [by apply refine_error|].
  destruct (x =? LINK_METHOD_NOTIFY); [apply refine_notify|].
  destruct (_ || _); [apply refine_app|].
  destruct (x =? LINK_METHOD_KEY); [apply refine_key|by apply refine_error].
Qed.
End Refine.
End Facts.

(** ** Theorem *)

(** for every payload of bytes, well formed or not, a dispatched call stays
    inside its buffers, calls at most the one handler its method names with the
    arguments its fields hold (text cut at 31 or 159 bytes and at the first NUL,
    defaults for what is missing), and replies either with status 0 on the result
    channel or with a code and a message on the error channel; a reply array of
    37 bytes is always enough. *)
Theorem link_dispatch_refines `{Arch} {U} (hs : link_handlers_t U) b r cap u :
  Forall is_u8 b → blen b < 2 ^ 31 → 37 <= cap <= blen (rp_buf r) → cap < 2 ^ 31 →
  ∃ r', link_dispatch_call (Some hs) (Some b) (blen b) (Some r) cap u =
      Some (0, Some r', (spec_call hs (tlv_fields b) u).2) ∧
    replied r' (spec_call hs (tlv_fields b) u).1.
Proof. intros. by apply link_dispatch_ok. Qed.

Definition sample_handlers : link_handlers_t (list (list Z)) :=
  mk_handlers None (Some (λ app text u, (if decide (app = [98]) then 0 else 7, text :: u)))
    None None.

Lemma link_dispatch_refines_witness :
  ∃ r', @link_dispatch_call arch32 _ (Some sample_handlers)
      (Some (tlv_bytes [(LINK_TAG_METHOD, [2]); (LINK_TAG_APP, [97]); (LINK_TAG_TEXT, [104; 105])]))
      10 (Some (mk_reply (zeros 64) 0 0)) 64 [] = Some (0, Some r', [[104; 105]]) ∧
    replied r' (reply_error 7 [97]).
Proof.
  apply (@link_dispatch_refines arch32 _ sample_handlers
    (tlv_bytes [(LINK_TAG_METHOD, [2]); (LINK_TAG_APP, [97]); (LINK_TAG_TEXT, [104; 105])])
    (mk_reply (zeros 64) 0 0) 64 []); vm_decide.
Defined.
