(* ===== verification/TtyService.v ===== *)
(** * The shell on the link (apps/tty_service.c)

    The host is a terminal: bytes it sends are edited into a line, run as a command
    or turned into keys, and everything the shell prints waits in a buffer until the
    link takes it.  The subsystems the commands use are the class [Shell]; commands
    registered by applications are references whose code is [CliCode]. *)

From Stdlib Require Import ZArith Lia String.
From stdpp Require Import base tactics option numbers list.
From S2P Require Import Prelude.
From S2P Require Import CString.
From S2P Require Import LinkDispatch.

Definition TTY_LINE : Z := 128.
Definition TTY_OUT : Z := 2048.
Definition TTY_ARGS : nat := 8.
Definition TTY_CLI : nat := 8.
Definition TTY_HTOP_MS : Z := 1000.
Definition TTY_MODE_LINE : Z := 0.
Definition TTY_MODE_ATTACH : Z := 1.
Definition TTY_MODE_HTOP : Z := 2.
Definition TTY_IN_NORMAL : Z := 0.
Definition TTY_IN_ESC : Z := 1.
Definition TTY_IN_CSI : Z := 2.

Definition SIM_KEY_UNKNOWN : Z := 0.
Definition SIM_KEY_UP : Z := 1.
Definition SIM_KEY_DOWN : Z := 2.
Definition SIM_KEY_LEFT : Z := 3.
Definition SIM_KEY_RIGHT : Z := 4.
Definition SIM_KEY_ENTER : Z := 5.
Definition SIM_KEY_ESCAPE : Z := 6.
Definition SIM_KEY_SPACE : Z := 7.
Definition SIM_KEY_0 : Z := 8.
Definition SIM_KEY_A : Z := 22.

Definition APP_STATE_INSTALLED : Z := 1.
Definition APP_STATE_STOPPED : Z := 2.
Definition APP_STATE_RUNNING : Z := 3.
Definition APP_STATE_SUSPENDED : Z := 4.
Definition APP_STATE_ERROR : Z := 5.

Record device_info_t := mk_device_info {
  di_os_name : option (list Z); di_os_version : option (list Z); di_target : option (list Z);
  di_arch : option (list Z); di_display_w : Z; di_display_h : Z; di_uptime_ms : Z;
  di_installed_apps : Z
}.

(** ** What the commands use

    [W]: the rest of the system; [D], [F]: open directories and files.  [None] of a
    query is its failure.  A directory has finitely many entries and a file finitely
    many bytes left; a read returns at most what was asked for. *)
Class Shell (W D F : Type) := {
  task_slots : W → list (list Z * Z * Z);
  app_list : W → option (list (list Z * Z));
  app_kit_foreground_name : W → option (list Z);
  app_kit_switch : list Z → W → Z * W;
  app_find : list Z → W → bool;
  app_state : list Z → W → Z;
  app_kit_request_stop : list Z → W → Z * W;
  app_resume : list Z → W → Z * W;
  app_stop : list Z → W → Z * W;
  sim_gpio_handle_key : Z → bool → W → W;
  sensor_service_count : W → Z;
  sensor_service_key : Z → W → option (list Z);
  sensor_get : list Z → W → Z * Z * W;
  device_info_query : W → option device_info_t;
  os_clock_now : W → Z;
  os_clock_set : Z → W → Z * W;
  clock_service_set : Z → W → Z * W;
  os_get_free_heap : W → Z;
  os_get_min_free_heap : W → Z;
  time_now_ms : W → Z;
  vfs_opendir : list Z → W → option D * W;
  vfs_readdir : D → W → option (list Z * bool) * W;
  vfs_closedir : D → W → W;
  vfs_open : list Z → W → option F * W;
  vfs_read : F → Z → W → Z * list Z * W;
  vfs_close : F → W → W;
  dir_left : D → W → nat;
  file_left : F → W → nat;
  readdir_ends : ∀ d w e w', vfs_readdir d w = (Some e, w') → (dir_left d w' < dir_left d w)%nat;
  read_bounded : ∀ f n w k b w', vfs_read f n w = (k, b, w') → 0 < k → blen b = k ∧ k <= n;
  read_ends : ∀ f n w k b w', vfs_read f n w = (k, b, w') → 0 < k → (file_left f w' < file_left f w)%nat
}.

Section Tty.
Context {W D F C : Type} `{Arch} `{Shell W D F}.

(** ** State *)

(** The built-in commands for [run], and those of applications. *)
Inductive tty_cli_fn := CliSensors | CliInfo | CliClock | CliUser (c : C).

Record tty_state := mk_tty {
  g_line : list Z; g_len : Z; g_out : list Z; g_out_len : Z;
  g_mode : Z; g_esc : Z; g_htop_armed : bool; g_closed : bool; g_htop_ms : Z;
  g_handlers : option (link_handlers_t W); g_reboot : option (W → W);
  g_cli : list (list Z * tty_cli_fn); world : W
}.

(** The code of registered commands, given the arguments. *)
Class CliCode := cli_user : C → list (list Z) → tty_state → option (Z * tty_state).
Context `{CliCode}.
Implicit Types (s : tty_state) (argv : list (list Z)).

Definition with_out (b : list Z) (n : Z) s : tty_state :=
  mk_tty (g_line s) (g_len s) b n (g_mode s) (g_esc s) (g_htop_armed s) (g_closed s)
    (g_htop_ms s) (g_handlers s) (g_reboot s) (g_cli s) (world s).
Definition with_line (l : list Z) (n : Z) s : tty_state :=
  mk_tty l n (g_out s) (g_out_len s) (g_mode s) (g_esc s) (g_htop_armed s) (g_closed s)
    (g_htop_ms s) (g_handlers s) (g_reboot s) (g_cli s) (world s).
Definition with_mode (mode esc : Z) s : tty_state :=
  mk_tty (g_line s) (g_len s) (g_out s) (g_out_len s) mode esc (g_htop_armed s) (g_closed s)
    (g_htop_ms s) (g_handlers s) (g_reboot s) (g_cli s) (world s).
Definition with_htop (armed : bool) (ms : Z) s : tty_state :=
  mk_tty (g_line s) (g_len s) (g_out s) (g_out_len s) (g_mode s) (g_esc s) armed (g_closed s)
    ms (g_handlers s) (g_reboot s) (g_cli s) (world s).
Definition with_closed (b : bool) s : tty_state :=
  mk_tty (g_line s) (g_len s) (g_out s) (g_out_len s) (g_mode s) (g_esc s) (g_htop_armed s) b
    (g_htop_ms s) (g_handlers s) (g_reboot s) (g_cli s) (world s).
Definition with_cli (c : list (list Z * tty_cli_fn)) s : tty_state :=
  mk_tty (g_line s) (g_len s) (g_out s) (g_out_len s) (g_mode s) (g_esc s) (g_htop_armed s)
    (g_closed s) (g_htop_ms s) (g_handlers s) (g_reboot s) c (world s).
Definition with_world (w : W) s : tty_state :=
  mk_tty (g_line s) (g_len s) (g_out s) (g_out_len s) (g_mode s) (g_esc s) (g_htop_armed s)
    (g_closed s) (g_htop_ms s) (g_handlers s) (g_reboot s) (g_cli s) w.

(** ** Output *)

(** No caller passes NULL. *)
Definition tty_puts (text : list Z) s : option tty_state :=
  let n := blen text in
  let n := if TTY_OUT <=? usz (g_out_len s + n) then usz (TTY_OUT - 1 - g_out_len s) else n in
  if n =? 0 then Some s else
  t ← rd_bytes text 0 n;
  b ← wr_bytes (g_out s) (g_out_len s) t;
  b ← wr b (g_out_len s + n) 0;
  Some (with_out b (usz (g_out_len s + n)) s).

(** [tty_puts (text); return rc;] *)
Definition puts_ret (text : list Z) (rc : Z) s : option (Z * tty_state) :=
  s ← tty_puts text s; Some (rc, s).

Definition tty_prompt s : option tty_state := tty_puts (str "ardubot$ ") s.

(** "\033[2J\033[H" *)
Definition s_clear : list Z := 27 :: str "[2J" ++ 27 :: str "[H".

Fixpoint task_rows (slots : list (list Z * Z * Z)) s : option tty_state :=
  match slots with
  | [] => Some s
  | (name, state, prio) :: slots =>
    if str_eq name [] then task_rows slots s else
    s ← tty_puts (row 64 (pad 16 name ++ str " " ++ pad 9 (fmt_d state) ++ str " "
                            ++ fmt_d prio ++ [10])) s;
    task_rows slots s
  end.

Definition tty_task_table s : option tty_state :=
  let slots := task_slots (world s) in
  s ← tty_puts s_clear s;
  s ← tty_puts (ln "name             state     prio") s;
  task_rows slots s.

Definition state_name (state : Z) : list Z :=
  if state =? APP_STATE_INSTALLED then str "installed" else
  if state =? APP_STATE_STOPPED then str "stopped" else
  if state =? APP_STATE_RUNNING then str "running" else
  if state =? APP_STATE_SUSPENDED then str "suspended" else
  if state =? APP_STATE_ERROR then str "error" else str "absent".

(** ** Arguments *)


(** [while (p[0] && f (p[0])) p++;] *)
Fixpoint scan (f : Z → bool) (fuel : nat) (buf : list Z) (p : Z) : option Z :=
  match fuel with
  | O => None
  | S fuel => c ← rd buf p; if c_true c && f c then scan f fuel buf (p + 1) else Some p
  end.

(** The loop of [parse_args] with [n] arguments to go: the pointers it stores, and
    the buffer with the words terminated.  A scan ends in the buffer, so its length
    is enough fuel. *)
Fixpoint parse_loop (n : nat) (buf : list Z) (p : Z) : option (list Z * list Z) :=
  match n with
  | O => Some ([], buf)
  | S n =>
    c ← rd buf p;
    if negb (c_true c) then Some ([], buf) else
    p ← scan isspace (S (length buf)) buf p;
    c ← rd buf p;
    if negb (c_true c) then Some ([], buf) else
    q ← scan (λ c, negb (isspace c)) (S (length buf)) buf p;
    c ← rd buf q;
    '(buf, q) ← (if c_true c then buf ← wr buf q 0; Some (buf, q + 1) else Some (buf, q));
    '(args, buf) ← parse_loop n buf q;
    Some (p :: args, buf)
  end.

(** The strings [argv] points to. *)
Definition parse_args (line : list Z) (max_argv : nat) : option (list (list Z)) :=
  '(args, buf) ← parse_loop max_argv line 0;
  Some ((λ p, c_str (drop (Z.to_nat p) buf)) <$> (args : list Z)).

(** ** Keys *)

Definition key_from_name (name : list Z) : Z :=
  if str_eq name (str "up") then SIM_KEY_UP else
  if str_eq name (str "down") then SIM_KEY_DOWN else
  if str_eq name (str "left") then SIM_KEY_LEFT else
  if str_eq name (str "right") then SIM_KEY_RIGHT else
  if str_eq name (str "enter") || str_eq name (str "select") then SIM_KEY_ENTER else
  if str_eq name (str "escape") then SIM_KEY_ESCAPE else SIM_KEY_UNKNOWN.

Definition tap_key (key : Z) s : tty_state :=
  with_world (sim_gpio_handle_key key false (sim_gpio_handle_key key true (world s))) s.

Definition attach_key (key : Z) s : option tty_state :=
  let s := tap_key key s in
  tty_puts (row 32 (str "key " ++ fmt_d key ++ [10])) s.

(** ** Commands for [run] *)

Fixpoint find_cli (name : list Z) (l : list (list Z * tty_cli_fn)) : option nat :=
  match l with
  | [] => None
  | (n, _) :: l => if str_eq n name then Some O else S <$> find_cli name l
  end.
Definition cli_find (name : list Z) s : option nat := find_cli name (g_cli s).

(** [for (i = ...; i < n; i++)]; the result says whether it returned. *)
Fixpoint sensor_loop (n : nat) (i : Z) (only : option (list Z)) s : option (bool * tty_state) :=
  match n with
  | O => Some (false, s)
  | S n =>
    match sensor_service_key i (world s) with
    | None => sensor_loop n (i + 1) only s
    | Some key =>
      if match only with Some o => negb (str_eq o key) | None => false end
      then sensor_loop n (i + 1) only s else
      let '(rc, value, w) := sensor_get key (world s) in
      let s := with_world w s in
      s ← tty_puts (row 64 (if c_true rc then key ++ str " ?" ++ [10]
                            else key ++ str " " ++ fmt_d value ++ [10])) s;
      match only with
      | Some _ => Some (true, s)
      | None => sensor_loop n (i + 1) only s
      end
    end
  end.

Definition list_sensors (only : option (list Z)) s : option (Z * tty_state) :=
  let n := sensor_service_count (world s) in
  if n <=? 0 then puts_ret (ln "no sensors") 0 s else
  '(done, s) ← sensor_loop (Z.to_nat n) 0 only s;
  if done : bool then Some (0, s) else
  match only with
  | Some _ => puts_ret (ln "unknown sensor") (-1) s
  | None => Some (0, s)
  end.

Definition cli_sensors argv s : option (Z * tty_state) :=
  match argv with
  | a :: rest =>
    if str_eq a (str "sensor") then
      match rest with
      | [] => puts_ret (ln "usage: sensor <key>") (-1) s
      | only :: _ => list_sensors (Some only) s
      end
    else list_sensors None s
  | [] => list_sensors None s
  end.

Definition cli_info s : option (Z * tty_state) :=
  match device_info_query (world s) with
  | None => puts_ret (ln "info failed") (-1) s
  | Some i =>
    s ← tty_puts (row 80 (default (str "ArdubotOS") (di_os_name i) ++ str " "
                            ++ default [] (di_os_version i) ++ [10])) s;
    puts_ret (row 80 (default [] (di_arch i) ++ str " " ++ fmt_d (di_display_w i) ++ str "x"
                        ++ fmt_d (di_display_h i) ++ [10])) 0 s
  end.

Definition cli_clock s : option (Z * tty_state) :=
  puts_ret (row 48 (fmt_d (os_clock_now (world s)) ++ [10])) 0 s.

(** [g_cli_fn[idx] (argc, argv)] *)
Definition run_cli (fn : tty_cli_fn) argv s : option (Z * tty_state) :=
  match fn with
  | CliSensors => cli_sensors argv s
  | CliInfo => cli_info s
  | CliClock => cli_clock s
  | CliUser c => cli_user c argv s
  end.

Definition tty_cli_register (name : option (list Z)) (fn : option tty_cli_fn) s
    : Z * tty_state :=
  match name, fn with
  | Some name, Some fn =>
    match cli_find name s with
    | Some i => (0, with_cli (alter (λ e, (e.1, fn)) i (g_cli s)) s)
    | None => if (TTY_CLI <=? length (g_cli s))%nat then (-1, s)
              else (0, with_cli (g_cli s ++ [(name, fn)]) s)
    end
  | _, _ => (-1, s)
  end.

Definition register_builtin_cli s : tty_state :=
  let s := with_cli [] s in
  let s := (tty_cli_register (Some (str "sensors")) (Some CliSensors) s).2 in
  let s := (tty_cli_register (Some (str "info")) (Some CliInfo) s).2 in
  (tty_cli_register (Some (str "clock")) (Some CliClock) s).2.

(** ** The service *)

Definition tty_service_reset s : tty_state :=
  register_builtin_cli
    (mk_tty (zeros TTY_LINE) 0 (g_out s) 0 TTY_MODE_LINE TTY_IN_NORMAL false false 0
       (g_handlers s) (g_reboot s) (g_cli s) (world s)).

Definition tty_service_bind (handlers : option (link_handlers_t W)) s : tty_state :=
  mk_tty (g_line s) (g_len s) (g_out s) (g_out_len s) (g_mode s) (g_esc s) (g_htop_armed s)
    (g_closed s) (g_htop_ms s) handlers (g_reboot s) (g_cli s) (world s).

Definition tty_service_set_reboot (reboot : option (W → W)) s : tty_state :=
  mk_tty (g_line s) (g_len s) (g_out s) (g_out_len s) (g_mode s) (g_esc s) (g_htop_armed s)
    (g_closed s) (g_htop_ms s) (g_handlers s) reboot (g_cli s) (world s).

Definition tty_service_open s : option tty_state :=
  tty_prompt (with_mode TTY_MODE_LINE (g_esc s) (with_closed false s)).

(** The count and the bytes. *)
Definition tty_service_read (dst : bool) (cap : Z) s : option (Z * list Z * tty_state) :=
  if negb dst || (cap =? 0) || (g_out_len s =? 0) then Some (0, [], s) else
  let n := if g_out_len s <? cap then g_out_len s else cap in
  b ← rd_bytes (g_out s) 0 n;
  out ← move_down (g_out s) n (g_out_len s - n);
  Some (n, b, with_out out (g_out_len s - n) s).

(** [g_len = 0; g_line[0] = '\0';] *)
Definition clear_line s : option tty_state :=
  l ← wr (g_line s) 0 0; Some (with_line l 0 s).

Definition leave_mode s : option tty_state :=
  let s := with_mode TTY_MODE_LINE TTY_IN_NORMAL s in
  s ← clear_line s;
  s ← tty_puts [10] s;
  tty_prompt s.

(** ** Commands *)

Definition cmd_help s : option (Z * tty_state) :=
  s ← tty_puts (ln "apps switch fg run kill key") s;
  s ← tty_puts (ln "sensors sensor top htop version date") s;
  s ← tty_puts (ln "help mem uptime ls cat clear") s;
  s ← tty_puts (ln "notify msg event restart exit") s;
  puts_ret (ln "Ctrl+Z leaves an app, Ctrl+C cancels") 0 s.

Fixpoint app_rows (fg : option (list Z)) (apps : list (list Z * Z)) s : option tty_state :=
  match apps with
  | [] => Some s
  | (name, state) :: apps =>
    let mark := match fg with Some f => str_eq f name | None => false end in
    s ← tty_puts (row 80 (name ++ str " " ++ state_name state
                            ++ (if mark then str " *" else []) ++ [10])) s;
    app_rows fg apps s
  end.

Definition cmd_apps s : option (Z * tty_state) :=
  let fg := app_kit_foreground_name (world s) in
  match app_list (world s) with
  | None => puts_ret (ln "apps failed") (-1) s
  | Some apps =>
    s ← app_rows fg apps s;
    if (length apps =? 0)%nat then puts_ret (ln "no apps") 0 s else Some (0, s)
  end.

Definition focus_app (name : list Z) (attach : bool) s : option (Z * tty_state) :=
  let '(rc, w) := app_kit_switch name (world s) in
  let s := with_world w s in
  if c_true rc then puts_ret (ln "unknown app") (-1) s else
  if attach then
    let s := with_mode TTY_MODE_ATTACH TTY_IN_NORMAL s in
    s ← tty_puts (str "attached ") s;
    s ← tty_puts name s;
    puts_ret [10] 0 s
  else Some (0, s).

Definition cmd_switch argv s : option (Z * tty_state) :=
  match argv with
  | _ :: app :: _ => focus_app app false s
  | _ => puts_ret (ln "usage: switch <app>") (-1) s
  end.

Definition cmd_fg argv s : option (Z * tty_state) :=
  match argv with
  | _ :: app :: _ => focus_app app true s
  | _ => puts_ret (ln "usage: fg <app>") (-1) s
  end.

Definition cmd_run argv s : option (Z * tty_state) :=
  match argv with
  | _ :: name :: _ =>
    match cli_find name s with
    | Some idx => fn ← snd <$> g_cli s !! idx; run_cli fn (tail argv) s
    | None => focus_app name true s
    end
  | _ => puts_ret (ln "usage: run <app>") (-1) s
  end.

Definition cmd_kill argv s : option (Z * tty_state) :=
  match argv with
  | _ :: name :: _ =>
    if negb (app_find name (world s)) then puts_ret (ln "unknown app") (-1) s else
    let fg := app_kit_foreground_name (world s) in
    let was_fg := match fg with Some f => str_eq f name | None => false end in
    let '(rc, w) := app_kit_request_stop name (world s) in
    let s := with_world w s in
    if rc =? 0 then puts_ret (ln "killed") 0 s else
    let s := if app_state name (world s) =? APP_STATE_SUSPENDED
             then with_world (app_resume name (world s)).2 s else s in
    if negb (app_state name (world s) =? APP_STATE_RUNNING)
    then puts_ret (ln "not running") (-1) s else
    let '(rc, w) := app_stop name (world s) in
    let s := with_world w s in
    if c_true rc then puts_ret (ln "not running") (-1) s else
    let s := if was_fg && app_find (str "launcher") (world s)
             then with_world (app_kit_switch (str "launcher") (world s)).2 s else s in
    puts_ret (ln "killed") 0 s
  | _ => puts_ret (ln "usage: kill <app>") (-1) s
  end.

Definition cmd_key argv s : option (Z * tty_state) :=
  match argv with
  | _ :: name :: rest =>
    let key := key_from_name name in
    if key =? SIM_KEY_UNKNOWN then puts_ret (ln "unknown key") (-1) s else
    let pressed := match rest with a :: _ => negb (str_eq a (str "up")) | [] => true end in
    let s := with_world (sim_gpio_handle_key key pressed (world s)) s in
    puts_ret (if pressed then ln "key down" else ln "key up") 0 s
  | _ => puts_ret (ln "usage: key <name>") (-1) s
  end.

Definition cmd_top s : option (Z * tty_state) := s ← tty_task_table s; Some (0, s).

Definition cmd_htop s : option (Z * tty_state) :=
  let s := with_htop false 0 (with_mode TTY_MODE_HTOP (g_esc s) s) in
  s ← tty_task_table s;
  puts_ret (ln "Ctrl+C returns") 0 s.

Definition cmd_version s : option (Z * tty_state) := cli_info s.

Definition date_set (text : list Z) s : option (Z * tty_state) :=
  match strtol size_bits text with
  | None => puts_ret (ln "usage: date set <unix>") (-1) s
  | Some t =>
    let '(rc, w) := os_clock_set t (world s) in
    let s := with_world w s in
    if c_true rc then puts_ret (ln "date failed") (-1) s else
    let '(rc, w) := clock_service_set t (world s) in
    let s := with_world w s in
    let now := fmt_d (to_long (os_clock_now (world s))) in
    puts_ret (row 64 (if c_true rc then str "date " ++ now ++ ln " (not stored)"
                      else str "date " ++ now ++ [10])) 0 s
  end.

Definition cmd_date argv s : option (Z * tty_state) :=
  let show := puts_ret (row 64 (fmt_d (to_long (os_clock_now (world s))) ++ [10])) 0 s in
  match argv with
  | _ :: a :: text :: _ => if str_eq a (str "set") then date_set text s else show
  | _ => show
  end.

Definition cmd_mem s : option (Z * tty_state) :=
  s ← tty_puts (row 64 (str "free " ++ fmt_d (os_get_free_heap (world s)) ++ [10])) s;
  puts_ret (row 64 (str "min " ++ fmt_d (os_get_min_free_heap (world s)) ++ [10])) 0 s.

Definition cmd_uptime s : option (Z * tty_state) :=
  puts_ret (row 48 (fmt_d (time_now_ms (world s)) ++ ln " ms")) 0 s.

(** [while (vfs_readdir (dir, &ent) == 0)] *)
Fixpoint ls_loop (fuel : nat) (dir : D) s : option tty_state :=
  match fuel with
  | O => None
  | S fuel =>
    let '(ent, w) := vfs_readdir dir (world s) in
    let s := with_world w s in
    match ent with
    | None => Some s
    | Some (name, is_dir) =>
      s ← tty_puts (row 80 (name ++ (if is_dir : bool then str "/" else []) ++ [10])) s;
      ls_loop fuel dir s
    end
  end.

Definition cmd_ls s : option (Z * tty_state) :=
  let '(dir, w) := vfs_opendir (str "/flash") (world s) in
  let s := with_world w s in
  match dir with
  | None => puts_ret (ln "cannot open /flash") (-1) s
  | Some dir =>
    s ← ls_loop (S (dir_left dir (world s))) dir s;
    Some (0, with_world (vfs_closedir dir (world s)) s)
  end.

(** [while ((n = vfs_read (file, buf, sizeof (buf) - 1)) > 0)]; [buf] has 64 bytes. *)
Fixpoint cat_loop (fuel : nat) (file : F) (buf : list Z) s : option tty_state :=
  match fuel with
  | O => None
  | S fuel =>
    let '(n, b, w) := vfs_read file 63 (world s) in
    let s := with_world w s in
    if negb (0 <? n) then Some s else
    buf ← wr_bytes buf 0 b;
    buf ← wr buf n 0;
    s ← tty_puts (c_str buf) s;
    cat_loop fuel file buf s
  end.

Definition cmd_cat argv s : option (Z * tty_state) :=
  match argv with
  | _ :: name :: _ =>
    let '(file, w) := vfs_open (row 128 (str "/flash/" ++ name)) (world s) in
    let s := with_world w s in
    match file with
    | None => puts_ret (ln "cannot open") (-1) s
    | Some file =>
      s ← cat_loop (S (file_left file (world s))) file (zeros 64) s;
      s ← tty_puts [10] s;
      Some (0, with_world (vfs_close file (world s)) s)
    end
  | _ => puts_ret (ln "usage: cat <file>") (-1) s
  end.

Definition cmd_clear s : option (Z * tty_state) := puts_ret s_clear 0 s.

(** [puts (rc != 0 ? bad : "ok\n"); return ...;] after a call of a handler *)
Definition handled (r : Z * W) (bad : list Z) s : option (Z * tty_state) :=
  let s := with_world r.2 s in
  if c_true r.1 then puts_ret bad (-1) s else puts_ret (ln "ok") 0 s.

Definition cmd_notify argv s : option (Z * tty_state) :=
  match argv, h ← g_handlers s; lh_notify h with
  | _ :: title :: _, Some notify =>
    handled (notify title None 0 0 (world s)) (ln "notify failed") s
  | _, _ => puts_ret (ln "usage: notify <title>") (-1) s
  end.

Definition cmd_msg argv s : option (Z * tty_state) :=
  match argv, h ← g_handlers s; lh_message h with
  | _ :: app :: text :: _, Some message =>
    handled (message app text (world s)) (ln "unknown app") s
  | _, _ => puts_ret (ln "usage: msg <app> <text>") (-1) s
  end.

Definition cmd_event argv s : option (Z * tty_state) :=
  match argv, h ← g_handlers s; lh_event h with
  | _ :: app :: name :: _, Some event =>
    handled (event app name None 0 (world s)) (ln "unknown app") s
  | _, _ => puts_ret (ln "usage: event <app> <name>") (-1) s
  end.

Definition cmd_exit s : option (Z * tty_state) :=
  s ← tty_puts (ln "bye") s;
  s ← tty_puts [4] s;
  Some (0, with_closed true s).

Definition cmd_restart s : option (Z * tty_state) :=
  s ← tty_puts (ln "restarting") s;
  match g_reboot s with
  | Some reboot => Some (0, with_world (reboot (world s)) s)
  | None => Some (0, s)
  end.

(** The chain of [strcmp] in [exec_line]. *)
Definition run_command argv s : option (Z * tty_state) :=
  match argv with
  | [] => Some (0, s)
  | name :: _ =>
    let cmd t := str_eq name (str t) in
    if cmd "help"%string then cmd_help s else
    if cmd "apps"%string then cmd_apps s else
    if cmd "switch"%string then cmd_switch argv s else
    if cmd "fg"%string then cmd_fg argv s else
    if cmd "run"%string then cmd_run argv s else
    if cmd "kill"%string then cmd_kill argv s else
    if cmd "key"%string then cmd_key argv s else
    if cmd "sensors"%string || cmd "sensor"%string then cli_sensors argv s else
    if cmd "top"%string then cmd_top s else
    if cmd "htop"%string then cmd_htop s else
    if cmd "version"%string then cmd_version s else
    if cmd "date"%string then cmd_date argv s else
    if cmd "mem"%string then cmd_mem s else
    if cmd "uptime"%string then cmd_uptime s else
    if cmd "ls"%string then cmd_ls s else
    if cmd "cat"%string then cmd_cat argv s else
    if cmd "clear"%string then cmd_clear s else
    if cmd "notify"%string then cmd_notify argv s else
    if cmd "msg"%string then cmd_msg argv s else
    if cmd "event"%string then cmd_event argv s else
    if cmd "restart"%string then cmd_restart s else
    if cmd "exit"%string || cmd "close"%string then cmd_exit s else
    puts_ret (ln "unknown command") (-1) s
  end.

Definition exec_line s : option (Z * tty_state) :=
  buf ← rd_bytes (g_line s) 0 TTY_LINE;
  argv ← parse_args buf TTY_ARGS;
  s ← clear_line s;
  run_command argv s.

(** ** Input *)

Definition line_byte (byte : Z) s : option tty_state :=
  if byte =? 3 then
    s ← clear_line s; s ← tty_puts (ln "^C") s; tty_prompt s
  else if (byte =? 13) || (byte =? 10) then
    s ← tty_puts [10] s;
    '(_, s) ← exec_line s;
    if (g_mode s =? TTY_MODE_LINE) && negb (g_closed s) then tty_prompt s else Some s
  else if (byte =? 127) || (byte =? 8) then
    if 0 <? g_len s then
      l ← wr (g_line s) (g_len s - 1) 0;
      tty_puts [8; 32; 8] (with_line l (g_len s - 1) s)
    else Some s
  else if (byte <? 32) || (126 <? byte) then Some s
  else if TTY_LINE <=? g_len s + 1 then Some s
  else
    l ← wr (g_line s) (g_len s) byte;
    l ← wr l (g_len s + 1) 0;
    tty_puts [byte] (with_line l (g_len s + 1) s).

Definition key_from_byte (byte : Z) : Z :=
  if (byte =? 13) || (byte =? 10) then SIM_KEY_ENTER else
  if byte =? 27 then SIM_KEY_ESCAPE else
  if byte =? 32 then SIM_KEY_SPACE else
  if (97 <=? byte) && (byte <=? 122) then SIM_KEY_A + (byte - 97) else
  if (65 <=? byte) && (byte <=? 90) then SIM_KEY_A + (byte - 65) else
  if (48 <=? byte) && (byte <=? 57) then SIM_KEY_0 + (byte - 48) else SIM_KEY_UNKNOWN.

(** [g_esc = byte == '[' ? TTY_IN_CSI : TTY_IN_NORMAL] *)
Definition after_esc (byte : Z) : Z := if byte =? 91 then TTY_IN_CSI else TTY_IN_NORMAL.

Definition attach_byte (byte : Z) s : option tty_state :=
  if (byte =? 3) || (byte =? 26) then leave_mode s else
  if g_esc s =? TTY_IN_ESC then
    let s := with_mode (g_mode s) (after_esc byte) s in
    if g_esc s =? TTY_IN_NORMAL then attach_key SIM_KEY_ESCAPE s else Some s
  else if g_esc s =? TTY_IN_CSI then
    let s := with_mode (g_mode s) TTY_IN_NORMAL s in
    if byte =? 65 then attach_key SIM_KEY_UP s else
    if byte =? 66 then attach_key SIM_KEY_DOWN s else
    if byte =? 67 then attach_key SIM_KEY_RIGHT s else
    if byte =? 68 then attach_key SIM_KEY_LEFT s else Some s
  else if byte =? 27 then Some (with_mode (g_mode s) TTY_IN_ESC s)
  else
    let key := key_from_byte byte in
    if negb (key =? SIM_KEY_UNKNOWN) then attach_key key s else Some s.

Definition input_byte (byte : Z) s : option tty_state :=
  if g_mode s =? TTY_MODE_HTOP then (if byte =? 3 then leave_mode s else Some s) else
  if g_mode s =? TTY_MODE_ATTACH then attach_byte byte s else
  if g_esc s =? TTY_IN_ESC then Some (with_mode (g_mode s) (after_esc byte) s) else
  if g_esc s =? TTY_IN_CSI then Some (with_mode (g_mode s) TTY_IN_NORMAL s) else
  if byte =? 27 then Some (with_mode (g_mode s) TTY_IN_ESC s) else
  line_byte byte s.

Fixpoint input_loop (data : list Z) s : option tty_state :=
  match data with
  | [] => Some s
  | byte :: data => s ← input_byte byte s; input_loop data s
  end.

Definition tty_service_input (data : option (list Z)) (n : Z) s : option tty_state :=
  if negb (bool_decide (is_Some data)) && (0 <? n) then Some s else
  d ← rd_bytes (default [] data) 0 n; input_loop d s.

Definition tty_service_poll (now_ms : Z) s : option tty_state :=
  if negb (g_mode s =? TTY_MODE_HTOP) then Some s else
  if negb (g_htop_armed s) then Some (with_htop true now_ms s) else
  if u32 (now_ms - g_htop_ms s) <? TTY_HTOP_MS then Some s else
  tty_task_table (with_htop (g_htop_armed s) now_ms s).
End Tty.
