(* ===== verification/TtyThm.v ===== *)
(** * The shell on the link: theorems

    The reference behaviour of the line editor and of the argument parser; no byte
    the host sends leads out of the buffers, and pending output is only appended to;
    a command line runs the words of the edited line. *)

From Stdlib Require Import ZArith Lia String.
From stdpp Require Import base tactics option numbers list.
From S2P Require Import Prelude.
From S2P Require Import CString.
From S2P Require Import LinkDispatch.
From S2P Require Import TtyService.

(** ** Words *)

(** The maximal runs of bytes that are not blanks. *)
Fixpoint split_space (l : list Z) : list (list Z) :=
  match l with
  | [] => [[]]
  | c :: l =>
    if isspace c then [] :: split_space l else
    match split_space l with w :: ws => (c :: w) :: ws | [] => [[c]] end
  end.
Definition words (l : list Z) : list (list Z) := filter (λ w, w ≠ []) (split_space l).

Definition solid (w : list Z) : Prop := Forall (λ c, isspace c = false) w.

Lemma words_blank c l : isspace c = true → words (c :: l) = words l.
Proof. intros Hc. unfold words. cbn [split_space]. by rewrite Hc. Qed.

Lemma words_blanks sp l : Forall (λ c, isspace c = true) sp → words (sp ++ l) = words l.
Proof. induction 1 as [|c sp Hc _ IH]; [done|]. cbn [app]. by rewrite words_blank. Qed.

Lemma split_space_solid w l :
  solid w → split_space (w ++ l) =
    match split_space l with v :: vs => (w ++ v) :: vs | [] => [w] end.
Proof.
  assert (split_space l ≠ []) as Hl.
  { destruct l as [|c l]; [done|]. cbn [split_space]. destruct (isspace c); [done|].
    by destruct (split_space l). }
  induction 1 as [|c w Hc _ IH]; [cbn [app]; by destruct (split_space l)|].
  cbn [app split_space]. rewrite Hc, IH. by destruct (split_space l).
Qed.

Lemma words_solid w : solid w → w ≠ [] → words w = [w].
Proof.
  intros Hw Hn. unfold words. rewrite <- (app_nil_r w) at 1. rewrite split_space_solid by done.
  cbn [split_space]. rewrite app_nil_r. rewrite filter_cons_True by done; done.
Qed.

Lemma words_next w c l :
  solid w → w ≠ [] → isspace c = true → words (w ++ c :: l) = w :: words l.
Proof.
  intros Hw Hn Hc. unfold words. rewrite split_space_solid by done. cbn [split_space].
  rewrite Hc, app_nil_r. rewrite filter_cons_True by done; done.
Qed.

Lemma leading_split f l :
  ∃ r, l = leading f l ++ r ∧ Forall (λ c, f c = true) (leading f l) ∧
    match r with [] => True | c :: _ => f c = false end.
Proof.
  induction l as [|c l (r & E & Hf & Hr)]; [by exists []|]. cbn [leading].
  destruct (f c) eqn:Ec; [|by exists (c :: l)].
  exists r. split; [cbn [app]; by f_equal|]. split; [by constructor|done].
Qed.

(** ** The argument parser *)

Lemma scan_spec f fuel pre l z :
  is_cstr l → (length l < fuel)%nat →
  scan f fuel (pre ++ l ++ 0 :: z) (blen pre) = Some (blen pre + blen (leading f l)).
Proof.
  intros Hl. revert pre fuel. induction Hl as [|c l Hc _ IH]; intros pre fuel Hf;
    (destruct fuel as [|fuel]; [simpl in Hf; lia|]); cbn [scan app leading].
  - rewrite rd_app_l. cbn [mbind option_bind]. change (c_true 0) with false. cbn [andb].
    by rewrite blen_nil, Z.add_0_r.
  - rewrite rd_app_l. cbn [mbind option_bind]. unfold c_true. rewrite (proj2 (Z.eqb_neq c 0)) by done.
    cbn [negb andb]. destruct (f c); [|by rewrite blen_nil, Z.add_0_r].
    pose proof (IH (pre ++ [c]) fuel) as E. rewrite <- app_assoc in E. cbn [app] in E.
    replace (blen pre + 1) with (blen (pre ++ [c])) by (rewrite blen_app; done).
    rewrite E by (simpl in Hf; lia). rewrite blen_app, !blen_cons, blen_nil.
    f_equal. lia.
Qed.


Lemma parse_loop_nul n pre z :
  parse_loop n (pre ++ 0 :: z) (blen pre) = Some ([], pre ++ 0 :: z).
Proof. destruct n as [|n]; [done|]. cbn [parse_loop]. by rewrite rd_app_l. Qed.

Definition arg_at (buf : list Z) (p : Z) : list Z := c_str (drop (Z.to_nat p) buf).

Lemma arg_at_word pre w z : is_cstr w → arg_at (pre ++ w ++ 0 :: z) (blen pre) = w.
Proof.
  intros Hw. unfold arg_at, blen. rewrite Nat2Z.id, drop_app_length, c_str_app by done.
  cbn. apply app_nil_r.
Qed.

Lemma c_true_ne c : c ≠ 0 → c_true c = true.
Proof. intros. unfold c_true. by rewrite (proj2 (Z.eqb_neq c 0)). Qed.

Lemma parse_loop_spec n pre l z :
  is_cstr l →
  ∃ ps z', parse_loop n (pre ++ l ++ 0 :: z) (blen pre) = Some (ps, pre ++ z') ∧
    arg_at (pre ++ z') <$> (ps : list Z) = take n (words l).
Proof.
  revert pre l z. induction n as [|n IH]; intros pre l z Hl.
  { by exists [], (l ++ 0 :: z). }
  destruct (leading_split isspace l) as (r & E & Hsp & Hr).
  set (sp := leading isspace l) in *.
  assert (words l = words r) as Hw by (rewrite E; by apply words_blanks).
  destruct l as [|c l0] eqn:El.
  { exists [], (0 :: z). split; [apply (parse_loop_nul (S n))|done]. }
  cbn [parse_loop]. rewrite (rd_app_l pre c (l0 ++ 0 :: z) : rd (pre ++ (c :: l0) ++ 0 :: z) _ = _). cbn [mbind option_bind]. rewrite c_true_ne by (by inversion Hl). cbn [negb].
  rewrite scan_spec; [|done|rewrite !length_app; cbn; lia].
  cbn [mbind option_bind]. fold sp. rewrite <- blen_app.
  assert (pre ++ (c :: l0) ++ 0 :: z = (pre ++ sp) ++ r ++ 0 :: z) as ->
    by (rewrite E, <- !app_assoc; done).
  rewrite E in Hl. apply is_cstr_app in Hl as [Hlsp Hlr].
  destruct r as [|c2 r2].
  { cbn [app]. rewrite rd_app_l. cbn [mbind option_bind]. exists [], (sp ++ 0 :: z).
    rewrite Hw, <- app_assoc. done. }
  rewrite (rd_app_l (pre ++ sp) c2 (r2 ++ 0 :: z) : rd (_ ++ (c2 :: r2) ++ 0 :: z) _ = _).
  cbn [mbind option_bind]. rewrite c_true_ne by (by inversion Hlr). cbn [negb].
  destruct (leading_split (λ c, negb (isspace c)) (c2 :: r2)) as (r3 & E3 & Hw3 & Hr3).
  rewrite (scan_spec _ _ (pre ++ sp) (c2 :: r2)); [|done|rewrite !length_app; cbn; lia].
  cbn [mbind option_bind]. set (w := leading (λ c, negb (isspace c)) (c2 :: r2)) in *.
  rewrite <- blen_app.
  assert (w ≠ []) as Hne by (subst w; cbn; by rewrite Hr).
  assert (solid w) as Hsol.
  { eapply Forall_impl; [exact Hw3|]. intros ? H3. by apply negb_true_iff in H3. }
  assert ((pre ++ sp) ++ (c2 :: r2) ++ 0 :: z = ((pre ++ sp) ++ w) ++ r3 ++ 0 :: z) as ->
    by (rewrite E3, <- !app_assoc; done).
  rewrite E3 in Hlr. apply is_cstr_app in Hlr as [Hlw Hl3]. rewrite Hw, E3.
  destruct r3 as [|d r4].
  - cbn [app]. rewrite rd_app_l. cbn [mbind option_bind]. change (c_true 0) with false.
    cbn [mbind option_bind]. rewrite parse_loop_nul. cbn [mbind option_bind].
    exists [blen (pre ++ sp)], (sp ++ w ++ 0 :: z). rewrite <- !app_assoc. split; [done|].
    cbn [fmap list_fmap]. rewrite app_assoc, arg_at_word by done.
    rewrite app_nil_r, words_solid by done. by destruct n.
  - apply negb_false_iff in Hr3. cbn [app]. rewrite rd_app_l. cbn [mbind option_bind].
    rewrite c_true_ne by (by inversion Hl3). rewrite wr_app_l. cbn [mbind option_bind].
    destruct (IH ((((pre ++ sp) ++ w)) ++ [0]) r4 z) as (ps & z' & Ep & Ea); [by inversion Hl3|].
    rewrite <- (app_assoc _ [0]) in Ep. cbn [app] in Ep. rewrite blen_app in Ep.
    change (blen [0]) with 1 in Ep. rewrite Ep. cbn [mbind option_bind].
    exists (blen (pre ++ sp) :: ps), (sp ++ w ++ 0 :: z'). rewrite <- !app_assoc in *. cbn [app] in *.
    split; [done|]. rewrite fmap_cons. rewrite words_next by done. cbn [take]. f_equal; [|done].
    rewrite app_assoc. by apply arg_at_word.
Qed.

(** [parse_args] computes the first words. *)
Lemma parse_args_words l z n :
  is_cstr l → parse_args (l ++ 0 :: z) n = Some (take n (words l)).
Proof.
  intros Hl. unfold parse_args. destruct (parse_loop_spec n [] l z Hl) as (ps & z' & E & Ea).
  cbn [app] in E. change (blen []) with 0 in E. rewrite E. cbn [mbind option_bind].
  by f_equal.
Qed.

(** ** The buffers *)

(** Room for a text and its terminator. *)
Lemma split_room {A} (b t : list A) :
  blen t < blen b → ∃ m x r, b = m ++ x :: r ∧ length m = length t.
Proof.
  unfold blen. intros Hl. destruct (lookup_lt_is_Some_2 b (length t)) as [x Hx]; [lia|].
  exists (take (length t) b), x, (drop (S (length t)) b). split.
  - by rewrite take_drop_middle.
  - rewrite length_take. lia.
Qed.

Section TtyFacts.
Context {W D F C : Type} `{Arch} `{Shell W D F}.
Abbreviation tty := (@tty_state W C).
Context `{CC : !CliCode (W := W) (C := C)}.
Implicit Types (s : tty).

Definition typed s : list Z := take (Z.to_nat (g_len s)) (g_line s).
Definition pending s : list Z := take (Z.to_nat (g_out_len s)) (g_out s).

Definition line_wf s : Prop :=
  0 <= g_len s < TTY_LINE ∧ is_cstr (typed s) ∧
  ∃ z, g_line s = typed s ++ 0 :: z ∧ blen (g_line s) = TTY_LINE.
Definition out_wf s : Prop := blen (g_out s) = TTY_OUT ∧ 0 <= g_out_len s < TTY_OUT.
Definition tty_wf s : Prop := line_wf s ∧ out_wf s.

(** The buffer takes 2047 bytes; the rest is lost. *)
Definition cut (t : list Z) : list Z := take 2047 t.

(** [s'] is [s] with more output. *)
Definition grows s s' : Prop :=
  tty_wf s' ∧ ∃ t, pending s' = cut (pending s ++ t).

Lemma cut_cut t u : cut (cut t ++ u) = cut (t ++ u).
Proof.
  unfold cut. rewrite !take_app, take_take, length_take. rewrite Nat.min_id. f_equal.
  destruct (decide (2047 <= length t)%nat).
  - replace (2047 - 2047 `min` length t)%nat with 0%nat by lia.
    by replace (2047 - length t)%nat with 0%nat by lia.
  - do 2 f_equal. lia.
Qed.

Lemma tty_pending_length s : out_wf s → blen (pending s) = g_out_len s.
Proof. intros [Hl Hn]. unfold pending, blen, TTY_OUT in *. rewrite length_take. lia. Qed.

Lemma pending_cut s : out_wf s → cut (pending s) = pending s.
Proof.
  intros Hs. pose proof (tty_pending_length s Hs) as Hl. destruct Hs as [_ Hn].
  apply take_ge. unfold blen, TTY_OUT in *. lia.
Qed.

Lemma typed_length s : line_wf s → blen (typed s) = g_len s.
Proof.
  intros (Hn & _ & z & _ & Hl). unfold typed, blen, TTY_LINE in *. rewrite length_take. lia.
Qed.

Lemma grows_refl s : tty_wf s → grows s s.
Proof.
  intros Hs. split; [done|]. exists []. rewrite app_nil_r. symmetry. by apply pending_cut, Hs.
Qed.

Lemma grows_trans s1 s2 s3 : grows s1 s2 → grows s2 s3 → grows s1 s3.
Proof.
  intros [_ [t Et]] [Hs [u Eu]]. split; [done|]. exists (t ++ u).
  by rewrite Eu, Et, cut_cut, app_assoc.
Qed.

(** Texts the code prints are short. *)
Definition short (t : list Z) : Prop := blen t < 2 ^ 31.

Lemma tty_puts_ok t s :
  out_wf s → short t →
  ∃ b n, tty_puts t s = Some (with_out b n s) ∧ out_wf (with_out b n s) ∧
         pending (with_out b n s) = cut (pending s ++ t).
Proof.
  intros Hs Ht. pose proof (tty_pending_length s Hs) as Hp. pose proof Hs as [Hb Hn].
  pose proof (blen_nonneg t). unfold short, TTY_OUT in *. unfold tty_puts.
  rewrite usz_id by lia.
  set (n := if TTY_OUT <=? g_out_len s + blen t then usz (TTY_OUT - 1 - g_out_len s) else blen t).
  assert (n = Z.min (blen t) (2047 - g_out_len s)) as Hnn.
  { unfold n, TTY_OUT. destruct (2048 <=? _) eqn:E; bool_hyps; [rewrite usz_id by lia|]; lia. }
  assert (cut (pending s ++ t) = pending s ++ take (Z.to_nat n) t) as Hc.
  { unfold cut. rewrite take_app, take_ge by (unfold blen in Hp; lia). f_equal.
    destruct (decide (n = blen t)) as [->|].
    - rewrite !take_ge; [done|unfold blen; lia|unfold blen in *; lia].
    - f_equal. unfold blen in *. lia. }
  destruct (n =? 0) eqn:E0; bool_hyps.
  { exists (g_out s), (g_out_len s). replace (with_out _ _ s) with s by by destruct s.
    split; [done|]. split; [done|]. rewrite Hc, E0. cbn. by rewrite app_nil_r. }
  rewrite (rd_bytes_ok t 0 n) by lia. cbn [mbind option_bind]. rewrite drop_0.
  set (t' := take (Z.to_nat n) t) in *.
  assert (blen t' = n) as Ht' by (unfold t', blen in *; rewrite length_take; lia).
  destruct (split_room (drop (Z.to_nat (g_out_len s)) (g_out s)) t') as (m & x & r & Er & Hm).
  { rewrite blen_drop by lia. lia. }
  assert (g_out s = pending s ++ m ++ x :: r) as Eo by (unfold pending; by rewrite <- Er, take_drop).
  rewrite Eo, <- Hp, wr_bytes_app by done. cbn [mbind option_bind].
  assert (blen (pending s) + n = blen (pending s ++ t')) as Hpt by by rewrite blen_app, Ht'.
  rewrite Hpt, app_assoc, wr_app_l. cbn [mbind option_bind].
  rewrite usz_id by (rewrite <- Hpt; lia). eexists _, _. split; [done|].
  split.
  - split; [|unfold TTY_OUT; cbn [with_out g_out_len]; rewrite <- Hpt; lia]. cbn [with_out g_out].
    rewrite Eo in Hb. unfold blen, TTY_OUT in *. rewrite !length_app in *. cbn in *. lia.
  - unfold pending at 1. cbn [with_out g_out g_out_len]. rewrite Hc.
    unfold blen. by rewrite Nat2Z.id, take_app_length.
Qed.

(** ** Code that only adds output *)

Definition ok {A} (st : A → tty) s (m : option A) : Prop := ∃ a, m = Some a ∧ grows s (st a).

Lemma ok_ret {A} (st : A → tty) s a : grows s (st a) → ok st s (Some a).
Proof. by exists a. Qed.

Lemma ok_bind {A B} (st : A → tty) (st' : B → tty) s m (k : A → option B) :
  ok st s m → (∀ a, grows s (st a) → ok st' s (k a)) → ok st' s (m ≫= k).
Proof. intros (a & -> & Ha) Hk. by apply Hk. Qed.

Lemma grows_puts s s1 t :
  grows s s1 → short t →
  ∃ b n, tty_puts t s1 = Some (with_out b n s1) ∧ grows s (with_out b n s1).
Proof.
  intros Hg Ht. pose proof Hg as [[Hl Ho] _].
  destruct (tty_puts_ok t s1 Ho Ht) as (b & n & E & Ho' & Hp).
  exists b, n. split; [exact E|]. eapply grows_trans; [exact Hg|]. split; [by split|by exists t].
Qed.

Lemma ok_puts s s1 t : grows s s1 → short t → ok id s (tty_puts t s1).
Proof. intros Hg Ht. destruct (grows_puts s s1 t Hg Ht) as (b & n & E & ?). by eexists. Qed.

Lemma ok_puts_ret s s1 t rc : grows s s1 → short t → ok snd s (puts_ret t rc s1).
Proof. intros. eapply ok_bind; [by apply ok_puts|]. intros a Ha. by apply ok_ret. Qed.

Lemma grows_same s s1 s2 :
  grows s s1 → g_line s2 = g_line s1 → g_len s2 = g_len s1 → g_out s2 = g_out s1 →
  g_out_len s2 = g_out_len s1 → grows s s2.
Proof.
  unfold grows, tty_wf, line_wf, out_wf, typed, pending. by intros Hg -> -> -> ->.
Qed.

Lemma grows_if (b : bool) s s1 s2 : grows s s1 → grows s s2 → grows s (if b then s1 else s2).
Proof. by destruct b. Qed.

Lemma grows_world w s s1 : grows s s1 → grows s (with_world w s1).
Proof. intros. by apply (grows_same s s1). Qed.

Lemma grows_wf s s1 : grows s s1 → tty_wf s1.
Proof. by intros []. Qed.

Lemma clear_line_ok s s1 : grows s s1 → ok id s (clear_line s1).
Proof.
  intros [[Hl Ho] Hp]. pose proof Hl as (Hn & Hc & z & E & Hb). unfold clear_line.
  destruct (g_line s1) as [|x l] eqn:El; [by apply app_cons_not_nil in E|]. eexists. split; [done|].
  split; [split; [|done]|done]. split; [done|]. split; [constructor|].
  exists l. split; [done|]. change (blen (0 :: l) = TTY_LINE). by rewrite <- Hb, !blen_cons.
Qed.

Lemma short_row n t : 0 < n < 2 ^ 31 → short (row n t).
Proof. intros. pose proof (row_length n t). unfold short. lia. Qed.

End TtyFacts.

Ltac grow :=
  match goal with
  | H : grows ?s ?s1 |- grows ?s ?s2 => first [exact H | by apply (grows_same _ s1)]
  | |- grows ?s ?s => by apply grows_refl
  | |- grows _ (if _ then _ else _) => apply grows_if; grow
  | |- grows _ (with_world _ _) => apply grows_world; grow
  end.
Ltac shorten :=
  first [ done | apply short_row; lia | by vm_compute ].

(** Walk through code that prints. *)
Ltac tty_step :=
  match goal with
  | |- ok _ _ (tty_puts _ _) => apply ok_puts; [grow|try shorten]
  | |- ok _ _ (puts_ret _ _ _) => apply ok_puts_ret; [grow|try shorten]
  | |- ok _ _ (tty_prompt _) => apply ok_puts; [grow|shorten]
  | |- ok _ _ (clear_line _) => apply clear_line_ok; grow
  | |- ok _ _ (Some _) => apply ok_ret; cbn [fst snd id]; grow
  | |- ok _ _ (mbind _ (tty_puts _ _)) => eapply ok_bind
  | |- ok _ _ (mbind _ (clear_line _)) => eapply ok_bind
  | |- ∀ _, grows _ _ → ok _ _ _ => let a := fresh "a" in let Ha := fresh "Ha" in
      intros a Ha; cbn [fst snd id] in *
  | |- ok _ _ (if ?b then _ else _) => destruct b
  | |- ok _ _ (match ?x with _ => _ end) => destruct x
  end; cbv zeta.
Ltac tty_walk := repeat (tty_step; try done).

Section TtyCommands.
Context {W D F C : Type} `{Arch} `{Shell W D F}.
Abbreviation tty := (@tty_state W C).
Context `{CC : !CliCode (W := W) (C := C)}.
Implicit Types (s : tty).

Lemma task_rows_ok slots s s1 : grows s s1 → ok id s (task_rows slots s1).
Proof.
  revert s1. induction slots as [|[[name state] prio] slots IH]; intros s1 Hg; cbn [task_rows].
  - by apply ok_ret.
  - destruct (str_eq name []); [by apply IH|]. tty_walk. by apply IH.
Qed.

Lemma tty_task_table_ok s s1 : grows s s1 → ok id s (tty_task_table s1).
Proof. intros Hg. unfold tty_task_table. tty_walk. by apply task_rows_ok. Qed.

Lemma sensor_loop_ok n i only s s1 : grows s s1 → ok snd s (sensor_loop n i only s1).
Proof.
  revert i s1. induction n as [|n IH]; intros i s1 Hg; cbn [sensor_loop]; [by apply ok_ret|].
  destruct (sensor_service_key i (world s1)) as [key|]; [|by apply IH].
  destruct (match only with Some _ => _ | None => _ end); [by apply IH|].
  destruct (sensor_get key (world s1)) as [[rc v] w]. tty_walk. by apply IH.
Qed.

Lemma list_sensors_ok only s s1 : grows s s1 → ok snd s (list_sensors only s1).
Proof.
  intros Hg. unfold list_sensors. cbv zeta. destruct (_ <=? 0); [by tty_walk|].
  eapply ok_bind; [by apply sensor_loop_ok|]. intros [d a] Ha. tty_walk.
Qed.

Lemma cli_sensors_ok argv s s1 : grows s s1 → ok snd s (cli_sensors argv s1).
Proof. intros Hg. unfold cli_sensors. tty_walk; by apply list_sensors_ok. Qed.

Lemma cli_info_ok s s1 : grows s s1 → ok snd s (cli_info s1).
Proof. intros Hg. unfold cli_info. tty_walk. Qed.

(** Commands of applications only print, too. *)
Definition cli_obeys : Prop := ∀ (c : C) argv s s1, grows s s1 → ok snd s (cli_user c argv s1).
Hypothesis obeys : cli_obeys.

Lemma run_cli_ok fn argv s s1 : grows s s1 → ok snd s (run_cli fn argv s1).
Proof.
  intros Hg. destruct fn; cbn [run_cli];
    [by apply cli_sensors_ok|by apply cli_info_ok| |by apply obeys].
  unfold cli_clock. tty_walk.
Qed.

Lemma app_rows_ok fg apps s s1 : grows s s1 → ok id s (app_rows fg apps s1).
Proof.
  revert s1. induction apps as [|[name state] apps IH]; intros s1 Hg; cbn [app_rows].
  - by apply ok_ret.
  - cbv zeta. eapply ok_bind; [apply ok_puts; [grow|shorten]|]. intros a Ha. by apply IH.
Qed.

Lemma cmd_apps_ok s s1 : grows s s1 → ok snd s (cmd_apps s1).
Proof.
  intros Hg. unfold cmd_apps. cbv zeta. destruct (app_list (world s1)); [|by tty_walk].
  eapply ok_bind; [by apply app_rows_ok|]. tty_walk.
Qed.

Lemma focus_app_ok name attach s s1 : grows s s1 → short name → ok snd s (focus_app name attach s1).
Proof. intros Hg Hn. unfold focus_app. tty_walk. Qed.

Lemma ls_loop_ok fuel dir s s1 :
  (dir_left dir (world s1) < fuel)%nat → grows s s1 → ok id s (ls_loop fuel dir s1).
Proof.
  revert s1. induction fuel as [|fuel IH]; intros s1 Hf Hg; [lia|]. cbn [ls_loop].
  destruct (vfs_readdir dir (world s1)) as [[[name d]|] w] eqn:E; [|by tty_walk].
  apply readdir_ends in E.
  destruct (grows_puts s (with_world w s1) (row 80 (name ++ (if d then str "/" else []) ++ [10])))
    as (b & n & Ep & Hg'); [grow|shorten|].
  cbv zeta. rewrite Ep. cbn [mbind option_bind]. apply IH; [cbn; lia|done].
Qed.

Lemma cmd_ls_ok s s1 : grows s s1 → ok snd s (cmd_ls s1).
Proof.
  intros Hg. unfold cmd_ls. destruct (vfs_opendir _ _) as [[dir|] w]; cbv zeta; [|by tty_walk].
  eapply ok_bind; [apply ls_loop_ok; [cbn; lia|grow]|]. tty_walk.
Qed.

Lemma cat_loop_ok fuel file buf s s1 :
  (file_left file (world s1) < fuel)%nat → blen buf = 64 → grows s s1 →
  ok id s (cat_loop fuel file buf s1).
Proof.
  revert buf s1. induction fuel as [|fuel IH]; intros buf s1 Hf Hb Hg; [lia|]. cbn [cat_loop].
  destruct (vfs_read file 63 (world s1)) as [[n b] w] eqn:E. cbv zeta.
  destruct (0 <? n) eqn:En; cbn [negb]; [bool_hyps|by tty_walk].
  destruct (read_bounded _ _ _ _ _ _ E En) as [Hbn Hn]. apply read_ends in E; [|done].
  destruct (wr_bytes buf 0 b) as [b1|] eqn:E1; [|by rewrite wr_bytes_ok in E1 by lia].
  apply wr_bytes_length in E1. cbn [mbind option_bind].
  rewrite wr_ok by (unfold blen in *; lia). cbn [mbind option_bind].
  set (b2 := <[Z.to_nat n:=0]> b1).
  assert (blen b2 = 64) as Hb2 by (unfold blen, b2 in *; rewrite length_insert; lia).
  destruct (grows_puts s (with_world w s1) (c_str b2)) as (o & k & Ep & Hg');
    [grow|pose proof (c_str_length b2); unfold short; lia|].
  rewrite Ep. cbn [mbind option_bind]. apply IH; [cbn; lia|done|done].
Qed.

Lemma cmd_cat_ok argv s s1 : grows s s1 → ok snd s (cmd_cat argv s1).
Proof.
  intros Hg. unfold cmd_cat. destruct argv as [|? [|name ?]]; [by tty_walk..|].
  destruct (vfs_open _ _) as [[file|] w]; cbv zeta; [|by tty_walk].
  eapply ok_bind; [apply cat_loop_ok; [cbn; lia|done|grow]|]. tty_walk.
Qed.

Lemma find_cli_lookup name (l : list (list Z * @tty_cli_fn C)) i :
  find_cli name l = Some i → is_Some (l !! i).
Proof.
  revert i. induction l as [|[n f] cs IH]; [done|]. intros i. cbn [find_cli].
  destruct (str_eq n name); [by intros [= <-]|]. intros (j & ? & ->)%fmap_Some_1. by apply IH.
Qed.

Lemma cmd_run_ok argv s s1 : Forall short argv → grows s s1 → ok snd s (cmd_run argv s1).
Proof.
  intros Hs Hg. unfold cmd_run. destruct argv as [|? [|name ?]]; [by tty_walk..|].
  destruct (cli_find name s1) as [i|] eqn:E.
  - destruct (find_cli_lookup _ _ _ E) as [[n fn] ->]. by apply run_cli_ok.
  - apply focus_app_ok; [done|]. by do 2 apply Forall_cons_1 in Hs as [? Hs].
Qed.

Lemma cmd_kill_ok argv s s1 : grows s s1 → ok snd s (cmd_kill argv s1).
Proof.
  intros Hg. unfold cmd_kill. cbv zeta. tty_walk.
Qed.

Lemma cmd_key_ok argv s s1 : grows s s1 → ok snd s (cmd_key argv s1).
Proof.
  intros Hg. unfold cmd_key. destruct argv as [|a0 [|name rest]]; [by tty_walk..|].
  generalize (match rest with a :: _ => negb (str_eq a (str "up")) | [] => true end) as pressed.
  intros pressed. cbv zeta. destruct (_ =? _); [by tty_walk|]. destruct pressed; by tty_walk.
Qed.

Lemma cmd_date_ok argv s s1 : grows s s1 → ok snd s (cmd_date argv s1).
Proof.
  intros Hg. unfold cmd_date, date_set. cbv zeta. tty_walk.
Qed.

Lemma handled_ok r bad s s1 : grows s s1 → short bad → ok snd s (handled r bad s1).
Proof. intros Hg Hb. unfold handled. cbv zeta. by tty_walk. Qed.

Lemma cmd_notify_ok argv s s1 : grows s s1 → ok snd s (cmd_notify argv s1).
Proof.
  intros Hg. unfold cmd_notify. destruct (g_handlers s1 ≫= _) as [f|];
    destruct argv as [|a0 [|a1 rest]]; first [by apply handled_ok|by apply ok_puts_ret].
Qed.

Lemma cmd_msg_ok argv s s1 : grows s s1 → ok snd s (cmd_msg argv s1).
Proof.
  intros Hg. unfold cmd_msg. destruct (g_handlers s1 ≫= _) as [f|];
    destruct argv as [|a0 [|a1 [|a2 rest]]]; first [by apply handled_ok|by apply ok_puts_ret].
Qed.

Lemma cmd_event_ok argv s s1 : grows s s1 → ok snd s (cmd_event argv s1).
Proof.
  intros Hg. unfold cmd_event. destruct (g_handlers s1 ≫= _) as [f|];
    destruct argv as [|a0 [|a1 [|a2 rest]]]; first [by apply handled_ok|by apply ok_puts_ret].
Qed.

Lemma run_command_ok argv s s1 :
  Forall short argv → grows s s1 → ok snd s (run_command argv s1).
Proof.
  intros Hs Hg. unfold run_command. destruct argv as [|name rest]; [by apply ok_ret|]. cbv zeta.
  set (argv := name :: rest) in *.
  destruct (str_eq name (str "help")); [unfold cmd_help; by tty_walk|].
  destruct (str_eq name (str "apps")); [by apply cmd_apps_ok|].
  destruct (str_eq name (str "switch")).
  { unfold cmd_switch, argv in *. destruct rest as [|app rest]; [by tty_walk|].
    apply focus_app_ok; [done|]. by do 2 apply Forall_cons_1 in Hs as [? Hs]. }
  destruct (str_eq name (str "fg")).
  { unfold cmd_fg, argv in *. destruct rest as [|app rest]; [by tty_walk|].
    apply focus_app_ok; [done|]. by do 2 apply Forall_cons_1 in Hs as [? Hs]. }
  destruct (str_eq name (str "run")); [by apply cmd_run_ok|].
  destruct (str_eq name (str "kill")); [by apply cmd_kill_ok|].
  destruct (str_eq name (str "key")); [by apply cmd_key_ok|].
  destruct (_ || _); [by apply cli_sensors_ok|].
  destruct (str_eq name (str "top")).
  { unfold cmd_top. eapply ok_bind; [by apply tty_task_table_ok|]. tty_walk. }
  destruct (str_eq name (str "htop")).
  { unfold cmd_htop. cbv zeta. eapply ok_bind; [apply tty_task_table_ok; grow|]. tty_walk. }
  destruct (str_eq name (str "version")); [by apply cli_info_ok|].
  destruct (str_eq name (str "date")); [by apply cmd_date_ok|].
  destruct (str_eq name (str "mem")); [unfold cmd_mem; by tty_walk|].
  destruct (str_eq name (str "uptime")); [unfold cmd_uptime; by tty_walk|].
  destruct (str_eq name (str "ls")); [by apply cmd_ls_ok|].
  destruct (str_eq name (str "cat")); [by apply cmd_cat_ok|].
  destruct (str_eq name (str "clear")); [unfold cmd_clear; by tty_walk|].
  destruct (str_eq name (str "notify")); [by apply cmd_notify_ok|].
  destruct (str_eq name (str "msg")); [by apply cmd_msg_ok|].
  destruct (str_eq name (str "event")); [by apply cmd_event_ok|].
  destruct (str_eq name (str "restart")); [unfold cmd_restart; by tty_walk|].
  destruct (_ || _); [unfold cmd_exit; by tty_walk|]. by tty_walk.
Qed.

(** ** The line *)

Lemma exec_line_eq s :
  line_wf s → exec_line s = s' ← clear_line s; run_command (take TTY_ARGS (words (typed s))) s'.
Proof.
  intros (_ & Hc & z & E & Hb). unfold exec_line. rewrite rd_bytes_all by done.
  cbn [mbind option_bind]. by rewrite E, parse_args_words.
Qed.

Lemma line_put s byte :
  line_wf s → g_len s + 1 < TTY_LINE → byte ≠ 0 →
  ∃ l, (l ← wr (g_line s) (g_len s) byte; wr l (g_len s + 1) 0) = Some l ∧
       line_wf (with_line l (g_len s + 1) s) ∧
       typed (with_line l (g_len s + 1) s) = typed s ++ [byte].
Proof.
  intros Hs Hn Hb. pose proof (typed_length s Hs) as Ht. pose proof Hs as (Hg & Hc & z & E & Hl).
  destruct z as [|x z].
  { rewrite E, blen_app in Hl. change (blen [0]) with 1 in Hl. lia. }
  rewrite E, <- Ht, wr_app_l. cbn [mbind option_bind].
  pose proof (wr_app_l (typed s ++ [byte]) x 0 z) as Ew. rewrite <- app_assoc, blen_app in Ew.
  change (blen [byte]) with 1 in Ew. cbn [app] in Ew. rewrite Ew. eexists. split; [done|].
  set (s' := with_line _ _ s).
  assert (typed s' = typed s ++ [byte]) as Et.
  { unfold typed at 1, s'. cbn [with_line g_len g_line].
    replace (Z.to_nat _) with (length (typed s ++ [byte])) by (rewrite length_app; unfold blen; simpl; lia).
    apply take_app_length. }
  split; [|exact Et]. split; [unfold s'; cbn [with_line g_len]; lia|]. split.
  - rewrite Et. apply is_cstr_app. split; [done|]. by constructor.
  - exists z. split; [by rewrite Et|]. rewrite E in Hl. unfold s'. cbn [with_line g_line].
    unfold blen in *. rewrite !length_app in *. cbn in *. lia.
Qed.

Lemma line_back s :
  line_wf s → 0 < g_len s →
  ∃ l, wr (g_line s) (g_len s - 1) 0 = Some l ∧ line_wf (with_line l (g_len s - 1) s) ∧
       typed (with_line l (g_len s - 1) s) = removelast (typed s).
Proof.
  intros Hs Hn. pose proof (typed_length s Hs) as Ht. pose proof Hs as (Hg & Hc & z & E & Hl).
  destruct (exists_last (l := typed s)) as (t & x & Ex).
  { intros Ex. rewrite Ex in Ht. change (blen []) with 0 in Ht. lia. }
  rewrite Ex in *. rewrite removelast_last. rewrite blen_app in Ht. change (blen [x]) with 1 in Ht.
  rewrite E, <- app_assoc. cbn [app]. replace (g_len s - 1) with (blen t) by lia.
  rewrite wr_app_l. eexists. split; [done|]. set (s' := with_line _ _ s).
  assert (typed s' = t) as Et.
  { unfold typed, s'. cbn [with_line g_len g_line]. unfold blen. rewrite Nat2Z.id. apply take_app_length. }
  split; [|exact Et]. split; [unfold s'; cbn [with_line g_len]; lia|]. split.
  - rewrite Et. by apply is_cstr_app in Hc as [? _].
  - exists (0 :: z). split; [by rewrite Et|]. rewrite <- Hl, E. unfold s'. cbn [with_line g_line].
    unfold blen. rewrite <- app_assoc, !length_app. done.
Qed.

Lemma split_space_short l : Forall (λ w, (length w <= length l)%nat) (split_space l).
Proof.
  induction l as [|c l IH]; [by repeat constructor|]. cbn [split_space].
  assert (Forall (λ w, (length w <= length (c :: l))%nat) (split_space l)) as IH'.
  { eapply Forall_impl; [exact IH|]. cbn. lia. }
  destruct (isspace c); [constructor; [cbn; lia|done]|].
  destruct (split_space l) as [|w ws]; [constructor; [cbn; lia|done]|].
  inversion IH; subst. inversion IH'; subst. constructor; [cbn; lia|done].
Qed.

Lemma words_short l n : short l → Forall short (take n (words l)).
Proof.
  intros Hl. apply Forall_take. unfold words. apply Forall_forall. intros w [_ Hw]%list_elem_of_filter.
  pose proof (split_space_short l) as Hs. rewrite Forall_forall in Hs. apply Hs in Hw.
  unfold short, blen in *. lia.
Qed.

Lemma typed_short s : line_wf s → short (typed s).
Proof. intros Hs. pose proof (typed_length s Hs). destruct Hs as [? _]. unfold short, TTY_LINE in *. lia. Qed.

Lemma exec_line_ok s s1 : grows s s1 → ok snd s (exec_line s1).
Proof.
  intros Hg. pose proof Hg as [[Hl _] _]. rewrite exec_line_eq by done.
  eapply ok_bind; [by apply clear_line_ok|]. intros a Ha. apply run_command_ok; [|done].
  by apply words_short, typed_short.
Qed.

(** ** Input *)

Definition printable (c : Z) : bool := negb ((c <? 32) || (126 <? c)).
Definition erases (c : Z) : bool := (c =? 127) || (c =? 8).

(** What a byte other than a newline does to the line, and what it prints. *)
Definition edit (c : Z) (line : list Z) : list Z :=
  if c =? 3 then [] else if erases c then removelast line else
  if printable c && (blen line <? 127) then line ++ [c] else line.
Definition echo (c : Z) (line : list Z) : list Z :=
  if c =? 3 then ln "^C" ++ str "ardubot$ " else
  if erases c then match line with [] => [] | _ => [8; 32; 8] end else
  if printable c && (blen line <? 127) then [c] else [].

(** [s] with another line and other output. *)
Definition typing l n b k s : tty := with_out b k (with_line l n s).

Lemma typing_same s : typing (g_line s) (g_len s) (g_out s) (g_out_len s) s = s.
Proof. by destruct s. Qed.

Definition edits s (line out : list Z) (m : option tty) : Prop :=
  ∃ l n b k, m = Some (typing l n b k s) ∧ tty_wf (typing l n b k s) ∧
    typed (typing l n b k s) = line ∧ pending (typing l n b k s) = cut (pending s ++ out).

Lemma edits_none s : tty_wf s → edits s (typed s) [] (Some s).
Proof.
  intros Hs. exists (g_line s), (g_len s), (g_out s), (g_out_len s). rewrite typing_same.
  split; [done|]. split; [done|]. split; [done|]. rewrite app_nil_r. symmetry. by apply pending_cut, Hs.
Qed.

Lemma edits_puts s line out t m :
  short t → edits s line out m → edits s line (out ++ t) (m ≫= tty_puts t).
Proof.
  intros Ht (l & n & b & k & -> & [Hl Ho] & El & Ep). cbn [mbind option_bind].
  destruct (tty_puts_ok t (typing l n b k s) Ho Ht) as (b' & k' & E & Ho' & Hp).
  exists l, n, b', k'. split; [exact E|]. split; [by split|]. split; [exact El|].
  rewrite app_assoc, <- cut_cut, <- Ep. exact Hp.
Qed.

Lemma edits_line l n s line :
  tty_wf s → line_wf (with_line l n s) → typed (with_line l n s) = line →
  edits s line [] (Some (with_line l n s)).
Proof.
  intros [_ Ho] Hl El. exists l, n, (g_out s), (g_out_len s). split; [done|].
  split; [by split|]. split; [exact El|]. rewrite app_nil_r. symmetry. exact (pending_cut s Ho).
Qed.

Lemma edits_clear s : tty_wf s → edits s [] [] (clear_line s).
Proof.
  intros Hs. destruct (clear_line_ok s s (grows_refl s Hs)) as (a & E & [[Hl _] _]).
  rewrite E. unfold clear_line in E. destruct (wr (g_line s) 0 0) as [l|]; [|done].
  injection E as <-. by apply edits_line.
Qed.

Lemma line_byte_edit c s :
  tty_wf s → is_u8 c → c ≠ 13 → c ≠ 10 →
  edits s (edit c (typed s)) (echo c (typed s)) (line_byte c s).
Proof.
  intros Hs Hc H13 H10. pose proof (typed_length s (proj1 Hs)) as Ht.
  unfold line_byte, edit, echo. rewrite (proj2 (Z.eqb_neq c 13)), (proj2 (Z.eqb_neq c 10)) by done.
  cbn [orb]. fold (erases c). destruct (c =? 3) eqn:E3.
  { pose proof (edits_puts s [] [] (ln "^C") _ ltac:(done) (edits_clear s Hs)) as H1.
    pose proof (edits_puts s [] _ (str "ardubot$ ") _ ltac:(done) H1) as H2.
    destruct (clear_line s) as [s1|]; [exact H2|done]. }
  destruct (erases c).
  { destruct (0 <? g_len s) eqn:En; bool_hyps.
    - destruct (line_back s (proj1 Hs) En) as (l & -> & Hl & El). cbn [mbind option_bind].
      destruct (typed s) as [|x t] eqn:Et; [change (blen []) with 0 in Ht; lia|].
      apply (edits_puts s _ [] [8; 32; 8] (Some _)); [done|by apply edits_line].
    - destruct (typed s) as [|x t] eqn:Et; [|rewrite blen_cons in Ht; pose proof (blen_nonneg t); lia].
      pose proof (edits_none s Hs) as Hn. by rewrite Et in Hn. }
  unfold printable. destruct ((c <? 32) || (126 <? c)) eqn:Ep; cbn [negb andb]; [by apply edits_none|].
  rewrite Ht. bool_hyps. destruct (TTY_LINE <=? g_len s + 1) eqn:Ef; unfold TTY_LINE in Ef; bool_hyps.
  { rewrite (proj2 (Z.ltb_ge _ _)) by lia. by apply edits_none. }
  rewrite (proj2 (Z.ltb_lt _ _)) by lia.
  destruct (line_put s c (proj1 Hs)) as (l & E & Hl & El); [unfold TTY_LINE; lia|lia|].
  destruct (wr (g_line s) (g_len s) c) as [l0|]; [|done]. cbn [mbind option_bind] in *.
  rewrite E. cbn [mbind option_bind].
  apply (edits_puts s _ [] [c] (Some _)); [done|by apply edits_line].
Qed.

(** A byte in line mode, escape sequences skipped: the escape state, the line and
    what was printed. *)
Definition typed_byte (st : Z * list Z * list Z) (c : Z) : Z * list Z * list Z :=
  let '(esc, line, out) := st in
  if esc =? TTY_IN_ESC then (after_esc c, line, out) else
  if esc =? TTY_IN_CSI then (TTY_IN_NORMAL, line, out) else
  if c =? 27 then (TTY_IN_ESC, line, out) else (esc, edit c line, out ++ echo c line).

Definition not_newline (c : Z) : Prop := is_u8 c ∧ c ≠ 13 ∧ c ≠ 10.

(** [s] after typing: another escape state, line and output. *)
Definition typing_esc e l n b k s : tty := with_mode TTY_MODE_LINE e (typing l n b k s).

Lemma input_byte_typed c s :
  tty_wf s → g_mode s = TTY_MODE_LINE → not_newline c →
  let '(esc, line, out) := typed_byte (g_esc s, typed s, []) c in
  ∃ l n b k, let s' := typing_esc esc l n b k s in
    input_byte c s = Some s' ∧ tty_wf s' ∧ typed s' = line ∧ pending s' = cut (pending s ++ out).
Proof.
  intros Hs Hm (Hc & H13 & H10). unfold typed_byte, input_byte. rewrite Hm. cbn [Z.eqb].
  assert (∀ e, ∃ l n b k, let s' := typing_esc e l n b k s in
    Some (with_mode TTY_MODE_LINE e s) = Some s' ∧ tty_wf s' ∧ typed s' = typed s ∧
    pending s' = cut (pending s ++ [])) as Hstay.
  { intros e. exists (g_line s), (g_len s), (g_out s), (g_out_len s). split; [done|].
    split; [done|]. split; [done|]. rewrite app_nil_r. symmetry. exact (pending_cut s (proj2 Hs)). }
  change (TTY_MODE_LINE =? TTY_MODE_HTOP) with false. change (TTY_MODE_LINE =? TTY_MODE_ATTACH) with false.
  cbv iota. destruct (g_esc s =? TTY_IN_ESC); [by apply Hstay|].
  destruct (g_esc s =? TTY_IN_CSI); [by apply Hstay|]. destruct (c =? 27); [by apply Hstay|].
  destruct (line_byte_edit c s Hs Hc H13 H10) as (l & n & b & k & E & Hw & El & Ep).
  exists l, n, b, k. rewrite E. unfold typing_esc. split; [|split; [exact Hw|split; [exact El|exact Ep]]].
  f_equal. unfold with_mode. cbn. by rewrite <- Hm.
Qed.

Lemma typed_byte_out e line out0 c :
  typed_byte (e, line, out0) c =
    let '(e', line', out) := typed_byte (e, line, []) c in (e', line', out0 ++ out).
Proof.
  unfold typed_byte. destruct (e =? TTY_IN_ESC); [by rewrite app_nil_r|].
  destruct (e =? TTY_IN_CSI); [by rewrite app_nil_r|]. destruct (c =? 27); [by rewrite app_nil_r|].
  by cbn [app].
Qed.

Lemma typed_bytes_out data e line out0 :
  foldl typed_byte (e, line, out0) data =
    let '(e', line', out) := foldl typed_byte (e, line, []) data in (e', line', out0 ++ out).
Proof.
  revert e line out0. induction data as [|c data IH]; intros e line out0; cbn [foldl].
  { by rewrite app_nil_r. }
  rewrite typed_byte_out. destruct (typed_byte (e, line, []) c) as [[e' line'] out].
  rewrite (IH _ _ (out0 ++ out)), (IH _ _ out). destruct (foldl _ _ _) as [[? ?] ?].
  by rewrite app_assoc.
Qed.

Lemma input_loop_typed data s :
  tty_wf s → g_mode s = TTY_MODE_LINE → Forall not_newline data →
  let '(esc, line, out) := foldl typed_byte (g_esc s, typed s, []) data in
  ∃ l n b k, let s' := typing_esc esc l n b k s in
    input_loop data s = Some s' ∧ tty_wf s' ∧ typed s' = line ∧ pending s' = cut (pending s ++ out).
Proof.
  intros Hs Hm Hd. revert s Hs Hm. induction Hd as [|c data Hc _ IH]; intros s Hs Hm; cbn [foldl input_loop].
  { exists (g_line s), (g_len s), (g_out s), (g_out_len s). unfold typing_esc. rewrite typing_same.
    split; [unfold with_mode; rewrite <- Hm; by destruct s|]. split; [done|]. split; [done|].
    rewrite app_nil_r. symmetry. exact (pending_cut s (proj2 Hs)). }
  pose proof (input_byte_typed c s Hs Hm Hc) as H1. rewrite (surjective_pairing (typed_byte _ c)) in *.
  destruct (typed_byte (g_esc s, typed s, []) c) as [[e1 line1] out1]. cbn [fst snd] in *.
  destruct H1 as (l & n & b & k & E & Hw & El & Ep). rewrite E. cbn [mbind option_bind].
  pose proof (IH (typing_esc e1 l n b k s) Hw eq_refl) as H2. rewrite El in H2.
  change (g_esc (typing_esc e1 l n b k s)) with e1 in H2. rewrite typed_bytes_out.
  destruct (foldl typed_byte (e1, line1, []) data) as [[e2 line2] out2].
  destruct H2 as (l2 & n2 & b2 & k2 & E2 & Hw2 & El2 & Ep2).
  exists l2, n2, b2, k2. split; [exact E2|]. split; [exact Hw2|]. split; [exact El2|].
  rewrite app_assoc, <- cut_cut, <- Ep. exact Ep2.
Qed.

Lemma input_loop_app a b s : input_loop (a ++ b) s = s' ← input_loop a s; input_loop b s'.
Proof.
  revert s. induction a as [|c a IH]; intros s; [done|]. cbn [app input_loop].
  destruct (input_byte c s) as [s1|]; [|done]. apply IH.
Qed.

Lemma tty_service_input_loop data s : tty_service_input (Some data) (blen data) s = input_loop data s.
Proof.
  unfold tty_service_input. rewrite bool_decide_true by by eexists. cbn [negb andb default from_option id].
  by rewrite rd_bytes_all.
Qed.

Lemma attach_key_ok key s s1 : grows s s1 → ok id s (attach_key key s1).
Proof. intros Hg. unfold attach_key, tap_key. cbv zeta. by tty_walk. Qed.

Lemma leave_mode_ok s s1 : grows s s1 → ok id s (leave_mode s1).
Proof. intros Hg. unfold leave_mode. cbv zeta. by tty_walk. Qed.

Lemma attach_byte_ok c s s1 : grows s s1 → ok id s (attach_byte c s1).
Proof.
  intros Hg. unfold attach_byte. cbv zeta.
  repeat (destruct (_ || _) || case_match); by first [apply leave_mode_ok|apply attach_key_ok; grow|tty_step].
Qed.

Lemma edits_ok s line out m : edits s line out m → ok id s m.
Proof. intros (l & n & b & k & -> & Hw & _ & Ep). eexists. split; [done|]. split; [exact Hw|by exists out]. Qed.

Lemma ok_via {A} (st : A → tty) s s1 m : grows s s1 → ok st s1 m → ok st s m.
Proof. intros Hg (a & E & Ha). exists a. split; [done|]. by eapply grows_trans. Qed.

Lemma line_byte_ok c s s1 : is_u8 c → grows s s1 → ok id s (line_byte c s1).
Proof.
  intros Hc Hg. destruct (decide (c = 13 ∨ c = 10)) as [Hn|Hn].
  - unfold line_byte. destruct (c =? 3) eqn:E3; bool_hyps; [lia|].
    replace ((c =? 13) || (c =? 10)) with true by (symmetry; apply orb_true_iff; by rewrite !Z.eqb_eq).
    eapply ok_bind; [apply ok_puts; [done|by vm_compute]|]. intros a Ha.
    eapply ok_bind; [by apply exec_line_ok|]. intros [rc a1] Ha1. by tty_walk.
  - eapply ok_via; [exact Hg|]. eapply edits_ok, line_byte_edit; [apply Hg|done|tauto|tauto].
Qed.

Lemma input_byte_ok c s s1 : is_u8 c → grows s s1 → ok id s (input_byte c s1).
Proof.
  intros Hc Hg. unfold input_byte.
  repeat case_match; by first [apply leave_mode_ok|apply attach_byte_ok|apply line_byte_ok|tty_step].
Qed.

Lemma input_loop_ok data s s1 : Forall is_u8 data → grows s s1 → ok id s (input_loop data s1).
Proof.
  intros Hd. revert s1. induction Hd as [|c data Hc _ IH]; intros s1 Hg; [by apply ok_ret|].
  cbn [input_loop]. eapply ok_bind; [by apply input_byte_ok|]. intros a Ha. by apply IH.
Qed.

Lemma tty_poll_ok now s s1 : grows s s1 → ok id s (tty_service_poll now s1).
Proof.
  intros Hg. unfold tty_service_poll.
  repeat case_match; first [apply tty_task_table_ok; grow|tty_step].
Qed.

Lemma tty_open_ok s s1 : grows s s1 → ok id s (tty_service_open s1).
Proof. intros Hg. unfold tty_service_open. by tty_walk. Qed.

Lemma tty_read_spec cap s :
  tty_wf s → 0 < cap →
  ∃ s', let b := take (Z.to_nat cap) (pending s) in
    tty_service_read true cap s = Some (blen b, b, s') ∧ tty_wf s' ∧
    pending s' = drop (Z.to_nat cap) (pending s) ∧ ∃ o k, s' = with_out o k s.
Proof.
  intros Hs Hc. pose proof (tty_pending_length s (proj2 Hs)) as Hp. pose proof Hs as [Hl [Hb Hn]].
  unfold tty_service_read. cbn [negb orb]. rewrite (proj2 (Z.eqb_neq cap 0)) by lia. cbn [orb].
  destruct (g_out_len s =? 0) eqn:E0; bool_hyps.
  { exists s. assert (pending s = []) as ->.
    { apply nil_length_inv. unfold blen in Hp. lia. }
    rewrite take_nil, drop_nil. do 3 (split; [done|]). by exists (g_out s), (g_out_len s); destruct s. }
  set (n := if g_out_len s <? cap then g_out_len s else cap).
  assert (n = Z.min (g_out_len s) cap) as Hnn.
  { unfold n. destruct (_ <? _) eqn:E; bool_hyps; lia. }
  unfold TTY_OUT in *. rewrite rd_bytes_ok by lia. cbn [mbind option_bind].
  rewrite move_down_ok by lia. cbn [mbind option_bind].
  assert (take (Z.to_nat n) (drop (Z.to_nat 0) (g_out s)) = take (Z.to_nat cap) (pending s)) as ->.
  { unfold pending. rewrite drop_0, take_take. f_equal. lia. }
  eexists. split; [|split; [|split; [|by eexists _, _]]].
  - do 3 f_equal. unfold blen in *. rewrite length_take. lia.
  - split; [exact Hl|]. split; cbn [with_out g_out g_out_len]; [|unfold TTY_OUT; lia].
    unfold blen, TTY_OUT in *. rewrite length_app, length_take, !length_drop. lia.
  - unfold pending. cbn [with_out g_out g_out_len].
    rewrite take_app_le, take_take by (unfold blen in Hb; rewrite length_take, length_drop; lia).
    rewrite skipn_firstn_comm. destruct (decide (g_out_len s < cap)).
    + replace (Z.to_nat (g_out_len s) - Z.to_nat cap)%nat with 0%nat by lia.
      by replace (Z.to_nat (g_out_len s - n) `min` _)%nat with 0%nat by lia.
    + replace n with cap by lia. f_equal. lia.
Qed.

Lemma typing_collapse l2 n2 b2 k2 b1 k1 l n b k s :
  g_mode s = TTY_MODE_LINE → g_esc s = TTY_IN_NORMAL →
  typing l2 n2 b2 k2 (with_out b1 k1 (typing_esc TTY_IN_NORMAL l n b k s)) = typing l2 n2 b2 k2 s.
Proof. destruct s. cbn. by intros -> ->. Qed.

Lemma tty_reset_wf s : blen (g_out s) = TTY_OUT → tty_wf (tty_service_reset s).
Proof.
  intros Hb. split; [|split; [exact Hb|done]]. split; [done|]. split; [constructor|].
  by exists (zeros 127).
Qed.

(** ** Theorems *)

(** C10: In line mode, whatever has been typed, a newline runs the command made of the
    first eight words of the edited line - control C clears it, backspace takes the
    last byte back, escape sequences and what does not fit are ignored - with the line
    cleared and the echo of every byte appended to the pending output. *)
Theorem tty_command_line data nl line out s :
  tty_wf s → g_mode s = TTY_MODE_LINE → g_esc s = TTY_IN_NORMAL →
  Forall not_newline data → nl = 13 ∨ nl = 10 →
  foldl typed_byte (TTY_IN_NORMAL, typed s, []) data = (TTY_IN_NORMAL, line, out) →
  ∃ l n b k, let s1 := typing l n b k s in
    tty_wf s1 ∧ typed s1 = [] ∧ pending s1 = cut (pending s ++ out ++ [10]) ∧
    tty_service_input (Some (data ++ [nl])) (blen (data ++ [nl])) s =
      '(_, s2) ← run_command (take TTY_ARGS (words line)) s1;
      if (g_mode s2 =? TTY_MODE_LINE) && negb (g_closed s2) then tty_prompt s2 else Some s2.
Proof.
  intros Hs Hm He Hd Hnl Hf. rewrite tty_service_input_loop, input_loop_app.
  pose proof (input_loop_typed data s Hs Hm Hd) as Hi. rewrite He, Hf in Hi.
  destruct Hi as (l & n & b & k & E & Hw & El & Ep). rewrite E. cbn [mbind option_bind input_loop].
  set (s0 := typing_esc TTY_IN_NORMAL l n b k s) in *.
  destruct (tty_puts_ok [10] s0 (proj2 Hw)) as (b1 & k1 & E1 & Ho1 & Ep1); [done|].
  set (s1 := with_out b1 k1 s0) in *.
  assert (tty_wf s1) as Hw1 by (by split; [apply Hw|]).
  destruct (edits_clear s1 Hw1) as (l2 & n2 & b2 & k2 & E2 & Hw2 & El2 & Ep2).
  exists l2, n2, b2, k2. cbv zeta.
  assert (typing l2 n2 b2 k2 s = typing l2 n2 b2 k2 s1) as ->.
  { symmetry. by apply typing_collapse. }
  split; [exact Hw2|]. split; [exact El2|]. split.
  { by rewrite Ep2, Ep1, cut_cut, app_nil_r, Ep, cut_cut, app_assoc. }
  unfold input_byte. change (g_mode s0 =? TTY_MODE_HTOP) with false.
  change (g_mode s0 =? TTY_MODE_ATTACH) with false. change (g_esc s0) with 0. cbv iota beta.
  change (0 =? TTY_IN_ESC) with false. change (0 =? TTY_IN_CSI) with false. cbv iota.
  replace (nl =? 27) with false by (symmetry; apply Z.eqb_neq; lia). unfold line_byte.
  replace (nl =? 3) with false by (symmetry; apply Z.eqb_neq; lia).
  replace ((nl =? 13) || (nl =? 10)) with true by (symmetry; apply orb_true_iff; by rewrite !Z.eqb_eq).
  rewrite E1. cbn [mbind option_bind]. rewrite exec_line_eq by apply Hw1. rewrite E2.
  cbn [mbind option_bind]. replace (typed s1) with line by (by rewrite <- El).
  destruct (run_command _ _) as [[rc s2]|]; [|done]. cbn [mbind option_bind].
  destruct (_ && _); [|done]. by destruct (tty_prompt s2).
Qed.

(** C11: No bytes from the host lead the shell out of its buffers or make it hang: input,
    refreshing and opening always return, leave the buffers well formed, and only
    append to the pending output (what does not fit in 2047 bytes is lost); reading
    hands the pending output over in order. *)
Theorem tty_service_safe s :
  tty_wf s →
  (∀ data, Forall is_u8 data → ok id s (tty_service_input (Some data) (blen data) s)) ∧
  (∀ now, ok id s (tty_service_poll now s)) ∧ ok id s (tty_service_open s) ∧
  (∀ cap, 0 < cap → ∃ s', let b := take (Z.to_nat cap) (pending s) in
     tty_service_read true cap s = Some (blen b, b, s') ∧ tty_wf s' ∧
     pending s' = drop (Z.to_nat cap) (pending s)).
Proof.
  intros Hs. pose proof (grows_refl s Hs) as Hg. split; [|split; [|split]].
  - intros data Hd. rewrite tty_service_input_loop. by apply input_loop_ok.
  - intros now. by apply tty_poll_ok.
  - by apply tty_open_ok.
  - intros cap Hc. destruct (tty_read_spec cap s Hs Hc) as (s' & E & Hw & Hp & _). by exists s'.
Qed.
End TtyCommands.

(** ** Runs *)

Module TtyRuns.
#[local] Existing Instance arch32.

(** A system with one application, whose keys are logged. *)
Definition toy : Type := list (Z * bool).

#[export] Program Instance toy_shell : Shell toy unit unit := {|
  task_slots _ := [(str "main", 1, 0)];
  app_list _ := Some [(str "clock", APP_STATE_RUNNING)];
  app_kit_foreground_name _ := Some (str "clock");
  app_kit_switch name w := (if str_eq name (str "clock") then 0 else -1, w);
  app_find name _ := str_eq name (str "clock");
  app_state _ _ := APP_STATE_RUNNING;
  app_kit_request_stop _ w := (-1, w);
  app_resume _ w := (0, w);
  app_stop _ w := (0, w);
  sim_gpio_handle_key key pressed w := w ++ [(key, pressed)];
  sensor_service_count _ := 0;
  sensor_service_key _ _ := None;
  sensor_get _ w := (-1, 0, w);
  device_info_query _ := None;
  os_clock_now _ := 1700000000;
  os_clock_set _ w := (0, w);
  clock_service_set _ w := (0, w);
  os_get_free_heap _ := 4096;
  os_get_min_free_heap _ := 1024;
  time_now_ms w := Z.of_nat (length w);
  vfs_opendir _ w := (Some tt, w);
  vfs_readdir _ w := (None, w);
  vfs_closedir _ w := w;
  vfs_open _ w := (None, w);
  vfs_read _ _ w := (0, [], w);
  vfs_close _ w := w;
  dir_left _ _ := 0%nat;
  file_left _ _ := 0%nat
|}.
Next Obligation. done. Qed.
Next Obligation. intros ? ? ? ? ? ? [= <- <- <-]. done. Qed.
Next Obligation. intros ? ? ? ? ? ? [= <- <- <-]. done. Qed.

(** No application registers commands. *)
#[export] Instance no_code : CliCode (W := toy) (C := Empty_set) := λ c _ _, match c with end.

Definition booted : @tty_state toy Empty_set :=
  tty_service_reset (mk_tty [] 0 (zeros 2048) 0 0 0 false false 0 None None [] []).

#[export] Instance not_newline_dec c : Decision (not_newline c).
Proof. unfold not_newline. apply _. Defined.

Lemma booted_wf : tty_wf booted.
Proof. by apply tty_reset_wf. Qed.

Lemma tty_code_obeys : cli_obeys (W := toy) (C := Empty_set).
Proof. intros []. Qed.

(** "kez", backspace, "y  up": the command "key up". *)
Definition keystrokes : list Z := str "kez" ++ [127] ++ str "y  up".

Lemma tty_command_line_witness :
  let out := (foldl typed_byte (TTY_IN_NORMAL, [], []) keystrokes).2 in
  ∃ l n b k, let s1 := typing l n b k booted in
    tty_wf s1 ∧ typed s1 = [] ∧ pending s1 = cut ([] ++ out ++ [10]) ∧
    tty_service_input (Some (keystrokes ++ [10])) (blen (keystrokes ++ [10])) booted =
      '(_, s2) ← run_command [str "key"; str "up"] s1;
      if (g_mode s2 =? TTY_MODE_LINE) && negb (g_closed s2) then tty_prompt s2 else Some s2.
Proof.
  apply (tty_command_line (W := toy) (C := Empty_set) keystrokes 10 (str "key  up")
    (foldl typed_byte (TTY_IN_NORMAL, [], []) keystrokes).2 booted).
  - apply booted_wf.
  - done.
  - done.
  - vm_decide.
  - by right.
  - by vm_compute.
Defined.

Lemma tty_service_safe_witness :
  (∀ data, Forall is_u8 data → ok id booted (tty_service_input (Some data) (blen data) booted)) ∧
  (∀ cap, 0 < cap → ∃ s', let b := take (Z.to_nat cap) (pending booted) in
     tty_service_read true cap booted = Some (blen b, b, s') ∧ tty_wf s' ∧
     pending s' = drop (Z.to_nat cap) (pending booted)).
Proof.
  destruct (tty_service_safe tty_code_obeys booted booted_wf) as (Hi & _ & _ & Hr). split; [exact Hi|exact Hr].
Defined.

(** The key command taps the key of the toy system. *)
Example key_command_runs :
  (world <$> tty_service_input (Some (keystrokes ++ [10])) (blen (keystrokes ++ [10])) booted) =
    Some [(SIM_KEY_UP, true)].
Proof. by vm_compute. Qed.

(** A new connection gets a prompt, but the line half typed on the old one is still
    there: what is typed next completes it. *)
Example stale_line_runs :
  (s ← tty_service_input (Some (str "exi")) 3 booted;
   s ← tty_service_open s;
   s ← tty_service_input (Some (str "t" ++ [10])) 2 s; Some (g_closed s)) = Some true.
Proof. by vm_compute. Qed.

(** Control C in the middle of an escape sequence is swallowed. *)
Example cancel_swallowed :
  (s ← tty_service_input (Some (str "abc" ++ [27; 3])) 5 booted; Some (typed s)) = Some (str "abc").
Proof. by vm_compute. Qed.
End TtyRuns.
