(* ===== verification/LinkBridge.v ===== *)
(** * The device's end of the link (apps/link_bridge.c)

    The bridge joins the link's parts: bytes from the transport go through the frame
    stream, the session opens what is sealed, calls are dispatched to the handlers of
    this file, terminal bytes go to the shell, and replies and shell output are sealed
    into the caller's transmit buffer.  Applications, keys and notifications are the
    classes [Shell] and [BridgeServices]. *)

From Stdlib Require Import ZArith Lia String.
From stdpp Require Import base tactics option numbers list.
From S2P Require Import Prelude.
From S2P Require Import CString.
From S2P Require Import Layout.
From S2P Require Import LinkFrame.
From S2P Require Import LinkStream.
From S2P Require Import LinkSession.
From S2P Require Import LinkDispatch.
From S2P Require Import TtyService.

Definition LINK_MSG_SLOTS : nat := 4.
Definition LINK_MSG_APP : Z := 24.
Definition LINK_MSG_TEXT : Z := 96.
Definition LINK_CH_CALL : Z := 1.
Definition LINK_CH_TTY : Z := 5.
Definition LINK_FLAG_ERROR : Z := 2.
Definition LINK_EXTENT_FULL : Z := 1.
Definition LINK_ERR_BUSY : Z := 4.
Definition EVENT_MAX_DATA : Z := 32.
Definition EVENT_TOPIC_MAX : Z := 16.

(** A slot of queued messages; its strings without their terminators. *)
Record link_msg_t := mk_msg { lm_app : list Z; lm_text : list Z; lm_used : bool }.

(** What the handlers and the shell act on: the message slots and the rest of the
    system. *)
Record bridge_env (U : Type) := mk_env { g_msgs : list link_msg_t; rest : U }.
Arguments mk_env {U}.
Arguments g_msgs {U}.
Arguments rest {U}.

(** [notify_post] of a title, a body, full extent or band, and a duration; publishing
    runs the subscribers at once ([event_publish_sync]). *)
Class BridgeServices (W : Type) := {
  notify_post : list Z → option (list Z) → bool → Z → W → Z * W;
  os_event_publish : list Z → option (list Z) → Z → W → Z * W
}.

Record link_tx_t := mk_tx { tx_buf : list Z; tx_cap : Z; tx_used : Z }.

Definition empty_msgs : list link_msg_t := replicate LINK_MSG_SLOTS (mk_msg [] [] false).

Section Bridge.
Context {U D F C : Type} `{Arch} `{BridgeServices (bridge_env U)} `{Shell (bridge_env U) D F}.
Abbreviation env := (bridge_env U).
Abbreviation tty := (@tty_state env C).
Context `{!CliCode (W := env) (C := C)}.

(** ** Handlers *)

Definition on_notify (title : list Z) (body : option (list Z)) (extent duration_ms : Z) (e : env)
    : Z * env :=
  notify_post title body (extent =? LINK_EXTENT_FULL) duration_ms e.

(** The loop over the slots: the slots with the message in the first free one. *)
Fixpoint put_msg (app text : list Z) (msgs : list link_msg_t) : option (list link_msg_t) :=
  match msgs with
  | [] => None
  | m :: msgs =>
    if lm_used m then cons m <$> put_msg app text msgs
    else Some (mk_msg (row LINK_MSG_APP app) (row LINK_MSG_TEXT text) true :: msgs)
  end.

Definition on_message (app text : list Z) (e : env) : Z * env :=
  if negb (app_find app e) then (LINK_ERR_UNKNOWN_APP, e) else
  match put_msg app text (g_msgs e) with
  | Some msgs => (0, mk_env msgs (rest e))
  | None => (LINK_ERR_BUSY, e)
  end.

Definition on_event (app name : list Z) (payload : option (list Z)) (len : Z) (e : env) : Z * env :=
  if negb (app_find app e) then (LINK_ERR_UNKNOWN_APP, e) else
  let topic := str "app." ++ app ++ str "." ++ name in
  if EVENT_TOPIC_MAX <=? blen topic then (LINK_ERR_BAD_ARGS, e) else
  let size := if EVENT_MAX_DATA <? u32 len then EVENT_MAX_DATA else u32 len in
  let '(rc, e) := os_event_publish topic payload size e in
  (if rc <? 0 then LINK_ERR_BAD_ARGS else 0, e).

(** The same text as in tty_service.c. *)
Definition key_from_name : list Z → Z := TtyService.key_from_name.

Definition on_key (key : list Z) (pressed : Z) (e : env) : Z * env :=
  let code := key_from_name key in
  if code =? SIM_KEY_UNKNOWN then (-1, e) else (0, sim_gpio_handle_key code (c_true pressed) e).

Definition bridge_handlers : link_handlers_t env :=
  mk_handlers (Some on_notify) (Some on_message) (Some on_event) (Some on_key).

(** ** The state, and the transmit buffer *)

(** All but the stream, whose callback acts on it. *)
Record link_dev := mk_dev { g_session : link_session_t; g_msg_id : Z; g_tty : tty }.
Record link_bridge := mk_bridge { g_stream : link_stream_t; g_dev : link_dev }.

(** [++g_msg_id] *)
Definition next_id (d : link_dev) : link_dev :=
  mk_dev (g_session d) (u16 (g_msg_id d + 1)) (g_tty d).
Definition with_session (s : link_session_t) (d : link_dev) : link_dev :=
  mk_dev s (g_msg_id d) (g_tty d).
Definition with_tty (t : tty) (d : link_dev) : link_dev :=
  mk_dev (g_session d) (g_msg_id d) t.

(** No caller passes a NULL [tx]. *)
Definition tx_append (tx : link_tx_t) (data : list Z) (n : Z) : option (Z * link_tx_t) :=
  if n <? 0 then Some (-1, tx) else
  if tx_cap tx <? usz (tx_used tx + n) then Some (-1, tx) else
  if 0 <? n then
    d ← rd_bytes data 0 n;
    b ← wr_bytes (tx_buf tx) (tx_used tx) d;
    Some (0, mk_tx b (tx_cap tx) (usz (tx_used tx + n)))
  else Some (0, tx).

Definition send_frame (tx : link_tx_t) (frame : link_frame_t) : option (Z * link_tx_t) :=
  '(n, raw) ← link_frame_encode (Some frame) (Some (zeros LINK_MAX_FRAME)) LINK_MAX_FRAME;
  raw ← raw;
  tx_append tx raw n.

Definition send_error (tx : link_tx_t) (code : Z) (text : list Z) (d : link_dev)
    : option (Z * link_dev * link_tx_t) :=
  let d := next_id d in
  '(rc, p, used) ← link_tlv_put_u16 (Some (zeros LINK_MAX_PAYLOAD)) LINK_MAX_PAYLOAD (Some 0)
                     LINK_TAG_CODE code;
  if c_true rc then Some (-1, d, tx) else
  '(rc, p, used) ← link_tlv_put_str p LINK_MAX_PAYLOAD used LINK_TAG_ERRMSG (Some text);
  if c_true rc then Some (-1, d, tx) else
  p ← p; used ← used;
  '(rc, tx) ← send_frame tx (mk_frame LINK_VERSION LINK_FLAG_ERROR LINK_CH_ERROR (g_msg_id d)
                               (u16 used) p);
  Some (rc, d, tx).

(** ** Frames *)

(** Sealing a message into the transmit buffer: [n = link_session_seal (...)] followed
    by [tx_append (tx, sealed, n)]. *)
Definition seal_append (channel : Z) (pt : list Z) (d : link_dev) (tx : link_tx_t)
    : option (Z * link_dev * link_tx_t) :=
  let d := next_id d in
  '(n, s, sealed) ← link_session_seal (Some (g_session d)) channel (g_msg_id d) (Some pt) (blen pt)
                      (Some (zeros LINK_MAX_FRAME)) LINK_MAX_FRAME;
  s ← s; sealed ← sealed;
  '(rc, tx) ← tx_append tx sealed n;
  Some (rc, with_session s d, tx).

(** Every round takes bytes from the shell, so their number is enough fuel. *)
Fixpoint seal_tty (fuel : nat) (d : link_dev) (tx : link_tx_t) : option (Z * link_dev * link_tx_t) :=
  match fuel with
  | O => None
  | S fuel =>
    if (tx_used tx <? tx_cap tx) && (LINK_MAX_FRAME <=? tx_cap tx - tx_used tx) then
      '(n, chunk, t) ← tty_service_read true 200 (g_tty d);
      let d := with_tty t d in
      if n <=? 0 then Some (0, d, tx) else
      '(rc, d, tx) ← seal_append LINK_CH_TTY chunk d tx;
      if c_true rc then Some (-1, d, tx) else seal_tty fuel d tx
    else Some (0, d, tx)
  end.
Definition flush_tty (d : link_dev) (tx : link_tx_t) : option (Z * link_dev * link_tx_t) :=
  seal_tty (S (Z.to_nat (g_out_len (g_tty d)))) d tx.

Definition wire_hello (frame : link_frame_t) (d : link_dev) (tx : link_tx_t)
    : option (Z * link_dev * link_tx_t) :=
  '(rc, s) ← link_session_accept_hello (Some (g_session d)) (Some frame) 1;
  s ← s;
  let d := with_session s d in
  if c_true rc then send_error tx LINK_ERR_BAD_ARGS (str "key") d else
  let d := next_id d in
  '(n, sealed) ← link_session_encode_hello (Some s) (se_session s) (g_msg_id d)
                   (Some (zeros LINK_MAX_FRAME)) LINK_MAX_FRAME;
  sealed ← sealed;
  '(rc, tx) ← tx_append tx sealed n;
  if c_true rc then Some (-1, d, tx) else
  t ← tty_service_open (g_tty d);
  flush_tty (with_tty t d) tx.

Definition wire_call (payload : list Z) (d : link_dev) (tx : link_tx_t)
    : option (Z * link_dev * link_tx_t) :=
  '(rc, r, e) ← link_dispatch_call (Some bridge_handlers) (Some payload) (blen payload)
                  (Some (mk_reply (zeros LINK_MAX_PAYLOAD) 0 0)) LINK_MAX_PAYLOAD (world (g_tty d));
  r ← r;
  let d := with_tty (with_world e (g_tty d)) d in
  if c_true rc then Some (0, d, tx) else
  reply ← rd_bytes (rp_buf r) 0 (rp_len r);
  seal_append (rp_channel r) reply d tx.

(** [raw] are the bytes the stream hands over, [plain.payload] is read up to
    [plain.length]. *)
Definition on_wire (raw : list Z) (len : Z) (d : link_dev) (tx : link_tx_t)
    : option (Z * link_dev * link_tx_t) :=
  '(rc, frame) ← link_frame_decode (Some raw) len (Some frame_zero);
  frame ← frame;
  if rc <? 0 then Some (0, d, tx) else
  if (lf_channel frame =? LINK_CH_HELLO) && negb (bits_set (lf_flags frame) LINK_FLAG_ENCRYPTED)
  then wire_hello frame d tx else
  if negb (se_open (g_session d)) then Some (0, d, tx) else
  '(rc, s, plain) ← link_session_open (Some (g_session d)) (Some frame) (Some frame_zero);
  s ← s; plain ← plain;
  let d := with_session s d in
  if c_true rc then Some (0, d, tx) else
  payload ← rd_bytes (lf_payload plain) 0 (lf_length plain);
  if lf_channel plain =? LINK_CH_TTY then
    t ← tty_service_input (Some payload) (lf_length plain) (g_tty d);
    flush_tty (with_tty t d) tx
  else if negb (lf_channel plain =? LINK_CH_CALL) then Some (0, d, tx)
  else wire_call payload d tx.

(** [on_wire] as the stream calls it; a fault is the state [None]. *)
Definition wire_frame (raw : list Z) (u : option (link_dev * link_tx_t))
    : option (link_dev * link_tx_t) * Z :=
  match u with
  | None => (None, -1)
  | Some (d, tx) =>
    match on_wire raw (blen raw) d tx with
    | Some (rc, d, tx) => (Some (d, tx), rc)
    | None => (None, -1)
    end
  end.

(** ** The interface *)

Definition link_bridge_init (key : option (list Z)) (key_id : Z) (b : link_bridge)
    : option link_bridge :=
  s ← link_session_init key key_id LINK_DIR_DEVICE;
  let t := g_tty (g_dev b) in
  let t := tty_service_reset (with_world (mk_env empty_msgs (rest (world t))) t) in
  let t := tty_service_bind (Some bridge_handlers) t in
  Some (mk_bridge (mk_stream (zeros LINK_MAX_FRAME) 0) (mk_dev s 0 t)).

(** The result, the transmit buffer and the state. *)
Definition link_bridge_rx (data : option (list Z)) (n : Z) (tx : option (list Z)) (cap : Z)
    (b : link_bridge) : option (Z * option (list Z) * link_bridge) :=
  if negb (bool_decide (is_Some tx)) && (0 <? cap) then Some (-1, tx, b) else
  let out := mk_tx (default [] tx) cap 0 in
  '(rc, st, u) ← link_stream_push (Some (g_stream b)) data n (Some (frame_cb wire_frame))
                   (Some (g_dev b, out));
  st ← st;
  '(d, out) ← u;
  Some (if c_true rc then -1 else to_i32 (u32 (tx_used out)), Some (tx_buf out), mk_bridge st d).

Definition link_bridge_poll (now_ms : Z) (tx : option (list Z)) (cap : Z) (b : link_bridge)
    : option (Z * option (list Z) * link_bridge) :=
  let d := g_dev b in
  match tx with
  | None => Some (0, tx, b)
  | Some buf =>
    if negb (se_open (g_session d)) then Some (0, tx, b) else
    t ← tty_service_poll now_ms (g_tty d);
    '(rc, d, out) ← flush_tty (with_tty t d) (mk_tx buf cap 0);
    Some (if c_true rc then -1 else to_i32 (u32 (tx_used out)), Some (tx_buf out), mk_bridge (g_stream b) d)
  end.

(** The first slot of the app: its text, and the slots with it free. *)
Fixpoint take_msg (app : list Z) (msgs : list link_msg_t) : option (list Z * list link_msg_t) :=
  match msgs with
  | [] => None
  | m :: msgs =>
    if lm_used m && str_eq (lm_app m) app then Some (lm_text m, mk_msg (lm_app m) (lm_text m) false :: msgs)
    else prod_map id (cons m) <$> take_msg app msgs
  end.

(** The string in [buf] when the call succeeds. *)
Definition link_message_take (app : option (list Z)) (buf : bool) (cap : Z) (b : link_bridge)
    : Z * list Z * link_bridge :=
  let t := g_tty (g_dev b) in
  match app with
  | None => (-1, [], b)
  | Some app =>
    if negb buf || (cap =? 0) then (-1, [], b) else
    match take_msg app (g_msgs (world t)) with
    | Some (text, msgs) =>
      (0, row cap text,
       mk_bridge (g_stream b) (with_tty (with_world (mk_env msgs (rest (world t))) t) (g_dev b)))
    | None => (-1, [], b)
    end
  end.
End Bridge.
