(* ===== verification/LinkBridgeThm.v ===== *)
(** * The device's end of the link: theorems

    Whatever bytes arrive, the bridge returns and stays inside its buffers; and a host
    that speaks the protocol gets, for every call it seals, the reference reply of the
    dispatcher, and for every stretch of typing what the shell printed. *)

From Stdlib Require Import ZArith Lia String.
From stdpp Require Import base tactics option numbers list.
From S2P Require Import Prelude.
From S2P Require Import CString.
From S2P Require Import Layout.
From S2P Require Import LinkFrame.
From S2P Require Import LinkStream.
From S2P Require Import LinkSession.
From S2P Require Import LinkDispatch.
From S2P Require Import TtyService.
From S2P Require Import TtyThm.
From S2P Require Import LinkBridge.

#[local] Opaque link_session_seal link_session_open link_session_accept_hello
  link_session_encode_hello link_frame_decode link_frame_encode link_dispatch_call.

(** ** The transmit buffer *)

Definition tx_ok (tx : link_tx_t) : Prop :=
  0 <= tx_used tx <= tx_cap tx ∧ tx_cap tx <= blen (tx_buf tx) ∧ tx_cap tx < 2 ^ 31.
Definition tx_out (tx : link_tx_t) : list Z := take (Z.to_nat (tx_used tx)) (tx_buf tx).

(** Only the end of the output changes. *)
Definition tx_grows (tx tx' : link_tx_t) : Prop :=
  tx_ok tx' ∧ tx_cap tx' = tx_cap tx ∧ length (tx_buf tx') = length (tx_buf tx) ∧
  ∃ t, tx_out tx' = tx_out tx ++ t.

Lemma tx_grows_refl tx : tx_ok tx → tx_grows tx tx.
Proof. intros. do 3 (split; [done|]). exists []. by rewrite app_nil_r. Qed.

Lemma tx_grows_trans t1 t2 t3 : tx_grows t1 t2 → tx_grows t2 t3 → tx_grows t1 t3.
Proof.
  intros (_ & E1 & L1 & a & A1) (H3 & E2 & L2 & b & A2). split; [done|].
  split; [congruence|]. split; [congruence|]. exists (a ++ b). by rewrite A2, A1, app_assoc.
Qed.

Section Tx.
Context `{Arch}.

Lemma tx_append_fits tx data r n :
  tx_ok tx → n = blen data → tx_used tx + n <= tx_cap tx →
  ∃ tx', tx_append tx (data ++ r) n = Some (0, tx') ∧ tx_grows tx tx' ∧
    tx_used tx' = tx_used tx + n ∧ tx_out tx' = tx_out tx ++ data.
Proof.
  intros Htx -> Hf. pose proof Htx as (Hu & Hc & H31). pose proof (blen_nonneg data).
  unfold tx_append. rewrite usz_id by lia. zbool.
  destruct (0 <? blen data) eqn:E0; bool_hyps.
  2:{ exists tx. assert (data = []) as -> by (destruct data; [done|rewrite blen_cons in *; pose proof (blen_nonneg data); lia]).
      split; [done|]. split; [by apply tx_grows_refl|]. split; [rewrite blen_nil; lia|]. by rewrite app_nil_r. }
  rewrite rd_bytes_prefix. cbn [mbind option_bind].
  destruct (wr_bytes (tx_buf tx) (tx_used tx) data) as [b|] eqn:Eb; [|by rewrite wr_bytes_ok in Eb by lia].
  cbn [mbind option_bind]. eexists. split; [done|].
  pose proof (wr_bytes_length _ _ _ _ Eb) as Hb.
  assert (take (Z.to_nat (tx_used tx + blen data)) b = tx_out tx ++ data) as Eo.
  { rewrite wr_bytes_ok in Eb by lia. injection Eb as <-. unfold tx_out, blen.
    rewrite app_assoc. apply take_app_length'. rewrite length_app, length_take. unfold blen in *. lia. }
  split; [|split; [done|exact Eo]]. split; [|split; [done|split; [exact Hb|by exists data]]].
  unfold tx_ok, blen in *. cbn [tx_used tx_cap tx_buf]. rewrite Hb. lia.
Qed.

Lemma tx_append_ok tx data n :
  tx_ok tx → n <= blen data → blen data < 2 ^ 31 →
  ∃ rc tx', tx_append tx data n = Some (rc, tx') ∧ tx_grows tx tx' ∧ (rc = 0 ∨ rc = -1).
Proof.
  intros Htx Hn Hd. destruct (n <? 0) eqn:E0.
  { exists (-1), tx. unfold tx_append. rewrite E0. split; [done|]. split; [by apply tx_grows_refl|by right]. }
  destruct (tx_cap tx <? tx_used tx + n) eqn:E1; bool_hyps.
  { exists (-1), tx. unfold tx_append. destruct Htx as (Hu & Hc & H31). rewrite usz_id by lia. zbool.
    split; [done|]. split; [by apply tx_grows_refl|by right]. }
  destruct (tx_append_fits tx (take (Z.to_nat n) data) (drop (Z.to_nat n) data) n)
    as (tx' & E & Hg & _); [done|by rewrite blen_take by lia|lia|].
  rewrite take_drop in E. exists 0, tx'. auto.
Qed.
End Tx.

(** ** Sealing and the session *)

Section Seal.
Context {U D F C : Type} `{Arch} `{BridgeServices (bridge_env U)} `{Shell (bridge_env U) D F}.
Abbreviation env := (bridge_env U).
Abbreviation tty := (@tty_state env C).
Abbreviation dev := (@link_dev U C).
Context `{CC : !CliCode (W := env) (C := C)}.
Implicit Types (d : dev).

Definition dev_ok d : Prop :=
  session_wf (g_session d) ∧ se_tx_dir (g_session d) = LINK_DIR_DEVICE ∧ is_u16 (g_msg_id d) ∧
  tty_wf (g_tty d).

Lemma seal_closed s channel mid pt n o cap :
  se_open s = false →
  link_session_seal (Some s) channel mid pt n (Some o) cap = Some (-1, Some s, Some o).
Proof. #[local] Transparent link_session_seal. intros Hs. unfold link_session_seal. by rewrite Hs. Qed.
#[local] Opaque link_session_seal.

(** The device after sealing one message, and what was sent. *)
Definition sealed_dev d : dev :=
  with_session (session_with_tx (g_session d) (u64 (se_tx_counter (g_session d) + 1))) (next_id d).
Definition sealed_bytes (channel : Z) (pt : list Z) d : list Z :=
  frame_bytes (sealed_frame (g_session d) (u64 (se_tx_counter (g_session d) + 1)) channel
                 (g_msg_id (next_id d)) pt).

Lemma next_id_u16 d : is_u16 (g_msg_id (next_id d)).
Proof. apply wrap_in_w. lia. Qed.

Lemma sealed_dev_ok d : dev_ok d → dev_ok (sealed_dev d).
Proof.
  intros (Hs & Hd & _ & Ht). split; [apply session_with_tx_wf; [done|by apply wrap_in_w]|].
  split; [exact Hd|]. split; [apply next_id_u16|exact Ht].
Qed.

Lemma sealed_bytes_length channel pt d :
  dev_ok d → is_u8 channel → blen pt <= 216 → blen (sealed_bytes channel pt d) = 35 + blen pt.
Proof.
  intros (Hs & _) Hc Hp. unfold sealed_bytes.
  rewrite blen_frame_bytes by (apply sealed_frame_wf; [done|done|apply next_id_u16|done]).
  unfold sealed_frame. destruct (seal_text _ _ _ _ _). cbn [seal_header lf_length].
  unfold LINK_HEADER_LEN. lia.
Qed.

Lemma seal_append_fits channel pt d tx :
  dev_ok d → se_open (g_session d) = true → tx_ok tx → is_u8 channel → blen pt <= 216 →
  tx_used tx + 35 + blen pt <= tx_cap tx →
  ∃ tx', seal_append channel pt d tx = Some (0, sealed_dev d, tx') ∧ tx_grows tx tx' ∧
    tx_used tx' = tx_used tx + 35 + blen pt ∧ tx_out tx' = tx_out tx ++ sealed_bytes channel pt d.
Proof.
  intros Hd Ho Htx Hc Hp Hf. pose proof Hd as (Hs & _). unfold seal_append.
  pose proof (link_session_seal_ok (g_session d) channel (g_msg_id (next_id d)) pt
    (zeros LINK_MAX_FRAME) LINK_MAX_FRAME Hs Ho Hc (next_id_u16 d) Hp) as E.
  cbv zeta in E. change (g_session (next_id d)) with (g_session d).
  fold (sealed_bytes channel pt d) in E. rewrite E by (rewrite blen_zeros; unfold LINK_MAX_FRAME; link_consts; lia).
  cbn [mbind option_bind].
  pose proof (sealed_bytes_length channel pt d Hd Hc Hp) as Hl.
  destruct (tx_append_fits tx (sealed_bytes channel pt d)
    (drop (length (sealed_bytes channel pt d)) (zeros LINK_MAX_FRAME)) _ Htx eq_refl)
    as (tx' & -> & Hg & Hu & Ho'); [lia|].
  cbn [mbind option_bind]. exists tx'. split; [done|]. split; [done|]. split; [lia|done].
Qed.

Lemma seal_append_ok channel pt d tx :
  dev_ok d → tx_ok tx → is_u8 channel → blen pt <= 216 →
  ∃ rc d' tx', seal_append channel pt d tx = Some (rc, d', tx') ∧ dev_ok d' ∧ tx_grows tx tx' ∧
    g_tty d' = g_tty d.
Proof.
  intros Hd Htx Hc Hp. pose proof Hd as (Hs & Hdir & _ & Ht).
  destruct (se_open (g_session d)) eqn:Ho.
  - destruct (decide (tx_used tx + 35 + blen pt <= tx_cap tx)) as [Hf|Hf].
    { destruct (seal_append_fits channel pt d tx) as (tx' & E & Hg & _); [done..|].
      exists 0, (sealed_dev d), tx'. split; [done|]. split; [by apply sealed_dev_ok|done]. }
    unfold seal_append.
    pose proof (link_session_seal_ok (g_session d) channel (g_msg_id (next_id d)) pt
      (zeros LINK_MAX_FRAME) LINK_MAX_FRAME Hs Ho Hc (next_id_u16 d) Hp) as E.
    cbv zeta in E. change (g_session (next_id d)) with (g_session d).
    rewrite E by (rewrite blen_zeros; unfold LINK_MAX_FRAME; link_consts; lia).
    cbn [mbind option_bind]. fold (sealed_bytes channel pt d).
    destruct (tx_append_ok tx (sealed_bytes channel pt d ++ drop (length (sealed_bytes channel pt d))
      (zeros LINK_MAX_FRAME)) (blen (sealed_bytes channel pt d)) Htx) as (rc & tx' & -> & Hg & _).
    + rewrite blen_app. pose proof (blen_nonneg (drop (length (sealed_bytes channel pt d)) (zeros LINK_MAX_FRAME))). lia.
    + rewrite blen_app, (sealed_bytes_length channel pt d Hd Hc Hp). unfold blen at 2.
      rewrite length_drop. unfold zeros. rewrite length_replicate. unfold LINK_MAX_FRAME; link_consts. lia.
    + cbn [mbind option_bind]. eexists _, _, _. split; [done|]. split; [by apply sealed_dev_ok|done].
  - unfold seal_append. change (g_session (next_id d)) with (g_session d).
    rewrite seal_closed by done. cbn [mbind option_bind].
    destruct (tx_append_ok tx (zeros LINK_MAX_FRAME) (-1) Htx) as (rc & tx' & -> & Hg & _);
      [rewrite blen_zeros by done; by cbv|by vm_compute|].
    cbn [mbind option_bind]. eexists _, _, _. split; [done|]. split; [|done].
    split; [exact Hs|]. split; [exact Hdir|]. split; [exact (next_id_u16 d)|exact Ht].
Qed.
End Seal.

(** ** Hello *)

Section Hello.
Context `{Arch}.

Definition hello_fields (s : link_session_t) (sid : Z) : list (Z * list Z) :=
  [(LINK_TAG_VERSION, [LINK_VERSION]); (LINK_TAG_KEY_ID, [se_key_id s]);
   (LINK_TAG_SESSION, [lo8 sid; hi8 sid])].
Definition hello_frame (s : link_session_t) (sid mid : Z) : link_frame_t :=
  mk_frame LINK_VERSION 0 LINK_CH_HELLO mid 10 (tlv_bytes (hello_fields s sid) ++ zeros 230).

Lemma hello_frame_wf s sid mid : session_wf s → is_u16 mid → frame_wf (hello_frame s sid mid).
Proof.
  intros (_ & Hk & _) Hm. unfold frame_wf, hello_frame.
  cbn [lf_version lf_flags lf_channel lf_msg_id lf_length lf_payload].
  split_and!; [by cbv..|done|done|done|by cbv|done|].
  apply Forall_app. split; [|apply Forall_zeros].
  repeat (constructor; [first [by cbv|exact Hk|apply lo8_u8|apply hi8_u8]|]). constructor.
Qed.

#[local] Transparent link_session_encode_hello link_session_accept_hello.

Lemma encode_hello_ok s sid mid o cap :
  session_wf s → is_u16 mid → 21 <= cap <= blen o →
  let w := frame_bytes (hello_frame s sid mid) in
  link_session_encode_hello (Some s) sid mid (Some o) cap =
    Some (blen w, Some (w ++ drop (length w) o)).
Proof.
  intros Hs Hm Hc w. unfold link_session_encode_hello, link_tlv_put_u8, link_tlv_put_u16.
  set (f1 := tlv_field (LINK_TAG_VERSION, [LINK_VERSION])).
  set (f2 := tlv_field (LINK_TAG_KEY_ID, [se_key_id s])).
  set (f3 := tlv_field (LINK_TAG_SESSION, [lo8 sid; hi8 sid])).
  assert (link_tlv_put (Some (zeros LINK_MAX_PAYLOAD)) LINK_MAX_PAYLOAD (Some 0) LINK_TAG_VERSION
    (Some [LINK_VERSION]) 1 = Some (0, Some (f1 ++ zeros 237), Some 3)) as ->
    by exact (link_tlv_put_zeros [] 240 LINK_MAX_PAYLOAD LINK_TAG_VERSION [LINK_VERSION]
                eq_refl ltac:(done) ltac:(done) eq_refl).
  cbn [mbind option_bind c_true Z.eqb negb].
  assert (link_tlv_put (Some (f1 ++ zeros 237)) LINK_MAX_PAYLOAD (Some 3) LINK_TAG_KEY_ID
    (Some [se_key_id s]) 1 = Some (0, Some ((f1 ++ f2) ++ zeros 234), Some 6)) as ->
    by exact (link_tlv_put_zeros f1 237 LINK_MAX_PAYLOAD LINK_TAG_KEY_ID [se_key_id s]
                eq_refl ltac:(done) ltac:(done) eq_refl).
  cbn [mbind option_bind c_true Z.eqb negb].
  assert (link_tlv_put (Some ((f1 ++ f2) ++ zeros 234)) LINK_MAX_PAYLOAD (Some 6) LINK_TAG_SESSION
    (Some [lo8 sid; hi8 sid]) 2 = Some (0, Some (((f1 ++ f2) ++ f3) ++ zeros 230), Some 10)) as ->
    by exact (link_tlv_put_zeros (f1 ++ f2) 234 LINK_MAX_PAYLOAD LINK_TAG_SESSION [lo8 sid; hi8 sid]
                eq_refl ltac:(done) ltac:(done) eq_refl).
  cbn [mbind option_bind c_true Z.eqb negb].
  rewrite (link_frame_encode_ok (hello_frame s sid mid)); [done|by apply hello_frame_wf|].
  cbn [hello_frame lf_length]. link_consts. lia.
Qed.

(** What a session becomes by an accepted Hello. *)
Definition opened_session (s : link_session_t) (sid : Z) : link_session_t :=
  mk_session (se_key s) (se_key_id s) sid 0 0 (se_tx_dir s) true.

Lemma opened_wf s sid : session_wf s → is_u16 sid → session_wf (opened_session s sid).
Proof. by intros (?&?&?&?&?&?) ?. Qed.

(** On any frame: the device keeps its session or opens the one it is given. *)
Lemma accept_hello_safe s f sid :
  session_wf s → se_tx_dir s = LINK_DIR_DEVICE → frame_wf f →
  ∃ rc s', link_session_accept_hello (Some s) (Some f) sid = Some (rc, Some s') ∧
    (s' = s ∨ s' = opened_session s sid).
Proof.
  intros Hs Hdir (_&_&_&_&Hl&Hp&Hu). unfold link_session_accept_hello.
  destruct (_ || _); [by eauto 8|]. rewrite Hdir. unfold LINK_MAX_PAYLOAD in *.
  assert (∀ tag out ol, ∃ rc o l,
    link_tlv_get (Some (lf_payload f)) (lf_length f) tag (Some out) (blen out) (Some ol) =
      Some (rc, Some o, Some l) ∧ length o = length out) as Hget.
  { intros tag out ol.
    destruct (link_tlv_get_safe (lf_payload f) (lf_length f) tag out (blen out) ol)
      as (rc & o & l & -> & [(_ & -> & _)|(_ & E & _)]); [done|lia|lia|lia|by eauto 8..]. }
  destruct (Hget LINK_TAG_VERSION [0] 0) as (rc1 & o1 & l1 & E1 & L1). change (blen [0]) with 1 in E1.
  rewrite E1. cbn [mbind option_bind]. destruct o1 as [|v [|? ?]]; [done| |done].
  change (rd [v] 0) with (Some v). cbn [mbind option_bind]. destruct (_ || _); [by eauto 8|].
  destruct (Hget LINK_TAG_KEY_ID [0] l1) as (rc2 & o2 & l2 & E2 & L2). change (blen [0]) with 1 in E2.
  rewrite E2. cbn [mbind option_bind]. destruct o2 as [|k [|? ?]]; [done| |done].
  change (rd [k] 0) with (Some k). cbn [mbind option_bind]. destruct (_ || _); [by eauto 8|].
  destruct (Hget LINK_TAG_SESSION [0; 0] l2) as (rc3 & o3 & l3 & E3 & L3). change (blen [0; 0]) with 2 in E3.
  rewrite E3. cbn [mbind option_bind]. destruct o3 as [|r0 [|r1 [|? ?]]]; [done|done| |done].
  change (rd [r0; r1] 0) with (Some r0). change (rd [r0; r1] 1) with (Some r1).
  cbn [mbind option_bind]. destruct (_ || _); [by eauto 8|]. rewrite Z.eqb_refl.
  exists 0. eexists. split; [done|]. right. unfold opened_session. by rewrite Hdir.
Qed.
End Hello.

(** ** Replies are short *)

Section Replies.
Context {U : Type}.

Definition short_reply (ans : Z * list (Z * list Z)) : Prop :=
  is_u8 ans.1 ∧ blen (tlv_bytes ans.2) <= 37 ∧ Forall is_u8 (tlv_bytes ans.2).

Lemma short_reply_ok : short_reply reply_ok.
Proof. split; [by cbv|]. split; [by vm_compute|]. apply (bool_decide_unpack _). by vm_compute. Qed.

Lemma error_fields code text :
  Forall is_u8 text → blen text <= 31 →
  let b := tlv_bytes [(LINK_TAG_CODE, [lo8 code; hi8 code]); (LINK_TAG_ERRMSG, text)] in
  blen b = 6 + blen text ∧ Forall is_u8 b.
Proof.
  intros Ht Hl b. pose proof (blen_nonneg text).
  change b with (LINK_TAG_CODE :: 2 :: lo8 code :: hi8 code :: LINK_TAG_ERRMSG :: blen text :: text ++ []).
  rewrite app_nil_r, !blen_cons. split; [lia|]. do 2 (constructor; [by cbv|]).
  constructor; [apply lo8_u8|]. constructor; [apply hi8_u8|]. constructor; [by cbv|].
  constructor; [|done]. unfold in_w. lia.
Qed.

Lemma short_reply_error code text :
  Forall is_u8 text → blen text <= 31 → short_reply (reply_error code text).
Proof.
  intros Ht Hl. split; [by cbv|]. destruct (error_fields code text Ht Hl) as [Hb Hu].
  split; [cbn [reply_error snd]; lia|exact Hu].
Qed.

Lemma c_str_u8 s : Forall is_u8 s → Forall is_u8 (c_str s).
Proof.
  induction 1 as [|c s Hc Hs IH]; [done|]. cbn. destruct (c =? 0); [done|by constructor].
Qed.

Lemma tlv_parse_u8 fuel b : Forall is_u8 b → Forall (λ e, Forall is_u8 e.2) (tlv_parse fuel b).
Proof.
  revert b. induction fuel as [|fuel IH]; intros b Hb; [done|]. destruct b as [|t [|n r]]; [done..|].
  apply Forall_cons_1 in Hb as [_ [_ Hr]%Forall_cons_1]. cbn [tlv_parse]. destruct (_ <? _); [done|].
  constructor; [by apply Forall_take|by apply IH, Forall_drop].
Qed.

Lemma str_field_short tag cap es s :
  0 < cap → Forall (λ e, Forall is_u8 e.2) es → str_field tag cap es = Some s →
  blen s < cap ∧ Forall is_u8 s.
Proof.
  intros Hc Hes. unfold str_field. destruct (tlv_lookup tag es) as [v|] eqn:El; [|done]. cbn [mbind option_bind].
  assert (Forall is_u8 v) as Hv.
  { induction Hes as [|[t w] es Hw Hes IH]; [done|]. cbn [tlv_lookup] in El.
    destruct (t =? tag); [by injection El as <-|by apply IH]. }
  destruct (160 <? blen v); [done|]. intros [= <-].
  pose proof (c_str_length (take (Z.to_nat (cap - 1)) v)).
  assert (blen (take (Z.to_nat (cap - 1)) v) <= cap - 1) by (unfold blen; rewrite length_take; lia).
  split; [lia|]. by apply c_str_u8, Forall_take.
Qed.

Lemma nonempty_some s t : nonempty s = Some t → s = Some t.
Proof. by destruct s as [[|]|]. Qed.

Ltac short_text := apply short_reply_error; [apply (bool_decide_unpack _); by vm_compute|by vm_compute].

Lemma spec_call_short (hs : link_handlers_t U) es u :
  Forall (λ e, Forall is_u8 e.2) es → short_reply (spec_call hs es u).1.
Proof.
  intros Hes.
  assert (∀ app rc, Forall is_u8 app → blen app <= 31 → short_reply (app_reply app rc)) as Happ.
  { intros app rc Hu Ha. unfold app_reply. destruct (c_true rc); [by apply short_reply_error|apply short_reply_ok]. }
  unfold spec_call. destruct (u8_field _ _) as [m|]; [|short_text].
  destruct (m =? LINK_METHOD_NOTIFY).
  { unfold spec_notify. destruct (lh_notify hs) as [f|]; [|short_text].
    destruct (nonempty _); [|short_text]. destruct (f _ _ _ _ u) as [rc v].
    destruct (c_true rc); [short_text|apply short_reply_ok]. }
  destruct (_ || _).
  { unfold spec_app. destruct (nonempty (str_field LINK_TAG_APP 32 es)) as [app|] eqn:Ea; [|short_text].
    apply nonempty_some, str_field_short in Ea as [Hl Hu]; [|done|done].
    assert (blen app <= 31) as Hl' by lia.
    destruct (nonempty _) as [text|]; [|short_text].
    destruct (m =? LINK_METHOD_MESSAGE).
    - destruct (lh_message hs) as [f|]; [|short_text].
      destruct (f app text u) as [rc v]. by apply Happ.
    - destruct (lh_event hs) as [f|]; [|short_text]. cbv zeta.
      destruct (f app text _ _ u) as [rc v]. by apply Happ. }
  destruct (m =? LINK_METHOD_KEY); [|short_text].
  unfold spec_key. destruct (lh_key hs) as [f|]; [|short_text].
  destruct (nonempty _) as [text|]; [|short_text].
  destruct (f text _ u) as [rc v]. destruct (c_true rc); [short_text|apply short_reply_ok].
Qed.
End Replies.

(** ** The device's steps are safe *)

Section Safe.
Context {U D F C : Type} `{Arch} `{BridgeServices (bridge_env U)} `{Shell (bridge_env U) D F}.
Abbreviation env := (bridge_env U).
Abbreviation tty := (@tty_state env C).
Abbreviation dev := (@link_dev U C).
Context `{CC : !CliCode (W := env) (C := C)}.
Implicit Types (d : dev).

(** A step returns, keeps the device well formed, and only appends to the output. *)
Definition steps (m : option (Z * dev * link_tx_t)) (tx : link_tx_t) : Prop :=
  ∃ rc d' tx', m = Some (rc, d', tx') ∧ dev_ok d' ∧ tx_grows tx tx'.

Lemma steps_ret rc d tx : dev_ok d → tx_ok tx → steps (Some (rc, d, tx)) tx.
Proof. intros. exists rc, d, tx. split; [done|]. split; [done|by apply tx_grows_refl]. Qed.

Lemma steps_via tx tx1 m : tx_grows tx tx1 → steps m tx1 → steps m tx.
Proof. intros Hg (rc & d & tx' & -> & Hd & Hg'). exists rc, d, tx'. eauto using tx_grows_trans. Qed.

Lemma with_tty_ok t d : dev_ok d → tty_wf t → dev_ok (with_tty t d).
Proof. by intros (Hs & Hdir & Hm & _) Ht. Qed.

Lemma with_session_ok s d :
  dev_ok d → session_wf s → se_tx_dir s = LINK_DIR_DEVICE → dev_ok (with_session s d).
Proof. by intros (_ & _ & Hm & Ht) Hs Hd. Qed.

Lemma seal_tty_ok fuel d tx :
  dev_ok d → tx_ok tx → (Z.to_nat (g_out_len (g_tty d)) < fuel)%nat → steps (seal_tty fuel d tx) tx.
Proof.
  revert d tx. induction fuel as [|fuel IH]; intros d tx Hd Htx Hf; [lia|]. cbn [seal_tty].
  destruct (_ && _); [|by apply steps_ret].
  pose proof Hd as (_ & _ & _ & Ht).
  destruct (tty_read_spec 200 (g_tty d) Ht) as (t' & E & Hw & Hp & _); [done|]. cbv zeta in E.
  rewrite E. cbn [mbind option_bind]. set (b := take (Z.to_nat 200) (pending (g_tty d))) in *.
  assert (blen b <= 200) as Hb by (unfold b, blen; rewrite length_take; lia).
  destruct (blen b <=? 0) eqn:E0; bool_hyps; [apply steps_ret; [by apply with_tty_ok|done]|].
  destruct (seal_append_ok LINK_CH_TTY b (with_tty t' d) tx) as (rc & d' & tx' & -> & Hd' & Hg & Et);
    [by apply with_tty_ok|done|by cbv|lia|]. cbn [mbind option_bind].
  apply (steps_via tx tx'); [done|]. destruct (c_true rc); [apply steps_ret; [done|apply Hg]|].
  apply IH; [done|apply Hg|]. rewrite Et. change (g_tty (with_tty t' d)) with t'.
  rewrite <- (tty_pending_length t' (proj2 Hw)), Hp. rewrite <- (tty_pending_length _ (proj2 Ht)) in Hf.
  unfold b, blen in *. rewrite length_take in E0. rewrite length_drop. lia.
Qed.

Lemma flush_tty_ok d tx : dev_ok d → tx_ok tx → steps (flush_tty d tx) tx.
Proof. intros. by apply seal_tty_ok; [..|lia]. Qed.

Lemma steps_grow (m : option (Z * dev * link_tx_t)) tx tx1 :
  steps m tx1 → tx_grows tx tx1 → steps m tx.
Proof. intros. by eapply steps_via. Qed.

Lemma next_id_ok d : dev_ok d → dev_ok (next_id d).
Proof. intros (Hs & Hd & _ & Ht). split; [exact Hs|]. split; [exact Hd|]. split; [apply next_id_u16|exact Ht]. Qed.

(** The frame of an error reply. *)
Definition error_frame (code : Z) (text : list Z) (mid : Z) : link_frame_t :=
  let es := [(LINK_TAG_CODE, [lo8 code; hi8 code]); (LINK_TAG_ERRMSG, text)] in
  mk_frame LINK_VERSION LINK_FLAG_ERROR LINK_CH_ERROR mid (blen (tlv_bytes es))
    (tlv_bytes es ++ zeros (LINK_MAX_PAYLOAD - blen (tlv_bytes es))).

Lemma error_frame_wf code text mid :
  is_u16 mid → Forall is_u8 text → blen text <= 31 → frame_wf (error_frame code text mid).
Proof.
  intros Hm Ht Hl. pose proof (blen_nonneg text). unfold error_frame.
  destruct (error_fields code text Ht Hl) as [Hb Hu].
  unfold frame_wf. cbn [lf_version lf_flags lf_channel lf_msg_id lf_length lf_payload].
  split_and!; [by cbv..|done|lia|unfold LINK_MAX_PAYLOAD; lia| |].
  - rewrite blen_app, blen_zeros by (unfold LINK_MAX_PAYLOAD; lia). unfold LINK_MAX_PAYLOAD. lia.
  - apply Forall_app. split; [exact Hu|apply Forall_zeros].
Qed.

Lemma send_frame_ok f tx :
  frame_wf f → tx_ok tx → ∃ rc tx', send_frame tx f = Some (rc, tx') ∧ tx_grows tx tx' ∧ (rc = 0 ∨ rc = -1).
Proof.
  intros Hf Htx. pose proof Hf as (_&_&_&_&Hl&_&_). pose proof (blen_frame_bytes f Hf) as Hb.
  unfold LINK_MAX_PAYLOAD in *. unfold send_frame.
  rewrite link_frame_encode_ok by (done || (rewrite ?blen_zeros; link_consts; lia)).
  cbn [mbind option_bind]. apply tx_append_ok; [done|rewrite blen_app; pose proof (blen_nonneg (drop (length (frame_bytes f)) (zeros LINK_MAX_FRAME))); lia|].
  rewrite blen_app, Hb. unfold blen at 1. rewrite length_drop. unfold zeros. rewrite length_replicate.
  link_consts. lia.
Qed.

Lemma send_error_ok code text d tx :
  Forall is_u8 text → blen text <= 31 → dev_ok d → tx_ok tx → steps (send_error tx code text d) tx.
Proof.
  intros Ht Hl Hd Htx. pose proof (blen_nonneg text). unfold send_error, link_tlv_put_u16, link_tlv_put_str.
  cbv zeta. cbn [default from_option id].
  assert (link_tlv_put (Some (zeros LINK_MAX_PAYLOAD)) LINK_MAX_PAYLOAD (Some 0) LINK_TAG_CODE
    (Some [lo8 code; hi8 code]) 2 = Some (0, Some (tlv_field (LINK_TAG_CODE, [lo8 code; hi8 code]) ++ zeros 236), Some 4)) as ->
    by exact (link_tlv_put_zeros [] 240 LINK_MAX_PAYLOAD LINK_TAG_CODE [lo8 code; hi8 code]
                eq_refl ltac:(done) ltac:(done) eq_refl).
  cbn [mbind option_bind c_true Z.eqb negb]. zbool. rewrite (wrap_id 8) by (unfold in_w; lia).
  pose proof (link_tlv_put_zeros (tlv_field (LINK_TAG_CODE, [lo8 code; hi8 code])) 236 LINK_MAX_PAYLOAD
    LINK_TAG_ERRMSG text) as E. change (blen (tlv_field _)) with 4 in E. rewrite E by (link_consts; lia). clear E.
  cbn [mbind option_bind c_true Z.eqb negb].
  pose proof (error_frame_wf code text (g_msg_id (next_id d)) (next_id_u16 d) Ht Hl) as Hf.
  destruct (send_frame_ok _ tx Hf Htx) as (rc & tx' & E & Hg & _). unfold error_frame in E.
  set (es := [_; _]) in E.
  assert (blen (tlv_bytes es) = 4 + 2 + blen text) as Hb
    by exact (proj1 (error_fields code text Ht Hl)).
  rewrite Hb in E. rewrite (wrap_id 16) by (unfold in_w; lia).
  replace (tlv_field (LINK_TAG_CODE, [lo8 code; hi8 code]) ++ tlv_field (LINK_TAG_ERRMSG, text))
    with (tlv_bytes es) by (unfold es, tlv_bytes; cbn [fmap list_fmap concat]; by rewrite app_nil_r).
  replace (236 - 2 - blen text) with (LINK_MAX_PAYLOAD - (4 + 2 + blen text)) by (unfold LINK_MAX_PAYLOAD; lia).
  rewrite E. cbn [mbind option_bind]. exists rc, (next_id d), tx'. split; [done|].
  split; [by apply next_id_ok|done].
Qed.

Lemma wire_hello_ok f d tx : frame_wf f → dev_ok d → tx_ok tx → steps (wire_hello f d tx) tx.
Proof.
  intros Hf Hd Htx. pose proof Hd as (Hs & Hdir & Hm & Ht). unfold wire_hello.
  destruct (accept_hello_safe (g_session d) f 1 Hs Hdir Hf) as (rc & s & -> & Hs').
  cbn [mbind option_bind].
  assert (session_wf s ∧ se_tx_dir s = LINK_DIR_DEVICE) as [Hw Hd'].
  { destruct Hs' as [->| ->]; [done|]. split; [by apply opened_wf|done]. }
  pose proof (with_session_ok s d Hd Hw Hd') as Hd1.
  destruct (c_true rc).
  { apply send_error_ok; [|by vm_compute|done|done]. apply (bool_decide_unpack _); by vm_compute. }
  cbv zeta. set (d1 := next_id (with_session s d)).
  assert (dev_ok d1) as Hd2 by by apply next_id_ok.
  pose proof (encode_hello_ok s (se_session s) (g_msg_id d1) (zeros LINK_MAX_FRAME) LINK_MAX_FRAME Hw (next_id_u16 _)) as E.
  cbv zeta in E. rewrite E by (rewrite blen_zeros; link_consts; lia). cbn [mbind option_bind]. clear E.
  pose proof (hello_frame_wf s (se_session s) (g_msg_id d1) Hw (next_id_u16 _)) as Hhf.
  pose proof (blen_frame_bytes _ Hhf) as Hb. cbn [hello_frame lf_length] in Hb.
  set (fb := frame_bytes _) in *.
  destruct (tx_append_ok tx (fb ++ drop (length fb) (zeros LINK_MAX_FRAME)) (blen fb) Htx) as (rc' & tx1 & -> & Hg & _).
  { rewrite blen_app. pose proof (blen_nonneg (drop (length fb) (zeros LINK_MAX_FRAME))). lia. }
  { rewrite blen_app, Hb. unfold blen at 1. rewrite length_drop. unfold zeros. rewrite length_replicate. link_consts. lia. }
  cbn [mbind option_bind]. apply (steps_via tx tx1); [done|].
  destruct (c_true rc'); [apply steps_ret; [done|apply Hg]|].
  destruct (tty_open_ok (g_tty d1) (g_tty d1)) as (t & -> & Ht'); [by apply grows_refl, Hd2|].
  cbn [mbind option_bind]. apply flush_tty_ok; [|apply Hg]. apply with_tty_ok; [done|apply Ht'].
Qed.

(** What a reply array holds is what was written. *)
Lemma replied_bytes r ans :
  replied r ans → rd_bytes (rp_buf r) 0 (rp_len r) = Some (tlv_bytes ans.2).
Proof.
  intros (_ & Hl & He & Hn). rewrite rd_bytes_ok by lia. by rewrite drop_0, He.
Qed.

(** A call is the dispatcher's reference reply, sealed. *)
Lemma wire_call_spec b d tx :
  Forall is_u8 b → blen b < 2 ^ 31 →
  let '(ans, e) := spec_call bridge_handlers (tlv_fields b) (world (g_tty d)) in
  wire_call b d tx =
    seal_append ans.1 (tlv_bytes ans.2) (with_tty (with_world e (g_tty d)) d) tx.
Proof.
  intros Hb Hl. destruct (spec_call _ _ _) as [ans e] eqn:E. unfold wire_call.
  destruct (link_dispatch_ok bridge_handlers b (mk_reply (zeros LINK_MAX_PAYLOAD) 0 0) LINK_MAX_PAYLOAD
    (world (g_tty d)) Hb Hl)
    as (r & -> & Hr); [by cbn; cbv|by cbv|].
  rewrite E in Hr |- *. cbn [mbind option_bind fst snd c_true Z.eqb negb] in Hr |- *.
  rewrite (replied_bytes r ans Hr). cbn [mbind option_bind]. by rewrite (proj1 Hr).
Qed.

Lemma with_world_ok e d : dev_ok d → dev_ok (with_tty (with_world e (g_tty d)) d).
Proof. intros Hd. apply with_tty_ok; [done|]. pose proof Hd as (_&_&_&Ht). exact (grows_wf _ _ (grows_world e _ _ (grows_refl _ Ht))). Qed.

Lemma wire_call_ok b d tx :
  Forall is_u8 b → blen b < 2 ^ 31 → dev_ok d → tx_ok tx → steps (wire_call b d tx) tx.
Proof.
  intros Hb Hl Hd Htx. pose proof (wire_call_spec b d tx Hb Hl) as E.
  pose proof (spec_call_short bridge_handlers (tlv_fields b) (world (g_tty d)) (tlv_parse_u8 _ b Hb)) as (Hc & Hs & _).
  destruct (spec_call _ _ _) as [ans e]. cbn [fst] in Hc, Hs. rewrite E.
  destruct (seal_append_ok ans.1 (tlv_bytes ans.2) (with_tty (with_world e (g_tty d)) d) tx)
    as (rc & d' & tx' & -> & Hd' & Hg & _); [by apply with_world_ok|done|done|lia|].
  exists rc, d', tx'. done.
Qed.

(** ** Any bytes *)

Hypothesis obeys : cli_obeys (W := env) (C := C).

Lemma tty_input_ok data (t : tty) :
  Forall is_u8 data → tty_wf t →
  ∃ t', tty_service_input (Some data) (blen data) t = Some t' ∧ tty_wf t'.
Proof.
  intros Hd Ht. rewrite tty_service_input_loop.
  destruct (input_loop_ok obeys data t t Hd (grows_refl t Ht)) as (t' & E & Hg).
  exists t'. split; [exact E|apply Hg].
Qed.

Lemma on_wire_ok raw d tx :
  Forall is_u8 raw → dev_ok d → tx_ok tx → steps (on_wire raw (blen raw) d tx) tx.
Proof.
  intros Hr Hd Htx. pose proof Hd as (Hs & Hdir & Hm & Ht). unfold on_wire.
  destruct (link_frame_decode_safe raw (blen raw) frame_zero Hr) as (res & -> & Hres); [lia|].
  destruct Hres as [->|(f & -> & Hf & Hlen)]; cbn [mbind option_bind]; [by apply steps_ret|].
  pose proof Hf as (_&_&_&_&Hl&Hp&Hu). unfold LINK_MAX_PAYLOAD in Hl, Hp.
  replace (LINK_HEADER_LEN + lf_length f + 2 <? 0) with false by (symmetry; apply Z.ltb_ge; link_consts; lia).
  destruct (_ && _); [by apply wire_hello_ok|].
  destruct (negb (se_open (g_session d))); [by apply steps_ret|].
  destruct (link_session_open_spec (g_session d) f frame_zero Hs Hf) as (rc & s & p & -> & Hop).
  cbn [mbind option_bind]. destruct Hop as [[-> ->]|(-> & Hpw & c & _ & _ & Hc & ->)].
  { change (c_true (-1)) with true. cbv iota. apply steps_ret; [by apply with_session_ok|done]. }
  change (c_true 0) with false. cbv iota.
  assert (dev_ok (with_session (session_with_rx (g_session d) c) d)) as Hd1.
  { apply with_session_ok; [done|by apply session_with_rx_wf|done]. }
  set (d1 := with_session _ d) in *.
  pose proof Hpw as (_&_&_&_&Hpl&Hpp&Hpu). unfold LINK_MAX_PAYLOAD in Hpl, Hpp.
  rewrite rd_bytes_ok by lia. cbn [mbind option_bind]. set (b := take _ _).
  assert (Forall is_u8 b) as Hb by (by apply Forall_take, Forall_drop).
  assert (blen b = lf_length p) as Hbl.
  { unfold b, blen in *. rewrite length_take, length_drop. lia. }
  destruct (lf_channel p =? LINK_CH_TTY).
  { rewrite <- Hbl. destruct (tty_input_ok b (g_tty d1) Hb) as (t & -> & Ht'); [apply Hd1|].
    cbn [mbind option_bind]. apply flush_tty_ok; [by apply with_tty_ok|done]. }
  destruct (negb _); [by apply steps_ret|]. apply wire_call_ok; [done|lia|done|done].
Qed.

Definition bridge_ok (b : @link_bridge U C) : Prop := stream_wf (g_stream b) ∧ dev_ok (g_dev b).

(** The device and the transmit buffer behind the stream's callback. *)
Definition going (tx : link_tx_t) (u : option (dev * link_tx_t)) : Prop :=
  ∃ d tx', u = Some (d, tx') ∧ dev_ok d ∧ tx_grows tx tx'.

Lemma wire_frame_going tx raw u :
  Forall is_u8 raw → going tx u → going tx (wire_frame raw u).1.
Proof.
  intros Hr (d & tx1 & -> & Hd & Hg). unfold wire_frame.
  destruct (on_wire_ok raw d tx1 Hr Hd) as (rc & d' & tx' & -> & Hd' & Hg'); [apply Hg|].
  exists d', tx'. split; [done|]. split; [done|by eapply tx_grows_trans].
Qed.

Lemma tx_start buf cap : 0 <= cap <= blen buf → cap < 2 ^ 31 → tx_ok (mk_tx buf cap 0).
Proof. intros. unfold tx_ok. cbn. lia. Qed.

Lemma tx_done tx tx' : tx_grows tx tx' → 0 <= tx_used tx' <= tx_cap tx ∧ to_i32 (u32 (tx_used tx')) = tx_used tx'.
Proof. intros ((Hu & Hc & H31) & E & _). rewrite E in *. split; [done|]. rewrite wrap_id by (unfold in_w; lia). unfold to_i32. by zbool. Qed.

Lemma bridge_rx_ok data tx cap (b : @link_bridge U C) :
  bridge_ok b → Forall is_u8 data → 0 <= cap <= blen tx → cap < 2 ^ 31 →
  ∃ r tx' b', link_bridge_rx (Some data) (blen data) (Some tx) cap b = Some (r, Some tx', b') ∧
    bridge_ok b' ∧ blen tx' = blen tx ∧ (r = -1 ∨ 0 <= r <= cap).
Proof.
  intros [Hst Hd] Hdata Hcap H31. pose proof (tx_start tx cap Hcap H31) as Htx.
  unfold link_bridge_rx. rewrite bool_decide_true by (by eexists). cbn [negb andb default from_option id].
  destruct (link_stream_push_ok wire_frame (g_stream b) data (Some (g_dev b, mk_tx tx cap 0)) Hst Hdata)
    as (st1 & rc & st & u & E1 & -> & Hst' & P). cbn [mbind option_bind].
  destruct (stream_append_wf data (g_stream b) Hst Hdata) as (st1' & E1' & Hst1).
  assert (st1' = st1) as -> by congruence.
  destruct (parse_keeps wire_frame (going (mk_tx tx cap 0)) _ _ _ _ _ _
    (λ fr u Hfr _ Hu, wire_frame_going _ fr u Hfr Hu) (contents_u8 st1 Hst1)
    ltac:(eexists _, _; split; [done|split; [exact Hd|by apply tx_grows_refl]]) P)
    as [(d & tx' & -> & Hd' & Hg) _].
  cbn [mbind option_bind]. eexists _, _, _. split; [done|]. split; [by split|].
  destruct (tx_done _ _ Hg) as [Hu ->]. destruct Hg as (_ & _ & El & _). cbn [tx_buf tx_cap] in *.
  split; [unfold blen; by rewrite El|]. destruct (c_true rc); [by left|by right].
Qed.

Lemma bridge_poll_ok now tx cap (b : @link_bridge U C) :
  bridge_ok b → 0 <= cap <= blen tx → cap < 2 ^ 31 →
  ∃ r tx' b', link_bridge_poll now (Some tx) cap b = Some (r, Some tx', b') ∧
    bridge_ok b' ∧ blen tx' = blen tx ∧ (r = -1 ∨ 0 <= r <= cap).
Proof.
  intros [Hst Hd] Hcap H31. unfold link_bridge_poll.
  destruct (negb _); [exists 0, tx, b; split_and!; [done|done|done|right; lia]|].
  pose proof Hd as (_&_&_&Ht).
  destruct (tty_poll_ok now (g_tty (g_dev b)) _ (grows_refl _ Ht)) as (t & -> & Hg). cbn [mbind option_bind].
  destruct (flush_tty_ok (with_tty t (g_dev b)) (mk_tx tx cap 0)) as (rc & d & tx' & -> & Hd' & Hg');
    [apply with_tty_ok; [done|apply Hg]|by apply tx_start|].
  cbn [mbind option_bind]. eexists _, _, _. split; [done|]. split; [by split|].
  destruct (tx_done _ _ Hg') as [Hu ->]. destruct Hg' as (_ & _ & El & _). cbn [tx_buf tx_cap] in *.
  split; [unfold blen; by rewrite El|]. destruct (c_true rc); [by left|by right].
Qed.
End Safe.

(** ** Start *)

Section Start.
Context {U D F C : Type} `{Arch} `{BridgeServices (bridge_env U)} `{Shell (bridge_env U) D F}.
Abbreviation env := (bridge_env U).
Abbreviation tty := (@tty_state env C).
Context `{CC : !CliCode (W := env) (C := C)}.

(** The shell after [link_bridge_init]. *)
Definition fresh_tty (t : tty) : tty :=
  tty_service_bind (Some bridge_handlers)
    (tty_service_reset (with_world (mk_env empty_msgs (rest (world t))) t)).

Definition fresh_bridge (key : list Z) (key_id : Z) (b : @link_bridge U C) : @link_bridge U C :=
  mk_bridge (mk_stream (zeros LINK_MAX_FRAME) 0)
    (mk_dev (mk_session key key_id 0 0 0 LINK_DIR_DEVICE false) 0 (fresh_tty (g_tty (g_dev b)))).

Lemma bridge_init_ok key key_id (b : @link_bridge U C) :
  LinkCrypto.block 16 key → is_u8 key_id → blen (g_out (g_tty (g_dev b))) = TTY_OUT →
  link_bridge_init (Some key) key_id b = Some (fresh_bridge key key_id b) ∧
  bridge_ok (fresh_bridge key key_id b).
Proof.
  intros Hk Hi Hb. unfold link_bridge_init, link_session_init.
  assert (blen key = 16) as Hl by (unfold blen; by rewrite (proj1 Hk)).
  rewrite rd_bytes_all by done. cbn [mbind option_bind]. split; [done|].
  split; [apply empty_stream_wf|]. split; [|split; [done|split; [by cbv|]]].
  - split; [exact Hk|]. by split_and!.
  - exact (grows_wf _ _ (grows_same _ (tty_service_reset (g_tty (g_dev b))) _
      (grows_refl _ (tty_reset_wf _ Hb)) eq_refl eq_refl eq_refl eq_refl)).
Qed.

(** ** Theorem *)

(** C9: Whatever bytes arrive, forged, damaged or replayed, and whatever the device's
    own applications print: after [link_bridge_init] every call of [link_bridge_rx] and
    [link_bridge_poll] returns, reports -1 or a number of bytes within the transmit
    buffer it was given, and leaves session, stream and shell well formed for the next. *)
Theorem link_bridge_safe (b : @link_bridge U C) :
  cli_obeys (W := env) (C := C) →
  (∀ key key_id, LinkCrypto.block 16 key → is_u8 key_id → blen (g_out (g_tty (g_dev b))) = TTY_OUT →
    ∃ b', link_bridge_init (Some key) key_id b = Some b' ∧ bridge_ok b') ∧
  (bridge_ok b → ∀ data tx cap, Forall is_u8 data → 0 <= cap <= blen tx → cap < 2 ^ 31 →
    ∃ r tx' b', link_bridge_rx (Some data) (blen data) (Some tx) cap b = Some (r, Some tx', b') ∧
      bridge_ok b' ∧ blen tx' = blen tx ∧ (r = -1 ∨ 0 <= r <= cap)) ∧
  (bridge_ok b → ∀ now tx cap, 0 <= cap <= blen tx → cap < 2 ^ 31 →
    ∃ r tx' b', link_bridge_poll now (Some tx) cap b = Some (r, Some tx', b') ∧
      bridge_ok b' ∧ blen tx' = blen tx ∧ (r = -1 ∨ 0 <= r <= cap)).
Proof.
  intros Hc. split; [|split].
  - intros key key_id Hk Hi Hb. eexists. by apply bridge_init_ok.
  - intros Hb data tx cap Hd Hcap H31. by apply bridge_rx_ok.
  - intros Hb now tx cap Hcap H31. by apply bridge_poll_ok.
Qed.
End Start.

(** ** Runs *)

Module BridgeRuns.
#[local] Existing Instance arch32.

(** A system with two applications, where keys and published topics are logged. *)
Record toy := mk_toy { keys : list (Z * bool); topics : list (list Z) }.
Abbreviation toy_env := (bridge_env toy).

Definition log_key (key : Z) (pressed : bool) (e : toy_env) : toy_env :=
  mk_env (g_msgs e) (mk_toy (keys (rest e) ++ [(key, pressed)]) (topics (rest e))).
Definition log_topic (topic : list Z) (e : toy_env) : toy_env :=
  mk_env (g_msgs e) (mk_toy (keys (rest e)) (topics (rest e) ++ [topic])).

#[export] Instance toy_services : BridgeServices toy_env := {|
  notify_post title _ _ _ e := (0, log_topic title e);
  os_event_publish topic _ _ e := (0, log_topic topic e)
|}.

#[export] Program Instance toy_shell : Shell toy_env unit unit := {|
  task_slots _ := [(str "main", 1, 0)];
  app_list _ := Some [(str "clock", APP_STATE_RUNNING)];
  app_kit_foreground_name _ := Some (str "clock");
  app_kit_switch name e := (if str_eq name (str "clock") then 0 else -1, e);
  app_find name _ := str_eq name (str "clock");
  app_state _ _ := APP_STATE_RUNNING;
  app_kit_request_stop _ e := (-1, e);
  app_resume _ e := (0, e);
  app_stop _ e := (0, e);
  sim_gpio_handle_key := log_key;
  sensor_service_count _ := 0;
  sensor_service_key _ _ := None;
  sensor_get _ e := (-1, 0, e);
  device_info_query _ := None;
  os_clock_now _ := 1700000000;
  os_clock_set _ e := (0, e);
  clock_service_set _ e := (0, e);
  os_get_free_heap _ := 4096;
  os_get_min_free_heap _ := 1024;
  time_now_ms _ := 0;
  vfs_opendir _ e := (Some tt, e);
  vfs_readdir _ e := (None, e);
  vfs_closedir _ e := e;
  vfs_open _ e := (None, e);
  vfs_read _ _ e := (0, [], e);
  vfs_close _ e := e;
  dir_left _ _ := 0%nat;
  file_left _ _ := 0%nat
|}.
Next Obligation. done. Qed.
Next Obligation. intros ? ? ? ? ? ? [= <- <- <-]. done. Qed.
Next Obligation. intros ? ? ? ? ? ? [= <- <- <-]. done. Qed.

(** No application registers commands. *)
#[export] Instance toy_code : CliCode (W := toy_env) (C := Empty_set) := λ c _ _, match c with end.

Lemma toy_obeys : cli_obeys (W := toy_env) (C := Empty_set).
Proof. intros []. Qed.

(** Power on: zeroed statics. *)
Definition powered_on : @link_bridge toy Empty_set :=
  mk_bridge (mk_stream (zeros LINK_MAX_FRAME) 0)
    (mk_dev (mk_session (zeros 16) 0 0 0 0 0 false) 0
       (mk_tty (zeros 128) 0 (zeros 2048) 0 0 0 false false 0 None None []
          (mk_env empty_msgs (mk_toy [] [])))).

Definition toy_key : list Z := [0; 17; 34; 51; 68; 85; 102; 119; 136; 153; 170; 187; 204; 221; 238; 255].

Lemma link_bridge_safe_witness :
  (∃ b', link_bridge_init (Some toy_key) 1 powered_on = Some b' ∧ bridge_ok b') ∧
  (∃ r tx' b', link_bridge_rx (Some [7; 171; 1; 0; 0]) 5 (Some (zeros 64)) 64 (fresh_bridge toy_key 1 powered_on) =
      Some (r, Some tx', b') ∧ bridge_ok b' ∧ blen tx' = 64 ∧ (r = -1 ∨ 0 <= r <= 64)).
Proof.
  destruct (link_bridge_safe powered_on toy_obeys) as (Hi & _ & _).
  assert (LinkCrypto.block 16 toy_key) as Hk by (apply (bool_decide_unpack _); by vm_compute).
  split; [by apply Hi|].
  destruct (link_bridge_safe (fresh_bridge toy_key 1 powered_on) toy_obeys) as (_ & Hr & _).
  apply (Hr (proj2 (bridge_init_ok toy_key 1 powered_on Hk ltac:(done) ltac:(done))) [7; 171; 1; 0; 0] (zeros 64) 64); vm_decide.
Defined.
End BridgeRuns.
