(* ===== verification/LinkTalk.v ===== *)
(** * A conversation over the link

    The host (as the unit tests drive it, with the same session code) and the device's
    bridge, from the first Hello on: what the host reads back from the bytes of the
    bridge is the reference reply of every call and the output of the shell, message by
    message. *)

From Stdlib Require Import ZArith Lia String.
From stdpp Require Import base tactics option numbers list.
From S2P Require Import Prelude.
From S2P Require Import CString.
From S2P Require Import Layout.
From S2P Require Import LinkFrame.
From S2P Require Import LinkStream.
From S2P Require Import LinkSession.
From S2P Require Import LinkDispatch.
From S2P Require Import TtyService.
From S2P Require Import TtyThm.
From S2P Require Import LinkBridge.
From S2P Require Import LinkBridgeThm.

#[local] Opaque link_session_seal link_session_open link_session_accept_hello
  link_session_encode_hello link_frame_decode link_frame_encode link_dispatch_call.

(** What the host does: call, type on the terminal, or let the device's main loop run. *)
Inductive host_op := Call (args : list Z) | Typed (keys : list Z) | Refresh (now_ms : Z).

(** A message as the host reads it: its channel and its bytes. *)
Abbreviation message := (Z * list Z)%type.

(** The host reads everything the device sent: frames, one behind the other, each opened. *)
Fixpoint hear (fuel : nat) (h : link_session_t) (w : list Z) : option (list message * link_session_t) :=
  match fuel with
  | O => None
  | S fuel =>
    if bool_decide (w = []) then Some ([], h) else
    '(n, f) ← link_frame_decode (Some w) (blen w) (Some frame_zero);
    f ← f;
    if n <=? 0 then None else
    '(rc, h, p) ← link_session_open (Some h) (Some f) (Some frame_zero);
    h ← h; p ← p;
    if c_true rc then None else
    m ← rd_bytes (lf_payload p) 0 (lf_length p);
    '(ms, h) ← hear fuel h (drop (Z.to_nat n) w);
    Some ((lf_channel p, m) :: ms, h)
  end.

Section Talk.
Context {U D F C : Type} `{Arch} `{BridgeServices (bridge_env U)} `{Shell (bridge_env U) D F}.
Abbreviation env := (bridge_env U).
Abbreviation tty := (@tty_state env C).
Abbreviation dev := (@link_dev U C).
Abbreviation bridge := (@link_bridge U C).
Context `{CC : !CliCode (W := env) (C := C)}.
Implicit Types (d : dev) (b : bridge) (t : tty) (h : link_session_t).

(** ** What the device is to answer *)

(** Shell output goes out in pieces of 200 bytes while a largest frame fits in [room]. *)
Fixpoint drain (fuel : nat) (room : Z) t : option (list message * tty) :=
  match fuel with
  | O => None
  | S fuel =>
    if LINK_MAX_FRAME <=? room then
      '(n, chunk, t) ← tty_service_read true 200 t;
      if n <=? 0 then Some ([], t) else
      '(ms, t) ← drain fuel (room - 35 - n) t;
      Some ((LINK_CH_TTY, chunk) :: ms, t)
    else Some ([], t)
  end.
Definition drained (cap : Z) t : option (list message * tty) :=
  drain (S (Z.to_nat (g_out_len t))) cap t.

Definition respond (cap : Z) (op : host_op) t : option (list message * tty) :=
  match op with
  | Call args =>
    let '(ans, e) := spec_call bridge_handlers (tlv_fields args) (world t) in
    Some ([(ans.1, tlv_bytes ans.2)], with_world e t)
  | Typed keys => t ← tty_service_input (Some keys) (blen keys) t; drained cap t
  | Refresh now => t ← tty_service_poll now t; drained cap t
  end.

(** The answers to a list of operations, one list of messages each. *)
Fixpoint respond_all (cap : Z) (ops : list host_op) t : option (list (list message) * tty) :=
  match ops with
  | [] => Some ([], t)
  | op :: ops =>
    '(ms, t) ← respond cap op t;
    '(mss, t) ← respond_all cap ops t;
    Some (ms :: mss, t)
  end.

(** ** The same over the link *)

Definition op_wire (op : host_op) (mid : Z) h : option (list Z * link_session_t) :=
  let seal channel pt :=
    '(n, h, w) ← link_session_seal (Some h) channel mid (Some pt) (blen pt)
                   (Some (zeros LINK_MAX_FRAME)) LINK_MAX_FRAME;
    h ← h; w ← w; w ← rd_bytes w 0 n; Some (w, h) in
  match op with
  | Call args => seal LINK_CH_CALL args
  | Typed keys => seal LINK_CH_TTY keys
  | Refresh _ => Some ([], h)
  end.

Definition host_round (cap : Z) (op : host_op) (mid : Z) h b
    : option (list message * link_session_t * bridge) :=
  '(w, h) ← op_wire op mid h;
  '(n, out, b) ← (match op with
                  | Refresh now => link_bridge_poll now (Some (zeros cap)) cap b
                  | _ => link_bridge_rx (Some w) (blen w) (Some (zeros cap)) cap b
                  end);
  out ← out; w ← rd_bytes out 0 n;
  '(ms, h) ← hear (S (length w)) h w;
  Some (ms, h, b).

Fixpoint talk (cap : Z) (ops : list host_op) (mid : Z) h b
    : option (list (list message) * link_session_t * bridge) :=
  match ops with
  | [] => Some ([], h, b)
  | op :: ops =>
    '(ms, h, b) ← host_round cap op mid h b;
    '(mss, h, b) ← talk cap ops mid h b;
    Some (ms :: mss, h, b)
  end.

(** The handshake: the host's Hello, the device's reply, and the shell's greeting. *)
Definition connect (cap mid : Z) h b : option (list message * link_session_t * bridge) :=
  '(n, w) ← link_session_encode_hello (Some h) 0 mid (Some (zeros LINK_MAX_FRAME)) LINK_MAX_FRAME;
  w ← w; w ← rd_bytes w 0 n;
  '(n, out, b) ← link_bridge_rx (Some w) n (Some (zeros cap)) cap b;
  out ← out; w ← rd_bytes out 0 n;
  '(n, f) ← link_frame_decode (Some w) (blen w) (Some frame_zero);
  f ← f;
  if n <? 0 then None else
  '(rc, h) ← link_session_accept_hello (Some h) (Some f) 0;
  h ← h;
  if c_true rc then None else
  '(ms, h) ← hear (S (length w)) h (drop (Z.to_nat n) w);
  Some (ms, h, b).

(** ** Many sealed messages *)

Definition message_ok (m : message) : Prop := is_u8 m.1 ∧ Forall is_u8 m.2 ∧ blen m.2 <= 216.

(** The device after sealing a list of messages, and their bytes. *)
Fixpoint seal_msgs (ms : list message) d : list Z * dev :=
  match ms with
  | [] => ([], d)
  | m :: ms =>
    let '(w, d') := seal_msgs ms (sealed_dev d) in (sealed_bytes m.1 m.2 d ++ w, d')
  end.

Lemma seal_msgs_tty ms d t :
  seal_msgs ms (with_tty t d) = ((seal_msgs ms d).1, with_tty t (seal_msgs ms d).2).
Proof.
  revert d. induction ms as [|m ms IH]; intros d; [done|]. cbn [seal_msgs].
  change (sealed_dev (with_tty t d)) with (with_tty t (sealed_dev d)). rewrite IH.
  by destruct (seal_msgs ms (sealed_dev d)).
Qed.

Lemma seal_msgs_ok ms d : dev_ok d → dev_ok (seal_msgs ms d).2 ∧ g_tty (seal_msgs ms d).2 = g_tty d.
Proof.
  revert d. induction ms as [|m ms IH]; intros d Hd; [done|]. cbn [seal_msgs].
  destruct (IH (sealed_dev d)) as [H1' H2']; [by apply sealed_dev_ok|].
  by destruct (seal_msgs ms (sealed_dev d)).
Qed.

(** The session but for its counter stays. *)
Lemma seal_msgs_session ms d :
  se_tx_counter (g_session d) + blen ms < 2 ^ 64 → 0 <= se_tx_counter (g_session d) →
  g_session (seal_msgs ms d).2 =
    session_with_tx (g_session d) (se_tx_counter (g_session d) + blen ms).
Proof.
  revert d. induction ms as [|m ms IH]; intros d Hc H0'.
  - cbn. rewrite Z.add_0_r. by destruct (g_session d).
  - rewrite blen_cons in *. pose proof (blen_nonneg ms). cbn [seal_msgs].
    assert (se_tx_counter (g_session (sealed_dev d)) = se_tx_counter (g_session d) + 1) as E
      by (cbn; apply wrap_id; unfold in_w; lia).
    specialize (IH (sealed_dev d)). rewrite E in IH.
    destruct (seal_msgs ms (sealed_dev d)) as [w d']. cbn [snd] in *. rewrite IH by lia.
    cbn. unfold session_with_tx. cbn. f_equal. lia.
Qed.

(** The host reads back exactly what was sealed. *)
Lemma hear_ok ms d h fuel :
  dev_ok d → session_wf h → paired (g_session d) h → se_open h = true →
  se_rx_counter h = se_tx_counter (g_session d) →
  se_tx_counter (g_session d) + blen ms < 2 ^ 64 → Forall message_ok ms →
  (length (seal_msgs ms d).1 < fuel)%nat →
  hear fuel h (seal_msgs ms d).1 =
    Some (ms, session_with_rx h (se_tx_counter (g_session d) + blen ms)).
Proof.
  revert d h fuel. induction ms as [|[ch pt] ms IH]; intros d h fuel Hd Hh Hp Ho Hc Hb Hm Hf.
  { destruct fuel as [|fuel]; [lia|]. cbn. rewrite Z.add_0_r, <- Hc. by destruct h. }
  apply Forall_cons_1 in Hm as [(Hch & Hpt & Hl) Hm]. cbn [fst snd] in Hch, Hpt, Hl.
  rewrite blen_cons in Hb. pose proof (blen_nonneg ms). pose proof (blen_nonneg pt).
  pose proof (sealed_bytes_length ch pt d Hd Hch Hl) as Hsl.
  cbn [seal_msgs] in *. pose proof (sealed_dev_ok d Hd) as Hd'.
  pose proof Hd as (Hs & _). pose proof Hs as (_&_&_&[Hc0 _]&_).
  specialize (IH (sealed_dev d)).
  assert (se_tx_counter (g_session (sealed_dev d)) = se_tx_counter (g_session d) + 1) as E
    by (cbn; apply wrap_id; unfold in_w; lia). rewrite E in IH.
  destruct (seal_msgs ms (sealed_dev d)) as [w d']. cbn [fst snd] in *.
  destruct fuel as [|fuel]; [lia|]. rewrite length_app in Hf. unfold blen in Hsl. cbn [hear].
  assert (sealed_bytes ch pt d ++ w ≠ []) as Hne.
  { intros En%(f_equal length). rewrite length_app in En. change (length []) with 0%nat in En. unfold blen in *. lia. }
  rewrite bool_decide_false by done.
  pose proof (sealed_frame_wf (g_session d) (u64 (se_tx_counter (g_session d) + 1)) ch
    (g_msg_id (next_id d)) pt Hs Hch (next_id_u16 d) Hl) as Hwf.
  unfold sealed_bytes at 1 2.
  rewrite link_frame_decode_ok by (done || (rewrite blen_app; unfold sealed_bytes; pose proof (blen_nonneg w); lia)).
  cbn [mbind option_bind]. fold (sealed_bytes ch pt d).
  replace (blen (sealed_bytes ch pt d) <=? 0) with false by (symmetry; apply Z.leb_gt; unfold blen in *; lia).
  rewrite (link_session_open_ok (g_session d) h); try done.
  2: by apply wrap_in_w. 2: rewrite wrap_id by (unfold in_w; lia); lia.
  cbn [mbind option_bind c_true Z.eqb negb lf_length lf_payload lf_channel].
  rewrite rd_bytes_prefix. cbn [mbind option_bind].
  replace (drop (Z.to_nat (blen (sealed_bytes ch pt d))) (sealed_bytes ch pt d ++ w)) with w
    by (unfold blen; by rewrite Nat2Z.id, drop_app_length).
  rewrite wrap_id by (unfold in_w; lia).
  rewrite IH; [|done| |done|done|done|lia|done|lia].
  - cbn [mbind option_bind]. rewrite blen_cons. unfold session_with_rx. cbn. by rewrite <- Z.add_assoc.
  - apply session_with_rx_wf; [done|]. unfold in_w. lia.
Qed.

(** ** Draining the shell *)

(** What the device has to do: the messages go out, sealed, and it ends with [t']. *)
Definition answers (m : option (Z * dev * link_tx_t)) d tx (ms : list message) t' : Prop :=
  ∃ tx', m = Some (0, with_tty t' (seal_msgs ms d).2, tx') ∧ tx_grows tx tx' ∧
    tx_used tx' = tx_used tx + blen (seal_msgs ms d).1 ∧
    tx_out tx' = tx_out tx ++ (seal_msgs ms d).1.

(** Messages but for the bytes in them. *)
Definition fits (m : message) : Prop := is_u8 m.1 ∧ blen m.2 <= 216.

Lemma answers_nil d tx : tx_ok tx → answers (Some (0, d, tx)) d tx [] (g_tty d).
Proof.
  intros Htx. exists tx. split; [by destruct d|]. split; [by apply tx_grows_refl|].
  cbn. rewrite blen_nil, app_nil_r. split; [lia|done].
Qed.

Lemma seal_tty_drain fuel d tx :
  dev_ok d → se_open (g_session d) = true → tx_ok tx → (Z.to_nat (g_out_len (g_tty d)) < fuel)%nat →
  ∃ ms t', drain fuel (tx_cap tx - tx_used tx) (g_tty d) = Some (ms, t') ∧
    answers (seal_tty fuel d tx) d tx ms t' ∧ tty_wf t' ∧ Forall fits ms ∧
    concat (snd <$> ms) ++ pending t' = pending (g_tty d) ∧ blen ms <= g_out_len (g_tty d).
Proof.
  revert d tx. induction fuel as [|fuel IH]; intros d tx Hd Ho Htx Hf; [lia|]. cbn [seal_tty drain].
  pose proof Hd as (_ & _ & _ & Ht). pose proof Ht as [_ [_ Hol]].
  pose proof Htx as (Hu & Hcap & H31).
  assert ((tx_used tx <? tx_cap tx) && (LINK_MAX_FRAME <=? tx_cap tx - tx_used tx) =
          (LINK_MAX_FRAME <=? tx_cap tx - tx_used tx)) as ->.
  { destruct (LINK_MAX_FRAME <=? _) eqn:E; [|by rewrite andb_false_r]. bool_hyps.
    rewrite andb_true_r. apply Z.ltb_lt. link_consts. lia. }
  destruct (LINK_MAX_FRAME <=? _) eqn:Er.
  2:{ exists [], (g_tty d). split; [done|]. split; [by apply answers_nil|]. split_and!; [done|done|done|].
      rewrite blen_nil. lia. }
  destruct (tty_read_spec 200 (g_tty d) Ht) as (t1 & E & Hw & Hp & _); [done|]. cbv zeta in E.
  rewrite E. cbn [mbind option_bind]. clear E. change (Z.to_nat 200) with 200%nat in *.
  set (c := take 200 (pending (g_tty d))) in *.
  assert (blen c <= 200) as Hc by (unfold c, blen; rewrite length_take; lia).
  assert (pending (g_tty d) = c ++ pending t1) as Epend by (rewrite Hp; symmetry; apply take_drop).
  destruct (blen c <=? 0) eqn:E0; bool_hyps.
  { exists [], t1. split; [done|]. split.
    { exists tx. split; [done|]. split; [by apply tx_grows_refl|]. cbn. rewrite blen_nil, app_nil_r.
      split; [lia|done]. }
    split_and!; [done|done| |rewrite blen_nil; lia].
    rewrite Epend. by destruct c; [|rewrite blen_cons in E0; pose proof (blen_nonneg c); lia]. }
  set (d0 := with_tty t1 d).
  destruct (seal_append_fits LINK_CH_TTY c d0 tx) as (tx1 & -> & Hg & Hu1 & Ho1);
    [by apply with_tty_ok|done|done|by cbv|lia|bool_hyps; link_consts; lia|].
  cbn [mbind option_bind c_true Z.eqb negb].
  change (sealed_dev d0) with (with_tty t1 (sealed_dev d)).
  destruct (IH (with_tty t1 (sealed_dev d)) tx1) as (ms & t' & Ed & (tx' & Es & Hg' & Hu' & Ho') & Hw' & Hm & Hcat & Hn).
  { apply with_tty_ok; [by apply sealed_dev_ok|done]. }
  { done. } { apply Hg. }
  { rewrite <- (tty_pending_length _ (proj2 Hw : out_wf (g_tty (with_tty t1 (sealed_dev d))))).
    change (g_tty (with_tty t1 (sealed_dev d))) with t1.
    rewrite <- (tty_pending_length _ (proj2 Ht)), Epend, blen_app in Hf. unfold blen in *. lia. }
  cbn [g_tty with_tty] in Ed, Hcat, Hn.
  replace (tx_cap tx1 - tx_used tx1) with (tx_cap tx - tx_used tx - 35 - blen c) in Ed
    by (rewrite Hu1, (proj1 (proj2 Hg)); lia).
  rewrite Ed. cbn [mbind option_bind]. exists ((LINK_CH_TTY, c) :: ms), t'. split; [done|].
  rewrite seal_msgs_tty in Es, Hu', Ho'. cbn [fst snd] in Es, Hu', Ho'.
  assert (sealed_bytes LINK_CH_TTY c d0 = sealed_bytes LINK_CH_TTY c d) as Eb by done.
  split; [|split; [done|split; [|split]]].
  - exists tx'. cbn [seal_msgs fst snd]. destruct (seal_msgs ms (sealed_dev d)) as [w d']. cbn [fst snd] in *.
    split; [exact Es|]. split; [by eapply tx_grows_trans|].
    rewrite Hu', Hu1, Ho', Ho1, Eb, app_assoc. split; [|done].
    rewrite blen_app, sealed_bytes_length by (done || (cbn [fst snd]; lia)). lia.
  - constructor; [|done]. split; [by cbv|cbn [snd]; lia].
  - rewrite Epend, fmap_cons. cbn [concat snd]. by rewrite <- app_assoc, Hcat.
  - rewrite blen_cons. rewrite <- (tty_pending_length _ (proj2 Ht)), Epend, blen_app.
    rewrite (tty_pending_length _ (proj2 Hw)). lia.
Qed.

Lemma flush_drained d tx :
  dev_ok d → se_open (g_session d) = true → tx_ok tx →
  ∃ ms t', drained (tx_cap tx - tx_used tx) (g_tty d) = Some (ms, t') ∧
    answers (flush_tty d tx) d tx ms t' ∧ tty_wf t' ∧ Forall fits ms ∧
    concat (snd <$> ms) ++ pending t' = pending (g_tty d) ∧ blen ms <= g_out_len (g_tty d).
Proof. intros. by apply seal_tty_drain; [..|lia]. Qed.

(** ** One frame through the bridge *)

Lemma bridge_rx_frame f cap b d' tx' :
  bridge_ok b → contents (g_stream b) = [] → frame_wf f → 0 <= cap < 2 ^ 31 →
  on_wire (frame_bytes f) (blen (frame_bytes f)) (g_dev b) (mk_tx (zeros cap) cap 0) = Some (0, d', tx') →
  tx_grows (mk_tx (zeros cap) cap 0) tx' → dev_ok d' →
  ∃ st, link_bridge_rx (Some (frame_bytes f)) (blen (frame_bytes f)) (Some (zeros cap)) cap b =
      Some (tx_used tx', Some (tx_buf tx'), mk_bridge st d') ∧
    bridge_ok (mk_bridge st d') ∧ contents st = [].
Proof.
  intros [Hst Hd] Hc Hf Hcap Ew Hg Hd'. pose proof (frame_bytes_u8 f Hf) as Hu.
  assert (ls_len (g_stream b) = 0) as Hl0 by (rewrite <- blen_contents, Hc; done).
  pose proof (blen_frame_bytes f Hf) as Hb. pose proof Hf as (_&_&_&_&Hl&_&_).
  unfold link_bridge_rx. rewrite bool_decide_true by (by eexists). cbn [negb andb default from_option id].
  destruct (link_stream_push_ok wire_frame (g_stream b) (frame_bytes f)
    (Some (g_dev b, mk_tx (zeros cap) cap 0)) Hst Hu) as (st1 & rc & st & u & E1 & -> & Hst' & P).
  destruct (stream_append_ok (frame_bytes f) (g_stream b)) as (st1' & E1' & Hst1 & Hc1);
    [done|done|link_consts; lia|]. assert (st1' = st1) as -> by congruence.
  rewrite Hc in Hc1. cbn [app] in Hc1. rewrite Hc1 in P. cbn [parse] in P.
  pose proof (parse1_frame f [] Hf) as Ep. rewrite app_nil_r in Ep. rewrite Ep in P.
  assert (Z.to_nat (blen (frame_bytes f)) = length (frame_bytes f)) as En by apply Nat2Z.id.
  rewrite En in P.
  rewrite firstn_all, drop_all in P. unfold wire_frame in P at 1. rewrite Ew in P.
  cbn [c_true Z.eqb negb] in P. pose proof (frame_bytes_nonempty f Hf) as Hn.
  destruct (length (frame_bytes f)) as [|k]; [lia|]. cbn [parse] in P. injection P as <- Hcs <-.
  cbn [mbind option_bind c_true Z.eqb negb]. rewrite (proj2 (tx_done _ _ Hg)).
  exists st. split; [done|]. by split; [split|].
Qed.

(** What the host can read of the transmit buffer. *)
Lemma tx_read tx : tx_ok tx → rd_bytes (tx_buf tx) 0 (tx_used tx) = Some (tx_out tx).
Proof. intros (Hu & Hc & _). rewrite rd_bytes_ok by lia. by rewrite drop_0. Qed.

(** ** The two ends *)

Definition in_sync h b : Prop :=
  session_wf h ∧ bridge_ok b ∧ contents (g_stream b) = [] ∧
  se_open h = true ∧ se_open (g_session (g_dev b)) = true ∧
  paired h (g_session (g_dev b)) ∧ paired (g_session (g_dev b)) h ∧
  se_rx_counter (g_session (g_dev b)) = se_tx_counter h ∧
  se_rx_counter h = se_tx_counter (g_session (g_dev b)).

Definition op_ok (op : host_op) : Prop :=
  match op with
  | Call s | Typed s => Forall is_u8 s ∧ blen s <= 216
  | Refresh _ => True
  end.

(** A sealed frame of the host reaches its handler. *)
Lemma on_wire_sealed channel mid pt h d tx :
  session_wf h → dev_ok d → paired h (g_session d) → se_open (g_session d) = true →
  channel = LINK_CH_CALL ∨ channel = LINK_CH_TTY → is_u16 mid → Forall is_u8 pt → blen pt <= 216 →
  se_rx_counter (g_session d) = se_tx_counter h → se_tx_counter h + 1 < 2 ^ 64 →
  let c := se_tx_counter h + 1 in
  let w := frame_bytes (sealed_frame h c channel mid pt) in
  let d1 := with_session (session_with_rx (g_session d) c) d in
  on_wire w (blen w) d tx =
    (if channel =? LINK_CH_TTY
     then (t ← tty_service_input (Some pt) (blen pt) (g_tty d1); flush_tty (with_tty t d1) tx)
     else wire_call pt d1 tx).
Proof.
  intros Hh Hd Hp Ho Hch Hm Hpt Hl Hc Hb c w d1.
  assert (is_u8 channel) as Hch8 by (destruct Hch as [->| ->]; by cbv).
  pose proof (sealed_frame_wf h c channel mid pt Hh Hch8 Hm Hl) as Hwf.
  pose proof Hh as (_&_&_&[Hc0 _]&_). pose proof Hd as (Hs & _).
  unfold on_wire. rewrite <- (app_nil_r w) at 1. unfold w. rewrite link_frame_decode_ok by (done || lia).
  cbn [mbind option_bind]. pose proof (blen_nonneg (frame_bytes (sealed_frame h c channel mid pt))).
  zbool.
  destruct (seal_text h c channel mid pt) as [ct tag] eqn:Es.
  pose proof (sealed_frame_received h c channel mid pt ct tag Hh Hl Es) as Ef.
  assert ((lf_channel (frame_received (sealed_frame h c channel mid pt)) =? LINK_CH_HELLO) = false) as ->.
  { rewrite Ef. cbn [seal_header lf_channel]. by destruct Hch as [->| ->]. }
  cbn [andb]. rewrite Ho. cbn [negb].
  rewrite (link_session_open_ok h (g_session d)); try done.
  2: unfold in_w, c; lia. 2: unfold c; lia.
  cbn [mbind option_bind c_true Z.eqb negb lf_length lf_payload lf_channel].
  rewrite rd_bytes_prefix. cbn [mbind option_bind]. by destruct Hch as [->| ->].
Qed.

(** The device and the host before the device answers. *)
Definition synced h d : Prop :=
  session_wf h ∧ dev_ok d ∧ se_open h = true ∧ se_open (g_session d) = true ∧
  paired h (g_session d) ∧ paired (g_session d) h ∧
  se_rx_counter (g_session d) = se_tx_counter h ∧ se_rx_counter h = se_tx_counter (g_session d).

Lemma synced_tty t h d : synced h d → tty_wf t → synced h (with_tty t d).
Proof. intros (Hh & Hd & Hr) Ht. split; [done|]. split; [by apply with_tty_ok|exact Hr]. Qed.

Lemma synced_rx c h d :
  synced h d → is_u64 c → synced (session_with_tx h c) (with_session (session_with_rx (g_session d) c) d).
Proof.
  intros (Hh & Hd & Ho & Hod & Hp & Hp' & E1 & E2) Hc. pose proof Hd as (Hs & Hdir & _).
  split; [by apply session_with_tx_wf|].
  split; [apply with_session_ok; [done|by apply session_with_rx_wf|done]|]. by split_and!.
Qed.

Lemma in_sync_synced h b :
  in_sync h b ↔ synced h (g_dev b) ∧ stream_wf (g_stream b) ∧ contents (g_stream b) = [].
Proof. unfold in_sync, synced, bridge_ok. tauto. Qed.

(** When the device answers, the host reads the messages, and both are in step again. *)
Lemma answered h d tx m ms t' fuel :
  answers m d tx ms t' → synced h d → tty_wf t' → Forall message_ok ms →
  se_tx_counter (g_session d) + blen ms < 2 ^ 64 → (length (seal_msgs ms d).1 < fuel)%nat →
  ∃ tx' h', let d' := with_tty t' (seal_msgs ms d).2 in
    m = Some (0, d', tx') ∧ tx_grows tx tx' ∧
    rd_bytes (tx_buf tx') 0 (tx_used tx') = Some (tx_out tx ++ (seal_msgs ms d).1) ∧
    hear fuel h (seal_msgs ms d).1 = Some (ms, h') ∧ synced h' d' ∧
    se_tx_counter h' = se_tx_counter h ∧
    se_tx_counter (g_session d') = se_tx_counter (g_session d) + blen ms.
Proof.
  intros (tx' & -> & Hg & Hu & Ho) Hy Ht Hms Hb Hf.
  pose proof Hy as (Hh & Hd & Hop & Hod & Hp & Hp' & E1 & E2). pose proof Hd as (Hs & Hdir & _).
  pose proof Hs as (_&_&_&[Hc _]&_). pose proof (blen_nonneg ms).
  pose proof (hear_ok ms d h fuel Hd Hh Hp' Hop E2 Hb Hms Hf) as Ehear.
  eexists tx', _. cbv zeta. split; [done|]. split; [done|].
  split; [by rewrite tx_read, Ho by apply Hg|]. split; [exact Ehear|].
  pose proof (seal_msgs_session ms d Hb Hc) as Es. destruct (seal_msgs_ok ms d Hd) as [Hd' _].
  split; [|split; [done|cbn [with_tty g_session]; by rewrite Es]].
  apply synced_tty; [|done].
  split; [apply session_with_rx_wf; [done|unfold in_w; lia]|]. split; [done|].
  rewrite Es. by split_and!.
Qed.

Lemma fits_ok ms : Forall fits ms → Forall (Forall is_u8) (snd <$> ms) → Forall message_ok ms.
Proof.
  intros Hf Hu. apply (Forall_fmap (A := message) snd) in Hu. eapply Forall_impl; [apply Forall_and; split; [exact Hf|exact Hu]|].
  intros m [[Hc Hl] Hm]. by split.
Qed.

(** ** One round *)

Lemma call_answered cap args d :
  Forall is_u8 args → blen args <= 216 → dev_ok d → se_open (g_session d) = true → 72 <= cap < 2 ^ 31 →
  ∃ ms t', respond cap (Call args) (g_tty d) = Some (ms, t') ∧ Forall fits ms ∧ tty_wf t' ∧
    blen ms = 1 ∧ answers (wire_call args d (mk_tx (zeros cap) cap 0)) d (mk_tx (zeros cap) cap 0) ms t'.
Proof.
  intros Hu Hl Hd Ho Hcap. pose proof (wire_call_spec args d (mk_tx (zeros cap) cap 0) Hu) as E.
  cbn [respond]. pose proof (spec_call_short bridge_handlers (tlv_fields args) (world (g_tty d))
    (tlv_parse_u8 _ args Hu)) as (Hc & Hs & _).
  destruct (spec_call _ _ _) as [ans e]. cbn [fst] in Hc, Hs. rewrite E by lia.
  pose proof (with_world_ok e d Hd) as Hd1. set (d1 := with_tty (with_world e (g_tty d)) d) in *.
  eexists _, _. split; [done|]. split.
  { constructor; [|done]. split; [done|cbn [snd]; lia]. }
  split; [apply Hd1|]. split; [done|]. pose proof (blen_nonneg (tlv_bytes ans.2)).
  destruct (seal_append_fits ans.1 (tlv_bytes ans.2) d1 (mk_tx (zeros cap) cap 0))
    as (tx' & -> & Hg & Hused & Hout); [done|done| |done|lia|cbn [tx_used tx_cap]; lia|].
  { apply tx_start; [rewrite blen_zeros|]; lia. }
  exists tx'. cbn [seal_msgs fst snd]. split; [done|]. split; [done|].
  rewrite app_nil_r. split; [|exact Hout].
  rewrite (sealed_bytes_length ans.1 (tlv_bytes ans.2) d) by (done || (cbn [snd]; lia)). lia.
Qed.

Hypothesis obeys : cli_obeys (W := env) (C := C).

(** Both terminal operations: run the shell, then drain it. *)
Lemma shell_answered cap t d :
  tty_wf t → dev_ok d → se_open (g_session d) = true → 0 <= cap < 2 ^ 31 →
  ∃ ms t', drained cap t = Some (ms, t') ∧ Forall fits ms ∧ tty_wf t' ∧ blen ms <= 2047 ∧
    answers (flush_tty (with_tty t d) (mk_tx (zeros cap) cap 0)) (with_tty t d) (mk_tx (zeros cap) cap 0) ms t'.
Proof.
  intros Ht Hd Ho Hcap.
  destruct (flush_drained (with_tty t d) (mk_tx (zeros cap) cap 0)) as (ms & t' & E & Ha & Hw & Hf & _ & Hn);
    [by apply with_tty_ok|done|apply tx_start; [rewrite blen_zeros|]; lia|].
  cbn [tx_cap tx_used with_tty g_tty] in E, Hn. rewrite Z.sub_0_r in E.
  exists ms, t'. split; [done|]. split; [done|]. split; [done|]. split; [|done].
  destruct Ht as [_ [_ Hb]]. unfold TTY_OUT in Hb. lia.
Qed.

(** [answers] does not mind which terminal state it starts from. *)
Lemma answers_tty t m d tx ms t' : answers m (with_tty t d) tx ms t' → answers m d tx ms t'.
Proof. unfold answers. by rewrite seal_msgs_tty. Qed.

Lemma op_step_answered cap op d :
  op_ok op → dev_ok d → se_open (g_session d) = true → 72 <= cap < 2 ^ 31 →
  ∃ ms t', respond cap op (g_tty d) = Some (ms, t') ∧ Forall fits ms ∧ tty_wf t' ∧ blen ms <= 2047 ∧
    answers
      (match op with
       | Call args => wire_call args d (mk_tx (zeros cap) cap 0)
       | Typed keys => t ← tty_service_input (Some keys) (blen keys) (g_tty d);
                       flush_tty (with_tty t d) (mk_tx (zeros cap) cap 0)
       | Refresh now => t ← tty_service_poll now (g_tty d); flush_tty (with_tty t d) (mk_tx (zeros cap) cap 0)
       end) d (mk_tx (zeros cap) cap 0) ms t'.
Proof.
  intros Hop Hd Ho Hcap. pose proof Hd as (_&_&_&Ht). destruct op as [args|keys|now]; cbn [op_ok] in Hop.
  - destruct (call_answered cap args d) as (ms & t' & E & Hf & Hw & Hn & Ha); [tauto..|].
    exists ms, t'. rewrite Hn. by split_and!.
  - destruct Hop as [Hu _]. cbn [respond].
    destruct (tty_input_ok obeys keys (g_tty d) Hu Ht) as (t & -> & Hw). cbn [mbind option_bind].
    destruct (shell_answered cap t d) as (ms & t' & E & Hf & Hw' & Hn & Ha); [done|done|done|lia|].
    exists ms, t'. split_and!; [done|done|done|done|]. by eapply answers_tty.
  - cbn [respond]. destruct (tty_poll_ok now (g_tty d) _ (grows_refl _ Ht)) as (t & -> & Hg).
    cbn [mbind option_bind].
    destruct (shell_answered cap t d) as (ms & t' & E & Hf & Hw' & Hn & Ha); [apply Hg|done|done|lia|].
    exists ms, t'. split_and!; [done|done|done|done|]. by eapply answers_tty.
Qed.

Lemma op_wire_sealed op mid h channel pt :
  (op, channel) = (Call pt, LINK_CH_CALL) ∨ (op, channel) = (Typed pt, LINK_CH_TTY) →
  session_wf h → se_open h = true → is_u16 mid → blen pt <= 216 → se_tx_counter h + 1 < 2 ^ 64 →
  let c := se_tx_counter h + 1 in
  op_wire op mid h = Some (frame_bytes (sealed_frame h c channel mid pt), session_with_tx h c).
Proof.
  intros Hop Hh Ho Hm Hl Hb c. pose proof (blen_nonneg pt).
  assert (is_u8 channel) as Hc by (by destruct Hop as [[= _ ->]|[= _ ->]]; cbv).
  pose proof Hh as (_&_&_&[Hc0 _]&_). assert (u64 (se_tx_counter h + 1) = c) as Ec by (apply wrap_id; unfold in_w; lia).
  pose proof (link_session_seal_ok h channel mid pt (zeros LINK_MAX_FRAME) LINK_MAX_FRAME Hh Ho Hc Hm Hl) as E.
  cbv zeta in E. rewrite Ec in E. unfold op_wire.
  destruct Hop as [[= -> ->]|[= -> ->]];
    (rewrite E by (rewrite blen_zeros; link_consts; lia); cbn [mbind option_bind];
     rewrite rd_bytes_prefix; done).
Qed.

(** The host and the device stay in step over a round; the device ends with [t']. *)
Definition advanced h b ms t' (r : option (list message * link_session_t * bridge)) : Prop :=
  ∃ h' b', r = Some (ms, h', b') ∧ in_sync h' b' ∧ g_tty (g_dev b') = t' ∧
    se_tx_counter h' <= se_tx_counter h + 1 ∧
    se_tx_counter (g_session (g_dev b')) <= se_tx_counter (g_session (g_dev b)) + 2047.

Lemma start_tx cap : 72 <= cap < 2 ^ 31 → tx_ok (mk_tx (zeros cap) cap 0).
Proof. intros. apply tx_start; [rewrite blen_zeros|]; lia. Qed.

Lemma refresh_round_ok cap now mid h b ms t' :
  in_sync h b → 72 <= cap < 2 ^ 31 → se_tx_counter (g_session (g_dev b)) + 2047 < 2 ^ 64 →
  respond cap (Refresh now) (g_tty (g_dev b)) = Some (ms, t') → Forall (Forall is_u8) (snd <$> ms) →
  advanced h b ms t' (host_round cap (Refresh now) mid h b).
Proof.
  intros [Hy Hst]%in_sync_synced Hcap Htd Er Hu.
  pose proof Hy as (Hh & Hd & Ho & Hod & _). pose proof (start_tx cap Hcap) as Htx.
  destruct (op_step_answered cap (Refresh now) (g_dev b) I Hd Hod Hcap)
    as (ms' & t'' & Er' & Hf & Hw & Hn & Ha).
  assert (ms' = ms ∧ t'' = t') as [-> ->] by (split; congruence).
  pose proof (fits_ok ms Hf Hu) as Hms.
  destruct (answered h _ _ _ ms t' (S (length (seal_msgs ms (g_dev b)).1)) Ha Hy Hw Hms) as (tx' & h' & Em & Hg & Erd & Eh & Hy' & Eh1 & Ed1);
    [lia|apply Nat.lt_succ_diag_r|]. cbv zeta in *.
  change (tx_out (mk_tx (zeros cap) cap 0)) with (@nil Z) in Erd. cbn [app] in Erd.
  unfold host_round. cbn [op_wire mbind option_bind]. unfold link_bridge_poll. rewrite Hod. cbn [negb].
  destruct (tty_service_poll now (g_tty (g_dev b))) as [t|]; [|done]. cbn [mbind option_bind] in Em |- *.
  rewrite Em. cbn [mbind option_bind c_true Z.eqb negb]. rewrite (proj2 (tx_done _ _ Hg)), Erd.
  cbn [mbind option_bind]. rewrite Eh. cbn [mbind option_bind]. eexists _, _. split; [done|].
  split; [by apply in_sync_synced|]. cbn [g_dev]. split; [done|]. rewrite Ed1. lia.
Qed.

Lemma sealed_round_ok cap op channel pt mid h b ms t' :
  (op, channel) = (Call pt, LINK_CH_CALL) ∨ (op, channel) = (Typed pt, LINK_CH_TTY) →
  in_sync h b → op_ok op → is_u16 mid → 72 <= cap < 2 ^ 31 →
  se_tx_counter h + 1 < 2 ^ 64 → se_tx_counter (g_session (g_dev b)) + 2047 < 2 ^ 64 →
  respond cap op (g_tty (g_dev b)) = Some (ms, t') → Forall (Forall is_u8) (snd <$> ms) →
  advanced h b ms t' (host_round cap op mid h b).
Proof.
  intros Hch Hsync Hop Hm Hcap Hth Htd Er Hu. pose proof Hsync as [Hy [Hst Hcs]]%in_sync_synced.
  pose proof Hy as (Hh & Hd & Ho & Hod & Hp & Hp' & E1 & E2). pose proof (start_tx cap Hcap) as Htx.
  pose proof Hh as (_&_&_&[Hc0 _]&_). set (c := se_tx_counter h + 1).
  assert (Forall is_u8 pt ∧ blen pt <= 216) as [Hpt Hl] by (by destruct Hch as [[= -> _]|[= -> _]]).
  set (d1 := with_session (session_with_rx (g_session (g_dev b)) c) (g_dev b)).
  assert (synced (session_with_tx h c) d1) as Hy1 by (apply synced_rx; [done|unfold in_w, c; lia]).
  pose proof Hy1 as (_ & Hd1 & _ & Hod1 & _).
  destruct (op_step_answered cap op d1 Hop Hd1 Hod1 Hcap) as (ms' & t'' & Er' & Hf & Hw & Hn & Ha).
  assert (ms' = ms ∧ t'' = t') as [-> ->] by (change (g_tty d1) with (g_tty (g_dev b)) in Er'; split; congruence).
  pose proof (fits_ok ms Hf Hu) as Hms.
  destruct (answered (session_with_tx h c) _ _ _ ms t' (S (length (seal_msgs ms d1).1)) Ha Hy1 Hw Hms)
    as (tx' & h' & Em & Hg & Erd & Eh & Hy' & Eh1 & Ed1);
    [change (se_tx_counter (g_session (g_dev b)) + blen ms < 2 ^ 64); lia|apply Nat.lt_succ_diag_r|]. cbv zeta in *.
  change (tx_out (mk_tx (zeros cap) cap 0)) with (@nil Z) in Erd. cbn [app] in Erd.
  assert (channel = LINK_CH_CALL ∨ channel = LINK_CH_TTY) as Hch2 by (destruct Hch as [[= _ ->]|[= _ ->]]; auto).
  pose proof (on_wire_sealed channel mid pt h (g_dev b) (mk_tx (zeros cap) cap 0) Hh Hd Hp Hod Hch2 Hm Hpt Hl E1 Hth) as Ew.
  cbv zeta in Ew. fold c d1 in Ew.
  assert (frame_wf (sealed_frame h c channel mid pt)) as Hfw.
  { apply sealed_frame_wf; [done| |done|done]. by destruct Hch2 as [->| ->]; cbv. }
  destruct (bridge_rx_frame (sealed_frame h c channel mid pt) cap b (with_tty t' (seal_msgs ms d1).2) tx')
    as (st & Erx & Hb' & Hcs'); [apply Hsync|done|done|lia| |done|apply Hy'|].
  { rewrite Ew, <- Em. by destruct Hch as [[= -> ->]|[= -> ->]]. }
  unfold host_round. rewrite (op_wire_sealed op mid h channel pt) by done. fold c. cbn [mbind option_bind].
  assert ((match op with
           | Refresh now => link_bridge_poll now (Some (zeros cap)) cap b
           | _ => link_bridge_rx (Some (frame_bytes (sealed_frame h c channel mid pt)))
                    (blen (frame_bytes (sealed_frame h c channel mid pt))) (Some (zeros cap)) cap b
           end) = Some (tx_used tx', Some (tx_buf tx'), mk_bridge st (with_tty t' (seal_msgs ms d1).2))) as ->.
  { rewrite <- Erx. by destruct Hch as [[= -> ->]|[= -> ->]]. }
  cbn [mbind option_bind]. rewrite Erd. cbn [mbind option_bind]. rewrite Eh. cbn [mbind option_bind].
  eexists _, _. split; [done|]. split; [apply in_sync_synced; split; [done|]; split; [apply Hb'|done]|].
  cbn [g_dev]. split; [done|]. rewrite Ed1, Eh1. split; [cbn; unfold c; lia|].
  change (se_tx_counter (g_session d1)) with (se_tx_counter (g_session (g_dev b))). lia.
Qed.

Lemma host_round_ok cap op mid h b ms t' :
  in_sync h b → op_ok op → is_u16 mid → 72 <= cap < 2 ^ 31 →
  se_tx_counter h + 1 < 2 ^ 64 → se_tx_counter (g_session (g_dev b)) + 2047 < 2 ^ 64 →
  respond cap op (g_tty (g_dev b)) = Some (ms, t') → Forall (Forall is_u8) (snd <$> ms) →
  advanced h b ms t' (host_round cap op mid h b).
Proof.
  intros. destruct op as [args|keys|now]; [|eapply sealed_round_ok; by eauto|by apply refresh_round_ok].
  eapply sealed_round_ok; by eauto.
Qed.

Lemma respond_total cap op t :
  tty_wf t → op_ok op → 72 <= cap < 2 ^ 31 →
  ∃ ms t', respond cap op t = Some (ms, t') ∧ tty_wf t'.
Proof.
  intros Ht Hop Hcap.
  destruct (op_step_answered cap op (mk_dev (mk_session (zeros 16) 0 0 0 0 LINK_DIR_DEVICE true) 0 t) Hop)
    as (ms & t' & E & _ & Hw & _); [|done|done|by exists ms, t'].
  split; [|by split_and!]. split_and!; [|by cbv..]. split; [done|apply Forall_zeros].
Qed.

Lemma respond_all_total cap ops t :
  tty_wf t → Forall op_ok ops → 72 <= cap < 2 ^ 31 →
  ∃ mss t', respond_all cap ops t = Some (mss, t').
Proof.
  intros Ht Hops Hcap. revert t Ht. induction Hops as [|op ops Hop _ IH]; intros t Ht; [by exists [], t|].
  cbn [respond_all]. destruct (respond_total cap op t Ht Hop Hcap) as (ms & t1 & -> & Ht1).
  cbn [mbind option_bind]. destruct (IH t1 Ht1) as (mss & t2 & ->). by exists (ms :: mss), t2.
Qed.

(** All that was said is bytes. *)
Definition in_bytes (mss : list (list message)) : Prop := Forall (λ ms, Forall (Forall is_u8) (snd <$> ms)) mss.

Lemma talk_ok cap ops mid h b mss t' :
  in_sync h b → Forall op_ok ops → is_u16 mid → 72 <= cap < 2 ^ 31 →
  se_tx_counter h + blen ops < 2 ^ 64 →
  se_tx_counter (g_session (g_dev b)) + 2047 * blen ops < 2 ^ 64 →
  respond_all cap ops (g_tty (g_dev b)) = Some (mss, t') → in_bytes mss →
  ∃ h' b', talk cap ops mid h b = Some (mss, h', b') ∧ g_tty (g_dev b') = t'.
Proof.
  intros Hy Hops Hm Hcap Hth Htd E Hb. revert h b mss Hy Hth Htd E Hb.
  induction Hops as [|op ops Hop Hops IH]; intros h b mss Hy Hth Htd E Hb.
  { injection E as <- <-. by exists h, b. }
  rewrite blen_cons in *. pose proof (blen_nonneg ops). cbn [respond_all talk] in *.
  destruct (respond cap op _) as [[ms t1]|] eqn:Er; [|done]. cbn [mbind option_bind] in E.
  destruct (respond_all cap ops t1) as [[mss' t2]|] eqn:Ea; [|done]. injection E as <- <-.
  apply Forall_cons_1 in Hb as [Hb1 Hb].
  destruct (host_round_ok cap op mid h b ms t1) as (h1 & b1 & -> & Hy1 & Et & Hth1 & Htd1); [done..|lia|lia|done|done|].
  cbn [mbind option_bind].
  destruct (IH h1 b1 mss') as (h' & b' & -> & Et'); [done|lia|lia|by rewrite Et|done|].
  exists h', b'. done.
Qed.

(** ** The handshake *)

Lemma accept_hello_ok s s' sid mid sid' r :
  session_wf s → session_wf s' → se_key_id s = se_key_id s' → is_u16 sid →
  (se_tx_dir s' = LINK_DIR_DEVICE ∧ r = sid') ∨ (se_tx_dir s' = LINK_DIR_HOST ∧ r = sid ∧ sid ≠ 0) →
  link_session_accept_hello (Some s') (Some (frame_received (hello_frame s sid mid))) sid' =
    Some (0, Some (opened_session s' r)).
Proof.
  #[local] Transparent link_session_accept_hello.
  intros Hs Hs' Ek Hsid Hdir. unfold link_session_accept_hello.
  assert (frame_received (hello_frame s sid mid) = hello_frame s sid mid) as ->.
  { done. }
  cbn [hello_frame lf_channel lf_flags lf_payload lf_length].
  set (p := tlv_bytes (hello_fields s sid) ++ zeros 230).
  assert (tlv_holds p 10 (hello_fields s sid)) as Hp by done.
  assert (∀ tag out cap ol, cap <= blen out → link_tlv_get (Some p) 10 tag (Some out) cap (Some ol) =
    tlv_answer tag (hello_fields s sid) out cap ol) as Hget.
  { intros. apply link_tlv_get_ok; [done|done| |done]. repeat (constructor; [done|]). constructor. }
  rewrite (Hget LINK_TAG_VERSION [0] 1 0 ltac:(done) : _ = Some (0, Some [LINK_VERSION], Some 1)).
  change (negb (LINK_CH_HELLO =? LINK_CH_HELLO) || bits_set 0 LINK_FLAG_ENCRYPTED) with false.
  cbn [mbind option_bind]. change (rd [LINK_VERSION] 0) with (Some LINK_VERSION). cbn [mbind option_bind].
  change (c_true 0 || negb (1 =? 1) || negb (LINK_VERSION =? LINK_VERSION)) with false. cbv iota.
  rewrite (Hget LINK_TAG_KEY_ID [0] 1 1 ltac:(done) : _ = Some (0, Some [se_key_id s], Some 1)).
  cbn [mbind option_bind]. change (rd [se_key_id s] 0) with (Some (se_key_id s)). cbn [mbind option_bind].
  rewrite Ek, (Z.eqb_refl (se_key_id s')). change (c_true 0 || negb (1 =? 1) || negb true) with false. cbv iota.
  rewrite (Hget LINK_TAG_SESSION [0; 0] 2 1 ltac:(done) : _ = Some (0, Some [lo8 sid; hi8 sid], Some 2)).
  cbn [mbind option_bind]. change (rd [lo8 sid; hi8 sid] 0) with (Some (lo8 sid)).
  change (rd [lo8 sid; hi8 sid] 1) with (Some (hi8 sid)). cbn [mbind option_bind].
  change (c_true 0 || negb (2 =? 2)) with false. cbv iota. rewrite le16_split by done.
  unfold opened_session. destruct Hdir as [(-> & ->)|(-> & -> & Hne)].
  - by rewrite Z.eqb_refl.
  - change (LINK_DIR_HOST =? LINK_DIR_DEVICE) with false. cbv iota.
    by rewrite (proj2 (Z.eqb_neq sid 0) Hne).
Qed.
#[local] Opaque link_session_accept_hello.

(** What the host should see: the greeting, and the answers. *)
Definition greet (cap : Z) t : option (list message * tty) :=
  t ← tty_service_open t; drained (cap - 21) t.
Definition reference (cap : Z) (ops : list host_op) t : option (list (list message) * tty) :=
  '(ms, t) ← greet cap (fresh_tty t);
  '(mss, t) ← respond_all cap ops t;
  Some (ms :: mss, t).

(** What it does see, from the two calls of [link_session_init] on. *)
Definition over_link (cap : Z) (key : list Z) (key_id mid : Z) (ops : list host_op) b
    : option (list (list message) * tty) :=
  h ← link_session_init (Some key) key_id LINK_DIR_HOST;
  b ← link_bridge_init (Some key) key_id b;
  '(ms, h, b) ← connect cap mid h b;
  '(mss, h, b) ← talk cap ops mid h b;
  Some (ms :: mss, g_tty (g_dev b)).

Lemma greet_total cap t :
  tty_wf t → 72 <= cap < 2 ^ 31 → ∃ ms t', greet cap t = Some (ms, t') ∧ tty_wf t'.
Proof.
  intros Ht Hcap. unfold greet. destruct (tty_open_ok t t (grows_refl t Ht)) as (t1 & -> & Hg).
  cbn [mbind option_bind].
  destruct (shell_answered (cap - 21) t1 (mk_dev (mk_session (zeros 16) 0 0 0 0 LINK_DIR_DEVICE true) 0 t1))
    as (ms & t' & E & _ & Hw & _); [apply Hg| |done|lia|by exists ms, t'].
  split; [|split_and!; [by cbv..|apply Hg]]. split_and!; [|by cbv..]. split; [done|apply Forall_zeros].
Qed.

(** The device's side of the handshake. *)
Lemma on_wire_hello cap h mid d ms t' :
  session_wf h → dev_ok d → se_key_id h = se_key_id (g_session d) → is_u16 mid → 72 <= cap < 2 ^ 31 →
  greet cap (g_tty d) = Some (ms, t') →
  let w := frame_bytes (hello_frame h 0 mid) in
  let d1 := next_id (with_session (opened_session (g_session d) 1) d) in
  let reply := frame_bytes (hello_frame (opened_session (g_session d) 1) 1 (g_msg_id d1)) in
  ∃ tx1, tx_grows (mk_tx (zeros cap) cap 0) tx1 ∧ tx_out tx1 = reply ∧ Forall fits ms ∧ tty_wf t' ∧
    blen ms <= 2047 ∧ answers (on_wire w (blen w) d (mk_tx (zeros cap) cap 0)) d1 tx1 ms t'.
Proof.
  intros Hh Hd Ek Hm Hcap Eg w d1 reply. pose proof Hd as (Hs & Hdir & Hmid & Ht).
  pose proof (hello_frame_wf h 0 mid Hh Hm) as Hwf.
  assert (session_wf (opened_session (g_session d) 1)) as Hw1 by (by apply opened_wf).
  assert (dev_ok d1) as Hd1 by (apply next_id_ok, with_session_ok; [done|done|exact Hdir]).
  pose proof (hello_frame_wf (opened_session (g_session d) 1) 1 (g_msg_id d1) Hw1 (next_id_u16 _)) as Hrwf.
  pose proof (blen_frame_bytes _ Hrwf) as Hrl. fold reply in Hrl. change (blen reply = 21) in Hrl.
  destruct (tx_append_fits (mk_tx (zeros cap) cap 0) reply (drop (length reply) (zeros LINK_MAX_FRAME)) 21)
    as (tx1 & Etx & Hg & Hu & Hout); [by apply start_tx|by rewrite Hrl|cbn; lia|].
  exists tx1. split; [done|]. split; [exact Hout|].
  unfold greet in Eg. destruct (tty_service_open (g_tty d)) as [t1|] eqn:Eo; [|done]. cbn [mbind option_bind] in Eg.
  destruct (tty_open_ok (g_tty d) _ (grows_refl _ Ht)) as (t1' & Eo' & Hg1).
  assert (t1' = t1) as -> by congruence. change (id t1) with t1 in Hg1.
  destruct (flush_drained (with_tty t1 d1) tx1) as (ms' & t'' & E & Ha & Hw & Hf & _ & Hn);
    [apply with_tty_ok; [done|apply Hg1]|done|apply Hg|].
  assert (tx_cap tx1 - tx_used tx1 = cap - 21) as Ecap by (rewrite Hu, (proj1 (proj2 Hg)); cbn; lia).
  rewrite Ecap in E. change (g_tty (with_tty t1 d1)) with t1 in E, Hn.
  assert (ms' = ms ∧ t'' = t') as [-> ->] by (split; congruence).
  split; [done|]. split; [done|].
  split; [destruct (proj1 Hg1) as [_ [_ Hb]]; unfold TTY_OUT in Hb; lia|].
  apply answers_tty in Ha. unfold on_wire.
  rewrite <- (app_nil_r w) at 1. unfold w. rewrite link_frame_decode_ok by (done || lia).
  cbn [mbind option_bind].
  change (blen (frame_bytes (hello_frame h 0 mid)) <? 0) with false. cbv iota.
  change ((lf_channel (frame_received (hello_frame h 0 mid)) =? LINK_CH_HELLO) &&
    negb (bits_set (lf_flags (frame_received (hello_frame h 0 mid))) LINK_FLAG_ENCRYPTED)) with true. cbv iota.
  unfold wire_hello. rewrite (accept_hello_ok h (g_session d) 0 mid 1 1) by (done || by left).
  cbn [mbind option_bind]. change (c_true 0) with false. cbv iota zeta. fold d1.
  pose proof (encode_hello_ok (opened_session (g_session d) 1) 1 (g_msg_id d1) (zeros LINK_MAX_FRAME)
    LINK_MAX_FRAME Hw1 (next_id_u16 _)) as Ee. cbv zeta in Ee.
  change (se_session (opened_session (g_session d) 1)) with 1. rewrite Ee by (rewrite blen_zeros; link_consts; lia).
  fold reply. rewrite Hrl. cbn [mbind option_bind]. rewrite Etx. cbn [mbind option_bind].
  change (c_true 0) with false. cbv iota. change (g_tty d1) with (g_tty d). rewrite Eo. exact Ha.
Qed.

Lemma connect_ok cap key key_id mid b ms t' :
  let h := mk_session key key_id 0 0 0 LINK_DIR_HOST false in
  session_wf h → bridge_ok b → contents (g_stream b) = [] →
  g_session (g_dev b) = mk_session key key_id 0 0 0 LINK_DIR_DEVICE false →
  is_u16 mid → 72 <= cap < 2 ^ 31 →
  greet cap (g_tty (g_dev b)) = Some (ms, t') → Forall (Forall is_u8) (snd <$> ms) →
  ∃ h' b', connect cap mid h b = Some (ms, h', b') ∧ in_sync h' b' ∧ g_tty (g_dev b') = t' ∧
    se_tx_counter h' = 0 ∧ se_tx_counter (g_session (g_dev b')) <= 2047.
Proof.
  intros h Hh Hb Hcs Es Hm Hcap Eg Hu. pose proof Hb as [Hst Hd].
  set (d1 := next_id (with_session (opened_session (g_session (g_dev b)) 1) (g_dev b))) in *.
  set (s1 := opened_session (g_session (g_dev b)) 1) in *.
  assert (session_wf s1) as Hs1 by (apply opened_wf; [apply Hd|done]).
  assert (se_key_id s1 = se_key_id h) as Ek by (unfold s1; by rewrite Es).
  pose proof (accept_hello_ok s1 h 1 (g_msg_id d1) 0 1 Hs1 Hh Ek ltac:(by cbv) ltac:(right; by split_and!)) as Eacc.
  pose proof (hello_frame_wf s1 1 (g_msg_id d1) Hs1 (next_id_u16 _)) as Hwf1.
  assert (blen (frame_bytes (hello_frame s1 1 (g_msg_id d1))) = 21) as El by by rewrite blen_frame_bytes.
  assert (synced (opened_session h 1) d1) as Hy.
  { split; [by apply opened_wf|].
    split; [apply next_id_ok, with_session_ok; [done|done|apply Hd]|]. cbn. unfold s1. rewrite Es. by split_and!. }
  destruct (on_wire_hello cap h mid (g_dev b) ms t' Hh Hd ltac:(by rewrite Es) Hm Hcap Eg)
    as (tx1 & Hg & Hout & Hf & Hw & Hn & Ha). fold s1 d1 in Hout, Ha.
  destruct (answered (opened_session h 1) d1 tx1 _ ms t'
    (S (length (frame_bytes (hello_frame s1 1 (g_msg_id d1)) ++ (seal_msgs ms d1).1))) Ha Hy Hw (fits_ok ms Hf Hu))
    as (tx' & h' & Em & Hg' & Erd & Eh & Hy' & Eh1 & Ed1); [change (0 + blen ms < 2 ^ 64); lia|rewrite length_app; lia|].
  cbv zeta in *. rewrite Hout in Erd.
  pose proof (hello_frame_wf h 0 mid Hh Hm) as Hwf.
  destruct (bridge_rx_frame (hello_frame h 0 mid) cap b _ tx' Hb Hcs Hwf ltac:(lia) Em)
    as (st & Erx & Hb' & Hcs'); [by eapply tx_grows_trans|apply Hy'|].
  unfold connect.
  pose proof (encode_hello_ok h 0 mid (zeros LINK_MAX_FRAME) LINK_MAX_FRAME Hh Hm) as Ee. cbv zeta in Ee.
  rewrite Ee by (rewrite blen_zeros; link_consts; lia). cbn [mbind option_bind].
  rewrite rd_bytes_prefix. cbn [mbind option_bind]. rewrite Erx. cbn [mbind option_bind].
  rewrite Erd. cbn [mbind option_bind].
  rewrite link_frame_decode_ok; [|exact Hwf1|rewrite blen_app; pose proof (blen_nonneg (seal_msgs ms d1).1); lia].
  cbn [mbind option_bind]. rewrite El. cbv iota beta. change (21 <? 0) with false. cbv iota.
  rewrite Eacc.
  cbn [mbind option_bind]. change (c_true 0) with false. cbv iota.
  replace (drop (Z.to_nat 21) (frame_bytes (hello_frame s1 1 (g_msg_id d1)) ++ (seal_msgs ms d1).1))
    with (seal_msgs ms d1).1 by (rewrite <- El; unfold blen; by rewrite Nat2Z.id, drop_app_length).
  rewrite Eh. cbn [mbind option_bind]. eexists _, _. split; [done|].
  split; [apply in_sync_synced; split; [done|]; split; [apply Hb'|done]|].
  cbn [g_dev]. split; [done|]. rewrite Ed1, Eh1. split; [done|]. change (0 + blen ms <= 2047). lia.
Qed.

(** Conversion unfolds these before it runs the shell. *)
#[local] Strategy expand [reference over_link greet].

Lemma fresh_tty_wf t : blen (g_out t) = TTY_OUT → tty_wf (fresh_tty t).
Proof.
  intros Hb. exact (grows_wf _ _ (grows_same _ (tty_service_reset t) _
    (grows_refl _ (tty_reset_wf _ Hb)) eq_refl eq_refl eq_refl eq_refl)).
Qed.

Lemma reference_total cap ops t :
  blen (g_out t) = TTY_OUT → Forall op_ok ops → 72 <= cap < 2 ^ 31 →
  ∃ mss t', reference cap ops t = Some (mss, t').
Proof.
  intros Hb Hops Hcap. unfold reference.
  destruct (greet_total cap (fresh_tty t) (fresh_tty_wf t Hb) Hcap) as (ms & t1 & -> & Ht1).
  cbn [mbind option_bind].
  destruct (respond_all_total cap ops t1 Ht1 Hops Hcap) as (mss & t2 & ->). by eexists _, _.
Qed.

Lemma over_link_ok cap key key_id mid ops b mss t' :
  LinkCrypto.block 16 key → is_u8 key_id → is_u16 mid → 72 <= cap < 2 ^ 31 → Forall op_ok ops →
  blen ops < 2 ^ 52 → blen (g_out (g_tty (g_dev b))) = TTY_OUT →
  reference cap ops (g_tty (g_dev b)) = Some (mss, t') → in_bytes mss →
  over_link cap key key_id mid ops b = Some (mss, t').
Proof.
  intros Hk Hi Hm Hcap Hops Hn Hb E Hby. unfold over_link, link_session_init.
  assert (blen key = 16) as Hkl by (unfold blen; by rewrite (proj1 Hk)).
  rewrite rd_bytes_all by done. cbn [mbind option_bind].
  destruct (bridge_init_ok key key_id b Hk Hi Hb) as [-> Hok]. cbn [mbind option_bind].
  assert (session_wf (mk_session key key_id 0 0 0 LINK_DIR_HOST false)) as Hh by (split; [exact Hk|by split_and!]).
  unfold reference in E. destruct (greet cap _) as [[ms t1]|] eqn:Eg; [|done]. cbn [mbind option_bind] in E.
  destruct (respond_all cap ops t1) as [[mss' t2]|] eqn:Ea; [|done]. injection E as <- <-.
  apply Forall_cons_1 in Hby as [Hb1 Hby].
  destruct (connect_ok cap key key_id mid (fresh_bridge key key_id b) ms t1 Hh Hok) as (h' & b' & -> & Hy & Et & Eh & Ed);
    [done..|]. cbn [mbind option_bind]. pose proof (blen_nonneg ops).
  destruct (talk_ok cap ops mid h' b' mss' t2 Hy Hops Hm Hcap) as (h2 & b2 & -> & Et2); [lia|lia|by rewrite Et|done|].
  cbn [mbind option_bind]. by rewrite Et2.
Qed.
End Talk.

(** ** Theorem *)

(** C8: A host that connects, calls and types gets what the device is to answer: after
    the handshake it reads back, from sealed frames alone, first the shell's greeting
    and then for every call the dispatcher's reference reply and for every stretch of
    typing (or refresh) the shell's output, unchanged, in order and on the right
    channel, for every key, any number of operations up to 2^52, and every transmit
    buffer of 72 bytes or more; and the device ends in the state it would be in had
    the operations been run on it directly. *)
Theorem link_bridge_conversation {U D F C} `{Arch} `{BridgeServices (bridge_env U)}
    `{Shell (bridge_env U) D F} `{CC : !CliCode (W := bridge_env U) (C := C)}
    cap key key_id mid ops (b : @link_bridge U C) :
  cli_obeys (W := bridge_env U) (C := C) →
  LinkCrypto.block 16 key → is_u8 key_id → is_u16 mid → 72 <= cap < 2 ^ 31 → Forall op_ok ops →
  blen ops < 2 ^ 52 → blen (g_out (g_tty (g_dev b))) = TTY_OUT →
  ∃ mss t', reference cap ops (g_tty (g_dev b)) = Some (mss, t') ∧
    (in_bytes mss → over_link cap key key_id mid ops b = Some (mss, t')).
Proof.
  intros Ho Hk Hi Hm Hcap Hops Hn Hb.
  destruct (reference_total Ho cap ops (g_tty (g_dev b)) Hb Hops Hcap) as (mss & t' & E).
  exists mss, t'. split; [exact E|]. by apply over_link_ok.
Qed.

Module TalkRuns.
#[local] Existing Instance arch32.
Import BridgeRuns.

#[export] Instance op_ok_dec op : Decision (op_ok op).
Proof. destruct op; unfold op_ok; apply _. Defined.
#[export] Instance in_bytes_dec mss : Decision (in_bytes mss).
Proof. unfold in_bytes. apply _. Defined.

(** A message to an application, the command "key up", and a refresh. *)
Definition chat : list host_op :=
  [Call (tlv_bytes [(LINK_TAG_METHOD, [LINK_METHOD_MESSAGE]); (LINK_TAG_APP, str "clock"); (LINK_TAG_TEXT, str "hi")]);
   Typed (str "key up" ++ [10]); Refresh 1000].

(** What the host is to read: the prompt, status 0, the echo and the shell's line, and
    nothing. *)
Definition heard : list (list message) :=
  [[(LINK_CH_TTY, str "ardubot$ ")]; [(LINK_CH_RESULT, [LINK_TAG_STATUS; 1; 0])];
   [(LINK_CH_TTY, str "key up" ++ [10] ++ str "key down" ++ [10] ++ str "ardubot$ ")]; []].

Lemma link_bridge_conversation_witness :
  ∃ t', over_link 1024 toy_key 1 3 chat powered_on = Some (heard, t') ∧
    g_msgs (world t') !! 0%nat = Some (mk_msg (str "clock") (str "hi") true) ∧
    keys (rest (world t')) = [(SIM_KEY_UP, true)].
Proof.
  destruct (link_bridge_conversation 1024 toy_key 1 3 chat powered_on toy_obeys)
    as (mss & t' & E & Hl); [vm_decide..|].
  assert (mss = heard ∧ g_msgs (world t') !! 0%nat = Some (mk_msg (str "clock") (str "hi") true) ∧
          keys (rest (world t')) = [(SIM_KEY_UP, true)]) as (-> & Hm & Hk).
  { vm_compute in E. injection E as <- <-. split; [|split]; vm_compute; reflexivity. }
  exists t'. split; [apply Hl; vm_decide|by split].
Defined.

(** A reply that does not fit is lost, and all before it in the buffer with it, but the
    call it answers has been carried out. *)
Example lost_reply_runs :
  (h ← link_session_init (Some toy_key) 1 LINK_DIR_HOST;
   b ← link_bridge_init (Some toy_key) 1 powered_on;
   '(_, h, b) ← connect 1024 3 h b;
   '(w, h) ← op_wire (Call (tlv_bytes [(LINK_TAG_METHOD, [LINK_METHOD_KEY]); (LINK_TAG_TEXT, str "up")])) 3 h;
   '(n, _, b) ← link_bridge_rx (Some w) (blen w) (Some (zeros 32)) 32 b;
   Some (n, keys (rest (world (g_tty (g_dev b)))))) = Some (-1, [(SIM_KEY_UP, true)]).
Proof. by vm_compute. Qed.
End TalkRuns.
