(* ===== verification/Dll.v ===== *)
(** * Intrusive doubly linked lists

    The allocator's free lists and block list and the scheduler's task lists are
    lists threaded through [next]/[prev] fields of the nodes, with a head pointer
    that may be NULL.  A node is a key; [nx] and [pv] are the two fields of every
    node as functions.  [dlist] says that the list from a head pointer consists of
    the given nodes, in order, with the back pointers right. *)

From stdpp Require Import base tactics option list sets.
From S2P Require Import Prelude.

Section Dll.
Context {K : Type} `{EqDecision K}.
Implicit Types (nx pv : K → option K) (l : list K) (x y : K) (h p : option K).

Fixpoint dlist nx pv p h l : Prop :=
  match l with
  | [] => h = None
  | x :: l => h = Some x ∧ pv x = p ∧ dlist nx pv (Some x) (nx x) l
  end.

Lemma dlist_ext nx pv nx' pv' p h l :
  (∀ y, y ∈ l → nx' y = nx y ∧ pv' y = pv y) → dlist nx pv p h l → dlist nx' pv' p h l.
Proof.
  revert p h. induction l as [|x l IH]; intros p h He; [done|].
  intros (-> & Hp & Hl). destruct (He x) as [En Ep]; [left|].
  split; [done|]. split; [congruence|]. rewrite En. apply IH; [|done].
  intros y Hy. apply He. by right.
Qed.

(** A head pointer determines its nodes. *)
Lemma dlist_inj nx pv p p' h l l' : dlist nx pv p h l → dlist nx pv p' h l' → l = l'.
Proof.
  revert p p' h l'. induction l as [|x l IH]; intros p p' h [|x' l'].
  - done.
  - by intros -> [? _].
  - by intros [-> _] ?.
  - intros (-> & _ & Hl) (E & _ & Hl'). injection E as <-. f_equal. by eapply IH.
Qed.

Lemma dlist_head nx pv p h l : dlist nx pv p h l → h = head l.
Proof. destruct l; [done|]. by intros [-> _]. Qed.

(** The node before and the node after. *)
Lemma dlist_mid nx pv p h l1 x l2 :
  dlist nx pv p h (l1 ++ x :: l2) →
  pv x = (match last l1 with Some y => Some y | None => p end) ∧ nx x = head l2.
Proof.
  revert p h. induction l1 as [|y l1 IH]; intros p h.
  - intros (_ & Hp & Hl). split; [done|]. by eapply dlist_head.
  - intros (_ & _ & Hl). destruct (IH _ _ Hl) as [E1 E2]. split; [|done].
    rewrite E1. rewrite last_cons. by destruct (last l1).
Qed.

(** Pointers of a list's nodes lead to nodes of the list. *)
Lemma dlist_closed nx pv h l x y :
  dlist nx pv None h l → x ∈ l → nx x = Some y ∨ pv x = Some y → y ∈ l.
Proof.
  intros Hl Hx Hy. apply list_elem_of_split in Hx as (l1 & l2 & ->).
  apply dlist_mid in Hl as [Ep En]. destruct Hy as [Hy|Hy].
  - rewrite En in Hy. destruct l2 as [|z l2]; [done|]. injection Hy as <-. set_solver.
  - rewrite Ep in Hy. destruct (last l1) as [z|] eqn:E; [|done]. injection Hy as <-.
    apply last_Some in E as [l' ->]. set_solver.
Qed.

(** ** Push at the head *)

Lemma dlist_push nx pv nx' pv' h l x :
  dlist nx pv None h l → x ∉ l → NoDup l →
  nx' x = h → pv' x = None →
  (∀ y, y ∈ l → nx' y = nx y) →
  (∀ y, y ∈ l → pv' y = if decide (h = Some y) then Some x else pv y) →
  dlist nx' pv' None (Some x) (x :: l).
Proof.
  intros Hl Hx Hnd Hnx Hpv Hn Hp. split; [done|]. split; [done|]. rewrite Hnx.
  destruct l as [|y l]; [done|]. destruct Hl as (-> & _ & Hl).
  apply NoDup_cons in Hnd as [Hy Hnd].
  split; [done|]. split; [rewrite Hp by left; by rewrite decide_True|].
  rewrite Hn by left. eapply dlist_ext; [|exact Hl]. intros z Hz.
  split; [apply Hn; by right|]. rewrite Hp by (by right).
  rewrite decide_False; [done|]. intros [= <-]. done.
Qed.

(** ** Removal *)

Lemma dlist_remove_gen nx pv nx' pv' p h l1 x l2 :
  dlist nx pv p h (l1 ++ x :: l2) → NoDup (l1 ++ x :: l2) →
  (∀ y, p = Some y → y ∉ l1 ++ x :: l2) →
  (∀ y, y ∈ l1 ++ l2 → nx' y = if decide (pv x = Some y) then nx x else nx y) →
  (∀ y, y ∈ l1 ++ l2 → pv' y = if decide (nx x = Some y) then pv x else pv y) →
  dlist nx' pv' p (match l1 with [] => nx x | _ => h end) (l1 ++ l2).
Proof.
  revert p h. induction l1 as [|z l1 IH]; intros p h Hl Hnd Hfr Hn Hp.
  - cbn [app] in *. destruct Hl as (-> & Epx & Hl). apply NoDup_cons in Hnd as [Hx Hnd].
    destruct l2 as [|y l2]; [exact Hl|]. destruct Hl as (Enx & Epy & Hl).
    apply NoDup_cons in Hnd as [Hy Hnd].
    split; [done|]. split.
    { rewrite Hp by left. by rewrite Enx, decide_True. }
    rewrite Hn by left. rewrite decide_False; [|].
    2:{ rewrite Epx. intros ->. apply (Hfr y); [done|]. set_solver. }
    eapply dlist_ext; [|exact Hl]. intros w Hw. split.
    + rewrite Hn by (by right). rewrite decide_False; [done|].
      rewrite Epx. intros ->. apply (Hfr w); [done|]. set_solver.
    + rewrite Hp by (by right). rewrite decide_False; [done|]. rewrite Enx. intros [= <-]. done.
  - cbn [app] in *. destruct Hl as (-> & Ez & Hl). apply NoDup_cons in Hnd as [Hz Hnd].
    pose proof (dlist_mid _ _ _ _ _ _ _ Hl) as [Epx Enx].
    assert (∀ y, nx x = Some y → y ∈ l2) as Hnx2.
    { intros y. rewrite Enx. destruct l2; [done|]. intros [= <-]. left. }
    split; [done|]. split.
    { rewrite Hp by left. rewrite decide_False; [done|]. intros ?%Hnx2. set_solver. }
    rewrite Hn by left.
    assert ((if decide (pv x = Some z) then nx x else nx z) =
            match l1 with [] => nx x | _ => nx z end) as ->.
    { destruct l1 as [|w l1]; [by rewrite decide_True|]. rewrite decide_False; [done|].
      rewrite Epx. destruct (last (w :: l1)) as [v|] eqn:El; [|by apply last_None in El].
      intros [= ->]. apply last_Some in El as [l' El]. rewrite El in Hz. set_solver. }
    apply IH; [done|done| | |].
    + intros y [= <-]. done.
    + intros y Hy. apply Hn. by right.
    + intros y Hy. apply Hp. by right.
Qed.

Lemma dlist_remove nx pv nx' pv' h l1 x l2 :
  dlist nx pv None h (l1 ++ x :: l2) → NoDup (l1 ++ x :: l2) →
  (∀ y, y ∈ l1 ++ l2 → nx' y = if decide (pv x = Some y) then nx x else nx y) →
  (∀ y, y ∈ l1 ++ l2 → pv' y = if decide (nx x = Some y) then pv x else pv y) →
  dlist nx' pv' None (match pv x with Some _ => h | None => nx x end) (l1 ++ l2).
Proof.
  intros Hl Hnd Hn Hp. pose proof (dlist_mid _ _ _ _ _ _ _ Hl) as [Epx _].
  assert (match pv x with Some _ => h | None => nx x end =
          match l1 with [] => nx x | _ => h end) as ->.
  { rewrite Epx. destruct l1 as [|w l1]; [done|].
    destruct (last (w :: l1)) eqn:El; [done|]. by apply last_None in El. }
  eapply dlist_remove_gen; done.
Qed.

(** ** Insertion after a node *)

Lemma dlist_insert_after nx pv nx' pv' p h l1 x y l2 :
  dlist nx pv p h (l1 ++ x :: l2) → NoDup (l1 ++ x :: l2) → y ∉ l1 ++ x :: l2 →
  nx' x = Some y → nx' y = nx x → pv' y = Some x → pv' x = pv x →
  (∀ z, z ∈ l1 ++ l2 → nx' z = nx z) →
  (∀ z, z ∈ l1 ++ l2 → pv' z = if decide (nx x = Some z) then Some y else pv z) →
  dlist nx' pv' p h (l1 ++ x :: y :: l2).
Proof.
  revert p h. induction l1 as [|w l1 IH]; intros p h Hl Hnd Hy Hnx Hny Hpy Hpx Hn Hp.
  - cbn [app] in *. destruct Hl as (-> & Epx & Hl). apply NoDup_cons in Hnd as [Hx Hnd].
    split; [done|]. split; [congruence|]. rewrite Hnx. split; [done|]. split; [done|].
    rewrite Hny. destruct l2 as [|z l2]; [exact Hl|]. destruct Hl as (Enx & Epz & Hl).
    apply NoDup_cons in Hnd as [Hz Hnd]. split; [done|].
    split; [rewrite Hp by left; by rewrite decide_True|]. rewrite Hn by left.
    eapply dlist_ext; [|exact Hl]. intros v Hv. split; [apply Hn; by right|].
    rewrite Hp by (by right). rewrite decide_False; [done|]. rewrite Enx. intros [= <-]. done.
  - cbn [app] in *. destruct Hl as (-> & Ew & Hl). apply NoDup_cons in Hnd as [Hw Hnd].
    pose proof (dlist_mid _ _ _ _ _ _ _ Hl) as [_ Enx].
    split; [done|]. split.
    { rewrite Hp by left. rewrite decide_False; [done|]. rewrite Enx.
      destruct l2 as [|z l2]; [done|]. intros [= <-]. set_solver. }
    rewrite Hn by left. apply IH; try done.
    + set_solver.
    + intros z Hz. apply Hn. by right.
    + intros z Hz. apply Hp. by right.
Qed.
End Dll.
