(* ===== verification/Alloc.v ===== *)
(** * The heap allocator (kernel/alloc.c)

    A pool of memory is tiled by blocks; a block is a header followed by its data.
    The headers are the values of a finite map from addresses, so that a
    [block_header_t *] is a key of that map and NULL is [None]; reading or writing
    a header at an address that holds none is [None] of the outer option.  The
    data bytes of the blocks are not modelled, and a header that was merged into
    its neighbour stays in the map as it stays in memory.

    The allocator is proved against an abstract state: the list of blocks in
    address order, each with its size and whether it is free. *)

From Stdlib Require Import ZArith Lia.
From stdpp Require Import base tactics option list numbers gmap sets.
From S2P Require Import Prelude.
From S2P Require Import Dll.

Definition TLSF_SIGNATURE : Z := 0x544C5346.
Definition TLSF_BLOCK_FREE : Z := 1.
Definition TLSF_BLOCK_USED : Z := 2.
Definition TLSF_BLOCK_ALIGN : Z := 4.

Record block_header_t := mk_block {
  bh_signature : Z;
  bh_size : Z;
  bh_flags : Z;
  bh_prev_free : option Z;
  bh_next_free : option Z;
  bh_prev_phys : option Z;
  bh_next_phys : option Z
}.

Record tlsf_pool_t := mk_pool {
  tp_signature : Z;
  tp_total_size : Z;
  tp_used_size : Z;
  tp_min_free : Z;
  tp_free_list : list (option Z);
  tp_block_list : option Z;
  tp_memory : Z;
  tp_heap : gmap Z block_header_t
}.

(** Field updates, [block->size = s] and the like. *)
Definition set_size (s : Z) (h : block_header_t) : block_header_t :=
  mk_block (bh_signature h) s (bh_flags h) (bh_prev_free h) (bh_next_free h)
    (bh_prev_phys h) (bh_next_phys h).
Definition set_flags (f : Z) (h : block_header_t) : block_header_t :=
  mk_block (bh_signature h) (bh_size h) f (bh_prev_free h) (bh_next_free h)
    (bh_prev_phys h) (bh_next_phys h).
Definition set_prev_free (q : option Z) (h : block_header_t) : block_header_t :=
  mk_block (bh_signature h) (bh_size h) (bh_flags h) q (bh_next_free h)
    (bh_prev_phys h) (bh_next_phys h).
Definition set_next_free (q : option Z) (h : block_header_t) : block_header_t :=
  mk_block (bh_signature h) (bh_size h) (bh_flags h) (bh_prev_free h) q
    (bh_prev_phys h) (bh_next_phys h).
Definition set_prev_phys (q : option Z) (h : block_header_t) : block_header_t :=
  mk_block (bh_signature h) (bh_size h) (bh_flags h) (bh_prev_free h) (bh_next_free h)
    q (bh_next_phys h).
Definition set_next_phys (q : option Z) (h : block_header_t) : block_header_t :=
  mk_block (bh_signature h) (bh_size h) (bh_flags h) (bh_prev_free h) (bh_next_free h)
    (bh_prev_phys h) q.

Definition with_heap (p : tlsf_pool_t) (m : gmap Z block_header_t) : tlsf_pool_t :=
  mk_pool (tp_signature p) (tp_total_size p) (tp_used_size p) (tp_min_free p)
    (tp_free_list p) (tp_block_list p) (tp_memory p) m.
Definition with_free_list (p : tlsf_pool_t) (l : list (option Z)) : tlsf_pool_t :=
  mk_pool (tp_signature p) (tp_total_size p) (tp_used_size p) (tp_min_free p)
    l (tp_block_list p) (tp_memory p) (tp_heap p).
Definition with_used_size (p : tlsf_pool_t) (n : Z) : tlsf_pool_t :=
  mk_pool (tp_signature p) (tp_total_size p) n (tp_min_free p)
    (tp_free_list p) (tp_block_list p) (tp_memory p) (tp_heap p).
Definition with_min_free (p : tlsf_pool_t) (n : Z) : tlsf_pool_t :=
  mk_pool (tp_signature p) (tp_total_size p) (tp_used_size p) n
    (tp_free_list p) (tp_block_list p) (tp_memory p) (tp_heap p).

(** Reading and writing the header at [a]. *)
Definition hget (p : tlsf_pool_t) (a : Z) : option block_header_t := tp_heap p !! a.
Definition hupd (p : tlsf_pool_t) (a : Z) (f : block_header_t → block_header_t)
    : option tlsf_pool_t :=
  h ← hget p a; Some (with_heap p (<[a := f h]> (tp_heap p))).
(** [if (q) q->... = ...;] *)
Definition hupd_opt (p : tlsf_pool_t) (q : option Z) (f : block_header_t → block_header_t)
    : option tlsf_pool_t :=
  match q with Some a => hupd p a f | None => Some p end.
(** Writing every field of a header that was not one before; the free-list
    pointers are written by [block_insert_free] before anything reads them. *)
Definition hnew (p : tlsf_pool_t) (a size : Z) (prev next : option Z) : tlsf_pool_t :=
  with_heap p (<[a := mk_block TLSF_SIGNATURE size 0 None None prev next]> (tp_heap p)).

(** ** Size classes *)

(** The unrolled binary search of [tlsf_fls]: one test per line. *)
Definition fls_step (k : Z) (xr : Z * Z) : Z * Z :=
  let '(x, r) := xr in
  if 2 ^ k <=? x then (Z.shiftr x k, r + k) else (x, r).

Definition tlsf_fls (x : Z) : Z :=
  let '(x, r) := fls_step 2 (fls_step 4 (fls_step 8 (fls_step 16 (x, 0)))) in
  if 2 <=? x then r + 1 else r.

Definition tlsf_get_fl_index (size : Z) : Z := tlsf_fls (u32 size).

Definition tlsf_get_index (size : Z) : Z :=
  let fl := tlsf_get_fl_index size in if 32 <=? fl then 31 else fl.

Section Alloc.
Context `{Arch}.

(** [sizeof (block_header_t)] and [sizeof (tlsf_pool_t)] *)
Definition BLOCK_OVERHEAD : Z := if size_bits =? 32 then 28 else 48.
Definition POOL_SIZE : Z := if size_bits =? 32 then 152 else 304.
Definition MIN_BLOCK_SIZE : Z := BLOCK_OVERHEAD + TLSF_BLOCK_ALIGN.

(** [ALIGN_UP (x, a)] on [size_t] *)
Definition ALIGN_UP (x a : Z) : Z := Z.land (usz (x + a - 1)) (usz (Z.lnot (a - 1))).

Definition block_from_ptr (ptr : Z) : Z := usz (ptr - BLOCK_OVERHEAD).
Definition ptr_from_block (block : Z) : Z := usz (block + BLOCK_OVERHEAD).

(** ** Free lists *)

Definition block_insert_free (p : tlsf_pool_t) (block : Z) : option tlsf_pool_t :=
  h ← hget p block;
  let idx := tlsf_get_index (bh_size h) in
  p ← hupd p block (λ h, set_flags (Z.lor (bh_flags h) TLSF_BLOCK_FREE) h);
  hd ← rd (tp_free_list p) idx;
  p ← hupd p block (set_next_free hd);
  p ← hupd p block (set_prev_free None);
  p ← hupd_opt p hd (set_prev_free (Some block));
  l ← wr (tp_free_list p) idx (Some block);
  Some (with_free_list p l).

Definition block_remove_free (p : tlsf_pool_t) (block : Z) : option tlsf_pool_t :=
  h ← hget p block;
  let idx := tlsf_get_index (bh_size h) in
  p ← (match bh_prev_free h with
       | Some q => hupd p q (set_next_free (bh_next_free h))
       | None => l ← wr (tp_free_list p) idx (bh_next_free h); Some (with_free_list p l)
       end);
  h ← hget p block;
  p ← hupd_opt p (bh_next_free h) (set_prev_free (bh_prev_free h));
  hupd p block (λ h, set_flags (Z.land (bh_flags h) (u8 (Z.lnot TLSF_BLOCK_FREE))) h).

(** ** Splitting and merging *)

Definition block_split (p : tlsf_pool_t) (block size : Z) : option (option Z * tlsf_pool_t) :=
  h ← hget p block;
  let remaining := usz (bh_size h - size - BLOCK_OVERHEAD) in
  if remaining <? MIN_BLOCK_SIZE then Some (None, p) else
  let new_block := usz (block + size + BLOCK_OVERHEAD) in
  let p := hnew p new_block (u32 remaining) (Some block) (bh_next_phys h) in
  p ← hupd_opt p (bh_next_phys h) (set_prev_phys (Some new_block));
  p ← hupd p block (set_next_phys (Some new_block));
  p ← hupd p block (set_size (u32 size));
  p ← block_insert_free p new_block;
  Some (Some new_block, p).

(** [next] has left its free list; [block] takes over its extent. *)
Definition block_absorb (p : tlsf_pool_t) (block next : Z) : option tlsf_pool_t :=
  n ← hget p next;
  p ← hupd p block (λ h, set_size (u32 (bh_size h + usz (BLOCK_OVERHEAD + bh_size n))) h);
  p ← hupd p block (set_next_phys (bh_next_phys n));
  hupd_opt p (bh_next_phys n) (set_prev_phys (Some block)).

Definition is_free_at (p : tlsf_pool_t) (q : option Z) : option bool :=
  match q with
  | None => Some false
  | Some a => h ← hget p a; Some (bits_set (bh_flags h) TLSF_BLOCK_FREE)
  end.

Definition block_merge (p : tlsf_pool_t) (block : Z) : option (Z * tlsf_pool_t) :=
  h ← hget p block;
  prev_free ← is_free_at p (bh_prev_phys h);
  '(block, p) ←
    (match bh_prev_phys h, prev_free with
     | Some prev, true =>
       p ← block_remove_free p prev;
       p ← block_absorb p prev block;
       Some (prev, p)
     | _, _ => Some (block, p)
     end);
  h ← hget p block;
  next_free ← is_free_at p (bh_next_phys h);
  match bh_next_phys h, next_free with
  | Some next, true =>
    p ← block_remove_free p next;
    p ← block_absorb p block next;
    Some (block, p)
  | _, _ => Some (block, p)
  end.

(** ** The pool *)

(** [while (block) { free += ...; block = block->next_free; }] *)
Fixpoint bucket_size (fuel : nat) (p : tlsf_pool_t) (block : option Z) (free : Z) : option Z :=
  match block with
  | None => Some free
  | Some b =>
    match fuel with
    | O => None
    | S fuel =>
      h ← hget p b;
      bucket_size fuel p (bh_next_free h) (usz (free + usz (bh_size h + BLOCK_OVERHEAD)))
    end
  end.

(** A free list has no more nodes than there are headers. *)
Definition list_fuel (p : tlsf_pool_t) : nat := S (size (tp_heap p)).

Fixpoint buckets_size (p : tlsf_pool_t) (heads : list (option Z)) (free : Z) : option Z :=
  match heads with
  | [] => Some free
  | hd :: heads => free ← bucket_size (list_fuel p) p hd free; buckets_size p heads free
  end.

Definition tlsf_pool_free_size (pool : option tlsf_pool_t) : option Z :=
  match pool with
  | None => Some 0
  | Some p => buckets_size p (tp_free_list p) 0
  end.

Definition tlsf_pool_used_size (pool : option tlsf_pool_t) : Z :=
  match pool with Some p => tp_used_size p | None => 0 end.

Definition tlsf_pool_total_size (pool : option tlsf_pool_t) : Z :=
  match pool with Some p => tp_total_size p | None => 0 end.

Fixpoint check_loop (fuel : nat) (p : tlsf_pool_t) (block : option Z) : option bool :=
  match block with
  | None => Some true
  | Some b =>
    match fuel with
    | O => None
    | S fuel =>
      h ← hget p b;
      if negb (bh_signature h =? TLSF_SIGNATURE) then Some false
      else check_loop fuel p (bh_next_phys h)
    end
  end.

Definition tlsf_pool_check (pool : option tlsf_pool_t) : option bool :=
  match pool with
  | None => Some false
  | Some p =>
    if negb (tp_signature p =? TLSF_SIGNATURE) then Some false
    else check_loop (list_fuel p) p (tp_block_list p)
  end.

Definition tlsf_create (mem : option Z) (bytes : Z) : option (option tlsf_pool_t) :=
  match mem with
  | None => Some None
  | Some mem =>
    if bytes <? POOL_SIZE + MIN_BLOCK_SIZE then Some None else
    let total := usz (bytes - POOL_SIZE) in
    let memory := usz (mem + POOL_SIZE) in
    let p := mk_pool TLSF_SIGNATURE total 0 total (replicate 32 None) (Some memory) memory ∅ in
    let p := hnew p memory (u32 (total - BLOCK_OVERHEAD)) None None in
    p ← block_insert_free p memory;
    Some (Some p)
  end.

(** ** Allocation *)

(** [while (block && block->size < total_size) block = block->next_free;] *)
Fixpoint scan_bucket (fuel : nat) (p : tlsf_pool_t) (block : option Z) (total_size : Z)
    : option (option Z) :=
  match block with
  | None => Some None
  | Some b =>
    match fuel with
    | O => None
    | S fuel =>
      h ← hget p b;
      if bh_size h <? total_size then scan_bucket fuel p (bh_next_free h) total_size
      else Some (Some b)
    end
  end.

(** The body of the [if (block)] of [tlsf_malloc]. *)
Definition malloc_take (p : tlsf_pool_t) (block size total_size : Z)
    : option (Z * tlsf_pool_t) :=
  p ← block_remove_free p block;
  h ← hget p block;
  p ← (if usz (total_size + MIN_BLOCK_SIZE) <=? bh_size h
       then '(_, p) ← block_split p block size; Some p else Some p);
  p ← hupd p block (λ h, set_flags (Z.lor (bh_flags h) TLSF_BLOCK_USED) h);
  h ← hget p block;
  let p := with_used_size p (usz (tp_used_size p + usz (bh_size h + BLOCK_OVERHEAD))) in
  free ← tlsf_pool_free_size (Some p);
  let p := if free <? tp_min_free p then with_min_free p free else p in
  Some (ptr_from_block block, p).

(** [n] buckets are left, from [fl] on. *)
Fixpoint malloc_loop (n : nat) (p : tlsf_pool_t) (size total_size start_fl fl : Z)
    : option (option Z * tlsf_pool_t) :=
  match n with
  | O => Some (None, p)
  | S n =>
    hd ← rd (tp_free_list p) fl;
    block ← (if fl =? start_fl then scan_bucket (list_fuel p) p hd total_size else Some hd);
    match block with
    | Some b => '(ptr, p) ← malloc_take p b size total_size; Some (Some ptr, p)
    | None => malloc_loop n p size total_size start_fl (fl + 1)
    end
  end.

Definition tlsf_malloc (pool : option tlsf_pool_t) (size : Z)
    : option (option Z * option tlsf_pool_t) :=
  match pool with
  | None => Some (None, None)
  | Some p =>
    if size =? 0 then Some (None, pool) else
    let size := ALIGN_UP size TLSF_BLOCK_ALIGN in
    let total_size := usz (size + BLOCK_OVERHEAD) in
    let start_fl := tlsf_get_index total_size in
    '(r, p) ← malloc_loop (Z.to_nat (32 - start_fl)) p size total_size start_fl start_fl;
    Some (r, Some p)
  end.

Definition tlsf_free (pool : option tlsf_pool_t) (ptr : option Z) : option (option tlsf_pool_t) :=
  match pool, ptr with
  | Some p, Some ptr =>
    let block := block_from_ptr ptr in
    h ← hget p block;
    if negb (bh_signature h =? TLSF_SIGNATURE) then Some pool else
    if negb (bits_set (bh_flags h) TLSF_BLOCK_USED) then Some pool else
    p ← hupd p block (λ h, set_flags (Z.land (bh_flags h) (u8 (Z.lnot TLSF_BLOCK_USED))) h);
    let p := with_used_size p (usz (tp_used_size p - usz (bh_size h + BLOCK_OVERHEAD))) in
    '(block, p) ← block_merge p block;
    p ← block_insert_free p block;
    Some (Some p)
  | _, _ => Some pool
  end.

(** Accessing [n] data bytes from [ptr]: the block must be that large. *)
Definition data_access (p : tlsf_pool_t) (ptr n : Z) : option unit :=
  h ← hget p (block_from_ptr ptr);
  if bh_size h <? n then None else Some tt.

(** [memcpy (new_ptr, ptr, block->size)] reads exactly the old block and writes as
    many bytes of the new one. *)
Definition tlsf_realloc (pool : option tlsf_pool_t) (ptr : option Z) (size : Z)
    : option (option Z * option tlsf_pool_t) :=
  match ptr with
  | None => tlsf_malloc pool size
  | Some a =>
    if size =? 0 then pool ← tlsf_free pool ptr; Some (None, pool) else
    p ← pool;
    let block := block_from_ptr a in
    h ← hget p block;
    if negb (bh_signature h =? TLSF_SIGNATURE) then Some (None, pool) else
    let size := ALIGN_UP size TLSF_BLOCK_ALIGN in
    let total_size := usz (size + BLOCK_OVERHEAD) in
    if total_size <=? bh_size h then
      if usz (total_size + MIN_BLOCK_SIZE) <=? bh_size h
      then '(_, p) ← block_split p block size; Some (ptr, Some p)
      else Some (ptr, pool)
    else
      next_free ← is_free_at p (bh_next_phys h);
      next_size ← (match bh_next_phys h with
                   | Some n => hn ← hget p n; Some (bh_size hn) | None => Some 0 end);
      match bh_next_phys h, next_free && (total_size <=? usz (bh_size h + BLOCK_OVERHEAD + next_size)) with
      | Some next, true =>
        p ← block_remove_free p next;
        p ← block_absorb p block next;
        h ← hget p block;
        if usz (total_size + MIN_BLOCK_SIZE) <=? bh_size h
        then '(_, p) ← block_split p block size; Some (ptr, Some p)
        else Some (ptr, Some p)
      | _, _ =>
        '(new_ptr, pool) ← tlsf_malloc pool size;
        match new_ptr with
        | Some n =>
          p ← pool;
          h ← hget p block;
          _ ← data_access p n (bh_size h);
          pool ← tlsf_free pool ptr;
          Some (new_ptr, pool)
        | None => Some (None, pool)
        end
      end
  end.

Definition tlsf_memalign (pool : option tlsf_pool_t) (align size : Z)
    : option (option Z * option tlsf_pool_t) :=
  match pool with
  | None => Some (None, None)
  | Some _ =>
    if size =? 0 then Some (None, pool) else
    if c_true (Z.land align (usz (align - 1))) then Some (None, pool) else
    let size := ALIGN_UP size TLSF_BLOCK_ALIGN in
    let align := ALIGN_UP align TLSF_BLOCK_ALIGN in
    '(ptr, pool) ← tlsf_malloc pool (usz (size + 2 * align + MIN_BLOCK_SIZE));
    match ptr with
    | None => Some (None, pool)
    | Some raw =>
      p ← pool;
      let aligned := ALIGN_UP raw align in
      let offset := usz (aligned - raw) in
      let '(aligned, offset) :=
        if c_true offset && (offset <? MIN_BLOCK_SIZE)
        then (usz (aligned + align), usz (aligned + align - raw)) else (aligned, offset) in
      if offset =? 0 then Some (ptr, pool) else
      let block := block_from_ptr raw in
      let new_block := usz (block + offset) in
      p ← block_remove_free p block;
      h ← hget p block;
      let p := hnew p new_block (u32 (bh_size h - offset)) (Some block) (bh_next_phys h) in
      p ← hupd_opt p (bh_next_phys h) (set_prev_phys (Some new_block));
      p ← hupd p block (set_next_phys (Some new_block));
      p ← hupd p block (set_size (u32 (offset - BLOCK_OVERHEAD)));
      p ← block_insert_free p block;
      p ← hupd p new_block (λ h, set_flags (Z.lor (bh_flags h) TLSF_BLOCK_USED) h);
      h ← hget p new_block;
      let p := with_used_size p (usz (tp_used_size p + usz (bh_size h + BLOCK_OVERHEAD))) in
      p ← (if usz (size + MIN_BLOCK_SIZE) <=? bh_size h
           then '(_, p) ← block_split p new_block size; Some p else Some p);
      Some (Some (ptr_from_block new_block), Some p)
    end
  end.

(** ** The system heap

    [g_heap_memory] is a 16 KB array at some address; [g_system_pool] is created
    on first use. *)

Definition HEAP_SIZE : Z := 16 * 1024.

Section System.
Variable g_heap_memory : Z.

Definition system_pool (g : option tlsf_pool_t) : option (option tlsf_pool_t) :=
  match g with
  | Some _ => Some g
  | None => tlsf_create (Some g_heap_memory) HEAP_SIZE
  end.

Definition os_malloc (g : option tlsf_pool_t) (size : Z)
    : option (option Z * option tlsf_pool_t) :=
  g ← system_pool g; tlsf_malloc g size.

Definition os_calloc (g : option tlsf_pool_t) (nmemb size : Z)
    : option (option Z * option tlsf_pool_t) :=
  let total := usz (nmemb * size) in
  '(ptr, g) ← os_malloc g total;
  match ptr with
  | Some a => p ← g; _ ← data_access p a total; Some (ptr, g)
  | None => Some (None, g)
  end.

Definition os_realloc (g : option tlsf_pool_t) (ptr : option Z) (size : Z)
    : option (option Z * option tlsf_pool_t) :=
  g ← system_pool g; tlsf_realloc g ptr size.

Definition os_free (g : option tlsf_pool_t) (ptr : option Z) : option (option tlsf_pool_t) :=
  match g, ptr with
  | Some _, Some _ => tlsf_free g ptr
  | _, _ => Some g
  end.

Definition os_get_free_heap (g : option tlsf_pool_t) : option (Z * option tlsf_pool_t) :=
  g ← system_pool g; n ← tlsf_pool_free_size g; Some (n, g).

Definition os_get_min_free_heap (g : option tlsf_pool_t) : option (Z * option tlsf_pool_t) :=
  g ← system_pool g; p ← g; Some (tp_min_free p, g).

Definition os_get_heap_total : Z := HEAP_SIZE.
End System.
End Alloc.
