(* ===== verification/AllocRep.v ===== *)
(** * The allocator's headers and its abstract state (kernel/alloc.c)

    The abstract state of a pool is the list of its blocks in address order.
    [rep] ties it to the headers: physical list, tiling of the memory and the 32
    free lists.  Each header operation is proved to act on it as one step. *)

From Stdlib Require Import ZArith Lia.
From stdpp Require Import base tactics option list numbers gmap fin_maps sets.
From S2P Require Import Prelude.
From S2P Require Import Dll.
From S2P Require Import Alloc.

(** ** Size classes are binary logarithms *)

Lemma fls_step_log2 k x r :
  0 < k → 0 <= x < 2 ^ (2 * k) →
  let '(x', r') := fls_step k (x, r) in
  0 <= x' < 2 ^ k ∧ r' + Z.log2 x' = r + Z.log2 x.
Proof.
  intros Hk Hx. unfold fls_step. destruct (2 ^ k <=? x) eqn:E; bool_hyps; [|split_and!; lia].
  assert (2 ^ (2 * k) = 2 ^ k * 2 ^ k) as E2 by (rewrite <- Z.pow_add_r by lia; f_equal; lia).
  pose proof (pow2_pos k ltac:(lia)).
  split.
  - rewrite Z.shiftr_div_pow2 by lia. split; [apply Z.div_pos; lia|].
    apply Z.div_lt_upper_bound; lia.
  - rewrite Z.log2_shiftr by lia. assert (k <= Z.log2 x) by (apply Z.log2_le_pow2; lia). lia.
Qed.

Lemma tlsf_fls_log2 x : 0 <= x < 2 ^ 32 → tlsf_fls x = Z.log2 x.
Proof.
  intros Hx. unfold tlsf_fls.
  pose proof (fls_step_log2 16 x 0 ltac:(lia) Hx) as H1.
  destruct (fls_step 16 (x, 0)) as [x1 r1]. destruct H1 as [Hx1 E1].
  pose proof (fls_step_log2 8 x1 r1 ltac:(lia) Hx1) as H2.
  destruct (fls_step 8 (x1, r1)) as [x2 r2]. destruct H2 as [Hx2 E2].
  pose proof (fls_step_log2 4 x2 r2 ltac:(lia) Hx2) as H3.
  destruct (fls_step 4 (x2, r2)) as [x3 r3]. destruct H3 as [Hx3 E3].
  pose proof (fls_step_log2 2 x3 r3 ltac:(lia) Hx3) as H4.
  destruct (fls_step 2 (x3, r3)) as [x4 r4]. destruct H4 as [Hx4 E4].
  assert (x4 = 0 ∨ x4 = 1 ∨ x4 = 2 ∨ x4 = 3) as Hx4' by lia.
  destruct Hx4' as [-> | [-> | [-> | ->]]]; cbn [Z.leb Z.compare Pos.compare Pos.compare_cont];
    cbn in E4; lia.
Qed.

Lemma tlsf_get_index_log2 s : 0 <= s < 2 ^ 32 → tlsf_get_index s = Z.log2 s.
Proof.
  intros Hs. unfold tlsf_get_index, tlsf_get_fl_index. rewrite wrap_id by done.
  rewrite tlsf_fls_log2 by done. destruct (32 <=? Z.log2 s) eqn:E; [|done]. bool_hyps.
  destruct (decide (s = 0)) as [->|]; [done|].
  assert (Z.log2 s < 32) by (apply Z.log2_lt_pow2; lia). lia.
Qed.

Lemma tlsf_get_index_range s : 0 <= tlsf_get_index s < 32.
Proof.
  unfold tlsf_get_index, tlsf_get_fl_index.
  pose proof (wrap_in_w 32 s ltac:(lia)) as Hw. unfold in_w in Hw.
  rewrite tlsf_fls_log2 by done. pose proof (Z.log2_nonneg (u32 s)).
  destruct (32 <=? Z.log2 (u32 s)) eqn:E; bool_hyps; lia.
Qed.

(** ** The abstract state *)

(** [Det]: a block that is between lists, in the middle of an operation. *)
Inductive block_st := Free | Used | Det.

#[export] Instance block_st_eq_dec : EqDecision block_st.
Proof. solve_decision. Defined.

Record blk := mk_blk { b_addr : Z; b_size : Z; b_st : block_st }.

#[export] Instance blk_eq_dec : EqDecision blk.
Proof. solve_decision. Defined.

Definition st_flags (s : block_st) : Z :=
  match s with Free => TLSF_BLOCK_FREE | Used => TLSF_BLOCK_USED | Det => 0 end.

(** The link fields of the header at an address. *)
Definition nfree (p : tlsf_pool_t) (a : Z) : option Z := hget p a ≫= bh_next_free.
Definition pfree (p : tlsf_pool_t) (a : Z) : option Z := hget p a ≫= bh_prev_free.
Definition nphys (p : tlsf_pool_t) (a : Z) : option Z := hget p a ≫= bh_next_phys.
Definition pphys (p : tlsf_pool_t) (a : Z) : option Z := hget p a ≫= bh_prev_phys.

Definition hdr_ok (p : tlsf_pool_t) (b : blk) : Prop :=
  ∃ h, hget p (b_addr b) = Some h ∧ bh_signature h = TLSF_SIGNATURE ∧
    bh_size h = b_size b ∧ bh_flags h = st_flags (b_st b).

(** ** What the free-list operations do to the headers *)

(** Rewrite every header in place. *)
Definition hmap (f : Z → block_header_t → block_header_t) (p : tlsf_pool_t) : tlsf_pool_t :=
  with_heap p (map_imap (λ y k, Some (f y k)) (tp_heap p)).

Lemma hget_hmap f p y : hget (hmap f p) y = f y <$> hget p y.
Proof. unfold hget, hmap. cbn [tp_heap with_heap]. rewrite map_lookup_imap. by destruct (_ !! y). Qed.

(** Removing [a], whose header is [h], from its free list. *)
Definition rm_hdr (a : Z) (h : block_header_t) (y : Z) (k : block_header_t) : block_header_t :=
  mk_block (bh_signature k) (bh_size k)
    (if decide (y = a) then Z.land (bh_flags k) 254 else bh_flags k)
    (if decide (bh_next_free h = Some y) then bh_prev_free h else bh_prev_free k)
    (if decide (bh_prev_free h = Some y) then bh_next_free h else bh_next_free k)
    (bh_prev_phys k) (bh_next_phys k).

(** Putting [a] at the head of a free list whose head is [hd]. *)
Definition ins_hdr (a : Z) (hd : option Z) (y : Z) (k : block_header_t) : block_header_t :=
  mk_block (bh_signature k) (bh_size k)
    (if decide (y = a) then Z.lor (bh_flags k) 1 else bh_flags k)
    (if decide (y = a) then None else if decide (hd = Some y) then Some a else bh_prev_free k)
    (if decide (y = a) then hd else bh_next_free k)
    (bh_prev_phys k) (bh_next_phys k).

(** Compare two heaps header by header. *)
Ltac heap_ext :=
  apply map_eq; intros ?y; rewrite ?map_lookup_imap;
  repeat match goal with
  | |- context [<[?a := _]> _ !! ?y] =>
      destruct (decide (a = y)) as [<-|?];
      [rewrite lookup_insert_eq|rewrite lookup_insert_ne by done]
  end.

Lemma hupd_eq p a h f :
  hget p a = Some h → hupd p a f = Some (with_heap p (<[a := f h]> (tp_heap p))).
Proof. intros Hh. unfold hupd. by rewrite Hh. Qed.

Lemma hget_insert p m a y :
  hget (with_heap p (<[a := m]> (tp_heap p))) y = if decide (a = y) then Some m else hget p y.
Proof.
  unfold hget. cbn [tp_heap with_heap]. destruct (decide (a = y)) as [->|?].
  - by rewrite lookup_insert_eq.
  - by rewrite lookup_insert_ne.
Qed.

Lemma insert_free_effect p a h hd :
  hget p a = Some h → length (tp_free_list p) = 32%nat →
  tp_free_list p !! Z.to_nat (tlsf_get_index (bh_size h)) = Some hd → hd ≠ Some a →
  (∀ q, hd = Some q → is_Some (hget p q)) →
  block_insert_free p a =
    Some (hmap (ins_hdr a hd)
      (with_free_list p (<[Z.to_nat (tlsf_get_index (bh_size h)) := Some a]> (tp_free_list p)))).
Proof.
  intros Hh Hl Hhd Hne Hq. unfold block_insert_free. rewrite Hh. cbn [mbind option_bind].
  pose proof (tlsf_get_index_range (bh_size h)) as Hi. set (i := tlsf_get_index (bh_size h)) in *.
  rewrite (hupd_eq _ _ _ _ Hh). cbn [mbind option_bind tp_free_list with_heap].
  unfold rd. zbool. rewrite Hhd. cbn [mbind option_bind].
  rewrite (hupd_eq _ a (set_flags (Z.lor (bh_flags h) TLSF_BLOCK_FREE) h))
    by (by rewrite hget_insert, decide_True). cbn [mbind option_bind tp_heap with_heap].
  erewrite (hupd_eq _ a); [|unfold hget; cbn [tp_heap with_heap]; by rewrite lookup_insert_eq].
  cbn [mbind option_bind tp_heap with_heap]. rewrite !insert_insert_eq.
  assert (∀ p', tp_free_list p' = tp_free_list p →
    (l ← wr (tp_free_list p') i (Some a); Some (with_free_list p' l)) =
    Some (with_free_list p' (<[Z.to_nat i := Some a]> (tp_free_list p)))) as Hwr.
  { intros p' ->. rewrite wr_ok by (unfold blen; lia). done. }
  destruct hd as [q|]; cbn [hupd_opt].
  - destruct (Hq q) as [hq Ehq]; [done|].
    assert (q ≠ a) by congruence.
    erewrite (hupd_eq _ q); [|unfold hget; cbn [tp_heap with_heap]; rewrite lookup_insert_ne by done; exact Ehq].
    cbn [mbind option_bind]. rewrite Hwr by done. f_equal. unfold hmap, with_free_list, with_heap.
    cbn. f_equal. heap_ext.
    + unfold hget in Ehq. rewrite Ehq. cbn. unfold ins_hdr, set_prev_free.
      rewrite !(decide_False (P := q = a)), decide_True by done. done.
    + unfold hget in Hh. rewrite Hh. cbn. unfold ins_hdr. by rewrite !decide_True.
    + destruct (tp_heap p !! y) as [[]|]; [|done]. cbn. unfold ins_hdr. cbn.
      rewrite !(decide_False (P := y = a)), decide_False by congruence. done.
  - cbn [mbind option_bind]. rewrite Hwr by done. f_equal. unfold hmap, with_free_list, with_heap.
    cbn. f_equal. heap_ext.
    + unfold hget in Hh. rewrite Hh. cbn. unfold ins_hdr. by rewrite !decide_True.
    + destruct (tp_heap p !! y) as [[]|]; [|done]. cbn. unfold ins_hdr. cbn.
      rewrite !(decide_False (P := y = a)) by congruence. done.
Qed.

Lemma remove_free_effect p a h :
  hget p a = Some h → length (tp_free_list p) = 32%nat →
  bh_next_free h ≠ Some a → bh_prev_free h ≠ Some a →
  (∀ q, bh_next_free h = Some q → is_Some (hget p q)) →
  (∀ q, bh_prev_free h = Some q → is_Some (hget p q)) →
  block_remove_free p a =
    Some (hmap (rm_hdr a h) (with_free_list p
      (match bh_prev_free h with
       | Some _ => tp_free_list p
       | None => <[Z.to_nat (tlsf_get_index (bh_size h)) := bh_next_free h]> (tp_free_list p)
       end))).
Proof.
  intros Hh Hl Hna Hpa Hn Hp. unfold block_remove_free. rewrite Hh. cbn [mbind option_bind].
  pose proof (tlsf_get_index_range (bh_size h)) as Hi. set (i := tlsf_get_index (bh_size h)) in *.
  set (fl := match bh_prev_free h with Some _ => tp_free_list p
             | None => <[Z.to_nat i := bh_next_free h]> (tp_free_list p) end).
  set (m1 := match bh_prev_free h with
             | Some q => match hget p q with
                         | Some k => <[q := set_next_free (bh_next_free h) k]> (tp_heap p)
                         | None => tp_heap p end
             | None => tp_heap p end).
  assert ((match bh_prev_free h with
       | Some q => hupd p q (set_next_free (bh_next_free h))
       | None => l ← wr (tp_free_list p) i (bh_next_free h); Some (with_free_list p l)
       end) = Some (with_heap (with_free_list p fl) m1)) as ->.
  { unfold fl, m1. destruct (bh_prev_free h) as [q|] eqn:E.
    - destruct (Hp q) as [k Hk]; [done|]. rewrite (hupd_eq _ _ _ _ Hk), Hk. done.
    - rewrite wr_ok by (unfold blen; lia). done. }
  cbn [mbind option_bind].
  assert (∀ y, m1 !! y = (λ k, set_next_free
    (if decide (bh_prev_free h = Some y) then bh_next_free h else bh_next_free k) k) <$> hget p y) as Hm1.
  { intros y. unfold m1. destruct (bh_prev_free h) as [q|] eqn:E.
    - destruct (Hp q) as [k Hk]; [done|]. rewrite Hk. destruct (decide (q = y)) as [<-|?].
      + rewrite lookup_insert_eq, Hk. cbn. by rewrite decide_True.
      + rewrite lookup_insert_ne by done. unfold hget. destruct (_ !! y) as [[]|]; [|done].
        cbn. by rewrite decide_False by congruence.
    - unfold hget. destruct (_ !! y) as [[]|]; done. }
  assert (hget (with_heap (with_free_list p fl) m1) a = Some h) as Ha.
  { unfold hget. cbn [tp_heap with_heap]. rewrite Hm1, Hh. cbn.
    rewrite decide_False by done. by destruct h. }
  rewrite Ha. cbn [mbind option_bind].
  destruct (bh_next_free h) as [q|] eqn:En; cbn [hupd_opt].
  - assert (q ≠ a) by congruence. destruct (Hn q) as [k Hk]; [done|].
    erewrite (hupd_eq _ q); [|unfold hget; cbn [tp_heap with_heap]; rewrite Hm1, Hk; reflexivity].
    cbn [mbind option_bind].
    erewrite (hupd_eq _ a h); [|unfold hget in *; cbn [tp_heap with_heap] in *;
      rewrite lookup_insert_ne by done; exact Ha].
    f_equal. unfold hmap, with_free_list, with_heap. cbn. f_equal.
    heap_ext; rewrite ?Hm1; unfold hget in *.
    + rewrite Hh. cbn. unfold rm_hdr. rewrite decide_True by done.
      rewrite En, !decide_False by (done || congruence). unfold set_flags. by rewrite En.
    + rewrite Hk. cbn. unfold rm_hdr. rewrite En. rewrite (decide_False (P := q = a)) by done.
      by rewrite (decide_True (P := Some q = Some q)).
    + destruct (tp_heap p !! y) as [[]|]; [|done]. cbn. unfold rm_hdr. cbn. rewrite En.
      rewrite (decide_False (P := y = a)), (decide_False (P := Some q = Some y)) by congruence. done.
  - cbn [mbind option_bind]. rewrite (hupd_eq _ a h) by exact Ha.
    f_equal. unfold hmap, with_free_list, with_heap. cbn. f_equal.
    heap_ext; rewrite ?Hm1; unfold hget in *.
    + rewrite Hh. cbn. unfold rm_hdr. rewrite decide_True by done.
      rewrite En, !decide_False by (done || congruence). unfold set_flags. by rewrite En.
    + destruct (tp_heap p !! y) as [[]|]; [|done]. cbn. unfold rm_hdr. cbn. rewrite En.
      rewrite (decide_False (P := y = a)), (decide_False (P := None = Some y)) by congruence. done.
Qed.

Section Spec.
Context `{Arch}.

Lemma overhead_range : 28 <= BLOCK_OVERHEAD <= 48.
Proof. unfold BLOCK_OVERHEAD. destruct (_ =? _); lia. Qed.

(** The blocks cover [a, e) without gap or overlap. *)
Fixpoint tiles (a : Z) (bl : list blk) (e : Z) : Prop :=
  match bl with
  | [] => a = e
  | b :: bl => b_addr b = a ∧ 0 <= b_size b ∧ tiles (a + BLOCK_OVERHEAD + b_size b) bl e
  end.

Definition bucket_ok (p : tlsf_pool_t) (bl : list blk) (i : nat) : Prop :=
  ∃ hd l, tp_free_list p !! i = Some hd ∧ dlist (nfree p) (pfree p) None hd l ∧ NoDup l ∧
    ∀ a, a ∈ l ↔ ∃ s, mk_blk a s Free ∈ bl ∧ tlsf_get_index s = Z.of_nat i.

Record rep (p : tlsf_pool_t) (bl : list blk) : Prop := {
  rep_hdr : Forall (hdr_ok p) bl;
  rep_phys : dlist (nphys p) (pphys p) None (tp_block_list p) (b_addr <$> bl);
  rep_tiles : tiles (tp_memory p) bl (tp_memory p + tp_total_size p);
  rep_len : length (tp_free_list p) = 32%nat;
  rep_bucket : ∀ i, (i < 32)%nat → bucket_ok p bl i;
  rep_mem : 152 <= tp_memory p;
  rep_top : tp_memory p + tp_total_size p < 2 ^ size_bits;
  rep_total : 0 <= tp_total_size p < 2 ^ 32
}.

Lemma tiles_app a bl1 bl2 e :
  tiles a (bl1 ++ bl2) e ↔ ∃ m, tiles a bl1 m ∧ tiles m bl2 e.
Proof.
  revert a. induction bl1 as [|b bl1 IH]; intros a; cbn [app tiles].
  - split; [intros; by exists a|by intros (m & -> & ?)].
  - rewrite IH. split; [intros (?&?&m&?&?); eauto 10|intros (m&(?&?&?)&?); eauto 10].
Qed.

Lemma tiles_le a bl e : tiles a bl e → a <= e.
Proof.
  pose proof overhead_range. revert a. induction bl as [|b bl IH]; intros a; cbn [tiles]; [lia|].
  intros (_ & ? & ?%IH). lia.
Qed.

(** Every block lies between the ends. *)
Lemma tiles_in a bl e b :
  tiles a bl e → b ∈ bl → a <= b_addr b ∧ b_addr b + BLOCK_OVERHEAD + b_size b <= e ∧ 0 <= b_size b.
Proof.
  pose proof overhead_range. intros Ht (l1 & l2 & ->)%list_elem_of_split.
  apply tiles_app in Ht as (m & H1%tiles_le & -> & ? & ?%tiles_le). lia.
Qed.

(** Blocks of the same tiling with the same address are the same, and distinct
    blocks do not overlap. *)
Lemma tiles_disjoint a bl e i j b c :
  tiles a bl e → bl !! i = Some b → bl !! j = Some c → (i < j)%nat →
  b_addr b + BLOCK_OVERHEAD + b_size b <= b_addr c.
Proof.
  revert a i j. induction bl as [|d bl IH]; intros a i j Ht Hi Hj Hlt; [done|].
  destruct Ht as (Ea & ? & Ht). destruct j as [|j]; [lia|].
  destruct i as [|i].
  - injection Hi as ->. apply (list_elem_of_lookup_2 bl j c) in Hj.
    apply (tiles_in _ _ _ c Ht) in Hj. lia.
  - eapply IH; [exact Ht|exact Hi|exact Hj|lia].
Qed.

Lemma tiles_NoDup a bl e : tiles a bl e → NoDup (b_addr <$> bl).
Proof.
  intros Ht. apply NoDup_alt. intros i j x.
  rewrite !list_lookup_fmap. intros (b & Hi & ->)%fmap_Some_1 (c & Hj & E)%fmap_Some_1.
  pose proof overhead_range.
  assert (b ∈ bl) as [_ [_ ?]]%(tiles_in _ _ _ b Ht) by by eapply list_elem_of_lookup_2.
  assert (c ∈ bl) as [_ [_ ?]]%(tiles_in _ _ _ c Ht) by by eapply list_elem_of_lookup_2.
  destruct (Nat.lt_trichotomy i j) as [Hlt|[->|Hlt]]; [|done|].
  - pose proof (tiles_disjoint _ _ _ _ _ _ _ Ht Hi Hj Hlt). lia.
  - pose proof (tiles_disjoint _ _ _ _ _ _ _ Ht Hj Hi Hlt). lia.
Qed.

(** ** Facts about a represented pool *)

Lemma rep_hdr_in p bl b : rep p bl → b ∈ bl → hdr_ok p b.
Proof. intros Hr Hb. by eapply Forall_forall; [apply Hr|]. Qed.

Lemma rep_NoDup p bl : rep p bl → NoDup (b_addr <$> bl).
Proof. intros Hr. eapply tiles_NoDup, Hr. Qed.

Lemma NoDup_addr_inj (bl : list blk) b c :
  NoDup (b_addr <$> bl) → b ∈ bl → c ∈ bl → b_addr b = b_addr c → b = c.
Proof.
  intros Hnd [i Hi]%list_elem_of_lookup [j Hj]%list_elem_of_lookup E.
  assert (i = j) as ->; [|congruence].
  eapply NoDup_lookup; [exact Hnd|rewrite list_lookup_fmap, Hi; reflexivity|].
  rewrite list_lookup_fmap, Hj, E. done.
Qed.

(** Replacing one block by another at the same address. *)
Lemma elem_replaced bl1 b b' bl2 c :
  NoDup (b_addr <$> (bl1 ++ b :: bl2)) → b_addr b' = b_addr b →
  c ∈ bl1 ++ b' :: bl2 ↔ (c = b' ∨ (c ∈ bl1 ++ b :: bl2 ∧ b_addr c ≠ b_addr b)).
Proof.
  intros Hnd E. rewrite fmap_app, fmap_cons in Hnd.
  apply NoDup_app in Hnd as (Hnd1 & Hd & [Hb Hnd2]%NoDup_cons).
  rewrite !elem_of_app, !elem_of_cons. split.
  - intros [Hc|[->|Hc]].
    + right. split; [by left|]. intros E'. apply (Hd (b_addr c)); [by apply list_elem_of_fmap_2|].
      rewrite E'. left.
    + by left.
    + right. split; [by right; right|]. intros E'. apply Hb. rewrite <- E'.
      by apply list_elem_of_fmap_2.
  - intros [->|[[Hc|[->|Hc]] Hne]]; auto. done.
Qed.

Lemma tiles_replace a bl1 b b' bl2 e :
  b_addr b' = b_addr b → b_size b' = b_size b →
  tiles a (bl1 ++ b :: bl2) e → tiles a (bl1 ++ b' :: bl2) e.
Proof.
  intros Ea Es. rewrite !tiles_app. intros (m & H1 & H2). exists m. split; [done|].
  cbn [tiles] in *. by rewrite Ea, Es.
Qed.

Lemma fmap_addr_replace bl1 b b' bl2 :
  b_addr b' = b_addr b → b_addr <$> (bl1 ++ b' :: bl2) = b_addr <$> (bl1 ++ b :: bl2).
Proof. intros E. by rewrite !fmap_app, !fmap_cons, E. Qed.

(** Nodes of a free list have headers. *)
Lemma bucket_hget p bl i hd l a :
  rep p bl → (∀ a, a ∈ l ↔ ∃ s, mk_blk a s Free ∈ bl ∧ tlsf_get_index s = Z.of_nat i) →
  dlist (nfree p) (pfree p) None hd l → a ∈ l →
  ∃ h, hget p a = Some h ∧ mk_blk a (bh_size h) Free ∈ bl ∧ tlsf_get_index (bh_size h) = Z.of_nat i.
Proof.
  intros Hr Hm _ Ha. apply Hm in Ha as (s & Hs & Hi).
  destruct (rep_hdr_in p bl _ Hr Hs) as (h & Hh & _ & Es & _). cbn [b_addr b_size] in *.
  exists h. by rewrite Es.
Qed.

(** What no list operation touches. *)
Definition same_frame (p p' : tlsf_pool_t) : Prop :=
  tp_signature p' = tp_signature p ∧ tp_total_size p' = tp_total_size p ∧
  tp_used_size p' = tp_used_size p ∧ tp_min_free p' = tp_min_free p ∧
  tp_block_list p' = tp_block_list p ∧ tp_memory p' = tp_memory p.

Lemma same_frame_refl p : same_frame p p.
Proof. done. Qed.

Lemma same_frame_trans p q r : same_frame p q → same_frame q r → same_frame p r.
Proof. intros (?&?&?&?&?&?) (?&?&?&?&?&?). split_and!; congruence. Qed.

(** Changing only free-list links, and the flags of one block. *)
Lemma rep_links p p' bl1 b b' bl2 f :
  rep p (bl1 ++ b :: bl2) → b_addr b' = b_addr b → b_size b' = b_size b →
  (∀ y, hget p' y = f y <$> hget p y) →
  (∀ y k, bh_signature (f y k) = bh_signature k ∧ bh_size (f y k) = bh_size k ∧
          bh_prev_phys (f y k) = bh_prev_phys k ∧ bh_next_phys (f y k) = bh_next_phys k) →
  (∀ y k, y ≠ b_addr b → bh_flags (f y k) = bh_flags k) →
  (∀ k, hget p (b_addr b) = Some k → bh_flags k = st_flags (b_st b) →
        bh_flags (f (b_addr b) k) = st_flags (b_st b')) →
  same_frame p p' → length (tp_free_list p') = 32%nat →
  (∀ i, (i < 32)%nat → bucket_ok p' (bl1 ++ b' :: bl2) i) →
  rep p' (bl1 ++ b' :: bl2).
Proof.
  intros Hr Ea Es Hg Hf Hfl Hfb (_ & Et & _ & _ & Eb & Em) Hlen Hbk.
  pose proof (rep_NoDup _ _ Hr) as Hnd. destruct Hr as [Hh Hp Ht _ _ ? ? ?].
  split; rewrite ?Et, ?Eb, ?Em; try done.
  - apply Forall_forall. intros c Hc. apply (elem_replaced bl1 b b' bl2 c Hnd Ea) in Hc as [->|[Hc Hne]].
    + assert (hdr_ok p b) as (k & Hk & Hs1 & Hs2 & Hs3).
      { eapply Forall_forall; [exact Hh|]. set_solver. }
      exists (f (b_addr b) k). rewrite Ea, Hg, Hk.
      destruct (Hf (b_addr b) k) as (-> & -> & _). split_and!; [done|done|congruence|by apply Hfb].
    + assert (hdr_ok p c) as (k & Hk & Hs1 & Hs2 & Hs3) by by eapply Forall_forall.
      exists (f (b_addr c) k). rewrite Hg, Hk.
      destruct (Hf (b_addr c) k) as (-> & -> & _). rewrite Hfl by done. done.
  - rewrite (fmap_addr_replace bl1 b b' bl2 Ea). eapply dlist_ext; [|exact Hp].
    intros y _. unfold nphys, pphys. rewrite !Hg. destruct (hget p y) as [k|]; [|done].
    cbn. destruct (Hf y k) as (_ & _ & -> & ->). done.
  - by eapply tiles_replace.
Qed.

(** A block is in one free list only. *)
Lemma bucket_disjoint p bl i j (l l' : list Z) y :
  rep p bl →
  (∀ a, a ∈ l ↔ ∃ s, mk_blk a s Free ∈ bl ∧ tlsf_get_index s = Z.of_nat i) →
  (∀ a, a ∈ l' ↔ ∃ s, mk_blk a s Free ∈ bl ∧ tlsf_get_index s = Z.of_nat j) →
  y ∈ l → y ∈ l' → i = j.
Proof.
  intros Hr Hl Hl' (s & Hs & Ei)%Hl (s' & Hs' & Ej)%Hl'.
  assert (mk_blk y s Free = mk_blk y s' Free) as [= ->]; [|lia].
  by eapply NoDup_addr_inj; [apply (rep_NoDup p bl Hr)|..].
Qed.

Lemma NoDup_elem_remove {A} (l1 l2 : list A) x y :
  NoDup (l1 ++ x :: l2) → y ∈ l1 ++ l2 ↔ (y ∈ l1 ++ x :: l2 ∧ y ≠ x).
Proof.
  intros (_ & Hd & [Hx _]%NoDup_cons)%NoDup_app.
  rewrite !elem_of_app, !elem_of_cons. split; [|intros [[?|[?|?]] ?]; auto; done].
  intros [Hy|Hy]; (split; [by auto|]); intros ->; [|done]. apply (Hd x); [done|left].
Qed.

Lemma NoDup_remove_mid {A} (l1 l2 : list A) x : NoDup (l1 ++ x :: l2) → NoDup (l1 ++ l2).
Proof.
  intros (H1 & Hd & [_ H2]%NoDup_cons)%NoDup_app. apply NoDup_app. split_and!; [done| |done].
  intros y Hy Hy2. apply (Hd y); [done|by right].
Qed.

Lemma bucket_remove p bl1 a s bl2 h hd l1 l2 j :
  let bl := bl1 ++ mk_blk a s Free :: bl2 in
  let i := Z.to_nat (tlsf_get_index s) in
  rep p bl → hget p a = Some h →
  tp_free_list p !! i = Some hd → dlist (nfree p) (pfree p) None hd (l1 ++ a :: l2) →
  NoDup (l1 ++ a :: l2) →
  (∀ b, b ∈ l1 ++ a :: l2 ↔ ∃ s, mk_blk b s Free ∈ bl ∧ tlsf_get_index s = Z.of_nat i) →
  (j < 32)%nat →
  bucket_ok (hmap (rm_hdr a h) (with_free_list p
    (match bh_prev_free h with
     | Some _ => tp_free_list p
     | None => <[i := bh_next_free h]> (tp_free_list p)
     end))) (bl1 ++ mk_blk a s Det :: bl2) j.
Proof.
  intros bl i Hr Hh Hhd Hl Hnd Hm Hj. pose proof (rep_NoDup p bl Hr) as Hndb.
  assert (nfree p a = bh_next_free h ∧ pfree p a = bh_prev_free h) as [En Ep]
    by (unfold nfree, pfree; by rewrite Hh).
  set (p' := hmap _ _).
  assert (∀ y, is_Some (hget p y) →
    nfree p' y = (if decide (bh_prev_free h = Some y) then bh_next_free h else nfree p y) ∧
    pfree p' y = (if decide (bh_next_free h = Some y) then bh_prev_free h else pfree p y)) as Hlinks.
  { intros y [k Hk]. unfold p', nfree, pfree. rewrite !hget_hmap.
    change (hget (with_free_list p _) y) with (hget p y). by rewrite Hk. }
  assert (∀ b s', mk_blk b s' Free ∈ bl1 ++ mk_blk a s Det :: bl2 ↔ mk_blk b s' Free ∈ bl ∧ b ≠ a) as Hmem.
  { intros b s'. rewrite (elem_replaced bl1 (mk_blk a s Free) (mk_blk a s Det) bl2) by done.
    cbn [b_addr]. split; [by intros [?|?]|by right]. }
  assert (is_Some (tp_free_list p !! i)) as Hi by (by rewrite Hhd).
  destruct (decide (j = i)) as [->|Hne].
  - exists (match pfree p a with Some _ => hd | None => nfree p a end), (l1 ++ l2).
    split_and!.
    + cbn. rewrite Ep, En. destruct (bh_prev_free h); [done|].
      apply list_lookup_insert_eq. by apply lookup_lt_is_Some.
    + apply (dlist_remove (nfree p) (pfree p)); [done|done|..];
        intros y Hy; apply (NoDup_elem_remove _ _ _ _ Hnd) in Hy as [Hy _];
        destruct (bucket_hget p bl i hd _ y Hr Hm Hl Hy) as (k & Hk & _);
        rewrite En, Ep; apply Hlinks; by eexists.
    + by eapply NoDup_remove_mid.
    + intros b. rewrite (NoDup_elem_remove _ _ _ _ Hnd), Hm.
      split; [intros [(s' & ? & ?) ?]; exists s'; by rewrite Hmem|].
      intros (s' & [? ?]%Hmem & ?). eauto.
  - destruct (rep_bucket p bl Hr j Hj) as (hd' & l' & Hhd' & Hl' & Hnd' & Hm').
    exists hd', l'. split_and!; [| |done|].
    + cbn. destruct (bh_prev_free h); [done|]. by rewrite list_lookup_insert_ne.
    + eapply dlist_ext; [|exact Hl']. intros y Hy.
      destruct (bucket_hget p bl j hd' _ y Hr Hm' Hl' Hy) as (k & Hk & _).
      destruct (Hlinks y) as [-> ->]; [by eexists|].
      assert (y ∉ l1 ++ a :: l2) as Hni.
      { intros Hy'. apply Hne. symmetry. by eapply (bucket_disjoint p bl i j). }
      rewrite <- En, <- Ep.
      rewrite !decide_False; [done|..]; intros E; apply Hni;
        (apply (dlist_closed (nfree p) (pfree p) hd _ a y Hl); [set_solver|by auto]).
    + intros b. rewrite Hm'. split; intros (s' & Hs' & Ej); exists s'; rewrite Hmem in *;
        [|tauto]. split; [|done]. split; [done|]. intros ->. apply Hne.
      assert (mk_blk a s' Free = mk_blk a s Free) as [= ->]; [|lia].
      eapply NoDup_addr_inj; [exact Hndb|done|set_solver|done].
Qed.

(** *** Leaving a free list *)
Lemma rep_remove p bl1 a s bl2 :
  rep p (bl1 ++ mk_blk a s Free :: bl2) →
  ∃ p', block_remove_free p a = Some p' ∧ rep p' (bl1 ++ mk_blk a s Det :: bl2) ∧
    same_frame p p'.
Proof.
  intros Hr. set (bl := bl1 ++ mk_blk a s Free :: bl2) in *.
  set (bl' := bl1 ++ mk_blk a s Det :: bl2).
  pose proof (rep_NoDup p bl Hr) as Hnd.
  assert (mk_blk a s Free ∈ bl) as Hin by (apply elem_of_app; right; left).
  destruct (rep_hdr_in p bl _ Hr Hin) as (h & Hh & Hsig & Hs & Hf). cbn [b_addr b_size b_st] in *.
  pose proof (tlsf_get_index_range s) as Hir. set (i := Z.to_nat (tlsf_get_index s)).
  destruct (rep_bucket p bl Hr i) as (hd & l & Hhd & Hl & Hndl & Hm); [lia|].
  assert (a ∈ l) as Hal by (apply Hm; exists s; split; [done|lia]).
  apply list_elem_of_split in Hal as (l1 & l2 & ->).
  pose proof (dlist_mid _ _ _ _ _ _ _ Hl) as [Epa Ena].
  assert (nfree p a = bh_next_free h ∧ pfree p a = bh_prev_free h) as [En Ep]
    by (unfold nfree, pfree; by rewrite Hh).
  assert (∀ q, bh_next_free h = Some q → q ∈ l1 ++ a :: l2 ∧ q ≠ a) as Hnq.
  { intros q Hq. rewrite <- En, Ena in Hq. destruct l2 as [|z l2]; [done|]. injection Hq as <-.
    split; [set_solver|]. intros ->. apply NoDup_app in Hndl as (_ & _ & [Hx _]%NoDup_cons).
    apply Hx. left. }
  assert (∀ q, bh_prev_free h = Some q → q ∈ l1 ++ a :: l2 ∧ q ≠ a) as Hpq.
  { intros q Hq. rewrite <- Ep, Epa in Hq. destruct (last l1) as [z|] eqn:E; [|done].
    injection Hq as ->. apply last_Some in E as [l' ->]. split; [set_solver|].
    intros ->. apply NoDup_app in Hndl as (_ & Hx & _). apply (Hx a); set_solver. }
  rewrite (remove_free_effect p a h Hh (rep_len p bl Hr));
    [|intros Hq; by destruct (Hnq _ Hq)|intros Hq; by destruct (Hpq _ Hq)
     |intros q Hq; edestruct (bucket_hget p bl i) as (k & Hk & _); [done|exact Hm|done|by apply Hnq|by eexists]
     |intros q Hq; edestruct (bucket_hget p bl i) as (k & Hk & _); [done|exact Hm|done|by apply Hpq|by eexists]].
  rewrite Hs. fold i. eexists. split; [done|]. split; [|done].
  eapply (rep_links p _ bl1 (mk_blk a s Free) (mk_blk a s Det) bl2 (rm_hdr a h)); try done.
  - intros y. by rewrite hget_hmap.
  - intros y k Hy. unfold rm_hdr. cbn [bh_flags b_addr] in *. by rewrite decide_False.
  - intros k Hk Hk'. unfold rm_hdr. cbn [bh_flags b_addr b_st] in *. by rewrite decide_True, Hk'.
  - cbn. destruct (bh_prev_free h); rewrite ?length_insert; apply Hr.
  - intros j Hj. by eapply bucket_remove.
Qed.

(** *** Entering a free list *)

Lemma bucket_insert p bl1 a s bl2 hd l j :
  let bl := bl1 ++ mk_blk a s Det :: bl2 in
  let i := Z.to_nat (tlsf_get_index s) in
  rep p bl → is_Some (hget p a) →
  tp_free_list p !! i = Some hd → dlist (nfree p) (pfree p) None hd l → NoDup l →
  (∀ b, b ∈ l ↔ ∃ s, mk_blk b s Free ∈ bl ∧ tlsf_get_index s = Z.of_nat i) →
  (j < 32)%nat →
  bucket_ok (hmap (ins_hdr a hd) (with_free_list p (<[i := Some a]> (tp_free_list p))))
    (bl1 ++ mk_blk a s Free :: bl2) j.
Proof.
  intros bl i Hr [h Hh] Hhd Hl Hnd Hm Hj. pose proof (rep_NoDup p bl Hr) as Hndb.
  set (p' := hmap _ _).
  assert (∀ y, is_Some (hget p y) → y ≠ a →
    nfree p' y = nfree p y ∧
    pfree p' y = (if decide (hd = Some y) then Some a else pfree p y)) as Hlinks.
  { intros y [k Hk] Hy. unfold p', nfree, pfree. rewrite !hget_hmap.
    change (hget (with_free_list p _) y) with (hget p y). rewrite Hk. cbn.
    by rewrite !(decide_False (P := y = a)). }
  assert (nfree p' a = hd ∧ pfree p' a = None) as [Ena Epa].
  { unfold p', nfree, pfree. rewrite !hget_hmap.
    change (hget (with_free_list p _) a) with (hget p a). rewrite Hh. cbn. by rewrite !decide_True. }
  assert (∀ b s', mk_blk b s' Free ∈ bl → b ≠ a) as Hna.
  { intros b s' Hb ->. assert (mk_blk a s' Free = mk_blk a s Det) as [=].
    eapply NoDup_addr_inj; [exact Hndb|done|set_solver|done]. }
  assert (∀ b s', mk_blk b s' Free ∈ bl1 ++ mk_blk a s Free :: bl2 ↔
    (b = a ∧ s' = s) ∨ mk_blk b s' Free ∈ bl) as Hmem.
  { intros b s'. rewrite (elem_replaced bl1 (mk_blk a s Det) (mk_blk a s Free) bl2) by done.
    cbn [b_addr]. split; [intros [[= -> ->]|[? _]]; auto|].
    intros [[-> ->]|Hb]; [by left|right]. split; [done|by eapply Hna]. }
  assert (is_Some (tp_free_list p !! i)) as Hi by (by rewrite Hhd).
  assert (∀ j hd l, dlist (nfree p) (pfree p) None hd l →
    (∀ b, b ∈ l ↔ ∃ s, mk_blk b s Free ∈ bl ∧ tlsf_get_index s = Z.of_nat j) →
    ∀ y, y ∈ l → is_Some (hget p y) ∧ y ≠ a) as Hin.
  { intros j' hd' l' Hl' Hm' y Hy. destruct (bucket_hget p bl j' hd' _ y Hr Hm' Hl' Hy) as (k & Hk & Hb & _).
    split; [by eexists|by eapply Hna]. }
  destruct (decide (j = i)) as [->|Hne].
  - exists (Some a), (a :: l). split_and!.
    + apply list_lookup_insert_eq. by apply lookup_lt_is_Some.
    + apply (dlist_push (nfree p) (pfree p) _ _ hd); try done.
      * intros Ha. by destruct (Hin i hd l Hl Hm a Ha).
      * intros y Hy. destruct (Hin i hd l Hl Hm y Hy). by apply Hlinks.
      * intros y Hy. destruct (Hin i hd l Hl Hm y Hy). by apply Hlinks.
    + apply NoDup_cons. split; [|done]. intros Ha. by destruct (Hin i hd l Hl Hm a Ha).
    + intros b. rewrite elem_of_cons, Hm. split.
      * intros [->|(s' & ? & ?)]; [exists s|exists s']; rewrite Hmem; split; auto. unfold i.
        pose proof (tlsf_get_index_range s). lia.
      * intros (s' & [[-> ->]|?]%Hmem & ?); eauto.
  - destruct (rep_bucket p bl Hr j Hj) as (hd' & l' & Hhd' & Hl' & Hnd' & Hm').
    exists hd', l'. split_and!; [| |done|].
    + cbn. by rewrite list_lookup_insert_ne.
    + eapply dlist_ext; [|exact Hl']. intros y Hy. destruct (Hin j hd' l' Hl' Hm' y Hy) as [Hs Hya].
      destruct (Hlinks y) as [-> ->]; [done..|]. rewrite decide_False; [done|].
      intros ->. apply Hne. symmetry. apply (bucket_disjoint p bl i j l l' y Hr Hm Hm'); [|done].
      destruct l; [done|]. destruct Hl as ([= ->] & _). left.
    + intros b. rewrite Hm'. split; [intros (s' & ? & ?); exists s'; rewrite Hmem; auto|].
      intros (s' & [[-> ->]|?]%Hmem & Ej); [|eauto]. destruct Hne. unfold i. lia.
Qed.

Lemma rep_insert p bl1 a s bl2 :
  rep p (bl1 ++ mk_blk a s Det :: bl2) →
  ∃ p', block_insert_free p a = Some p' ∧ rep p' (bl1 ++ mk_blk a s Free :: bl2) ∧
    same_frame p p'.
Proof.
  intros Hr. set (bl := bl1 ++ mk_blk a s Det :: bl2) in *.
  assert (mk_blk a s Det ∈ bl) as Hin by (apply elem_of_app; right; left).
  destruct (rep_hdr_in p bl _ Hr Hin) as (h & Hh & Hsig & Hs & Hf). cbn [b_addr b_size b_st] in *.
  pose proof (tlsf_get_index_range s) as Hir. set (i := Z.to_nat (tlsf_get_index s)).
  destruct (rep_bucket p bl Hr i) as (hd & l & Hhd & Hl & Hndl & Hm); [lia|].
  assert (∀ q, hd = Some q → ∃ k, hget p q = Some k ∧ q ≠ a) as Hq.
  { intros q ->. destruct l as [|z l]; [done|]. destruct Hl as ([= ->] & Hl).
    destruct (bucket_hget p bl i (Some z) (z :: l) z Hr Hm (conj eq_refl Hl)) as (k & Hk & Hb & _); [left|].
    exists k. split; [done|]. intros ->.
    assert (mk_blk a (bh_size k) Free = mk_blk a s Det) as [=].
    eapply NoDup_addr_inj; [by apply (rep_NoDup p bl)|done..]. }
  rewrite (insert_free_effect p a h hd Hh (rep_len p bl Hr)).
  - rewrite Hs. fold i. eexists. split; [done|]. split; [|done].
    eapply (rep_links p _ bl1 (mk_blk a s Det) (mk_blk a s Free) bl2 (ins_hdr a hd)); try done.
    + intros y. by rewrite hget_hmap.
    + intros y k Hy. unfold ins_hdr. cbn [bh_flags b_addr] in *. by rewrite decide_False.
    + intros k Hk Hk'. unfold ins_hdr. cbn [bh_flags b_addr b_st] in *. by rewrite decide_True, Hk'.
    + cbn. rewrite length_insert. apply Hr.
    + intros j Hj. apply bucket_insert with (l := l); try done.
  - rewrite Hs. exact Hhd.
  - intros E. by destruct (Hq a E) as (_ & _ & ?).
  - intros q E. destruct (Hq q E) as (k & ? & _). by eexists.
Qed.

(** *** Operations that leave the free lists alone *)

Lemma bucket_frame p p' bl bl' j :
  bucket_ok p bl j → tp_free_list p' = tp_free_list p →
  (∀ b s, mk_blk b s Free ∈ bl → nfree p' b = nfree p b ∧ pfree p' b = pfree p b) →
  (∀ b s, mk_blk b s Free ∈ bl' ↔ mk_blk b s Free ∈ bl) →
  bucket_ok p' bl' j.
Proof.
  intros (hd & l & Hhd & Hl & Hnd & Hm) Ef Hlinks Hmem. exists hd, l.
  split_and!; [by rewrite Ef| |done|].
  - eapply dlist_ext; [|exact Hl]. intros y (s & Hs & _)%Hm. by eapply Hlinks.
  - intros a. rewrite Hm. by setoid_rewrite Hmem.
Qed.

(** Marking a block that is in no free list. *)
Lemma rep_set_flags p bl1 a s st st' bl2 g :
  rep p (bl1 ++ mk_blk a s st :: bl2) → st ≠ Free → st' ≠ Free →
  g (st_flags st) = st_flags st' →
  ∃ p', hupd p a (λ h, set_flags (g (bh_flags h)) h) = Some p' ∧
    rep p' (bl1 ++ mk_blk a s st' :: bl2) ∧ same_frame p p'.
Proof.
  intros Hr Hst Hst' Hg. set (bl := bl1 ++ mk_blk a s st :: bl2) in *.
  assert (mk_blk a s st ∈ bl) as Hin by (apply elem_of_app; right; left).
  destruct (rep_hdr_in p bl _ Hr Hin) as (h & Hh & Hsig & Hs & Hf). cbn [b_addr b_size b_st] in *.
  rewrite (hupd_eq _ _ _ _ Hh). eexists. split; [done|]. split; [|done].
  eapply (rep_links p _ bl1 (mk_blk a s st) (mk_blk a s st') bl2
    (λ y k, if decide (y = a) then set_flags (g (bh_flags k)) k else k)); try done.
  - intros y. rewrite hget_insert. destruct (decide (a = y)) as [<-|?].
    + rewrite Hh. cbn. by rewrite decide_True.
    + destruct (hget p y); [|done]. cbn. by rewrite decide_False.
  - intros y k. by destruct (decide (y = a)).
  - intros y k Hy. by rewrite decide_False.
  - intros k Hk Hk'. cbn [b_addr b_st] in *. rewrite decide_True by done. cbn. congruence.
  - cbn. apply Hr.
  - intros j Hj. apply (bucket_frame p _ bl); [by apply Hr|done| |].
    + intros b s' _. unfold nfree, pfree. rewrite !hget_insert.
      destruct (decide (a = b)) as [<-|?]; [by rewrite Hh|done].
    + intros b s'. unfold bl. rewrite !elem_of_app, !elem_of_cons.
      split; (intros [?|[?|?]]; [by auto|congruence|by auto]).
Qed.

Lemma rep_size_bound p bl b : rep p bl → b ∈ bl →
  0 <= b_size b ∧ b_size b + BLOCK_OVERHEAD <= tp_total_size p ∧
  tp_memory p <= b_addr b ∧ b_addr b + BLOCK_OVERHEAD + b_size b <= tp_memory p + tp_total_size p.
Proof.
  intros Hr Hb. destruct (tiles_in _ _ _ b (rep_tiles p bl Hr) Hb) as (?&?&?). lia.
Qed.

Lemma size_bits_ge : 32 <= size_bits.
Proof. destruct size_bits_ok as [-> | ->]; lia. Qed.

Lemma usz_small z : 0 <= z < 2 ^ size_bits → usz z = z.
Proof. intros. by apply wrap_id. Qed.

Lemma pow_size_bits : 2 ^ 32 <= 2 ^ size_bits.
Proof. apply Z.pow_le_mono_r; [lia|]. apply size_bits_ge. Qed.

(** Linking block [a] to [nx] in the physical list, with a new size. *)
Definition relink_hdr (a size : Z) (nx : option Z) (back : Z) (y : Z) (k : block_header_t)
    : block_header_t :=
  mk_block (bh_signature k) (if decide (y = a) then size else bh_size k)
    (bh_flags k) (bh_prev_free k) (bh_next_free k)
    (if decide (nx = Some y) then Some back else bh_prev_phys k)
    (if decide (y = a) then nx else bh_next_phys k).

Lemma absorb_effect p a b h n :
  hget p a = Some h → hget p b = Some n → bh_size h + BLOCK_OVERHEAD + bh_size n < 2 ^ 32 →
  0 <= bh_size h → 0 <= bh_size n →
  (∀ c, bh_next_phys n = Some c → is_Some (hget p c) ∧ c ≠ a) →
  ∃ p', block_absorb p a b = Some p' ∧ same_frame p p' ∧ tp_free_list p' = tp_free_list p ∧
    ∀ y, hget p' y =
      relink_hdr a (bh_size h + BLOCK_OVERHEAD + bh_size n) (bh_next_phys n) a y <$> hget p y.
Proof.
  intros Hh Hn Hsum Hs Hs2 Hc. pose proof overhead_range. pose proof pow_size_bits.
  unfold block_absorb. rewrite Hn. cbn [mbind option_bind]. rewrite (hupd_eq _ _ _ _ Hh).
  cbn [mbind option_bind]. erewrite hupd_eq by (by rewrite hget_insert, decide_True).
  cbn [mbind option_bind]. rewrite (usz_small (BLOCK_OVERHEAD + _)) by lia.
  rewrite wrap_id by (unfold in_w; lia).
  assert (set_next_phys (bh_next_phys n)
    (set_size (bh_size h + (BLOCK_OVERHEAD + bh_size n)) h) =
    relink_hdr a (bh_size h + BLOCK_OVERHEAD + bh_size n) (bh_next_phys n) a a h) as Ea.
  { unfold relink_hdr. rewrite !(decide_True (P := a = a)) by done.
    rewrite decide_False; [unfold set_next_phys, set_size; cbn; f_equal; lia|].
    intros E. by destruct (Hc a E). }
  assert (∀ y k, y ≠ a → bh_next_phys n ≠ Some y →
    relink_hdr a (bh_size h + BLOCK_OVERHEAD + bh_size n) (bh_next_phys n) a y k = k) as Ey.
  { intros y [] Hy Hy'. unfold relink_hdr. cbn. by rewrite !decide_False. }
  destruct (bh_next_phys n) as [c|] eqn:Ec; cbn [hupd_opt].
  - destruct (Hc c) as ([k Hk] & Hca); [done|].
    erewrite hupd_eq; [|unfold hget in *; cbn; rewrite !lookup_insert_ne by done; exact Hk].
    eexists. split; [done|]. split; [done|]. split; [done|]. intros y. rewrite hget_insert.
    unfold hget in *. cbn. destruct (decide (c = y)) as [<-|?].
    + rewrite Hk. cbn. unfold relink_hdr.
      rewrite !(decide_False (P := c = a)), decide_True by done. done.
    + destruct (decide (a = y)) as [<-|?].
      * by rewrite lookup_insert_eq, Hh, Ea.
      * rewrite !lookup_insert_ne by done. destruct (tp_heap p !! y); [|done].
        cbn. by rewrite Ey by congruence.
  - eexists. split; [done|]. split; [done|]. split; [done|]. intros y. rewrite hget_insert.
    unfold hget in *. cbn. destruct (decide (a = y)) as [<-|?].
    + by rewrite Hh, Ea.
    + rewrite !lookup_insert_ne by done. destruct (tp_heap p !! y); [|done].
      cbn. by rewrite Ey by congruence.
Qed.

(** The rest of [rep] after a change of the physical list around one block. *)
Lemma rep_relink p p' bl bl' :
  rep p bl → same_frame p p' → tp_free_list p' = tp_free_list p →
  (∀ b, b ∈ bl' → hdr_ok p' b) →
  dlist (nphys p') (pphys p') None (tp_block_list p) (b_addr <$> bl') →
  tiles (tp_memory p) bl' (tp_memory p + tp_total_size p) →
  (∀ b s, mk_blk b s Free ∈ bl → nfree p' b = nfree p b ∧ pfree p' b = pfree p b) →
  (∀ b s, mk_blk b s Free ∈ bl' ↔ mk_blk b s Free ∈ bl) →
  rep p' bl'.
Proof.
  intros Hr (_ & Et & _ & _ & Eb & Em) Hfl Hh Hp Ht Hlinks Hmem.
  split; rewrite ?Et, ?Eb, ?Em; try (by apply Hr); try done.
  - by apply Forall_forall.
  - rewrite Hfl. apply Hr.
  - intros i Hi. eapply bucket_frame; [by apply Hr|done..].
Qed.

(** The neighbours of a block in the physical list. *)
Lemma rep_phys_mid p bl1 b bl2 h :
  rep p (bl1 ++ b :: bl2) → hget p (b_addr b) = Some h →
  bh_prev_phys h = b_addr <$> last bl1 ∧ bh_next_phys h = b_addr <$> head bl2.
Proof.
  intros Hr Hh. pose proof (rep_phys _ _ Hr) as Hp. rewrite fmap_app, fmap_cons in Hp.
  apply dlist_mid in Hp as [E1 E2]. unfold pphys, nphys in *. rewrite Hh in *. cbn in *.
  split; [rewrite E1, fmap_last; by destruct (last bl1)|rewrite E2; by destruct bl2].
Qed.

Lemma rep_addr_ne p bl1 b bl2 c :
  rep p (bl1 ++ b :: bl2) → c ∈ bl1 ++ bl2 → b_addr c ≠ b_addr b.
Proof.
  intros Hr Hc E. pose proof (rep_NoDup _ _ Hr) as Hnd. rewrite fmap_app, fmap_cons in Hnd.
  apply NoDup_app in Hnd as (_ & Hd & [Hb _]%NoDup_cons). apply elem_of_app in Hc as [Hc|Hc].
  - apply (Hd (b_addr c)); [by apply list_elem_of_fmap_2|]. rewrite E. left.
  - apply Hb. rewrite <- E. by apply list_elem_of_fmap_2.
Qed.

(** Taking over the block after. *)
Lemma rep_absorb p bl1 a s st b s2 bl2 :
  rep p (bl1 ++ mk_blk a s st :: mk_blk b s2 Det :: bl2) → st ≠ Free →
  ∃ p', block_absorb p a b = Some p' ∧
    rep p' (bl1 ++ mk_blk a (s + BLOCK_OVERHEAD + s2) st :: bl2) ∧ same_frame p p'.
Proof.
  intros Hr Hst. set (bl := bl1 ++ mk_blk a s st :: mk_blk b s2 Det :: bl2) in *.
  assert (mk_blk a s st ∈ bl ∧ mk_blk b s2 Det ∈ bl) as [Hina Hinb] by (unfold bl; set_solver).
  destruct (rep_hdr_in p bl _ Hr Hina) as (h & Hh & Hsig & Hs & Hf).
  destruct (rep_hdr_in p bl _ Hr Hinb) as (n & Hn & Hsign & Hsn & Hfn).
  cbn [b_addr b_size b_st] in *.
  pose proof overhead_range as HH. pose proof (rep_total p bl Hr) as Htot.
  pose proof (rep_tiles p bl Hr) as Ht. unfold bl in Ht.
  apply tiles_app in Ht as (m & Ht1 & Ea & Hs0 & Ebm & Hb0 & Ht2). cbn [b_addr b_size] in *.
  pose proof (tiles_le _ _ _ Ht1). pose proof (tiles_le _ _ _ Ht2).
  assert (bl = (bl1 ++ [mk_blk a s st]) ++ mk_blk b s2 Det :: bl2) as Ebl
    by (unfold bl; by rewrite <- app_assoc).
  rewrite Ebl in Hr. destruct (rep_phys_mid _ _ _ _ n Hr Hn) as [Epb Enb].
  rewrite last_snoc in Epb. cbn in Epb.
  assert (∀ c, bh_next_phys n = Some c → c ∈ b_addr <$> bl2) as Hc.
  { intros c Ec. rewrite Enb in Ec. destruct bl2; [done|]. injection Ec as <-. left. }
  assert (∀ c, c ∈ bl2 → b_addr c ≠ a) as Hca.
  { intros c Hc'. rewrite <- Ebl in Hr.
    apply (rep_addr_ne p bl1 (mk_blk a s st) (mk_blk b s2 Det :: bl2) c Hr). set_solver. }
  destruct (absorb_effect p a b h n) as (p' & E & Hfr & Hfl & Hg); try done; [lia..| |].
  { intros c Ec%Hc. apply list_elem_of_fmap in Ec as (d & -> & Hd). split; [|by apply Hca].
    destruct (rep_hdr_in _ _ d Hr) as (k & Hk & _); [set_solver|by eexists]. }
  rewrite Hs, Hsn in Hg. exists p'. split; [done|]. split; [|done].
  rewrite <- Ebl in Hr. apply (rep_relink p p' bl); try done.
  - intros c Hc'. destruct (decide (c = mk_blk a (s + BLOCK_OVERHEAD + s2) st)) as [->|Hne].
    + eexists. split; [cbn [b_addr]; rewrite Hg, Hh; reflexivity|]. cbn.
      by rewrite decide_True.
    + assert (c ∈ bl1 ++ mk_blk b s2 Det :: bl2) as Hc2 by set_solver.
      destruct (rep_hdr_in p bl c Hr) as (k & Hk & ? & ? & ?); [unfold bl; set_solver|].
      eexists. split; [rewrite Hg, Hk; reflexivity|]. cbn.
      rewrite decide_False; [done|]. by apply (rep_addr_ne p bl1 (mk_blk a s st) _ c Hr).
  - pose proof (rep_phys p bl Hr) as Hp. rewrite Ebl, !fmap_app in Hp.
    pose proof (rep_NoDup p bl Hr) as Hnd. rewrite Ebl, !fmap_app in Hnd.
    cbn [fmap list_fmap b_addr] in Hp, Hnd.
    assert (nphys p b = bh_next_phys n ∧ pphys p b = Some a) as [Enb' Epb'].
    { unfold nphys, pphys. by rewrite Hn. }
    apply (dlist_remove _ _ (nphys p') (pphys p')) in Hp; [|done|..].
    + rewrite Epb' in Hp. rewrite fmap_app, fmap_cons. cbn [b_addr].
      by rewrite <- app_assoc in Hp.
    + intros y Hy. rewrite Enb', Epb'. unfold nphys. rewrite Hg.
      destruct (decide (Some a = Some y)) as [[= <-]|?].
      * rewrite Hh. cbn. by rewrite decide_True.
      * destruct (hget p y); [|done]. cbn. by rewrite decide_False by congruence.
    + intros y Hy. rewrite Enb', Epb'. unfold pphys. rewrite Hg.
      destruct (hget p y) eqn:Ey; cbn; [done|].
      destruct (decide _) as [Ey'%Hc|]; [|done]. exfalso.
      apply list_elem_of_fmap in Ey' as (d & -> & Hd).
      destruct (rep_hdr_in p bl d Hr) as (k & Hk & _); [unfold bl; set_solver|congruence].
  - apply tiles_app. exists m. split; [done|]. cbn [tiles b_addr b_size]. split_and!; [done|lia|].
    by replace (m + BLOCK_OVERHEAD + (s + BLOCK_OVERHEAD + s2))
      with (m + BLOCK_OVERHEAD + s + BLOCK_OVERHEAD + s2) by lia.
  - intros c s' _. unfold nfree, pfree. rewrite Hg. by destruct (hget p c).
  - intros c s'. unfold bl. rewrite !elem_of_app, !elem_of_cons. split.
    + intros [?|[[=]|?]]; subst; auto. done.
    + intros [?|[[=]|[[=]|?]]]; subst; auto. done.
Qed.

(** *** Splitting a block *)

Definition split_hdr (a size new : Z) (nx : option Z) (y : Z) (k : block_header_t)
    : block_header_t :=
  mk_block (bh_signature k) (if decide (y = a) then size else bh_size k)
    (bh_flags k) (bh_prev_free k) (bh_next_free k)
    (if decide (nx = Some y) then Some new else bh_prev_phys k)
    (if decide (y = a) then Some new else bh_next_phys k).

Definition split_new (a rem : Z) (nx : option Z) : block_header_t :=
  mk_block TLSF_SIGNATURE rem 0 None None (Some a) nx.

Lemma split_effect p a h size new rem :
  hget p a = Some h → a ≠ new →
  (∀ c, bh_next_phys h = Some c → is_Some (hget p c) ∧ c ≠ a ∧ c ≠ new) →
  ∃ p', (p ← hupd_opt (hnew p new rem (Some a) (bh_next_phys h)) (bh_next_phys h)
               (set_prev_phys (Some new));
         p ← hupd p a (set_next_phys (Some new));
         hupd p a (set_size size)) = Some p' ∧
    same_frame p p' ∧ tp_free_list p' = tp_free_list p ∧
    ∀ y, hget p' y = if decide (y = new) then Some (split_new a rem (bh_next_phys h))
                     else split_hdr a size new (bh_next_phys h) y <$> hget p y.
Proof.
  intros Hh Hne Hc. set (p1 := hnew p new rem (Some a) (bh_next_phys h)).
  assert (∀ y, hget p1 y = if decide (y = new) then Some (split_new a rem (bh_next_phys h)) else hget p y) as H1.
  { intros y. unfold p1, hnew. rewrite hget_insert. by repeat case_decide. }
  assert (∃ p2, hupd_opt p1 (bh_next_phys h) (set_prev_phys (Some new)) = Some p2 ∧
    same_frame p p2 ∧ tp_free_list p2 = tp_free_list p ∧
    ∀ y, hget p2 y = if decide (bh_next_phys h = Some y) then set_prev_phys (Some new) <$> hget p1 y
                     else hget p1 y) as (p2 & -> & Hf2 & Hl2 & H2).
  { destruct (bh_next_phys h) as [c|] eqn:Ec; cbn [hupd_opt].
    - destruct (Hc c) as ([k Hk] & Hca & Hcn); [done|].
      assert (hget p1 c = Some k) as Hk1 by by rewrite H1, decide_False.
      rewrite (hupd_eq _ _ _ _ Hk1). eexists. split; [done|]. split; [done|]. split; [done|].
      intros y. rewrite hget_insert. destruct (decide (c = y)) as [<-|?].
      + by rewrite decide_True, Hk1.
      + by rewrite decide_False by congruence.
    - eexists. split; [done|]. split; [done|]. split; [done|]. intros y. done. }
  cbn [mbind option_bind].
  assert (hget p2 a = Some h) as Ha2.
  { rewrite H2, decide_False, H1, decide_False; [done|done|]. intros E. by destruct (Hc a E) as (_&?&_). }
  rewrite (hupd_eq _ _ _ _ Ha2). cbn [mbind option_bind].
  erewrite hupd_eq by (by rewrite hget_insert, decide_True). eexists. split; [done|].
  split; [done|]. split; [done|]. intros y. unfold hget at 1. cbn [tp_heap with_heap].
  rewrite insert_insert_eq.
  destruct (decide (a = y)) as [<-|Hay].
  - rewrite lookup_insert_eq, decide_False, Hh by done. cbn. unfold split_hdr.
    rewrite !(decide_True (P := a = a)) by done. rewrite decide_False; [done|].
    intros E. by destruct (Hc a E) as (_&?&_).
  - rewrite lookup_insert_ne by done. change (tp_heap p2 !! y) with (hget p2 y). rewrite H2, H1.
    destruct (decide (y = new)) as [->|Hyn].
    + rewrite decide_False; [done|]. intros E. by destruct (Hc new E) as (_&_&?).
    + destruct (hget p y) as [[]|]; [|by case_decide]. unfold split_hdr. cbn.
      rewrite !(decide_False (P := y = a)) by congruence. by case_decide.
Qed.

(** Between the relinking and the insertion of the new block. *)
Lemma rep_split_mid p p' bl1 a s st bl2 size h :
  let new := a + size + BLOCK_OVERHEAD in
  let rem := s - size - BLOCK_OVERHEAD in
  rep p (bl1 ++ mk_blk a s st :: bl2) → st ≠ Free → 0 <= size → 0 <= rem →
  hget p a = Some h → bh_flags h = st_flags st → bh_signature h = TLSF_SIGNATURE →
  (∀ c, c ∈ bl1 ++ bl2 → b_addr c ≠ new) →
  same_frame p p' → tp_free_list p' = tp_free_list p →
  (∀ y, hget p' y = if decide (y = new) then Some (split_new a rem (bh_next_phys h))
                    else split_hdr a size new (bh_next_phys h) y <$> hget p y) →
  rep p' (bl1 ++ mk_blk a size st :: mk_blk new rem Det :: bl2).
Proof.
  intros new rem Hr Hst Hsz Hrem Hh Hfl0 Hsig Hnew Hfr Hfl Hg.
  set (bl := bl1 ++ mk_blk a s st :: bl2) in *. pose proof overhead_range as HH.
  assert (a ≠ new) as Han by lia.
  apply (rep_relink p p' bl); try done.
  - intros c. rewrite elem_of_app, !elem_of_cons. intros Hc.
    assert (c = mk_blk a size st ∨ c = mk_blk new rem Det ∨ c ∈ bl1 ++ bl2) as [->|[->|Hc']]
      by (rewrite elem_of_app; tauto); clear Hc.
    + eexists. cbn [b_addr]. rewrite Hg, decide_False, Hh by done. split; [done|]. cbn.
      by rewrite decide_True.
    + eexists. cbn [b_addr]. rewrite Hg, decide_True by done. done.
    + destruct (rep_hdr_in p bl c Hr) as (k & Hk & ? & ? & ?).
      { unfold bl. rewrite elem_of_app, elem_of_cons in *. tauto. }
      eexists. rewrite Hg, decide_False, Hk by auto. split; [done|]. cbn.
      rewrite decide_False; [done|]. by apply (rep_addr_ne p bl1 (mk_blk a s st) bl2 c Hr).
  - pose proof (rep_phys p bl Hr) as Hp. pose proof (rep_NoDup p bl Hr) as Hnd.
    unfold bl in Hp, Hnd. rewrite fmap_app, fmap_cons in Hp, Hnd. cbn [b_addr] in Hp, Hnd.
    rewrite fmap_app, !fmap_cons. cbn [b_addr].
    assert (nphys p a = bh_next_phys h) as En by (unfold nphys; by rewrite Hh).
    assert (∀ z, z ∈ (b_addr <$> bl1) ++ (b_addr <$> bl2) → z ≠ new ∧ z ≠ a ∧ is_Some (hget p z)) as Hz.
    { intros z. rewrite <- fmap_app. intros (c & -> & Hc)%list_elem_of_fmap.
      split; [by apply Hnew|]. split; [by apply (rep_addr_ne p bl1 (mk_blk a s st) bl2 c Hr)|].
      destruct (rep_hdr_in p bl c Hr) as (k & Hk & _); [|by eexists].
      unfold bl. rewrite elem_of_app, elem_of_cons in *. tauto. }
    apply (dlist_insert_after (nphys p) (pphys p)); try done.
    + rewrite elem_of_app, elem_of_cons. intros Hn.
      destruct (Hz new) as [? _]; [|done]. rewrite elem_of_app. destruct Hn as [?|[?|?]]; auto. done.
    + unfold nphys. rewrite Hg, decide_False, Hh by done. cbn. by rewrite decide_True.
    + unfold nphys. rewrite Hg, decide_True, Hh by done. done.
    + unfold pphys. rewrite Hg, decide_True by done. done.
    + unfold pphys. rewrite Hg, decide_False, Hh by done. cbn. rewrite decide_False; [done|].
      rewrite <- En. apply dlist_mid in Hp as [_ ->]. destruct bl2 as [|d bl2]; [done|].
      intros [= E]. by apply (rep_addr_ne p bl1 (mk_blk a s st) (d :: bl2) d Hr);
        [apply elem_of_app; right; left|].
    + intros z (Hzn & Hza & k & Hk)%Hz. unfold nphys. rewrite Hg, decide_False, Hk by done. cbn.
      by rewrite decide_False.
    + intros z (Hzn & Hza & k & Hk)%Hz. rewrite En. unfold pphys.
      rewrite Hg, decide_False, Hk by done. done.
  - pose proof (rep_tiles p bl Hr) as Ht. unfold bl in Ht. rewrite tiles_app in *.
    destruct Ht as (m & Ht1 & Ea & Hs & Ht2). exists m. split; [done|].
    cbn [tiles b_addr b_size] in *. split_and!; [done|done|lia|done|].
    by replace (m + BLOCK_OVERHEAD + size + BLOCK_OVERHEAD + rem) with (m + BLOCK_OVERHEAD + s) by lia.
  - intros b s' Hb. assert (b ≠ new) as Hbn.
    { unfold bl in Hb. rewrite elem_of_app, elem_of_cons in Hb.
      apply (Hnew (mk_blk b s' Free)). rewrite elem_of_app.
      destruct Hb as [?|[[= -> -> <-]|?]]; [tauto|done|tauto]. }
    unfold nfree, pfree. rewrite Hg, decide_False by done. by destruct (hget p b).
  - intros c s'. unfold bl. rewrite !elem_of_app, !elem_of_cons. split.
    + intros [?|[[= -> -> <-]|[[=]|?]]]; [by auto|done|by auto].
    + intros [?|[[= -> -> <-]|?]]; [by auto|done|by auto].
Qed.

Lemma rep_split p bl1 a s st bl2 size :
  rep p (bl1 ++ mk_blk a s st :: bl2) → st ≠ Free →
  0 <= size → size + BLOCK_OVERHEAD + MIN_BLOCK_SIZE <= s →
  let new := a + size + BLOCK_OVERHEAD in
  ∃ p', block_split p a size = Some (Some new, p') ∧
    rep p' (bl1 ++ mk_blk a size st :: mk_blk new (s - size - BLOCK_OVERHEAD) Free :: bl2) ∧
    same_frame p p'.
Proof.
  intros Hr Hst Hsz Hfit new. set (bl := bl1 ++ mk_blk a s st :: bl2) in *.
  assert (mk_blk a s st ∈ bl) as Hin by (apply elem_of_app; right; left).
  destruct (rep_hdr_in p bl _ Hr Hin) as (h & Hh & Hsig & Hs & Hf). cbn [b_addr b_size b_st] in *.
  pose proof overhead_range as HH. pose proof pow_size_bits. unfold MIN_BLOCK_SIZE, TLSF_BLOCK_ALIGN in Hfit.
  pose proof (rep_total p bl Hr). pose proof (rep_top p bl Hr). pose proof (rep_mem p bl Hr).
  destruct (rep_size_bound p bl _ Hr Hin) as (? & ? & ? & ?). cbn [b_addr b_size] in *.
  destruct (rep_phys_mid _ _ _ _ h Hr Hh) as [_ En].
  assert (∀ c, c ∈ bl1 ++ bl2 → b_addr c ≠ new) as Hnew.
  { pose proof (rep_tiles p bl Hr) as Ht. apply tiles_app in Ht as (m & Ht1 & Ea & _ & Ht2).
    cbn [b_addr b_size] in *. intros c [Hc|Hc]%elem_of_app.
    - destruct (tiles_in _ _ _ c Ht1 Hc). lia.
    - destruct (tiles_in _ _ _ c Ht2 Hc). lia. }
  assert (∀ c, bh_next_phys h = Some c → is_Some (hget p c) ∧ c ≠ a ∧ c ≠ new) as Hc.
  { intros c Ec. rewrite En in Ec. destruct bl2 as [|d bl2]; [done|]. injection Ec as <-.
    assert (d ∈ bl1 ++ d :: bl2) as Hd by (apply elem_of_app; right; left).
    split; [|split; [by apply (rep_addr_ne p bl1 (mk_blk a s st) _ d Hr)|by apply Hnew]].
    destruct (rep_hdr_in p bl d Hr) as (k & Hk & _); [unfold bl; rewrite elem_of_app, !elem_of_cons; auto|by eexists]. }
  unfold block_split. rewrite Hh. cbn [mbind option_bind]. rewrite Hs.
  rewrite (usz_small (s - size - BLOCK_OVERHEAD)) by lia.
  unfold MIN_BLOCK_SIZE, TLSF_BLOCK_ALIGN. zbool.
  rewrite (usz_small (a + size + BLOCK_OVERHEAD)) by lia. fold new.
  rewrite !(wrap_id 32) by (unfold in_w; lia).
  destruct (split_effect p a h size new (s - size - BLOCK_OVERHEAD) Hh) as (p' & E & Hfr & Hfl & Hg);
    [lia|done|].
  assert (rep p' ((bl1 ++ [mk_blk a size st]) ++ mk_blk new (s - size - BLOCK_OVERHEAD) Det :: bl2)) as Hr'.
  { rewrite <- app_assoc. eapply rep_split_mid; try done. lia. }
  destruct (rep_insert _ _ _ _ _ Hr') as (p'' & E2 & Hr2 & Hfr2). exists p''. split; [|split].
  - revert E. destruct (hupd_opt _ _ _) as [q1|]; [|done]. cbn [mbind option_bind].
    destruct (hupd q1 a _) as [q2|]; [|done]. cbn [mbind option_bind]. intros ->.
    cbn [mbind option_bind]. by rewrite E2.
  - by rewrite <- app_assoc in Hr2.
  - by eapply same_frame_trans.
Qed.

End Spec.
