(* ===== verification/AllocSpec.v ===== *)
(** * What the allocator promises (kernel/alloc.c)

    [tlsf_malloc] and [tlsf_free] against the abstract list of blocks: which block
    is taken, what is split off, what is merged, and how much memory is free. *)

From Stdlib Require Import ZArith Lia.
From stdpp Require Import base tactics option list numbers gmap fin_maps fin_sets sets.
From S2P Require Import Prelude.
From S2P Require Import Runs.
From S2P Require Import Dll.
From S2P Require Import Alloc.
From S2P Require Import AllocRep.

Section Spec.
Context `{Arch}.

(** ** Counting free and used memory *)

Definition sumZ (l : list Z) : Z := foldr Z.add 0 l.

Lemma sumZ_perm l l' : l ≡ₚ l' → sumZ l = sumZ l'.
Proof. induction 1; simpl; lia. Qed.

Definition blk_w (b : blk) : Z := b_size b + BLOCK_OVERHEAD.
(** The bytes of the blocks that satisfy [P], headers included. *)
Fixpoint sumw (P : blk → bool) (bl : list blk) : Z :=
  match bl with
  | [] => 0
  | b :: bl => (if P b then blk_w b else 0) + sumw P bl
  end.

Definition in_st (st : block_st) (b : blk) : bool := bool_decide (b_st b = st).
Definition in_bucket (i : Z) (b : blk) : bool :=
  bool_decide (b_st b = Free) && (tlsf_get_index (b_size b) =? i).

Lemma sumw_app P bl1 bl2 : sumw P (bl1 ++ bl2) = sumw P bl1 + sumw P bl2.
Proof. induction bl1 as [|b bl1 IH]; simpl; [done|]. rewrite IH. lia. Qed.

Lemma sumw_filter P bl :
  sumZ (blk_w <$> filter (λ b : blk, Is_true (P b)) bl) = sumw P bl.
Proof.
  induction bl as [|b bl IH]; [done|]. cbn [sumw]. rewrite filter_cons.
  destruct (P b) eqn:E.
  - rewrite decide_True by done. cbn. by rewrite <- IH.
  - rewrite decide_False by (by intros []). by rewrite <- IH.
Qed.

(** Summing over the buckets is summing over the free blocks. *)
Lemma sumw_buckets bl n :
  sumZ ((λ i, sumw (in_bucket (Z.of_nat i)) bl) <$> seq 0 n) =
  sumw (λ b, bool_decide (b_st b = Free) && (tlsf_get_index (b_size b) <? Z.of_nat n)) bl.
Proof.
  induction n as [|n IH].
  - cbn. induction bl as [|b bl IHb]; [done|]. cbn [sumw]. rewrite <- IHb.
    pose proof (tlsf_get_index_range (b_size b)).
    rewrite (proj2 (Z.ltb_ge _ _)) by lia. by rewrite andb_false_r.
  - rewrite seq_S, fmap_app. unfold sumZ in *. rewrite foldr_app.
    assert (∀ l x, foldr Z.add x l = foldr Z.add 0 l + x) as Hf.
    { induction l as [|y l IHl]; intros x; simpl; [done|]. rewrite IHl. lia. }
    cbn. rewrite Hf, IH, Z.add_0_r. clear. induction bl as [|b bl IHb]; [done|]. cbn [sumw].
    rewrite <- Z.add_assoc in *.
    assert (((if bool_decide (b_st b = Free) && (tlsf_get_index (b_size b) <? Z.of_nat n) then blk_w b else 0) +
             (if in_bucket (Z.of_nat n) b then blk_w b else 0)) =
            (if bool_decide (b_st b = Free) && (tlsf_get_index (b_size b) <? Z.of_nat (S n)) then blk_w b else 0)) as E.
    { unfold in_bucket. destruct (bool_decide (b_st b = Free)); [|done]. cbn.
      pose proof (Z.lt_trichotomy (tlsf_get_index (b_size b)) (Z.of_nat n)) as [?|[?|?]]; zbool; lia. }
    lia.
Qed.

Definition node_w (p : tlsf_pool_t) (a : Z) : Z :=
  match hget p a with Some h => bh_size h + BLOCK_OVERHEAD | None => 0 end.

Lemma bucket_size_ok p hd l fuel free :
  dlist (nfree p) (pfree p) None hd l → (∀ a, a ∈ l → is_Some (hget p a)) →
  (length l < fuel)%nat → usz free = free →
  bucket_size fuel p hd free = Some (usz (free + sumZ (node_w p <$> l))).
Proof.
  generalize (@None Z) as pr. intros pr Hl. revert pr hd fuel free Hl.
  induction l as [|a l IH]; intros pr hd fuel free Hl Hin Hf Hfree.
  - simpl in Hl. subst hd. destruct fuel; cbn; by rewrite Z.add_0_r, Hfree.
  - destruct Hl as (-> & _ & Hl). destruct fuel as [|fuel]; [simpl in Hf; lia|].
    destruct (Hin a) as [h Hh]; [left|]. cbn [bucket_size]. rewrite Hh. cbn [mbind option_bind].
    unfold nfree in Hl. rewrite Hh in Hl. cbn in Hl.
    rewrite (IH _ _ _ _ Hl).
    + cbn. unfold node_w at 2. rewrite Hh. f_equal. unfold usz.
      rewrite wrap_add_l, Z.add_assoc. unfold wrap.
      rewrite <- (Zplus_mod_idemp_l (_ + _ mod _)), Zplus_mod_idemp_r, Zplus_mod_idemp_l. done.
    + intros b Hb. apply Hin. by right.
    + simpl in Hf. lia.
    + unfold usz. apply wrap_wrap. pose proof size_bits_ge. lia.
Qed.

(** A duplicate-free list of addresses with headers is no longer than the heap. *)
Lemma heap_length p (l : list Z) :
  NoDup l → (∀ a, a ∈ l → is_Some (hget p a)) → (length l <= size (tp_heap p))%nat.
Proof.
  intros Hnd Hin. rewrite <- size_dom, <- (size_list_to_set (C := gset Z) l) by done.
  apply subseteq_size. intros a Ha%elem_of_list_to_set. apply elem_of_dom. by apply Hin.
Qed.

Lemma bucket_free_size p bl i hd free :
  rep p bl → (i < 32)%nat → tp_free_list p !! i = Some hd → usz free = free →
  bucket_size (list_fuel p) p hd free = Some (usz (free + sumw (in_bucket (Z.of_nat i)) bl)).
Proof.
  intros Hr Hi Hhd Hfree. destruct (rep_bucket p bl Hr i Hi) as (hd' & l & E & Hl & Hnd & Hm).
  assert (hd' = hd) as -> by congruence.
  assert (∀ a, a ∈ l → is_Some (hget p a)) as Hin.
  { intros a Ha. destruct (bucket_hget p bl i hd l a Hr Hm Hl Ha) as (h & Hh & _). by eexists. }
  rewrite (bucket_size_ok p hd l); [|done|done| |done].
  2:{ unfold list_fuel. pose proof (heap_length p l Hnd Hin). lia. }
  do 3 f_equal. rewrite <- sumw_filter.
  assert (l ≡ₚ b_addr <$> filter (λ b : blk, Is_true (in_bucket (Z.of_nat i) b)) bl) as Hperm.
  { apply NoDup_Permutation; [done| |].
    - pose proof (rep_NoDup p bl Hr) as Hndb. eapply sublist_NoDup; [exact Hndb|].
      apply fmap_sublist, sublist_filter.
    - intros a. rewrite Hm, list_elem_of_fmap. split.
      + intros (s & Hs & Ei). exists (mk_blk a s Free). split; [done|].
        apply list_elem_of_filter. split; [|done]. unfold in_bucket. cbn.
        apply Is_true_true_2. by zbool.
      + intros ([b s st] & -> & [Hb Hin']%list_elem_of_filter). exists s.
        unfold in_bucket in Hb. cbn in Hb. apply Is_true_true_1 in Hb. bool_hyps.
        apply bool_decide_eq_true in H0. by subst st. }
  rewrite (sumZ_perm _ _ (fmap_Permutation (node_w p) _ _ Hperm)). rewrite <- list_fmap_compose.
  f_equal. apply list_fmap_ext. intros j b Hb. apply list_elem_of_lookup_2, list_elem_of_filter in Hb as [_ Hb].
  destruct (rep_hdr_in p bl b Hr Hb) as (h & Hh & _ & Hs & _). cbn. unfold node_w, blk_w.
  by rewrite Hh, Hs.
Qed.

Lemma buckets_size_ok p bl k free :
  rep p bl → (k <= 32)%nat → usz free = free →
  buckets_size p (drop k (tp_free_list p)) free =
    Some (usz (free + sumZ ((λ i, sumw (in_bucket (Z.of_nat i)) bl) <$> seq k (32 - k)))).
Proof.
  intros Hr Hk. pose proof (rep_len p bl Hr) as Hlen.
  remember (32 - k)%nat as n eqn:En. revert k free Hk En. induction n as [|n IH]; intros k free Hk En Hfree.
  - rewrite drop_ge by lia. cbn. by rewrite Z.add_0_r, Hfree.
  - destruct (lookup_lt_is_Some_2 (tp_free_list p) k) as [hd Hhd]; [lia|].
    rewrite (drop_S _ hd k) by done. cbn [buckets_size].
    rewrite (bucket_free_size p bl k hd free) by (done || lia). cbn [mbind option_bind].
    rewrite IH; [|lia|lia|unfold usz; apply wrap_wrap; pose proof size_bits_ge; lia].
    cbn [seq]. rewrite fmap_cons. change (sumZ (?x :: ?l)) with (x + sumZ l).
    unfold usz. rewrite wrap_add_l. do 2 f_equal. lia.
Qed.

Lemma tiles_sum a bl e : tiles a bl e → e = a + sumw (λ _, true) bl.
Proof.
  revert a. induction bl as [|b bl IH]; intros a; cbn [tiles sumw]; [lia|].
  intros (_ & _ & E%IH). unfold blk_w. lia.
Qed.

Lemma sumw_nonneg P bl : Forall (λ b, 0 <= b_size b) bl → 0 <= sumw P bl.
Proof.
  pose proof overhead_range. induction 1 as [|b bl Hb Hbl IH]; cbn [sumw]; [lia|].
  unfold blk_w. destruct (P b); lia.
Qed.

Lemma sumw_mono P Q bl : Forall (λ b, 0 <= b_size b) bl → (∀ b, P b = true → Q b = true) →
  sumw P bl <= sumw Q bl.
Proof.
  pose proof overhead_range. intros Hbl HPQ. induction Hbl as [|b bl Hb Hbl IH]; cbn [sumw]; [lia|].
  unfold blk_w. specialize (HPQ b). destruct (P b), (Q b); try lia.
Qed.

Lemma sumw_ext P Q bl : (∀ b, b ∈ bl → P b = Q b) → sumw P bl = sumw Q bl.
Proof.
  induction bl as [|b bl IH]; intros HPQ; [done|]. cbn [sumw]. rewrite (HPQ b) by left.
  rewrite IH; [done|]. intros c Hc. apply HPQ. by right.
Qed.

Lemma rep_sizes p bl : rep p bl → Forall (λ b, 0 <= b_size b) bl.
Proof. intros Hr. apply Forall_forall. intros b Hb. by eapply rep_size_bound. Qed.

(** Free and used blocks, in a pool that is not in the middle of an operation,
    add up to the pool. *)
Lemma rep_accounting p bl :
  rep p bl → Forall (λ b, b_st b ≠ Det) bl →
  sumw (in_st Free) bl + sumw (in_st Used) bl = tp_total_size p.
Proof.
  intros Hr Hd. pose proof (tiles_sum _ _ _ (rep_tiles p bl Hr)).
  assert (sumw (in_st Free) bl + sumw (in_st Used) bl = sumw (λ _, true) bl) as ->; [|lia].
  clear Hr H0. induction Hd as [|b bl Hb Hd IH]; cbn [sumw]; [done|].
  rewrite <- IH. destruct (b_st b) eqn:Es; [| |done];
    unfold in_st at 1 3; rewrite Es; repeat case_bool_decide; (done || lia).
Qed.

Lemma rep_free_size p bl :
  rep p bl → tlsf_pool_free_size (Some p) = Some (sumw (in_st Free) bl).
Proof.
  intros Hr. unfold tlsf_pool_free_size. rewrite <- (drop_0 (tp_free_list p)).
  pose proof size_bits_ge. rewrite (buckets_size_ok p bl 0) by (done || lia).
  change (32 - 0)%nat with 32%nat. rewrite sumw_buckets, Z.add_0_l. f_equal.
  rewrite (sumw_ext _ (in_st Free)).
  2:{ intros b _. pose proof (tlsf_get_index_range (b_size b)).
      rewrite (proj2 (Z.ltb_lt _ _)) by lia. apply andb_true_r. }
  apply usz_small. pose proof (rep_sizes p bl Hr) as Hs. pose proof (sumw_nonneg (in_st Free) bl Hs).
  pose proof (sumw_mono (in_st Free) (λ _, true) bl Hs ltac:(done)).
  pose proof (tiles_sum _ _ _ (rep_tiles p bl Hr)). pose proof (rep_total p bl Hr).
  pose proof pow_size_bits. lia.
Qed.

(** ** Scanning for a block *)

(** The free list that starts at [block], and that of a size class. *)
Fixpoint chain (fuel : nat) (p : tlsf_pool_t) (block : option Z) : list Z :=
  match block, fuel with
  | Some b, S fuel => b :: chain fuel p (nfree p b)
  | _, _ => []
  end.
Definition free_chain (p : tlsf_pool_t) (fl : Z) : list Z :=
  match tp_free_list p !! Z.to_nat fl with Some hd => chain (list_fuel p) p hd | None => [] end.
Definition has_room (p : tlsf_pool_t) (total a : Z) : bool :=
  match hget p a with Some h => total <=? bh_size h | None => false end.

(** The first block with room on the free lists of [k] classes from [fl] on. *)
Fixpoint first_fit (k : nat) (p : tlsf_pool_t) (total fl : Z) : option Z :=
  match k with
  | O => None
  | S k =>
    match find (has_room p total) (free_chain p fl) with
    | Some a => Some a
    | None => first_fit k p total (fl + 1)
    end
  end.

Lemma chain_eq p l hd pr fuel : dlist (nfree p) (pfree p) pr hd l → (length l <= fuel)%nat → chain fuel p hd = l.
Proof.
  revert hd pr fuel. induction l as [|a l IH]; intros hd pr fuel Hl Hf; [cbn in Hl; subst hd; by destruct fuel|].
  destruct Hl as (-> & _ & Hl). destruct fuel as [|fuel]; [cbn in Hf; lia|]. cbn [chain]. f_equal.
  apply (IH _ (Some a)); [exact Hl|cbn in Hf; lia].
Qed.

Lemma scan_bucket_ok p l hd fuel total :
  dlist (nfree p) (pfree p) None hd l → (∀ a, a ∈ l → is_Some (hget p a)) →
  (length l < fuel)%nat → scan_bucket fuel p hd total = Some (find (has_room p total) l).
Proof.
  generalize (@None Z) as pr. intros pr Hl. revert pr hd fuel Hl.
  induction l as [|a l IH]; intros pr hd fuel Hl Hin Hf.
  - simpl in Hl. subst hd. by destruct fuel.
  - destruct Hl as (-> & _ & Hl). destruct fuel as [|fuel]; [simpl in Hf; lia|].
    destruct (Hin a) as [h Hh]; [left|]. cbn [scan_bucket find]. unfold has_room at 1. rewrite Hh. cbn [mbind option_bind].
    unfold nfree in Hl. rewrite Hh in Hl. cbn in Hl. rewrite Z.leb_antisym.
    destruct (bh_size h <? total); cbn [negb]; [|done].
    apply (IH _ _ fuel Hl); [intros b Hb; apply Hin; by right|simpl in Hf; lia].
Qed.

(** A block with room that is found, and none that is missed. *)
Lemma find_room p total l :
  (∀ a, a ∈ l → is_Some (hget p a)) →
  match find (has_room p total) l with
  | Some a => a ∈ l ∧ ∃ h, hget p a = Some h ∧ total <= bh_size h
  | None => ∀ a h, a ∈ l → hget p a = Some h → bh_size h < total
  end.
Proof.
  intros Hin. destruct (find _ l) as [a|] eqn:Ef.
  - apply find_some in Ef as [Ha%list_elem_of_In Hr]. split; [done|]. unfold has_room in Hr.
    destruct (hget p a) as [h|]; [|done]. exists h. by bool_hyps.
  - intros a h Ha Hh. apply list_elem_of_In in Ha. pose proof (find_none _ _ Ef a Ha) as Hr.
    unfold has_room in Hr. rewrite Hh in Hr. by bool_hyps.
Qed.

(** ** Taking a block *)

(** The block handed out, and what is split off behind it. *)
Definition alloc_result (a s n : Z) : list blk :=
  if n + BLOCK_OVERHEAD + MIN_BLOCK_SIZE <=? s
  then [mk_blk a n Used; mk_blk (a + n + BLOCK_OVERHEAD) (s - n - BLOCK_OVERHEAD) Free]
  else [mk_blk a s Used].

(** The block's new size. *)
Definition alloc_size (s n : Z) : Z :=
  if n + BLOCK_OVERHEAD + MIN_BLOCK_SIZE <=? s then n else s.

Lemma rep_with_used p bl n : rep p bl → rep (with_used_size p n) bl.
Proof. by intros []. Qed.

Lemma rep_with_min p bl n : rep p bl → rep (with_min_free p n) bl.
Proof. by intros []. Qed.

Lemma malloc_take_ok p bl1 a s bl2 n :
  rep p (bl1 ++ mk_blk a s Free :: bl2) → 0 <= n → n + BLOCK_OVERHEAD <= s →
  ∃ p', malloc_take p a n (n + BLOCK_OVERHEAD) = Some (a + BLOCK_OVERHEAD, p') ∧
    rep p' (bl1 ++ alloc_result a s n ++ bl2) ∧
    tp_used_size p' = usz (tp_used_size p + usz (alloc_size s n + BLOCK_OVERHEAD)) ∧
    tp_min_free p' = Z.min (tp_min_free p) (sumw (in_st Free) (bl1 ++ alloc_result a s n ++ bl2)) ∧
    tp_signature p' = tp_signature p ∧ tp_total_size p' = tp_total_size p ∧
    tp_memory p' = tp_memory p ∧ tp_block_list p' = tp_block_list p.
Proof.
  intros Hr Hn Hfit. pose proof overhead_range as HH. pose proof pow_size_bits as Hpow.
  assert (mk_blk a s Free ∈ bl1 ++ mk_blk a s Free :: bl2) as Hin by (apply elem_of_app; right; left).
  destruct (rep_size_bound _ _ _ Hr Hin) as (? & ? & ? & ?). cbn [b_addr b_size] in *.
  pose proof (rep_total _ _ Hr). pose proof (rep_top _ _ Hr). pose proof (rep_mem _ _ Hr).
  unfold malloc_take. destruct (rep_remove _ _ _ _ _ Hr) as (p1 & -> & Hr1 & Hf1).
  cbn [mbind option_bind].
  destruct (rep_hdr_in _ _ (mk_blk a s Det) Hr1) as (h & Hh & _ & Hs & _); [apply elem_of_app; right; left|].
  cbn [b_addr b_size] in *. rewrite Hh. cbn [mbind option_bind]. rewrite Hs.
  rewrite (usz_small (n + BLOCK_OVERHEAD + MIN_BLOCK_SIZE))
    by (unfold MIN_BLOCK_SIZE, TLSF_BLOCK_ALIGN; lia).
  set (rest := if n + BLOCK_OVERHEAD + MIN_BLOCK_SIZE <=? s
    then [mk_blk (a + n + BLOCK_OVERHEAD) (s - n - BLOCK_OVERHEAD) Free] else []).
  assert (∃ p2, (if n + BLOCK_OVERHEAD + MIN_BLOCK_SIZE <=? s
                 then '(_, p) ← block_split p1 a n; Some p else Some p1) = Some p2 ∧
    rep p2 (bl1 ++ mk_blk a (alloc_size s n) Det :: rest ++ bl2) ∧ same_frame p1 p2)
    as (p2 & -> & Hr2 & Hf2).
  { unfold alloc_size, rest. destruct (_ <=? s) eqn:E; bool_hyps; [|by exists p1].
    destruct (rep_split p1 bl1 a s Det bl2 n Hr1) as (p2 & -> & Hr2 & Hf2); [done|lia|lia|].
    by exists p2. }
  cbn [mbind option_bind].
  destruct (rep_set_flags p2 bl1 a _ Det Used _ (λ f, Z.lor f TLSF_BLOCK_USED) Hr2)
    as (p3 & -> & Hr3 & Hf3); [done..|]. cbn [mbind option_bind].
  destruct (rep_hdr_in _ _ (mk_blk a (alloc_size s n) Used) Hr3) as (h3 & Hh3 & _ & Hs3 & _);
    [apply elem_of_app; right; left|].
  cbn [b_addr b_size] in *. rewrite Hh3. cbn [mbind option_bind]. rewrite Hs3.
  assert (mk_blk a (alloc_size s n) Used :: rest ++ bl2 = alloc_result a s n ++ bl2) as Eres.
  { unfold alloc_size, alloc_result, rest. by destruct (_ <=? s). }
  rewrite Eres in Hr3.
  destruct (same_frame_trans _ _ _ Hf1 (same_frame_trans _ _ _ Hf2 Hf3)) as (E1&E2&E3&E4&E5&E6).
  set (u := usz _). assert (u = usz (tp_used_size p + usz (alloc_size s n + BLOCK_OVERHEAD))) as <-
    by (unfold u; by rewrite E3).
  rewrite (rep_free_size _ _ (rep_with_used _ _ u Hr3)). cbn [mbind option_bind tp_min_free with_used_size].
  rewrite E4. unfold ptr_from_block. rewrite usz_small by lia.
  eexists. split; [done|]. destruct (_ <? tp_min_free p) eqn:E; bool_hyps.
  - split; [by apply rep_with_min, rep_with_used|]. cbn. by rewrite E1, E2, E5, E6, Z.min_r by lia.
  - split; [by apply rep_with_used|]. cbn. by rewrite E1, E2, E4, E5, E6, Z.min_l by lia.
Qed.

(** ** The search *)

Lemma malloc_loop_ok p bl n k fl :
  rep p bl → 0 <= n → n + BLOCK_OVERHEAD < 2 ^ 32 →
  let total := n + BLOCK_OVERHEAD in
  let start := tlsf_get_index total in
  start <= fl → fl + Z.of_nat k = 32 →
  (∃ bl1 a s bl2 p', bl = bl1 ++ mk_blk a s Free :: bl2 ∧ total <= s ∧ first_fit k p total fl = Some a ∧
     malloc_take p a n total = Some (a + BLOCK_OVERHEAD, p') ∧
     malloc_loop k p n total start fl = Some (Some (a + BLOCK_OVERHEAD), p'))
  ∨ (malloc_loop k p n total start fl = Some (None, p) ∧ first_fit k p total fl = None ∧
     ∀ a s, mk_blk a s Free ∈ bl → fl <= tlsf_get_index s → s < total).
Proof.
  intros Hr Hn Hn32 total start. pose proof overhead_range as HH.
  assert (0 <= start) as Hst by (unfold start; pose proof (tlsf_get_index_range total); lia).
  revert fl. induction k as [|k IH]; intros fl Hfl Hk.
  { right. split; [done|]. split; [done|]. intros a s _ Hi. pose proof (tlsf_get_index_range s). lia. }
  destruct (rep_bucket p bl Hr (Z.to_nat fl)) as (hd & l & Hhd & Hl & Hnd & Hm); [lia|].
  assert (∀ a, a ∈ l → ∃ h, hget p a = Some h ∧ mk_blk a (bh_size h) Free ∈ bl ∧
    tlsf_get_index (bh_size h) = fl) as Hin.
  { intros a Ha. destruct (bucket_hget p bl _ hd l a Hr Hm Hl Ha) as (h & ? & ? & ?).
    exists h. split_and!; [done|done|lia]. }
  assert (∀ a h, a ∈ l → hget p a = Some h → total <= bh_size h →
    ∃ bl1 a' s bl2 p', bl = bl1 ++ mk_blk a' s Free :: bl2 ∧ total <= s ∧ Some a = Some a' ∧
      malloc_take p a' n total = Some (a' + BLOCK_OVERHEAD, p') ∧
      ('(ptr, p) ← malloc_take p a n total; Some (Some ptr, p)) = Some (Some (a' + BLOCK_OVERHEAD), p'))
    as Htake.
  { intros a h Ha Hh Hs. destruct (Hin a Ha) as (h' & Hh' & Hb & _).
    assert (h' = h) as -> by congruence.
    apply list_elem_of_split in Hb as (bl1 & bl2 & Ebl).
    destruct (malloc_take_ok p bl1 a (bh_size h) bl2 n) as (p' & Et & _); [by rewrite <- Ebl|lia|done|].
    exists bl1, a, (bh_size h), bl2, p'. fold total in Et. by rewrite Et. }
  cbn [malloc_loop]. unfold rd. zbool. rewrite Hhd. cbn [mbind option_bind].
  assert (∀ a s, mk_blk a s Free ∈ bl → tlsf_get_index s = fl → a ∈ l) as Hinl.
  { intros a s Ha Hi. apply Hm. exists s. split; [done|lia]. }
  assert (∀ a s, mk_blk a s Free ∈ bl → 0 <= s < 2 ^ 32) as Hs32.
  { intros a s Ha. destruct (rep_size_bound _ _ _ Hr Ha) as (?&?&_). cbn in *.
    pose proof (rep_total _ _ Hr). lia. }
  assert ((∀ a s, mk_blk a s Free ∈ bl → tlsf_get_index s = fl → s < total) →
    (∃ bl1 a s bl2 p', bl = bl1 ++ mk_blk a s Free :: bl2 ∧ total <= s ∧ first_fit k p total (fl + 1) = Some a ∧
       malloc_take p a n total = Some (a + BLOCK_OVERHEAD, p') ∧
       malloc_loop k p n total start (fl + 1) = Some (Some (a + BLOCK_OVERHEAD), p'))
    ∨ (malloc_loop k p n total start (fl + 1) = Some (None, p) ∧ first_fit k p total (fl + 1) = None ∧
       ∀ a s, mk_blk a s Free ∈ bl → fl <= tlsf_get_index s → s < total)) as Hnext.
  { intros Hnone. destruct (IH (fl + 1)) as [?|(E & Ef & Hall)]; [lia|lia|by left|right].
    split; [done|]. split; [done|]. intros a s Ha Hi. destruct (decide (tlsf_get_index s = fl)); [by eapply Hnone|].
    eapply Hall; [done|lia]. }
  assert (length l < list_fuel p)%nat as Hfuel.
  { unfold list_fuel. apply Nat.lt_succ_r, (heap_length p l Hnd). intros a Ha. destruct (Hin a Ha) as (h & ? & _). by eexists. }
  assert (free_chain p fl = l) as Echain.
  { unfold free_chain. rewrite Hhd. eapply chain_eq; [exact Hl|lia]. }
  assert (∀ a, a ∈ l → is_Some (hget p a)) as Hsome by (intros a Ha; destruct (Hin a Ha) as (h & ? & _); by eexists).
  pose proof (find_room p total l Hsome) as Hroom.
  cbn [first_fit]. rewrite Echain.
  assert ((if fl =? start then scan_bucket (list_fuel p) p hd total else Some hd) = Some (find (has_room p total) l)) as ->.
  { destruct (Z.eqb_spec fl start) as [|Hne]; [by apply scan_bucket_ok|]. f_equal.
    destruct l as [|a l]; [done|]. destruct Hl as (-> & _). cbn [find].
    destruct (Hin a) as (h & Hh & Hb & Hi); [left|]. unfold has_room. rewrite Hh.
    pose proof (Hs32 _ _ Hb). rewrite tlsf_get_index_log2 in Hi by done.
    assert (Z.log2 total < fl) as Hlog.
    { unfold start in *. rewrite tlsf_get_index_log2 in Hne, Hfl by (unfold total in *; lia). lia. }
    destruct (Z.leb_spec total (bh_size h)); [done|].
    pose proof (Z.log2_le_mono (bh_size h) total). lia. }
  cbn [mbind option_bind]. destruct (find (has_room p total) l) as [a|].
  - left. destruct Hroom as (Ha & h & Hh & Hs). by eapply Htake.
  - apply Hnext. intros a s Ha Hi. pose proof (Hinl a s Ha Hi) as Hal.
    destruct (Hin a Hal) as (h & Hh & Hb & _). pose proof (Hroom a h Hal Hh).
    assert (mk_blk a s Free = mk_blk a (bh_size h) Free) as [= ->]; [|done].
    by eapply NoDup_addr_inj; [apply (rep_NoDup p bl Hr)|..].
Qed.

(** ** Giving a block back *)

(** The freed block [a] of [s] bytes joined with a free block after it. *)
Definition merge_right (a s : Z) (bl2 : list blk) : list blk :=
  match bl2 with
  | mk_blk b s2 Free :: r => mk_blk a (s + BLOCK_OVERHEAD + s2) Free :: r
  | _ => mk_blk a s Free :: bl2
  end.

(** ... and with a free block before it. *)
Definition free_result (bl1 : list blk) (a s : Z) (bl2 : list blk) : list blk :=
  match last bl1 with
  | Some (mk_blk b s1 Free) =>
      removelast bl1 ++ merge_right b (s1 + BLOCK_OVERHEAD + s) bl2
  | _ => bl1 ++ merge_right a s bl2
  end.

Lemma is_free_at_ok p bl b q :
  rep p bl → b ∈ bl → q = Some (b_addr b) →
  is_free_at p q = Some (bool_decide (b_st b = Free)).
Proof.
  intros Hr Hb ->. destruct (rep_hdr_in p bl b Hr Hb) as (h & Hh & _ & _ & Hf).
  cbn. rewrite Hh. cbn. rewrite Hf. by destruct (b_st b).
Qed.

(** Merging to the right of a detached block. *)
Lemma merge_right_ok p bl1 a s bl2 h :
  rep p (bl1 ++ mk_blk a s Det :: bl2) → hget p a = Some h →
  ∃ p' s' bl2',
    (next_free ← is_free_at p (bh_next_phys h);
     match bh_next_phys h, next_free with
     | Some next, true =>
       p ← block_remove_free p next; p ← block_absorb p a next; Some (a, p)
     | _, _ => Some (a, p)
     end) = Some (a, p') ∧
    rep p' (bl1 ++ mk_blk a s' Det :: bl2') ∧ same_frame p p' ∧
    merge_right a s bl2 = mk_blk a s' Free :: bl2'.
Proof.
  intros Hr Hh. destruct (rep_phys_mid _ _ _ _ h Hr Hh) as [_ En]. rewrite En.
  destruct bl2 as [|[b s2 st] bl2].
  - exists p, s, []. split; [done|]. by split.
  - cbn [head fmap option_fmap option_map b_addr].
    erewrite (is_free_at_ok p _ (mk_blk b s2 st)); [|exact Hr| |done].
    2:{ apply elem_of_app. right. right. left. }
    cbn [mbind option_bind b_st]. destruct st; cbn [bool_decide decide_rel].
    + rewrite bool_decide_true by done.
      assert (bl1 ++ mk_blk a s Det :: mk_blk b s2 Free :: bl2 =
        (bl1 ++ [mk_blk a s Det]) ++ mk_blk b s2 Free :: bl2) as E by (by rewrite <- app_assoc).
      rewrite E in Hr. destruct (rep_remove _ _ _ _ _ Hr) as (p1 & -> & Hr1 & Hf1).
      cbn [mbind option_bind]. rewrite <- app_assoc in Hr1. cbn [app] in Hr1.
      destruct (rep_absorb _ _ _ _ _ _ _ _ Hr1) as (p2 & -> & Hr2 & Hf2); [done|].
      cbn [mbind option_bind]. exists p2, (s + BLOCK_OVERHEAD + s2), bl2.
      split; [done|]. split; [done|]. split; [by eapply same_frame_trans|done].
    + rewrite bool_decide_false by done. exists p, s, (mk_blk b s2 Used :: bl2).
      split; [done|]. by split.
    + rewrite bool_decide_false by done. exists p, s, (mk_blk b s2 Det :: bl2).
      split; [done|]. by split.
Qed.

Lemma block_merge_ok p bl1 a s bl2 :
  rep p (bl1 ++ mk_blk a s Det :: bl2) →
  ∃ p' a' s' bl1' bl2', block_merge p a = Some (a', p') ∧
    rep p' (bl1' ++ mk_blk a' s' Det :: bl2') ∧ same_frame p p' ∧
    free_result bl1 a s bl2 = bl1' ++ mk_blk a' s' Free :: bl2'.
Proof.
  intros Hr. unfold block_merge.
  destruct (rep_hdr_in p _ (mk_blk a s Det) Hr) as (h & Hh & _); [apply elem_of_app; right; left|].
  cbn [b_addr] in Hh. rewrite Hh. cbn [mbind option_bind].
  destruct (rep_phys_mid _ _ _ _ h Hr Hh) as [Ep _]. rewrite Ep.
  assert (free_result bl1 a s bl2 = bl1 ++ merge_right a s bl2 →
    ∃ p' a' s' bl1' bl2',
      (h ← hget p a; next_free ← is_free_at p (bh_next_phys h);
       match bh_next_phys h, next_free with
       | Some next, true =>
         p ← block_remove_free p next; p ← block_absorb p a next; Some (a, p)
       | _, _ => Some (a, p)
       end) = Some (a', p') ∧
      rep p' (bl1' ++ mk_blk a' s' Det :: bl2') ∧ same_frame p p' ∧
      free_result bl1 a s bl2 = bl1' ++ mk_blk a' s' Free :: bl2') as Hskip.
  { intros E. rewrite Hh. cbn [mbind option_bind].
    destruct (merge_right_ok p bl1 a s bl2 h Hr Hh) as (p' & s' & bl2' & Em & Hr' & Hf' & Eq).
    exists p', a, s', bl1, bl2'. rewrite E, Eq. done. }
  destruct bl1 as [|[b s1 st] bl1 _] using rev_ind; [by apply Hskip|].
  unfold free_result in *. rewrite last_snoc, removelast_last in *. cbn [fmap option_fmap option_map b_addr].
  rewrite <- app_assoc in Hr. cbn [app] in Hr.
  erewrite (is_free_at_ok p _ (mk_blk b s1 st)); [|exact Hr| |done].
  2:{ apply elem_of_app. right. left. }
  cbn [mbind option_bind b_st].
  destruct st; [|by rewrite bool_decide_false by done; apply Hskip..].
  rewrite bool_decide_true by done.
  destruct (rep_remove _ _ _ _ _ Hr) as (p1 & -> & Hr1 & Hf1). cbn [mbind option_bind].
  destruct (rep_absorb _ _ _ _ _ _ _ _ Hr1) as (p2 & -> & Hr2 & Hf2); [done|].
  cbn [mbind option_bind].
  destruct (rep_hdr_in p2 _ (mk_blk b (s1 + BLOCK_OVERHEAD + s) Det) Hr2) as (h2 & Hh2 & _); [apply elem_of_app; right; left|].
  cbn [b_addr] in Hh2. rewrite Hh2. cbn [mbind option_bind].
  destruct (merge_right_ok p2 bl1 b _ bl2 h2 Hr2 Hh2) as (p3 & s' & bl2' & Em & Hr3 & Hf3 & Eq).
  exists p3, b, s', bl1, bl2'. rewrite Eq. split; [exact Em|]. split; [done|].
  split; [|done]. eapply same_frame_trans; [exact Hf1|]. by eapply same_frame_trans.
Qed.

Lemma tlsf_free_ok p bl1 a s bl2 :
  rep p (bl1 ++ mk_blk a s Used :: bl2) →
  ∃ p', tlsf_free (Some p) (Some (a + BLOCK_OVERHEAD)) = Some (Some p') ∧
    rep p' (free_result bl1 a s bl2) ∧
    tp_used_size p' = usz (tp_used_size p - usz (s + BLOCK_OVERHEAD)) ∧
    tp_min_free p' = tp_min_free p ∧ tp_signature p' = tp_signature p ∧
    tp_total_size p' = tp_total_size p ∧ tp_memory p' = tp_memory p ∧
    tp_block_list p' = tp_block_list p.
Proof.
  intros Hr. pose proof overhead_range as HH.
  assert (mk_blk a s Used ∈ bl1 ++ mk_blk a s Used :: bl2) as Hin by (apply elem_of_app; right; left).
  destruct (rep_size_bound _ _ _ Hr Hin) as (? & ? & ? & ?). cbn [b_addr b_size] in *.
  pose proof (rep_mem _ _ Hr). pose proof (rep_top _ _ Hr).
  destruct (rep_hdr_in _ _ _ Hr Hin) as (h & Hh & Hsig & Hs & Hfl). cbn [b_addr b_size b_st] in *.
  unfold tlsf_free, block_from_ptr. replace (a + BLOCK_OVERHEAD - BLOCK_OVERHEAD) with a by lia.
  rewrite usz_small by lia. rewrite Hh. cbn [mbind option_bind]. rewrite Hsig, Z.eqb_refl, Hfl.
  change (bits_set (st_flags Used) TLSF_BLOCK_USED) with true. cbn [negb].
  destruct (rep_set_flags p bl1 a s Used Det bl2 (λ f, Z.land f (u8 (Z.lnot TLSF_BLOCK_USED))) Hr)
    as (p1 & -> & Hr1 & Hf1); [done..|]. cbn [mbind option_bind]. rewrite Hs.
  destruct Hf1 as (E1&E2&E3&E4&E5&E6). rewrite E3. set (u := usz (_ - _)).
  destruct (block_merge_ok _ _ _ _ _ (rep_with_used _ _ u Hr1))
    as (p2 & a' & s' & bl1' & bl2' & -> & Hr2 & Hf2 & Eres).
  cbn [mbind option_bind]. destruct (rep_insert _ _ _ _ _ Hr2) as (p3 & -> & Hr3 & Hf3).
  cbn [mbind option_bind]. exists p3. split; [done|]. rewrite Eres. split; [done|].
  destruct (same_frame_trans _ _ _ Hf2 Hf3) as (F1&F2&F3&F4&F5&F6). cbn in *.
  rewrite F1, F2, F3, F4, F5, F6. done.
Qed.

(** ** Well-formed pools *)

(** No two free blocks side by side. *)
Definition ok_pair (b c : option blk) : Prop :=
  match b, c with
  | Some b, Some c => b_st b = Free → b_st c = Free → False
  | _, _ => True
  end.

Fixpoint coalesced (bl : list blk) : Prop :=
  match bl with
  | [] => True
  | b :: bl => ok_pair (Some b) (head bl) ∧ coalesced bl
  end.

Record pool_ok (p : tlsf_pool_t) (bl : list blk) : Prop := {
  po_rep : rep p bl;
  po_det : Forall (λ b, b_st b ≠ Det) bl;
  po_coalesced : coalesced bl;
  po_used : tp_used_size p = sumw (in_st Used) bl;
  po_sig : tp_signature p = TLSF_SIGNATURE
}.

Lemma coalesced_app bl1 bl2 :
  coalesced (bl1 ++ bl2) ↔ coalesced bl1 ∧ coalesced bl2 ∧ ok_pair (last bl1) (head bl2).
Proof.
  induction bl1 as [|b bl1 IH]; cbn [app coalesced]; [cbn; tauto|]. rewrite IH, last_cons.
  destruct bl1 as [|c bl1]; [cbn; tauto|]. cbn [app head].
  destruct (last (c :: bl1)) eqn:E; [tauto|by apply last_None in E].
Qed.

Lemma alloc_result_coalesced bl1 a s n bl2 :
  coalesced (bl1 ++ mk_blk a s Free :: bl2) → coalesced (bl1 ++ alloc_result a s n ++ bl2).
Proof.
  rewrite !coalesced_app. cbn [coalesced head]. intros (H1 & [H2 H3] & H4).
  assert (∀ y, ok_pair (last bl1) (Some (mk_blk a y Used))) as Hu by by destruct (last bl1).
  unfold alloc_result. destruct (_ <=? s); cbn [app coalesced head last];
    split_and!; try done; by destruct bl2.
Qed.

Lemma merge_right_coalesced x b a s st bl2 :
  coalesced (mk_blk a s st :: bl2) → ok_pair x (Some b) → b_st b = Free →
  ∀ a' s', coalesced (merge_right a' s' bl2) ∧ ok_pair x (head (merge_right a' s' bl2)).
Proof.
  intros Hc Hx Hb a' s'. assert (∀ y, ok_pair x (Some (mk_blk a' y Free))) as Hx'.
  { intros y. destruct x; [|done]. cbn in *. auto. }
  destruct bl2 as [|[c t []] r]; cbn [merge_right] in *.
  - split; [by cbn|]. apply Hx'.
  - cbn [coalesced head] in Hc. destruct Hc as (_ & Hc & Hr). split; [|apply Hx'].
    cbn [coalesced head]. split; [|done]. destruct r; [done|]. exact Hc.
  - cbn [coalesced head] in Hc. destruct Hc as (_ & Hc & Hr). split; [|apply Hx'].
    cbn [coalesced head]. by split; [|split].
  - cbn [coalesced head] in Hc. destruct Hc as (_ & Hc & Hr). split; [|apply Hx'].
    cbn [coalesced head]. by split; [|split].
Qed.

Lemma free_result_coalesced bl1 a s bl2 :
  Forall (λ b, b_st b ≠ Det) bl1 →
  coalesced (bl1 ++ mk_blk a s Used :: bl2) → coalesced (free_result bl1 a s bl2).
Proof.
  intros Hd. destruct bl1 as [|[b s1 st] bl1 _] using rev_ind.
  - intros Hc. cbn in *. change (coalesced (mk_blk a s Used :: bl2)) in Hc.
    by apply (merge_right_coalesced None (mk_blk a s Free) a s Used bl2).
  - unfold free_result. rewrite last_snoc, removelast_last, <- app_assoc. cbn [app].
    intros (H1 & H2 & H3)%coalesced_app. destruct st.
    + rewrite coalesced_app. cbn [coalesced head] in H2. destruct H2 as [_ H2].
      cbn [head] in H3. split; [done|].
      by apply (merge_right_coalesced _ (mk_blk b s1 Free) a s Used bl2).
    + rewrite !coalesced_app. cbn [coalesced] in H2. destruct H2 as [_ H2].
      destruct (merge_right_coalesced (Some (mk_blk b s1 Used)) (mk_blk a s Free) a s Used bl2 H2
        ltac:(done) eq_refl a s) as [? ?].
      split; [|split; [done|by rewrite last_snoc]].
      split; [done|]. by split.
    + apply Forall_app in Hd as [_ Hd]. by apply Forall_cons_1 in Hd as [? _].
Qed.

Lemma sumw_merge_right st a s bl2 : st ≠ Free →
  sumw (in_st st) (merge_right a s bl2) = sumw (in_st st) bl2.
Proof.
  intros Hst. unfold in_st. destruct bl2 as [|[b s2 []] bl2]; cbn; by rewrite !bool_decide_false by done.
Qed.

Lemma sumw_free_result bl1 a s bl2 :
  sumw (in_st Used) (free_result bl1 a s bl2) =
  sumw (in_st Used) (bl1 ++ mk_blk a s Used :: bl2) - (s + BLOCK_OVERHEAD).
Proof.
  rewrite sumw_app. cbn [sumw]. unfold in_st at 3. rewrite bool_decide_true by done.
  unfold blk_w. cbn [b_size].
  destruct bl1 as [|[b s1 st] bl1 _] using rev_ind; unfold free_result.
  - cbn [last app]. rewrite sumw_merge_right by done. cbn. lia.
  - rewrite last_snoc, removelast_last. destruct st.
    + rewrite !sumw_app, sumw_merge_right by done. cbn [sumw]. unfold in_st at 4.
      rewrite bool_decide_false by done. lia.
    + rewrite !sumw_app, sumw_merge_right by done. lia.
    + rewrite !sumw_app, sumw_merge_right by done. lia.
Qed.

Lemma free_result_det bl1 a s bl2 :
  Forall (λ b, b_st b ≠ Det) (bl1 ++ mk_blk a s Used :: bl2) →
  Forall (λ b, b_st b ≠ Det) (free_result bl1 a s bl2).
Proof.
  intros [H1 [_ H2]%Forall_cons_1]%Forall_app.
  assert (∀ a s, Forall (λ b, b_st b ≠ Det) (merge_right a s bl2)) as Hm.
  { intros a' s'. destruct bl2 as [|[b s2 st2] r]; [by repeat constructor|].
    apply Forall_cons_1 in H2 as [Hst H2].
    destruct st2; cbn; repeat (apply Forall_cons_2; [done|]); done. }
  destruct bl1 as [|[b s1 st] bl1 _] using rev_ind; unfold free_result; [apply Hm|].
  rewrite last_snoc, removelast_last. destruct st; apply Forall_app; split; try done.
  by apply Forall_app in H1 as [? _].
Qed.

Lemma sumw_alloc_result a s n :
  sumw (in_st Used) (alloc_result a s n) = alloc_size s n + BLOCK_OVERHEAD.
Proof.
  unfold alloc_result, alloc_size. destruct (_ <=? s); cbn [sumw]; unfold in_st, blk_w;
    cbn [b_st b_size]; rewrite bool_decide_true by done; rewrite ?bool_decide_false by done; lia.
Qed.

Lemma alloc_result_det bl1 a s n bl2 :
  Forall (λ b, b_st b ≠ Det) (bl1 ++ mk_blk a s Free :: bl2) →
  Forall (λ b, b_st b ≠ Det) (bl1 ++ alloc_result a s n ++ bl2).
Proof.
  intros [H1 [_ H2]%Forall_cons_1]%Forall_app. apply Forall_app. split; [done|].
  apply Forall_app. split; [|done]. unfold alloc_result. destruct (_ <=? s); by repeat constructor.
Qed.

(** The used bytes fit in the pool. *)
Lemma sumw_used_bound p bl :
  rep p bl → Forall (λ b, b_st b ≠ Det) bl → 0 <= sumw (in_st Used) bl <= tp_total_size p.
Proof.
  intros Hr Hd. pose proof (rep_accounting p bl Hr Hd). pose proof (rep_sizes p bl Hr) as Hs.
  pose proof (sumw_nonneg (in_st Free) bl Hs). pose proof (sumw_nonneg (in_st Used) bl Hs). lia.
Qed.

(** [ALIGN_UP (size, 4)]: the next multiple of four. *)
Lemma ALIGN_UP_4 size :
  0 <= size → size + 4 < 2 ^ size_bits →
  let n := ALIGN_UP size TLSF_BLOCK_ALIGN in size <= n < size + 4 ∧ n mod 4 = 0.
Proof.
  intros Hs Hb n. unfold n, ALIGN_UP, TLSF_BLOCK_ALIGN. pose proof size_bits_ge.
  rewrite (usz_small (size + 4 - 1)) by lia. unfold usz.
  rewrite <- land_ones_wrap by lia. rewrite (Z.land_comm (Z.lnot _)), Z.land_assoc, land_ones_wrap by lia.
  rewrite wrap_id by (unfold in_w; lia). change (4 - 1) with (Z.ones 2).
  rewrite <- Z.ldiff_land, Z.ldiff_ones_r, Z.shiftr_div_pow2, Z.shiftl_mul_pow2 by lia.
  change (2 ^ 2) with 4.
  clear. split; [|apply Z.mod_mul; lia]. pose proof (Z.div_mod (size + 4 - 1) 4). pose proof (Z.mod_pos_bound (size + 4 - 1) 4). lia.
Qed.

(** The block for [n] bytes: the first with room, from the class of [n] with a header on. *)
Definition fit_for (p : tlsf_pool_t) (n : Z) : option Z :=
  let start := tlsf_get_index (n + BLOCK_OVERHEAD) in
  first_fit (Z.to_nat (32 - start)) p (n + BLOCK_OVERHEAD) start.

Lemma malloc_ok p bl size :
  pool_ok p bl → 0 < size <= 2 ^ 32 - 64 →
  let n := ALIGN_UP size TLSF_BLOCK_ALIGN in
  ∃ r p', tlsf_malloc (Some p) size = Some (r, Some p') ∧
    tp_memory p' = tp_memory p ∧ tp_total_size p' = tp_total_size p ∧
    r = (λ a, a + BLOCK_OVERHEAD) <$> fit_for p n ∧
    match r with
    | None => p' = p ∧ ∀ a s, mk_blk a s Free ∈ bl → s < n + BLOCK_OVERHEAD
    | Some ptr => ∃ bl1 a s bl2, bl = bl1 ++ mk_blk a s Free :: bl2 ∧
        n + BLOCK_OVERHEAD <= s ∧ ptr = a + BLOCK_OVERHEAD ∧
        pool_ok p' (bl1 ++ alloc_result a s n ++ bl2)
    end.
Proof.
  intros [Hr Hd Hc Hu Hsg] Hsize n. pose proof overhead_range as HH. pose proof pow_size_bits as Hpow.
  destruct (ALIGN_UP_4 size) as [Hn _]; [lia|lia|]. fold n in Hn.
  unfold tlsf_malloc. zbool. fold n. rewrite (usz_small (n + BLOCK_OVERHEAD)) by lia.
  pose proof (tlsf_get_index_range (n + BLOCK_OVERHEAD)) as Hi.
  destruct (malloc_loop_ok p bl n (Z.to_nat (32 - tlsf_get_index (n + BLOCK_OVERHEAD)))
    (tlsf_get_index (n + BLOCK_OVERHEAD)) Hr) as
    [(bl1 & a & s & bl2 & p' & Ebl & Hs & Ef & Et & ->)|(-> & Ef & Hall)]; [lia|lia|lia|lia| |]; cbn [mbind option_bind].
  - subst bl.
    destruct (malloc_take_ok p bl1 a s bl2 n Hr) as (p2 & Et2 & Hr2 & Hu2 & _ & Es' & Et' & Em' & _);
      [lia|done|].
    assert (p2 = p') as -> by congruence.
    exists (Some (a + BLOCK_OVERHEAD)), p'. do 3 (split; [done|]). split; [by unfold fit_for; rewrite Ef|].
    exists bl1, a, s, bl2. split_and!; [done..|].
    pose proof (alloc_result_det _ _ _ n _ Hd) as Hd'.
    split; [done|done|by apply alloc_result_coalesced| |congruence].
    pose proof (sumw_used_bound p' _ Hr2 Hd') as Hb. pose proof (rep_total _ _ Hr2) as Htot.
    rewrite Hu2, Hu. revert Hb. rewrite !sumw_app, sumw_alloc_result.
    change (sumw (in_st Used) (mk_blk a s Free :: bl2)) with (sumw (in_st Used) bl2). intros Hb.
    pose proof (rep_sizes _ _ Hr2) as Hsz. apply Forall_app in Hsz as [Hsz1 [Hszm Hsz2]%Forall_app].
    pose proof (sumw_nonneg (in_st Used) _ Hsz1). pose proof (sumw_nonneg (in_st Used) _ Hsz2).
    pose proof (sumw_nonneg (in_st Used) _ Hszm) as Hm. rewrite sumw_alloc_result in Hm.
    rewrite (usz_small (alloc_size s n + _)) by lia. rewrite usz_small by lia. lia.
  - exists None, p. do 3 (split; [done|]). split; [by unfold fit_for; rewrite Ef|]. split; [done|]. intros a s Ha.
    destruct (Z.le_gt_cases (tlsf_get_index (n + BLOCK_OVERHEAD)) (tlsf_get_index s)) as [Hle|Hgt];
      [by eapply Hall|].
    destruct (rep_size_bound _ _ _ Hr Ha) as (?&?&_). cbn in *. pose proof (rep_total _ _ Hr).
    rewrite !tlsf_get_index_log2 in Hgt by lia.
    destruct (Z.lt_ge_cases s (n + BLOCK_OVERHEAD)) as [?|Hge]; [done|].
    apply Z.log2_le_mono in Hge. lia.
Qed.

Lemma free_ok p bl1 a s bl2 :
  pool_ok p (bl1 ++ mk_blk a s Used :: bl2) →
  ∃ p', tlsf_free (Some p) (Some (a + BLOCK_OVERHEAD)) = Some (Some p') ∧
    tp_memory p' = tp_memory p ∧ tp_total_size p' = tp_total_size p ∧
    pool_ok p' (free_result bl1 a s bl2).
Proof.
  intros [Hr Hd Hc Hu Hsg]. pose proof overhead_range as HH. pose proof pow_size_bits.
  destruct (tlsf_free_ok p bl1 a s bl2 Hr) as (p' & E & Hr' & Hu' & _ & Es' & Et' & Em' & _).
  exists p'. do 3 (split; [done|]). split; [done|by apply free_result_det| | |congruence].
  - apply free_result_coalesced; [by apply Forall_app in Hd as [? _]|done].
  - pose proof (sumw_used_bound _ _ Hr Hd) as Hb. pose proof (rep_total _ _ Hr).
    rewrite Hu', Hu, sumw_free_result.
    assert (mk_blk a s Used ∈ bl1 ++ mk_blk a s Used :: bl2) as Hin by (apply elem_of_app; right; left).
    destruct (rep_size_bound _ _ _ Hr Hin) as (?&?&_). cbn [b_size] in *.
    rewrite (usz_small (s + _)) by lia. apply usz_small.
    pose proof (sumw_used_bound _ _ Hr' (free_result_det _ _ _ _ Hd)) as Hb'.
    rewrite sumw_free_result in Hb'. pose proof (rep_total _ _ Hr'). lia.
Qed.

(** ** A fresh pool *)

Lemma create_ok mem bytes :
  0 <= mem → mem + bytes < 2 ^ size_bits → POOL_SIZE + MIN_BLOCK_SIZE <= bytes < 2 ^ 32 →
  ∃ p, tlsf_create (Some mem) bytes = Some (Some p) ∧
    pool_ok p [mk_blk (mem + POOL_SIZE) (bytes - POOL_SIZE - BLOCK_OVERHEAD) Free] ∧
    tp_total_size p = bytes - POOL_SIZE ∧ tp_memory p = mem + POOL_SIZE ∧
    tp_min_free p = bytes - POOL_SIZE.
Proof.
  intros Hmem Htop Hb. pose proof overhead_range as HH. pose proof pow_size_bits as Hpow.
  assert (152 <= POOL_SIZE) as HP by (unfold POOL_SIZE; destruct (_ =? _); lia).
  unfold MIN_BLOCK_SIZE, TLSF_BLOCK_ALIGN in Hb.
  unfold tlsf_create, MIN_BLOCK_SIZE, TLSF_BLOCK_ALIGN. zbool.
  rewrite !usz_small by lia. rewrite wrap_id by (unfold in_w; lia).
  set (m := mem + POOL_SIZE). set (sz := bytes - POOL_SIZE - BLOCK_OVERHEAD).
  set (p0 := hnew _ m sz None None).
  assert (hget p0 m = Some (mk_block TLSF_SIGNATURE sz 0 None None None None)) as Hm.
  { unfold p0, hnew. rewrite hget_insert. by rewrite decide_True. }
  assert (rep p0 ([] ++ mk_blk m sz Det :: [])) as Hr.
  { split; try done.
    - constructor; [|done]. eexists. split; [exact Hm|]. done.
    - change (Some m = Some m ∧ pphys p0 m = None ∧ nphys p0 m = None).
      unfold pphys, nphys. by rewrite Hm.
    - cbn. unfold sz, m. lia.
    - intros i Hi. exists None, []. split; [|split; [done|split; [constructor|]]].
      + cbn. change (replicate 32 (@None Z) !! i = Some None). by apply lookup_replicate_2.
      + intros a. split; [intros []%not_elem_of_nil|].
        intros (s & Hs%list_elem_of_singleton & _). done.
    - cbn. unfold m. lia.
    - cbn. unfold m. lia.
    - cbn. lia. }
  destruct (rep_insert _ _ _ _ _ Hr) as (p1 & -> & Hr1 & (E1&E2&E3&E4&E5&E6)).
  cbn [mbind option_bind]. exists p1. split; [done|]. cbn [app] in Hr1.
  rewrite E2, E4, E6. split; [|done].
  split; [done|by repeat constructor|by cbn|by rewrite E3|by rewrite E1].
Qed.

(** ** Runs

    A client allocates and frees in any order; [live] are the pointers it holds, in the order
    it got them.  A free names one of them by its place. *)

Inductive heap_call := HMalloc (size : Z) | HFree (i : nat).
Definition heap_state : Type := tlsf_pool_t * list Z.
Definition heap_do (c : heap_call) (st : heap_state) : option heap_state :=
  let (p, live) := st in
  match c with
  | HMalloc size =>
    '(r, pool) ← tlsf_malloc (Some p) size; p ← pool;
    Some (p, match r with Some ptr => live ++ [ptr] | None => live end)
  | HFree i =>
    match live !! i with
    | Some ptr => pool ← tlsf_free (Some p) (Some ptr); p ← pool; Some (p, delete i live)
    | None => Some st
    end
  end.
(** The sizes for which nothing wraps. *)
Definition heap_call_ok (c : heap_call) : Prop :=
  match c with HMalloc size => 0 <= size <= 2 ^ 32 - 64 | HFree _ => True end.

(** The pointers of the used blocks. *)
Fixpoint used_ptrs (bl : list blk) : list Z :=
  match bl with
  | [] => []
  | b :: bl =>
      match b_st b with
      | Used => (b_addr b + BLOCK_OVERHEAD) :: used_ptrs bl
      | _ => used_ptrs bl
      end
  end.

Lemma used_ptrs_app bl1 bl2 : used_ptrs (bl1 ++ bl2) = used_ptrs bl1 ++ used_ptrs bl2.
Proof.
  induction bl1 as [|b bl1 IH]; [done|]. cbn [app used_ptrs]. rewrite IH. by destruct (b_st b).
Qed.

Lemma used_ptrs_elem bl ptr :
  ptr ∈ used_ptrs bl → ∃ bl1 s bl2, bl = bl1 ++ mk_blk (ptr - BLOCK_OVERHEAD) s Used :: bl2.
Proof.
  induction bl as [|[a s st] bl IH]; cbn [used_ptrs b_st]; [by intros ?%not_elem_of_nil|].
  intros Hp. assert (st = Used ∧ ptr = a + BLOCK_OVERHEAD ∨ ptr ∈ used_ptrs bl) as [[-> ->]|Hin].
  { destruct st; [by right| |by right]. apply elem_of_cons in Hp as [->|?]; [by left|by right]. }
  - exists [], s, bl. cbn. by replace (a + BLOCK_OVERHEAD - BLOCK_OVERHEAD) with a by lia.
  - destruct (IH Hin) as (bl1 & s' & bl2 & ->). by exists (mk_blk a s st :: bl1), s', bl2.
Qed.

Lemma used_ptrs_free_result bl1 a s bl2 :
  used_ptrs (free_result bl1 a s bl2) = used_ptrs bl1 ++ used_ptrs bl2.
Proof.
  assert (∀ a s, used_ptrs (merge_right a s bl2) = used_ptrs bl2) as Hm.
  { intros a' s'. by destruct bl2 as [|[b s2 []] r]. }
  destruct bl1 as [|[b s1 st] bl1 _] using rev_ind; unfold free_result; [apply Hm|].
  rewrite last_snoc, removelast_last. destruct st; rewrite !used_ptrs_app, Hm; [|done..].
  cbn. by rewrite app_nil_r.
Qed.

Lemma used_ptrs_alloc_result a s n :
  used_ptrs (alloc_result a s n) = [a + BLOCK_OVERHEAD].
Proof. unfold alloc_result. by destruct (_ <=? s). Qed.

(** What holds of the allocator and its client at every moment. *)
Definition heap_inv (mem total : Z) (st : tlsf_pool_t * list Z) : Prop :=
  ∃ bl, pool_ok st.1 bl ∧ tp_memory st.1 = mem ∧ tp_total_size st.1 = total ∧
    st.2 ≡ₚ used_ptrs bl.

Lemma heap_do_ok mem total c st :
  heap_inv mem total st → heap_call_ok c → ∃ st', heap_do c st = Some st' ∧ heap_inv mem total st'.
Proof.
  destruct st as [p live]. intros (bl & Hok & Hm & Ht & Hl) Hc. cbn [fst snd] in *. destruct c as [size|i]; cbn [heap_do].
  - destruct (Z.eq_dec size 0) as [-> |]; [exists (p, live); split; [done|by exists bl]|].
    destruct (malloc_ok p bl size Hok) as (r & p2 & -> & Em' & Et' & _ & Hr); [cbn in Hc; lia|].
    cbn [mbind option_bind]. eexists. split; [done|]. destruct r as [ptr|].
    + destruct Hr as (bl1 & a & s & bl2 & -> & _ & -> & Hok').
      exists (bl1 ++ alloc_result a s (ALIGN_UP size TLSF_BLOCK_ALIGN) ++ bl2).
      cbn [fst snd]. split; [done|]. split; [congruence|]. split; [congruence|].
      rewrite <- Permutation_cons_append, Hl, !used_ptrs_app, used_ptrs_alloc_result. cbn [used_ptrs b_st app].
      by rewrite Permutation_middle.
    + destruct Hr as [-> _]. by exists bl.
  - destruct (live !! i) as [ptr|] eqn:Ei; [|exists (p, live); split; [done|by exists bl]].
    assert (ptr ∈ used_ptrs bl) as Hin by (rewrite <- Hl; by apply list_elem_of_lookup_2 in Ei).
    apply used_ptrs_elem in Hin as (bl1 & s & bl2 & ->).
    destruct (free_ok p bl1 (ptr - BLOCK_OVERHEAD) s bl2 Hok) as (p2 & E & Em' & Et' & Hok').
    replace (ptr - BLOCK_OVERHEAD + BLOCK_OVERHEAD) with ptr in E by lia. rewrite E. cbn [mbind option_bind].
    eexists. split; [done|]. exists (free_result bl1 (ptr - BLOCK_OVERHEAD) s bl2).
    cbn [fst snd]. split; [done|]. split; [congruence|]. split; [congruence|].
    rewrite used_ptrs_free_result. apply (Permutation_cons_inv (a := ptr)).
    rewrite <- (delete_Permutation live i ptr Ei), Hl, used_ptrs_app. cbn [used_ptrs b_st b_addr].
    replace (ptr - BLOCK_OVERHEAD + BLOCK_OVERHEAD) with ptr by lia. by rewrite Permutation_middle.
Qed.

Lemma heap_run_ok mem total l st :
  heap_inv mem total st → Forall heap_call_ok l → ∃ st', each heap_do l st = Some st' ∧ heap_inv mem total st'.
Proof.
  intros Hi Hl. revert st Hi. induction Hl as [|c l Hc _ IH]; intros st Hi; [by exists st|]. cbn [each].
  destruct (heap_do_ok mem total c st Hi Hc) as (st1 & -> & Hi1). by apply IH.
Qed.

(** Next to a free block there is no other. *)
Lemma coalesced_lookup bl i b c :
  coalesced bl → bl !! i = Some b → bl !! S i = Some c → b_st b = Free → b_st c ≠ Free.
Proof.
  revert i. induction bl as [|d bl IH]; intros i Hc Hb Hn Ef; [done|]. destruct Hc as [Hp Hc].
  destruct i as [|i]; [|by apply (IH i)]. cbn in Hb, Hn. injection Hb as ->.
  destruct bl as [|e bl]; [done|]. cbn in Hn. injection Hn as ->. exact (Hp Ef).
Qed.

Lemma create_inv mem bytes p :
  0 <= mem → mem + bytes < 2 ^ size_bits → POOL_SIZE + MIN_BLOCK_SIZE <= bytes < 2 ^ 32 →
  tlsf_create (Some mem) bytes = Some (Some p) →
  heap_inv (mem + POOL_SIZE) (bytes - POOL_SIZE) (p, []).
Proof.
  intros H1 H2 H3 Hc. destruct (create_ok mem bytes H1 H2 H3) as (p' & E & Hok & Et & Em & _).
  rewrite Hc in E. injection E as <-. by eexists.
Qed.

(** With nothing in use, everything is one free block again. *)
Lemma all_free_single a bl e :
  tiles a bl e → coalesced bl → Forall (λ b, b_st b ≠ Det) bl → used_ptrs bl = [] → a < e →
  bl = [mk_blk a (e - a - BLOCK_OVERHEAD) Free].
Proof.
  intros Ht Hc Hd Hu Hae. destruct bl as [|[b s st] bl]; [cbn in Ht; lia|].
  apply Forall_cons_1 in Hd as [Hst Hd]. cbn [b_st] in Hst. destruct st; [|done|done].
  cbn [used_ptrs b_st] in Hu. destruct Ht as (Eb & Hs & Ht). cbn [b_addr b_size] in *.
  destruct bl as [|[c s2 st] bl].
  - cbn in Ht. f_equal. f_equal; lia.
  - exfalso. destruct Hc as [Hp _]. apply Forall_cons_1 in Hd as [Hst' _]. cbn in *.
    destruct st; [by apply Hp|done|done].
Qed.

(** [tlsf_pool_check] accepts a well-formed pool. *)
Lemma check_loop_ok p l hd fuel pr :
  dlist (nphys p) (pphys p) pr hd l →
  (∀ a, a ∈ l → ∃ h, hget p a = Some h ∧ bh_signature h = TLSF_SIGNATURE) →
  (length l < fuel)%nat → check_loop fuel p hd = Some true.
Proof.
  revert pr hd fuel. induction l as [|a l IH]; intros pr hd fuel Hl Hin Hf.
  - simpl in Hl. subst hd. by destruct fuel.
  - destruct Hl as (-> & _ & Hl). destruct fuel as [|fuel]; [simpl in Hf; lia|].
    destruct (Hin a) as (h & Hh & Hs); [left|]. cbn [check_loop]. rewrite Hh. cbn [mbind option_bind].
    rewrite Hs, Z.eqb_refl. cbn [negb]. unfold nphys in Hl. rewrite Hh in Hl. cbn in Hl.
    eapply IH; [exact Hl|intros b Hb; apply Hin; by right|simpl in Hf; lia].
Qed.

Lemma pool_check_ok p bl : pool_ok p bl → tlsf_pool_check (Some p) = Some true.
Proof.
  intros [Hr _ _ _ Hs]. unfold tlsf_pool_check. rewrite Hs, Z.eqb_refl. cbn [negb].
  assert (∀ a, a ∈ b_addr <$> bl → ∃ h, hget p a = Some h ∧ bh_signature h = TLSF_SIGNATURE) as Hin.
  { intros a (b & -> & Hb)%list_elem_of_fmap.
    destruct (rep_hdr_in p bl b Hr Hb) as (h & ? & ? & _). eauto. }
  eapply check_loop_ok; [apply Hr|done|]. unfold list_fuel.
  enough (length (b_addr <$> bl) <= size (tp_heap p))%nat by lia.
  apply heap_length; [by apply (rep_NoDup p)|]. intros a (h & ? & _)%Hin. by eexists.
Qed.
End Spec.

(** ** Theorems *)

(** C1: [tlsf_malloc] of a well-formed pool is first fit, for every request that with its
    header stays below 4 GB (so that neither [ALIGN_UP] nor the 32-bit class index wraps;
    [malloc_wraps] and [malloc_high_bits] show what happens beyond).  It takes the first
    block with room for the aligned request and one more header on the free lists of the
    size classes from that of the request up, in the order of the lists; it returns NULL,
    changing nothing, exactly when no free block of the pool has room, so the search by
    classes misses none; it hands out the data of the block, at least as large as
    requested, and leaves the rest, when a block fits in it, as a new free block. *)
Theorem tlsf_malloc_refines `{Arch} p bl size :
  pool_ok p bl → 0 < size <= 2 ^ 32 - 64 →
  let n := ALIGN_UP size TLSF_BLOCK_ALIGN in
  size <= n < size + 4 ∧ n mod 4 = 0 ∧
  ∃ p', tlsf_malloc (Some p) size = Some ((λ a, a + BLOCK_OVERHEAD) <$> fit_for p n, Some p') ∧
    match fit_for p n with
    | None => p' = p ∧ ∀ a s, mk_blk a s Free ∈ bl → s < n + BLOCK_OVERHEAD
    | Some a => ∃ bl1 s bl2, bl = bl1 ++ mk_blk a s Free :: bl2 ∧ n + BLOCK_OVERHEAD <= s ∧
        pool_ok p' (bl1 ++ alloc_result a s n ++ bl2)
    end.
Proof.
  intros Hok Hs n. pose proof pow_size_bits.
  destruct (ALIGN_UP_4 size) as [Hn Hm]; [lia|lia|]. split; [done|]. split; [done|].
  destruct (malloc_ok p bl size Hok Hs) as (r & p' & E & _ & _ & Er & Hr). fold n in Er, Hr. subst r.
  exists p'. split; [done|]. destruct (fit_for p n) as [a|]; cbn in Hr; [|done].
  destruct Hr as (bl1 & a' & s & bl2 & Ebl & Hs' & Ea & Hok'). assert (a' = a) as -> by lia. by exists bl1, s, bl2.
Qed.

Lemma tlsf_malloc_refines_witness :
  let A := arch32 in
  ∃ p, pool_ok p [mk_blk 4248 16204 Free] ∧
    ∃ p', tlsf_malloc (Some p) 100 = Some ((λ a, a + BLOCK_OVERHEAD) <$> fit_for p 100, Some p') ∧
    match fit_for p 100 with
    | None => p' = p ∧ ∀ a s, mk_blk a s Free ∈ [mk_blk 4248 16204 Free] → s < 100 + BLOCK_OVERHEAD
    | Some a => ∃ bl1 s bl2, [mk_blk 4248 16204 Free] = bl1 ++ mk_blk a s Free :: bl2 ∧ 100 + BLOCK_OVERHEAD <= s ∧
        pool_ok p' (bl1 ++ alloc_result a s 100 ++ bl2)
    end.
Proof.
  intros A. destruct (@create_ok arch32 4096 16384) as (p & _ & Hok & _);
    [vm_decide..|].
  exists p. split; [exact Hok|].
  apply (@tlsf_malloc_refines arch32 p [mk_blk 4248 16204 Free] 100 Hok). vm_decide.
Defined.

(** C2: [tlsf_free] of a pointer to a used block marks the block free and joins
    it with a free block before it and a free block after it; nothing else in the
    list of blocks changes, and the pool stays well formed. *)
Theorem tlsf_free_refines `{Arch} p bl1 a s bl2 :
  pool_ok p (bl1 ++ mk_blk a s Used :: bl2) →
  ∃ p', tlsf_free (Some p) (Some (a + BLOCK_OVERHEAD)) = Some (Some p') ∧
    pool_ok p' (free_result bl1 a s bl2).
Proof.
  intros Hok. destruct (free_ok p bl1 a s bl2 Hok) as (p' & E & _ & _ & Hok'). by exists p'.
Qed.

(** A pool with one used block and a free block behind it. *)
Lemma sample_pool :
  ∃ p, @pool_ok arch32 p ([] ++ mk_blk 4248 100 Used :: [mk_blk 4376 16076 Free]).
Proof.
  destruct (@create_ok arch32 4096 16384) as (p & _ & Hok & _); [vm_decide..|].
  destruct (@malloc_ok arch32 p _ 100 Hok) as (r & p' & E & _ & _ & _ & Hr); [vm_decide|].
  destruct r as [ptr|].
  - destruct Hr as (bl1 & a & s & bl2 & Ebl & _ & _ & Hok').
    destruct bl1 as [|b bl1]; [|by destruct bl1].
    injection Ebl as Ea Es Ebl. subst a s bl2. exists p'. exact Hok'.
  - exfalso. destruct Hr as [_ Hr]. specialize (Hr _ _ ltac:(left)). vm_compute in Hr. discriminate Hr.
Qed.

Lemma tlsf_free_refines_witness :
  ∃ p p', tlsf_free (H := arch32) (Some p) (Some 4276) = Some (Some p') ∧
    @pool_ok arch32 p' [mk_blk 4248 16204 Free].
Proof.
  destruct sample_pool as [p Hok]. exists p.
  exact (@tlsf_free_refines arch32 p [] 4248 100 [mk_blk 4376 16076 Free] Hok).
Defined.

(** C3: the heap is safe under any client.  From a fresh pool every sequence of allocations
    (of sizes for which nothing wraps) and of frees of live pointers runs without a fault, and
    leaves the memory of the pool tiled by blocks, each with its header: they cover it from end
    to end without gap or overlap, no two free blocks are neighbours, and the used ones are the
    blocks of the live pointers.  So live pointers are distinct, and their blocks lie inside the
    pool and overlap neither one another's data nor headers.  The reported free and used sizes
    add up to the pool, the integrity check passes, and once everything is freed the pool is one
    free block of the original size: no memory is lost to fragmentation. *)
Theorem tlsf_heap_safe `{Arch} mem bytes p0 l :
  0 <= mem → mem + bytes < 2 ^ size_bits → POOL_SIZE + MIN_BLOCK_SIZE <= bytes < 2 ^ 32 →
  tlsf_create (Some mem) bytes = Some (Some p0) → Forall heap_call_ok l →
  ∃ p live bl, each heap_do l (p0, []) = Some (p, live) ∧
  tiles (mem + POOL_SIZE) bl (mem + bytes) ∧ Forall (hdr_ok p) bl ∧ Forall (λ b, b_st b = Free ∨ b_st b = Used) bl ∧
  (∀ i b c, bl !! i = Some b → bl !! S i = Some c → b_st b = Free → b_st c = Used) ∧
  live ≡ₚ used_ptrs bl ∧ NoDup live ∧
  (∀ x, x ∈ live → ∃ h, hget p (x - BLOCK_OVERHEAD) = Some h ∧ 0 <= bh_size h ∧
     mem + POOL_SIZE + BLOCK_OVERHEAD <= x ∧ x + bh_size h <= mem + bytes) ∧
  (∀ x y h, x ∈ live → y ∈ live → x < y → hget p (x - BLOCK_OVERHEAD) = Some h →
     x + bh_size h + BLOCK_OVERHEAD <= y) ∧
  tlsf_pool_free_size (Some p) = Some (bytes - POOL_SIZE - tlsf_pool_used_size (Some p)) ∧
  tlsf_pool_check (Some p) = Some true ∧
  (live = [] → tlsf_pool_used_size (Some p) = 0 ∧
     ∃ h, hget p (mem + POOL_SIZE) = Some h ∧ bh_flags h = TLSF_BLOCK_FREE ∧
       bh_size h = bytes - POOL_SIZE - BLOCK_OVERHEAD ∧ bh_next_phys h = None).
Proof.
  intros Hm Ht Hb Hc Hcalls. pose proof overhead_range as HH.
  destruct (heap_run_ok _ _ l _ (create_inv mem bytes p0 Hm Ht Hb Hc) Hcalls)
    as ([p live] & Hrun & bl & Hok & Em & Et & Hl). cbn [fst snd] in *. exists p, live, bl. split; [exact Hrun|].
  assert (Forall (λ b, b_st b = Free ∨ b_st b = Used) bl) as Hst.
  { eapply Forall_impl; [apply (po_det p bl Hok)|]. intros [a s0 []] Hb'; cbn in *; auto. by destruct Hb'. }
  pose proof (po_rep p bl Hok) as Hr. pose proof (rep_tiles p bl Hr) as Htl. rewrite Em, Et in Htl.
  assert (∀ x, x ∈ live → ∃ s, mk_blk (x - BLOCK_OVERHEAD) s Used ∈ bl) as Hin.
  { intros x. rewrite Hl. intros (b1 & s & b2 & ->)%used_ptrs_elem. exists s.
    apply elem_of_app. right. left. }
  assert (∀ x s h, mk_blk (x - BLOCK_OVERHEAD) s Used ∈ bl → hget p (x - BLOCK_OVERHEAD) = Some h →
    bh_size h = s) as Hsz.
  { intros x s h Hx Hh. destruct (rep_hdr_in p bl _ Hr Hx) as (k & Hk & _ & Hs & _).
    cbn [b_addr b_size b_st] in *. congruence. }
  split_and!.
  - by replace (mem + bytes) with (mem + POOL_SIZE + (bytes - POOL_SIZE)) by lia.
  - apply Hr.
  - exact Hst.
  - intros i b c Hi Hn Ef. pose proof (coalesced_lookup bl i b c (po_coalesced p bl Hok) Hi Hn Ef) as Hnf.
    destruct (proj1 (Forall_lookup _ _) Hst (S i) c Hn); [done|done].
  - exact Hl.
  - rewrite Hl. pose proof (rep_NoDup p bl Hr) as Hnd. clear -Hnd HH.
    induction bl as [|[a s st] bl IH]; [constructor|]. cbn in Hnd. apply NoDup_cons in Hnd as [Ha Hnd].
    cbn [used_ptrs b_st]. destruct st; [by apply IH| |by apply IH]. apply NoDup_cons.
    split; [|by apply IH]. intros (b1 & s' & b2 & ->)%used_ptrs_elem. apply Ha. cbn [b_addr].
    rewrite fmap_app, fmap_cons. apply elem_of_app. right. apply elem_of_cons. left.
    cbn [b_addr]. lia.
  - intros x (s & Hs)%Hin. destruct (rep_hdr_in p bl _ Hr Hs) as (h & Hh & _ & Es & _). cbn [b_addr b_size b_st] in *.
    exists h. destruct (tiles_in _ _ _ _ Htl Hs) as (?&?&?). cbn [b_addr b_size b_st] in *. split; [done|]. lia.
  - intros x y h (s & Hs)%Hin (s' & Hs')%Hin Hxy Hh. rewrite (Hsz _ _ _ Hs Hh).
    apply list_elem_of_lookup in Hs as [i Hi]. apply list_elem_of_lookup in Hs' as [j Hj].
    destruct (Nat.lt_trichotomy i j) as [Hlt|[->|Hlt]].
    + pose proof (tiles_disjoint _ _ _ _ _ _ _ Htl Hi Hj Hlt). cbn [b_addr b_size b_st] in *. lia.
    + rewrite Hi in Hj. injection Hj as E _. lia.
    + pose proof (tiles_disjoint _ _ _ _ _ _ _ Htl Hj Hi Hlt). cbn [b_addr b_size b_st] in *.
      destruct (tiles_in _ _ _ _ Htl (list_elem_of_lookup_2 _ _ _ Hj)) as (_&_&?). cbn [b_addr b_size b_st] in *. lia.
  - rewrite (rep_free_size p bl Hr). f_equal. cbn. rewrite (po_used p bl Hok).
    pose proof (rep_accounting p bl Hr (po_det p bl Hok)). lia.
  - by eapply pool_check_ok.
  - intros ->. symmetry in Hl. apply Permutation_nil_r in Hl.
    unfold MIN_BLOCK_SIZE, TLSF_BLOCK_ALIGN in Hb.
    pose proof (all_free_single _ bl _ Htl (po_coalesced p bl Hok) (po_det p bl Hok) Hl ltac:(lia)) as E.
    pose proof (po_used p bl Hok) as Hu. subst bl. cbn in Hu. split; [done|].
    destruct (rep_hdr_in p _ _ Hr ltac:(left)) as (h & Hh & _ & Es & Ef). cbn in Hh, Es, Ef.
    destruct (rep_phys_mid p [] _ [] h Hr Hh) as [_ En]. exists h. cbn in En.
    split_and!; [done|done|lia|done].
Qed.

Lemma tlsf_heap_safe_witness :
  ∃ p0 p, tlsf_create (H := arch32) (Some 4096) 16384 = Some (Some p0) ∧
    each (heap_do (H := arch32)) [HMalloc 100; HMalloc 200; HFree 0; HFree 0] (p0, []) = Some (p, []) ∧
    tlsf_pool_used_size (Some p) = 0.
Proof.
  destruct (@create_ok arch32 4096 16384) as (p0 & E0 & Hok & _); [vm_decide..|].
  destruct (@tlsf_heap_safe arch32 4096 16384 p0 [HMalloc 100; HMalloc 200; HFree 0; HFree 0])
    as (p & live & bl & E & _ & _ & _ & _ & _ & _ & _ & _ & _ & _ & Hz);
    [vm_decide..|exact E0|repeat constructor; vm_decide|].
  assert (live = []) as El.
  { assert ((g ← tlsf_create (H := arch32) (Some 4096) 16384; q ← g;
             snd <$> each (heap_do (H := arch32)) [HMalloc 100; HMalloc 200; HFree 0; HFree 0] (q, [])) = Some live) as E1.
    { rewrite E0. cbn [mbind option_bind]. by rewrite E. }
    vm_compute in E1. by injection E1 as <-. }
  subst live. exists p0, p. split; [exact E0|]. split; [exact E|]. exact (proj1 (Hz eq_refl)).
Defined.

(** ** Behaviour outside the contract

    Evaluations on a fresh 16 KB system heap of a 32-bit board. *)

(** Shrinking a block by less than a header, with the block after it in use, takes
    the copying path: the new block has exactly the requested size, but
    [memcpy (new_ptr, ptr, block->size)] copies the old block's size into it. *)
Example realloc_shrink_overruns :
  let A := arch32 in
  ('(a, g) ← os_malloc 4096 None 100;
   '(b, g) ← os_malloc 4096 g 20;
   os_realloc 4096 g a 80) = None.
Proof. by vm_compute. Qed.

(** Shrinking in place does not update [used_size]: free and used bytes exceed
    the pool. *)
Example realloc_accounting :
  let A := arch32 in
  ('(a, g) ← os_malloc 4096 None 100;
   '(a, g) ← os_realloc 4096 g a 8;
   free ← tlsf_pool_free_size g;
   Some (free + tlsf_pool_used_size g - tlsf_pool_total_size g)) = Some 92.
Proof. by vm_compute. Qed.

(** [tlsf_memalign] counts the allocation twice and leaves the discarded front
    block marked both free and used. *)
Example memalign_accounting :
  let A := arch32 in
  ('(a, g) ← os_malloc 4096 None 100;
   '(b, g) ← tlsf_memalign g 64 20;
   free ← tlsf_pool_free_size g;
   p ← g; h ← hget p 4376;
   Some (free + tlsf_pool_used_size g - tlsf_pool_total_size g, bh_flags h)) = Some (292, 3).
Proof. by vm_compute. Qed.

(** A request within four bytes of [SIZE_MAX] wraps to 0 in [ALIGN_UP] and is
    granted a block without data bytes. *)
Example malloc_wraps :
  let A := arch32 in
  ('(a, g) ← os_malloc 4096 None (2 ^ 32 - 1);
   a ← a; p ← g; h ← hget p (block_from_ptr a); Some (bh_size h)) = Some 0.
Proof. by vm_compute. Qed.

(** Where [size_t] has 64 bits the class comes from the low 32 bits: a request of 4 GB and
    four bytes is granted a block of 16 KB. *)
Example malloc_high_bits :
  let A := arch64 in
  ('(a, g) ← os_malloc 4096 None (2 ^ 32 + 4);
   a ← a; p ← g; h ← hget p (block_from_ptr a); Some (bh_size h)) = Some 16032.
Proof. by vm_compute. Qed.

(** [os_calloc] multiplies without checking: four gigabytes of elements get four
    bytes. *)
Example calloc_wraps :
  let A := arch32 in
  ('(a, g) ← os_calloc 4096 None 0x40000001 4;
   a ← a; p ← g; h ← hget p (block_from_ptr a); Some (bh_size h)) = Some 4.
Proof. by vm_compute. Qed.
