(* ===== verification/Power.v ===== *)
(** * Power management (kernel/power.c)

    Sleep modes, the CPU frequency table and the drivers' suspend/resume
    callbacks.  The callbacks and the platform clock act on an environment [U];
    [Clock] is the part of kernel/os_time.c this module uses, which on every
    target waits for the platform's tick. *)

From Stdlib Require Import ZArith Lia.
From stdpp Require Import base tactics option list numbers sets.
From S2P Require Import Prelude.

Inductive power_mode_t :=
  POWER_MODE_ACTIVE | POWER_MODE_IDLE | POWER_MODE_LIGHT_SLEEP | POWER_MODE_DEEP_SLEEP.

#[export] Instance power_mode_eq_dec : EqDecision power_mode_t.
Proof. solve_decision. Defined.

Record wake_result_t := mk_wake { woke_up : bool; wake_gpio : Z; slept_ms : Z }.
Record wake_config_t := mk_wake_config { wc_timeout_ms : Z; wc_gpio_num : Z; wc_gpio_trigger : Z }.

Class Clock (U : Type) := {
  time_now_ms : U → Z;
  time_sleep_ms : Z → U → U;
  time_now_u32 : ∀ u, is_u32 (time_now_ms u)
}.

Section Power.
Context {U : Type} `{Clock U}.

(** Handles are compared only; the argument of a callback is in its closure. *)
Record pm_driver_t := mk_pm_driver {
  pd_handle : Z;
  pd_suspend : option (U → U);
  pd_resume : option (U → U);
  pd_registered : bool
}.

Record power_state_t := mk_power {
  pw_initialized : bool;
  pw_current_mode : power_mode_t;
  pw_last_wake : wake_result_t;
  pw_rtc_time_ms : Z;
  pw_wake_config : wake_config_t;
  pw_available_freqs : list Z;
  pw_num_available_freqs : Z;
  pw_current_cpu_freq_mhz : Z;
  pw_drivers : list pm_driver_t
}.

(** The zero-initialised [g_power]. *)
Definition g_power_zero : power_state_t :=
  mk_power false POWER_MODE_ACTIVE (mk_wake false 0 0) 0 (mk_wake_config 0 0 0)
    (zeros 8) 0 0 (replicate 8 (mk_pm_driver 0 None None false)).

Definition with_mode (p : power_state_t) (m : power_mode_t) : power_state_t :=
  mk_power (pw_initialized p) m (pw_last_wake p) (pw_rtc_time_ms p) (pw_wake_config p)
    (pw_available_freqs p) (pw_num_available_freqs p) (pw_current_cpu_freq_mhz p) (pw_drivers p).
Definition with_wake (p : power_state_t) (w : wake_result_t) : power_state_t :=
  mk_power (pw_initialized p) (pw_current_mode p) w (pw_rtc_time_ms p) (pw_wake_config p)
    (pw_available_freqs p) (pw_num_available_freqs p) (pw_current_cpu_freq_mhz p) (pw_drivers p).
Definition with_wake_config (p : power_state_t) (c : wake_config_t) : power_state_t :=
  mk_power (pw_initialized p) (pw_current_mode p) (pw_last_wake p) (pw_rtc_time_ms p) c
    (pw_available_freqs p) (pw_num_available_freqs p) (pw_current_cpu_freq_mhz p) (pw_drivers p).
Definition with_cpu_freq (p : power_state_t) (f : Z) : power_state_t :=
  mk_power (pw_initialized p) (pw_current_mode p) (pw_last_wake p) (pw_rtc_time_ms p)
    (pw_wake_config p) (pw_available_freqs p) (pw_num_available_freqs p) f (pw_drivers p).
Definition with_freqs (p : power_state_t) (l : list Z) (n : Z) : power_state_t :=
  mk_power (pw_initialized p) (pw_current_mode p) (pw_last_wake p) (pw_rtc_time_ms p)
    (pw_wake_config p) l n (pw_current_cpu_freq_mhz p) (pw_drivers p).
Definition with_drivers (p : power_state_t) (d : list pm_driver_t) : power_state_t :=
  mk_power (pw_initialized p) (pw_current_mode p) (pw_last_wake p) (pw_rtc_time_ms p)
    (pw_wake_config p) (pw_available_freqs p) (pw_num_available_freqs p)
    (pw_current_cpu_freq_mhz p) d.

(** [max_freq]: ARDUBOT_CPU_MAX_FREQ_MHZ of the board, or 160. *)
Definition init_available_freqs (max_freq : Z) (p : power_state_t) : power_state_t :=
  with_cpu_freq
    (with_freqs p ([max_freq; max_freq / 2; max_freq / 4; max_freq / 8; max_freq / 16]
                   ++ drop 5 (pw_available_freqs p)) 5) max_freq.

Definition set_registered (b : bool) (d : pm_driver_t) : pm_driver_t :=
  mk_pm_driver (pd_handle d) (pd_suspend d) (pd_resume d) b.

(** [power_governor_reset] acts on the governor's state only. *)
Definition power_init (max_freq : Z) (p : power_state_t) : power_state_t :=
  if pw_initialized p then p else
  let p := init_available_freqs max_freq p in
  mk_power true POWER_MODE_ACTIVE (mk_wake false (-1) 0) 0 (mk_wake_config 0 (-1) 0)
    (pw_available_freqs p) (pw_num_available_freqs p) (pw_current_cpu_freq_mhz p)
    (set_registered false <$> pw_drivers p).

Definition power_deinit (p : power_state_t) : power_state_t :=
  mk_power false POWER_MODE_ACTIVE (pw_last_wake p) (pw_rtc_time_ms p) (pw_wake_config p)
    (pw_available_freqs p) (pw_num_available_freqs p) (pw_current_cpu_freq_mhz p) (pw_drivers p).

(** [while (time_now_ms () < end && mode == LIGHT_SLEEP) time_sleep_ms (1);]
    nothing in the loop changes the mode. *)
Fixpoint light_sleep_loop (fuel : nat) (end_ms : Z) (u : U) : option U :=
  match fuel with
  | O => None
  | S fuel =>
    if time_now_ms u <? end_ms then light_sleep_loop fuel end_ms (time_sleep_ms 1 u) else Some u
  end.

Definition power_light_sleep (timeout_ms : Z) (p : power_state_t) (u : U)
    : option (Z * power_state_t * U) :=
  if negb (pw_initialized p) then Some (-1, p, u) else
  if timeout_ms =? 0 then Some (-1, p, u) else
  let start := time_now_ms u in
  u ← light_sleep_loop (S (Z.to_nat timeout_ms)) (u32 (start + timeout_ms)) u;
  Some (0, with_mode p POWER_MODE_ACTIVE, u).

Definition run_suspend (u : U) (d : pm_driver_t) : U :=
  match pd_registered d, pd_suspend d with true, Some f => f u | _, _ => u end.
Definition run_resume (u : U) (d : pm_driver_t) : U :=
  match pd_registered d, pd_resume d with true, Some f => f u | _, _ => u end.

Definition power_deep_sleep_with_gpio_wake (gpio_num trigger timeout_ms : Z)
    (p : power_state_t) (u : U) : Z * power_state_t * U :=
  if negb (pw_initialized p) then (-1, p, u) else
  let p := with_wake_config p (mk_wake_config timeout_ms gpio_num trigger) in
  let u := foldl run_suspend u (pw_drivers p) in
  let start := time_now_ms u in
  if (timeout_ms =? 0) && (gpio_num =? -1) then (0, p, u) else
  let u := if 0 <? timeout_ms then time_sleep_ms timeout_ms u else u in
  let u := foldl run_resume u (pw_drivers p) in
  (0, with_wake p (mk_wake true gpio_num (u32 (time_now_ms u - start))), u).

Definition power_deep_sleep (timeout_ms : Z) (p : power_state_t) (u : U)
    : Z * power_state_t * U :=
  power_deep_sleep_with_gpio_wake (-1) 0 timeout_ms p u.

(** ** CPU frequencies *)

Definition power_set_cpu_freq (freq_mhz : Z) (p : power_state_t) : Z * power_state_t :=
  if existsb (Z.eqb freq_mhz) (take (Z.to_nat (pw_num_available_freqs p)) (pw_available_freqs p))
  then (0, with_cpu_freq p freq_mhz) else (-1, p).

(** The loop stores as it goes: on a zero entry the entries before it stay. *)
Fixpoint set_freqs_loop (i : nat) (freqs tbl : list Z) : Z * list Z :=
  match freqs with
  | [] => (0, tbl)
  | f :: freqs => if f =? 0 then (-1, tbl) else set_freqs_loop (S i) freqs (<[i := f]> tbl)
  end.

Definition power_set_available_freqs (freqs : option (list Z)) (count : Z) (p : power_state_t)
    : option (Z * power_state_t) :=
  match freqs with
  | None => Some (-1, p)
  | Some l =>
    if (count <? 1) || (8 <? count) then Some (-1, p) else
    l ← rd_bytes l 0 count;
    let '(rc, tbl) := set_freqs_loop 0 l (pw_available_freqs p) in
    Some (rc, with_freqs p tbl (if rc =? 0 then count else pw_num_available_freqs p))
  end.

Definition power_get_available_freqs (freqs : option (list Z)) (max_count : Z)
    (p : power_state_t) : option (Z * option (list Z)) :=
  match freqs with
  | None => Some (-1, None)
  | Some out =>
    if max_count =? 0 then Some (-1, freqs) else
    let count := if u32 (pw_num_available_freqs p) <? max_count
                 then u32 (pw_num_available_freqs p) else max_count in
    l ← rd_bytes (pw_available_freqs p) 0 count;
    out ← wr_bytes out 0 l;
    Some (count, Some out)
  end.

(** ** Wake sources and driver callbacks *)

Definition power_add_gpio_wake (gpio_num trigger : Z) (p : power_state_t) : Z * power_state_t :=
  (0, with_wake_config p (mk_wake_config (wc_timeout_ms (pw_wake_config p)) gpio_num trigger)).

Definition power_remove_gpio_wake (gpio_num : Z) (p : power_state_t) : Z * power_state_t :=
  (0, with_wake_config p (mk_wake_config (wc_timeout_ms (pw_wake_config p)) (-1)
                            (wc_gpio_trigger (pw_wake_config p)))).

Definition power_add_rtc_wake (timeout_ms : Z) (p : power_state_t) : Z * power_state_t :=
  (0, with_wake_config p (mk_wake_config timeout_ms (wc_gpio_num (pw_wake_config p))
                            (wc_gpio_trigger (pw_wake_config p)))).

Definition power_remove_rtc_wake (p : power_state_t) : Z * power_state_t :=
  power_add_rtc_wake 0 p.

Definition set_rtc_time (epoch_ms : Z) (p : power_state_t) : Z * power_state_t :=
  (0, mk_power (pw_initialized p) (pw_current_mode p) (pw_last_wake p) epoch_ms (pw_wake_config p)
        (pw_available_freqs p) (pw_num_available_freqs p) (pw_current_cpu_freq_mhz p) (pw_drivers p)).

(** The first slot that is not registered. *)
Fixpoint register_loop (ds : list pm_driver_t) (handle : Z) (suspend resume : option (U → U))
    : option (list pm_driver_t) :=
  match ds with
  | [] => None
  | d :: ds =>
    if pd_registered d then (d ::.) <$> register_loop ds handle suspend resume
    else Some (mk_pm_driver handle suspend resume true :: ds)
  end.

Definition power_register_driver (handle : Z) (suspend resume : option (U → U))
    (p : power_state_t) : Z * power_state_t :=
  match register_loop (pw_drivers p) handle suspend resume with
  | Some ds => (0, with_drivers p ds)
  | None => (-1, p)
  end.

Fixpoint unregister_loop (ds : list pm_driver_t) (handle : Z) : option (list pm_driver_t) :=
  match ds with
  | [] => None
  | d :: ds =>
    if pd_registered d && (pd_handle d =? handle) then Some (set_registered false d :: ds)
    else (d ::.) <$> unregister_loop ds handle
  end.

Definition power_unregister_driver (handle : Z) (p : power_state_t) : Z * power_state_t :=
  match unregister_loop (pw_drivers p) handle with
  | Some ds => (0, with_drivers p ds)
  | None => (-1, p)
  end.

Definition get_wake_result (p : power_state_t) : wake_result_t := pw_last_wake p.
Definition power_get_cpu_freq (p : power_state_t) : Z := pw_current_cpu_freq_mhz p.
Definition get_rtc_time_ms (p : power_state_t) : Z := pw_rtc_time_ms p.
Definition power_set_battery_monitor_interval (interval_ms : Z) : Z := 0.

Definition get_power_mode (p : power_state_t) : power_mode_t := pw_current_mode p.
Definition is_in_sleep_mode (p : power_state_t) : bool :=
  negb (bool_decide (pw_current_mode p = POWER_MODE_ACTIVE)).

(** ** Facts *)

(** The table the governor ranks: between one and eight frequencies, none zero. *)
Definition freqs_ok (p : power_state_t) : Prop :=
  length (pw_available_freqs p) = 8%nat ∧ 1 <= pw_num_available_freqs p <= 8 ∧
  Forall (λ f, is_u32 f) (pw_available_freqs p) ∧
  Forall (λ f, f ≠ 0) (take (Z.to_nat (pw_num_available_freqs p)) (pw_available_freqs p)).

Definition freqs_of (p : power_state_t) : list Z :=
  take (Z.to_nat (pw_num_available_freqs p)) (pw_available_freqs p).

Lemma power_get_available_freqs_ok p out :
  freqs_ok p → blen out = 8 →
  power_get_available_freqs (Some out) 8 p =
    Some (pw_num_available_freqs p, Some (freqs_of p ++ drop (length (freqs_of p)) out)).
Proof.
  intros (Hl & Hn & _) Ho. unfold power_get_available_freqs. cbn [Z.eqb].
  rewrite (wrap_id 32) by (unfold in_w; lia).
  assert ((if pw_num_available_freqs p <? 8 then pw_num_available_freqs p else 8) =
    pw_num_available_freqs p) as -> by (destruct (_ <? 8) eqn:E; bool_hyps; lia).
  rewrite rd_bytes_ok by (unfold blen; lia). cbn [mbind option_bind].
  change (Z.to_nat 0) with 0%nat. rewrite drop_0. fold (freqs_of p).
  rewrite wr_bytes_prefix; [done|]. rewrite Ho. unfold freqs_of, blen. rewrite length_take. lia.
Qed.

Lemma init_freqs_ok m p :
  length (pw_available_freqs p) = 8%nat → Forall (λ f, is_u32 f) (pw_available_freqs p) →
  16 <= m < 2 ^ 32 → freqs_ok (init_available_freqs m p).
Proof.
  intros Hl Hf Hm.
  assert (∀ k, k ∈ [1; 2; 4; 8; 16] → 0 < m / k < 2 ^ 32) as Hk.
  { intros k Hk. assert (1 <= k <= 16) as [? ?].
    { repeat (apply elem_of_cons in Hk as [->|Hk]; [lia|]). by apply not_elem_of_nil in Hk. }
    split; [apply Z.div_str_pos; lia|apply Z.div_lt_upper_bound; nia]. }
  pose proof (Hk 1 ltac:(set_solver)) as K1. rewrite Z.div_1_r in K1.
  pose proof (Hk 2 ltac:(set_solver)). pose proof (Hk 4 ltac:(set_solver)).
  pose proof (Hk 8 ltac:(set_solver)). pose proof (Hk 16 ltac:(set_solver)). clear Hk.
  unfold freqs_ok, init_available_freqs, with_cpu_freq, with_freqs.
  cbn [pw_available_freqs pw_num_available_freqs].
  split_and!; [rewrite length_app, length_drop, Hl; done|lia|lia| |].
  - apply Forall_app. split; [|by apply Forall_drop].
    repeat (constructor; [unfold in_w; lia|]). constructor.
  - cbn. repeat (constructor; [lia|]). constructor.
Qed.
End Power.

Arguments pm_driver_t : clear implicits.
Arguments power_state_t : clear implicits.
