(* ===== verification/PowerGovernor.v ===== *)
(** * The power governor (kernel/power_governor.c)

    Counts busy and idle scheduler steps, and once per 100 ms window picks a level
    from the demand of the tasks that ran, the load and the temperature.  The
    actuators are function pointers that may be NULL and act on an environment. *)

From Stdlib Require Import ZArith Lia Sorted.
From stdpp Require Import base tactics option list numbers sorting.
From S2P Require Import Prelude.
From S2P Require Import Power.

Definition POWER_WINDOW_MS : Z := 100.
Definition POWER_QUIET_WINDOWS : Z := 3.
Definition POWER_SUSTAINED_WINDOWS : Z := 3.
Definition POWER_FULL_PERCENT : Z := 80.
Definition POWER_TEMP_HOT_C : Z := 70.
Definition POWER_TEMP_RECOVER_C : Z := 60.
Definition POWER_LIGHT_SLEEP_MIN_MS : Z := 50.

(** [power_demand_t] *)
Definition POWER_DEMAND_UNSET : Z := 0.
Definition POWER_DEMAND_IDLE : Z := 1.
Definition POWER_DEMAND_LOW : Z := 2.
Definition POWER_DEMAND_NORMAL : Z := 3.
Definition POWER_DEMAND_HIGH : Z := 4.

(** [power_level_t] *)
Definition POWER_LEVEL_COOL : Z := 0.
Definition POWER_LEVEL_ECONOMY : Z := 1.
Definition POWER_LEVEL_BALANCED : Z := 2.
Definition POWER_LEVEL_PERFORMANCE : Z := 3.

Record governor_t := mk_gov {
  g_level : Z;
  g_foreground : Z;
  g_busy : Z;
  g_idle : Z;
  g_busy_total : Z;
  g_idle_total : Z;
  g_window_demand : Z;
  g_saw_busy_demand : bool;
  g_quiet_streak : Z;
  g_full_streak : Z;
  g_sustained_hold : bool;
  g_held_level : Z;
  g_thermal : bool;
  g_have_window : bool;
  g_window_started_ms : Z;
  g_light_sleep_ms : Z
}.

Definition ceiling_for (demand : Z) : Z :=
  if POWER_DEMAND_HIGH <=? demand then POWER_LEVEL_PERFORMANCE
  else if POWER_DEMAND_NORMAL <=? demand then POWER_LEVEL_PERFORMANCE
  else POWER_LEVEL_ECONOMY.

(** The inner loop for one [i]: [x] is [freqs[i]], the list is what follows; a
    larger entry changes places with it. *)
Fixpoint sort_inner (x : Z) (l : list Z) : Z * list Z :=
  match l with
  | [] => (x, [])
  | y :: l =>
    let '(m, r) := sort_inner (if x <? y then y else x) l in
    (m, (if x <? y then x else y) :: r)
  end.

Fixpoint sort_outer (n : nat) (l : list Z) : list Z :=
  match n, l with
  | S n, x :: l => let '(m, r) := sort_inner x l in m :: sort_outer n r
  | _, _ => l
  end.

Section FreqForLevel.
Context {U : Type} `{Clock U}.

Definition freq_for_level (level : Z) (p : power_state_t U) : option Z :=
  '(n, freqs) ← power_get_available_freqs (Some (zeros 8)) 8 p;
  freqs ← freqs;
  if n <=? 0 then Some 0 else
  let freqs := sort_outer (Z.to_nat n) (take (Z.to_nat n) freqs) ++ drop (Z.to_nat n) freqs in
  let idx := if level =? POWER_LEVEL_PERFORMANCE then 0
             else if level =? POWER_LEVEL_BALANCED then n / 2
             else if level =? POWER_LEVEL_ECONOMY then (if 2 <=? n then n - 2 else n - 1)
             else n - 1 in
  rd freqs idx.
End FreqForLevel.

Definition brightness_for_level (level : Z) : Z :=
  if level =? POWER_LEVEL_PERFORMANCE then 255
  else if level =? POWER_LEVEL_BALANCED then 180
  else if level =? POWER_LEVEL_ECONOMY then 64
  else 16.

Definition effective_demand (g : governor_t) : Z :=
  let hint := g_foreground g in
  let hint := if g_saw_busy_demand g && (hint <? g_window_demand g)
              then g_window_demand g else hint in
  if hint =? POWER_DEMAND_UNSET then POWER_DEMAND_NORMAL else hint.

Definition with_level (g : governor_t) (level quiet_streak full_streak : Z) (hold : bool)
    (held : Z) : governor_t :=
  mk_gov level (g_foreground g) (g_busy g) (g_idle g) (g_busy_total g) (g_idle_total g)
    (g_window_demand g) (g_saw_busy_demand g) quiet_streak full_streak hold held (g_thermal g)
    (g_have_window g) (g_window_started_ms g) (g_light_sleep_ms g).

Definition choose_level (g : governor_t) (hint : Z) (quiet full : bool) : governor_t :=
  let ceiling := ceiling_for hint in
  let qs := g_quiet_streak g in
  let fs := g_full_streak g in
  let held := g_held_level g in
  if g_thermal g then with_level g POWER_LEVEL_COOL qs fs false held else
  let level := if ceiling <? g_level g then ceiling else g_level g in
  if g_sustained_hold g && negb quiet then
    let held := if ceiling <? held then ceiling else held in
    with_level g held qs fs true held
  else
  let clamp level := if ceiling <? level then ceiling else level in
  if quiet then
    let qs := u32 (qs + 1) in
    if (POWER_QUIET_WINDOWS <=? qs) && (POWER_LEVEL_ECONOMY <? level)
    then with_level g (clamp (level - 1)) 0 0 false held
    else with_level g (clamp level) qs 0 false held
  else if full && (hint <? POWER_DEMAND_HIGH) then
    let fs := u32 (fs + 1) in
    if POWER_SUSTAINED_WINDOWS <=? fs then
      let held := if POWER_LEVEL_ECONOMY <? ceiling then ceiling - 1 else ceiling in
      with_level g held 0 0 true held
    else with_level g (clamp (if level <? ceiling then level + 1 else level)) 0 fs false held
  else with_level g (clamp (if level <? ceiling then level + 1 else level)) 0 0 false held.

Definition set_thermal (g : governor_t) (b : bool) : governor_t :=
  mk_gov (g_level g) (g_foreground g) (g_busy g) (g_idle g) (g_busy_total g) (g_idle_total g)
    (g_window_demand g) (g_saw_busy_demand g) (g_quiet_streak g) (g_full_streak g)
    (g_sustained_hold g) (g_held_level g) b (g_have_window g) (g_window_started_ms g)
    (g_light_sleep_ms g).

Section Governor.
Context {U : Type} `{Clock U}.

Record actuators_t := mk_actuators {
  ac_set_freq : option (Z → U → Z * U);
  ac_set_brightness : option (Z → U → Z * U);
  ac_read_temp : option (U → Z * Z * U)   (* return code and reading *)
}.

Variable acts : actuators_t.

Definition apply_level (g : governor_t) (p : power_state_t U) (u : U)
    : option (power_state_t U * U) :=
  mhz ← freq_for_level (g_level g) p;
  let '(p, u) :=
    if c_true mhz then
      match ac_set_freq acts with
      | Some f => (p, (f mhz u).2)
      | None => ((power_set_cpu_freq mhz p).2, u)
      end
    else (p, u) in
  let u := match ac_set_brightness acts with
           | Some f => (f (brightness_for_level (g_level g)) u).2 | None => u end in
  Some (p, u).

(** [None]: no sensor, or the reading failed. *)
Definition sample_temp (u : U) : option Z * U :=
  match ac_read_temp acts with
  | None => (None, u)
  | Some f => let '(rc, t, u) := f u in (if rc =? 0 then Some t else None, u)
  end.

Definition thermal_rule (g : governor_t) (u : U) : governor_t * U :=
  let '(g, u) :=
    if g_thermal g then
      let '(t, u) := sample_temp u in
      match t with
      | Some t => (if t <=? POWER_TEMP_RECOVER_C then set_thermal g false else g, u)
      | None => (g, u)
      end
    else (g, u) in
  if g_thermal g then (g, u) else
  let '(t, u) := sample_temp u in
  match t with
  | Some t => (if POWER_TEMP_HOT_C <=? t then set_thermal g true else g, u)
  | None => (g, u)
  end.

Definition close_window (g : governor_t) (next_wake_ms : Z) (any_runnable : bool)
    (p : power_state_t U) (u : U) : option (governor_t * power_state_t U * U) :=
  let total := u32 (g_busy g + g_idle g) in
  let quiet := g_busy g =? 0 in
  let pct := if c_true total then u32 (g_busy g * 100) / total else 0 in
  let full := negb quiet && (POWER_FULL_PERCENT <=? pct) in
  let hint := effective_demand g in
  let '(g, u) := thermal_rule g u in
  let g := choose_level g hint quiet full in
  '(p, u) ← apply_level g p u;
  let light :=
    if negb any_runnable &&
       ((g_level g =? POWER_LEVEL_ECONOMY) || (g_level g =? POWER_LEVEL_COOL)) &&
       (POWER_LIGHT_SLEEP_MIN_MS <=? next_wake_ms) && negb (next_wake_ms =? UINT32_MAX)
    then next_wake_ms else 0 in
  Some (mk_gov (g_level g) (g_foreground g) 0 0 (g_busy_total g) (g_idle_total g)
          POWER_DEMAND_UNSET false (g_quiet_streak g) (g_full_streak g) (g_sustained_hold g)
          (g_held_level g) (g_thermal g) (g_have_window g) (g_window_started_ms g) light, p, u).

Definition power_governor_reset : governor_t :=
  mk_gov POWER_LEVEL_BALANCED POWER_DEMAND_NORMAL 0 0 0 0 0 false 0 0 false 0 false false 0 0.

Definition power_governor_set_foreground_demand (demand : Z) (g : governor_t) : governor_t :=
  let demand := if (demand =? POWER_DEMAND_UNSET) || (POWER_DEMAND_HIGH <? demand)
                then POWER_DEMAND_NORMAL else demand in
  mk_gov (g_level g) demand (g_busy g) (g_idle g) (g_busy_total g) (g_idle_total g)
    (g_window_demand g) (g_saw_busy_demand g) (g_quiet_streak g) (g_full_streak g)
    (g_sustained_hold g) (g_held_level g) (g_thermal g) (g_have_window g)
    (g_window_started_ms g) (g_light_sleep_ms g).

Definition power_governor_note_idle (g : governor_t) : governor_t :=
  mk_gov (g_level g) (g_foreground g) (g_busy g) (u32 (g_idle g + 1)) (g_busy_total g)
    (u32 (g_idle_total g + 1)) (g_window_demand g) (g_saw_busy_demand g) (g_quiet_streak g)
    (g_full_streak g) (g_sustained_hold g) (g_held_level g) (g_thermal g) (g_have_window g)
    (g_window_started_ms g) (g_light_sleep_ms g).

(** The task is given by its [power_demand] byte; [None] is a null task. *)
Definition power_governor_note_busy (task : option Z) (g : governor_t) : governor_t :=
  let '(wd, saw) :=
    match task with
    | None => (g_window_demand g, g_saw_busy_demand g)
    | Some d =>
      if d =? POWER_DEMAND_UNSET then (g_window_demand g, g_saw_busy_demand g)
      else if negb (g_saw_busy_demand g) || (g_window_demand g <? d) then (d, true)
      else (g_window_demand g, g_saw_busy_demand g)
    end in
  mk_gov (g_level g) (g_foreground g) (u32 (g_busy g + 1)) (g_idle g) (u32 (g_busy_total g + 1))
    (g_idle_total g) wd saw (g_quiet_streak g) (g_full_streak g) (g_sustained_hold g)
    (g_held_level g) (g_thermal g) (g_have_window g) (g_window_started_ms g) (g_light_sleep_ms g).

Definition set_window (g : governor_t) (now_ms : Z) : governor_t :=
  mk_gov (g_level g) (g_foreground g) (g_busy g) (g_idle g) (g_busy_total g) (g_idle_total g)
    (g_window_demand g) (g_saw_busy_demand g) (g_quiet_streak g) (g_full_streak g)
    (g_sustained_hold g) (g_held_level g) (g_thermal g) true now_ms (g_light_sleep_ms g).

Definition power_governor_tick (now_ms next_wake_ms : Z) (any_runnable : bool)
    (g : governor_t) (p : power_state_t U) (u : U) : option (governor_t * power_state_t U * U) :=
  if negb (g_have_window g) then
    close_window (set_window g now_ms) next_wake_ms any_runnable p u
  else if u32 (now_ms - g_window_started_ms g) <? POWER_WINDOW_MS then Some (g, p, u)
  else close_window (set_window g now_ms) next_wake_ms any_runnable p u.
End Governor.

Definition power_governor_get_foreground_demand (g : governor_t) : Z := g_foreground g.
Definition power_governor_idle_steps (g : governor_t) : Z := g_idle_total g.
Definition power_governor_busy_steps (g : governor_t) : Z := g_busy_total g.
Definition power_governor_get_level (g : governor_t) : Z := g_level g.
Definition power_governor_light_sleep_ms (g : governor_t) : Z := g_light_sleep_ms g.

(** [power_set_demand] writes the task's byte. *)
Definition power_set_demand_ok (demand : Z) : bool :=
  negb ((demand =? POWER_DEMAND_UNSET) || (POWER_DEMAND_HIGH <? demand)).

(** The demand of a task, given its byte; NULL has none. *)
Definition power_get_demand (task_demand : option Z) : Z :=
  match task_demand with
  | None => POWER_DEMAND_NORMAL
  | Some d => if d =? POWER_DEMAND_UNSET then POWER_DEMAND_NORMAL else d
  end.

Arguments actuators_t : clear implicits.

(** ** The frequency ranking *)

Lemma sort_inner_spec x l m r :
  sort_inner x l = (m, r) → m :: r ≡ₚ x :: l ∧ Forall (λ y, y <= m) r ∧ x <= m.
Proof.
  revert x m r. induction l as [|y l IH]; intros x m r; cbn [sort_inner].
  - intros [= <- <-]. split_and!; [done|constructor|lia].
  - destruct (sort_inner _ l) as [m' r'] eqn:E. intros [= <- <-].
    apply IH in E as (Hp & Hr & Hx). destruct (x <? y) eqn:Exy; bool_hyps.
    + split_and!; [|constructor; [lia|done]|lia].
      rewrite (Permutation_swap _ m' r'), Hp. done.
    + split_and!; [|constructor; [lia|done]|lia].
      rewrite (Permutation_swap _ m' r'), Hp. apply Permutation_swap.
Qed.

(** The double loop sorts in descending order. *)
Lemma sort_outer_spec n l :
  (length l <= n)%nat → sort_outer n l ≡ₚ l ∧ StronglySorted Z.ge (sort_outer n l).
Proof.
  revert l. induction n as [|n IH]; intros [|x l] Hl; cbn [sort_outer length] in *.
  - split; [done|constructor].
  - lia.
  - split; [done|constructor].
  - destruct (sort_inner x l) as [m r] eqn:E. apply sort_inner_spec in E as (Hp & Hr & _).
    pose proof (Permutation_length Hp) as Hlen. cbn [length] in Hlen.
    destruct (IH r ltac:(lia)) as [Hp' Hs]. split; [by rewrite Hp'|].
    constructor; [done|]. rewrite Hp'. eapply Forall_impl; [exact Hr|].
    intros ? ?. apply Z.le_ge. done.
Qed.

Lemma sorted_ge_nth l i j x y :
  StronglySorted Z.ge l → l !! i = Some x → l !! j = Some y → (i <= j)%nat → y <= x.
Proof.
  intros Hs. revert i j. induction Hs as [|z l Hs IH Hz]; intros i j; [done|].
  destruct i as [|i], j as [|j]; cbn; intros Hi Hj Hij.
  - simplify_eq. lia.
  - simplify_eq. rewrite Forall_lookup in Hz. specialize (Hz _ _ Hj). lia.
  - lia.
  - eapply IH; [done|done|lia].
Qed.

(** The index of a level in the sorted table. *)
Definition level_rank (level n : Z) : Z :=
  if level =? POWER_LEVEL_PERFORMANCE then 0
  else if level =? POWER_LEVEL_BALANCED then n / 2
  else if level =? POWER_LEVEL_ECONOMY then (if 2 <=? n then n - 2 else n - 1)
  else n - 1.

Lemma level_rank_range level n : 1 <= n → 0 <= level_rank level n < n.
Proof.
  intros Hn. unfold level_rank. repeat case_match; bool_hyps; try lia.
  pose proof (Z.div_mod n 2). pose proof (Z.mod_pos_bound n 2). lia.
Qed.

Section GovernorProofs.
Context {U : Type} `{Clock U}.

Lemma freq_for_level_eq (p : power_state_t U) :
  freqs_ok p → ∃ s, s ≡ₚ freqs_of p ∧ StronglySorted Z.ge s ∧
    ∀ l, freq_for_level l p = s !! Z.to_nat (level_rank l (pw_num_available_freqs p)) ∧
         is_Some (freq_for_level l p).
Proof.
  intros Hp. pose proof Hp as (Hl & Hn & _).
  assert (length (freqs_of p) = Z.to_nat (pw_num_available_freqs p)) as Hlen.
  { unfold freqs_of. rewrite length_take. lia. }
  destruct (sort_outer_spec (Z.to_nat (pw_num_available_freqs p)) (freqs_of p)) as [Hperm Hs];
    [lia|].
  eexists. split; [exact Hperm|]. split; [exact Hs|]. intros l.
  pose proof (level_rank_range l (pw_num_available_freqs p) ltac:(lia)) as Hr.
  assert (freq_for_level l p =
    sort_outer (Z.to_nat (pw_num_available_freqs p)) (freqs_of p)
      !! Z.to_nat (level_rank l (pw_num_available_freqs p))) as E.
  { unfold freq_for_level. rewrite power_get_available_freqs_ok by done.
    cbn [mbind option_bind]. rewrite (proj2 (Z.leb_gt _ _)) by lia.
    fold (level_rank l (pw_num_available_freqs p)).
    rewrite take_app_length' by lia. unfold rd. zbool. apply lookup_app_l.
    rewrite Hperm. lia. }
  split; [exact E|]. rewrite E. apply lookup_lt_is_Some. rewrite Hperm. lia.
Qed.

(**  The frequency a level selects, whatever the order of the board's table:
    PERFORMANCE takes the largest and COOL the smallest, every choice is a
    non-zero entry of the table, and except for a table of two entries a higher
    level never selects a lower frequency. *)
Theorem freq_for_level_ranked (p : power_state_t U) :
  freqs_ok p →
  (∀ l, ∃ f, freq_for_level l p = Some f ∧ f ∈ freqs_of p ∧ f ≠ 0) ∧
  (∀ f, f ∈ freqs_of p →
    ∃ hi lo, freq_for_level POWER_LEVEL_PERFORMANCE p = Some hi ∧
             freq_for_level POWER_LEVEL_COOL p = Some lo ∧ lo <= f <= hi) ∧
  (pw_num_available_freqs p ≠ 2 →
   ∀ l1 l2 f1 f2, 0 <= l1 <= l2 → l2 <= 3 →
     freq_for_level l1 p = Some f1 → freq_for_level l2 p = Some f2 → f1 <= f2).
Proof.
  intros Hp. destruct (freq_for_level_eq p Hp) as (s & Hperm & Hs & Hf).
  pose proof Hp as (Hl & Hn & _ & Hnz). fold (freqs_of p) in Hnz.
  assert (length s = Z.to_nat (pw_num_available_freqs p)) as Hlen.
  { rewrite Hperm. unfold freqs_of. rewrite length_take. lia. }
  split_and!.
  - intros l. destruct (Hf l) as [El [f Ef]]. exists f. split; [done|].
    assert (f ∈ freqs_of p) as Hin.
    { rewrite <- Hperm. apply list_elem_of_lookup. eexists. by rewrite <- El. }
    split; [done|]. rewrite Forall_forall in Hnz. by apply Hnz.
  - intros f Hin. rewrite <- Hperm in Hin. apply list_elem_of_lookup in Hin as [i Hi].
    destruct (Hf POWER_LEVEL_PERFORMANCE) as [E1 [hi F1]].
    destruct (Hf POWER_LEVEL_COOL) as [E2 [lo F2]].
    exists hi, lo. split_and!; [done|done| |].
    + eapply (sorted_ge_nth s i); [done|done|by rewrite <- E2|].
      apply lookup_lt_Some in Hi. change (level_rank POWER_LEVEL_COOL _) with
        (pw_num_available_freqs p - 1). lia.
    + eapply (sorted_ge_nth s _ i); [done|by rewrite <- E1|done|].
      change (Z.to_nat (level_rank POWER_LEVEL_PERFORMANCE _)) with 0%nat. lia.
  - intros H2 l1 l2 f1 f2 H12 H3 F1 F2. destruct (Hf l1) as [E1 _], (Hf l2) as [E2 _].
    eapply (sorted_ge_nth s); [done|by rewrite <- E2|by rewrite <- E1|].
    pose proof (level_rank_range l1 (pw_num_available_freqs p) ltac:(lia)).
    pose proof (level_rank_range l2 (pw_num_available_freqs p) ltac:(lia)).
    apply Z2Nat.inj_le; [lia|lia|].
    set (n := pw_num_available_freqs p) in *.
    pose proof (Z.div_mod n 2). pose proof (Z.mod_pos_bound n 2).
    unfold level_rank, POWER_LEVEL_PERFORMANCE, POWER_LEVEL_BALANCED, POWER_LEVEL_ECONOMY.
    repeat case_match; bool_hyps; lia.
Qed.

(** ** Runs of the governor *)

Variable acts : actuators_t U.

(** The calls the scheduler and the applications make. *)
Inductive gov_event :=
  | GNoteIdle
  | GNoteBusy (task : option Z)
  | GForeground (demand : Z)
  | GTick (now_ms next_wake_ms : Z) (any_runnable : bool).

Definition gov_step (e : gov_event) (s : governor_t * power_state_t U * U)
    : option (governor_t * power_state_t U * U) :=
  let '(g, p, u) := s in
  match e with
  | GNoteIdle => Some (power_governor_note_idle g, p, u)
  | GNoteBusy t => Some (power_governor_note_busy t g, p, u)
  | GForeground d => Some (power_governor_set_foreground_demand d g, p, u)
  | GTick now wake run => power_governor_tick acts now wake run g p u
  end.

Fixpoint gov_run (es : list gov_event) (s : governor_t * power_state_t U * U)
    : option (governor_t * power_state_t U * U) :=
  match es with [] => Some s | e :: es => s ← gov_step e s; gov_run es s end.

Definition gov_ok (g : governor_t) : Prop :=
  0 <= g_level g <= POWER_LEVEL_PERFORMANCE ∧ 0 <= g_held_level g <= POWER_LEVEL_PERFORMANCE ∧
  POWER_DEMAND_IDLE <= g_foreground g <= POWER_DEMAND_HIGH ∧
  (g_thermal g = true → g_level g = POWER_LEVEL_COOL ∧ g_sustained_hold g = false) ∧
  (g_sustained_hold g = true →
     1 <= g_level g ∧ g_level g = g_held_level g ∧ g_quiet_streak g = 0) ∧
  (POWER_LEVEL_ECONOMY < g_level g → 0 <= g_quiet_streak g < POWER_QUIET_WINDOWS) ∧
  (g_light_sleep_ms g ≠ 0 → g_level g <= POWER_LEVEL_ECONOMY ∧
     POWER_LIGHT_SLEEP_MIN_MS <= g_light_sleep_ms g).

(** The throttle is set by a reading of at least 70 degrees, and released only by a
    reading of at most 60. *)
Lemma thermal_rule_eq g u :
  ∃ b u', thermal_rule acts g u = (set_thermal g b, u') ∧
    (g_thermal g = false → b = true →
       ∃ t, (sample_temp acts u).1 = Some t ∧ POWER_TEMP_HOT_C <= t) ∧
    (g_thermal g = true → b = false →
       ∃ t, (sample_temp acts u).1 = Some t ∧ t <= POWER_TEMP_RECOVER_C) ∧
    (g_thermal g = false → ac_read_temp acts = None → b = false).
Proof.
  assert (∀ g b, g_thermal g = b → g = set_thermal g b) as Hid by (by intros [] ? <-).
  unfold thermal_rule. destruct (g_thermal g) eqn:Eg.
  - destruct (sample_temp acts u) as [[t|] u1] eqn:E1.
    2:{ rewrite Eg. eexists true, _. split_and!; try done. by rewrite <- Hid. }
    destruct (t <=? POWER_TEMP_RECOVER_C) eqn:Et; bool_hyps.
    2:{ rewrite Eg. eexists true, _. split_and!; try done. by rewrite <- Hid. }
    cbn [g_thermal set_thermal]. destruct (sample_temp acts u1) as [[t2|] u2].
    2:{ eexists false, _. split_and!; try done. intros _ _. by exists t. }
    destruct (_ <=? t2); eexists _, _; split_and!; try done. intros _ _. by exists t.
  - rewrite Eg. destruct (sample_temp acts u) as [[t|] u1] eqn:E1.
    2:{ eexists false, _. split_and!; try done. by rewrite <- Hid. }
    destruct (_ <=? t) eqn:Et; bool_hyps.
    + eexists true, _. split_and!; try done; [by exists t|].
      intros _ Ea. unfold sample_temp in E1. rewrite Ea in E1. done.
    + eexists false, _. split_and!; try done. by rewrite <- Hid.
Qed.

Lemma choose_level_ok g hint quiet full g' :
  0 <= g_level g <= POWER_LEVEL_PERFORMANCE → 0 <= g_held_level g <= POWER_LEVEL_PERFORMANCE →
  (g_sustained_hold g = true →
     1 <= g_level g ∧ g_level g = g_held_level g ∧ g_quiet_streak g = 0) →
  (POWER_LEVEL_ECONOMY < g_level g → 0 <= g_quiet_streak g < POWER_QUIET_WINDOWS) →
  choose_level g hint quiet full = g' →
  0 <= g_level g' <= POWER_LEVEL_PERFORMANCE ∧ 0 <= g_held_level g' <= POWER_LEVEL_PERFORMANCE ∧
  g_foreground g' = g_foreground g ∧ g_thermal g' = g_thermal g ∧
  (g_thermal g = true → g_level g' = POWER_LEVEL_COOL ∧ g_sustained_hold g' = false) ∧
  (g_sustained_hold g' = true →
     1 <= g_level g' ∧ g_level g' = g_held_level g' ∧ g_quiet_streak g' = 0) ∧
  (POWER_LEVEL_ECONOMY < g_level g' → 0 <= g_quiet_streak g' < POWER_QUIET_WINDOWS) ∧
  (g_thermal g = false → g_level g' <= ceiling_for hint).
Proof.
  intros Hl Hh Hs Hq <-.
  assert (1 <= ceiling_for hint <= 3) as Hc by (unfold ceiling_for; repeat case_match; by vm_compute).
  assert (POWER_LEVEL_ECONOMY < g_level g → u32 (g_quiet_streak g + 1) = g_quiet_streak g + 1).
  { intros ?%Hq. apply wrap_id. unfold in_w, POWER_QUIET_WINDOWS in *. lia. }
  unfold choose_level, POWER_LEVEL_PERFORMANCE, POWER_LEVEL_COOL, POWER_LEVEL_ECONOMY,
    POWER_QUIET_WINDOWS in *.
  generalize dependent (ceiling_for hint). intros c Hc.
  destruct (g_thermal g) eqn:Et; [cbn; split_and!; try done; lia|].
  destruct (g_sustained_hold g) eqn:Eh; [destruct (Hs eq_refl) as (Hs1 & Hs2 & Hs3)|]; clear Hs;
  repeat case_match; bool_hyps; cbn in *; split_and!; try done; lia.
Qed.

Lemma apply_level_total g p u :
  freqs_ok p → ∃ p' u', apply_level acts g p u = Some (p', u') ∧ freqs_ok p'.
Proof.
  intros Hp. destruct (freq_for_level_eq p Hp) as (s & _ & _ & Hf).
  destruct (Hf (g_level g)) as [_ [f Ef]].
  unfold apply_level. rewrite Ef. cbn [mbind option_bind].
  assert (freqs_ok (power_set_cpu_freq f p).2).
  { unfold power_set_cpu_freq. by case_match. }
  destruct (c_true f), (ac_set_freq acts); eauto.
Qed.

(** The recommendation published when a window closes. *)
Definition light_sleep_rule (level next_wake_ms : Z) (any_runnable : bool) : Z :=
  if negb any_runnable && (level <=? POWER_LEVEL_ECONOMY) &&
     (POWER_LIGHT_SLEEP_MIN_MS <=? next_wake_ms) && (next_wake_ms <? UINT32_MAX)
  then next_wake_ms else 0.

Lemma close_window_ok g wake run p u :
  gov_ok g → freqs_ok p → is_u32 wake →
  ∃ g' p' u', close_window acts g wake run p u = Some (g', p', u') ∧ gov_ok g' ∧ freqs_ok p' ∧
    (∃ b u1, thermal_rule acts g u = (set_thermal g b, u1) ∧
     g_level g' = g_level (choose_level (set_thermal g b) (effective_demand g) (g_busy g =? 0)
       (negb (g_busy g =? 0) &&
        (POWER_FULL_PERCENT <=?
         (if c_true (u32 (g_busy g + g_idle g))
          then u32 (g_busy g * 100) / u32 (g_busy g + g_idle g) else 0)))) ∧
     g_quiet_streak g' = g_quiet_streak (choose_level (set_thermal g b) (effective_demand g)
       (g_busy g =? 0)
       (negb (g_busy g =? 0) &&
        (POWER_FULL_PERCENT <=?
         (if c_true (u32 (g_busy g + g_idle g))
          then u32 (g_busy g * 100) / u32 (g_busy g + g_idle g) else 0)))) ∧
     g_thermal g' = b) ∧
    (g_thermal g' = false → g_level g' <= ceiling_for (effective_demand g)) ∧
    (g_thermal g = false → g_thermal g' = true →
       ∃ t, (sample_temp acts u).1 = Some t ∧ POWER_TEMP_HOT_C <= t) ∧
    (g_thermal g = true → g_thermal g' = false →
       ∃ t, (sample_temp acts u).1 = Some t ∧ t <= POWER_TEMP_RECOVER_C) ∧
    g_light_sleep_ms g' = light_sleep_rule (g_level g') wake run ∧
    g_busy g' = 0 ∧ g_idle g' = 0 ∧ g_foreground g' = g_foreground g ∧
    g_have_window g' = g_have_window g ∧ g_window_started_ms g' = g_window_started_ms g.
Proof.
  intros (Hl & Hh & Hf & Ht & Hs & Hq & _) Hp Hw. unfold close_window.
  destruct (thermal_rule_eq g u) as (b & u1 & Etr & Hhot & Hcold & _). rewrite Etr.
  match goal with |- context [choose_level ?a ?h ?q ?f] => remember (choose_level a h q f) as c eqn:Ec end.
  symmetry in Ec. pose proof Ec as Hc. apply choose_level_ok in Hc; [|done..].
  destruct Hc as (Cl & Ch & Cf & Ct & Cth & Ck & Cq & Cc).
  assert (g_have_window c = g_have_window g ∧ g_window_started_ms c = g_window_started_ms g)
    as [Cw Cs].
  { rewrite <- Ec. unfold choose_level. repeat case_match; done. }
  destruct (apply_level_total c p u1 Hp) as (p2 & u2 & Ea & Hp2). rewrite Ea.
  cbn [mbind option_bind]. eexists _, _, _. split; [reflexivity|].
  cbn [set_thermal g_thermal g_foreground] in Ct, Cth, Cc, Cf.
  assert ((if negb run && ((g_level c =? POWER_LEVEL_ECONOMY) || (g_level c =? POWER_LEVEL_COOL)) &&
     (POWER_LIGHT_SLEEP_MIN_MS <=? wake) && negb (wake =? UINT32_MAX) then wake else 0) =
     light_sleep_rule (g_level c) wake run) as ->.
  { unfold light_sleep_rule, POWER_LEVEL_ECONOMY, POWER_LEVEL_COOL, UINT32_MAX in *.
    unfold in_w in Hw.
    assert ((g_level c =? 1) || (g_level c =? 0) = (g_level c <=? 1)) as ->
      by (apply eq_bool_prop_intro; rewrite !Is_true_true, orb_true_iff, !Z.eqb_eq, Z.leb_le; lia).
    assert (negb (wake =? 4294967295) = (wake <? 4294967295)) as ->
      by (apply eq_bool_prop_intro; rewrite !Is_true_true, negb_true_iff, Z.eqb_neq, Z.ltb_lt; lia).
    done. }
  unfold gov_ok. cbn. rewrite Ct. split_and!; try done; try lia.
  - unfold light_sleep_rule. destruct (negb run && _ && _ && _) eqn:E; bool_hyps; [done|].
    intros Hn. by destruct Hn.
  - exists b, u1. by rewrite Ec.
Qed.

(** What a closing window does: the tick returns, the throttle follows the
    70/60 degree hysteresis of the sensor, a throttled system runs at COOL and any
    other at no more than the ceiling of the demand in force, and light sleep is
    recommended, for the whole gap, exactly when nothing is runnable, the level is
    ECONOMY or below, and the next wake is at least 50 ms away and finite.  Inside
    a window the tick changes nothing. *)
Theorem governor_window_rule g p u now wake run :
  gov_ok g → freqs_ok p → is_u32 wake →
  (g_have_window g = true → u32 (now - g_window_started_ms g) < POWER_WINDOW_MS →
     power_governor_tick acts now wake run g p u = Some (g, p, u)) ∧
  (g_have_window g = false ∨ POWER_WINDOW_MS <= u32 (now - g_window_started_ms g) →
   ∃ g' p' u', power_governor_tick acts now wake run g p u = Some (g', p', u') ∧
     (g_thermal g' = true → g_level g' = POWER_LEVEL_COOL) ∧
     (g_thermal g' = false → g_level g' <= ceiling_for (effective_demand g)) ∧
     (g_thermal g = false → g_thermal g' = true →
        ∃ t, (sample_temp acts u).1 = Some t ∧ POWER_TEMP_HOT_C <= t) ∧
     (g_thermal g = true → g_thermal g' = false →
        ∃ t, (sample_temp acts u).1 = Some t ∧ t <= POWER_TEMP_RECOVER_C) ∧
     g_light_sleep_ms g' = light_sleep_rule (g_level g') wake run ∧
     g_window_started_ms g' = now ∧ g_busy g' = 0 ∧ g_idle g' = 0).
Proof.
  intros Hg Hp Hw. split.
  - intros Hh Hlt. unfold power_governor_tick. rewrite Hh. cbn [negb]. by zbool.
  - intros Hc.
    assert (power_governor_tick acts now wake run g p u =
            close_window acts (set_window g now) wake run p u) as ->.
    { unfold power_governor_tick. destruct (g_have_window g); [|done]. cbn [negb].
      destruct Hc as [?|Hc]; [done|]. by zbool. }
    destruct (close_window_ok (set_window g now) wake run p u) as
      (g' & p' & u' & E & Hg' & _ & _ & H1 & H2 & H3 & H4 & H5 & H6 & _ & _ & H7); [done..|].
    exists g', p', u'. split; [done|]. destruct Hg' as (_ & _ & _ & Ht & _).
    split_and!; try done. intros ?. by apply Ht.
Qed.

Definition gov_event_ok (e : gov_event) : Prop :=
  match e with GTick _ wake _ => is_u32 wake | GForeground d => is_u32 d | _ => True end.

Lemma gov_step_ok e g p u :
  gov_ok g → freqs_ok p → gov_event_ok e →
  ∃ g' p' u', gov_step e (g, p, u) = Some (g', p', u') ∧ gov_ok g' ∧ freqs_ok p'.
Proof.
  intros Hg Hp He. destruct e as [|t|d|now wake run]; cbn [gov_step].
  - eauto 8.
  - eexists _, _, _. split; [reflexivity|]. split; [|done].
    unfold power_governor_note_busy. repeat case_match; done.
  - eexists _, _, _. split; [reflexivity|]. split; [|done].
    destruct Hg as (Hl & Hh & Hf & Hr). unfold gov_ok, power_governor_set_foreground_demand.
    cbn. split_and!; try apply Hl; try apply Hh; try apply Hr;
      unfold POWER_DEMAND_UNSET, POWER_DEMAND_HIGH, POWER_DEMAND_IDLE, POWER_DEMAND_NORMAL in *.
    + unfold gov_event_ok, in_w in He. destruct (_ || _) eqn:E; bool_hyps; lia.
    + destruct (_ || _) eqn:E; bool_hyps; lia.
  - unfold power_governor_tick.
    destruct (close_window_ok (set_window g now) wake run p u) as
      (g' & p' & u' & E & Hg' & Hp' & _); [done..|].
    destruct (g_have_window g); cbn [negb]; [destruct (_ <? _)|]; eauto 8.
Qed.

(**  From reset, any sequence of scheduler steps, demand changes and ticks is
    executed without a fault, whatever the actuators and the sensor do, and leaves
    the governor well formed: the level is one of the four, a throttled governor is
    at COOL, and a light-sleep recommendation stands only at ECONOMY or below. *)
Theorem governor_run_safe es p u :
  freqs_ok p → Forall gov_event_ok es →
  ∃ g' p' u', gov_run es (power_governor_reset, p, u) = Some (g', p', u') ∧
    gov_ok g' ∧ freqs_ok p'.
Proof.
  intros Hp He.
  assert (gov_ok power_governor_reset) as Hg.
  { unfold gov_ok, POWER_QUIET_WINDOWS, POWER_LEVEL_ECONOMY, POWER_DEMAND_IDLE,
      POWER_DEMAND_HIGH, POWER_LEVEL_PERFORMANCE; cbn.
    unfold POWER_LEVEL_BALANCED, POWER_DEMAND_NORMAL. split_and!; (lia || done). }
  revert Hg. generalize power_governor_reset. intros g. revert g p u Hp.
  induction He as [|e es He _ IH]; intros g p u Hp Hg; cbn [gov_run]; [by eauto 8|].
  destruct (gov_step_ok e g p u) as (g1 & p1 & u1 & E & Hg1 & Hp1); [done..|].
  rewrite E. cbn [mbind option_bind]. by apply IH.
Qed.

(** ** Idle descent *)

(** A window in which every step was idle: so many steps, then the tick that
    closes it. *)
Definition idle_window (w : nat * Z * Z) : list gov_event :=
  replicate w.1.1 GNoteIdle ++ [GTick w.1.2 w.2 false].

Fixpoint windows_apart (started : Z) (ws : list (nat * Z * Z)) : Prop :=
  match ws with
  | [] => True
  | w :: ws => POWER_WINDOW_MS <= u32 (w.1.2 - started) ∧ windows_apart w.1.2 ws
  end.

(** Quiet windows still needed before the level is ECONOMY or less. *)
Definition descent (g : governor_t) : Z :=
  if g_level g <=? POWER_LEVEL_ECONOMY then 0
  else POWER_QUIET_WINDOWS * (g_level g - 1) - g_quiet_streak g.

Lemma gov_run_app es1 es2 s : gov_run (es1 ++ es2) s = s' ← gov_run es1 s; gov_run es2 s'.
Proof.
  revert s. induction es1 as [|e es1 IH]; intros s; [done|]. cbn [app gov_run].
  destruct (gov_step e s); [|done]. cbn [mbind option_bind]. apply IH.
Qed.

Lemma gov_run_idle k g p u :
  ∃ g', gov_run (replicate k GNoteIdle) (g, p, u) = Some (g', p, u) ∧
    g_busy g' = g_busy g ∧ g_level g' = g_level g ∧ g_quiet_streak g' = g_quiet_streak g ∧
    g_thermal g' = g_thermal g ∧ g_have_window g' = g_have_window g ∧
    g_window_started_ms g' = g_window_started_ms g ∧ (gov_ok g → gov_ok g').
Proof.
  revert g. induction k as [|k IH]; intros g; cbn [replicate gov_run].
  - exists g. done.
  - cbn [gov_step mbind option_bind].
    destruct (IH (power_governor_note_idle g)) as (g' & E & H1). exists g'. split; [exact E|].
    exact H1.
Qed.

(** One quiet window brings the descent closer. *)
Lemma idle_window_step w g p u :
  ac_read_temp acts = None → gov_ok g → freqs_ok p → is_u32 w.2 →
  g_thermal g = false → g_busy g = 0 → g_have_window g = true →
  POWER_WINDOW_MS <= u32 (w.1.2 - g_window_started_ms g) →
  ∃ g' p' u', gov_run (idle_window w) (g, p, u) = Some (g', p', u') ∧ gov_ok g' ∧ freqs_ok p' ∧
    g_thermal g' = false ∧ g_busy g' = 0 ∧ g_have_window g' = true ∧
    g_window_started_ms g' = w.1.2 ∧
    descent g' <= Z.max 0 (descent g - 1) ∧
    g_light_sleep_ms g' = light_sleep_rule (g_level g') w.2 false.
Proof.
  intros Ha Hg Hp Hw Ht Hb Hh Hap. unfold idle_window. rewrite gov_run_app.
  destruct (gov_run_idle w.1.1 g p u) as (g1 & E1 & B1 & L1 & Q1 & T1 & W1 & S1 & Ok1).
  rewrite E1. specialize (Ok1 Hg). cbn [mbind option_bind gov_run gov_step].
  unfold power_governor_tick. rewrite W1, Hh, S1. cbn [negb].
  rewrite (proj2 (Z.ltb_ge _ _)) by done.
  destruct (close_window_ok (set_window g1 w.1.2) w.2 false p u) as
    (g' & p' & u' & E & Hg' & Hp' & (b & u1 & Etr & EL & EQ & ET) & _ & _ & _ & EN & EB & _ & _ & EW & ES);
    [done..|].
  rewrite E. cbn [mbind option_bind]. exists g', p', u'.
  destruct (thermal_rule_eq (set_window g1 w.1.2) u) as (b' & u1' & Etr' & _ & _ & Hnone).
  rewrite Etr in Etr'. assert (b' = b) as ->
    by (symmetry; exact (f_equal (λ x, g_thermal x.1) Etr')).
  assert (b = false) as -> by (apply Hnone; [cbn; congruence|done]).
  split_and!; try done.
  destruct Ok1 as (Lr & _ & _ & _ & _ & Qr & _).
  revert EL EQ. unfold descent. rewrite <- L1, <- Q1. unfold choose_level. cbn.
  rewrite B1, Hb. rewrite andb_false_r. cbn.
  assert (1 <= ceiling_for (effective_demand (set_window g1 w.1.2)) <= 3)
    by (unfold ceiling_for; repeat case_match; by vm_compute).
  generalize dependent (ceiling_for (effective_demand (set_window g1 w.1.2))). intros c Hc.
  assert (POWER_LEVEL_ECONOMY < g_level g1 → u32 (g_quiet_streak g1 + 1) = g_quiet_streak g1 + 1).
  { intros ?%Qr. apply wrap_id. unfold in_w, POWER_QUIET_WINDOWS in *. lia. }
  unfold POWER_LEVEL_ECONOMY, POWER_QUIET_WINDOWS, POWER_LEVEL_PERFORMANCE in *.
  repeat case_match; bool_hyps; cbn; intros; lia.
Qed.

(**  An idle system comes to rest: with no temperature sensor, from any
    well-formed unthrottled state with no busy step counted, six windows in which
    every step is idle bring the level to ECONOMY or below, whatever the demand, and
    the last window then recommends light sleep for the whole gap when the next wake
    is at least 50 ms away. *)
Theorem governor_idle_descends g p u ws w :
  ac_read_temp acts = None → gov_ok g → freqs_ok p → Forall (λ w, is_u32 w.2) (ws ++ [w]) →
  g_thermal g = false → g_busy g = 0 → g_have_window g = true →
  windows_apart (g_window_started_ms g) (ws ++ [w]) → (5 <= length ws)%nat →
  ∃ g' p' u', gov_run (concat (idle_window <$> ws ++ [w])) (g, p, u) = Some (g', p', u') ∧
    g_level g' <= POWER_LEVEL_ECONOMY ∧
    (POWER_LIGHT_SLEEP_MIN_MS <= w.2 < UINT32_MAX → g_light_sleep_ms g' = w.2).
Proof.
  intros Ha Hg Hp Hw Ht Hb Hh Hap Hn.
  assert (descent g <= 1 + Z.of_nat (length ws)) as Hd.
  { destruct Hg as (? & _ & _ & _ & _ & Hq & _). unfold descent, POWER_QUIET_WINDOWS,
      POWER_LEVEL_ECONOMY, POWER_LEVEL_PERFORMANCE in *.
    destruct (_ <=? _) eqn:E; bool_hyps; [lia|]. specialize (Hq ltac:(lia)). lia. }
  clear Hn. revert g p u Hg Hp Hw Ht Hb Hh Hap Hd.
  induction ws as [|w0 ws IH]; intros g p u Hg Hp Hw Ht Hb Hh Hap Hd.
  - cbn [app fmap list_fmap concat]. rewrite app_nil_r. destruct Hap as [Hap _].
    apply Forall_cons in Hw as [Hw _].
    destruct (idle_window_step w g p u) as
      (g' & p' & u' & E & Hg' & _ & _ & _ & _ & _ & Hd' & EL); [done..|].
    exists g', p', u'. split; [done|].
    assert (g_level g' <= POWER_LEVEL_ECONOMY) as Hl.
    { destruct Hg' as (Hr & _ & _ & _ & _ & Hq & _). unfold descent at 1 in Hd'.
      destruct (_ <=? _) eqn:El; bool_hyps; [done|]. specialize (Hq ltac:(lia)).
      cbn [length] in Hd. unfold POWER_LEVEL_ECONOMY, POWER_QUIET_WINDOWS in *. lia. }
    split; [done|]. intros Hr. rewrite EL. unfold light_sleep_rule. cbn [negb andb].
    by zbool.
  - cbn [app fmap list_fmap concat] in *. destruct Hap as [Hap0 Hap].
    apply Forall_cons in Hw as [Hw0 Hw].
    destruct (idle_window_step w0 g p u) as
      (g' & p' & u' & E & Hg' & Hp' & Ht' & Hb' & Hh' & Es & Hd' & _); [done..|].
    rewrite gov_run_app, E. cbn [mbind option_bind].
    apply IH; try done; [by rewrite Es|]. cbn [length] in Hd. lia.
Qed.
End GovernorProofs.

(** ** A concrete board: a clock that counts milliseconds, a 240 MHz processor *)

#[local] Program Instance ms_clock : Clock Z :=
  {| time_now_ms := u32; time_sleep_ms ms u := u + ms |}.
Next Obligation. intros u. by apply wrap_in_w. Qed.

Definition board_power : power_state_t Z := power_init 240 g_power_zero.
Definition board_acts : actuators_t Z :=
  mk_actuators None None (Some (λ u, (0, 75, u))).

Lemma freq_for_level_ranked_witness :
  freqs_ok board_power ∧ freq_for_level POWER_LEVEL_BALANCED board_power = Some 60 ∧
  ∃ f, freq_for_level POWER_LEVEL_ECONOMY board_power = Some f ∧ f ∈ freqs_of board_power ∧ f ≠ 0.
Proof.
  assert (freqs_ok board_power) as Hp by (unfold freqs_ok; vm_decide).
  split; [done|]. split; [vm_compute; reflexivity|].
  apply (freq_for_level_ranked board_power Hp).
Defined.

(** On a table of two frequencies ECONOMY runs faster than BALANCED. *)
Example freq_two_entries_inverted :
  ∃ p : power_state_t Z,
    power_set_available_freqs (Some [80; 240]) 2 board_power = Some (0, p) ∧
    freq_for_level POWER_LEVEL_BALANCED p = Some 80 ∧
    freq_for_level POWER_LEVEL_ECONOMY p = Some 240.
Proof. eexists. split; [vm_compute; reflexivity|]. split; vm_compute; reflexivity. Qed.

Lemma reset_ok : gov_ok power_governor_reset.
Proof. unfold gov_ok. split_and!; vm_decide. Qed.

Lemma governor_window_rule_witness :
  ∃ g' p' u', power_governor_tick board_acts 7 60 false power_governor_reset board_power 0 =
                Some (g', p', u') ∧
    g_level g' = POWER_LEVEL_COOL.
Proof.
  destruct (governor_window_rule board_acts power_governor_reset board_power 0 7 60 false)
    as [_ Hc]; [exact reset_ok|unfold freqs_ok; vm_decide|vm_decide|].
  destruct Hc as (g' & p' & u' & E & Hcool & _); [left; reflexivity|].
  exists g', p', u'. split; [exact E|]. apply Hcool.
  vm_compute in E. injection E as <- _ _. reflexivity.
Defined.

Definition sample_events : list gov_event :=
  [GForeground POWER_DEMAND_LOW; GNoteBusy (Some POWER_DEMAND_HIGH); GNoteBusy None;
   GTick 0 UINT32_MAX true; GNoteIdle; GTick 120 200 false].

Lemma governor_run_safe_witness :
  ∃ g' p' u', gov_run board_acts sample_events (power_governor_reset, board_power, 0) =
                Some (g', p', u') ∧ gov_ok g'.
Proof.
  destruct (governor_run_safe board_acts sample_events board_power 0)
    as (g' & p' & u' & E & Hg & _).
  - unfold freqs_ok. vm_decide.
  - unfold sample_events. repeat constructor; vm_decide.
  - exists g', p', u'. split; [exact E|exact Hg].
Defined.

Definition quiet_acts : actuators_t Z := mk_actuators None None None.
Definition idle_windows (n : nat) : list (nat * Z * Z) :=
  (λ i, (3%nat, 100 * Z.of_nat i, 500)) <$> seq 1 n.

Lemma governor_idle_descends_witness :
  ∃ g' p' u', gov_run quiet_acts (concat (idle_window <$> idle_windows 5 ++ [(2%nat, 600, 500)]))
                (set_window power_governor_reset 0, board_power, 0) = Some (g', p', u') ∧
    g_level g' <= POWER_LEVEL_ECONOMY ∧
    (POWER_LIGHT_SLEEP_MIN_MS <= 500 < UINT32_MAX → g_light_sleep_ms g' = 500).
Proof.
  apply (governor_idle_descends quiet_acts (set_window power_governor_reset 0) board_power 0
           (idle_windows 5) (2%nat, 600, 500)).
  - reflexivity.
  - exact reset_ok.
  - unfold freqs_ok. vm_decide.
  - vm_decide.
  - reflexivity.
  - reflexivity.
  - reflexivity.
  - cbn. unfold POWER_WINDOW_MS, wrap. repeat split; vm_decide.
  - vm_compute. lia.
Defined.
