(* ===== verification/Scheduler.v ===== *)
(** * The cooperative scheduler (kernel/scheduler.c)

    Eight task control blocks threaded on a free list, five ready lists and a
    blocked list; tasks switch by [setjmp]/[longjmp].  A task is its index in the
    slot array and a NULL pointer is [None].  A [jmp_buf] is the place its
    [setjmp] was called ([resume_point]); a function that ends in [longjmp] says
    where control goes ([out]), and [land] is the code that runs there.  The power
    governor is used through the interface [Governor]. *)

From Stdlib Require Import ZArith Lia.
From stdpp Require Import base tactics option list numbers sets.
From S2P Require Import Prelude.
From S2P Require Import Dll.
From S2P Require Import Power.
From S2P Require Import PowerGovernor.

(** ** The interface to the governor *)

Class Governor (G : Type) := {
  gov_inv : G → Prop;
  gov_reset : G → G;
  gov_note_idle : G → G;
  gov_note_busy : Z → G → G;
  gov_tick : Z → Z → bool → G → option G;
  gov_reset_ok : ∀ g, gov_inv g → gov_inv (gov_reset g);
  gov_idle_ok : ∀ g, gov_inv g → gov_inv (gov_note_idle g);
  gov_busy_ok : ∀ d g, gov_inv g → gov_inv (gov_note_busy d g);
  gov_tick_ok : ∀ now gap run g, gov_inv g → is_u32 gap →
    ∃ g', gov_tick now gap run g = Some g' ∧ gov_inv g'
}.

#[export] Program Instance power_governor {U} `{Clock U} (acts : actuators_t U) :
    Governor (governor_t * power_state_t U * U) := {|
  gov_inv g := gov_ok g.1.1 ∧ freqs_ok g.1.2;
  gov_reset g := (power_governor_reset, g.1.2, g.2);
  gov_note_idle g := (power_governor_note_idle g.1.1, g.1.2, g.2);
  gov_note_busy d g := (power_governor_note_busy (Some d) g.1.1, g.1.2, g.2);
  gov_tick now gap run g := power_governor_tick acts now gap run g.1.1 g.1.2 g.2
|}.
Next Obligation. intros U ? acts g [_ Hp]. split; [exact reset_ok|done]. Qed.
Next Obligation. done. Qed.
Next Obligation.
  intros U ? acts d [[g p] u] [Hg Hp].
  by destruct (gov_step_ok acts (GNoteBusy (Some d)) g p u Hg Hp I) as (? & ? & ? & [= <- <- <-] & ?).
Qed.
Next Obligation.
  intros U ? acts now gap run [[g p] u] [Hg Hp] Hgap.
  destruct (gov_step_ok acts (GTick now gap run) g p u Hg Hp Hgap) as (g' & p' & u' & E & Hok).
  by exists (g', p', u').
Qed.

(** ** Data *)

Definition MAX_TASKS : nat := 8.
Definition TASK_NAME_LEN : Z := 16.

Inductive task_state_t :=
  TASK_STATE_READY | TASK_STATE_RUNNING | TASK_STATE_BLOCKED | TASK_STATE_SUSPENDED
| TASK_STATE_TERMINATED.

#[export] Instance task_state_eq_dec : EqDecision task_state_t.
Proof. solve_decision. Defined.

(** Priorities, IDLE to CRITICAL. *)
Definition TASK_PRIO_IDLE : nat := 0.
Definition TASK_PRIO_NORMAL : nat := 2.
Definition TASK_PRIO_CRITICAL : nat := 4.

(** The [setjmp] a context was saved by: [host_stack_boot], [task_yield],
    [task_sleep], [task_suspend] or [scheduler_start]. *)
Inductive resume_point := RP_boot | RP_yield | RP_sleep | RP_suspend | RP_start.

(** [t_entry] names the entry function; [t_ctx] is [context] when [context_valid]. *)
Record task_tcb_t := mk_tcb {
  t_id : Z;
  t_name : list Z;
  t_state : task_state_t;
  t_priority : nat;
  t_entry : option nat;
  t_arg : Z;
  t_stack_base : option Z;
  t_stack_ptr : Z;
  t_stack_size : Z;
  t_wake_time : Z;
  t_sleep_ticks : Z;
  t_ctx : option resume_point;
  t_next : option nat;
  t_prev : option nat;
  t_power_demand : Z
}.

Definition tcb_zero : task_tcb_t :=
  mk_tcb 0 (zeros TASK_NAME_LEN) TASK_STATE_READY 0 None 0 None 0 0 0 0 None None None 0.

Definition with_links (nx pv : option nat) (t : task_tcb_t) : task_tcb_t :=
  mk_tcb (t_id t) (t_name t) (t_state t) (t_priority t) (t_entry t) (t_arg t) (t_stack_base t)
    (t_stack_ptr t) (t_stack_size t) (t_wake_time t) (t_sleep_ticks t) (t_ctx t) nx pv
    (t_power_demand t).
Definition with_next (p : option nat) (t : task_tcb_t) : task_tcb_t := with_links p (t_prev t) t.
Definition with_prev (p : option nat) (t : task_tcb_t) : task_tcb_t := with_links (t_next t) p t.
Definition with_state (st : task_state_t) (t : task_tcb_t) : task_tcb_t :=
  mk_tcb (t_id t) (t_name t) st (t_priority t) (t_entry t) (t_arg t) (t_stack_base t)
    (t_stack_ptr t) (t_stack_size t) (t_wake_time t) (t_sleep_ticks t) (t_ctx t)
    (t_next t) (t_prev t) (t_power_demand t).
Definition with_ctx (c : option resume_point) (t : task_tcb_t) : task_tcb_t :=
  mk_tcb (t_id t) (t_name t) (t_state t) (t_priority t) (t_entry t) (t_arg t) (t_stack_base t)
    (t_stack_ptr t) (t_stack_size t) (t_wake_time t) (t_sleep_ticks t) c
    (t_next t) (t_prev t) (t_power_demand t).
Definition with_stack (b : option Z) (p size : Z) (t : task_tcb_t) : task_tcb_t :=
  mk_tcb (t_id t) (t_name t) (t_state t) (t_priority t) (t_entry t) (t_arg t) b
    p size (t_wake_time t) (t_sleep_ticks t) (t_ctx t)
    (t_next t) (t_prev t) (t_power_demand t).
Definition with_sleep (ticks wake : Z) (t : task_tcb_t) : task_tcb_t :=
  mk_tcb (t_id t) (t_name t) (t_state t) (t_priority t) (t_entry t) (t_arg t) (t_stack_base t)
    (t_stack_ptr t) (t_stack_size t) wake ticks (t_ctx t)
    (t_next t) (t_prev t) (t_power_demand t).
Definition with_id (i : Z) (t : task_tcb_t) : task_tcb_t :=
  mk_tcb i (t_name t) (t_state t) (t_priority t) (t_entry t) (t_arg t) (t_stack_base t)
    (t_stack_ptr t) (t_stack_size t) (t_wake_time t) (t_sleep_ticks t) (t_ctx t)
    (t_next t) (t_prev t) (t_power_demand t).
Definition with_demand (d : Z) (t : task_tcb_t) : task_tcb_t :=
  mk_tcb (t_id t) (t_name t) (t_state t) (t_priority t) (t_entry t) (t_arg t) (t_stack_base t)
    (t_stack_ptr t) (t_stack_size t) (t_wake_time t) (t_sleep_ticks t) (t_ctx t)
    (t_next t) (t_prev t) d.

(** The list heads of [scheduler_t]. *)
Record queues := mk_q {
  q_ready : list (option nat);
  q_blocked : option nat;
  q_free : option nat
}.

(** Its tickless-idle fields. *)
Record tickless := mk_tl {
  tl_enabled : bool;
  tl_next_wake : Z;
  tl_idle_ticks : Z;
  tl_mode : power_mode_t;
  tl_deep_min : Z
}.

(** Where a function of the scheduler leaves control: it returns, or jumps to a
    task's context or to the saved context of [scheduler_step]'s caller. *)
Inductive out := Ret (z : Z) | JumpTask (i : nat) | JumpCaller.

(** The three kinds of list head. *)
Inductive lst := LReady (p : nat) | LBlocked | LFree.

#[export] Instance lst_eq_dec : EqDecision lst.
Proof. solve_decision. Defined.

Section Scheduler.
Context {G : Type} `{Governor G}.

(** [scheduler_t] with the file's [g_main_task] and [g_last_switched_task], and
    the governor's state. *)
Record scheduler_t := mk_s {
  s_tasks : list task_tcb_t;
  s_q : queues;
  s_current : option nat;
  s_tick : Z;
  s_next_id : Z;
  s_started : bool;
  s_isr : bool;
  s_nest : Z;
  s_tl : tickless;
  s_caller : bool;
  s_main : option nat;
  s_last : option nat;
  s_gov : G
}.

Definition set_tasks (l : list task_tcb_t) (s : scheduler_t) : scheduler_t :=
  mk_s l (s_q s) (s_current s) (s_tick s) (s_next_id s) (s_started s) (s_isr s) (s_nest s)
    (s_tl s) (s_caller s) (s_main s) (s_last s) (s_gov s).
Definition set_q (q : queues) (s : scheduler_t) : scheduler_t :=
  mk_s (s_tasks s) q (s_current s) (s_tick s) (s_next_id s) (s_started s) (s_isr s) (s_nest s)
    (s_tl s) (s_caller s) (s_main s) (s_last s) (s_gov s).
Definition set_current (c : option nat) (s : scheduler_t) : scheduler_t :=
  mk_s (s_tasks s) (s_q s) c (s_tick s) (s_next_id s) (s_started s) (s_isr s) (s_nest s)
    (s_tl s) (s_caller s) (s_main s) (s_last s) (s_gov s).
Definition set_tick (z : Z) (s : scheduler_t) : scheduler_t :=
  mk_s (s_tasks s) (s_q s) (s_current s) z (s_next_id s) (s_started s) (s_isr s) (s_nest s)
    (s_tl s) (s_caller s) (s_main s) (s_last s) (s_gov s).
Definition set_started (b : bool) (s : scheduler_t) : scheduler_t :=
  mk_s (s_tasks s) (s_q s) (s_current s) (s_tick s) (s_next_id s) b (s_isr s) (s_nest s)
    (s_tl s) (s_caller s) (s_main s) (s_last s) (s_gov s).
Definition set_isr (b : bool) (n : Z) (s : scheduler_t) : scheduler_t :=
  mk_s (s_tasks s) (s_q s) (s_current s) (s_tick s) (s_next_id s) (s_started s) b n
    (s_tl s) (s_caller s) (s_main s) (s_last s) (s_gov s).
Definition set_tl (t : tickless) (s : scheduler_t) : scheduler_t :=
  mk_s (s_tasks s) (s_q s) (s_current s) (s_tick s) (s_next_id s) (s_started s) (s_isr s)
    (s_nest s) t (s_caller s) (s_main s) (s_last s) (s_gov s).
Definition set_caller (b : bool) (s : scheduler_t) : scheduler_t :=
  mk_s (s_tasks s) (s_q s) (s_current s) (s_tick s) (s_next_id s) (s_started s) (s_isr s)
    (s_nest s) (s_tl s) b (s_main s) (s_last s) (s_gov s).
Definition set_main (m : option nat) (s : scheduler_t) : scheduler_t :=
  mk_s (s_tasks s) (s_q s) (s_current s) (s_tick s) (s_next_id s) (s_started s) (s_isr s)
    (s_nest s) (s_tl s) (s_caller s) m (s_last s) (s_gov s).
Definition set_last (m : option nat) (s : scheduler_t) : scheduler_t :=
  mk_s (s_tasks s) (s_q s) (s_current s) (s_tick s) (s_next_id s) (s_started s) (s_isr s)
    (s_nest s) (s_tl s) (s_caller s) (s_main s) m (s_gov s).
Definition set_gov (g : G) (s : scheduler_t) : scheduler_t :=
  mk_s (s_tasks s) (s_q s) (s_current s) (s_tick s) (s_next_id s) (s_started s) (s_isr s)
    (s_nest s) (s_tl s) (s_caller s) (s_main s) (s_last s) g.

(** [task->...]: [None] when the pointer is not a slot. *)
Definition tget (i : nat) (s : scheduler_t) : option task_tcb_t := s_tasks s !! i.
Definition tupd (i : nat) (f : task_tcb_t → task_tcb_t) (s : scheduler_t) : option scheduler_t :=
  t ← tget i s; Some (set_tasks (<[i := f t]> (s_tasks s)) s).

Definition head_of (l : lst) (s : scheduler_t) : option nat :=
  match l with
  | LReady p => default None (q_ready (s_q s) !! p)
  | LBlocked => q_blocked (s_q s)
  | LFree => q_free (s_q s)
  end.
Definition set_head (l : lst) (h : option nat) (s : scheduler_t) : scheduler_t :=
  let q := s_q s in
  set_q match l with
        | LReady p => mk_q (<[p := h]> (q_ready q)) (q_blocked q) (q_free q)
        | LBlocked => mk_q (q_ready q) h (q_free q)
        | LFree => mk_q (q_ready q) (q_blocked q) h
        end s.

(** ** Lists *)

Definition task_list_add (l : lst) (i : nat) (s : scheduler_t) : option scheduler_t :=
  s ← tupd i (with_links (head_of l s) None) s;
  s ← match head_of l s with Some h => tupd h (with_prev (Some i)) s | None => Some s end;
  Some (set_head l (Some i) s).

Definition task_list_remove (l : lst) (i : nat) (s : scheduler_t) : option scheduler_t :=
  t ← tget i s;
  s ← match t_prev t with
      | Some p => tupd p (with_next (t_next t)) s
      | None => Some (set_head l (t_next t) s)
      end;
  s ← match t_next t with Some n => tupd n (with_prev (t_prev t)) s | None => Some s end;
  tupd i (with_links None None) s.

Definition task_add_to_ready (i : nat) (s : scheduler_t) : option scheduler_t :=
  t ← tget i s;
  s ← task_list_add (LReady (t_priority t)) i s;
  tupd i (with_state TASK_STATE_READY) s.

(** From CRITICAL down to IDLE. *)
Definition task_get_highest_ready (s : scheduler_t) : option nat :=
  match filter is_Some ((λ p, head_of (LReady p) s) <$> [4; 3; 2; 1; 0]%nat) with
  | h :: _ => h
  | [] => None
  end.

(** [next && next->priority != TASK_PRIO_IDLE] *)
Definition runnable (n : option nat) (s : scheduler_t) : option bool :=
  match n with
  | None => Some false
  | Some n => t ← tget n s; Some (negb (t_priority t =? TASK_PRIO_IDLE)%nat)
  end.

(** ** Switching *)

Definition switch_to_main (s : scheduler_t) : option (out * scheduler_t) :=
  let s := set_current (s_main s) s in
  m ← s_main s;
  s ← tupd m (with_state TASK_STATE_RUNNING) s;
  let s := set_last None s in
  Some (if s_caller s then JumpCaller else Ret 0, s).

Definition context_switch (next : nat) (s : scheduler_t) : option (out * scheduler_t) :=
  if decide (Some next = s_main s) then switch_to_main s else
  t ← tget next s;
  s ← task_list_remove (LReady (t_priority t)) next s;
  let s := set_current (Some next) s in
  s ← tupd next (with_state TASK_STATE_RUNNING) s;
  Some (JumpTask next, s).

Definition scheduler_lock (s : scheduler_t) : scheduler_t :=
  if negb (s_isr s) then set_isr (s_isr s) (u8 (s_nest s + 1)) s else s.
Definition scheduler_unlock (s : scheduler_t) : scheduler_t :=
  if negb (s_isr s) && (0 <? s_nest s) then set_isr (s_isr s) (u8 (s_nest s - 1)) s else s.
Definition scheduler_enter_isr (s : scheduler_t) : scheduler_t :=
  set_isr true (u8 (s_nest s + 1)) s.
Definition scheduler_exit_isr (s : scheduler_t) : scheduler_t :=
  let s := if 0 <? s_nest s then set_isr (s_isr s) (u8 (s_nest s - 1)) s else s in
  if s_nest s =? 0 then set_isr false (s_nest s) s else s.

(** ** Tasks *)

(** [strncpy (task->name, name, 15); task->name[15] = 0;] *)
Definition with_name (name : list Z) (t : task_tcb_t) : task_tcb_t :=
  let n := take (Z.to_nat (TASK_NAME_LEN - 1)) name in
  mk_tcb (t_id t) (n ++ zeros (TASK_NAME_LEN - 1 - blen n) ++ [0])
    (t_state t) (t_priority t) (t_entry t) (t_arg t) (t_stack_base t) (t_stack_ptr t)
    (t_stack_size t) (t_wake_time t) (t_sleep_ticks t) (t_ctx t) (t_next t) (t_prev t)
    (t_power_demand t).

(** The fields [task_create] and [scheduler_init] fill in before the stack. *)
Definition init_tcb (name : list Z) (entry : option nat) (arg : Z) (priority : nat)
    (st : task_state_t) (t : task_tcb_t) : task_tcb_t :=
  let t := with_name name t in
  mk_tcb (t_id t) (t_name t) st priority entry arg (t_stack_base t) (t_stack_ptr t)
    (t_stack_size t) 0 0 None (t_next t) (t_prev t) (t_power_demand t).

(** On the private stack: the first [setjmp] returns 0, the second return is
    [RP_boot] in [land]. *)
Definition host_stack_boot (i : nat) (s : scheduler_t) : option scheduler_t :=
  tupd i (with_ctx (Some RP_boot)) s.

(** [HOST_STACK_MIN_BYTES] is the target's; [stack_alloc] is what the allocator
    answers. *)
Definition task_create (min_stack : Z) (name : list Z) (entry : option nat) (arg : Z)
    (priority : nat) (stack_size : Z) (stack_alloc : option Z) (s : scheduler_t)
    : option (Z * option nat * scheduler_t) :=
  match head_of LFree s with
  | None => Some (-1, None, s)
  | Some task =>
    if (TASK_PRIO_CRITICAL <? priority)%nat then Some (-1, None, s) else
    let stack_size := if stack_size <? min_stack then min_stack else stack_size in
    s ← task_list_remove LFree task s;
    s ← tupd task (init_tcb name entry arg priority TASK_STATE_READY) s;
    s ← tupd task (λ t, with_stack stack_alloc (t_stack_ptr t) stack_size t) s;
    match stack_alloc with
    | None => s ← task_list_add LFree task s; Some (-1, None, s)
    | Some base =>
      let top := Z.land (base + stack_size) (Z.lnot 15) in
      s ← tupd task (with_stack (Some base) top stack_size) s;
      s ← host_stack_boot task s;
      t ← tget task s;
      match t_ctx t with
      | None =>
        s ← tupd task (with_stack None top stack_size) s;
        s ← task_list_add LFree task s; Some (-1, None, s)
      | Some _ => s ← task_add_to_ready task s; Some (0, Some task, s)
      end
    end
  end.

Definition task_delete (task : option nat) (s : scheduler_t) : option (Z * scheduler_t) :=
  match task with
  | None => Some (-1, s)
  | Some task =>
    if decide (Some task = s_current s) then Some (-1, s) else
    t ← tget task s;
    let finish s :=
      s ← tupd task (λ t, with_state TASK_STATE_TERMINATED
                            (with_stack None (t_stack_ptr t) (t_stack_size t) t)) s;
      s ← task_list_add LFree task s; Some (0, s) in
    match t_state t with
    | TASK_STATE_READY => s ← task_list_remove (LReady (t_priority t)) task s; finish s
    | TASK_STATE_BLOCKED => s ← task_list_remove LBlocked task s; finish s
    | TASK_STATE_SUSPENDED | TASK_STATE_TERMINATED => finish s
    | TASK_STATE_RUNNING => Some (-1, s)
    end
  end.

(** What [task_trampoline] does when the entry function has returned. *)
Definition trampoline_exit (s : scheduler_t) : option (out * scheduler_t) :=
  s ← match s_current s with
      | Some i => tupd i (with_state TASK_STATE_TERMINATED) s | None => Some s end;
  switch_to_main s.

(** The code a jump lands on: the task's saved context, or the return of
    [scheduler_step] to the main thread.  Returning from the trampoline falls into
    [host_call_on_stack]'s [abort]. *)
Definition land (o : out * scheduler_t) : option (Z * scheduler_t) :=
  match o with
  | (Ret z, s) => Some (z, s)
  | (JumpCaller, s) => Some (0, s)
  | (JumpTask i, s) =>
    t ← tget i s;
    rp ← t_ctx t;
    match rp with
    | RP_boot =>
      t ← (i ← s_current s; tget i s);
      match t_entry t with
      | Some _ => Some (0, s)
      | None => o ← trampoline_exit s;
                match o with (JumpCaller, s) => Some (0, s) | _ => None end
      end
    | RP_yield => Some (0, scheduler_unlock s)
    | RP_sleep => s ← tupd i (with_state TASK_STATE_RUNNING) s; Some (0, s)
    | RP_suspend => s ← tupd i (with_state TASK_STATE_RUNNING) s; Some (0, scheduler_unlock s)
    | RP_start => Some (0, s)
    end
  end.

Definition scheduler_step (s : scheduler_t) : option (out * scheduler_t) :=
  if negb (s_started s) then Some (Ret (-1), s) else
  let next := task_get_highest_ready s in
  busy ← runnable next s;
  match next with
  | Some next =>
    if (busy : bool) then
      t ← tget next s;
      let s := set_gov (gov_note_busy (t_power_demand t) (s_gov s)) s in
      if decide (Some next = s_last s) then Some (Ret 0, s) else
      let s := set_caller true s in
      '(o, s) ← context_switch next s;
      Some match o with Ret _ => (Ret 0, set_last (Some next) s) | _ => (o, s) end
    else Some (Ret 0, set_gov (gov_note_idle (s_gov s)) s)
  | None => Some (Ret 0, set_gov (gov_note_idle (s_gov s)) s)
  end.

Definition scheduler_start (s : scheduler_t) : option (out * scheduler_t) :=
  if s_started s then Some (Ret (-1), s) else
  let s := set_started true s in
  m ← s_main s;
  s ← tupd m (with_ctx (Some RP_start)) s;
  scheduler_step s.

Definition task_yield (s : scheduler_t) : option (out * scheduler_t) :=
  let s := scheduler_lock s in
  if decide (s_current s = s_main s) then
    '(o, s) ← scheduler_step (scheduler_unlock s);
    Some match o with Ret _ => (Ret 0, s) | _ => (o, s) end
  else
  match s_current s with
  | None => Some (Ret 0, scheduler_unlock s)
  | Some cur =>
    t ← tget cur s;
    if decide (t_state t = TASK_STATE_RUNNING) then
      s ← tupd cur (λ t, with_state TASK_STATE_READY (with_ctx (Some RP_yield) t)) s;
      let next := task_get_highest_ready s in
      busy ← runnable next s;
      s ← task_add_to_ready cur s;
      '(o, s) ← (if (busy : bool) then n ← next; context_switch n s else Some (Ret 0, s));
      match o with
      | Ret _ => '(o, s) ← switch_to_main s;
                 Some match o with Ret z => (Ret z, scheduler_unlock s) | _ => (o, s) end
      | _ => Some (o, s)
      end
    else Some (Ret 0, scheduler_unlock s)
  end.

(** ** The tick *)

Fixpoint wake_loop (fuel : nat) (task : option nat) (s : scheduler_t) : option scheduler_t :=
  match task with
  | None => Some s
  | Some i =>
    match fuel with
    | O => None
    | S fuel =>
      t ← tget i s;
      let next_task := t_next t in
      s ← (if t_wake_time t <=? s_tick s then
             s ← task_list_remove LBlocked i s;
             s ← tupd i (with_state TASK_STATE_READY) s;
             task_add_to_ready i s
           else Some s);
      wake_loop fuel next_task s
    end
  end.

Fixpoint next_wake_loop (fuel : nat) (task : option nat) (best : Z) (s : scheduler_t)
    : option Z :=
  match task with
  | None => Some best
  | Some i =>
    match fuel with
    | O => None
    | S fuel =>
      t ← tget i s;
      next_wake_loop fuel (t_next t) (if t_wake_time t <? best then t_wake_time t else best) s
    end
  end.

(** No list is longer than the slot array. *)
Definition task_fuel : nat := S MAX_TASKS.

Definition set_next_wake (w : Z) (s : scheduler_t) : scheduler_t :=
  let t := s_tl s in
  set_tl (mk_tl (tl_enabled t) w (tl_idle_ticks t) (tl_mode t) (tl_deep_min t)) s.

Definition scheduler_update_next_wake_tick (s : scheduler_t) : option scheduler_t :=
  w ← next_wake_loop task_fuel (head_of LBlocked s) UINT32_MAX s;
  Some (set_next_wake w s).

Definition scheduler_tick (s : scheduler_t) : option scheduler_t :=
  let s := scheduler_lock s in
  let s := set_tick (u32 (s_tick s + 1)) s in
  s ← wake_loop task_fuel (head_of LBlocked s) s;
  s ← scheduler_update_next_wake_tick s;
  any_runnable ← runnable (task_get_highest_ready s) s;
  let next_wake := tl_next_wake (s_tl s) in
  let gap := if negb (next_wake =? UINT32_MAX) && (s_tick s <? next_wake)
             then next_wake - s_tick s else UINT32_MAX in
  g ← gov_tick (s_tick s) gap any_runnable (s_gov s);
  Some (scheduler_unlock (set_gov g s)).

(** The main thread sleeps by pumping ticks; [run] is what the tasks do from a
    jump until control is back at the caller context. *)
Fixpoint main_sleep_loop (fuel : nat) (run : scheduler_t → option scheduler_t) (until : Z)
    (s : scheduler_t) : option scheduler_t :=
  if s_tick s <? until then
    match fuel with
    | O => None
    | S fuel =>
      s ← scheduler_tick s;
      '(o, s) ← scheduler_step s;
      s ← match o with
          | JumpTask _ => '(_, s) ← land (o, s); run s
          | _ => Some s
          end;
      main_sleep_loop fuel run until s
    end
  else Some s.

Definition task_sleep (fuel : nat) (run : scheduler_t → option scheduler_t) (ticks : Z)
    (s : scheduler_t) : option (out * scheduler_t) :=
  match s_current s with
  | None => Some (Ret 0, s)
  | Some cur =>
    if decide (Some cur = s_main s) then
      s ← main_sleep_loop fuel run (u32 (s_tick s + ticks)) s; Some (Ret 0, s)
    else
    s ← tupd cur (λ t, with_state TASK_STATE_BLOCKED
                         (with_sleep ticks (u32 (s_tick s + ticks)) t)) s;
    s ← task_list_add LBlocked cur s;
    s ← tupd cur (with_ctx (Some RP_sleep)) s;
    '(o, s) ← switch_to_main s;
    match o with
    | Ret _ => s ← tupd cur (with_state TASK_STATE_RUNNING) s; Some (Ret 0, s)
    | _ => Some (o, s)
    end
  end.

Definition task_suspend (task : option nat) (s : scheduler_t) : option (out * scheduler_t) :=
  match task with
  | None => Some (Ret 0, s)
  | Some task =>
    let s := scheduler_lock s in
    if decide (Some task = s_current s) then
      s ← tupd task (λ t, with_state TASK_STATE_SUSPENDED (with_ctx (Some RP_suspend) t)) s;
      let next := task_get_highest_ready s in
      busy ← runnable next s;
      '(o, s) ← (if (busy : bool) then n ← next; context_switch n s else switch_to_main s);
      match o with
      | Ret _ => s ← tupd task (with_state TASK_STATE_RUNNING) s;
                 Some (Ret 0, scheduler_unlock s)
      | _ => Some (o, s)
      end
    else
    t ← tget task s;
    let finish s := s ← tupd task (with_state TASK_STATE_SUSPENDED) s;
                    Some (Ret 0, scheduler_unlock s) in
    match t_state t with
    | TASK_STATE_READY => s ← task_list_remove (LReady (t_priority t)) task s; finish s
    | TASK_STATE_BLOCKED =>
      s ← task_list_remove LBlocked task s;
      s ← tupd task (with_sleep 0 0) s;
      finish s
    | _ => Some (Ret 0, scheduler_unlock s)
    end
  end.

Definition task_resume (task : option nat) (s : scheduler_t) : option scheduler_t :=
  let s := scheduler_lock s in
  match task with
  | None => Some (scheduler_unlock s)
  | Some task =>
    t ← tget task s;
    if decide (t_state t = TASK_STATE_SUSPENDED) then
      s ← tupd task (with_state TASK_STATE_READY) s;
      s ← task_add_to_ready task s;
      Some (scheduler_unlock s)
    else Some (scheduler_unlock s)
  end.

(** ** Initialisation *)

Definition sched_zero (main last : option nat) (g : G) : scheduler_t :=
  mk_s (replicate MAX_TASKS tcb_zero) (mk_q (replicate 5 None) None None) None 0 0 false false 0
    (mk_tl false 0 0 POWER_MODE_ACTIVE 0) false main last g.

Fixpoint init_free (i n : nat) (s : scheduler_t) : option scheduler_t :=
  match n with
  | O => Some s
  | S n =>
    s ← tupd i (with_id (u8 (Z.of_nat i))) s;
    s ← task_list_add LFree i s;
    init_free (S i) n s
  end.

(** [s] gives the values of the file's other statics, which are not cleared;
    ["idle"] and ["main"] are spelled out. *)
Definition scheduler_init (min_stack : Z) (idle_entry : nat) (stack_alloc : option Z)
    (s : scheduler_t) : option (Z * scheduler_t) :=
  let s := sched_zero (s_main s) (s_last s) (s_gov s) in
  s ← init_free 0 MAX_TASKS s;
  let s := mk_s (s_tasks s) (s_q s) (s_current s) 0 1 false false 0
             (mk_tl true UINT32_MAX 0 POWER_MODE_ACTIVE 10000) (s_caller s) (s_main s)
             (s_last s) (s_gov s) in
  '(ret, idle, s) ← task_create min_stack [105; 100; 108; 101] (Some idle_entry) 0
                      TASK_PRIO_IDLE min_stack stack_alloc s;
  if negb (ret =? 0) then Some (ret, s) else
  i ← idle;
  s ← tupd i (with_demand POWER_DEMAND_IDLE) s;
  let s := set_gov (gov_reset (s_gov s)) s in
  match head_of LFree s with
  | None => Some (-1, s)
  | Some m =>
    let s := set_main (Some m) s in
    s ← task_list_remove LFree m s;
    s ← tupd m (λ t, with_stack None 0 0
                       (init_tcb [109; 97; 105; 110] None 0 TASK_PRIO_NORMAL
                          TASK_STATE_RUNNING t)) s;
    Some (0, set_current (Some m) s)
  end.

(** ** Tickless idle *)

Definition set_mode (m : power_mode_t) (s : scheduler_t) : scheduler_t :=
  let t := s_tl s in
  set_tl (mk_tl (tl_enabled t) (tl_next_wake t) (tl_idle_ticks t) m (tl_deep_min t)) s.

Definition scheduler_enter_idle (s : scheduler_t) : option (out * scheduler_t) :=
  let t := s_tl s in
  let s := set_tl (mk_tl (tl_enabled t) (tl_next_wake t) (u32 (tl_idle_ticks t + 1))
                     POWER_MODE_IDLE (tl_deep_min t)) s in
  let next_wake := tl_next_wake (s_tl s) in
  let sleep_ticks := if next_wake =? UINT32_MAX then 0 else u32 (next_wake - s_tick s) in
  if 0 <? sleep_ticks then
    Some (Ret 0, set_mode POWER_MODE_ACTIVE (set_tick (u32 (s_tick s + sleep_ticks)) s))
  else task_yield (set_mode POWER_MODE_DEEP_SLEEP s).

Definition scheduler_tickless_idle (s : scheduler_t) : scheduler_t :=
  if negb (tl_enabled (s_tl s)) then s else
  let next_wake := tl_next_wake (s_tl s) in
  if next_wake =? UINT32_MAX then set_mode POWER_MODE_DEEP_SLEEP s else
  let sleep_ticks := u32 (next_wake - s_tick s) in
  if sleep_ticks =? 0 then s else
  set_mode POWER_MODE_ACTIVE (set_tick next_wake s).

Definition scheduler_enter_deep_sleep (timeout_ticks : Z) (s : scheduler_t) : Z * scheduler_t :=
  if negb (tl_enabled (s_tl s)) then (-1, s) else
  let s := set_mode POWER_MODE_DEEP_SLEEP s in
  let s := if 0 <? timeout_ticks then set_tick (u32 (s_tick s + timeout_ticks)) s else s in
  let t := s_tl s in
  (0, set_tl (mk_tl false (tl_next_wake t) (tl_idle_ticks t) (tl_mode t) (tl_deep_min t)) s).

Definition scheduler_exit_idle (s : scheduler_t) : scheduler_t := set_mode POWER_MODE_ACTIVE s.

Definition scheduler_enable_tickless_idle (b : bool) (s : scheduler_t) : scheduler_t :=
  let t := s_tl s in
  set_tl (mk_tl b (tl_next_wake t) (tl_idle_ticks t) (tl_mode t) (tl_deep_min t)) s.

Definition scheduler_set_deep_sleep_min_ticks (n : Z) (s : scheduler_t) : scheduler_t :=
  let t := s_tl s in
  set_tl (mk_tl (tl_enabled t) (tl_next_wake t) (tl_idle_ticks t) (tl_mode t) n) s.

(** ** Accessors *)

Definition task_get_current (s : scheduler_t) : option nat := s_current s.

Definition task_get_name (task : option nat) (s : scheduler_t) : option (option (list Z)) :=
  match task with None => Some None | Some i => t ← tget i s; Some (Some (t_name t)) end.

Definition task_get_state (task : option nat) (s : scheduler_t) : option task_state_t :=
  match task with
  | None => Some TASK_STATE_TERMINATED
  | Some i => t ← tget i s; Some (t_state t)
  end.

Definition task_get_priority (task : option nat) (s : scheduler_t) : option nat :=
  match task with
  | None => Some TASK_PRIO_IDLE
  | Some i => t ← tget i s; Some (t_priority t)
  end.

Definition scheduler_get_tick_count (s : scheduler_t) : Z := s_tick s.
Definition scheduler_get_idle_tick_count (s : scheduler_t) : Z := tl_idle_ticks (s_tl s).
Definition scheduler_is_in_isr (s : scheduler_t) : bool := s_isr s.
Definition scheduler_get_next_wake_tick (s : scheduler_t) : Z := tl_next_wake (s_tl s).
Definition scheduler_get_power_mode (s : scheduler_t) : power_mode_t := tl_mode (s_tl s).
Definition scheduler_get_task_slots (s : scheduler_t) : Z * list task_tcb_t :=
  (Z.of_nat MAX_TASKS, s_tasks s).

Definition task_wake (task : option nat) (s : scheduler_t) : scheduler_t := s.
End Scheduler.

Arguments scheduler_t : clear implicits.
