(* ===== verification/SchedulerRep.v ===== *)
(** * The scheduler's lists

    [rep s L]: the free, blocked and ready lists of a scheduler state hold the
    slots [L], each slot on at most one list, and what the two list routines do. *)

From Stdlib Require Import ZArith Lia.
From stdpp Require Import base tactics option numbers sets functions list.
From S2P Require Import Prelude.
From S2P Require Import Dll.
From S2P Require Import Power.
From S2P Require Import Scheduler.

Section Rep.
Context {G : Type} `{Governor G}.
Implicit Types (s : scheduler_t G) (L : lst → list nat) (i j : nat) (t : task_tcb_t).

Definition nx s i : option nat := t ← tget i s; t_next t.
Definition pv s i : option nat := t ← tget i s; t_prev t.

(** A control block without its links, and the scalar part of the state. *)
Definition data (t : task_tcb_t) : task_tcb_t := with_links None None t.
Definition rest (s : scheduler_t G) : scheduler_t G :=
  set_q (mk_q [] None None) (set_tasks [] s).

Record rep (s : scheduler_t G) (L : lst → list nat) : Prop := {
  rep_len : length (s_tasks s) = MAX_TASKS;
  rep_rdy : length (q_ready (s_q s)) = 5%nat;
  rep_dll : ∀ l, dlist (nx s) (pv s) None (head_of l s) (L l);
  rep_nd : ∀ l, NoDup (L l);
  rep_lt : ∀ l i, i ∈ L l → (i < MAX_TASKS)%nat;
  rep_disj : ∀ l l' i, i ∈ L l → i ∈ L l' → l = l'
}.

(** Everything but the links. *)
Definition same (s s' : scheduler_t G) : Prop :=
  (∀ j, data <$> tget j s' = data <$> tget j s) ∧ rest s' = rest s.

Definition lst_ok (l : lst) : Prop := match l with LReady p => (p < 5)%nat | _ => True end.

Lemma same_refl s : same s s.
Proof. done. Qed.

Lemma same_trans s1 s2 s3 : same s1 s2 → same s2 s3 → same s1 s3.
Proof. intros [H1 H2] [H3 H4]. split; [|congruence]. intros j. by rewrite H3. Qed.

(** ** One control block *)

Lemma tget_lt s L i : rep s L → (i < MAX_TASKS)%nat → is_Some (tget i s).
Proof. intros Hr Hi. apply lookup_lt_is_Some. by rewrite (rep_len _ _ Hr). Qed.

Lemma tget_tupd i j f s s' :
  tupd i f s = Some s' → tget j s' = if decide (i = j) then f <$> tget i s else tget j s.
Proof.
  unfold tupd. destruct (tget i s) as [t|] eqn:E; [|done]. cbn [mbind option_bind].
  intros [= <-]. unfold tget in *. cbn. case_decide as Hd.
  - subst j. apply list_lookup_insert_eq. by eapply lookup_lt_Some.
  - by apply list_lookup_insert_ne.
Qed.

Lemma tupd_some i f s : is_Some (tget i s) → ∃ s', tupd i f s = Some s'.
Proof. intros [t E]. unfold tupd. rewrite E. eauto. Qed.

Lemma tupd_rest i f s s' :
  tupd i f s = Some s' → rest s' = rest s ∧ s_q s' = s_q s ∧ length (s_tasks s') = length (s_tasks s).
Proof.
  unfold tupd. destruct (tget i s); [|done]. intros [= <-]. cbn. by rewrite length_insert.
Qed.

Lemma head_of_tupd l i f s s' : tupd i f s = Some s' → head_of l s' = head_of l s.
Proof. intros E. apply tupd_rest in E as (_ & E & _). unfold head_of. by rewrite E. Qed.

Lemma rest_set_head l h s : rest (set_head l h s) = rest s.
Proof. by destruct l. Qed.

Lemma tget_set_head l h s i : tget i (set_head l h s) = tget i s.
Proof. by destruct l. Qed.

Lemma head_of_set_head l l' h s :
  length (q_ready (s_q s)) = 5%nat → lst_ok l →
  head_of l' (set_head l h s) = if decide (l = l') then h else head_of l' s.
Proof.
  intros Hl Hok. destruct l as [p| |], l' as [p'| |]; cbn; try done.
  case_decide as Hd.
  - injection Hd as ->. rewrite list_lookup_insert_eq; [done|]. rewrite Hl. exact Hok.
  - rewrite list_lookup_insert_ne; [done|congruence].
Qed.

Lemma rdy_set_head l h s : length (q_ready (s_q (set_head l h s))) = length (q_ready (s_q s)).
Proof. destruct l; cbn; [apply length_insert|done|done]. Qed.

Lemma nx_pv_tupd i f s s' j :
  tupd i f s = Some s' →
  nx s' j = (if decide (i = j) then t ← tget i s; t_next (f t) else nx s j) ∧
  pv s' j = (if decide (i = j) then t ← tget i s; t_prev (f t) else pv s j).
Proof.
  intros E. unfold nx, pv. rewrite (tget_tupd _ _ _ _ _ E). case_decide; [|done].
  by destruct (tget i s).
Qed.

(** Changing the payload of a block leaves the lists alone. *)
Lemma rep_tupd i f s s' L :
  rep s L → tupd i f s = Some s' → (∀ t, t_next (f t) = t_next t ∧ t_prev (f t) = t_prev t) →
  rep s' L.
Proof.
  intros Hr E Hf. pose proof (tupd_rest _ _ _ _ E) as (_ & Eq & El).
  destruct Hr as [R1 R2 R3 R4 R5 R6]. split; try done; [congruence|congruence|].
  intros l. rewrite (head_of_tupd _ _ _ _ _ E). eapply dlist_ext; [|apply R3].
  intros j _. destruct (nx_pv_tupd _ _ _ _ j E) as [-> ->]. unfold nx, pv.
  case_decide as Hd; [subst j|done]. destruct (tget i s) as [t|]; [|done]. apply Hf.
Qed.

(** Same lists, same heads: only the tasks' slots matter. *)
Lemma rep_scalar s s' L :
  rep s L → s_tasks s' = s_tasks s → s_q s' = s_q s → rep s' L.
Proof.
  intros [R1 R2 R3 R4 R5 R6] Et Eq. split; try done; [congruence|congruence|].
  intros l. unfold head_of. rewrite Eq. eapply dlist_ext; [|apply R3].
  intros j _. unfold nx, pv, tget. by rewrite Et.
Qed.

Lemma same_tupd_links i f s s' :
  tupd i f s = Some s' → (∀ t, data (f t) = data t) → same s s'.
Proof.
  intros E Hf. split; [|by apply tupd_rest in E as [? _]]. intros j.
  rewrite (tget_tupd _ _ _ _ _ E). case_decide as Hd; [subst j|done].
  destruct (tget i s); [|done]. cbn. by rewrite Hf.
Qed.

Lemma same_set_head l h s : same s (set_head l h s).
Proof. split; [|apply rest_set_head]. intros j. by rewrite tget_set_head. Qed.

Lemma head_elem_of {A} (l : list A) x : head l = Some x → x ∈ l.
Proof. destruct l; [done|]. intros [= ->]. left. Qed.

(** ** Adding and removing *)

(** One list changes to [X]; the nodes of the others keep their links. *)
Lemma rep_update l X s s' L :
  rep s L → length (s_tasks s') = MAX_TASKS → length (q_ready (s_q s')) = 5%nat →
  dlist (nx s') (pv s') None (head_of l s') X → NoDup X →
  (∀ y, y ∈ X → (y < MAX_TASKS)%nat ∧ ∀ l', l' ≠ l → y ∉ L l') →
  (∀ l', l' ≠ l → head_of l' s' = head_of l' s) →
  (∀ l' y, l' ≠ l → y ∈ L l' → nx s' y = nx s y ∧ pv s' y = pv s y) →
  rep s' (<[l := X]> L).
Proof.
  intros [R1 R2 R3 R4 R5 R6] Hlen Hrdy Hd Hnd HX Hh Hlk.
  assert (∀ l', <[l := X]> L l' = if decide (l = l') then X else L l') as Hup.
  { intros l'. case_decide as Hd'; [subst; by rewrite fn_lookup_insert|].
    by rewrite fn_lookup_insert_ne. }
  split; try done.
  - intros l'. rewrite Hup. case_decide as Hl; [by subst|]. rewrite Hh by done.
    eapply dlist_ext; [|apply R3]. intros y Hy. by apply (Hlk l').
  - intros l'. rewrite Hup. by case_decide.
  - intros l' y. rewrite Hup. case_decide; [apply HX|apply R5].
  - intros l1 l2 y. rewrite !Hup. do 2 case_decide; intros Hy1 Hy2; subst; try done.
    + by destruct (proj2 (HX y Hy1) l2).
    + by destruct (proj2 (HX y Hy2) l1).
    + by eapply R6.
Qed.

(** The links after an addition. *)
Lemma task_list_add_links l i s L :
  rep s L → (i < MAX_TASKS)%nat → (∀ l', i ∉ L l') →
  ∃ s2, task_list_add l i s = Some (set_head l (Some i) s2) ∧ same s s2 ∧ s_q s2 = s_q s ∧
    length (s_tasks s2) = MAX_TASKS ∧ nx s2 i = head_of l s ∧ pv s2 i = None ∧
    (∀ j, j ≠ i → nx s2 j = nx s j) ∧
    (∀ j, j ≠ i → pv s2 j = if decide (head_of l s = Some j) then Some i else pv s j).
Proof.
  intros [R1 R2 R3 R4 R5 R6] Hi Hni.
  assert (is_Some (tget i s)) as [ti Ei] by (apply lookup_lt_is_Some; lia).
  unfold task_list_add.
  destruct (tupd_some i (with_links (head_of l s) None) s) as [s1 E1]; [by rewrite Ei|].
  rewrite E1. cbn [mbind option_bind]. rewrite (head_of_tupd _ _ _ _ _ E1).
  pose proof (tupd_rest _ _ _ _ E1) as (_ & Q1 & L1).
  assert (same s s1) as S1 by (eapply same_tupd_links; [exact E1|done]).
  pose proof (λ j, nx_pv_tupd _ _ _ _ j E1) as N1. rewrite Ei in N1. cbn in N1.
  destruct (head_of l s) as [h|] eqn:Eh.
  - assert (h ∈ L l) as Hh
      by (apply head_elem_of; by rewrite <- (dlist_head _ _ _ _ _ (R3 l))).
    assert (h ≠ i) by (intros ->; by apply (Hni l)).
    assert (is_Some (tget h s)) as [th Eth] by (apply lookup_lt_is_Some; apply R5 in Hh; lia).
    assert (tget h s1 = Some th) as Eth1.
    { rewrite (tget_tupd _ _ _ _ _ E1). by rewrite decide_False. }
    destruct (tupd_some h (with_prev (Some i)) s1) as [s2 E2]; [by rewrite Eth1|].
    pose proof (λ j, nx_pv_tupd _ _ _ _ j E2) as N2. rewrite Eth1 in N2. cbn in N2.
    pose proof (tupd_rest _ _ _ _ E2) as (_ & Q2 & L2).
    exists s2. rewrite E2. split; [done|]. split.
    { eapply same_trans; [exact S1|]. eapply same_tupd_links; [exact E2|done]. }
    destruct (N2 i) as [A1 A2], (N1 i) as [A3 A4].
    rewrite decide_False in A1, A2 by done. rewrite decide_True in A3, A4 by done.
    split_and!; try congruence; intros j Hj; destruct (N2 j) as [B1 B2], (N1 j) as [B3 B4];
      rewrite decide_False in B3, B4 by done.
    + rewrite B1, B3. case_decide; [subst|done]. unfold nx. by rewrite Eth.
    + rewrite B2, B4. do 2 case_decide; congruence.
  - exists s1. destruct (N1 i) as [A3 A4]. rewrite decide_True in A3, A4 by done.
    split_and!; try done; try congruence; intros j Hj; destruct (N1 j) as [B3 B4];
      rewrite decide_False in B3, B4 by done; [done|by rewrite decide_False].
Qed.

Lemma task_list_add_rep l i s L :
  rep s L → lst_ok l → (i < MAX_TASKS)%nat → (∀ l', i ∉ L l') →
  ∃ s', task_list_add l i s = Some s' ∧ rep s' (<[l := i :: L l]> L) ∧ same s s'.
Proof.
  intros Hr Hok Hi Hni.
  destruct (task_list_add_links l i s L) as (s2 & E & Hsm & Hq & Hlen & N1 & N2 & N3 & N4);
    [done..|].
  pose proof (rep_dll _ _ Hr l) as Hl. pose proof (rep_rdy _ _ Hr) as H5.
  assert (∀ j, nx (set_head l (Some i) s2) j = nx s2 j ∧ pv (set_head l (Some i) s2) j = pv s2 j)
    as Hsh by (intros j; unfold nx, pv; by rewrite tget_set_head).
  eexists. split; [exact E|]. split.
  2:{ eapply same_trans; [exact Hsm|apply same_set_head]. }
  eapply rep_update; [exact Hr|by destruct l|rewrite rdy_set_head; congruence| | | | |].
  - rewrite head_of_set_head, decide_True by (done || congruence).
    eapply dlist_push; [exact Hl|done|apply Hr| | | |].
    + by rewrite (proj1 (Hsh i)).
    + by rewrite (proj2 (Hsh i)).
    + intros y Hy. rewrite (proj1 (Hsh y)). apply N3. intros ->. by apply (Hni l).
    + intros y Hy. rewrite (proj2 (Hsh y)). apply N4. intros ->. by apply (Hni l).
  - apply NoDup_cons_2; [done|apply Hr].
  - intros y [->|Hy]%elem_of_cons; [by split|]. split; [by eapply Hr|].
    intros l' Hl' Hy'. apply Hl'. by eapply (rep_disj _ _ Hr).
  - intros l' Hl'. rewrite head_of_set_head, decide_False by (done || congruence).
    unfold head_of. by rewrite Hq.
  - intros l' y Hl' Hy. destruct (Hsh y) as [-> ->].
    assert (y ≠ i) by (intros ->; by apply (Hni l')).
    split; [by apply N3|]. rewrite N4 by done. rewrite decide_False; [done|].
    intros Eh. apply Hl'. apply (rep_disj _ _ Hr l' l y); [done|].
    apply head_elem_of. by rewrite <- (dlist_head _ _ _ _ _ Hl).
Qed.

(** The links after a removal. *)
Lemma task_list_remove_links l i s L :
  rep s L → lst_ok l → i ∈ L l →
  ∃ s', task_list_remove l i s = Some s' ∧ same s s' ∧
    length (s_tasks s') = MAX_TASKS ∧ length (q_ready (s_q s')) = 5%nat ∧
    (∀ l', head_of l' s' = if decide (l = l')
       then match pv s i with Some _ => head_of l s | None => nx s i end else head_of l' s) ∧
    (∀ j, j ≠ i → nx s' j = if decide (pv s i = Some j) then nx s i else nx s j) ∧
    (∀ j, j ≠ i → pv s' j = if decide (nx s i = Some j) then pv s i else pv s j).
Proof.
  intros Hr Hok Hi. pose proof Hr as [R1 R2 R3 R4 R5 R6].
  destruct (tget_lt _ _ i Hr) as [ti Ei]; [by eapply R5|].
  assert (t_next ti = nx s i ∧ t_prev ti = pv s i) as [En Ep]
    by (unfold nx, pv; by rewrite Ei).
  assert (∀ y, nx s i = Some y ∨ pv s i = Some y → y ∈ L l) as Hcl
    by (intros y Hy; by eapply (dlist_closed _ _ _ _ i)).
  assert (nx s i ≠ Some i ∧ pv s i ≠ Some i) as [Hni Hpi].
  { pose proof (R4 l) as Hnd. pose proof (R3 l) as Hl.
    apply list_elem_of_split in Hi as (l1 & l2 & El). rewrite El in Hl, Hnd.
    apply dlist_mid in Hl as [Hp Hn]. rewrite Hn, Hp.
    apply NoDup_app in Hnd as (Hnd1 & Hdj & Hnd2). apply NoDup_cons in Hnd2 as [Hnd2 _].
    split.
    - intros ?%head_elem_of. done.
    - destruct (last l1) as [z|] eqn:Ez; [|done]. intros [= ->].
      apply last_Some in Ez as [l' ->]. apply (Hdj i); set_solver. }
  unfold task_list_remove. rewrite Ei. cbn [mbind option_bind]. rewrite En, Ep.
  assert (∃ s1, match pv s i with Some p => tupd p (with_next (nx s i)) s
                | None => Some (set_head l (nx s i) s) end = Some s1 ∧ same s s1 ∧
     length (s_tasks s1) = MAX_TASKS ∧ length (q_ready (s_q s1)) = 5%nat ∧
     (∀ l', head_of l' s1 = if decide (l = l')
       then match pv s i with Some _ => head_of l s | None => nx s i end else head_of l' s) ∧
     (∀ j, nx s1 j = if decide (pv s i = Some j) then nx s i else nx s j) ∧
     (∀ j, pv s1 j = pv s j)) as (s1 & E1 & S1 & L1 & Q1 & H1 & N1 & P1).
  { destruct (pv s i) as [p|] eqn:E.
    - destruct (tget_lt _ _ p Hr) as [tp Etp]; [eapply R5, Hcl; by right|].
      destruct (tupd_some p (with_next (nx s i)) s) as [s1 E1]; [by rewrite Etp|].
      pose proof (tupd_rest _ _ _ _ E1) as (_ & Q1 & L1).
      exists s1. split_and!; [done|by eapply same_tupd_links|congruence|congruence| | |].
      + intros l'. rewrite (head_of_tupd _ _ _ _ _ E1). case_decide; congruence.
      + intros j. destruct (nx_pv_tupd _ _ _ _ j E1) as [-> _]. rewrite Etp. cbn.
        repeat case_decide; congruence.
      + intros j. destruct (nx_pv_tupd _ _ _ _ j E1) as [_ ->]. rewrite Etp. cbn.
        case_decide; [subst j|done]. unfold pv. by rewrite Etp.
    - exists (set_head l (nx s i) s). split_and!; [done|apply same_set_head|by destruct l|
        by rewrite rdy_set_head| | |].
      + intros l'. by rewrite head_of_set_head.
      + intros j. unfold nx. by rewrite tget_set_head.
      + intros j. unfold pv. by rewrite tget_set_head. }
  rewrite E1. cbn [mbind option_bind].
  assert (∀ j, is_Some (tget j s) → is_Some (tget j s1)) as Hget.
  { intros j ?. apply lookup_lt_is_Some. rewrite L1, <- R1. by apply lookup_lt_is_Some. }
  assert (∃ s2, match nx s i with Some n => tupd n (with_prev (pv s i)) s1
                | None => Some s1 end = Some s2 ∧ same s1 s2 ∧
     length (s_tasks s2) = MAX_TASKS ∧ s_q s2 = s_q s1 ∧
     (∀ j, nx s2 j = nx s1 j) ∧
     (∀ j, pv s2 j = if decide (nx s i = Some j) then pv s i else pv s1 j))
    as (s2 & E2 & S2 & L2 & Q2 & N2 & P2).
  { destruct (nx s i) as [n|] eqn:E.
    - destruct (Hget n) as [tn Etn]; [eapply tget_lt; [done|]; eapply R5, Hcl; by left|].
      destruct (tupd_some n (with_prev (pv s i)) s1) as [s2 E2]; [by rewrite Etn|].
      pose proof (tupd_rest _ _ _ _ E2) as (_ & Q2 & L2).
      exists s2. split_and!; [done|by eapply same_tupd_links|congruence|congruence| |].
      + intros j. destruct (nx_pv_tupd _ _ _ _ j E2) as [-> _]. rewrite Etn. cbn.
        case_decide; [subst j|done]. unfold nx. by rewrite Etn.
      + intros j. destruct (nx_pv_tupd _ _ _ _ j E2) as [_ ->]. rewrite Etn. cbn.
        repeat case_decide; congruence.
    - exists s1. split_and!; try done. }
  rewrite E2. cbn [mbind option_bind].
  destruct (tupd_some i (with_links None None) s2) as [s3 E3].
  { apply lookup_lt_is_Some. rewrite L2. by eapply R5. }
  pose proof (tupd_rest _ _ _ _ E3) as (_ & Q3 & L3).
  exists s3. split_and!; [done| |congruence|congruence| | |].
  - eapply same_trans; [exact S1|]. eapply same_trans; [exact S2|by eapply same_tupd_links].
  - intros l'. rewrite (head_of_tupd _ _ _ _ _ E3). unfold head_of at 1. rewrite Q2. apply H1.
  - intros j Hj. destruct (nx_pv_tupd _ _ _ _ j E3) as [-> _].
    rewrite decide_False by done. by rewrite N2, N1.
  - intros j Hj. destruct (nx_pv_tupd _ _ _ _ j E3) as [_ ->].
    rewrite decide_False by done. by rewrite P2, P1.
Qed.

Lemma filter_all {A} (P : A → Prop) `{∀ x, Decision (P x)} (l : list A) :
  (∀ x, x ∈ l → P x) → filter P l = l.
Proof.
  induction l as [|x l IH]; intros HP; [done|]. rewrite filter_cons_True by (apply HP; left).
  by rewrite IH by (intros y Hy; apply HP; by right).
Qed.

Definition remove1 (i : nat) (l : list nat) : list nat := filter (λ j, j ≠ i) l.

Lemma remove1_split i l1 l2 :
  NoDup (l1 ++ i :: l2) → remove1 i (l1 ++ i :: l2) = l1 ++ l2.
Proof.
  intros (Hnd1 & Hdj & Hnd2)%NoDup_app. apply NoDup_cons in Hnd2 as [Hi _].
  unfold remove1. rewrite filter_app, filter_cons_False by (intros ?; done).
  rewrite !filter_all; [done| |]; intros j Hj ->; [done|].
  apply (Hdj i); set_solver.
Qed.

Lemma task_list_remove_rep l i s L :
  rep s L → lst_ok l → i ∈ L l →
  ∃ s', task_list_remove l i s = Some s' ∧ rep s' (<[l := remove1 i (L l)]> L) ∧ same s s'.
Proof.
  intros Hr Hok Hi.
  destruct (task_list_remove_links l i s L) as (s' & E & Hsm & Hlen & H5 & Hh & N & P); [done..|].
  exists s'. split; [done|]. split; [|done].
  pose proof (rep_dll _ _ Hr l) as Hl. pose proof (rep_nd _ _ Hr l) as Hnd.
  assert (∀ y, nx s i = Some y ∨ pv s i = Some y → y ∈ L l) as Hcl
    by (intros y Hy; by eapply (dlist_closed _ _ _ _ i)).
  eapply rep_update; [exact Hr|done|done| | | | |].
  - apply list_elem_of_split in Hi as (l1 & l2 & El). rewrite El in *.
    rewrite remove1_split by done. rewrite Hh, decide_True by done.
    apply NoDup_app in Hnd as Hnd'. destruct Hnd' as (_ & Hdj & Hnd2).
    apply NoDup_cons in Hnd2 as [Hi2 _].
    assert (∀ y, y ∈ l1 ++ l2 → y ≠ i).
    { intros y [Hy|Hy]%elem_of_app ->; [|done]. apply (Hdj i); set_solver. }
    eapply dlist_remove; [exact Hl|exact Hnd| |].
    + intros y Hy. apply N. auto.
    + intros y Hy. apply P. auto.
  - by apply NoDup_filter.
  - intros y [_ Hy]%list_elem_of_filter. split; [by eapply Hr|].
    intros l' Hl' Hy'. apply Hl'. by eapply (rep_disj _ _ Hr).
  - intros l' Hl'. rewrite Hh. by rewrite decide_False.
  - intros l' y Hl' Hy.
    assert (y ∉ L l) as Hyl by (intros ?; apply Hl'; by eapply (rep_disj _ _ Hr)).
    assert (y ≠ i) by (intros ->; done).
    rewrite N, P by done. rewrite !decide_False; [done| |]; intros ?; apply Hyl, Hcl; auto.
Qed.
End Rep.
