(* ===== verification/SchedulerSpec.v ===== *)
(** * What the scheduler guarantees

    [placed m s L cur]: every slot is in exactly one place that fits its state -
    ready with its priority, blocked, free, or off the lists (running, suspended or
    terminated).  Each operation is given as a transformation of the lists [L] and
    of one control block. *)

From Stdlib Require Import ZArith Lia.
From stdpp Require Import base tactics option numbers sets functions list.
From S2P Require Import Prelude.
From S2P Require Import Dll.
From S2P Require Import Power.
From S2P Require Import PowerGovernor.
From S2P Require Import Scheduler.
From S2P Require Import SchedulerRep.

Section Spec.
Context {G : Type} `{Governor G}.
Implicit Types (s : scheduler_t G) (L : lst → list nat) (i j m c : nat) (t : task_tcb_t).

Definition tv s i : option task_tcb_t := data <$> tget i s.
Definition off L i : Prop := ∀ l, i ∉ L l.

Definition on_ok (l : lst) (t : task_tcb_t) : Prop :=
  match l with
  | LReady p => t_state t = TASK_STATE_READY ∧ t_priority t = p ∧ is_Some (t_ctx t)
  | LBlocked => t_state t = TASK_STATE_BLOCKED ∧ is_Some (t_ctx t)
  | LFree => t_state t = TASK_STATE_READY ∨ t_state t = TASK_STATE_TERMINATED
  end.

Definition off_ok m (cur : option nat) i (t : task_tcb_t) : Prop :=
  match t_state t with
  | TASK_STATE_RUNNING => i = m ∨ cur = Some i
  | TASK_STATE_SUSPENDED => is_Some (t_ctx t) ∧ i ≠ m ∧ cur ≠ Some i
  | TASK_STATE_TERMINATED => i ≠ m ∧ cur ≠ Some i
  | _ => False
  end.

Definition tcb_ok (t : task_tcb_t) : Prop := (t_priority t < 5)%nat ∧ is_u32 (t_wake_time t).

Record placed m s L (cur : option nat) : Prop := {
  pl_rep : rep s L;
  pl_on : ∀ l i t, i ∈ L l → tv s i = Some t → on_ok l t;
  pl_off : ∀ i t, off L i → tv s i = Some t → off_ok m cur i t;
  pl_main : off L m ∧ (m < MAX_TASKS)%nat;
  pl_cur : ∀ c, cur = Some c → off L c ∧ (c < MAX_TASKS)%nat;
  pl_tcb : ∀ i t, tv s i = Some t → tcb_ok t
}.

(** ** Generic steps *)

Lemma tv_some s L i : rep s L → (i < MAX_TASKS)%nat → ∃ t, tv s i = Some t.
Proof. intros Hr Hi. destruct (tget_lt s L i Hr Hi) as [t E]. unfold tv. rewrite E. by eexists. Qed.

Lemma tv_tget s i t : tv s i = Some t →
  ∃ t0, tget i s = Some t0 ∧ t = data t0 ∧ t_state t0 = t_state t ∧
    t_priority t0 = t_priority t ∧ t_ctx t0 = t_ctx t ∧ t_wake_time t0 = t_wake_time t ∧
    t_power_demand t0 = t_power_demand t ∧ t_entry t0 = t_entry t.
Proof. unfold tv. destruct (tget i s) as [t0|]; [|done]. intros [= <-]. by exists t0. Qed.

(** [f] does not look at or touch the links. *)
Definition payload (f : task_tcb_t → task_tcb_t) : Prop :=
  ∀ n p t, f (with_links n p t) = with_links n p (f t).

Lemma payload_links f t : payload f → t_next (f t) = t_next t ∧ t_prev (f t) = t_prev t.
Proof.
  intros Hf. assert (t = with_links (t_next t) (t_prev t) t) as E by (by destruct t).
  split; rewrite E at 1; by rewrite Hf.
Qed.

Lemma tupd_step i f s L t :
  rep s L → tv s i = Some t → payload f →
  ∃ s', tupd i f s = Some s' ∧ rep s' L ∧ rest s' = rest s ∧
    ∀ j, tv s' j = if decide (i = j) then Some (f t) else tv s j.
Proof.
  intros Hr Ht Hf. apply tv_tget in Ht as (t0 & E & -> & _).
  destruct (tupd_some i f s) as [s' E']; [by rewrite E|].
  exists s'. split; [done|]. split.
  { eapply rep_tupd; [done|exact E'|]. intros. by apply payload_links. }
  split; [by apply tupd_rest in E' as [? _]|]. intros j. unfold tv.
  rewrite (tget_tupd _ _ _ _ _ E'). case_decide; [|done]. rewrite E. cbn.
  unfold data. by rewrite Hf.
Qed.

Lemma list_step_tv s s' : same s s' → (∀ j, tv s' j = tv s j) ∧ rest s' = rest s.
Proof. done. Qed.

(** Slot [i] goes from one place to another. *)
Lemma placed_step m s L cur s' L' cur' i t' :
  placed m s L cur → rep s' L' →
  (∀ l j, j ≠ i → j ∈ L' l ↔ j ∈ L l) →
  (∀ j, tv s' j = if decide (i = j) then Some t' else tv s j) →
  tcb_ok t' →
  (∀ l, i ∈ L' l → on_ok l t') → (off L' i → off_ok m cur' i t') →
  (cur' = cur ∨ (cur = Some i ∧ cur' = None) ∨ (cur = None ∧ cur' = Some i)) →
  (i = m ∨ cur' = Some i → off L' i ∧ (i < MAX_TASKS)%nat) →
  placed m s' L' cur'.
Proof.
  intros [P1 P2 P3 P4 P5 P6] Hr HL Htv Ht Hon Hoff Hc Hmc.
  assert (∀ j, j ≠ i → off L' j ↔ off L j) as HLo.
  { intros j Hj. unfold off. split; intros Ho l Hl; apply (Ho l); by apply HL. }
  split; [done| | | | |].
  - intros l j t Hj. rewrite Htv. case_decide as Hd; [subst j; intros [= <-]; by apply Hon|].
    apply P2. apply HL; done.
  - intros j t Hj. rewrite Htv. case_decide as Hd; [subst j; intros [= <-]; by apply Hoff|].
    intros E. apply HLo in Hj; [|done]. specialize (P3 j t Hj E). unfold off_ok in *.
    destruct (t_state t); naive_solver.
  - destruct (decide (m = i)) as [->|Hm]; [apply Hmc; by left|]. split; [|apply P4].
    by apply HLo, P4.
  - intros c Ec. destruct (decide (c = i)) as [->|Hm]; [apply Hmc; by right|].
    destruct (P5 c) as [? ?]; [naive_solver|]. split; [by apply HLo|done].
  - intros j t. rewrite Htv. case_decide; [intros [= <-]; done|apply P6].
Qed.

Lemma elem_fn_insert_ne L l X i j :
  (j ∈ X ↔ j ∈ L l) → ∀ l', j ∈ <[l := X]> L l' ↔ j ∈ L l'.
Proof.
  intros HX l'. destruct (decide (l = l')) as [<-|Hne].
  - by rewrite fn_lookup_insert.
  - by rewrite fn_lookup_insert_ne.
Qed.

Lemma elem_add L l i j : j ≠ i → ∀ l', j ∈ <[l := i :: L l]> L l' ↔ j ∈ L l'.
Proof. intros Hj. apply elem_fn_insert_ne; [exact i|]. rewrite elem_of_cons. naive_solver. Qed.

Lemma elem_remove1 i j l : j ∈ remove1 i l ↔ j ≠ i ∧ j ∈ l.
Proof. unfold remove1. by rewrite list_elem_of_filter. Qed.

Lemma remove1_absent i l : i ∉ l → remove1 i l = l.
Proof. intros Hi. apply filter_all. by intros j Hj ->. Qed.

Lemma elem_remove L l i j : j ≠ i → ∀ l', j ∈ <[l := remove1 i (L l)]> L l' ↔ j ∈ L l'.
Proof. intros Hj. apply elem_fn_insert_ne; [exact i|]. rewrite elem_remove1. naive_solver. Qed.

Lemma add_place L l i l' : off L i → i ∈ <[l := i :: L l]> L l' → l' = l.
Proof.
  intros Ho. destruct (decide (l = l')) as [<-|Hne]; [done|].
  rewrite fn_lookup_insert_ne by done. intros ?. by destruct (Ho l').
Qed.

Lemma add_not_off L l i : ¬ off (<[l := i :: L l]> L) i.
Proof. intros Ho. apply (Ho l). rewrite fn_lookup_insert. left. Qed.

Lemma remove_off s L l i : rep s L → i ∈ L l → off (<[l := remove1 i (L l)]> L) i.
Proof.
  intros Hr Hi l'. destruct (decide (l = l')) as [<-|Hne].
  - rewrite fn_lookup_insert, elem_remove1. naive_solver.
  - rewrite fn_lookup_insert_ne by done. intros Hi'. by destruct (rep_disj _ _ Hr l l' i).
Qed.

(** ** The pieces of the operations *)

Lemma task_add_to_ready_spec i s L t :
  rep s L → off L i → tv s i = Some t → (t_priority t < 5)%nat →
  ∃ s', task_add_to_ready i s = Some s' ∧
    rep s' (<[LReady (t_priority t) := i :: L (LReady (t_priority t))]> L) ∧ rest s' = rest s ∧
    ∀ j, tv s' j = if decide (i = j) then Some (with_state TASK_STATE_READY t) else tv s j.
Proof.
  intros Hr Ho Ht Hp. assert (i < MAX_TASKS)%nat as Hi.
  { apply tv_tget in Ht as (t0 & E & _). rewrite <- (rep_len _ _ Hr). by eapply lookup_lt_Some. }
  pose proof Ht as Ht'. apply tv_tget in Ht' as (t0 & E & -> & _ & Ep & _).
  unfold task_add_to_ready. rewrite E. cbn [mbind option_bind]. rewrite Ep.
  destruct (task_list_add_rep (LReady (t_priority (data t0))) i s L) as (s1 & E1 & R1 & S1);
    [done|exact Hp|done|done|].
  rewrite E1. cbn [mbind option_bind]. destruct (list_step_tv _ _ S1) as [V1 Q1].
  destruct (tupd_step i (with_state TASK_STATE_READY) s1 _ (data t0) R1) as (s2 & E2 & R2 & Q2 & V2);
    [by rewrite V1|done|].
  exists s2. split; [done|]. split; [done|]. split; [congruence|].
  intros j. rewrite V2. case_decide; [done|]. by rewrite V1.
Qed.

Lemma rest_current s s' (c : option nat) : rest s' = rest s → rest (set_current c s') = rest (set_current c s).
Proof. intros E. change (set_current c (rest s') = set_current c (rest s)). by rewrite E. Qed.

Lemma tv_scalar s s' : s_tasks s' = s_tasks s → ∀ j, tv s' j = tv s j.
Proof. intros E j. unfold tv, tget. by rewrite E. Qed.

Lemma context_switch_spec n m s L t :
  rep s L → s_main s = Some m → n ≠ m → tv s n = Some t → (t_priority t < 5)%nat →
  n ∈ L (LReady (t_priority t)) →
  ∃ s', context_switch n s = Some (JumpTask n, s') ∧
    rep s' (<[LReady (t_priority t) := remove1 n (L (LReady (t_priority t)))]> L) ∧
    rest s' = rest (set_current (Some n) s) ∧
    ∀ j, tv s' j = if decide (n = j) then Some (with_state TASK_STATE_RUNNING t) else tv s j.
Proof.
  intros Hr Hm Hn Ht Hp Hin. pose proof Ht as Ht'.
  apply tv_tget in Ht' as (t0 & E & -> & _ & Ep & _).
  unfold context_switch. rewrite Hm, decide_False by congruence. rewrite E.
  cbn [mbind option_bind]. rewrite Ep.
  destruct (task_list_remove_rep (LReady (t_priority (data t0))) n s L) as (s1 & E1 & R1 & S1);
    [done|exact Hp|done|].
  rewrite E1. cbn [mbind option_bind]. destruct (list_step_tv _ _ S1) as [V1 Q1].
  pose proof (rep_scalar s1 (set_current (Some n) s1) _ R1 eq_refl eq_refl) as R1'.
  destruct (tupd_step n (with_state TASK_STATE_RUNNING) (set_current (Some n) s1) _ (data t0) R1')
    as (s2 & E2 & R2 & Q2 & V2); [by rewrite (tv_scalar s1), V1|done|].
  rewrite E2. exists s2. split; [done|]. split; [done|]. split.
  - rewrite Q2. by apply rest_current.
  - intros j. rewrite V2. case_decide; [done|]. by rewrite (tv_scalar s1), V1.
Qed.

Lemma switch_to_main_spec m s L t :
  rep s L → s_main s = Some m → tv s m = Some t →
  ∃ s', switch_to_main s = Some (if s_caller s then JumpCaller else Ret 0, s') ∧ rep s' L ∧
    rest s' = rest (set_last None (set_current (Some m) s)) ∧
    ∀ j, tv s' j = if decide (m = j) then Some (with_state TASK_STATE_RUNNING t) else tv s j.
Proof.
  intros Hr Hm Ht. unfold switch_to_main. cbn [s_main set_current]. rewrite Hm.
  cbn [mbind option_bind].
  destruct (tupd_step m (with_state TASK_STATE_RUNNING) (set_current (Some m) s) L t)
    as (s2 & E2 & R2 & Q2 & V2); [by eapply rep_scalar|by rewrite (tv_scalar s)|done|].
  rewrite E2. cbn [mbind option_bind].
  assert (s_caller (set_last None s2) = s_caller s) as Ec.
  { change (s_caller (set_last None (rest s2)) = s_caller s). by rewrite Q2. }
  rewrite Ec. eexists. split; [done|]. split; [by eapply rep_scalar|]. split.
  - change (set_last None (rest s2) = set_last None (rest (set_current (Some m) s))). by rewrite Q2.
  - intros j. by rewrite (tv_scalar s2), V2, (tv_scalar s (set_current (Some m) s)).
Qed.

(** ** Which task runs *)

(** The ready tasks above IDLE, in the order the scheduler prefers them. *)
Definition ready_tasks L : list nat :=
  L (LReady 4) ++ L (LReady 3) ++ L (LReady 2) ++ L (LReady 1).
Definition pick L : option nat := head (ready_tasks L).

Lemma highest_eq s L : rep s L → task_get_highest_ready s = head (ready_tasks L ++ L (LReady 0)).
Proof.
  intros Hr. unfold task_get_highest_ready, ready_tasks.
  assert (∀ p, head_of (LReady p) s = head (L (LReady p))) as Hh
    by (intros p; eapply dlist_head, Hr).
  cbn [fmap list_fmap]. rewrite !Hh.
  destruct (L (LReady 4)), (L (LReady 3)), (L (LReady 2)), (L (LReady 1)), (L (LReady 0)); done.
Qed.

Lemma pick_ready L n : pick L = Some n →
  ∃ p, n ∈ L (LReady p) ∧ (1 <= p < 5)%nat ∧ ∀ q, (p < q < 5)%nat → L (LReady q) = [].
Proof.
  unfold pick, ready_tasks. intros Hh.
  destruct (L (LReady 4)) as [|x l] eqn:E4.
  2:{ cbn in Hh. injection Hh as ->. exists 4%nat. rewrite E4. split; [left|].
      split; [lia|]. intros q Hq. lia. }
  destruct (L (LReady 3)) as [|x l] eqn:E3.
  2:{ cbn in Hh. injection Hh as ->. exists 3%nat. rewrite E3. split; [left|].
      split; [lia|]. intros q Hq. by replace q with 4%nat by lia. }
  destruct (L (LReady 2)) as [|x l] eqn:E2.
  2:{ cbn in Hh. injection Hh as ->. exists 2%nat. rewrite E2. split; [left|].
      split; [lia|]. intros q Hq. assert (q = 3 ∨ q = 4)%nat as [-> | ->] by lia; done. }
  destruct (L (LReady 1)) as [|x l] eqn:E1; [done|].
  cbn in Hh. injection Hh as ->. exists 1%nat. rewrite E1. split; [left|].
  split; [lia|]. intros q Hq. assert (q = 2 ∨ q = 3 ∨ q = 4)%nat as [-> | [-> | ->]] by lia; done.
Qed.

Lemma pick_spec m s L cur n :
  placed m s L cur → pick L = Some n →
  ∃ t, tv s n = Some t ∧ n ∈ L (LReady (t_priority t)) ∧ (1 <= t_priority t < 5)%nat ∧ n ≠ m ∧
    ∀ q, (t_priority t < q < 5)%nat → L (LReady q) = [].
Proof.
  intros Hpl (p & Hin & Hp & Hmax)%pick_ready.
  destruct (tv_some s L n (pl_rep _ _ _ _ Hpl)) as [t Ht].
  { by eapply (rep_lt _ _ (pl_rep _ _ _ _ Hpl)). }
  destruct (pl_on _ _ _ _ Hpl _ _ _ Hin Ht) as (_ & <- & _).
  exists t. split_and!; try done; try lia. intros ->.
  by destruct (proj1 (pl_main _ _ _ _ Hpl) (LReady (t_priority t))).
Qed.

(** [task_get_highest_ready] and the test for IDLE, together. *)
Lemma runnable_pick m s L cur :
  placed m s L cur →
  match pick L with
  | Some n => task_get_highest_ready s = Some n ∧ runnable (Some n) s = Some true
  | None => runnable (task_get_highest_ready s) s = Some false
  end.
Proof.
  intros Hpl. pose proof (pl_rep _ _ _ _ Hpl) as Hr. rewrite (highest_eq _ _ Hr).
  destruct (pick L) as [n|] eqn:Ep.
  - destruct (pick_spec _ _ _ _ _ Hpl Ep) as (t & Ht & _ & Hp & _).
    unfold pick in Ep. destruct (ready_tasks L); [done|]. split; [exact Ep|].
    apply tv_tget in Ht as (t0 & E & _ & _ & Ept & _). unfold runnable. rewrite E.
    cbn [mbind option_bind]. f_equal. rewrite Ept. unfold TASK_PRIO_IDLE.
    by rewrite (proj2 (Nat.eqb_neq _ _)) by lia.
  - unfold pick in Ep. destruct (ready_tasks L); [|done]. cbn [app].
    destruct (L (LReady 0)) as [|n l] eqn:E0; [done|]. cbn [head runnable].
    destruct (tget_lt s L n Hr) as [t Ht]; [eapply (rep_lt _ _ Hr (LReady 0)); rewrite E0; left|].
    rewrite Ht. cbn [mbind option_bind].
    destruct (pl_on _ _ _ _ Hpl (LReady 0) n (data t)) as (_ & E & _);
      [rewrite E0; left|unfold tv; by rewrite Ht|].
    change (t_priority (data t)) with (t_priority t) in E. by rewrite E.
Qed.

(** ** The invariant *)

Record inv m s L : Prop := {
  inv_placed : placed m s L (s_current s);
  inv_main : s_main s = Some m;
  inv_running : is_Some (s_current s);
  inv_caller : s_current s ≠ Some m → s_caller s = true;
  inv_last : s_last s = None;
  inv_gov : gov_inv (s_gov s);
  inv_tick : is_u32 (s_tick s)
}.

(** The scalar part of a state decides all of [inv] but [placed]. *)
Lemma inv_intro m s s0 L :
  rest s = rest s0 → placed m s L (s_current s0) → s_main s0 = Some m → is_Some (s_current s0) →
  (s_current s0 ≠ Some m → s_caller s0 = true) → s_last s0 = None → gov_inv (s_gov s0) →
  is_u32 (s_tick s0) → inv m s L.
Proof.
  intros E. intros.
  split.
  - change (placed m s L (s_current (rest s))). by rewrite E.
  - change (s_main (rest s) = Some m). by rewrite E.
  - change (is_Some (s_current (rest s))). by rewrite E.
  - change (s_current (rest s) ≠ Some m → s_caller (rest s) = true). by rewrite E.
  - change (s_last (rest s) = None). by rewrite E.
  - change (gov_inv (s_gov (rest s))). by rewrite E.
  - change (is_u32 (s_tick (rest s))). by rewrite E.
Qed.

(** Control goes back to the main thread from a state with no current task. *)
Lemma to_main_inv m s L :
  placed m s L None → s_main s = Some m → s_caller s = true → gov_inv (s_gov s) →
  is_u32 (s_tick s) →
  ∃ s', switch_to_main s = Some (JumpCaller, s') ∧ inv m s' L ∧
    rest s' = rest (set_last None (set_current (Some m) s)) ∧ (∀ j, tv s' j = tv s j).
Proof.
  intros Hpl Hm Hc Hg Ht. destruct (pl_main _ _ _ _ Hpl) as [Hmo Hml].
  destruct (tv_some s L m (pl_rep _ _ _ _ Hpl) Hml) as [t Em].
  assert (with_state TASK_STATE_RUNNING t = t) as Est.
  { pose proof (pl_off _ _ _ _ Hpl _ _ Hmo Em) as Ho. unfold off_ok in Ho.
    destruct t as [? ? st]. cbn in *. destruct st; naive_solver. }
  destruct (switch_to_main_spec m s L t) as (s' & E & R & Q & V); [apply Hpl|done|done|].
  rewrite Hc in E. rewrite Est in V.
  assert (∀ j, tv s' j = tv s j) as V' by (intros j; rewrite V; case_decide; congruence).
  exists s'. split; [done|]. split; [|by split_and!].
  eapply inv_intro; [exact Q| |done|done|done|done|done|done].
  eapply (placed_step m s L None s' L (Some m) m t); try done.
  - by eapply (pl_tcb _ _ _ _ Hpl).
  - intros l Hl. by destruct (Hmo l).
  - intros _. pose proof (pl_off _ _ _ _ Hpl _ _ Hmo Em) as Ho. unfold off_ok in *.
    destruct (t_state t); naive_solver.
  - auto.
Qed.

(** Control goes to a ready task. *)
Lemma to_task_inv m s L n t :
  placed m s L None → s_main s = Some m → s_caller s = true → s_last s = None →
  gov_inv (s_gov s) → is_u32 (s_tick s) → tv s n = Some t → n ∈ L (LReady (t_priority t)) →
  ∃ s', is_Some (t_ctx t) ∧ context_switch n s = Some (JumpTask n, s') ∧
    inv m s' (<[LReady (t_priority t) := remove1 n (L (LReady (t_priority t)))]> L) ∧
    rest s' = rest (set_current (Some n) s) ∧
    ∀ j, tv s' j = if decide (n = j) then Some (with_state TASK_STATE_RUNNING t) else tv s j.
Proof.
  intros Hpl Hm Hc Hla Hg Ht En Hin.
  assert (n ≠ m) as Hnm.
  { intros ->. by destruct (proj1 (pl_main _ _ _ _ Hpl) (LReady (t_priority t))). }
  destruct (pl_on _ _ _ _ Hpl _ _ _ Hin En) as (_ & _ & Hctx).
  destruct (context_switch_spec n m s L t) as (s' & E & R & Q & V);
    [apply Hpl|done..|by eapply (pl_tcb _ _ _ _ Hpl)|done|].
  exists s'. split_and!; try done.
  eapply inv_intro; [exact Q| |done|done|done|done|done|done].
  pose proof (pl_rep _ _ _ _ Hpl) as Hr.
  assert (off (<[LReady (t_priority t) := remove1 n (L (LReady (t_priority t)))]> L) n) as Ho
    by by eapply remove_off.
  eapply (placed_step m s L None s' _ (Some n) n (with_state TASK_STATE_RUNNING t)); try done.
  - intros l j Hj. by apply elem_remove.
  - exact (pl_tcb _ _ _ _ Hpl _ _ En).
  - intros l Hl. by destruct (Ho l).
  - intros _. by right.
  - auto.
  - intros _. split; [done|]. by eapply (rep_lt _ _ Hr).
Qed.

Lemma placed_scalar m s s' L cur :
  s_tasks s' = s_tasks s → s_q s' = s_q s → placed m s L cur → placed m s' L cur.
Proof.
  intros Et Eq [P1 P2 P3 P4 P5 P6]. pose proof (tv_scalar s s' Et) as V. split; try done.
  - by eapply rep_scalar.
  - intros l i t. rewrite V. apply P2.
  - intros i t. rewrite V. apply P3.
  - intros i t. rewrite V. apply P6.
Qed.

Lemma inv_isr m s L b n : inv m s L → inv m (set_isr b n s) L.
Proof. intros []. split; try done. by eapply placed_scalar; [..|eassumption]. Qed.

Lemma inv_lock m s L : inv m s L → inv m (scheduler_lock s) L.
Proof. intros. unfold scheduler_lock. destruct (negb _); [by apply inv_isr|done]. Qed.

Lemma inv_unlock m s L : inv m s L → inv m (scheduler_unlock s) L.
Proof. intros. unfold scheduler_unlock. destruct (_ && _); [by apply inv_isr|done]. Qed.

(** The running task leaves the processor: it is put where [t'] fits, off the
    lists. *)
Lemma current_off m s L c t' f :
  inv m s L → s_current s = Some c → c ≠ m →
  payload f → (∀ t, tv s c = Some t → f t = t' ∧ tcb_ok (f t)) → off_ok m None c t' →
  ∃ s', tupd c f s = Some s' ∧ placed m s' L None ∧ rest s' = rest s ∧
    ∀ j, tv s' j = if decide (c = j) then Some t' else tv s j.
Proof.
  intros Hi Hc Hcm Hf Ht Ho. pose proof (inv_placed _ _ _ Hi) as Hpl. rewrite Hc in Hpl.
  destruct (pl_cur _ _ _ _ Hpl c eq_refl) as [Hco Hcl].
  destruct (tv_some s L c (pl_rep _ _ _ _ Hpl) Hcl) as [t Et].
  destruct (Ht t Et) as [<- Hok].
  destruct (tupd_step c f s L t) as (s' & E & R & Q & V); [apply Hpl|done|done|].
  exists s'. split_and!; try done.
  eapply (placed_step m s L (Some c) s' L None c (f t)); try done.
  - intros l Hl. by destruct (Hco l).
  - auto.
Qed.

(** The running task leaves the processor for the head of a list. *)
Lemma current_on m s L c :
  inv m s L → s_current s = Some c → c ≠ m →
  off L c ∧ (c < MAX_TASKS)%nat ∧ ∃ t, tv s c = Some t ∧ t_state t = TASK_STATE_RUNNING ∧ tcb_ok t.
Proof.
  intros Hi Hc Hcm. pose proof (inv_placed _ _ _ Hi) as Hpl. rewrite Hc in Hpl.
  destruct (pl_cur _ _ _ _ Hpl c eq_refl) as [Hco Hcl].
  destruct (tv_some s L c (pl_rep _ _ _ _ Hpl) Hcl) as [t Et].
  split; [done|]. split; [done|]. exists t. split; [done|].
  split; [|by eapply (pl_tcb _ _ _ _ Hpl)].
  pose proof (pl_off _ _ _ _ Hpl _ _ Hco Et) as Ho. unfold off_ok in Ho.
  destruct (t_state t); naive_solver.
Qed.

Lemma rest_scalar s s' :
  rest s' = rest s → s_main s' = s_main s ∧ s_caller s' = s_caller s ∧ s_last s' = s_last s ∧
    s_gov s' = s_gov s ∧ s_tick s' = s_tick s ∧ s_current s' = s_current s.
Proof.
  intros E. change (s_main (rest s') = s_main (rest s) ∧ s_caller (rest s') = s_caller (rest s) ∧
    s_last (rest s') = s_last (rest s) ∧ s_gov (rest s') = s_gov (rest s) ∧
    s_tick (rest s') = s_tick (rest s) ∧ s_current (rest s') = s_current (rest s)).
  by rewrite E.
Qed.

Lemma trampoline_exit_inv m s L c :
  inv m s L → s_current s = Some c → c ≠ m →
  ∃ s', trampoline_exit s = Some (JumpCaller, s') ∧ inv m s' L ∧ s_current s' = Some m ∧
    ∀ j, tv s' j = if decide (c = j) then with_state TASK_STATE_TERMINATED <$> tv s j else tv s j.
Proof.
  intros Hi Hc Hcm. destruct (current_on m s L c Hi Hc Hcm) as (_ & _ & t & Et & _ & Hok).
  destruct (current_off m s L c (with_state TASK_STATE_TERMINATED t) (with_state TASK_STATE_TERMINATED))
    as (s1 & E1 & P1 & Q1 & V1); [done..| | |].
  { intros t' Et'. rewrite Et in Et'. by injection Et' as <-. }
  { done. }
  unfold trampoline_exit. rewrite Hc, E1. cbn [mbind option_bind].
  destruct (rest_scalar _ _ Q1) as (Em & Ec & El & Eg & Eti & _). destruct Hi as [I1 I2 I3 I4 I5 I6 I7].
  destruct (to_main_inv m s1 L P1) as (s2 & E2 & Hi2 & Q2 & V2); [congruence| |congruence|congruence|].
  { rewrite Ec. apply I4. congruence. }
  exists s2. split; [done|]. split; [done|]. split.
  - change (s_current (rest s2) = Some m). by rewrite Q2.
  - intros j. rewrite V2, V1. case_decide; [subst j; by rewrite Et|done].
Qed.

(** [c] is still the running task, and no task's entry or priority changed. *)
Definition stays c s s' : Prop :=
  s_current s' = Some c ∧
  ∀ j, t_entry <$> tv s' j = t_entry <$> tv s j ∧ t_priority <$> tv s' j = t_priority <$> tv s j.

Lemma stays_refl c s : s_current s = Some c → stays c s s.
Proof. by split. Qed.

Lemma stays_unlock c s s' : stays c s s' → stays c s (scheduler_unlock s').
Proof. unfold scheduler_unlock. by destruct (_ && _). Qed.

(** The code a switched-to task runs until it is in its own body keeps the
    invariant. *)
Lemma land_inv m s L c t :
  inv m s L → s_current s = Some c → c ≠ m → tv s c = Some t → is_Some (t_ctx t) →
  ∃ z s', land (JumpTask c, s) = Some (z, s') ∧ inv m s' L ∧
    (is_Some (t_entry t) → stays c s s').
Proof.
  intros Hi Hc Hcm Et [rp Hrp]. pose proof Et as Et'.
  apply tv_tget in Et' as (t0 & E & -> & _ & _ & Ec & _ & _ & Een).
  destruct (current_on m s L c Hi Hc Hcm) as (Hco & Hcl & t' & Et' & Hst & Hok).
  rewrite Et in Et'. injection Et' as <-.
  cbn [land]. rewrite E. cbn [mbind option_bind]. rewrite Ec, Hrp. cbn [mbind option_bind].
  assert (∃ s', tupd c (with_state TASK_STATE_RUNNING) s = Some s' ∧ inv m s' L ∧
    stays c s s') as (s1 & E1 & Hi1 & Hs1).
  { destruct (tupd_step c (with_state TASK_STATE_RUNNING) s L (data t0))
      as (s' & E' & R & Q & V); [apply Hi|done|done|].
    exists s'. split; [done|]. assert (stays c s s') as Hst'.
    { split; [by rewrite <- Hc; apply rest_scalar in Q as (_ & _ & _ & _ & _ & ->)|].
      intros j. rewrite V. case_decide; [subst; by rewrite Et|done]. }
    split; [|done]. destruct Hi as [I1 I2 I3 I4 I5 I6 I7].
    eapply inv_intro; [exact Q| |done..].
    eapply (placed_step m s L (s_current s) s' L (s_current s) c (data t0)); try done.
    - intros j. rewrite V. case_decide; [|done]. f_equal. by destruct t0; cbn in *; subst.
    - intros l Hl. by destruct (Hco l).
    - intros _. unfold off_ok. rewrite Hst. by right.
    - by left. }
  destruct rp.
  - rewrite Hc. cbn [mbind option_bind]. rewrite E. cbn [mbind option_bind].
    destruct (t_entry t0) eqn:En; [by eauto 6 using stays_refl|].
    destruct (trampoline_exit_inv m s L c Hi Hc Hcm) as (s2 & E2 & Hi2 & _).
    rewrite E2. cbn [mbind option_bind]. eexists _, _. split; [done|]. split; [done|].
    cbn [data with_links t_entry]. rewrite En. by intros [? ?].
  - eexists _, _. split; [done|]. split; [by apply inv_unlock|]. intros _.
    by apply stays_unlock, stays_refl.
  - rewrite E1. cbn [mbind option_bind]. eauto.
  - rewrite E1. cbn [mbind option_bind]. eexists _, _. split; [done|].
    split; [by apply inv_unlock|]. intros _. by apply stays_unlock.
  - eauto 6 using stays_refl.
Qed.

(** ** scheduler_step *)

Lemma placed_main_none m s L : placed m s L (Some m) → placed m s L None.
Proof.
  intros [P1 P2 P3 P4 P5 P6]. split; try done. intros i t Ho Et. specialize (P3 i t Ho Et).
  unfold off_ok in *. destruct (t_state t); naive_solver.
Qed.

Definition after_switch n t L : lst → list nat :=
  <[LReady (t_priority t) := remove1 n (L (LReady (t_priority t)))]> L.

Lemma scheduler_step_eq m s L :
  inv m s L → s_current s = Some m → s_started s = true →
  match pick L with
  | None => scheduler_step s = Some (Ret 0, set_gov (gov_note_idle (s_gov s)) s) ∧
            inv m (set_gov (gov_note_idle (s_gov s)) s) L
  | Some n =>
    ∃ s' t, scheduler_step s = Some (JumpTask n, s') ∧ tv s n = Some t ∧ is_Some (t_ctx t) ∧
      n ≠ m ∧ inv m s' (after_switch n t L) ∧
      rest s' = rest (set_current (Some n) (set_caller true
                  (set_gov (gov_note_busy (t_power_demand t) (s_gov s)) s))) ∧
      (∀ j, tv s' j = if decide (n = j) then Some (with_state TASK_STATE_RUNNING t) else tv s j)
  end.
Proof.
  intros Hi Hc Hst. pose proof (inv_placed _ _ _ Hi) as Hpl. rewrite Hc in Hpl.
  pose proof (runnable_pick _ _ _ _ Hpl) as Hrp. unfold scheduler_step. rewrite Hst. cbn [negb].
  destruct Hi as [I1 I2 I3 I4 I5 I6 I7]. destruct (pick L) as [n|] eqn:Ep.
  - destruct Hrp as [Hh Hru]. rewrite Hh, Hru. cbn [mbind option_bind].
    destruct (pick_spec _ _ _ _ _ Hpl Ep) as (t & Et & Hin & _ & Hnm & _).
    pose proof Et as Et'. apply tv_tget in Et' as (t0 & E & Ed & _ & _ & _ & _ & Edm & _).
    rewrite E. cbn [mbind option_bind]. cbn [s_last set_gov]. rewrite I5, decide_False by done.
    set (s1 := set_caller true (set_gov (gov_note_busy (t_power_demand t0) (s_gov s)) s)).
    assert (placed m s1 L None) as P1 by (apply (placed_scalar m s); [done..|]; by apply placed_main_none).
    destruct (to_task_inv m s1 L n t P1) as (s2 & Hctx & E2 & Hi2 & Q2 & V2);
      [done|done|done|by apply gov_busy_ok|done|by rewrite (tv_scalar s s1)|done|].
    rewrite E2. cbn [mbind option_bind]. exists s2, t. split_and!; try done.
    + by rewrite <- Edm.
  - destruct (task_get_highest_ready s) as [n|] eqn:Eh.
    + rewrite Hrp. cbn [mbind option_bind]. split; [done|]. split; try done; [|by apply gov_idle_ok].
      cbn. rewrite Hc. by eapply placed_scalar; [..|exact Hpl].
    + cbn [runnable mbind option_bind]. split; [done|]. split; try done; [|by apply gov_idle_ok].
      cbn. rewrite Hc. by eapply placed_scalar; [..|exact Hpl].
Qed.

(** ** task_yield *)

Definition ready_yield t : task_tcb_t :=
  with_state TASK_STATE_READY (with_ctx (Some RP_yield) t).

(** The lists after a running task of priority [p] has re-queued itself and handed
    over to the task picked before that. *)
Definition after_requeue c p L : lst → list nat := <[LReady p := c :: L (LReady p)]> L.

Lemma task_yield_eq m s L c t :
  inv m s L → s_current s = Some c → c ≠ m → tv s c = Some t →
  match pick L with
  | None => ∃ s', task_yield s = Some (JumpCaller, s') ∧ inv m s' (after_requeue c (t_priority t) L) ∧
      s_current s' = Some m ∧
      (∀ j, tv s' j = if decide (c = j) then Some (ready_yield t) else tv s j)
  | Some n => ∃ s' tn, task_yield s = Some (JumpTask n, s') ∧ tv s n = Some tn ∧
      is_Some (t_ctx tn) ∧ n ≠ m ∧ n ≠ c ∧
      inv m s' (after_switch n tn (after_requeue c (t_priority t) L)) ∧
      rest s' = rest (set_current (Some n) (scheduler_lock s)) ∧
      (∀ j, tv s' j = if decide (n = j) then Some (with_state TASK_STATE_RUNNING tn)
                      else if decide (c = j) then Some (ready_yield t) else tv s j)
  end.
Proof.
  intros Hi Hc Hcm Et. apply inv_lock in Hi.
  assert (s_current (scheduler_lock s) = Some c ∧ tv (scheduler_lock s) c = Some t ∧
          ∀ j, tv (scheduler_lock s) j = tv s j) as (Hc' & Et' & Vl).
  { unfold scheduler_lock. by destruct (negb _). }
  unfold task_yield. revert Hi Hc' Et' Vl. generalize (scheduler_lock s). clear Hc.
  intros s0 Hi Hc Et0 Vl. pose proof Hi as [I1 I2 I3 I4 I5 I6 I7].
  rewrite Hc, I2, decide_False by congruence.
  destruct (current_on m s0 L c Hi Hc Hcm) as (Hco & Hcl & t' & Et' & Hst & Hok).
  rewrite Et0 in Et'. injection Et' as <-.
  pose proof Et0 as Eg. apply tv_tget in Eg as (t0 & E & _ & Es & _).
  rewrite E. cbn [mbind option_bind]. rewrite Es, Hst, decide_True by done.
  set (f := λ t, with_state TASK_STATE_READY (with_ctx (Some RP_yield) t)).
  destruct (tupd_step c f s0 L t) as (s1 & E1 & R1 & Q1 & V1); [apply I1|done|done|].
  rewrite E1. cbn [mbind option_bind].
  destruct (rest_scalar _ _ Q1) as (Em & Eca & El & Eg & Eti & _).
  (* picked before the yielding task is queued again *)
  assert (task_get_highest_ready s1 = task_get_highest_ready s0 ∧
          ∀ n, n ≠ Some c → runnable n s1 = runnable n s0) as [Hh1 Hr1].
  { split; [by rewrite (highest_eq _ _ R1), (highest_eq s0 L) by apply I1|].
    intros [n|] Hn; [|done]. unfold runnable.
    rewrite (tget_tupd _ _ _ _ _ E1), decide_False by congruence. done. }
  destruct (task_add_to_ready_spec c s1 L (f t)) as (s2 & E2 & R2 & Q2 & V2);
    [done|done|by rewrite V1, decide_True|apply Hok|].
  assert (placed m s2 (after_requeue c (t_priority t) L) None) as P2.
  { rewrite Hc in I1. eapply (placed_step m s0 L (Some c) s2 _ None c (f t)); try done.
    - intros l j Hj. by apply elem_add.
    - intros j. rewrite V2. case_decide as Hd; [done|]. by rewrite V1, decide_False.
    - intros l Hl. apply add_place in Hl as ->; [|done]. cbn. by eauto.
    - intros Ho. by apply add_not_off in Ho.
    - auto.
    - naive_solver. }
  destruct (rest_scalar _ _ Q2) as (Em2 & Eca2 & El2 & Eg2 & Eti2 & _).
  rewrite Hc in I1. pose proof (runnable_pick _ _ _ _ I1) as Hrp. rewrite Hh1.
  assert (∀ j, tv s2 j = if decide (c = j) then Some (ready_yield t) else tv s j) as V2'.
  { intros j. rewrite V2. case_decide; [done|]. rewrite V1, decide_False by done. apply Vl. }
  destruct (pick L) as [n|] eqn:Ep.
  - destruct Hrp as [Hh Hru]. destruct (pick_spec _ _ _ _ _ I1 Ep) as (tn & Etn & Hin & Hp & Hnm & Hmax).
    assert (n ≠ c) as Hnc by (intros ->; by destruct (Hco (LReady (t_priority tn)))).
    rewrite Hh, Hr1, Hru by congruence. cbn [mbind option_bind]. rewrite E2. cbn [mbind option_bind].
    destruct (to_task_inv m s2 _ n tn P2) as (s3 & Hctx & E3 & Hi3 & Q3 & V3);
      [congruence|rewrite Eca2, Eca; apply I4; congruence|congruence|congruence|congruence
      |by rewrite V2', decide_False, <- Vl by done|by apply elem_add|].
    rewrite E3. exists s3, tn. rewrite <- Vl. split_and!; try done.
    + rewrite Q3. apply rest_current. by rewrite Q2.
    + intros j. by rewrite V3, V2'.
  - assert (runnable (task_get_highest_ready s0) s1 = Some false) as ->.
    { rewrite Hr1; [done|]. rewrite (highest_eq s0 L) by apply I1. intros Hx.
      apply head_elem_of, elem_of_app in Hx as [Hx|Hx]; [|by destruct (Hco (LReady 0))].
      unfold pick in Ep. destruct (ready_tasks L); [by apply not_elem_of_nil in Hx|done]. }
    cbn [mbind option_bind]. rewrite E2. cbn [mbind option_bind].
    destruct (to_main_inv m s2 _ P2) as (s3 & E3 & Hi3 & Q3 & V3);
      [congruence|rewrite Eca2, Eca; apply I4; congruence|congruence|congruence|].
    rewrite E3. cbn [mbind option_bind]. exists s3. split_and!; try done.
    + change (s_current (rest s3) = Some m). by rewrite Q3.
    + intros j. by rewrite V3, V2'.
Qed.

(** ** task_sleep *)

Definition sleeping ticks now t : task_tcb_t :=
  with_ctx (Some RP_sleep)
    (with_state TASK_STATE_BLOCKED (with_sleep ticks (u32 (now + ticks)) t)).

Lemma task_sleep_eq m s L c t fuel run ticks :
  inv m s L → s_current s = Some c → c ≠ m → tv s c = Some t →
  ∃ s', task_sleep fuel run ticks s = Some (JumpCaller, s') ∧
    inv m s' (<[LBlocked := c :: L LBlocked]> L) ∧ s_current s' = Some m ∧
    rest s' = rest (set_last None (set_current (Some m) s)) ∧
    (∀ j, tv s' j = if decide (c = j) then Some (sleeping ticks (s_tick s) t) else tv s j).
Proof.
  intros Hi Hc Hcm Et. pose proof Hi as [I1 I2 I3 I4 I5 I6 I7].
  destruct (current_on m s L c Hi Hc Hcm) as (Hco & Hcl & t' & Et' & Hst & Hok).
  rewrite Et in Et'. injection Et' as <-.
  unfold task_sleep. rewrite Hc, I2, decide_False by congruence.
  set (f := λ t, with_state TASK_STATE_BLOCKED (with_sleep ticks (u32 (s_tick s + ticks)) t)).
  destruct (tupd_step c f s L t) as (s1 & E1 & R1 & Q1 & V1); [apply I1|done|done|].
  rewrite E1. cbn [mbind option_bind].
  destruct (task_list_add_rep LBlocked c s1 L) as (s2 & E2 & R2 & [V2 Q2]%list_step_tv);
    [done..|].
  rewrite E2. cbn [mbind option_bind].
  destruct (tupd_step c (with_ctx (Some RP_sleep)) s2 _ (f t) R2) as (s3 & E3 & R3 & Q3 & V3);
    [by rewrite V2, V1, decide_True|done|].
  rewrite E3. cbn [mbind option_bind].
  assert (∀ j, tv s3 j = if decide (c = j) then Some (sleeping ticks (s_tick s) t) else tv s j) as V3'.
  { intros j. rewrite V3. case_decide; [done|]. by rewrite V2, V1, decide_False. }
  assert (rest s3 = rest s) as Q by congruence.
  assert (placed m s3 (<[LBlocked := c :: L LBlocked]> L) None) as P3.
  { rewrite Hc in I1. eapply (placed_step m s L (Some c) s3 _ None c); [exact I1|exact R3| |exact V3'|..].
    - intros l j Hj. by apply elem_add.
    - split; [apply Hok|]. by apply wrap_in_w.
    - intros l Hl. apply add_place in Hl as ->; [|done]. cbn. by eauto.
    - intros Ho. by apply add_not_off in Ho.
    - auto.
    - naive_solver. }
  destruct (rest_scalar _ _ Q) as (Em & Eca & El & Eg & Eti & _).
  destruct (to_main_inv m s3 _ P3) as (s4 & E4 & Hi4 & Q4 & V4);
    [congruence|rewrite Eca; apply I4; congruence|congruence|congruence|].
  rewrite E4. cbn [mbind option_bind]. exists s4. split_and!; try done.
  - change (s_current (rest s4) = Some m). by rewrite Q4.
  - rewrite Q4. change (set_last None (set_current (Some m) (rest s3)) =
      set_last None (set_current (Some m) (rest s))). by rewrite Q.
  - intros j. by rewrite V4, V3'.
Qed.

(** ** task_suspend and task_resume *)

Lemma task_suspend_self_inv m s L c t :
  inv m s L → s_current s = Some c → c ≠ m → tv s c = Some t →
  ∃ o s' L', task_suspend (Some c) s = Some (o, s') ∧ inv m s' L' ∧
    (match o with
     | Ret _ => False
     | JumpCaller => pick L = None ∧ s_current s' = Some m
     | JumpTask n => pick L = Some n ∧ s_current s' = Some n ∧ n ≠ m ∧
                     ∃ tn, tv s' n = Some tn ∧ is_Some (t_ctx tn)
     end) ∧ off L' c ∧
    tv s' c = Some (with_state TASK_STATE_SUSPENDED (with_ctx (Some RP_suspend) t)) ∧
    L' LFree = L LFree.
Proof.
  intros Hi Hc Hcm Et. apply inv_lock in Hi.
  assert (s_current (scheduler_lock s) = Some c ∧ tv (scheduler_lock s) c = Some t) as (Hc' & Et').
  { unfold scheduler_lock. by destruct (negb _). }
  unfold task_suspend. revert Hi Hc' Et'. generalize (scheduler_lock s). clear s Hc Et.
  intros s Hi Hc Et. pose proof Hi as [I1 I2 I3 I4 I5 I6 I7]. rewrite decide_True by done.
  destruct (current_on m s L c Hi Hc Hcm) as (Hco & Hcl & t' & Et' & Hst & Hok).
  rewrite Et in Et'. injection Et' as <-.
  destruct (current_off m s L c (with_state TASK_STATE_SUSPENDED (with_ctx (Some RP_suspend) t))
    (λ t, with_state TASK_STATE_SUSPENDED (with_ctx (Some RP_suspend) t)))
    as (s1 & E1 & P1 & Q1 & V1); [done|done|done|done| | |].
  { intros t2 Et2. rewrite Et in Et2. by injection Et2 as <-. }
  { unfold off_ok. cbn. split_and!; try done. }
  rewrite E1. cbn [mbind option_bind].
  destruct (rest_scalar _ _ Q1) as (Em & Eca & El & Eg & Eti & _).
  pose proof (runnable_pick _ _ _ _ P1) as Hrp.
  destruct (pick L) as [n|] eqn:Ep.
  - destruct Hrp as [Hh Hru]. rewrite Hh, Hru. cbn [mbind option_bind].
    destruct (pick_spec _ _ _ _ _ P1 Ep) as (tn & Etn & Hin & _ & Hnm & _).
    assert (n ≠ c) as Hnc by (intros ->; by destruct (Hco (LReady (t_priority tn)))).
    destruct (to_task_inv m s1 L n tn P1) as (s2 & Hctx & E2 & Hi2 & Q2 & V2);
      [congruence|rewrite Eca; apply I4; congruence|congruence|congruence|congruence|done|done|].
    rewrite E2. cbn [mbind option_bind]. eexists (JumpTask n), s2, _. split_and!; [done|exact Hi2|done| |done| | | |].
    + change (s_current (rest s2) = Some n). by rewrite Q2.
    + eexists. rewrite V2, decide_True by done. split; [done|]. exact Hctx.
    + intros l Hl. apply elem_remove in Hl; [|done]. by destruct (Hco l).
    + by rewrite V2, decide_False, V1, decide_True.
    + by rewrite fn_lookup_insert_ne.
  - rewrite Hrp. cbn [mbind option_bind].
    destruct (to_main_inv m s1 _ P1) as (s2 & E2 & Hi2 & Q2 & V2);
      [congruence|rewrite Eca; apply I4; congruence|congruence|congruence|].
    rewrite E2. cbn [mbind option_bind]. eexists JumpCaller, s2, L. split_and!; try done.
    + change (s_current (rest s2) = Some m). by rewrite Q2.
    + by rewrite V2, V1, decide_True.
Qed.

(** ** Moving another task *)

Lemma tupd_tupd i f g s s1 s2 :
  tupd i f s = Some s1 → tupd i g s1 = Some s2 → tupd i (λ t, g (f t)) s = Some s2.
Proof.
  unfold tupd, tget. destruct (s_tasks s !! i) as [t|] eqn:E; [|done].
  cbn [mbind option_bind]. intros [= <-]. cbn [s_tasks set_tasks].
  rewrite list_lookup_insert_eq by by eapply lookup_lt_Some. cbn [mbind option_bind].
  intros [= <-]. unfold set_tasks. cbn. by rewrite list_insert_insert_eq.
Qed.

Lemma place_dec s L i : rep s L → (∃ l, i ∈ L l ∧ lst_ok l) ∨ off L i.
Proof.
  intros Hr.
  destruct (decide (i ∈ L LBlocked)); [left; by exists LBlocked|].
  destruct (decide (i ∈ L LFree)); [left; by exists LFree|].
  destruct (decide (Exists (λ p, i ∈ L (LReady p)) (seq 0 5))) as [He|He].
  - apply Exists_exists in He as (p & Hp%elem_of_seq & Hi). left. exists (LReady p).
    split; [done|]. cbn. lia.
  - right. intros [p| |]; [|done..]. intros Hi. apply He, Exists_exists. exists p.
    split; [|done]. apply elem_of_seq. split; [lia|]. destruct (decide (p < 5)%nat); [done|].
    pose proof (rep_dll _ _ Hr (LReady p)) as Hd. cbn in Hd.
    rewrite lookup_ge_None_2 in Hd by (rewrite (rep_rdy _ _ Hr); lia).
    destruct (L (LReady p)); [by apply not_elem_of_nil in Hi|]. by destruct Hd.
Qed.

(** The state of a slot that is not free tells where it is. *)
Lemma place_state m s L cur i t :
  placed m s L cur → tv s i = Some t → i ∉ L LFree →
  match t_state t with
  | TASK_STATE_READY => i ∈ L (LReady (t_priority t))
  | TASK_STATE_BLOCKED => i ∈ L LBlocked
  | _ => off L i
  end.
Proof.
  intros Hpl Et Hf. destruct (place_dec s L i (pl_rep _ _ _ _ Hpl)) as [(l & Hl & _)|Ho].
  - pose proof (pl_on _ _ _ _ Hpl _ _ _ Hl Et) as Hon.
    destruct l; cbn in Hon; [destruct Hon as (-> & -> & _)|destruct Hon as [-> _]|]; done.
  - pose proof (pl_off _ _ _ _ Hpl _ _ Ho Et) as Hoff. unfold off_ok in Hoff.
    by destruct (t_state t).
Qed.

Lemma inv_same_rest m s s' L' :
  inv m s L' → ∀ L, rest s' = rest s → placed m s' L (s_current s) → inv m s' L.
Proof. intros [I1 I2 I3 I4 I5 I6 I7] L Q Hp. by eapply inv_intro. Qed.

(** A task other than the running one leaves its list. *)
Lemma move_off m s L l i t f :
  inv m s L → lst_ok l → i ∈ L l → tv s i = Some t → payload f → tcb_ok (f t) →
  off_ok m (s_current s) i (f t) →
  ∃ s1 s2, task_list_remove l i s = Some s1 ∧ tv s1 i = Some t ∧
    rep s1 (<[l := remove1 i (L l)]> L) ∧ tupd i f s1 = Some s2 ∧
    inv m s2 (<[l := remove1 i (L l)]> L) ∧ rest s2 = rest s ∧
    ∀ j, tv s2 j = if decide (i = j) then Some (f t) else tv s j.
Proof.
  intros Hi Hl Hin Et Hf Hok Ho. pose proof (inv_placed _ _ _ Hi) as Hpl.
  pose proof (pl_rep _ _ _ _ Hpl) as Hr.
  destruct (task_list_remove_rep l i s L) as (s1 & E1 & R1 & [V1 Q1]%list_step_tv); [done..|].
  destruct (tupd_step i f s1 _ t R1) as (s2 & E2 & R2 & Q2 & V2); [by rewrite V1|done|].
  assert (∀ j, tv s2 j = if decide (i = j) then Some (f t) else tv s j) as V2'.
  { intros j. rewrite V2. case_decide; [done|]. apply V1. }
  assert (off (<[l := remove1 i (L l)]> L) i) as Hoi by by eapply remove_off.
  exists s1, s2. split_and!; try done; [by rewrite V1| |congruence].
  eapply inv_same_rest; [done|congruence|].
  eapply (placed_step m s L _ s2 _ _ i); [done|done| |exact V2'|done| |done|by left|].
  - intros l' j Hj. by apply elem_remove.
  - intros l' Hl'. by destruct (Hoi l').
  - intros _. split; [done|]. by eapply (rep_lt _ _ Hr).
Qed.

(** A task other than the running one, off the lists, joins one. *)
Lemma move_on m s L l i t t' s' :
  inv m s L → off L i → (i < MAX_TASKS)%nat → i ≠ m → s_current s ≠ Some i → tcb_ok t' → on_ok l t' →
  rep s' (<[l := i :: L l]> L) → rest s' = rest s → tv s i = Some t →
  (∀ j, tv s' j = if decide (i = j) then Some t' else tv s j) →
  inv m s' (<[l := i :: L l]> L).
Proof.
  intros Hi Hoi Hlt Him Hc Hok Hon Hr Q Et V.
  eapply inv_same_rest; [done|congruence|].
  eapply (placed_step m s L _ s' _ _ i); [apply Hi|done| |exact V|done| | |by left|].
  - intros l' j Hj. by apply elem_add.
  - intros l' Hl'. apply add_place in Hl' as ->; done.
  - intros Ho. by apply add_not_off in Ho.
  - naive_solver.
Qed.

Definition in_use L i : Prop := (i < MAX_TASKS)%nat ∧ i ∉ L LFree.

Lemma inv_lock_view m s L :
  inv m s L → inv m (scheduler_lock s) L ∧ s_current (scheduler_lock s) = s_current s ∧
    s_tick (scheduler_lock s) = s_tick s ∧
    ∀ j, tv (scheduler_lock s) j = tv s j.
Proof. intros Hi. split; [by apply inv_lock|]. unfold scheduler_lock. by destruct (negb _). Qed.

Lemma unlock_view s : (∀ j, tv (scheduler_unlock s) j = tv s j).
Proof. unfold scheduler_unlock. by destruct (_ && _). Qed.

Lemma task_suspend_other_inv m s L i t :
  inv m s L → s_current s ≠ Some i → in_use L i → tv s i = Some t →
  ∃ s' L', task_suspend (Some i) s = Some (Ret 0, s') ∧ inv m s' L' ∧
    (∀ l j, j ≠ i → j ∈ L' l ↔ j ∈ L l) ∧ off L' i ∧
    (∀ j, j ≠ i → tv s' j = tv s j) ∧
    (t_state t = TASK_STATE_READY ∨ t_state t = TASK_STATE_BLOCKED →
     ∃ t', tv s' i = Some t' ∧ t_state t' = TASK_STATE_SUSPENDED).
Proof.
  intros Hi Hc [Hlt Hf] Et. destruct (inv_lock_view m s L Hi) as (Hi' & Ec & _ & Vl).
  unfold task_suspend. revert Hi' Ec Vl. generalize (scheduler_lock s). intros s0 Hi' Ec Vl.
  rewrite Ec, decide_False by congruence. rewrite <- Vl in Et. clear Hi. rename Hi' into Hi.
  pose proof (place_state m s0 L _ i t (inv_placed _ _ _ Hi) Et Hf) as Hplace.
  pose proof (pl_tcb _ _ _ _ (inv_placed _ _ _ Hi) _ _ Et) as Hok.
  assert (i ∉ L LFree → ∀ l, i ∈ L l → i ≠ m) as Him.
  { intros _ l Hl ->. by destruct (proj1 (pl_main _ _ _ _ (inv_placed _ _ _ Hi)) l). }
  pose proof Et as Eg. apply tv_tget in Eg as (t0 & E & -> & Es & Ep & _).
  rewrite E. cbn [mbind option_bind]. rewrite Es, Ep.
  destruct (t_state (data t0)) eqn:Est.
  - destruct (pl_on _ _ _ _ (inv_placed _ _ _ Hi) _ _ _ Hplace Et) as (_ & _ & Hctx).
    destruct (move_off m s0 L (LReady (t_priority (data t0))) i (data t0) (with_state TASK_STATE_SUSPENDED))
      as (s1 & s2 & E1 & _ & _ & E2 & Hi2 & Q2 & V2); try done; [apply Hok| |].
    { unfold off_ok. cbn. split_and!; [done|by eapply Him|congruence]. }
    rewrite E1. cbn [mbind option_bind]. rewrite E2. cbn [mbind option_bind].
    eexists _, _. split_and!; [done|by apply inv_unlock|intros l j Hj; by apply elem_remove| | |].
    + eapply remove_off; [apply Hi|done].
    + intros j Hj. rewrite unlock_view, V2, decide_False by done. apply Vl.
    + intros _. eexists. rewrite unlock_view, V2, decide_True by done. done.
  - eexists _, L. split_and!; [done|by apply inv_unlock|done|done|intros; by rewrite unlock_view|].
    intros [|]; done.
  - destruct (pl_on _ _ _ _ (inv_placed _ _ _ Hi) _ _ _ Hplace Et) as (_ & Hctx).
    destruct (move_off m s0 L LBlocked i (data t0) (λ t, with_state TASK_STATE_SUSPENDED (with_sleep 0 0 t)))
      as (s1 & s2 & E1 & Et1 & R1 & E2 & Hi2 & Q2 & V2); try done.
    { split; [apply Hok|]. cbn. by vm_compute. }
    { unfold off_ok. cbn. split_and!; [done|by eapply Him|congruence]. }
    rewrite E1. cbn [mbind option_bind].
    destruct (tupd_step i (with_sleep 0 0) s1 _ _ R1 Et1) as (s3 & E3 & R3 & _ & V3); [done|].
    rewrite E3. cbn [mbind option_bind].
    destruct (tupd_step i (with_state TASK_STATE_SUSPENDED) s3 _ (with_sleep 0 0 (data t0)) R3)
      as (s4 & E4 & _); [by rewrite V3, decide_True|done|].
    pose proof (tupd_tupd _ _ _ _ _ _ E3 E4) as E2'. rewrite E2 in E2'. injection E2' as <-.
    rewrite E4. cbn [mbind option_bind].
    eexists _, _. split_and!; [done|by apply inv_unlock|intros l j Hj; by apply elem_remove| | |].
    + eapply remove_off; [apply Hi|done].
    + intros j Hj. rewrite unlock_view, V2, decide_False by done. apply Vl.
    + intros _. eexists. rewrite unlock_view, V2, decide_True by done. done.
  - eexists _, L. split_and!; [done|by apply inv_unlock|done|done|intros; by rewrite unlock_view|].
    intros [|]; done.
  - eexists _, L. split_and!; [done|by apply inv_unlock|done|done|intros; by rewrite unlock_view|].
    intros [|]; done.
Qed.

Lemma task_resume_inv m s L i t :
  inv m s L → (i < MAX_TASKS)%nat → tv s i = Some t → in_use L i ∨ t_state t ≠ TASK_STATE_SUSPENDED →
  ∃ s', task_resume (Some i) s = Some s' ∧
    (if decide (t_state t = TASK_STATE_SUSPENDED)
     then inv m s' (<[LReady (t_priority t) := i :: L (LReady (t_priority t))]> L) ∧
          ∀ j, tv s' j = if decide (i = j) then Some (with_state TASK_STATE_READY t) else tv s j
     else inv m s' L ∧ ∀ j, tv s' j = tv s j).
Proof.
  intros Hi Hlt Et Huse. destruct (inv_lock_view m s L Hi) as (Hi' & Ec & _ & Vl).
  unfold task_resume. revert Hi' Ec Vl. generalize (scheduler_lock s). intros s0 Hi' Ec Vl.
  rewrite <- Vl in Et. clear Hi. rename Hi' into Hi.
  pose proof Et as Eg. apply tv_tget in Eg as (t0 & E & _ & Es & _).
  rewrite E. cbn [mbind option_bind]. rewrite Es. case_decide as Hs.
  2:{ eexists. split; [done|]. split; [by apply inv_unlock|]. intros j. by rewrite unlock_view. }
  destruct Huse as [[_ Hf]|?]; [|done].
  pose proof (place_state m s0 L _ i t (inv_placed _ _ _ Hi) Et Hf) as Hoff. rewrite Hs in Hoff.
  pose proof (pl_off _ _ _ _ (inv_placed _ _ _ Hi) _ _ Hoff Et) as Ho. unfold off_ok in Ho.
  rewrite Hs in Ho. destruct Ho as (Hctx & Him & Hcur).
  pose proof (pl_tcb _ _ _ _ (inv_placed _ _ _ Hi) _ _ Et) as Hok.
  destruct (tupd_step i (with_state TASK_STATE_READY) s0 L t) as (s1 & E1 & R1 & Q1 & V1);
    [apply Hi|done|done|].
  rewrite E1. cbn [mbind option_bind].
  destruct (task_add_to_ready_spec i s1 L (with_state TASK_STATE_READY t)) as (s2 & E2 & R2 & Q2 & V2);
    [done|done|by rewrite V1, decide_True|apply Hok|].
  rewrite E2. cbn [mbind option_bind]. eexists. split; [done|].
  assert (∀ j, tv s2 j = if decide (i = j) then Some (with_state TASK_STATE_READY t) else tv s j) as V.
  { intros j. rewrite V2. case_decide; [done|]. by rewrite V1, decide_False, Vl. }
  split; [|intros j; by rewrite unlock_view, V].
  apply inv_unlock. eapply (move_on m s0 L (LReady (t_priority t)) i t (with_state TASK_STATE_READY t));
    try done; [congruence|].
  intros j. rewrite V. case_decide; [done|]. by rewrite Vl.
Qed.

(** ** task_create and task_delete *)

Definition created (name : list Z) entry arg priority base size t : task_tcb_t :=
  with_state TASK_STATE_READY
    (with_ctx (Some RP_boot)
       (with_stack (Some base) (Z.land (base + size) (Z.lnot 15)) size
          (init_tcb name entry arg priority TASK_STATE_READY t))).

Lemma tupd_step_eq i f s s' L t t' :
  rep s L → tv s i = Some t → payload f → t' = f t → tupd i f s = Some s' →
  rep s' L ∧ rest s' = rest s ∧ ∀ j, tv s' j = if decide (i = j) then Some t' else tv s j.
Proof.
  intros Hr Et Hf -> E. destruct (tupd_step i f s L t Hr Et Hf) as (s2 & E2 & H2).
  rewrite E in E2. by injection E2 as <-.
Qed.

Lemma free_off_main m s L i : inv m s L → i ∈ L LFree → i ≠ m ∧ s_current s ≠ Some i.
Proof.
  intros Hi Hf. pose proof (inv_placed _ _ _ Hi) as [P1 P2 P3 P4 P5 P6]. split.
  - intros ->. by destruct (proj1 P4 LFree).
  - intros E. by destruct (proj1 (P5 _ E) LFree).
Qed.

(** The slot [task_create] takes is the head of the free list. *)
Lemma task_create_inv m s L min_stack name entry arg priority size alloc :
  inv m s L →
  ∃ r h s' L', task_create min_stack name entry arg priority size alloc s = Some (r, h, s') ∧
    inv m s' L' ∧ rest s' = rest s ∧
    match L LFree, alloc with
    | i :: fr, Some base =>
      if decide (priority < 5)%nat then
        r = 0 ∧ h = Some i ∧ L' = <[LReady priority := i :: L (LReady priority)]> (<[LFree := fr]> L) ∧
        ∃ t, tv s i = Some t ∧ ∀ j, tv s' j = if decide (i = j)
          then Some (created name entry arg priority base (Z.max size min_stack) t) else tv s j
      else r = -1 ∧ h = None ∧ s' = s
    | i :: fr, None => r = -1 ∧ h = None ∧ (∀ l, L' l = L l) ∧ ∀ j, j ≠ i → tv s' j = tv s j
    | [], _ => r = -1 ∧ h = None ∧ s' = s
    end.
Proof.
  intros Hi. pose proof (inv_placed _ _ _ Hi) as Hpl. pose proof (pl_rep _ _ _ _ Hpl) as Hr.
  unfold task_create. rewrite (dlist_head _ _ _ _ _ (rep_dll _ _ Hr LFree)).
  destruct (L LFree) as [|i fr] eqn:Ef; cbn [head].
  { eexists _, _, _, L. split_and!; [done|done|done|by destruct alloc..]. }
  unfold TASK_PRIO_CRITICAL. destruct (4 <? priority)%nat eqn:Ep.
  { apply Nat.ltb_lt in Ep. eexists _, _, _, L. split_and!; [done|done|done|].
    destruct alloc; [|by split_and!]. rewrite decide_False by lia. done. }
  apply Nat.ltb_ge in Ep.
  assert (i ∈ L LFree) as Hif by (rewrite Ef; left).
  destruct (free_off_main m s L i Hi Hif) as [Him Hic].
  assert (i < MAX_TASKS)%nat as Hlt by by eapply (rep_lt _ _ Hr).
  destruct (tv_some s L i Hr Hlt) as [t Et].
  set (size' := if size <? min_stack then min_stack else size).
  assert (size' = Z.max size min_stack) as Esz.
  { unfold size'. destruct (_ <? _) eqn:E; bool_hyps; lia. }
  destruct (task_list_remove_rep LFree i s L) as (s1 & E1 & R1 & [V1 Q1]%list_step_tv); [done..|].
  rewrite E1. cbn [mbind option_bind].
  assert (off (<[LFree := remove1 i (L LFree)]> L) i) as Ho by by eapply remove_off.
  assert (remove1 i (L LFree) = fr) as Erm.
  { rewrite Ef. apply (remove1_split i [] fr). rewrite <- Ef. apply (rep_nd _ _ Hr). }
  rewrite Erm in R1, Ho.
  set (t1 := init_tcb name entry arg priority TASK_STATE_READY t).
  destruct (tupd_step i (init_tcb name entry arg priority TASK_STATE_READY) s1 _ t R1)
    as (s2 & E2 & R2 & Q2 & V2); [by rewrite V1|done|].
  rewrite E2. cbn [mbind option_bind]. fold t1 in V2.
  destruct (tupd_step i (λ t, with_stack alloc (t_stack_ptr t) size' t) s2 _ t1 R2)
    as (s3 & E3 & R3 & Q3 & V3); [by rewrite V2, decide_True|done|].
  rewrite E3. cbn [mbind option_bind].
  assert (tcb_ok t1) as Hok1 by (split; [cbn; lia|by vm_compute]).
  assert (∀ j, j ≠ i → tv s3 j = tv s j) as V3'.
  { intros j Hj. by rewrite V3, V2, V1, !decide_False. }
  destruct alloc as [base|].
  - set (t3 := with_stack (Some base) (t_stack_ptr t1) size' t1).
    destruct (tupd_step i (with_stack (Some base) (Z.land (base + size') (Z.lnot 15)) size') s3 _ t3 R3)
      as (s4 & E4 & R4 & Q4 & V4); [by rewrite V3, decide_True|done|].
    rewrite E4. cbn [mbind option_bind]. unfold host_stack_boot.
    set (t4 := with_stack (Some base) (Z.land (base + size') (Z.lnot 15)) size' t3).
    destruct (tupd_step i (with_ctx (Some RP_boot)) s4 _ t4 R4) as (s5 & E5 & R5 & Q5 & V5);
      [by rewrite V4, decide_True|done|].
    rewrite E5. cbn [mbind option_bind].
    assert (tv s5 i = Some (with_ctx (Some RP_boot) t4)) as Et5 by by rewrite V5, decide_True.
    pose proof Et5 as Eg. apply tv_tget in Eg as (t0 & Eg & _ & _ & _ & Ec & _).
    rewrite Eg. cbn [mbind option_bind]. rewrite Ec. cbn [t_ctx with_ctx].
    destruct (task_add_to_ready_spec i s5 _ _ R5 Ho Et5) as (s6 & E6 & R6 & Q6 & V6); [cbn; lia|].
    rewrite E6. cbn [mbind option_bind]. cbn [t_priority with_ctx t4 t3 with_stack t1 init_tcb] in R6.
    rewrite fn_lookup_insert_ne in R6 by done.
    assert (∀ j, tv s6 j = if decide (i = j)
      then Some (created name entry arg priority base (Z.max size min_stack) t) else tv s j) as V6'.
    { intros j. rewrite V6, <- Esz. case_decide; [done|].
      by rewrite V5, V4, !decide_False, V3' by done. }
    eexists _, _, s6, _. split; [done|]. split;
      [|split; [congruence|]; rewrite decide_True by lia; split_and!; [done|done|done|by exists t]].
    eapply inv_same_rest; [done|congruence|].
    eapply (placed_step m s L _ s6 _ _ i); [done|exact R6| |exact V6'|done| | |by left|].
    + intros l j Hj. destruct (decide (l = LReady priority)) as [->|Hne].
      { rewrite fn_lookup_insert, elem_of_cons. naive_solver. }
      rewrite fn_lookup_insert_ne by done.
      destruct (decide (l = LFree)) as [->|Hne2]; [|by rewrite fn_lookup_insert_ne].
      rewrite fn_lookup_insert, Ef, elem_of_cons. naive_solver.
    + intros l Hl. destruct (decide (l = LReady priority)) as [->|Hne].
      { cbn. split_and!; try done. }
      rewrite fn_lookup_insert_ne in Hl by done. by destruct (Ho l).
    + intros Ho'. destruct (Ho' (LReady priority)). rewrite fn_lookup_insert. left.
    + intros [?|?]; done.
  - destruct (task_list_add_rep LFree i s3 _ R3) as (s4 & E4 & R4 & [V4 Q4]%list_step_tv); [done..|].
    rewrite E4. cbn [mbind option_bind].
    rewrite fn_lookup_insert, <- Ef in R4.
    eexists _, _, s4, _. split; [done|]. split; [|split_and!; [congruence|done|done| |]].
    + eapply inv_same_rest; [done|congruence|].
      eapply (placed_step m s L _ s4 _ _ i (with_stack None (t_stack_ptr t1) size' t1));
        [done|exact R4| | |done| | |by left|].
      * intros l j Hj. destruct (decide (l = LFree)) as [->|Hne]; [by rewrite fn_lookup_insert|].
        by rewrite !fn_lookup_insert_ne.
      * intros j. rewrite V4. case_decide; [subst; by rewrite V3, decide_True|by apply V3'].
      * intros l Hl. destruct (decide (l = LFree)) as [->|Hne]; [by left|].
        rewrite !fn_lookup_insert_ne in Hl by done. destruct Hne. by eapply (rep_disj _ _ Hr).
      * intros Ho'. destruct (Ho' LFree). by rewrite fn_lookup_insert.
      * intros [?|?]; done.
    + intros l. destruct (decide (l = LFree)) as [->|Hne]; [by rewrite fn_lookup_insert|].
      by rewrite !fn_lookup_insert_ne.
    + intros j Hj. rewrite V4. by apply V3'.
Qed.

Definition deleted t : task_tcb_t :=
  with_state TASK_STATE_TERMINATED (with_stack None (t_stack_ptr t) (t_stack_size t) t).

(** A task off the lists changes in place. *)
Lemma update_off m s L i t f :
  inv m s L → off L i → (i < MAX_TASKS)%nat → tv s i = Some t → payload f → tcb_ok (f t) →
  off_ok m (s_current s) i (f t) →
  ∃ s', tupd i f s = Some s' ∧ inv m s' L ∧ rest s' = rest s ∧
    ∀ j, tv s' j = if decide (i = j) then Some (f t) else tv s j.
Proof.
  intros Hi Ho Hlt Et Hf Hok Hoff.
  destruct (tupd_step i f s L t) as (s' & E & R & Q & V); [apply Hi|done|done|].
  exists s'. split_and!; try done. eapply inv_same_rest; [done|done|].
  eapply (placed_step m s L _ s' _ _ i (f t)); [apply Hi|done|done|exact V|done| |done|by left|done].
  intros l Hl. by destruct (Ho l).
Qed.

Lemma free_task m s L i t :
  inv m s L → off L i → tv s i = Some t → t_state t = TASK_STATE_TERMINATED →
  ∃ s', task_list_add LFree i s = Some s' ∧ inv m s' (<[LFree := i :: L LFree]> L) ∧
    rest s' = rest s ∧
    ∀ j, tv s' j = tv s j.
Proof.
  intros Hi Ho Et Hst. pose proof (inv_placed _ _ _ Hi) as Hpl.
  pose proof (pl_rep _ _ _ _ Hpl) as Hr.
  pose proof (pl_off _ _ _ _ Hpl _ _ Ho Et) as Hoff. unfold off_ok in Hoff. rewrite Hst in Hoff.
  assert (i < MAX_TASKS)%nat as Hlt.
  { apply tv_tget in Et as (t0 & E & _). rewrite <- (rep_len _ _ Hr). by eapply lookup_lt_Some. }
  destruct (task_list_add_rep LFree i s L) as (s2 & E2 & R2 & [V2 Q2]%list_step_tv); [done..|].
  exists s2. split_and!; try done.
  eapply (move_on m s L LFree i t t); try done; [apply Hoff|apply Hoff| |by right|].
  - by eapply (pl_tcb _ _ _ _ Hpl).
  - intros j. rewrite V2. case_decide; congruence.
Qed.

Lemma task_delete_inv m s L i t :
  inv m s L → in_use L i → tv s i = Some t →
  ∃ r s' L', task_delete (Some i) s = Some (r, s') ∧ inv m s' L' ∧ rest s' = rest s ∧
    if decide (s_current s = Some i ∨ i = m) then r = -1 ∧ s' = s
    else r = 0 ∧ L' LFree = i :: L LFree ∧ (∀ l, l ≠ LFree → L' l = remove1 i (L l)) ∧
         ∀ j, tv s' j = if decide (i = j) then Some (deleted t) else tv s j.
Proof.
  intros Hi [Hlt Hf] Et. unfold task_delete.
  destruct (decide (Some i = s_current s)) as [Hd|Hc].
  { eexists _, _, L. split; [done|]. split; [done|]. split; [done|]. rewrite decide_True by (left; congruence). done. }
  pose proof (inv_placed _ _ _ Hi) as Hpl. pose proof (pl_rep _ _ _ _ Hpl) as Hr.
  pose proof (place_state m s L _ i t Hpl Et Hf) as Hplace.
  pose proof (pl_tcb _ _ _ _ Hpl _ _ Et) as Hok.
  assert (∀ l, i ∈ L l → i ≠ m) as Him.
  { intros l Hl ->. by destruct (proj1 (pl_main _ _ _ _ Hpl) l). }
  assert (payload deleted) as Hpay by done.
  set (finish s := s ← tupd i deleted s; s ← task_list_add LFree i s; Some (0, s)).
  assert (∀ s1 s2 L1, inv m s2 L1 → rest s2 = rest s → off L1 i → tupd i deleted s1 = Some s2 →
    (∀ j, tv s2 j = if decide (i = j) then Some (deleted t) else tv s j) →
    L1 LFree = L LFree → (∀ l, l ≠ LFree → L1 l = remove1 i (L l)) →
    ∃ s' L', finish s1 = Some (0, s') ∧ inv m s' L' ∧ rest s' = rest s ∧ L' LFree = i :: L LFree ∧
      (∀ l, l ≠ LFree → L' l = remove1 i (L l)) ∧
      ∀ j, tv s' j = if decide (i = j) then Some (deleted t) else tv s j) as Hfin.
  { intros s1 s2 L1 Hi2 Qs Ho2 E2 V2 HLf HL. unfold finish. rewrite E2. cbn [mbind option_bind].
    destruct (free_task m s2 L1 i (deleted t) Hi2 Ho2) as (s3 & E3 & Hi3 & Q3 & V3);
      [by rewrite V2, decide_True|done|].
    rewrite E3. eexists s3, _. split_and!; [done|exact Hi3|congruence|by rewrite fn_lookup_insert, HLf| |].
    - intros l Hl. rewrite fn_lookup_insert_ne by done. by apply HL.
    - intros j. by rewrite V3. }
  assert (∀ l, l ≠ LFree → i ∈ L l → ∃ s1, task_list_remove l i s = Some s1 ∧
    ∃ s' L', finish s1 = Some (0, s') ∧ inv m s' L' ∧ rest s' = rest s ∧ L' LFree = i :: L LFree ∧
      (∀ l, l ≠ LFree → L' l = remove1 i (L l)) ∧
      ∀ j, tv s' j = if decide (i = j) then Some (deleted t) else tv s j) as Hlist.
  { intros l Hl Hin. destruct (place_dec s L i Hr) as [(l' & Hl' & Hlo)|Ho]; [|by destruct (Ho l)].
    assert (l' = l) as -> by by eapply (rep_disj _ _ Hr).
    destruct (move_off m s L l i t deleted) as (s1 & s2 & E1 & _ & _ & E2 & Hi2 & Qs & V2);
      [done|done|done|done|done|done|split; [by eapply Him|congruence]|].
    exists s1. split; [done|]. eapply (Hfin s1 s2); [done|done|by eapply remove_off|done|done| |].
    - by rewrite fn_lookup_insert_ne.
    - intros l' Hlf. destruct (decide (l = l')) as [<-|Hne]; [by rewrite fn_lookup_insert|].
      rewrite fn_lookup_insert_ne by done. symmetry. apply remove1_absent.
      intros Hin2. by destruct (rep_disj _ _ Hr l l' i). }
  assert (off L i → i ≠ m → ∃ s' L', finish s = Some (0, s') ∧ inv m s' L' ∧ rest s' = rest s ∧ L' LFree = i :: L LFree ∧
      (∀ l, l ≠ LFree → L' l = remove1 i (L l)) ∧
      ∀ j, tv s' j = if decide (i = j) then Some (deleted t) else tv s j) as Hoffc.
  { intros Ho Hm. destruct (update_off m s L i t deleted) as (s2 & E2 & Hi2 & Qs & V2);
      [done|done|done|done|done|done|split; [done|congruence]|].
    eapply (Hfin s s2); [done|done|done|done|done|done|].
    intros l _. symmetry. by apply remove1_absent. }
  pose proof Et as Eg. apply tv_tget in Eg as (t0 & E & _ & Es & Ep & _).
  rewrite E. cbn [mbind option_bind]. rewrite Es, Ep. fold (finish).
  destruct (t_state t) eqn:Est.
  - destruct (Hlist (LReady (t_priority t))) as (s1 & E1 & s' & L' & E2 & Hi' & Q' & Hrest); [done..|].
    rewrite E1. cbn [mbind option_bind]. exists 0, s', L'. split; [exact E2|]. split; [done|]. split; [done|].
    rewrite decide_False; [by split|]. intros [?|?]; [congruence|by eapply Him].
  - pose proof (pl_off _ _ _ _ Hpl _ _ Hplace Et) as Hoff. unfold off_ok in Hoff. rewrite Est in Hoff.
    eexists _, _, L. split; [done|]. split; [done|]. split; [done|]. rewrite decide_True by naive_solver. done.
  - destruct (Hlist LBlocked) as (s1 & E1 & s' & L' & E2 & Hi' & Q' & Hrest); [done..|].
    rewrite E1. cbn [mbind option_bind]. exists 0, s', L'. split; [exact E2|]. split; [done|]. split; [done|].
    rewrite decide_False; [by split|]. intros [?|?]; [congruence|by eapply Him].
  - pose proof (pl_off _ _ _ _ Hpl _ _ Hplace Et) as Hoff. unfold off_ok in Hoff. rewrite Est in Hoff.
    destruct (Hoffc Hplace (proj1 (proj2 Hoff))) as (s' & L' & E2 & Hi' & Q' & Hrest).
    exists 0, s', L'. split; [exact E2|]. split; [done|]. split; [done|]. rewrite decide_False by naive_solver. by split.
  - pose proof (pl_off _ _ _ _ Hpl _ _ Hplace Et) as Hoff. unfold off_ok in Hoff. rewrite Est in Hoff.
    destruct (Hoffc Hplace (proj1 Hoff)) as (s' & L' & E2 & Hi' & Q' & Hrest).
    exists 0, s', L'. split; [exact E2|]. split; [done|]. split; [done|]. rewrite decide_False by naive_solver. by split.
Qed.

(** ** The tick *)

Definition wake_of s i : Z := from_option t_wake_time 0 (tv s i).
Definition prio_of s i : nat := from_option t_priority 0%nat (tv s i).
Definition due (now : Z) s i : Prop := wake_of s i <= now.
#[local] Instance due_dec now s i : Decision (due now s i).
Proof. unfold due. apply _. Defined.

(** One blocked task becomes ready. *)
Lemma wake_one m s L i t :
  inv m s L → i ∈ L LBlocked → tv s i = Some t →
  ∃ s1 s2 s3, task_list_remove LBlocked i s = Some s1 ∧
    tupd i (with_state TASK_STATE_READY) s1 = Some s2 ∧ task_add_to_ready i s2 = Some s3 ∧
    inv m s3 (<[LReady (t_priority t) := i :: L (LReady (t_priority t))]>
                (<[LBlocked := remove1 i (L LBlocked)]> L)) ∧
    rest s3 = rest s ∧
    ∀ j, tv s3 j = if decide (i = j) then Some (with_state TASK_STATE_READY t) else tv s j.
Proof.
  intros Hi Hin Et. pose proof (inv_placed _ _ _ Hi) as Hpl. pose proof (pl_rep _ _ _ _ Hpl) as Hr.
  destruct (pl_on _ _ _ _ Hpl _ _ _ Hin Et) as (_ & Hctx).
  pose proof (pl_tcb _ _ _ _ Hpl _ _ Et) as Hok.
  assert (i ≠ m ∧ s_current s ≠ Some i) as [Him Hic].
  { split; [intros ->; by destruct (proj1 (pl_main _ _ _ _ Hpl) LBlocked)|].
    intros E. by destruct (proj1 (pl_cur _ _ _ _ Hpl _ E) LBlocked). }
  destruct (task_list_remove_rep LBlocked i s L) as (s1 & E1 & R1 & [V1 Q1]%list_step_tv); [done..|].
  assert (off (<[LBlocked := remove1 i (L LBlocked)]> L) i) as Ho by by eapply remove_off.
  destruct (tupd_step i (with_state TASK_STATE_READY) s1 _ t R1) as (s2 & E2 & R2 & Q2 & V2);
    [by rewrite V1|done|].
  destruct (task_add_to_ready_spec i s2 _ (with_state TASK_STATE_READY t) R2 Ho)
    as (s3 & E3 & R3 & Q3 & V3); [by rewrite V2, decide_True|apply Hok|].
  rewrite fn_lookup_insert_ne in R3 by done.
  assert (∀ j, tv s3 j = if decide (i = j) then Some (with_state TASK_STATE_READY t) else tv s j) as V.
  { intros j. rewrite V3. case_decide; [done|]. by rewrite V2, decide_False, V1. }
  exists s1, s2, s3. split_and!; try done; [|congruence].
  eapply inv_same_rest; [done|congruence|].
  eapply (placed_step m s L _ s3 _ _ i); [done|exact R3| |exact V|done| | |by left|naive_solver].
  - intros l j Hj. destruct (decide (l = LReady (t_priority t))) as [->|Hne].
    { rewrite fn_lookup_insert, elem_of_cons. naive_solver. }
    rewrite fn_lookup_insert_ne by done. by apply elem_remove.
  - intros l Hl. destruct (decide (l = LReady (t_priority t))) as [->|Hne]; [done|].
    rewrite fn_lookup_insert_ne in Hl by done. by destruct (Ho l).
  - intros Ho'. destruct (Ho' (LReady (t_priority t))). rewrite fn_lookup_insert. left.
Qed.

Lemma blocked_next m s L cur kept i todo :
  placed m s L cur → L LBlocked = kept ++ i :: todo → nx s i = head todo.
Proof.
  intros Hpl HB. pose proof (rep_dll _ _ (pl_rep _ _ _ _ Hpl) LBlocked) as Hd. rewrite HB in Hd.
  by apply dlist_mid in Hd as [_ ?].
Qed.

Lemma wake_loop_spec m (D : nat → Prop) `{∀ i, Decision (D i)} (PR : nat → nat) :
  ∀ todo fuel s L kept,
  inv m s L → L LBlocked = kept ++ todo → (length todo <= fuel)%nat →
  (∀ j t, j ∈ todo → tv s j = Some t → (D j ↔ t_wake_time t <= s_tick s) ∧ PR j = t_priority t) →
  ∃ s' L', wake_loop fuel (head todo) s = Some s' ∧ inv m s' L' ∧ rest s' = rest s ∧
    L' LBlocked = kept ++ filter (λ i, ¬ D i) todo ∧ L' LFree = L LFree ∧
    (∀ p, L' (LReady p) = rev (filter (λ i, D i ∧ PR i = p) todo) ++ L (LReady p)) ∧
    ∀ j, tv s' j = if decide (j ∈ todo ∧ D j) then with_state TASK_STATE_READY <$> tv s j
                   else tv s j.
Proof.
  induction todo as [|i todo IH]; intros fuel s L kept Hi HB Hf HD.
  { destruct fuel; eexists s, L; (split_and!; [done|done|done|done|done|done|]; intros j;
      rewrite decide_False by (intros [?%not_elem_of_nil _]; done); done). }
  destruct fuel as [|fuel]; [cbn in Hf; lia|]. cbn [head wake_loop].
  pose proof (inv_placed _ _ _ Hi) as Hpl. pose proof (pl_rep _ _ _ _ Hpl) as Hr.
  assert (i ∈ L LBlocked) as Hin by (rewrite HB; set_solver).
  pose proof (rep_nd _ _ Hr LBlocked) as Hnd. rewrite HB in Hnd.
  apply NoDup_app in Hnd as Hnd'. destruct Hnd' as (Hndk & Hdj & Hnd2).
  apply NoDup_cons in Hnd2 as [Hi2 Hnd2].
  destruct (tv_some s L i Hr) as [t Et]; [by eapply (rep_lt _ _ Hr)|].
  destruct (HD i t) as [HDi HPi]; [left|done|].
  pose proof (blocked_next _ _ _ _ _ _ _ Hpl HB) as Hnx.
  pose proof Et as Eg. apply tv_tget in Eg as (t0 & E & _ & _ & _ & _ & Ew & _).
  unfold nx in Hnx. rewrite E in Hnx |- *. cbn [mbind option_bind] in Hnx |- *. rewrite Hnx, Ew.
  destruct (decide (D i)) as [Hdi|Hdi].
  - apply HDi in Hdi as Hle. rewrite (proj2 (Z.leb_le _ _)) by done.
    destruct (wake_one m s L i t Hi Hin Et) as (s1 & s2 & s3 & E1 & E2 & E3 & Hi3 & Q3 & V3).
    rewrite E1. cbn [mbind option_bind]. rewrite E2. cbn [mbind option_bind]. rewrite E3.
    cbn [mbind option_bind].
    destruct (IH fuel s3 _ kept Hi3) as (s' & L' & E' & Hi' & Q' & HB' & HF' & HR' & V').
    + rewrite fn_lookup_insert_ne, fn_lookup_insert, HB by done. by apply remove1_split.
    + cbn in Hf. lia.
    + intros j tj Hj. rewrite V3, decide_False by (intros ->; done). intros Etj.
      destruct (rest_scalar _ _ Q3) as (_ & _ & _ & _ & -> & _). apply HD; [by right|done].
    + exists s', L'. split_and!; [done|done|congruence| | | |].
      * rewrite HB', filter_cons_False by naive_solver. done.
      * by rewrite HF', !fn_lookup_insert_ne.
      * intros p. rewrite HR'. destruct (decide (PR i = p)) as [Hp|Hp].
        -- rewrite filter_cons_True by done. cbn [rev]. rewrite <- app_assoc. cbn [app].
           assert (LReady p = LReady (t_priority t)) as -> by congruence.
           by rewrite fn_lookup_insert.
        -- rewrite filter_cons_False by naive_solver.
           rewrite fn_lookup_insert_ne, fn_lookup_insert_ne by congruence. done.
      * intros j. rewrite V', V3. destruct (decide (i = j)) as [<-|Hij].
        -- rewrite decide_False by (intros [? _]; done). rewrite decide_True by (split; [left|done]).
           by rewrite Et.
        -- destruct (decide (j ∈ todo ∧ D j)) as [Hj|Hj].
           ++ rewrite decide_True; [done|]. split; [right; apply Hj|apply Hj].
           ++ rewrite decide_False; [done|]. intros [[->|?]%elem_of_cons ?]; [done|]. by apply Hj.
  - assert (¬ t_wake_time t <= s_tick s) as Hgt by naive_solver.
    rewrite (proj2 (Z.leb_gt _ _)) by lia. cbn [mbind option_bind].
    destruct (IH fuel s L (kept ++ [i]) Hi) as (s' & L' & E' & Hi' & Q' & HB' & HF' & HR' & V').
    + by rewrite <- app_assoc.
    + cbn in Hf. lia.
    + intros j tj Hj Etj. apply HD; [by right|done].
    + exists s', L'. split_and!; [done|done|congruence| |done| |].
      * rewrite HB', filter_cons_True by done. by rewrite <- app_assoc.
      * intros p. rewrite HR', filter_cons_False by naive_solver. done.
      * intros j. rewrite V'. destruct (decide (j ∈ todo ∧ D j)) as [Hj|Hj].
        -- rewrite decide_True; [done|]. split; [right; apply Hj|apply Hj].
        -- rewrite decide_False; [done|]. intros [[->|?]%elem_of_cons ?]; [done|]. by apply Hj.
Qed.

Lemma next_wake_loop_spec m s L cur :
  placed m s L cur → ∀ todo fuel kept best,
  L LBlocked = kept ++ todo → (length todo <= fuel)%nat →
  next_wake_loop fuel (head todo) best s = Some (foldl Z.min best (wake_of s <$> todo)).
Proof.
  intros Hpl. pose proof (pl_rep _ _ _ _ Hpl) as Hr.
  induction todo as [|i todo IH]; intros fuel kept best HB Hf; [by destruct fuel|].
  destruct fuel as [|fuel]; [cbn in Hf; lia|]. cbn [head next_wake_loop].
  destruct (tv_some s L i Hr) as [t Et].
  { apply (rep_lt _ _ Hr LBlocked). rewrite HB. set_solver. }
  pose proof (blocked_next _ _ _ _ _ _ _ Hpl HB) as Hnx.
  pose proof Et as Eg. apply tv_tget in Eg as (t0 & E & _ & _ & _ & _ & Ew & _).
  unfold nx in Hnx. rewrite E in Hnx |- *. cbn [mbind option_bind] in Hnx |- *. rewrite Hnx, Ew.
  rewrite (IH fuel (kept ++ [i])); [|by rewrite <- app_assoc|cbn in Hf; lia].
  cbn [fmap list_fmap foldl]. do 2 f_equal. unfold wake_of. rewrite Et. cbn.
  destruct (_ <? _) eqn:El; bool_hyps; lia.
Qed.

(** The lists after a tick at time [now]. *)
Definition woken now s L (p : nat) : list nat :=
  filter (λ i, due now s i ∧ prio_of s i = p) (L LBlocked).
Definition still_blocked now s L : list nat := filter (λ i, ¬ due now s i) (L LBlocked).

Definition next_wake_of s (l : list nat) : Z := foldl Z.min UINT32_MAX (wake_of s <$> l).

Definition gap_of (next_wake now : Z) : Z :=
  if negb (next_wake =? UINT32_MAX) && (now <? next_wake) then next_wake - now else UINT32_MAX.

Lemma foldl_min_u32 s L l cur m :
  placed m s L cur → ∀ b, is_u32 b → (∀ i, i ∈ l → (i < MAX_TASKS)%nat) →
  is_u32 (foldl Z.min b (wake_of s <$> l)).
Proof.
  intros Hpl. induction l as [|i l IH]; intros b Hb Hl; [done|]. cbn [fmap list_fmap foldl].
  apply IH; [|intros j Hj; apply Hl; by right].
  destruct (tv_some s L i (pl_rep _ _ _ _ Hpl)) as [t Et]; [apply Hl; left|].
  pose proof (pl_tcb _ _ _ _ Hpl _ _ Et) as [_ Hw]. unfold wake_of. rewrite Et. cbn.
  unfold in_w in *. lia.
Qed.

Lemma blocked_length m s L cur l : placed m s L cur → (length (L l) <= MAX_TASKS)%nat.
Proof.
  intros Hpl. pose proof (pl_rep _ _ _ _ Hpl) as Hr.
  rewrite <- (length_seq MAX_TASKS 0). apply submseteq_length, NoDup_submseteq; [apply Hr|].
  intros i Hi. apply elem_of_seq. pose proof (rep_lt _ _ Hr l i Hi). lia.
Qed.

Lemma scheduler_tick_eq m s L :
  inv m s L →
  let now := u32 (s_tick s + 1) in
  ∃ s' L', scheduler_tick s = Some s' ∧ inv m s' L' ∧
    s_tick s' = now ∧ s_current s' = s_current s ∧ s_started s' = s_started s ∧
    L' LBlocked = still_blocked now s L ∧ L' LFree = L LFree ∧
    (∀ p, L' (LReady p) = rev (woken now s L p) ++ L (LReady p)) ∧
    (∀ i, tv s' i = if decide (i ∈ L LBlocked ∧ due now s i)
                    then with_state TASK_STATE_READY <$> tv s i else tv s i) ∧
    tl_next_wake (s_tl s') = next_wake_of s (L' LBlocked) ∧
    gov_tick now (gap_of (tl_next_wake (s_tl s')) now) (bool_decide (is_Some (pick L'))) (s_gov s)
      = Some (s_gov s').
Proof.
  intros Hi now. destruct (inv_lock_view m s L Hi) as (Hi0 & Ec & Et & Vl).
  assert (s_gov (scheduler_lock s) = s_gov s ∧ s_started (scheduler_lock s) = s_started s) as [Egl Esl]
    by (unfold scheduler_lock; by destruct (negb _)).
  unfold scheduler_tick. revert Hi0 Ec Et Vl Egl Esl. generalize (scheduler_lock s).
  intros s0 Hi0 Ec Et Vl Egl Esl. rewrite Et. fold now. set (s1 := set_tick now s0).
  assert (inv m s1 L) as Hi1.
  { destruct Hi0 as [I1 I2 I3 I4 I5 I6 I7]. split; try done; [|by apply wrap_in_w].
    by eapply placed_scalar; [..|exact I1]. }
  assert (∀ j, tv s1 j = tv s j) as V1 by (intros j; by rewrite (tv_scalar s0 s1), Vl).
  pose proof (inv_placed _ _ _ Hi1) as Hpl1.
  assert (head_of LBlocked s1 = head (L LBlocked)) as Ehd by (eapply dlist_head, (pl_rep _ _ _ _ Hpl1)).
  rewrite Ehd.
  destruct (wake_loop_spec m (due now s) (prio_of s) (L LBlocked) task_fuel s1 L [] Hi1 eq_refl)
    as (s2 & L2 & E2 & Hi2 & Q2 & HB & HF & HR & V2).
  { pose proof (blocked_length _ _ _ _ LBlocked Hpl1). unfold task_fuel. lia. }
  { intros j t _ Etj. rewrite V1 in Etj. unfold due, wake_of, prio_of. by rewrite Etj. }
  rewrite E2. cbn [mbind option_bind app] in *. unfold scheduler_update_next_wake_tick.
  pose proof (inv_placed _ _ _ Hi2) as Hpl2.
  assert (head_of LBlocked s2 = head (L2 LBlocked)) as -> by (eapply dlist_head, (pl_rep _ _ _ _ Hpl2)).
  rewrite (next_wake_loop_spec m s2 L2 _ Hpl2 _ _ []);
    [|done|pose proof (blocked_length _ _ _ _ LBlocked Hpl2); unfold task_fuel; lia].
  cbn [mbind option_bind].
  destruct (rest_scalar _ _ Q2) as (_ & _ & _ & Eg2 & Eti2 & Ec2).
  assert (next_wake_of s (L2 LBlocked) = foldl Z.min UINT32_MAX (wake_of s2 <$> L2 LBlocked)) as <-.
  { unfold next_wake_of. f_equal. apply list_fmap_ext. intros k i Hk. unfold wake_of.
    rewrite V2. rewrite decide_False; [by rewrite V1|]. intros [_ Hd].
    apply list_elem_of_lookup_2 in Hk. rewrite HB in Hk.
    apply list_elem_of_filter in Hk as [Hk _]. done. }
  set (w := next_wake_of s (L2 LBlocked)). set (s3 := set_next_wake w s2).
  assert (inv m s3 L2) as Hi3.
  { destruct Hi2 as [I1 I2 I3 I4 I5 I6 I7]. split; try done. by eapply placed_scalar; [..|exact I1]. }
  pose proof (runnable_pick _ _ _ _ (inv_placed _ _ _ Hi3)) as Hrp.
  assert (runnable (task_get_highest_ready s3) s3 = Some (bool_decide (is_Some (pick L2)))) as ->.
  { destruct (pick L2) as [n|]; [by destruct Hrp as [-> ->]|exact Hrp]. }
  cbn [mbind option_bind]. cbn [s_tl s3 set_next_wake set_tl tl_next_wake s_tick s_gov].
  assert (s_tick s2 = now) as En by done. assert (s_gov s2 = s_gov s) as Eg by by rewrite Eg2.
  rewrite En, Eg. fold (gap_of w now).
  assert (is_u32 w) as Hw.
  { unfold w, next_wake_of. apply (foldl_min_u32 s L _ (s_current s) m); [apply Hi|by vm_compute|].
    intros i Hin. by eapply (rep_lt _ _ (pl_rep _ _ _ _ Hpl2)). }
  destruct (gov_tick_ok now (gap_of w now) (bool_decide (is_Some (pick L2))) (s_gov s)) as (g & E & Hg).
  { apply Hi. }
  { unfold gap_of. destruct (_ && _) eqn:Eb; [|by vm_compute]. bool_hyps.
    assert (is_u32 now) by by apply wrap_in_w. unfold in_w in *. lia. }
  rewrite E. cbn [mbind option_bind].
  assert (inv m (set_gov g s3) L2) as Hi4.
  { destruct Hi3 as [I1 I2 I3 I4 I5 I6 I7]. split; try done. by eapply placed_scalar; [..|exact I1]. }
  exists (scheduler_unlock (set_gov g s3)), L2.
  assert (∀ x : scheduler_t G, s_tick (scheduler_unlock x) = s_tick x ∧
    s_current (scheduler_unlock x) = s_current x ∧ s_started (scheduler_unlock x) = s_started x ∧
    s_tl (scheduler_unlock x) = s_tl x ∧
    s_gov (scheduler_unlock x) = s_gov x) as Hu by (intros x; unfold scheduler_unlock; by destruct (_ && _)).
  destruct (Hu (set_gov g s3)) as (-> & -> & -> & -> & ->).
  split_and!; try done.
  - by apply inv_unlock.
  - change (s_current s2 = s_current s). by rewrite Ec2.
  - change (s_started (rest s2) = s_started s). by rewrite Q2.
  - intros i. rewrite unlock_view. rewrite (tv_scalar s2) by done. by rewrite V2, V1.
Qed.
End Spec.
