(* ===== verification/SchedulerThm.v ===== *)
(** * The scheduler's theorems

    The operations of kernel/scheduler.c as the steps of a machine, started by
    [scheduler_init], in which the running thread - the main thread or a task -
    calls one operation after another, each followed by the landing of the jump it
    ends in. *)

From Stdlib Require Import ZArith Lia.
From stdpp Require Import base tactics option numbers sets functions list.
From S2P Require Import Prelude.
From S2P Require Import Dll.
From S2P Require Import Power.
From S2P Require Import PowerGovernor.
From S2P Require Import Scheduler.
From S2P Require Import SchedulerRep.
From S2P Require Import SchedulerSpec.

Section Machine.
Context {G : Type} `{Governor G}.
Implicit Types (s : scheduler_t G) (i j m c : nat) (t : task_tcb_t).

Variable min_stack : Z.

(** ** Reading the lists of a state *)

Fixpoint walk (fuel : nat) (h : option nat) s : list nat :=
  match fuel, h with
  | S fuel, Some i => i :: walk fuel (nx s i) s
  | _, _ => []
  end.

Definition list_of (l : lst) s : list nat := walk task_fuel (head_of l s) s.

Lemma list_of_rep s L l : rep s L → list_of l s = L l.
Proof.
  intros Hr. unfold list_of.
  assert (length (L l) <= task_fuel)%nat as Hlen.
  { rewrite <- (length_seq task_fuel 0). apply submseteq_length, NoDup_submseteq; [apply Hr|].
    intros i Hi. apply elem_of_seq. pose proof (rep_lt _ _ Hr l i Hi). unfold task_fuel. lia. }
  pose proof (rep_dll _ _ Hr l) as Hd. revert Hd Hlen. generalize (head_of l s) (@None nat) task_fuel.
  induction (L l) as [|i k IH]; intros h p f Hd Hf; cbn in *.
  - subst h. by destruct f.
  - destruct f as [|f]; [lia|]. destruct Hd as (-> & _ & Hd). cbn. f_equal.
    eapply IH; [exact Hd|lia].
Qed.

Definition well_formed s : Prop := ∃ m L, inv m s L.

Lemma tget_state s j : t_state <$> tget j s = t_state <$> tv s j.
Proof. unfold tv. by destruct (tget j s). Qed.

(** ** The machine *)

Inductive sched_event :=
  | EvTick | EvStart | EvStep | EvYield | EvSleep (ticks : Z) | EvSuspend (i : nat)
  | EvResume (i : nat)
  | EvCreate (name : list Z) (entry : option nat) (arg : Z) (priority : nat) (size : Z)
      (alloc : option Z)
  | EvDelete (i : nat) | EvExit | EvLock | EvUnlock | EvEnterIsr | EvExitIsr.

Definition landed (o : option (out * scheduler_t G)) : option (scheduler_t G) :=
  o ← o; r ← land o; Some r.2.

(** A task's [task_sleep] does not use the main thread's loop. *)
Definition sched_exec (e : sched_event) s : option (scheduler_t G) :=
  match e with
  | EvTick => scheduler_tick s
  | EvStart => landed (scheduler_start s)
  | EvStep => landed (scheduler_step s)
  | EvYield => landed (task_yield s)
  | EvSleep ticks => landed (task_sleep 0 (λ _, None) ticks s)
  | EvSuspend i => landed (task_suspend (Some i) s)
  | EvResume i => task_resume (Some i) s
  | EvCreate name entry arg priority size alloc =>
    r ← task_create min_stack name entry arg priority size alloc s; Some r.2
  | EvDelete i => r ← task_delete (Some i) s; Some r.2
  | EvExit => landed (trampoline_exit s)
  | EvLock => Some (scheduler_lock s)
  | EvUnlock => Some (scheduler_unlock s)
  | EvEnterIsr => Some (scheduler_enter_isr s)
  | EvExitIsr => Some (scheduler_exit_isr s)
  end.

(** A handle that [task_create] returned and [task_delete] has not released. *)
Definition valid_handle s i : bool :=
  bool_decide ((i < MAX_TASKS)%nat ∧ i ∉ list_of LFree s).

(** What the callers keep to: the main loop drives the scheduler's steps, only a
    task sleeps by blocking or exits, the main thread does not suspend itself, and
    handles are valid. *)
Definition allowed (e : sched_event) s : bool :=
  match e with
  | EvStart | EvStep => bool_decide (s_current s = s_main s)
  | EvSleep _ | EvExit => bool_decide (s_current s ≠ s_main s)
  | EvSuspend i => valid_handle s i &&
      bool_decide (s_current s ≠ Some i ∨ s_current s ≠ s_main s)
  | EvResume i | EvDelete i => valid_handle s i
  | _ => true
  end.

Fixpoint sched_run (es : list sched_event) s : option (scheduler_t G) :=
  match es with [] => Some s | e :: es => s ← sched_exec e s; sched_run es s end.

(** Every event of the sequence is allowed where it happens. *)
Fixpoint all_allowed (es : list sched_event) s : bool :=
  match es with
  | [] => true
  | e :: es =>
    allowed e s && match sched_exec e s with Some s => all_allowed es s | None => true end
  end.

(** ** Every step keeps the state well formed *)

Lemma landed_task m s L c t :
  inv m s L → s_current s = Some c → c ≠ m → tv s c = Some t → is_Some (t_ctx t) →
  ∃ s', landed (Some (JumpTask c, s)) = Some s' ∧ well_formed s'.
Proof.
  intros Hi Hc Hcm Et Hctx. destruct (land_inv m s L c t Hi Hc Hcm Et Hctx) as (z & s' & E & Hi' & _).
  exists s'. unfold landed. cbn [mbind option_bind]. rewrite E. split; [done|]. by exists m, L.
Qed.

Lemma step_well_formed m s L :
  inv m s L → s_current s = Some m →
  ∃ s', landed (scheduler_step s) = Some s' ∧ well_formed s'.
Proof.
  intros Hi Hc. destruct (s_started s) eqn:Hst.
  2:{ unfold scheduler_step. rewrite Hst. exists s. split; [done|]. by exists m, L. }
  pose proof (scheduler_step_eq m s L Hi Hc Hst) as Hs. destruct (pick L) as [n|].
  - destruct Hs as (s' & t & -> & Et & Hctx & Hnm & Hi' & Q & V).
    eapply landed_task; [exact Hi'| |done|by rewrite V, decide_True|exact Hctx].
    change (s_current (rest s') = Some n). by rewrite Q.
  - destruct Hs as [-> Hi']. eexists. split; [done|]. by exists m, L.
Qed.

Lemma valid_handle_in_use m s L i : inv m s L → valid_handle s i = true → in_use L i.
Proof.
  intros Hi Hv. apply bool_decide_eq_true in Hv as [Hlt Hf].
  rewrite (list_of_rep s L) in Hf by apply Hi. by split.
Qed.

Lemma yield_well_formed m s L :
  inv m s L → ∃ s', landed (task_yield s) = Some s' ∧ well_formed s'.
Proof.
  intros Hi. destruct (inv_running _ _ _ Hi) as [c Hc]. destruct (decide (c = m)) as [->|Hcm].
  - (* the main thread *)
    unfold task_yield. destruct (inv_lock_view m s L Hi) as (Hi' & Ec & _).
    assert (s_main (scheduler_lock s) = Some m) as Em by apply Hi'.
    rewrite Ec, Hc, Em, decide_True by done.
    assert (s_current (scheduler_unlock (scheduler_lock s)) = Some m) as Ec2.
    { unfold scheduler_unlock. destruct (_ && _); cbn; by rewrite Ec. }
    destruct (step_well_formed m (scheduler_unlock (scheduler_lock s)) L) as (s' & E & Hw);
      [by apply inv_unlock|done|].
    exists s'. split; [|done]. rewrite <- E. unfold landed.
    destruct (scheduler_step _) as [[[z|n|] s2]|]; done.
  - destruct (current_on m s L c Hi Hc Hcm) as (_ & _ & t & Et & _).
    pose proof (task_yield_eq m s L c t Hi Hc Hcm Et) as Hy. destruct (pick L) as [n|].
    + destruct Hy as (s' & tn & -> & Etn & Hctx & Hnm & Hnc & Hi' & Q & V).
      eapply landed_task; [exact Hi'| |done|by rewrite V, decide_True|exact Hctx].
      change (s_current (rest s') = Some n). by rewrite Q.
    + destruct Hy as (s' & -> & Hi' & _). exists s'. split; [done|]. by eexists _, _.
Qed.

Lemma suspend_well_formed m s L i :
  inv m s L → in_use L i → s_current s ≠ Some i ∨ s_current s ≠ Some m →
  ∃ s', landed (task_suspend (Some i) s) = Some s' ∧ well_formed s'.
Proof.
  intros Hi Hu Hg.
  destruct (tv_some s L i (pl_rep _ _ _ _ (inv_placed _ _ _ Hi)) (proj1 Hu)) as [t Et].
  destruct (decide (s_current s = Some i)) as [Hc|Hc].
  - assert (i ≠ m) as Him by (intros ->; naive_solver).
    destruct (task_suspend_self_inv m s L i t Hi Hc Him Et) as (o & s' & L' & E & Hi' & Ho & _).
    rewrite E. destruct o as [z|n|]; [done| |].
    + destruct Ho as (_ & Ec & Hnm & tn & Etn & Hctx). by eapply landed_task.
    + exists s'. split; [done|]. by eexists _, _.
  - destruct (task_suspend_other_inv m s L i t Hi Hc Hu Et) as (s' & L' & -> & Hi' & _).
    exists s'. split; [done|]. by eexists _, _.
Qed.

Lemma start_well_formed m s L :
  inv m s L → s_current s = Some m →
  ∃ s', landed (scheduler_start s) = Some s' ∧ well_formed s'.
Proof.
  intros Hi Hc. unfold scheduler_start. destruct (s_started s) eqn:Hst.
  { exists s. split; [done|]. by exists m, L. }
  assert (inv m (set_started true s) L) as Hi1.
  { destruct Hi as [I1 I2 I3 I4 I5 I6 I7]. split; try done. by eapply placed_scalar; [..|exact I1]. }
  change (s_main (set_started true s)) with (s_main s). rewrite (inv_main _ _ _ Hi).
  cbn [mbind option_bind]. destruct (pl_main _ _ _ _ (inv_placed _ _ _ Hi1)) as [Hmo Hml].
  destruct (tv_some _ L m (pl_rep _ _ _ _ (inv_placed _ _ _ Hi1)) Hml) as [t Et].
  destruct (update_off m (set_started true s) L m t (with_ctx (Some RP_start)))
    as (s1 & E1 & Hi2 & Q1 & _); [done..|exact (pl_tcb _ _ _ _ (inv_placed _ _ _ Hi1) _ _ Et)| |].
  { pose proof (pl_off _ _ _ _ (inv_placed _ _ _ Hi1) _ _ Hmo Et) as Ho. unfold off_ok in *.
    cbn. destruct (t_state t); naive_solver. }
  rewrite E1. cbn [mbind option_bind]. apply (step_well_formed m s1 L); [done|].
  destruct (rest_scalar _ _ Q1) as (_ & _ & _ & _ & _ & ->). done.
Qed.

Lemma sched_exec_ok e s :
  well_formed s → allowed e s = true → ∃ s', sched_exec e s = Some s' ∧ well_formed s'.
Proof.
  intros (m & L & Hi) Ha. pose proof (inv_main _ _ _ Hi) as Em.
  destruct (inv_running _ _ _ Hi) as [c Hc].
  pose proof (inv_placed _ _ _ Hi) as Hpl. pose proof (pl_rep _ _ _ _ Hpl) as Hr.
  destruct e as [| | | |ticks|i|i|name entry arg prio size alloc|i| | | | |];
    cbn [sched_exec allowed] in *.
  - destruct (scheduler_tick_eq m s L Hi) as (s' & L' & E & Hi' & _). exists s'. split; [done|].
    by eexists _, _.
  - apply bool_decide_eq_true in Ha. apply (start_well_formed m s L Hi). congruence.
  - apply bool_decide_eq_true in Ha. apply (step_well_formed m s L Hi). congruence.
  - by apply (yield_well_formed m s L).
  - apply bool_decide_eq_true in Ha. assert (c ≠ m) as Hcm by congruence.
    destruct (current_on m s L c Hi Hc Hcm) as (_ & _ & t & Et & _).
    destruct (task_sleep_eq m s L c t 0 (λ _, None) ticks Hi Hc Hcm Et) as (s' & -> & Hi' & _).
    exists s'. split; [done|]. by eexists _, _.
  - apply andb_true_iff in Ha as [Hv Hg]. apply bool_decide_eq_true in Hg. rewrite Em in Hg.
    apply (suspend_well_formed m s L i Hi); [by eapply valid_handle_in_use|done].
  - pose proof (valid_handle_in_use m s L i Hi Ha) as Hu.
    destruct (tv_some s L i Hr (proj1 Hu)) as [t Et].
    destruct (task_resume_inv m s L i t Hi (proj1 Hu) Et (or_introl Hu)) as (s' & E & Hs').
    exists s'. split; [done|]. exists m. destruct (decide _); destruct Hs' as [Hi' _]; by eexists.
  - destruct (task_create_inv m s L min_stack name entry arg prio size alloc Hi)
      as (r & h & s' & L' & -> & Hi' & _). exists s'. split; [done|]. by eexists _, _.
  - pose proof (valid_handle_in_use m s L i Hi Ha) as Hu.
    destruct (tv_some s L i Hr (proj1 Hu)) as [t Et].
    destruct (task_delete_inv m s L i t Hi Hu Et) as (r & s' & L' & -> & Hi' & _).
    exists s'. split; [done|]. by eexists _, _.
  - apply bool_decide_eq_true in Ha. assert (c ≠ m) as Hcm by congruence.
    destruct (trampoline_exit_inv m s L c Hi Hc Hcm) as (s' & -> & Hi' & _).
    exists s'. split; [done|]. by eexists _, _.
  - eexists. split; [done|]. exists m, L. by apply inv_lock.
  - eexists. split; [done|]. exists m, L. by apply inv_unlock.
  - eexists. split; [done|]. exists m, L. by apply inv_isr.
  - eexists. split; [done|]. exists m, L. unfold scheduler_exit_isr.
    repeat (case_match; try apply inv_isr); done.
Qed.

(** ** The initial state *)

Definition initial_lists (l : lst) : list nat :=
  match l with LReady O => [7] | LFree => [5; 4; 3; 2; 1; 0] | _ => [] end%nat.

Lemma scheduler_init_ok entry base s :
  gov_inv (s_gov s) → s_last s = None →
  ∃ s', scheduler_init min_stack entry (Some base) s = Some (0, s') ∧ inv 6 s' initial_lists ∧
    s_current s' = Some 6%nat ∧ s_started s' = false.
Proof.
  intros Hg Hl. eexists. split.
  { unfold scheduler_init. rewrite Hl.
    cbv -[Z.land Z.add Z.ltb Z.lnot gov_reset]. reflexivity. }
  split; [|done]. split; [|done..|by apply gov_reset_ok|done].
  split.
  - split; [done|done| | | |].
    + intros [[|[|[|[|[|p]]]]]| |]; cbn; try done; by repeat split.
    + intros [[|p]| |]; cbn; try apply NoDup_nil_2; vm_decide.
    + intros [[|p]| |] i; cbn; intros Hi; try (by apply not_elem_of_nil in Hi); set_unfold; unfold MAX_TASKS; lia.
    + intros [[|p]| |] [[|p']| |] i; cbn; intros Hi Hi'; try (by apply not_elem_of_nil in Hi);
        try (by apply not_elem_of_nil in Hi'); try done; set_unfold; lia.
  - intros [[|p]| |] i t; cbn; intros Hi; try (by apply not_elem_of_nil in Hi).
    + apply list_elem_of_singleton in Hi as ->. cbn. intros [= <-]. cbn. by eauto.
    + repeat (apply elem_of_cons in Hi as [->|Hi]; [cbn; intros [= <-]; cbn; by left|]).
      by apply not_elem_of_nil in Hi.
  - intros i t Ho. do 8 (destruct i as [|i];
      [cbn; intros [= <-];
       first [by left
             |by destruct (Ho LFree); cbn; set_solver|by destruct (Ho (LReady 0)); cbn; set_solver]|]).
    done.
  - split; [intros [[|p]| |]; cbn; set_solver|unfold MAX_TASKS; lia].
  - intros c [= <-]. split; [intros [[|p]| |]; cbn; set_solver|unfold MAX_TASKS; lia].
  - intros i t. do 8 (destruct i as [|i];
      [cbn; intros [= <-]; split; cbn; [lia|by vm_compute]|]). done.
Qed.

(** ** The properties *)

(** Where a slot of a well-formed state is. *)
Lemma slot_places m s' L :
  inv m s' L → ∀ i, (i < MAX_TASKS)%nat → ∃ t, tget i s' = Some t ∧
      match t_state t with
      | TASK_STATE_READY => i ∈ list_of (LReady (t_priority t)) s' ∨ i ∈ list_of LFree s'
      | TASK_STATE_RUNNING => s_main s' = Some i ∨ s_current s' = Some i
      | TASK_STATE_BLOCKED => i ∈ list_of LBlocked s' ∧ is_Some (t_ctx t)
      | TASK_STATE_SUSPENDED => is_Some (t_ctx t) ∧ s_current s' ≠ Some i
      | TASK_STATE_TERMINATED => s_current s' ≠ Some i
      end.
Proof.
  intros Hi i Hlt.
  pose proof (inv_placed _ _ _ Hi) as Hpl. pose proof (pl_rep _ _ _ _ Hpl) as Hr.
  destruct (tget_lt s' L i Hr Hlt) as [t Et]. exists t. split; [done|].
  assert (tv s' i = Some (data t)) as Ev by (unfold tv; by rewrite Et).
  rewrite (inv_main _ _ _ Hi), !(list_of_rep s' L) by done.
  destruct (place_dec s' L i Hr) as [(l & Hin & _)|Ho].
  - assert (s_current s' ≠ Some i) as Hc.
    { intros Ec. by destruct (proj1 (pl_cur _ _ _ _ Hpl i Ec) l). }
    pose proof (pl_on _ _ _ _ Hpl _ _ _ Hin Ev) as Hon.
    change (t_state t) with (t_state (data t)). change (t_priority t) with (t_priority (data t)).
    destruct l; cbn [on_ok] in Hon.
    + destruct Hon as (-> & -> & _). by left.
    + destruct Hon as (-> & Hctx). by split.
    + destruct Hon as [-> | ->]; [by right|done].
  - pose proof (pl_off _ _ _ _ Hpl _ _ Ho Ev) as Hoff. unfold off_ok in Hoff.
    change (t_state (data t)) with (t_state t) in Hoff. change (t_ctx (data t)) with (t_ctx t) in Hoff.
    destruct (t_state t); [done| |done| |].
    + destruct Hoff as [-> | ?]; auto.
    + by destruct Hoff as (? & _ & ?).
    + by destruct Hoff as [_ ?].
Qed.

(** C4.  The scheduler is safe from initialisation on: whatever sequence of
    allowed calls the main thread and the tasks make, interleaved with ticks and
    interrupts, no step dereferences NULL, follows a list out of the slot array or
    jumps to a context that was never saved, and every slot of the resulting state
    is where its state says. *)
Theorem scheduler_runs_safely entry base s r s0 es :
  gov_inv (s_gov s) → s_last s = None →
  scheduler_init min_stack entry (Some base) s = Some (r, s0) → all_allowed es s0 = true →
  ∃ s', sched_run es s0 = Some s' ∧ well_formed s' ∧
    (∀ i, (i < MAX_TASKS)%nat → ∃ t, tget i s' = Some t ∧
      match t_state t with
      | TASK_STATE_READY => i ∈ list_of (LReady (t_priority t)) s' ∨ i ∈ list_of LFree s'
      | TASK_STATE_RUNNING => s_main s' = Some i ∨ s_current s' = Some i
      | TASK_STATE_BLOCKED => i ∈ list_of LBlocked s' ∧ is_Some (t_ctx t)
      | TASK_STATE_SUSPENDED => is_Some (t_ctx t) ∧ s_current s' ≠ Some i
      | TASK_STATE_TERMINATED => s_current s' ≠ Some i
      end).
Proof.
  intros Hg Hl E0 Ha.
  destruct (scheduler_init_ok entry base s Hg Hl) as (s1 & E1 & Hi1 & _).
  rewrite E0 in E1. injection E1 as _ ->.
  assert (well_formed s1) as Hw by by eexists _, _.
  assert (∃ s', sched_run es s1 = Some s' ∧ well_formed s') as (s' & E & m & L & Hi).
  { clear E0 Hi1. revert s1 Hw Ha. induction es as [|e es IH]; intros s1 Hw Ha; [by exists s1|].
    cbn [all_allowed sched_run] in *. apply andb_true_iff in Ha as [Ha Hes].
    destruct (sched_exec_ok e s1 Hw Ha) as (s2 & E2 & Hw2). rewrite E2 in Hes |- *. by apply IH. }
  exists s'. split; [exact E|]. split; [by exists m, L|]. by eapply slot_places.
Qed.

(** The ready tasks the scheduler may run, best first. *)
Definition runnable_tasks s : list nat :=
  list_of (LReady 4) s ++ list_of (LReady 3) s ++ list_of (LReady 2) s ++ list_of (LReady 1) s.

Lemma runnable_tasks_rep s L : rep s L → runnable_tasks s = ready_tasks L.
Proof. intros Hr. unfold runnable_tasks. by rewrite !(list_of_rep s L). Qed.

(** C5.  A scheduling step of the main thread runs the best task: with no runnable
    task it only counts an idle step; otherwise it switches to the first task of
    the highest non-empty ready list, which becomes current and RUNNING and leaves
    its list, every other list and task staying as it was. *)
Theorem scheduler_step_picks s :
  well_formed s → s_current s = s_main s → s_started s = true →
  match runnable_tasks s with
  | [] => scheduler_step s = Some (Ret 0, set_gov (gov_note_idle (s_gov s)) s)
  | n :: _ =>
    ∃ s' t, scheduler_step s = Some (JumpTask n, s') ∧ tget n s = Some t ∧ well_formed s' ∧
      (∀ i ti, i ∈ runnable_tasks s → tget i s = Some ti → (t_priority ti <= t_priority t)%nat) ∧
      s_current s' = Some n ∧ (t_state <$> tget n s') = Some TASK_STATE_RUNNING ∧
      (∀ l, list_of l s' = remove1 n (list_of l s)) ∧
      (∀ i, i ≠ n → t_state <$> tget i s' = t_state <$> tget i s)
  end.
Proof.
  intros (m & L & Hi) Hc Hst. rewrite (inv_main _ _ _ Hi) in Hc.
  pose proof (inv_placed _ _ _ Hi) as Hpl. pose proof (pl_rep _ _ _ _ Hpl) as Hr.
  pose proof (scheduler_step_eq m s L Hi Hc Hst) as Hs. rewrite (runnable_tasks_rep s L Hr).
  pose proof (λ n, pick_spec m s L _ n Hpl) as Hpick. unfold pick in *.
  destruct (ready_tasks L) as [|n rt] eqn:Ert; cbn [head] in *; [apply Hs|].
  destruct Hs as (s' & t' & E & Et & Hctx & Hnm & Hi' & Q & V).
  pose proof Et as Eg. apply tv_tget in Eg as (t & Eg & -> & _).
  exists s', t. split; [done|]. split; [done|]. split; [by eexists _, _|].
  destruct (Hpick n eq_refl) as (t2 & Et2 & Hin & Hp & _ & Hmax).
  rewrite Et in Et2. injection Et2 as <-.
  split_and!.
  - intros i ti Hi2 Eti. rewrite <- Ert in Hi2. unfold ready_tasks in Hi2.
    assert (∃ q, i ∈ L (LReady q) ∧ (1 <= q < 5)%nat) as (q & Hq & Hq5).
    { set_unfold. destruct Hi2 as [?|[?|[?|?]]]; eexists; (split; [eassumption|lia]). }
    assert (tv s i = Some (data ti)) as Ei by (unfold tv; by rewrite Eti).
    destruct (pl_on _ _ _ _ Hpl _ _ _ Hq Ei) as (_ & Epq & _).
    change (t_priority (data ti)) with (t_priority ti) in Epq.
    change (t_priority (data t)) with (t_priority t) in *.
    destruct (decide (t_priority t < q)%nat) as [Hlt|]; [|lia].
    rewrite Hmax in Hq by lia. by apply not_elem_of_nil in Hq.
  - change (s_current (rest s') = Some n). by rewrite Q.
  - by rewrite tget_state, V, decide_True.
  - intros l. rewrite (list_of_rep s' _ l (pl_rep _ _ _ _ (inv_placed _ _ _ Hi'))), (list_of_rep s L) by done.
    unfold after_switch. destruct (decide (LReady (t_priority (data t)) = l)) as [<-|Hne].
    + by rewrite fn_lookup_insert.
    + rewrite fn_lookup_insert_ne by done. symmetry. apply remove1_absent.
      intros Hl. apply Hne. by eapply (rep_disj _ _ Hr).
  - intros i Hin2. by rewrite !tget_state, V, decide_False.
Qed.

(** A tick wakes exactly the tasks that are due: a blocked task whose wake time
    has been reached moves to the ready list of its priority, those woken together
    in front of the tasks already ready and in reverse order of the blocked list;
    the others stay blocked in their order, no other task is touched, and the
    governor is told the distance to the earliest remaining wake-up and whether a
    task is runnable. *)
Theorem scheduler_tick_wakes s :
  well_formed s →
  let now := u32 (s_tick s + 1) in
  let wake i := from_option t_wake_time 0 (tget i s) in
  let prio i := from_option t_priority 0%nat (tget i s) in
  ∃ s', scheduler_tick s = Some s' ∧ well_formed s' ∧
    s_tick s' = now ∧ s_current s' = s_current s ∧
    list_of LBlocked s' = filter (λ i, now < wake i) (list_of LBlocked s) ∧
    (∀ p, list_of (LReady p) s' =
       rev (filter (λ i, wake i <= now ∧ prio i = p) (list_of LBlocked s)) ++
       list_of (LReady p) s) ∧
    list_of LFree s' = list_of LFree s ∧
    (∀ i, t_state <$> tget i s' =
       if decide (i ∈ list_of LBlocked s ∧ wake i <= now) then Some TASK_STATE_READY
       else t_state <$> tget i s) ∧
    tl_next_wake (s_tl s') = foldl Z.min UINT32_MAX (wake <$> list_of LBlocked s') ∧
    gov_tick now (gap_of (tl_next_wake (s_tl s')) now)
      (bool_decide (runnable_tasks s' ≠ [])) (s_gov s) = Some (s_gov s').
Proof.
  intros (m & L & Hi) now wake prio. pose proof (pl_rep _ _ _ _ (inv_placed _ _ _ Hi)) as Hr.
  pose proof (scheduler_tick_eq m s L Hi) as Htk. cbv zeta in Htk.
  change (u32 (s_tick s + 1)) with now in Htk.
  destruct Htk as (s' & L' & E & Hi' & Et & Ec & _ & HB & HF & HR & V & Ew & Eg).
  pose proof (pl_rep _ _ _ _ (inv_placed _ _ _ Hi')) as Hr'.
  assert (∀ i, wake_of s i = wake i) as Hwk by (intros i; unfold wake_of, tv, wake; by destruct (tget i s)).
  assert (∀ i, prio_of s i = prio i) as Hpr by (intros i; unfold prio_of, tv, prio; by destruct (tget i s)).
  exists s'. split; [exact E|]. split; [by exists m, L'|]. split; [done|]. split; [done|].
  rewrite (runnable_tasks_rep s' L' Hr'), !(list_of_rep s' L'), !(list_of_rep s L) by done.
  split_and!.
  - rewrite HB. unfold still_blocked. apply list_filter_iff. intros i. unfold due. rewrite Hwk. lia.
  - intros p. rewrite (list_of_rep s' L'), (list_of_rep s L), HR by done. f_equal. f_equal.
    unfold woken. apply list_filter_iff. intros i. unfold due. by rewrite Hwk, Hpr.
  - done.
  - intros i. rewrite !tget_state, V. unfold due. pose proof (Hwk i) as Hwi.
    destruct (decide (i ∈ L LBlocked ∧ wake i <= now)) as [Hd|Hd].
    + rewrite decide_True by (by rewrite Hwi).
      destruct (tv_some s L i Hr) as [t ->]; [by eapply (rep_lt _ _ Hr), Hd|done].
    + by rewrite decide_False by (by rewrite Hwi).
  - rewrite Ew. unfold next_wake_of. f_equal. apply list_fmap_ext. intros k i _. apply Hwk.
  - rewrite <- Eg. f_equal. apply bool_decide_ext. unfold pick.
    destruct (ready_tasks L'); cbn; split; intros Hx; done.
Qed.

(**  Creating a task and deleting it gives everything back: while a slot is free,
    [task_create] with a stack succeeds with the first free slot, queues it at the
    head of the ready list of its priority, and [task_delete] of that handle from
    any other thread restores every list as it was. *)
Theorem task_create_delete name entry arg priority size base s i fr :
  well_formed s → list_of LFree s = i :: fr → (priority <= TASK_PRIO_CRITICAL)%nat →
  ∃ s1 s2, task_create min_stack name entry arg priority size (Some base) s =
             Some (0, Some i, s1) ∧ well_formed s1 ∧
    list_of LFree s1 = fr ∧ list_of (LReady priority) s1 = i :: list_of (LReady priority) s ∧
    task_delete (Some i) s1 = Some (0, s2) ∧ well_formed s2 ∧
    (∀ l, list_of l s2 = list_of l s) ∧ s_current s2 = s_current s ∧
    (∀ j, j ≠ i → t_state <$> tget j s2 = t_state <$> tget j s).
Proof.
  intros (m & L & Hi) Hfr Hp. pose proof (pl_rep _ _ _ _ (inv_placed _ _ _ Hi)) as Hr.
  rewrite (list_of_rep s L) in Hfr by done. unfold TASK_PRIO_CRITICAL in Hp.
  assert (i ∈ L LFree) as Hin by (rewrite Hfr; left).
  destruct (free_off_main m s L i Hi Hin) as [Him Hic].
  assert (i < MAX_TASKS)%nat as Hlt by by eapply (rep_lt _ _ Hr).
  pose proof (rep_nd _ _ Hr LFree) as Hnd. rewrite Hfr in Hnd. apply NoDup_cons in Hnd as [Hif _].
  destruct (task_create_inv m s L min_stack name entry arg priority size (Some base) Hi)
    as (r & h & s1 & L1 & E1 & Hi1 & Q1 & H1).
  rewrite Hfr, decide_True in H1 by lia. destruct H1 as (-> & -> & -> & t & Et & V1).
  pose proof (pl_rep _ _ _ _ (inv_placed _ _ _ Hi1)) as Hr1.
  set (L1 := <[LReady priority := i :: L (LReady priority)]> (<[LFree := fr]> L)) in *.
  assert (L1 LFree = fr) as EF
    by (unfold L1; by rewrite fn_lookup_insert_ne, fn_lookup_insert by done).
  assert (s_current s1 = s_current s) as Ec1.
  { by apply rest_scalar in Q1 as (_ & _ & _ & _ & _ & ?). }
  destruct (task_delete_inv m s1 L1 i (created name entry arg priority base (Z.max size min_stack) t) Hi1)
    as (r & s2 & L2 & E2 & Hi2 & Q2 & H2).
  { split; [done|]. by rewrite EF. }
  { by rewrite V1, decide_True. }
  rewrite decide_False in H2 by (rewrite Ec1; naive_solver). destruct H2 as (-> & HF2 & HL2 & V2).
  pose proof (pl_rep _ _ _ _ (inv_placed _ _ _ Hi2)) as Hr2.
  exists s1, s2. split; [exact E1|]. split; [by exists m, L1|].
  rewrite !(list_of_rep s1 L1), (list_of_rep s L) by done.
  split; [done|]. split; [unfold L1; by rewrite fn_lookup_insert|]. split; [exact E2|].
  split; [by exists m, L2|]. split_and!.
  - intros l. rewrite (list_of_rep s2 L2), (list_of_rep s L) by done.
    destruct (decide (l = LFree)) as [->|Hl]; [by rewrite HF2, EF|].
    rewrite HL2 by done. unfold L1. destruct (decide (LReady priority = l)) as [<-|Hne].
    + rewrite fn_lookup_insert. apply (remove1_split i []). apply NoDup_cons_2; [|apply Hr].
      intros Hx. by pose proof (rep_disj _ _ Hr _ _ _ Hx Hin).
    + rewrite !fn_lookup_insert_ne by done. apply remove1_absent. intros Hx. apply Hl.
      by eapply (rep_disj _ _ Hr).
  - apply rest_scalar in Q2 as (_ & _ & _ & _ & _ & ?). congruence.
  - intros j Hj. by rewrite !tget_state, V2, decide_False, V1, decide_False.
Qed.

(** ** Yielding *)

Definition yield_turn s : option (scheduler_t G) := landed (task_yield s).

(** Task [c] of priority [p] runs; [a] is ready in front of [others] at that
    priority, nothing is ready above, and both have an entry function. *)
Record turn s c a (others : list nat) (p : nat) : Prop := {
  turn_inv : ∃ m L, inv m s L ∧ s_current s = Some c ∧ c ≠ m ∧
    L (LReady p) = a :: others ∧ (∀ q, (p < q)%nat → L (LReady q) = []) ∧ (1 <= p < 5)%nat ∧
    t_priority <$> tv s c = Some p ∧ t_priority <$> tv s a = Some p ∧
    is_Some (tv s c ≫= t_entry) ∧ is_Some (tv s a ≫= t_entry)
}.

Lemma pick_top L p a others :
  L (LReady p) = a :: others → (∀ q, (p < q)%nat → L (LReady q) = []) → (1 <= p < 5)%nat →
  pick L = Some a.
Proof.
  intros Hp Hq Hr. unfold pick, ready_tasks.
  assert (p = 1 ∨ p = 2 ∨ p = 3 ∨ p = 4)%nat as [->|[->|[->| ->]]] by lia;
    rewrite ?(Hq 4%nat), ?(Hq 3%nat), ?(Hq 2%nat), ?Hp by lia; done.
Qed.

Lemma yield_turn_swap s c a others p :
  turn s c a others p → ∃ s', yield_turn s = Some s' ∧ turn s' a c others p.
Proof.
  intros [(m & L & Hi & Hc & Hcm & Hp & Hq & Hr & Pc & Pa & Ec & Ea)].
  destruct (current_on m s L c Hi Hc Hcm) as (Hco & _ & t & Et & _).
  pose proof (task_yield_eq m s L c t Hi Hc Hcm Et) as Hy.
  rewrite (pick_top L p a others) in Hy by done.
  destruct Hy as (s1 & ta & E1 & Eta & Hctx & Ham & Hac & Hi1 & Q1 & V1).
  rewrite Et in Pc, Ec. rewrite Eta in Pa, Ea. cbn [fmap option_fmap option_map mbind option_bind] in *.
  injection Pc as Pc. injection Pa as Pa.
  assert (s_current s1 = Some a) as Hc1.
  { change (s_current (SchedulerRep.rest s1) = Some a). by rewrite Q1. }
  assert (tv s1 a = Some (with_state TASK_STATE_RUNNING ta)) as Ea1 by by rewrite V1, decide_True.
  assert (tv s1 c = Some (ready_yield t)) as Ec1 by by rewrite V1, decide_False, decide_True.
  destruct (land_inv m s1 _ a _ Hi1 Hc1 Ham Ea1 Hctx) as (z & s2 & E2 & Hi2 & Hst).
  destruct (Hst Ea) as [Hc2 V2]. destruct (V2 c) as [Ve Vp]. destruct (V2 a) as [Ve' Vp'].
  rewrite Ec1 in Ve, Vp. rewrite Ea1 in Ve', Vp'.
  exists s2. split.
  { unfold yield_turn, landed. rewrite E1. cbn [mbind option_bind]. by rewrite E2. }
  split. eexists m, _. split; [exact Hi2|]. split_and!; try done; try lia.
  - unfold after_switch, after_requeue. rewrite Pc, Pa, !fn_lookup_insert, Hp.
    apply (remove1_split a [c] others). apply NoDup_cons_2.
    + intros Hx. apply (Hco (LReady p)). by rewrite Hp.
    + rewrite <- Hp. apply (rep_nd _ _ (pl_rep _ _ _ _ (inv_placed _ _ _ Hi))).
  - intros q Hpq. unfold after_switch, after_requeue. rewrite Pc, Pa.
    rewrite !fn_lookup_insert_ne by (intros [= ->]; lia). by apply Hq.
  - rewrite Vp'. cbn. by rewrite Pa.
  - rewrite Vp. cbn. by rewrite Pc.
  - destruct (tv s2 a); [|done]. cbn in Ve' |- *. injection Ve' as ->. done.
  - destruct (tv s2 c); [|done]. cbn in Ve |- *. injection Ve as ->. done.
Qed.

(** C6.  Yielding is not round robin among three: when the running task and the
    first ready task share the highest ready priority and keep yielding, any number
    of yields only passes the processor between these two.  The tasks queued behind
    them, every task of lower priority and the main thread, which pumps the ticks,
    never run. *)
Theorem task_yield_alternates (n : nat) s c a others p :
  turn s c a others p →
  ∃ s', Nat.iter n (λ o, x ← o; yield_turn x) (Some s) = Some s' ∧
    s_current s' = Some (if Nat.even n then c else a) ∧
    list_of (LReady p) s' = (if Nat.even n then a else c) :: others ∧
    s_current s' ≠ s_main s'.
Proof.
  intros Ht.
  assert (∃ s', Nat.iter n (λ o, x ← o; yield_turn x) (Some s) = Some s' ∧
    if Nat.even n then turn s' c a others p else turn s' a c others p) as (s' & E & Ht').
  { induction n as [|n (s1 & E1 & H1)]; [by exists s|].
    rewrite Nat.even_succ, <- Nat.negb_even. rewrite Nat.iter_succ, E1. cbn [mbind option_bind].
    destruct (Nat.even n); cbn [negb]; by apply yield_turn_swap. }
  exists s'. split; [done|]. destruct (Nat.even n);
    destruct Ht' as [(m & L & Hi & Hc & Hcm & Hp & _)];
    rewrite (list_of_rep s' L) by apply Hi; rewrite (inv_main _ _ _ Hi), Hc;
    split_and!; congruence.
Qed.
End Machine.

(** ** A concrete system

    Three tasks of priority NORMAL under the governor of PowerGovernor.v. *)

#[local] Existing Instance ms_clock.
#[local] Instance demo_governor : Governor (governor_t * power_state_t Z * Z) :=
  power_governor quiet_acts.

Abbreviation demo := (scheduler_t (governor_t * power_state_t Z * Z)).

Definition demo_zero : demo := sched_zero None None (power_governor_reset, board_power, 0).
Definition demo_boot : demo :=
  match scheduler_init 1024 0 (Some 65536) demo_zero with Some (_, s) => s | None => demo_zero end.
Definition new_task (prio : nat) : sched_event :=
  EvCreate [116] (Some 1%nat) 0 prio 0 (Some 131072).
Definition demo_after (es : list sched_event) : demo := default demo_zero (sched_run 1024 es demo_boot).
Definition three_tasks : list sched_event := [EvStart; new_task 2; new_task 2; new_task 2].
Definition demo_events : list sched_event :=
  three_tasks ++ [EvTick; EvStep; EvYield; EvLock; EvUnlock; EvSleep 2; EvTick; EvTick;
                  EvSuspend 4; EvStep; EvExit; EvResume 4; EvDelete 5; EvYield].

Lemma demo_gov_inv : gov_inv (s_gov demo_zero).
Proof. split; [exact reset_ok|]. unfold freqs_ok. vm_decide. Qed.

Lemma scheduler_runs_safely_witness :
  ∃ r s0 s', scheduler_init 1024 0 (Some 65536) demo_zero = Some (r, s0) ∧
    sched_run 1024 demo_events s0 = Some s' ∧ well_formed s'.
Proof.
  destruct (scheduler_runs_safely 1024 0 65536 demo_zero 0 demo_boot demo_events demo_gov_inv
    eq_refl) as (s' & E & Hw & _); [vm_compute; reflexivity|vm_compute; reflexivity|].
  exists 0, demo_boot, s'. split; [vm_compute; reflexivity|]. split; [exact E|exact Hw].
Defined.

Lemma demo_boot_well_formed : well_formed demo_boot.
Proof.
  destruct (scheduler_init_ok 1024 0 65536 demo_zero demo_gov_inv eq_refl) as (s1 & E1 & Hi & _).
  unfold demo_boot. rewrite E1. by eexists _, _.
Qed.

(** Well-formedness of the states reached. *)
Lemma demo_well_formed es : all_allowed 1024 es demo_boot = true → well_formed (demo_after es).
Proof.
  intros Ha. pose proof demo_boot_well_formed as Hw.
  assert (∀ es s, well_formed s → all_allowed 1024 es s = true →
    ∃ s', sched_run 1024 es s = Some s' ∧ well_formed s') as Hrun.
  { clear. induction es as [|e es IH]; intros s Hw Ha; [by exists s|].
    cbn [all_allowed sched_run] in *. apply andb_true_iff in Ha as [Ha Hes].
    destruct (sched_exec_ok 1024 e s Hw Ha) as (s2 & E2 & Hw2). rewrite E2 in Hes |- *. by apply IH. }
  destruct (Hrun es demo_boot Hw Ha) as (s' & E & Hw'). unfold demo_after. by rewrite E.
Qed.

Lemma scheduler_step_picks_witness :
  well_formed (demo_after three_tasks) ∧ runnable_tasks (demo_after three_tasks) = [3; 4; 5]%nat ∧
  ∃ s' t, scheduler_step (demo_after three_tasks) = Some (JumpTask 3, s') ∧
    tget 3 (demo_after three_tasks) = Some t ∧ s_current s' = Some 3%nat.
Proof.
  assert (well_formed (demo_after three_tasks)) as Hw
    by (apply demo_well_formed; vm_compute; reflexivity).
  split; [exact Hw|]. split; [vm_compute; reflexivity|].
  pose proof (scheduler_step_picks (demo_after three_tasks) Hw eq_refl eq_refl) as Hs.
  assert (runnable_tasks (demo_after three_tasks) = [3; 4; 5]%nat) as E by (vm_compute; reflexivity).
  rewrite E in Hs. destruct Hs as (s' & t & H1 & H2 & _ & _ & H3 & _).
  exists s', t. split; [exact H1|]. split; [exact H2|exact H3].
Defined.

Definition sleepers : list sched_event := three_tasks ++ [EvStep; EvSleep 1; EvStep; EvSleep 5].

Lemma scheduler_tick_wakes_witness :
  ∃ s', scheduler_tick (demo_after sleepers) = Some s' ∧
    list_of LBlocked s' = [4%nat] ∧ list_of (LReady 2) s' = [3; 5]%nat.
Proof.
  destruct (scheduler_tick_wakes (demo_after sleepers)) as (s' & E & _ & _ & _ & HB & HR & _).
  { apply demo_well_formed. vm_compute. reflexivity. }
  exists s'. split; [exact E|]. split.
  - rewrite HB. vm_compute. reflexivity.
  - rewrite (HR 2%nat). vm_compute. reflexivity.
Defined.

Lemma task_create_delete_witness :
  ∃ s1 s2, task_create 1024 [65] (Some 7%nat) 0 3 0 (Some 4096) (demo_after sleepers) =
             Some (0, Some 2%nat, s1) ∧ task_delete (Some 2%nat) s1 = Some (0, s2).
Proof.
  destruct (task_create_delete 1024 [65] (Some 7%nat) 0 3 0 4096 (demo_after sleepers) 2 [1; 0]%nat)
    as (s1 & s2 & E1 & _ & _ & _ & E2 & _).
  - apply demo_well_formed. vm_compute. reflexivity.
  - vm_compute. reflexivity.
  - vm_compute. lia.
  - exists s1, s2. split; [exact E1|exact E2].
Defined.

(** Task 3 of three runs; 4 and 5 wait. *)
Lemma three_tasks_turn : turn (demo_after (three_tasks ++ [EvStep])) 3 4 [5%nat] 2.
Proof.
  destruct (demo_well_formed (three_tasks ++ [EvStep])) as (m & L & Hi); [vm_compute; reflexivity|].
  pose proof (pl_rep _ _ _ _ (inv_placed _ _ _ Hi)) as Hr.
  split. exists m, L. split; [exact Hi|].
  assert (m = 6%nat) as ->.
  { pose proof (inv_main _ _ _ Hi) as Em. vm_compute in Em. congruence. }
  split_and!; try (vm_compute; congruence); try (vm_compute; by eexists); try lia.
  - rewrite <- (list_of_rep _ L (LReady 2) Hr). vm_compute. reflexivity.
  - intros q Hq. rewrite <- (list_of_rep _ L (LReady q) Hr).
    do 5 (destruct q as [|q]; [first [lia|vm_compute; reflexivity]|]). vm_compute. reflexivity.
Qed.

Lemma task_yield_alternates_witness :
  turn (demo_after (three_tasks ++ [EvStep])) 3 4 [5%nat] 2 ∧
  ∃ s', Nat.iter 1000 (λ o, x ← o; yield_turn x) (Some (demo_after (three_tasks ++ [EvStep]))) =
          Some s' ∧ s_current s' = Some 3%nat.
Proof.
  split; [exact three_tasks_turn|].
  destruct (task_yield_alternates 1000 _ 3 4 [5%nat] 2 three_tasks_turn) as (s' & E & Ec & _).
  exists s'. split; [exact E|exact Ec].
Defined.

(** A handle deleted twice is accepted twice: the slot is linked to itself. *)
Example delete_twice_corrupts :
  ∃ s1 s2, task_delete (Some 4%nat) (demo_after three_tasks) = Some (0, s1) ∧
    task_delete (Some 4%nat) s1 = Some (0, s2) ∧ nx s2 4 = Some 4%nat.
Proof. eexists _, _. split_and!; vm_compute; reflexivity. Qed.

(** A task that yields to a fresh one leaves the lock count raised; the next interrupt
    then never clears [in_isr], and later unlocks do nothing. *)
Example isr_flag_stuck :
  let s := demo_after (three_tasks ++ [EvStep; EvYield; EvEnterIsr; EvExitIsr]) in
  s_nest (demo_after (three_tasks ++ [EvStep])) = 0 ∧ s_isr s = true ∧ s_nest s = 1 ∧
  s_nest (scheduler_unlock s) = 1.
Proof. vm_compute. split_and!; reflexivity. Qed.

(** Near the wrap of the tick counter a sleep ends at the next tick: ten ticks were
    asked for, the task is ready after one. *)
Example sleep_wraps :
  let s := set_tick (UINT32_MAX - 5) (demo_after (three_tasks ++ [EvStep])) in
  match sched_exec 1024 (EvSleep 10) s with
  | Some s1 => match scheduler_tick s1 with
               | Some s2 => list_of LBlocked s1 = [3%nat] ∧ list_of LBlocked s2 = [] ∧
                            s_tick s2 = UINT32_MAX - 4
               | None => False end
  | None => False
  end.
Proof. vm_compute. split_and!; reflexivity. Qed.

(** [task_sleep] does not refresh [next_wake_tick]: tickless idle jumps over the
    wake-up of a task that went to sleep after the last tick. *)
Example tickless_oversleeps :
  let s := demo_after (three_tasks ++ [EvStep; EvSleep 100; EvTick; EvStep; EvSleep 5]) in
  s_tick s = 1 ∧ (t_wake_time <$> tget 4 s) = Some 6 ∧ s_tick (scheduler_tickless_idle s) = 100.
Proof. vm_compute. split_and!; reflexivity. Qed.
