(* ===== verification/Event.v ===== *)
(** * Events (kernel/event.c)

    Topics with up to eight subscribers each, and a queue of sixteen events.  The
    lock is a flag that [event_lock] spins on: with the flag already set nothing
    that runs can clear it, so taking it again is [None], as is an access outside
    an array.  Callbacks are values that [run_cb] runs on the event system and an
    environment; the time stamp is the environment's, through [Ticks]. *)

From Stdlib Require Import ZArith Lia.
From stdpp Require Import base tactics option numbers list.
From S2P Require Import Prelude.
From S2P Require Import CString.
From S2P Require Import Scheduler.

Definition EVENT_MAX_DATA : Z := 32.
Definition EVENT_TOPIC_MAX : Z := 16.
Definition EVENT_MAX_SUBSCRIBERS : Z := 8.
Definition EVENT_QUEUE_SIZE : Z := 16.
Definition EVENT_MAX_TOPICS : Z := 32.

Record event_t := mk_event {
  e_type : Z;
  e_topic : list Z;
  e_timestamp : Z;
  e_source_app_id : Z;
  e_data_size : Z;
  e_data : list Z
}.

Definition event_zero : event_t := mk_event 0 (zeros EVENT_TOPIC_MAX) 0 0 0 (zeros EVENT_MAX_DATA).

(** What [event.c] calls outside itself: [scheduler_get_tick_count]. *)
Class Ticks (U : Type) := get_tick : U → Z.

#[export] Instance scheduler_ticks G `{Governor G} : Ticks (scheduler_t G) :=
  scheduler_get_tick_count.

Section Event.
(** Callback and argument pointers, and the environment callbacks act on. *)
Context {Cb Arg U : Type} `{Ticks U}.

Record event_subscription_t := mk_sub {
  su_topic : list Z;
  su_callback : option Cb;
  su_arg : option Arg;
  su_priority : Z;
  su_app_id : Z;
  su_active : bool
}.

Definition sub_zero : event_subscription_t := mk_sub (zeros EVENT_TOPIC_MAX) None None 0 0 false.

Record event_topic_t := mk_topic { tp_subs : list event_subscription_t; tp_count : Z }.

Definition topic_zero : event_topic_t :=
  mk_topic (replicate (Z.to_nat EVENT_MAX_SUBSCRIBERS) sub_zero) 0.

(** [event_system_t] and [g_event_lock]. *)
Record event_system_t := mk_es {
  es_topics : list event_topic_t;
  es_topic_count : Z;
  es_queue : list event_t;
  es_queue_head : Z;
  es_queue_tail : Z;
  es_queue_count : Z;
  es_lock : bool
}.

Definition event_system_zero (lock : bool) : event_system_t :=
  mk_es (replicate (Z.to_nat EVENT_MAX_TOPICS) topic_zero) 0
    (replicate (Z.to_nat EVENT_QUEUE_SIZE) event_zero) 0 0 0 lock.

Definition set_topics (l : list event_topic_t) (n : Z) (s : event_system_t) : event_system_t :=
  mk_es l n (es_queue s) (es_queue_head s) (es_queue_tail s) (es_queue_count s) (es_lock s).
Definition set_queue (l : list event_t) (head tail count : Z) (s : event_system_t) :
    event_system_t :=
  mk_es (es_topics s) (es_topic_count s) l head tail count (es_lock s).
Definition set_lock (b : bool) (s : event_system_t) : event_system_t :=
  mk_es (es_topics s) (es_topic_count s) (es_queue s) (es_queue_head s) (es_queue_tail s)
    (es_queue_count s) b.

(** [while (__sync_lock_test_and_set (&g_event_lock, 1)) {}] *)
Definition event_lock (s : event_system_t) : option event_system_t :=
  if es_lock s then None else Some (set_lock true s).
Definition event_unlock (s : event_system_t) : event_system_t := set_lock false s.

Definition event_system_init (s : event_system_t) : Z * event_system_t :=
  (0, event_system_zero false).
Definition event_system_deinit (s : event_system_t) : event_system_t :=
  event_system_zero (es_lock s).

(** ** Topics *)

(** The search from index [i], [n] topics to go. *)
Fixpoint find_from (n : nat) (i : Z) (topic : list Z) (l : list event_topic_t)
    : option (option Z) :=
  match n with
  | O => Some None
  | S n =>
    t ← rd l i;
    sub ← rd (tp_subs t) 0;
    if str_eq (c_str (su_topic sub)) topic then Some (Some i) else find_from n (i + 1) topic l
  end.

Definition event_find_topic (topic : list Z) (s : event_system_t) : option (option Z) :=
  find_from (Z.to_nat (es_topic_count s)) 0 topic (es_topics s).

Definition event_find_or_create_topic (topic : list Z) (s : event_system_t)
    : option (option Z * event_system_t) :=
  r ← event_find_topic topic s;
  match r with
  | Some i => Some (Some i, s)
  | None =>
    if 32 <=? es_topic_count s then Some (None, s) else
    let i := es_topic_count s in
    l ← wr (es_topics s) i topic_zero;
    Some (Some i, set_topics l (i + 1) s)
  end.

(** The exchanges from index [i] down. *)
Fixpoint sort_down (i : nat) (subs : list event_subscription_t)
    : option (list event_subscription_t) :=
  match i with
  | O => Some subs
  | S j =>
    a ← subs !! i;
    b ← subs !! j;
    if su_priority b <? su_priority a then sort_down j (<[j := a]> (<[i := b]> subs))
    else Some subs
  end.

Definition event_subscribe (app_id : Z) (topic : option (list Z)) (callback : option Cb)
    (arg : option Arg) (priority : Z) (s : event_system_t) : option (Z * event_system_t) :=
  match topic, callback with
  | Some topic, Some _ =>
    s ← event_lock s;
    '(r, s) ← event_find_or_create_topic topic s;
    match r with
    | None => Some (-1, event_unlock s)
    | Some k =>
      t ← rd (es_topics s) k;
      if EVENT_MAX_SUBSCRIBERS <=? tp_count t then Some (-1, event_unlock s) else
      let i := tp_count t in
      old ← rd (tp_subs t) i;
      subs ← wr (tp_subs t) i
        (mk_sub (strncpy (su_topic old) topic (Z.to_nat (EVENT_TOPIC_MAX - 1))) callback arg
           priority app_id true);
      subs ← sort_down (Z.to_nat i) subs;
      l ← wr (es_topics s) k (mk_topic subs (i + 1));
      Some (0, event_unlock (set_topics l (es_topic_count s) s))
    end
  | _, _ => Some (-1, s)
  end.

(** The removal loop from index [i], [n] entries to go. *)
Fixpoint unsub_loop (n : nat) (i app_id : Z) (t : event_topic_t) : option event_topic_t :=
  match n with
  | O => Some t
  | S n =>
    x ← rd (tp_subs t) i;
    if su_app_id x =? app_id then
      subs ← shift_left (Z.to_nat (tp_count t - 1 - i)) i (tp_subs t);
      Some (mk_topic subs (tp_count t - 1))
    else unsub_loop n (i + 1) app_id t
  end.

Definition event_unsubscribe (app_id : Z) (topic : option (list Z)) (s : event_system_t)
    : option (Z * event_system_t) :=
  match topic with
  | None => Some (-1, s)
  | Some topic =>
    s ← event_lock s;
    r ← event_find_topic topic s;
    match r with
    | None => Some (-1, event_unlock s)
    | Some k =>
      t ← rd (es_topics s) k;
      t ← unsub_loop (Z.to_nat (tp_count t)) 0 app_id t;
      l ← wr (es_topics s) k t;
      Some (0, event_unlock (set_topics l (es_topic_count s) s))
    end
  end.

Definition deactivate (app_id : Z) (x : event_subscription_t) : event_subscription_t :=
  if su_app_id x =? app_id
  then mk_sub (su_topic x) (su_callback x) (su_arg x) (su_priority x) (su_app_id x) false else x.

(** The inner loop of [event_cleanup_app]. *)
Fixpoint cleanup_subs (n : nat) (j app_id : Z) (subs : list event_subscription_t)
    : option (list event_subscription_t) :=
  match n with
  | O => Some subs
  | S n =>
    x ← rd subs j;
    subs ← wr subs j (deactivate app_id x);
    cleanup_subs n (j + 1) app_id subs
  end.

Fixpoint cleanup_loop (n : nat) (i app_id : Z) (l : list event_topic_t)
    : option (list event_topic_t) :=
  match n with
  | O => Some l
  | S n =>
    t ← rd l i;
    subs ← cleanup_subs (Z.to_nat (tp_count t)) 0 app_id (tp_subs t);
    l ← wr l i (mk_topic subs (tp_count t));
    cleanup_loop n (i + 1) app_id l
  end.

Definition event_cleanup_app (app_id : Z) (s : event_system_t) : option event_system_t :=
  s ← event_lock s;
  l ← cleanup_loop (Z.to_nat (es_topic_count s)) 0 app_id (es_topics s);
  Some (event_unlock (set_topics l (es_topic_count s) s)).

Fixpoint sum_counts (n : nat) (i acc : Z) (l : list event_topic_t) : option Z :=
  match n with
  | O => Some acc
  | S n => t ← rd l i; sum_counts n (i + 1) (u32 (acc + tp_count t)) l
  end.

(** The published, queued and subscriber counts. *)
Definition event_get_stats (s : event_system_t) : option (Z * Z * Z * event_system_t) :=
  s ← event_lock s;
  sub ← sum_counts (Z.to_nat (es_topic_count s)) 0 0 (es_topics s);
  Some (0, es_queue_count s, sub, event_unlock s).

(** ** Publishing *)

(** The event both publishing functions build. *)
Definition make_event (topic : list Z) (data : option (list Z)) (data_size type source : Z)
    (now : Z) : option event_t :=
  bytes ← match data with
          | Some d => if 0 <? data_size
                      then p ← rd_bytes d 0 data_size; wr_bytes (e_data event_zero) 0 p
                      else Some (e_data event_zero)
          | None => Some (e_data event_zero)
          end;
  Some (mk_event type (strncpy (e_topic event_zero) topic (Z.to_nat (EVENT_TOPIC_MAX - 1))) now
          source data_size bytes).

Definition event_publish (topic : option (list Z)) (data : option (list Z))
    (data_size type source : Z) (w : event_system_t * U) : option (Z * (event_system_t * U)) :=
  match topic with
  | None => Some (-1, w)
  | Some topic =>
    if EVENT_MAX_DATA <? data_size then Some (-1, w) else
    let '(s, u) := w in
    e ← make_event topic data data_size type source (get_tick u);
    s ← event_lock s;
    if es_queue_count s <? EVENT_QUEUE_SIZE then
      q ← wr (es_queue s) (es_queue_tail s) e;
      Some (0, (event_unlock (set_queue q (es_queue_head s)
                  ((es_queue_tail s + 1) mod EVENT_QUEUE_SIZE) (es_queue_count s + 1) s), u))
    else Some (-1, (event_unlock s, u))
  end.

Section Callbacks.
Context (run_cb : Cb → event_t → option Arg → event_system_t * U → option (event_system_t * U)).

(** The loop of [event_deliver] on topic [k]: the count is read anew at every
    round, and an index past the array is a fault, so the fuel
    [EVENT_MAX_SUBSCRIBERS + 1] is never what stops it. *)
Fixpoint deliver_loop (fuel : nat) (k i delivered : Z) (e : event_t) (w : event_system_t * U)
    : option (Z * (event_system_t * U)) :=
  match fuel with
  | O => None
  | S fuel =>
    t ← rd (es_topics (fst w)) k;
    if i <? tp_count t then
      sub ← rd (tp_subs t) i;
      match su_active sub, su_callback sub with
      | true, Some f =>
        w ← run_cb f e (su_arg sub) w;
        deliver_loop fuel k (i + 1) (delivered + 1) e w
      | _, _ => deliver_loop fuel k (i + 1) delivered e w
      end
    else Some (delivered, w)
  end.

Definition event_deliver (e : event_t) (w : event_system_t * U)
    : option (Z * (event_system_t * U)) :=
  r ← event_find_topic (c_str (e_topic e)) (fst w);
  match r with
  | None => Some (0, w)
  | Some k => deliver_loop (S (Z.to_nat EVENT_MAX_SUBSCRIBERS)) k 0 0 e w
  end.

Definition event_publish_sync (topic : option (list Z)) (data : option (list Z))
    (data_size type source : Z) (w : event_system_t * U) : option (Z * (event_system_t * U)) :=
  match topic with
  | None => Some (-1, w)
  | Some topic =>
    if EVENT_MAX_DATA <? data_size then Some (-1, w) else
    let '(s, u) := w in
    e ← make_event topic data data_size type source (get_tick u);
    s ← event_lock s;
    '(delivered, (s, u)) ← event_deliver e (s, u);
    Some (delivered, (event_unlock s, u))
  end.

(** The loop of [event_process_queue], entered with the lock held. *)
Fixpoint process_loop (fuel : nat) (processed : Z) (w : event_system_t * U)
    : option (Z * (event_system_t * U)) :=
  match fuel with
  | O => None
  | S fuel =>
    let '(s, u) := w in
    if 0 <? es_queue_count s then
      e ← rd (es_queue s) (es_queue_head s);
      let s := set_queue (es_queue s) ((es_queue_head s + 1) mod EVENT_QUEUE_SIZE)
                 (es_queue_tail s) (es_queue_count s - 1) s in
      '(_, (s, u)) ← event_deliver e (event_unlock s, u);
      s ← event_lock s;
      process_loop fuel (processed + 1) (s, u)
    else Some (processed, (event_unlock s, u))
  end.

Definition event_process_queue (fuel : nat) (w : event_system_t * U)
    : option (Z * (event_system_t * U)) :=
  s ← event_lock (fst w);
  process_loop fuel 0 (s, snd w).
End Callbacks.
End Event.

Arguments event_subscription_t : clear implicits.
Arguments event_topic_t : clear implicits.
Arguments event_system_t : clear implicits.
