(* ===== verification/EventThm.v ===== *)
(** * The event system's contract

    A topic table is a list of names with their subscriptions in delivery order,
    and the queue a list of events.  Subscribing inserts by priority behind equals,
    publishing appends, processing delivers from the front. *)

From Stdlib Require Import ZArith Lia Sorted.
From stdpp Require Import base tactics option numbers sorting list.
From S2P Require Import Prelude.
From S2P Require Import CString.
From S2P Require Import Scheduler.
From S2P Require Import Event.

Section EventThm.
Context {Cb Arg U : Type} `{Ticks U}.
Abbreviation sub := (event_subscription_t Cb Arg).
Abbreviation topic_t := (event_topic_t Cb Arg).
Abbreviation system := (event_system_t Cb Arg).
Implicit Types (x y : sub) (l m : list sub) (t : topic_t) (s : system) (nm : list Z).

(** ** Views and well-formedness *)

Definition sname x : list Z := c_str (su_topic x).
(** A topic is known by the string in its first slot, used or not. *)
Definition tname t : list Z := match tp_subs t with [] => [] | x :: _ => sname x end.
Definition tsubs t : list sub := take (Z.to_nat (tp_count t)) (tp_subs t).
Definition tview t : list Z * list sub := (tname t, tsubs t).
Definition view s : list (list Z * list sub) :=
  tview <$> take (Z.to_nat (es_topic_count s)) (es_topics s).
Definition pending s : list event_t :=
  take (Z.to_nat (es_queue_count s)) (rot (Z.to_nat (es_queue_head s)) (es_queue s)).

(** Delivery order: priorities do not rise. *)
Definition before x y : Prop := su_priority y <= su_priority x.

Definition slot_ok x : Prop := length (su_topic x) = 16%nat ∧ su_topic x !! 15%nat = Some 0.
Definition subs_ok nm l : Prop := Forall (λ x, sname x = nm) l ∧ StronglySorted before l.
Definition topic_ok t : Prop :=
  length (tp_subs t) = 8%nat ∧ 0 <= tp_count t <= 8 ∧ Forall slot_ok (tp_subs t) ∧
  subs_ok (tname t) (tsubs t).

Record es_ok s : Prop := mk_es_ok {
  ok_topics : length (es_topics s) = 32%nat ∧ 0 <= es_topic_count s <= 32;
  ok_each : Forall topic_ok (es_topics s);
  ok_queue : length (es_queue s) = 16%nat;
  ok_ring : 0 <= es_queue_head s < 16 ∧ 0 <= es_queue_count s <= 16 ∧
            es_queue_tail s = (es_queue_head s + es_queue_count s) mod 16
}.

(** ** The table the views form *)

Abbreviation table := (list (list Z * list sub)).

(** Insertion by priority, behind equal ones. *)
Fixpoint ins x l : list sub :=
  match l with
  | [] => [x]
  | y :: l => if su_priority y <? su_priority x then x :: y :: l else y :: ins x l
  end.

(** Removal of an application's first subscription. *)
Fixpoint drop_app aid l : list sub :=
  match l with
  | [] => []
  | y :: l => if su_app_id y =? aid then l else y :: drop_app aid l
  end.

Definition find_name nm (v : table) : option (nat * (list Z * list sub)) :=
  list_find (λ p, p.1 = nm) v.

(** The subscription made for a topic: its name is cut to fifteen characters. *)
Definition new_sub aid nm cb arg prio : sub :=
  mk_sub (strncpy (zeros 16) nm 15) (Some cb) arg prio aid true.

Definition spec_subscribe aid nm cb arg prio (v : table) : Z * table :=
  let x := new_sub aid nm cb arg prio in
  match find_name nm v with
  | Some (k, (n, l)) =>
    if decide (8 <= length l)%nat then (-1, v) else (0, <[k := (n, ins x l)]> v)
  | None => if decide (32 <= length v)%nat then (-1, v) else (0, v ++ [(take 15 nm, [x])])
  end.

Definition spec_unsubscribe aid nm (v : table) : Z * table :=
  match find_name nm v with
  | Some (k, (n, l)) => (0, <[k := (n, drop_app aid l)]> v)
  | None => (-1, v)
  end.

Definition spec_cleanup aid (v : table) : table :=
  (λ p : list Z * list sub, (p.1, deactivate aid <$> p.2)) <$> v.

(** ** Searching *)

Lemma topic_head t : topic_ok t → ∃ x, tp_subs t !! 0%nat = Some x ∧ tname t = sname x.
Proof.
  intros (Hl & _). unfold tname. destruct (tp_subs t) as [|x l]; [done|]. by exists x.
Qed.

Lemma find_from_spec n i nm (ts : list topic_t) :
  Forall topic_ok ts → (i + n <= length ts)%nat →
  find_from n (Z.of_nat i) nm ts =
    Some ((λ p : nat * _, Z.of_nat (i + p.1)) <$> find_name nm (tview <$> take n (drop i ts))).
Proof.
  intros Hok. revert i. induction n as [|n IH]; intros i Hn; [done|].
  assert (∃ t, ts !! i = Some t) as [t Ht] by (apply lookup_lt_is_Some; lia).
  cbn [find_from]. rewrite rd_nat, Ht. cbn [mbind option_bind].
  destruct (topic_head t) as (x & Hx & En); [by eapply Forall_lookup_1|].
  rewrite (rd_nat _ 0), Hx. cbn [mbind option_bind].
  rewrite (drop_S _ _ _ Ht). cbn [take fmap list_fmap]. unfold find_name. cbn [list_find].
  unfold str_eq. cbn [fst tview]. rewrite En. unfold sname.
  case_bool_decide as Eq; [rewrite decide_True by done; cbn; by rewrite Nat.add_0_r|].
  rewrite decide_False by done.
  replace (Z.of_nat i + 1) with (Z.of_nat (S i)) by lia. rewrite IH by lia.
  unfold find_name. destruct (list_find _ _) as [[k p]|]; cbn; [|done]. do 2 f_equal. lia.
Qed.

Lemma event_find_topic_spec nm s :
  es_ok s → event_find_topic nm s = Some ((λ p : nat * _, Z.of_nat p.1) <$> find_name nm (view s)).
Proof.
  intros [[Hl Hc] Ht _ _]. unfold event_find_topic. rewrite (find_from_spec _ 0) by (done || lia).
  by rewrite drop_0.
Qed.

Lemma view_length s : es_ok s → length (view s) = Z.to_nat (es_topic_count s).
Proof. intros [[Hl Hc] _ _ _]. unfold view. rewrite length_fmap, length_take. lia. Qed.

Lemma view_lookup s k : 
  (k < Z.to_nat (es_topic_count s))%nat → view s !! k = tview <$> es_topics s !! k.
Proof. intros. unfold view. by rewrite list_lookup_fmap, lookup_take_lt. Qed.

Lemma view_insert s k t :
  (k < Z.to_nat (es_topic_count s))%nat →
  view (set_topics (<[k := t]> (es_topics s)) (es_topic_count s) s) = <[k := tview t]> (view s).
Proof. intros. unfold view. cbn. by rewrite take_insert_lt, list_fmap_insert by done. Qed.

Lemma find_name_some s nm k n l :
  es_ok s → find_name nm (view s) = Some (k, (n, l)) →
  ∃ t, es_topics s !! k = Some t ∧ n = nm ∧ nm = tname t ∧ l = tsubs t ∧
       (k < Z.to_nat (es_topic_count s))%nat.
Proof.
  intros Hok Hf. apply list_find_Some in Hf as (Hk & En & _). cbn in En. subst n.
  assert (k < Z.to_nat (es_topic_count s))%nat as Hlt.
  { rewrite <- view_length by done. by eapply lookup_lt_Some. }
  rewrite view_lookup in Hk by done. destruct (es_topics s !! k) as [t|]; [|done].
  injection Hk as <- <-. by exists t.
Qed.

(** ** Insertion *)

Lemma sort_down_spec l x r :
  StronglySorted before l → sort_down (length l) (l ++ x :: r) = Some (ins x l ++ r).
Proof.
  revert r. induction l as [|b l IH] using rev_ind; intros r Hs; [done|].
  apply StronglySorted_app in Hs as (Hb & Hs & _).
  rewrite length_app. cbn [length]. rewrite Nat.add_1_r. cbn [sort_down].
  rewrite (list_lookup_middle (l ++ [b]) r x (S (length l)))
    by (by rewrite length_app, Nat.add_1_r).
  cbn [mbind option_bind].
  rewrite <- app_assoc. cbn [app]. rewrite list_lookup_middle by done. cbn [mbind option_bind].
  assert (ins x (l ++ [b]) = if su_priority b <? su_priority x then ins x l ++ [b]
                             else l ++ [b; x]) as Ei.
  { clear IH. induction l as [|a l IHl]; cbn; [done|].
    assert (before a b) as Hab by (apply Hb; [left|by left]). unfold before in Hab.
    rewrite IHl; [|intros u v Hu; apply Hb; by right|by apply StronglySorted_inv in Hs as [? _]].
    destruct (su_priority b <? su_priority x) eqn:Eb; bool_hyps.
    - by destruct (su_priority a <? su_priority x).
    - by rewrite (proj2 (Z.ltb_ge (su_priority a) _)) by lia. }
  rewrite Ei. destruct (su_priority b <? su_priority x) eqn:Eb.
  - rewrite insert_app_r_alt by lia. replace (S (length l) - length l)%nat with 1%nat by lia.
    cbn [insert list_insert]. rewrite insert_app_r_alt by lia. rewrite Nat.sub_diag.
    cbn [insert list_insert]. rewrite IH by done. by rewrite <- app_assoc.
  - by rewrite <- app_assoc.
Qed.

Lemma ins_perm x l : ins x l ≡ₚ x :: l.
Proof.
  induction l as [|y l IH]; cbn; [done|]. destruct (_ <? _); [done|].
  rewrite IH. apply Permutation_swap.
Qed.

Lemma ins_sorted x l : StronglySorted before l → StronglySorted before (ins x l).
Proof.
  induction 1 as [|y l Hs IH Hy]; cbn; [repeat constructor|].
  destruct (su_priority y <? su_priority x) eqn:E; bool_hyps.
  - constructor; [by constructor|]. constructor; [unfold before; lia|].
    eapply Forall_impl; [exact Hy|]. unfold before. intros; lia.
  - constructor; [done|]. rewrite ins_perm. constructor; [unfold before; lia|done].
Qed.

Lemma ins_length x l : length (ins x l) = S (length l).
Proof. by rewrite ins_perm. Qed.

Lemma strncpy_pad (b : list Z) nm :
  length b = 16%nat → b !! 15%nat = Some 0 → strncpy b nm 15 = strncpy (zeros 16) nm 15.
Proof.
  intros Hl Hb. unfold strncpy. do 2 f_equal. rewrite (drop_S _ _ _ Hb).
  rewrite drop_ge by lia. done.
Qed.

Lemma new_sub_slot aid nm cb arg prio : slot_ok (new_sub aid nm cb arg prio).
Proof.
  unfold slot_ok, new_sub. cbn [su_topic].
  split; [rewrite strncpy_length; [done|by apply Nat.leb_le]|]. unfold strncpy. rewrite app_assoc.
  rewrite lookup_app_r; rewrite length_app, length_take, length_replicate.
  - by replace (15 - _)%nat with 0%nat by lia.
  - lia.
Qed.

Lemma new_sub_name aid nm cb arg prio :
  is_cstr nm → sname (new_sub aid nm cb arg prio) = take 15 nm.
Proof. intros. unfold sname, new_sub. cbn [su_topic]. by apply c_str_strncpy. Qed.

Lemma slot_name_length x : slot_ok x → (length (sname x) <= 15)%nat.
Proof. intros [_ Hx]. by apply c_str_nul. Qed.

Lemma topic_name_length t : topic_ok t → (length (tname t) <= 15)%nat.
Proof.
  intros Ht. pose proof Ht as (_ & _ & Hs & _). destruct (topic_head t Ht) as (x & Hx & ->).
  apply slot_name_length. by eapply Forall_lookup_1.
Qed.

Lemma topic_zero_ok : topic_ok topic_zero.
Proof.
  split_and!; [done|done|done| |].
  - apply Forall_replicate. split; [done|]. reflexivity.
  - split; constructor.
Qed.

(** A subscription added to the [c] others of a topic. *)
Lemma subs_append (subs : list sub) (c : nat) x :
  length subs = 8%nat → (c < 8)%nat → Forall slot_ok subs → slot_ok x →
  Forall (λ y, sname y = sname x) (take c subs) → StronglySorted before (take c subs) →
  ∃ t, sort_down c (<[c := x]> subs) = Some (tp_subs t) ∧ tp_count t = Z.of_nat c + 1 ∧
       topic_ok t ∧ tview t = (sname x, ins x (take c subs)).
Proof.
  intros Hl Hc Hs Hx Hn Hsort.
  exists (mk_topic (ins x (take c subs) ++ drop (S c) subs) (Z.of_nat c + 1)).
  assert (length (ins x (take c subs)) = S c) as Hi by (rewrite ins_length, length_take; lia).
  assert (Forall slot_ok (ins x (take c subs) ++ drop (S c) subs)) as Hso.
  { apply Forall_app. split; [|by apply Forall_drop]. rewrite ins_perm.
    constructor; [done|by apply Forall_take]. }
  assert (Forall (λ y, sname y = sname x) (ins x (take c subs))) as Hnx.
  { rewrite ins_perm. by constructor. }
  assert (take (Z.to_nat (Z.of_nat c + 1)) (ins x (take c subs) ++ drop (S c) subs) =
          ins x (take c subs)) as Et.
  { replace (Z.to_nat (Z.of_nat c + 1)) with (S c) by lia. by rewrite take_app_length'. }
  assert (tname (mk_topic (ins x (take c subs) ++ drop (S c) subs) (Z.of_nat c + 1)) =
    sname x) as En.
  { unfold tname. cbn [tp_subs]. destruct (ins x (take c subs)) as [|z zs]; [done|].
    by apply Forall_cons in Hnx as [? _]. }
  split_and!.
  - rewrite insert_take_drop by lia.
    rewrite <- (length_take_le subs c) at 1 by lia. by apply sort_down_spec.
  - done.
  - split_and!; cbn [tp_subs tp_count].
    + rewrite length_app, Hi, length_drop. lia.
    + lia.
    + lia.
    + done.
    + rewrite En. unfold tsubs. cbn [tp_subs tp_count]. rewrite Et.
      split; [done|by apply ins_sorted].
  - unfold tview. rewrite En. unfold tsubs. cbn [tp_subs tp_count]. by rewrite Et.
Qed.

(** ** Subscribing *)

Definition kept s s' : Prop :=
  es_ok s' ∧ es_lock s' = false ∧ pending s' = pending s ∧ es_queue_count s' = es_queue_count s.

Lemma kept_refl s : es_ok s → es_lock s = false → kept s s.
Proof. done. Qed.

Lemma relock s : es_lock s = false → event_lock s = Some (set_lock true s).
Proof. intros E. unfold event_lock. by rewrite E. Qed.

Lemma unlock_lock s : es_lock s = false → event_unlock (set_lock true s) = s.
Proof. destruct s. cbn. by intros ->. Qed.

Lemma kept_topics s (l : list topic_t) n :
  es_ok s → length l = 32%nat → 0 <= n <= 32 → Forall topic_ok l →
  kept s (event_unlock (set_topics l n (set_lock true s))).
Proof. intros [Ht He Hq Hr] Hl Hn Hf. split; [|done]. by split. Qed.

Lemma topic_view_length t : topic_ok t → length (tsubs t) = Z.to_nat (tp_count t).
Proof. intros (Hl & Hc & _). unfold tsubs. rewrite length_take. lia. Qed.

Lemma event_subscribe_spec aid nm cb arg prio s :
  es_ok s → es_lock s = false → is_cstr nm →
  ∃ r s', event_subscribe aid (Some nm) (Some cb) arg prio s = Some (r, s') ∧
          kept s s' ∧ spec_subscribe aid nm cb arg prio (view s) = (r, view s').
Proof.
  intros Hok Hlk Hnm. pose proof Hok as [[Hl Hc] He _ _].
  unfold event_subscribe. rewrite relock by done. cbn [mbind option_bind].
  unfold event_find_or_create_topic. rewrite event_find_topic_spec by (by destruct Hok).
  cbn [mbind option_bind]. change (view (set_lock true s)) with (view s).
  unfold spec_subscribe. set (x := new_sub aid nm cb arg prio).
  destruct (find_name nm (view s)) as [[k [n l]]|] eqn:Ef; 
    cbn [fmap option_fmap option_map fst mbind option_bind].
  - destruct (find_name_some s nm k n l Hok Ef) as (t & Ht & -> & En & -> & Hk).
    assert (topic_ok t) as Hto by (by eapply Forall_lookup_1).
    rewrite rd_nat. cbn [es_topics set_lock]. rewrite Ht. cbn [mbind option_bind].
    rewrite topic_view_length by done. pose proof Hto as (Hlt & Hct & Hst & Hn & Hsort).
    destruct (EVENT_MAX_SUBSCRIBERS <=? tp_count t) eqn:E8; bool_hyps;
      unfold EVENT_MAX_SUBSCRIBERS in E8.
    + rewrite decide_True by lia. exists (-1), s. rewrite unlock_lock by done.
      split; [done|]. split; [by apply kept_refl|done].
    + rewrite decide_False by lia.
      assert (∃ o, tp_subs t !! Z.to_nat (tp_count t) = Some o) as [o Ho]
        by (apply lookup_lt_is_Some; lia).
      rewrite rd_lookup, Ho by lia. cbn [mbind option_bind]. rewrite wr_lookup by lia.
      cbn [mbind option_bind].
      destruct (Forall_lookup_1 _ _ _ _ Hst Ho) as [Ho1 Ho2].
      change (Z.to_nat (EVENT_TOPIC_MAX - 1)) with 15%nat. rewrite strncpy_pad by done.
      fold (new_sub aid nm cb arg prio). fold x.
      assert (sname x = tname t) as Ex.
      { unfold x. rewrite new_sub_name by done. rewrite En. apply take_ge.
        by apply topic_name_length. }
      destruct (subs_append (tp_subs t) (Z.to_nat (tp_count t)) x) as (t' & Es & Ec & Ht' & Ev);
        [done|lia|done|apply new_sub_slot|by rewrite Ex|done|].
      rewrite Es. cbn [mbind option_bind]. rewrite wr_lookup by lia. cbn [mbind option_bind].
      rewrite Nat2Z.id. replace (tp_count t + 1) with (tp_count t') by lia.
      replace (mk_topic (tp_subs t') (tp_count t')) with t' by (by destruct t').
      eexists 0, _. split; [done|]. split.
      * apply kept_topics; [done|by rewrite length_insert|done|by apply Forall_insert].
      * f_equal. symmetry. etrans; [apply (view_insert s); done|]. rewrite Ev. do 2 f_equal.
        by rewrite Ex.
  - rewrite view_length by done. cbn [es_topic_count set_lock es_topics].
    destruct (32 <=? es_topic_count s) eqn:E32; bool_hyps.
    + rewrite decide_True by lia. cbn [mbind option_bind]. exists (-1), s.
      rewrite unlock_lock by done. split; [done|]. split; [by apply kept_refl|done].
    + rewrite decide_False by lia. rewrite wr_lookup by lia. cbn [mbind option_bind].
      rewrite rd_lookup by lia. cbn [es_topics set_topics es_topic_count].
      rewrite list_lookup_insert_eq by lia. cbn [mbind option_bind].
      change (EVENT_MAX_SUBSCRIBERS <=? tp_count topic_zero) with false. cbv iota.
      cbn [tp_count topic_zero tp_subs].
      change (rd (replicate _ sub_zero) 0) with (Some (@sub_zero Cb Arg)).
      cbn [mbind option_bind].
      rewrite wr_lookup by (done || apply Nat.ltb_lt; done). cbn [mbind option_bind].
      change (Z.to_nat (EVENT_TOPIC_MAX - 1)) with 15%nat.
      change (su_topic sub_zero) with (zeros 16). fold (new_sub aid nm cb arg prio). fold x.
      pose proof topic_zero_ok as (Hz1 & Hz2 & Hz3 & _).
      destruct (subs_append (tp_subs topic_zero) 0 x) as (t' & Es & Ec & Ht' & Ev);
        [done|lia|done|apply new_sub_slot|constructor|constructor|].
      cbn [topic_zero tp_subs] in Es. change (Z.to_nat 0) with 0%nat.
      rewrite Es. cbn [mbind option_bind].
      rewrite wr_lookup by (rewrite ?length_insert; lia). cbn [mbind option_bind].
      rewrite list_insert_insert_eq.
      replace (0 + 1) with (tp_count t') by lia.
      replace (mk_topic (tp_subs t') (tp_count t')) with t' by (by destruct t').
      eexists 0, _. split; [done|]. split.
      * apply (kept_topics s _ (es_topic_count s + 1));
          [done|by rewrite length_insert|lia|by apply Forall_insert].
      * f_equal. unfold view. cbn [es_topics es_topic_count event_unlock set_lock set_topics].
        replace (Z.to_nat (es_topic_count s + 1)) with (S (Z.to_nat (es_topic_count s))) by lia.
        rewrite take_insert_snoc by lia. rewrite fmap_app. cbn. rewrite Ev.
        change (sname x) with (sname (new_sub aid nm cb arg prio)).
        by rewrite new_sub_name by done.
Qed.

(** ** Unsubscribing *)

Lemma drop_app_absent aid l : Forall (λ x, su_app_id x ≠ aid) l → drop_app aid l = l.
Proof. induction 1 as [|x l Hx _ IH]; cbn; [done|]. zbool. by rewrite IH. Qed.

Lemma unsub_loop_spec aid (a m b : list sub) c :
  c = blen a + blen m → Forall (λ x, su_app_id x ≠ aid) a →
  ∃ r, unsub_loop (length m) (blen a) aid (mk_topic (a ++ m ++ b) c) =
    Some (mk_topic (a ++ drop_app aid m ++ r) (blen (a ++ drop_app aid m))) ∧
    (∀ y, y ∈ r → y ∈ b ∨ y ∈ m) ∧ (length (a ++ drop_app aid m ++ r) = length (a ++ m ++ b))%nat ∧
    (m ≠ [] → a ++ drop_app aid m = [] → ∃ z r', r = z :: r' ∧ z ∈ m) ∧ (m = [] → r = b).
Proof.
  intros Hc Ha. revert a Ha Hc. induction m as [|x m IH]; intros a Ha Hc.
  - exists b. cbn [length unsub_loop app drop_app]. rewrite app_nil_r.
    rewrite blen_nil, Z.add_0_r in Hc. subst c. split_and!; auto; done.
  - cbn [length unsub_loop tp_subs app]. rewrite rd_app_l. cbn [mbind option_bind drop_app].
    destruct (su_app_id x =? aid) eqn:E; bool_hyps.
    + cbn [tp_count].
      replace (Z.to_nat (c - 1 - blen a)) with (length m)
        by (rewrite blen_cons in Hc; unfold blen in *; lia).
      destruct (shift_left_spec a m b x) as (z & Hz & Es). rewrite Es. cbn [mbind option_bind].
      exists (z :: b).
      split_and!.
      * do 2 f_equal. rewrite blen_app. rewrite blen_cons in Hc. lia.
      * intros y [->|Hy]%elem_of_cons; [by right|by left].
      * rewrite !length_app. cbn [length]. rewrite length_app. lia.
      * intros _ _. by exists z, b.
      * done.
    + destruct (IH (a ++ [x])) as (r & Er & Hin & Hlen & Hz & Hnil).
      * apply Forall_app. split; [done|by constructor].
      * rewrite blen_app, !blen_cons, blen_nil in *. lia.
      * exists r. rewrite <- !app_assoc in *. cbn [app] in *.
        replace (blen a + 1) with (blen (a ++ [x])) by by rewrite blen_app, blen_cons, blen_nil.
        split_and!; [done| |done| |done].
        -- intros y Hy. destruct (Hin y Hy); [by left|by right; right].
        -- intros _ Hn. by destruct a.
Qed.

Lemma drop_app_sublist aid l : drop_app aid l `sublist_of` l.
Proof.
  induction l as [|x l IH]; cbn; [done|]. destruct (_ =? _); [by apply sublist_cons|].
  by apply sublist_skip.
Qed.

Lemma sublist_Forall (P : sub → Prop) l m : m `sublist_of` l → Forall P l → Forall P m.
Proof. rewrite !Forall_forall. intros Hs Hl x Hx. apply Hl. by eapply elem_of_sublist. Qed.

Lemma sorted_sublist l m : m `sublist_of` l → StronglySorted before l → StronglySorted before m.
Proof.
  induction 1 as [|x m l Hs IH|x m l Hs IH]; intros Hl; [done| |].
  - apply StronglySorted_inv in Hl as [Hl Hx]. constructor; [by apply IH|].
    by eapply sublist_Forall.
  - apply StronglySorted_inv in Hl as [Hl _]. by apply IH.
Qed.

Lemma subs_ok_sublist nm l m : m `sublist_of` l → subs_ok nm l → subs_ok nm m.
Proof. intros Hs [Hn Hl]. split; [by eapply sublist_Forall|by eapply sorted_sublist]. Qed.

Lemma tsubs_drop t : tsubs t ++ drop (Z.to_nat (tp_count t)) (tp_subs t) = tp_subs t.
Proof. apply take_drop. Qed.

Lemma unsub_loop_ok aid t :
  topic_ok t →
  ∃ t', unsub_loop (Z.to_nat (tp_count t)) 0 aid t = Some t' ∧ topic_ok t' ∧
        tview t' = (tname t, drop_app aid (tsubs t)).
Proof.
  intros Ht. pose proof Ht as (Hl & Hc & Hs & Hok).
  destruct (unsub_loop_spec aid [] (tsubs t) (drop (Z.to_nat (tp_count t)) (tp_subs t))
              (tp_count t)) as (r & Er & Hin & Hlen & Hz & Hnil).
  { unfold blen. rewrite topic_view_length by done. cbn. lia. }
  { constructor. }
  cbn [app] in *. rewrite tsubs_drop in Er, Hlen.
  rewrite topic_view_length in Er by done. rewrite blen_nil in Er.
  replace (mk_topic (tp_subs t) (tp_count t)) with t in Er by (by destruct t).
  eexists. split; [exact Er|].
  set (l' := drop_app aid (tsubs t)) in *.
  assert (tname (mk_topic (l' ++ r) (blen l')) = tname t) as En.
  { unfold tname at 1. cbn [tp_subs].
    pose proof (subs_ok_sublist _ _ _ (drop_app_sublist aid (tsubs t)) Hok) as [Hn _]. fold l' in Hn.
    destruct l' as [|z zs] eqn:El; [|by apply Forall_cons in Hn as [? _]].
    destruct (tsubs t) as [|y ys] eqn:Et.
    - rewrite Hnil by done. unfold tsubs in Et.
      assert (Z.to_nat (tp_count t) = 0%nat) as ->
        by (destruct (tp_subs t), (Z.to_nat (tp_count t)); done).
      by rewrite drop_0.
    - destruct (Hz ltac:(done) ltac:(done)) as (z & r' & -> & Hz'). destruct Hok as [Hn' _].
      rewrite Forall_forall in Hn'. by apply Hn'. }
  assert (tsubs (mk_topic (l' ++ r) (blen l')) = l') as Es.
  { unfold tsubs. cbn [tp_subs tp_count]. unfold blen. by rewrite Nat2Z.id, take_app_length. }
  assert (length l' <= length (tsubs t))%nat as Hle
    by apply sublist_length, drop_app_sublist.
  rewrite topic_view_length in Hle by done.
  split; [|unfold tview; by rewrite En, Es].
  split_and!; cbn [tp_subs tp_count].
  - lia.
  - apply blen_nonneg.
  - unfold blen. lia.
  - apply Forall_app. rewrite !Forall_forall in *. split.
    + intros y Hy. apply Hs. eapply subseteq_take. eapply elem_of_sublist; [exact Hy|].
      apply drop_app_sublist.
    + intros y Hy. apply Hs. destruct (Hin y Hy); [by eapply subseteq_drop|by eapply subseteq_take].
  - rewrite En, Es. eapply subs_ok_sublist; [apply drop_app_sublist|done].
Qed.

Lemma event_unsubscribe_spec aid nm s :
  es_ok s → es_lock s = false →
  ∃ r s', event_unsubscribe aid (Some nm) s = Some (r, s') ∧
          kept s s' ∧ spec_unsubscribe aid nm (view s) = (r, view s').
Proof.
  intros Hok Hlk. pose proof Hok as [[Hl Hc] He _ _].
  unfold event_unsubscribe. rewrite relock by done. cbn [mbind option_bind].
  rewrite event_find_topic_spec by (by destruct Hok).
  cbn [mbind option_bind]. change (view (set_lock true s)) with (view s).
  unfold spec_unsubscribe. destruct (find_name nm (view s)) as [[k [n l]]|] eqn:Ef; cbn.
  - destruct (find_name_some s nm k n l Hok Ef) as (t & Ht & -> & En & -> & Hk).
    assert (topic_ok t) as Hto by (by eapply Forall_lookup_1).
    rewrite rd_nat, Ht. cbn [mbind option_bind].
    destruct (unsub_loop_ok aid t Hto) as (t' & -> & Ht' & Ev). cbn [mbind option_bind].
    rewrite wr_lookup by lia. cbn [mbind option_bind]. rewrite Nat2Z.id.
    eexists 0, _. split; [done|]. split.
    + apply kept_topics; [done|by rewrite length_insert|done|by apply Forall_insert].
    + f_equal. symmetry. etrans; [apply (view_insert s); done|]. by rewrite Ev, <- En.
  - exists (-1), s. rewrite unlock_lock by done. split; [done|]. split; [by apply kept_refl|done].
Qed.

(** ** Removing an application *)

Lemma cleanup_subs_spec aid (a m b : list sub) :
  cleanup_subs (length m) (blen a) aid (a ++ m ++ b) = Some (a ++ (deactivate aid <$> m) ++ b).
Proof.
  revert a. induction m as [|x m IH]; intros a; [done|].
  cbn [length cleanup_subs fmap list_fmap app]. rewrite rd_app_l. cbn [mbind option_bind].
  rewrite wr_app_l. cbn [mbind option_bind].
  specialize (IH (a ++ [deactivate aid x])). rewrite <- !app_assoc in IH. cbn [app] in IH.
  by rewrite blen_app, blen_cons, blen_nil in IH.
Qed.

Definition clean_topic aid t : topic_t :=
  mk_topic ((deactivate aid <$> tsubs t) ++ drop (Z.to_nat (tp_count t)) (tp_subs t)) (tp_count t).

Lemma deactivate_fields aid x :
  su_topic (deactivate aid x) = su_topic x ∧ su_priority (deactivate aid x) = su_priority x.
Proof. unfold deactivate. by destruct (_ =? _). Qed.

Lemma clean_topic_ok aid t :
  topic_ok t → topic_ok (clean_topic aid t) ∧
  tview (clean_topic aid t) = (tname t, deactivate aid <$> tsubs t).
Proof.
  intros Ht. pose proof Ht as (Hl & Hc & Hs & Hn & Hsort).
  assert (tsubs (clean_topic aid t) = deactivate aid <$> tsubs t) as Es.
  { unfold tsubs at 1, clean_topic. cbn [tp_subs tp_count].
    apply take_app_length'. by rewrite length_fmap, topic_view_length. }
  assert (tname (clean_topic aid t) = tname t) as En.
  { unfold tname, clean_topic. cbn [tp_subs]. unfold tsubs.
    destruct (tp_subs t) as [|x l]; [done|]. destruct (Z.to_nat (tp_count t)); [done|]. cbn.
    unfold sname. by destruct (deactivate_fields aid x) as [-> _]. }
  split; [|unfold tview; by rewrite Es, En]. split_and!; cbn [clean_topic tp_subs tp_count].
  - rewrite length_app, length_fmap, length_drop, topic_view_length by done. lia.
  - lia.
  - lia.
  - apply Forall_app. split; [|by apply Forall_drop]. apply Forall_fmap.
    eapply Forall_impl; [apply Forall_take, Hs|]. intros x Hx. unfold slot_ok, compose in *.
    by destruct (deactivate_fields aid x) as [-> _].
  - rewrite En, Es. split.
    + apply Forall_fmap. eapply Forall_impl; [exact Hn|]. intros x Hx. unfold sname, compose in *.
      by destruct (deactivate_fields aid x) as [-> _].
    + clear -Hsort. induction Hsort as [|x l _ IH Hx]; cbn; constructor; [done|].
      apply Forall_fmap. eapply Forall_impl; [exact Hx|]. unfold before, compose. intros y.
      by destruct (deactivate_fields aid x) as [_ ->], (deactivate_fields aid y) as [_ ->].
Qed.

Lemma cleanup_loop_spec aid (a m b : list topic_t) :
  Forall topic_ok m →
  cleanup_loop (length m) (blen a) aid (a ++ m ++ b) = Some (a ++ (clean_topic aid <$> m) ++ b).
Proof.
  intros Hm. revert a. induction Hm as [|t m Ht Hm IH]; intros a; [done|].
  cbn [length cleanup_loop fmap list_fmap app]. rewrite rd_app_l. cbn [mbind option_bind].
  pose proof (cleanup_subs_spec aid [] (tsubs t) (drop (Z.to_nat (tp_count t)) (tp_subs t))) as E.
  rewrite topic_view_length in E by done. cbn [app] in E. rewrite tsubs_drop, blen_nil in E. rewrite E. cbn [mbind option_bind].
  rewrite wr_app_l. cbn [mbind option_bind]. fold (clean_topic aid t).
  specialize (IH (a ++ [clean_topic aid t])). rewrite <- !app_assoc in IH. cbn [app] in IH.
  by rewrite blen_app, blen_cons, blen_nil in IH.
Qed.

Lemma event_cleanup_app_spec aid s :
  es_ok s → es_lock s = false →
  ∃ s', event_cleanup_app aid s = Some s' ∧ kept s s' ∧ view s' = spec_cleanup aid (view s).
Proof.
  intros Hok Hlk. pose proof Hok as [[Hl Hc] He _ _].
  unfold event_cleanup_app. rewrite relock by done. cbn [mbind option_bind].
  cbn [es_topics es_topic_count set_lock].
  set (n := Z.to_nat (es_topic_count s)).
  assert (Forall topic_ok (take n (es_topics s))) as Hf by by apply Forall_take.
  pose proof (cleanup_loop_spec aid [] _ (drop n (es_topics s)) Hf) as E.
  rewrite length_take_le in E by (unfold n; lia). cbn [app] in E.
  rewrite take_drop, blen_nil in E. rewrite E. cbn [mbind option_bind].
  assert (Forall topic_ok (clean_topic aid <$> take n (es_topics s))) as Hf'.
  { apply Forall_fmap. eapply Forall_impl; [exact Hf|]. intros t Ht. by apply clean_topic_ok. }
  eexists. split; [done|]. split.
  - apply kept_topics; [done| |done|].
    + rewrite length_app, length_fmap, length_take, length_drop. lia.
    + apply Forall_app. split; [done|by apply Forall_drop].
  - unfold view. cbn [es_topics es_topic_count event_unlock set_lock set_topics]. fold n.
    rewrite take_app_length' by (rewrite length_fmap, length_take; unfold n; lia).
    unfold spec_cleanup. rewrite <- !list_fmap_compose. apply list_fmap_ext.
    intros i t Hi. unfold compose. cbn. apply clean_topic_ok.
    by eapply (Forall_lookup_1 _ _ _ _ Hf).
Qed.

(** ** The queue *)

Lemma pending_length s : es_ok s → length (pending s) = Z.to_nat (es_queue_count s).
Proof. intros [_ _ Hq Hr]. unfold pending. rewrite length_take, rot_length, Hq. lia. Qed.

Lemma dequeue s :
  es_ok s → 0 < es_queue_count s →
  let s1 := set_queue (es_queue s) ((es_queue_head s + 1) mod EVENT_QUEUE_SIZE)
              (es_queue_tail s) (es_queue_count s - 1) s in
  ∃ e, rd (es_queue s) (es_queue_head s) = Some e ∧ es_ok s1 ∧ pending s = e :: pending s1.
Proof.
  intros [Ht He Hq (Hh & Hc & Hl)] Hpos s1.
  destruct (lookup_lt_is_Some_2 (es_queue s) (Z.to_nat (es_queue_head s))) as [e Ee]; [lia|].
  destruct (rot_next (es_queue s) (Z.to_nat (es_queue_head s)) e Ee) as (r & E1 & E2).
  exists e. split; [by rewrite rd_lookup by lia|split].
  - split; [done|done|done|]. cbn [s1 es_queue_head es_queue_count es_queue_tail set_queue].
    unfold EVENT_QUEUE_SIZE. split_and!; try lia.
    + apply Z.mod_pos_bound. lia.
    + apply Z.mod_pos_bound. lia.
    + rewrite Z.add_mod_idemp_l by lia. rewrite Hl. f_equal. lia.
  - unfold pending. cbn [s1 es_queue_head es_queue_count es_queue set_queue]. rewrite E1.
    unfold EVENT_QUEUE_SIZE. rewrite Z2Nat.inj_mod, Z2Nat.inj_add by lia.
    change (Z.to_nat 1) with 1%nat. change (Z.to_nat 16) with 16%nat. rewrite <- Hq, E2.
    assert (length r = 15%nat) as Hr.
    { pose proof (rot_length (Z.to_nat (es_queue_head s)) (es_queue s)) as E.
      rewrite E1 in E. cbn [length] in E. lia. }
    replace (Z.to_nat (es_queue_count s)) with (S (Z.to_nat (es_queue_count s - 1))) by lia.
    cbn [take]. f_equal. by rewrite take_app_le by lia.
Qed.

Lemma enqueue s e :
  es_ok s → es_queue_count s < 16 →
  ∃ q, wr (es_queue s) (es_queue_tail s) e = Some q ∧
    let s1 := set_queue q (es_queue_head s) ((es_queue_tail s + 1) mod EVENT_QUEUE_SIZE)
                (es_queue_count s + 1) s in
    es_ok s1 ∧ pending s1 = pending s ++ [e].
Proof.
  intros [Ht He Hq (Hh & Hc & Hl)] Hlt.
  assert (0 <= es_queue_tail s < 16) by (rewrite Hl; apply Z.mod_pos_bound; lia).
  eexists. split; [apply wr_lookup; lia|]. cbn zeta. split.
  - split; [done|done| |]; cbn [es_queue es_queue_head es_queue_count es_queue_tail set_queue].
    + by rewrite length_insert.
    + split_and!; try lia. unfold EVENT_QUEUE_SIZE. rewrite Hl, Z.add_mod_idemp_l by lia.
      f_equal. lia.
  - unfold pending. cbn [es_queue_head es_queue_count es_queue set_queue].
    replace (Z.to_nat (es_queue_count s + 1)) with (S (Z.to_nat (es_queue_count s))) by lia.
    rewrite Hl, Z2Nat.inj_mod, Z2Nat.inj_add by lia.
    change (Z.to_nat 16) with 16%nat. rewrite <- Hq.
    rewrite rot_insert by lia. apply take_insert_snoc. rewrite rot_length. lia.
Qed.

(** The event published for given arguments: the topic is cut to fifteen
    characters, the data padded with zeros. *)
Definition the_event nm (data : option (list Z)) size type source now : event_t :=
  mk_event type (strncpy (zeros 16) nm 15) now source size
    match data with
    | Some d => take (Z.to_nat size) d ++ drop (Z.to_nat size) (zeros 32)
    | None => zeros 32
    end.

Definition data_ok (data : option (list Z)) (size : Z) : Prop :=
  0 <= size ∧ match data with Some d => size <= blen d | None => True end.

Lemma make_event_spec nm data size type source now :
  data_ok data size → size <= 32 →
  make_event nm data size type source now = Some (the_event nm data size type source now).
Proof.
  intros [H0 Hd] Hs. unfold make_event, the_event. destruct data as [d|]; [|done].
  rewrite copy_if_ok; [done|lia|lia|].
  change (blen (e_data event_zero)) with 32. lia.
Qed.

Lemma event_publish_spec nm data size type source s (u : U) :
  es_ok s → es_lock s = false → data_ok data size →
  ∃ r s', event_publish (Some nm) data size type source (s, u) = Some (r, (s', u)) ∧
    es_ok s' ∧ es_lock s' = false ∧ view s' = view s ∧
    (r, pending s') =
      (if decide (size <= 32 ∧ (length (pending s) < 16)%nat)
       then (0, pending s ++ [the_event nm data size type source (get_tick u)])
       else (-1, pending s)).
Proof.
  intros Hok Hlk Hd. unfold event_publish, EVENT_MAX_DATA.
  pose proof (pending_length s Hok) as Hpl. pose proof Hok as [_ _ _ (Hh & Hc & Hl)].
  destruct (32 <? size) eqn:Es; bool_hyps.
  { exists (-1), s. rewrite decide_False by lia. done. }
  rewrite make_event_spec by (done || lia). cbn [mbind option_bind].
  rewrite relock by done. cbn [mbind option_bind]. cbn [es_queue_count set_lock].
  unfold EVENT_QUEUE_SIZE at 1. destruct (es_queue_count s <? 16) eqn:Ec; bool_hyps.
  - rewrite decide_True by lia.
    destruct (enqueue s (the_event nm data size type source (get_tick u)) Hok Ec)
      as (q & Eq & Hok' & Ep).
    change (wr (es_queue (set_lock true s)) (es_queue_tail (set_lock true s))
      (the_event nm data size type source (get_tick u))) with
      (wr (es_queue s) (es_queue_tail s) (the_event nm data size type source (get_tick u))).
    rewrite Eq. cbn [mbind option_bind]. eexists 0, _. split; [done|].
    split; [by destruct Hok'|]. split_and!; [done|done|]. f_equal. exact Ep.
  - rewrite decide_False by lia. exists (-1), s. by rewrite unlock_lock.
Qed.

(** ** Delivery *)

Section Deliver.
Context (run_cb : Cb → event_t → option Arg → system * U → option (system * U)).

Definition live x : bool := su_active x && match su_callback x with Some _ => true | None => false end.

Definition live_count l : nat := length (filter live l).

Lemma live_count_cons x l :
  live_count (x :: l) = ((if live x then 1 else 0) + live_count l)%nat.
Proof.
  unfold live_count. rewrite filter_cons. by destruct (live x) eqn:E; case_decide; destruct (live x).
Qed.

(** Callbacks that leave the event system alone, with effect [eff]. *)
Section Quiet.
Context (eff : Cb → event_t → option Arg → U → U).
Hypothesis quiet : ∀ f e a s u, run_cb f e a (s, u) = Some (s, eff f e a u).

Definition deliver_to e (u : U) x : U :=
  if su_active x then match su_callback x with Some f => eff f e (su_arg x) u | None => u end
  else u.

Definition spec_deliver e (v : table) (u : U) : Z * U :=
  match find_name (c_str (e_topic e)) v with
  | Some (_, (_, l)) => (Z.of_nat (live_count l), foldl (deliver_to e) u l)
  | None => (0, u)
  end.

Lemma deliver_loop_quiet s k t e fuel i d u :
  topic_ok t → es_topics s !! k = Some t → (i <= length (tsubs t))%nat →
  (length (tsubs t) < fuel + i)%nat →
  deliver_loop run_cb fuel (Z.of_nat k) (Z.of_nat i) d e (s, u) =
    Some (d + Z.of_nat (live_count (drop i (tsubs t))),
          (s, foldl (deliver_to e) u (drop i (tsubs t)))).
Proof.
  intros Ht Hk. revert i d u. induction fuel as [|fuel IH]; intros i d u Hi Hf; [lia|].
  cbn [deliver_loop fst]. rewrite rd_nat, Hk. cbn [mbind option_bind].
  pose proof (topic_view_length t Ht) as Hl. pose proof Ht as (Hl8 & Hc & _).
  destruct (Z.of_nat i <? tp_count t) eqn:E; bool_hyps.
  - destruct (lookup_lt_is_Some_2 (tsubs t) i) as [x Hx]; [lia|].
    assert (tp_subs t !! i = Some x) as Hx'.
    { unfold tsubs in Hx. by apply lookup_take_Some in Hx as [? _]. }
    rewrite rd_nat, Hx'. cbn [mbind option_bind]. rewrite (drop_S _ _ _ Hx). cbn [foldl].
    replace (Z.of_nat i + 1) with (Z.of_nat (S i)) by lia.
    unfold deliver_to at 2. rewrite live_count_cons. unfold live at 1.
    destruct (su_active x), (su_callback x) as [f|]; cbn [andb];
      try (by rewrite IH by lia).
    rewrite quiet. cbn [mbind option_bind]. rewrite IH by lia.
    do 2 f_equal. lia.
  - rewrite drop_ge by lia. cbn. by rewrite Z.add_0_r.
Qed.

Lemma event_deliver_quiet s e u :
  es_ok s →
  event_deliver run_cb e (s, u) =
    Some ((spec_deliver e (view s) u).1, (s, (spec_deliver e (view s) u).2)).
Proof.
  intros Hok. unfold event_deliver. cbn [fst]. rewrite event_find_topic_spec by done.
  cbn [mbind option_bind]. unfold spec_deliver.
  destruct (find_name _ (view s)) as [[k [n l]]|] eqn:Ef; [|done].
  destruct (find_name_some s _ k n l Hok Ef) as (t & Ht & -> & En & -> & Hk).
  assert (topic_ok t) as Hto by (eapply Forall_lookup_1; [apply Hok|done]).
  pose proof (topic_view_length t Hto). pose proof Hto as (_ & Hc & _).
  cbn [fmap option_fmap option_map fst snd].
  rewrite (deliver_loop_quiet s k t e _ 0) by (done || lia || (unfold EVENT_MAX_SUBSCRIBERS; lia)).
  done.
Qed.

Definition spec_process (v : table) (l : list event_t) (u : U) : U :=
  foldl (λ u e, (spec_deliver e v u).2) u l.

Lemma process_loop_quiet s fuel n u :
  es_ok s → es_lock s = true → (length (pending s) < fuel)%nat →
  ∃ s', process_loop run_cb fuel n (s, u) =
    Some (n + Z.of_nat (length (pending s)), (s', spec_process (view s) (pending s) u)) ∧
    es_ok s' ∧ es_lock s' = false ∧ view s' = view s ∧ pending s' = [].
Proof.
  revert s n u. induction fuel as [|fuel IH]; intros s n u Hok Hlk Hf; [lia|].
  cbn [process_loop]. pose proof (pending_length s Hok) as Hpl.
  destruct (0 <? es_queue_count s) eqn:E; bool_hyps.
  - destruct (dequeue s Hok E) as (e & Ee & Hok1 & Ep). rewrite Ee. cbn [mbind option_bind].
    set (s1 := set_queue _ _ _ _ s) in *.
    rewrite event_deliver_quiet by (by destruct Hok1). cbn [mbind option_bind].
    change (event_lock (event_unlock s1)) with (Some (set_lock true (event_unlock s1))).
    cbn [mbind option_bind].
    destruct (IH (set_lock true (event_unlock s1)) (n + 1)
      (spec_deliver e (view (event_unlock s1)) u).2) as (s' & Er & ? & ? & ? & ?).
    + by destruct Hok1.
    + done.
    + change (pending (set_lock true (event_unlock s1))) with (pending s1).
      rewrite Ep in Hf. cbn in Hf. lia.
    + exists s'. rewrite Er. split; [|done]. rewrite Ep.
      change (pending (set_lock true (event_unlock s1))) with (pending s1). cbn [length].
      do 2 f_equal. lia.
  - assert (pending s = []) as Ep.
    { apply length_zero_iff_nil. pose proof (ok_ring s Hok). lia. }
    rewrite Ep. exists (event_unlock s). split; [by rewrite Z.add_0_r|].
    split_and!; [by destruct Hok|done|done|done].
Qed.
End Quiet.

(** Callbacks that may use the event system, but do not leave more events in the
    queue than they found. *)
Section Active.
Hypothesis cb_ok : ∀ f e a s u, es_ok s → es_lock s = false →
  ∃ s' u', run_cb f e a (s, u) = Some (s', u') ∧ es_ok s' ∧ es_lock s' = false ∧
           es_queue_count s' <= es_queue_count s.

Lemma deliver_loop_active k e fuel i d s u :
  (k < 32)%nat → es_ok s → es_lock s = false → (i <= 8)%nat → (8 < fuel + i)%nat →
  ∃ d' s' u', deliver_loop run_cb fuel (Z.of_nat k) (Z.of_nat i) d e (s, u) = Some (d', (s', u')) ∧
    es_ok s' ∧ es_lock s' = false ∧ es_queue_count s' <= es_queue_count s.
Proof.
  intros Hk. revert i d s u. induction fuel as [|fuel IH]; intros i d s u Hok Hlk Hi Hf; [lia|].
  destruct (lookup_lt_is_Some_2 (es_topics s) k) as [t Ht]; [destruct (ok_topics s Hok); lia|].
  assert (topic_ok t) as (Hl & Hc & _) by (eapply Forall_lookup_1; [apply Hok|done]).
  cbn [deliver_loop fst]. rewrite rd_nat, Ht. cbn [mbind option_bind].
  destruct (Z.of_nat i <? tp_count t) eqn:E; bool_hyps; [|by eexists _, _, _].
  destruct (lookup_lt_is_Some_2 (tp_subs t) i) as [x Hx]; [lia|].
  rewrite rd_nat, Hx. cbn [mbind option_bind].
  replace (Z.of_nat i + 1) with (Z.of_nat (S i)) by lia.
  destruct (su_active x), (su_callback x) as [f|]; try (apply IH; done || lia).
  destruct (cb_ok f e (su_arg x) s u Hok Hlk) as (s1 & u1 & -> & Hok1 & Hlk1 & Hq1).
  cbn [mbind option_bind].
  destruct (IH (S i) (d + 1) s1 u1) as (d' & s' & u' & Er & ? & ? & ?); [done|done|lia|lia|].
  exists d', s', u'. split_and!; [done|done|done|lia].
Qed.

Lemma event_deliver_active e s u :
  es_ok s → es_lock s = false →
  ∃ d' s' u', event_deliver run_cb e (s, u) = Some (d', (s', u')) ∧
    es_ok s' ∧ es_lock s' = false ∧ es_queue_count s' <= es_queue_count s.
Proof.
  intros Hok Hlk. unfold event_deliver. cbn [fst]. rewrite event_find_topic_spec by done.
  cbn [mbind option_bind].
  destruct (find_name _ (view s)) as [[k [n l]]|] eqn:Ef; cbn [fmap option_fmap option_map fst];
    [|by eexists _, _, _].
  destruct (find_name_some s _ k n l Hok Ef) as (t & Ht & _).
  apply (deliver_loop_active k e _ 0); try (done || lia).
  2: { unfold EVENT_MAX_SUBSCRIBERS. lia. }
  apply lookup_lt_Some in Ht. destruct (ok_topics s Hok). lia.
Qed.

Lemma process_loop_active fuel n s u :
  es_ok s → es_lock s = true → es_queue_count s < Z.of_nat fuel →
  ∃ n' s' u', process_loop run_cb fuel n (s, u) = Some (n', (s', u')) ∧
    es_ok s' ∧ es_lock s' = false ∧ pending s' = [] ∧ n <= n' <= n + es_queue_count s.
Proof.
  revert n s u. induction fuel as [|fuel IH]; intros n s u Hok Hlk Hf.
  { pose proof (ok_ring s Hok). lia. }
  cbn [process_loop]. pose proof (pending_length s Hok) as Hpl.
  destruct (0 <? es_queue_count s) eqn:E; bool_hyps.
  - destruct (dequeue s Hok E) as (e & Ee & Hok1 & Ep). rewrite Ee. cbn [mbind option_bind].
    set (s1 := set_queue _ _ _ _ s) in *.
    destruct (event_deliver_active e (event_unlock s1) u) as (d & s2 & u2 & -> & Hok2 & Hlk2 & Hq2).
    { by destruct Hok1. }
    { done. }
    cbn [mbind option_bind]. rewrite relock by done. cbn [mbind option_bind].
    change (es_queue_count (event_unlock s1)) with (es_queue_count s - 1) in Hq2.
    destruct (IH (n + 1) (set_lock true s2) u2) as (n' & s' & u' & Er & ? & ? & ? & Hn').
    + by destruct Hok2.
    + done.
    + cbn [es_queue_count set_lock]. lia.
    + cbn [es_queue_count set_lock] in Hn'. exists n', s', u'. split_and!; (done || lia).
  - pose proof (ok_ring s Hok).
    exists n, (event_unlock s), u. split_and!; [done|by destruct Hok|done| |lia|lia].
    apply length_zero_iff_nil. change (pending (event_unlock s)) with (pending s). lia.
Qed.
End Active.
End Deliver.

(** ** Calls *)

Lemma sum_counts_spec n i acc (ts : list topic_t) :
  Forall topic_ok ts → (i + n <= length ts)%nat → (length ts <= 32)%nat →
  0 <= acc <= 8 * Z.of_nat i →
  sum_counts n (Z.of_nat i) acc ts =
    Some (acc + Z.of_nat (sum_list_with (λ p : list Z * list sub, length p.2)
                            (tview <$> take n (drop i ts)))).
Proof.
  intros Hok Hn Hts. revert i acc Hn. induction n as [|n IH]; intros i acc Hn Ha.
  - cbn. by rewrite Z.add_0_r.
  - destruct (lookup_lt_is_Some_2 ts i) as [t Ht]; [lia|].
    assert (topic_ok t) as Hto by (by eapply Forall_lookup_1).
    cbn [sum_counts]. rewrite rd_nat, Ht. cbn [mbind option_bind].
    replace (Z.of_nat i + 1) with (Z.of_nat (S i)) by lia.
    pose proof (topic_view_length t Hto) as Hl. pose proof Hto as (_ & Hc & _).
    rewrite wrap_id by (unfold in_w; lia). rewrite IH by lia.
    rewrite (drop_S _ _ _ Ht). cbn [take fmap list_fmap sum_list_with tview snd].
    f_equal. lia.
Qed.

Lemma event_get_stats_spec s :
  es_ok s → es_lock s = false →
  event_get_stats s =
    Some (0, Z.of_nat (length (pending s)),
          Z.of_nat (sum_list_with (λ p : list Z * list sub, length p.2) (view s)), s).
Proof.
  intros Hok Hlk. pose proof Hok as [[Hl Hc] He Hq Hr].
  unfold event_get_stats. rewrite relock by done. cbn [mbind option_bind].
  cbn [es_topics es_topic_count set_lock es_queue_count].
  rewrite (sum_counts_spec _ 0) by (done || lia). cbn [mbind option_bind].
  rewrite unlock_lock by done. rewrite drop_0. fold (view s).
  rewrite pending_length by done. do 4 f_equal. lia.
Qed.

(** The calls that change the table. *)
Inductive sub_op :=
  | OpSubscribe (aid : Z) (topic : option (list Z)) (cb : option Cb) (arg : option Arg) (prio : Z)
  | OpUnsubscribe (aid : Z) (topic : option (list Z))
  | OpCleanup (aid : Z).

Definition run_op (op : sub_op) s : option (Z * system) :=
  match op with
  | OpSubscribe aid topic cb arg prio => event_subscribe aid topic cb arg prio s
  | OpUnsubscribe aid topic => event_unsubscribe aid topic s
  | OpCleanup aid => s ← event_cleanup_app aid s; Some (0, s)
  end.

Definition spec_op (op : sub_op) (v : table) : Z * table :=
  match op with
  | OpSubscribe aid (Some nm) (Some cb) arg prio => spec_subscribe aid nm cb arg prio v
  | OpUnsubscribe aid (Some nm) => spec_unsubscribe aid nm v
  | OpCleanup aid => (0, spec_cleanup aid v)
  | _ => (-1, v)
  end.

Definition op_str (op : sub_op) : Prop :=
  match op with OpSubscribe _ (Some nm) _ _ _ => is_cstr nm | _ => True end.

Lemma run_op_spec op s :
  es_ok s → es_lock s = false → op_str op →
  ∃ r s', run_op op s = Some (r, s') ∧ kept s s' ∧ spec_op op (view s) = (r, view s').
Proof.
  intros Hok Hlk Hop. destruct op as [aid [nm|] [cb|] arg prio|aid [nm|]|aid]; cbn [run_op spec_op].
  - by apply event_subscribe_spec.
  - by exists (-1), s.
  - by exists (-1), s.
  - by exists (-1), s.
  - by apply event_unsubscribe_spec.
  - by exists (-1), s.
  - destruct (event_cleanup_app_spec aid s Hok Hlk) as (s' & -> & Hk & Hv).
    cbn [mbind option_bind]. exists 0, s'. by rewrite Hv.
Qed.

Lemma event_system_zero_ok b : es_ok (event_system_zero b).
Proof.
  split; [done| |done|done]. apply Forall_replicate, topic_zero_ok.
Qed.

Fixpoint run_ops (ops : list sub_op) s : option (list Z * system) :=
  match ops with
  | [] => Some ([], s)
  | op :: ops => '(r, s) ← run_op op s; '(rs, s) ← run_ops ops s; Some (r :: rs, s)
  end.

Fixpoint spec_ops (ops : list sub_op) (v : table) : list Z * table :=
  match ops with
  | [] => ([], v)
  | op :: ops => let '(r, v) := spec_op op v in let '(rs, v) := spec_ops ops v in (r :: rs, v)
  end.

Lemma run_ops_spec ops s :
  es_ok s → es_lock s = false → Forall op_str ops →
  ∃ rs s', run_ops ops s = Some (rs, s') ∧ kept s s' ∧ spec_ops ops (view s) = (rs, view s').
Proof.
  revert s. induction ops as [|op ops IH]; intros s Hok Hlk Hops; [by exists [], s|].
  apply Forall_cons in Hops as [Hop Hops].
  destruct (run_op_spec op s Hok Hlk Hop) as (r & s1 & E1 & (Hok1 & Hlk1 & Hp1 & Hq1) & Es1).
  destruct (IH s1 Hok1 Hlk1 Hops) as (rs & s2 & E2 & (Hok2 & Hlk2 & Hp2 & Hq2) & Es2).
  exists (r :: rs), s2. cbn [run_ops spec_ops]. rewrite E1. cbn [mbind option_bind].
  rewrite E2, Es1, Es2. split; [done|]. split; [|done]. split_and!; congruence || done.
Qed.

(** From [event_system_init], any sequence of subscriptions, unsubscriptions
    and application clean-ups runs without a fault, releases the lock, and
    computes what the table of named subscription lists says: the same results
    and the same table, each list sorted by priority with equal priorities in
    order of subscription. *)
Theorem event_table_refines (s0 : system) (ops : list sub_op) :
  Forall op_str ops →
  ∃ rs s', run_ops ops (event_system_init s0).2 = Some (rs, s') ∧
    es_ok s' ∧ es_lock s' = false ∧ spec_ops ops [] = (rs, view s') ∧
    event_get_stats s' =
      Some (0, 0, Z.of_nat (sum_list_with (λ p : list Z * list sub, length p.2) (view s')), s').
Proof.
  intros Hops. destruct (run_ops_spec ops (event_system_zero false)) as (rs & s' & E & (Hok & Hlk & Hp & _) & Es);
    [apply event_system_zero_ok|done|done|].
  exists rs, s'. split_and!; [done|done|done|done|].
  rewrite event_get_stats_spec by done. by rewrite Hp.
Qed.

(** C30: The queue is a FIFO of at most sixteen events: publishing appends the
    event with its arguments, or is refused when the data exceed 32 bytes or the
    queue is full, and processing with callbacks that leave the event system alone
    empties it, running for every event in order the live subscribers of its
    topic in order of priority; [event_publish_sync] does so at once and returns
    their number. *)
Theorem event_delivery_refines
    (run_cb : Cb → event_t → option Arg → system * U → option (system * U))
    (eff : Cb → event_t → option Arg → U → U)
    (Hquiet : ∀ f e a s u, run_cb f e a (s, u) = Some (s, eff f e a u))
    nm (data : option (list Z)) size type source s (u : U) :
  es_ok s → es_lock s = false → data_ok data size →
  (∃ r s1, event_publish (Some nm) data size type source (s, u) = Some (r, (s1, u)) ∧
     es_ok s1 ∧ es_lock s1 = false ∧ view s1 = view s ∧
     (r, pending s1) =
       if decide (size <= 32 ∧ (length (pending s) < 16)%nat)
       then (0, pending s ++ [the_event nm data size type source (get_tick u)])
       else (-1, pending s)) ∧
  (∃ s2, event_process_queue run_cb (S (length (pending s))) (s, u) =
     Some (Z.of_nat (length (pending s)), (s2, spec_process eff (view s) (pending s) u)) ∧
     es_ok s2 ∧ es_lock s2 = false ∧ view s2 = view s ∧ pending s2 = []) ∧
  event_publish_sync run_cb (Some nm) data size type source (s, u) =
    (if decide (size <= 32)
     then let '(n, u') := spec_deliver eff (the_event nm data size type source (get_tick u))
                            (view s) u in Some (n, (s, u'))
     else Some (-1, (s, u))).
Proof.
  intros Hok Hlk Hd. split; [by apply event_publish_spec|]. split.
  - unfold event_process_queue. cbn [fst snd]. rewrite relock by done. cbn [mbind option_bind].
    destruct (process_loop_quiet run_cb eff Hquiet (set_lock true s) (S (length (pending s))) 0 u)
      as (s2 & E & ?).
    + by destruct Hok.
    + done.
    + change (pending (set_lock true s)) with (pending s). lia.
    + by exists s2.
  - unfold event_publish_sync, EVENT_MAX_DATA. destruct (32 <? size) eqn:Es; bool_hyps.
    { by rewrite decide_False by lia. }
    rewrite decide_True by done. rewrite make_event_spec by done. cbn [mbind option_bind].
    rewrite relock by done. cbn [mbind option_bind].
    rewrite (event_deliver_quiet run_cb eff Hquiet) by (by destruct Hok). cbn [mbind option_bind].
    change (view (set_lock true s)) with (view s).
    destruct (spec_deliver _ _ _ _) as [n u']. by rewrite unlock_lock.
Qed.

(** C31: [event_process_queue] terminates and empties the queue without a fault,
    having processed no more events than were waiting, whatever the callbacks do
    to the subscriptions meanwhile, as long as none of them leaves more events
    waiting than it found. *)
Theorem event_process_terminates
    (run_cb : Cb → event_t → option Arg → system * U → option (system * U))
    (Hcb : ∀ f e a s u, es_ok s → es_lock s = false →
       ∃ s' u', run_cb f e a (s, u) = Some (s', u') ∧ es_ok s' ∧ es_lock s' = false ∧
                es_queue_count s' <= es_queue_count s) s (u : U) fuel :
  es_ok s → es_lock s = false → (length (pending s) < fuel)%nat →
  ∃ n s' u', event_process_queue run_cb fuel (s, u) = Some (n, (s', u')) ∧
    es_ok s' ∧ es_lock s' = false ∧ pending s' = [] ∧ 0 <= n <= Z.of_nat (length (pending s)).
Proof.
  intros Hok Hlk Hf. unfold event_process_queue. cbn [fst snd].
  rewrite relock by done. cbn [mbind option_bind].
  pose proof (pending_length s Hok) as Hl. pose proof (ok_ring s Hok).
  destruct (process_loop_active run_cb Hcb fuel 0 (set_lock true s) u) as (n & s' & u' & E & ? & ? & ? & ?).
  - by destruct Hok.
  - done.
  - cbn [es_queue_count set_lock]. lia.
  - cbn [es_queue_count set_lock] in *. exists n, s', u'. split_and!; (done || lia).
Qed.

End EventThm.

(** ** Concrete runs

    Callbacks are numbers, the environment is the log of those that ran. *)

Module EventRuns.
#[local] Instance log_ticks : Ticks (list Z) := λ _, 7.
Abbreviation sys := (event_system_t Z unit).
Definition temp : list Z := [116; 101; 109; 112].

Definition log_cb (f : Z) (e : event_t) (a : option unit) (w : sys * list Z)
    : option (sys * list Z) := Some (fst w, snd w ++ [f]).

Definition ops3 : list (sub_op (Cb := Z) (Arg := unit)) :=
  [ OpSubscribe 1 (Some temp) (Some 10) None 1; OpSubscribe 2 (Some temp) (Some 20) None 3;
    OpSubscribe 3 (Some temp) (Some 30) None 1; OpSubscribe 4 None (Some 40) None 1;
    OpUnsubscribe 9 (Some [120]) ].

Definition sys3 : sys := match run_ops ops3 (event_system_zero false) with
                         | Some (_, s) => s | None => event_system_zero true end.

Lemma ops3_str : Forall op_str ops3.
Proof. repeat constructor; vm_decide. Qed.

Lemma sys3_ok : es_ok sys3 ∧ es_lock sys3 = false.
Proof.
  destruct (run_ops_spec ops3 (event_system_zero false)) as (rs & s' & E & (Hok & Hlk & _) & _);
    [apply event_system_zero_ok|done|apply ops3_str|].
  unfold sys3. rewrite E. done.
Qed.

(** Order of delivery: by priority, then by age. *)
Example sync_order :
  event_publish_sync log_cb (Some temp) None 0 6 1 (sys3, []) = Some (3, (sys3, [20; 10; 30])).
Proof. vm_compute. reflexivity. Qed.

(** A topic of sixteen characters is stored cut and never found again: every
    subscription opens a new topic, an event reaches the first subscriber only,
    and unsubscribing fails. *)
Definition long16 : list Z := replicate 16 97.

Example long_topic_splits :
  ∃ s, run_ops [ OpSubscribe 1 (Some long16) (Some 10) None 1;
                 OpSubscribe 2 (Some long16) (Some 20) None 1;
                 OpUnsubscribe 1 (Some long16) ] (event_system_zero (Arg := unit) false)
       = Some ([0; 0; -1], s) ∧ es_topic_count s = 2 ∧
       event_publish_sync log_cb (Some long16) None 0 6 1 (s, []) = Some (1, (s, [10])).
Proof. eexists. split; [vm_compute; reflexivity|]. split; vm_compute; reflexivity. Qed.

(** [event_publish_sync] runs the callbacks with the lock held: one that publishes
    never returns. *)
Definition publish_cb (f : Z) (e : event_t) (a : option unit) (w : sys * list Z)
    : option (sys * list Z) :=
  '(_, w) ← event_publish (Some (c_str (e_topic e))) None 0 6 f w; Some w.

Example publish_sync_hangs :
  event_publish_sync publish_cb (Some temp) None 0 6 1 (sys3, []) = None.
Proof. vm_compute. reflexivity. Qed.

(** [event_cleanup_app] switches subscriptions off but keeps their slots. *)
Example cleanup_keeps_slots :
  ∃ s, run_ops (replicate 8 (OpSubscribe 1 (Some temp) (Some 10) None 1) ++
                [ OpCleanup 1; OpSubscribe 2 (Some temp) (Some 20) None 1 ])
         (event_system_zero (Arg := unit) false) = Some (replicate 8 0 ++ [0; -1], s).
Proof. eexists. vm_compute. reflexivity. Qed.

Lemma event_table_refines_witness :
  ∃ rs s', run_ops ops3 (event_system_init (event_system_zero true)).2 = Some (rs, s') ∧
    es_ok s' ∧ es_lock s' = false ∧ spec_ops ops3 [] = (rs, view s') ∧
    event_get_stats s' =
      Some (0, 0, Z.of_nat (sum_list_with
        (λ p : list Z * list (event_subscription_t Z unit), length p.2) (view s')), s').
Proof. apply (event_table_refines (event_system_zero true) ops3). apply ops3_str. Defined.

Lemma event_delivery_refines_witness :
  event_publish_sync log_cb (Some temp) (Some [1; 2; 3]) 2 6 1 (sys3, [5]) =
    (let '(n, u') := spec_deliver (λ f _ _ u, u ++ [f])
                       (the_event temp (Some [1; 2; 3]) 2 6 1 7) (view sys3) [5]
     in Some (n, (sys3, u'))).
Proof.
  apply (event_delivery_refines log_cb (λ f _ _ u, u ++ [f]) (λ _ _ _ _ _, eq_refl)
    temp (Some [1; 2; 3]) 2 6 1 sys3 [5]); [apply sys3_ok|apply sys3_ok|].
  split; vm_compute; discriminate.
Defined.

(** A callback that unsubscribes the application it is given. *)
Definition unsub_cb (f : Z) (e : event_t) (a : option unit) (w : sys * list Z)
    : option (sys * list Z) :=
  '(_, s) ← event_unsubscribe f (Some (c_str (e_topic e))) (fst w); Some (s, snd w ++ [f]).

Lemma unsub_cb_ok f e a s u :
  es_ok s → es_lock s = false →
  ∃ s' u', unsub_cb f e a (s, u) = Some (s', u') ∧ es_ok s' ∧ es_lock s' = false ∧
           es_queue_count s' <= es_queue_count s.
Proof.
  intros Hok Hlk.
  destruct (event_unsubscribe_spec f (c_str (e_topic e)) s Hok Hlk)
    as (r & s' & E & (? & ? & _ & Hq) & _).
  unfold unsub_cb. cbn [fst snd]. rewrite E. cbn [mbind option_bind].
  eexists s', _. split_and!; [done|done|done|lia].
Qed.

Lemma event_process_terminates_witness :
  ∃ s, length (pending s) = 1%nat ∧
    ∃ n s' u', event_process_queue unsub_cb 2 (s, []) = Some (n, (s', u')) ∧
      es_ok s' ∧ es_lock s' = false ∧ pending s' = [] ∧ 0 <= n <= Z.of_nat (length (pending s)).
Proof.
  destruct (event_publish_spec temp None 0 6 1 sys3 []) as (r & s & _ & Hok & Hlk & _ & Ep);
    [apply sys3_ok|apply sys3_ok|done|].
  assert (length (pending s) = 1%nat) as Hl.
  { rewrite decide_True in Ep by (split; vm_compute; [discriminate|lia]).
    injection Ep as _ ->. reflexivity. }
  exists s. split; [exact Hl|].
  apply (event_process_terminates unsub_cb unsub_cb_ok s [] 2 Hok Hlk). rewrite Hl. lia.
Defined.
End EventRuns.
