(* ===== verification/OsTime.v ===== *)
(** * Time and timers (kernel/os_time.c)

    The time of day is two 64-bit counts that the platform and the clock setting
    write.  Timers are owned by the callers and threaded, by expiry, through their
    [next] fields: a timer is a key of a finite map, and following a pointer that
    is no timer is [None].  The boards' variant of [time_now_us]. *)

From Stdlib Require Import ZArith Lia.
From stdpp Require Import base tactics option numbers fin_maps gmap sorting list.
From S2P Require Import Prelude.

Definition TIME_US_MAX : Z := UINT64_MAX.
Definition TIME_MS_MAX : Z := UINT32_MAX.

Section OsTime.
Context {Cb Arg U : Type}.

Record os_timer_t := mk_timer {
  tm_expire : Z;
  tm_callback : option Cb;
  tm_arg : option Arg;
  tm_periodic : bool;
  tm_period : Z;
  tm_next : option nat;
  tm_active : bool
}.

(** The statics of the file, the timers, and what the callbacks act on. *)
Record time_state := mk_time {
  g_boot_time : Z;
  g_time_offset : Z;
  g_timer_list : option nat;
  timers : gmap nat os_timer_t;
  env : U
}.

Definition set_list (h : option nat) (s : time_state) : time_state :=
  mk_time (g_boot_time s) (g_time_offset s) h (timers s) (env s).
Definition set_timer (i : nat) (t : os_timer_t) (s : time_state) : time_state :=
  mk_time (g_boot_time s) (g_time_offset s) (g_timer_list s) (<[i := t]> (timers s)) (env s).
Definition set_next (n : option nat) (t : os_timer_t) : os_timer_t :=
  mk_timer (tm_expire t) (tm_callback t) (tm_arg t) (tm_periodic t) (tm_period t) n (tm_active t).
Definition set_active (b : bool) (t : os_timer_t) : os_timer_t :=
  mk_timer (tm_expire t) (tm_callback t) (tm_arg t) (tm_periodic t) (tm_period t) (tm_next t) b.
Definition set_expire (e : Z) (t : os_timer_t) : os_timer_t :=
  mk_timer e (tm_callback t) (tm_arg t) (tm_periodic t) (tm_period t) (tm_next t) (tm_active t).
Definition set_callback (c : option Cb) (a : option Arg) (t : os_timer_t) : os_timer_t :=
  mk_timer (tm_expire t) c a (tm_periodic t) (tm_period t) (tm_next t) (tm_active t).

(** ** The clock *)

Definition time_now_us (s : time_state) : Z := u64 (g_time_offset s + g_boot_time s).
Definition time_now_ms (s : time_state) : Z := u32 (time_now_us s / 1000).

Definition time_set_now_us (now_us : Z) (s : time_state) : time_state :=
  mk_time now_us (g_time_offset s) (g_timer_list s) (timers s) (env s).

Definition time_since_us (start : Z) (s : time_state) : Z :=
  let now := time_now_us s in
  if start <=? now then u64 (now - start) else u64 (u64 (TIME_US_MAX - start) + now).

Definition time_since_ms (start : Z) (s : time_state) : Z :=
  let now := time_now_ms s in
  if start <=? now then u32 (now - start) else u32 (u32 (TIME_MS_MAX - start) + now).

(** What runs while the caller yields is outside this file. *)
Section Sleep.
Context (task_yield : time_state → time_state).

Fixpoint sleep_loop (fuel : nat) (start us : Z) (s : time_state) : option time_state :=
  match fuel with
  | O => None
  | S fuel =>
    if time_since_us start s <? us then sleep_loop fuel start us (task_yield s) else Some s
  end.

Definition time_sleep_us (fuel : nat) (us : Z) (s : time_state) : option time_state :=
  sleep_loop fuel (time_now_us s) us s.

Definition time_sleep_ms (fuel : nat) (ms : Z) (s : time_state) : option time_state :=
  time_sleep_us fuel (u32 (ms * 1000)) s.
End Sleep.

Definition time_rtc_init : Z := 0.

Definition time_rtc_set (epoch_us : Z) (s : time_state) : Z * time_state :=
  (0, mk_time (g_boot_time s) (u64 (epoch_us - g_boot_time s)) (g_timer_list s) (timers s) (env s)).

Definition time_rtc_get (s : time_state) : Z := time_now_us s.
Definition time_rtc_is_valid (s : time_state) : bool := negb (g_time_offset s =? 0).

(** ** Timers *)

Definition os_timer_create (timer : option nat) (delay_us : Z) (cb : option Cb)
    (arg : option Arg) (periodic : bool) (s : time_state) : option (Z * time_state) :=
  match timer, cb with
  | Some i, Some _ =>
    _ ← timers s !! i;
    Some (0, set_timer i (mk_timer (u64 (time_now_us s + delay_us)) cb arg periodic delay_us None
                            false) s)
  | _, _ => Some (-1, s)
  end.

(** A place holding a pointer to a timer: the list head or a [next] field. *)
Definition load (loc : option nat) (s : time_state) : option (option nat) :=
  match loc with
  | None => Some (g_timer_list s)
  | Some i => t ← timers s !! i; Some (tm_next t)
  end.
Definition store (loc p : option nat) (s : time_state) : option time_state :=
  match loc with
  | None => Some (set_list p s)
  | Some i => t ← timers s !! i; Some (set_timer i (set_next p t) s)
  end.

(** A list visits every timer at most once, so this fuel stops only a cycle. *)
Definition list_fuel (s : time_state) : nat := S (size (timers s)).

Fixpoint insert_loop (fuel : nat) (current : option nat) (timer : nat) (s : time_state)
    : option time_state :=
  match fuel with
  | O => None
  | S fuel =>
    p ← load current s;
    t ← timers s !! timer;
    let stop :=
      s ← Some (set_timer timer (set_next p t) s);
      store current (Some timer) s in
    match p with
    | None => stop
    | Some c =>
      tc ← timers s !! c;
      if tm_expire tc <=? tm_expire t then insert_loop fuel (Some c) timer s else stop
    end
  end.

Definition timer_list_insert (timer : nat) (s : time_state) : option time_state :=
  insert_loop (list_fuel s) None timer s.

Definition os_timer_start (timer : option nat) (s : time_state) : option (Z * time_state) :=
  match timer with
  | None => Some (-1, s)
  | Some i =>
    t ← timers s !! i;
    if tm_active t : bool then Some (-1, s) else
    let e := u64 (time_now_us s + (if tm_periodic t then tm_period t else 0)) in
    s ← timer_list_insert i (set_timer i (set_active true (set_expire e t)) s);
    Some (0, s)
  end.

Fixpoint stop_loop (fuel : nat) (current : option nat) (timer : nat) (s : time_state)
    : option (Z * time_state) :=
  match fuel with
  | O => None
  | S fuel =>
    p ← load current s;
    match p with
    | None => Some (-1, s)
    | Some c =>
      if decide (c = timer) then
        t ← timers s !! timer;
        s ← store current (tm_next t) s;
        t ← timers s !! timer;
        Some (0, set_timer timer (set_active false (set_next None t)) s)
      else stop_loop fuel (Some c) timer s
    end
  end.

Definition os_timer_stop (timer : option nat) (s : time_state) : option (Z * time_state) :=
  match timer with
  | None => Some (-1, s)
  | Some i =>
    t ← timers s !! i;
    if negb (tm_active t) then Some (-1, s) else stop_loop (list_fuel s) None i s
  end.

Definition os_timer_delete (timer : option nat) (s : time_state) : option (Z * time_state) :=
  '(_, s) ← os_timer_stop timer s;
  i ← timer;
  t ← timers s !! i;
  Some (0, set_timer i (set_callback None None t) s).

Section Process.
Context (run_cb : Cb → option Arg → time_state → option time_state).

Fixpoint process_loop (fuel : nat) (now : Z) (s : time_state) : option time_state :=
  match fuel with
  | O => None
  | S fuel =>
    match g_timer_list s with
    | None => Some s
    | Some i =>
      t ← timers s !! i;
      if now <? tm_expire t then Some s else
      let s := set_timer i (set_next None t) (set_list (tm_next t) s) in
      s ← (if tm_periodic t
           then timer_list_insert i
                  (set_timer i (set_expire (u64 (now + tm_period t)) (set_next None t)) s)
           else Some (set_timer i (set_active false (set_next None t)) s));
      t ← timers s !! i;
      s ← match tm_callback t with Some f => run_cb f (tm_arg t) s | None => Some s end;
      process_loop fuel now s
    end
  end.

Definition timers_process (fuel : nat) (s : time_state) : option time_state :=
  process_loop fuel (time_now_us s) s.
End Process.
End OsTime.

Arguments os_timer_t : clear implicits.
Arguments time_state : clear implicits.
