(* ===== verification/OsTimeThm.v ===== *)
(** * The timer list's contract

    The timers in the list, in order of expiry, and the fields of every timer
    without its link, are the abstract state; starting a timer places it behind
    those that expire no later, and processing fires the due ones from the front. *)

From Stdlib Require Import ZArith Lia Sorted.
From stdpp Require Import base tactics option numbers fin_maps gmap sorting list.
From S2P Require Import Prelude.
From S2P Require Import OsTime.

Section OsTimeThm.
Context {Cb Arg U : Type}.
Abbreviation timer_t := (os_timer_t Cb Arg).
Abbreviation state := (time_state Cb Arg U).
Abbreviation tmap := (gmap nat timer_t).
Implicit Types (s : state) (m : tmap) (t : timer_t) (l : list nat) (h p : option nat).

(** ** Segments of the list *)

Fixpoint sseg m h l p : Prop :=
  match l with
  | [] => h = p
  | i :: l => h = Some i ∧ ∃ t, m !! i = Some t ∧ sseg m (tm_next t) l p
  end.

Lemma sseg_app m h l1 l2 p : sseg m h (l1 ++ l2) p ↔ ∃ q, sseg m h l1 q ∧ sseg m q l2 p.
Proof.
  revert h. induction l1 as [|i l1 IH]; intros h; cbn.
  - split; [by exists h|by intros (q & -> & ?)].
  - split.
    + intros (-> & t & Ht & (q & H1 & H2)%IH). exists q. split; [|done]. split; [done|by exists t].
    + intros (q & (-> & t & Ht & H1) & H2). split; [done|]. exists t. split; [done|].
      apply IH. by exists q.
Qed.

Lemma sseg_ext m m' h l p :
  (∀ i, i ∈ l → m' !! i = m !! i) → sseg m h l p → sseg m' h l p.
Proof.
  revert h. induction l as [|i l IH]; intros h He; [done|]. intros (-> & t & Ht & Hl).
  split; [done|]. exists t. rewrite He by (by left). split; [done|]. apply IH; [|done].
  intros j Hj. apply He. by right.
Qed.

Lemma sseg_dom m h l p i : sseg m h l p → i ∈ l → is_Some (m !! i).
Proof.
  revert h. induction l as [|j l IH]; intros h; [by intros _ ?%not_elem_of_nil|].
  intros (_ & t & Ht & Hl) [->|Hi]%elem_of_cons; [by exists t|by eapply IH].
Qed.

Lemma sseg_size m h l p : sseg m h l p → NoDup l → (length l <= size m)%nat.
Proof.
  intros Hs Hn. rewrite <- size_dom. rewrite <- (size_list_to_set (C := gset nat) l) by done.
  apply subseteq_size. intros i Hi%elem_of_list_to_set. apply elem_of_dom. by eapply sseg_dom.
Qed.

(** ** States that differ in links only *)

Definition unlinked t : timer_t := set_next None t.
Definition pay s : tmap := unlinked <$> timers s.

Definition same s s' : Prop :=
  g_boot_time s' = g_boot_time s ∧ g_time_offset s' = g_time_offset s ∧ env s' = env s ∧
  pay s' = pay s.

#[local] Instance same_equiv : Equivalence same.
Proof.
  split; [by intros ?|by intros ? ? (? & ? & ? & ?)|].
  intros x y z (? & ? & ? & ?) (? & ? & ? & ?). split_and!; congruence.
Qed.

Lemma pay_lookup s i : pay s !! i = unlinked <$> timers s !! i.
Proof. apply lookup_fmap. Qed.

Lemma same_set_list h s : same s (set_list h s).
Proof. done. Qed.

Lemma unlinked_next p t : unlinked (set_next p t) = unlinked t.
Proof. done. Qed.

Lemma same_set_next i t p s : timers s !! i = Some t → same s (set_timer i (set_next p t) s).
Proof.
  intros Ht. split_and!; [done|done|done|]. unfold pay. cbn [timers set_timer].
  rewrite fmap_insert, unlinked_next. apply insert_id. by rewrite lookup_fmap, Ht.
Qed.

Lemma store_seg l p q s :
  NoDup l → sseg (timers s) (g_timer_list s) l q →
  ∃ s', store (last l) p s = Some s' ∧ same s s' ∧ sseg (timers s') (g_timer_list s') l p ∧
        ∀ j, j ∉ l → timers s' !! j = timers s !! j.
Proof.
  intros Hn Hl. destruct l as [|i l _] using rev_ind.
  - exists (set_list p s). done.
  - rewrite last_snoc. apply sseg_app in Hl as (r & Hl & (-> & t & Ht & _)).
    apply NoDup_app in Hn as (Hn & Hni & _). cbn [store]. rewrite Ht. cbn [mbind option_bind].
    eexists. split; [done|]. split; [by apply same_set_next|]. cbn [timers set_timer g_timer_list].
    split.
    + apply sseg_app. exists (Some i). split.
      * eapply sseg_ext; [|exact Hl]. intros j Hj. apply lookup_insert_ne.
        intros ->. apply (Hni j Hj). by left.
      * split; [done|]. eexists. by rewrite lookup_insert_eq.
    + intros j Hj. apply lookup_insert_ne. intros ->. apply Hj. apply elem_of_app. right. by left.
Qed.

Lemma load_seg l q s : sseg (timers s) (g_timer_list s) l q → load (last l) s = Some q.
Proof.
  destruct l as [|i l _] using rev_ind; [intros E; cbn in *; congruence|].
  rewrite last_snoc. intros (r & _ & (_ & t & Ht & <-))%sseg_app. cbn. by rewrite Ht.
Qed.

(** ** Placing and removing *)

Definition expiry m (i : nat) : Z := match m !! i with Some t => tm_expire t | None => 0 end.

Lemma expiry_pay s i : expiry (pay s) i = expiry (timers s) i.
Proof. unfold expiry. rewrite pay_lookup. by destruct (timers s !! i). Qed.

(** [i] goes behind the timers that expire no later than [e]. *)
Fixpoint place (ex : nat → Z) (e : Z) (i : nat) l : list nat :=
  match l with
  | [] => [i]
  | j :: l => if ex j <=? e then j :: place ex e i l else i :: j :: l
  end.

Lemma place_perm ex e i l : place ex e i l ≡ₚ i :: l.
Proof.
  induction l as [|j l IH]; cbn; [done|]. destruct (_ <=? _); [|done].
  rewrite IH. apply Permutation_swap.
Qed.

Definition sooner (ex : nat → Z) (i j : nat) : Prop := ex i <= ex j.

Lemma place_sorted ex i l :
  StronglySorted (sooner ex) l → StronglySorted (sooner ex) (place ex (ex i) i l).
Proof.
  induction 1 as [|j l Hs IH Hj]; cbn; [repeat constructor|].
  destruct (ex j <=? ex i) eqn:E; bool_hyps.
  - constructor; [done|]. rewrite place_perm. constructor; [unfold sooner; lia|done].
  - constructor; [by constructor|]. constructor; [unfold sooner; lia|].
    eapply Forall_impl; [exact Hj|]. unfold sooner. intros; lia.
Qed.

Lemma place_behind ex e i l1 l2 :
  Forall (λ j, ex j <= e) l1 → place ex e i (l1 ++ l2) = l1 ++ place ex e i l2.
Proof. induction 1 as [|j l Hj _ IH]; cbn; [done|]. zbool. by rewrite IH. Qed.

Lemma place_ext ex ex' e i l :
  (∀ j, j ∈ l → ex j = ex' j) → place ex e i l = place ex' e i l.
Proof.
  induction l as [|j l IH]; intros He; cbn; [done|]. rewrite He by (by left).
  rewrite IH; [done|]. intros k Hk. apply He. by right.
Qed.

Lemma insert_loop_spec i t l2 fuel l1 s :
  NoDup (l1 ++ l2) → i ∉ l1 ++ l2 → timers s !! i = Some t →
  sseg (timers s) (g_timer_list s) (l1 ++ l2) None → (length l2 < fuel)%nat →
  ∃ s', insert_loop fuel (last l1) i s = Some s' ∧ same s s' ∧
    sseg (timers s') (g_timer_list s') (l1 ++ place (expiry (timers s)) (tm_expire t) i l2) None.
Proof.
  intros Hn Hi Ht. revert fuel l1 Hn Hi. induction l2 as [|c l2 IH]; intros fuel l1 Hn Hi Hl Hf;
    (destruct fuel as [|fuel]; [lia|]); apply sseg_app in Hl as (q & Hl1 & Hl2);
    cbn [insert_loop]; rewrite (load_seg l1 q) by done; cbn [mbind option_bind]; rewrite Ht;
    cbn [mbind option_bind].
  all: assert (∀ p, q = p →
    ∃ s', store (last l1) (Some i) (set_timer i (set_next p t) s) = Some s' ∧ same s s' ∧
      sseg (timers s') (g_timer_list s') (l1 ++ [i]) p ∧
      ∀ j, j ∉ l1 → j ≠ i → timers s' !! j = timers s !! j) as Hst.
  1,3: intros p <-; apply NoDup_app in Hn as (Hn1 & _ & _); rewrite not_elem_of_app in Hi;
    destruct (store_seg l1 (Some i) q (set_timer i (set_next q t) s) Hn1) as (s' & E & Hs & Hg & Ho);
    [ eapply sseg_ext; [|exact Hl1]; intros j Hj; apply lookup_insert_ne; naive_solver
    | exists s'; split; [exact E|]; split; [by etrans; [apply same_set_next, Ht|]|];
      split;
      [ apply sseg_app; exists (Some i); split; [exact Hg|]; split; [done|];
        exists (set_next q t); rewrite Ho by tauto; split; [apply lookup_insert_eq|done]
      | intros j Hj Hne; rewrite Ho by done; by apply lookup_insert_ne ] ].
  - cbn in Hl2. subst q. destruct (Hst None eq_refl) as (s' & E & Hs & Hg & _).
    exists s'. rewrite <- E. done.
  - destruct Hl2 as (-> & tc & Hc & Hl2). rewrite Hc. cbn [mbind option_bind].
    cbn [place]. unfold expiry at 1. rewrite Hc.
    destruct (tm_expire tc <=? tm_expire t) eqn:Ee.
    + destruct (IH fuel (l1 ++ [c])) as (s' & E & Hs & Hg).
      * by rewrite <- app_assoc.
      * by rewrite <- app_assoc.
      * apply sseg_app. exists (tm_next tc). split; [|done]. apply sseg_app. exists (Some c).
        split; [done|]. split; [done|by exists tc].
      * cbn in Hf. lia.
      * exists s'. rewrite last_snoc in E. rewrite <- app_assoc in Hg. done.
    + destruct (Hst (Some c) eq_refl) as (s' & E & Hs & Hg & Ho).
      exists s'. split; [exact E|]. split; [done|].
      replace (l1 ++ i :: c :: l2) with ((l1 ++ [i]) ++ c :: l2) by by rewrite <- app_assoc.
      apply sseg_app. exists (Some c). split; [done|].
      apply NoDup_app in Hn as (_ & Hd & _). rewrite not_elem_of_app, not_elem_of_cons in Hi.
      split; [done|]. exists tc. split.
      * rewrite Ho; [done| |naive_solver]. intros Hcl. by apply (Hd c Hcl); left.
      * eapply sseg_ext; [|exact Hl2]. intros j Hj. apply Ho.
        -- intros Hjl. by apply (Hd j Hjl); right.
        -- intros ->. naive_solver.
Qed.

(** ** Well-formed timer lists *)

Definition list_ok m l : Prop :=
  NoDup l ∧ (∀ i t, m !! i = Some t → tm_active t = true ↔ i ∈ l) ∧
  StronglySorted (sooner (expiry m)) l.

Definition rep s l : Prop := sseg (timers s) (g_timer_list s) l None ∧ list_ok (pay s) l.

Lemma rep_fuel s l : rep s l → (length l < list_fuel s)%nat.
Proof. intros (Hl & Hn & _). pose proof (sseg_size _ _ _ _ Hl Hn). unfold list_fuel. lia. Qed.

Lemma timer_list_insert_spec i t s l :
  NoDup l → i ∉ l → timers s !! i = Some t → sseg (timers s) (g_timer_list s) l None →
  ∃ s', timer_list_insert i s = Some s' ∧ same s s' ∧
    sseg (timers s') (g_timer_list s') (place (expiry (pay s)) (tm_expire t) i l) None.
Proof.
  intros Hn Hi Ht Hl. pose proof (sseg_size _ _ _ _ Hl Hn).
  destruct (insert_loop_spec i t l (list_fuel s) [] s) as (s' & E & Hs & Hg); try done.
  { unfold list_fuel. lia. }
  exists s'. split; [exact E|]. split; [done|].
  erewrite place_ext; [exact Hg|]. intros j _. by rewrite expiry_pay.
Qed.

Lemma set_timer_same_clock i t s :
  g_boot_time (set_timer i t s) = g_boot_time s ∧ g_time_offset (set_timer i t s) = g_time_offset s ∧
  env (set_timer i t s) = env s.
Proof. done. Qed.

Lemma pay_set_timer i t s : pay (set_timer i t s) = <[i := unlinked t]> (pay s).
Proof. unfold pay. cbn [timers set_timer]. apply fmap_insert. Qed.

(** Changing a timer outside the list. *)
Lemma sseg_set_timer i t s l :
  i ∉ l → sseg (timers s) (g_timer_list s) l None →
  sseg (timers (set_timer i t s)) (g_timer_list (set_timer i t s)) l None.
Proof.
  intros Hi. apply sseg_ext. intros j Hj. apply lookup_insert_ne. by intros ->.
Qed.

Lemma expiry_insert_ne m i j t : i ≠ j → expiry (<[i := t]> m) j = expiry m j.
Proof. intros. unfold expiry. by rewrite lookup_insert_ne. Qed.

Lemma sorted_ext (ex ex' : nat → Z) l :
  (∀ j, j ∈ l → ex j = ex' j) → StronglySorted (sooner ex) l → StronglySorted (sooner ex') l.
Proof.
  intros He Hs. induction Hs as [|i l Hs IH Hi]; constructor.
  - apply IH. intros j Hj. apply He. by right.
  - rewrite Forall_forall in *. intros j Hj. specialize (Hi j Hj). unfold sooner in *.
    rewrite <- !He; [done|by right|by left].
Qed.

Definition remove (i : nat) l : list nat := filter (λ j, j ≠ i) l.

Lemma remove_absent i l : i ∉ l → remove i l = l.
Proof.
  induction l as [|j l IH]; [done|]. intros Hi. unfold remove. rewrite filter_cons.
  rewrite decide_True by set_solver. f_equal. apply IH. set_solver.
Qed.

Lemma remove_mid i a b : i ∉ a → i ∉ b → remove i (a ++ i :: b) = a ++ b.
Proof.
  intros Ha Hb. unfold remove. rewrite filter_app, filter_cons, decide_False by tauto.
  f_equal; by apply remove_absent.
Qed.

Lemma list_ok_remove m l i t :
  tm_active t = false → list_ok m l → list_ok (<[i := t]> m) (remove i l).
Proof.
  intros Ha (Hn & Hact & Hs). split; [by apply NoDup_filter|]. split.
  - intros j tj. unfold remove. rewrite list_elem_of_filter. destruct (decide (i = j)) as [<-|Hne].
    + rewrite lookup_insert_eq. intros [= <-]. rewrite Ha. naive_solver.
    + rewrite lookup_insert_ne by done. intros E. rewrite (Hact _ _ E). naive_solver.
  - clear Hn Hact. induction Hs as [|j l Hs IH Hj]; [constructor|].
    unfold remove. rewrite filter_cons. case_decide as Hd; [|done]. constructor; [done|].
    rewrite Forall_forall in *. intros k [Hk Hkl]%list_elem_of_filter.
    unfold sooner in *. rewrite !expiry_insert_ne by auto. by apply Hj.
Qed.

Lemma list_ok_off m l i t :
  i ∉ l → tm_active t = false → list_ok m l → list_ok (<[i := t]> m) l.
Proof. intros Hi Ha Hl. rewrite <- (remove_absent i l Hi) at 1. by apply list_ok_remove. Qed.

Lemma list_ok_place m l i t :
  i ∉ l → tm_active t = true → list_ok m l →
  list_ok (<[i := t]> m) (place (expiry (<[i := t]> m)) (tm_expire t) i l).
Proof.
  intros Hi Ha (Hn & Hact & Hs). split; [rewrite place_perm; by constructor|]. split.
  - intros j tj. rewrite place_perm, elem_of_cons. destruct (decide (i = j)) as [<-|Hne].
    + rewrite lookup_insert_eq. intros [= <-]. rewrite Ha. tauto.
    + rewrite lookup_insert_ne by done. intros E. rewrite (Hact _ _ E). naive_solver.
  - assert (tm_expire t = expiry (<[i := t]> m) i) as ->.
    { unfold expiry. by rewrite lookup_insert_eq. }
    apply place_sorted. eapply sorted_ext; [|exact Hs]. intros j Hj. symmetry.
    apply expiry_insert_ne. by intros ->.
Qed.

(** ** Starting and stopping *)

Lemma stop_loop_spec i t a b fuel l1 s :
  NoDup (l1 ++ a ++ i :: b) → timers s !! i = Some t →
  sseg (timers s) (g_timer_list s) (l1 ++ a ++ i :: b) None → (length a < fuel)%nat →
  ∃ s', stop_loop fuel (last l1) i s = Some (0, s') ∧
    g_boot_time s' = g_boot_time s ∧ g_time_offset s' = g_time_offset s ∧ env s' = env s ∧
    pay s' = <[i := set_active false (unlinked t)]> (pay s) ∧
    sseg (timers s') (g_timer_list s') (l1 ++ a ++ b) None.
Proof.
  intros Hn Ht. revert fuel l1 Hn. induction a as [|c a IH]; intros fuel l1 Hn Hl Hf;
    (destruct fuel as [|fuel]; [lia|]); pose proof Hl as (q & Hl1 & Hl2)%sseg_app;
    cbn [stop_loop]; rewrite (load_seg l1 q) by done; cbn [mbind option_bind].
  - destruct Hl2 as (-> & t' & Ht' & Hb). rewrite decide_True by done.
    rewrite Ht in *. injection Ht' as <-. cbn [mbind option_bind].
    apply NoDup_app in Hn as (Hn1 & Hd & Hnb). apply NoDup_cons in Hnb as [Hib Hnb].
    destruct (store_seg l1 (tm_next t) _ s Hn1 Hl1) as (s1 & -> & (? & ? & ? & Hp) & Hg & Ho).
    cbn [mbind option_bind].
    assert (i ∉ l1) as Hi1 by (intros Hc; apply (Hd i Hc); by left).
    rewrite (Ho i Hi1), Ht. cbn [mbind option_bind]. eexists. split; [done|].
    split_and!; [done|done|done| |].
    + rewrite pay_set_timer, Hp. done.
    + apply sseg_set_timer; [set_solver|]. apply sseg_app. exists (tm_next t). split; [done|].
      eapply sseg_ext; [|exact Hb]. intros j Hj. apply Ho. intros Hc. apply (Hd j Hc). by right.
  - destruct Hl2 as (-> & tc & Hc & Hb).
    assert (c ≠ i) as Hci.
    { intros ->. apply NoDup_app in Hn as (_ & _ & Hn). cbn in Hn.
      apply NoDup_cons in Hn as [Hn _]. apply Hn. apply elem_of_app. right. by left. }
    rewrite decide_False by done.
    destruct (IH fuel (l1 ++ [c])) as (s' & E & ? & ? & ? & ? & Hg).
    + by rewrite <- app_assoc.
    + by rewrite <- app_assoc.
    + cbn in Hf. lia.
    + exists s'. rewrite last_snoc in E. rewrite <- app_assoc in Hg. done.
Qed.

Lemma os_timer_stop_spec i t s l :
  rep s l → timers s !! i = Some t → i ∈ l →
  ∃ s', os_timer_stop (Some i) s = Some (0, s') ∧ rep s' (remove i l) ∧
    g_boot_time s' = g_boot_time s ∧ g_time_offset s' = g_time_offset s ∧ env s' = env s ∧
    pay s' = <[i := set_active false (unlinked t)]> (pay s).
Proof.
  intros Hr Ht Hi. pose proof (rep_fuel s l Hr) as Hf. destruct Hr as (Hg & Hn & Hact & Hs).
  assert (tm_active t = true) as Ha.
  { apply (Hact i (unlinked t)); [|done]. by rewrite pay_lookup, Ht. }
  unfold os_timer_stop. rewrite Ht. cbn [mbind option_bind]. rewrite Ha. cbn [negb].
  apply list_elem_of_split in Hi as (a & b & ->).
  destruct (stop_loop_spec i t a b (list_fuel s) [] s Hn Ht Hg) as (s' & E & Eb & Eo & Ee & Ep & Hg').
  { rewrite length_app in Hf. cbn in Hf. lia. }
  exists s'. split; [exact E|]. split; [|done].
  pose proof Hn as (Hna & Hd & [Hib Hnb]%NoDup_cons)%NoDup_app.
  assert (i ∉ a) as Hia by (intros Hc; apply (Hd i Hc); by left).
  split; [|rewrite Ep; by apply list_ok_remove].
  rewrite remove_mid by done. exact Hg'.
Qed.

Lemma os_timer_start_spec i t s l :
  rep s l → timers s !! i = Some t → i ∉ l →
  let e := u64 (time_now_us s + (if tm_periodic t then tm_period t else 0)) in
  let m := <[i := set_active true (set_expire e (unlinked t))]> (pay s) in
  ∃ s', os_timer_start (Some i) s = Some (0, s') ∧ rep s' (place (expiry m) e i l) ∧
    g_boot_time s' = g_boot_time s ∧ g_time_offset s' = g_time_offset s ∧ env s' = env s ∧
    pay s' = m.
Proof.
  intros (Hg & Hok) Ht Hi e m. pose proof Hok as (Hn & Hact & Hs).
  assert (tm_active t = false) as Ha.
  { apply not_true_is_false. rewrite (Hact i (unlinked t)); [done|]. by rewrite pay_lookup, Ht. }
  unfold os_timer_start. rewrite Ht. cbn [mbind option_bind]. rewrite Ha. fold e.
  set (t1 := set_active true (set_expire e t)).
  destruct (timer_list_insert_spec i t1 (set_timer i t1 s) l) as (s' & -> & (? & ? & ? & Hp) & Hg').
  - done.
  - done.
  - apply lookup_insert_eq.
  - by apply sseg_set_timer.
  - cbn [mbind option_bind]. rewrite pay_set_timer in Hp, Hg'.
    change (unlinked t1) with (set_active true (set_expire e (unlinked t))) in Hp, Hg'.
    fold m in Hp, Hg'. exists s'. split_and!; [done| | | | |]; try done.
    split; [exact Hg'|]. rewrite Hp. by apply list_ok_place.
Qed.

(** ** Processing *)

Definition set_env (u : U) s : state :=
  mk_time (g_boot_time s) (g_time_offset s) (g_timer_list s) (timers s) u.

Definition due now m l : list nat := filter (λ i, expiry m i <= now) l.

Section Process.
Context (run_cb : Cb → option Arg → state → option state) (eff : Cb → option Arg → U → U).
Hypothesis quiet : ∀ f a s, run_cb f a s = Some (set_env (eff f a (env s)) s).

(** What firing timer [i] does to the list, the timers and the environment. *)
Definition spec_fire (now : Z) (st : list nat * tmap * U) (i : nat) : list nat * tmap * U :=
  let '(l, m, u) := st in
  match m !! i with
  | None => st
  | Some t =>
    let u' := match tm_callback t with Some f => eff f (tm_arg t) u | None => u end in
    if tm_periodic t : bool then
      let e := u64 (now + tm_period t) in
      let m' := <[i := set_expire e t]> m in (place (expiry m') e i (remove i l), m', u')
    else (remove i l, <[i := set_active false t]> m, u')
  end.

Definition spec_process (now : Z) (st : list nat * tmap * U) : list nat * tmap * U :=
  foldl (spec_fire now) st (due now st.1.2 st.1.1).

Definition view s l : list nat * tmap * U := (l, pay s, env s).

Lemma filter_place (P : nat → Prop) `{∀ j, Decision (P j)} ex e i l :
  ¬ P i → filter P (place ex e i l) = filter P l.
Proof.
  intros Hi. induction l as [|j l IH]; cbn [place].
  - rewrite filter_cons. by rewrite decide_False.
  - destruct (ex j <=? e); rewrite !(filter_cons _ j).
    + by rewrite IH.
    + by rewrite filter_cons, decide_False, filter_cons by done.
Qed.

Lemma due_cons now m i l ds :
  StronglySorted (sooner (expiry m)) l → due now m l = i :: ds →
  ∃ l', l = i :: l' ∧ expiry m i <= now ∧ ds = due now m l'.
Proof.
  intros Hs. destruct Hs as [|j l Hs Hj]; [done|]. unfold due. rewrite filter_cons.
  case_decide as Hd; [intros [= -> <-]; by exists l|]. intros E.
  assert (i ∈ filter (λ i, expiry m i <= now) l) as [Hi Hil]%list_elem_of_filter
    by (rewrite E; left).
  rewrite Forall_forall in Hj. specialize (Hj i Hil). unfold sooner in Hj. lia.
Qed.

(** The loop's round on the first timer. *)
Lemma fire_round now i l s fuel :
  rep s (i :: l) → expiry (pay s) i <= now →
  ∃ s' l', rep s' l' ∧ g_boot_time s' = g_boot_time s ∧ g_time_offset s' = g_time_offset s ∧
    view s' l' = spec_fire now (view s (i :: l)) i ∧
    process_loop run_cb (S fuel) now s = process_loop run_cb fuel now s'.
Proof.
  intros (Hg & Hok) Hd. pose proof Hok as (Hn & _). apply NoDup_cons in Hn as [Hil Hn].
  destruct Hg as (Eh & t & Ht & Hg). cbn [process_loop]. rewrite Eh, Ht. cbn [mbind option_bind].
  assert (tm_expire t <= now) as Hle.
  { rewrite expiry_pay in Hd. unfold expiry in Hd. by rewrite Ht in Hd. }
  rewrite (proj2 (Z.ltb_ge _ _)) by lia.
  set (s0 := set_timer i (set_next None t) (set_list (tm_next t) s)).
  assert (sseg (timers s0) (g_timer_list s0) l None) as Hg0 by by apply (sseg_set_timer i _ (set_list _ s)).
  assert (pay s0 = pay s) as Hp0.
  { unfold s0. rewrite pay_set_timer. apply insert_id. by rewrite pay_lookup, Ht. }
  assert (remove i (i :: l) = l) as Er by by apply (remove_mid i [] l); [set_solver|].
  assert (pay s !! i = Some (unlinked t)) as Hpi by by rewrite pay_lookup, Ht.
  unfold view, spec_fire. rewrite Hpi. cbn [tm_callback tm_arg tm_periodic tm_period unlinked set_next].
  destruct (tm_periodic t) eqn:Ep.
  - set (e := u64 (now + tm_period t)). set (t1 := set_expire e (set_next None t)).
    destruct (timer_list_insert_spec i t1 (set_timer i t1 s0) l) as (s1 & -> & (Eb & Eo & Ee & Hp) & Hg1).
    { done. } { done. } { apply lookup_insert_eq. } { by apply sseg_set_timer. }
    rewrite pay_set_timer, Hp0 in Hp, Hg1.
    change (unlinked t1) with (set_expire e (unlinked t)) in Hp, Hg1.
    change (tm_expire t1) with e in Hg1. cbn [mbind option_bind].
    assert (∃ t2, timers s1 !! i = Some t2 ∧ unlinked t2 = set_expire e (unlinked t)) as (t2 & Ht2 & Eu).
    { assert (pay s1 !! i = Some (set_expire e (unlinked t))) as E
        by (rewrite Hp; apply lookup_insert_eq).
      rewrite pay_lookup in E. destruct (timers s1 !! i) as [t2|]; [|done].
      exists t2. split; [done|]. by apply (inj Some) in E. }
    assert (tm_callback t2 = tm_callback t ∧ tm_arg t2 = tm_arg t) as [Ec Ea].
    { split; [exact (f_equal tm_callback Eu)|exact (f_equal tm_arg Eu)]. }
    rewrite Ht2. cbn [mbind option_bind]. rewrite Ec, Ea.
    assert (rep s1 (place (expiry (<[i := set_expire e (unlinked t)]> (pay s))) e i l)) as Hr1.
    { split; [exact Hg1|]. rewrite Hp.
      rewrite <- (insert_insert_eq (pay s) i (set_expire e (unlinked t))
                    (set_active false (unlinked t))).
      apply list_ok_place; [done| |].
      - destruct Hok as (_ & Hact & _). apply (Hact i (unlinked t)); [done|by left].
      - rewrite <- Er. by apply list_ok_remove. }
    rewrite Er. destruct (tm_callback t) as [f|].
    + rewrite quiet. cbn [mbind option_bind]. exists (set_env (eff f (tm_arg t) (env s1)) s1). eexists.
      split; [exact Hr1|]. split_and!; [done|done| |done].
      unfold pay. cbn [set_env env timers]. fold (pay s1). by rewrite Hp, Ee.
    + exists s1. eexists. split; [exact Hr1|]. split_and!; [done|done| |done]. by rewrite Hp, Ee.
  - set (s1 := set_timer i (set_active false (set_next None t)) s0). cbn [mbind option_bind].
    assert (timers s1 !! i = Some (set_active false (set_next None t))) as Ht1
      by apply lookup_insert_eq.
    rewrite Ht1. cbn [mbind option_bind]. cbn [set_active set_next tm_callback tm_arg].
    assert (pay s1 = <[i := set_active false (unlinked t)]> (pay s)) as Hp1
      by by (unfold s1; rewrite pay_set_timer, Hp0).
    assert (rep s1 l) as Hr1.
    { split; [by apply sseg_set_timer|]. rewrite Hp1. rewrite <- Er. by apply list_ok_remove. }
    rewrite Er. destruct (tm_callback t) as [f|].
    + rewrite quiet. cbn [mbind option_bind]. exists (set_env (eff f (tm_arg t) (env s1)) s1), l.
      split; [exact Hr1|]. split_and!; [done|done| |done].
      unfold pay. cbn [set_env env timers]. fold (pay s1). by rewrite Hp1.
    + exists s1, l. split; [exact Hr1|]. split_and!; [done|done| |done]. by rewrite Hp1.
Qed.

(** A due periodic timer has a period that takes it past [now]. *)
Definition periods_ok now m l : Prop :=
  ∀ i t, i ∈ due now m l → m !! i = Some t → tm_periodic t = true →
         0 < tm_period t ∧ now + tm_period t < 2 ^ 64.

Lemma due_ext now m m' l : (∀ j, j ∈ l → m' !! j = m !! j) → due now m' l = due now m l.
Proof.
  unfold due. induction l as [|j l IH]; intros He; [done|]. rewrite !filter_cons.
  assert (expiry m' j = expiry m j) as Ej by (unfold expiry; rewrite He; [done|by left]).
  rewrite IH by (intros k Hk; apply He; by right). by repeat case_decide; (done || lia).
Qed.

Lemma fire_due now i l m u t :
  0 <= now → NoDup (i :: l) → periods_ok now m (i :: l) → m !! i = Some t →
  expiry m i <= now →
  ∃ l' m' u', spec_fire now (i :: l, m, u) i = (l', m', u') ∧
    due now m' l' = due now m l ∧ periods_ok now m' l'.
Proof.
  intros H0 [Hil Hn]%NoDup_cons Hper Ht Hd. unfold spec_fire. rewrite Ht.
  assert (remove i (i :: l) = l) as -> by by apply (remove_mid i [] l); [set_solver|].
  assert (i ∈ due now m (i :: l)) as Hi by (apply list_elem_of_filter; split; [done|by left]).
  assert (∀ t', due now (<[i := t']> m) l = due now m l) as Hsame.
  { intros t'. apply due_ext. intros j Hj. apply lookup_insert_ne. by intros ->. }
  assert (∀ m' l', (∀ j, j ∈ l → m' !! j = m !! j) → due now m' l' = due now m l →
    periods_ok now m' l') as Hpk.
  { intros m' l' Hm Hdue j tj. rewrite Hdue. intros Hj Hmj Hp.
    pose proof Hj as [_ Hjl]%list_elem_of_filter. rewrite Hm in Hmj by done.
    apply (Hper j); [|done|done]. unfold due. rewrite filter_cons. case_decide; [by right|done]. }
  destruct (tm_periodic t) eqn:Ep.
  - destruct (Hper i t Hi Ht Ep) as [Hpos Hwrap].
    rewrite wrap_id by (unfold in_w; lia).
    eexists _, _, _. split; [done|].
    assert (due now (<[i:=set_expire (now + tm_period t) t]> m)
      (place (expiry (<[i:=set_expire (now + tm_period t) t]> m)) (now + tm_period t) i l) =
      due now m l) as E.
    { rewrite <- (Hsame (set_expire (now + tm_period t) t)). unfold due at 1. apply filter_place.
      unfold expiry. rewrite lookup_insert_eq. cbn [tm_expire set_expire]. lia. }
    split; [exact E|]. apply Hpk; [|exact E].
    intros j Hj. apply lookup_insert_ne. by intros ->.
  - eexists _, _, _. split; [done|]. split; [apply Hsame|]. apply Hpk; [|apply Hsame].
    intros j Hj. apply lookup_insert_ne. by intros ->.
Qed.

Lemma process_loop_spec now ds l s fuel :
  0 <= now → rep s l → periods_ok now (pay s) l → due now (pay s) l = ds →
  (length ds < fuel)%nat →
  ∃ s' l', process_loop run_cb fuel now s = Some s' ∧ rep s' l' ∧
    g_boot_time s' = g_boot_time s ∧ g_time_offset s' = g_time_offset s ∧
    view s' l' = foldl (spec_fire now) (view s l) ds ∧ due now (pay s') l' = [].
Proof.
  intros H0. revert l s fuel. induction ds as [|i ds IH]; intros l s fuel Hr Hper Hd Hf;
    (destruct fuel as [|fuel]; [lia|]).
  - exists s, l. split; [|done]. cbn [process_loop].
    destruct Hr as (Hg & Hok). destruct l as [|i l].
    { cbn in Hg. by rewrite Hg. }
    destruct Hg as (-> & t & Ht & _). rewrite Ht. cbn [mbind option_bind].
    unfold due in Hd. rewrite filter_cons in Hd. case_decide as Hc; [done|].
    rewrite expiry_pay in Hc. unfold expiry in Hc. rewrite Ht in Hc.
    by rewrite (proj2 (Z.ltb_lt _ _)) by lia.
  - destruct Hr as (Hg & Hok). pose proof Hok as (Hn & _ & Hs).
    destruct (due_cons now _ _ _ _ Hs Hd) as (l' & -> & Hle & ->).
    destruct (fire_round now i l' s fuel (conj Hg Hok) Hle) as (s1 & l1 & Hr1 & Eb & Eo & Ev & ->).
    assert (∃ t, pay s !! i = Some t) as [t Ht].
    { destruct Hg as (_ & t & Ht & _). exists (unlinked t). by rewrite pay_lookup, Ht. }
    destruct (fire_due now i l' (pay s) (env s) t H0 Hn Hper Ht Hle)
      as (l2 & m2 & u2 & Ef & Hdue & Hp2).
    unfold view at 2 in Ev. rewrite Ef in Ev. injection Ev as -> <- <-.
    destruct (IH l2 s1 fuel Hr1 Hp2 Hdue) as (s' & l'' & E & Hr' & Eb' & Eo' & Ev' & Hd').
    { cbn in Hf. lia. }
    exists s', l''. split; [exact E|]. split; [done|]. split; [congruence|]. split; [congruence|].
    split; [|done]. rewrite Ev'. cbn [foldl]. unfold view at 2. by rewrite Ef.
Qed.
End Process.

(** ** Calls *)

Inductive time_op :=
  | OpCreate (timer : option nat) (delay : Z) (cb : option Cb) (arg : option Arg) (periodic : bool)
  | OpStart (timer : option nat)
  | OpStop (timer : option nat)
  | OpDelete (timer : option nat).

Definition run_op (op : time_op) s : option (Z * state) :=
  match op with
  | OpCreate timer delay cb arg periodic => os_timer_create timer delay cb arg periodic s
  | OpStart timer => os_timer_start timer s
  | OpStop timer => os_timer_stop timer s
  | OpDelete timer => os_timer_delete timer s
  end.

Definition spec_stop (i : nat) (t : timer_t) l m : Z * (list nat * tmap) :=
  if tm_active t then (0, (remove i l, <[i := set_active false t]> m)) else (-1, (l, m)).

(** The calls on the abstract state; no result where the caller breaks the
    contract: a pointer to no timer, creating a timer that is in the list, deleting
    NULL. *)
Definition spec_op (now : Z) (op : time_op) l m : option (Z * (list nat * tmap)) :=
  match op with
  | OpCreate (Some i) delay (Some f) arg periodic =>
    t ← m !! i;
    if tm_active t : bool then None else
    Some (0, (l, <[i := mk_timer (u64 (now + delay)) (Some f) arg periodic delay None false]> m))
  | OpCreate _ _ _ _ _ => Some (-1, (l, m))
  | OpStart (Some i) =>
    t ← m !! i;
    if tm_active t : bool then Some (-1, (l, m)) else
    let e := u64 (now + (if tm_periodic t then tm_period t else 0)) in
    let m' := <[i := set_active true (set_expire e t)]> m in
    Some (0, (place (expiry m') e i l, m'))
  | OpStop (Some i) => t ← m !! i; Some (spec_stop i t l m)
  | OpStart None | OpStop None => Some (-1, (l, m))
  | OpDelete (Some i) =>
    t ← m !! i;
    let '(_, (l, m)) := spec_stop i t l m in
    t ← m !! i;
    Some (0, (l, <[i := set_callback None None t]> m))
  | OpDelete None => None
  end.

Lemma pay_some s i tp :
  pay s !! i = Some tp → ∃ t, timers s !! i = Some t ∧ tp = unlinked t.
Proof.
  rewrite pay_lookup. destruct (timers s !! i) as [t|]; [|done]. intros [= <-]. by exists t.
Qed.

Lemma rep_active s l i t :
  rep s l → timers s !! i = Some t → if tm_active t then i ∈ l else i ∉ l.
Proof.
  intros (_ & _ & Hact & _) Ht. specialize (Hact i (unlinked t)). rewrite pay_lookup, Ht in Hact.
  destruct (Hact eq_refl) as [H1 H2]. cbn in *. destruct (tm_active t); [by apply H1|].
  intros Hi. by specialize (H2 Hi).
Qed.

Lemma rep_set_off s l i t :
  rep s l → i ∉ l → tm_active t = false → rep (set_timer i t s) l.
Proof.
  intros (Hg & Hok) Hi Ha. split; [by apply sseg_set_timer|]. rewrite pay_set_timer.
  by apply list_ok_off.
Qed.

(** Same clock and environment. *)
Definition frame s s' : Prop :=
  g_boot_time s' = g_boot_time s ∧ g_time_offset s' = g_time_offset s ∧ env s' = env s.

Lemma stop_refines i t s l :
  rep s l → timers s !! i = Some t →
  ∃ s', os_timer_stop (Some i) s = Some ((spec_stop i (unlinked t) l (pay s)).1, s') ∧
    rep s' (spec_stop i (unlinked t) l (pay s)).2.1 ∧
    pay s' = (spec_stop i (unlinked t) l (pay s)).2.2 ∧ frame s s'.
Proof.
  intros Hr Ht. pose proof (rep_active s l i t Hr Ht) as Ha. unfold spec_stop.
  cbn [tm_active unlinked set_next]. destruct (tm_active t) eqn:E.
  - destruct (os_timer_stop_spec i t s l Hr Ht Ha) as (s' & -> & ? & ? & ? & ? & ?).
    by exists s'.
  - exists s. unfold os_timer_stop. rewrite Ht. cbn [mbind option_bind]. by rewrite E.
Qed.

(** On every well-formed timer list, creating, starting, stopping and deleting
    a timer run without a fault and do what the agenda says: a started timer is
    placed behind all that expire no later, a stopped one is taken out, the others
    keep their order and fields, and the list stays sorted with exactly the active
    timers in it. *)
Theorem timers_refine s l op r l' m' :
  rep s l → spec_op (time_now_us s) op l (pay s) = Some (r, (l', m')) →
  ∃ s', run_op op s = Some (r, s') ∧ rep s' l' ∧ pay s' = m' ∧ frame s s'.
Proof.
  intros Hr. destruct op as [[i|] delay [f|] arg periodic|[i|]|[i|]|[i|]]; cbn [spec_op run_op];
    try (intros [= <- <- <-]; by exists s).
  all: try done.
  all: destruct (pay s !! i) as [tp|] eqn:Ep; [|done]; cbn [mbind option_bind];
    destruct (pay_some s i tp Ep) as (t & Ht & ->); pose proof (rep_active s l i t Hr Ht) as Ha;
    cbn [tm_active unlinked set_next tm_periodic tm_period].
  - destruct (tm_active t) eqn:E; [done|]. intros [= <- <- <-].
    cbn [os_timer_create]. rewrite Ht. cbn [mbind option_bind].
    eexists. split; [done|]. split; [by apply rep_set_off|]. split; [|done]. apply pay_set_timer.
  - destruct (tm_active t) eqn:E; intros [= <- <- <-].
    + exists s. unfold os_timer_start. rewrite Ht. cbn [mbind option_bind]. by rewrite E.
    + destruct (os_timer_start_spec i t s l Hr Ht Ha) as (s' & -> & ? & ? & ? & ? & ?).
      by exists s'.
  - intros [= E]. destruct (stop_refines i t s l Hr Ht) as (s' & Es & H1 & H2 & H3).
    rewrite E in *. by exists s'.
  - destruct (stop_refines i t s l Hr Ht) as (s' & Es & H1 & H2 & H3).
    destruct (spec_stop i (unlinked t) l (pay s)) as [r1 [l1 m1]] eqn:Esp. cbn [fst snd] in *.
    subst m1. destruct (pay s' !! i) as [tp|] eqn:Ep'; [|done]. cbn [mbind option_bind].
    intros [= <- <- <-]. destruct (pay_some s' i tp Ep') as (t' & Ht' & ->).
    unfold os_timer_delete. rewrite Es. cbn [mbind option_bind]. rewrite Ht'.
    cbn [mbind option_bind]. eexists. split; [done|].
    assert ((i ∉ l1) ∧ tm_active t' = false) as [Hi Hf].
    { pose proof (rep_active s' l1 i t' H1 Ht') as Ha'. destruct (tm_active t') eqn:Et'; [|done].
      exfalso. unfold spec_stop in Esp. cbn [tm_active unlinked set_next] in Esp.
      destruct (tm_active t); injection Esp as <- <- Em.
      - unfold remove in Ha'. apply list_elem_of_filter in Ha' as [? _]. done.
      - done. }
    split; [by apply rep_set_off|]. split; [|done]. by rewrite pay_set_timer.
Qed.

(** C32: With callbacks that leave the timers and the clock alone, and when every due
    periodic timer has a positive period that does not take the clock past 64 bits
    ([periods_ok]), [timers_process] terminates and fires exactly the due timers, each
    once and in order of expiry: a one-shot timer leaves the list, a periodic one is
    placed one period after now; afterwards no timer in the list is due.  Without the
    condition on the periods it can run for ever (Example [period_zero_never_returns]). *)
Theorem timers_process_fires
    (run_cb : Cb → option Arg → state → option state) (eff : Cb → option Arg → U → U)
    (Hquiet : ∀ f a s, run_cb f a s = Some (set_env (eff f a (env s)) s)) s l fuel :
  rep s l → periods_ok (time_now_us s) (pay s) l →
  (length (due (time_now_us s) (pay s) l) < fuel)%nat →
  ∃ s' l', timers_process run_cb fuel s = Some s' ∧ rep s' l' ∧
    time_now_us s' = time_now_us s ∧
    view s' l' = spec_process eff (time_now_us s) (view s l) ∧
    due (time_now_us s) (pay s') l' = [].
Proof.
  intros Hr Hp Hf.
  destruct (process_loop_spec run_cb eff Hquiet (time_now_us s)
              (due (time_now_us s) (pay s) l) l s fuel) as
    (s' & l' & E & Hr' & Eb & Eo & Ev & Hd); try done.
  { apply wrap_in_w. lia. }
  exists s', l'. split_and!; [done|done| |done|done]. unfold time_now_us. by rewrite Eb, Eo.
Qed.

(** ** Sleeping *)

Lemma time_since_id start s :
  0 <= start <= time_now_us s → time_since_us start s = time_now_us s - start.
Proof.
  intros Hs. unfold time_since_us. zbool. apply wrap_id.
  pose proof (wrap_in_w 64 (g_time_offset s + g_boot_time s) ltac:(lia)) as [_ Hb].
  fold (time_now_us s) in Hb. unfold in_w. lia.
Qed.

Lemma time_now_u64 s : is_u64 (time_now_us s).
Proof. apply wrap_in_w. lia. Qed.

Lemma sleep_loop_spec (yield : state → state) us start fuel s :
  0 <= start →
  (∀ s, start <= time_now_us s < start + us → time_now_us s < time_now_us (yield s)) →
  start <= time_now_us s → (Z.to_nat (start + us - time_now_us s) < fuel)%nat →
  ∃ n, sleep_loop yield fuel start us s = Some (Nat.iter n yield s) ∧
    start + us <= time_now_us (Nat.iter n yield s) ∧
    ∀ k, (k < n)%nat → time_now_us (Nat.iter k yield s) < start + us.
Proof.
  intros H0 Hy. revert s. induction fuel as [|fuel IH]; intros s Hs Hf; [lia|].
  cbn [sleep_loop]. rewrite time_since_id by lia.
  destruct (time_now_us s - start <? us) eqn:E; bool_hyps.
  - pose proof (Hy s ltac:(lia)) as Hlt.
    destruct (IH (yield s)) as (n & -> & Hge & Hk); [lia|lia|].
    exists (S n). rewrite Nat.iter_succ_r. split; [done|]. split; [done|].
    intros [|k] Hk'; [cbn; lia|]. rewrite Nat.iter_succ_r. apply Hk. lia.
  - exists 0%nat. cbn. split; [done|]. split; [lia|]. intros k Hk. lia.
Qed.

(** While the clock runs forward, [time_sleep_ms] terminates and returns at the
    first yield at which the milliseconds, as microseconds reduced to 32 bits, have
    passed, so it sleeps the time asked for exactly when that is below 4294968 ms;
    [time_since_us] is the time elapsed as long as the clock has not wrapped, and
    one microsecond short of it after a wrap. *)
Theorem time_sleep_elapsed (yield : state → state) ms us start s fuel :
  us = u32 (ms * 1000) →
  (∀ s', time_now_us s <= time_now_us s' < time_now_us s + us →
         time_now_us s' < time_now_us (yield s')) →
  is_u32 ms → is_u64 start → (Z.to_nat us < fuel)%nat →
  (∃ n, time_sleep_ms yield fuel ms s = Some (Nat.iter n yield s) ∧
     time_now_us s + us <= time_now_us (Nat.iter n yield s) ∧
     (∀ k, (k < n)%nat → time_now_us (Nat.iter k yield s) < time_now_us s + us) ∧
     (us = ms * 1000 ↔ ms < 4294968)) ∧
  time_since_us start s =
    (time_now_us s - start) mod 2 ^ 64 - (if start <=? time_now_us s then 0 else 1).
Proof.
  intros -> Hy Hms Hst Hf. set (us := u32 (ms * 1000)) in *. pose proof (time_now_u64 s) as Hnow. split.
  - destruct (sleep_loop_spec yield us (time_now_us s) fuel s) as (n & E & Hge & Hk).
    + apply Hnow.
    + done.
    + lia.
    + lia.
    + exists n. split_and!; [exact E|done|done|]. unfold us, wrap, in_w in *. split.
      * intros Eu. pose proof (Z.mod_pos_bound (ms * 1000) (2 ^ 32) ltac:(lia)). lia.
      * intros Hlt. apply Z.mod_small. lia.
  - destruct (start <=? time_now_us s) eqn:E; bool_hyps; unfold in_w in *.
    + rewrite time_since_id by lia. rewrite Z.mod_small by lia. lia.
    + unfold time_since_us. rewrite (proj2 (Z.leb_gt _ _)) by lia.
      rewrite <- (Z.mod_add (time_now_us s - start) 1) by lia. unfold wrap, TIME_US_MAX, UINT64_MAX.
      rewrite !Z.mod_small by (rewrite ?Z.mod_small; lia). lia.
Qed.

End OsTimeThm.

(** ** Concrete runs

    Callbacks are numbers, the environment is the log of those that ran. *)

Module TimerRuns.
Abbreviation state := (time_state nat unit (list nat)).
Abbreviation timer_t := (os_timer_t nat unit).

Definition log_cb (f : nat) (a : option unit) (s : state) : option state :=
  Some (set_env (env s ++ [f]) s).
Definition log_eff (f : nat) (a : option unit) (u : list nat) : list nat := u ++ [f].

(** At 1000 us: a periodic timer 2 due since 800, a one-shot timer 1 due since 900,
    a periodic timer 4 waiting, and timer 3 stopped. *)
Definition s1000 : state :=
  mk_time 1000 0 (Some 2%nat)
    (list_to_map [ (1%nat, mk_timer 900 (Some 10%nat) None false 900 (Some 4%nat) true);
                   (2%nat, mk_timer 800 (Some 20%nat) None true 300 (Some 1%nat) true);
                   (3%nat, mk_timer 0 (Some 30%nat) None true 200 None false);
                   (4%nat, mk_timer 1250 (Some 40%nat) None true 900 None true) ]) [].

Lemma s1000_rep : rep s1000 [2; 1; 4]%nat.
Proof.
  split.
  - repeat (split; [reflexivity|]; eexists; split; [reflexivity|]). reflexivity.
  - split; [vm_decide|]. split.
    + change (map_Forall (λ i (t : timer_t), tm_active t = true ↔ i ∈ [2; 1; 4]%nat) (pay s1000)).
      vm_decide.
    + repeat constructor; vm_compute; discriminate.
Qed.

Lemma timers_refine_witness :
  ∃ s', run_op (OpStart (Some 3%nat)) s1000 = Some (0, s') ∧ rep s' [2; 1; 3; 4]%nat ∧
    pay s' = <[3%nat := mk_timer 1200 (Some 30%nat) None true 200 None true]> (pay s1000) ∧
    frame s1000 s'.
Proof. apply (timers_refine s1000 _ _ _ _ _ s1000_rep). reflexivity. Defined.

Lemma s1000_periods : periods_ok (time_now_us s1000) (pay s1000) [2; 1; 4]%nat.
Proof.
  intros i t Hi. assert (i = 2%nat ∨ i = 1%nat) as [-> | ->].
  { change (due _ _ _) with [2; 1]%nat in Hi. set_solver. }
  - change (pay s1000 !! 2%nat) with (Some (mk_timer 800 (Some 20%nat) (@None unit) true 300 None true)).
    intros [= <-] _. by split.
  - change (pay s1000 !! 1%nat) with (Some (mk_timer 900 (Some 10%nat) (@None unit) false 900 None true)).
    by intros [= <-].
Qed.

Lemma timers_process_fires_witness :
  ∃ s' l', timers_process log_cb 3 s1000 = Some s' ∧ rep s' l' ∧
    time_now_us s' = time_now_us s1000 ∧
    view s' l' = spec_process log_eff (time_now_us s1000) (view s1000 [2; 1; 4]%nat) ∧
    due (time_now_us s1000) (pay s') l' = [].
Proof.
  apply (timers_process_fires log_cb log_eff (λ _ _ _, eq_refl) s1000 _ 3 s1000_rep s1000_periods).
  vm_compute. lia.
Defined.

Example process_order :
  ∃ s', timers_process log_cb 3 s1000 = Some s' ∧ env s' = [20; 10]%nat ∧
    g_timer_list s' = Some 4%nat ∧ expiry (timers s') 2 = 1300.
Proof. eexists. split; [vm_compute; reflexivity|]. done. Qed.

(** A one-shot timer is started with no delay at all: one created for ten
    milliseconds is due at once. *)
Definition fresh : timer_t := mk_timer 0 None None false 0 None false.
Definition boot (t : Z) : state := mk_time t 0 None {[ 1%nat := fresh ]} [].

Example one_shot_fires_at_once :
  ∃ s1 s2 s3, os_timer_create (Some 1%nat) 10000 (Some 10%nat) None false (boot 500) = Some (0, s1) ∧
    expiry (timers s1) 1 = 10500 ∧ os_timer_start (Some 1%nat) s1 = Some (0, s2) ∧
    timers_process log_cb 2 s2 = Some s3 ∧ env s3 = [10]%nat ∧ time_now_us s3 = 500.
Proof. do 3 eexists. repeat (split; [vm_compute; reflexivity|]). done. Qed.

(** A periodic timer of period zero is due again as soon as it is rescheduled:
    [timers_process] does not return. *)
Definition stuck : state :=
  mk_time 500 0 (Some 1%nat) {[ 1%nat := mk_timer 500 (Some 10%nat) None true 0 None true ]} [].

Example period_zero_never_returns fuel : timers_process (λ _ _ s, Some s) fuel stuck = None.
Proof.
  unfold timers_process. change (time_now_us stuck) with 500.
  induction fuel as [|fuel IH]; [done|]. exact IH.
Qed.

(** [os_timer_delete (NULL)] writes through NULL. *)
Example delete_null_faults (s : state) : os_timer_delete None s = None.
Proof. done. Qed.

(** 4294968 ms are asked for, 704 us are slept. *)
Definition forward (s : state) : state :=
  mk_time (g_boot_time s + 100) (g_time_offset s) (g_timer_list s) (timers s) (env s).

Example sleep_ms_wraps :
  ∃ s', time_sleep_ms forward 20 4294968 (boot 500) = Some s' ∧ time_now_us s' = 1300.
Proof. eexists. split; [vm_compute; reflexivity|]. done. Qed.

Lemma time_sleep_elapsed_witness :
  (∃ n, time_sleep_ms forward (Z.to_nat 5001) 5 (boot 500) = Some (Nat.iter n forward (boot 500)) ∧
     time_now_us (boot 500) + 5000 <= time_now_us (Nat.iter n forward (boot 500)) ∧
     (∀ k, (k < n)%nat → time_now_us (Nat.iter k forward (boot 500)) < time_now_us (boot 500) + 5000) ∧
     (5000 = 5 * 1000 ↔ 5 < 4294968)) ∧
  time_since_us 600 (boot 500) =
    (time_now_us (boot 500) - 600) mod 2 ^ 64 - (if 600 <=? time_now_us (boot 500) then 0 else 1).
Proof.
  apply (time_sleep_elapsed forward 5 5000 600 (boot 500) (Z.to_nat 5001)); [done|..].
  - change (time_now_us (boot 500)) with 500. change (u32 (5 * 1000)) with 5000.
    intros s' Hs. unfold time_now_us, forward in *. cbn [g_boot_time g_time_offset] in *.
    rewrite Z.add_assoc, <- (wrap_add_l 64 (g_time_offset s' + g_boot_time s')).
    rewrite (wrap_id 64 (_ + 100)) by (unfold in_w; lia). lia.
  - vm_decide.
  - vm_decide.
  - change (u32 (5 * 1000)) with 5000. lia.
Defined.
End TimerRuns.
