(* ===== verification/OsClock.v ===== *)
(** * The wall clock (kernel/os_clock.c)

    The host variant: a shift on top of the host's clock, whose reading is an
    argument, the boot-time stamp, and the POSIX time-zone string.  [time_t] is a
    64-bit signed count. *)

From Stdlib Require Import ZArith Lia.
From stdpp Require Import base tactics option numbers list.
From S2P Require Import Prelude.
From S2P Require Import CString.

Definition OS_CLOCK_SET_AFTER : Z := 1600000000.

(** Conversion to [int32_t]. *)
Definition i32 (z : Z) : Z := (z + 2 ^ 31) mod 2 ^ 32 - 2 ^ 31.

Definition os_clock_stamp (rtc_now compiled_unix : Z) : Z :=
  if OS_CLOCK_SET_AFTER <? rtc_now then 0
  else if OS_CLOCK_SET_AFTER <? compiled_unix then compiled_unix
  else 0.

(** [%d] of a non-negative int and [%02d]. *)
Fixpoint dec (fuel : nat) (n : Z) : list Z :=
  match fuel with
  | O => []
  | S fuel => if n <? 10 then [48 + n] else dec fuel (n / 10) ++ [48 + n mod 10]
  end.
Definition fmt_d (n : Z) : list Z := dec 10 n.
Definition fmt_02d (n : Z) : list Z := if n <? 10 then 48 :: fmt_d n else fmt_d n.

(** [snprintf (buf, cap, ...)] of a text: cut to [cap - 1] bytes, terminated. *)
Definition snprintf (buf : list Z) (cap : Z) (text : list Z) : option (list Z) :=
  wr_bytes buf 0 (take (Z.to_nat (cap - 1)) text ++ [0]).

Definition os_clock_tz_string (offset_min : Z) (buf : option (list Z)) (cap : Z)
    : option (Z * option (list Z)) :=
  match buf with
  | None => Some (-1, None)
  | Some b =>
    if cap <? 12 then Some (-1, Some b) else
    let west := - offset_min in
    if west =? 0 then b ← snprintf b cap [85; 84; 67; 48]; Some (0, Some b) else
    let abs_min := if west <? 0 then - west else west in
    let hours := abs_min / 60 in
    let mins := abs_min mod 60 in
    b ← snprintf b cap ([85; 84; 67] ++ [if west <? 0 then 45 else 43] ++ fmt_d hours
                          ++ [58] ++ fmt_02d mins);
    Some (0, Some b)
  end.

(** [g_adjust_s] on the host; [host] is [time (NULL)]. *)
Definition os_clock_now (g_adjust_s host : Z) : Z := host + g_adjust_s.
Definition os_clock_set (unix_time : Z) (g_adjust_s host : Z) : Z * Z := (0, i32 (unix_time - host)).
Definition os_clock_shift (delta_s : Z) (g_adjust_s : Z) : Z * Z := (0, i32 (g_adjust_s + delta_s)).
Definition os_clock_reset (g_adjust_s : Z) : Z := 0.

(** A set clock reads the time set, moved on with the host's clock, when the two are
    within 68 years. *)
Lemma os_clock_set_now t a host later :
  - 2 ^ 31 <= t - host < 2 ^ 31 →
  os_clock_now (os_clock_set t a host).2 later = t + (later - host).
Proof.
  intros Ht. unfold os_clock_now, os_clock_set, i32. cbn [snd].
  rewrite Z.mod_small by lia. lia.
Qed.

(** ** Reading the string back

    POSIX: "UTC", a sign, hours, and minutes after a colon, counted west of UTC. *)

Definition num (l : list Z) : Z := foldl (λ n c, n * 10 + (c - 48)) 0 l.

Fixpoint split_at (x : Z) (l : list Z) : list Z * option (list Z) :=
  match l with
  | [] => ([], None)
  | y :: l => if y =? x then ([], Some l) else let '(a, b) := split_at x l in (y :: a, b)
  end.

(** The minutes east of UTC. *)
Definition posix_tz (s : list Z) : option Z :=
  match s with
  | 85 :: 84 :: 67 :: s =>
    let '(sign, s) := match s with 45 :: s => (-1, s) | 43 :: s => (1, s) | _ => (1, s) end in
    let '(h, m) := split_at 58 s in
    Some (- sign * (num h * 60 + match m with Some m => num m | None => 0 end))
  | _ => None
  end.

Definition tz_ok (offset : Z) : bool :=
  match os_clock_tz_string offset (Some (replicate 12 255)) 12 with
  | Some (0, Some b) => bool_decide (posix_tz (c_str b) = Some offset)
  | _ => false
  end.

(** For every offset of up to a day and a half, the string fits a buffer of
    twelve bytes and reads back, by the POSIX rule that counts west of UTC, as the
    offset; for a buffer below twelve bytes the call fails and leaves it alone. *)
Theorem os_clock_tz_roundtrip offset :
  -2160 <= offset <= 2160 →
  (∃ b, os_clock_tz_string offset (Some (replicate 12 255)) 12 = Some (0, Some b) ∧
        posix_tz (c_str b) = Some offset) ∧
  ∀ buf cap, cap < 12 → os_clock_tz_string offset (Some buf) cap = Some (-1, Some buf).
Proof.
  intros Ho. split.
  - assert (Forall (λ o, tz_ok o = true) (seqZ (-2160) 4321)) as Hall by vm_decide.
    rewrite Forall_forall in Hall. specialize (Hall offset ltac:(apply elem_of_seqZ; lia)).
    unfold tz_ok in Hall. destruct (os_clock_tz_string _ _ _) as [[[|?|?] [b|]]|]; try done.
    exists b. split; [done|]. by apply bool_decide_eq_true in Hall.
  - intros buf cap Hc. unfold os_clock_tz_string. by zbool.
Qed.

Lemma os_clock_tz_roundtrip_witness :
  -2160 <= 330 <= 2160 ∧
  ((∃ b, os_clock_tz_string 330 (Some (replicate 12 255)) 12 = Some (0, Some b) ∧
        posix_tz (c_str b) = Some 330) ∧
  ∀ buf cap, cap < 12 → os_clock_tz_string 330 (Some buf) cap = Some (-1, Some buf)).
Proof. split; [lia|]. apply (os_clock_tz_roundtrip 330). lia. Defined.
