(* ===== verification/Ecs.v ===== *)
(** * Entities and components (game/ecs.c)

    A world has 128 entity slots and 16 component types.  The world pointer of
    every function may be NULL, hence an option; a component pointer is the type it
    belongs to with an offset into its storage. *)

From Stdlib Require Import ZArith Lia.
From stdpp Require Import base tactics option numbers list.
From S2P Require Import Prelude.

Definition ECS_MAX_ENTITIES : Z := 128.
Definition ECS_MAX_COMPONENT_TYPES : Z := 16.

Record ecs_entity_t := mk_entity { en_index : Z; en_generation : Z }.

#[export] Instance ecs_entity_eq_dec : EqDecision ecs_entity_t.
Proof. solve_decision. Defined.

Definition ECS_NULL_ENTITY : ecs_entity_t := mk_entity 65535 0.

Record component_store_t := mk_cs {
  cs_size : Z;
  cs_registered : bool;
  cs_data : option (list Z);
  cs_present : list bool
}.

Record ecs_world := mk_world {
  w_generation : list Z;
  w_alive : list bool;
  w_count : Z;
  w_components : list component_store_t
}.

Definition set_components (l : list component_store_t) (w : ecs_world) : ecs_world :=
  mk_world (w_generation w) (w_alive w) (w_count w) l.
Definition set_present (l : list bool) (c : component_store_t) : component_store_t :=
  mk_cs (cs_size c) (cs_registered c) (cs_data c) l.

Definition store_zero : component_store_t :=
  mk_cs 0 false None (replicate (Z.to_nat ECS_MAX_ENTITIES) false).

(** [calloc_ok]: whether the allocation succeeds. *)
Definition ecs_world_create (calloc_ok : bool) : option ecs_world :=
  if calloc_ok
  then Some (mk_world (zeros ECS_MAX_ENTITIES) (replicate (Z.to_nat ECS_MAX_ENTITIES) false) 0
               (replicate (Z.to_nat ECS_MAX_COMPONENT_TYPES) store_zero))
  else None.

(** The slot search from index [i], [n] slots to go. *)
Fixpoint free_slot (n : nat) (i : Z) (alive : list bool) : option (option Z) :=
  match n with
  | O => Some None
  | S n => a ← rd alive i; if a : bool then free_slot n (i + 1) alive else Some (Some i)
  end.

Definition ecs_entity_create (world : option ecs_world)
    : option (ecs_entity_t * option ecs_world) :=
  match world with
  | None => Some (ECS_NULL_ENTITY, None)
  | Some w =>
    r ← free_slot (Z.to_nat ECS_MAX_ENTITIES) 0 (w_alive w);
    match r with
    | None => Some (ECS_NULL_ENTITY, Some w)
    | Some i =>
      alive ← wr (w_alive w) i true;
      g ← rd (w_generation w) i;
      Some (mk_entity (u16 i) g,
            Some (mk_world (w_generation w) alive (u32 (w_count w + 1)) (w_components w)))
    end
  end.

Definition ecs_entity_is_alive (world : option ecs_world) (e : ecs_entity_t) : option bool :=
  match world with
  | None => Some false
  | Some w =>
    if ECS_MAX_ENTITIES <=? en_index e then Some false else
    a ← rd (w_alive w) (en_index e);
    g ← rd (w_generation w) (en_index e);
    Some (a && (g =? en_generation e))
  end.

(** [components[c].present[index] = false] for the registered ones, from [c] on. *)
Fixpoint clear_present (n : nat) (c index : Z) (l : list component_store_t)
    : option (list component_store_t) :=
  match n with
  | O => Some l
  | S n =>
    s ← rd l c;
    l ← (if cs_registered s
         then p ← wr (cs_present s) index false; wr l c (set_present p s)
         else Some l);
    clear_present n (c + 1) index l
  end.

Definition ecs_entity_destroy (world : option ecs_world) (e : ecs_entity_t)
    : option (option ecs_world) :=
  a ← ecs_entity_is_alive world e;
  if negb a then Some world else
  w ← world;
  l ← clear_present (Z.to_nat ECS_MAX_COMPONENT_TYPES) 0 (en_index e) (w_components w);
  alive ← wr (w_alive w) (en_index e) false;
  g ← rd (w_generation w) (en_index e);
  gens ← wr (w_generation w) (en_index e) (u16 (g + 1));
  Some (Some (mk_world gens alive (u32 (w_count w - 1)) l)).

Definition ecs_entity_count (world : option ecs_world) : Z :=
  match world with Some w => w_count w | None => 0 end.

Definition ecs_component_register (calloc_ok : bool) (world : option ecs_world)
    (component_id size : Z) : option (Z * option ecs_world) :=
  match world with
  | None => Some (-1, None)
  | Some w =>
    if (ECS_MAX_COMPONENT_TYPES <=? component_id) || (size =? 0) then Some (-1, Some w) else
    s ← rd (w_components w) component_id;
    if cs_registered s : bool then Some (-1, Some w) else
    let data := if calloc_ok then Some (zeros (ECS_MAX_ENTITIES * size)) else None in
    match data with
    | None =>
      l ← wr (w_components w) component_id
            (mk_cs (cs_size s) (cs_registered s) None (cs_present s));
      Some (-1, Some (set_components l w))
    | Some d =>
      l ← wr (w_components w) component_id (mk_cs size true (Some d) (cs_present s));
      Some (0, Some (set_components l w))
    end
  end.

(** A pointer into the storage of a component type. *)
Record comp_ptr := mk_ptr { ptr_type : Z; ptr_offset : Z }.

Definition ecs_component_add (world : option ecs_world) (e : ecs_entity_t) (component_id : Z)
    : option (option comp_ptr * option ecs_world) :=
  a ← ecs_entity_is_alive world e;
  if negb a || (ECS_MAX_COMPONENT_TYPES <=? component_id) then Some (None, world) else
  w ← world;
  s ← rd (w_components w) component_id;
  if negb (cs_registered s) then Some (None, Some w) else
  p ← wr (cs_present s) (en_index e) true;
  l ← wr (w_components w) component_id (set_present p s);
  Some (Some (mk_ptr component_id (en_index e * cs_size s)), Some (set_components l w)).

Definition ecs_component_get (world : option ecs_world) (e : ecs_entity_t) (component_id : Z)
    : option (option comp_ptr) :=
  a ← ecs_entity_is_alive world e;
  if negb a || (ECS_MAX_COMPONENT_TYPES <=? component_id) then Some None else
  w ← world;
  s ← rd (w_components w) component_id;
  if negb (cs_registered s) then Some None else
  p ← rd (cs_present s) (en_index e);
  if negb p then Some None else Some (Some (mk_ptr component_id (en_index e * cs_size s))).

Definition ecs_component_has (world : option ecs_world) (e : ecs_entity_t) (component_id : Z)
    : option bool :=
  a ← ecs_entity_is_alive world e;
  if negb a || (ECS_MAX_COMPONENT_TYPES <=? component_id) then Some false else
  w ← world;
  s ← rd (w_components w) component_id;
  if negb (cs_registered s) then Some false else rd (cs_present s) (en_index e).

Definition ecs_component_remove (world : option ecs_world) (e : ecs_entity_t) (component_id : Z)
    : option (option ecs_world) :=
  a ← ecs_entity_is_alive world e;
  if negb a || (ECS_MAX_COMPONENT_TYPES <=? component_id) then Some world else
  w ← world;
  s ← rd (w_components w) component_id;
  if negb (cs_registered s) then Some (Some w) else
  p ← wr (cs_present s) (en_index e) false;
  l ← wr (w_components w) component_id (set_present p s);
  Some (Some (set_components l w)).

(** A system visits the entities that have all of its components; its function
    acts on the world and the caller's data. *)
Section Each.
Context {U : Type} (fn : ecs_entity_t → option ecs_world * U → option (option ecs_world * U)).

Fixpoint has_all_loop (n : nat) (c : Z) (ids : list Z) (world : option ecs_world)
    (e : ecs_entity_t) : option bool :=
  match n with
  | O => Some true
  | S n =>
    id ← rd ids c;
    h ← ecs_component_has world e id;
    if negb h then Some false else has_all_loop n (c + 1) ids world e
  end.

Fixpoint each_loop (n : nat) (i : Z) (ids : list Z) (count : Z) (st : option ecs_world * U)
    : option (option ecs_world * U) :=
  match n with
  | O => Some st
  | S n =>
    w ← fst st;
    a ← rd (w_alive w) i;
    if negb a then each_loop n (i + 1) ids count st else
    g ← rd (w_generation w) i;
    let e := mk_entity (u16 i) g in
    h ← has_all_loop (Z.to_nat count) 0 ids (fst st) e;
    st ← (if h : bool then fn e st else Some st);
    each_loop n (i + 1) ids count st
  end.

Definition ecs_each (ids : option (list Z)) (count : Z) (st : option ecs_world * U)
    : option (option ecs_world * U) :=
  match fst st with
  | None => Some st
  | Some _ =>
    match ids with
    | None => if 0 <? count then Some st
              else each_loop (Z.to_nat ECS_MAX_ENTITIES) 0 [] count st
    | Some ids => each_loop (Z.to_nat ECS_MAX_ENTITIES) 0 ids count st
    end
  end.
End Each.
