(* ===== verification/EcsThm.v ===== *)
(** * Handles and storage of the entity component system

    A well-formed world keeps its entity count and storage sizes; a handle to a
    destroyed entity is rejected until its slot's 16-bit generation comes round,
    and a component's bytes stay what its owner wrote whatever else happens. *)

From Stdlib Require Import ZArith Lia.
From stdpp Require Import base tactics option numbers list.
From S2P Require Import Prelude.
From S2P Require Import Ecs.

Fixpoint count_true (l : list bool) : Z :=
  match l with [] => 0 | b :: l => (if b then 1 else 0) + count_true l end.

Definition store_ok (s : component_store_t) : Prop :=
  length (cs_present s) = 128%nat ∧
  (cs_registered s = true →
     0 < cs_size s ∧ ∃ d, cs_data s = Some d ∧ blen d = 128 * cs_size s).

Record world_ok (w : ecs_world) : Prop := mk_world_ok {
  wk_gen : length (w_generation w) = 128%nat ∧ Forall (λ g, is_u16 g) (w_generation w);
  wk_alive : length (w_alive w) = 128%nat;
  wk_count : w_count w = count_true (w_alive w);
  wk_comp : length (w_components w) = 16%nat;
  wk_stores : Forall store_ok (w_components w)
}.

Definition entity_ok (e : ecs_entity_t) : Prop := 0 <= en_index e.
Definition slot (e : ecs_entity_t) : nat := Z.to_nat (en_index e).

Lemma count_true_bound l : 0 <= count_true l <= blen l.
Proof.
  induction l as [|b l IH]; [done|]. rewrite blen_cons. cbn [count_true].
  destruct b; lia.
Qed.

Lemma count_true_insert (l : list bool) (i : nat) (b c : bool) :
  l !! i = Some b →
  count_true (<[i := c]> l) = count_true l - (if b then 1 else 0) + (if c then 1 else 0).
Proof.
  intros Hi. rewrite <- (take_drop_middle l i b Hi) at 2. rewrite insert_take_drop.
  2: { by eapply lookup_lt_Some. }
  induction (take i l) as [|x a IH]; cbn [app count_true]; [lia|]. lia.
Qed.

Lemma world_create_ok w : ecs_world_create true = Some w → world_ok w.
Proof.
  intros [= <-]. split; try done.
  - split; [done|]. apply Forall_replicate. vm_decide.
  - repeat constructor; done.
Qed.

(** ** Handles *)

Definition alive_in (w : ecs_world) (e : ecs_entity_t) : Prop :=
  w_alive w !! slot e = Some true ∧ w_generation w !! slot e = Some (en_generation e).

Lemma is_alive_spec w e :
  world_ok w → entity_ok e →
  ∃ b, ecs_entity_is_alive (Some w) e = Some b ∧ (b = true ↔ alive_in w e).
Proof.
  intros [[Hg _] Ha _ _ _] He. unfold ecs_entity_is_alive, alive_in, slot, ECS_MAX_ENTITIES.
  unfold entity_ok in He. destruct (128 <=? en_index e) eqn:E; bool_hyps.
  - exists false. split; [done|]. split; [done|]. intros [Hc _].
    apply lookup_lt_Some in Hc. lia.
  - rewrite !rd_lookup by lia.
    destruct (lookup_lt_is_Some_2 (w_alive w) (Z.to_nat (en_index e))) as [b Hb]; [lia|].
    destruct (lookup_lt_is_Some_2 (w_generation w) (Z.to_nat (en_index e))) as [g Hgg]; [lia|].
    rewrite Hb, Hgg. cbn [mbind option_bind]. eexists. split; [done|].
    rewrite andb_true_iff, Z.eqb_eq. split.
    + by intros [-> ->].
    + by intros [[= ->] [= ->]].
Qed.

Lemma is_alive_true w e :
  world_ok w → entity_ok e → alive_in w e → ecs_entity_is_alive (Some w) e = Some true.
Proof.
  intros Hw He Hl. destruct (is_alive_spec w e Hw He) as (b & -> & Hb). by rewrite (proj2 Hb Hl).
Qed.

Lemma alive_bound w e : world_ok w → entity_ok e → alive_in w e → 0 <= en_index e < 128.
Proof.
  intros [_ Ha _ _ _] He [Hl _]. apply lookup_lt_Some in Hl. unfold slot, entity_ok in *. lia.
Qed.

(** ** Components *)

Definition clear (i : nat) (s : component_store_t) : component_store_t :=
  if cs_registered s then set_present (<[i := false]> (cs_present s)) s else s.

Lemma clear_present_spec i (a m b : list component_store_t) :
  0 <= i < 128 → Forall store_ok m →
  clear_present (length m) (blen a) i (a ++ m ++ b) = Some (a ++ (clear (Z.to_nat i) <$> m) ++ b).
Proof.
  intros Hi Hm. revert a. induction Hm as [|s m [Hp _] Hm IH]; intros a; [done|].
  cbn [length clear_present fmap list_fmap app]. rewrite rd_app_l. cbn [mbind option_bind].
  specialize (IH (a ++ [clear (Z.to_nat i) s])). rewrite <- !app_assoc in IH. cbn [app] in IH.
  rewrite blen_app, blen_cons, blen_nil in IH. unfold clear at 1 2 in IH. unfold clear at 1.
  destruct (cs_registered s).
  - rewrite wr_lookup by lia. cbn [mbind option_bind]. rewrite wr_app_l. by cbn [mbind option_bind].
  - by cbn [mbind option_bind].
Qed.

Lemma store_ok_present s p :
  store_ok s → length p = 128%nat → store_ok (set_present p s).
Proof. by intros [_ Hr] Hp. Qed.

Lemma clear_ok i s : store_ok s → store_ok (clear i s).
Proof.
  intros Hs. unfold clear. destruct (cs_registered s); [|done].
  apply store_ok_present; [done|]. rewrite length_insert. apply Hs.
Qed.

(** ** What the calls do *)

Lemma free_slot_spec n (a m : list bool) :
  length m = n → Forall (λ b, b = true) a →
  free_slot n (blen a) (a ++ m) =
    Some (if decide (Forall (λ b, b = true) m) then None
          else (λ p : nat * bool, blen a + Z.of_nat p.1) <$> list_find (λ b, b = false) m).
Proof.
  revert n a. induction m as [|b m IH]; intros n a <- Ha; [done|]. cbn [length free_slot].
  rewrite rd_app_l. cbn [mbind option_bind list_find]. destruct b.
  - specialize (IH (length m) (a ++ [true]) eq_refl). rewrite <- app_assoc in IH. cbn [app] in IH.
    rewrite blen_app, blen_cons, blen_nil in IH. rewrite Z.add_0_r in IH. rewrite IH.
    2: { apply Forall_app. split; [done|by constructor]. }
    f_equal. rewrite (decide_False (P := true = false)) by done.
    destruct (decide (Forall _ m)) as [Hf|Hf].
    + by rewrite decide_True by by constructor.
    + rewrite decide_False by (intros [_ ?]%Forall_cons; done).
      destruct (list_find _ m) as [[k c]|]; cbn; [|done]. f_equal. lia.
  - rewrite decide_False by (intros [? _]%Forall_cons; done).
    rewrite decide_True by done. cbn. do 2 f_equal. lia.
Qed.

(** Creation takes the first free slot. *)
Lemma entity_create_spec w :
  world_ok w →
  (∃ i g, w_alive w !! i = Some false ∧ (∀ j, (j < i)%nat → w_alive w !! j = Some true) ∧
     w_generation w !! i = Some g ∧
     let w' := mk_world (w_generation w) (<[i := true]> (w_alive w)) (w_count w + 1)
                 (w_components w) in
     ecs_entity_create (Some w) = Some (mk_entity (Z.of_nat i) g, Some w') ∧
     world_ok w' ∧ alive_in w' (mk_entity (Z.of_nat i) g)) ∨
  (w_count w = 128 ∧ ecs_entity_create (Some w) = Some (ECS_NULL_ENTITY, Some w)).
Proof.
  intros [[Hg Hg16] Ha Hc Hl Hs]. unfold ecs_entity_create.
  rewrite (free_slot_spec _ [] (w_alive w)) by (done || constructor).
  cbn [mbind option_bind]. case_decide as Hf.
  - right. split; [|done]. rewrite Hc. clear -Ha Hf. change 128 with (Z.of_nat 128). rewrite <- Ha.
    clear Ha. induction Hf as [|b l -> _ IH]; [done|]. cbn [count_true length]. lia.
  - left. destruct (list_find (λ b, b = false) (w_alive w)) as [[i b]|] eqn:Ef.
    2: { exfalso. apply Hf. apply list_find_None in Ef. eapply Forall_impl; [exact Ef|].
         by intros []. }
    apply list_find_Some in Ef as (Hi & -> & Hbefore). cbn [fmap option_fmap option_map fst].
    rewrite blen_nil, Z.add_0_l. pose proof (lookup_lt_Some _ _ _ Hi) as Hlt.
    destruct (lookup_lt_is_Some_2 (w_generation w) i) as [g Hgi]; [lia|].
    rewrite wr_lookup by lia. cbn [mbind option_bind]. rewrite rd_nat, Hgi. cbn [mbind option_bind].
    rewrite Nat2Z.id. pose proof (count_true_bound (w_alive w)) as Hb. unfold blen in Hb.
    rewrite !wrap_id by (unfold in_w; lia).
    exists i, g. split; [done|]. split.
    { intros j Hj. destruct (w_alive w !! j) as [[]|] eqn:Ej; [done| |].
      - exfalso. by apply (Hbefore j false Ej Hj).
      - apply lookup_ge_None in Ej. lia. }
    split; [done|]. split; [done|]. split.
    + split; cbn; try done; [by rewrite length_insert|].
      rewrite (count_true_insert _ _ _ _ Hi). lia.
    + unfold alive_in, slot. cbn. rewrite Nat2Z.id. split; [|done].
      by apply list_lookup_insert_eq.
Qed.

Lemma entity_destroy_spec w e :
  world_ok w → entity_ok e → alive_in w e →
  let w' := mk_world (<[slot e := u16 (en_generation e + 1)]> (w_generation w))
              (<[slot e := false]> (w_alive w)) (w_count w - 1)
              (clear (slot e) <$> w_components w) in
  ecs_entity_destroy (Some w) e = Some (Some w') ∧ world_ok w'.
Proof.
  intros Hw He Hal w'. pose proof (alive_bound w e Hw He Hal) as Hi.
  destruct Hal as [Hal Hgen]. pose proof Hw as [[Hg Hg16] Ha Hc Hl Hs].
  unfold ecs_entity_destroy. rewrite is_alive_true by done. cbn [mbind option_bind negb].
  pose proof (clear_present_spec (en_index e) [] (w_components w) [] Hi Hs) as E.
  cbn [app] in E. rewrite !app_nil_r, Hl, blen_nil in E.
  change (Z.to_nat ECS_MAX_COMPONENT_TYPES) with 16%nat. rewrite E. cbn [mbind option_bind].
  rewrite wr_lookup by lia. cbn [mbind option_bind]. rewrite rd_lookup by lia.
  fold (slot e). rewrite Hgen. cbn [mbind option_bind].
  rewrite wr_lookup by (fold (slot e); unfold slot; lia). cbn [mbind option_bind]. fold (slot e).
  pose proof (count_true_bound (w_alive w)) as Hb. unfold blen in Hb.
  pose proof (count_true_insert _ _ _ false Hal) as Hins. cbv iota in Hins.
  pose proof (count_true_bound (<[slot e := false]> (w_alive w))) as Hb'.
  rewrite (wrap_id 32) by (unfold in_w; lia). split; [done|].
  unfold w'. split; cbn [w_generation w_alive w_count w_components].
  - rewrite length_insert. split; [done|]. apply Forall_insert; [done|]. apply wrap_in_w. lia.
  - by rewrite length_insert.
  - lia.
  - by rewrite length_fmap.
  - apply Forall_fmap. eapply Forall_impl; [exact Hs|]. intros s. apply clear_ok.
Qed.

(** ** Runs

    [Write] is a client storing through the pointer it was given. *)

Inductive ecs_op :=
  | Create
  | Destroy (e : ecs_entity_t)
  | Register (calloc_ok : bool) (c size : Z)
  | Add (e : ecs_entity_t) (c : Z)
  | Remove (e : ecs_entity_t) (c : Z)
  | Write (e : ecs_entity_t) (c : Z) (bs : list Z).

Definition poke (p : comp_ptr) (bs : list Z) (w : ecs_world) : option ecs_world :=
  s ← rd (w_components w) (ptr_type p);
  d ← cs_data s;
  d ← wr_bytes d (ptr_offset p) bs;
  l ← wr (w_components w) (ptr_type p)
        (mk_cs (cs_size s) (cs_registered s) (Some d) (cs_present s));
  Some (set_components l w).

Definition run_op (op : ecs_op) (w : ecs_world) : option (option ecs_world) :=
  match op with
  | Create => '(_, w) ← ecs_entity_create (Some w); Some w
  | Destroy e => ecs_entity_destroy (Some w) e
  | Register ok c size => '(_, w) ← ecs_component_register ok (Some w) c size; Some w
  | Add e c => '(_, w) ← ecs_component_add (Some w) e c; Some w
  | Remove e c => ecs_component_remove (Some w) e c
  | Write e c bs =>
    p ← ecs_component_get (Some w) e c;
    match p with
    | None => Some (Some w)
    | Some p =>
      s ← rd (w_components w) c;
      if blen bs <=? cs_size s then w ← poke p bs w; Some (Some w) else Some (Some w)
    end
  end.

Fixpoint run (ops : list ecs_op) (w : ecs_world) : option ecs_world :=
  match ops with
  | [] => Some w
  | op :: ops => w ← run_op op w; w ← w; run ops w
  end.

Definition op_ok (op : ecs_op) : Prop :=
  match op with
  | Create => True
  | Destroy e => entity_ok e
  | Register _ c size => 0 <= c ∧ 0 <= size
  | Add e c | Remove e c | Write e c _ => entity_ok e ∧ 0 <= c
  end.

(** The operations that end or change a component of [e] deliberately. *)
Definition touches (op : ecs_op) (e : ecs_entity_t) (c : Z) : bool :=
  match op with
  | Destroy e' => bool_decide (e' = e)
  | Remove e' c' | Write e' c' _ => bool_decide (e' = e ∧ c' = c)
  | _ => false
  end.

(** [e] has a component [c] of [n] bytes with contents [bs]. *)
Definition holds (w : ecs_world) (e : ecs_entity_t) (c n : Z) (bs : list Z) : Prop :=
  alive_in w e ∧ ∃ s d, w_components w !! Z.to_nat c = Some s ∧ cs_registered s = true ∧
    cs_present s !! slot e = Some true ∧ cs_data s = Some d ∧ cs_size s = n ∧
    rd_bytes d (en_index e * n) n = Some bs.

Definition keeps (op : ecs_op) (w w' : ecs_world) : Prop :=
  world_ok w' ∧
  (∀ i, w_generation w' !! i = w_generation w !! i ∨
        (∃ e, op = Destroy e ∧ slot e = i) ∧
        w_generation w' !! i = (λ g, u16 (g + 1)) <$> w_generation w !! i) ∧
  ∀ e c n bs, entity_ok e → 0 <= c → holds w e c n bs → touches op e c = false → holds w' e c n bs.

Lemma keeps_refl op w : world_ok w → keeps op w w.
Proof. split; [done|]. split; [by left|done]. Qed.

Lemma alive_unique w e e' :
  entity_ok e → entity_ok e' → alive_in w e → alive_in w e' → slot e = slot e' → e = e'.
Proof.
  unfold alive_in, slot, entity_ok. intros He He' [_ H1] [_ H2] Es. rewrite Es in H1.
  rewrite H1 in H2. injection H2 as Eg. destruct e, e'; cbn in *. f_equal; [lia|done].
Qed.

(** Replacing one store. *)
Lemma keeps_store op w k s s' :
  world_ok w → w_components w !! k = Some s → store_ok s' →
  (∀ e c bs d, entity_ok e → alive_in w e → Z.to_nat c = k → 0 <= c → cs_registered s = true →
     cs_present s !! slot e = Some true → cs_data s = Some d →
     rd_bytes d (en_index e * cs_size s) (cs_size s) = Some bs → touches op e c = false →
     cs_registered s' = true ∧ cs_size s' = cs_size s ∧ cs_present s' !! slot e = Some true ∧
     ∃ d', cs_data s' = Some d' ∧ rd_bytes d' (en_index e * cs_size s) (cs_size s) = Some bs) →
  keeps op w (set_components (<[k := s']> (w_components w)) w).
Proof.
  intros [Hg Ha Hc Hl Hs] Hk Hs' Hh. split; [|split; [by left|]].
  - split; try done; cbn [w_components set_components]; [by rewrite length_insert|].
    by apply Forall_insert.
  - intros e c n bs He Hc0 (Hal & s0 & d & Hs0 & Hr & Hp & Hd & <- & Hb) Ht. split; [done|].
    cbn [w_components set_components]. destruct (decide (Z.to_nat c = k)) as [E|E].
    + rewrite E in *. rewrite Hk in Hs0. injection Hs0 as <-.
      destruct (Hh e c bs d) as (Hr' & Es & Hp' & d' & Hd' & Hb'); try done.
      exists s', d'. rewrite list_lookup_insert_eq by by eapply lookup_lt_Some.
      split_and!; done.
    + exists s0, d. by rewrite list_lookup_insert_ne by done.
Qed.

Lemma create_keeps w : world_ok w → ∃ w', run_op Create w = Some (Some w') ∧ keeps Create w w'.
Proof.
  intros Hw. cbn [run_op].
  destruct (entity_create_spec w Hw) as [(i & g & Hi & _ & Hg & Hcr)|[_ ->]].
  - destruct Hcr as (-> & Hw' & _). cbn [mbind option_bind]. eexists. split; [done|].
    split; [done|]. split; [by left|].
    intros e c n bs He Hc ([Hal Hgen] & Hrest) _. split; [|done].
    split; [|done]. cbn [w_alive]. rewrite list_lookup_insert_ne; [done|]. intros ->.
    rewrite Hi in Hal. done.
  - cbn [mbind option_bind]. exists w. split; [done|by apply keeps_refl].
Qed.

Lemma destroy_keeps w e :
  world_ok w → entity_ok e → ∃ w', run_op (Destroy e) w = Some (Some w') ∧ keeps (Destroy e) w w'.
Proof.
  intros Hw He. cbn [run_op]. destruct (is_alive_spec w e Hw He) as ([] & Ea & Hb).
  - pose proof (proj1 Hb eq_refl) as Hal.
    destruct (entity_destroy_spec w e Hw He Hal) as [-> Hw']. eexists. split; [done|].
    split; [done|]. split.
    + intros i. cbn [w_generation]. destruct (decide (slot e = i)) as [<-|Hne].
      * right. split; [by exists e|]. destruct Hal as [_ Hgen]. rewrite Hgen.
        rewrite list_lookup_insert_eq; [done|]. by eapply lookup_lt_Some.
      * left. by rewrite list_lookup_insert_ne.
    + intros e' c n bs He' Hc (Hal' & s & d & Hs & Hr & Hp & Hd & Hn & Hbs) Ht. cbn [touches] in Ht.
      apply bool_decide_eq_false in Ht.
      assert (slot e ≠ slot e') as Hne.
      { intros E. apply Ht. by eapply alive_unique. }
      split.
      * destruct Hal'. split; cbn [w_alive w_generation]; by rewrite list_lookup_insert_ne.
      * exists (clear (slot e) s), d. cbn [w_components]. rewrite list_lookup_fmap, Hs.
        cbn [fmap option_fmap option_map]. unfold clear. rewrite Hr.
        split; [done|]. split; [exact Hr|]. split; [|done].
        cbn [cs_present set_present]. by rewrite list_lookup_insert_ne.
  - exists w. unfold ecs_entity_destroy. rewrite Ea. split; [done|by apply keeps_refl].
Qed.

Lemma store_at w c :
  world_ok w → 0 <= c < 16 → ∃ s, rd (w_components w) c = Some s ∧
    w_components w !! Z.to_nat c = Some s ∧ store_ok s.
Proof.
  intros [_ _ _ Hl Hs] Hc. rewrite rd_lookup by lia.
  destruct (lookup_lt_is_Some_2 (w_components w) (Z.to_nat c)) as [s E]; [lia|].
  exists s. split; [done|]. split; [done|]. by eapply Forall_lookup_1.
Qed.

(** The common start of the component calls. *)
Lemma guard_spec w e c :
  world_ok w → entity_ok e → 0 <= c →
  (∃ a, ecs_entity_is_alive (Some w) e = Some a ∧ negb a || (ECS_MAX_COMPONENT_TYPES <=? c) = true) ∨
  (alive_in w e ∧ 0 <= en_index e < 128 ∧ c < 16 ∧ ecs_entity_is_alive (Some w) e = Some true ∧
   negb true || (ECS_MAX_COMPONENT_TYPES <=? c) = false).
Proof.
  intros Hw He Hc. destruct (is_alive_spec w e Hw He) as ([] & Ea & Hb).
  - unfold ECS_MAX_COMPONENT_TYPES. destruct (16 <=? c) eqn:E; bool_hyps.
    + left. exists true. split; [done|]. by zbool.
    + right. split_and!; [by apply Hb| | |done|done|by zbool].
      all: pose proof (alive_bound w e Hw He (proj1 Hb eq_refl)); lia.
  - left. by exists false.
Qed.

Lemma set_present_keeps op w e c s (b : bool) :
  world_ok w → entity_ok e → 0 <= c < 16 → w_components w !! Z.to_nat c = Some s → store_ok s →
  0 <= en_index e < 128 → alive_in w e →
  (b = false → ∀ e' c', e' = e ∧ c' = c → touches op e' c' = true) →
  keeps op w (set_components (<[Z.to_nat c := set_present (<[slot e := b]> (cs_present s)) s]>
                                (w_components w)) w).
Proof.
  intros Hw He Hc Hs Hok Hi Hal Hb. apply (keeps_store op w _ s); try done.
  - apply store_ok_present; [done|]. rewrite length_insert. apply Hok.
  - intros e' c' bs d He' Hal' Ec Hc' Hr Hp Hd Hbs Ht.
    split; [done|]. split; [done|]. split; [|by exists d].
    cbn [cs_present set_present]. destruct (decide (slot e = slot e')) as [E|E].
    + rewrite <- E. rewrite list_lookup_insert_eq.
      2: { rewrite (proj1 Hok). unfold slot. lia. }
      destruct b; [done|]. exfalso. assert (e = e') as <- by by eapply alive_unique.
      assert (touches op e c' = true) as Hto by (apply Hb; [done|split; [done|lia]]). congruence.
    + by rewrite list_lookup_insert_ne.
Qed.

Lemma add_keeps w e c :
  world_ok w → entity_ok e → 0 <= c → ∃ w', run_op (Add e c) w = Some (Some w') ∧ keeps (Add e c) w w'.
Proof.
  intros Hw He Hc. cbn [run_op]. unfold ecs_component_add.
  destruct (guard_spec w e c Hw He Hc) as [(a & -> & E)|(Hal & Hi & Hc16 & -> & E)];
    cbn [mbind option_bind]; rewrite E; cbn [mbind option_bind].
  { exists w. split; [done|by apply keeps_refl]. }
  destruct (store_at w c Hw (conj Hc Hc16)) as (s & -> & Hs & Hok). cbn [mbind option_bind].
  destruct (cs_registered s) eqn:Er; cbn [negb mbind option_bind].
  2: { exists w. split; [done|by apply keeps_refl]. }
  rewrite wr_lookup by (rewrite ?(proj1 Hok); lia). cbn [mbind option_bind].
  rewrite wr_lookup by (rewrite ?(wk_comp w Hw); lia). cbn [mbind option_bind].
  eexists. split; [done|]. by apply set_present_keeps.
Qed.

Lemma remove_keeps w e c :
  world_ok w → entity_ok e → 0 <= c →
  ∃ w', run_op (Remove e c) w = Some (Some w') ∧ keeps (Remove e c) w w'.
Proof.
  intros Hw He Hc. cbn [run_op]. unfold ecs_component_remove.
  destruct (guard_spec w e c Hw He Hc) as [(a & -> & E)|(Hal & Hi & Hc16 & -> & E)];
    cbn [mbind option_bind]; rewrite E; cbn [mbind option_bind].
  { exists w. split; [done|by apply keeps_refl]. }
  destruct (store_at w c Hw (conj Hc Hc16)) as (s & -> & Hs & Hok). cbn [mbind option_bind].
  destruct (cs_registered s) eqn:Er; cbn [negb mbind option_bind].
  2: { exists w. split; [done|by apply keeps_refl]. }
  rewrite wr_lookup by (rewrite ?(proj1 Hok); lia). cbn [mbind option_bind].
  rewrite wr_lookup by (rewrite ?(wk_comp w Hw); lia). cbn [mbind option_bind].
  eexists. split; [done|]. apply set_present_keeps; try done.
  intros _ e' c' [-> ->]. cbn. by rewrite bool_decide_eq_true.
Qed.

Lemma register_keeps w ok c size :
  world_ok w → 0 <= c → 0 <= size →
  ∃ w', run_op (Register ok c size) w = Some (Some w') ∧ keeps (Register ok c size) w w'.
Proof.
  intros Hw Hc Hsz. cbn [run_op]. unfold ecs_component_register, ECS_MAX_COMPONENT_TYPES.
  destruct ((16 <=? c) || (size =? 0)) eqn:E; cbn [mbind option_bind]; bool_hyps.
  { exists w. split; [done|by apply keeps_refl]. }
  destruct (store_at w c Hw) as (s & -> & Hs & Hok); [lia|]. cbn [mbind option_bind].
  destruct (cs_registered s) eqn:Er; cbn [mbind option_bind].
  { exists w. split; [done|by apply keeps_refl]. }
  destruct ok; rewrite wr_lookup by (rewrite ?(wk_comp w Hw); lia); cbn [mbind option_bind];
    eexists; (split; [done|]); apply (keeps_store _ w _ s); try done.
  - split; [apply Hok|]. intros _. cbn [cs_size cs_data]. split; [lia|].
    eexists. split; [done|]. rewrite blen_zeros; unfold ECS_MAX_ENTITIES; lia.
  - intros. congruence.
  - split; [apply Hok|]. cbn [cs_registered]. congruence.
  - intros. congruence.
Qed.

Lemma write_keeps w e c bs :
  world_ok w → entity_ok e → 0 <= c →
  ∃ w', run_op (Write e c bs) w = Some (Some w') ∧ keeps (Write e c bs) w w'.
Proof.
  intros Hw He Hc. cbn [run_op]. unfold ecs_component_get.
  destruct (guard_spec w e c Hw He Hc) as [(a & -> & E)|(Hal & Hi & Hc16 & -> & E)];
    cbn [mbind option_bind]; rewrite E; cbn [mbind option_bind].
  { exists w. split; [done|by apply keeps_refl]. }
  destruct (store_at w c Hw (conj Hc Hc16)) as (s & Erd & Hs & Hok). rewrite Erd.
  cbn [mbind option_bind].
  destruct (cs_registered s) eqn:Er; cbn [negb mbind option_bind].
  2: { exists w. split; [done|by apply keeps_refl]. }
  rewrite rd_lookup by lia.
  destruct (lookup_lt_is_Some_2 (cs_present s) (Z.to_nat (en_index e))) as [b Hb].
  { rewrite (proj1 Hok). lia. }
  rewrite Hb. cbn [mbind option_bind]. destruct b; cbn [negb mbind option_bind].
  2: { exists w. split; [done|by apply keeps_refl]. }
  destruct (blen bs <=? cs_size s) eqn:El; bool_hyps; cbn [mbind option_bind].
  2: { exists w. split; [done|by apply keeps_refl]. }
  destruct (proj2 Hok Er) as (Hpos & d & Hd & Hdl).
  unfold poke. cbn [ptr_type ptr_offset]. rewrite Erd. cbn [mbind option_bind]. rewrite Hd.
  cbn [mbind option_bind].
  assert (∃ d', wr_bytes d (en_index e * cs_size s) bs = Some d') as [d' Hw'].
  { eexists. apply wr_bytes_ok; nia. }
  rewrite Hw'. cbn [mbind option_bind].
  rewrite wr_lookup by (rewrite ?(wk_comp w Hw); lia). cbn [mbind option_bind].
  eexists. split; [done|]. apply (keeps_store _ w _ s); try done.
  - split; [apply Hok|]. intros _. cbn [cs_size cs_data]. split; [lia|]. exists d'. split; [done|].
    unfold blen in *. by rewrite (wr_bytes_length _ _ _ _ Hw').
  - intros e' c' bs' d0 He' Hal' Ec Hc' _ Hp Hd0 Hbs Ht. cbn [cs_registered cs_size cs_present cs_data].
    split; [done|]. split; [done|]. split; [done|]. exists d'. split; [done|].
    rewrite Hd in Hd0. injection Hd0 as <-. cbn [touches] in Ht. apply bool_decide_eq_false in Ht.
    assert (en_index e ≠ en_index e') as Hne.
    { intros Ei. apply Ht. split; [|lia]. eapply alive_unique; try done. unfold slot. by rewrite Ei. }
    rewrite (rd_wr_disjoint _ _ _ _ _ _ Hw'); [done|]. unfold entity_ok in *. nia.
Qed.

Lemma run_op_keeps op w :
  world_ok w → op_ok op → ∃ w', run_op op w = Some (Some w') ∧ keeps op w w'.
Proof.
  intros Hw Hop. destruct op; cbn [op_ok] in Hop.
  - by apply create_keeps.
  - by apply destroy_keeps.
  - destruct Hop. by apply register_keeps.
  - destruct Hop. by apply add_keeps.
  - destruct Hop. by apply remove_keeps.
  - destruct Hop. by apply write_keeps.
Qed.

(** ** Claims *)

Fixpoint destroys (i : nat) (ops : list ecs_op) : Z :=
  match ops with
  | [] => 0
  | op :: ops =>
    match op with Destroy e => if decide (slot e = i) then 1 else 0 | _ => 0 end + destroys i ops
  end.

Lemma destroys_nonneg i ops : 0 <= destroys i ops.
Proof. induction ops as [|[| e| | | |] ops IH]; cbn; try lia. case_decide; lia. Qed.

(** A run keeps the world well formed, and a slot's generation goes up at most once
    for every destruction aimed at the slot. *)
Lemma run_keeps ops w i g :
  world_ok w → Forall op_ok ops → w_generation w !! i = Some g →
  ∃ w' k, run ops w = Some w' ∧ world_ok w' ∧ 0 <= k <= destroys i ops ∧
          w_generation w' !! i = Some (u16 (g + k)).
Proof.
  intros Hw Hops. revert w g Hw. induction ops as [|op ops IH]; intros w g Hw Hg.
  - exists w, 0. split; [done|]. split; [done|]. split; [done|]. rewrite Hg. f_equal.
    rewrite Z.add_0_r. symmetry. apply wrap_id.
    destruct (wk_gen w Hw) as [_ H16]. by eapply (Forall_lookup_1 _ _ _ _ H16).
  - apply Forall_cons in Hops as [Hop Hops]. cbn [run].
    destruct (run_op_keeps op w Hw Hop) as (w1 & -> & Hw1 & Hgen & _). cbn [mbind option_bind].
    destruct (Hgen i) as [E|[(e & -> & Hs) E]]; rewrite Hg in E.
    + destruct (IH Hops w1 g Hw1 E) as (w' & k & -> & Hw' & Hk & Hg').
      exists w', k. split_and!; try done; [lia|]. cbn [destroys].
      destruct op; try lia. case_decide; lia.
    + cbn in E. destruct (IH Hops w1 (u16 (g + 1)) Hw1 E) as (w' & k & -> & Hw' & Hk & Hg').
      exists w', (k + 1). split; [done|]. split; [done|]. split.
      * cbn [destroys]. rewrite decide_True by done. lia.
      * rewrite Hg'. f_equal. rewrite wrap_add_l. f_equal. lia.
Qed.

(** Once an entity is destroyed its handle is dead: whatever calls follow, with
    fewer than 65535 further destructions in its slot, no call faults, the entity
    count is the number of live slots, and [ecs_entity_is_alive],
    [ecs_component_get], [ecs_component_add] and [ecs_component_has] reject the
    handle. *)
Theorem ecs_stale_handle w e c ops :
  world_ok w → entity_ok e → alive_in w e → Forall op_ok ops → destroys (slot e) ops < 65535 →
  ∃ w', run (Destroy e :: ops) w = Some w' ∧ w_count w' = count_true (w_alive w') ∧
    ecs_entity_is_alive (Some w') e = Some false ∧
    ecs_component_get (Some w') e c = Some None ∧
    ecs_component_add (Some w') e c = Some (None, Some w') ∧
    ecs_component_has (Some w') e c = Some false.
Proof.
  intros Hw He Hal Hops Hd.
  destruct (entity_destroy_spec w e Hw He Hal) as [E1 Hw1]. cbn [run run_op]. rewrite E1.
  cbn [mbind option_bind]. destruct Hal as [Hal Hgen].
  assert (is_u16 (en_generation e)) as H16.
  { destruct (wk_gen w Hw) as [_ Hf]. exact (Forall_lookup_1 _ _ _ _ Hf Hgen). }
  destruct (run_keeps ops _ (slot e) (u16 (en_generation e + 1)) Hw1 Hops)
    as (w' & k & -> & Hw' & Hk & Hg').
  { cbn [w_generation]. apply list_lookup_insert_eq. by eapply lookup_lt_Some. }
  destruct (is_alive_spec w' e Hw' He) as (b & Eb & Hb).
  assert (b = false) as ->.
  { apply not_true_is_false. intros ->. destruct (proj1 Hb eq_refl) as [_ Hg].
    rewrite Hg' in Hg. injection Hg as Eg. rewrite wrap_add_l in Eg. unfold wrap, in_w in *.
    pose proof (Z.div_mod (en_generation e + 1 + k) (2 ^ 16) ltac:(lia)) as Hdm.
    rewrite Eg in Hdm. lia. }
  exists w'. unfold ecs_component_get, ecs_component_add, ecs_component_has. rewrite Eb.
  split_and!; try done. apply Hw'.
Qed.

Lemma write_holds w e c s bs :
  world_ok w → entity_ok e → alive_in w e → 0 <= c < 16 →
  w_components w !! Z.to_nat c = Some s → cs_registered s = true →
  cs_present s !! slot e = Some true → blen bs = cs_size s →
  ∃ w', run_op (Write e c bs) w = Some (Some w') ∧ holds w' e c (cs_size s) bs.
Proof.
  intros Hw He Hal Hc Hs Hr Hp Hl. pose proof (alive_bound w e Hw He Hal) as Hi.
  destruct (store_at w c Hw Hc) as (s0 & Erd & Hs0 & Hok). rewrite Hs in Hs0. injection Hs0 as <-.
  destruct (proj2 Hok Hr) as (Hpos & d & Hd & Hdl).
  cbn [run_op]. unfold ecs_component_get. rewrite is_alive_true by done. cbn [mbind option_bind].
  unfold ECS_MAX_COMPONENT_TYPES. zbool. cbn [negb orb mbind option_bind].
  rewrite Erd. cbn [mbind option_bind]. rewrite Hr. cbn [negb mbind option_bind].
  rewrite rd_lookup by lia. fold (slot e). rewrite Hp. cbn [negb mbind option_bind]. zbool.
  unfold poke. cbn [ptr_type ptr_offset]. rewrite Erd. cbn [mbind option_bind]. rewrite Hd.
  cbn [mbind option_bind].
  assert (∃ d', wr_bytes d (en_index e * cs_size s) bs = Some d') as [d' Hw'].
  { eexists. apply wr_bytes_ok; nia. }
  rewrite Hw'. cbn [mbind option_bind].
  rewrite wr_lookup by (rewrite ?(wk_comp w Hw); lia). cbn [mbind option_bind].
  eexists. split; [done|]. split; [done|]. cbn [w_components set_components].
  eexists _, d'. rewrite list_lookup_insert_eq by by eapply lookup_lt_Some.
  split; [done|]. cbn [cs_registered cs_present cs_data cs_size]. split_and!; try done.
  unfold rd_bytes. pose proof (wr_bytes_length _ _ _ _ Hw') as Hlen.
  assert (blen d' = blen d) as -> by (unfold blen; by rewrite Hlen).
  rewrite (proj2 (Z.leb_le 0 _)), (proj2 (Z.leb_le 0 _)) by nia.
  rewrite (proj2 (Z.leb_le _ (blen d))) by nia. cbn [andb]. f_equal. apply list_eq. intros i.
  unfold blen in *. destruct (decide (i < Z.to_nat (cs_size s))%nat) as [Hlt|Hge].
  - rewrite lookup_take_lt, lookup_drop by done. rewrite (wr_bytes_lookup _ _ _ _ _ Hw').
    rewrite decide_True by (unfold blen; nia). f_equal. lia.
  - rewrite lookup_take_ge by lia. symmetry. apply lookup_ge_None. lia.
Qed.

Lemma add_present w e c s :
  world_ok w → entity_ok e → alive_in w e → 0 <= c < 16 →
  w_components w !! Z.to_nat c = Some s → cs_registered s = true →
  let s' := set_present (<[slot e := true]> (cs_present s)) s in
  let w' := set_components (<[Z.to_nat c := s']> (w_components w)) w in
  run_op (Add e c) w = Some (Some w') ∧ w_components w' !! Z.to_nat c = Some s' ∧
  cs_present s' !! slot e = Some true.
Proof.
  intros Hw He Hal Hc Hs Hr s' w'. pose proof (alive_bound w e Hw He Hal) as Hi.
  destruct (store_at w c Hw Hc) as (s0 & Erd & Hs0 & Hok). rewrite Hs in Hs0. injection Hs0 as <-.
  cbn [run_op]. unfold ecs_component_add. rewrite is_alive_true by done. cbn [mbind option_bind].
  unfold ECS_MAX_COMPONENT_TYPES. zbool. cbn [negb orb mbind option_bind].
  rewrite Erd. cbn [mbind option_bind]. rewrite Hr. cbn [negb mbind option_bind].
  rewrite wr_lookup by (rewrite ?(proj1 Hok); lia). cbn [mbind option_bind].
  rewrite wr_lookup by (rewrite ?(wk_comp w Hw); lia). cbn [mbind option_bind].
  split; [done|]. split.
  - apply list_lookup_insert_eq. by eapply lookup_lt_Some.
  - apply list_lookup_insert_eq. rewrite (proj1 Hok). unfold slot. lia.
Qed.

Lemma run_holds w e c n bs ops :
  world_ok w → entity_ok e → 0 <= c → holds w e c n bs → Forall op_ok ops →
  Forall (λ op, touches op e c = false) ops →
  ∃ w', run ops w = Some w' ∧ world_ok w' ∧ holds w' e c n bs.
Proof.
  intros Hw He Hc Hh Hops Ht. revert w Hw Hh.
  induction ops as [|op ops IH]; intros w Hw Hh; [by exists w|].
  apply Forall_cons in Hops as [Hop Hops]. apply Forall_cons in Ht as [Hto Ht].
  destruct (run_op_keeps op w Hw Hop) as (w1 & E & Hw1 & _ & Hk). cbn [run]. rewrite E.
  cbn [mbind option_bind]. apply IH; try done. by apply Hk.
Qed.

(** C40: Component storage is stable: after a component is added to a live entity and
    written, any calls that neither destroy that entity nor remove or write that
    component leave [ecs_component_get] returning the same pointer to the same
    bytes. *)
Theorem ecs_storage_stable w e c s bs ops :
  world_ok w → entity_ok e → alive_in w e → 0 <= c < 16 →
  w_components w !! Z.to_nat c = Some s → cs_registered s = true → blen bs = cs_size s →
  Forall op_ok ops → Forall (λ op, touches op e c = false) ops →
  ∃ w' s' d', run (Add e c :: Write e c bs :: ops) w = Some w' ∧
    ecs_component_get (Some w') e c = Some (Some (mk_ptr c (en_index e * cs_size s))) ∧
    rd (w_components w') c = Some s' ∧ cs_data s' = Some d' ∧
    rd_bytes d' (en_index e * cs_size s) (cs_size s) = Some bs.
Proof.
  intros Hw He Hal Hc Hs Hr Hl Hops Ht.
  destruct (add_present w e c s Hw He Hal Hc Hs Hr) as (E1 & Hs1 & Hp1).
  destruct (run_op_keeps (Add e c) w Hw (conj He (proj1 Hc))) as (w1 & E1' & Hw1 & _).
  rewrite E1 in E1'. injection E1' as <-.
  destruct (write_holds _ e c _ bs Hw1 He Hal Hc Hs1 Hr Hp1 Hl) as (w2 & E2 & Hh2).
  destruct (run_op_keeps (Write e c bs) _ Hw1 (conj He (proj1 Hc))) as (w2' & E2' & Hw2 & _).
  rewrite E2 in E2'. injection E2' as <-.
  destruct (run_holds w2 e c (cs_size s) bs ops Hw2 He (proj1 Hc) Hh2 Hops Ht)
    as (w' & E3 & Hw' & Hal' & s' & d' & Hs' & Hr' & Hp' & Hd' & Hn' & Hb').
  exists w', s', d'. cbn [run]. rewrite E1. cbn [mbind option_bind]. rewrite E2.
  cbn [mbind option_bind]. rewrite E3. split; [done|]. split.
  - unfold ecs_component_get. rewrite is_alive_true by done. cbn [mbind option_bind].
    unfold ECS_MAX_COMPONENT_TYPES. zbool. cbn [negb orb mbind option_bind].
    rewrite rd_lookup, Hs' by lia. cbn [mbind option_bind]. rewrite Hr'. cbn [negb].
    pose proof (alive_bound w' e Hw' He Hal').
    rewrite rd_lookup by lia. fold (slot e). rewrite Hp'. cbn [mbind option_bind negb].
    by rewrite Hn'.
  - by rewrite rd_lookup, Hs' by lia.
Qed.

(** ** Concrete runs *)

Definition world0 : ecs_world := default (mk_world [] [] 0 []) (ecs_world_create true).
(** Two entities, and component type 3 of four bytes. *)
Definition world2 : ecs_world := default world0 (run [Create; Create; Register true 3 4] world0).

Lemma world2_ok : world_ok world2.
Proof.
  destruct (run_keeps [Create; Create; Register true 3 4] world0 0 0) as (w' & k & E & Hw & _).
  - by apply world_create_ok.
  - repeat constructor; done.
  - done.
  - unfold world2. by rewrite E.
Qed.

(** 65536 generations later the handle is valid again: here the slot's last
    generation is destroyed and the next entity gets the first handle there ever
    was. *)
Definition world_late : ecs_world :=
  mk_world (<[0%nat := 65535]> (zeros 128)) (<[0%nat := true]> (replicate 128 false)) 1
    (replicate 16 store_zero).

Example handle_comes_round :
  ∃ w' w'', ecs_entity_destroy (Some world_late) (mk_entity 0 65535) = Some w' ∧
    ecs_entity_create w' = Some (mk_entity 0 0, w'') ∧
    ecs_entity_is_alive w'' (mk_entity 0 0) = Some true.
Proof. do 2 eexists. repeat (split; [vm_compute; reflexivity|]). vm_compute. reflexivity. Qed.

(** A system over the entities with component 3 sees those in slot order. *)
Example each_in_order :
  ∃ w, run [Add (mk_entity 1 0) 3; Add (mk_entity 0 0) 3] world2 = Some w ∧
    ecs_each (λ e st, Some (fst st, snd st ++ [en_index e])) (Some [3]) 1 (Some w, []) =
      Some (Some w, [0; 1]).
Proof. eexists. split; [vm_compute; reflexivity|]. vm_compute. reflexivity. Qed.

Lemma ecs_stale_handle_witness :
  ∃ w', run [Destroy (mk_entity 0 0); Create; Destroy (mk_entity 0 1)] world2 = Some w' ∧
    w_count w' = count_true (w_alive w') ∧
    ecs_entity_is_alive (Some w') (mk_entity 0 0) = Some false ∧
    ecs_component_get (Some w') (mk_entity 0 0) 3 = Some None ∧
    ecs_component_add (Some w') (mk_entity 0 0) 3 = Some (None, Some w') ∧
    ecs_component_has (Some w') (mk_entity 0 0) 3 = Some false.
Proof.
  apply (ecs_stale_handle world2 (mk_entity 0 0) 3 [Create; Destroy (mk_entity 0 1)]).
  - exact world2_ok.
  - by vm_compute.
  - split; vm_compute; reflexivity.
  - repeat constructor; by vm_compute.
  - vm_compute. reflexivity.
Defined.

Lemma ecs_storage_stable_witness :
  ∃ w' s' d', run [Add (mk_entity 0 0) 3; Write (mk_entity 0 0) 3 [1; 2; 3; 4]; Create;
                   Add (mk_entity 1 0) 3; Write (mk_entity 1 0) 3 [9; 9; 9; 9];
                   Destroy (mk_entity 1 0)] world2 = Some w' ∧
    ecs_component_get (Some w') (mk_entity 0 0) 3 = Some (Some (mk_ptr 3 0)) ∧
    rd (w_components w') 3 = Some s' ∧ cs_data s' = Some d' ∧
    rd_bytes d' 0 4 = Some [1; 2; 3; 4].
Proof.
  apply (ecs_storage_stable world2 (mk_entity 0 0) 3
           (mk_cs 4 true (Some (zeros 512)) (replicate 128 false)) [1; 2; 3; 4]
           [Create; Add (mk_entity 1 0) 3; Write (mk_entity 1 0) 3 [9; 9; 9; 9];
            Destroy (mk_entity 1 0)]).
  - exact world2_ok.
  - by vm_compute.
  - split; vm_compute; reflexivity.
  - lia.
  - vm_compute. reflexivity.
  - done.
  - done.
  - repeat constructor; by vm_compute.
  - repeat constructor.
Defined.
