(* ===== verification/Vfs.v ===== *)
(** * The virtual file system (fs/vfs.c)

    A chain of at most eight mounts, newest first, each a path prefix with the
    operations of a file system.  The chain is a list of its nodes, and a mount is
    known by its position.  A file system is a record of optional functions on a
    state of its own; paths are C strings.  [calloc_ok] says whether an allocation
    succeeds. *)

From Stdlib Require Import ZArith Lia.
From stdpp Require Import base tactics option numbers gmap sorting list.
From S2P Require Import Prelude.
From S2P Require Import CString.

Definition MAX_MOUNTS : Z := 8.
Definition VFS_NAME_MAX : Z := 32.

Record vfs_stat_t := mk_stat {
  st_size : Z; st_blocks : Z; st_mode : Z; st_mtime : Z; st_ctime : Z; st_is_dir : bool
}.
Record vfs_dirent_t := mk_dirent { de_name : list Z; de_size : Z; de_is_dir : bool }.

Section Vfs.
(** Handles of the file systems, and their state. *)
Context {H U : Type}.

Record vfs_ops_t := mk_ops {
  op_open : option (list Z → Z → U → Z * H * U);
  op_close : option (H → U → Z * U);
  op_read : option (H → Z → U → Z * list Z * U);
  op_write : option (H → list Z → Z → U → Z * U);
  op_seek : option (H → Z → Z → U → Z * U);
  op_tell : option (H → U → Z * U);
  op_stat : option (list Z → U → Z * vfs_stat_t * U);
  op_unlink : option (list Z → U → Z * U);
  op_rename : option (list Z → list Z → U → Z * U);
  op_mkdir : option (list Z → Z → U → Z * U);
  op_rmdir : option (list Z → U → Z * U);
  op_opendir : option (list Z → U → option H * U);
  op_readdir : option (H → U → Z * vfs_dirent_t * U);
  op_closedir : option (H → U → Z * U);
  op_sync : option (H → U → Z * U)
}.

Record vfs_mount_t := mk_mount { mt_prefix : list Z; mt_ops : vfs_ops_t; mt_fs_data : Z }.

Record vfs_file_t := mk_file { vf_ops : vfs_ops_t; vf_fh : H }.
Record vfs_dir_t := mk_dir { vd_ops : vfs_ops_t; vd_dh : H }.

Record vfs_state := mk_vfs { g_mounts : list vfs_mount_t; g_mount_count : Z }.

(** [strncmp (path, prefix, len) == 0 && (path[len] == '/' || path[len] == 0)] *)
Definition covers (prefix path : list Z) : bool :=
  bool_decide (take (length prefix) path = prefix) &&
  match path !! length prefix with Some c => c =? 47 | None => true end.

(** The search: the position of the best mount so far, and its prefix length. *)
Fixpoint find_mount_loop (ms : list vfs_mount_t) (i : nat) (path : list Z)
    (best : option nat) (best_len : nat) : option nat * nat :=
  match ms with
  | [] => (best, best_len)
  | m :: ms =>
    let len := length (c_str (mt_prefix m)) in
    if covers (c_str (mt_prefix m)) path && (best_len <? len)%nat
    then find_mount_loop ms (S i) path (Some i) len
    else find_mount_loop ms (S i) path best best_len
  end.

(** The mount's position and the path relative to it. *)
Definition vfs_find_mount (path : list Z) (s : vfs_state) : option (nat * list Z) :=
  match find_mount_loop (g_mounts s) 0 path None 0 with
  | (Some k, len) =>
    let rel := drop len path in
    Some (k, match rel with c :: r => if c =? 47 then r else rel | [] => [] end)
  | (None, _) => None
  end.

Definition vfs_init (s : vfs_state) : Z * vfs_state := (0, mk_vfs [] 0).
Definition vfs_deinit (s : vfs_state) : vfs_state := mk_vfs [] 0.

Definition vfs_mount (calloc_ok : bool) (prefix : option (list Z)) (ops : option vfs_ops_t)
    (fs_data : Z) (s : vfs_state) : Z * vfs_state :=
  match prefix, ops with
  | Some prefix, Some ops =>
    if MAX_MOUNTS <=? g_mount_count s then (-1, s) else
    if existsb (λ m, str_eq (c_str (mt_prefix m)) prefix) (g_mounts s) then (-1, s) else
    if negb calloc_ok then (-1, s) else
    (0, mk_vfs (mk_mount (strncpy (zeros VFS_NAME_MAX) prefix (Z.to_nat (VFS_NAME_MAX - 1))) ops
                  fs_data :: g_mounts s) (g_mount_count s + 1))
  | _, _ => (-1, s)
  end.

Fixpoint unmount_loop (prefix : list Z) (ms : list vfs_mount_t) : option (list vfs_mount_t) :=
  match ms with
  | [] => None
  | m :: ms =>
    if str_eq (c_str (mt_prefix m)) prefix then Some ms
    else ms ← unmount_loop prefix ms; Some (m :: ms)
  end.

Definition vfs_unmount (prefix : list Z) (s : vfs_state) : Z * vfs_state :=
  match unmount_loop prefix (g_mounts s) with
  | Some ms => (0, mk_vfs ms (g_mount_count s - 1))
  | None => (-1, s)
  end.

(** ** Files *)

Definition mount_ops (k : nat) (s : vfs_state) : option vfs_ops_t := mt_ops <$> g_mounts s !! k.

Definition vfs_do_open (calloc_ok : bool) (path : list Z) (mode : Z) (s : vfs_state) (u : U)
    : Z * option vfs_file_t * U :=
  match vfs_find_mount path s with
  | None => (-1, None, u)
  | Some (k, rel) =>
    match mount_ops k s with
    | None => (-1, None, u)
    | Some ops =>
      match op_open ops with
      | None => (-1, None, u)
      | Some f =>
        if negb calloc_ok then (-1, None, u) else
        let '(ret, fh, u) := f rel mode u in
        if ret =? 0 then (0, Some (mk_file ops fh), u) else (ret, None, u)
      end
    end
  end.

(** [file]: whether the caller's pointer to the result is not NULL. *)
Definition vfs_open (calloc_ok : bool) (path : option (list Z)) (mode : Z) (file : bool)
    (s : vfs_state) (u : U) : Z * option vfs_file_t * U :=
  match path with
  | Some path => if file : bool then vfs_do_open calloc_ok path mode s u else (-1, None, u)
  | None => (-1, None, u)
  end.

Definition vfs_close (file : option vfs_file_t) (u : U) : Z * U :=
  match file with
  | Some f => match op_close (vf_ops f) with Some g => g (vf_fh f) u | None => (-1, u) end
  | None => (-1, u)
  end.

Definition vfs_read (file : option vfs_file_t) (count : Z) (u : U) : Z * list Z * U :=
  match file with
  | Some f => match op_read (vf_ops f) with Some g => g (vf_fh f) count u | None => (-1, [], u) end
  | None => (-1, [], u)
  end.

Definition vfs_write (file : option vfs_file_t) (buf : list Z) (count : Z) (u : U) : Z * U :=
  match file with
  | Some f => match op_write (vf_ops f) with Some g => g (vf_fh f) buf count u | None => (-1, u) end
  | None => (-1, u)
  end.

Definition vfs_seek (file : option vfs_file_t) (offset whence : Z) (u : U) : Z * U :=
  match file with
  | Some f => match op_seek (vf_ops f) with Some g => g (vf_fh f) offset whence u | None => (-1, u) end
  | None => (-1, u)
  end.

Definition vfs_tell (file : option vfs_file_t) (u : U) : Z * U :=
  match file with
  | Some f => match op_tell (vf_ops f) with Some g => g (vf_fh f) u | None => (-1, u) end
  | None => (-1, u)
  end.

Definition vfs_sync (file : option vfs_file_t) (u : U) : Z * U :=
  match file with
  | Some f => match op_sync (vf_ops f) with Some g => g (vf_fh f) u | None => (-1, u) end
  | None => (-1, u)
  end.

(** ** Paths *)

(** The operations and relative path a path leads to. *)
Definition resolve (path : list Z) (s : vfs_state) : option (vfs_ops_t * list Z) :=
  '(k, rel) ← vfs_find_mount path s; ops ← mount_ops k s; Some (ops, rel).

Definition vfs_stat (path : option (list Z)) (st : bool) (s : vfs_state) (u : U)
    : Z * option vfs_stat_t * U :=
  match (path ← path; if st then resolve path s else None) with
  | Some (ops, rel) =>
    match op_stat ops with
    | Some f => let '(ret, r, u) := f rel u in (ret, Some r, u)
    | None => (-1, None, u)
    end
  | None => (-1, None, u)
  end.

Definition vfs_unlink (path : option (list Z)) (s : vfs_state) (u : U) : Z * U :=
  match (path ← path; resolve path s) with
  | Some (ops, rel) => match op_unlink ops with Some f => f rel u | None => (-1, u) end
  | None => (-1, u)
  end.

Definition vfs_rename (oldpath newpath : option (list Z)) (s : vfs_state) (u : U) : Z * U :=
  match oldpath, newpath with
  | Some oldpath, Some newpath =>
    match vfs_find_mount oldpath s with
    | Some (k, rel_old) =>
      match (ops ← mount_ops k s; op_rename ops) with
      | Some f =>
        match vfs_find_mount newpath s with
        | Some (k2, rel_new) => if decide (k = k2) then f rel_old rel_new u else (-1, u)
        | None => (-1, u)
        end
      | None => (-1, u)
      end
    | None => (-1, u)
    end
  | _, _ => (-1, u)
  end.

Definition vfs_mkdir (path : option (list Z)) (mode : Z) (s : vfs_state) (u : U) : Z * U :=
  match (path ← path; resolve path s) with
  | Some (ops, rel) => match op_mkdir ops with Some f => f rel mode u | None => (-1, u) end
  | None => (-1, u)
  end.

Definition vfs_rmdir (path : option (list Z)) (s : vfs_state) (u : U) : Z * U :=
  match (path ← path; resolve path s) with
  | Some (ops, rel) => match op_rmdir ops with Some f => f rel u | None => (-1, u) end
  | None => (-1, u)
  end.

Definition vfs_opendir (calloc_ok : bool) (path : option (list Z)) (s : vfs_state) (u : U)
    : option vfs_dir_t * U :=
  match (path ← path; resolve path s) with
  | Some (ops, rel) =>
    match op_opendir ops with
    | Some f =>
      if negb calloc_ok then (None, u) else
      let '(dh, u) := f rel u in (mk_dir ops <$> dh, u)
    | None => (None, u)
    end
  | None => (None, u)
  end.

Definition vfs_readdir (dir : option vfs_dir_t) (entry : bool) (u : U)
    : Z * option vfs_dirent_t * U :=
  match dir with
  | Some d =>
    match op_readdir (vd_ops d) with
    | Some f => if entry : bool then let '(ret, e, u) := f (vd_dh d) u in (ret, Some e, u)
                else (-1, None, u)
    | None => (-1, None, u)
    end
  | None => (-1, None, u)
  end.

Definition vfs_closedir (dir : option vfs_dir_t) (u : U) : Z * U :=
  match dir with
  | Some d => match op_closedir (vd_ops d) with Some f => f (vd_dh d) u | None => (-1, u) end
  | None => (-1, u)
  end.

Definition vfs_get_mount_point (path : list Z) (s : vfs_state) : option (list Z) :=
  '(k, _) ← vfs_find_mount path s; m ← g_mounts s !! k; Some (c_str (mt_prefix m)).
End Vfs.

Arguments vfs_ops_t : clear implicits.
Arguments vfs_mount_t : clear implicits.
Arguments vfs_state : clear implicits.
Arguments vfs_file_t : clear implicits.
Arguments vfs_dir_t : clear implicits.
