(* ===== verification/VfsThm.v ===== *)
(** * The mount table's contract

    The mounted file systems form a finite map from prefixes, of at most eight
    entries; a path belongs to the entry found by walking up from the whole path,
    one character at a time, to the first mounted prefix that ends at a component
    boundary. *)

From Stdlib Require Import ZArith Lia.
From stdpp Require Import base tactics option numbers fin_maps gmap sorting list.
From S2P Require Import Prelude.
From S2P Require Import CString.
From S2P Require Import Vfs.

Section VfsThm.
Context {H U : Type}.
Abbreviation ops_t := (vfs_ops_t H U).
Abbreviation mount_t := (vfs_mount_t H U).
Abbreviation state := (vfs_state H U).
Abbreviation table := (gmap (list Z) (ops_t * Z)).
Implicit Types (m : mount_t) (ms : list mount_t) (s : state) (path p : list Z) (t : table) (nm : list Z).

Definition mname m : list Z := c_str (mt_prefix m).
Definition entry m : list Z * (ops_t * Z) := (mname m, (mt_ops m, mt_fs_data m)).
Definition tbl s : table := list_to_map (entry <$> g_mounts s).

Record vfs_ok s : Prop := mk_vfs_ok {
  vk_names : NoDup (mname <$> g_mounts s);
  vk_count : g_mount_count s = Z.of_nat (length (g_mounts s));
  vk_max : (length (g_mounts s) <= 8)%nat
}.

(** ** The reference: walking up the path *)

Definition boundary path (n : nat) : bool :=
  match path !! n with Some c => c =? 47 | None => true end.

Fixpoint walk (n : nat) path t : option (nat * (ops_t * Z)) :=
  match n with
  | O => None
  | S n' =>
    match t !! take n path with
    | Some v => if boundary path n then Some (n, v) else walk n' path t
    | None => walk n' path t
    end
  end.

(** What is left of the path, without one separator. *)
Definition relative path (n : nat) : list Z :=
  match drop n path with c :: r => if c =? 47 then r else c :: r | [] => [] end.

Definition spec_resolve path t : option (ops_t * list Z) :=
  (λ r : nat * (ops_t * Z), (r.2.1, relative path r.1)) <$> walk (length path) path t.

(** ** The search *)

Lemma covers_spec p path :
  covers p path = true ↔ take (length p) path = p ∧ boundary path (length p) = true.
Proof. unfold covers, boundary. by rewrite andb_true_iff, bool_decide_eq_true. Qed.

(** [l] is the length of the best covering prefix among [ms]. *)
Definition best_of ms path (l : nat) : Prop :=
  ∀ m, m ∈ ms → covers (mname m) path = true → (length (mname m) <= l)%nat.

Lemma find_loop_spec ms i path best bl :
  let r := find_mount_loop ms i path best bl in
  best_of ms path r.2 ∧ (bl <= r.2)%nat ∧
  (r = (best, bl) ∨
   ∃ k m, r.1 = Some (i + k)%nat ∧ ms !! k = Some m ∧ covers (mname m) path = true ∧
          r.2 = length (mname m) ∧ (bl < r.2)%nat).
Proof.
  revert i best bl. induction ms as [|m ms IH]; intros i best bl; cbn [find_mount_loop].
  - split; [by intros m ?%not_elem_of_nil|]. split; [done|]. by left.
  - fold (mname m). destruct (covers (mname m) path && (bl <? length (mname m))%nat) eqn:E.
    + apply andb_true_iff in E as [Ec El]. apply Nat.ltb_lt in El.
      destruct (IH (S i) (Some i) (length (mname m))) as (Hb & Hl & Hr). split; [|split; [lia|]].
      { intros m' [->|Hm']%elem_of_cons Hc; [lia|by apply Hb]. }
      right. destruct Hr as [-> | (k & m' & E1 & Hk & Hc & E2 & Hlt)].
      * exists 0%nat, m. rewrite Nat.add_0_r. by split_and!.
      * exists (S k), m'. split_and!; try done; [|lia]. rewrite E1. f_equal. lia.
    + destruct (IH (S i) best bl) as (Hb & Hl & Hr). split; [|split; [done|]].
      { intros m' [->|Hm']%elem_of_cons Hc; [|by apply Hb].
        rewrite Hc in E. cbn in E. apply Nat.ltb_ge in E. lia. }
      destruct Hr as [Hr | (k & m' & E1 & Hk & Hc & E2 & Hlt)]; [by left|]. right.
      exists (S k), m'. split_and!; try done. rewrite E1. f_equal. lia.
Qed.

Lemma tbl_some s p v :
  vfs_ok s → tbl s !! p = Some v ↔ ∃ m, m ∈ g_mounts s ∧ entry m = (p, v).
Proof.
  intros [Hn _ _]. unfold tbl. rewrite <- elem_of_list_to_map.
  - rewrite list_elem_of_fmap. naive_solver.
  - by rewrite <- list_fmap_compose.
Qed.

Lemma walk_none n path t :
  (∀ l v, (1 <= l <= n)%nat → t !! take l path = Some v → boundary path l = false) →
  walk n path t = None.
Proof.
  induction n as [|n IH]; intros Hno; [done|]. cbn [walk].
  assert (walk n path t = None) as Hw by (apply IH; intros l v Hl; apply Hno; lia).
  destruct (t !! take (S n) path) as [v|] eqn:E; [|done].
  by rewrite (Hno (S n) v) by (done || lia).
Qed.

Lemma walk_some n l path t v :
  (1 <= l <= n)%nat → t !! take l path = Some v → boundary path l = true →
  (∀ l' v', (l < l' <= n)%nat → t !! take l' path = Some v' → boundary path l' = false) →
  walk n path t = Some (l, v).
Proof.
  induction n as [|n IH]; intros Hl Ht Hb Hno; [lia|]. cbn [walk].
  destruct (decide (l = S n)) as [->|Hne]; [by rewrite Ht, Hb|].
  assert (walk n path t = Some (l, v)) as Hw.
  { apply IH; try done; [lia|]. intros l' v' Hl'. apply Hno. lia. }
  destruct (t !! take (S n) path) as [v'|] eqn:E; [|done].
  by rewrite (Hno (S n) v') by (done || lia).
Qed.

(** A table entry that ends at a boundary is a mount that covers the path. *)
Lemma tbl_covers s path l v :
  vfs_ok s → (l <= length path)%nat → tbl s !! take l path = Some v → boundary path l = true →
  ∃ m, m ∈ g_mounts s ∧ covers (mname m) path = true ∧ length (mname m) = l.
Proof.
  intros Hok Hl Ht Hb. apply (tbl_some s _ _ Hok) in Ht as (m & Hm & [= En _]).
  assert (length (mname m) = l) as El by (rewrite En, length_take; lia).
  exists m. split; [done|]. split; [|done]. apply covers_spec. by rewrite El, En.
Qed.

Lemma resolve_spec path s : vfs_ok s → resolve path s = spec_resolve path (tbl s).
Proof.
  intros Hok. unfold resolve, vfs_find_mount, spec_resolve.
  destruct (find_loop_spec (g_mounts s) 0 path None 0) as (Hb & _ & Hr). cbn zeta in *.
  destruct (find_mount_loop (g_mounts s) 0 path None 0) as [b bl]. cbn [fst snd] in *.
  assert (∀ l v, (bl < l <= length path)%nat → tbl s !! take l path = Some v →
    boundary path l = false) as Hno.
  { intros l v Hl Ht. apply not_true_is_false. intros Hbd.
    destruct (tbl_covers s path l v Hok ltac:(lia) Ht Hbd) as (m & Hm & Hc & El).
    specialize (Hb m Hm Hc). lia. }
  destruct Hr as [[= -> ->] | (k & m & -> & Hk & Hc & -> & Hlt)].
  - rewrite walk_none; [done|]. intros l v Hl. apply Hno. lia.
  - pose proof Hc as (Et & Hbd)%covers_spec.
    assert (length (mname m) <= length path)%nat as Hle.
    { rewrite <- Et at 1. rewrite length_take. lia. }
    rewrite (walk_some _ (length (mname m)) path (tbl s) (mt_ops m, mt_fs_data m)).
    + cbn. unfold mount_ops. rewrite Hk. cbn. unfold relative. by destruct (drop _ path).
    + lia.
    + rewrite Et. apply (tbl_some s _ _ Hok). exists m. split; [|done].
      by eapply list_elem_of_lookup_2.
    + done.
    + done.
Qed.

(** ** Mounting *)

Definition spec_mount (ok : bool) (nm : list Z) (ops : ops_t) (d : Z) t : Z * table :=
  if decide (8 <= size t)%nat then (-1, t) else
  match t !! nm with
  | Some _ => (-1, t)
  | None => if ok then (0, <[nm := (ops, d)]> t) else (-1, t)
  end.

Definition spec_unmount (nm : list Z) t : Z * table :=
  match t !! nm with Some _ => (0, delete nm t) | None => (-1, t) end.

Lemma tbl_size s : vfs_ok s → size (tbl s) = length (g_mounts s).
Proof.
  intros [Hn _ _]. unfold tbl. rewrite map_size_list_to_map by by rewrite <- list_fmap_compose.
  apply length_fmap.
Qed.

Lemma mount_name nm ops d :
  is_cstr nm → (length nm <= 31)%nat →
  mname (mk_mount (strncpy (zeros VFS_NAME_MAX) nm (Z.to_nat (VFS_NAME_MAX - 1))) ops d : mount_t)
  = nm.
Proof.
  intros Hs Hl. unfold mname. cbn [mt_prefix]. rewrite c_str_strncpy by done. by apply take_ge.
Qed.

Lemma existsb_name nm s :
  vfs_ok s →
  existsb (λ m, str_eq (c_str (mt_prefix m)) nm) (g_mounts s) =
    match tbl s !! nm with Some _ => true | None => false end.
Proof.
  intros Hok. destruct (tbl s !! nm) as [v|] eqn:E.
  - apply (tbl_some s _ _ Hok) in E as (m & Hm & [= En _]). apply existsb_exists. exists m.
    split; [by apply list_elem_of_In|]. by apply bool_decide_eq_true.
  - apply not_true_is_false. intros (m & Hm & Eq)%existsb_exists.
    apply bool_decide_eq_true in Eq. apply list_elem_of_In in Hm.
    assert (tbl s !! nm = Some (mt_ops m, mt_fs_data m)) as E'.
    { apply (tbl_some s _ _ Hok). exists m. split; [done|]. unfold entry, mname. by rewrite Eq. }
    congruence.
Qed.

Lemma vfs_mount_spec ok nm ops d s :
  vfs_ok s → is_cstr nm → (length nm <= 31)%nat →
  let r := vfs_mount ok (Some nm) (Some ops) d s in
  vfs_ok r.2 ∧ (r.1, tbl r.2) = spec_mount ok nm ops d (tbl s).
Proof.
  intros Hok Hs Hl. pose proof Hok as [Hn Hc Hm]. unfold vfs_mount, spec_mount, MAX_MOUNTS.
  rewrite tbl_size by done. rewrite existsb_name by done.
  destruct (8 <=? g_mount_count s) eqn:E8; bool_hyps.
  { by rewrite decide_True by lia. }
  rewrite decide_False by lia. destruct (tbl s !! nm) as [v|] eqn:Et; [done|].
  destruct ok; [|done]. cbn [negb fst snd]. split.
  - split; cbn [g_mounts g_mount_count].
    + cbn [fmap list_fmap]. rewrite mount_name by done. constructor; [|done].
      intros (m & En & Hin)%list_elem_of_fmap.
      assert (tbl s !! nm = Some (mt_ops m, mt_fs_data m)) as E'.
      { apply (tbl_some s _ _ Hok). exists m. split; [done|]. unfold entry. by rewrite <- En. }
      congruence.
    + cbn [length]. lia.
    + cbn [length]. lia.
  - f_equal. unfold tbl. cbn [g_mounts fmap list_fmap]. unfold entry at 1.
    rewrite mount_name by done. done.
Qed.

Lemma unmount_loop_spec nm ms :
  NoDup (mname <$> ms) →
  match unmount_loop nm ms with
  | Some ms' => ∃ a m b, ms = a ++ m :: b ∧ ms' = a ++ b ∧ mname m = nm
  | None => nm ∉ mname <$> ms
  end.
Proof.
  induction ms as [|m ms IH]; intros Hn; cbn [unmount_loop]; [by intros ?%not_elem_of_nil|].
  cbn [fmap list_fmap] in Hn. apply NoDup_cons in Hn as [Hm Hn]. fold (mname m). unfold str_eq.
  case_bool_decide as E.
  - by exists [], m, ms.
  - specialize (IH Hn). destruct (unmount_loop nm ms) as [ms'|]; cbn.
    + destruct IH as (a & m' & b & -> & -> & En). by exists (m :: a), m', b.
    + by intros [->|?]%elem_of_cons.
Qed.

Lemma vfs_unmount_spec nm s :
  vfs_ok s → let r := vfs_unmount nm s in
  vfs_ok r.2 ∧ (r.1, tbl r.2) = spec_unmount nm (tbl s).
Proof.
  intros Hok. pose proof Hok as [Hn Hc Hm]. unfold vfs_unmount, spec_unmount.
  pose proof (unmount_loop_spec nm (g_mounts s) Hn) as Hu.
  destruct (unmount_loop nm (g_mounts s)) as [ms'|]; cbn [fst snd].
  - destruct Hu as (a & m & b & E & -> & En).
    assert (tbl s !! nm = Some (mt_ops m, mt_fs_data m)) as Et.
    { apply (tbl_some s _ _ Hok). exists m. rewrite E. split; [set_solver|].
      unfold entry. by rewrite En. }
    rewrite Et. rewrite E in *. rewrite fmap_app, fmap_cons in Hn.
    apply NoDup_app in Hn as (Hna & Hd & [Hnm Hnb]%NoDup_cons). split.
    + split; cbn [g_mounts g_mount_count].
      * rewrite fmap_app. apply NoDup_app. split; [done|]. split; [|done].
        intros x Hx Hxb. apply (Hd x Hx). by right.
      * rewrite length_app in *. cbn [length] in *. lia.
      * rewrite length_app in *. cbn [length] in *. lia.
    + f_equal. unfold tbl. rewrite E. cbn [g_mounts]. rewrite !fmap_app, fmap_cons.
      rewrite !list_to_map_app. cbn [list_to_map foldr]. unfold entry at 4. cbn [fst snd].
      rewrite <- En. rewrite delete_union.
      rewrite (delete_id (list_to_map (entry <$> a))).
      2: { apply not_elem_of_list_to_map. rewrite <- list_fmap_compose.
           intros Hin. apply (Hd (mname m)); [done|by left]. }
      f_equal. rewrite delete_insert_id; [done|].
      apply not_elem_of_list_to_map. by rewrite <- list_fmap_compose.
  - destruct (tbl s !! nm) as [v|] eqn:Et; [|done].
    apply (tbl_some s _ _ Hok) in Et as (m & Hin & [= En _]).
    exfalso. apply Hu. rewrite <- En. by apply list_elem_of_fmap_2.
Qed.

(** ** Calls on paths *)

(** The position found is the position of the mount whose prefix was found. *)
Lemma find_mount_prefix path s k rel :
  vfs_ok s → vfs_find_mount path s = Some (k, rel) →
  ∃ m, g_mounts s !! k = Some m ∧
    walk (length path) path (tbl s) = Some (length (mname m), (mt_ops m, mt_fs_data m)) ∧
    take (length (mname m)) path = mname m ∧ rel = relative path (length (mname m)).
Proof.
  intros Hok Hf. pose proof (resolve_spec path s Hok) as Hr. unfold resolve in Hr. rewrite Hf in Hr.
  cbn [mbind option_bind] in Hr. unfold vfs_find_mount in Hf.
  destruct (find_loop_spec (g_mounts s) 0 path None 0) as (Hb & _ & Hl). cbn zeta in *.
  destruct (find_mount_loop (g_mounts s) 0 path None 0) as [b bl]. cbn [fst snd] in *.
  destruct Hl as [[= -> ->] | (k' & m & -> & Hk & Hc & -> & Hlt)]; [done|].
  injection Hf as <- <-. exists m. split; [done|].
  unfold mount_ops in Hr. rewrite Hk in Hr. cbn [fmap option_fmap option_map mbind option_bind] in Hr.
  pose proof Hc as (Et & Hbd)%covers_spec.
  split; [|split; [done|]].
  - assert (length (mname m) <= length path)%nat as Hle.
    { rewrite <- Et at 1. rewrite length_take. lia. }
    apply walk_some; [lia| |done|].
    + rewrite Et. apply (tbl_some s _ _ Hok). exists m. split; [|done].
      by eapply list_elem_of_lookup_2.
    + intros l v Hl Ht. apply not_true_is_false. intros Hbd'.
      destruct (tbl_covers s path l v Hok ltac:(lia) Ht Hbd') as (m' & Hm' & Hc' & El).
      specialize (Hb m' Hm' Hc'). lia.
  - unfold relative. by destruct (drop _ path).
Qed.

Lemma find_mount_none path s :
  vfs_ok s → vfs_find_mount path s = None → walk (length path) path (tbl s) = None.
Proof.
  intros Hok Hf. pose proof (resolve_spec path s Hok) as Hr. unfold resolve, spec_resolve in Hr.
  rewrite Hf in Hr. cbn in Hr. by destruct (walk _ _ _).
Qed.

(** The operation [sel] of the file system the path leads to, or [no]. *)
Definition spec_call {F R} (no : R) (sel : ops_t → option F) (call : ops_t → list Z → F → R)
    path t : R :=
  match spec_resolve path t with
  | Some (ops, rel) => match sel ops with Some f => call ops rel f | None => no end
  | None => no
  end.

(** Renaming needs both paths below one mounted prefix. *)
Definition spec_rename (oldpath newpath : list Z) t (u : U) : Z * U :=
  match walk (length oldpath) oldpath t, walk (length newpath) newpath t with
  | Some (l1, (ops, _)), Some (l2, _) =>
    match op_rename ops with
    | Some f => if decide (take l1 oldpath = take l2 newpath)
                then f (relative oldpath l1) (relative newpath l2) u else (-1, u)
    | None => (-1, u)
    end
  | _, _ => (-1, u)
  end.

Lemma vfs_rename_spec oldpath newpath s u :
  vfs_ok s →
  vfs_rename (Some oldpath) (Some newpath) s u = spec_rename oldpath newpath (tbl s) u.
Proof.
  intros Hok. unfold vfs_rename, spec_rename.
  destruct (vfs_find_mount oldpath s) as [[k r1]|] eqn:E1.
  2: { by rewrite (find_mount_none _ _ Hok E1). }
  destruct (find_mount_prefix _ _ _ _ Hok E1) as (m & Hk & -> & Et & ->).
  unfold mount_ops. rewrite Hk. cbn [fmap option_fmap option_map mbind option_bind].
  destruct (vfs_find_mount newpath s) as [[k2 r2]|] eqn:E2.
  2: { rewrite (find_mount_none _ _ Hok E2). by destruct (op_rename (mt_ops m)). }
  destruct (find_mount_prefix _ _ _ _ Hok E2) as (m2 & Hk2 & -> & Et2 & ->).
  destruct (op_rename (mt_ops m)) as [f|]; [|done]. rewrite Et, Et2.
  destruct (decide (k = k2)) as [<-|Hne].
  - rewrite Hk in Hk2. injection Hk2 as <-. by rewrite decide_True.
  - rewrite decide_False; [done|]. intros En. apply Hne. pose proof (vk_names s Hok) as Hn.
    apply (NoDup_lookup (mname <$> g_mounts s) k k2 (mname m)); [done| |].
    + by rewrite list_lookup_fmap, Hk.
    + rewrite list_lookup_fmap, Hk2. cbn. by rewrite En.
Qed.

(** C35: Whatever the order in which the file systems were mounted, every call on a
    path goes to the one mounted at its longest prefix that ends at a component
    boundary, with the rest of the path: opening, stat, unlinking, making and
    removing directories, listing and renaming, and it fails without touching any
    file system where there is no such mount or operation. *)
Theorem vfs_resolves_longest s path path2 (mode : Z) (u : U) :
  vfs_ok s →
  vfs_open true (Some path) mode true s u =
    spec_call (-1, None, u) op_open
      (λ ops rel f, let '(ret, fh, u') := f rel mode u in
                    if ret =? 0 then (0, Some (mk_file ops fh), u') else (ret, None, u'))
      path (tbl s) ∧
  vfs_stat (Some path) true s u =
    spec_call (-1, None, u) op_stat
      (λ _ rel f, let '(ret, r, u') := f rel u in (ret, Some r, u')) path (tbl s) ∧
  vfs_unlink (Some path) s u = spec_call (-1, u) op_unlink (λ _ rel f, f rel u) path (tbl s) ∧
  vfs_mkdir (Some path) mode s u =
    spec_call (-1, u) op_mkdir (λ _ rel f, f rel mode u) path (tbl s) ∧
  vfs_rmdir (Some path) s u = spec_call (-1, u) op_rmdir (λ _ rel f, f rel u) path (tbl s) ∧
  vfs_opendir true (Some path) s u =
    spec_call (None, u) op_opendir
      (λ ops rel f, let '(dh, u') := f rel u in (option_map (mk_dir ops) dh, u')) path (tbl s) ∧
  vfs_rename (Some path) (Some path2) s u = spec_rename path path2 (tbl s) u.
Proof.
  intros Hok. pose proof (resolve_spec path s Hok) as Hr. unfold spec_call. rewrite <- Hr.
  split_and!.
  - unfold vfs_open, vfs_do_open, resolve.
    destruct (vfs_find_mount path s) as [[k rel]|]; [|done]. cbn [mbind option_bind].
    destruct (mount_ops k s) as [ops|]; [|done]. cbn. by destruct (op_open ops).
  - unfold vfs_stat. cbn [mbind option_bind]. destruct (resolve path s) as [[ops rel]|]; [|done].
    by destruct (op_stat ops).
  - unfold vfs_unlink. cbn [mbind option_bind]. destruct (resolve path s) as [[ops rel]|]; [|done].
    by destruct (op_unlink ops).
  - unfold vfs_mkdir. cbn [mbind option_bind]. destruct (resolve path s) as [[ops rel]|]; [|done].
    by destruct (op_mkdir ops).
  - unfold vfs_rmdir. cbn [mbind option_bind]. destruct (resolve path s) as [[ops rel]|]; [|done].
    by destruct (op_rmdir ops).
  - unfold vfs_opendir. cbn [mbind option_bind]. destruct (resolve path s) as [[ops rel]|]; [|done].
    by destruct (op_opendir ops).
  - by apply vfs_rename_spec.
Qed.

(** ** Calls on the table *)

Inductive vfs_op :=
  | OpMount (calloc_ok : bool) (prefix : list Z) (ops : ops_t) (fs_data : Z)
  | OpUnmount (prefix : list Z).

Definition run_op (op : vfs_op) s : Z * state :=
  match op with
  | OpMount ok nm ops d => vfs_mount ok (Some nm) (Some ops) d s
  | OpUnmount nm => vfs_unmount nm s
  end.

Definition spec_op (op : vfs_op) t : Z * table :=
  match op with
  | OpMount ok nm ops d => spec_mount ok nm ops d t
  | OpUnmount nm => spec_unmount nm t
  end.

Fixpoint run_ops (l : list vfs_op) s : list Z * state :=
  match l with
  | [] => ([], s)
  | op :: l => let '(r, s) := run_op op s in let '(rs, s) := run_ops l s in (r :: rs, s)
  end.

Fixpoint spec_ops (l : list vfs_op) t : list Z * table :=
  match l with
  | [] => ([], t)
  | op :: l => let '(r, t) := spec_op op t in let '(rs, t) := spec_ops l t in (r :: rs, t)
  end.

(** Prefixes are C strings of at most 31 characters. *)
Definition op_name (op : vfs_op) : Prop :=
  match op with OpMount _ nm _ _ => is_cstr nm ∧ (length nm <= 31)%nat | OpUnmount _ => True end.

(** From [vfs_init], any sequence of mounts and unmounts keeps the chain well
    formed (distinct prefixes, the right count, at most eight) and gives the results
    and the contents of a finite map from prefixes. *)
Theorem vfs_table_refines s0 l :
  Forall op_name l →
  let r := run_ops l (vfs_init s0).2 in vfs_ok r.2 ∧ (r.1, tbl r.2) = spec_ops l ∅.
Proof.
  intros Hl. cbn [vfs_init snd].
  assert (∀ s, vfs_ok s → vfs_ok (run_ops l s).2 ∧
    ((run_ops l s).1, tbl (run_ops l s).2) = spec_ops l (tbl s)) as Hg.
  { clear s0. induction l as [|op l IH]; intros s Hok; [done|].
    apply Forall_cons in Hl as [Hop Hl].
    assert (vfs_ok (run_op op s).2 ∧ ((run_op op s).1, tbl (run_op op s).2) = spec_op op (tbl s))
      as [Hok1 E1].
    { destruct op; [by destruct Hop; apply vfs_mount_spec|by apply vfs_unmount_spec]. }
    specialize (IH Hl _ Hok1) as [Hok2 E2]. cbn [run_ops spec_ops].
    destruct (run_op op s) as [r s1]. cbn [fst snd] in *. rewrite <- E1.
    destruct (run_ops l s1) as [rs s2]. cbn [fst snd] in *. rewrite <- E2. done. }
  apply (Hg (mk_vfs [] 0)). split; [constructor|done|cbn; lia].
Qed.

End VfsThm.

(** ** Concrete runs

    A file system that answers with its number. *)

Module VfsRuns.
Definition fs (n : Z) : vfs_ops_t Z (list (list Z)) :=
  mk_ops (Some (λ p _ u, (0, n, u ++ [p]))) None None None None None None
    (Some (λ p u, (n, u ++ [p]))) None None None None None None None.

(** "/sd", "/sd/a", "/sdx/f", "/sd/a/f", "/" *)
Definition sd : list Z := [47; 115; 100].
Definition sda : list Z := sd ++ [47; 97].
Definition sdx : list Z := sd ++ [120; 47; 102].
Definition sdaf : list Z := sda ++ [47; 102].
Definition root : list Z := [47].

Definition ops2 : list (vfs_op (H := Z) (U := list (list Z))) :=
  [OpMount true sd (fs 1) 0; OpMount true sda (fs 2) 0; OpMount true sd (fs 3) 0].

Definition vfs2 : vfs_state Z (list (list Z)) := (run_ops ops2 (mk_vfs [] 0)).2.

Lemma vfs2_ok : vfs_ok vfs2.
Proof. split; [vm_decide|done|vm_compute; lia]. Qed.

Example nested_mounts :
  vfs_unlink (Some sdaf) vfs2 [] = (2, [[102]]) ∧
  vfs_unlink (Some sdx) vfs2 [] = (-1, []) ∧
  vfs_unlink (Some sd) vfs2 [] = (1, [[]]).
Proof. by vm_compute. Qed.

(** A file system mounted at "/" gets no path but "/" itself and those that begin
    with "//". *)
Example root_mount_unused :
  let s := (vfs_mount true (Some root) (Some (fs 1)) 0 (mk_vfs [] 0)).2 in
  vfs_unlink (Some sdaf) s [] = (-1, []) ∧ vfs_unlink (Some root) s [] = (1, [[]]).
Proof. by vm_compute. Qed.

(** A prefix of 32 characters is stored cut: it can be mounted again and again, and
    not be unmounted. *)
Example long_prefix_stays :
  let p := 47 :: replicate 31 97 in
  (run_ops [OpMount true p (fs 1) 0; OpMount true p (fs 2) 0; OpUnmount p] (mk_vfs [] 0)).1
  = [0; 0; -1].
Proof. by vm_compute. Qed.

Lemma vfs_resolves_longest_witness :
  vfs_unlink (Some sdaf) vfs2 [] =
    spec_call (-1, []) op_unlink (λ _ rel f, f rel []) sdaf (tbl vfs2).
Proof. apply (vfs_resolves_longest vfs2 sdaf sd 1 [] vfs2_ok). Defined.

Lemma vfs_table_refines_witness :
  let r := run_ops ops2 (vfs_init (mk_vfs [] 0)).2 in vfs_ok r.2 ∧ (r.1, tbl r.2) = spec_ops ops2 ∅.
Proof.
  apply (vfs_table_refines (mk_vfs [] 0) ops2). repeat constructor; vm_decide.
Defined.
End VfsRuns.
