(* ===== verification/Tables.v ===== *)
(** * Tables in arrays

    The services keep their entries in arrays of fixed size, in chains with distinct
    keys, in slots that are free or taken, at the front of an array, or round a ring.
    This file has the searches the code makes and the lemmas that show the maps and
    lists such tables are. *)

From Stdlib Require Import ZArith Lia.
From stdpp Require Import base tactics option numbers fin_maps gmap list.
From S2P Require Import Prelude.

(** ** Association lists: replacing, adding and removing an entry *)

Section Assoc.
Context {K : Type} `{Countable K} {A : Type}.
Implicit Types (l a b : list (K * A)) (k : K) (x y : A).

Lemma list_to_map_mid a k x b :
  NoDup (a ++ (k, x) :: b).*1 →
  (list_to_map (a ++ (k, x) :: b) : gmap K A) = <[k := x]> (list_to_map (a ++ b)).
Proof.
  induction a as [|[k' y] a IH]; [done|]. cbn [app fmap list_fmap fst].
  intros [Hk Hn]%NoDup_cons. cbn [list_to_map foldr fst snd]. fold (list_to_map (M := gmap K A)).
  rewrite fmap_app, fmap_cons in Hk. rewrite not_elem_of_app, not_elem_of_cons in Hk.
  change (<[k' := y]> (list_to_map (a ++ (k, x) :: b) : gmap K A) =
    <[k := x]> (<[k' := y]> (list_to_map (a ++ b)))).
  rewrite IH by done. by rewrite insert_insert_ne by naive_solver.
Qed.

Lemma list_to_map_replace a k x y b :
  NoDup (a ++ (k, x) :: b).*1 →
  (list_to_map (a ++ (k, y) :: b) : gmap K A) = <[k := y]> (list_to_map (a ++ (k, x) :: b)).
Proof.
  intros Hn. rewrite (list_to_map_mid a k x b) by done. rewrite insert_insert_eq.
  apply list_to_map_mid. rewrite !fmap_app, !fmap_cons in *. exact Hn.
Qed.

Lemma list_to_map_remove a k x b :
  NoDup (a ++ (k, x) :: b).*1 →
  (list_to_map (a ++ b) : gmap K A) = delete k (list_to_map (a ++ (k, x) :: b)).
Proof.
  intros Hn. rewrite list_to_map_mid by done. rewrite delete_insert_id; [done|].
  apply not_elem_of_list_to_map. rewrite fmap_app, fmap_cons in Hn.
  rewrite fmap_app, not_elem_of_app. apply NoDup_app in Hn as (_ & Hd & [Hb _]%NoDup_cons).
  split; [|done]. intros Hin. apply (Hd k Hin). by left.
Qed.
End Assoc.

(** ** Slots: an array whose places are free or hold an entry under a key *)

(** [for (i = 0; i < n; i++) if (p (a[i])) return i;] *)
Fixpoint first {A} (p : A → bool) (l : list A) : option nat :=
  match l with
  | [] => None
  | a :: l => if p a then Some O else S <$> first p l
  end.

Lemma first_some {A} (p : A → bool) l i :
  first p l = Some i → ∃ a, l !! i = Some a ∧ p a = true.
Proof.
  revert i. induction l as [|a l IH]; intros i; [done|]. cbn [first]. destruct (p a) eqn:E.
  - intros [= <-]. by exists a.
  - destruct (first p l) as [j|]; [|done]. intros [= <-]. by apply IH.
Qed.

Lemma first_none {A} (p : A → bool) l i a : first p l = None → l !! i = Some a → p a = false.
Proof.
  revert i. induction l as [|b l IH]; intros i; [done|]. cbn [first]. destruct (p b) eqn:E; [done|].
  destruct (first p l) as [j|]; [done|]. intros _. destruct i as [|i]; [by intros [= <-]|by apply IH].
Qed.

Lemma first_lt {A} (p : A → bool) l i : first p l = Some i → (i < length l)%nat.
Proof. intros (a & Ha & _)%first_some. by eapply lookup_lt_Some. Qed.

Lemma lookup_insert_case {A} (l : list A) i a' j b :
  <[i := a']> l !! j = Some b ↔ (j = i ∧ b = a' ∧ is_Some (l !! i)) ∨ (j ≠ i ∧ l !! j = Some b).
Proof.
  destruct (decide (j = i)) as [->|Hne].
  - destruct (l !! i) eqn:E.
    + rewrite list_lookup_insert_eq by by eapply lookup_lt_Some. naive_solver.
    + rewrite list_insert_ge by by apply lookup_ge_None. rewrite E. split; [done|].
      intros [(_ & _ & [? ?])|[? ?]]; done.
  - rewrite list_lookup_insert_ne by done. naive_solver.
Qed.

Section Slots.
Context {K A : Type} `{Countable K}.
(** The key of a slot in use. *)
Variable key : A → option K.
Implicit Types (l : list A) (k : K) (a : A) (i : nat).

Definition slots_ok l : Prop :=
  ∀ i j a b k, l !! i = Some a → l !! j = Some b → key a = Some k → key b = Some k → i = j.

Definition tab l : gmap K A := list_to_map (omap (λ a, (λ k, (k, a)) <$> key a) l).

Lemma slots_ok_cons a l : slots_ok (a :: l) → slots_ok l.
Proof. intros Hl i j x y k Hi Hj Hx Hy. by injection (Hl (S i) (S j) x y k Hi Hj Hx Hy). Qed.

Lemma tab_nodup l : slots_ok l → NoDup (omap (λ a, (λ k, (k, a)) <$> key a) l).*1.
Proof.
  induction l as [|a l IH]; intros Hl; [constructor|]. cbn [omap list_omap].
  specialize (IH (slots_ok_cons a l Hl)). destruct (key a) as [k|] eqn:Ek; [|done].
  cbn. constructor; [|exact IH]. intros Hin. apply list_elem_of_fmap in Hin as ([k' b] & -> & Hin).
  apply list_elem_of_omap in Hin as (b' & Hb & E). destruct (key b') as [k''|] eqn:Eb; [|done].
  injection E as -> ->. apply list_elem_of_lookup in Hb as [j Hj].
  discriminate (Hl O (S j) a b k' eq_refl Hj Ek Eb).
Qed.

Lemma tab_lookup l k a :
  slots_ok l → tab l !! k = Some a ↔ ∃ i, l !! i = Some a ∧ key a = Some k.
Proof.
  intros Hl. unfold tab. rewrite <- elem_of_list_to_map by by apply tab_nodup.
  rewrite list_elem_of_omap. split.
  - intros (b & Hb & E). destruct (key b) as [k'|] eqn:Ek; [|done]. injection E as -> ->.
    apply list_elem_of_lookup in Hb as [i Hi]. by exists i.
  - intros (i & Hi & Ek). exists a. rewrite Ek. split; [|done]. by eapply list_elem_of_lookup_2.
Qed.

Lemma tab_none l k : slots_ok l → tab l !! k = None ↔ ∀ i a, l !! i = Some a → key a ≠ Some k.
Proof.
  intros Hl. split.
  - intros E i a Hi Ek. assert (tab l !! k = Some a) as E' by (apply tab_lookup; eauto). congruence.
  - intros Hk. destruct (tab l !! k) as [a|] eqn:E; [|done].
    apply tab_lookup in E as (i & Hi & Ek); [|done]. by destruct (Hk i a Hi).
Qed.

Lemma tab_size l : slots_ok l → size (tab l) = length (omap key l).
Proof.
  intros Hl. unfold tab. rewrite map_size_list_to_map by by apply tab_nodup.
  clear Hl. induction l as [|a l IH]; [done|]. cbn. destruct (key a); cbn; by rewrite IH.
Qed.

Lemma tab_size_le l : slots_ok l → (size (tab l) <= length l)%nat.
Proof.
  intros Hl. rewrite tab_size by done. clear Hl. induction l as [|a l IH]; [done|]. cbn.
  destruct (key a); cbn; lia.
Qed.

(** ** Searching *)

Lemma first_key (p : A → bool) l k :
  slots_ok l → (∀ a, p a = true ↔ key a = Some k) →
  match first p l with
  | Some i => ∃ a, l !! i = Some a ∧ key a = Some k ∧ tab l !! k = Some a
  | None => tab l !! k = None
  end.
Proof.
  intros Hl Hp. destruct (first p l) as [i|] eqn:E.
  - apply first_some in E as (a & Ha & Ek). apply Hp in Ek. exists a. split; [done|].
    split; [done|]. apply tab_lookup; eauto.
  - apply tab_none; [done|]. intros i a Hi Ek. apply Hp in Ek.
    by rewrite (first_none p l i a E Hi) in Ek.
Qed.

Lemma first_free (p : A → bool) l :
  slots_ok l → (∀ a, p a = true ↔ key a = None) →
  match first p l with
  | Some i => ∃ a, l !! i = Some a ∧ key a = None ∧ (size (tab l) < length l)%nat
  | None => size (tab l) = length l
  end.
Proof.
  intros Hl Hp. rewrite tab_size by done. clear Hl. induction l as [|a l IH]; [done|]. cbn [first].
  destruct (p a) eqn:Ea.
  - apply Hp in Ea. exists a. split; [done|]. split; [done|]. cbn. rewrite Ea.
    assert (length (omap key l) <= length l)%nat; [|lia].
    clear. induction l as [|b l IH]; [done|]. cbn. destruct (key b); cbn; lia.
  - assert (∃ k, key a = Some k) as [k Ek].
    { destruct (key a) as [k|] eqn:Ek; [by exists k|]. apply Hp in Ek. congruence. }
    cbn. rewrite Ek. cbn. destruct (first p l) as [i|].
    + destruct IH as (b & Hb & Eb & Hn). exists b. split; [done|]. split; [done|lia].
    + by rewrite IH.
Qed.

(** ** Changing a slot *)

Lemma slots_insert l i a a' :
  slots_ok l → l !! i = Some a → (∀ k, key a' = Some k → key a = Some k ∨ tab l !! k = None) →
  slots_ok (<[i := a']> l).
Proof.
  intros Hl Hi Hk.
  assert (∀ j b k, <[i := a']> l !! j = Some b → key b = Some k → j ≠ i → l !! j = Some b ∧ key a' ≠ Some k) as Hne.
  { intros j b k Hj Hb Hji. rewrite list_lookup_insert_ne in Hj by done. split; [done|].
    intros Ea. destruct (Hk k Ea) as [Ea'|En].
    - by destruct Hji; eapply Hl.
    - by eapply (proj1 (tab_none l k Hl) En). }
  assert (∀ b, <[i := a']> l !! i = Some b → b = a') as Heq.
  { intros b. rewrite list_lookup_insert_eq by by eapply lookup_lt_Some. congruence. }
  intros j1 j2 b1 b2 k H1 H2 K1 K2.
  destruct (decide (j1 = i)) as [->|N1], (decide (j2 = i)) as [->|N2]; [done|..].
  - apply Heq in H1 as ->. by destruct (Hne j2 b2 k).
  - apply Heq in H2 as ->. by destruct (Hne j1 b1 k).
  - destruct (Hne j1 b1 k) as [H1' _]; [done..|]. destruct (Hne j2 b2 k) as [H2' _]; [done..|]. by eapply Hl.
Qed.

Lemma tab_put l i a a' k :
  slots_ok l → l !! i = Some a → key a' = Some k →
  (key a = Some k ∨ (key a = None ∧ tab l !! k = None)) →
  slots_ok (<[i := a']> l) ∧ tab (<[i := a']> l) = <[k := a']> (tab l).
Proof.
  intros Hl Hi Ek Hk.
  assert (slots_ok (<[i := a']> l)) as Hl'.
  { eapply slots_insert; [done..|]. intros k' E. assert (k' = k) as -> by congruence. tauto. }
  split; [done|]. apply map_eq. intros k2. apply option_eq. intros b.
  rewrite tab_lookup by done. destruct (decide (k2 = k)) as [->|Hne].
  - rewrite lookup_insert_eq. split.
    + intros (j & Hj & Eb). apply lookup_insert_case in Hj as [(_ & -> & _)|[Hji Hj]]; [done|].
      destruct Hk as [Ha|[_ Hn]]; [by destruct Hji; eapply Hl|].
      by destruct (proj1 (tab_none l k Hl) Hn j b Hj).
    + intros [= <-]. exists i. split; [|done]. apply lookup_insert_case. left. eauto.
  - rewrite lookup_insert_ne by done. rewrite tab_lookup by done. split.
    + intros (j & Hj & Eb). apply lookup_insert_case in Hj as [(_ & -> & _)|[Hji Hj]]; [congruence|eauto].
    + intros (j & Hj & Eb). exists j. split; [|done]. apply lookup_insert_case. right. split; [|done].
      intros ->. assert (a = b) as <- by congruence. destruct Hk as [Ha|[Ha _]]; congruence.
Qed.

Lemma tab_clear l i a a' k :
  slots_ok l → l !! i = Some a → key a = Some k → key a' = None →
  slots_ok (<[i := a']> l) ∧ tab (<[i := a']> l) = delete k (tab l).
Proof.
  intros Hl Hi Ek En.
  assert (slots_ok (<[i := a']> l)) as Hl' by (eapply slots_insert; [done..|]; congruence).
  split; [done|]. apply map_eq. intros k2. apply option_eq. intros b.
  rewrite tab_lookup by done. destruct (decide (k2 = k)) as [->|Hne].
  - rewrite lookup_delete_eq. split; [|done]. intros (j & Hj & Eb).
    apply lookup_insert_case in Hj as [(_ & -> & _)|[Hji Hj]]; [congruence|]. by destruct Hji; eapply Hl.
  - rewrite lookup_delete_ne by done. rewrite tab_lookup by done. split.
    + intros (j & Hj & Eb). apply lookup_insert_case in Hj as [(_ & -> & _)|[Hji Hj]]; [congruence|eauto].
    + intros (j & Hj & Eb). exists j. split; [|done]. apply lookup_insert_case. right. split; [|done].
      intros ->. congruence.
Qed.

(** No slot in use. *)
Lemma slots_all_free l : (∀ i a, l !! i = Some a → key a = None) → slots_ok l ∧ tab l = ∅.
Proof.
  intros Hn. assert (slots_ok l) as Hl by (intros i j a b k Hi _ Ek; by rewrite (Hn i a Hi) in Ek).
  split; [done|]. apply map_eq. intros k. rewrite lookup_empty. apply tab_none; [done|].
  intros i a Hi. by rewrite (Hn i a Hi).
Qed.
End Slots.

(** ** Packed tables: the first [count] places are in use, removal moves the rest down *)

Section Packed.
Context {A : Type}.
Implicit Types (l : list A) (count i : Z) (x : A) (P : A → Prop).

Definition packed count l : list A := take (Z.to_nat count) l.

Lemma packed_length count l : 0 <= count <= blen l → length (packed count l) = Z.to_nat count.
Proof. intros Hc. unfold packed, blen in *. rewrite length_take. lia. Qed.

Lemma packed_get count l i : 0 <= i < count → rd l i = packed count l !! Z.to_nat i.
Proof. intros Hi. rewrite rd_lookup by lia. unfold packed. by rewrite lookup_take_lt by lia. Qed.

Lemma packed_in count l i : 0 <= i < count → count <= blen l → ∃ x, rd l i = Some x ∧ packed count l !! Z.to_nat i = Some x.
Proof.
  intros Hi Hc. destruct (rd_ok l i) as [x Ex]; [lia|]. exists x. split; [done|]. by rewrite <- packed_get.
Qed.

Lemma packed_set count l i x :
  0 <= i < count → count <= blen l →
  ∃ l', wr l i x = Some l' ∧ blen l' = blen l ∧ packed count l' = <[Z.to_nat i := x]> (packed count l) ∧
    ∀ P, P x → Forall P l → Forall P l'.
Proof.
  intros Hi Hc. rewrite wr_ok by lia. eexists. split; [done|]. unfold blen. rewrite length_insert.
  split; [done|]. split; [unfold packed; by rewrite take_insert_lt by lia|].
  intros P HP Hl. by apply Forall_insert.
Qed.

Lemma packed_push count l x :
  0 <= count < blen l →
  ∃ l', wr l count x = Some l' ∧ blen l' = blen l ∧ packed (count + 1) l' = packed count l ++ [x] ∧
    ∀ P, P x → Forall P l → Forall P l'.
Proof.
  intros Hc. rewrite wr_ok by lia. eexists. split; [done|]. unfold blen in *. rewrite length_insert.
  split; [done|]. split; [|intros P HP Hl; by apply Forall_insert].
  unfold packed. replace (Z.to_nat (count + 1)) with (S (Z.to_nat count)) by lia.
  apply take_insert_snoc. lia.
Qed.

Lemma packed_remove count l i :
  0 <= i < count → count <= blen l →
  ∃ l', shift_left (Z.to_nat (count - 1 - i)) i l = Some l' ∧ blen l' = blen l ∧
    packed (count - 1) l' = delete (Z.to_nat i) (packed count l) ∧ ∀ P, Forall P l → Forall P l'.
Proof.
  intros Hi Hc. destruct (packed_in count l i Hi Hc) as (x & _ & Hx).
  set (a := take (Z.to_nat i) (packed count l)). set (m := drop (S (Z.to_nat i)) (packed count l)).
  set (b := drop (Z.to_nat count) l).
  assert (packed count l = a ++ x :: m) as Ep by (symmetry; by apply take_drop_middle).
  assert (l = a ++ x :: m ++ b) as El.
  { transitivity (packed count l ++ b); [symmetry; apply take_drop|]. by rewrite Ep, <- app_assoc. }
  pose proof (packed_length count l ltac:(lia)) as Hlen.
  assert (blen a = i) as Ha by (unfold blen, a; rewrite length_take, Hlen; lia).
  assert (length m = Z.to_nat (count - 1 - i)) as Hm by (unfold m; rewrite length_drop, Hlen; lia).
  destruct (shift_left_spec a m b x) as (z & Hz & E). rewrite Hm, Ha, <- El in E. exists (a ++ m ++ z :: b).
  split; [exact E|].
  assert (delete (Z.to_nat i) (packed count l) = a ++ m) as Ed.
  { rewrite Ep. replace (Z.to_nat i) with (length a) by (unfold blen in Ha; lia). apply delete_middle. }
  split; [|split].
  - transitivity (blen (a ++ x :: m ++ b)); [|by rewrite <- El]. rewrite !blen_app, !blen_cons, !blen_app. lia.
  - rewrite Ed. unfold packed. rewrite app_assoc. rewrite take_app_length'; [done|].
    rewrite length_app. unfold blen in Ha. lia.
  - intros P Hl. rewrite El in Hl. rewrite !Forall_app, Forall_cons, !Forall_app in *.
    destruct Hl as (H1 & Hx' & H2 & H3). split; [done|]. split; [done|]. constructor; [|done].
    apply elem_of_cons in Hz as [->|Hz]; [done|]. rewrite Forall_forall in H2. by apply H2.
Qed.
End Packed.

(** ** Rings: [count] elements from the place [head] on, with wrap-around *)

Section Ring.
Context {A : Type} (cap : Z).
Implicit Types (q : list A) (head count : Z) (c : A).

Definition ring q head count : list A := take (Z.to_nat count) (rot (Z.to_nat head) q).
Definition ring_ok q head count : Prop := blen q = cap ∧ 0 <= head < cap ∧ 0 <= count <= cap.

Lemma ring_length q head count : ring_ok q head count → length (ring q head count) = Z.to_nat count.
Proof. intros (Hl & _ & Hc). unfold ring, blen in *. rewrite length_take, rot_length. lia. Qed.

(** The element in front. *)
Lemma ring_front q head count :
  ring_ok q head count →
  match ring q head count with [] => count = 0 | c :: _ => 0 < count ∧ rd q head = Some c end.
Proof.
  intros Hq. pose proof (ring_length q head count Hq) as Hlen. destruct Hq as (Hl & Hh & Hc).
  destruct (ring q head count) as [|c r] eqn:Eq; cbn [length] in Hlen; [lia|]. split; [lia|].
  destruct (rd_ok q head) as [c' Ec]; [lia|]. rewrite Ec. rewrite rd_lookup in Ec by lia.
  destruct (rot_next _ _ _ Ec) as (r' & Er & _). unfold ring in Eq. rewrite Er in Eq.
  destruct (Z.to_nat count) as [|n]; [lia|]. cbn [take] in Eq. by injection Eq as -> _.
Qed.

(** Writing the element in front. *)
Lemma ring_set q head count c c' r :
  ring_ok q head count → ring q head count = c :: r →
  ∃ q', wr q head c' = Some q' ∧ ring_ok q' head count ∧ ring q' head count = c' :: r.
Proof.
  intros Hq Eq. pose proof (ring_length q head count Hq) as Hlen. rewrite Eq in Hlen. cbn [length] in Hlen.
  destruct Hq as (Hl & Hh & Hc). rewrite wr_ok by lia. eexists. split; [done|].
  unfold ring_ok, blen in *. rewrite length_insert. split; [done|]. unfold ring in *.
  pose proof (rot_insert q (Z.to_nat head) 0 c' ltac:(lia) ltac:(lia)) as Er.
  rewrite Nat.add_0_r, Nat.mod_small in Er by lia. rewrite Er.
  destruct (rot (Z.to_nat head) q) as [|d l]; [by rewrite take_nil in Eq|].
  destruct (Z.to_nat count) as [|n]; [done|]. cbn in Eq |- *. by injection Eq as _ ->.
Qed.

Lemma ring_index (i j n : Z) :
  0 < n → 0 <= i → 0 <= j → Z.to_nat (Z.rem (i + j) n) = ((Z.to_nat i + Z.to_nat j) `mod` Z.to_nat n)%nat.
Proof.
  intros. rewrite Z.rem_mod_nonneg by lia. apply Nat2Z.inj.
  rewrite Nat2Z.inj_mod, Nat2Z.inj_add, !Z2Nat.id; try lia.
  pose proof (Z.mod_pos_bound (i + j) n ltac:(lia)). lia.
Qed.

(** Taking the element in front away. *)
Lemma ring_pop q head count c r :
  ring_ok q head count → ring q head count = c :: r →
  ring_ok q (Z.rem (head + 1) cap) (count - 1) ∧ ring q (Z.rem (head + 1) cap) (count - 1) = r.
Proof.
  intros Hq Eq. pose proof (ring_length q head count Hq) as Hlen. rewrite Eq in Hlen. cbn [length] in Hlen.
  pose proof (ring_front q head count Hq) as Hf. rewrite Eq in Hf. destruct Hf as (_ & Ec).
  destruct Hq as (Hl & Hh & Hc). rewrite rd_lookup in Ec by lia.
  destruct (rot_next _ _ _ Ec) as (r' & Er & En).
  assert (length r' = length q - 1)%nat as Hr'.
  { pose proof (rot_length (Z.to_nat head) q) as Hrl. rewrite Er in Hrl. cbn in Hrl. lia. }
  split.
  { split; [done|]. split; [|lia]. rewrite Z.rem_mod_nonneg by lia. apply Z.mod_pos_bound. lia. }
  unfold ring, blen in *. rewrite ring_index by lia. replace (Z.to_nat cap) with (length q) by lia.
  change (Z.to_nat 1) with 1%nat. rewrite En. rewrite Er in Eq.
  destruct (Z.to_nat count) as [|n] eqn:Ecn; [done|].
  cbn [take] in Eq. injection Eq as <-. replace (Z.to_nat (count - 1)) with n by lia.
  by rewrite take_app_le by lia.
Qed.

(** A new element at the end. *)
Lemma ring_push q head count c :
  ring_ok q head count → count < cap →
  ∃ q', wr q (Z.rem (head + count) cap) c = Some q' ∧ ring_ok q' head (count + 1) ∧
    ring q' head (count + 1) = ring q head count ++ [c].
Proof.
  intros (Hl & Hh & Hc) Hlt.
  assert (0 <= Z.rem (head + count) cap < cap) as Hi.
  { rewrite Z.rem_mod_nonneg by lia. apply Z.mod_pos_bound. lia. }
  rewrite wr_ok by lia. eexists. split; [done|].
  unfold ring_ok, blen in *. rewrite length_insert. split; [lia|]. unfold ring.
  rewrite ring_index by lia. replace (Z.to_nat cap) with (length q) by lia.
  rewrite rot_insert by lia. replace (Z.to_nat (count + 1)) with (S (Z.to_nat count)) by lia.
  apply take_insert_snoc. rewrite rot_length. lia.
Qed.
End Ring.
