(* ===== verification/ConfigStore.v ===== *)
(** * The configuration store (fs/config_store.c)

    A table of entries, known by the hash and the length of their keys, over one
    block of data, kept in memory and written to a file of the virtual file system
    as the structs lie in memory.  [entries] and [data] are heap blocks that may be
    NULL; an access outside one is [None].  Plain [char] is signed, as on the host;
    keys of ASCII characters hash alike everywhere. *)

From Stdlib Require Import ZArith Lia.
From stdpp Require Import base tactics option numbers gmap sorting list.
From S2P Require Import Prelude.
From S2P Require Import CString.
From S2P Require Import Layout.
From S2P Require Import Vfs.

Definition CONFIG_MAGIC : Z := 1128679251.
Definition CONFIG_VERSION : Z := 1.
Definition CONFIG_TYPE_STRING : Z := 1.
Definition CONFIG_TYPE_INT : Z := 2.
Definition CONFIG_TYPE_BOOL : Z := 3.
Definition CONFIG_TYPE_BLOB : Z := 4.

Record config_header_t := mk_header {
  ch_magic : Z; ch_version : Z; ch_reserved : Z; ch_count : Z; ch_data_offset : Z;
  ch_data_size : Z
}.

Record config_entry_t := mk_ce {
  ce_key_hash : Z; ce_key_len : Z; ce_type : Z; ce_offset : Z; ce_size : Z
}.

Definition entry_zero : config_entry_t := mk_ce 0 0 0 0 0.
Definition SIZEOF_HEADER : Z := 20.
Definition SIZEOF_ENTRY : Z := 16.

(** ** The layout of the structs, little endian *)

Definition enc_header (h : config_header_t) : list Z :=
  bytes32 (ch_magic h) ++ bytes16 (ch_version h) ++ bytes16 (ch_reserved h) ++
  bytes32 (ch_count h) ++ bytes32 (ch_data_offset h) ++ bytes32 (ch_data_size h).
Definition dec_header (b : list Z) : config_header_t :=
  mk_header (get32 b 0) (get16 b 4) (get16 b 6) (get32 b 8) (get32 b 12) (get32 b 16).

Definition enc_entry (e : config_entry_t) : list Z :=
  bytes32 (ce_key_hash e) ++ bytes16 (ce_key_len e) ++ bytes16 (ce_type e) ++
  bytes32 (ce_offset e) ++ bytes32 (ce_size e).
Definition dec_entry (b : list Z) : config_entry_t :=
  mk_ce (get32 b 0) (get16 b 4) (get16 b 6) (get32 b 8) (get32 b 12).

Fixpoint dec_entries (n : nat) (b : list Z) : list config_entry_t :=
  match n with O => [] | S n => dec_entry b :: dec_entries n (drop 16 b) end.

(** ** The store *)

Section ConfigStore.
Context {H U : Type} `{Arch}.

Record config_store := mk_store {
  sf_file : option (vfs_file_t H U);
  sf_header : config_header_t;
  sf_entries : option (list config_entry_t);
  sf_data : option (list Z);
  sf_dirty : bool
}.

Definition with_header (h : config_header_t) (s : config_store) : config_store :=
  mk_store (sf_file s) h (sf_entries s) (sf_data s) (sf_dirty s).
Definition with_entries (e : option (list config_entry_t)) (s : config_store) : config_store :=
  mk_store (sf_file s) (sf_header s) e (sf_data s) (sf_dirty s).
Definition with_data (d : option (list Z)) (s : config_store) : config_store :=
  mk_store (sf_file s) (sf_header s) (sf_entries s) d (sf_dirty s).
Definition with_dirty (b : bool) (s : config_store) : config_store :=
  mk_store (sf_file s) (sf_header s) (sf_entries s) (sf_data s) b.
Definition set_counts (count data_size : Z) (h : config_header_t) : config_header_t :=
  mk_header (ch_magic h) (ch_version h) (ch_reserved h) count (ch_data_offset h) data_size.

Definition char_val (c : Z) : Z := if c <? 128 then c else c - 256.

Fixpoint hash_loop (key : list Z) (hash : Z) : Z :=
  match key with
  | [] => hash
  | c :: key => hash_loop key (u32 (u32 (u32 (Z.shiftl hash 5) + hash) + char_val c))
  end.
Definition hash_key (key : list Z) : Z := hash_loop key 5381.

Definition header_zero : config_header_t := mk_header 0 0 0 0 0 0.

Definition config_store_open (calloc_ok open_ok : bool) (path : option (list Z))
    (vs : vfs_state H U) (u : U) : option config_store * U :=
  match path with
  | None => (None, u)
  | Some path =>
    if negb calloc_ok then (None, u) else
    let '(ret, f, u) := vfs_open open_ok (Some path) 11 true vs u in
    if ret =? 0 then (Some (mk_store f header_zero None None false), u) else (None, u)
  end.

(** ** Files *)

(** [vfs_read] into an object of [blen old] bytes: what is read replaces its start. *)
Definition read_into (f : option (vfs_file_t H U)) (old : list Z) (u : U)
    : option (Z * list Z * U) :=
  let '(ret, got, u) := vfs_read f (blen old) u in
  b ← wr_bytes old 0 got;
  Some (ret, b, u).

(** [entries_ok], [data_ok], [table_ok]: the allocations. *)
Definition config_store_init (entries_ok data_ok table_ok : bool) (s : config_store) (u : U)
    : option (Z * config_store * U) :=
  match sf_file s with
  | None => Some (-1, s, u)
  | Some f =>
    let '(_, u) := vfs_seek (Some f) 0 0 u in
    '(ret, b, u) ← read_into (Some f) (enc_header (sf_header s)) u;
    let s := with_header (dec_header b) s in
    if negb (ret =? SIZEOF_HEADER) then
      let h := mk_header CONFIG_MAGIC CONFIG_VERSION (ch_reserved (sf_header s)) 0
                 (SIZEOF_HEADER + 1024 * SIZEOF_ENTRY) 0 in
      let s := with_header h s in
      if table_ok then Some (0, with_entries (Some (replicate 1024 entry_zero)) s, u)
      else Some (-1, with_entries None s, u)
    else
    if negb (ch_magic (sf_header s) =? CONFIG_MAGIC) then Some (-1, s, u) else
    let h := sf_header s in
    '(bad, s, u) ←
      (if 0 <? ch_count h then
         if negb entries_ok then Some (true, with_entries None s, u) else
         let n := usz (ch_count h * SIZEOF_ENTRY) in
         let '(_, u) := vfs_seek (Some f) SIZEOF_HEADER 0 u in
         '(ret, b, u) ← read_into (Some f) (zeros n) u;
         if ret =? n
         then Some (false, with_entries (Some (dec_entries (Z.to_nat (ch_count h)) b)) s, u)
         else Some (true, with_entries None s, u)
       else Some (false, s, u));
    if bad : bool then Some (-1, s, u) else
    if 0 <? ch_data_size h then
      if negb data_ok then Some (-1, with_data None s, u) else
      let '(_, u) := vfs_seek (Some f) (ch_data_offset h) 0 u in
      '(ret, b, u) ← read_into (Some f) (zeros (ch_data_size h)) u;
      if ret =? ch_data_size h then Some (0, with_data (Some b) s, u)
      else Some (-1, with_data None s, u)
    else Some (0, s, u)
  end.

Definition config_write_header (s : config_store) (u : U) : option (Z * U) :=
  let f := sf_file s in
  let h := sf_header s in
  let '(_, u) := vfs_seek f 0 0 u in
  let '(written, u) := vfs_write f (enc_header h) SIZEOF_HEADER u in
  if negb (written =? SIZEOF_HEADER) then Some (-1, u) else
  '(bad, u) ←
    (if 0 <? ch_count h then
       let '(_, u) := vfs_seek f SIZEOF_HEADER 0 u in
       let n := usz (ch_count h * SIZEOF_ENTRY) in
       es ← sf_entries s;
       es ← rd_bytes es 0 (ch_count h);
       let '(written, u) := vfs_write f (mjoin (enc_entry <$> es)) n u in
       Some (negb (written =? n), u)
     else Some (false, u));
  if bad : bool then Some (-1, u) else
  '(bad, u) ←
    (if 0 <? ch_data_size h then
       let '(_, u) := vfs_seek f (ch_data_offset h) 0 u in
       d ← sf_data s;
       d ← rd_bytes d 0 (ch_data_size h);
       let '(written, u) := vfs_write f d (ch_data_size h) u in
       Some (negb (written =? ch_data_size h), u)
     else Some (false, u));
  if bad : bool then Some (-1, u) else Some (vfs_sync f u).

Definition config_store_flush (store : option config_store) (u : U)
    : option (Z * option config_store * U) :=
  match store with
  | None => Some (0, None, u)
  | Some s =>
    if negb (sf_dirty s) then Some (0, Some s, u) else
    '(ret, u) ← config_write_header s u;
    Some (ret, Some (if ret =? 0 then with_dirty false s else s), u)
  end.

Definition config_flush (store : option config_store) (u : U)
    : option (Z * option config_store * U) := config_store_flush store u.

Definition config_store_deinit (store : option config_store) (u : U)
    : option (Z * option config_store * U) :=
  match store with
  | None => Some (-1, None, u)
  | Some _ =>
    '(_, store, u) ← config_store_flush store u;
    s ← store;
    let s := with_data None (with_entries None s) in
    Some (0, Some (with_header (set_counts 0 0 (sf_header s)) s), u)
  end.

(** The store is freed. *)
Definition config_store_close (store : option config_store) (u : U) : option U :=
  match store with
  | None => Some u
  | Some s =>
    '(_, _, u) ← config_store_flush store u;
    match sf_file s with Some f => Some (snd (vfs_close (Some f) u)) | None => Some u end
  end.

(** ** Entries *)

Definition config_reserve_data (s : config_store) (size : Z) : Z :=
  if 65536 <? usz (ch_data_size (sf_header s) + size) then -1 else 0.

Fixpoint find_loop (n : nat) (i hash key_len : Z) (es : list config_entry_t) : option (option Z) :=
  match n with
  | O => Some None
  | S n =>
    e ← rd es i;
    if (ce_key_hash e =? hash) && (ce_key_len e =? key_len) then Some (Some i)
    else find_loop n (i + 1) hash key_len es
  end.

Definition config_find_entry (s : config_store) (key : list Z) : option (option Z) :=
  if ch_count (sf_header s) =? 0 then Some None else
  es ← sf_entries s;
  find_loop (Z.to_nat (ch_count (sf_header s))) 0 (hash_key key) (blen key) es.

Definition config_delete (store : option config_store) (key : option (list Z))
    : option (Z * option config_store) :=
  match store, key with
  | Some s, Some key =>
    r ← config_find_entry s key;
    match r with
    | None => Some (-1, Some s)
    | Some i =>
      es ← sf_entries s;
      let count := ch_count (sf_header s) in
      es ← shift_left (Z.to_nat (count - 1 - i)) i es;
      let h := set_counts (count - 1) (ch_data_size (sf_header s)) (sf_header s) in
      Some (0, Some (with_dirty true (with_entries (Some es) (with_header h s))))
    end
  | _, _ => Some (-1, store)
  end.

(** A block resized to [n] bytes; the new ones are written before they are read. *)
Definition resize (d : list Z) (n : Z) : list Z := take (Z.to_nat n) (d ++ zeros n).

(** The common body of the four setters: [bytes] becomes the value of [key], in
    place when it fits, and otherwise, after deleting the entry, at the end of the
    data.  One entry can go per call, so [S count] calls are enough. *)
Fixpoint config_set (fuel : nat) (realloc_ok : bool) (type : Z) (bytes : list Z) (key : list Z)
    (s : config_store) : option (Z * config_store) :=
  match fuel with
  | O => None
  | S fuel =>
    r ← config_find_entry s key;
    match r with
    | Some i =>
      es ← sf_entries s;
      e ← rd es i;
      if blen bytes <=? ce_size e then
        d ← sf_data s;
        d ← wr_bytes d (ce_offset e) bytes;
        es ← wr es i (mk_ce (ce_key_hash e) (ce_key_len e) type (ce_offset e) (u32 (blen bytes)));
        Some (0, with_dirty true (with_data (Some d) (with_entries (Some es) s)))
      else
        '(_, store) ← config_delete (Some s) (Some key);
        s ← store;
        config_set fuel realloc_ok type bytes key s
    | None =>
      let h := sf_header s in
      if 1024 <=? ch_count h then Some (-1, s) else
      if negb (config_reserve_data s (blen bytes) =? 0) then Some (-1, s) else
      es ← sf_entries s;
      es ← wr es (ch_count h)
             (mk_ce (hash_key key) (u16 (blen key)) type (ch_data_size h) (u32 (blen bytes)));
      let s := with_entries (Some es)
                 (with_header (set_counts (u32 (ch_count h + 1)) (ch_data_size h) h) s) in
      if negb realloc_ok then Some (-1, with_data None s) else
      let d := resize (default [] (sf_data s)) (ch_data_size h + blen bytes) in
      d ← wr_bytes d (ch_data_size h) bytes;
      let h := set_counts (ch_count (sf_header s)) (u32 (ch_data_size h + blen bytes))
                 (sf_header s) in
      Some (0, with_dirty true (with_data (Some d) (with_header h s)))
    end
  end.

Definition set_fuel (s : config_store) : nat := S (Z.to_nat (ch_count (sf_header s))).

Definition call_set (realloc_ok : bool) (type : Z) (bytes : list Z)
    (store : option config_store) (key : option (list Z)) : option (Z * option config_store) :=
  match store, key with
  | Some s, Some key =>
    '(r, s) ← config_set (set_fuel s) realloc_ok type bytes key s; Some (r, Some s)
  | _, _ => Some (-1, store)
  end.

Definition config_set_string (ok : bool) (store : option config_store) (key : option (list Z))
    (value : option (list Z)) : option (Z * option config_store) :=
  match value with
  | Some v => call_set ok CONFIG_TYPE_STRING (v ++ [0]) store key
  | None => Some (-1, store)
  end.

Definition config_set_int (ok : bool) (store : option config_store) (key : option (list Z))
    (value : Z) : option (Z * option config_store) :=
  call_set ok CONFIG_TYPE_INT (bytes32 (u32 value)) store key.

Definition config_set_bool (ok : bool) (store : option config_store) (key : option (list Z))
    (value : bool) : option (Z * option config_store) :=
  call_set ok CONFIG_TYPE_BOOL [if value then 1 else 0] store key.

Definition config_set_blob (ok : bool) (store : option config_store) (key : option (list Z))
    (data : option (list Z)) (size : Z) : option (Z * option config_store) :=
  match data with
  | Some d => if size =? 0 then Some (-1, store) else
              b ← rd_bytes d 0 size; call_set ok CONFIG_TYPE_BLOB b store key
  | None => Some (-1, store)
  end.

(** The entry of a key. *)
Definition lookup_entry (store : option config_store) (key : option (list Z))
    : option (option (config_entry_t * config_store)) :=
  match store, key with
  | Some s, Some key =>
    r ← config_find_entry s key;
    match r with
    | None => Some None
    | Some i => es ← sf_entries s; e ← rd es i; Some (Some (e, s))
    end
  | _, _ => Some None
  end.

(** [store->data + entry->offset] *)
Definition entry_data (e : config_entry_t) (s : config_store) : option (list Z) :=
  d ← sf_data s; Some (drop (Z.to_nat (ce_offset e)) d).

Definition config_get_string (store : option config_store) (key : option (list Z))
    (def : option (list Z)) : option (option (list Z)) :=
  r ← lookup_entry store key;
  match r with
  | Some (e, s) => if ce_type e =? CONFIG_TYPE_STRING
                   then d ← entry_data e s; Some (Some (c_str d)) else Some def
  | None => Some def
  end.

Definition config_get_int (store : option config_store) (key : option (list Z)) (def : Z)
    : option Z :=
  r ← lookup_entry store key;
  match r with
  | Some (e, s) => if ce_type e =? CONFIG_TYPE_INT
                   then d ← entry_data e s; b ← rd_bytes d 0 4; Some (to_i32 (get32 b 0)) else Some def
  | None => Some def
  end.

Definition config_get_bool (store : option config_store) (key : option (list Z)) (def : bool)
    : option bool :=
  r ← lookup_entry store key;
  match r with
  | Some (e, s) => if ce_type e =? CONFIG_TYPE_BOOL
                   then d ← entry_data e s; b ← rd d 0; Some (negb (b =? 0)) else Some def
  | None => Some def
  end.

(** The number of bytes copied, and the bytes. *)
Definition config_get_blob (store : option config_store) (key : option (list Z)) (buf : bool)
    (max_size : Z) : option (Z * list Z) :=
  if negb buf || (max_size =? 0) then Some (-1, []) else
  r ← lookup_entry store key;
  match r with
  | Some (e, s) =>
    if ce_type e =? CONFIG_TYPE_BLOB then
      d ← entry_data e s;
      let n := if ce_size e <? max_size then ce_size e else max_size in
      b ← rd_bytes d 0 n; Some (n, b)
    else Some (-1, [])
  | None => Some (-1, [])
  end.

Definition config_exists (store : option config_store) (key : option (list Z)) : option Z :=
  r ← lookup_entry store key; Some (match r with Some _ => 1 | None => 0 end).

(** The keys are not stored: NULLs, one for every entry up to [max_keys]. *)
Definition config_list_keys (s : config_store) (max_keys : Z) : Z * list (option Z) * Z :=
  let n := Z.min (ch_count (sf_header s)) max_keys in
  (0, replicate (Z.to_nat n) None, n).
End ConfigStore.

Arguments config_store : clear implicits.
