(* ===== verification/ConfigThm.v ===== *)
(** * The configuration store as a map

    A store holds a finite map from (hash, length) of keys to types and bytes; the
    setters and [config_delete] update it and the getters read it. *)

From Stdlib Require Import ZArith Lia.
From stdpp Require Import base tactics option numbers fin_maps gmap sorting list.
From S2P Require Import Prelude.
From S2P Require Import CString.
From S2P Require Import Layout.
From S2P Require Import Vfs.
From S2P Require Import Tables.
From S2P Require Import ConfigStore.

Section ConfigThm.
Context {H U : Type} `{HA : Arch}.
Abbreviation store := (config_store H U).
Abbreviation map := (gmap (Z * Z) (Z * list Z)).
Implicit Types (s : store) (e : config_entry_t) (es : list config_entry_t) (d : list Z) (m : map)
  (key bytes : list Z) (k : Z * Z).

Definition key_of key : Z * Z := (hash_key key, blen key).
Definition ekey e : Z * Z := (ce_key_hash e, ce_key_len e).
Definition slice d e : list Z := take (Z.to_nat (ce_size e)) (drop (Z.to_nat (ce_offset e)) d).
Definition item d e : (Z * Z) * (Z * list Z) := (ekey e, (ce_type e, slice d e)).

Definition count s : Z := ch_count (sf_header s).
Definition used s : Z := ch_data_size (sf_header s).
Definition entries s : list config_entry_t :=
  take (Z.to_nat (count s)) (default [] (sf_entries s)).
Definition data s : list Z := default [] (sf_data s).
Definition kv s : map := list_to_map (item (data s) <$> entries s).

(** ** Well-formed stores *)

(** The bytes a value of each type has. *)
Definition value_ok (v : Z * list Z) : Prop :=
  is_u16 v.1 ∧ (v.1 = CONFIG_TYPE_INT → length v.2 = 4%nat) ∧ (v.1 = CONFIG_TYPE_BOOL → length v.2 = 1%nat) ∧
  (v.1 = CONFIG_TYPE_STRING → ∃ t, v.2 = t ++ [0]).

Definition ent_ok n d e : Prop :=
  0 <= ce_offset e ∧ 0 < ce_size e ∧ ce_offset e + ce_size e <= n ∧ value_ok (ce_type e, slice d e) ∧
  is_u32 (ekey e).1 ∧ is_u16 (ekey e).2.

Definition apart e1 e2 : Prop :=
  ce_offset e1 + ce_size e1 <= ce_offset e2 ∨ ce_offset e2 + ce_size e2 <= ce_offset e1.

Fixpoint disjoint es : Prop :=
  match es with [] => True | e :: es => Forall (apart e) es ∧ disjoint es end.

(** The constant fields of the header. *)
Definition hdr_ok (h : config_header_t) : Prop :=
  ch_magic h = CONFIG_MAGIC ∧ is_u16 (ch_version h) ∧ is_u16 (ch_reserved h) ∧
  ch_data_offset h = SIZEOF_HEADER + 1024 * SIZEOF_ENTRY.

Record st_ok s : Prop := mk_st_ok {
  so_entries : ∃ es, sf_entries s = Some es ∧ length es = 1024%nat;
  so_count : 0 <= count s <= 1024;
  so_used : blen (data s) = used s ∧ used s <= 65536 ∧ (sf_data s = None → used s = 0);
  so_keys : NoDup (ekey <$> entries s);
  so_each : Forall (ent_ok (used s) (data s)) (entries s);
  so_disjoint : disjoint (entries s);
  so_header : hdr_ok (sf_header s)
}.

Lemma disjoint_app a b :
  disjoint (a ++ b) ↔ disjoint a ∧ disjoint b ∧ ∀ x y, x ∈ a → y ∈ b → apart x y.
Proof.
  induction a as [|x a IH]; cbn.
  - split; [|tauto]. intros Hb. split_and!; [done|done|]. by intros ? ? ?%not_elem_of_nil.
  - rewrite Forall_app, IH, !Forall_forall. split.
    + intros ((Ha & Hb) & Hda & Hdb & Hab). split_and!; try done.
      intros x' y [->|Hx']%elem_of_cons Hy; [by apply Hb|by apply Hab].
    + intros ((Ha & Hda) & Hdb & Hab). split_and!; try done.
      * intros y Hy. apply Hab; [by left|done].
      * intros x' y Hx' Hy. apply Hab; [by right|done].
Qed.

Lemma apart_sym e1 e2 : apart e1 e2 → apart e2 e1.
Proof. unfold apart. tauto. Qed.

Lemma entries_eq s es : sf_entries s = Some es → entries s = take (Z.to_nat (count s)) es.
Proof. intros E. unfold entries. by rewrite E. Qed.

Lemma entries_length s : st_ok s → length (entries s) = Z.to_nat (count s).
Proof.
  intros [(es & E & Hl) Hc _ _ _ _ _]. rewrite (entries_eq s es E), length_take. lia.
Qed.

Lemma item_keys d es : (item d <$> es).*1 = ekey <$> es.
Proof. by rewrite <- list_fmap_compose. Qed.

(** ** Finding *)

Lemma entry_find_spec n i k es :
  (i + n <= length es)%nat →
  ∃ r, find_loop n (Z.of_nat i) k.1 k.2 es = Some r ∧
  match r with
  | Some j => ∃ j', j = Z.of_nat j' ∧ (i <= j' < i + n)%nat ∧ ∃ e, es !! j' = Some e ∧ ekey e = k
  | None => k ∉ ekey <$> take n (drop i es)
  end.
Proof.
  revert i. induction n as [|n IH]; intros i Hn; cbn [find_loop].
  - exists None. split; [done|]. by intros ?%not_elem_of_nil.
  - destruct (lookup_lt_is_Some_2 es i) as [e He]; [lia|]. rewrite rd_nat, He.
    cbn [mbind option_bind].
    destruct ((ce_key_hash e =? k.1) && (ce_key_len e =? k.2)) eqn:E.
    + exists (Some (Z.of_nat i)). split; [done|]. exists i. split; [done|]. split; [lia|].
      exists e. split; [done|]. bool_hyps. unfold ekey. destruct k; cbn in *. congruence.
    + replace (Z.of_nat i + 1) with (Z.of_nat (S i)) by lia.
      destruct (IH (S i)) as (r & -> & Hr); [lia|]. exists r. split; [done|]. destruct r as [j|].
      * destruct Hr as (j' & -> & Hj & Hr). exists j'. split; [done|]. split; [lia|done].
      * rewrite (drop_S _ _ _ He). cbn [take fmap list_fmap]. rewrite not_elem_of_cons.
        split; [|done]. intros ->. cbn in E. rewrite !Z.eqb_refl in E. done.
Qed.

Lemma config_find_spec key s :
  st_ok s →
  (∃ a e b, entries s = a ++ e :: b ∧ ekey e = key_of key ∧
     config_find_entry s key = Some (Some (blen a))) ∨
  ((key_of key ∉ ekey <$> entries s) ∧ config_find_entry s key = Some None).
Proof.
  intros Hok. pose proof Hok as [(es & Ee & Hl) Hc _ _ _ _ _]. unfold config_find_entry.
  fold (count s). rewrite Ee. cbn [mbind option_bind]. rewrite (entries_eq s es Ee).
  destruct (count s =? 0) eqn:E0; bool_hyps.
  { right. rewrite E0. cbn. split; [by intros ?%not_elem_of_nil|done]. }
  destruct (entry_find_spec (Z.to_nat (count s)) 0 (key_of key) es) as (r & Er & Hr); [lia|].
  cbn [key_of fst snd] in Er. change (Z.of_nat 0) with 0 in Er. rewrite Er. destruct r as [j|].
  - left. destruct Hr as (j' & -> & Hj & e & He & Ek).
    assert (take (Z.to_nat (count s)) es !! j' = Some e) as Ht by (by rewrite lookup_take_lt by lia).
    exists (take j' (take (Z.to_nat (count s)) es)), e, (drop (S j') (take (Z.to_nat (count s)) es)).
    split; [by rewrite take_drop_middle|]. split; [done|]. do 2 f_equal.
    unfold blen. rewrite !length_take. lia.
  - right. by rewrite drop_0 in Hr.
Qed.

Lemma kv_some a e b s :
  st_ok s → entries s = a ++ e :: b →
  kv s = <[ekey e := (ce_type e, slice (data s) e)]>
           (list_to_map (item (data s) <$> (a ++ b))) ∧
  kv s !! ekey e = Some (ce_type e, slice (data s) e).
Proof.
  intros [_ _ _ Hn _ _ _] E. unfold kv. rewrite E in *. rewrite !fmap_app, fmap_cons in *.
  change (item (data s) e) with (ekey e, (ce_type e, slice (data s) e)).
  rewrite (list_to_map_mid (item (data s) <$> a) (ekey e)).
  - by rewrite lookup_insert_eq.
  - rewrite fmap_app, fmap_cons, !item_keys. exact Hn.
Qed.

Lemma kv_none k s : st_ok s → k ∉ ekey <$> entries s → kv s !! k = None.
Proof.
  intros _ Hk. unfold kv. apply not_elem_of_list_to_map_1. by rewrite item_keys.
Qed.

Lemma ent_slice n d e : ent_ok n d e → blen d = n → blen (slice d e) = ce_size e.
Proof.
  intros (H0 & H1 & H2 & _) Hn. unfold slice, blen in *. rewrite length_take, length_drop. lia.
Qed.

Lemma entry_mid s a e b :
  st_ok s → entries s = a ++ e :: b →
  ∃ es r, sf_entries s = Some es ∧ es = a ++ e :: b ++ r ∧
    count s = blen a + 1 + blen b ∧ ent_ok (used s) (data s) e.
Proof.
  intros Hok E. pose proof (entries_length s Hok) as Hlen.
  pose proof Hok as [(es & Ee & Hl) Hc _ _ He _ _].
  exists es, (drop (Z.to_nat (count s)) es). split; [done|].
  rewrite (entries_eq s es Ee) in E. split.
  - rewrite <- (take_drop (Z.to_nat (count s)) es) at 1. rewrite E. by rewrite <- app_assoc.
  - rewrite (entries_eq s es Ee) in *. rewrite E in *. split.
    + rewrite length_app in Hlen. cbn in Hlen. unfold blen. lia.
    + by apply Forall_app in He as [_ [? _]%Forall_cons].
Qed.

(** ** Values *)

Lemma slice_rd d e :
  0 <= ce_offset e → 0 <= ce_size e → ce_offset e + ce_size e <= blen d →
  rd_bytes d (ce_offset e) (ce_size e) = Some (slice d e).
Proof. intros. by rewrite rd_bytes_ok. Qed.

Lemma slice_wr_other d d' off bytes e :
  wr_bytes d off bytes = Some d' → 0 <= ce_offset e → 0 <= ce_size e →
  ce_offset e + ce_size e <= blen d →
  ce_offset e + ce_size e <= off ∨ off + blen bytes <= ce_offset e →
  slice d' e = slice d e.
Proof.
  intros Hw Ha Hb Hc Hd. pose proof (rd_wr_disjoint _ _ _ _ _ _ Hw Hd) as E.
  rewrite !slice_rd in E; try done.
  - by injection E.
  - unfold blen in *. by rewrite (wr_bytes_length _ _ _ _ Hw).
Qed.

Lemma slice_wr_same d d' off bytes e :
  wr_bytes d off bytes = Some d' → ce_offset e = off → ce_size e = blen bytes →
  slice d' e = bytes.
Proof.
  intros Hw Ho Hs. unfold slice. rewrite Ho, Hs. unfold wr_bytes in Hw.
  destruct (0 <=? off) eqn:E0; [|done]. destruct (off + blen bytes <=? blen d) eqn:E1; [|done].
  cbn in Hw. injection Hw as <-. bool_hyps. pose proof (blen_nonneg bytes).
  rewrite drop_app_length' by (rewrite length_take; unfold blen in *; lia).
  apply take_app_length'. unfold blen. lia.
Qed.

Lemma ent_ok_slice n d n' d' e :
  ent_ok n d e → n <= n' → slice d' e = slice d e → ent_ok n' d' e.
Proof.
  unfold ent_ok. intros (H0 & H1 & H2 & Hv) Hn ->. split; [exact H0|]. split; [exact H1|].
  split; [lia|exact Hv].
Qed.

Lemma hash_u32 key : is_u32 (hash_key key).
Proof.
  unfold hash_key. assert (is_u32 5381) as H5 by vm_decide. revert H5. generalize 5381.
  induction key as [|c key IH]; intros h Hh; [done|]. cbn [hash_loop]. apply IH.
  apply wrap_in_w. lia.
Qed.

(** ** Deleting *)

Lemma config_delete_spec key s :
  st_ok s →
  (kv s !! key_of key = None ∧ config_delete (Some s) (Some key) = Some (-1, Some s)) ∨
  (is_Some (kv s !! key_of key) ∧
   ∃ s', config_delete (Some s) (Some key) = Some (0, Some s') ∧ st_ok s' ∧
     kv s' = delete (key_of key) (kv s) ∧ used s' = used s ∧ count s' = count s - 1 ∧
     sf_file s' = sf_file s ∧ (key_of key ∉ ekey <$> entries s')).
Proof.
  intros Hok. unfold config_delete.
  destruct (config_find_spec key s Hok) as [(a & e & b & E & Ek & ->)|[Hn ->]];
    cbn [mbind option_bind].
  2: { left. split; [by apply kv_none|done]. }
  right. destruct (kv_some a e b s Hok E) as [_ Hs]. rewrite Ek in Hs. split; [by eexists|].
  destruct (entry_mid s a e b Hok E) as (es & r & Ee & -> & Hc & He).
  rewrite Ee. cbn [mbind option_bind]. fold (count s).
  replace (Z.to_nat (count s - 1 - blen a)) with (length b) by (unfold blen in *; lia).
  destruct (shift_left_spec a b r e) as (z & Hz & ->). cbn [mbind option_bind].
  eexists. split; [done|].
  match goal with |- st_ok ?x ∧ _ => set (s' := x) end.
  assert (entries s' = a ++ b) as E'.
  { unfold entries. change (count s') with (count s - 1).
    change (default [] (sf_entries s')) with (a ++ b ++ z :: r). rewrite app_assoc. apply take_app_length'. rewrite length_app. unfold blen in Hc. lia. }
  pose proof Hok as [(es' & Ee' & Hl') Hcnt Hused Hk Hea Hd Hh]. rewrite E in *.
  rewrite Ee in Ee'. injection Ee' as <-.
  assert (st_ok s') as Hok'.
  { split; rewrite ?E'.
    - exists (a ++ b ++ z :: r). split; [done|]. rewrite !length_app in *. cbn [length] in *.
      rewrite length_app in *. lia.
    - change (count s') with (count s - 1). unfold blen in *. lia.
    - exact Hused.
    - rewrite fmap_app, fmap_cons in Hk. rewrite fmap_app.
      apply NoDup_app in Hk as (Ha & Hab & [_ Hb]%NoDup_cons). apply NoDup_app.
      split_and!; try done. intros x Hx Hxb. apply (Hab x Hx). by right.
    - apply Forall_app in Hea as [Ha [_ Hb]%Forall_cons]. by apply Forall_app.
    - apply disjoint_app in Hd as (Ha & [_ Hb] & Hab). apply disjoint_app.
      split_and!; try done. intros x y Hx Hy. apply Hab; [done|by right].
    - exact Hh. }
  split; [done|]. split; [|split; [done|split; [done|split; [done|]]]].
  - unfold kv. rewrite E', E, <- Ek. rewrite fmap_app, fmap_app, fmap_cons.
    change (data s') with (data s).
    apply list_to_map_remove. rewrite fmap_app, fmap_cons, !item_keys.
    rewrite fmap_app, fmap_cons in Hk. exact Hk.
  - rewrite E', <- Ek. rewrite fmap_app, fmap_cons in Hk. rewrite fmap_app, not_elem_of_app.
    apply NoDup_app in Hk as (_ & Hab & [Hb _]%NoDup_cons). split; [|done].
    intros Hx. apply (Hab _ Hx). by left.
Qed.

(** ** Setting *)

(** The value fits the entry: it is overwritten in place. *)
Lemma set_in_place fuel ok type bytes key s a e b :
  st_ok s → entries s = a ++ e :: b → ekey e = key_of key →
  config_find_entry s key = Some (Some (blen a)) →
  0 < blen bytes → blen bytes <= ce_size e → value_ok (type, bytes) →
  ∃ s', config_set (S fuel) ok type bytes key s = Some (0, s') ∧ st_ok s' ∧
    kv s' = <[key_of key := (type, bytes)]> (kv s) ∧ used s' = used s.
Proof.
  intros Hok E Ek Ef Hpos Hfit Hv. cbn [config_set]. rewrite Ef. cbn [mbind option_bind].
  destruct (entry_mid s a e b Hok E) as (es & r & Ee & -> & Hc & He).
  rewrite Ee. cbn [mbind option_bind]. rewrite rd_app_l. cbn [mbind option_bind]. zbool.
  pose proof Hok as [(es' & Ee' & Hl') Hcnt (Hud & Hu64 & Hnone) Hk Hea Hd Hh]. rewrite E in *.
  rewrite Ee in Ee'. injection Ee' as <-.
  pose proof He as (Ho & Hsz & Hin & _).
  destruct (sf_data s) as [d|] eqn:Ed; [|specialize (Hnone eq_refl); lia].
  assert (data s = d) as Edd by (unfold data; by rewrite Ed). rewrite Edd in *.
  cbn [mbind option_bind].
  destruct (wr_bytes d (ce_offset e) bytes) as [d'|] eqn:Ew.
  2: { rewrite wr_bytes_ok in Ew by lia. done. }
  cbn [mbind option_bind]. rewrite wr_app_l. cbn [mbind option_bind].
  rewrite wrap_id by (unfold in_w; lia).
  set (e' := mk_ce (ce_key_hash e) (ce_key_len e) type (ce_offset e) (blen bytes)).
  eexists. split; [done|].
  match goal with |- st_ok ?x ∧ _ => set (s' := x) end.
  assert (entries s' = a ++ e' :: b) as E'.
  { unfold entries. change (count s') with (count s).
    change (default [] (sf_entries s')) with (a ++ e' :: b ++ r). rewrite app_comm_cons, app_assoc.
    apply take_app_length'. rewrite length_app. cbn [length]. unfold blen in Hc. lia. }
  pose proof (wr_bytes_length _ _ _ _ Ew) as Hlen.
  apply Forall_app in Hea as [Hea [_ Heb]%Forall_cons].
  apply disjoint_app in Hd as (Hda & [Heb' Hdb] & Hab).
  assert (∀ x, ent_ok (used s) d x → apart e x → slice d' x = slice d x) as Hother.
  { intros x (Hx0 & Hx1 & Hx2 & _) Hap. eapply slice_wr_other; [exact Ew|lia|lia|lia|].
    unfold apart in Hap. lia. }
  assert (∀ x, x ∈ a → slice d' x = slice d x) as Hsa.
  { intros x Hx. rewrite Forall_forall in Hea. apply Hother; [by apply Hea|].
    apply apart_sym, Hab; [done|by left]. }
  assert (∀ x, x ∈ b → slice d' x = slice d x) as Hsb.
  { intros x Hx. rewrite Forall_forall in Heb, Heb'. apply Hother; [by apply Heb|by apply Heb']. }
  assert (∀ x, apart e x → apart e' x) as Hap by (intros x; unfold apart; cbn; lia).
  split; [|split; [|done]].
  - split; rewrite ?E'; change (data s') with d'; change (used s') with (used s).
    + eexists. split; [done|]. rewrite !length_app in *. cbn [length] in *. lia.
    + exact Hcnt.
    + unfold blen in *. rewrite Hlen. split; [done|]. split; [done|]. by intros ?.
    + rewrite fmap_app, fmap_cons in *. exact Hk.
    + apply Forall_app. split; [|constructor].
      * rewrite Forall_forall in *. intros x Hx. eapply ent_ok_slice; [by apply Hea|lia|by apply Hsa].
      * unfold ent_ok. rewrite (slice_wr_same d d' (ce_offset e) bytes e' Ew) by done.
        cbn [ce_offset ce_size ce_type e']. split; [done|]. split; [done|]. split; [lia|].
        split; [done|]. apply He.
      * rewrite Forall_forall in *. intros x Hx. eapply ent_ok_slice; [by apply Heb|lia|by apply Hsb].
    + apply disjoint_app. split; [done|]. split; [split; [|done]|].
      * eapply Forall_impl; [exact Heb'|exact Hap].
      * intros x y Hx [->|Hy]%elem_of_cons; [|by apply Hab; [|right]].
        apply apart_sym, Hap, apart_sym, Hab; [done|by left].
    + exact Hh.
  - unfold kv. rewrite E', E. change (data s') with d'. rewrite Edd, !fmap_app, !fmap_cons.
    assert (item d' <$> a = item d <$> a) as ->.
    { apply list_fmap_ext. intros i x Hx. unfold item.
      rewrite Hsa; [done|]. by eapply list_elem_of_lookup_2. }
    assert (item d' <$> b = item d <$> b) as ->.
    { apply list_fmap_ext. intros i x Hx. unfold item.
      rewrite Hsb; [done|]. by eapply list_elem_of_lookup_2. }
    assert (item d' e' = (key_of key, (type, bytes))) as ->.
    { unfold item. rewrite (slice_wr_same d d' (ce_offset e) bytes e' Ew) by done. by rewrite <- Ek. }
    change (item d e) with (ekey e, (ce_type e, slice d e)). rewrite Ek.
    apply list_to_map_replace. rewrite fmap_app, fmap_cons, !item_keys. cbn [fst].
    rewrite fmap_app, fmap_cons, Ek in Hk. exact Hk.
Qed.

Lemma kv_size s : st_ok s → Z.of_nat (size (kv s)) = count s.
Proof.
  intros Hok. unfold kv. rewrite map_size_list_to_map.
  - rewrite length_fmap, entries_length by done. pose proof (so_count s Hok). lia.
  - rewrite item_keys. apply Hok.
Qed.

Definition full s bytes : Prop := 1024 <= count s ∨ 65536 < used s + blen bytes.

#[local] Instance full_dec s bytes : Decision (full s bytes).
Proof. unfold full. apply _. Defined.

Lemma set_full fuel ok type bytes key s :
  st_ok s → config_find_entry s key = Some None → blen bytes < 2 ^ 31 → full s bytes →
  config_set (S fuel) ok type bytes key s = Some (-1, s).
Proof.
  intros Hok Ef Hb Hf. cbn [config_set]. rewrite Ef. cbn [mbind option_bind].
  fold (count s). destruct (1024 <=? count s) eqn:E; [done|]. bool_hyps.
  destruct Hf as [?|Hf]; [lia|]. unfold config_reserve_data. fold (used s).
  pose proof (so_used s Hok). pose proof (blen_nonneg (data s)). pose proof (blen_nonneg bytes).
  rewrite usz_id by lia. rewrite (proj2 (Z.ltb_lt _ _)) by lia. done.
Qed.

(** A new entry at the end of the data. *)
Lemma set_append fuel (type : Z) bytes key s :
  st_ok s → config_find_entry s key = Some None → key_of key ∉ ekey <$> entries s →
  0 < blen bytes < 2 ^ 31 → blen key < 2 ^ 16 → value_ok (type, bytes) → ¬ full s bytes →
  ∃ s', config_set (S fuel) true type bytes key s = Some (0, s') ∧ st_ok s' ∧
    kv s' = <[key_of key := (type, bytes)]> (kv s) ∧ used s' = used s + blen bytes.
Proof.
  intros Hok Ef Hk Hb Hkey Hv Hf. cbn [config_set]. rewrite Ef. cbn [mbind option_bind].
  pose proof (entries_length s Hok) as Hlen.
  pose proof Hok as [(es & Ee & Hl) Hc (Hud & Hu64 & Hnone) Hnd Hea Hd Hh].
  pose proof (blen_nonneg (data s)) as Hd0. pose proof (blen_nonneg key) as Hk0.
  unfold full in Hf. fold (count s). fold (used s). rewrite (proj2 (Z.leb_gt 1024 _)) by lia.
  unfold config_reserve_data. fold (used s). rewrite usz_id by lia.
  rewrite (proj2 (Z.ltb_ge 65536 _)) by lia. cbn [Z.eqb negb]. rewrite Ee. cbn [mbind option_bind].
  rewrite wr_lookup by lia. cbn [mbind option_bind]. fold (data s).
  set (e := mk_ce (hash_key key) (u16 (blen key)) type (used s) (u32 (blen bytes))).
  assert (sf_data (with_entries (Some (<[Z.to_nat (count s) := e]> es))
    (with_header (set_counts (u32 (count s + 1)) (used s) (sf_header s)) s)) = sf_data s) as -> by done.
  fold (data s).
  assert (resize (data s) (used s + blen bytes) = data s ++ zeros (blen bytes)) as ->.
  { unfold resize, zeros. rewrite <- Hud. unfold blen in *. rewrite take_app_ge by lia. f_equal.
    rewrite take_replicate. f_equal. lia. }
  assert (wr_bytes (data s ++ zeros (blen bytes)) (used s) bytes = Some (data s ++ bytes)) as ->.
  { rewrite <- Hud. pose proof (wr_bytes_app (data s) (zeros (blen bytes)) bytes []) as E.
    rewrite !app_nil_r in E. apply E. unfold zeros, blen. rewrite length_replicate. lia. }
  cbn [mbind option_bind]. rewrite (wrap_id 32 (used s + blen bytes)) by (unfold in_w; lia).
  eexists. split; [done|].
  match goal with |- st_ok ?x ∧ _ => set (s' := x) end.
  assert (count s' = count s + 1) as Ec'.
  { change (count s') with (u32 (count s + 1)). apply wrap_id. unfold in_w. lia. }
  assert (entries s' = entries s ++ [e]) as E'.
  { unfold entries at 1. rewrite Ec'.
    change (default [] (sf_entries s')) with (<[Z.to_nat (count s) := e]> es).
    replace (Z.to_nat (count s + 1)) with (S (Z.to_nat (count s))) by lia.
    rewrite take_insert_snoc by lia. by rewrite (entries_eq s es Ee). }
  change (used s') with (used s + blen bytes).
  assert (∀ x, x ∈ entries s → slice (data s ++ bytes) x = slice (data s) x) as Hs.
  { intros x Hx. rewrite Forall_forall in Hea. destruct (Hea x Hx) as (? & ? & ? & _).
    unfold slice, blen in *. rewrite drop_app_le by lia. by rewrite take_app_le by (rewrite length_drop; lia). }
  assert (ekey e = key_of key) as Ek.
  { unfold ekey, key_of, e. cbn. by rewrite wrap_id by (unfold in_w; lia). }
  assert (slice (data s ++ bytes) e = bytes) as Hse.
  { unfold slice, e. cbn [ce_size ce_offset]. rewrite wrap_id by (unfold in_w; lia).
    rewrite <- Hud. unfold blen. rewrite !Nat2Z.id, drop_app_length. by apply take_ge. }
  split; [|split; [|done]].
  - split; rewrite ?E'; change (used s') with (used s + blen bytes);
      change (data s') with (data s ++ bytes).
    + eexists. split; [done|]. by rewrite length_insert.
    + lia.
    + rewrite blen_app. split; [lia|]. split; [lia|]. by intros ?.
    + rewrite fmap_app. apply NoDup_app. split; [done|]. split.
      * intros x Hx Hx'. apply list_elem_of_singleton in Hx' as ->. rewrite Ek in Hx. done.
      * apply NoDup_singleton.
    + apply Forall_app. split.
      * rewrite Forall_forall in *. intros x Hx. eapply ent_ok_slice; [by apply Hea|lia|by apply Hs].
      * constructor; [|done]. unfold ent_ok. rewrite Hse. cbn [ce_offset ce_size ce_type e].
        rewrite wrap_id by (unfold in_w; lia). split; [lia|]. split; [lia|]. split; [lia|].
        split; [done|]. rewrite Ek. split; [apply hash_u32|]. cbn. unfold in_w. lia.
    + apply disjoint_app. split; [done|]. split; [done|].
      intros x y Hx Hy. apply list_elem_of_singleton in Hy as ->.
      rewrite Forall_forall in Hea. destruct (Hea x Hx) as (? & ? & ? & _). left. cbn. lia.
    + exact Hh.
  - unfold kv. rewrite E', fmap_app. change (data s') with (data s ++ bytes). cbn [fmap list_fmap].
    assert (item (data s ++ bytes) <$> entries s = item (data s) <$> entries s) as ->.
    { apply list_fmap_ext. intros i x Hx. unfold item.
      rewrite Hs; [done|]. by eapply list_elem_of_lookup_2. }
    unfold item at 2. rewrite Hse, Ek. apply list_to_map_snoc. by rewrite item_keys.
Qed.

(** ** The setters on the abstract state: the map and the bytes used *)

Definition spec_add (type : Z) bytes k (v : map * Z) : Z * (map * Z) :=
  if decide (1024 <= Z.of_nat (size v.1) ∨ 65536 < v.2 + blen bytes) then (-1, v)
  else (0, (<[k := (type, bytes)]> v.1, v.2 + blen bytes)).

Definition spec_set (type : Z) bytes k (v : map * Z) : Z * (map * Z) :=
  match v.1 !! k with
  | Some (_, old) =>
    if decide (blen bytes <= blen old) then (0, (<[k := (type, bytes)]> v.1, v.2))
    else spec_add type bytes k (delete k v.1, v.2)
  | None => spec_add type bytes k v
  end.

Definition abs s : map * Z := (kv s, used s).

(** A call ends as the map says, or, when [realloc] fails ([ok] is false) and the value needs a
    place of its own, with -1 and a store that has lost its data. *)
Definition ends (ok : bool) s (spec : Z * (map * Z)) (r : Z) s' : Prop :=
  st_ok s' ∧ spec = (r, abs s') ∨ ok = false ∧ r = -1 ∧ sf_data s' = None ∧ spec.1 = 0 ∧ used s < spec.2.2.

Lemma set_append_fails fuel (type : Z) bytes key s :
  st_ok s → config_find_entry s key = Some None → blen bytes < 2 ^ 31 → ¬ full s bytes →
  ∃ s', config_set (S fuel) false type bytes key s = Some (-1, s') ∧ sf_data s' = None.
Proof.
  intros Hok Ef Hb Hf. cbn [config_set]. rewrite Ef. cbn [mbind option_bind].
  pose proof Hok as [(es & Ee & Hl) Hc (Hud & Hu64 & _) _ _ _ _].
  pose proof (blen_nonneg (data s)) as Hd0. pose proof (blen_nonneg bytes).
  unfold full in Hf. fold (count s). fold (used s). rewrite (proj2 (Z.leb_gt 1024 _)) by lia.
  unfold config_reserve_data. fold (used s). rewrite usz_id by lia.
  rewrite (proj2 (Z.ltb_ge 65536 _)) by lia. cbn [Z.eqb negb]. rewrite Ee. cbn [mbind option_bind].
  rewrite wr_lookup by lia. cbn [mbind option_bind negb]. by eexists.
Qed.

Lemma set_new fuel ok (type : Z) bytes key s :
  st_ok s → config_find_entry s key = Some None → key_of key ∉ ekey <$> entries s →
  0 < blen bytes < 2 ^ 31 → blen key < 2 ^ 16 → value_ok (type, bytes) →
  ∃ r s', config_set (S fuel) ok type bytes key s = Some (r, s') ∧
    ends ok s (spec_add type bytes (key_of key) (abs s)) r s'.
Proof.
  intros Hok Ef Hk Hb Hkey Hv. unfold ends, spec_add, abs. cbn [fst snd]. rewrite kv_size by done.
  destruct (decide (full s bytes)) as [Hf|Hf].
  - exists (-1), s. rewrite set_full by (done || lia). rewrite decide_True by done. by split; [|left].
  - rewrite decide_False by done. destruct ok.
    + destruct (set_append fuel type bytes key s) as (s' & -> & Hok' & Ekv & Eu); try done.
      exists 0, s'. split; [done|left]. by rewrite Ekv, Eu.
    + destruct (set_append_fails fuel type bytes key s) as (s' & -> & Hs'); try (done || lia).
      exists (-1), s'. split; [done|right]. cbn [fst snd]. split_and!; done || lia.
Qed.

Lemma config_set_spec ok (type : Z) bytes key s :
  st_ok s → 0 < blen bytes < 2 ^ 31 → blen key < 2 ^ 16 → value_ok (type, bytes) →
  ∃ r s', config_set (set_fuel s) ok type bytes key s = Some (r, s') ∧
    ends ok s (spec_set type bytes (key_of key) (abs s)) r s'.
Proof.
  intros Hok Hb Hkey Hv. unfold set_fuel. fold (count s). unfold spec_set. cbn [abs fst].
  destruct (config_find_spec key s Hok) as [(a & e & b & E & Ek & Ef)|[Hn Ef]].
  2: { rewrite (kv_none _ s Hok Hn). by apply set_new. }
  destruct (kv_some a e b s Hok E) as [_ Hs]. rewrite Ek in Hs. rewrite Hs.
  destruct (entry_mid s a e b Hok E) as (es & r & Ee & Eq & Hc & He).
  rewrite (ent_slice (used s)); [|done|apply Hok].
  destruct (decide (blen bytes <= ce_size e)) as [Hfit|Hfit].
  - destruct (set_in_place (Z.to_nat (count s)) ok type bytes key s a e b) as
      (s' & -> & Hok' & Ekv & Eu); try (done || lia).
    exists 0, s'. split; [done|left]. unfold abs. by rewrite Ekv, Eu.
  - assert (∃ n, Z.to_nat (count s) = S n) as [n ->].
    { exists (Z.to_nat (count s - 1)). pose proof (blen_nonneg a). pose proof (blen_nonneg b). lia. }
    destruct (config_delete_spec key s Hok) as
      [[Hno _]|(_ & s1 & Ed & Hok1 & Ekv1 & Eu1 & Ec1 & _ & Hn1)]; [congruence|].
    assert (config_set (S (S n)) ok type bytes key s = config_set (S n) ok type bytes key s1)
      as ->.
    { cbn [config_set]. rewrite Ef. cbn [mbind option_bind]. rewrite Ee. cbn [mbind option_bind].
      rewrite Eq, rd_app_l. cbn [mbind option_bind]. rewrite (proj2 (Z.leb_gt _ _)) by lia.
      rewrite Ed. done. }
    destruct (config_find_spec key s1 Hok1) as [(a1 & e1 & b1 & E1 & Ek1 & _)|[_ Ef1]].
    { exfalso. apply Hn1. rewrite E1, fmap_app, fmap_cons, <- Ek1. set_solver. }
    destruct (set_new n ok type bytes key s1) as (r' & s' & -> & Hend); try done.
    exists r', s'. split; [done|]. revert Hend. unfold ends, abs. by rewrite Ekv1, Eu1.
Qed.

(** ** The getters *)

Definition looks_up s : Prop :=
  ∀ key,
  (∃ e, lookup_entry (Some s) (Some key) = Some (Some (e, s)) ∧ ent_ok (used s) (data s) e ∧
        sf_data s = Some (data s) ∧ kv s !! key_of key = Some (ce_type e, slice (data s) e)) ∨
  (lookup_entry (Some s) (Some key) = Some None ∧ kv s !! key_of key = None).

Lemma lookup_entry_spec s : st_ok s → looks_up s.
Proof.
  intros Hok key. unfold lookup_entry.
  destruct (config_find_spec key s Hok) as [(a & e & b & E & Ek & ->)|[Hn ->]];
    cbn [mbind option_bind].
  - left. destruct (entry_mid s a e b Hok E) as (es & r & Ee & -> & Hc & He).
    rewrite Ee. cbn [mbind option_bind]. rewrite rd_app_l. cbn [mbind option_bind].
    exists e. split; [done|]. split; [done|]. split.
    + destruct He as (? & ? & ? & _). pose proof (so_used s Hok) as (_ & _ & Hnone).
      unfold data. destruct (sf_data s); [done|]. specialize (Hnone eq_refl). lia.
    + rewrite <- Ek. by apply (kv_some a e b s).
  - right. split; [done|]. by apply kv_none.
Qed.

Lemma entry_data_slice e s :
  sf_data s = Some (data s) → ent_ok (used s) (data s) e → blen (data s) = used s →
  ∃ r, entry_data e s = Some (slice (data s) e ++ r).
Proof.
  intros Ed (H0 & H1 & H2 & _) Hl. unfold entry_data. rewrite Ed. cbn [mbind option_bind].
  exists (drop (Z.to_nat (ce_size e)) (drop (Z.to_nat (ce_offset e)) (data s))).
  f_equal. symmetry. apply take_drop.
Qed.

Definition spec_get_string k (def : option (list Z)) (m : map) : option (list Z) :=
  match m !! k with
  | Some (t, b) => if t =? CONFIG_TYPE_STRING then Some (c_str b) else def | None => def
  end.
Definition spec_get_int k (def : Z) (m : map) : Z :=
  match m !! k with
  | Some (t, b) => if t =? CONFIG_TYPE_INT then to_i32 (get32 b 0) else def | None => def
  end.
Definition spec_get_bool k (def : bool) (m : map) : bool :=
  match m !! k with
  | Some (t, b) => if t =? CONFIG_TYPE_BOOL then negb (b !!! 0%nat =? 0) else def | None => def
  end.
Definition spec_get_blob k (max : Z) (m : map) : Z * list Z :=
  match m !! k with
  | Some (t, b) => if t =? CONFIG_TYPE_BLOB
                   then (Z.min (blen b) max, take (Z.to_nat max) b) else (-1, [])
  | None => (-1, [])
  end.

(** The getters read the map. *)
Definition reads s : Prop :=
  ∀ key, (∀ def, config_get_string (Some s) (Some key) def =
                 Some (spec_get_string (key_of key) def (kv s))) ∧
  (∀ def, config_get_int (Some s) (Some key) def = Some (spec_get_int (key_of key) def (kv s))) ∧
  (∀ def, config_get_bool (Some s) (Some key) def = Some (spec_get_bool (key_of key) def (kv s))) ∧
  (∀ max, 0 < max → config_get_blob (Some s) (Some key) true max =
                    Some (spec_get_blob (key_of key) max (kv s))) ∧
  config_exists (Some s) (Some key) =
    Some (if decide (is_Some (kv s !! key_of key)) then 1 else 0).

Lemma get_prefix b r : length b = 4%nat → get32 (b ++ r) 0 = get32 b 0.
Proof. intros. by do 4 (destruct b as [|? b]; [done|]). Qed.

Lemma store_reads s : looks_up s → blen (data s) = used s → reads s.
Proof.
  intros Hs Hu key.
  unfold config_get_string, config_get_int, config_get_bool, config_get_blob, config_exists,
    spec_get_string, spec_get_int, spec_get_bool, spec_get_blob.
  destruct (Hs key) as [(e & -> & He & Ed & ->)|[-> ->]];
    cbn [mbind option_bind].
  2: { split_and!; intros; [done..| |].
       - cbn [negb orb]. by rewrite (proj2 (Z.eqb_neq _ _)) by lia.
       - by rewrite decide_False by by intros [? ?]. }
  destruct (entry_data_slice e s Ed He Hu) as [r ->].
  pose proof (ent_slice _ _ _ He Hu) as Hlen.
  destruct He as (H0 & H1 & H2 & (_ & Hint & Hbool & Hstr) & _). cbn [fst snd] in *.
  split_and!.
  - intros def. destruct (ce_type e =? CONFIG_TYPE_STRING) eqn:E; [|done]. bool_hyps.
    destruct (Hstr E) as [v ->]. cbn [mbind option_bind]. rewrite <- app_assoc. cbn [app].
    by rewrite !c_str_app_nul.
  - intros def. destruct (ce_type e =? CONFIG_TYPE_INT) eqn:E; [|done]. bool_hyps.
    specialize (Hint E). cbn [mbind option_bind].
    assert (blen (slice (data s) e) = 4) as H4 by (unfold blen; by rewrite Hint).
    rewrite <- H4, rd_bytes_prefix. done.
  - intros def. destruct (ce_type e =? CONFIG_TYPE_BOOL) eqn:E; [|done]. bool_hyps.
    specialize (Hbool E). cbn [mbind option_bind].
    destruct (slice (data s) e) as [|x [|? ?]]; try done.
  - intros max Hm. cbn [negb orb]. rewrite (proj2 (Z.eqb_neq _ _)) by lia.
    destruct (ce_type e =? CONFIG_TYPE_BLOB) eqn:E; [|done]. bool_hyps. cbn [mbind option_bind].
    rewrite Hlen.
    assert ((if ce_size e <? max then ce_size e else max) = Z.min (ce_size e) max) as ->
      by (destruct (ce_size e <? max) eqn:?; bool_hyps; lia).
    rewrite rd_bytes_ok by (rewrite ?blen_app; pose proof (blen_nonneg r); lia).
    cbn [mbind option_bind]. change (Z.to_nat 0) with 0%nat. rewrite drop_0.
    do 2 f_equal. unfold blen in Hlen. rewrite take_app_le by lia.
    destruct (decide (ce_size e <= max)) as [Hle|Hgt].
    + rewrite Z.min_l by lia. by rewrite !take_ge by lia.
    + by rewrite Z.min_r by lia.
  - by rewrite decide_True by by eexists.
Qed.

(** ** Calls *)

Inductive cfg_op :=
  | SetString key (value : list Z)
  | SetInt key (value : Z)
  | SetBool key (value : bool)
  | SetBlob key (value : list Z)
  | Delete key.

(** [ok] says whether [realloc] succeeds in the call. *)
Definition run_op (ok : bool) (op : cfg_op) s : option (Z * option store) :=
  match op with
  | SetString key v => config_set_string ok (Some s) (Some key) (Some v)
  | SetInt key v => config_set_int ok (Some s) (Some key) v
  | SetBool key v => config_set_bool ok (Some s) (Some key) v
  | SetBlob key v => config_set_blob ok (Some s) (Some key) (Some v) (blen v)
  | Delete key => config_delete (Some s) (Some key)
  end.

Definition spec_op (op : cfg_op) (v : map * Z) : Z * (map * Z) :=
  match op with
  | SetString key b => spec_set CONFIG_TYPE_STRING (b ++ [0]) (key_of key) v
  | SetInt key n => spec_set CONFIG_TYPE_INT (bytes32 (u32 n)) (key_of key) v
  | SetBool key b => spec_set CONFIG_TYPE_BOOL [if b then 1 else 0] (key_of key) v
  | SetBlob key b => spec_set CONFIG_TYPE_BLOB b (key_of key) v
  | Delete key => match v.1 !! key_of key with
                  | Some _ => (0, (delete (key_of key) v.1, v.2))
                  | None => (-1, v)
                  end
  end.

Definition op_ok (op : cfg_op) : Prop :=
  match op with
  | SetString key v => blen key < 2 ^ 16 ∧ blen v < 2 ^ 31 - 1
  | SetInt key _ | SetBool key _ | Delete key => blen key < 2 ^ 16
  | SetBlob key v => blen key < 2 ^ 16 ∧ 0 < blen v < 2 ^ 31
  end.

Lemma call_set_spec ok (type : Z) bytes key s :
  st_ok s → 0 < blen bytes < 2 ^ 31 → blen key < 2 ^ 16 → value_ok (type, bytes) →
  ∃ r s', call_set ok type bytes (Some s) (Some key) = Some (r, Some s') ∧
    ends ok s (spec_set type bytes (key_of key) (abs s)) r s'.
Proof.
  intros Hok Hb Hk Hv. destruct (config_set_spec ok type bytes key s Hok Hb Hk Hv) as (r & s' & E & ?).
  exists r, s'. unfold call_set. by rewrite E.
Qed.

Ltac by_value :=
  split; [by cbv|split_and!; cbn; intros; by (done || eexists)].

Lemma cfg_op_spec ok op s :
  st_ok s → op_ok op →
  ∃ r s', run_op ok op s = Some (r, Some s') ∧ ends ok s (spec_op op (abs s)) r s'.
Proof.
  intros Hok Hop. destruct op as [key v|key v|key v|key v|key]; cbn [run_op spec_op op_ok] in *.
  - destruct Hop. apply call_set_spec; try done.
    + rewrite blen_app. pose proof (blen_nonneg v). change (blen [0]) with 1. lia.
    + by_value.
  - apply call_set_spec; try done.
  - apply call_set_spec; try done.
  - destruct Hop. unfold config_set_blob. rewrite (proj2 (Z.eqb_neq _ _)) by lia.
    rewrite rd_bytes_all by done. cbn [mbind option_bind]. apply call_set_spec; try done.
  - cbn [abs fst snd]. destruct (config_delete_spec key s Hok) as
      [[-> ->]|([v Ev] & s' & -> & Hok' & Ekv & Eu & _)].
    + exists (-1), s. by split; [|left].
    + rewrite Ev. exists 0, s'. split; [done|left]. unfold abs. by rewrite Ekv, Eu.
Qed.

Fixpoint run_ops (ops : list (bool * cfg_op)) s : option (list Z * store) :=
  match ops with
  | [] => Some ([], s)
  | (ok, op) :: ops => '(r, s) ← run_op ok op s; s ← s; '(rs, s) ← run_ops ops s; Some (r :: rs, s)
  end.

Fixpoint spec_ops (ops : list cfg_op) (v : map * Z) : list Z * (map * Z) :=
  match ops with
  | [] => ([], v)
  | op :: ops => let '(r, v) := spec_op op v in let '(rs, v) := spec_ops ops v in (r :: rs, v)
  end.

(** The calls run as the map says up to the first one in which [realloc] fails where it is needed. *)
Lemma cfg_ops_spec ops s :
  st_ok s → Forall (λ c, op_ok c.2) ops →
  ∃ ops1 ops2 rs s', ops = ops1 ++ ops2 ∧ run_ops ops1 s = Some (rs, s') ∧ st_ok s' ∧
    spec_ops (ops1.*2) (abs s) = (rs, abs s') ∧
    (ops2 = [] ∨ ∃ op ops3 s2, ops2 = (false, op) :: ops3 ∧
       run_op false op s' = Some (-1, Some s2) ∧ sf_data s2 = None ∧
       (spec_op op (abs s')).1 = 0 ∧ used s' < (spec_op op (abs s')).2.2).
Proof.
  intros Hok Hops. revert s Hok. induction Hops as [|[ok op] ops Hop Hops IH]; intros s Hok.
  - exists [], [], [], s. split_and!; try done. by left.
  - destruct (cfg_op_spec ok op s Hok Hop) as (r & s1 & E1 & [[Hok1 Es1]|(-> & -> & Hd & H0' & Hu)]).
    + destruct (IH s1 Hok1) as (ops1 & ops2 & rs & s2 & -> & E2 & Hok2 & Es2 & Hend).
      exists ((ok, op) :: ops1), ops2, (r :: rs), s2. cbn [run_ops spec_ops fmap list_fmap snd app].
      rewrite E1. cbn [mbind option_bind].
      change ((λ '(_, y), y) <$> ops1) with (ops1.*2). rewrite E2, Es1, Es2. by split_and!.
    + exists [], ((false, op) :: ops), [], s. split_and!; try done. right. by eexists _, _, _.
Qed.

(** C33: On a well-formed store (one made by [config_store_init] without a file is, and so is what
    the calls leave; one loaded from a file is not, it has no room for a new entry: C34), any
    sequence of setters and deletions, in each of which [realloc] may fail, runs without a fault
    and keeps the store well formed, up to the first failure of [realloc] in a setter that needs
    more room.  Results and contents are those of a map from (hash, length) of keys to typed bytes
    that refuses a new value when it holds 1024 entries or 65536 bytes have been used up, and the
    getters return what the map holds; two keys with the same hash and length share one entry
    (Example [keys_collide]).  The setter in which [realloc] fails returns -1 where the map would
    take the value, and leaves a store without data. *)
Theorem config_store_refines ops s :
  st_ok s → Forall (λ c, op_ok c.2) ops →
  ∃ ops1 ops2 rs s', ops = ops1 ++ ops2 ∧ run_ops ops1 s = Some (rs, s') ∧ st_ok s' ∧
    spec_ops (ops1.*2) (abs s) = (rs, abs s') ∧ reads s' ∧
    (ops2 = [] ∨ ∃ op ops3 s2, ops2 = (false, op) :: ops3 ∧
       run_op false op s' = Some (-1, Some s2) ∧ sf_data s2 = None ∧
       (spec_op op (abs s')).1 = 0 ∧ used s' < (spec_op op (abs s')).2.2).
Proof.
  intros Hok Hops. destruct (cfg_ops_spec ops s Hok Hops) as (ops1 & ops2 & rs & s' & ? & ? & Hok' & ? & ?).
  exists ops1, ops2, rs, s'. split_and!; try done.
  apply store_reads; [by apply lookup_entry_spec|apply so_used; done].
Qed.

End ConfigThm.
