(* ===== verification/ConfigFile.v ===== *)
(** * The configuration store and its file

    Flushing a store and initialising another one over the same file: the layout of
    the structs reads back, and what was stored is found again.  The file is any
    file of the virtual file system that reads, writes and seeks as POSIX files do
    ([PosixFile]). *)

From Stdlib Require Import ZArith Lia.
From stdpp Require Import base tactics option numbers fin_maps gmap sorting list.
From S2P Require Import Prelude.
From S2P Require Import CString.
From S2P Require Import Layout.
From S2P Require Import Vfs.
From S2P Require Import ConfigStore.
From S2P Require Import ConfigThm.

(** ** The layout *)

(** The fields of a struct are in the range of their types. *)
Definition header_ok (h : config_header_t) : Prop :=
  is_u32 (ch_magic h) ∧ is_u16 (ch_version h) ∧ is_u16 (ch_reserved h) ∧ is_u32 (ch_count h) ∧
  is_u32 (ch_data_offset h) ∧ is_u32 (ch_data_size h).
Definition entry_ok (e : config_entry_t) : Prop :=
  is_u32 (ce_key_hash e) ∧ is_u16 (ce_key_len e) ∧ is_u16 (ce_type e) ∧
  is_u32 (ce_offset e) ∧ is_u32 (ce_size e).

Lemma header_roundtrip h : header_ok h → dec_header (enc_header h) = h.
Proof. destruct h. intros (? & ? & ? & ? & ? & ?). unfold dec_header, enc_header. decode. Qed.

Lemma entry_roundtrip e t : entry_ok e → dec_entry (enc_entry e ++ t) = e.
Proof.
  destruct e. intros (? & ? & ? & ? & ?). unfold dec_entry, enc_entry. rewrite <- !app_assoc.
  decode.
Qed.

Lemma blen_header h : blen (enc_header h) = SIZEOF_HEADER.
Proof. done. Qed.

Lemma blen_entries es : blen (mjoin (enc_entry <$> es)) = blen es * SIZEOF_ENTRY.
Proof.
  induction es as [|e es IH]; [done|].
  change (mjoin (enc_entry <$> e :: es)) with (enc_entry e ++ mjoin (enc_entry <$> es)).
  rewrite blen_app, IH, blen_cons. change (blen (enc_entry e)) with 16. unfold SIZEOF_ENTRY. lia.
Qed.

Lemma entries_roundtrip es :
  Forall entry_ok es → dec_entries (length es) (mjoin (enc_entry <$> es)) = es.
Proof.
  induction 1 as [|e es He _ IH]; [done|].
  change (mjoin (enc_entry <$> e :: es)) with (enc_entry e ++ mjoin (enc_entry <$> es)).
  cbn [length dec_entries]. rewrite entry_roundtrip by done.
  f_equal. exact IH.
Qed.

(** ** Files *)

(** The bytes of a file after [b] is written at [at]. *)
Definition overlay (off : Z) (b c : list Z) : list Z :=
  take (Z.to_nat off) (c ++ zeros (off - blen c)) ++ b ++ drop (Z.to_nat (off + blen b)) c.

Lemma overlay_same off b c :
  0 <= off → take (Z.to_nat (blen b)) (drop (Z.to_nat off) (overlay off b c)) = b.
Proof.
  intros Ho. unfold overlay. rewrite drop_app_length'.
  - unfold blen. rewrite Nat2Z.id. by apply take_app_length.
  - unfold blen, zeros in *. rewrite length_take, length_app, length_replicate. lia.
Qed.

Lemma overlay_before off b c p n :
  0 <= p → 0 <= n → p + n <= off → p + n <= blen c →
  take (Z.to_nat n) (drop (Z.to_nat p) (overlay off b c)) =
  take (Z.to_nat n) (drop (Z.to_nat p) c).
Proof.
  intros. unfold overlay, blen in *. rewrite drop_app_le.
  2: { rewrite length_take, length_app. unfold zeros. rewrite length_replicate. lia. }
  rewrite take_app_le.
  2: { rewrite length_drop, length_take, length_app. unfold zeros. rewrite length_replicate. lia. }
  rewrite !take_drop_commute, take_take.
  rewrite Nat.min_l by lia. rewrite take_app_le by lia. done.
Qed.

Lemma overlay_length off b c : 0 <= off → off + blen b <= blen (overlay off b c).
Proof.
  intros. unfold overlay, blen, zeros. rewrite !length_app, length_take, length_app, length_replicate.
  lia.
Qed.

(** What the store needs of its file. *)
Class PosixFile {H U} (f : vfs_file_t H U) (content : U → list Z) (pos : U → Z) : Prop := {
  posix_seek off u : 0 <= off → ∃ r u',
    vfs_seek (Some f) off 0 u = (r, u') ∧ content u' = content u ∧ pos u' = off;
  posix_read n u : 0 <= n → ∃ u',
    let got := take (Z.to_nat n) (drop (Z.to_nat (pos u)) (content u)) in
    vfs_read (Some f) n u = (blen got, got, u') ∧ content u' = content u;
  posix_write b u : ∃ u',
    vfs_write (Some f) b (blen b) u = (blen b, u') ∧ content u' = overlay (pos u) b (content u);
  posix_sync u : ∃ u', vfs_sync (Some f) u = (0, u') ∧ content u' = content u
}.

Section Persistence.
Context {H U : Type} `{HA : Arch}.
Context (f : vfs_file_t H U) (content : U → list Z) (pos : U → Z) `{HF : !PosixFile f content pos}.
Abbreviation store := (config_store H U).
Implicit Types (s : store) (u : U) (b c : list Z).

Lemma holds_put off b c : 0 <= off → holds off b (overlay off b c).
Proof. intros. split; [by apply overlay_same|by apply overlay_length]. Qed.

Lemma holds_keep off off' b b' c :
  0 <= off → off + blen b <= off' → holds off b c → holds off b (overlay off' b' c).
Proof.
  intros Ho Hle [Ha Hb]. pose proof (blen_nonneg b). pose proof (blen_nonneg b'). split.
  - unfold at_offset. by rewrite overlay_before.
  - pose proof (overlay_length off' b' c). lia.
Qed.

(** Seeking and writing, seeking and reading. *)
Lemma put_spec off b u :
  0 <= off → ∃ r u1 u2, vfs_seek (Some f) off 0 u = (r, u1) ∧
    vfs_write (Some f) b (blen b) u1 = (blen b, u2) ∧ content u2 = overlay off b (content u).
Proof.
  intros Ho. destruct (posix_seek off u Ho) as (r & u1 & E1 & Ec & Ep).
  destruct (posix_write b u1) as (u2 & E2 & Ec2). exists r, u1, u2.
  by rewrite Ec2, Ec, Ep.
Qed.

Lemma get_spec off b old u :
  0 <= off → blen old = blen b → holds off b (content u) →
  ∃ r u1 u2, vfs_seek (Some f) off 0 u = (r, u1) ∧
    read_into (Some f) old u1 = Some (blen b, b, u2) ∧ content u2 = content u.
Proof.
  intros Ho Hl [Ha Hb]. destruct (posix_seek off u Ho) as (r & u1 & E1 & Ec & Ep).
  destruct (posix_read (blen b) u1 (blen_nonneg b)) as (u2 & E2 & Ec2).
  exists r, u1, u2. split; [done|]. split; [|by rewrite Ec2].
  unfold read_into. rewrite Hl. cbn zeta in E2. rewrite E2, Ep, Ec.
  unfold at_offset in Ha. rewrite Ha, wr_bytes_ok by lia. cbn [mbind option_bind].
  change (Z.to_nat 0) with 0%nat. rewrite drop_ge by (unfold blen in *; lia).
  by rewrite app_nil_r.
Qed.

(** ** Flushing *)

(** The file holds the store. *)
Definition stored s c : Prop :=
  holds 0 (enc_header (sf_header s)) c ∧
  (0 < count s → holds SIZEOF_HEADER (mjoin (enc_entry <$> entries s)) c) ∧
  (0 < used s → holds (ch_data_offset (sf_header s)) (data s) c).

Lemma entries_bytes s : st_ok s → blen (mjoin (enc_entry <$> entries s)) = usz (count s * SIZEOF_ENTRY).
Proof.
  intros Hok. rewrite blen_entries. unfold blen at 1. rewrite (entries_length s Hok).
  pose proof (so_count s Hok). rewrite Z2Nat.id by lia. unfold SIZEOF_ENTRY.
  by rewrite usz_id by lia.
Qed.

Lemma write_entries s u :
  st_ok s → 0 < count s → ∃ r u1 u2, vfs_seek (Some f) SIZEOF_HEADER 0 u = (r, u1) ∧
  (es ← sf_entries s; es ← rd_bytes es 0 (count s);
   let '(written, u) := vfs_write (Some f) (mjoin (enc_entry <$> es)) (usz (count s * SIZEOF_ENTRY)) u1 in
   Some (negb (written =? usz (count s * SIZEOF_ENTRY)), u)) = Some (false, u2) ∧
  content u2 = overlay SIZEOF_HEADER (mjoin (enc_entry <$> entries s)) (content u).
Proof.
  intros Hok Hc. destruct (put_spec SIZEOF_HEADER (mjoin (enc_entry <$> entries s)) u) as
    (r & u1 & u2 & E1 & E2 & Ec); [done|]. exists r, u1, u2. split; [done|]. split; [|done].
  destruct (so_entries s Hok) as (es & Ee & Hl). pose proof (so_count s Hok).
  rewrite Ee. cbn [mbind option_bind]. rewrite rd_bytes_ok by (unfold blen; lia).
  cbn [mbind option_bind]. change (Z.to_nat 0) with 0%nat. rewrite drop_0.
  rewrite <- (entries_eq s es Ee), <- entries_bytes, E2 by done. by rewrite Z.eqb_refl.
Qed.

Lemma write_data s u :
  st_ok s → 0 < used s → ∃ r u1 u2,
  vfs_seek (Some f) (ch_data_offset (sf_header s)) 0 u = (r, u1) ∧
  (d ← sf_data s; d ← rd_bytes d 0 (used s);
   let '(written, u) := vfs_write (Some f) d (used s) u1 in
   Some (negb (written =? used s), u)) = Some (false, u2) ∧
  content u2 = overlay (ch_data_offset (sf_header s)) (data s) (content u).
Proof.
  intros Hok Hc. pose proof (so_used s Hok) as (Hu & _ & Hn).
  destruct (so_header s Hok) as (_ & _ & _ & Ho).
  destruct (put_spec (ch_data_offset (sf_header s)) (data s) u) as
    (r & u1 & u2 & E1 & E2 & Ec); [by rewrite Ho|].
  exists r, u1, u2. split; [done|]. split; [|done].
  destruct (sf_data s) as [d|] eqn:Ed; [|specialize (Hn eq_refl); lia].
  assert (data s = d) as Edd by (unfold data; by rewrite Ed). rewrite Edd in *.
  cbn [mbind option_bind]. rewrite rd_bytes_all by done. cbn [mbind option_bind].
  rewrite <- Hu, E2. by rewrite Z.eqb_refl.
Qed.

Lemma write_header_spec s u :
  st_ok s → sf_file s = Some f →
  ∃ u', config_write_header s u = Some (0, u') ∧ stored s (content u').
Proof.
  intros Hok Ef. unfold config_write_header. rewrite Ef. fold (count s) (used s).
  destruct (put_spec 0 (enc_header (sf_header s)) u) as (r & u1 & u2 & -> & E2 & Ec); [done|].
  change (blen (enc_header (sf_header s))) with SIZEOF_HEADER in E2. rewrite E2. clear E2. rewrite Z.eqb_refl. cbn [negb].
  pose proof (holds_put 0 (enc_header (sf_header s)) (content u) ltac:(lia)) as Hh.
  rewrite <- Ec in Hh. clear r u1 Ec u. rename u2 into u.
  destruct (so_header s Hok) as (_ & _ & _ & Hoff). pose proof (so_count s Hok) as Hc.
  assert (∃ u', (if 0 <? count s then
    let '(_, u) := vfs_seek (Some f) SIZEOF_HEADER 0 u in
    es ← sf_entries s; es ← rd_bytes es 0 (count s);
    let '(written, u) := vfs_write (Some f) (mjoin (enc_entry <$> es)) (usz (count s * SIZEOF_ENTRY)) u in
    Some (negb (written =? usz (count s * SIZEOF_ENTRY)), u)
    else Some (false, u)) = Some (false, u') ∧ holds 0 (enc_header (sf_header s)) (content u') ∧
    (0 < count s → holds SIZEOF_HEADER (mjoin (enc_entry <$> entries s)) (content u')))
    as (u' & E & Hh' & He).
  { destruct (0 <? count s) eqn:E; bool_hyps; [|exists u; split_and!; [done..|lia]].
    destruct (write_entries s u Hok E) as (r & u1 & u2 & -> & -> & Ec). exists u2.
    rewrite Ec. split; [done|]. split; [apply holds_keep; [rewrite ?blen_header; vm_decide..|done]|]. intros _. by apply holds_put. }
  rewrite E. cbn [mbind option_bind]. clear E Hh u. rename u' into u.
  assert (∃ u', (if 0 <? used s then
    let '(_, u) := vfs_seek (Some f) (ch_data_offset (sf_header s)) 0 u in
    d ← sf_data s; d ← rd_bytes d 0 (used s);
    let '(written, u) := vfs_write (Some f) d (used s) u in
    Some (negb (written =? used s), u)
    else Some (false, u)) = Some (false, u') ∧ stored s (content u')) as (u' & E & Hs).
  { destruct (0 <? used s) eqn:E; bool_hyps.
    - destruct (write_data s u Hok E) as (r & u1 & u2 & -> & -> & Ec). exists u2.
      split; [done|]. rewrite Ec, Hoff. split; [|split].
      + apply holds_keep; [rewrite ?blen_header; vm_decide..|exact Hh'].
      + intros Hc0. apply holds_keep; [vm_decide| |by apply He].
        rewrite blen_entries. unfold blen. rewrite (entries_length s Hok). unfold SIZEOF_HEADER, SIZEOF_ENTRY. lia.
      + intros _. rewrite Hoff. by apply holds_put.
    - exists u. split; [done|]. split; [done|]. split; [done|lia]. }
  rewrite E. cbn [mbind option_bind].
  destruct (posix_sync u') as (u3 & -> & Ec). exists u3. by rewrite Ec.
Qed.

(** ** Loading *)

(** What [config_store_open] returns, and the store loaded into it. *)
Definition opened : store := mk_store (Some f) header_zero None None false.
Definition reloaded s : store :=
  mk_store (Some f) (sf_header s) (if 0 <? count s then Some (entries s) else None)
    (if 0 <? used s then Some (data s) else None) false.

Lemma store_header_ok s : st_ok s → header_ok (sf_header s).
Proof.
  intros Hok. destruct (so_header s Hok) as (Hm0 & Hv & Hr & Ho).
  pose proof (so_count s Hok) as Hc. pose proof (so_used s Hok) as (Hu & Hm & _).
  pose proof (blen_nonneg (data s)). unfold header_ok. fold (count s) (used s).
  rewrite Hm0, Ho. split_and!; try done; unfold in_w; lia.
Qed.

Lemma store_entries_ok s : st_ok s → Forall entry_ok (entries s).
Proof.
  intros Hok. pose proof (so_used s Hok) as (Hu & Hm & _).
  eapply Forall_impl; [apply (so_each s Hok)|]. intros e (H0 & H1 & H2 & (Ht & _) & Hk & Hl).
  unfold entry_ok. split_and!; try done; unfold in_w; lia.
Qed.

Lemma init_loads s u :
  st_ok s → stored s (content u) →
  ∃ u', config_store_init true true true opened u = Some (0, reloaded s, u').
Proof.
  intros Hok (Hh & He & Hd). unfold config_store_init. cbn [opened sf_file sf_header].
  destruct (get_spec 0 (enc_header (sf_header s)) (enc_header header_zero) u) as
    (r & u1 & u2 & -> & -> & Ec); [done..|]. cbn [mbind option_bind].
  rewrite blen_header, Z.eqb_refl, header_roundtrip by by apply store_header_ok.
  cbn [negb]. set (s1 := with_header (sf_header s) opened).
  change (sf_header s1) with (sf_header s). destruct (so_header s Hok) as (Hm & _ & _ & Hoff). rewrite Hm, Z.eqb_refl.
  cbn [negb]. fold (count s) (used s). rewrite <- Ec in *. clear r u1 Ec u. rename u2 into u.
  pose proof (so_count s Hok) as Hc.
  assert (∃ u', (if 0 <? count s then
    let '(_, u) := vfs_seek (Some f) SIZEOF_HEADER 0 u in
    '(ret, b, u) ← read_into (Some f) (zeros (usz (count s * SIZEOF_ENTRY))) u;
    if ret =? usz (count s * SIZEOF_ENTRY)
    then Some (false, with_entries (Some (dec_entries (Z.to_nat (count s)) b)) s1, u)
    else Some (true, with_entries None s1, u)
    else Some (false, s1, u)) =
    Some (false, with_entries (if 0 <? count s then Some (entries s) else None) s1, u') ∧
    content u' = content u) as (u' & E & Ec).
  { destruct (0 <? count s) eqn:E; bool_hyps; [|by exists u].
    rewrite <- entries_bytes by done.
    destruct (get_spec SIZEOF_HEADER (mjoin (enc_entry <$> entries s))
      (zeros (blen (mjoin (enc_entry <$> entries s)))) u) as (r & u1 & u2 & -> & -> & Ec);
      [done|by rewrite blen_zeros by apply blen_nonneg|by apply He|].
    cbn [mbind option_bind]. rewrite Z.eqb_refl, <- (entries_length s Hok).
    rewrite entries_roundtrip by by apply store_entries_ok. by exists u2. }
  cbn zeta. cbn [negb]. rewrite E. cbn [mbind option_bind]. clear E. rewrite <- Ec in Hd.
  unfold reloaded. destruct (0 <? used s) eqn:E; bool_hyps; [|by exists u'].
  destruct (so_used s Hok) as (Hu & _ & _). rewrite <- Hu.
  destruct (get_spec (ch_data_offset (sf_header s)) (data s) (zeros (blen (data s))) u')
    as (r & u1 & u2 & -> & -> & _); [by rewrite Hoff|by rewrite blen_zeros by apply blen_nonneg|by apply Hd|].
  cbn [mbind option_bind]. rewrite Z.eqb_refl. by exists u2.
Qed.

Lemma find_loop_take n m i hash len (es : list config_entry_t) :
  (i + n <= m)%nat → find_loop n (Z.of_nat i) hash len (take m es) = find_loop n (Z.of_nat i) hash len es.
Proof.
  revert i. induction n as [|n IH]; intros i Hn; [done|]. cbn [find_loop].
  rewrite !rd_nat, lookup_take_lt by lia. destruct (es !! i); [|done]. cbn [mbind option_bind].
  replace (Z.of_nat i + 1) with (Z.of_nat (S i)) by lia. by rewrite IH by lia.
Qed.

Lemma reloaded_find key s : st_ok s → config_find_entry (reloaded s) key = config_find_entry s key.
Proof.
  intros Hok. unfold config_find_entry, reloaded. cbn [sf_header sf_entries]. fold (count s).
  destruct (count s =? 0) eqn:E; [done|]. bool_hyps. pose proof (so_count s Hok).
  destruct (so_entries s Hok) as (es & Ee & Hl). rewrite (entries_eq s es Ee), Ee.
  rewrite (proj2 (Z.ltb_lt 0 (count s))) by lia. cbn [mbind option_bind].
  apply (find_loop_take _ _ 0). lia.
Qed.

Lemma reloaded_entries s : st_ok s → entries (reloaded s) = entries s.
Proof.
  intros Hok. pose proof (entries_length s Hok) as Hl. unfold entries at 1.
  change (count (reloaded s)) with (count s). unfold reloaded. cbn [sf_entries].
  destruct (0 <? count s) eqn:E; bool_hyps.
  - apply take_ge. cbn [default]. unfold id. lia.
  - destruct (entries s); [apply take_nil|cbn in Hl; lia].
Qed.

Lemma reloaded_data s : st_ok s → data (reloaded s) = data s.
Proof.
  intros Hok. destruct (so_used s Hok) as (Hu & _). unfold data at 1, reloaded. cbn [sf_data].
  destruct (0 <? used s) eqn:E; bool_hyps; [done|].
  destruct (data s) as [|x d]; [done|]. unfold blen in Hu. cbn in Hu. lia.
Qed.

Lemma reloaded_kv s : st_ok s → kv (reloaded s) = kv s.
Proof. intros Hok. unfold kv. by rewrite reloaded_entries, reloaded_data. Qed.

Lemma reloaded_looks_up s : st_ok s → looks_up (reloaded s).
Proof.
  intros Hok key. rewrite reloaded_kv, reloaded_data by done.
  change (used (reloaded s)) with (used s). unfold lookup_entry. rewrite reloaded_find by done.
  destruct (config_find_spec key s Hok) as [(a & e & b & E & Ek & ->)|[Hn ->]];
    cbn [mbind option_bind].
  - left. destruct (entry_mid s a e b Hok E) as (_ & _ & _ & _ & Hc & He).
    destruct (kv_some a e b s Hok E) as [_ Hs]. rewrite Ek in Hs.
    pose proof (blen_nonneg a). pose proof (blen_nonneg b). pose proof He as (? & ? & ? & _).
    exists e. assert (sf_entries (reloaded s) = Some (a ++ e :: b)) as ->.
    { cbn. rewrite (proj2 (Z.ltb_lt 0 (count s))) by lia. by rewrite E. }
    cbn [mbind option_bind]. rewrite rd_app_l. split; [done|]. split; [done|]. split; [|done]. unfold reloaded. cbn [sf_data].
    by rewrite (proj2 (Z.ltb_lt 0 (used s))) by lia.
  - right. split; [done|]. by apply kv_none.
Qed.

(** A loaded store has no room behind its last entry. *)
Lemma reloaded_no_room ok (type : Z) bytes key s :
  st_ok s → kv s !! key_of key = None → ¬ full s bytes → 0 <= blen bytes < 2 ^ 31 →
  call_set ok type bytes (Some (reloaded s)) (Some key) = None.
Proof.
  intros Hok Hk Hf Hb. unfold call_set, set_fuel. cbn [config_set]. rewrite reloaded_find by done.
  destruct (config_find_spec key s Hok) as [(a & e & b & E & Ek & _)|[_ ->]].
  { destruct (kv_some a e b s Hok E) as [_ Hs]. rewrite Ek, Hk in Hs. done. }
  cbn [mbind option_bind]. change (sf_header (reloaded s)) with (sf_header s).
  fold (count s). unfold full in Hf. pose proof (so_count s Hok). zbool.
  unfold config_reserve_data. change (sf_header (reloaded s)) with (sf_header s). fold (used s).
  destruct (so_used s Hok) as (Hu & Hm & _). pose proof (blen_nonneg (data s)).
  rewrite usz_id by lia. zbool. cbn [negb Z.eqb].
  destruct (sf_entries (reloaded s)) as [l|] eqn:El; [|done]. cbn [mbind option_bind].
  assert (blen l <= count s) as Hl.
  { cbn in El. destruct (0 <? count s) eqn:E; simplify_eq. unfold blen.
    rewrite (entries_length s Hok). lia. }
  unfold wr. by rewrite (proj2 (Z.ltb_ge (count s) _)), andb_false_r by lia.
Qed.

(** C34: A changed store is written to its file, whatever the file held, and a store
    opened on that file loads it: it holds the same map and its getters return what
    was stored.  But the table of a loaded store has no free entry: a setter for a
    new key writes past its end. *)
Theorem config_store_persists s u :
  st_ok s → sf_file s = Some f → sf_dirty s = true →
  ∃ u1 u2 s', config_store_flush (Some s) u = Some (0, Some (with_dirty false s), u1) ∧
    config_store_init true true true opened u1 = Some (0, s', u2) ∧
    kv s' = kv s ∧ reads s' ∧
    ∀ ok type bytes key, kv s !! key_of key = None → ¬ full s bytes → blen bytes < 2 ^ 31 →
      call_set ok type bytes (Some s') (Some key) = None.
Proof.
  intros Hok Ef Hd. destruct (write_header_spec s u Hok Ef) as (u1 & E1 & Hs).
  destruct (init_loads s u1 Hok Hs) as (u2 & E2). exists u1, u2, (reloaded s).
  unfold config_store_flush. rewrite Hd, E1. cbn [negb mbind option_bind].
  split; [done|]. split; [done|].
  split; [by apply reloaded_kv|]. split.
  - apply store_reads; [by apply reloaded_looks_up|].
    rewrite reloaded_data by done. change (used (reloaded s)) with (used s). by apply so_used.
  - intros. apply reloaded_no_room; try done. pose proof (blen_nonneg bytes). lia.
Qed.
End Persistence.

(** ** A concrete file, and runs *)

Module ConfigRuns.
#[local] Instance arch : Arch := arch32.

(** The state of a file: its bytes and the position in it. *)
Definition ram : Type := list Z * Z.
Definition ram_ops : vfs_ops_t unit ram :=
  mk_ops None None
    (Some (λ _ n u, let got := take (Z.to_nat n) (drop (Z.to_nat u.2) u.1) in
                    (blen got, got, (u.1, u.2 + blen got))))
    (Some (λ _ b n u, (n, (overlay u.2 b u.1, u.2 + n))))
    (Some (λ _ off _ u, (0, (u.1, off)))) None None None None None None None None None
    (Some (λ _ u, (0, u))).
Definition file : vfs_file_t unit ram := mk_file ram_ops tt.

#[export] Instance ram_posix : PosixFile file fst snd.
Proof. split; [intros; by do 2 eexists|intros; by eexists..]. Qed.

(** A store initialised on an empty file. *)
Definition fresh : config_store unit ram :=
  mk_store (Some file) (mk_header CONFIG_MAGIC CONFIG_VERSION 0 0 16404 0)
    (Some (replicate 1024 entry_zero)) None false.

Example fresh_init : config_store_init true true true (opened file) ([], 0) = Some (0, fresh, ([], 0)).
Proof. by vm_compute. Qed.

Lemma fresh_ok : st_ok fresh.
Proof.
  split; [by eexists|vm_decide|by vm_compute|constructor|constructor|done|by vm_compute].
Qed.

(** The first integer keeps its entry, so the failure of [realloc] in the third call does no harm;
    in the last one it does. *)
Definition calls : list (bool * cfg_op) :=
  [(true, SetInt [97] 7); (true, SetString [98] [104; 105]); (false, SetInt [97] (-1));
   (true, SetString [98] [104; 101; 121]); (true, Delete [97])].
Definition lost_call : bool * cfg_op := (false, SetBool [99] true).

Lemma calls_ok : Forall (λ c, op_ok c.2) (calls ++ [lost_call]).
Proof. repeat constructor; vm_decide. Qed.

Lemma config_store_refines_witness :
  (∃ ops1 ops2 rs s', calls ++ [lost_call] = ops1 ++ ops2 ∧ run_ops ops1 fresh = Some (rs, s') ∧ st_ok s' ∧
     spec_ops (ops1.*2) (abs fresh) = (rs, abs s') ∧ reads s' ∧
     (ops2 = [] ∨ ∃ op ops3 s2, ops2 = (false, op) :: ops3 ∧
        run_op false op s' = Some (-1, Some s2) ∧ sf_data s2 = None ∧
        (spec_op op (abs s')).1 = 0 ∧ used s' < (spec_op op (abs s')).2.2)) ∧
  option_map fst (run_ops calls fresh) = Some [0; 0; 0; 0; 0] ∧
  (r ← run_ops (calls ++ [lost_call]) fresh; Some (r.1, sf_data r.2)) = Some ([0; 0; 0; 0; 0; -1], None).
Proof.
  split; [|split; vm_compute; reflexivity].
  apply (config_store_refines (calls ++ [lost_call]) fresh fresh_ok calls_ok).
Defined.

(** A store with one entry. *)
Definition one : config_store unit ram :=
  match run_ops [(true, SetInt [97] 7)] fresh with Some (_, s) => s | None => fresh end.

Lemma one_ok : st_ok one.
Proof.
  destruct (cfg_op_spec true (SetInt [97] 7) fresh fresh_ok) as (r & s' & E & [[Hok _]|[[=] _]]); [done|].
  unfold one. cbn [run_ops]. by rewrite E.
Qed.

Lemma config_store_persists_witness :
  ∃ u1 u2 s', config_store_flush (Some one) ([1; 2; 3], 0) = Some (0, Some (with_dirty false one), u1) ∧
    config_store_init true true true (opened file) u1 = Some (0, s', u2) ∧
    kv s' = kv one ∧ reads s' ∧
    ∀ ok type bytes key, kv one !! key_of key = None → ¬ full one bytes → blen bytes < 2 ^ 31 →
      call_set ok type bytes (Some s') (Some key) = None.
Proof. apply (config_store_persists file fst snd one ([1; 2; 3], 0) one_ok); vm_compute; reflexivity. Defined.

(** The keys "aa" and "b@" have the same hash and length: one entry serves both. *)
Example keys_collide :
  option_map fst (run_ops [(true, SetInt [97; 97] 7); (true, SetInt [98; 64] 8)] fresh) = Some [0; 0] ∧
  (r ← run_ops [(true, SetInt [97; 97] 7); (true, SetInt [98; 64] 8)] fresh;
   config_get_int (Some r.2) (Some [97; 97]) 0) = Some 8.
Proof. by vm_compute. Qed.

(** A value too long for its entry replaces it only when there is room behind the
    data: the old value is deleted first and lost when there is not. *)
Example failed_update_deletes :
  (r ← run_ops [(true, SetString [97] [104]); (true, SetBlob [98] (zeros 65533))] fresh;
   r ← run_op true (SetString [97] [104; 105]) r.2; s ← r.2;
   x ← config_exists (Some s) (Some [97]); Some (r.1, x)) = Some (-1, 0).
Proof. by vm_compute. Qed.

(** When [realloc] fails the entry is already counted and the data is NULL: reading
    any entry faults. *)
Example realloc_failure_faults :
  (r ← run_ops [(true, SetInt [97] 7)] fresh;
   r ← config_set_int false (Some r.2) (Some [98]) 8;
   s ← r.2; Some (r.1, config_get_int (Some s) (Some [97]) 0)) = Some (-1, None).
Proof. by vm_compute. Qed.
End ConfigRuns.
