(* ===== verification/AppRuntime.v ===== *)
(** * The saved sessions of the apps (apps/app_runtime.c)

    A table of slots, one per app name, with the last saved bytes of its session and
    the live object bound to it.  The live objects are memory of the apps: their
    addresses are numbers, 0 is NULL, and [LiveMem] reads and writes them. *)

From Stdlib Require Import ZArith Lia.
From stdpp Require Import base tactics option numbers list.
From S2P Require Import Prelude.
From S2P Require Import CString.
From S2P Require Import Tables.

Definition APP_NAME_MAX : Z := 32.
Definition APP_MAX : Z := 16.
Definition APP_STATE_BYTES : Z := 256.

Record app_runtime_slot_t := mk_slot {
  sl_name : list Z; sl_data : list Z; sl_size : Z;
  sl_live : Z; sl_live_size : Z; sl_used : bool
}.

(** [memcpy] from and to an object of an app. *)
Class LiveMem (W : Type) := {
  live_read : Z → Z → W → option (list Z);
  live_write : Z → list Z → W → option W
}.

Definition slot_zero : app_runtime_slot_t := mk_slot (zeros APP_NAME_MAX) (zeros APP_STATE_BYTES) 0 0 0 false.
Definition g_slots_init : list app_runtime_slot_t := replicate (Z.to_nat APP_MAX) slot_zero.

Definition set_saved (data : list Z) (size : Z) (s : app_runtime_slot_t) : app_runtime_slot_t :=
  mk_slot (sl_name s) data size (sl_live s) (sl_live_size s) (sl_used s).
Definition set_live (live live_size : Z) (s : app_runtime_slot_t) : app_runtime_slot_t :=
  mk_slot (sl_name s) (sl_data s) (sl_size s) live live_size (sl_used s).

Section AppRuntime.
Context {W : Type} `{LiveMem W}.
Implicit Types (g : list app_runtime_slot_t) (name : option (list Z)) (w : W).

(** The index of the slot. *)
Definition find_slot name g : option nat :=
  match name with
  | None => None
  | Some name => if str_eq name [] then None
                 else first (λ s, sl_used s && str_eq (c_str (sl_name s)) name) g
  end.

Definition take_slot name g : option nat * list app_runtime_slot_t :=
  match find_slot name g with
  | Some i => (Some i, g)
  | None =>
    match name with
    | None => (None, g)
    | Some name =>
      if str_eq name [] then (None, g) else
      match first (λ s, negb (sl_used s)) g with
      | Some i =>
        (Some i,
         <[i := mk_slot (strncpy (zeros APP_NAME_MAX) name (Z.to_nat (APP_NAME_MAX - 1)))
                  (zeros APP_STATE_BYTES) 0 0 0 true]> g)
      | None => (None, g)
      end
    end
  end.

Definition app_set_state name (data : option (list Z)) (size : Z) g
    : option (Z * list app_runtime_slot_t) :=
  match data with
  | None => Some (-1, g)
  | Some data =>
    if (size =? 0) || (APP_STATE_BYTES <? size) then Some (-1, g) else
    let (slot, g) := take_slot name g in
    match slot with
    | None => Some (-1, g)
    | Some i =>
      s ← g !! i;
      src ← rd_bytes data 0 size;
      d ← wr_bytes (sl_data s) 0 src;
      Some (0, <[i := set_saved d size s]> g)
    end
  end.

(** The second value is the caller's buffer. *)
Definition app_get_state name (data : option (list Z)) (size : Z) g : option (Z * option (list Z)) :=
  match data, find_slot name g with
  | Some dst, Some i =>
    s ← g !! i;
    if (sl_size s =? 0) || negb (sl_size s =? size) then Some (-1, data) else
    src ← rd_bytes (sl_data s) 0 size;
    dst ← wr_bytes dst 0 src;
    Some (0, Some dst)
  | _, _ => Some (-1, data)
  end.

Definition app_state_bind name (live size : Z) g : option (Z * list app_runtime_slot_t) :=
  if (live =? 0) || (size =? 0) || (APP_STATE_BYTES <? size) then Some (-1, g) else
  let (slot, g) := take_slot name g in
  match slot with
  | None => Some (-1, g)
  | Some i => s ← g !! i; Some (0, <[i := set_live live size s]> g)
  end.

Definition app_state_capture name w g : option (Z * list app_runtime_slot_t) :=
  match find_slot name g with
  | None => Some (0, g)
  | Some i =>
    s ← g !! i;
    if (sl_live s =? 0) || (sl_live_size s =? 0) then Some (0, g) else
    data ← live_read (sl_live s) (sl_live_size s) w;
    app_set_state name (Some data) (sl_live_size s) g
  end.

Definition app_state_apply name g w : option (Z * W) :=
  match find_slot name g with
  | None => Some (-1, w)
  | Some i =>
    s ← g !! i;
    if (sl_live s =? 0) || (sl_size s =? 0) || negb (sl_size s =? sl_live_size s)
    then Some (-1, w) else
    data ← rd_bytes (sl_data s) 0 (sl_size s);
    w ← live_write (sl_live s) data w;
    Some (0, w)
  end.

(** ** Calls *)

(** A call of one of the functions, with the caller's buffers, or what an app does to its
    object between the calls. *)
Inductive session_op :=
  | SetState (name data : option (list Z)) (size : Z)
  | GetState (name data : option (list Z)) (size : Z)
  | Bind (name : option (list Z)) (live size : Z)
  | Capture (name : option (list Z))
  | Apply (name : option (list Z))
  | AppRuns (f : W → option W).

(** A result, the buffer of [app_get_state], and the state after it. *)
Definition session_step (o : session_op) (wg : W * list app_runtime_slot_t)
    : option (Z * option (list Z) * (W * list app_runtime_slot_t)) :=
  let (w, g) := wg in
  match o with
  | SetState name data size => '(r, g) ← app_set_state name data size g; Some (r, None, (w, g))
  | GetState name data size => '(r, b) ← app_get_state name data size g; Some (r, b, (w, g))
  | Bind name live size => '(r, g) ← app_state_bind name live size g; Some (r, None, (w, g))
  | Capture name => '(r, g) ← app_state_capture name w g; Some (r, None, (w, g))
  | Apply name => '(r, w) ← app_state_apply name g w; Some (r, None, (w, g))
  | AppRuns f => w ← f w; Some (0, None, (w, g))
  end.
End AppRuntime.
Arguments session_op : clear implicits.
