(* ===== verification/AppRuntimeThm.v ===== *)
(** * The saved sessions: a map of at most sixteen sessions *)

From Stdlib Require Import ZArith Lia.
From stdpp Require Import base tactics option numbers fin_maps gmap list.
From S2P Require Import Prelude.
From S2P Require Import CString.
From S2P Require Import Tables.
From S2P Require Import Runs.
From S2P Require Import AppRuntime.

(** ** The specification *)

(** The saved bytes of a session, empty before the first save, and the object bound to it. *)
Record session := mk_session { se_saved : list Z; se_live : Z; se_live_size : Z }.
Definition session_none : session := mk_session [] 0 0.
Abbreviation sessions := (gmap (list Z) session) (only parsing).

Section Spec.
Context {W : Type} `{LiveMem W}.
Implicit Types (m : sessions) (name : list Z).

(** The session of a name, opened if there is room. *)
Definition opened name m : option session :=
  match m !! name with
  | Some e => Some e
  | None => if (size m <? Z.to_nat APP_MAX)%nat && negb (str_eq name []) then Some session_none else None
  end.

Definition spec_step (o : session_op W) (wm : W * sessions)
    : option (Z * option (list Z) * (W * sessions)) :=
  let (w, m) := wm in
  let fails b := Some (-1, b, (w, m)) in
  match o with
  | SetState (Some name) (Some data) size =>
    if (size =? 0) || (256 <? size) then fails None else
    match opened name m with
    | None => fails None
    | Some e => data ← rd_bytes data 0 size;
                Some (0, None, (w, <[name := mk_session data (se_live e) (se_live_size e)]> m))
    end
  | SetState _ _ _ => fails None
  | GetState (Some name) (Some dst) size =>
    match m !! name with
    | Some e => if (blen (se_saved e) =? 0) || negb (blen (se_saved e) =? size) then fails (Some dst) else
                dst ← wr_bytes dst 0 (se_saved e); Some (0, Some dst, (w, m))
    | None => fails (Some dst)
    end
  | GetState _ dst _ => fails dst
  | Bind (Some name) live size =>
    if (live =? 0) || (size =? 0) || (256 <? size) then fails None else
    match opened name m with
    | None => fails None
    | Some e => Some (0, None, (w, <[name := mk_session (se_saved e) live size]> m))
    end
  | Bind None _ _ => fails None
  | Capture (Some name) =>
    match m !! name with
    | Some e => if se_live e =? 0 then Some (0, None, (w, m)) else
                data ← live_read (se_live e) (se_live_size e) w;
                data ← rd_bytes data 0 (se_live_size e);
                Some (0, None, (w, <[name := mk_session data (se_live e) (se_live_size e)]> m))
    | None => Some (0, None, (w, m))
    end
  | Capture None => Some (0, None, (w, m))
  | Apply (Some name) =>
    match m !! name with
    | Some e => if (se_live e =? 0) || (blen (se_saved e) =? 0) ||
                   negb (blen (se_saved e) =? se_live_size e) then fails None else
                w ← live_write (se_live e) (se_saved e) w; Some (0, None, (w, m))
    | None => fails None
    end
  | Apply None => fails None
  | AppRuns f => w ← f w; Some (0, None, (w, m))
  end.
End Spec.

(** ** The abstraction *)

Definition skey (s : app_runtime_slot_t) : option (list Z) :=
  if sl_used s then Some (c_str (sl_name s)) else None.
Definition session_of (s : app_runtime_slot_t) : session :=
  mk_session (take (Z.to_nat (sl_size s)) (sl_data s)) (sl_live s) (sl_live_size s).

(** Nothing is bound, or an object no larger than a session. *)
Definition slot_ok (s : app_runtime_slot_t) : Prop :=
  length (sl_data s) = 256%nat ∧ 0 <= sl_size s <= 256 ∧
  (sl_live s = 0 ∧ sl_live_size s = 0 ∨ sl_live s ≠ 0 ∧ 0 < sl_live_size s <= 256) ∧
  (sl_used s = true → c_str (sl_name s) ≠ []).

Definition table_ok (g : list app_runtime_slot_t) : Prop :=
  length g = Z.to_nat APP_MAX ∧ slots_ok skey g ∧ ∀ i s, g !! i = Some s → slot_ok s.
Definition sessions_of (g : list app_runtime_slot_t) : sessions := session_of <$> tab skey g.

(** Names that a slot holds whole. *)
Definition name_ok (name : option (list Z)) : Prop :=
  ∀ n, name = Some n → is_cstr n ∧ (length n < Z.to_nat APP_NAME_MAX)%nat.
Definition session_op_ok {W} (o : session_op W) : Prop :=
  match o with
  | SetState name _ size | GetState name _ size | Bind name _ size => name_ok name ∧ 0 <= size
  | Capture name | Apply name => name_ok name
  | AppRuns _ => True
  end.

Lemma session_saved_len s : slot_ok s → blen (se_saved (session_of s)) = sl_size s.
Proof. intros (Hd & Hs & _). cbn. rewrite blen_take; unfold blen; lia. Qed.

Lemma find_slot_spec name g :
  table_ok g →
  match find_slot (Some name) g with
  | Some i => ∃ s, g !! i = Some s ∧ skey s = Some name ∧ slot_ok s ∧
                   sessions_of g !! name = Some (session_of s)
  | None => sessions_of g !! name = None
  end.
Proof.
  intros (_ & Hk & Hs). unfold find_slot, sessions_of. rewrite lookup_fmap.
  unfold str_eq at 1. case_bool_decide as En.
  - subst name. apply fmap_None, tab_none; [done|]. intros i s Hi Ek. unfold skey in Ek.
    destruct (Hs i s Hi) as (_ & _ & _ & Hn). destruct (sl_used s); [|done]. by destruct Hn; [|congruence].
  - assert (∀ s, sl_used s && str_eq (c_str (sl_name s)) name = true ↔ skey s = Some name) as Hp.
    { intros s. unfold skey, str_eq. destruct (sl_used s); cbn; [|done].
      rewrite bool_decide_eq_true. naive_solver. }
    pose proof (first_key skey _ g name Hk Hp) as F. destruct (first _ g) as [i|].
    + destruct F as (s & Hi & Ek & Et). exists s. rewrite Et. split_and!; [done..|by eapply Hs|done].
    + by rewrite F.
Qed.

Lemma table_put g i s s' name :
  table_ok g → g !! i = Some s → skey s' = Some name → slot_ok s' →
  (skey s = Some name ∨ (skey s = None ∧ sessions_of g !! name = None)) →
  table_ok (<[i := s']> g) ∧ sessions_of (<[i := s']> g) = <[name := session_of s']> (sessions_of g).
Proof.
  intros (Hlen & Hk & Hs) Hi Ek Hok Hor. unfold sessions_of in *.
  assert (skey s = Some name ∨ (skey s = None ∧ tab skey g !! name = None)) as Hor'.
  { destruct Hor as [E|[E Hn]]; [by left|right]. split; [done|]. rewrite lookup_fmap in Hn. by apply fmap_None in Hn. }
  destruct (tab_put skey g i s s' name Hk Hi Ek Hor') as [Hk' Et].
  split; [split_and!; [by rewrite length_insert|done|]|by rewrite Et, fmap_insert].
  intros j b Hj. apply lookup_insert_case in Hj as [(_ & -> & _)|[_ Hj]]; [done|by eapply Hs].
Qed.

Lemma sessions_size g : table_ok g → size (sessions_of g) = size (tab skey g).
Proof. intros. unfold sessions_of. apply map_size_fmap. Qed.

Lemma take_slot_spec name g :
  table_ok g → is_cstr name → (length name < 32)%nat →
  let (o, g') := take_slot (Some name) g in
  match o with
  | Some i => ∃ s, opened name (sessions_of g) = Some (session_of s) ∧ g' !! i = Some s ∧
      skey s = Some name ∧ slot_ok s ∧ ∀ s', skey s' = Some name → slot_ok s' →
        table_ok (<[i := s']> g') ∧ sessions_of (<[i := s']> g') = <[name := session_of s']> (sessions_of g)
  | None => opened name (sessions_of g) = None ∧ g' = g
  end.
Proof.
  intros Hg Hc Hlen. unfold take_slot. pose proof (find_slot_spec name g Hg) as F.
  destruct (find_slot (Some name) g) as [i|].
  { destruct F as (s & Hi & Ek & Hok & Es). exists s. unfold opened. rewrite Es. split_and!; [done..|].
    intros s' Ek' Hok'. eapply table_put; eauto. }
  unfold opened. rewrite F. unfold str_eq. case_bool_decide as En; [by rewrite andb_false_r|].
  rewrite andb_true_r, sessions_size by done.
  destruct Hg as (Hl & Hk & Hs).
  assert (∀ s, negb (sl_used s) = true ↔ skey s = None) as Hp.
  { intros s. unfold skey. by destruct (sl_used s). }
  pose proof (first_free skey _ g Hk Hp) as E. destruct (first _ g) as [i|].
  - destruct E as (s & Hi & Ek & Hsz). rewrite Hl in Hsz. apply Nat.ltb_lt in Hsz as ->.
    eexists. split; [|split; [apply list_lookup_insert_eq; by eapply lookup_lt_Some|]]; [done|].
    assert (skey (mk_slot (strncpy (zeros APP_NAME_MAX) name (Z.to_nat (APP_NAME_MAX - 1)))
                    (zeros APP_STATE_BYTES) 0 0 0 true) = Some name) as En'.
    { unfold skey. cbn [sl_used sl_name]. rewrite c_str_strncpy by done.
      change (Z.to_nat (APP_NAME_MAX - 1)) with 31%nat. by rewrite take_ge by lia. }
    split; [exact En'|]. split.
    + split_and!; cbn; [done|lia..|left; done|intros _; cbn in En'; congruence].
    + intros s' Ek' Hok'. rewrite list_insert_insert_eq. eapply table_put; [done..|]. right. done.
  - rewrite E, Hl. rewrite Nat.ltb_irrefl. done.
Qed.

(** ** The refinement *)

Section Refine.
Context {W : Type} `{LiveMem W}.

Definition state_ok (wg : W * list app_runtime_slot_t) : Prop := table_ok wg.2.
Definition state_of (wg : W * list app_runtime_slot_t) : W * sessions := (wg.1, sessions_of wg.2).

Lemma set_saved_ok d n s :
  slot_ok s → length d = 256%nat → 0 <= n <= 256 → slot_ok (set_saved d n s).
Proof. intros (_ & _ & Hl & Hn) Hd Hn'. unfold slot_ok. cbn. auto. Qed.

Lemma set_live_ok a n s : slot_ok s → a ≠ 0 → 0 < n <= 256 → slot_ok (set_live a n s).
Proof. intros (Hd & Hs & _ & Hn) Ha Hn'. unfold slot_ok. cbn. auto 10. Qed.

(** Saving bytes in the slot. *)
Lemma write_saved s src size :
  slot_ok s → 0 <= size <= 256 → blen src = size →
  ∃ d, wr_bytes (sl_data s) 0 src = Some d ∧ slot_ok (set_saved d size s) ∧
       session_of (set_saved d size s) = mk_session src (sl_live s) (sl_live_size s).
Proof.
  intros Hok Hsz Hlen. pose proof Hok as (Hd & _). unfold blen in Hlen.
  assert (wr_bytes (sl_data s) 0 src = Some (src ++ drop (length src) (sl_data s))) as Ew
    by (apply wr_bytes_prefix; unfold blen; lia).
  eexists. split; [exact Ew|]. split.
  - apply set_saved_ok; [done| |done]. rewrite length_app, length_drop. lia.
  - unfold session_of. cbn. f_equal. replace (Z.to_nat size) with (length src) by lia.
    apply take_app_length.
Qed.

Lemma name_ok_some n : name_ok (Some n) → is_cstr n ∧ (length n < 32)%nat.
Proof. intros Hn. exact (Hn n eq_refl). Qed.

Lemma take_slot_none g : take_slot None g = (None, g).
Proof. done. Qed.

Definition meets (o : session_op W) (wg : W * list app_runtime_slot_t) : Prop :=
  spec_step o (state_of wg) = seen state_of (session_step o wg) ∧
  ∀ r s', session_step o wg = Some (r, s') → state_ok s'.

(** A call that leaves everything as it was. *)
Lemma meets_same o w g r :
  table_ok g → session_step o (w, g) = Some (r, (w, g)) →
  spec_step o (w, sessions_of g) = Some (r, (w, sessions_of g)) → meets o (w, g).
Proof.
  intros Hg E Es. unfold meets, state_of. cbn [fst snd]. rewrite Es, E. split; [done|].
  by intros r' s' [= _ <-].
Qed.

(** A call that replaces the session of a name. *)
Lemma meets_put o w g g' r n e :
  session_step o (w, g) = Some (r, (w, g')) →
  spec_step o (w, sessions_of g) = Some (r, (w, <[n := e]> (sessions_of g))) →
  table_ok g' ∧ sessions_of g' = <[n := e]> (sessions_of g) → meets o (w, g).
Proof.
  intros E Es [Hg' Et]. unfold meets, state_of. cbn [fst snd]. rewrite Es, E. cbn [seen mbind option_bind fst snd]. rewrite Et.
  split; [done|]. by intros r' s' [= _ <-].
Qed.

(** A save of a size that fits. *)
Lemma app_set_state_fits n data size g :
  table_ok g → name_ok (Some n) → (size =? 0) || (256 <? size) = false → 0 <= size →
  match opened n (sessions_of g), rd_bytes data 0 size with
  | Some e, Some src =>
      ∃ g', app_set_state (Some n) (Some data) size g = Some (0, g') ∧ table_ok g' ∧
        sessions_of g' = <[n := mk_session src (se_live e) (se_live_size e)]> (sessions_of g)
  | Some _, None => app_set_state (Some n) (Some data) size g = None
  | None, _ => app_set_state (Some n) (Some data) size g = Some (-1, g)
  end.
Proof.
  intros Hg Hn Eb Hsz. destruct (name_ok_some n Hn) as [Hc Hlen].
  pose proof (take_slot_spec n g Hg Hc Hlen) as T. unfold app_set_state.
  change APP_STATE_BYTES with 256. rewrite Eb.
  destruct (take_slot (Some n) g) as [[i|] g']; [|destruct T as [-> ->]; by destruct (rd_bytes data 0 size)].
  destruct T as (s & -> & Hi & Ek & Hok & Hput). rewrite Hi. cbn [mbind option_bind].
  destruct (rd_bytes data 0 size) as [src|] eqn:Er; cbn [mbind option_bind]; [|done].
  apply orb_false_elim in Eb as [_ Eb]. apply Z.ltb_ge in Eb.
  apply rd_bytes_length in Er as [Hlen' _].
  destruct (write_saved s src size Hok ltac:(lia) Hlen') as (d & -> & Hok' & Ese).
  eexists. split; [done|]. cbn [session_of se_live se_live_size]. rewrite <- Ese. by apply Hput.
Qed.

Lemma meets_set name data size w g :
  table_ok g → name_ok name → 0 <= size → meets (SetState name data size) (w, g).
Proof.
  intros Hg Hn Hsz. destruct data as [data|]; [|apply (meets_same _ _ _ (-1, None)); [done..|by destruct name]].
  destruct ((size =? 0) || (256 <? size)) eqn:Eb.
  { assert (app_set_state name (Some data) size g = Some (-1, g)) as E
      by (unfold app_set_state; change APP_STATE_BYTES with 256; by rewrite Eb).
    apply (meets_same _ _ _ (-1, None)); [done| |]; cbn [session_step spec_step]; [by rewrite E|].
    destruct name; [|done]. by rewrite Eb. }
  destruct name as [n|].
  2:{ apply (meets_same _ _ _ (-1, None)); [done| |done]. cbn [session_step]. unfold app_set_state.
      rewrite take_slot_none. by destruct (_ || _). }
  pose proof (app_set_state_fits n data size g Hg Hn Eb Hsz) as F.
  destruct (opened n (sessions_of g)) as [e|] eqn:Eo.
  - destruct (rd_bytes data 0 size) as [src|] eqn:Er.
    + destruct F as (g' & F & Hput). eapply (meets_put _ _ _ g'); [..|exact Hput];
        cbn [session_step spec_step]; [by rewrite F|by rewrite Eb, Eo, Er].
    + unfold meets, state_of. cbn [fst snd session_step spec_step]. by rewrite F, Eb, Eo, Er.
  - apply (meets_same _ _ _ (-1, None)); [done|..]; cbn [session_step spec_step]; [by rewrite F|by rewrite Eb, Eo].
Qed.

Lemma meets_bind name live size w g :
  table_ok g → name_ok name → 0 <= size → meets (Bind name live size) (w, g).
Proof.
  intros Hg Hn Hsz. destruct ((live =? 0) || (size =? 0) || (256 <? size)) eqn:Eb.
  { apply (meets_same _ _ _ (-1, None)); [done| |]; cbn [session_step spec_step].
    - unfold app_state_bind. change APP_STATE_BYTES with 256. by rewrite Eb.
    - destruct name; [|done]. by rewrite Eb. }
  destruct name as [n|].
  2:{ apply (meets_same _ _ _ (-1, None)); [done| |done]. cbn [session_step]. unfold app_state_bind.
      rewrite take_slot_none. by destruct (_ || _). }
  destruct (name_ok_some n Hn) as [Hc Hlen]. pose proof (take_slot_spec n g Hg Hc Hlen) as T.
  destruct (take_slot (Some n) g) as [[i|] g'] eqn:Et.
  2:{ destruct T as [Eo ->]. apply (meets_same _ _ _ (-1, None)); [done| |]; cbn [session_step spec_step].
      - unfold app_state_bind. change APP_STATE_BYTES with 256. by rewrite Eb, Et.
      - by rewrite Eb, Eo. }
  destruct T as (s & Eo & Hi & Ek & Hok & Hput).
  apply (meets_put _ _ _ (<[i := set_live live size s]> g') (0, None) n (session_of (set_live live size s)));
    cbn [session_step spec_step].
  - unfold app_state_bind. change APP_STATE_BYTES with 256. by rewrite Eb, Et, Hi.
  - by rewrite Eb, Eo.
  - apply Hput; [done|]. bool_hyps. by apply set_live_ok; [..|lia].
Qed.

Lemma meets_get name data size w g :
  table_ok g → name_ok name → 0 <= size → meets (GetState name data size) (w, g).
Proof.
  intros Hg Hn Hsz. destruct data as [dst|].
  2:{ apply (meets_same _ _ _ (-1, None)); [done|done|by destruct name]. }
  destruct name as [n|]; [|by apply (meets_same _ _ _ (-1, Some dst))].
  pose proof (find_slot_spec n g Hg) as F. unfold meets, state_of.
  cbn [fst snd session_step spec_step]. unfold app_get_state.
  destruct (find_slot (Some n) g) as [i|].
  2:{ rewrite F. cbn. split; [done|]. by intros r s' [= _ <-]. }
  destruct F as (s & -> & Ek & Hok & ->). rewrite session_saved_len by done. cbn [mbind option_bind].
  destruct ((sl_size s =? 0) || negb (sl_size s =? size)) eqn:Eb.
  { cbn. split; [done|]. by intros r s' [= _ <-]. }
  bool_hyps. subst size. pose proof Hok as (Hd & Hs & _).
  rewrite rd_bytes_ok by (unfold blen; lia). cbn [mbind option_bind session_of se_saved].
  change (drop (Z.to_nat 0) (sl_data s)) with (sl_data s).
  destruct (wr_bytes dst 0 _) as [dst'|]; cbn; [|done]. split; [done|]. by intros r s' [= _ <-].
Qed.

Lemma meets_capture name w g : table_ok g → name_ok name → meets (Capture name) (w, g).
Proof.
  intros Hg Hn. destruct name as [n|]; [|by apply (meets_same _ _ _ (0, None))].
  pose proof (find_slot_spec n g Hg) as F. destruct (find_slot (Some n) g) as [i|] eqn:Ef.
  2:{ apply (meets_same _ _ _ (0, None)); [done|..]; cbn [session_step spec_step].
      - unfold app_state_capture. by rewrite Ef.
      - by rewrite F. }
  destruct F as (s & Hi & Ek & Hok & Es). pose proof Hok as (_ & _ & Hl & _).
  destruct (sl_live s =? 0) eqn:E0.
  { apply (meets_same _ _ _ (0, None)); [done|..]; cbn [session_step spec_step].
    - unfold app_state_capture. rewrite Ef, Hi. cbn [mbind option_bind]. by rewrite E0.
    - rewrite Es. cbn [session_of se_live]. by rewrite E0. }
  apply Z.eqb_neq in E0 as Hne. destruct Hl as [[? _]|[_ Hl]]; [done|].
  assert ((sl_live_size s =? 0) = false) as E1 by (apply Z.eqb_neq; lia).
  assert ((256 <? sl_live_size s) = false) as E2 by (apply Z.ltb_ge; lia).
  assert (spec_step (Capture (Some n)) (w, sessions_of g) =
          (data ← live_read (sl_live s) (sl_live_size s) w; data ← rd_bytes data 0 (sl_live_size s);
           Some (0, None, (w, <[n := mk_session data (sl_live s) (sl_live_size s)]> (sessions_of g))))) as Esp.
  { cbn [spec_step]. rewrite Es. cbn [session_of se_live se_live_size]. by rewrite E0. }
  assert (session_step (Capture (Some n)) (w, g) =
          ('(r, g) ← (data ← live_read (sl_live s) (sl_live_size s) w;
                     app_set_state (Some n) (Some data) (sl_live_size s) g); Some (r, None, (w, g)))) as Est.
  { cbn [session_step]. unfold app_state_capture. rewrite Ef, Hi. cbn [mbind option_bind]. by rewrite E0, E1. }
  destruct (live_read (sl_live s) (sl_live_size s) w) as [data|]; cbn [mbind option_bind] in Esp, Est.
  2:{ unfold meets, state_of. cbn [fst snd]. by rewrite Esp, Est. }
  pose proof (app_set_state_fits n data (sl_live_size s) g Hg Hn ltac:(by rewrite E1, E2) ltac:(lia)) as F.
  unfold opened in F. rewrite Es in F. cbn [session_of se_live se_live_size] in F.
  destruct (rd_bytes data 0 (sl_live_size s)) as [src|]; cbn [mbind option_bind] in Esp.
  - destruct F as (g' & F & Hput). eapply (meets_put _ _ _ g'); [..|exact Hput]; [|exact Esp].
    rewrite Est, F. done.
  - unfold meets, state_of. cbn [fst snd]. by rewrite Esp, Est, F.
Qed.

Lemma meets_apply name w g : table_ok g → name_ok name → meets (Apply name) (w, g).
Proof.
  intros Hg Hn. destruct name as [n|]; [|by apply (meets_same _ _ _ (-1, None))].
  pose proof (find_slot_spec n g Hg) as F. unfold meets, state_of.
  cbn [fst snd session_step spec_step]. unfold app_state_apply.
  destruct (find_slot (Some n) g) as [i|].
  2:{ rewrite F. cbn. split; [done|]. by intros r s' [= _ <-]. }
  destruct F as (s & -> & Ek & Hok & ->). rewrite session_saved_len by done. cbn [mbind option_bind].
  cbn [session_of se_live se_live_size se_saved].
  destruct ((sl_live s =? 0) || (sl_size s =? 0) || negb (sl_size s =? sl_live_size s)) eqn:Eb.
  { cbn. split; [done|]. by intros r s' [= _ <-]. }
  pose proof Hok as (Hd & Hs & _). rewrite rd_bytes_ok by (unfold blen; lia). cbn [mbind option_bind].
  change (drop (Z.to_nat 0) (sl_data s)) with (sl_data s).
  destruct (live_write _ _ w) as [w'|]; cbn; [|done]. split; [done|]. by intros r s' [= _ <-].
Qed.

Lemma sessions_refine : refines session_step spec_step session_op_ok state_ok state_of.
Proof.
  intros o [w g] Ho Hg. destruct o as [name data size|name data size|name live size|name|name|f]; cbn in Ho.
  - destruct Ho. by apply meets_set.
  - destruct Ho. by apply meets_get.
  - destruct Ho. by apply meets_bind.
  - by apply meets_capture.
  - by apply meets_apply.
  - unfold state_of. cbn. destruct (f w) as [w'|]; cbn; [|done]. split; [done|]. by intros r s' [= _ <-].
Qed.

Lemma table_init : table_ok g_slots_init ∧ sessions_of g_slots_init = ∅.
Proof.
  assert (∀ i s, g_slots_init !! i = Some s → s = slot_zero) as Hz.
  { intros i s Hi. unfold g_slots_init in Hi. by apply lookup_replicate in Hi as [-> _]. }
  destruct (slots_all_free skey g_slots_init) as [Hk Et]; [by intros i s ->%Hz|].
  split; [|unfold sessions_of; by rewrite Et, fmap_empty].
  split_and!; [done|done|]. intros i s ->%Hz. split_and!; cbn; [done|lia..|by left|done].
Qed.

(** The saved sessions of the apps behave as a map from names to sessions.  Any sequence of
    calls (save, load, bind a live object, capture it, apply it, and whatever the apps do to their
    objects in between), with names that fit a slot, gives from the empty table exactly the
    results, buffers and objects that the map of at most sixteen sessions gives: a call never
    touches the session of another name, a full table refuses new names and nothing else, and
    applying writes back the bytes last captured or saved when the size is that of the bound
    object.  No call reads or writes outside a slot. *)
Theorem app_sessions_map (l : list (session_op W)) (w : W) :
  Forall session_op_ok l →
  runs spec_step l (w, ∅) = seen state_of (runs session_step l (w, g_slots_init)).
Proof.
  intros Hl. destruct table_init as [Ht E].
  destruct (runs_refine _ _ _ _ _ l (w, g_slots_init) sessions_refine Hl Ht) as [R _].
  unfold state_of at 1 in R. cbn [fst snd] in R. by rewrite E in R.
Qed.

(** A session that was captured comes back when it is applied, whatever the app did to the
    object in between. *)
Lemma capture_apply n w w' g g' s i data :
  table_ok g → name_ok (Some n) → find_slot (Some n) g = Some i → g !! i = Some s →
  sl_live s ≠ 0 → live_read (sl_live s) (sl_live_size s) w = Some data → blen data = sl_live_size s →
  app_state_capture (Some n) w g = Some (0, g') →
  app_state_apply (Some n) g' w' = (w ← live_write (sl_live s) data w'; Some (0, w)).
Proof.
  intros Hg Hn Ef Hi Hl Er Hlen Ec. pose proof (find_slot_spec n g Hg) as F. rewrite Ef in F.
  destruct F as (s' & Hi' & _ & Hok & Es). assert (s' = s) as -> by congruence.
  pose proof Hok as (_ & _ & Hls & _). destruct Hls as [[? _]|[_ Hls]]; [done|].
  destruct (meets_capture (Some n) w g Hg Hn) as [M Hg']. unfold state_of in M, Hg'. cbn [fst snd] in M.
  cbn [session_step spec_step] in M, Hg'. rewrite Ec in M, Hg'. rewrite Es in M.
  cbn [session_of se_live se_live_size se_saved] in M.
  rewrite (proj2 (Z.eqb_neq _ _) Hl), Er in M. cbn [mbind option_bind seen fst snd] in M.
  rewrite rd_bytes_all in M by done. cbn [mbind option_bind] in M. injection M as Em.
  specialize (Hg' (0, None) (w, g') eq_refl).
  destruct (meets_apply (Some n) w' g' Hg' Hn) as [M _]. unfold state_of in M. cbn [fst snd] in M.
  cbn [session_step spec_step] in M. rewrite <- Em, lookup_insert_eq in M. cbn [se_live se_live_size se_saved] in M.
  rewrite (proj2 (Z.eqb_neq _ _) Hl), Hlen, Z.eqb_refl in M. cbn [negb orb] in M.
  rewrite (proj2 (Z.eqb_neq _ 0)) in M by lia. cbn [orb] in M.
  destruct (app_state_apply (Some n) g' w') as [[r w2]|]; destruct (live_write (sl_live s) data w') as [w3|];
    cbn [mbind option_bind seen fst snd] in M |- *; congruence.
Qed.

(** A name that a slot cannot hold is never found again. *)
Lemma long_name_lost n g :
  (∀ i s, g !! i = Some s → sl_name s !! 31%nat = Some 0) → (31 < length n)%nat →
  find_slot (Some n) g = None.
Proof.
  intros Hg Hlen. unfold find_slot. case_match; [done|].
  destruct (first _ g) as [i|] eqn:E; [|done]. apply first_some in E as (s & Hi & E).
  apply andb_true_iff in E as [_ E]. unfold str_eq in E. apply bool_decide_eq_true in E.
  pose proof (c_str_nul _ _ (Hg i s Hi)). rewrite E in *. lia.
Qed.
End Refine.

Module SessionRuns.
(** One object of four bytes at address 1. *)
Definition one_object : LiveMem (list Z) := {|
  live_read a n w := if a =? 1 then rd_bytes w 0 n else None;
  live_write a b w := if a =? 1 then wr_bytes w 0 b else None
|}.

Definition calls : list (session_op (list Z)) :=
  [Bind (Some [100]) 1 4; Apply (Some [100]); Capture (Some [100]); AppRuns (λ _, Some [9; 9; 9; 9]);
   Apply (Some [100]); GetState (Some [100]) (Some [0; 0; 0; 0]) 4; GetState (Some [101]) None 4;
   SetState (Some [101]) (Some [7]) 1; GetState (Some [101]) (Some [0]) 1].

(** The calls, and what they give. *)
Lemma app_sessions_map_witness :
  runs (spec_step (H := one_object)) calls ([1; 2; 3; 4], ∅) =
    seen state_of (runs (session_step (H := one_object)) calls ([1; 2; 3; 4], g_slots_init)) ∧
  option_map fst (runs (session_step (H := one_object)) calls ([1; 2; 3; 4], g_slots_init)) =
    Some [(0, None); (-1, None); (0, None); (0, None); (0, None); (0, Some [1; 2; 3; 4]); (-1, None);
          (0, None); (0, Some [7])].
Proof.
  split; [|vm_compute; reflexivity].
  apply (app_sessions_map (H := one_object)).
  assert (∀ x, x ≠ 0 → name_ok (Some [x])) as Hn.
  { intros x Hx n [= <-]. split; [by apply Forall_singleton|by apply Nat.ltb_lt]. }
  unfold calls. repeat (apply Forall_cons_2; [cbn [session_op_ok]; auto with lia|]). apply Forall_nil_2.
Defined.
End SessionRuns.
