(* ===== verification/Syscall.v ===== *)
(** * System calls and capabilities (apps/syscall.c)

    The table of handlers, indexed by the number of the call; capability sets, one
    32-bit word; the contexts of the apps.  Handlers are values that
    [SyscallCode] runs on the whole state. *)

From Stdlib Require Import ZArith Lia.
From stdpp Require Import base tactics option numbers fin_sets gmap list.
From S2P Require Import Prelude.
From S2P Require Import Runs.

Definition SYS_MAX : Z := 110.
Definition CAPABILITY_MAX : Z := 32.

(** ** Capability sets

    The words of the array; an index outside it is [None]. *)

Abbreviation capability_set_t := (list Z) (only parsing).

(** [set->caps[cap / 32] op 1u << (cap % 32)] *)
Definition cap_word (set : capability_set_t) (cap : Z) : option Z := rd set (cap / 32).
Definition cap_bit (cap : Z) : Z := u32 (Z.shiftl 1 (cap mod 32)).

Definition capability_set_create (ok : bool) : option capability_set_t :=
  if ok then Some [0] else None.

Definition capability_set_add (set : option capability_set_t) (cap : Z)
    : option (option capability_set_t) :=
  match set with
  | None => Some None
  | Some set => w ← cap_word set cap; set ← wr set (cap / 32) (Z.lor w (cap_bit cap)); Some (Some set)
  end.

Definition capability_set_remove (set : option capability_set_t) (cap : Z)
    : option (option capability_set_t) :=
  match set with
  | None => Some None
  | Some set =>
    w ← cap_word set cap;
    set ← wr set (cap / 32) (Z.land w (u32 (Z.lnot (cap_bit cap)))); Some (Some set)
  end.

Definition capability_set_has (set : option capability_set_t) (cap : Z) : option bool :=
  match set with
  | None => Some false
  | Some set => w ← cap_word set cap; Some (bits_set w (cap_bit cap))
  end.

Definition capability_set_clear (set : option capability_set_t) : option capability_set_t :=
  (λ set, replicate (length set) 0) <$> set.

(** [memcpy (dst->caps, src->caps, ...)]: the new value of [dst]. *)
Definition capability_set_copy (dst src : option capability_set_t) : option capability_set_t :=
  match dst, src with Some _, Some src => Some src | _, _ => dst end.

(** ** Contexts *)

Record app_context := mk_context { cx_app_id : Z; cx_caps : capability_set_t; cx_private : Z }.

Definition app_context_create (ok : bool) (app_id : Z) (caps : option capability_set_t)
    : option app_context :=
  if ok then
    let caps := default [0] (capability_set_copy (Some [0]) caps) in
    Some (mk_context app_id caps 0)
  else None.

Definition app_context_check_cap (ctx : option app_context) (cap : Z) : option Z :=
  match ctx with
  | None => Some (-1)
  | Some ctx => b ← capability_set_has (Some (cx_caps ctx)) cap; Some (if b : bool then 0 else -1)
  end.

(** ** The table of handlers *)

Section Table.
(** Handlers, and the rest of the world. *)
Context {Fn U : Type}.

Record syscall_entry_t := mk_syscall {
  sy_num : Z; sy_handler : option Fn; sy_required_cap : Z; sy_name : option (list Z)
}.
Definition syscall_zero : syscall_entry_t := mk_syscall 0 None 0 None.

Record syscalls := mk_syscalls {
  g_syscalls : list syscall_entry_t; g_syscall_initialized : bool; sy_env : U
}.

(** A handler gets the arguments, and returns its result and what it leaves in [*ret]. *)
Class SyscallCode := run_syscall : Fn → list Z → syscalls → option (Z * option Z * syscalls).
Context `{SyscallCode}.
Implicit Types (s : syscalls).

Definition with_table (t : list syscall_entry_t) s : syscalls :=
  mk_syscalls t (g_syscall_initialized s) (sy_env s).

Definition syscall_init s : Z * syscalls :=
  if g_syscall_initialized s then (0, s)
  else (0, mk_syscalls (replicate (Z.to_nat SYS_MAX) syscall_zero) true (sy_env s)).

Definition syscall_deinit s : syscalls :=
  mk_syscalls (replicate (Z.to_nat SYS_MAX) syscall_zero) false (sy_env s).

Definition syscall_register (entry : option syscall_entry_t) s : option (Z * syscalls) :=
  match entry with
  | None => Some (-1, s)
  | Some entry =>
    if (SYS_MAX <=? sy_num entry) || (sy_num entry <? 0) then Some (-1, s) else
    match sy_handler entry with
    | None => Some (-1, s)
    | Some _ => t ← wr (g_syscalls s) (sy_num entry) entry; Some (0, with_table t s)
    end
  end.

Definition syscall_unregister (num : Z) s : option (Z * syscalls) :=
  if (SYS_MAX <=? num) || (num <? 0) then Some (-1, s) else
  e ← rd (g_syscalls s) num;
  t ← wr (g_syscalls s) num (mk_syscall 0 None (sy_required_cap e) (sy_name e));
  Some (0, with_table t s).

Definition syscall_invoke (num : Z) (args : list Z) s : option (Z * option Z * syscalls) :=
  if negb (g_syscall_initialized s) then Some (-1, None, s) else
  if (SYS_MAX <=? num) || (num <? 0) then Some (-1, None, s) else
  entry ← rd (g_syscalls s) num;
  match sy_handler entry with
  | None => Some (-1, None, s)
  | Some f => run_syscall f args s
  end.
End Table.
Arguments syscall_entry_t : clear implicits.
Arguments syscalls : clear implicits.

(** ** Capability sets as sets *)

(** The capabilities of a word. *)
Definition caps_of (w : Z) : gset Z :=
  list_to_set (filter (λ c, Z.testbit w c = true) (seqZ 0 CAPABILITY_MAX)).

Lemma caps_of_spec w c : c ∈ caps_of w ↔ 0 <= c < CAPABILITY_MAX ∧ Z.testbit w c = true.
Proof.
  unfold caps_of. rewrite elem_of_list_to_set, list_elem_of_filter, elem_of_seqZ.
  unfold CAPABILITY_MAX. naive_solver lia.
Qed.

Lemma cap_bit_pow c : 0 <= c < CAPABILITY_MAX → cap_bit c = 2 ^ c ∧ c / 32 = 0.
Proof.
  unfold CAPABILITY_MAX. intros Hc. unfold cap_bit. rewrite Z.mod_small, Z.shiftl_1_l by lia.
  split; [|apply Z.div_small; lia]. apply wrap_id. split; [lia|].
  apply Z.pow_lt_mono_r; lia.
Qed.

Lemma lor_bit_in_w w c : is_u32 w → 0 <= c < 32 → is_u32 (Z.lor w (2 ^ c)).
Proof.
  intros Hw Hc. apply lor_in_w; [lia|done|]. split; [lia|apply Z.pow_lt_mono_r; lia].
Qed.

Lemma caps_of_lor w c :
  0 <= c < CAPABILITY_MAX → caps_of (Z.lor w (2 ^ c)) = {[c]} ∪ caps_of w.
Proof.
  intros Hc. apply set_eq. intros d. rewrite elem_of_union, elem_of_singleton, !caps_of_spec.
  destruct (decide (0 <= d < CAPABILITY_MAX)) as [Hd|Hd]; [|naive_solver].
  rewrite Z.lor_spec, Z.pow2_bits_eqb by lia. rewrite orb_true_iff, Z.eqb_eq. naive_solver.
Qed.

Lemma caps_of_land w c :
  0 <= c < CAPABILITY_MAX →
  caps_of (Z.land w (u32 (Z.lnot (2 ^ c)))) = caps_of w ∖ {[c]}.
Proof.
  intros Hc. apply set_eq. intros d. rewrite elem_of_difference, elem_of_singleton, !caps_of_spec.
  destruct (decide (0 <= d < CAPABILITY_MAX)) as [Hd|Hd]; [|naive_solver]. unfold CAPABILITY_MAX in *.
  rewrite Z.land_spec, wrap_testbit, bool_decide_true by lia.
  rewrite Z.lnot_spec, Z.pow2_bits_eqb by lia.
  rewrite ?andb_true_l, ?andb_true_iff, negb_true_iff, Z.eqb_neq. naive_solver.
Qed.

(** ** Runs of set operations *)

Inductive cap_op := CapAdd (c : Z) | CapRemove (c : Z) | CapHas (c : Z) | CapClear.

Definition cap_step (o : cap_op) (w : capability_set_t) : option (bool * capability_set_t) :=
  match o with
  | CapAdd c => r ← capability_set_add (Some w) c; w ← r; Some (true, w)
  | CapRemove c => r ← capability_set_remove (Some w) c; w ← r; Some (true, w)
  | CapHas c => b ← capability_set_has (Some w) c; Some (b, w)
  | CapClear => w ← capability_set_clear (Some w); Some (true, w)
  end.

Definition cap_spec (o : cap_op) (m : gset Z) : option (bool * gset Z) :=
  match o with
  | CapAdd c => Some (true, {[c]} ∪ m)
  | CapRemove c => Some (true, m ∖ {[c]})
  | CapHas c => Some (bool_decide (c ∈ m), m)
  | CapClear => Some (true, ∅)
  end.

Definition cap_ok (c : Z) : Prop := 0 <= c < CAPABILITY_MAX.
Definition cap_op_ok (o : cap_op) : Prop :=
  match o with CapAdd c | CapRemove c | CapHas c => cap_ok c | CapClear => True end.
Definition caps_inv (w : capability_set_t) : Prop := ∃ x, w = [x] ∧ is_u32 x.
Definition caps_abs (w : capability_set_t) : gset Z := caps_of (default 0 (head w)).

Lemma caps_add x c :
  is_u32 x → cap_ok c →
  capability_set_add (Some [x]) c = Some (Some [Z.lor x (2 ^ c)]) ∧ is_u32 (Z.lor x (2 ^ c)).
Proof.
  intros Hx Hc. split; [|by apply lor_bit_in_w]. destruct (cap_bit_pow c Hc) as [Eb Ed].
  unfold capability_set_add, cap_word. by rewrite Ed, Eb.
Qed.

Lemma caps_remove x c :
  is_u32 x → cap_ok c →
  capability_set_remove (Some [x]) c = Some (Some [Z.land x (u32 (Z.lnot (2 ^ c)))]) ∧
  is_u32 (Z.land x (u32 (Z.lnot (2 ^ c)))).
Proof.
  intros Hx Hc. split; [|by apply land_in_w_l]. destruct (cap_bit_pow c Hc) as [Eb Ed].
  unfold capability_set_remove, cap_word. by rewrite Ed, Eb.
Qed.

Lemma caps_has x c :
  cap_ok c → capability_set_has (Some [x]) c = Some (bool_decide (c ∈ caps_of x)).
Proof.
  intros Hc. destruct (cap_bit_pow c Hc) as [Eb Ed]. unfold capability_set_has, cap_word.
  rewrite Ed, Eb. change (rd [x] 0) with (Some x). cbn [mbind option_bind].
  rewrite bits_set_pow2 by (unfold cap_ok in Hc; lia). f_equal. symmetry.
  destruct (Z.testbit x c) eqn:E.
  - apply bool_decide_eq_true_2. by apply caps_of_spec.
  - apply bool_decide_eq_false_2. rewrite caps_of_spec. intros [_ E']. congruence.
Qed.

Lemma caps_refine : refines cap_step cap_spec cap_op_ok caps_inv caps_abs.
Proof.
  assert (∀ (b : bool) y, is_u32 y → ∀ r s', Some (b, [y]) = Some (r, s') → caps_inv s') as Hinv.
  { intros b y Hy r s' [= _ <-]. by exists y. }
  intros o w Ho (x & -> & Hx). destruct o as [c|c|c|]; cbn [cap_op_ok] in Ho; unfold caps_abs, seen.
  - destruct (caps_add x c Hx Ho) as [E Hy]. cbn [cap_step cap_spec]. rewrite E. cbn [mbind option_bind head from_option id].
    split; [by rewrite caps_of_lor|by apply Hinv].
  - destruct (caps_remove x c Hx Ho) as [E Hy]. cbn [cap_step cap_spec]. rewrite E.
    cbn [mbind option_bind head from_option id].
    split; [by rewrite caps_of_land|by apply Hinv].
  - cbn [cap_step cap_spec]. rewrite caps_has by done. cbn [mbind option_bind head from_option id].
    split; [done|by apply Hinv].
  - cbn [cap_step cap_spec]. split; [done|]. apply (Hinv true 0). done.
Qed.

(** ** Runs on the table *)

Section TableRuns.
Context {Fn U : Type} `{SyscallCode Fn U}.

Inductive table_op := Register (e : option (syscall_entry_t Fn)) | Unregister (num : Z).

Definition table_step (o : table_op) (s : syscalls Fn U) : option (Z * syscalls Fn U) :=
  match o with
  | Register e => syscall_register e s
  | Unregister num => syscall_unregister num s
  end.

(** The handler of a number after an operation, and its result. *)
Definition valid (num : Z) : bool := (0 <=? num) && (num <? SYS_MAX).
Definition handler_after (o : table_op) (num : Z) (h : option Fn) : option Fn :=
  match o with
  | Register (Some e) =>
    match sy_handler e with
    | Some f => if (num =? sy_num e) && valid num then Some f else h
    | None => h
    end
  | Register None => h
  | Unregister n => if (num =? n) && valid num then None else h
  end.
Definition op_result (o : table_op) : Z :=
  match o with
  | Register (Some e) => match sy_handler e with Some _ => if valid (sy_num e) then 0 else -1 | None => -1 end
  | Register None => -1
  | Unregister n => if valid n then 0 else -1
  end.

Definition handler_at (s : syscalls Fn U) (num : Z) : option Fn := e ← rd (g_syscalls s) num; sy_handler e.
Definition table_inv (s : syscalls Fn U) : Prop :=
  blen (g_syscalls s) = SYS_MAX ∧ g_syscall_initialized s = true.

Lemma valid_spec num : valid num = true ↔ 0 <= num < SYS_MAX.
Proof. unfold valid. rewrite andb_true_iff, Z.leb_le, Z.ltb_lt. lia. Qed.

Lemma valid_neg num : (SYS_MAX <=? num) || (num <? 0) = negb (valid num).
Proof. unfold valid. rewrite negb_andb, orb_comm. f_equal; zbool; lia. Qed.

(** Writing an entry of the table. *)
Lemma handler_wr (s : syscalls Fn U) num e :
  table_inv s → valid num = true →
  ∃ t, wr (g_syscalls s) num e = Some t ∧ table_inv (with_table t s) ∧
       ∀ n, handler_at (with_table t s) n = if (n =? num) && valid n then sy_handler e else handler_at s n.
Proof.
  intros [Hlen Hi] Hn. apply valid_spec in Hn. eexists.
  split; [apply wr_ok; lia|]. split; [split; [|done]|].
  - cbn. unfold blen. rewrite length_insert. exact Hlen.
  - intros n. unfold handler_at. cbn [with_table g_syscalls].
    destruct (decide (0 <= n)) as [Hn0|Hn0].
    + rewrite !rd_lookup by done. destruct (Z.eqb_spec n num) as [->|Hne].
      * rewrite (proj2 (valid_spec num)) by lia.
        rewrite list_lookup_insert_eq by (unfold blen in Hlen; lia). done.
      * by rewrite list_lookup_insert_ne by lia.
    + assert (valid n = false) as -> by (apply not_true_iff_false; rewrite valid_spec; lia).
      rewrite andb_false_r. unfold rd. by rewrite (proj2 (Z.leb_gt 0 n)) by lia.
Qed.

Lemma table_step_spec o s :
  table_inv s →
  ∃ s', table_step o s = Some (op_result o, s') ∧ table_inv s' ∧
        ∀ n, handler_at s' n = handler_after o n (handler_at s n).
Proof.
  intros Hs. destruct o as [[e|]|num]; cbn [table_step op_result handler_after].
  - unfold syscall_register. rewrite valid_neg.
    destruct (valid (sy_num e)) eqn:Ev; cbn [negb].
    + destruct (sy_handler e) as [f|] eqn:Ef; [|by exists s].
      destruct (handler_wr s (sy_num e) e Hs Ev) as (t & -> & Ht & Hn). eexists. split; [done|].
      split; [done|]. intros n. by rewrite Hn, Ef.
    + exists s. split; [by destruct (sy_handler e)|]. split; [done|]. intros n.
      destruct (sy_handler e); [|done]. destruct (Z.eqb_spec n (sy_num e)) as [->|]; [by rewrite Ev|done].
  - by exists s.
  - unfold syscall_unregister. rewrite valid_neg. destruct (valid num) eqn:Ev; cbn [negb].
    + pose proof (proj1 (valid_spec num) Ev) as Hr. destruct Hs as [Hlen Hi].
      destruct (rd_ok (g_syscalls s) num) as [e ->]; [lia|]. cbn [mbind option_bind].
      destruct (handler_wr s num (mk_syscall 0 None (sy_required_cap e) (sy_name e)) (conj Hlen Hi) Ev)
        as (t & -> & Ht & Hn). eexists. by split.
    + exists s. split_and!; [done..|]. intros n.
      destruct (Z.eqb_spec n num) as [->|]; [by rewrite Ev|done].
Qed.

(** The handler of a number after a run. *)
Fixpoint handler_of (l : list table_op) (num : Z) (h : option Fn) : option Fn :=
  match l with [] => h | o :: l => handler_of l num (handler_after o num h) end.

Lemma table_runs l s :
  table_inv s →
  ∃ s', runs table_step l s = Some (op_result <$> l, s') ∧ table_inv s' ∧
        ∀ n, handler_at s' n = handler_of l n (handler_at s n).
Proof.
  revert s. induction l as [|o l IH]; intros s Hs; [by exists s|]. cbn [runs].
  destruct (table_step_spec o s Hs) as (s1 & -> & H1 & Hn1). cbn [mbind option_bind].
  destruct (IH s1 H1) as (s2 & -> & H2 & Hn2). cbn [mbind option_bind fmap list_fmap].
  exists s2. split; [done|]. split; [done|]. intros n. by rewrite Hn2, Hn1.
Qed.

(** A system call runs the handler last registered for its number.  After any sequence of
    registrations and removals on a fresh table, whatever their arguments, each accepted or
    refused by its own number and handler, invoking a number gives its last handler the
    arguments and the whole state, and returns -1 with nothing changed when the number is out of
    range, was never registered or was removed since.  The capability that an entry requires
    plays no part. *)
Theorem syscall_last_handler (l : list table_op) (u : U) (num : Z) (args : list Z) :
  let s := mk_syscalls [] false u in
  ∃ s', runs table_step l (snd (syscall_init s)) = Some (op_result <$> l, s') ∧
    syscall_invoke num args s' =
      match handler_of l num None with
      | Some f => run_syscall f args s'
      | None => Some (-1, None, s')
      end.
Proof.
  cbn zeta. assert (table_inv (snd (syscall_init (mk_syscalls (@nil (syscall_entry_t Fn)) false u)))) as Hs
    by (split; [vm_compute; reflexivity|done]).
  destruct (table_runs l _ Hs) as (s' & E & [Hlen Hi] & Hn). exists s'. split; [exact E|].
  assert (handler_at (snd (syscall_init (mk_syscalls (@nil (syscall_entry_t Fn)) false u))) num = None) as En.
  { unfold handler_at, syscall_init. cbn [g_syscall_initialized snd g_syscalls].
    unfold rd. case_match; [|done]. destruct (_ !! _) as [e|] eqn:El; [|done].
    apply lookup_replicate in El as [-> _]. done. }
  specialize (Hn num). rewrite En in Hn. unfold syscall_invoke. rewrite Hi, valid_neg. cbn [negb].
  unfold handler_at in Hn. destruct (valid num) eqn:Ev; cbn [negb].
  - apply valid_spec in Ev. destruct (rd_ok (g_syscalls s') num) as [e Er]; [lia|].
    rewrite Er in *. cbn [mbind option_bind] in *. by rewrite Hn.
  - assert (rd (g_syscalls s') num = None) as Er.
    { unfold rd. destruct (0 <=? num) eqn:E0; [|done]. apply lookup_ge_None_2.
      unfold valid in Ev. rewrite E0 in Ev. cbn in Ev. apply Z.ltb_ge in Ev. apply Z.leb_le in E0.
      unfold blen in Hlen. lia. }
    rewrite Er in Hn. cbn in Hn. by rewrite <- Hn.
Qed.
End TableRuns.
