(* ===== verification/App.v ===== *)
(** * The application core (apps/app.c)

    The structs of the apps are blocks, each a key of a map, and a pointer to one that
    was freed leads nowhere ([None]).  The chain through their [next] fields, which
    only this file writes, is the list of their keys, newest first.  The spin lock is a
    flag, and taking it when it is set spins for ever ([None]).

    [AppOs] is what the core calls outside this file and app_runtime.c: the tasks of
    the scheduler, the tick count, the objects of the apps, and the memory at an address
    that a module gives for its manifest.  [task_suspend] of the calling task switches to
    another task: it is the last call of [app_suspend], so what the other tasks do before
    the call returns comes after it in a run. *)

From Stdlib Require Import ZArith Lia String.
From stdpp Require Import base tactics option numbers fin_maps gmap list.
From S2P Require Import Prelude.
From S2P Require Import CString.
From S2P Require Import Crc32.
From S2P Require Import Module.
From S2P Require Import Syscall.
From S2P Require Import AppRuntime.

Inductive app_state_t :=
  | APP_STATE_NOT_INSTALLED | APP_STATE_INSTALLED | APP_STATE_STOPPED
  | APP_STATE_RUNNING | APP_STATE_SUSPENDED | APP_STATE_ERROR.
#[export] Instance app_state_eq_dec : EqDecision app_state_t.
Proof. solve_decision. Defined.

(** The types of apps by their numbers. *)
Definition APP_TYPE_USER : Z := 0.

Record app_manifest_t := mk_manifest {
  am_name : list Z; am_version : list Z; am_type : Z; am_min_os_version : Z; am_entry_point : Z;
  am_stack_size : Z; am_heap_size : Z; am_capabilities : list Z; am_capability_count : Z;
  am_author : list Z; am_description : list Z
}.

Record app_limits_t := mk_limits {
  lm_max_cpu_time_ms : Z; lm_max_memory_bytes : Z; lm_max_storage_bytes : Z;
  lm_max_file_handles : Z; lm_max_timers : Z
}.

Record app_t := mk_app {
  ap_name : list Z; ap_state : app_state_t; ap_type : Z; ap_id : Z; ap_manifest : app_manifest_t;
  ap_limits : app_limits_t; ap_context : option app_context; ap_module : option ardmod_handle;
  ap_task : option nat; ap_start_time : Z; ap_cpu_time_used : Z; ap_memory_used : Z
}.

(** What the core calls.  [os_task_create] is given the task's name, the app its entry
    function gets, and the size of the stack. *)
Class AppOs (W : Type) := {
  os_objects :: LiveMem W;
  os_task_create : list Z → nat → Z → W → option (Z * option nat * W);
  os_task_delete : option nat → W → option W;
  os_task_suspend : nat → W → option W;
  os_task_resume : nat → W → option W;
  os_ticks : W → Z;
  os_manifest_at : Z → W → option app_manifest_t
}.

Section App.
Context `{Arch} {W : Type} `{AppOs W}.

Record app_core := mk_apps {
  g_apps : list nat; g_next_app_id : Z; g_app_lock : bool;
  app_at : gmap nat app_t; g_slots : list app_runtime_slot_t; g_crc : crc32_state; world : W
}.
Implicit Types (s : app_core) (a : app_t).

Definition with_lock (b : bool) s : app_core :=
  mk_apps (g_apps s) (g_next_app_id s) b (app_at s) (g_slots s) (g_crc s) (world s).
Definition with_chain (l : list nat) s : app_core :=
  mk_apps l (g_next_app_id s) (g_app_lock s) (app_at s) (g_slots s) (g_crc s) (world s).
Definition with_next_id (n : Z) s : app_core :=
  mk_apps (g_apps s) n (g_app_lock s) (app_at s) (g_slots s) (g_crc s) (world s).
Definition with_apps (m : gmap nat app_t) s : app_core :=
  mk_apps (g_apps s) (g_next_app_id s) (g_app_lock s) m (g_slots s) (g_crc s) (world s).
Definition with_slots (g : list app_runtime_slot_t) s : app_core :=
  mk_apps (g_apps s) (g_next_app_id s) (g_app_lock s) (app_at s) g (g_crc s) (world s).
Definition with_crc (c : crc32_state) s : app_core :=
  mk_apps (g_apps s) (g_next_app_id s) (g_app_lock s) (app_at s) (g_slots s) c (world s).
Definition with_world (w : W) s : app_core :=
  mk_apps (g_apps s) (g_next_app_id s) (g_app_lock s) (app_at s) (g_slots s) (g_crc s) w.

(** [p->field = ...] *)
Definition app_upd (p : nat) (f : app_t → app_t) s : option app_core :=
  a ← app_at s !! p; Some (with_apps (<[p := f a]> (app_at s)) s).

Definition set_state (st : app_state_t) a : app_t :=
  mk_app (ap_name a) st (ap_type a) (ap_id a) (ap_manifest a) (ap_limits a) (ap_context a)
    (ap_module a) (ap_task a) (ap_start_time a) (ap_cpu_time_used a) (ap_memory_used a).
Definition set_task (t : option nat) a : app_t :=
  mk_app (ap_name a) (ap_state a) (ap_type a) (ap_id a) (ap_manifest a) (ap_limits a) (ap_context a)
    (ap_module a) t (ap_start_time a) (ap_cpu_time_used a) (ap_memory_used a).
Definition set_times (start used : Z) a : app_t :=
  mk_app (ap_name a) (ap_state a) (ap_type a) (ap_id a) (ap_manifest a) (ap_limits a) (ap_context a)
    (ap_module a) (ap_task a) start used (ap_memory_used a).
Definition set_limits (l : app_limits_t) a : app_t :=
  mk_app (ap_name a) (ap_state a) (ap_type a) (ap_id a) (ap_manifest a) l (ap_context a)
    (ap_module a) (ap_task a) (ap_start_time a) (ap_cpu_time_used a) (ap_memory_used a).

(** ** The lock *)

Definition app_lock s : option app_core := if g_app_lock s then None else Some (with_lock true s).
Definition app_unlock s : app_core := with_lock false s.

Definition app_init s : Z * app_core :=
  (0, mk_apps [] 1 false (app_at s) (g_slots s) (g_crc s) (world s)).

(** [while (g_apps)]: every app of the chain is freed. *)
Fixpoint free_chain (l : list nat) (m : gmap nat app_t) : option (gmap nat app_t) :=
  match l with
  | [] => Some m
  | p :: l => _ ← m !! p; free_chain l (delete p m)
  end.

Definition app_deinit s : option app_core :=
  s ← app_lock s;
  m ← free_chain (g_apps s) (app_at s);
  Some (app_unlock (with_chain [] (with_apps m s))).

(** ** Searching *)

(** The first app of the chain that satisfies the test. *)
Fixpoint find_app (t : app_t → bool) (l : list nat) s : option (option nat) :=
  match l with
  | [] => Some None
  | p :: l => a ← app_at s !! p; if t a then Some (Some p) else find_app t l s
  end.
Definition named (name : list Z) a : bool := str_eq (c_str (ap_name a)) name.
Definition in_state (st : app_state_t) a : bool := bool_decide (ap_state a = st).

(** The search under the lock. *)
Definition locked_find (t : app_t → bool) s : option (option nat * app_core) :=
  s ← app_lock s; found ← find_app t (g_apps s) s; Some (found, app_unlock s).

Definition app_find (name : option (list Z)) s : option (option nat * app_core) :=
  match name with None => Some (None, s) | Some name => locked_find (named name) s end.

Definition app_find_by_id (app_id : Z) s : option (option nat * app_core) :=
  locked_find (λ a, ap_id a =? app_id) s.

(** ** Installing *)

(** [for (i = 0; i < capability_count; i++)], [n] rounds from [i]. *)
Fixpoint add_caps (n : nat) (i : Z) (m : app_manifest_t) (caps : option capability_set_t)
    : option (option capability_set_t) :=
  match n with
  | O => Some caps
  | S n => cap ← rd (am_capabilities m) i;
           caps ← capability_set_add caps cap;
           add_caps n (i + 1) m caps
  end.

Definition default_limits (m : app_manifest_t) : app_limits_t :=
  mk_limits 0 (if 0 <? am_heap_size m then am_heap_size m else 65536) 0 32 16.

(** The steps after the checks: [ctx_ok] and [block] are what the allocator answers. *)
Definition add_app (manifest : app_manifest_t) (handle : option ardmod_handle) (name : list Z)
    (ctx_ok : bool) (block : option nat) s : option (Z * app_core) :=
  caps ← add_caps (Z.to_nat (am_capability_count manifest)) 0 manifest (capability_set_clear (Some [0]));
  match app_context_create ctx_ok (g_next_app_id s) caps with
  | None => Some (-1, s)
  | Some ctx =>
    match block with
    | None => Some (-1, s)
    | Some p =>
      let app := mk_app (strncpy (zeros APP_NAME_MAX) name (Z.to_nat (APP_NAME_MAX - 1)))
                   APP_STATE_INSTALLED (am_type manifest) (g_next_app_id s) manifest
                   (default_limits manifest) (Some ctx) handle None 0 0 0 in
      let s := with_next_id (u32 (g_next_app_id s + 1)) s in
      let s := with_apps (<[p := app]> (app_at s)) s in
      s ← app_lock s;
      let s := with_chain (p :: g_apps s) s in
      Some (0, app_unlock s)
    end
  end.

Definition parse_manifest (handle : option ardmod_handle) s : option (Z * option app_manifest_t) :=
  match handle with
  | None => Some (-1, None)
  | Some _ =>
    sym ← ardmod_get_symbol handle (Some (str "app_manifest"));
    if negb (sym =? 0) then m ← os_manifest_at sym (world s); Some (0, Some m) else
    name ← ardmod_get_name handle;
    version ← ardmod_get_version handle;
    Some (0, Some (mk_manifest
      (strncpy (zeros APP_NAME_MAX) (c_str name) (Z.to_nat (APP_NAME_MAX - 1)))
      (strncpy (zeros 16) (c_str version) 15)
      APP_TYPE_USER 0 (ardmod_get_entry_point handle) 0 0 (zeros 16) 0 (zeros 64) (zeros 256)))
  end.

(** [handle_ok] to [dep_ok] are the allocations of [ardmod_load]. *)
Definition app_install (handle_ok data_ok sym_ok dep_ok ctx_ok : bool) (block : option nat)
    (module_data : option (list Z)) (module_size : Z) (name : option (list Z)) s
    : option (Z * app_core) :=
  match module_data, name with
  | Some _, Some name =>
    if module_size =? 0 then Some (-1, s) else
    '(handle, crc) ← ardmod_load handle_ok data_ok sym_ok dep_ok module_data module_size (g_crc s);
    let s := with_crc crc s in
    match handle with
    | None => Some (-1, s)
    | Some _ =>
      if negb (ardmod_resolve_deps handle =? 0) then Some (-1, s) else
      if negb (ardmod_register_symbols handle =? 0) then Some (-1, s) else
      '(r, manifest) ← parse_manifest handle s;
      if negb (r =? 0) then Some (-1, s) else
      manifest ← manifest;
      '(found, s) ← locked_find (named name) s;
      match found with
      | Some _ => Some (-1, s)
      | None => add_app manifest handle name ctx_ok block s
      end
    end
  | _, _ => Some (-1, s)
  end.

Definition app_install_manifest (ctx_ok : bool) (block : option nat)
    (manifest : option app_manifest_t) (name : option (list Z)) s : option (Z * app_core) :=
  match manifest, name with
  | Some manifest, Some name =>
    '(found, s) ← locked_find (named name) s;
    match found with
    | Some _ => Some (-1, s)
    | None => add_app manifest None name ctx_ok block s
    end
  | _, _ => Some (-1, s)
  end.

(** [*prev = a->next] for the node [p] of the chain. *)
Definition unchain (p : nat) (l : list nat) : list nat :=
  match list_find (p =.) l with Some (i, _) => delete i l | None => l end.

Definition app_uninstall (name : option (list Z)) s : option (Z * app_core) :=
  match name with
  | None => Some (-1, s)
  | Some name =>
    s ← app_lock s;
    found ← find_app (named name) (g_apps s) s;
    match found with
    | None => Some (-1, app_unlock s)
    | Some p =>
      a ← app_at s !! p;
      if in_state APP_STATE_RUNNING a then Some (-1, app_unlock s) else
      let s := with_chain (unchain p (g_apps s)) s in
      let s := with_apps (delete p (app_at s)) s in
      Some (0, app_unlock s)
    end
  end.

(** ** Running *)

Definition app_start (name : option (list Z)) s : option (Z * app_core) :=
  match name with
  | None => Some (-1, s)
  | Some name =>
    '(found, s) ← locked_find (named name) s;
    match found with
    | None => Some (-1, s)
    | Some p =>
      a ← app_at s !! p;
      if negb (in_state APP_STATE_INSTALLED a) && negb (in_state APP_STATE_STOPPED a)
      then Some (-1, s) else
      let stack := if 0 <? am_stack_size (ap_manifest a) then am_stack_size (ap_manifest a) else 4096 in
      '(ret, task, w) ← os_task_create (c_str (ap_name a)) p stack (world s);
      let s := with_world w s in
      if negb (ret =? 0) then Some (-1, s) else
      s ← app_upd p (set_task task) s;
      s ← app_upd p (set_state APP_STATE_RUNNING) s;
      s ← app_upd p (set_times (os_ticks (world s)) 0) s;
      Some (0, s)
    end
  end.

(** [app_state_capture (name)] and [app_state_apply (name)], whose results are not used. *)
Definition capture (name : list Z) s : option app_core :=
  '(_, g) ← app_state_capture (Some name) (world s) (g_slots s); Some (with_slots g s).
Definition apply_state (name : list Z) s : option app_core :=
  '(_, w) ← app_state_apply (Some name) (g_slots s) (world s); Some (with_world w s).

Definition app_stop (name : option (list Z)) s : option (Z * app_core) :=
  match name with
  | None => Some (-1, s)
  | Some name =>
    '(found, s) ← locked_find (named name) s;
    match found with
    | None => Some (-1, s)
    | Some p =>
      a ← app_at s !! p;
      if negb (in_state APP_STATE_RUNNING a) then Some (-1, s) else
      s ← capture name s;
      s ← match ap_task a with
          | Some _ => w ← os_task_delete (ap_task a) (world s);
                      app_upd p (set_task None) (with_world w s)
          | None => Some s
          end;
      s ← app_upd p (set_state APP_STATE_STOPPED) s;
      a ← app_at s !! p;
      let used := u32 (ap_cpu_time_used a + u32 (os_ticks (world s) - ap_start_time a)) in
      s ← app_upd p (set_times (ap_start_time a) used) s;
      Some (0, s)
    end
  end.

Definition app_suspend (name : option (list Z)) s : option (Z * app_core) :=
  match name with
  | None => Some (-1, s)
  | Some n =>
    '(found, s) ← app_find name s;
    match found with
    | None => Some (-1, s)
    | Some p =>
      a ← app_at s !! p;
      if negb (in_state APP_STATE_RUNNING a) then Some (-1, s) else
      s ← capture n s;
      s ← app_upd p (set_state APP_STATE_SUSPENDED) s;
      match ap_task a with
      | Some t => w ← os_task_suspend t (world s); Some (0, with_world w s)
      | None => Some (0, s)
      end
    end
  end.

Definition app_resume (name : option (list Z)) s : option (Z * app_core) :=
  match name with
  | None => Some (-1, s)
  | Some n =>
    '(found, s) ← app_find name s;
    match found with
    | None => Some (-1, s)
    | Some p =>
      a ← app_at s !! p;
      if negb (in_state APP_STATE_SUSPENDED a) then Some (-1, s) else
      s ← apply_state n s;
      s ← match ap_task a with
          | Some t => w ← os_task_resume t (world s); Some (with_world w s)
          | None => Some s
          end;
      s ← app_upd p (set_state APP_STATE_RUNNING) s;
      Some (0, s)
    end
  end.

(** The entry function of an app's task: [run] is the app's own code. *)
Definition app_task_entry (run : Z → app_core → option app_core) (p : nat) s : option app_core :=
  a ← app_at s !! p;
  match ap_context a with
  | None => Some s
  | Some _ =>
    let entry := am_entry_point (ap_manifest a) in
    s ← if entry =? 0 then Some s else run entry s;
    a ← app_at s !! p;
    '(_, s) ← app_stop (Some (c_str (ap_name a))) s;
    a ← app_at s !! p;
    w ← os_task_delete (ap_task a) (world s);
    Some (with_world w s)
  end.

(** ** Queries *)

(** The manifest and the state written to the caller. *)
Definition app_get_info (name : option (list Z)) s
    : option (Z * option (app_manifest_t * app_state_t) * app_core) :=
  '(found, s) ← app_find name s;
  match found with
  | None => Some (-1, None, s)
  | Some p => a ← app_at s !! p; Some (0, Some (ap_manifest a, ap_state a), s)
  end.

(** The pointers written to [apps], as many as the count. *)
Definition app_list (apps count : bool) (max_apps : Z) s : option (Z * list nat * app_core) :=
  if negb apps || negb count then Some (-1, [], s) else
  s ← app_lock s;
  Some (0, take (Z.to_nat max_apps) (g_apps s), app_unlock s).

Definition app_set_limits (name : option (list Z)) (limits : option app_limits_t) s
    : option (Z * app_core) :=
  match name, limits with
  | Some _, Some limits =>
    '(found, s) ← app_find name s;
    match found with
    | None => Some (-1, s)
    | Some p => s ← app_upd p (set_limits limits) s; Some (0, s)
    end
  | _, _ => Some (-1, s)
  end.

Definition app_get_limits (name : option (list Z)) (limits : bool) s
    : option (Z * option app_limits_t * app_core) :=
  match name with
  | None => Some (-1, None, s)
  | Some _ =>
    if negb limits then Some (-1, None, s) else
    '(found, s) ← app_find name s;
    match found with
    | None => Some (-1, None, s)
    | Some p => a ← app_at s !! p; Some (0, Some (ap_limits a), s)
    end
  end.

(** The processor time and the memory written to the caller. *)
Definition app_get_resource_usage (name : option (list Z)) s : option (Z * option (Z * Z) * app_core) :=
  '(found, s) ← app_find name s;
  match found with
  | None => Some (-1, None, s)
  | Some p =>
    a ← app_at s !! p;
    let cpu := if in_state APP_STATE_RUNNING a
               then u32 (ap_cpu_time_used a + u32 (os_ticks (world s) - ap_start_time a))
               else ap_cpu_time_used a in
    Some (0, Some (cpu, ap_memory_used a), s)
  end.

(** ** System keys *)

(** The first loop of [os_app_switch_next]: the last running app before the first
    installed one after a running one. *)
Fixpoint scan_next (current : option nat) (found_current : bool) (l : list nat) s
    : option (option nat * option nat) :=
  match l with
  | [] => Some (current, None)
  | p :: l =>
    a ← app_at s !! p;
    if in_state APP_STATE_RUNNING a then scan_next (Some p) true l s else
    if found_current && in_state APP_STATE_INSTALLED a then Some (current, Some p)
    else scan_next current found_current l s
  end.

(** [app_stop] and [app_start] are called with the lock held. *)
Definition os_app_switch_next s : option (Z * app_core) :=
  s ← app_lock s;
  '(current, next) ← scan_next None false (g_apps s) s;
  next ← match next with
         | Some _ => Some next
         | None => find_app (in_state APP_STATE_INSTALLED) (g_apps s) s
         end;
  s ← match current with
      | Some p => a ← app_at s !! p; '(_, s) ← app_stop (Some (c_str (ap_name a))) s; Some s
      | None => Some s
      end;
  s ← match next with
      | Some p => a ← app_at s !! p; '(_, s) ← app_start (Some (c_str (ap_name a))) s; Some s
      | None => Some s
      end;
  Some (match next with Some _ => 0 | None => -1 end, app_unlock s).

Definition os_app_quit_current s : option (Z * app_core) :=
  '(current, s) ← locked_find (in_state APP_STATE_RUNNING) s;
  match current with
  | Some p => a ← app_at s !! p; app_stop (Some (c_str (ap_name a))) s
  | None => Some (-1, s)
  end.

Definition os_sys_show_menu s : Z * app_core := (0, s).
End App.
Arguments app_core : clear implicits.
