(* ===== verification/AppThm.v ===== *)
(** * The life of the apps

    The chain of structs is a map from names to apps, each in a state of the life cycle;
    every operation is a step of the life cycle, on any tasks that keep the laws of
    [AppOsLaws]. *)

From Stdlib Require Import ZArith Lia.
From stdpp Require Import base tactics option numbers fin_maps gmap list.
From S2P Require Import Prelude.
From S2P Require Import CString.
From S2P Require Import Driver.
From S2P Require Import DriverThm.
From S2P Require Import Syscall.
From S2P Require Import Runs.
From S2P Require Import AppRuntime.
From S2P Require Import AppRuntimeThm.
From S2P Require Import App.

(** What the tasks and the objects promise: every call returns; creating a task that succeeds
    gives a new live one; a call on a live task leaves the other live tasks live. *)
Class AppOsLaws (W : Type) `{AppOs W} := {
  os_inv : W → Prop;
  os_live : nat → W → Prop;
  create_law : ∀ name p stack w, os_inv w →
    ∃ r t w', os_task_create name p stack w = Some (r, t, w') ∧ os_inv w' ∧
      (∀ i, os_live i w → os_live i w') ∧ (r = 0 → ∃ i, t = Some i ∧ os_live i w' ∧ ¬ os_live i w);
  delete_law : ∀ i w, os_inv w → os_live i w →
    ∃ w', os_task_delete (Some i) w = Some w' ∧ os_inv w' ∧ ∀ j, j ≠ i → os_live j w → os_live j w';
  suspend_law : ∀ i w, os_inv w → os_live i w →
    ∃ w', os_task_suspend i w = Some w' ∧ os_inv w' ∧ ∀ j, os_live j w → os_live j w';
  resume_law : ∀ i w, os_inv w → os_live i w →
    ∃ w', os_task_resume i w = Some w' ∧ os_inv w' ∧ ∀ j, os_live j w → os_live j w';
  read_law : ∀ a n w, os_inv w → 0 < n <= 256 → ∃ d, live_read a n w = Some d ∧ blen d = n;
  write_law : ∀ a d w, os_inv w → ∃ w', live_write a d w = Some w' ∧ os_inv w' ∧ ∀ j, os_live j w → os_live j w'
}.

Section AppThm.
Context `{Arch} {W : Type} `{AppOsLaws W}.
Implicit Types (s : app_core W) (a b : app_t) (p q : nat) (w : W) (n : list Z).

(** ** The invariant *)

Definition nm a : list Z := c_str (ap_name a).

(** The app [a] is the node [p] of the chain. *)
Definition at_node s p a : Prop := p ∈ g_apps s ∧ app_at s !! p = Some a.

(** A running or suspended app has a live task, the others have none. *)
Definition app_ok w a : Prop :=
  match ap_state a with
  | APP_STATE_INSTALLED | APP_STATE_STOPPED => ap_task a = None
  | APP_STATE_RUNNING | APP_STATE_SUSPENDED => ∃ t, ap_task a = Some t ∧ os_live t w
  | _ => False
  end.

(** The context of the app has its id and the capabilities of its manifest. *)
Definition granted a : Prop :=
  ∃ cx x, ap_context a = Some cx ∧ cx_app_id cx = ap_id a ∧ cx_caps cx = [x] ∧ is_u32 x ∧
    caps_of x = list_to_set (take (Z.to_nat (am_capability_count (ap_manifest a)))
                               (am_capabilities (ap_manifest a))).

Record app_inv s : Prop := {
  ai_lock : g_app_lock s = false;
  ai_nodup : NoDup (g_apps s);
  ai_node : ∀ p, p ∈ g_apps s → is_Some (app_at s !! p);
  ai_app : ∀ p a, at_node s p a → app_ok (world s) a;
  ai_granted : ∀ p a, at_node s p a → granted a;
  ai_named : ∀ p a, at_node s p a → name_ok (Some (nm a));
  ai_names : ∀ p q a b, at_node s p a → at_node s q b → nm a = nm b → p = q;
  ai_tasks : ∀ p q a b t, at_node s p a → at_node s q b → ap_task a = Some t → ap_task b = Some t → p = q;
  ai_slots : table_ok (g_slots s);
  ai_os : os_inv (world s)
}.

(** The apps by name: state and id. *)
Definition shows s (m : gmap (list Z) (app_state_t * Z)) : Prop :=
  ∀ n v, m !! n = Some v ↔ ∃ p a, at_node s p a ∧ nm a = n ∧ (ap_state a, ap_id a) = v.

Lemma at_fun s p a b : at_node s p a → at_node s p b → a = b.
Proof. intros [_ Ha] [_ Hb]. congruence. Qed.

(** ** Searching *)

Lemma find_app_spec (t : app_t → bool) l s :
  (∀ p, p ∈ l → is_Some (app_at s !! p)) →
  ∃ r, find_app t l s = Some r ∧
    match r with
    | Some p => ∃ a, p ∈ l ∧ app_at s !! p = Some a ∧ t a = true
    | None => ∀ p a, p ∈ l → app_at s !! p = Some a → t a = false
    end.
Proof.
  induction l as [|p l IH]; intros Hl.
  { exists None. split; [done|]. intros p a Hp. by apply elem_of_nil in Hp. }
  cbn [find_app]. destruct (Hl p) as [a Ea]; [left|]. rewrite Ea. cbn [mbind option_bind].
  destruct (t a) eqn:Et.
  { exists (Some p). split; [done|]. exists a. split; [left|done]. }
  destruct IH as (r & -> & Hr); [intros q Hq; apply Hl; by right|]. exists r. split; [done|].
  destruct r as [q|].
  - destruct Hr as (b & Hq & Hb). exists b. split; [by right|done].
  - intros q b Hq Hb. apply elem_of_cons in Hq as [->|Hq]; [congruence|by apply (Hr q b)].
Qed.

Lemma unlock_locked s : g_app_lock s = false → app_unlock (App.with_lock true s) = s.
Proof. destruct s. cbn. by intros ->. Qed.

Lemma locked_find_spec (t : app_t → bool) s :
  app_inv s →
  ∃ r, locked_find t s = Some (r, s) ∧
    match r with
    | Some p => ∃ a, at_node s p a ∧ t a = true
    | None => ∀ p a, at_node s p a → t a = false
    end.
Proof.
  intros Hs. unfold locked_find, app_lock. rewrite (ai_lock _ Hs). cbn [mbind option_bind].
  destruct (find_app_spec t (g_apps s) (App.with_lock true s)) as (r & E & Hr); [exact (ai_node _ Hs)|].
  change (g_apps (App.with_lock true s)) with (g_apps s). rewrite E. cbn [mbind option_bind].
  rewrite unlock_locked by apply Hs. exists r. split; [done|]. destruct r as [p|].
  - destruct Hr as (a & Hp & Ha & Ht). by exists a.
  - intros p a [Hp Ha]. by apply (Hr p).
Qed.

(** The search by name, as a lookup. *)
Lemma find_named n s m :
  app_inv s → shows s m →
  ∃ r, locked_find (named n) s = Some (r, s) ∧
    match r with
    | Some p => ∃ a, at_node s p a ∧ nm a = n ∧ m !! n = Some (ap_state a, ap_id a)
    | None => m !! n = None ∧ ∀ p a, at_node s p a → nm a ≠ n
    end.
Proof.
  intros Hs Hm. destruct (locked_find_spec (named n) s Hs) as (r & -> & Hr). exists r. split; [done|].
  unfold named, str_eq in Hr. destruct r as [p|].
  - destruct Hr as (a & Ha & E). apply bool_decide_eq_true in E. exists a. split_and!; [done..|].
    apply Hm. eauto.
  - assert (∀ p a, at_node s p a → nm a ≠ n) as Hne.
    { intros p a Ha. specialize (Hr p a Ha). by apply bool_decide_eq_false in Hr. }
    split; [|done]. destruct (m !! n) as [v|] eqn:E; [|done].
    apply Hm in E as (p & a & Ha & En & _). by destruct (Hne p a Ha).
Qed.

(** ** Changing one app *)

Definition put p a s : app_core W := with_apps (<[p := a]> (app_at s)) s.

Lemma app_upd_put p f s a : app_at s !! p = Some a → app_upd p f s = Some (put p (f a) s).
Proof. intros E. unfold app_upd. by rewrite E. Qed.

Lemma put_put p a b s : put p b (put p a s) = put p b s.
Proof. unfold put, with_apps. cbn. by rewrite insert_insert_eq. Qed.

Lemma app_at_put p a s : app_at (put p a s) !! p = Some a.
Proof. unfold put, with_apps. cbn. apply lookup_insert_eq. Qed.

Lemma at_put s p a a' q b :
  at_node s p a → at_node (put p a' s) q b ↔ (q = p ∧ b = a') ∨ (q ≠ p ∧ at_node s q b).
Proof.
  intros [Hp _]. unfold at_node, put, with_apps. cbn. destruct (decide (q = p)) as [->|Hne].
  - rewrite lookup_insert_eq. naive_solver.
  - rewrite lookup_insert_ne by done. naive_solver.
Qed.

(** The change of a struct together with one of the sessions and the world. *)
Definition change p a (g : list app_runtime_slot_t) w s : app_core W :=
  put p a (App.with_world w (with_slots g s)).

Lemma at_change s p a a' g w q b :
  at_node s p a → at_node (change p a' g w s) q b ↔ (q = p ∧ b = a') ∨ (q ≠ p ∧ at_node s q b).
Proof. intros Hp. by apply (at_put (App.with_world w (with_slots g s)) p a). Qed.

Lemma app_ok_mono w w' a :
  (∀ t, ap_task a = Some t → os_live t w → os_live t w') → app_ok w a → app_ok w' a.
Proof. unfold app_ok. intros Hl. destruct (ap_state a); naive_solver. Qed.

Lemma inv_change s p a a' g w :
  app_inv s → at_node s p a → nm a' = nm a → (granted a → granted a') → table_ok g → os_inv w → app_ok w a' →
  (∀ q b t, at_node s q b → q ≠ p → ap_task b = Some t → os_live t (world s) → os_live t w) →
  (∀ q b t, at_node s q b → q ≠ p → ap_task a' = Some t → ap_task b ≠ Some t) →
  app_inv (change p a' g w s).
Proof.
  intros Hs Hp En Hgr Hg Hw Hok Hl Hd.
  assert (∀ q b, at_node (change p a' g w s) q b → (q = p ∧ b = a') ∨ (q ≠ p ∧ at_node s q b)) as Hat.
  { intros q b. exact (proj1 (at_change s p a a' g w q b Hp)). }
  split; [exact (ai_lock _ Hs)|exact (ai_nodup _ Hs)|..|exact Hg|exact Hw].
  - intros q Hq. cbn. apply lookup_insert_is_Some. destruct (decide (p = q)); [by left|right].
    split; [done|]. by apply (ai_node _ Hs).
  - intros q b [[-> ->]|[Hq Hb]]%Hat; [done|]. eapply app_ok_mono; [|by eapply (ai_app _ Hs)].
    intros t Et. by apply (Hl q b).
  - intros q b [[-> ->]|[Hq Hb]]%Hat; [apply Hgr|]; by eapply (ai_granted _ Hs).
  - intros q b [[-> ->]|[Hq Hb]]%Hat; [rewrite En; by eapply (ai_named _ Hs)|by eapply (ai_named _ Hs)].
  - intros q1 q2 b1 b2 [[-> ->]|[N1 H1']]%Hat [[-> ->]|[N2 H2']]%Hat E; [done|..].
    + eapply (ai_names _ Hs); [exact Hp|exact H2'|congruence].
    + eapply (ai_names _ Hs); [exact H1'|exact Hp|congruence].
    + by eapply (ai_names _ Hs).
  - intros q1 q2 b1 b2 t [[-> ->]|[N1 H1']]%Hat [[-> ->]|[N2 H2']]%Hat E1 E2; [done|..].
    + by destruct (Hd q2 b2 t).
    + by destruct (Hd q1 b1 t).
    + by eapply (ai_tasks _ Hs).
Qed.

Lemma shows_change s p a a' g w m :
  app_inv s → shows s m → at_node s p a → nm a' = nm a →
  shows (change p a' g w s) (<[nm a := (ap_state a', ap_id a')]> m).
Proof.
  intros Hs Hm Hp En n v. pose proof (λ q b, at_change s p a a' g w q b Hp) as Hat.
  destruct (decide (n = nm a)) as [->|Hn].
  - rewrite lookup_insert_eq. split.
    + intros [= <-]. exists p, a'. split; [apply Hat; by left|done].
    + intros (q & b & Hb & Eb & <-). apply Hat in Hb as [[-> ->]|[Hq Hb]]; [done|].
      destruct Hq. by eapply (ai_names _ Hs).
  - rewrite lookup_insert_ne by done. rewrite (Hm n v). split.
    + intros (q & b & Hb & Eb & Ev). exists q, b. split; [|done]. apply Hat. right.
      split; [|done]. intros ->. rewrite (at_fun s p b a) in Eb by done. congruence.
    + intros (q & b & Hb & Eb & Ev). apply Hat in Hb as [[-> ->]|[Hq Hb]]; [congruence|eauto].
Qed.

(** ** The sessions *)

(** What the caller of a session operation provides: buffers as long as it says, and code
    that keeps the promises of the system. *)
Definition provided (o : session_op W) : Prop :=
  match o with
  | SetState _ data size => ∀ d, data = Some d → size <= blen d
  | GetState _ data size => ∀ d, data = Some d → size <= blen d
  | AppRuns f => ∀ w, os_inv w → ∃ w', f w = Some w' ∧ os_inv w' ∧ ∀ j, os_live j w → os_live j w'
  | _ => True
  end.

Definition kept w w' : Prop := os_inv w' ∧ ∀ j, os_live j w → os_live j w'.

Lemma world_kept_refl w : os_inv w → kept w w.
Proof. by split. Qed.

Lemma sessions_entry g n e :
  table_ok g → sessions_of g !! n = Some e → se_live e = 0 ∨ 0 < se_live_size e <= 256.
Proof.
  intros (_ & Hk & Hs) E. unfold sessions_of in E. rewrite lookup_fmap in E.
  apply fmap_Some in E as (sl & E & ->). apply Tables.tab_lookup in E as (i & Hi & _); [|done].
  destruct (Hs i sl Hi) as (_ & _ & Hl & _). cbn. naive_solver.
Qed.

(** Every session operation returns. *)
Lemma spec_total (o : session_op W) w g :
  table_ok g → os_inv w → session_op_ok o → provided o →
  ∃ r w' m', spec_step o (w, sessions_of g) = Some (r, (w', m')) ∧ kept w w'.
Proof.
  intros Hg Hw Hok Hp. pose proof (world_kept_refl w Hw) as Hk.
  destruct o as [[n|] [d|] size|[n|] [d|] size|[n|] live size|[n|]|[n|]|f]; cbn [spec_step]; try (by repeat eexists).
  - destruct (_ || _) eqn:Eb; [by repeat eexists|]. destruct (opened n _) as [e|]; [|by repeat eexists].
    destruct Hok as [_ Hsz]. specialize (Hp d eq_refl). rewrite rd_bytes_ok by lia. by repeat eexists.
  - destruct (sessions_of g !! n) as [e|]; [|by repeat eexists]. destruct (_ || _) eqn:Eb; [by repeat eexists|].
    bool_hyps. specialize (Hp d eq_refl). rewrite wr_bytes_ok by lia. by repeat eexists.
  - destruct (_ || _); [by repeat eexists|]. destruct (opened n _); by repeat eexists.
  - destruct (sessions_of g !! n) as [e|] eqn:Ee; [|by repeat eexists].
    destruct (se_live e =? 0) eqn:E0; [by repeat eexists|]. apply Z.eqb_neq in E0.
    destruct (sessions_entry g n e Hg Ee) as [?|Hsz]; [done|].
    destruct (read_law (se_live e) (se_live_size e) w Hw Hsz) as (d & -> & Hd). cbn [mbind option_bind].
    rewrite rd_bytes_all by done. by repeat eexists.
  - destruct (sessions_of g !! n) as [e|] eqn:Ee; [|by repeat eexists]. destruct (_ || _); [by repeat eexists|].
    destruct (write_law (se_live e) (se_saved e) w Hw) as (w' & -> & Hw' & Hl). by repeat eexists.
  - destruct (Hp w Hw) as (w' & -> & Hw' & Hl). by repeat eexists.
Qed.

Lemma session_total (o : session_op W) w g :
  table_ok g → os_inv w → session_op_ok o → provided o →
  ∃ r w' g', session_step o (w, g) = Some (r, (w', g')) ∧ table_ok g' ∧ kept w w'.
Proof.
  intros Hg Hw Hok Hp. destruct (spec_total o w g Hg Hw Hok Hp) as (r & w' & m' & E & Hk).
  destruct (sessions_refine o (w, g) Hok Hg) as [R Hi]. unfold state_of in R at 1. cbn [fst snd] in R.
  rewrite E in R. destruct (session_step o (w, g)) as [[r1 [w1 g1]]|]; [|done].
  cbn [seen mbind option_bind state_of fst snd] in R. injection R as -> -> _.
  exists r1, w1, g1. split; [done|]. split; [|done]. exact (Hi r1 (w1, g1) eq_refl).
Qed.

Lemma capture_ok n s :
  table_ok (g_slots s) → os_inv (world s) → name_ok (Some n) →
  ∃ g, capture n s = Some (with_slots g s) ∧ table_ok g.
Proof.
  intros Hg Hw Hn. destruct (session_total (Capture (Some n)) (world s) (g_slots s)) as (r & w' & g' & E & Hg' & _);
    [done..|]. cbn [session_step] in E. unfold capture.
  destruct (app_state_capture (Some n) (world s) (g_slots s)) as [[z g1]|]; [|done].
  cbn in E |- *. injection E as <- <- ->. by exists g'.
Qed.

Lemma apply_ok n s :
  table_ok (g_slots s) → os_inv (world s) → name_ok (Some n) →
  ∃ w, apply_state n s = Some (App.with_world w s) ∧ kept (world s) w.
Proof.
  intros Hg Hw Hn. destruct (session_total (Apply (Some n)) (world s) (g_slots s)) as (r & w' & g' & E & _ & Hk);
    [done..|]. cbn [session_step] in E. unfold apply_state.
  destruct (app_state_apply (Some n) (g_slots s) (world s)) as [[z w1]|]; [|done].
  cbn in E |- *. injection E as <- -> <-. by exists w'.
Qed.

(** ** The life cycle *)

(** The calls; an allocation of [Install] succeeds as its flags say, and gives a new block. *)
Inductive app_op :=
  | Install (ctx_ok block_ok : bool) (manifest : app_manifest_t) (n : list Z)
  | Uninstall (n : list Z) | Start (n : list Z) | Stop (n : list Z) | Suspend (n : list Z)
  | Resume (n : list Z) | SetLimits (n : list Z) (l : app_limits_t) | QuitCurrent | SwitchNext
  | OnSession (o : session_op W).

Definition app_step (o : app_op) s : option (Z * app_core W) :=
  match o with
  | Install ctx_ok block_ok manifest n =>
    app_install_manifest ctx_ok (if block_ok then Some (fresh (dom (app_at s))) else None)
      (Some manifest) (Some n) s
  | Uninstall n => app_uninstall (Some n) s
  | Start n => app_start (Some n) s
  | Stop n => app_stop (Some n) s
  | Suspend n => app_suspend (Some n) s
  | Resume n => app_resume (Some n) s
  | SetLimits n l => app_set_limits (Some n) (Some l) s
  | QuitCurrent => os_app_quit_current s
  | SwitchNext => os_app_switch_next s
  | OnSession o => '(r, (w, g)) ← session_step o (world s, g_slots s);
                   Some (r.1, App.with_world w (with_slots g s))
  end.

(** A manifest whose capabilities exist and fit its array. *)
Definition manifest_ok (m : app_manifest_t) : Prop :=
  0 <= am_capability_count m <= blen (am_capabilities m) ∧
  Forall cap_ok (take (Z.to_nat (am_capability_count m)) (am_capabilities m)).

Definition app_op_ok (o : app_op) : Prop :=
  match o with
  | Install _ _ m n => name_ok (Some n) ∧ manifest_ok m
  | Uninstall n | Start n | Stop n | Suspend n | Resume n | SetLimits n _ => name_ok (Some n)
  | QuitCurrent | SwitchNext => True
  | OnSession o => session_op_ok o ∧ provided o
  end.

(** When a call is refused. *)
Definition refused (o : app_op) (m : gmap (list Z) (app_state_t * Z)) : Prop :=
  match o with
  | Install ctx_ok block_ok _ n => is_Some (m !! n) ∨ ctx_ok && block_ok = false
  | Uninstall n => ∀ v, m !! n = Some v → v.1 = APP_STATE_RUNNING
  | Start n => True
  | Stop n | Suspend n => ∀ v, m !! n = Some v → v.1 ≠ APP_STATE_RUNNING
  | Resume n => ∀ v, m !! n = Some v → v.1 ≠ APP_STATE_SUSPENDED
  | SetLimits n _ => m !! n = None
  | QuitCurrent => ∀ n v, m !! n = Some v → v.1 ≠ APP_STATE_RUNNING
  | SwitchNext => ∀ n v, m !! n = Some v → v.1 ≠ APP_STATE_RUNNING ∧ v.1 ≠ APP_STATE_INSTALLED
  | OnSession _ => False
  end.

(** An app that [os_app_switch_next] would stop or start. *)
Definition switchable (m : gmap (list Z) (app_state_t * Z)) : Prop :=
  ∃ n v, m !! n = Some v ∧ (v.1 = APP_STATE_RUNNING ∨ v.1 = APP_STATE_INSTALLED).

(** A step of the life cycle, on the apps by name and the next id. *)
Inductive life : app_op → Z → gmap (list Z) (app_state_t * Z) * Z →
    gmap (list Z) (app_state_t * Z) * Z → Prop :=
  | life_install m k mf n : m !! n = None →
      life (Install true true mf n) 0 (m, k) (<[n := (APP_STATE_INSTALLED, k)]> m, u32 (k + 1))
  | life_uninstall m k n st id : m !! n = Some (st, id) → st ≠ APP_STATE_RUNNING →
      life (Uninstall n) 0 (m, k) (delete n m, k)
  | life_start m k n st id : m !! n = Some (st, id) → st = APP_STATE_INSTALLED ∨ st = APP_STATE_STOPPED →
      life (Start n) 0 (m, k) (<[n := (APP_STATE_RUNNING, id)]> m, k)
  | life_stop m k n id : m !! n = Some (APP_STATE_RUNNING, id) →
      life (Stop n) 0 (m, k) (<[n := (APP_STATE_STOPPED, id)]> m, k)
  | life_suspend m k n id : m !! n = Some (APP_STATE_RUNNING, id) →
      life (Suspend n) 0 (m, k) (<[n := (APP_STATE_SUSPENDED, id)]> m, k)
  | life_resume m k n id : m !! n = Some (APP_STATE_SUSPENDED, id) →
      life (Resume n) 0 (m, k) (<[n := (APP_STATE_RUNNING, id)]> m, k)
  | life_limits m k n l v : m !! n = Some v → life (SetLimits n l) 0 (m, k) (m, k)
  | life_quit m k n id : m !! n = Some (APP_STATE_RUNNING, id) →
      life QuitCurrent 0 (m, k) (<[n := (APP_STATE_STOPPED, id)]> m, k)
  | life_session m k o r : life (OnSession o) r (m, k) (m, k)
  | life_refused o m k : refused o m → life o (-1) (m, k) (m, k).

(** The calls and their results, one after the other. *)
Inductive lives_through : list app_op → list Z → gmap (list Z) (app_state_t * Z) * Z →
    gmap (list Z) (app_state_t * Z) * Z → Prop :=
  | lives_nil M : lives_through [] [] M M
  | lives_cons o r M M1 l rs M2 : life o r M M1 → lives_through l rs M1 M2 →
      lives_through (o :: l) (r :: rs) M M2.

(** A call that returns, does a step of the life cycle, and keeps the invariant. *)
Definition does (o : app_op) s (m : gmap (list Z) (app_state_t * Z)) : Prop :=
  ∃ r s' m', app_step o s = Some (r, s') ∧ life o r (m, g_next_app_id s) (m', g_next_app_id s') ∧
    app_inv s' ∧ shows s' m'.

Lemma does_refused o s m :
  app_inv s → shows s m → app_step o s = Some (-1, s) → refused o m → does o s m.
Proof. intros Hs Hm E Hr. exists (-1), s, m. split_and!; [done|by constructor|done..]. Qed.

(** A call that changes one app. *)
Lemma does_change o s m p a a' g w :
  app_inv s → shows s m → at_node s p a → nm a' = nm a → (granted a → granted a') → table_ok g → os_inv w → app_ok w a' →
  (∀ q b t, at_node s q b → q ≠ p → ap_task b = Some t → os_live t (world s) → os_live t w) →
  (∀ q b t, at_node s q b → q ≠ p → ap_task a' = Some t → ap_task b ≠ Some t) →
  app_step o s = Some (0, change p a' g w s) →
  life o 0 (m, g_next_app_id s) (<[nm a := (ap_state a', ap_id a')]> m, g_next_app_id s) → does o s m.
Proof.
  intros Hs Hm Hp En Hgr Hg Hw Hok Hl Hd E Hlife. eexists _, _, _. split; [exact E|]. split; [exact Hlife|].
  split; [by eapply inv_change|by apply shows_change].
Qed.

(** The change of a call that leaves the task alone. *)
Lemma same_task s p a a' :
  app_inv s → at_node s p a → ap_task a' = ap_task a ∨ ap_task a' = None →
  ∀ q b t, at_node s q b → q ≠ p → ap_task a' = Some t → ap_task b ≠ Some t.
Proof.
  intros Hs Hp Ht q b t Hq Hne E Eb. destruct Ht as [Ht|Ht]; [|congruence].
  destruct Hne. eapply (ai_tasks _ Hs); [exact Hq|exact Hp|exact Eb|congruence].
Qed.

Lemma change_self p a s : change p a (g_slots s) (world s) s = put p a s.
Proof. by destruct s. Qed.

Lemma inv_world s g w :
  app_inv s → table_ok g → kept (world s) w → app_inv (App.with_world w (with_slots g s)).
Proof.
  intros Hs Hg [Hw Hl]. destruct Hs as [I1 I2 I3 I4 I5 I6 I7 I8 I9 I10]. split; try done. intros p a Hp.
  eapply app_ok_mono; [|by eapply I4]. intros t _. apply Hl.
Qed.

Lemma in_state_true st a : in_state st a = true ↔ ap_state a = st.
Proof. unfold in_state. apply bool_decide_eq_true. Qed.
Lemma in_state_false st a : in_state st a = false ↔ ap_state a ≠ st.
Proof. unfold in_state. apply bool_decide_eq_false. Qed.

Lemma does_start n s m : app_inv s → shows s m → does (Start n) s m.
Proof.
  intros Hs Hm. destruct (find_named n s m Hs Hm) as (r & Ef & Hr).
  assert (app_step (Start n) s = app_start (Some n) s) as Eo by done. unfold app_start in Eo.
  rewrite Ef in Eo. cbn [mbind option_bind] in Eo. destruct r as [p|]; [|by apply does_refused].
  destruct Hr as (a & Hp & En & Em). pose proof Hp as [_ Ha]. rewrite Ha in Eo. cbn [mbind option_bind] in Eo.
  destruct (negb (in_state APP_STATE_INSTALLED a) && negb (in_state APP_STATE_STOPPED a)) eqn:Est;
    [by apply does_refused|].
  match type of Eo with context [os_task_create ?nm0 ?p0 ?st0 ?w0] =>
    destruct (create_law nm0 p0 st0 w0 (ai_os _ Hs)) as (r & t & w & E & Hw & Hl & Hr) end.
  rewrite E in Eo. cbn [mbind option_bind] in Eo. destruct (r =? 0) eqn:Er; cbn [negb] in Eo.
  2:{ exists (-1), (App.with_world w s), m. split; [exact Eo|]. split; [by constructor|].
      split; [|exact Hm]. destruct s. by apply (inv_world _ _ w Hs (ai_slots _ Hs)). }
  apply Z.eqb_eq in Er. destruct (Hr Er) as (i & -> & Hi & Hni).
  set (a1 := set_task (Some i) a) in *. set (a2 := set_state APP_STATE_RUNNING a1).
  set (a3 := set_times (os_ticks w) 0 a2).
  assert (app_step (Start n) s = Some (0, change p a3 (g_slots s) w s)) as Es.
  { rewrite Eo. erewrite app_upd_put by exact Ha. cbn [mbind option_bind].
    rewrite (app_upd_put p _ _ a1) by apply app_at_put. cbn [mbind option_bind].
    rewrite put_put, (app_upd_put p _ _ a2) by apply app_at_put. cbn [mbind option_bind].
    rewrite put_put. by destruct s. }
  apply (does_change (Start n) s m p a a3 (g_slots s) w); try done.
  - apply Hs.
  - by exists i.
  - intros q b t Hq _ _. apply Hl.
  - intros q b t Hq Hne [= <-] Eb. apply Hni. pose proof (ai_app _ Hs q b Hq) as Hok.
    unfold app_ok in Hok. rewrite Eb in Hok. destruct (ap_state b); naive_solver.
  - subst n. apply life_start with (st := ap_state a); [done|]. apply andb_false_iff in Est as [Est|Est];
      apply negb_false_iff, in_state_true in Est; tauto.
Qed.

Definition stopped (used : Z) a : app_t :=
  set_times (ap_start_time a) used (set_state APP_STATE_STOPPED (set_task None a)).

Lemma stop_running s m p a :
  app_inv s → shows s m → at_node s p a → ap_state a = APP_STATE_RUNNING →
  ∃ g w used, app_stop (Some (nm a)) s = Some (0, change p (stopped used a) g w s) ∧
    table_ok g ∧ os_inv w ∧
    ∀ q b t, at_node s q b → q ≠ p → ap_task b = Some t → os_live t (world s) → os_live t w.
Proof.
  intros Hs Hm Hp Est. destruct (find_named (nm a) s m Hs Hm) as (r & Ef & Hr). unfold app_stop.
  rewrite Ef. cbn [mbind option_bind]. destruct r as [q|]; [|by destruct (proj2 Hr p a)].
  destruct Hr as (b & Hq & En & _). assert (q = p) as -> by by eapply (ai_names _ Hs).
  assert (b = a) as -> by by eapply at_fun. pose proof Hp as [_ Ha]. rewrite Ha. cbn [mbind option_bind].
  rewrite (proj2 (in_state_true _ a) Est). cbn [negb].
  destruct (capture_ok (nm a) s (ai_slots _ Hs) (ai_os _ Hs) (ai_named _ Hs p a Hp)) as (g & -> & Hg).
  cbn [mbind option_bind]. pose proof (ai_app _ Hs p a Hp) as Hok. unfold app_ok in Hok. rewrite Est in Hok.
  destruct Hok as (t & Et & Hlt). rewrite Et.
  destruct (delete_law t (world s) (ai_os _ Hs) Hlt) as (w & E & Hw & Hl).
  change (world (with_slots g s)) with (world s). rewrite E. cbn [mbind option_bind].
  set (s1 := App.with_world w (with_slots g s)).
  rewrite (app_upd_put p _ s1 a) by exact Ha. cbn [mbind option_bind].
  rewrite (app_upd_put p _ _ (set_task None a)) by apply app_at_put. cbn [mbind option_bind].
  rewrite put_put, app_at_put. cbn [mbind option_bind].
  rewrite (app_upd_put p _ _ (set_state APP_STATE_STOPPED (set_task None a))) by apply app_at_put.
  cbn [mbind option_bind]. rewrite put_put. eexists g, w, _. split; [reflexivity|]. split; [done|].
  split; [done|]. intros q b t' Hq' Hne Eb. apply Hl. intros ->. apply Hne.
  by eapply (ai_tasks _ Hs).
Qed.

Lemma stop_changes o s m p a :
  app_inv s → shows s m → at_node s p a → ap_state a = APP_STATE_RUNNING →
  app_step o s = app_stop (Some (nm a)) s →
  (∀ k, life o 0 (m, k) (<[nm a := (APP_STATE_STOPPED, ap_id a)]> m, k)) → does o s m.
Proof.
  intros Hs Hm Hp Est Eo Hlife.
  destruct (stop_running s m p a Hs Hm Hp Est) as (g & w & used & E & Hg & Hw & Hl). rewrite E in Eo.
  apply (does_change o s m p a (stopped used a) g w); try done.
Qed.

Lemma does_stop n s m : app_inv s → shows s m → does (Stop n) s m.
Proof.
  intros Hs Hm. destruct (find_named n s m Hs Hm) as (r & Ef & Hr).
  assert (app_step (Stop n) s = app_stop (Some n) s) as Eo by done.
  destruct r as [p|].
  - destruct Hr as (a & Hp & <- & Em). destruct (decide (ap_state a = APP_STATE_RUNNING)) as [Est|Est].
    + apply (stop_changes _ s m p a); try done. intros k. apply life_stop. by rewrite <- Est.
    + apply does_refused; [done..| |].
      * rewrite Eo. unfold app_stop. rewrite Ef. cbn [mbind option_bind]. rewrite (proj2 Hp). cbn [mbind option_bind].
        by rewrite (proj2 (in_state_false _ a) Est).
      * cbn. intros v Ev. rewrite Em in Ev. by injection Ev as <-.
  - destruct Hr as [Em _]. apply does_refused; [done..| |cbn; intros v; by rewrite Em].
    rewrite Eo. unfold app_stop. by rewrite Ef.
Qed.

Lemma does_quit s m : app_inv s → shows s m → does QuitCurrent s m.
Proof.
  intros Hs Hm. destruct (locked_find_spec (in_state APP_STATE_RUNNING) s Hs) as (r & Ef & Hr).
  assert (app_step QuitCurrent s = os_app_quit_current s) as Eo by done.
  unfold os_app_quit_current in Eo. rewrite Ef in Eo. cbn [mbind option_bind] in Eo. destruct r as [p|].
  - destruct Hr as (a & Hp & Est). apply in_state_true in Est. rewrite (proj2 Hp) in Eo. cbn [mbind option_bind] in Eo.
    apply (stop_changes _ s m p a); try done. intros k. apply life_quit. apply Hm. exists p, a. by rewrite Est.
  - apply does_refused; [done..|]. cbn. intros n v Hv. apply Hm in Hv as (p & a & Hp & _ & <-).
    apply in_state_false. by eapply Hr.
Qed.

Lemma does_suspend n s m : app_inv s → shows s m → name_ok (Some n) → does (Suspend n) s m.
Proof.
  intros Hs Hm Hn. destruct (find_named n s m Hs Hm) as (r & Ef & Hr).
  assert (app_step (Suspend n) s = app_suspend (Some n) s) as Eo by done. unfold app_suspend, app_find in Eo.
  rewrite Ef in Eo. cbn [mbind option_bind] in Eo. destruct r as [p|].
  2:{ destruct Hr as [Em _]. apply does_refused; [done..|cbn; intros v; by rewrite Em]. }
  destruct Hr as (a & Hp & En & Em). pose proof Hp as [_ Ha]. rewrite Ha in Eo. cbn [mbind option_bind] in Eo.
  destruct (in_state APP_STATE_RUNNING a) eqn:Est; cbn [negb] in Eo.
  2:{ apply does_refused; [done..|]. cbn. intros v Ev. rewrite Em in Ev. injection Ev as <-. by apply in_state_false. }
  apply in_state_true in Est.
  destruct (capture_ok n s (ai_slots _ Hs) (ai_os _ Hs) Hn) as (g & Ec & Hg). rewrite Ec in Eo.
  cbn [mbind option_bind] in Eo. pose proof (ai_app _ Hs p a Hp) as Hok. unfold app_ok in Hok. rewrite Est in Hok.
  destruct Hok as (t & Et & Hlt). rewrite (app_upd_put p _ _ a) in Eo by exact Ha. cbn [mbind option_bind] in Eo.
  rewrite Et in Eo. destruct (suspend_law t (world s) (ai_os _ Hs) Hlt) as (w & E & Hw & Hl).
  change (world (put p (set_state APP_STATE_SUSPENDED a) (with_slots g s))) with (world s) in Eo.
  rewrite E in Eo. cbn [mbind option_bind] in Eo.
  apply (does_change (Suspend n) s m p a (set_state APP_STATE_SUSPENDED a) g w); try done.
  - exists t. split; [done|]. by apply Hl.
  - intros q b t' _ _ _. apply Hl.
  - eapply same_task; [done..|by left].
  - subst n. apply life_suspend. by rewrite <- Est.
Qed.

Lemma does_resume n s m : app_inv s → shows s m → name_ok (Some n) → does (Resume n) s m.
Proof.
  intros Hs Hm Hn. destruct (find_named n s m Hs Hm) as (r & Ef & Hr).
  assert (app_step (Resume n) s = app_resume (Some n) s) as Eo by done. unfold app_resume, app_find in Eo.
  rewrite Ef in Eo. cbn [mbind option_bind] in Eo. destruct r as [p|].
  2:{ destruct Hr as [Em _]. apply does_refused; [done..|cbn; intros v; by rewrite Em]. }
  destruct Hr as (a & Hp & En & Em). pose proof Hp as [_ Ha]. rewrite Ha in Eo. cbn [mbind option_bind] in Eo.
  destruct (in_state APP_STATE_SUSPENDED a) eqn:Est; cbn [negb] in Eo.
  2:{ apply does_refused; [done..|]. cbn. intros v Ev. rewrite Em in Ev. injection Ev as <-. by apply in_state_false. }
  apply in_state_true in Est.
  destruct (apply_ok n s (ai_slots _ Hs) (ai_os _ Hs) Hn) as (w1 & Ec & Hw1 & Hl1). rewrite Ec in Eo.
  cbn [mbind option_bind] in Eo. pose proof (ai_app _ Hs p a Hp) as Hok. unfold app_ok in Hok. rewrite Est in Hok.
  destruct Hok as (t & Et & Hlt). rewrite Et in Eo.
  change (world (App.with_world w1 s)) with w1 in Eo.
  destruct (resume_law t w1 Hw1 (Hl1 t Hlt)) as (w & E & Hw & Hl). rewrite E in Eo. cbn [mbind option_bind] in Eo.
  rewrite (app_upd_put p _ _ a) in Eo by exact Ha. cbn [mbind option_bind] in Eo.
  apply (does_change (Resume n) s m p a (set_state APP_STATE_RUNNING a) (g_slots s) w); try done.
  - apply Hs.
  - exists t. split; [done|]. by apply Hl, Hl1.
  - intros q b t' _ _ _ Hb. by apply Hl, Hl1.
  - eapply same_task; [done..|by left].
  - subst n. apply life_resume. by rewrite <- Est.
Qed.

Lemma does_limits n l s m : app_inv s → shows s m → does (SetLimits n l) s m.
Proof.
  intros Hs Hm. destruct (find_named n s m Hs Hm) as (r & Ef & Hr).
  assert (app_step (SetLimits n l) s = app_set_limits (Some n) (Some l) s) as Eo by done.
  unfold app_set_limits, app_find in Eo.
  rewrite Ef in Eo. cbn [mbind option_bind] in Eo. destruct r as [p|].
  2:{ destruct Hr as [Em _]. by apply does_refused. }
  destruct Hr as (a & Hp & En & Em). rewrite (app_upd_put p _ _ a) in Eo by apply Hp. cbn [mbind option_bind] in Eo.
  apply (does_change (SetLimits n l) s m p a (set_limits l a) (g_slots s) (world s)); try done.
  - apply Hs.
  - apply Hs.
  - by apply (ai_app _ Hs p a).
  - eapply same_task; [done..|by left].
  - cbn [set_limits ap_state ap_id]. rewrite insert_id by by rewrite En. by eapply life_limits.
Qed.

(** ** Removing and adding an app *)

Lemma unchain_spec p (l : list nat) :
  NoDup l → p ∈ l → NoDup (unchain p l) ∧ ∀ q, q ∈ unchain p l ↔ q ≠ p ∧ q ∈ l.
Proof.
  intros Hl Hp. apply list_elem_of_split in Hp as (l1 & l2 & ->).
  apply NoDup_app in Hl as (Hn1 & Hd & Hn2). apply NoDup_cons in Hn2 as [Hp2 Hn2].
  assert (p ∉ l1) as Hp1 by (intros Hp1; apply (Hd p Hp1); left).
  change (unchain p (l1 ++ p :: l2)) with (Driver.unlink p (l1 ++ p :: l2)).
  rewrite DriverThm.unlink_mid by done. split.
  - apply NoDup_app. split; [done|]. split; [|done]. intros x Hx1 Hx2. apply (Hd x Hx1). by right.
  - intros q. rewrite !elem_of_app, elem_of_cons. naive_solver.
Qed.

Definition removed p s : app_core W := with_apps (delete p (app_at s)) (with_chain (unchain p (g_apps s)) s).

Lemma at_removed s p q b :
  app_inv s → p ∈ g_apps s → at_node (removed p s) q b ↔ q ≠ p ∧ at_node s q b.
Proof.
  intros Hs Hp. destruct (unchain_spec p (g_apps s) (ai_nodup _ Hs) Hp) as [_ Hu].
  unfold at_node, removed, with_apps, with_chain. cbn. rewrite Hu. split.
  - intros [[Hq Hqi] Hb]. rewrite lookup_delete_ne in Hb by done. done.
  - intros [Hq [Hqi Hb]]. by rewrite lookup_delete_ne by done.
Qed.

(** The part of the invariant that is about the apps one by one and two by two. *)
Lemma inv_sub s s' :
  app_inv s → g_app_lock s' = false → NoDup (g_apps s') →
  (∀ q, q ∈ g_apps s' → is_Some (app_at s' !! q)) →
  (∀ q b, at_node s' q b → at_node s q b) → table_ok (g_slots s') → world s' = world s → app_inv s'.
Proof.
  intros Hs Hl Hn Hnode Hat Hg Hw. split; try done; try rewrite Hw.
  - intros q b Hq. apply (ai_app _ Hs q). by apply Hat.
  - intros q b Hq. apply (ai_granted _ Hs q). by apply Hat.
  - intros q b Hq. apply (ai_named _ Hs q). by apply Hat.
  - intros p q a b Hp Hq. apply (ai_names _ Hs p q); by apply Hat.
  - intros p q a b t Hp Hq. apply (ai_tasks _ Hs p q); by apply Hat.
  - apply Hs.
Qed.

Lemma inv_removed s p : app_inv s → p ∈ g_apps s → app_inv (removed p s).
Proof.
  intros Hs Hp. destruct (unchain_spec p (g_apps s) (ai_nodup _ Hs) Hp) as [Hn Hu].
  apply (inv_sub s); [done|by apply Hs|exact Hn|..|by apply Hs|done].
  - intros q [Hne Hq]%Hu. cbn. rewrite lookup_delete_ne by done. by apply (ai_node _ Hs).
  - intros q b Hq. by apply at_removed in Hq as [_ Hq].
Qed.

Lemma does_uninstall n s m : app_inv s → shows s m → does (Uninstall n) s m.
Proof.
  intros Hs Hm. destruct (find_named n s m Hs Hm) as (r & Ef & Hr).
  assert (app_step (Uninstall n) s = app_uninstall (Some n) s) as Eo by done.
  unfold locked_find in Ef. unfold app_uninstall in Eo. unfold app_lock in *. rewrite (ai_lock _ Hs) in *.
  cbn [mbind option_bind] in *. destruct (find_app _ _ _) as [r'|]; [|done]. cbn [mbind option_bind] in *.
  rewrite unlock_locked in Ef by apply Hs. injection Ef as ->. destruct r as [p|].
  2:{ rewrite unlock_locked in Eo by apply Hs. destruct Hr as [Em _].
      apply does_refused; [done..|]. intros v. by rewrite Em. }
  destruct Hr as (a & Hp & En & Em). change (app_at (App.with_lock true s)) with (app_at s) in Eo.
  rewrite (proj2 Hp) in Eo. cbn [mbind option_bind] in Eo.
  destruct (in_state APP_STATE_RUNNING a) eqn:Est.
  { rewrite unlock_locked in Eo by apply Hs. apply does_refused; [done..|]. cbn. intros v Ev.
    rewrite Em in Ev. injection Ev as <-. by apply in_state_true. }
  assert (app_step (Uninstall n) s = Some (0, removed p s)) as Es.
  { rewrite Eo. do 2 f_equal. unfold removed, app_unlock. pose proof (ai_lock _ Hs) as Hlock.
    destruct s. cbn in *. by subst. }
  exists 0, (removed p s), (delete n m). split; [exact Es|]. split.
  { eapply life_uninstall; [exact Em|]. by apply in_state_false. }
  split; [by apply inv_removed; [|apply Hp]|]. intros n' v. destruct (decide (n' = n)) as [->|Hne].
  - rewrite lookup_delete_eq. split; [done|]. intros (q & b & Hq & Eb & _).
    apply at_removed in Hq as [Hne Hq]; [|done|by apply Hp]. destruct Hne.
    eapply (ai_names _ Hs); [exact Hq|exact Hp|congruence].
  - rewrite lookup_delete_ne by done. rewrite (Hm n' v). split; intros (q & b & Hq & Eb & Ev).
    + exists q, b. split; [|done]. apply at_removed; [done|by apply Hp|]. split; [|done]. intros ->.
      rewrite (at_fun s p b a) in Eb by done. congruence.
    + apply at_removed in Hq as [_ Hq]; [|done|by apply Hp]. eauto.
Qed.

(** The capabilities of a manifest. *)
Lemma add_caps_ok k i mf x (l : list Z) :
  is_u32 x → 0 <= i → Forall cap_ok l → take k (drop (Z.to_nat i) (am_capabilities mf)) = l → length l = k →
  ∃ y, add_caps k i mf (Some [x]) = Some (Some [y]) ∧ is_u32 y ∧ caps_of y = caps_of x ∪ list_to_set l.
Proof.
  revert i x l. induction k as [|k IH]; intros i x l Hx Hi Hl El Hk.
  { destruct l; [|done]. exists x. split_and!; [done..|]. cbn. by rewrite union_empty_r_L. }
  destruct l as [|c l]; [done|]. injection Hk as Hk. apply Forall_cons in Hl as [Hc Hl].
  cbn [add_caps]. rewrite rd_lookup by done.
  destruct (drop (Z.to_nat i) (am_capabilities mf)) as [|c' r] eqn:Ed; [done|]. injection El as -> El.
  assert (am_capabilities mf !! Z.to_nat i = Some c) as Ec.
  { rewrite <- (Nat.add_0_r (Z.to_nat i)), <- lookup_drop, Ed. done. }
  rewrite Ec. cbn [mbind option_bind]. destruct (caps_add x c Hx Hc) as [Ea Hy]. rewrite Ea. cbn [mbind option_bind].
  destruct (IH (i + 1) (Z.lor x (2 ^ c)) l Hy) as (y & Ey & Hy' & Es); [lia|done| |done|].
  { replace (Z.to_nat (i + 1)) with (S (Z.to_nat i)) by lia.
    rewrite (drop_S _ c (Z.to_nat i)) in Ed by done. injection Ed as Ed. by rewrite Ed. }
  exists y. split; [done|]. split; [done|]. rewrite Es, caps_of_lor by exact Hc. cbn. set_solver.
Qed.

Definition added p a s : app_core W :=
  with_chain (p :: g_apps s) (with_apps (<[p := a]> (app_at s)) (with_next_id (u32 (g_next_app_id s + 1)) s)).

Definition new_app (handle : option Module.ardmod_handle) (mf : app_manifest_t) n id (caps : capability_set_t) : app_t :=
  mk_app (strncpy (zeros APP_NAME_MAX) n (Z.to_nat (APP_NAME_MAX - 1))) APP_STATE_INSTALLED (am_type mf) id mf
    (default_limits mf) (Some (mk_context id caps 0)) handle None 0 0 0.

Lemma nm_new h mf n id caps : name_ok (Some n) → nm (new_app h mf n id caps) = n.
Proof.
  intros Hn. destruct (name_ok_some n Hn) as [Hc Hl]. unfold nm, new_app. cbn [ap_name].
  rewrite c_str_strncpy by done. change (Z.to_nat (APP_NAME_MAX - 1)) with 31%nat. by rewrite take_ge by lia.
Qed.

Lemma at_added s p a q b :
  app_inv s → app_at s !! p = None → at_node (added p a s) q b ↔ (q = p ∧ b = a) ∨ at_node s q b.
Proof.
  intros Hs Hp. assert (p ∉ g_apps s) as Hn.
  { intros Hq. destruct (ai_node _ Hs p Hq) as [? E]. congruence. }
  unfold at_node, added, with_chain, with_apps. cbn. rewrite elem_of_cons.
  destruct (decide (q = p)) as [->|Hne].
  - rewrite lookup_insert_eq. naive_solver.
  - rewrite lookup_insert_ne by done. naive_solver.
Qed.

Lemma inv_added s p a :
  app_inv s → app_at s !! p = None → ap_state a = APP_STATE_INSTALLED → ap_task a = None →
  granted a → name_ok (Some (nm a)) → (∀ q b, at_node s q b → nm b ≠ nm a) → app_inv (added p a s).
Proof.
  intros Hs Hp Est Et Hg Hn Hne. pose proof (λ q b, proj1 (at_added s p a q b Hs Hp)) as Hat.
  split; [by apply Hs|..|by apply Hs|by apply Hs].
  - cbn. constructor; [|apply Hs]. intros Hq. destruct (ai_node _ Hs p Hq) as [? E]. congruence.
  - intros q Hq. cbn. apply lookup_insert_is_Some'. cbn in Hq. apply elem_of_cons in Hq as [->|Hq]; [by left|right].
    by apply (ai_node _ Hs).
  - intros q b [[-> ->]|Hq]%Hat; [unfold app_ok; by rewrite Est|by apply (ai_app _ Hs q)].
  - intros q b [[-> ->]|Hq]%Hat; [done|by apply (ai_granted _ Hs q)].
  - intros q b [[-> ->]|Hq]%Hat; [done|by apply (ai_named _ Hs q)].
  - intros q1 q2 b1 b2 [[-> ->]|Q1]%Hat [[-> ->]|Q2]%Hat E; [done|..].
    + by destruct (Hne q2 b2).
    + by destruct (Hne q1 b1).
    + by apply (ai_names _ Hs q1 q2 b1 b2).
  - intros q1 q2 b1 b2 t [[-> ->]|Q1]%Hat [[-> ->]|Q2]%Hat E1 E2; [congruence..|].
    by apply (ai_tasks _ Hs q1 q2 b1 b2 t).
Qed.

Lemma shows_added s p a m :
  app_inv s → shows s m → app_at s !! p = None → m !! nm a = None →
  shows (added p a s) (<[nm a := (ap_state a, ap_id a)]> m).
Proof.
  intros Hs Hm Hp En n v. pose proof (λ q b, at_added s p a q b Hs Hp) as Hat.
  destruct (decide (n = nm a)) as [->|Hne].
  - rewrite lookup_insert_eq. split.
    + intros [= <-]. exists p, a. split; [apply Hat; by left|done].
    + intros (q & b & [[-> ->]|Hq]%Hat & Eb & Ev); [by rewrite Ev|].
      assert (m !! nm a = Some v) as E by (apply Hm; eauto). congruence.
  - rewrite lookup_insert_ne by done. rewrite (Hm n v). split.
    + intros (q & b & Hq & E). exists q, b. split; [apply Hat; by right|done].
    + intros (q & b & [[-> ->]|Hq]%Hat & Eb & Ev); [congruence|eauto].
Qed.

(** The steps of an installation after the name was found free. *)
Lemma add_app_ok s handle mf n block :
  app_inv s → manifest_ok mf →
  ∃ y, is_u32 y ∧
    caps_of y = list_to_set (take (Z.to_nat (am_capability_count mf)) (am_capabilities mf)) ∧
    ∀ ctx_ok, add_app mf handle n ctx_ok block s =
      match ctx_ok, block with
      | true, Some p => Some (0, added p (new_app handle mf n (g_next_app_id s) [y]) s)
      | _, _ => Some (-1, s)
      end.
Proof.
  intros Hs [Hc Hl].
  destruct (add_caps_ok (Z.to_nat (am_capability_count mf)) 0 mf 0
    (take (Z.to_nat (am_capability_count mf)) (am_capabilities mf))) as (y & Ey & Hy & Es).
  { split; lia. } { lia. } { done. } { done. } { rewrite length_take. unfold blen in Hc. lia. }
  exists y. split; [done|]. split.
  { rewrite Es. assert (caps_of 0 = ∅) as -> by (vm_compute; reflexivity). apply union_empty_l_L. }
  intros ctx_ok. unfold add_app. change (capability_set_clear (Some [0])) with (Some [0]). rewrite Ey.
  cbn [mbind option_bind]. destruct ctx_ok; [|done]. cbn [app_context_create capability_set_copy].
  destruct block as [p|]; [|done]. pose proof (ai_lock _ Hs) as El. unfold app_lock.
  destruct s. cbn in El |- *. by subst.
Qed.

Lemma does_install ctx_ok block_ok mf n s m :
  app_inv s → shows s m → name_ok (Some n) → manifest_ok mf → does (Install ctx_ok block_ok mf n) s m.
Proof.
  intros Hs Hm Hn Hmf. destruct (find_named n s m Hs Hm) as (r & Ef & Hr).
  set (block := if block_ok then Some (fresh (dom (app_at s))) else None).
  assert (app_step (Install ctx_ok block_ok mf n) s =
          app_install_manifest ctx_ok block (Some mf) (Some n) s) as Eo by done.
  unfold app_install_manifest in Eo. rewrite Ef in Eo. cbn [mbind option_bind] in Eo. destruct r as [p|].
  { destruct Hr as (a & _ & _ & Em). apply does_refused; [done..|]. left. by rewrite Em. }
  destruct Hr as [Em Hne]. destruct (add_app_ok s None mf n block Hs Hmf) as (y & Hy & Ey & Ea).
  rewrite Ea in Eo. destruct ctx_ok; [|apply does_refused; [done..|by right]].
  destruct block_ok; cbn [block] in Eo; [|apply does_refused; [done..|by right]].
  set (p := fresh (dom (app_at s))) in *. set (a := new_app None mf n (g_next_app_id s) [y]) in *.
  assert (app_at s !! p = None) as Hp by apply not_elem_of_dom, is_fresh.
  assert (nm a = n) as Ena by by apply nm_new.
  exists 0, (added p a s), (<[n := (APP_STATE_INSTALLED, g_next_app_id s)]> m).
  split; [exact Eo|]. split; [by apply life_install|]. split.
  - apply inv_added; try done.
    + by exists (mk_context (g_next_app_id s) [y] 0), y.
    + by rewrite Ena.
    + intros q b Hq. rewrite Ena. by apply (Hne q).
  - rewrite <- Ena at 1. apply (shows_added s p a m); [done..|by rewrite Ena].
Qed.

(** Installing a module that was loaded, under a free name. *)
Lemma app_install_module handle_ok data_ok sym_ok dep_ok p data size n h crc mf s m :
  app_inv s → shows s m → size ≠ 0 → m !! n = None →
  Module.ardmod_load handle_ok data_ok sym_ok dep_ok (Some data) size (g_crc s) = Some (Some h, crc) →
  Module.mo_loaded h = true →
  parse_manifest (Some h) (with_crc crc s) = Some (0, Some mf) → manifest_ok mf →
  ∃ y, caps_of y = list_to_set (take (Z.to_nat (am_capability_count mf)) (am_capabilities mf)) ∧
    app_install handle_ok data_ok sym_ok dep_ok true (Some p) (Some data) size (Some n) s =
      Some (0, added p (new_app (Some h) mf n (g_next_app_id s) [y]) (with_crc crc s)).
Proof.
  intros Hs Hm Hsz Em El Hld Ep Hmf. assert (app_inv (with_crc crc s)) as Hs1 by by destruct Hs.
  destruct (find_named n (with_crc crc s) m Hs1 Hm) as (r & Ef & Hr).
  destruct (add_app_ok (with_crc crc s) (Some h) mf n (Some p) Hs1 Hmf) as (y & _ & Ey & Ea).
  exists y. split; [done|]. unfold app_install. rewrite (proj2 (Z.eqb_neq _ _) Hsz), El.
  cbn [mbind option_bind]. unfold Module.ardmod_resolve_deps, Module.ardmod_register_symbols. rewrite Hld.
  cbn [negb Z.eqb]. rewrite Ep. cbn [mbind option_bind Z.eqb negb]. rewrite Ef. cbn [mbind option_bind].
  destruct r as [q|]; [destruct Hr as (a & _ & _ & E); congruence|]. apply Ea.
Qed.

(** Switching to the next app takes the lock again while it holds it: with an app to stop or one
    to start, the call never returns. *)
Lemma app_stop_locked n s : g_app_lock s = true → app_stop (Some n) s = None.
Proof. intros El. unfold app_stop, locked_find, app_lock. by rewrite El. Qed.

Lemma app_start_locked n s : g_app_lock s = true → app_start (Some n) s = None.
Proof. intros El. unfold app_start, locked_find, app_lock. by rewrite El. Qed.

Lemma scan_next_node c f (l : list nat) s :
  (∀ p, c = Some p → is_Some (app_at s !! p)) → (∀ p, p ∈ l → is_Some (app_at s !! p)) →
  ∃ cur nxt, scan_next c f l s = Some (cur, nxt) ∧
    (∀ p, cur = Some p → is_Some (app_at s !! p)) ∧ (∀ p, nxt = Some p → p ∈ l).
Proof.
  revert c f. induction l as [|p l IH]; intros c f Hc Hl; [by exists c, None|]. cbn [scan_next].
  destruct (Hl p) as [a Ea]; [left|]. rewrite Ea. cbn [mbind option_bind].
  assert (∀ q, q ∈ l → is_Some (app_at s !! q)) as Hl' by (intros q Hq; apply Hl; by right).
  destruct (in_state APP_STATE_RUNNING a).
  - destruct (IH (Some p) true) as (cur & nxt & E & Hcur & Hn); [intros q [= <-]; by rewrite Ea|done|].
    exists cur, nxt. split; [done|]. split; [done|]. intros q Hq. right. by apply Hn.
  - destruct (f && in_state APP_STATE_INSTALLED a).
    + exists c, (Some p). split; [done|]. split; [done|]. intros q [= <-]. left.
    + destruct (IH c f Hc Hl') as (cur & nxt & E & Hcur & Hn). exists cur, nxt. split; [done|].
      split; [done|]. intros q Hq. right. by apply Hn.
Qed.

(** The scan finds a running app if there is one. *)
Lemma scan_next_running c f (l : list nat) s cur nxt p a :
  scan_next c f l s = Some (cur, nxt) → (f = true → is_Some c) →
  p ∈ l → app_at s !! p = Some a → ap_state a = APP_STATE_RUNNING → is_Some cur.
Proof.
  revert c f. induction l as [|q l IH]; intros c f E Hc Hp Ea Est; [by apply elem_of_nil in Hp|].
  cbn [scan_next] in E. destruct (app_at s !! q) as [b|] eqn:Eb; [|done]. cbn [mbind option_bind] in E.
  assert (∀ c' f' l', (f' = true → is_Some c') → is_Some c' → scan_next c' f' l' s = Some (cur, nxt) → is_Some cur)
    as Hkeep.
  { clear. intros c' f' l'. revert c' f'. induction l' as [|q l' IH]; intros c' f' Hf Hc E; cbn [scan_next] in E.
    { by injection E as <- _. }
    destruct (app_at s !! q) as [b|]; [|done]. cbn [mbind option_bind] in E.
    destruct (in_state APP_STATE_RUNNING b); [by eapply (IH (Some q) true)|].
    destruct (f' && _); [by injection E as <- _|]. by eapply (IH c' f'). }
  destruct (in_state APP_STATE_RUNNING b) eqn:Er; [by eapply (Hkeep (Some q) true)|].
  destruct (f && in_state APP_STATE_INSTALLED b) eqn:Ef.
  { injection E as <- _. apply andb_true_iff in Ef as [-> _]. by apply Hc. }
  apply elem_of_cons in Hp as [->|Hp]; [|by eapply IH].
  rewrite Eb in Ea. injection Ea as ->. apply in_state_false in Er. done.
Qed.

Lemma switch_next_hangs s m : app_inv s → shows s m → switchable m → os_app_switch_next s = None.
Proof.
  intros Hs Hm (n & v & Ev & Hst). apply (Hm n v) in Ev as (p & a & [Hp Ha] & _ & Ev). subst v. cbn [fst] in Hst.
  unfold os_app_switch_next, app_lock. rewrite (ai_lock _ Hs). cbn [mbind option_bind].
  destruct (scan_next_node None false (g_apps s) (App.with_lock true s)) as (cur & nxt & E & Hcur & Hn);
    [done|exact (ai_node _ Hs)|].
  change (g_apps (App.with_lock true s)) with (g_apps s). rewrite E. cbn [mbind option_bind].
  destruct (find_app_spec (in_state APP_STATE_INSTALLED) (g_apps s) (App.with_lock true s)) as (r & Er & Hr);
    [exact (ai_node _ Hs)|].
  change (app_at (App.with_lock true s)) with (app_at s) in *.
  assert (∃ o, match nxt with Some _ => Some nxt
               | None => find_app (in_state APP_STATE_INSTALLED) (g_apps s) (App.with_lock true s) end
               = Some o ∧ (∀ q, o = Some q → q ∈ g_apps s) ∧ (ap_state a = APP_STATE_INSTALLED → is_Some o))
    as (o & -> & Ho & Hi).
  { destruct nxt as [q|]; [exists (Some q); split_and!; [done|intros ? [= <-]; by apply Hn|done]|].
    rewrite Er. exists r. split; [done|]. destruct r as [q|].
    - split; [|done]. intros q' [= <-]. by destruct Hr as (b & Hb & _).
    - split; [done|]. intros Ei. specialize (Hr p a Hp Ha). by apply in_state_false in Hr. }
  cbn [mbind option_bind]. destruct cur as [c|].
  { destruct (Hcur c eq_refl) as [b ->]. cbn [mbind option_bind]. by rewrite app_stop_locked. }
  cbn [mbind option_bind]. destruct Hst as [Hst|Hst].
  { by destruct (scan_next_running None false (g_apps s) (App.with_lock true s) None nxt p a E) as [? ?]. }
  destruct (Hi Hst) as [q ->]. cbn [mbind option_bind]. change (app_at (App.with_lock true s)) with (app_at s).
  destruct (ai_node _ Hs q (Ho q eq_refl)) as [b ->]. cbn [mbind option_bind].
  by rewrite app_start_locked.
Qed.

(** Without an app to stop or start it refuses. *)
Lemma scan_next_none (l : list nat) s :
  (∀ p, p ∈ l → ∃ a, app_at s !! p = Some a ∧ ap_state a ≠ APP_STATE_RUNNING) →
  scan_next None false l s = Some (None, None).
Proof.
  induction l as [|p l IH]; intros Hl; [done|]. cbn [scan_next]. destruct (Hl p) as (a & -> & Ha); [left|].
  cbn [mbind option_bind andb]. rewrite (proj2 (in_state_false _ a) Ha). apply IH. intros q Hq. apply Hl. by right.
Qed.

Lemma does_switch s m : app_inv s → shows s m → ¬ switchable m → does SwitchNext s m.
Proof.
  intros Hs Hm Hsw.
  assert (∀ p a, at_node s p a → ap_state a ≠ APP_STATE_RUNNING ∧ ap_state a ≠ APP_STATE_INSTALLED) as Hno.
  { intros p a Hp. assert (m !! nm a = Some (ap_state a, ap_id a)) as E by (apply Hm; eauto).
    split; intros Est; apply Hsw; exists (nm a), (ap_state a, ap_id a); rewrite E; cbn [fst]; auto. }
  apply does_refused; [done..| |].
  - cbn [app_step]. unfold os_app_switch_next, app_lock. rewrite (ai_lock _ Hs). cbn [mbind option_bind].
    rewrite scan_next_none.
    2:{ intros p Hp. destruct (ai_node _ Hs p Hp) as [a Ea]. exists a. split; [done|]. by apply (Hno p). }
    cbn [mbind option_bind].
    destruct (find_app_spec (in_state APP_STATE_INSTALLED) (g_apps s) (App.with_lock true s)) as (r & Er & Hr);
      [exact (ai_node _ Hs)|].
    change (g_apps (App.with_lock true s)) with (g_apps s). rewrite Er. cbn [mbind option_bind].
    destruct r as [p|].
    + destruct Hr as (a & Hp & Ea & Ei). destruct (Hno p a (conj Hp Ea)) as [_ Hi]. by apply in_state_true in Ei.
    + cbn [mbind option_bind]. pose proof (ai_lock _ Hs) as El. destruct s. cbn in El |- *. by subst.
  - intros n v Ev. apply Hm in Ev as (p & a & Hp & _ & Ev). subst v. cbn [fst]. by apply (Hno p).
Qed.

(** Whether an app is in one of the two states. *)
Lemma switchable_dec m : switchable m ∨ ¬ switchable m.
Proof.
  set (t := λ nv : list Z * (app_state_t * Z), nv.2.1 = APP_STATE_RUNNING ∨ nv.2.1 = APP_STATE_INSTALLED).
  destruct (decide (Exists t (map_to_list m))) as [E|E]; [left|right].
  - apply Exists_exists in E as ([n v] & Hin & Ht). exists n, v. split; [by apply elem_of_map_to_list|exact Ht].
  - intros (n & v & Ev & Ht). apply E, Exists_exists. exists (n, v). split; [by apply elem_of_map_to_list|exact Ht].
Qed.

Lemma does_session o s m :
  app_inv s → shows s m → session_op_ok o → provided o → does (OnSession o) s m.
Proof.
  intros Hs Hm Ho Hp.
  destruct (session_total o (world s) (g_slots s) (ai_slots _ Hs) (ai_os _ Hs) Ho Hp) as (r & w & g & E & Hg & Hk).
  exists r.1, (App.with_world w (with_slots g s)), m. split; [cbn [app_step]; by rewrite E|].
  split; [constructor|]. split; [by apply inv_world|exact Hm].
Qed.

Lemma app_step_does o s m :
  app_inv s → shows s m → app_op_ok o → o ≠ SwitchNext ∨ ¬ switchable m → does o s m.
Proof.
  intros Hs Hm Ho Hsw. destruct o; cbn [app_op_ok] in Ho.
  - destruct Ho. by apply does_install.
  - by apply does_uninstall.
  - by apply does_start.
  - by apply does_stop.
  - by apply does_suspend.
  - by apply does_resume.
  - by apply does_limits.
  - by apply does_quit.
  - apply does_switch; [done..|]. by destruct Hsw.
  - destruct Ho. by apply does_session.
Qed.

(** No apps, no sessions. *)
Definition app_boot (c : Crc32.crc32_state) w : app_core W := mk_apps [] 1 false ∅ g_slots_init c w.

Lemma app_boot_inv c w : os_inv w → app_inv (app_boot c w) ∧ shows (app_boot c w) ∅.
Proof.
  intros Hw. assert (∀ p a, ¬ at_node (app_boot c w) p a) as Hn by by intros p a [?%elem_of_nil _].
  split.
  - split; try done.
    + constructor.
    + intros p Hp. by apply elem_of_nil in Hp.
    + intros p a Hp. by destruct (Hn p a).
    + intros p a Hp. by destruct (Hn p a).
    + intros p a Hp. by destruct (Hn p a).
    + intros p q a b Hp. by destruct (Hn p a).
    + intros p q a b t Hp. by destruct (Hn p a).
    + apply table_init.
  - intros n v. rewrite lookup_empty. split; [done|]. intros (p & a & Hp & _). by destruct (Hn p a).
Qed.

(** The call that never returns. *)
Lemma switch_next_dec (o : app_op) : o = SwitchNext ∨ o ≠ SwitchNext.
Proof. destruct o; (by left) || (by right). Qed.

Lemma app_runs_live l s m :
  Forall app_op_ok l → app_inv s → shows s m →
  ∃ l1 l2 rs s' m', l = l1 ++ l2 ∧ runs app_step l1 s = Some (rs, s') ∧
    lives_through l1 rs (m, g_next_app_id s) (m', g_next_app_id s') ∧ app_inv s' ∧ shows s' m' ∧
    (l2 = [] ∨ ∃ l3, l2 = SwitchNext :: l3 ∧ switchable m').
Proof.
  intros Hl. revert s m. induction Hl as [|o l Ho _ IH]; intros s m Hs Hm.
  { exists [], [], [], s, m. split_and!; [done..|constructor|done|done|by left]. }
  destruct (switchable_dec m) as [Hsw|Hsw], (switch_next_dec o) as [->|Hne].
  { exists [], (SwitchNext :: l), [], s, m. split_and!; [done..|constructor|done|done|right; by exists l]. }
  all: destruct (app_step_does _ s m Hs Hm Ho) as (r & s1 & m1 & E1 & L1 & Hs1 & Hm1); [by (left + right)|];
    destruct (IH s1 m1 Hs1 Hm1) as (l1 & l2 & rs & s2 & m2 & -> & E2 & L2 & Hs2 & Hm2 & Hend);
    eexists (_ :: l1), l2, (r :: rs), s2, m2; cbn [runs app]; rewrite E1; cbn [mbind option_bind]; rewrite E2;
    (split_and!; [done|done|by econstructor|done|done|exact Hend]).
Qed.

(** C7: The life cycle of the apps.  From a started core with no apps, take any sequence of these
    calls: install (of a manifest whose capabilities are below 32 and within its array),
    uninstall, start, stop, suspend, resume, set limits, quit the current app, switch to the next
    app, and the calls on sessions, with names shorter than the field for them.  Whatever code the
    apps run, the calls return, no freed struct is read, and each call with its result is a step of
    the life cycle on the apps by name and state: an app runs only after it was started or resumed,
    stops or suspends only while it runs, resumes only while suspended, cannot be removed while it
    runs, and a refused call leaves every app as it was.  Names stay unique, exactly the running
    and suspended apps have a task, live and their own, and each context has the capabilities of
    the manifest.  The one exception is [os_app_switch_next]: it takes the lock that it holds, so
    with any app running or installed it never returns, and the sequence ends there.  Installing
    from a module ([app_install]) is not among the calls: what it does once the module has been
    loaded is Lemma [app_install_module]. *)
Theorem app_lifecycle (l : list app_op) (c : Crc32.crc32_state) (w : W) :
  Forall app_op_ok l → os_inv w →
  ∃ l1 l2 rs s' m', l = l1 ++ l2 ∧ runs app_step l1 (app_boot c w) = Some (rs, s') ∧
    lives_through l1 rs (∅, 1) (m', g_next_app_id s') ∧ shows s' m' ∧ app_inv s' ∧
    (l2 = [] ∨ ∃ l3, l2 = SwitchNext :: l3 ∧ switchable m' ∧ os_app_switch_next s' = None).
Proof.
  intros Hl Hw. destruct (app_boot_inv c w Hw) as [Hs Hm].
  destruct (app_runs_live l _ _ Hl Hs Hm) as (l1 & l2 & rs & s' & m' & -> & E & L & Hs' & Hm' & Hend).
  exists l1, l2, rs, s', m'. split_and!; [done|exact E|exact L|exact Hm'|exact Hs'|].
  destruct Hend as [->|(l3 & -> & Hsw)]; [by left|right]. exists l3. split_and!; [done|done|].
  by apply (switch_next_hangs s' m').
Qed.
End AppThm.
