(* ===== verification/AppSched.v ===== *)
(** * The apps on the scheduler

    The tasks of the application core are those of kernel/scheduler.c: the operations of
    Scheduler.v keep the laws of [AppOsLaws], so the life cycle holds of the two together. *)

From Stdlib Require Import ZArith Lia.
From stdpp Require Import base tactics option numbers sets functions fin_maps gmap list.
From S2P Require Import Prelude.
From S2P Require Import CString.
From S2P Require Import Crc32.
From S2P Require Import Power.
From S2P Require Import PowerGovernor.
From S2P Require Import Scheduler.
From S2P Require Import SchedulerRep.
From S2P Require Import SchedulerSpec.
From S2P Require Import SchedulerThm.
From S2P Require Import Syscall.
From S2P Require Import Runs.
From S2P Require Import AppRuntime.
From S2P Require Import AppRuntimeThm.
From S2P Require Import App.
From S2P Require Import AppThm.

Section AppSched.
Context {G : Type} `{Governor G}.

(** The smallest stack of the target, the function that tasks of apps enter, what the
    allocator answers for a stack, and the manifest in the memory at an address. *)
Context (min_stack : Z) (entry : nat) (stacks : scheduler_t G → option Z).

(** The scheduler, and the memory that holds the objects of the apps: a byte at each address. *)
Definition sched_world : Type := scheduler_t G * (Z → Z).
Context (manifests : Z → sched_world → option app_manifest_t).

Definition mem_read (a n : Z) (w : sched_world) : list Z := (λ i, w.2 (a + i)) <$> seqZ 0 n.
Definition mem_write (a : Z) (d : list Z) (w : sched_world) : sched_world :=
  (w.1, λ x, if decide (a <= x < a + blen d) then default 0 (d !! Z.to_nat (x - a)) else w.2 x).

Instance sched_objects : LiveMem sched_world := {|
  live_read a n w := Some (mem_read a n w);
  live_write a d w := Some (mem_write a d w)
|}.

Instance sched_os : AppOs sched_world := {|
  os_objects := sched_objects;
  os_task_create name p stack w :=
    '(r, t, s) ← task_create min_stack name (Some entry) (Z.of_nat p) TASK_PRIO_NORMAL stack
                   (stacks w.1) w.1;
    Some (r, t, (s, w.2));
  os_task_delete t w := '(_, s) ← task_delete t w.1; Some (s, w.2);
  os_task_suspend t w := s ← landed (task_suspend (Some t) w.1); Some (s, w.2);
  os_task_resume t w := s ← task_resume (Some t) w.1; Some (s, w.2);
  os_ticks w := scheduler_get_tick_count w.1;
  os_manifest_at := manifests
|}.

(** A task that was created and not deleted, and is not the main thread. *)
Definition live_task (i : nat) (w : sched_world) : Prop :=
  valid_handle w.1 i = true ∧ s_main w.1 ≠ Some i.

Lemma live_use m s L i (mem : Z → Z) : inv m s L → live_task i (s, mem) ↔ in_use L i ∧ i ≠ m.
Proof.
  intros Hi. unfold live_task, in_use, valid_handle. cbn [fst]. rewrite bool_decide_eq_true, (inv_main _ _ _ Hi).
  rewrite (list_of_rep s L) by apply Hi. naive_solver.
Qed.

(** A step that frees no task but [i]. *)
Lemma live_step m s L s' L' (mem mem' : Z → Z) (P : nat → Prop) :
  inv m s L → inv m s' L' → (∀ j, P j → j ∈ L' LFree → j ∈ L LFree) →
  ∀ j, P j → live_task j (s, mem) → live_task j (s', mem').
Proof.
  intros Hi Hi' HL j Hj. rewrite (live_use m s L), (live_use m s' L') by done. unfold in_use.
  intros [[Hlt Hf] Hm]. split; [|done]. split; [done|]. intros Hf'. by apply Hf, HL.
Qed.

Lemma sched_create name p stack (w : sched_world) :
  well_formed w.1 →
  ∃ r t w', os_task_create name p stack w = Some (r, t, w') ∧ well_formed w'.1 ∧
    (∀ i, live_task i w → live_task i w') ∧
    (r = 0 → ∃ i, t = Some i ∧ live_task i w' ∧ ¬ live_task i w).
Proof.
  destruct w as [s mem]. cbn [fst]. intros (m & L & Hi). cbn [os_task_create sched_os fst snd].
  destruct (task_create_inv m s L min_stack name (Some entry) (Z.of_nat p) TASK_PRIO_NORMAL stack (stacks s) Hi)
    as (r & h & s' & L' & E & Hi' & _ & Hc). rewrite E. cbn [mbind option_bind].
  exists r, h, (s', mem). split; [done|]. split; [by exists m, L'|].
  assert (s' = s ∨ (∀ j, j ∈ L' LFree → j ∈ L LFree)) as Hfree.
  { destruct (L LFree) as [|i fr] eqn:EL; [naive_solver|]. destruct (stacks s); [|right; intros j; by rewrite (proj1 (proj2 (proj2 Hc))), EL].
    case_decide; [|naive_solver]. destruct Hc as (_ & _ & -> & _). right. intros j.
    rewrite fn_lookup_insert_ne, fn_lookup_insert by done. intros ?. by right. }
  split.
  - intros i Hl. destruct Hfree as [->|Hf]; [done|].
    by apply (live_step m s L s' L' mem mem (λ _, True) Hi Hi' (λ j _, Hf j)).
  - intros ->. destruct (L LFree) as [|i fr] eqn:EL; [naive_solver|]. destruct (stacks s); [|naive_solver].
    case_decide; [|naive_solver]. destruct Hc as (_ & -> & -> & _). exists i. split; [done|].
    destruct (free_off_main m s L i Hi) as [Hm _]; [rewrite EL; left|].
    pose proof (rep_nd _ _ (pl_rep _ _ _ _ (inv_placed _ _ _ Hi)) LFree) as Hn. rewrite EL in Hn.
    apply NoDup_cons in Hn as [Hn _].
    rewrite (live_use m s' _ i mem Hi'), (live_use m s L i mem Hi). unfold in_use. rewrite EL.
    rewrite fn_lookup_insert_ne, fn_lookup_insert by done. split.
    + split; [|done]. split; [|done]. eapply rep_lt; [apply (inv_placed _ _ _ Hi)|]. rewrite EL. left.
    + intros [[_ Hf] _]. apply Hf. left.
Qed.

Lemma sched_delete i (w : sched_world) :
  well_formed w.1 → live_task i w →
  ∃ w', os_task_delete (Some i) w = Some w' ∧ well_formed w'.1 ∧
    ∀ j, j ≠ i → live_task j w → live_task j w'.
Proof.
  destruct w as [s mem]. cbn [fst]. intros (m & L & Hi) Hl. apply (live_use m s L i mem Hi) in Hl as [Hu _].
  destruct (tv_some s L i (pl_rep _ _ _ _ (inv_placed _ _ _ Hi)) (proj1 Hu)) as [t Et].
  destruct (task_delete_inv m s L i t Hi Hu Et) as (r & s' & L' & E & Hi' & _ & Hd).
  cbn [os_task_delete sched_os fst snd]. rewrite E. cbn [mbind option_bind]. exists (s', mem).
  split; [done|]. split; [by exists m, L'|]. case_decide as Hc; [by destruct Hd as [_ ->]|].
  apply (live_step m s L s' L' mem mem (λ j, j ≠ i) Hi Hi'). intros j Hj.
  rewrite (proj1 (proj2 Hd)). intros [->|?]%elem_of_cons; done.
Qed.

Lemma sched_suspend i (w : sched_world) :
  well_formed w.1 → live_task i w →
  ∃ w', os_task_suspend i w = Some w' ∧ well_formed w'.1 ∧ ∀ j, live_task j w → live_task j w'.
Proof.
  destruct w as [s mem]. cbn [fst]. intros (m & L & Hi) Hl. apply (live_use m s L i mem Hi) in Hl as [Hu Him].
  destruct (tv_some s L i (pl_rep _ _ _ _ (inv_placed _ _ _ Hi)) (proj1 Hu)) as [t Et].
  assert (∃ s' L', landed (task_suspend (Some i) s) = Some s' ∧ inv m s' L' ∧
            ∀ j, j ∈ L' LFree → j ∈ L LFree) as (s' & L' & E & Hi' & Hf).
  { destruct (decide (s_current s = Some i)) as [Hc|Hc].
    - destruct (task_suspend_self_inv m s L i t Hi Hc Him Et) as (o & s' & L' & E & Hi' & Ho & _ & _ & Hf).
      rewrite E. assert (∀ j, j ∈ L' LFree → j ∈ L LFree) as Hf' by (intros j; by rewrite Hf).
      destruct o as [z|n|]; [done| |by exists s', L'].
      destruct Ho as (_ & Ec & Hnm & tn & Etn & Hctx).
      destruct (land_inv m s' L' n tn Hi' Ec Hnm Etn Hctx) as (z & s2 & E2 & Hi2 & _). exists s2, L'.
      unfold landed. cbn [mbind option_bind]. by rewrite E2.
    - destruct (task_suspend_other_inv m s L i t Hi Hc Hu Et) as (s' & L' & -> & Hi' & Hl & Ho & _).
      exists s', L'. split; [done|]. split; [done|]. intros j Hj. destruct (decide (j = i)) as [->|Hne].
      + by destruct (Ho LFree).
      + by apply (Hl LFree j Hne). }
  cbn [os_task_suspend sched_os fst snd]. rewrite E. cbn [mbind option_bind]. exists (s', mem).
  split; [done|]. split; [by exists m, L'|]. intros j Hj.
  by apply (live_step m s L s' L' mem mem (λ _, True) Hi Hi' (λ j _, Hf j)).
Qed.

Lemma sched_resume i (w : sched_world) :
  well_formed w.1 → live_task i w →
  ∃ w', os_task_resume i w = Some w' ∧ well_formed w'.1 ∧ ∀ j, live_task j w → live_task j w'.
Proof.
  destruct w as [s mem]. cbn [fst]. intros (m & L & Hi) Hl. apply (live_use m s L i mem Hi) in Hl as [Hu _].
  destruct (tv_some s L i (pl_rep _ _ _ _ (inv_placed _ _ _ Hi)) (proj1 Hu)) as [t Et].
  destruct (task_resume_inv m s L i t Hi (proj1 Hu) Et (or_introl Hu)) as (s' & E & Hs').
  assert (∃ L', inv m s' L' ∧ ∀ j, j ∈ L' LFree → j ∈ L LFree) as (L' & Hi' & Hf).
  { case_decide; destruct Hs' as [Hi' _]; eexists; (split; [exact Hi'|]); intros j; [|done].
    by rewrite fn_lookup_insert_ne. }
  cbn [os_task_resume sched_os fst snd]. rewrite E. cbn [mbind option_bind]. exists (s', mem).
  split; [done|]. split; [by exists m, L'|]. intros j Hj.
  by apply (live_step m s L s' L' mem mem (λ _, True) Hi Hi' (λ j _, Hf j)).
Qed.

Lemma mem_read_len a n w : 0 <= n → blen (mem_read a n w) = n.
Proof. intros. unfold mem_read, blen. rewrite length_fmap, length_seqZ. lia. Qed.

#[refine] Instance sched_laws : AppOsLaws sched_world := {|
  os_inv w := well_formed w.1;
  os_live := live_task
|}.
Proof.
  - exact sched_create.
  - exact sched_delete.
  - exact sched_suspend.
  - exact sched_resume.
  - intros a n w _ Hn. eexists. split; [reflexivity|]. apply mem_read_len. lia.
  - intros a d w Hw. eexists. split; [reflexivity|]. by split.
Defined.
End AppSched.

(** ** Apps on a concrete system

    Two apps, started, suspended and stopped on the scheduler of SchedulerThm.v. *)
Module AppRuns.
#[local] Existing Instance ms_clock.
#[local] Existing Instances demo_governor arch32.

#[local] Instance demo_os : AppOs (sched_world (G := governor_t * power_state_t Z * Z)) :=
  sched_os 1024 1 (λ _, Some 131072) (λ _ _, None).
#[local] Instance demo_laws : AppOsLaws (sched_world (G := governor_t * power_state_t Z * Z)) :=
  sched_laws 1024 1 (λ _, Some 131072) (λ _ _, None).

Abbreviation dworld := (sched_world (G := governor_t * power_state_t Z * Z)).

Definition two_caps : app_manifest_t :=
  mk_manifest (zeros 32) (zeros 16) 0 0 4096 0 0 ([5; 12] ++ zeros 14) 2 (zeros 64) (zeros 256).
Definition app_a : list Z := [97].
Definition app_b : list Z := [98].

Definition app_calls : list (app_op (W := dworld)) :=
  [SwitchNext; Install true true two_caps app_a; Install true true two_caps app_a;
   Install true true two_caps app_b; Start app_a; OnSession (Bind (Some app_a) 100 4); Suspend app_a;
   Start app_b; Uninstall app_b; Resume app_a; Stop app_b; QuitCurrent; Uninstall app_b; Resume app_a].
Definition app_end : list (app_op (W := dworld)) := [SwitchNext; Uninstall app_a].

(** Everything up to the first switch with an app to stop returns: that call does not. *)
Lemma app_lifecycle_witness :
  (∃ l1 l2 rs s' m', app_calls ++ [Start app_a] ++ app_end = l1 ++ l2 ∧
     runs app_step l1 (app_boot crc32_boot (demo_boot, λ _, 0)) = Some (rs, s') ∧
     lives_through l1 rs (∅, 1) (m', g_next_app_id s') ∧ shows s' m' ∧ app_inv s' ∧
     (l2 = [] ∨ ∃ l3, l2 = SwitchNext :: l3 ∧ switchable m' ∧ os_app_switch_next s' = None)) ∧
  option_map fst (runs app_step (app_calls ++ [Stop app_a; SwitchNext; Uninstall app_a])
    (app_boot crc32_boot (demo_boot, λ _, 0))) =
    Some [-1; 0; -1; 0; 0; 0; 0; 0; -1; 0; 0; 0; 0; -1; -1; -1; 0] ∧
  runs app_step (app_calls ++ [Start app_a] ++ app_end) (app_boot crc32_boot (demo_boot, λ _, 0)) = None.
Proof.
  assert (∀ n, n = app_a ∨ n = app_b → name_ok (Some n)) as Hn.
  { intros n Hn n' [= <-]. split; destruct Hn as [-> | ->]; vm_decide. }
  assert (manifest_ok two_caps) as Hm by (split; [split; vm_compute; discriminate|]; unfold cap_ok; vm_decide).
  split; [|split; vm_compute; reflexivity].
  apply app_lifecycle; [|exact demo_boot_well_formed].
  unfold app_calls, app_end. cbn [app].
  repeat (apply Forall_cons_2; [cbn [app_op_ok session_op_ok provided]; auto with lia|]).
  apply Forall_nil_2.
Defined.
End AppRuns.
