(* ===== verification/Ssd1306.v ===== *)
(** * The display panel (sim/models/ssd1306_model.c)

    The model of the panel that the simulator draws on: a monochrome buffer of pages, a
    byte for eight dots of a column, a layer of RGB565 pixels over it, the registers
    that the commands set, and the composition of both into the pixels of the window.
    The size of the panel is that of the device.  The bus the panel registers with and
    the window (sim_i2c.c, sim_video.c) are given by the class [SimI2c] and the
    arguments of the rendering.
    The three copies of the 5 by 7 font come first: a glyph for each character from 32 to
    127, five columns of seven dots, the lowest bit on top. *)

From Stdlib Require Import ZArith Lia.
From stdpp Require Import base tactics option numbers list.
From S2P Require Import Prelude.
From S2P Require Import Runs.

(** ** The fonts *)

Definition font_text : list (list Z) :=
  [[0x00; 0x00; 0x00; 0x00; 0x00]; [0x00; 0x00; 0x5F; 0x00; 0x00]; [0x00; 0x07; 0x00; 0x07; 0x00];
   [0x14; 0x7F; 0x14; 0x7F; 0x14]; [0x24; 0x2A; 0x7F; 0x2A; 0x12]; [0x23; 0x13; 0x08; 0x64; 0x62];
   [0x36; 0x49; 0x55; 0x22; 0x50]; [0x00; 0x05; 0x03; 0x00; 0x00]; [0x00; 0x1C; 0x22; 0x41; 0x00];
   [0x00; 0x41; 0x22; 0x1C; 0x00]; [0x14; 0x08; 0x3E; 0x08; 0x14]; [0x08; 0x08; 0x3E; 0x08; 0x08];
   [0x00; 0x50; 0x30; 0x00; 0x00]; [0x08; 0x08; 0x08; 0x08; 0x08]; [0x00; 0x60; 0x60; 0x00; 0x00];
   [0x20; 0x10; 0x08; 0x04; 0x02]; [0x3E; 0x51; 0x49; 0x45; 0x3E]; [0x00; 0x42; 0x7F; 0x40; 0x00];
   [0x42; 0x61; 0x51; 0x49; 0x46]; [0x21; 0x41; 0x45; 0x4B; 0x31]; [0x18; 0x14; 0x12; 0x7F; 0x10];
   [0x27; 0x45; 0x45; 0x45; 0x39]; [0x3C; 0x4A; 0x49; 0x49; 0x30]; [0x01; 0x71; 0x09; 0x05; 0x03];
   [0x36; 0x49; 0x49; 0x49; 0x36]; [0x06; 0x49; 0x49; 0x29; 0x1E]; [0x00; 0x36; 0x36; 0x00; 0x00];
   [0x00; 0x56; 0x36; 0x00; 0x00]; [0x08; 0x14; 0x22; 0x41; 0x00]; [0x14; 0x14; 0x14; 0x14; 0x14];
   [0x00; 0x41; 0x22; 0x14; 0x08]; [0x02; 0x01; 0x51; 0x09; 0x06]; [0x32; 0x49; 0x79; 0x41; 0x3E];
   [0x7E; 0x11; 0x11; 0x11; 0x7E]; [0x7F; 0x49; 0x49; 0x49; 0x36]; [0x3E; 0x41; 0x41; 0x41; 0x22];
   [0x7F; 0x41; 0x41; 0x22; 0x1C]; [0x7F; 0x49; 0x49; 0x49; 0x41]; [0x7F; 0x09; 0x09; 0x09; 0x01];
   [0x3E; 0x41; 0x49; 0x49; 0x7A]; [0x7F; 0x08; 0x08; 0x08; 0x7F]; [0x00; 0x41; 0x7F; 0x41; 0x00];
   [0x20; 0x40; 0x41; 0x3F; 0x01]; [0x7F; 0x08; 0x14; 0x22; 0x41]; [0x7F; 0x40; 0x40; 0x40; 0x40];
   [0x7F; 0x02; 0x0C; 0x02; 0x7F]; [0x7F; 0x04; 0x08; 0x10; 0x7F]; [0x3E; 0x41; 0x41; 0x41; 0x3E];
   [0x7F; 0x09; 0x09; 0x09; 0x06]; [0x3E; 0x41; 0x51; 0x21; 0x5E]; [0x7F; 0x09; 0x19; 0x29; 0x46];
   [0x46; 0x49; 0x49; 0x49; 0x31]; [0x01; 0x01; 0x7F; 0x01; 0x01]; [0x3F; 0x40; 0x40; 0x40; 0x3F];
   [0x1F; 0x20; 0x40; 0x20; 0x1F]; [0x3F; 0x40; 0x38; 0x40; 0x3F]; [0x63; 0x14; 0x08; 0x14; 0x63];
   [0x07; 0x08; 0x70; 0x08; 0x07]; [0x61; 0x51; 0x49; 0x45; 0x43]; [0x00; 0x7F; 0x41; 0x41; 0x00];
   [0x02; 0x04; 0x08; 0x10; 0x20]; [0x00; 0x41; 0x41; 0x7F; 0x00]; [0x04; 0x02; 0x01; 0x02; 0x04];
   [0x40; 0x40; 0x40; 0x40; 0x40]; [0x00; 0x01; 0x02; 0x04; 0x00]; [0x20; 0x54; 0x54; 0x54; 0x78];
   [0x7F; 0x48; 0x44; 0x44; 0x38]; [0x38; 0x44; 0x44; 0x44; 0x20]; [0x38; 0x44; 0x44; 0x48; 0x7F];
   [0x38; 0x54; 0x54; 0x54; 0x18]; [0x08; 0x7E; 0x09; 0x01; 0x02]; [0x0C; 0x52; 0x52; 0x52; 0x3E];
   [0x7F; 0x08; 0x04; 0x04; 0x78]; [0x00; 0x44; 0x7D; 0x40; 0x00]; [0x20; 0x40; 0x44; 0x3D; 0x00];
   [0x7F; 0x10; 0x28; 0x44; 0x00]; [0x00; 0x41; 0x7F; 0x40; 0x00]; [0x7C; 0x04; 0x18; 0x04; 0x78];
   [0x7C; 0x08; 0x04; 0x04; 0x78]; [0x38; 0x44; 0x44; 0x44; 0x38]; [0x7C; 0x14; 0x14; 0x14; 0x08];
   [0x08; 0x14; 0x14; 0x18; 0x7C]; [0x7C; 0x08; 0x04; 0x04; 0x08]; [0x48; 0x54; 0x54; 0x54; 0x20];
   [0x04; 0x3F; 0x44; 0x40; 0x20]; [0x3C; 0x40; 0x40; 0x20; 0x7C]; [0x1C; 0x20; 0x40; 0x20; 0x1C];
   [0x3C; 0x40; 0x30; 0x40; 0x3C]; [0x44; 0x28; 0x10; 0x28; 0x44]; [0x0C; 0x50; 0x50; 0x50; 0x3C];
   [0x44; 0x64; 0x54; 0x4C; 0x44]; [0x00; 0x08; 0x36; 0x41; 0x00]; [0x00; 0x00; 0x7F; 0x00; 0x00];
   [0x00; 0x41; 0x36; 0x08; 0x00]; [0x10; 0x08; 0x08; 0x10; 0x08]; [0x78; 0x46; 0x41; 0x46; 0x78]].

Definition font_scaled : list (list Z) :=
  [[0x00; 0x00; 0x00; 0x00; 0x00]; [0x00; 0x00; 0x5F; 0x00; 0x00]; [0x00; 0x07; 0x00; 0x07; 0x00];
   [0x14; 0x7F; 0x14; 0x7F; 0x14]; [0x24; 0x2A; 0x7F; 0x2A; 0x12]; [0x23; 0x13; 0x08; 0x64; 0x62];
   [0x36; 0x49; 0x55; 0x22; 0x50]; [0x00; 0x05; 0x03; 0x00; 0x00]; [0x00; 0x1C; 0x22; 0x41; 0x00];
   [0x00; 0x41; 0x22; 0x1C; 0x00]; [0x14; 0x08; 0x3E; 0x08; 0x14]; [0x08; 0x08; 0x3E; 0x08; 0x08];
   [0x00; 0x50; 0x30; 0x00; 0x00]; [0x08; 0x08; 0x08; 0x08; 0x08]; [0x00; 0x60; 0x60; 0x00; 0x00];
   [0x20; 0x10; 0x08; 0x04; 0x02]; [0x3E; 0x51; 0x49; 0x45; 0x3E]; [0x00; 0x42; 0x7F; 0x40; 0x00];
   [0x42; 0x61; 0x51; 0x49; 0x46]; [0x21; 0x41; 0x45; 0x4B; 0x31]; [0x18; 0x14; 0x12; 0x7F; 0x10];
   [0x27; 0x45; 0x45; 0x45; 0x39]; [0x3C; 0x4A; 0x49; 0x49; 0x30]; [0x01; 0x71; 0x09; 0x05; 0x03];
   [0x36; 0x49; 0x49; 0x49; 0x36]; [0x06; 0x49; 0x49; 0x29; 0x1E]; [0x00; 0x36; 0x36; 0x00; 0x00];
   [0x00; 0x56; 0x36; 0x00; 0x00]; [0x08; 0x14; 0x22; 0x41; 0x00]; [0x14; 0x14; 0x14; 0x14; 0x14];
   [0x00; 0x41; 0x22; 0x14; 0x08]; [0x02; 0x01; 0x51; 0x09; 0x06]; [0x32; 0x49; 0x79; 0x41; 0x3E];
   [0x7E; 0x11; 0x11; 0x11; 0x7E]; [0x7F; 0x49; 0x49; 0x49; 0x36]; [0x3E; 0x41; 0x41; 0x41; 0x22];
   [0x7F; 0x41; 0x41; 0x22; 0x1C]; [0x7F; 0x49; 0x49; 0x49; 0x41]; [0x7F; 0x09; 0x09; 0x09; 0x01];
   [0x3E; 0x41; 0x49; 0x49; 0x7A]; [0x7F; 0x08; 0x08; 0x08; 0x7F]; [0x00; 0x41; 0x7F; 0x41; 0x00];
   [0x20; 0x40; 0x41; 0x3F; 0x01]; [0x7F; 0x08; 0x14; 0x22; 0x41]; [0x7F; 0x40; 0x40; 0x40; 0x40];
   [0x7F; 0x02; 0x0C; 0x02; 0x7F]; [0x7F; 0x04; 0x08; 0x10; 0x7F]; [0x3E; 0x41; 0x41; 0x41; 0x3E];
   [0x7F; 0x09; 0x09; 0x09; 0x06]; [0x3E; 0x41; 0x51; 0x21; 0x5E]; [0x7F; 0x09; 0x19; 0x29; 0x46];
   [0x46; 0x49; 0x49; 0x49; 0x31]; [0x01; 0x01; 0x7F; 0x01; 0x01]; [0x3F; 0x40; 0x40; 0x40; 0x3F];
   [0x1F; 0x20; 0x40; 0x20; 0x1F]; [0x3F; 0x40; 0x38; 0x40; 0x3F]; [0x63; 0x14; 0x08; 0x14; 0x63];
   [0x07; 0x08; 0x70; 0x08; 0x07]; [0x44; 0x28; 0x10; 0x28; 0x44]; [0x00; 0x7F; 0x41; 0x41; 0x00];
   [0x02; 0x04; 0x08; 0x10; 0x20]; [0x00; 0x41; 0x41; 0x7F; 0x00]; [0x04; 0x02; 0x01; 0x02; 0x04];
   [0x40; 0x40; 0x40; 0x40; 0x40]; [0x00; 0x01; 0x02; 0x04; 0x00]; [0x20; 0x54; 0x54; 0x54; 0x78];
   [0x7F; 0x48; 0x44; 0x44; 0x38]; [0x38; 0x44; 0x44; 0x44; 0x20]; [0x38; 0x44; 0x44; 0x48; 0x7F];
   [0x38; 0x54; 0x54; 0x54; 0x18]; [0x08; 0x7E; 0x09; 0x01; 0x02]; [0x0C; 0x52; 0x52; 0x52; 0x3E];
   [0x7F; 0x08; 0x04; 0x04; 0x78]; [0x00; 0x44; 0x7D; 0x40; 0x00]; [0x20; 0x40; 0x44; 0x3D; 0x00];
   [0x7F; 0x10; 0x28; 0x44; 0x00]; [0x00; 0x41; 0x7F; 0x40; 0x00]; [0x7C; 0x04; 0x18; 0x04; 0x78];
   [0x7C; 0x08; 0x04; 0x04; 0x78]; [0x38; 0x44; 0x44; 0x44; 0x38]; [0x7C; 0x14; 0x14; 0x14; 0x08];
   [0x08; 0x14; 0x14; 0x18; 0x7C]; [0x7C; 0x08; 0x04; 0x04; 0x08]; [0x48; 0x54; 0x54; 0x54; 0x20];
   [0x04; 0x3F; 0x44; 0x40; 0x20]; [0x3C; 0x40; 0x40; 0x20; 0x7C]; [0x1C; 0x20; 0x40; 0x20; 0x1C];
   [0x3C; 0x40; 0x30; 0x40; 0x3C]; [0x44; 0x28; 0x10; 0x28; 0x44]; [0x0C; 0x50; 0x50; 0x50; 0x3C];
   [0x44; 0x64; 0x54; 0x4C; 0x44]; [0x00; 0x08; 0x36; 0x41; 0x00]; [0x00; 0x00; 0x7F; 0x00; 0x00];
   [0x00; 0x41; 0x36; 0x08; 0x00]; [0x10; 0x08; 0x08; 0x10; 0x08]; [0x78; 0x46; 0x41; 0x46; 0x78]].

Definition font_color : list (list Z) :=
  [[0x00; 0x00; 0x00; 0x00; 0x00]; [0x00; 0x00; 0x5F; 0x00; 0x00]; [0x00; 0x07; 0x00; 0x07; 0x00];
   [0x14; 0x7F; 0x14; 0x7F; 0x14]; [0x24; 0x2A; 0x7F; 0x2A; 0x12]; [0x23; 0x13; 0x08; 0x64; 0x62];
   [0x36; 0x49; 0x55; 0x22; 0x50]; [0x00; 0x05; 0x03; 0x00; 0x00]; [0x00; 0x1C; 0x22; 0x41; 0x00];
   [0x00; 0x41; 0x22; 0x1C; 0x00]; [0x14; 0x08; 0x3E; 0x08; 0x14]; [0x08; 0x08; 0x3E; 0x08; 0x08];
   [0x00; 0x50; 0x30; 0x00; 0x00]; [0x08; 0x08; 0x08; 0x08; 0x08]; [0x00; 0x60; 0x60; 0x00; 0x00];
   [0x20; 0x10; 0x08; 0x04; 0x02]; [0x3E; 0x51; 0x49; 0x45; 0x3E]; [0x00; 0x42; 0x7F; 0x40; 0x00];
   [0x42; 0x61; 0x51; 0x49; 0x46]; [0x21; 0x41; 0x45; 0x4B; 0x31]; [0x18; 0x14; 0x12; 0x7F; 0x10];
   [0x27; 0x45; 0x45; 0x45; 0x39]; [0x3C; 0x4A; 0x49; 0x49; 0x30]; [0x01; 0x71; 0x09; 0x05; 0x03];
   [0x36; 0x49; 0x49; 0x49; 0x36]; [0x06; 0x49; 0x49; 0x29; 0x1E]; [0x00; 0x36; 0x36; 0x00; 0x00];
   [0x00; 0x56; 0x36; 0x00; 0x00]; [0x08; 0x14; 0x22; 0x41; 0x00]; [0x14; 0x14; 0x14; 0x14; 0x14];
   [0x00; 0x41; 0x22; 0x14; 0x08]; [0x02; 0x01; 0x51; 0x09; 0x06]; [0x32; 0x49; 0x79; 0x41; 0x3E];
   [0x7E; 0x11; 0x11; 0x11; 0x7E]; [0x7F; 0x49; 0x49; 0x49; 0x36]; [0x3E; 0x41; 0x41; 0x41; 0x22];
   [0x7F; 0x41; 0x41; 0x22; 0x1C]; [0x7F; 0x49; 0x49; 0x49; 0x41]; [0x7F; 0x09; 0x09; 0x09; 0x01];
   [0x3E; 0x41; 0x49; 0x49; 0x7A]; [0x7F; 0x08; 0x08; 0x08; 0x7F]; [0x00; 0x41; 0x7F; 0x41; 0x00];
   [0x20; 0x40; 0x41; 0x3F; 0x01]; [0x7F; 0x08; 0x14; 0x22; 0x41]; [0x7F; 0x40; 0x40; 0x40; 0x40];
   [0x7F; 0x02; 0x0C; 0x02; 0x7F]; [0x7F; 0x04; 0x08; 0x10; 0x7F]; [0x3E; 0x41; 0x41; 0x41; 0x3E];
   [0x7F; 0x09; 0x09; 0x09; 0x06]; [0x3E; 0x41; 0x51; 0x21; 0x5E]; [0x7F; 0x09; 0x19; 0x29; 0x46];
   [0x46; 0x49; 0x49; 0x49; 0x31]; [0x01; 0x01; 0x7F; 0x01; 0x01]; [0x3F; 0x40; 0x40; 0x40; 0x3F];
   [0x1F; 0x20; 0x40; 0x20; 0x1F]; [0x3F; 0x40; 0x38; 0x40; 0x3F]; [0x63; 0x14; 0x08; 0x14; 0x63];
   [0x07; 0x08; 0x70; 0x08; 0x07]; [0x61; 0x51; 0x49; 0x45; 0x43]; [0x00; 0x7F; 0x41; 0x41; 0x00];
   [0x02; 0x04; 0x08; 0x10; 0x20]; [0x00; 0x41; 0x41; 0x7F; 0x00]; [0x04; 0x02; 0x01; 0x02; 0x04];
   [0x40; 0x40; 0x40; 0x40; 0x40]; [0x00; 0x01; 0x02; 0x04; 0x00]; [0x20; 0x54; 0x54; 0x54; 0x78];
   [0x7F; 0x48; 0x44; 0x44; 0x38]; [0x38; 0x44; 0x44; 0x44; 0x20]; [0x38; 0x44; 0x44; 0x48; 0x7F];
   [0x38; 0x54; 0x54; 0x54; 0x18]; [0x08; 0x7E; 0x09; 0x01; 0x02]; [0x0C; 0x52; 0x52; 0x52; 0x3E];
   [0x7F; 0x08; 0x04; 0x04; 0x78]; [0x00; 0x44; 0x7D; 0x40; 0x00]; [0x20; 0x40; 0x44; 0x3D; 0x00];
   [0x7F; 0x10; 0x28; 0x44; 0x00]; [0x00; 0x41; 0x7F; 0x40; 0x00]; [0x7C; 0x04; 0x18; 0x04; 0x78];
   [0x7C; 0x08; 0x04; 0x04; 0x78]; [0x38; 0x44; 0x44; 0x44; 0x38]; [0x7C; 0x14; 0x14; 0x14; 0x08];
   [0x08; 0x14; 0x14; 0x18; 0x7C]; [0x7C; 0x08; 0x04; 0x04; 0x08]; [0x48; 0x54; 0x54; 0x54; 0x20];
   [0x04; 0x3F; 0x44; 0x40; 0x20]; [0x3C; 0x40; 0x40; 0x20; 0x7C]; [0x1C; 0x20; 0x40; 0x20; 0x1C];
   [0x3C; 0x40; 0x30; 0x40; 0x3C]; [0x44; 0x28; 0x10; 0x28; 0x44]; [0x0C; 0x50; 0x50; 0x50; 0x3C];
   [0x44; 0x64; 0x54; 0x4C; 0x44]; [0x00; 0x08; 0x36; 0x41; 0x00]; [0x00; 0x00; 0x7F; 0x00; 0x00];
   [0x00; 0x41; 0x36; 0x08; 0x00]; [0x10; 0x08; 0x08; 0x10; 0x08]; [0x78; 0x46; 0x41; 0x46; 0x78]].

(** ** The panel *)

(** The bus: registering and unregistering the address. *)
Class SimI2c (U : Type) := {
  sim_i2c_register_device : Z → U → U;
  sim_i2c_unregister_device : Z → U → U
}.

Definition SSD1306_I2C_ADDR : Z := 0x3C.
Definition CANARY : Z := 0xDEADBEEF.

Section Ssd1306.
(** [SSD1306_WIDTH] and [SSD1306_HEIGHT]. *)
Context (W H : Z) {U : Type} `{SimI2c U}.

Definition SSD1306_PAGES : Z := (H + 7) / 8 + 2.
Definition SSD1306_BUFFER_SIZE : Z := W * SSD1306_PAGES.
Definition SSD1306_PIXEL_COUNT : Z := W * H.

Record ssd1306_t := mk_ssd {
  sd_buffer : list Z; sd_canary : Z; sd_page : Z; sd_column : Z; sd_display_on : bool;
  sd_inverted : bool; sd_contrast : Z; sd_vcom : Z; sd_multiplex : Z; sd_charge_pump : bool;
  sd_memory_mode : Z
}.

(** The statics of the file, and the bus. *)
Record panel := mk_panel {
  g_ssd1306 : ssd1306_t; g_initialized : bool; g_color_buf : list Z; g_has_color : list Z;
  first_render : bool; bus : U
}.
Implicit Types (p : panel) (d : ssd1306_t).

Definition with_buffer (b : list Z) d : ssd1306_t :=
  mk_ssd b (sd_canary d) (sd_page d) (sd_column d) (sd_display_on d) (sd_inverted d) (sd_contrast d)
    (sd_vcom d) (sd_multiplex d) (sd_charge_pump d) (sd_memory_mode d).
Definition with_place (page column : Z) d : ssd1306_t :=
  mk_ssd (sd_buffer d) (sd_canary d) page column (sd_display_on d) (sd_inverted d) (sd_contrast d)
    (sd_vcom d) (sd_multiplex d) (sd_charge_pump d) (sd_memory_mode d).
Definition with_modes (on inverted : bool) d : ssd1306_t :=
  mk_ssd (sd_buffer d) (sd_canary d) (sd_page d) (sd_column d) on inverted (sd_contrast d)
    (sd_vcom d) (sd_multiplex d) (sd_charge_pump d) (sd_memory_mode d).
Definition with_ssd d p : panel :=
  mk_panel d (g_initialized p) (g_color_buf p) (g_has_color p) (first_render p) (bus p).
Definition with_colors (color has : list Z) p : panel :=
  mk_panel (g_ssd1306 p) (g_initialized p) color has (first_render p) (bus p).

(** ** Commands *)

Definition ssd1306_unregister p : panel :=
  if g_initialized p
  then mk_panel (g_ssd1306 p) false (g_color_buf p) (g_has_color p) (first_render p)
         (sim_i2c_unregister_device SSD1306_I2C_ADDR (bus p))
  else p.

(** The layer of colours and [first_render] stay. *)
Definition ssd1306_model_register p : panel :=
  let p := ssd1306_unregister p in
  let d := mk_ssd (zeros SSD1306_BUFFER_SIZE) CANARY 0 0 true false 0x7F 0x30 (u8 (H - 1)) true 0 in
  mk_panel d true (g_color_buf p) (g_has_color p) (first_render p)
    (sim_i2c_register_device SSD1306_I2C_ADDR (bus p)).

(** The other commands change nothing. *)
Definition ssd1306_model_write_cmd (cmd : Z) p : Z * panel :=
  let d := g_ssd1306 p in
  (0,
   if cmd =? 0xAE then with_ssd (with_modes false (sd_inverted d) d) p
   else if cmd =? 0xAF then with_ssd (with_modes true (sd_inverted d) d) p
   else if cmd =? 0xA6 then with_ssd (with_modes (sd_display_on d) false d) p
   else if cmd =? 0xA7 then with_ssd (with_modes (sd_display_on d) true d) p
   else if cmd =? 0x00 then
     with_ssd (with_place (sd_page d) (Z.lor (Z.land (sd_column d) 0xF0) (Z.land cmd 0x0F)) d) p
   else if cmd =? 0x10 then
     with_ssd (with_place (sd_page d)
       (Z.lor (Z.land (sd_column d) 0x0F) (Z.shiftl (Z.land cmd 0x0F) 4)) d) p
   else p).

Definition ssd1306_model_write_data (data : list Z) (len : Z) p : option (Z * panel) :=
  p ← for_while (Z.to_nat len) 0 (λ _, true)
        (λ i p,
           let d := g_ssd1306 p in
           if negb (sd_page d <? SSD1306_PAGES) then Some p else
           let idx := sd_page d * W + sd_column d in
           if idx <? SSD1306_BUFFER_SIZE then
             x ← rd data i;
             b ← wr (sd_buffer d) idx x;
             let column := u16 (sd_column d + 1) in
             let d := with_buffer b d in
             Some (with_ssd (if W <=? column then with_place (u8 (sd_page d + 1)) 0 d
                             else with_place (sd_page d) column d) p)
           else Some p) p;
  Some (0, p).

(** [for (i = 1; i < len; i++) ssd1306_model_write_cmd (data[i]);] *)
Definition ssd1306_i2c_write (addr : Z) (data : list Z) (len : Z) p : option (Z * panel) :=
  if negb (addr =? SSD1306_I2C_ADDR) then Some (-1, p) else
  if len =? 0 then Some (0, p) else
  control ← rd data 0;
  if control =? 0x00 then
    p ← for_z 1 len (λ i p, x ← rd data i; Some (snd (ssd1306_model_write_cmd x p))) p;
    Some (0, p)
  else if control =? 0x40 then
    '(_, p) ← ssd1306_model_write_data (drop 1 data) (len - 1) p; Some (0, p)
  else Some (0, p).

Definition ssd1306_i2c_read p : Z * panel := (0, p).

(** ** Rendering *)

Definition rgb565_to_argb8888 (c : Z) : Z :=
  let r := Z.land (Z.shiftr c 11) 0x1F * 255 / 31 in
  let g := Z.land (Z.shiftr c 5) 0x3F * 255 / 63 in
  let b := Z.land c 0x1F * 255 / 31 in
  Z.lor (Z.lor (Z.lor 0xFF000000 (Z.shiftl r 16)) (Z.shiftl g 8)) b.

Definition set_first (b : bool) p : panel :=
  mk_panel (g_ssd1306 p) (g_initialized p) (g_color_buf p) (g_has_color p) b (bus p).

(** Nothing is drawn: the buffer and, if it is clear, the flags of the colours. *)
Definition all_zero p : bool :=
  forallb (Z.eqb 0) (sd_buffer (g_ssd1306 p)) && forallb (Z.eqb 0) (g_has_color p).

Definition test_pattern (sim_w sim_h : Z) (pixels : list Z) : option (list Z) :=
  for_z 0 sim_h (λ y, for_z 0 sim_w (λ x pixels,
    wr pixels (y * sim_w + x) (if c_true (Z.rem (x + y) 2) then 0xFFFFFFFF else 0xFF000000))) pixels.

Definition pixel_color (x y : Z) p : option Z :=
  let cidx := y * W + x in
  has ← rd (g_has_color p) cidx;
  if c_true has then c ← rd (g_color_buf p) cidx; Some (rgb565_to_argb8888 c) else
  val ← rd (sd_buffer (g_ssd1306 p)) (Z.quot y 8 * W + x);
  let on := c_true (Z.land (Z.shiftr val (Z.rem y 8)) 1) in
  let on := if sd_inverted (g_ssd1306 p) then negb on else on in
  Some (if on then 0xFFFFFFFF else 0xFF000000).

(** [sim_pixels] is the window's memory, [None] without a window. *)
Definition ssd1306_model_render (sim_pixels : option (list Z)) (sim_w sim_h : Z) p
    : option (option (list Z) * panel) :=
  if negb (sd_display_on (g_ssd1306 p)) then Some (sim_pixels, p) else
  if negb (sd_canary (g_ssd1306 p) =? CANARY) then Some (sim_pixels, p) else
  match sim_pixels with
  | None => Some (None, p)
  | Some pixels =>
    let first := first_render p in
    let p := if first then set_first false p else p in
    if first && all_zero p then
      pixels ← test_pattern sim_w sim_h pixels; Some (Some pixels, p)
    else
      pixels ← for_while (Z.to_nat H) 0 (λ y, y <? sim_h) (λ y,
                 for_while (Z.to_nat W) 0 (λ x, x <? sim_w) (λ x pixels,
                   color ← pixel_color x y p; wr pixels (y * sim_w + x) color)) pixels;
      Some (Some pixels, p)
  end.

Definition ssd1306_model_clear p : panel :=
  let d := with_place 0 0 (with_buffer (replicate (length (sd_buffer (g_ssd1306 p))) 0) (g_ssd1306 p)) in
  with_ssd d (with_colors (replicate (length (g_color_buf p)) 0) (replicate (length (g_has_color p)) 0) p).

(** ** Dots *)

Definition on_panel (x y : Z) : bool := (0 <=? x) && (x <? W) && (0 <=? y) && (y <? H).

(** [g_ssd1306.buffer[idx] op= 1 << (y & 7)] *)
Definition put_bit (x y : Z) (on : bool) p : option panel :=
  let idx := Z.quot y 8 * W + x in
  if SSD1306_BUFFER_SIZE <=? idx then Some p else
  v ← rd (sd_buffer (g_ssd1306 p)) idx;
  let bit := u8 (Z.shiftl 1 (Z.land y 7)) in
  b ← wr (sd_buffer (g_ssd1306 p)) idx (if on then Z.lor v bit else Z.land v (u8 (Z.lnot bit)));
  Some (with_ssd (with_buffer b (g_ssd1306 p)) p).

Definition ssd1306_model_set_pixel (x y : Z) (on : bool) p : option panel :=
  if negb (on_panel x y) then Some p else put_bit x y on p.

Definition ssd1306_model_set_pixel_color (x y rgb565 : Z) p : option panel :=
  if negb (on_panel x y) then Some p else
  let idx := y * W + x in
  c ← wr (g_color_buf p) idx rgb565;
  h ← wr (g_has_color p) idx 1;
  Some (with_colors c h p).

(** ** Text *)

Definition printable (c : Z) : bool := negb ((c <? 32) || (126 <? c)).

(** The loop over the characters: [glyph] draws one at its place. *)
Fixpoint text_loop (font : list (list Z)) (step : Z) (glyph : Z → list Z → panel → option panel)
    (char_x : Z) (text : list Z) p : option panel :=
  match text with
  | [] => Some p
  | c :: text =>
    if negb (printable c) then text_loop font step glyph char_x text p else
    g ← rd font (c - 32);
    p ← glyph char_x g p;
    text_loop font step glyph (char_x + step) text p
  end.

Definition draw_glyph (char_x char_y : Z) (glyph : list Z) p : option panel :=
  for_while 5 0 (λ col, negb (W <=? char_x + col)) (λ col p,
    column_data ← rd glyph col;
    for_while 7 0 (λ row, negb (H <=? char_y + row)) (λ row p,
      if bits_set column_data (Z.shiftl 1 row) then
        let px := char_x + col in
        let py := char_y + row in
        if on_panel px py then put_bit px py true p else Some p
      else Some p) p) p.

Definition ssd1306_model_draw_text (x y : Z) (text : option (list Z)) p : option panel :=
  match text with
  | None => Some p
  | Some text =>
    if negb (on_panel x y) then Some p
    else text_loop font_text 6 (λ char_x, draw_glyph char_x y) x text p
  end.

(** A glyph of blocks of [scale] by [scale] dots. *)
Definition scaled_glyph (dot : Z → Z → panel → option panel) (scale char_x char_y : Z)
    (glyph : list Z) p : option panel :=
  for_z 0 5 (λ col p,
    column_data ← rd glyph col;
    for_z 0 7 (λ row p,
      if bits_set column_data (Z.shiftl 1 row) then
        for_z 0 scale (λ sx, for_z 0 scale (λ sy,
          dot (char_x + col * scale + sx) (char_y + row * scale + sy))) p
      else Some p) p) p.

Definition ssd1306_model_draw_text_scaled (x y : Z) (text : option (list Z)) (scale : Z) p
    : option panel :=
  match text with
  | None => Some p
  | Some t =>
    if scale <=? 0 then Some p else
    if scale =? 1 then ssd1306_model_draw_text x y text p else
    if (x <? 0) || (y <? 0) then Some p else
    text_loop font_scaled ((5 + 1) * scale)
      (λ char_x, scaled_glyph (λ px py p, if on_panel px py then put_bit px py true p else Some p)
                   scale char_x y) x t p
  end.

Definition ssd1306_model_draw_text_color (x y : Z) (text : option (list Z)) (scale rgb565 : Z) p
    : option panel :=
  match text with
  | None => Some p
  | Some t =>
    if scale <=? 0 then Some p else
    text_loop font_color ((5 + 1) * scale)
      (λ char_x, scaled_glyph (λ px py, ssd1306_model_set_pixel_color px py rgb565) scale char_x y) x t p
  end.

Definition ssd1306_model_text_width (text : option (list Z)) (scale : Z) : Z :=
  match text with
  | None => 0
  | Some t => if scale <=? 0 then 0 else blen t * 6 * scale
  end.

(** ** Shapes *)

(** The dots a rounded corner leaves out. *)
Definition outside_corner (w h radius dx dy : Z) : bool :=
  let cx := if dx <? radius then radius else if w - radius <=? dx then w - 1 - radius else -1 in
  let cy := if dy <? radius then radius else if h - radius <=? dy then h - 1 - radius else -1 in
  (0 <? radius) && (0 <=? cx) && (0 <=? cy) &&
  (radius * radius <? (dx - cx) * (dx - cx) + (dy - cy) * (dy - cy)).

Definition corner_radius (w h radius : Z) : Z :=
  let radius := if radius <? 0 then 0 else radius in
  let radius := if w <? radius * 2 then Z.quot w 2 else radius in
  if h <? radius * 2 then Z.quot h 2 else radius.

Definition ssd1306_model_fill_rect_color (x y w h radius rgb565 : Z) p : option panel :=
  if (w <=? 0) || (h <=? 0) then Some p else
  let radius := corner_radius w h radius in
  for_z 0 h (λ dy, for_z 0 w (λ dx p,
    if outside_corner w h radius dx dy then Some p
    else ssd1306_model_set_pixel_color (x + dx) (y + dy) rgb565 p)) p.

Definition ssd1306_model_draw_rect_color (x y w h radius rgb565 : Z) p : option panel :=
  if (w <=? 0) || (h <=? 0) then Some p else
  p ← for_z 0 w (λ dx p,
        p ← ssd1306_model_set_pixel_color (x + dx) y rgb565 p;
        ssd1306_model_set_pixel_color (x + dx) (y + h - 1) rgb565 p) p;
  for_z 0 h (λ dy p,
    p ← ssd1306_model_set_pixel_color x (y + dy) rgb565 p;
    ssd1306_model_set_pixel_color (x + w - 1) (y + dy) rgb565 p) p.

Definition ssd1306_model_fill_circle_color (cx cy r rgb565 : Z) p : option panel :=
  if r <=? 0 then Some p else
  for_z (- r) (r + 1) (λ dy, for_z (- r) (r + 1) (λ dx p,
    if dx * dx + dy * dy <=? r * r
    then ssd1306_model_set_pixel_color (cx + dx) (cy + dy) rgb565 p else Some p)) p.

Definition ssd1306_model_draw_hline_color (x y w rgb565 : Z) p : option panel :=
  for_z 0 w (λ dx, ssd1306_model_set_pixel_color (x + dx) y rgb565) p.

(** ** The arithmetic of [int]

    The same drawing calls with every sum and product of the C code that has type [int]
    checked: none is defined when one of them leaves the range of [int]. *)

(** A value of type [int]: 32 bits with a sign. *)
Definition int (z : Z) : option Z := if (- 2 ^ 31 <=? z) && (z <? 2 ^ 31) then Some z else None.

(** [page * SSD1306_WIDTH + px] is an [int]. *)
Definition put_bit_int (x y : Z) (on : bool) p : option panel :=
  row ← int (Z.quot y 8 * W);
  _ ← int (row + x);
  put_bit x y on p.

Definition set_pixel_int (x y : Z) (on : bool) p : option panel :=
  if negb (on_panel x y) then Some p else put_bit_int x y on p.

(** [char_x += step] *)
Fixpoint text_loop_int (font : list (list Z)) (step : Z) (glyph : Z → list Z → panel → option panel)
    (char_x : Z) (text : list Z) p : option panel :=
  match text with
  | [] => Some p
  | c :: text =>
    if negb (printable c) then text_loop_int font step glyph char_x text p else
    g ← rd font (c - 32);
    p ← glyph char_x g p;
    char_x ← int (char_x + step);
    text_loop_int font step glyph char_x text p
  end.

(** The comparisons [char_x + col >= SSD1306_WIDTH] and [char_y + row >= SSD1306_HEIGHT] cannot
    overflow: a round after the first starts below the width, or the height. *)
Definition draw_glyph_int (char_x char_y : Z) (glyph : list Z) p : option panel :=
  for_while 5 0 (λ col, negb (W <=? char_x + col)) (λ col p,
    px ← int (char_x + col);
    column_data ← rd glyph col;
    for_while 7 0 (λ row, negb (H <=? char_y + row)) (λ row p,
      py ← int (char_y + row);
      if bits_set column_data (Z.shiftl 1 row) then set_pixel_int px py true p else Some p) p) p.

Definition draw_text_int (x y : Z) (text : list Z) p : option panel :=
  if negb (on_panel x y) then Some p
  else text_loop_int font_text 6 (λ char_x, draw_glyph_int char_x y) x text p.

(** [a + n * scale + s] *)
Definition block_int (a n scale s : Z) : option Z :=
  d ← int (n * scale); b ← int (a + d); int (b + s).

Definition scaled_glyph_int (dot : Z → Z → panel → option panel) (scale char_x char_y : Z)
    (glyph : list Z) p : option panel :=
  for_z 0 5 (λ col p,
    column_data ← rd glyph col;
    for_z 0 7 (λ row p,
      if bits_set column_data (Z.shiftl 1 row) then
        for_z 0 scale (λ sx, for_z 0 scale (λ sy p,
          px ← block_int char_x col scale sx;
          py ← block_int char_y row scale sy;
          dot px py p)) p
      else Some p) p) p.

Definition draw_text_scaled_int (x y : Z) (text : list Z) (scale : Z) p : option panel :=
  if scale <=? 0 then Some p else
  if scale =? 1 then draw_text_int x y text p else
  if (x <? 0) || (y <? 0) then Some p else
  text_loop_int font_scaled ((5 + 1) * scale)
    (λ char_x g p, _ ← int ((5 + 1) * scale);
       scaled_glyph_int (λ px py, set_pixel_int px py true) scale char_x y g p) x text p.

Definition draw_text_color_int (x y : Z) (text : list Z) (scale rgb565 : Z) p : option panel :=
  if scale <=? 0 then Some p else
  text_loop_int font_color ((5 + 1) * scale)
    (λ char_x g p, _ ← int ((5 + 1) * scale);
       scaled_glyph_int (λ px py, ssd1306_model_set_pixel_color px py rgb565) scale char_x y g p) x text p.

(** [ddx * ddx + ddy * ddy] *)
Definition square_sum_int (a b : Z) : option Z :=
  aa ← int (a * a); bb ← int (b * b); int (aa + bb).

Definition outside_corner_int (w h radius dx dy : Z) : option bool :=
  if negb (0 <? radius) then Some false else
  let cx := if dx <? radius then radius else if w - radius <=? dx then w - 1 - radius else -1 in
  let cy := if dy <? radius then radius else if h - radius <=? dy then h - 1 - radius else -1 in
  if (0 <=? cx) && (0 <=? cy) then
    d ← square_sum_int (dx - cx) (dy - cy);
    r ← int (radius * radius);
    Some (r <? d)
  else Some false.

Definition corner_radius_int (w h radius : Z) : option Z :=
  let radius := if radius <? 0 then 0 else radius in
  twice ← int (radius * 2);
  let radius := if w <? twice then Z.quot w 2 else radius in
  twice ← int (radius * 2);
  Some (if h <? twice then Z.quot h 2 else radius).

Definition fill_rect_int (x y w h radius rgb565 : Z) p : option panel :=
  if (w <=? 0) || (h <=? 0) then Some p else
  radius ← corner_radius_int w h radius;
  for_z 0 h (λ dy, for_z 0 w (λ dx p,
    outside ← outside_corner_int w h radius dx dy;
    if (outside : bool) then Some p else
    px ← int (x + dx); py ← int (y + dy);
    ssd1306_model_set_pixel_color px py rgb565 p)) p.

(** With [0 < h], [y + h - 1] is no smaller than [y]. *)
Definition draw_rect_int (x y w h radius rgb565 : Z) p : option panel :=
  if (w <=? 0) || (h <=? 0) then Some p else
  p ← for_z 0 w (λ dx p,
        px ← int (x + dx); bottom ← int (y + h);
        p ← ssd1306_model_set_pixel_color px y rgb565 p;
        ssd1306_model_set_pixel_color px (bottom - 1) rgb565 p) p;
  for_z 0 h (λ dy p,
    py ← int (y + dy); right ← int (x + w);
    p ← ssd1306_model_set_pixel_color x py rgb565 p;
    ssd1306_model_set_pixel_color (right - 1) py rgb565 p) p.

Definition fill_circle_int (cx cy r rgb565 : Z) p : option panel :=
  if r <=? 0 then Some p else
  for_z (- r) (r + 1) (λ dy, for_z (- r) (r + 1) (λ dx p,
    d ← square_sum_int dx dy; rr ← int (r * r);
    if d <=? rr then
      px ← int (cx + dx); py ← int (cy + dy);
      ssd1306_model_set_pixel_color px py rgb565 p
    else Some p)) p.

Definition draw_hline_int (x y w rgb565 : Z) p : option panel :=
  for_z 0 w (λ dx p, px ← int (x + dx); ssd1306_model_set_pixel_color px y rgb565 p) p.
End Ssd1306.
Arguments panel : clear implicits.
