(* ===== verification/Ssd1306Thm.v ===== *)
(** * The panel shows the picture that was drawn *)

From Stdlib Require Import ZArith Lia.
From stdpp Require Import base tactics option numbers list.
From S2P Require Import Prelude.
From S2P Require Import CString.
From S2P Require Import Runs.
From S2P Require Import Ssd1306.

Section Picture.
Context (W H : Z) {U : Type} `{SimI2c U}.
Context (HW : 0 < W) (HH : 0 < H).
Implicit Types (p : panel U) (x y : Z).

(** ** What a panel shows *)

(** A dot: the bit of the monochrome buffer, and the colour over it. *)
Definition dot_index x y : nat := Z.to_nat (y / 8 * W + x).
Definition pixel_index x y : nat := Z.to_nat (y * W + x).
Definition mono p x y : bool := Z.testbit (default 0 (sd_buffer (g_ssd1306 p) !! dot_index x y)) (y mod 8).
Definition colour p x y : option Z :=
  if c_true (default 0 (g_has_color p !! pixel_index x y))
  then Some (default 0 (g_color_buf p !! pixel_index x y)) else None.
Definition look p x y : bool * option Z := (mono p x y, colour p x y).

Definition panel_ok p : Prop :=
  blen (sd_buffer (g_ssd1306 p)) = SSD1306_BUFFER_SIZE W H ∧
  blen (g_color_buf p) = SSD1306_PIXEL_COUNT W H ∧ blen (g_has_color p) = SSD1306_PIXEL_COUNT W H.

(** Everything but the dots. *)
Definition rest_of p : panel U := with_ssd (with_buffer [] (g_ssd1306 p)) (with_colors [] [] p).

(** What is drawn: a bit, or a colour. *)
Inductive ink := Bit (b : bool) | Colour (c : Z).
Definition ink_on (k : ink) (l : bool * option Z) : bool * option Z :=
  match k with Bit b => (b, l.2) | Colour c => (l.1, Some c) end.

Lemma ink_on_twice k l : ink_on k (ink_on k l) = ink_on k l.
Proof. by destruct k, l. Qed.

(** [D] draws the dots of [S] with the ink [k], and nothing else. *)
Definition draws (k : ink) (S : Z → Z → bool) (D : panel U → option (panel U)) : Prop :=
  ∀ p, panel_ok p → ∃ p', D p = Some p' ∧ panel_ok p' ∧ rest_of p' = rest_of p ∧
    ∀ x y, on_panel W H x y = true →
      look p' x y = if S x y then ink_on k (look p x y) else look p x y.

Lemma draws_none k : draws k (λ _ _, false) Some.
Proof. intros p Hp. by exists p. Qed.

Lemma draws_seq k S1 S2 D1 D2 :
  draws k S1 D1 → draws k S2 D2 → draws k (λ x y, S1 x y || S2 x y) (λ p, p ← D1 p; D2 p).
Proof.
  intros H1 H2 p Hp. destruct (H1 p Hp) as (p1 & -> & Hp1 & R1 & L1).
  destruct (H2 p1 Hp1) as (p2 & E2 & Hp2 & R2 & L2). exists p2. split; [exact E2|]. split; [done|].
  split; [congruence|]. intros x y Hon. rewrite L2, L1 by done.
  destruct (S1 x y), (S2 x y); cbn; rewrite ?ink_on_twice; done.
Qed.

Lemma draws_ext k S S' D D' :
  draws k S D → (∀ x y, on_panel W H x y = true → S x y = S' x y) → (∀ p, D p = D' p) → draws k S' D'.
Proof.
  intros Hd HS HD p Hp. destruct (Hd p Hp) as (p' & E & Hp' & R & L). exists p'. rewrite <- HD.
  split_and!; [done..|]. intros x y Hon. by rewrite L, HS.
Qed.

(** The dots of a loop: those of its rounds. *)
Definition any (i : Z) (n : nat) (S : Z → Z → Z → bool) (x y : Z) : bool :=
  existsb (λ j, S j x y) (seqZ i (Z.of_nat n)).

Lemma any_true i n S x y : any i n S x y = true ↔ ∃ j, i <= j < i + Z.of_nat n ∧ S j x y = true.
Proof.
  unfold any. rewrite existsb_exists. split.
  - intros (j & Hj & E). apply list_elem_of_In, elem_of_seqZ in Hj. eauto.
  - intros (j & Hj & E). exists j. split; [|done]. by apply list_elem_of_In, elem_of_seqZ.
Qed.

Lemma any_S i n S x y : any i (Datatypes.S n) S x y = S i x y || any (i + 1) n S x y.
Proof.
  unfold any. rewrite seqZ_cons by lia. cbn [existsb]. do 3 f_equal; lia.
Qed.

(** A loop that ends early only when the rounds left draw nothing on the panel. *)
Lemma draws_while k n i c S body :
  (∀ j, i <= j < i + Z.of_nat n → draws k (S j) (body j)) →
  (∀ j j' x y, i <= j → j <= j' → c j = false → on_panel W H x y = true → S j' x y = false) →
  draws k (any i n S) (for_while n i c body).
Proof.
  revert i. induction n as [|n IH]; intros i Hb Hc; [exact (draws_none k)|]. cbn [for_while].
  destruct (c i) eqn:Ec.
  - eapply draws_ext; [apply draws_seq; [apply (Hb i); lia|apply (IH (i + 1))]|..]; cbv beta.
    + intros j Hj. apply Hb. lia.
    + intros j j' x y Hj. apply Hc. lia.
    + intros x y _. by rewrite any_S.
    + done.
  - eapply draws_ext; [exact (draws_none k)| |done]. intros x y Hon. symmetry. apply not_true_iff_false.
    rewrite any_true. intros (j & Hj & E). rewrite (Hc i j x y) in E by first [done|lia]. done.
Qed.

Lemma draws_for k a b S body :
  (∀ j, a <= j < b → draws k (S j) (body j)) →
  draws k (any a (Z.to_nat (b - a)) S) (for_z a b body).
Proof. intros Hb. apply draws_while; [intros j Hj; apply Hb; lia|done]. Qed.

(** ** One dot *)

Definition dot (x0 y0 x y : Z) : bool := (x =? x0) && (y =? y0).

Lemma on_panel_true x y : on_panel W H x y = true ↔ 0 <= x < W ∧ 0 <= y < H.
Proof. unfold on_panel. rewrite !andb_true_iff, !Z.leb_le, !Z.ltb_lt. lia. Qed.

Lemma dot_true x0 y0 x y : dot x0 y0 x y = true ↔ x = x0 ∧ y = y0.
Proof. unfold dot. by rewrite andb_true_iff, !Z.eqb_eq. Qed.

Lemma dot_off x0 y0 x y : on_panel W H x0 y0 = false → on_panel W H x y = true → dot x0 y0 x y = false.
Proof.
  intros Hoff Hon. apply not_true_iff_false. intros [-> ->]%dot_true. congruence.
Qed.

Lemma index_bound x y : 0 <= x < W → 0 <= y < H →
  0 <= y / 8 * W + x < SSD1306_BUFFER_SIZE W H ∧ 0 <= y * W + x < SSD1306_PIXEL_COUNT W H.
Proof.
  intros Hx Hy. unfold SSD1306_BUFFER_SIZE, SSD1306_PAGES, SSD1306_PIXEL_COUNT.
  assert (0 <= y / 8 <= (H + 7) / 8) by (split; [apply Z.div_pos|apply Z.div_le_mono]; lia). nia.
Qed.

Lemma row_major a b x x' : 0 <= x < W → 0 <= x' < W → a * W + x = b * W + x' → a = b ∧ x = x'.
Proof. intros. assert (a = b) by nia. subst. lia. Qed.

Lemma index_inj x y x' y' :
  0 <= x < W → 0 <= x' < W → 0 <= y → 0 <= y' →
  (dot_index x y = dot_index x' y' → y / 8 = y' / 8 ∧ x = x') ∧
  (pixel_index x y = pixel_index x' y' → y = y' ∧ x = x').
Proof.
  intros Hx Hx' Hy Hy'. unfold dot_index, pixel_index.
  assert (0 <= y / 8 ∧ 0 <= y' / 8) as [] by (split; apply Z.div_pos; lia).
  split; intros E; apply row_major; nia.
Qed.

Lemma bit_of_row y : 0 <= y → u8 (Z.shiftl 1 (Z.land y 7)) = 2 ^ (y mod 8) ∧ 0 <= y mod 8 < 8.
Proof.
  intros Hy. assert (0 <= y mod 8 < 8) as Hm by (apply Z.mod_pos_bound; lia). split; [|done].
  change 7 with (Z.ones 3). rewrite Z.land_ones by lia. change (2 ^ 3) with 8. rewrite Z.shiftl_1_l.
  apply wrap_id. split; [lia|]. apply Z.pow_lt_mono_r; lia.
Qed.

(** Setting or clearing the bit of a row. *)
Lemma bit_changed v r (on : bool) j :
  0 <= r < 8 → 0 <= j < 8 →
  Z.testbit (if on then Z.lor v (2 ^ r) else Z.land v (u8 (Z.lnot (2 ^ r)))) j =
  if j =? r then on else Z.testbit v j.
Proof.
  intros Hr Hj. destruct on.
  - rewrite Z.lor_spec, Z.pow2_bits_eqb, (Z.eqb_sym r j) by lia. destruct (j =? r); by rewrite ?orb_true_r, ?orb_false_r.
  - rewrite Z.land_spec, wrap_testbit, bool_decide_true, Z.lnot_spec, Z.pow2_bits_eqb, (Z.eqb_sym r j) by lia.
    destruct (j =? r); cbn; by rewrite ?andb_true_r, ?andb_false_r.
Qed.

Lemma draws_put_bit x0 y0 on :
  on_panel W H x0 y0 = true → draws (Bit on) (dot x0 y0) (put_bit W H x0 y0 on).
Proof.
  intros Hon0 p Hp. apply on_panel_true in Hon0 as [Hx0 Hy0]. destruct (index_bound x0 y0 Hx0 Hy0) as [Hi _].
  destruct (bit_of_row y0) as [Eb Hm]; [lia|]. pose proof Hp as (Hb & Hc & Hh).
  unfold put_bit. rewrite Z.quot_div_nonneg, (proj2 (Z.leb_gt _ _)) by lia.
  destruct (rd_ok (sd_buffer (g_ssd1306 p)) (y0 / 8 * W + x0)) as [v Ev]; [lia|]. rewrite Ev.
  cbn [mbind option_bind]. rewrite wr_ok by lia. cbn [mbind option_bind]. rewrite Eb.
  eexists. split; [reflexivity|]. split; [|split; [done|]].
  { split; [|done]. cbn. unfold blen in *. by rewrite length_insert. }
  intros x y [Hx Hy]%on_panel_true. unfold look. rewrite rd_lookup in Ev by lia.
  destruct (dot x0 y0 x y) eqn:Ed.
  - apply dot_true in Ed as [-> ->]. unfold mono. cbn [g_ssd1306 with_ssd sd_buffer with_buffer].
    unfold dot_index. rewrite list_lookup_insert_eq by (unfold blen in Hb; lia). cbn [default from_option id].
    unfold id. rewrite bit_changed, Z.eqb_refl by done. done.
  - f_equal. unfold mono. cbn [g_ssd1306 with_ssd sd_buffer with_buffer].
    destruct (decide (dot_index x y = dot_index x0 y0)) as [E|Hne].
    + rewrite E. unfold dot_index. rewrite list_lookup_insert_eq by (unfold blen in Hb; lia).
      rewrite Ev. cbn [default from_option]. unfold id.
      assert (0 <= y mod 8 < 8) by (apply Z.mod_pos_bound; lia).
      rewrite bit_changed by done. destruct (proj1 (index_inj x y x0 y0 Hx Hx0 ltac:(lia) ltac:(lia)) E) as [E1 E2].
      destruct (Z.eqb_spec (y mod 8) (y0 mod 8)) as [E3|]; [|done]. exfalso.
      apply not_true_iff_false in Ed. apply Ed, dot_true. split; [done|].
      rewrite (Z.div_mod y 8), (Z.div_mod y0 8) by lia. congruence.
    + unfold dot_index in *. by rewrite list_lookup_insert_ne by congruence.
Qed.

Lemma draws_set_pixel x0 y0 on : draws (Bit on) (dot x0 y0) (ssd1306_model_set_pixel W H x0 y0 on).
Proof.
  destruct (on_panel W H x0 y0) eqn:Hon0.
  - eapply draws_ext; [by apply draws_put_bit|done|]. intros p. unfold ssd1306_model_set_pixel. by rewrite Hon0.
  - eapply draws_ext; [apply draws_none| |].
    + intros x y Hon. symmetry. by apply dot_off.
    + intros p. unfold ssd1306_model_set_pixel. by rewrite Hon0.
Qed.

Lemma draws_pixel_color x0 y0 c : draws (Colour c) (dot x0 y0) (ssd1306_model_set_pixel_color W H x0 y0 c).
Proof.
  intros p Hp. unfold ssd1306_model_set_pixel_color. destruct (on_panel W H x0 y0) eqn:Hon0; cbn [negb].
  2:{ exists p. split_and!; [done..|]. intros x y Hon. by rewrite dot_off. }
  apply on_panel_true in Hon0 as [Hx0 Hy0]. destruct (index_bound x0 y0 Hx0 Hy0) as [_ Hi].
  pose proof Hp as (Hb & Hc & Hh). rewrite !wr_ok by lia. cbn [mbind option_bind].
  eexists. split; [reflexivity|]. split; [|split; [done|]].
  { split; [done|]. cbn. unfold blen in *. by rewrite !length_insert. }
  intros x y [Hx Hy]%on_panel_true. unfold look, colour, mono. cbn [g_ssd1306 with_colors g_color_buf g_has_color].
  destruct (dot x0 y0 x y) eqn:Ed.
  - apply dot_true in Ed as [-> ->]. unfold pixel_index, blen in *. by rewrite !list_lookup_insert_eq by lia.
  - assert (pixel_index x y ≠ pixel_index x0 y0) as Hne.
    { intros E. destruct (proj2 (index_inj x y x0 y0 Hx Hx0 ltac:(lia) ltac:(lia)) E) as [-> ->]. by rewrite (proj2 (dot_true x0 y0 x0 y0)) in Ed. }
    unfold pixel_index in *. by rewrite !list_lookup_insert_ne by congruence.
Qed.

(** ** Shapes *)

Lemma draws_skip k (b : bool) S D :
  draws k S D → draws k (λ x y, negb b && S x y) (λ p, if b then Some p else D p).
Proof. intros Hd. destruct b; cbn; [apply draws_none|exact Hd]. Qed.

Lemma draws_when k (b : bool) S D :
  draws k S D → draws k (λ x y, b && S x y) (λ p, if b then D p else Some p).
Proof. intros Hd. destruct b; cbn; [exact Hd|apply draws_none]. Qed.

Lemma draws_known {A} k S (o : option A) v (D : A → panel U → option (panel U)) :
  o = Some v → draws k S (D v) → draws k S (λ p, v ← o; D v p).
Proof. intros -> Hd p Hp. by apply Hd. Qed.

Definition in_box (x0 y0 w h x y : Z) : bool :=
  (x0 <=? x) && (x <? x0 + w) && (y0 <=? y) && (y <? y0 + h).

Lemma in_box_true x0 y0 w h x y : in_box x0 y0 w h x y = true ↔ x0 <= x < x0 + w ∧ y0 <= y < y0 + h.
Proof. unfold in_box. rewrite !andb_true_iff, !Z.leb_le, !Z.ltb_lt. lia. Qed.

(** A rectangle with rounded corners. *)
Definition rect_shape (x0 y0 w h radius x y : Z) : bool :=
  in_box x0 y0 w h x y && negb (outside_corner w h (corner_radius w h radius) (x - x0) (y - y0)).

Lemma draws_fill_rect x0 y0 w h radius c :
  draws (Colour c) (rect_shape x0 y0 w h radius) (ssd1306_model_fill_rect_color W H x0 y0 w h radius c).
Proof.
  destruct ((w <=? 0) || (h <=? 0)) eqn:Eb.
  { eapply draws_ext; [apply draws_none| |].
    - intros x y _. symmetry. apply not_true_iff_false. unfold rect_shape. rewrite andb_true_iff, in_box_true.
      intros [? _]. apply orb_true_iff in Eb. rewrite !Z.leb_le in Eb. lia.
    - intros p. unfold ssd1306_model_fill_rect_color. by rewrite Eb. }
  eapply draws_ext; [|intros x y Hon|].
  - apply (draws_for _ 0 h). intros dy _. apply (draws_for _ 0 w). intros dx _.
    apply (draws_skip _ (outside_corner w h (corner_radius w h radius) dx dy)).
    apply (draws_pixel_color (x0 + dx) (y0 + dy)).
  - apply eq_true_iff_eq. unfold rect_shape. rewrite any_true. setoid_rewrite any_true.
    rewrite andb_true_iff, in_box_true. split.
    + intros (dy & Hdy & dx & Hdx & [E Ed]%andb_true_iff). apply dot_true in Ed as [-> ->].
      replace (x0 + dx - x0) with dx by lia. replace (y0 + dy - y0) with dy by lia. split; [lia|done].
    + intros [Hbox E]. exists (y - y0). split; [lia|]. exists (x - x0). split; [lia|].
      rewrite E. apply dot_true. lia.
  - intros p. unfold ssd1306_model_fill_rect_color. by rewrite Eb.
Qed.

(** An outline of one dot. *)
Definition frame_shape (x0 y0 w h x y : Z) : bool :=
  in_box x0 y0 w h x y &&
  ((x =? x0) || (x =? x0 + w - 1) || (y =? y0) || (y =? y0 + h - 1)).

Lemma draws_draw_rect x0 y0 w h radius c :
  draws (Colour c) (frame_shape x0 y0 w h) (ssd1306_model_draw_rect_color W H x0 y0 w h radius c).
Proof.
  destruct ((w <=? 0) || (h <=? 0)) eqn:Eb.
  { eapply draws_ext; [apply draws_none| |].
    - intros x y _. symmetry. apply not_true_iff_false. unfold frame_shape. rewrite andb_true_iff, in_box_true.
      intros [? _]. apply orb_true_iff in Eb. rewrite !Z.leb_le in Eb. lia.
    - intros p. unfold ssd1306_model_draw_rect_color. by rewrite Eb. }
  apply orb_false_iff in Eb as Eb'. rewrite !Z.leb_gt in Eb'.
  eapply draws_ext; [|intros x y Hon|].
  - apply draws_seq.
    + apply (draws_for _ 0 w). intros dx _.
      apply draws_seq; [apply (draws_pixel_color (x0 + dx) y0)|apply (draws_pixel_color (x0 + dx) (y0 + h - 1))].
    + apply (draws_for _ 0 h). intros dy _.
      apply draws_seq; [apply (draws_pixel_color x0 (y0 + dy))|apply (draws_pixel_color (x0 + w - 1) (y0 + dy))].
  - apply eq_true_iff_eq. unfold frame_shape. rewrite orb_true_iff, !any_true.
    rewrite andb_true_iff, in_box_true, !orb_true_iff, !Z.eqb_eq. setoid_rewrite orb_true_iff.
    setoid_rewrite dot_true. split.
    + intros [(j & Hj & E)|(j & Hj & E)]; lia.
    + intros [Hbox [[[E|E]|E]|E]]; [right|right|left|left];
        [exists (y - y0)|exists (y - y0)|exists (x - x0)|exists (x - x0)]; lia.
  - intros p. unfold ssd1306_model_draw_rect_color. by rewrite Eb.
Qed.

(** A disc. *)
Definition disc_shape (cx cy r x y : Z) : bool :=
  (0 <? r) && ((x - cx) * (x - cx) + (y - cy) * (y - cy) <=? r * r).

Lemma draws_fill_circle cx cy r c :
  draws (Colour c) (disc_shape cx cy r) (ssd1306_model_fill_circle_color W H cx cy r c).
Proof.
  destruct (r <=? 0) eqn:Er.
  { eapply draws_ext; [apply draws_none| |].
    - intros x y _. unfold disc_shape. apply Z.leb_le in Er. by rewrite (proj2 (Z.ltb_ge 0 r)) by lia.
    - intros p. unfold ssd1306_model_fill_circle_color. by rewrite Er. }
  apply Z.leb_gt in Er as Hr. eapply draws_ext; [|intros x y Hon|].
  - apply (draws_for _ (- r) (r + 1)). intros dy _. apply (draws_for _ (- r) (r + 1)). intros dx _.
    apply (draws_when _ (dx * dx + dy * dy <=? r * r)). apply (draws_pixel_color (cx + dx) (cy + dy)).
  - apply eq_true_iff_eq. unfold disc_shape. rewrite any_true. setoid_rewrite any_true.
    rewrite andb_true_iff, Z.ltb_lt, Z.leb_le. split.
    + intros (dy & Hdy & dx & Hdx & [E Ed]%andb_true_iff). apply dot_true in Ed as [-> ->].
      apply Z.leb_le in E. split; [lia|].
      by replace (cx + dx - cx) with dx by lia; replace (cy + dy - cy) with dy by lia.
    + intros [_ E]. assert (∀ a b, a * a + b * b <= r * r → - r <= a <= r) as Hb.
      { intros a b Hab. destruct (Z.le_gt_cases (Z.abs a) r); [lia|]. nia. }
      pose proof (Hb _ _ E). pose proof (Hb (y - cy) (x - cx) ltac:(lia)).
      exists (y - cy). split; [lia|]. exists (x - cx). split; [lia|].
      rewrite (proj2 (Z.leb_le _ _)) by done. apply dot_true. lia.
  - intros p. unfold ssd1306_model_fill_circle_color. by rewrite Er.
Qed.

Definition line_shape (x0 y0 w x y : Z) : bool := in_box x0 y0 w 1 x y.

Lemma draws_hline x0 y0 w c : draws (Colour c) (line_shape x0 y0 w) (ssd1306_model_draw_hline_color W H x0 y0 w c).
Proof.
  eapply draws_ext; [|intros x y Hon|done].
  - apply (draws_for _ 0 w). intros dx _. apply (draws_pixel_color (x0 + dx) y0).
  - apply eq_true_iff_eq. unfold line_shape. rewrite any_true, in_box_true. setoid_rewrite dot_true. split.
    + intros (j & Hj & E). lia.
    + intros E. exists (x - x0). lia.
Qed.

(** ** Text *)

(** The dots of a glyph whose top left corner is at [(cx, cy)], each [scale] wide and high. *)
Definition glyph_shape (scale cx cy : Z) (glyph : list Z) (x y : Z) : bool :=
  (0 <=? x - cx) && (0 <=? y - cy) && ((x - cx) / scale <? 5) && ((y - cy) / scale <? 7) &&
  Z.testbit (default 0 (glyph !! Z.to_nat ((x - cx) / scale))) ((y - cy) / scale).

(** The glyphs of the printable characters, side by side. *)
Fixpoint text_shape (font : list (list Z)) (scale cx cy : Z) (text : list Z) (x y : Z) : bool :=
  match text with
  | [] => false
  | c :: text =>
    if printable c then
      glyph_shape scale cx cy (default [] (font !! Z.to_nat (c - 32))) x y ||
      text_shape font scale (cx + 6 * scale) cy text x y
    else text_shape font scale cx cy text x y
  end.

Definition font_ok (font : list (list Z)) : Prop :=
  length font = 96%nat ∧ Forall (λ g, length g = 5%nat) font.

Lemma fonts_ok : font_ok font_text ∧ font_ok font_scaled ∧ font_ok font_color.
Proof. unfold font_ok. split_and!; vm_decide. Qed.

Lemma draws_text_loop k font scale cy glyph text cx :
  font_ok font →
  (∀ cx g, length g = 5%nat → draws k (glyph_shape scale cx cy g) (glyph cx g)) →
  draws k (text_shape font scale cx cy text) (text_loop font (6 * scale) glyph cx text).
Proof.
  intros [Hlen Hf] Hg. revert cx. induction text as [|c text IH]; intros cx; [exact (draws_none k)|].
  cbn [text_shape text_loop]. destruct (printable c) eqn:Ep; cbn [negb]; [|apply IH].
  unfold printable in Ep. apply negb_true_iff, orb_false_iff in Ep as [E1 E2].
  apply Z.ltb_ge in E1, E2. destruct (rd_ok font (c - 32)) as [g Eg]; [unfold blen; lia|].
  rewrite Eg. cbn [mbind option_bind]. rewrite rd_lookup in Eg by lia. rewrite Eg. cbn [default from_option].
  apply draws_seq; [|apply IH]. apply Hg. rewrite Forall_lookup in Hf. by eapply Hf.
Qed.

Lemma cell_div scale d q r : 0 < scale → 0 <= r < scale → d = q * scale + r → d / scale = q.
Proof. intros. subst. rewrite Z.add_comm, Z.div_add, Z.div_small by lia. lia. Qed.

(** The blocks of a set dot, column by column. *)
Lemma scaled_glyph_eq scale cx cy g x y :
  0 < scale →
  any 0 5 (λ col, any 0 7 (λ row x y, Z.testbit (default 0 (g !! Z.to_nat col)) row &&
    any 0 (Z.to_nat (scale - 0)) (λ sx, any 0 (Z.to_nat (scale - 0)) (λ sy,
      dot (cx + col * scale + sx) (cy + row * scale + sy))) x y)) x y =
  glyph_shape scale cx cy g x y.
Proof.
  intros Hs. apply eq_true_iff_eq. unfold glyph_shape.
  rewrite !andb_true_iff, !Z.leb_le, !Z.ltb_lt, any_true. setoid_rewrite any_true.
  setoid_rewrite andb_true_iff. split.
  - intros (col & Hc & row & Hr & Eb & E). apply any_true in E as (sx & Hsx & E).
    apply any_true in E as (sy & Hsy & E). apply dot_true in E as [-> ->].
    replace (cx + col * scale + sx - cx) with (col * scale + sx) by lia.
    replace (cy + row * scale + sy - cy) with (row * scale + sy) by lia.
    rewrite (cell_div scale _ col sx), (cell_div scale _ row sy) by lia.
    split_and!; [nia|nia|lia|lia|done].
  - intros ((((Hx & Hy) & Hc) & Hr) & Eb).
    pose proof (Z.div_mod (x - cx) scale). pose proof (Z.div_mod (y - cy) scale).
    pose proof (Z.mod_pos_bound (x - cx) scale Hs). pose proof (Z.mod_pos_bound (y - cy) scale Hs).
    assert (0 <= (x - cx) / scale ∧ 0 <= (y - cy) / scale) as [] by (split; apply Z.div_pos; lia).
    exists ((x - cx) / scale). split; [lia|]. exists ((y - cy) / scale). split; [lia|].
    split; [done|]. apply any_true. exists ((x - cx) mod scale). split; [lia|].
    apply any_true. exists ((y - cy) mod scale). split; [lia|]. apply dot_true. nia.
Qed.

Lemma set_bit v row : 0 <= row → bits_set v (Z.shiftl 1 row) = Z.testbit v row.
Proof. intros. rewrite Z.shiftl_1_l. by apply bits_set_pow2. Qed.

Lemma draws_scaled_glyph k D scale cx cy g :
  0 < scale → length g = 5%nat → (∀ px py, draws k (dot px py) (D px py)) →
  draws k (glyph_shape scale cx cy g) (scaled_glyph D scale cx cy g).
Proof.
  intros Hs Hg HD. eapply draws_ext; [|intros x y _; by apply scaled_glyph_eq|done].
  apply (draws_for _ 0 5). intros col Hc. destruct (rd_ok g col) as [v Ev]; [unfold blen; lia|].
  apply (draws_known _ _ _ v _ Ev).
  apply (draws_for _ 0 7). intros row Hr. rewrite rd_lookup in Ev by lia. rewrite Ev. cbn [default from_option].
  rewrite <- set_bit by lia. apply draws_when. apply (draws_for _ 0 scale). intros sx _.
  apply (draws_for _ 0 scale). intros sy _. apply HD.
Qed.

Lemma draws_plain_dot px py :
  draws (Bit true) (dot px py) (λ p, if on_panel W H px py then put_bit W H px py true p else Some p).
Proof.
  eapply draws_ext; [apply (draws_set_pixel px py true)|done|]. intros p.
  unfold ssd1306_model_set_pixel. by destruct (on_panel W H px py).
Qed.

(** A glyph of single dots: the loops stop at the edges of the panel. *)
Lemma draws_draw_glyph cx cy g :
  length g = 5%nat → draws (Bit true) (glyph_shape 1 cx cy g) (draw_glyph W H cx cy g).
Proof.
  intros Hg. eapply draws_ext; [|intros x y _; apply scaled_glyph_eq; lia|done].
  apply draws_while.
  - intros col Hc. destruct (rd_ok g col) as [v Ev]; [unfold blen; lia|].
    apply (draws_known _ _ _ v _ Ev).
    rewrite rd_lookup in Ev by lia. rewrite Ev. cbn [default from_option]. apply draws_while.
    + intros row Hr. rewrite <- set_bit by lia.
      eapply (draws_ext _ _ _ _ _ (draws_when _ (bits_set v (Z.shiftl 1 row)) _ _ (draws_plain_dot (cx + col) (cy + row)))); [|done].
      intros x y _. f_equal. apply eq_true_iff_eq. rewrite any_true. setoid_rewrite any_true. setoid_rewrite dot_true.
      split; [intros E; exists 0; split; [lia|]; exists 0; lia|]. intros (sx & Hsx & sy & Hsy & E). lia.
    + intros j j' x y Hj Hjj Ec Hon. apply negb_false_iff, Z.leb_le in Ec. apply on_panel_true in Hon as [_ Hy].
      apply not_true_iff_false. rewrite andb_true_iff, any_true. setoid_rewrite any_true. setoid_rewrite dot_true.
      intros (_ & sx & Hsx & sy & Hsy & E). lia.
  - intros j j' x y Hj Hjj Ec Hon. apply negb_false_iff, Z.leb_le in Ec. apply on_panel_true in Hon as [Hx _].
    apply not_true_iff_false. rewrite any_true. setoid_rewrite andb_true_iff.
    intros (row & _ & _ & E). apply any_true in E as (sx & Hsx & E). apply any_true in E as (sy & Hsy & E).
    apply dot_true in E. lia.
Qed.

(** ** The three ways to write *)

(** The dots of [ssd1306_model_draw_text]: nothing when the first one is off the panel. *)
Definition plain_text_shape (x0 y0 : Z) (text : list Z) (x y : Z) : bool :=
  on_panel W H x0 y0 && text_shape font_text 1 x0 y0 text x y.
Definition scaled_text_shape (x0 y0 : Z) (text : list Z) (scale x y : Z) : bool :=
  if scale <=? 0 then false else if scale =? 1 then plain_text_shape x0 y0 text x y
  else negb ((x0 <? 0) || (y0 <? 0)) && text_shape font_scaled scale x0 y0 text x y.
Definition color_text_shape (x0 y0 : Z) (text : list Z) (scale x y : Z) : bool :=
  negb (scale <=? 0) && text_shape font_color scale x0 y0 text x y.

Lemma draws_draw_text x0 y0 t :
  draws (Bit true) (plain_text_shape x0 y0 t) (ssd1306_model_draw_text W H x0 y0 (Some t)).
Proof.
  unfold plain_text_shape, ssd1306_model_draw_text. destruct (on_panel W H x0 y0); cbn [negb andb]; [|apply draws_none].
  apply (draws_text_loop _ font_text 1); [apply fonts_ok|]. intros cx g Hg. by apply draws_draw_glyph.
Qed.

Lemma draws_text_scaled x0 y0 t scale :
  draws (Bit true) (λ x y, scaled_text_shape x0 y0 t scale x y)
    (ssd1306_model_draw_text_scaled W H x0 y0 (Some t) scale).
Proof.
  unfold scaled_text_shape, ssd1306_model_draw_text_scaled. destruct (scale <=? 0) eqn:Es; [apply draws_none|].
  apply Z.leb_gt in Es. destruct (scale =? 1); [apply draws_draw_text|].
  destruct ((x0 <? 0) || (y0 <? 0)); cbn [negb andb]; [apply draws_none|].
  change ((5 + 1) * scale) with (6 * scale).
  apply draws_text_loop; [apply fonts_ok|]. intros cx g Hg. by apply draws_scaled_glyph; [..|apply draws_plain_dot].
Qed.

Lemma draws_text_color x0 y0 t scale c :
  draws (Colour c) (λ x y, color_text_shape x0 y0 t scale x y)
    (ssd1306_model_draw_text_color W H x0 y0 (Some t) scale c).
Proof.
  unfold color_text_shape, ssd1306_model_draw_text_color. destruct (scale <=? 0) eqn:Es; cbn [negb andb]; [apply draws_none|].
  apply Z.leb_gt in Es. change ((5 + 1) * scale) with (6 * scale).
  apply draws_text_loop; [apply fonts_ok|]. intros cx g Hg. apply draws_scaled_glyph; [done..|].
  intros px py. apply draws_pixel_color.
Qed.

(** ** Rendering *)

(** The colour of a dot in the window. *)
Definition window_dot p x y : Z :=
  match colour p x y with
  | Some c => rgb565_to_argb8888 c
  | None => if xorb (sd_inverted (g_ssd1306 p)) (mono p x y) then 0xFFFFFFFF else 0xFF000000
  end.

Lemma testbit_shift v j : 0 <= j → c_true (Z.land (Z.shiftr v j) 1) = Z.testbit v j.
Proof.
  intros Hj. change (c_true (Z.land (Z.shiftr v j) 1)) with (bits_set (Z.shiftr v j) (2 ^ 0)).
  by rewrite bits_set_pow2, Z.shiftr_spec, Z.add_0_l by lia.
Qed.

Lemma pixel_color_ok p x y :
  panel_ok p → on_panel W H x y = true → pixel_color W x y p = Some (window_dot p x y).
Proof.
  intros (Hb & Hc & Hh) [Hx Hy]%on_panel_true. destruct (index_bound x y Hx Hy) as [Hi1 Hi2].
  unfold pixel_color, window_dot, colour, mono, dot_index, pixel_index.
  rewrite Z.quot_div_nonneg, Z.rem_mod_nonneg by lia.
  destruct (rd_ok (g_has_color p) (y * W + x)) as [has Eh]; [lia|].
  destruct (rd_ok (g_color_buf p) (y * W + x)) as [c Ec]; [lia|].
  destruct (rd_ok (sd_buffer (g_ssd1306 p)) (y / 8 * W + x)) as [v Ev]; [lia|].
  rewrite Eh, Ec, Ev. cbn [mbind option_bind]. rewrite rd_lookup in Eh, Ec, Ev by lia.
  rewrite Eh, Ec, Ev. cbn [default from_option]. unfold id. destruct (c_true has); [done|].
  rewrite testbit_shift by (apply Z.mod_pos_bound; lia).
  by destruct (sd_inverted (g_ssd1306 p)), (Z.testbit v (y mod 8)).
Qed.

Section Window.
Context (sw sh : Z) (Hsw : 0 <= sw) (Hsh : 0 <= sh).

(** The first rows, and the first dots of the next one, are drawn. *)
Definition drawn p (old pixels : list Z) (done : Z → Z → bool) : Prop :=
  blen pixels = sw * sh ∧
  ∀ x y, 0 <= x < sw → 0 <= y < sh →
    rd pixels (y * sw + x) = if done x y && on_panel W H x y then Some (window_dot p x y)
                             else rd old (y * sw + x).

Lemma drawn_dot p old pixels x0 y0 done done' :
  panel_ok p → drawn p old pixels done → on_panel W H x0 y0 = true → 0 <= x0 < sw → 0 <= y0 < sh →
  (∀ x y, done' x y = done x y || dot x0 y0 x y) →
  ∃ pixels', (color ← pixel_color W x0 y0 p; wr pixels (y0 * sw + x0) color) = Some pixels' ∧
    drawn p old pixels' done'.
Proof.
  intros Hp [Hl Hd] Hon Hx0 Hy0 Hdone. rewrite pixel_color_ok by done. cbn [mbind option_bind].
  assert (0 <= y0 * sw + x0 < sw * sh) as Hi by nia. rewrite wr_ok by lia. eexists. split; [done|].
  split; [unfold blen in *; by rewrite length_insert|]. intros x y Hx Hy. rewrite Hdone.
  assert (0 <= y * sw + x < sw * sh) as Hi' by nia. rewrite rd_lookup by lia.
  destruct (dot x0 y0 x y) eqn:Ed.
  - apply dot_true in Ed as [-> ->]. rewrite orb_true_r, Hon. cbn [andb].
    apply list_lookup_insert_eq. unfold blen in Hl. lia.
  - rewrite orb_false_r, <- (Hd x y) by done. rewrite rd_lookup by lia. apply list_lookup_insert_ne.
    intros E. apply not_true_iff_false in Ed. apply Ed, dot_true.
    assert (y0 = y) by nia. subst. lia.
Qed.

Lemma drawn_ext p old pixels d d' :
  (∀ x y, 0 <= x < sw → 0 <= y < sh → on_panel W H x y = true → d x y = d' x y) →
  drawn p old pixels d → drawn p old pixels d'.
Proof.
  intros Hd [Hl Hr]. split; [done|]. intros x y Hx Hy. rewrite Hr by done.
  destruct (on_panel W H x y) eqn:Hon; [by rewrite (Hd x y)|by rewrite !andb_false_r].
Qed.

Lemma render_row p old pixels y0 :
  panel_ok p → 0 <= y0 < H → y0 < sh → drawn p old pixels (λ x y, y <? y0) →
  ∃ pixels', for_while (Z.to_nat W) 0 (λ x, x <? sw) (λ x pixels,
      color ← pixel_color W x y0 p; wr pixels (y0 * sw + x) color) pixels = Some pixels' ∧
    drawn p old pixels' (λ x y, y <? y0 + 1).
Proof.
  intros Hp Hy0 Hys Hd.
  destruct (for_while_inv (λ x0 pixels, drawn p old pixels (λ x y, (y <? y0) || ((y =? y0) && (x <? x0))))
    (Z.to_nat W) 0 (λ x, x <? sw)
    (λ x pixels, color ← pixel_color W x y0 p; wr pixels (y0 * sw + x) color) pixels) as (pixels' & E & Hd').
  - eapply drawn_ext; [|exact Hd]. intros x y Hx _ _. cbn. zbool. by rewrite andb_false_r, orb_false_r.
  - intros x0 s Hx0 Hc Hs. apply Z.ltb_lt in Hc.
    eapply drawn_dot; [done|exact Hs|apply on_panel_true; lia|lia|lia|]. intros x y. unfold dot.
    apply eq_true_iff_eq. rewrite !orb_true_iff, !andb_true_iff, !Z.ltb_lt, !Z.eqb_eq. lia.
  - intros x0 s Hs Hc. apply Z.ltb_ge in Hc. eapply drawn_ext; [|exact Hs]. intros x y Hx Hy [Hon _]%on_panel_true.
    apply eq_true_iff_eq. rewrite !orb_true_iff, !andb_true_iff, !Z.ltb_lt, !Z.eqb_eq. lia.
  - exists pixels'. split; [exact E|]. eapply drawn_ext; [|exact Hd']. intros x y Hx Hy [Hon _]%on_panel_true.
    apply eq_true_iff_eq. rewrite !orb_true_iff, !andb_true_iff, !Z.ltb_lt, !Z.eqb_eq. lia.
Qed.

Lemma render_ok p pixels :
  panel_ok p → blen pixels = sw * sh →
  sd_display_on (g_ssd1306 p) = true → sd_canary (g_ssd1306 p) = CANARY →
  first_render p = false ∨ all_zero p = false →
  ∃ pixels' p', ssd1306_model_render W H (Some pixels) sw sh p = Some (Some pixels', p') ∧
    blen pixels' = blen pixels ∧
    ∀ x y, 0 <= x < sw → 0 <= y < sh →
      rd pixels' (y * sw + x) = if on_panel W H x y then Some (window_dot p x y) else rd pixels (y * sw + x).
Proof.
  intros Hp Hl Hon Hca Hf. unfold ssd1306_model_render. rewrite Hon, Hca, Z.eqb_refl. cbn [negb].
  assert (∀ p', panel_ok p' → (∀ x y, window_dot p' x y = window_dot p x y) →
    ∃ pixels', for_while (Z.to_nat H) 0 (λ y, y <? sh) (λ y,
                 for_while (Z.to_nat W) 0 (λ x, x <? sw) (λ x pixels,
                   color ← pixel_color W x y p'; wr pixels (y * sw + x) color)) pixels = Some pixels' ∧
      drawn p' pixels pixels' (λ _ _, true)) as Hloop.
  { intros p' Hp' _.
    destruct (for_while_inv (λ y0 s, drawn p' pixels s (λ x y, y <? y0)) (Z.to_nat H) 0 (λ y, y <? sh)
      (λ y, for_while (Z.to_nat W) 0 (λ x, x <? sw) (λ x pixels,
         color ← pixel_color W x y p'; wr pixels (y * sw + x) color)) pixels) as (pixels' & E & Hd').
    - split; [done|]. intros x y Hx Hy. by rewrite (proj2 (Z.ltb_ge y 0)) by lia.
    - intros y0 s Hy0 Hc Hs. apply Z.ltb_lt in Hc. apply render_row; [done|lia|lia|done].
    - intros y0 s Hs Hc. apply Z.ltb_ge in Hc. eapply drawn_ext; [|exact Hs]. intros x y Hx Hy [_ Hpy]%on_panel_true.
      apply eq_true_iff_eq. rewrite !Z.ltb_lt. lia.
    - exists pixels'. split; [exact E|]. eapply drawn_ext; [|exact Hd']. intros x y Hx Hy [_ Hpy]%on_panel_true.
      apply Z.ltb_lt. lia. }
  assert (first_render p && all_zero (if first_render p then set_first false p else p) = false) as ->.
  { destruct Hf as [-> |Hz]; [done|]. destruct (first_render p); [exact Hz|done]. }
  set (p1 := if first_render p then set_first false p else p).
  assert (panel_ok p1 ∧ ∀ x y, window_dot p1 x y = window_dot p x y) as [Hp1 Hw].
  { subst p1. by destruct (first_render p). }
  destruct (Hloop p1 Hp1 Hw) as (pixels' & -> & Hlen & Hd). cbn [mbind option_bind].
  exists pixels', p1. split; [done|]. split; [lia|]. intros x y Hx Hy. rewrite Hd, Hw by done. done.
Qed.
End Window.

(** ** Where the arithmetic of int is that of the integers *)

(** The value of a checked sum or product, when it is in range. *)
Definition is_int (z : Z) : Prop := - 2 ^ 31 <= z < 2 ^ 31.

Lemma int_ok z : is_int z → int z = Some z.
Proof. intros [H1 H2]. unfold int. by rewrite (proj2 (Z.leb_le _ _) H1), (proj2 (Z.ltb_lt _ _) H2). Qed.

Ltac ints := repeat (rewrite int_ok by (unfold is_int in *; nia); cbn [mbind option_bind]).

Lemma for_z_ext {S : Type} a b (f g : Z → S → option S) s :
  (∀ j s, a <= j < b → f j s = g j s) → for_z a b f s = for_z a b g s.
Proof. intros Hf. apply for_while_ext. intros j s' Hj _. apply Hf. lia. Qed.

Lemma text_loop_int_ok font step glyph glyph' text cx p :
  (∀ cx' p g, cx <= cx' <= cx + step * blen text - step → glyph cx' g p = glyph' cx' g p) →
  0 <= step → - 2 ^ 31 <= cx → cx + step * blen text < 2 ^ 31 →
  text_loop_int font step glyph cx text p = text_loop font step glyph' cx text p.
Proof.
  intros Hg Hs. revert cx p Hg. induction text as [|c text IH]; intros cx p Hg H1 H2; [done|].
  cbn [text_loop_int text_loop]. rewrite blen_cons in *. pose proof (blen_nonneg text).
  destruct (printable c); cbn [negb]; [|apply IH; [intros; apply Hg|..]; nia].
  destruct (rd font (c - 32)) as [g|]; [|done]. cbn [mbind option_bind].
  rewrite Hg by nia. destruct (glyph' cx g p) as [p1|]; [|done]. cbn [mbind option_bind]. ints.
  apply IH; [intros; apply Hg|..]; nia.
Qed.

(** The place of a dot is an [int]. *)
Context (Hsize : SSD1306_BUFFER_SIZE W H < 2 ^ 31).

Lemma set_pixel_int_ok x y on p :
  set_pixel_int W H x y on p = ssd1306_model_set_pixel W H x y on p.
Proof.
  unfold set_pixel_int, ssd1306_model_set_pixel. destruct (on_panel W H x y) eqn:Hon; [|done]. cbn [negb].
  apply on_panel_true in Hon as [Hx Hy]. destruct (index_bound x y Hx Hy) as [Hi _].
  unfold put_bit_int. rewrite Z.quot_div_nonneg by lia. assert (0 <= y / 8 * W) by (apply Z.mul_nonneg_nonneg; [apply Z.div_pos|]; lia).
  by ints.
Qed.

Lemma put_bit_same x y on p :
  (if on_panel W H x y then put_bit W H x y on p else Some p) = set_pixel_int W H x y on p.
Proof. rewrite set_pixel_int_ok. unfold ssd1306_model_set_pixel. by destruct (on_panel W H x y). Qed.

Lemma draw_glyph_int_ok cx cy g p :
  - 2 ^ 31 <= cx → cx + 5 < 2 ^ 31 → - 2 ^ 31 <= cy → cy + 7 < 2 ^ 31 →
  draw_glyph_int W H cx cy g p = draw_glyph W H cx cy g p.
Proof.
  intros. apply for_while_ext. intros col p1 Hc _. ints. destruct (rd g col) as [v|]; [|done].
  cbn [mbind option_bind]. apply for_while_ext. intros row p2 Hr _. ints.
  destruct (bits_set v _); [|done]. by rewrite <- put_bit_same.
Qed.

(** Text of [n] characters, each dot [scale] wide and high, ends below the largest [int]. *)
Definition text_fits (x y n scale : Z) : Prop :=
  is_int x ∧ is_int y ∧ (n + 1) * (6 * scale) < 2 ^ 31 ∧ x + (n + 1) * (6 * scale) < 2 ^ 31 ∧
  7 * scale < 2 ^ 31 ∧ y + 7 * scale < 2 ^ 31.

Lemma draw_text_int_ok x y t p :
  text_fits x y (blen t) 1 → draw_text_int W H x y t p = ssd1306_model_draw_text W H x y (Some t) p.
Proof.
  intros ([Hx _] & [Hy _] & Hf). unfold draw_text_int, ssd1306_model_draw_text.
  destruct (negb _); [done|]. pose proof (blen_nonneg t).
  apply text_loop_int_ok; [|lia..]. intros cx p1 g Hc. apply draw_glyph_int_ok; lia.
Qed.

Lemma block_int_ok a n scale s :
  is_int a → 0 <= n <= 6 → 0 <= s < scale → 7 * scale < 2 ^ 31 → a + (n + 1) * scale < 2 ^ 31 →
  block_int a n scale s = Some (a + n * scale + s).
Proof.
  intros Ha Hn Hs H7 Hf. unfold block_int, is_int in *.
  rewrite int_ok by (unfold is_int; nia). cbn [mbind option_bind].
  rewrite int_ok by (unfold is_int; nia). cbn [mbind option_bind].
  by rewrite int_ok by (unfold is_int; nia).
Qed.

Lemma scaled_glyph_int_ok D D' scale cx cy g p :
  (∀ px py p, D px py p = D' px py p) → is_int cx → is_int cy → 7 * scale < 2 ^ 31 →
  cx + 5 * scale < 2 ^ 31 → cy + 7 * scale < 2 ^ 31 →
  scaled_glyph_int D scale cx cy g p = scaled_glyph D' scale cx cy g p.
Proof.
  intros HD Hcx Hcy H7 Hx Hy. apply for_z_ext. intros col p1 Hc.
  destruct (rd g col) as [v|]; [|done]. cbn [mbind option_bind]. apply for_z_ext. intros row p2 Hr.
  destruct (bits_set v _); [|done]. apply for_z_ext. intros sx p3 Hsx. apply for_z_ext. intros sy p4 Hsy.
  rewrite (block_int_ok cx col) by (done || nia). cbn [mbind option_bind].
  rewrite (block_int_ok cy row) by (done || nia). apply HD.
Qed.

Lemma text_blocks_ok font D D' x y t scale p :
  (∀ px py p, D px py p = D' px py p) → 0 < scale → text_fits x y (blen t) scale →
  text_loop_int font ((5 + 1) * scale)
    (λ char_x g p, _ ← int ((5 + 1) * scale); scaled_glyph_int D scale char_x y g p) x t p =
  text_loop font ((5 + 1) * scale) (λ char_x, scaled_glyph D' scale char_x y) x t p.
Proof.
  intros HD Hs (Hx & Hy & Hf & Hxf & H7 & Hyf). pose proof (blen_nonneg t). unfold is_int in *.
  apply text_loop_int_ok; [|nia..]. intros cx p1 g Hc. rewrite int_ok by (unfold is_int; nia).
  cbn [mbind option_bind]. apply scaled_glyph_int_ok; [done|unfold is_int; nia..].
Qed.

Lemma text_scaled_int_ok x y t scale p :
  text_fits x y (blen t) scale →
  draw_text_scaled_int W H x y t scale p = ssd1306_model_draw_text_scaled W H x y (Some t) scale p.
Proof.
  intros Hf. unfold draw_text_scaled_int, ssd1306_model_draw_text_scaled.
  destruct (scale <=? 0) eqn:E0; [done|]. apply Z.leb_gt in E0. destruct (Z.eqb_spec scale 1) as [->|].
  { by apply draw_text_int_ok. }
  destruct (_ || _); [done|]. apply text_blocks_ok; [|done..]. intros px py p1. by rewrite put_bit_same.
Qed.

Lemma text_color_int_ok x y t scale c p :
  text_fits x y (blen t) scale →
  draw_text_color_int W H x y t scale c p = ssd1306_model_draw_text_color W H x y (Some t) scale c p.
Proof.
  intros Hf. unfold draw_text_color_int, ssd1306_model_draw_text_color.
  destruct (scale <=? 0) eqn:E0; [done|]. apply Z.leb_gt in E0. by apply text_blocks_ok.
Qed.

(** A rectangle whose sides end below the largest [int]. *)
Definition box_fits (x y w h : Z) : Prop :=
  is_int x ∧ is_int y ∧ w < 2 ^ 31 ∧ h < 2 ^ 31 ∧ x + w < 2 ^ 31 ∧ y + h < 2 ^ 31.

(** A quarter of a circle of 32767 dots, the largest whose squares fit. *)
Lemma corner_radius_int_ok w h radius :
  0 < w → 0 < h → radius < 2 ^ 30 →
  corner_radius_int w h radius = Some (corner_radius w h radius) ∧
  0 <= corner_radius w h radius ∧ 2 * corner_radius w h radius <= w ∧ 2 * corner_radius w h radius <= h ∧
  corner_radius w h radius <= Z.max 0 radius.
Proof.
  intros Hw Hh Hr. unfold corner_radius_int, corner_radius.
  set (r0 := if radius <? 0 then 0 else radius).
  assert (0 <= r0 < 2 ^ 30 ∧ r0 = Z.max 0 radius) as B0 by (subst r0; destruct (Z.ltb_spec radius 0); lia). clearbody r0.
  ints. rewrite !Z.quot_div_nonneg by lia.
  set (r1 := if w <? r0 * 2 then w / 2 else r0).
  assert (0 <= r1 <= r0 ∧ 2 * r1 <= w) as B1.
  { subst r1. destruct (Z.ltb_spec w (r0 * 2)); [|lia]. pose proof (Z.div_mod w 2). pose proof (Z.mod_pos_bound w 2).
    lia. }
  clearbody r1. ints. split; [done|]. destruct (Z.ltb_spec h (r1 * 2)); [|lia].
  pose proof (Z.div_mod h 2). pose proof (Z.mod_pos_bound h 2). lia.
Qed.

Lemma square_sum_ok a b :
  - 2 ^ 15 < a < 2 ^ 15 → - 2 ^ 15 < b < 2 ^ 15 → square_sum_int a b = Some (a * a + b * b).
Proof. intros. unfold square_sum_int. assert (0 <= a * a <= 32767 * 32767 ∧ 0 <= b * b <= 32767 * 32767) by nia. by ints. Qed.

Lemma outside_corner_int_ok w h radius dx dy :
  0 <= radius < 2 ^ 15 → 2 * radius <= w → 2 * radius <= h → 0 <= dx < w → 0 <= dy < h →
  outside_corner_int w h radius dx dy = Some (outside_corner w h radius dx dy).
Proof.
  intros Hr Hw Hh Hx Hy. unfold outside_corner_int, outside_corner.
  destruct (Z.ltb_spec 0 radius); cbn [negb andb]; [|done].
  set (cx := if dx <? radius then _ else _). set (cy := if dy <? radius then _ else _).
  assert (cx = -1 ∨ - radius <= dx - cx <= radius) as Hcx.
  { subst cx. destruct (Z.ltb_spec dx radius); [lia|]. destruct (Z.leb_spec (w - radius) dx); lia. }
  assert (cy = -1 ∨ - radius <= dy - cy <= radius) as Hcy.
  { subst cy. destruct (Z.ltb_spec dy radius); [lia|]. destruct (Z.leb_spec (h - radius) dy); lia. }
  clearbody cx cy. destruct (Z.leb_spec 0 cx), (Z.leb_spec 0 cy); cbn [andb]; try done.
  rewrite square_sum_ok by lia. cbn [mbind option_bind]. assert (radius * radius <= 32767 * 32767) by nia. by ints.
Qed.

Lemma fill_rect_int_ok x y w h radius c p :
  box_fits x y w h → radius < 2 ^ 30 → radius < 2 ^ 15 ∨ w < 2 ^ 16 ∨ h < 2 ^ 16 →
  fill_rect_int W H x y w h radius c p = ssd1306_model_fill_rect_color W H x y w h radius c p.
Proof.
  intros ([Hx _] & [Hy _] & _ & _ & Hw & Hh) Hr Hq. unfold fill_rect_int, ssd1306_model_fill_rect_color.
  destruct (Z.leb_spec w 0), (Z.leb_spec h 0); cbn [orb]; try done.
  destruct (corner_radius_int_ok w h radius) as (-> & R0 & R1 & R2 & R3); [done..|]. cbn [mbind option_bind].
  assert (corner_radius w h radius < 2 ^ 15) by lia.
  apply for_z_ext. intros dy p1 Hdy. apply for_z_ext. intros dx p2 Hdx.
  rewrite outside_corner_int_ok by lia. cbn [mbind option_bind]. destruct (outside_corner _ _ _ _ _); [done|]. by ints.
Qed.

Lemma draw_rect_int_ok x y w h radius c p :
  box_fits x y w h →
  draw_rect_int W H x y w h radius c p = ssd1306_model_draw_rect_color W H x y w h radius c p.
Proof.
  intros ([Hx _] & [Hy _] & _ & _ & Hw & Hh). unfold draw_rect_int, ssd1306_model_draw_rect_color.
  destruct (Z.leb_spec w 0), (Z.leb_spec h 0); cbn [orb]; try done.
  rewrite (for_z_ext 0 w _ (λ dx p,
    p ← ssd1306_model_set_pixel_color W H (x + dx) y c p;
    ssd1306_model_set_pixel_color W H (x + dx) (y + h - 1) c p)) by (intros dx p1 Hdx; by ints).
  destruct (for_z 0 w _ p) as [p1|]; [|done]. apply for_z_ext. intros dy p2 Hdy. by ints.
Qed.

Lemma fill_circle_int_ok cx cy r c p :
  - 2 ^ 31 <= cx - r → cx + r < 2 ^ 31 → - 2 ^ 31 <= cy - r → cy + r < 2 ^ 31 → r < 2 ^ 15 →
  fill_circle_int W H cx cy r c p = ssd1306_model_fill_circle_color W H cx cy r c p.
Proof.
  intros. unfold fill_circle_int, ssd1306_model_fill_circle_color. destruct (Z.leb_spec r 0); [done|].
  apply for_z_ext. intros dy p1 Hdy. apply for_z_ext. intros dx p2 Hdx.
  rewrite square_sum_ok by lia. cbn [mbind option_bind].
  assert (0 <= r * r <= 32767 * 32767) by (split; [|apply Z.mul_le_mono_nonneg]; lia).
  rewrite (int_ok (r * r)) by (unfold is_int; lia). cbn [mbind option_bind]. destruct (_ <=? r * r); [|done].
  rewrite (int_ok (cx + dx)), (int_ok (cy + dy)) by (unfold is_int; lia). done.
Qed.

Lemma draw_hline_int_ok x y w c p :
  - 2 ^ 31 <= x → x + w < 2 ^ 31 →
  draw_hline_int W H x y w c p = ssd1306_model_draw_hline_color W H x y w c p.
Proof. intros. apply for_z_ext. intros dx p1 Hdx. by ints. Qed.

(** ** Pictures *)

Inductive draw_op :=
  | Clear
  | Dot (x y : Z) (on : bool) | DotColor (x y c : Z)
  | FillRect (x y w h radius c : Z) | DrawRect (x y w h radius c : Z)
  | FillCircle (cx cy r c : Z) | HLine (x y w c : Z)
  | TextPlain (x y : Z) (t : list Z) | TextScaled (x y : Z) (t : list Z) (scale : Z)
  | TextColor (x y : Z) (t : list Z) (scale c : Z).

Definition draw_step (o : draw_op) p : option (panel U) :=
  match o with
  | Clear => Some (ssd1306_model_clear p)
  | Dot x y on => ssd1306_model_set_pixel W H x y on p
  | DotColor x y c => ssd1306_model_set_pixel_color W H x y c p
  | FillRect x y w h radius c => ssd1306_model_fill_rect_color W H x y w h radius c p
  | DrawRect x y w h radius c => ssd1306_model_draw_rect_color W H x y w h radius c p
  | FillCircle cx cy r c => ssd1306_model_fill_circle_color W H cx cy r c p
  | HLine x y w c => ssd1306_model_draw_hline_color W H x y w c p
  | TextPlain x y t => ssd1306_model_draw_text W H x y (Some t) p
  | TextScaled x y t scale => ssd1306_model_draw_text_scaled W H x y (Some t) scale p
  | TextColor x y t scale c => ssd1306_model_draw_text_color W H x y (Some t) scale c p
  end.

Fixpoint draw_all (l : list draw_op) p : option (panel U) :=
  match l with [] => Some p | o :: l => p ← draw_step o p; draw_all l p end.

(** A picture has a bit and a colour at each place. *)
Definition picture : Type := Z → Z → bool * option Z.

Definition stroke (k : ink) (S : Z → Z → bool) (pic : picture) : picture :=
  λ x y, if S x y then ink_on k (pic x y) else pic x y.

Definition paint (pic : picture) (o : draw_op) : picture :=
  match o with
  | Clear => λ _ _, (false, None)
  | Dot x y on => stroke (Bit on) (dot x y) pic
  | DotColor x y c => stroke (Colour c) (dot x y) pic
  | FillRect x y w h radius c => stroke (Colour c) (rect_shape x y w h radius) pic
  | DrawRect x y w h _ c => stroke (Colour c) (frame_shape x y w h) pic
  | FillCircle cx cy r c => stroke (Colour c) (disc_shape cx cy r) pic
  | HLine x y w c => stroke (Colour c) (line_shape x y w) pic
  | TextPlain x y t => stroke (Bit true) (plain_text_shape x y t) pic
  | TextScaled x y t scale => stroke (Bit true) (scaled_text_shape x y t scale) pic
  | TextColor x y t scale c => stroke (Colour c) (color_text_shape x y t scale) pic
  end.

(** The panel shows the picture. *)
Definition displays p (pic : picture) : Prop := ∀ x y, on_panel W H x y = true → look p x y = pic x y.

(** What drawing leaves alone: display and inversion, the canary, the first rendering. *)
Definition modes p : bool * bool * Z * bool :=
  (sd_display_on (g_ssd1306 p), sd_inverted (g_ssd1306 p), sd_canary (g_ssd1306 p), first_render p).

Lemma rest_modes p p' : rest_of p' = rest_of p → modes p' = modes p.
Proof.
  intros E. change (modes (rest_of p') = modes (rest_of p)). by rewrite E.
Qed.

Lemma draws_step k S D p pic :
  draws k S D → panel_ok p → displays p pic →
  ∃ p', D p = Some p' ∧ panel_ok p' ∧ modes p' = modes p ∧ displays p' (stroke k S pic).
Proof.
  intros Hd Hp Hpic. destruct (Hd p Hp) as (p' & E & Hp' & R & L). exists p'.
  split; [done|]. split; [done|]. split; [exact (rest_modes p p' R)|]. intros x y Hon. unfold stroke.
  by rewrite (L x y Hon), (Hpic x y Hon).
Qed.

Lemma clear_blank p :
  panel_ok p → panel_ok (ssd1306_model_clear p) ∧ modes (ssd1306_model_clear p) = modes p ∧
    displays (ssd1306_model_clear p) (λ _ _, (false, None)).
Proof.
  intros (Hb & Hc & Hh). split; [|split; [done|]].
  { unfold panel_ok, blen in *. cbn. by rewrite !length_replicate. }
  assert (∀ n i, default 0 (replicate n 0 !! i) = 0) as Hz.
  { intros n i. destruct (replicate n 0 !! i) eqn:E; [|done]. by apply lookup_replicate in E as [-> _]. }
  intros x y _. unfold look, mono, colour, ssd1306_model_clear.
  cbn [g_ssd1306 with_ssd with_colors sd_buffer with_place with_buffer g_has_color g_color_buf].
  by rewrite !Hz, Z.bits_0.
Qed.

Lemma draw_step_paints o p pic :
  panel_ok p → displays p pic →
  ∃ p', draw_step o p = Some p' ∧ panel_ok p' ∧ modes p' = modes p ∧ displays p' (paint pic o).
Proof.
  intros Hp Hpic. destruct o; cbn [draw_step paint].
  - destruct (clear_blank p Hp) as (? & ? & ?). by eexists.
  - apply (draws_step _ _ _ _ _ (draws_set_pixel x y on)); done.
  - apply (draws_step _ _ _ _ _ (draws_pixel_color x y c)); done.
  - apply (draws_step _ _ _ _ _ (draws_fill_rect x y w h radius c)); done.
  - apply (draws_step _ _ _ _ _ (draws_draw_rect x y w h radius c)); done.
  - apply (draws_step _ _ _ _ _ (draws_fill_circle cx cy r c)); done.
  - apply (draws_step _ _ _ _ _ (draws_hline x y w c)); done.
  - apply (draws_step _ _ _ _ _ (draws_draw_text x y t)); done.
  - apply (draws_step _ _ _ _ _ (draws_text_scaled x y t scale)); done.
  - apply (draws_step _ _ _ _ _ (draws_text_color x y t scale c)); done.
Qed.

Lemma draw_all_paints l p pic :
  panel_ok p → displays p pic →
  ∃ p', draw_all l p = Some p' ∧ panel_ok p' ∧ modes p' = modes p ∧ displays p' (foldl paint pic l).
Proof.
  revert p pic. induction l as [|o l IH]; intros p pic Hp Hpic; [by exists p|]. cbn [draw_all foldl].
  destruct (draw_step_paints o p pic Hp Hpic) as (p1 & -> & Hp1 & M1 & D1). cbn [mbind option_bind].
  destruct (IH p1 _ Hp1 D1) as (p2 & E2 & Hp2 & M2 & D2). exists p2. split_and!; [done..|congruence|done].
Qed.

(** The colour of a place of a picture in the window. *)
Definition shade (inverted : bool) (l : bool * option Z) : Z :=
  match l.2 with
  | Some c => rgb565_to_argb8888 c
  | None => if xorb inverted l.1 then 0xFFFFFFFF else 0xFF000000
  end.

(** The same calls, with the arithmetic of the C code. *)
Definition draw_step_int (o : draw_op) p : option (panel U) :=
  match o with
  | Clear => Some (ssd1306_model_clear p)
  | Dot x y on => set_pixel_int W H x y on p
  | DotColor x y c => ssd1306_model_set_pixel_color W H x y c p
  | FillRect x y w h radius c => fill_rect_int W H x y w h radius c p
  | DrawRect x y w h radius c => draw_rect_int W H x y w h radius c p
  | FillCircle cx cy r c => fill_circle_int W H cx cy r c p
  | HLine x y w c => draw_hline_int W H x y w c p
  | TextPlain x y t => draw_text_int W H x y t p
  | TextScaled x y t scale => draw_text_scaled_int W H x y t scale p
  | TextColor x y t scale c => draw_text_color_int W H x y t scale c p
  end.

(** The coordinates of a call are such that no sum or product leaves the range of [int]: a
    shape ends below 2^31, and the radius of a disc or of the corners of a rectangle is below
    2^15 (or the corners are cut down to that by the sides). *)
Definition op_fits (o : draw_op) : Prop :=
  match o with
  | Clear | Dot _ _ _ | DotColor _ _ _ => True
  | FillRect x y w h radius _ =>
    box_fits x y w h ∧ radius < 2 ^ 30 ∧ (radius < 2 ^ 15 ∨ w < 2 ^ 16 ∨ h < 2 ^ 16)
  | DrawRect x y w h _ _ => box_fits x y w h
  | FillCircle cx cy r _ =>
    - 2 ^ 31 <= cx - r ∧ cx + r < 2 ^ 31 ∧ - 2 ^ 31 <= cy - r ∧ cy + r < 2 ^ 31 ∧ r < 2 ^ 15
  | HLine x _ w _ => - 2 ^ 31 <= x ∧ x + w < 2 ^ 31
  | TextPlain x y t => text_fits x y (blen t) 1
  | TextScaled x y t scale | TextColor x y t scale _ => text_fits x y (blen t) scale
  end.

Lemma draw_step_int_ok o p : op_fits o → draw_step_int o p = draw_step o p.
Proof.
  destruct o; cbn [op_fits draw_step_int draw_step]; intros Hf; try done.
  - apply set_pixel_int_ok.
  - destruct Hf as (? & ? & ?). by apply fill_rect_int_ok.
  - by apply draw_rect_int_ok.
  - destruct Hf as (? & ? & ? & ? & ?). by apply fill_circle_int_ok.
  - destruct Hf. by apply draw_hline_int_ok.
  - by apply draw_text_int_ok.
  - by apply text_scaled_int_ok.
  - by apply text_color_int_ok.
Qed.

Lemma draw_all_int_ok l p : Forall op_fits l → each draw_step_int l p = draw_all l p.
Proof.
  intros Hl. revert p. induction Hl as [|o l Ho _ IH]; intros p; [done|]. cbn [each draw_all].
  rewrite draw_step_int_ok by done. destruct (draw_step o p); [apply IH|done].
Qed.

(** C13: The panel is a painter's canvas.  On a panel whose buffer has less than 2^31 bytes, any sequence of drawing calls (clearing, dots, filled
    and outlined rectangles with rounded corners, discs, lines, plain, scaled and coloured text),
    on the panel, off it or across its edges, whose coordinates and sizes fit ([op_fits]: shapes
    end within the range of [int], radii are below 2^15), overflows in no calculation of the C
    code, stays inside the two buffers and leaves the panel showing the picture that the same
    strokes paint one over the other: each call changes exactly the places of its shape.
    Rendering then puts the shade of the picture at each dot of the window that is on the panel,
    and leaves the rest of the window alone.  Outside these bounds the C code overflows (the
    Examples [disc_overflows] and [line_overflows]). *)
Theorem panel_picture (l : list draw_op) (p : panel U) (pixels : list Z) (sw sh : Z) :
  Forall op_fits l → panel_ok p → 0 <= sw → 0 <= sh → blen pixels = sw * sh →
  modes p = (true, sd_inverted (g_ssd1306 p), CANARY, false) →
  ∃ p' pixels', each draw_step_int l p = Some p' ∧
    ssd1306_model_render W H (Some pixels) sw sh p' = Some (Some pixels', p') ∧
    ∀ x y, 0 <= x < sw → 0 <= y < sh →
      rd pixels' (y * sw + x) =
        if on_panel W H x y then Some (shade (sd_inverted (g_ssd1306 p)) (foldl paint (look p) l x y))
        else rd pixels (y * sw + x).
Proof.
  intros Hl Hp Hsw Hsh Hlen Hm. rewrite (draw_all_int_ok l p Hl).
  destruct (draw_all_paints l p (look p) Hp) as (p' & E & Hp' & M & D); [done|].
  rewrite Hm in M. injection M as M1 M2 M3 M4.
  destruct (render_ok sw sh Hsw Hsh p' pixels Hp' Hlen M1 M3) as (pixels' & p2 & R & _ & L); [by left|].
  assert (p2 = p') as ->.
  { unfold ssd1306_model_render in R. rewrite M1, M3, M4 in R. cbn [negb Z.eqb CANARY andb] in R.
    cbn [negb andb] in R. destruct (for_while _ _ _ _ _); [|done]. by injection R. }
  exists p', pixels'. split; [done|]. split; [done|]. intros x y Hx Hy. rewrite L by done.
  destruct (on_panel W H x y) eqn:Hon; [|done]. f_equal. unfold window_dot, shade.
  rewrite <- (D x y Hon). cbn [look fst snd]. by rewrite M2.
Qed.
End Picture.

Module PanelRuns.
(** A panel of sixteen by eight dots on a bus that keeps nothing. *)
#[local] Instance no_bus : SimI2c unit := {|
  sim_i2c_register_device _ u := u; sim_i2c_unregister_device _ u := u
|}.
Definition small : panel unit :=
  set_first false (ssd1306_model_clear (ssd1306_model_register 16 8
    (mk_panel (mk_ssd [] 0 0 0 false false 0 0 0 false 0) false (zeros 128) (zeros 128) true tt))).

Definition strokes : list draw_op :=
  [FillRect (-2) (-2) 5 5 0 0xF800; TextPlain 4 0 [73]; Dot 15 7 true; HLine 12 1 100 0x07E0].

Lemma panel_picture_witness :
  ∃ p' pixels', each (draw_step_int 16 8) strokes small = Some p' ∧
    ssd1306_model_render 16 8 (Some (zeros 200)) 20 10 p' = Some (Some pixels', p') ∧
    rd pixels' 0 = Some 0xFFFF0000 ∧ rd pixels' (7 * 20 + 15) = Some 0xFFFFFFFF ∧
    rd pixels' (9 * 20 + 15) = Some 0 ∧
    ∀ x y, 0 <= x < 20 → 0 <= y < 10 →
      rd pixels' (y * 20 + x) =
        if on_panel 16 8 x y then Some (shade false (foldl (paint 16 8) (look 16 small) strokes x y))
        else rd (zeros 200) (y * 20 + x).
Proof.
  destruct (panel_picture 16 8 ltac:(lia) ltac:(lia) ltac:(vm_compute; reflexivity) strokes small (zeros 200) 20 10)
    as (p' & pixels' & E & R & L).
  { unfold strokes, op_fits, box_fits, text_fits, is_int, blen.
    repeat constructor; cbn [length]; lia. }
  { split_and!; vm_compute; reflexivity. }
  { lia. } { lia. } { vm_compute; reflexivity. } { vm_compute; reflexivity. }
  exists p', pixels'. split; [exact E|]. split; [exact R|].
  split; [|split; [|split]]; [..|exact L].
  - change (rd pixels' 0) with (rd pixels' (0 * 20 + 0)). rewrite (L 0 0) by lia. vm_compute. reflexivity.
  - rewrite (L 15 7) by lia. vm_compute. reflexivity.
  - rewrite (L 15 9) by lia. vm_compute. reflexivity.
Defined.

(** The first sum of squares of a disc of radius 32768 is past the largest int; a line that ends
    there overflows, and so does doubling a radius of 2^30. *)
Example disc_overflows : square_sum_int (-32768) (-32768) = None.
Proof. vm_compute. reflexivity. Qed.
Example radius_overflows : draw_step_int 16 8 (FillRect 0 0 4 4 (2 ^ 30) 0) small = None.
Proof. vm_compute. reflexivity. Qed.
Example line_overflows : draw_step_int 16 8 (HLine (2 ^ 31 - 2) 0 3 0) small = None.
Proof. vm_compute. reflexivity. Qed.

(** In scaled text a capital Z is drawn with the glyph of a small x; elsewhere it is not. *)
Example scaled_Z_is_x :
  font_scaled !! 58%nat = font_scaled !! 88%nat ∧ font_text !! 58%nat ≠ font_text !! 88%nat ∧
  (∀ i, i ≠ 58%nat → font_scaled !! i = font_text !! i) ∧ font_color = font_text.
Proof.
  split; [vm_compute; reflexivity|]. split; [vm_compute; discriminate|]. split; [|vm_compute; reflexivity].
  intros i Hi.
  assert (take 58 font_scaled = take 58 font_text) as E1 by (vm_compute; reflexivity).
  assert (drop 59 font_scaled = drop 59 font_text) as E2 by (vm_compute; reflexivity).
  destruct (decide (i < 58)%nat).
  - rewrite <- (lookup_take_lt font_scaled 58), <- (lookup_take_lt font_text 58) by done. by rewrite E1.
  - replace i with (59 + (i - 59))%nat by lia. rewrite <- !lookup_drop. by rewrite E2.
Qed.

(** The argument of a command is taken as a command: setting the contrast to 0xAE turns the
    panel off. *)
Example contrast_turns_off :
  option_map (λ r, sd_display_on (g_ssd1306 r.2))
    (ssd1306_i2c_write 16 8 SSD1306_I2C_ADDR [0x00; 0x81; 0xAE] 3 small) = Some false.
Proof. vm_compute. reflexivity. Qed.

(** The column commands select a column only with a low digit of zero. *)
Example column_stays :
  option_map (λ r, sd_column (g_ssd1306 r.2))
    (ssd1306_i2c_write 16 8 SSD1306_I2C_ADDR [0x00; 0x05; 0x10] 3 small) = Some 0.
Proof. vm_compute. reflexivity. Qed.
End PanelRuns.
