(* ===== verification/FwUi.v ===== *)
(** * Drawing for the applications (apps/fw/ui.c, the build for the simulator)

    The display of an application: every call goes to the panel of Ssd1306.v once the
    display was initialised.  A pointer that may be NULL is an [option]. *)

From Stdlib Require Import ZArith Lia.
From stdpp Require Import base tactics option numbers list.
From S2P Require Import Prelude.
From S2P Require Import Runs.
From S2P Require Import Ssd1306.

Record app_display_t := mk_display { dp_initialized : bool; dp_width : Z; dp_height : Z }.

Section FwUi.
(** [APP_DISPLAY_WIDTH] and [APP_DISPLAY_HEIGHT]. *)
Context (W H : Z) {U : Type} `{SimI2c U}.
Implicit Types (p : panel U) (disp : option app_display_t).

(** [disp && disp->initialized] *)
Definition ready disp : bool := match disp with Some d => dp_initialized d | None => false end.

(** The call on the panel when the display is ready. *)
Definition when_ready disp (f : panel U → option (panel U)) p : option (panel U) :=
  if ready disp then f p else Some p.

Definition app_display_init disp p : Z * option app_display_t * panel U :=
  match disp with
  | None => (-1, None, p)
  | Some _ => (0, Some (mk_display true (u16 W) (u16 H)), ssd1306_model_register W H p)
  end.

Definition app_display_deinit disp p : panel U := p.

Definition app_display_clear disp p : panel U := if ready disp then ssd1306_model_clear p else p.

Definition app_display_text disp (x y : Z) (text : option (list Z)) : panel U → option (panel U) :=
  when_ready disp (ssd1306_model_draw_text W H x y text).

Definition app_display_pixel disp (x y : Z) (on : bool) : panel U → option (panel U) :=
  when_ready disp (ssd1306_model_set_pixel W H x y on).

Definition app_display_rect disp (x y w h : Z) (fill : bool) p : option (panel U) :=
  if negb (ready disp) || (w <=? 0) || (h <=? 0) then Some p else
  for_z y (y + h) (λ iy, for_z x (x + w) (λ ix p,
    if fill || (ix =? x) || (iy =? y) || (ix =? x + w - 1) || (iy =? y + h - 1)
    then ssd1306_model_set_pixel W H ix iy true p else Some p)) p.

Definition app_display_set_rotation disp (rot : Z) p : panel U := p.

Definition app_display_pixel_color disp (x y rgb565 : Z) : panel U → option (panel U) :=
  when_ready disp (ssd1306_model_set_pixel_color W H x y rgb565).

Definition app_display_fill_rect_color disp (x y w h radius rgb565 : Z) : panel U → option (panel U) :=
  when_ready disp (ssd1306_model_fill_rect_color W H x y w h radius rgb565).

Definition app_display_draw_rect_color disp (x y w h radius rgb565 : Z) : panel U → option (panel U) :=
  when_ready disp (ssd1306_model_draw_rect_color W H x y w h radius rgb565).

Definition app_display_fill_circle_color disp (cx cy r rgb565 : Z) : panel U → option (panel U) :=
  when_ready disp (ssd1306_model_fill_circle_color W H cx cy r rgb565).

Definition app_display_hline_color disp (x y w rgb565 : Z) : panel U → option (panel U) :=
  when_ready disp (ssd1306_model_draw_hline_color W H x y w rgb565).

Definition app_display_text_color disp (x y : Z) (text : option (list Z)) (scale rgb565 : Z)
    : panel U → option (panel U) :=
  when_ready disp (ssd1306_model_draw_text_color W H x y text scale rgb565).

Definition app_display_text_width (text : option (list Z)) (scale : Z) : Z :=
  ssd1306_model_text_width text scale.
End FwUi.
