(* ===== verification/Notify.v ===== *)
(** * Notifications (apps/notify_service.c, ardubot_keys.c)

    A ring of four cards, the phases of the one in front, and its drawing over the
    application.  The clock of the system and the foreground it wakes are given by the
    class [NotifyEnv]. *)

From Stdlib Require Import ZArith Lia.
From stdpp Require Import base tactics option numbers list.
From S2P Require Import Prelude.
From S2P Require Import CString.
From S2P Require Import Ssd1306.
From S2P Require Import FwUi.

Class NotifyEnv (E : Type) := {
  time_now_ms : E → Z;
  app_kit_wake_foreground : E → E
}.

Definition NOTIFY_TITLE_MAX : Z := 48.
Definition NOTIFY_BODY_MAX : Z := 96.
Definition NOTIFY_QUEUE_CAP : Z := 4.
Definition NOTIFY_ANIM_MS : Z := 200.
Definition NOTIFY_HOLD_MS : Z := 3000.
Definition NOTIFY_BAND_PERCENT : Z := 40.

Definition NOTIFY_RGB (r g b : Z) : Z :=
  u16 (Z.lor (Z.lor (Z.shiftl (Z.land r 0xF8) 8) (Z.shiftl (Z.land g 0xFC) 3))
         (Z.shiftr (Z.land b 0xF8) 3)).

(** ** Keys *)

Definition SIM_KEY_SYS_NEXT_APP : Z := 60.
Definition SIM_KEY_SYS_ESCAPE : Z := 61.
Definition SIM_KEY_SYS_MENU : Z := 62.
Definition SIM_KEY_CLASS_APP : Z := 0.
Definition SIM_KEY_CLASS_SYSTEM : Z := 1.
Definition sim_key_get_class (key : Z) : Z :=
  if (key =? SIM_KEY_SYS_NEXT_APP) || (key =? SIM_KEY_SYS_ESCAPE) || (key =? SIM_KEY_SYS_MENU)
  then SIM_KEY_CLASS_SYSTEM else SIM_KEY_CLASS_APP.
Definition sim_key_is_system (key : Z) : bool := sim_key_get_class key =? SIM_KEY_CLASS_SYSTEM.

(** ** Cards *)

Inductive notify_extent_t := NOTIFY_EXTENT_BAND | NOTIFY_EXTENT_FULL.
Inductive notify_phase_t := NOTIFY_PHASE_IDLE | NOTIFY_PHASE_ENTER | NOTIFY_PHASE_HOLD | NOTIFY_PHASE_EXIT.
#[export] Instance notify_phase_eq_dec : EqDecision notify_phase_t.
Proof. solve_decision. Defined.

Record notify_spec_t := mk_nspec {
  ns_title : option (list Z); ns_body : option (list Z); ns_extent : notify_extent_t;
  ns_band_percent : Z; ns_duration_ms : Z
}.

Record notify_card_t := mk_card {
  cd_title : list Z; cd_body : list Z; cd_extent : notify_extent_t; cd_band_percent : Z;
  cd_duration_ms : Z; cd_show_at : Z; cd_exit_at : Z; cd_exit_from : Z; cd_dismissed : bool
}.

Definition card_zero : notify_card_t :=
  mk_card (zeros NOTIFY_TITLE_MAX) (zeros NOTIFY_BODY_MAX) NOTIFY_EXTENT_BAND 0 0 0 0 0 false.

(** [while (i + 1 < cap && src[i])]; [src] is without its terminator. *)
Fixpoint copy_loop (dst : list Z) (i cap : Z) (src : list Z) : option (list Z) :=
  match src with
  | [] => wr dst i 0
  | c :: src => if i + 1 <? cap then dst ← wr dst i c; copy_loop dst (i + 1) cap src else wr dst i 0
  end.
Definition copy_text (dst : list Z) (cap : Z) (src : option (list Z)) : option (list Z) :=
  match src with None => wr dst 0 0 | Some src => copy_loop dst 0 cap src end.

Definition hold_ms (card : option notify_card_t) : Z :=
  match card with
  | None => NOTIFY_HOLD_MS
  | Some c => if cd_duration_ms c =? 0 then NOTIFY_HOLD_MS else cd_duration_ms c
  end.

Definition card_finished (card : option notify_card_t) (now : Z) : bool :=
  match card with
  | None => true
  | Some c =>
    if cd_dismissed c then
      if now <? cd_exit_at c then false else NOTIFY_ANIM_MS <=? u32 (now - cd_exit_at c)
    else
      if now <? cd_show_at c then false else
      let life := u32 (u32 (NOTIFY_ANIM_MS + hold_ms card) + NOTIFY_ANIM_MS) in
      life <=? u32 (now - cd_show_at c)
  end.

Section Notify.
(** The size of the panel. *)
Context (W H : Z) {U : Type} `{SimI2c U} {E : Type} `{NotifyEnv E}.

Record notify_state := mk_notify {
  g_q : list notify_card_t; g_head : Z; g_count : Z; g_started : bool; g_use_now : bool; g_now : Z;
  g_painted : bool; nt_env : E
}.
Implicit Types (s : notify_state) (p : panel U).

Definition with_queue (q : list notify_card_t) (head count : Z) s : notify_state :=
  mk_notify q head count (g_started s) (g_use_now s) (g_now s) (g_painted s) (nt_env s).
Definition with_painted (b : bool) s : notify_state :=
  mk_notify (g_q s) (g_head s) (g_count s) (g_started s) (g_use_now s) (g_now s) b (nt_env s).
Definition with_nt_env (e : E) s : notify_state :=
  mk_notify (g_q s) (g_head s) (g_count s) (g_started s) (g_use_now s) (g_now s) (g_painted s) e.

Definition notify_now s : Z := if g_use_now s then g_now s else time_now_ms (nt_env s).

Definition text_scale : Z := if 64 <? H then 2 else 1.
Definition text_line : Z := 8 * text_scale.

(** The card in front; the inner [None] is the NULL of an empty queue. *)
Definition current_card s : option (option notify_card_t) :=
  if g_count s <=? 0 then Some None else c ← rd (g_q s) (g_head s); Some (Some c).

(** The width and the height. *)
Definition card_size (card : option notify_card_t) : Z * Z :=
  (W,
   match card with
   | None => H
   | Some c =>
     match cd_extent c with
     | NOTIFY_EXTENT_FULL => H
     | NOTIFY_EXTENT_BAND =>
       let percent := if cd_band_percent c =? 0 then NOTIFY_BAND_PERCENT else cd_band_percent c in
       let percent := if 100 <? percent then 100 else percent in
       let height := Z.quot (H * percent) 100 in
       let height := if height <? text_line then text_line else height in
       if H <? height then H else height
     end
   end).

Definition restart (now : Z) (c : notify_card_t) : notify_card_t :=
  mk_card (cd_title c) (cd_body c) (cd_extent c) (cd_band_percent c) (cd_duration_ms c) now 0 0 false.

Definition pop_card (now : Z) s : option notify_state :=
  if g_count s <=? 0 then Some s else
  let head := Z.rem (g_head s + 1) NOTIFY_QUEUE_CAP in
  let count := g_count s - 1 in
  if 0 <? count then
    c ← rd (g_q s) head;
    q ← wr (g_q s) head (restart now c);
    Some (with_queue q head count s)
  else Some (with_queue (g_q s) head count s).

Definition notify_service_set_now_ms (ms : Z) s : notify_state :=
  mk_notify (g_q s) (g_head s) (g_count s) (g_started s) true ms (g_painted s) (nt_env s).

Definition notify_service_start s : Z * notify_state :=
  (0, mk_notify (replicate (Z.to_nat NOTIFY_QUEUE_CAP) card_zero) 0 0 true false 0 false (nt_env s)).

Definition notify_post (spec : option notify_spec_t) s : option (Z * notify_state) :=
  match spec with
  | None => Some (-1, s)
  | Some sp =>
    if negb (g_started s) then Some (-1, s) else
    match ns_title sp with
    | None => Some (-1, s)
    | Some title =>
      if str_eq title [] then Some (-1, s) else
      if NOTIFY_QUEUE_CAP <=? g_count s then Some (-1, s) else
      let index := Z.rem (g_head s + g_count s) NOTIFY_QUEUE_CAP in
      t ← copy_text (cd_title card_zero) NOTIFY_TITLE_MAX (Some title);
      b ← copy_text (cd_body card_zero) NOTIFY_BODY_MAX (ns_body sp);
      let show_at := if g_count s =? 0 then notify_now s else 0 in
      q ← wr (g_q s) index
            (mk_card t b (ns_extent sp) (ns_band_percent sp) (ns_duration_ms sp) show_at 0 0 false);
      let s := with_queue q (g_head s) (g_count s + 1) s in
      Some (0, with_nt_env (app_kit_wake_foreground (nt_env s)) s)
    end
  end.

(** The loop of the pump: a round takes a card away. *)
Fixpoint pump_loop (fuel : nat) (now : Z) s : option notify_state :=
  if 0 <? g_count s then
    c ← current_card s;
    if card_finished c now then
      match fuel with O => None | S fuel => s ← pop_card now s; pump_loop fuel now s end
    else Some s
  else Some s.

Definition notify_service_pump s : option notify_state :=
  if negb (g_started s) then Some s else pump_loop (Z.to_nat (g_count s)) (notify_now s) s.

Definition notify_service_phase s : option notify_phase_t :=
  card ← current_card s;
  match card with
  | None => Some NOTIFY_PHASE_IDLE
  | Some c =>
    let now := notify_now s in
    if cd_dismissed c then Some NOTIFY_PHASE_EXIT else
    let enter_end := u32 (cd_show_at c + NOTIFY_ANIM_MS) in
    let hold_end := u32 (enter_end + hold_ms card) in
    if now <? enter_end then Some NOTIFY_PHASE_ENTER else
    if now <? hold_end then Some NOTIFY_PHASE_HOLD else Some NOTIFY_PHASE_EXIT
  end.

(** The offset of a card of the height [h]. *)
Definition card_offset (h now : Z) (c : notify_card_t) : Z :=
  if cd_dismissed c then
    if now <? cd_exit_at c then cd_exit_from c else
    let elapsed := u32 (now - cd_exit_at c) in
    let target := - h in
    if NOTIFY_ANIM_MS <=? elapsed then target else
    let delta := target - cd_exit_from c in
    cd_exit_from c + Z.quot (delta * elapsed) NOTIFY_ANIM_MS
  else
    let enter_end := u32 (cd_show_at c + NOTIFY_ANIM_MS) in
    let hold_end := u32 (enter_end + hold_ms (Some c)) in
    if now <? cd_show_at c then - h else
    if now <? enter_end then
      let elapsed := u32 (now - cd_show_at c) in - h + Z.quot (h * elapsed) NOTIFY_ANIM_MS else
    if now <? hold_end then 0 else
    let elapsed := u32 (now - hold_end) in
    if NOTIFY_ANIM_MS <=? elapsed then - h else Z.quot (- (h * elapsed)) NOTIFY_ANIM_MS.

Definition notify_service_slide_offset s : option Z :=
  card ← current_card s;
  match card with
  | None => Some 0
  | Some c => Some (card_offset (snd (card_size card)) (notify_now s) c)
  end.

Definition notify_service_card_rect s : option (Z * Z) :=
  card ← current_card s;
  match card with None => Some (0, 0) | Some _ => Some (card_size card) end.

Definition notify_service_title s : option (option (list Z)) :=
  card ← current_card s; Some (option_map cd_title card).

Definition notify_service_needs_present s : option bool :=
  phase ← notify_service_phase s;
  Some (match phase with
        | NOTIFY_PHASE_ENTER | NOTIFY_PHASE_EXIT => true
        | NOTIFY_PHASE_IDLE => g_painted s
        | NOTIFY_PHASE_HOLD => false
        end).

Definition dismiss (from at_ms : Z) (c : notify_card_t) : notify_card_t :=
  mk_card (cd_title c) (cd_body c) (cd_extent c) (cd_band_percent c) (cd_duration_ms c) (cd_show_at c)
    at_ms from true.

Definition notify_service_on_key (key : Z) (pressed : bool) s : option (bool * notify_state) :=
  phase ← notify_service_phase s;
  if sim_key_is_system key || bool_decide (phase = NOTIFY_PHASE_IDLE) then Some (false, s) else
  if negb pressed then Some (true, s) else
  card ← current_card s;
  match card with
  | None => Some (true, s)
  | Some c =>
    if cd_dismissed c then Some (true, s) else
    from ← notify_service_slide_offset s;
    q ← wr (g_q s) (g_head s) (dismiss from (notify_now s) c);
    Some (true, with_queue q (g_head s) (g_count s) s)
  end.

(** ** Drawing *)

Definition fill_clipped (disp : option app_display_t) (x y w h color : Z) p : option (panel U) :=
  if (w <=? 0) || (h <=? 0) then Some p else
  let (x, w) := if x <? 0 then (0, w + x) else (x, w) in
  let (y, h) := if y <? 0 then (0, h + y) else (y, h) in
  if (w <=? 0) || (h <=? 0) || (W <=? x) || (H <=? y) then Some p else
  let w := if W <? x + w then W - x else w in
  let h := if H <? y + h then H - y else h in
  app_display_fill_rect_color W H disp x y w h 0 color p.

(** [text] is the string in the array. *)
Definition draw_line (disp : option app_display_t) (y : Z) (text : list Z) (scale color : Z) p
    : option (panel U) :=
  if str_eq text [] then Some p else
  let line_h := 8 * scale in
  if (y <? 0) || (H <? y + line_h) then Some p else
  let tw := app_display_text_width (Some text) scale in
  let x := Z.quot (W - tw) 2 in
  let x := if x <? 0 then 0 else x in
  app_display_text_color W H disp x y (Some text) scale color p.

(** Where the text goes on a card of the height [h] at [offset]: the row of the first line,
    and whether there are two. *)
Definition text_place (offset h : Z) (body : list Z) : Z * bool :=
  let cap_h := if text_line + 8 <=? h then 4 else 0 in
  let gap := text_scale in
  let inner_top := offset + cap_h + 2 in
  let inner_h := h - cap_h - 4 in
  let (inner_top, inner_h) :=
    if inner_h <? text_line then (offset + Z.quot (h - text_line) 2, text_line) else (inner_top, inner_h) in
  let two := negb (str_eq body []) && (text_line * 2 + gap <=? inner_h) in
  let block := if two then text_line * 2 + gap else text_line in
  (if block <? inner_h then inner_top + Z.quot (inner_h - block) 2 else inner_top, two).

Definition notify_service_composite (disp : option app_display_t) s p
    : option (notify_state * panel U) :=
  let card_color := NOTIFY_RGB 255 186 48 in
  let cap_color := NOTIFY_RGB 40 18 0 in
  let text_color := NOTIFY_RGB 24 12 0 in
  phase ← notify_service_phase s;
  if bool_decide (phase = NOTIFY_PHASE_IDLE) then Some (with_painted false s, p) else
  let s := with_painted true s in
  card ← current_card s;
  match card with
  | None => Some (s, p)
  | Some c =>
    if negb (ready disp) then Some (s, p) else
    let (w, h) := card_size card in
    offset ← notify_service_slide_offset s;
    p ← fill_clipped disp 0 offset w h card_color p;
    let cap_h := if text_line + 8 <=? h then 4 else 0 in
    p ← (if 0 <? cap_h then fill_clipped disp 0 offset w cap_h cap_color p else Some p);
    let (text_y, two) := text_place offset h (c_str (cd_body c)) in
    p ← draw_line disp text_y (c_str (cd_title c)) text_scale text_color p;
    p ← (if two : bool
         then draw_line disp (text_y + text_line + text_scale) (c_str (cd_body c)) text_scale text_color p
         else Some p);
    Some (s, p)
  end.

(** ** The frame

    [app_display_flush] of fw/ui.c: the header, the notification, the window. *)
Definition app_display_flush (header_app_composite : option app_display_t → panel U → option (panel U))
    (sim_pixels : option (list Z)) (sim_w sim_h : Z) (disp : option app_display_t) s p
    : option (option (list Z) * notify_state * panel U) :=
  if ready disp then
    p ← header_app_composite disp p;
    '(s, p) ← notify_service_composite disp s p;
    '(sim_pixels, p) ← ssd1306_model_render W H sim_pixels sim_w sim_h p;
    Some (sim_pixels, s, p)
  else Some (sim_pixels, s, p).
End Notify.
Arguments notify_state : clear implicits.
