(* ===== verification/NotifyThm.v ===== *)
(** * Notifications are a queue of cards *)

From Stdlib Require Import ZArith Lia.
From stdpp Require Import base tactics option numbers list.
From S2P Require Import Prelude.
From S2P Require Import CString.
From S2P Require Import Runs.
From S2P Require Import Tables.
From S2P Require Import Ssd1306.
From S2P Require Import Ssd1306Thm.
From S2P Require Import FwUi.
From S2P Require Import Notify.

(** Copying a text into a cleared array. *)
Definition copied (k : nat) (src : list Z) : list Z :=
  take (k - 1) src ++ replicate (k - length (take (k - 1) src)) 0.

Lemma copy_loop_ok (a : list Z) k cap src :
  (0 < k)%nat → cap = blen a + Z.of_nat k →
  copy_loop (a ++ replicate k 0) (blen a) cap src = Some (a ++ copied k src).
Proof.
  revert a k. induction src as [|x src IH]; intros a k Hk Hcap; destruct k as [|k]; [lia| |lia|];
    cbn [copy_loop replicate].
  - rewrite wr_app_l. unfold copied. by rewrite take_nil.
  - destruct k as [|k].
    + rewrite (proj2 (Z.ltb_ge _ _)) by lia. by rewrite wr_app_l.
    + rewrite (proj2 (Z.ltb_lt _ _)) by lia. rewrite wr_app_l. cbn [mbind option_bind].
      change (x :: replicate (S k) 0) with ([x] ++ replicate (S k) 0). rewrite app_assoc.
      replace (blen a + 1) with (blen (a ++ [x])) by (by rewrite blen_app, blen_cons, blen_nil; lia).
      rewrite IH; [|lia|rewrite blen_app, blen_cons, blen_nil; lia]. f_equal.
      rewrite <- app_assoc. do 2 f_equal. unfold copied. cbn. rewrite Nat.sub_0_r. done.
Qed.

Lemma copy_text_ok k src :
  (0 < k)%nat →
  copy_text (zeros (Z.of_nat k)) (Z.of_nat k) src = Some (copied k (default [] src)).
Proof.
  intros Hk. unfold zeros. rewrite Nat2Z.id. destruct src as [src|]; cbn [copy_text default from_option].
  - apply (copy_loop_ok [] k); [done|]. rewrite blen_nil. lia.
  - destruct k as [|k]; [lia|]. unfold copied. by rewrite take_nil.
Qed.

Lemma copied_length k src : (0 < k)%nat → length (copied k src) = k.
Proof. intros. unfold copied. rewrite length_app, length_replicate, length_take. lia. Qed.

Lemma copied_text k src : is_cstr src → (0 < k)%nat → c_str (copied k src) = take (k - 1) src.
Proof.
  intros Hs Hk. unfold copied. rewrite c_str_app by by apply is_cstr_take.
  rewrite <- (app_nil_r (replicate _ 0)), c_str_zeros by (rewrite length_take; lia). apply app_nil_r.
Qed.

Section NotifyThm.
Context (W H : Z) {E : Type} `{NotifyEnv E}.
Context (HH : 8 <= H).
Implicit Types (s : notify_state E) (c : notify_card_t) (q : list notify_card_t) (now : Z).

(** The height of a card. *)
Definition height c : Z := snd (card_size W H (Some c)).

Lemma line_bounds : 0 < text_line H <= H.
Proof. unfold text_line, text_scale. destruct (64 <? H) eqn:E1; [apply Z.ltb_lt in E1|]; lia. Qed.

Lemma height_bounds c : 0 <= cd_band_percent c → text_line H <= height c <= H.
Proof.
  intros Hp. pose proof line_bounds as Hl. unfold height, card_size. cbn [snd].
  destruct (cd_extent c); [|lia].
  repeat match goal with |- context [if ?a <? ?b then _ else _] => destruct (Z.ltb_spec a b) end; lia.
Qed.

(** Every card of the queue: texts that end, and an offset between hidden and shown. *)
Definition card_ok c : Prop :=
  length (cd_title c) = 48%nat ∧ length (cd_body c) = 96%nat ∧
  (length (c_str (cd_title c)) < 48)%nat ∧ (length (c_str (cd_body c)) < 96)%nat ∧
  0 <= cd_band_percent c ∧ 0 <= cd_duration_ms c < 2 ^ 32 - 400 ∧ is_u32 (cd_show_at c) ∧
  - height c <= cd_exit_from c <= 0.

Definition queue s : list notify_card_t := ring (g_q s) (g_head s) (g_count s).

Definition notify_inv s : Prop :=
  length (g_q s) = 4%nat ∧ 0 <= g_head s < 4 ∧ 0 <= g_count s <= 4 ∧ Forall card_ok (queue s).

Lemma inv_ring s : notify_inv s → ring_ok 4 (g_q s) (g_head s) (g_count s).
Proof. intros (Hl & Hh & Hc & _). split; [unfold blen; lia|done]. Qed.

Lemma queue_length s : notify_inv s → length (queue s) = Z.to_nat (g_count s).
Proof. intros Hs. by apply (ring_length 4), inv_ring. Qed.

(** The card in front. *)
Lemma front s :
  notify_inv s →
  match queue s with
  | [] => g_count s = 0 ∧ current_card s = Some None
  | c :: _ => 0 < g_count s ∧ current_card s = Some (Some c) ∧ rd (g_q s) (g_head s) = Some c
  end.
Proof.
  intros Hs. pose proof (ring_front 4 _ _ _ (inv_ring s Hs)) as Hf. fold (queue s) in Hf.
  unfold current_card. destruct (queue s) as [|c r].
  - split; [done|]. by rewrite Hf.
  - destruct Hf as [Hc Ec]. rewrite (proj2 (Z.leb_gt _ 0)), Ec by lia. done.
Qed.

(** Writing the card in front. *)
Lemma queue_set_front s c c' r :
  notify_inv s → queue s = c :: r →
  ∃ q', wr (g_q s) (g_head s) c' = Some q' ∧ length q' = 4%nat ∧
    queue (with_queue q' (g_head s) (g_count s) s) = c' :: r.
Proof.
  intros Hs Eq. destruct (ring_set 4 _ _ _ c c' r (inv_ring s Hs) Eq) as (q' & Ew & (Hl & _) & Er).
  exists q'. split; [done|]. split; [unfold blen in Hl; lia|done].
Qed.

(** Taking the card in front away. *)
Lemma queue_next s c r :
  notify_inv s → queue s = c :: r →
  queue (with_queue (g_q s) (Z.rem (g_head s + 1) 4) (g_count s - 1) s) = r ∧
  0 <= Z.rem (g_head s + 1) 4 < 4.
Proof.
  intros Hs Eq. by destruct (ring_pop 4 _ _ _ c r (inv_ring s Hs) Eq) as [(_ & Hh & _) Er].
Qed.

(** A new card at the end. *)
Lemma queue_post s c :
  notify_inv s → g_count s < 4 →
  ∃ q', wr (g_q s) (Z.rem (g_head s + g_count s) 4) c = Some q' ∧ length q' = 4%nat ∧
    queue (with_queue q' (g_head s) (g_count s + 1) s) = queue s ++ [c].
Proof.
  intros Hs Hlt. destruct (ring_push 4 _ _ _ c (inv_ring s Hs) Hlt) as (q' & Ew & (Hl & _) & Er).
  exists q'. split; [done|]. split; [unfold blen in Hl; lia|done].
Qed.

(** ** The offset stays between hidden and shown *)

Lemma quot_between a b e : 0 <= a → 0 <= e <= b → 0 < b → 0 <= Z.quot (a * e) b <= a.
Proof.
  intros Ha He Hb. rewrite Z.quot_div_nonneg by nia. split; [apply Z.div_pos; nia|].
  apply Z.div_le_upper_bound; nia.
Qed.

Lemma offset_bounds now c : card_ok c → 0 <= now → - height c <= card_offset (height c) now c <= 0.
Proof.
  intros (_ & _ & _ & _ & Hp & _ & [Ht0 Ht] & Hf) Hnow. pose proof (height_bounds c Hp) as Hh. pose proof line_bounds as Hl.
  assert (∀ z, 0 <= u32 z) as Hu by (intros z; apply wrap_in_w; lia).
  unfold card_offset, NOTIFY_ANIM_MS. cbv zeta.
  destruct (cd_dismissed c).
  - destruct (now <? cd_exit_at c); [lia|].
    destruct (Z.leb_spec 200 (u32 (now - cd_exit_at c))) as [|He]; [lia|].
    specialize (Hu (now - cd_exit_at c)).
    pose proof (quot_between (height c + cd_exit_from c) 200 (u32 (now - cd_exit_at c)) ltac:(lia) ltac:(lia) ltac:(lia)) as Hq.
    replace ((- height c - cd_exit_from c) * u32 (now - cd_exit_at c))
      with (- ((height c + cd_exit_from c) * u32 (now - cd_exit_at c))) by lia.
    rewrite Z.quot_opp_l by lia. lia.
  - destruct (Z.ltb_spec now (cd_show_at c)) as [|Hs]; [lia|].
    destruct (Z.ltb_spec now (u32 (cd_show_at c + 200))) as [He|He].
    + assert (0 <= u32 (now - cd_show_at c) <= 200) as Hq.
      { destruct (Z.lt_ge_cases (cd_show_at c + 200) (2 ^ 32)) as [Hb|Hb].
        - rewrite wrap_id in He by (split; lia). rewrite wrap_id by (split; lia). lia.
        - unfold wrap in He. rewrite <- (Z.mod_add _ (-1)) in He by lia. rewrite Z.mod_small in He by lia. lia. }
      pose proof (quot_between (height c) 200 (u32 (now - cd_show_at c)) ltac:(lia) Hq ltac:(lia)). lia.
    + destruct (now <? _); [lia|].
      destruct (Z.leb_spec 200 (u32 (now - u32 (u32 (cd_show_at c + 200) + hold_ms (Some c))))) as [|Hl200]; [lia|].
      set (e := u32 (now - u32 (u32 (cd_show_at c + 200) + hold_ms (Some c)))) in *.
      assert (0 <= e <= 200) as He' by (split; [apply Hu|lia]).
      pose proof (quot_between (height c) 200 e ltac:(lia) He' ltac:(lia)).
      rewrite Z.quot_opp_l by lia. lia.
Qed.

(** ** The queue as a list *)

Record notices := mk_notices {
  n_cards : list notify_card_t; n_started : bool; n_use_now : bool; n_now : Z; n_painted : bool; n_env : E
}.
Implicit Types (n : notices).

(** A card with its texts as strings. *)
Definition said c : notify_card_t :=
  mk_card (c_str (cd_title c)) (c_str (cd_body c)) (cd_extent c) (cd_band_percent c) (cd_duration_ms c)
    (cd_show_at c) (cd_exit_at c) (cd_exit_from c) (cd_dismissed c).
Definition abs s : notices :=
  mk_notices (map said (queue s)) (g_started s) (g_use_now s) (g_now s) (g_painted s) (nt_env s).

Definition with_cards l n : notices :=
  mk_notices l (n_started n) (n_use_now n) (n_now n) (n_painted n) (n_env n).
Definition n_time n : Z := if n_use_now n then n_now n else time_now_ms (n_env n).

Inductive notify_op :=
  | SetNow (ms : Z) | Start | Post (spec : option notify_spec_t) | Pump | Key (key : Z) (pressed : bool) | Look.
Inductive notify_res :=
  | RDone | RCode (code : Z) | RTaken (taken : bool)
  | RSeen (phase : notify_phase_t) (offset : Z) (title : option (list Z)) (needs_present : bool).

Definition op_ok (o : notify_op) : Prop :=
  match o with
  | SetNow ms => is_u32 ms
  | Post (Some sp) =>
    is_cstr (default [] (ns_title sp)) ∧ is_cstr (default [] (ns_body sp)) ∧ 0 <= ns_band_percent sp ∧
    0 <= ns_duration_ms sp < 2 ^ 32 - 400
  | _ => True
  end.

(** The service. *)
Definition step (o : notify_op) s : option (notify_res * notify_state E) :=
  match o with
  | SetNow ms => Some (RDone, notify_service_set_now_ms ms s)
  | Start => let (r, s) := notify_service_start s in Some (RCode r, s)
  | Post sp => '(r, s) ← notify_post sp s; Some (RCode r, s)
  | Pump => s ← notify_service_pump s; Some (RDone, s)
  | Key key pressed => '(b, s) ← notify_service_on_key W H key pressed s; Some (RTaken b, s)
  | Look =>
    phase ← notify_service_phase s; offset ← notify_service_slide_offset W H s;
    title ← notify_service_title s; needs ← notify_service_needs_present s;
    Some (RSeen phase offset (option_map c_str title) needs, s)
  end.

(** The phase of a card in front. *)
Definition card_phase now c : notify_phase_t :=
  if cd_dismissed c then NOTIFY_PHASE_EXIT else
  if now <? u32 (cd_show_at c + NOTIFY_ANIM_MS) then NOTIFY_PHASE_ENTER else
  if now <? u32 (u32 (cd_show_at c + NOTIFY_ANIM_MS) + hold_ms (Some c)) then NOTIFY_PHASE_HOLD
  else NOTIFY_PHASE_EXIT.

(** The same over a list: a post is an append, a pump takes at most the front away. *)
Definition spec_post (spec : option notify_spec_t) n : Z * notices :=
  match spec with
  | Some (mk_nspec (Some ((_ :: _) as title)) body extent percent duration) =>
    if n_started n && bool_decide (length (n_cards n) < 4)%nat then
      let show_at := match n_cards n with [] => n_time n | _ => 0 end in
      let c := mk_card (take 47 title) (take 95 (default [] body)) extent percent duration show_at 0 0 false in
      let n := with_cards (n_cards n ++ [c]) n in
      (0, mk_notices (n_cards n) (n_started n) (n_use_now n) (n_now n) (n_painted n)
            (app_kit_wake_foreground (n_env n)))
    else (-1, n)
  | _ => (-1, n)
  end.

Definition spec_pump n : notices :=
  match n_cards n with
  | c :: r =>
    if n_started n && card_finished (Some c) (n_time n) then
      with_cards match r with [] => [] | c' :: r => restart (n_time n) c' :: r end n
    else n
  | [] => n
  end.

Definition spec_key (key : Z) (pressed : bool) n : bool * notices :=
  match n_cards n with
  | c :: r =>
    if sim_key_is_system key then (false, n) else
    (true, if pressed && negb (cd_dismissed c)
           then with_cards (dismiss (card_offset (height c) (n_time n) c) (n_time n) c :: r) n else n)
  | [] => (false, n)
  end.

Definition spec_look n : notify_res :=
  match n_cards n with
  | c :: _ =>
    let phase := card_phase (n_time n) c in
    RSeen phase (card_offset (height c) (n_time n) c) (Some (cd_title c))
      (bool_decide (phase ≠ NOTIFY_PHASE_HOLD))
  | [] => RSeen NOTIFY_PHASE_IDLE 0 None (n_painted n)
  end.

Definition spec (o : notify_op) n : option (notify_res * notices) :=
  match o with
  | SetNow ms => Some (RDone, mk_notices (n_cards n) (n_started n) true ms (n_painted n) (n_env n))
  | Start => Some (RCode 0, mk_notices [] true false 0 false (n_env n))
  | Post sp => let (r, n) := spec_post sp n in Some (RCode r, n)
  | Pump => Some (RDone, spec_pump n)
  | Key key pressed => let (b, n) := spec_key key pressed n in Some (RTaken b, n)
  | Look => Some (spec_look n, n)
  end.

Context (Htime : ∀ e : E, is_u32 (time_now_ms e)).

Definition state_inv s : Prop := notify_inv s ∧ (g_started s = false → g_count s = 0) ∧ is_u32 (g_now s).

Lemma now_u32 s : state_inv s → is_u32 (notify_now s).
Proof. intros (_ & _ & Hn). unfold notify_now. by destruct (g_use_now s). Qed.

Lemma restart_ok now c : card_ok c → is_u32 now → card_ok (restart now c).
Proof.
  intros (T & B & Ts & Bs & P & D & _ & _) Hn.
  assert (- height (restart now c) <= 0 <= 0) as Hx.
  { pose proof (height_bounds c P). pose proof line_bounds. change (height (restart now c)) with (height c). lia. }
  exact (conj T (conj B (conj Ts (conj Bs (conj P (conj D (conj Hn Hx))))))).
Qed.

Lemma dismiss_ok from now c : card_ok c → - height c <= from <= 0 → card_ok (dismiss from now c).
Proof.
  intros (T & B & Ts & Bs & P & D & S & _) Hx.
  exact (conj T (conj B (conj Ts (conj Bs (conj P (conj D (conj S Hx))))))).
Qed.

(** A card just restarted is not finished. *)
Lemma restarted_stays now c : card_ok c → card_finished (Some (restart now c)) now = false.
Proof.
  intros (_ & _ & _ & _ & _ & Hd & _). cbn [card_finished cd_dismissed restart cd_show_at].
  rewrite Z.ltb_irrefl, Z.sub_diag. apply Z.leb_gt. rewrite (wrap_id 32 0) by (split; lia).
  assert (0 < hold_ms (Some (restart now c)) < 2 ^ 32 - 400) as Hh.
  { cbn [hold_ms restart cd_duration_ms]. unfold NOTIFY_HOLD_MS.
    destruct (Z.eqb_spec (cd_duration_ms c) 0); lia. }
  unfold NOTIFY_ANIM_MS. rewrite (wrap_id 32 (200 + _)) by (split; lia). rewrite wrap_id by (split; lia). lia.
Qed.

(** What an operation that keeps the clock and the flag and turns the queue into [l] has
    to show. *)
Definition becomes s (l : list notify_card_t) s' : Prop :=
  ∃ q h k, s' = with_queue q h k s ∧ length q = 4%nat ∧ 0 <= h < 4 ∧ 0 <= k <= 4 ∧
    (g_started s = false → k = 0) ∧ queue s' = l.

Lemma becomes_ok s l s' :
  state_inv s → becomes s l s' → Forall card_ok l →
  state_inv s' ∧ abs s' = with_cards (map said l) (abs s).
Proof.
  intros (Hq & Hc & Hn) (q & h & k & -> & Hl & Hh & Hk & Hs & El) Hok. rewrite <- El in Hok.
  split; [exact (conj (conj Hl (conj Hh (conj Hk Hok))) (conj Hs Hn))|]. unfold abs, with_cards. cbn. by rewrite El.
Qed.

Lemma abs_time s : n_time (abs s) = notify_now s.
Proof. done. Qed.

Lemma pop_ok s c r :
  state_inv s → queue s = c :: r →
  ∃ s', pop_card (notify_now s) s = Some s' ∧
    becomes s match r with [] => [] | c' :: r => restart (notify_now s) c' :: r end s'.
Proof.
  intros (Hq & Hcs & Hn) Eq. pose proof (queue_length s Hq) as Hlen. rewrite Eq in Hlen. cbn [length] in Hlen.
  destruct (queue_next s c r Hq Eq) as [En Hh]. pose proof Hq as (Hl & Hh0 & Hc & Hok). rewrite Eq in Hok.
  assert (notify_inv (with_queue (g_q s) (Z.rem (g_head s + 1) 4) (g_count s - 1) s)) as Hq1.
  { split; [done|]. split; [done|]. cbn [g_count with_queue]. split; [lia|]. rewrite En. by inversion Hok. }
  unfold pop_card, NOTIFY_QUEUE_CAP. rewrite (proj2 (Z.leb_gt _ 0)) by lia. cbv zeta.
  pose proof (front _ Hq1) as Hf. rewrite En in Hf. destruct r as [|c' r]; cbn [length] in Hlen.
  - rewrite (proj2 (Z.ltb_ge 0 _)) by lia. eexists. split; [done|]. do 3 eexists. split; [done|].
    repeat split; auto; lia.
  - rewrite (proj2 (Z.ltb_lt 0 _)) by lia. destruct Hf as (_ & _ & Ef). cbn [g_q g_head with_queue] in Ef.
    rewrite Ef. cbn [mbind option_bind].
    destruct (queue_set_front _ c' (restart (notify_now s) c') r Hq1 En) as (q' & Ew & Hl' & Eq').
    cbn [g_q g_head g_count with_queue] in Ew, Eq'. rewrite Ew. cbn [mbind option_bind].
    eexists. split; [done|]. do 3 eexists. split; [done|]. split; [done|]. split; [done|]. split; [lia|].
    split; [|exact Eq']. intros E1. specialize (Hcs E1). lia.
Qed.

Lemma said_finished c now : card_finished (Some (said c)) now = card_finished (Some c) now.
Proof. done. Qed.

(** A pump takes one card at most: the clock of the next one starts at the moment of the
    pump. *)
Lemma pump_ok s :
  state_inv s → ∃ s', notify_service_pump s = Some s' ∧ state_inv s' ∧ abs s' = spec_pump (abs s).
Proof.
  intros Hs. pose proof Hs as (Hq & Hcs & _). pose proof (front s Hq) as Hf. pose proof (queue_length s Hq) as Hlen.
  unfold notify_service_pump, spec_pump. cbn [n_cards abs n_started]. rewrite abs_time.
  destruct (g_started s) eqn:Est; cbn [negb andb].
  2:{ exists s. split; [done|]. split; [done|]. by destruct (map said (queue s)). }
  destruct (queue s) as [|c r] eqn:Eq; cbn [map length] in *.
  { destruct Hf as [E0 _]. exists s. split; [|done].
    rewrite E0. change (Z.to_nat 0) with 0%nat. cbn [pump_loop]. by rewrite E0. }
  destruct Hf as (Hc & Ec & _). destruct (Z.to_nat (g_count s)) as [|fuel] eqn:Ef; [lia|].
  cbn [pump_loop]. rewrite (proj2 (Z.ltb_lt 0 _)) by lia. rewrite Ec. cbn [mbind option_bind].
  rewrite said_finished. destruct (card_finished (Some c) (notify_now s)).
  2:{ by exists s. }
  destruct (pop_ok s c r Hs Eq) as (s' & Ep & Hb). rewrite Ep. cbn [mbind option_bind].
  pose proof Hq as (_ & _ & _ & Hok). rewrite Eq in Hok. apply Forall_cons_1 in Hok as [_ Hok].
  assert (Forall card_ok match r with [] => [] | c' :: r => restart (notify_now s) c' :: r end) as Hok'.
  { destruct r as [|c' r]; [done|]. apply Forall_cons_1 in Hok as [Hc' Hok].
    constructor; [|done]. apply restart_ok; [done|]. by apply now_u32. }
  destruct (becomes_ok s _ s' Hs Hb Hok') as [Hs' Ha]. exists s'. split; [|split; [done|]].
  - pose proof Hs' as (Hq' & _ & _). pose proof (front s' Hq') as Hf'. pose proof (queue_length s' Hq') as Hlen'.
    destruct Hb as (q & h & k & -> & _ & _ & _ & _ & El). rewrite El in Hf', Hlen'.
    destruct r as [|c' r]; cbn [length] in *.
    + destruct Hf' as [E0 _]. destruct fuel; cbn [pump_loop]; by rewrite E0.
    + destruct Hf' as (Hc' & Ec' & _). destruct fuel as [|fuel]; cbn [pump_loop];
        rewrite (proj2 (Z.ltb_lt 0 _)), Ec' by lia; cbn [mbind option_bind];
        apply Forall_cons_1 in Hok as [Hok _]; by rewrite restarted_stays.
  - rewrite Ha. by destruct r.
Qed.

Lemma new_card_ok title body extent percent duration show_at :
  is_cstr title → is_cstr body → 0 <= percent → 0 <= duration < 2 ^ 32 - 400 → is_u32 show_at →
  card_ok (mk_card (copied 48 title) (copied 96 body) extent percent duration show_at 0 0 false).
Proof.
  intros Ht Hb Hp Hd Hs.
  assert (length (c_str (copied 48 title)) < 48)%nat as Ht'
    by (rewrite copied_text, length_take by (done || lia); lia).
  assert (length (c_str (copied 96 body)) < 96)%nat as Hb'
    by (rewrite copied_text, length_take by (done || lia); lia).
  assert (- height (mk_card (copied 48 title) (copied 96 body) extent percent duration show_at 0 0 false)
          <= 0 <= 0) as Hx.
  { pose proof line_bounds. pose proof (height_bounds
      (mk_card (copied 48 title) (copied 96 body) extent percent duration show_at 0 0 false) Hp). lia. }
  exact (conj (copied_length 48 title ltac:(lia)) (conj (copied_length 96 body ltac:(lia))
    (conj Ht' (conj Hb' (conj Hp (conj Hd (conj Hs Hx))))))).
Qed.

Lemma post_ok sp s :
  op_ok (Post sp) → state_inv s →
  ∃ r s', notify_post sp s = Some (r, s') ∧ state_inv s' ∧ spec_post sp (abs s) = (r, abs s').
Proof.
  intros Hsp Hs. pose proof Hs as (Hq & Hcs & Hn). pose proof (queue_length s Hq) as Hlen.
  pose proof Hq as (Hl & Hh & Hc & Hok). destruct sp as [[title body extent percent duration]|]; [|by eauto 10].
  cbn in Hsp. destruct Hsp as (Ht & Hb & Hp & Hd).
  cbn [notify_post spec_post ns_title ns_body ns_extent ns_band_percent ns_duration_ms abs n_started n_cards].
  destruct title as [[|ch title]|]; [by destruct (g_started s); eauto 10| |by destruct (g_started s); eauto 10].
  destruct (g_started s) eqn:Est; [|by eauto 10]. cbn [negb andb]. unfold str_eq.
  rewrite bool_decide_eq_false_2 by done. rewrite length_map, Hlen. unfold NOTIFY_QUEUE_CAP.
  destruct (Z.leb_spec 4 (g_count s)) as [Hf|Hf].
  { rewrite bool_decide_eq_false_2 by lia. eauto 10. }
  rewrite bool_decide_eq_true_2 by lia. cbv zeta.
  unfold NOTIFY_TITLE_MAX, NOTIFY_BODY_MAX, card_zero. cbn [cd_title cd_body].
  rewrite (copy_text_ok 48), (copy_text_ok 96) by lia. cbn [mbind option_bind default from_option].
  pose proof (copied_text 48 (ch :: title) Ht ltac:(lia)) as Et.
  pose proof (copied_text 96 (default [] body) Hb ltac:(lia)) as Eb.
  set (at_ := if g_count s =? 0 then notify_now s else 0).
  assert (at_ = match map said (queue s) with [] => n_time (abs s) | _ => 0 end) as Eat.
  { unfold at_. destruct (queue s); cbn [length map] in *.
    - by rewrite (proj2 (Z.eqb_eq _ 0)) by lia.
    - by rewrite (proj2 (Z.eqb_neq _ 0)) by lia. }
  assert (is_u32 at_) as Hat.
  { unfold at_. destruct (g_count s =? 0); [by apply now_u32|split; lia]. }
  pose proof (new_card_ok (ch :: title) (default [] body) extent percent duration at_ Ht Hb Hp Hd Hat) as Hnew.
  set (c := mk_card (copied 48 _) _ _ _ _ _ _ _ _) in *.
  destruct (queue_post s c Hq Hf) as (q' & Ew & Hl' & Eq'). rewrite Ew. cbn [mbind option_bind].
  do 2 eexists. split; [done|].
  assert (becomes s (queue s ++ [c]) (with_queue q' (g_head s) (g_count s + 1) s)) as Hbec.
  { exists q', (g_head s), (g_count s + 1). split; [done|]. split; [done|]. split; [done|]. split; [lia|].
    split; [|done]. by rewrite Est. }
  destruct (becomes_ok s _ _ Hs Hbec) as [Hs' Ha]; [apply Forall_app; auto|]. split.
  - destruct Hs' as (A & B & C). split; [exact A|]. split; [exact B|exact C].
  - f_equal. transitivity (mk_notices (map said (queue s ++ [c])) (g_started s) (g_use_now s) (g_now s)
      (g_painted s) (app_kit_wake_foreground (nt_env s))).
    + cbn [with_cards n_cards n_started n_use_now n_now n_painted n_env abs].
      rewrite Est, map_app, <- Eat. cbn [map]. do 3 f_equal. unfold said, c.
      cbn [cd_title cd_body cd_extent cd_band_percent cd_duration_ms cd_show_at cd_exit_at cd_exit_from
        cd_dismissed]. by rewrite Et, Eb.
    + unfold abs. f_equal. change (queue (with_nt_env _ ?x)) with (queue x). by rewrite Eq'.
Qed.

Lemma phase_front s c r :
  state_inv s → queue s = c :: r → notify_service_phase s = Some (card_phase (notify_now s) c).
Proof.
  intros (Hq & _) Eq. pose proof (front s Hq) as Hf. rewrite Eq in Hf. destruct Hf as (_ & Ec & _).
  unfold notify_service_phase, card_phase. rewrite Ec. cbn [mbind option_bind].
  by repeat match goal with |- context [if ?b then _ else _] => destruct b end.
Qed.

Lemma phase_empty s : state_inv s → queue s = [] → notify_service_phase s = Some NOTIFY_PHASE_IDLE.
Proof.
  intros (Hq & _) Eq. pose proof (front s Hq) as Hf. rewrite Eq in Hf. destruct Hf as (_ & Ec).
  unfold notify_service_phase. by rewrite Ec.
Qed.

Lemma card_phase_busy now c : bool_decide (card_phase now c = NOTIFY_PHASE_IDLE) = false.
Proof.
  unfold card_phase.
  by repeat match goal with |- context [if ?b then _ else _] => destruct b end.
Qed.

Lemma offset_front s c r :
  state_inv s → queue s = c :: r →
  notify_service_slide_offset W H s = Some (card_offset (height c) (notify_now s) c).
Proof.
  intros (Hq & _) Eq. pose proof (front s Hq) as Hf. rewrite Eq in Hf. destruct Hf as (_ & Ec & _).
  unfold notify_service_slide_offset. by rewrite Ec.
Qed.

Lemma key_ok key pressed s :
  state_inv s →
  ∃ b s', notify_service_on_key W H key pressed s = Some (b, s') ∧ state_inv s' ∧
    spec_key key pressed (abs s) = (b, abs s').
Proof.
  intros Hs. pose proof Hs as (Hq & Hcs & Hn). unfold notify_service_on_key, spec_key. cbn [n_cards abs].
  destruct (queue s) as [|c r] eqn:Eq; cbn [map].
  { rewrite phase_empty by done. cbn [mbind option_bind]. rewrite bool_decide_eq_true_2, orb_true_r by done.
    eauto 10. }
  rewrite (phase_front s c r) by done. cbn [mbind option_bind]. rewrite card_phase_busy, orb_false_r.
  destruct (sim_key_is_system key); [by eauto 10|].
  destruct pressed; cbn [negb andb]; [|by eauto 10].
  pose proof (front s Hq) as Hf. rewrite Eq in Hf. destruct Hf as (_ & Ec & _). rewrite Ec.
  cbn [mbind option_bind]. change (cd_dismissed (said c)) with (cd_dismissed c).
  destruct (cd_dismissed c); [by eauto 10|]. cbn [negb].
  rewrite (offset_front s c r) by done. cbn [mbind option_bind]. rewrite abs_time.
  pose proof Hq as (Hl & Hh & Hc & Hok). rewrite Eq in Hok. apply Forall_cons_1 in Hok as [Hc1 Hok].
  destruct (queue_set_front s c (dismiss (card_offset (height c) (notify_now s) c) (notify_now s) c) r Hq Eq)
    as (q' & Ew & Hl' & Eq'). rewrite Ew. cbn [mbind option_bind].
  do 2 eexists. split; [done|].
  assert (becomes s (dismiss (card_offset (height c) (notify_now s) c) (notify_now s) c :: r)
    (with_queue q' (g_head s) (g_count s) s)) as Hb by (repeat eexists; eauto; lia).
  destruct (becomes_ok s _ _ Hs Hb) as [Hs' Ha].
  { constructor; [|done]. apply dismiss_ok; [done|]. apply offset_bounds; [done|]. apply (now_u32 s Hs). }
  split; [done|]. by rewrite Ha.
Qed.

Lemma look_ok s : state_inv s → step Look s = Some (spec_look (abs s), s).
Proof.
  intros Hs. pose proof Hs as (Hq & Hcs & Hn). pose proof (front s Hq) as Hf.
  cbn [step]. unfold notify_service_needs_present, notify_service_title, spec_look. cbn [n_cards abs].
  destruct (queue s) as [|c r] eqn:Eq; cbn [map].
  - destruct Hf as [_ Ec]. rewrite phase_empty by done. unfold notify_service_slide_offset. by rewrite Ec.
  - destruct Hf as (_ & Ec & _). rewrite (phase_front s c r), (offset_front s c r), Ec by done.
    cbn [mbind option_bind option_map]. rewrite abs_time.
    change (card_phase (notify_now s) (said c)) with (card_phase (notify_now s) c).
    pose proof (card_phase_busy (notify_now s) c) as Hb. by destruct (card_phase (notify_now s) c).
Qed.

Lemma step_refines : refines step spec op_ok state_inv abs.
Proof.
  intros o s Ho Hs. destruct o as [ms| |sp| |key pressed|]; cbn [spec].
  - split; [done|]. intros r s' [= _ <-]. destruct Hs as (Hq & Hcs & _). exact (conj Hq (conj Hcs Ho)).
  - split; [done|]. intros r s' [= _ <-]. split; [|split; [done|split; cbn; lia]].
    split; [done|]. split; [cbn; lia|]. split; [cbn; lia|]. apply Forall_nil_2.
  - destruct (post_ok sp s Ho Hs) as (r & s' & E1 & Hs' & E2). cbn [step]. rewrite E1, E2.
    split; [done|]. by intros ? ? [= _ <-].
  - destruct (pump_ok s Hs) as (s' & E1 & Hs' & E2). cbn [step]. rewrite E1, <- E2.
    split; [done|]. by intros ? ? [= _ <-].
  - destruct (key_ok key pressed s Hs) as (b & s' & E1 & Hs' & E2). cbn [step]. rewrite E1, E2.
    split; [done|]. by intros ? ? [= _ <-].
  - rewrite look_ok by done. split; [done|]. by intros ? ? [= _ <-].
Qed.

(** C14: the notification service is a queue of at most four cards. Every sequence of starts,
    posts, pumps, keys, clock settings and queries gives the results of a list to which a
    post appends a card (truncated to the room of its texts; refused when four wait), from
    which a pump takes the front when its time is over, and at most one a pump since the
    clock of the next starts there, and whose front a key press dismisses: no operation of
    the ring of cards reads or writes out of its bounds, whatever the clock says, and the
    ring keeps its invariant. *)
Theorem notify_queue_refines l s :
  Forall op_ok l → state_inv s →
  runs spec l (abs s) = seen abs (runs step l s) ∧
  (∃ rs s', runs step l s = Some (rs, s')) ∧ ∀ rs s', runs step l s = Some (rs, s') → state_inv s'.
Proof.
  intros Hl Hs. destruct (runs_refine step spec op_ok state_inv abs l s step_refines Hl Hs) as [E1 Hi].
  split; [done|]. split; [|done].
  assert (∀ o n, ∃ r n', spec o n = Some (r, n')) as Ht.
  { intros o n. destruct o; cbn [spec]; repeat case_match; simplify_eq; eauto. }
  destruct (runs_total spec Ht l (abs s)) as [x Ex].
  rewrite Ex in E1. destruct (runs step l s) as [[rs s']|]; [by eauto|done].
Qed.
End NotifyThm.

Module NotifyRuns.
(** A system whose clock stands at 5. *)
#[local] Instance five : NotifyEnv nat := { time_now_ms := λ _, 5; app_kit_wake_foreground := S }.

Definition start : notify_state nat := mk_notify (replicate 4 card_zero) 0 0 false false 0 false 0%nat.
Definition hello : notify_spec_t := mk_nspec (Some [104; 105]) (Some [33]) NOTIFY_EXTENT_BAND 0 0.
Definition brief : notify_spec_t := mk_nspec (Some [98]) None NOTIFY_EXTENT_FULL 0 100.

(** Two cards: the first is dismissed in the middle of its hold, the second lives
    [200 + 100 + 200] ms from the pump that took the first away. *)
Definition script : list notify_op :=
  [Start; Post (Some hello); Post (Some brief); Look; SetNow 105; Look; SetNow 1000; Look; Key 60 true;
   Key 1 true; SetNow 1100; Look; SetNow 5000; Pump; Look; SetNow 5350; Look; SetNow 5500; Pump; Look].

Example script_runs :
  option_map fst (runs (step 128 64) script start) =
  Some [RCode 0; RCode 0; RCode 0; RSeen NOTIFY_PHASE_ENTER (-25) (Some [104; 105]) true;
        RDone; RSeen NOTIFY_PHASE_ENTER (-13) (Some [104; 105]) true;
        RDone; RSeen NOTIFY_PHASE_HOLD 0 (Some [104; 105]) false; RTaken false; RTaken true;
        RDone; RSeen NOTIFY_PHASE_EXIT (-12) (Some [104; 105]) true;
        RDone; RDone; RSeen NOTIFY_PHASE_ENTER (-64) (Some [98]) true;
        RDone; RSeen NOTIFY_PHASE_EXIT (-16) (Some [98]) true;
        RDone; RDone; RSeen NOTIFY_PHASE_IDLE 0 None false].
Proof. vm_compute. reflexivity. Qed.

(** A card shown 100 ms before the clock wraps is over at once for the phase and the
    offset, while its life goes on. *)
Definition late : notify_state nat :=
  mk_notify (mk_card [97; 0] [0] NOTIFY_EXTENT_BAND 0 0 (2 ^ 32 - 100) 0 0 false :: replicate 3 card_zero)
    0 1 true true (2 ^ 32 - 50) false 0%nat.
Example wrap_hides :
  notify_service_phase late = Some NOTIFY_PHASE_EXIT ∧
  notify_service_slide_offset 128 64 late = Some (-25) ∧
  card_finished (Some (mk_card [97; 0] [0] NOTIFY_EXTENT_BAND 0 0 (2 ^ 32 - 100) 0 0 false)) (2 ^ 32 - 50) = false.
Proof. vm_compute. auto. Qed.

(** A duration near the end of its 32 bits is no time at all. *)
Example long_is_short :
  card_finished (Some (mk_card [97; 0] [0] NOTIFY_EXTENT_BAND 0 (2 ^ 32 - 400) 7 0 0 false)) 7 = true.
Proof. vm_compute. reflexivity. Qed.

Lemma notify_queue_refines_witness :
  ∃ rs s', runs (step 128 64) script start = Some (rs, s') ∧ state_inv 128 64 s'.
Proof.
  assert (Forall op_ok script) as Hl.
  { repeat constructor; cbn; try vm_decide; try lia. all: repeat constructor; vm_decide. }
  assert (state_inv 128 64 start) as Hs.
  { split; [|split; [done|split; vm_compute; done]].
    split; [done|]. split; [cbn; lia|]. split; [cbn; lia|]. apply Forall_nil_2. }
  assert (∀ e : nat, is_u32 (time_now_ms e)) as Ht by (intros; vm_compute; split; done).
  assert (8 <= 64) as H8 by lia.
  pose proof (notify_queue_refines 128 64 H8 Ht script start Hl Hs) as (_ & [rs [s' E1]] & Hi).
  exists rs, s'. exact (conj E1 (Hi rs s' E1)).
Defined.
End NotifyRuns.
