(* ===== verification/NotifyCard.v ===== *)
(** * The picture of a card over the application

    [notify_service_composite] paints the card in front over what the panel shows. *)

From Stdlib Require Import ZArith Lia.
From stdpp Require Import base tactics option numbers list.
From S2P Require Import Prelude.
From S2P Require Import CString.
From S2P Require Import Ssd1306.
From S2P Require Import Ssd1306Thm.
From S2P Require Import FwUi.
From S2P Require Import Notify.
From S2P Require Import NotifyThm.

Section Card.
Context (W H : Z) {U : Type} `{SimI2c U} {E : Type} `{NotifyEnv E}.
Context (HW : 0 < W) (HH : 8 <= H).
Implicit Types (s : notify_state E) (c : notify_card_t) (p : panel U) (disp : option app_display_t).

(** ** Paint of several colours *)

(** A layer of paint: the colour of some dots. *)
Definition paint_of : Type := Z → Z → option Z.
Definition over (top bottom : paint_of) : paint_of :=
  λ x y, match top x y with Some k => Some k | None => bottom x y end.
Definition wash (S : Z → Z → bool) (k : Z) : paint_of := λ x y, if S x y then Some k else None.
Definition none : paint_of := λ _ _, None.

Definition paints (F : paint_of) (D : panel U → option (panel U)) : Prop :=
  ∀ p, panel_ok W H p → ∃ p', D p = Some p' ∧ panel_ok W H p' ∧ rest_of p' = rest_of p ∧
    ∀ x y, on_panel W H x y = true →
      look W p' x y = match F x y with Some k => ink_on (Colour k) (look W p x y) | None => look W p x y end.

Lemma paints_none : paints none Some.
Proof. intros p Hp. by exists p. Qed.

Lemma paints_draws k S D : draws W H (Colour k) S D → paints (wash S k) D.
Proof.
  intros Hd p Hp. destruct (Hd p Hp) as (p' & E1 & Hp' & R & L). exists p'. split_and!; [done..|].
  intros x y Hon. rewrite L by done. unfold wash. by destruct (S x y).
Qed.

Lemma paints_seq F1 F2 D1 D2 : paints F1 D1 → paints F2 D2 → paints (over F2 F1) (λ p, p ← D1 p; D2 p).
Proof.
  intros Hd1 Hd2 p Hp. destruct (Hd1 p Hp) as (p1 & -> & Hp1 & R1 & L1).
  destruct (Hd2 p1 Hp1) as (p2 & E2 & Hp2 & R2 & L2). exists p2. split; [exact E2|]. split; [done|].
  split; [congruence|]. intros x y Hon. rewrite L2, L1 by done. unfold over.
  destruct (F2 x y), (F1 x y); done.
Qed.

Lemma paints_if (b : bool) F D : paints F D → paints (if b then F else none) (λ p, if b then D p else Some p).
Proof. intros Hd. destruct b; [exact Hd|apply paints_none]. Qed.

Lemma paints_ext F D D' : paints F D → (∀ p, D p = D' p) → paints F D'.
Proof. intros Hd HD p Hp. rewrite <- HD. by apply Hd. Qed.

(** ** The parts of a card *)

Lemma square_box x0 y0 w h x y : rect_shape x0 y0 w h 0 x y = in_box x0 y0 w h x y.
Proof.
  unfold rect_shape, outside_corner, corner_radius. cbn [Z.ltb Z.compare].
  destruct (in_box x0 y0 w h x y) eqn:Eb; [|done]. apply in_box_true in Eb.
  rewrite !(proj2 (Z.ltb_ge _ 0)) by lia. done.
Qed.

(** The clipped rectangle is the part of the rectangle on the panel. *)
Lemma draws_fill_clipped disp x0 y0 w h k :
  ready disp = true →
  draws (U:=U) W H (Colour k) (in_box x0 y0 w h) (fill_clipped W H disp x0 y0 w h k).
Proof.
  intros Hr. eapply draws_ext with
    (S := λ x y, in_box (Z.max 0 x0) (Z.max 0 y0) (Z.min (x0 + w) W - Z.max 0 x0) (Z.min (y0 + h) H - Z.max 0 y0) x y)
    (D := λ p, if (Z.min (x0 + w) W - Z.max 0 x0 <=? 0) || (Z.min (y0 + h) H - Z.max 0 y0 <=? 0) then Some p else
      ssd1306_model_fill_rect_color W H (Z.max 0 x0) (Z.max 0 y0) (Z.min (x0 + w) W - Z.max 0 x0)
        (Z.min (y0 + h) H - Z.max 0 y0) 0 k p).
  - eapply draws_ext; [apply draws_skip, draws_fill_rect; lia| |done]. intros x y Hon. cbv beta. rewrite square_box.
    destruct (in_box _ _ _ _ x y) eqn:Eb; [|by destruct ((_ <=? 0) || _)]. apply in_box_true in Eb.
    by rewrite (proj2 (Z.leb_gt _ 0)), (proj2 (Z.leb_gt _ 0)) by lia.
  - intros x y [Hx Hy]%on_panel_true. apply eq_true_iff_eq. rewrite !in_box_true. lia.
  - intros p. unfold fill_clipped, app_display_fill_rect_color, when_ready. rewrite Hr.
    destruct (Z.leb_spec w 0), (Z.leb_spec h 0); cbn [orb];
      try (rewrite orb_true_iff || idtac);
      repeat match goal with
        |- context [if ?a <? ?b then _ else _] => destruct (Z.ltb_spec a b); cbn [fst snd] end;
      repeat match goal with |- context [?a <=? ?b] => destruct (Z.leb_spec a b); cbn [orb] end;
      try done; try lia; repeat f_equal; lia.
Qed.

Lemma glyph_rows scale cx cy g x y : 0 < scale → glyph_shape scale cx cy g x y = true → cy <= y < cy + 7 * scale.
Proof.
  intros Hs Hg. unfold glyph_shape in Hg. rewrite !andb_true_iff, !Z.leb_le, !Z.ltb_lt in Hg.
  destruct Hg as ((((_ & Hy) & _) & Hd) & _). split; [lia|].
  destruct (Z.lt_ge_cases (y - cy) (7 * scale)); [lia|].
  assert (7 <= (y - cy) / scale) by (apply Z.div_le_lower_bound; lia). lia.
Qed.

Lemma text_rows font scale cx cy t x y :
  0 < scale → text_shape font scale cx cy t x y = true → cy <= y < cy + 7 * scale.
Proof.
  intros Hs. revert cx. induction t as [|ch t IH]; intros cx; [done|]. cbn [text_shape].
  destruct (printable ch); [|apply IH]. rewrite orb_true_iff. intros [E1|E1]; [by eapply glyph_rows|by eapply IH].
Qed.

(** The dots of a centred line of text; a line that does not fit in the height of the panel
    is left out. *)
Definition text_left (t : list Z) (scale : Z) : Z := Z.max 0 (Z.quot (W - blen t * 6 * scale) 2).
Definition line_dots (y0 : Z) (t : list Z) (scale x y : Z) : bool :=
  (0 <=? y0) && (y0 + 8 * scale <=? H) && text_shape font_color scale (text_left t scale) y0 t x y.

Lemma draws_line disp y0 t scale k :
  ready disp = true → 0 < scale →
  draws (U:=U) W H (Colour k) (line_dots y0 t scale) (draw_line W H disp y0 t scale k).
Proof.
  intros Hr Hs. destruct t as [|ch t].
  { eapply draws_ext; [apply draws_none| |done]. intros x y _. unfold line_dots. cbn. by rewrite andb_false_r. }
  eapply draws_ext; [apply (draws_when W H (Colour k) ((0 <=? y0) && (y0 + 8 * scale <=? H)))| |].
  - apply (draws_text_color W H HW (text_left (ch :: t) scale) y0 (ch :: t) scale k).
  - intros x y _. unfold line_dots, color_text_shape. by rewrite (proj2 (Z.leb_gt scale 0)).
  - intros p. unfold draw_line, str_eq. rewrite bool_decide_eq_false_2 by done.
    unfold app_display_text_color, when_ready, app_display_text_width, ssd1306_model_text_width.
    rewrite Hr, (proj2 (Z.leb_gt scale 0)) by done. cbv zeta.
    destruct (Z.leb_spec 0 y0), (Z.ltb_spec y0 0); try lia; cbn [andb orb]; [|done].
    destruct (Z.leb_spec (y0 + 8 * scale) H), (Z.ltb_spec H (y0 + 8 * scale)); try lia; [|done].
    f_equal. unfold text_left. destruct (Z.ltb_spec (Z.quot (W - blen (ch :: t) * 6 * scale) 2) 0); lia.
Qed.

(** ** The card *)

Definition card_color : Z := NOTIFY_RGB 255 186 48.
Definition cap_color : Z := NOTIFY_RGB 40 18 0.
Definition text_color : Z := NOTIFY_RGB 24 12 0.
Definition cap_height (h : Z) : Z := if text_line H + 8 <=? h then 4 else 0.

(** The dots of the title, and of the body when there is room for two lines. *)
Definition title_dots (offset : Z) c : Z → Z → bool :=
  line_dots (fst (text_place H offset (height W H c) (c_str (cd_body c)))) (c_str (cd_title c)) (text_scale H).
Definition body_dots (offset : Z) c (x y : Z) : bool :=
  let '(text_y, two) := text_place H offset (height W H c) (c_str (cd_body c)) in
  two && line_dots (text_y + text_line H + text_scale H) (c_str (cd_body c)) (text_scale H) x y.
Definition text_dots (offset : Z) c (x y : Z) : bool := body_dots offset c x y || title_dots offset c x y.

Definition card_dot (offset : Z) c (x y : Z) : Z :=
  if text_dots offset c x y then text_color
  else if y <? offset + cap_height (height W H c) then cap_color else card_color.

Lemma text_place_bounds offset h body :
  text_line H <= h →
  let '(y0, two) := text_place H offset h body in
  offset <= y0 ∧ y0 + text_line H <= offset + h ∧
  (two = true → y0 + text_line H + text_scale H + text_line H <= offset + h).
Proof.
  intros Hh. pose proof (line_bounds H HH) as Hl. assert (0 < text_scale H) as Hs.
  { unfold text_scale. destruct (64 <? H); lia. }
  unfold text_place. cbv zeta. set (cap := if text_line H + 8 <=? h then 4 else 0).
  assert (0 <= cap) as Hc by (unfold cap; destruct (_ <=? h); lia).
  destruct (Z.ltb_spec (h - cap - 4) (text_line H)) as [Hi|Hi].
  - rewrite (proj2 (Z.leb_gt (text_line H * 2 + text_scale H) (text_line H))) by lia. rewrite andb_false_r.
    rewrite Z.ltb_irrefl. pose proof (Z.quot_pos (h - text_line H) 2 ltac:(lia) ltac:(lia)).
    pose proof (Z.quot_le_upper_bound (h - text_line H) 2 (h - text_line H) ltac:(lia) ltac:(lia)). lia.
  - destruct (negb (str_eq body []) && (text_line H * 2 + text_scale H <=? h - cap - 4)) eqn:E2.
    + apply andb_true_iff in E2 as [_ E2%Z.leb_le].
      destruct (Z.ltb_spec (text_line H * 2 + text_scale H) (h - cap - 4)) as [Hb|Hb]; [|lia].
      pose proof (Z.quot_pos (h - cap - 4 - (text_line H * 2 + text_scale H)) 2 ltac:(lia) ltac:(lia)).
      pose proof (Z.quot_le_upper_bound (h - cap - 4 - (text_line H * 2 + text_scale H)) 2
        (h - cap - 4 - (text_line H * 2 + text_scale H)) ltac:(lia) ltac:(lia)). lia.
    + destruct (Z.ltb_spec (text_line H) (h - cap - 4)) as [Hb|Hb]; [|split; [lia|split; [lia|done]]].
      pose proof (Z.quot_pos (h - cap - 4 - text_line H) 2 ltac:(lia) ltac:(lia)).
      pose proof (Z.quot_le_upper_bound (h - cap - 4 - text_line H) 2 (h - cap - 4 - text_line H) ltac:(lia) ltac:(lia)).
      split; [lia|split; [lia|done]].
Qed.

Lemma line_dots_rows y0 t x y : line_dots y0 t (text_scale H) x y = true → y0 <= y < y0 + text_line H.
Proof.
  intros Hd. assert (0 < text_scale H) as Hs by (unfold text_scale; destruct (64 <? H); lia).
  unfold line_dots in Hd. rewrite !andb_true_iff in Hd. destruct Hd as [_ Hd].
  apply text_rows in Hd; [|done]. unfold text_line. lia.
Qed.

(** The text is inside the card. *)
Lemma text_inside offset c x y :
  0 <= cd_band_percent c → on_panel W H x y = true → text_dots offset c x y = true →
  in_box 0 offset W (height W H c) x y = true.
Proof.
  intros Hp [Hx Hy]%on_panel_true Hd. pose proof (height_bounds W H HH c Hp) as [Hh _].
  apply in_box_true. split; [lia|]. pose proof (text_place_bounds offset (height W H c) (c_str (cd_body c)) Hh) as Hb.
  unfold text_dots, body_dots, title_dots in Hd.
  destruct (text_place H offset (height W H c) (c_str (cd_body c))) as [y0 two]. destruct Hb as (H2 & H3 & H4).
  rewrite orb_true_iff, andb_true_iff in Hd. destruct Hd as [[Htwo Hd]|Hd]; apply line_dots_rows in Hd; [|cbn in Hd; lia].
  specialize (H4 Htwo). pose proof (line_bounds H HH).
  assert (0 < text_scale H) by (unfold text_scale; destruct (64 <? H); lia). lia.
Qed.

(** The layers of the card, the last one on top. *)
Definition card_layers (offset : Z) c : paint_of :=
  over (wash (body_dots offset c) text_color)
    (over (wash (title_dots offset c) text_color)
       (over (wash (in_box 0 offset W (cap_height (height W H c))) cap_color)
          (wash (in_box 0 offset W (height W H c)) card_color))).

Lemma layers_dot offset c x y :
  0 <= cd_band_percent c → on_panel W H x y = true →
  card_layers offset c x y =
    if in_box 0 offset W (height W H c) x y then Some (card_dot offset c x y) else None.
Proof.
  intros Hp Hon. pose proof (text_inside offset c x y Hp Hon) as Hin.
  pose proof (height_bounds W H HH c Hp) as [Hh _].
  unfold card_layers, over, wash, card_dot, text_dots in *.
  destruct (body_dots offset c x y); [by rewrite Hin|]. destruct (title_dots offset c x y); [by rewrite Hin|].
  cbn [orb]. clear Hin. apply on_panel_true in Hon as [Hx Hy].
  assert (0 <= cap_height (height W H c) <= height W H c) as Hc.
  { unfold cap_height. pose proof (line_bounds H HH). destruct (Z.leb_spec (text_line H + 8) (height W H c)); lia. }
  destruct (in_box 0 offset W (cap_height (height W H c)) x y) eqn:E1.
  - apply in_box_true in E1. rewrite (proj2 (in_box_true 0 offset W (height W H c) x y)) by lia.
    by rewrite (proj2 (Z.ltb_lt y _)) by lia.
  - destruct (in_box 0 offset W (height W H c) x y) eqn:E2; [|done]. apply in_box_true in E2.
    destruct (Z.ltb_spec y (offset + cap_height (height W H c))) as [Hlt|]; [|done].
    assert (in_box 0 offset W (cap_height (height W H c)) x y = true) by (apply in_box_true; lia). congruence.
Qed.

Lemma scale_pos : 0 < text_scale H.
Proof. unfold text_scale. destruct (64 <? H); lia. Qed.

Lemma paints_composite disp s c r :
  ready disp = true → state_inv W H s → queue s = c :: r →
  let offset := card_offset (height W H c) (notify_now s) c in
  ∃ D, paints (card_layers offset c) D ∧
    ∀ p, notify_service_composite W H disp s p = p' ← D p; Some (with_painted true s, p').
Proof.
  intros Hr Hs Eq offset. pose proof (front W H s (proj1 Hs)) as Hf. rewrite Eq in Hf. destruct Hf as (_ & Ec & _).
  destruct (text_place H offset (height W H c) (c_str (cd_body c))) as [y0 two] eqn:Ep.
  exists (λ p, p ← (p ← (p ← fill_clipped W H disp 0 offset W (height W H c) card_color p;
              (if 0 <? cap_height (height W H c)
               then fill_clipped W H disp 0 offset W (cap_height (height W H c)) cap_color p else Some p));
          draw_line W H disp y0 (c_str (cd_title c)) (text_scale H) text_color p);
    (if two then draw_line W H disp (y0 + text_line H + text_scale H) (c_str (cd_body c)) (text_scale H) text_color p
     else Some p)).
  split.
  - unfold card_layers. apply paints_seq; [apply paints_seq; [apply paints_seq|]|]; apply paints_draws.
    + by apply draws_fill_clipped.
    + eapply draws_ext; [apply (draws_when W H (Colour cap_color) (0 <? cap_height (height W H c)))|
        |intros p; reflexivity]; [by apply draws_fill_clipped|].
      intros x y _. cbv beta. destruct (Z.ltb_spec 0 (cap_height (height W H c))) as [|Hz]; [done|].
      symmetry. apply not_true_iff_false. rewrite in_box_true. lia.
    + unfold title_dots. rewrite Ep. by apply draws_line; [|apply scale_pos].
    + unfold body_dots. rewrite Ep. apply draws_when. by apply draws_line; [|apply scale_pos].
  - intros p. unfold notify_service_composite. rewrite (phase_front W H s c r) by done.
    cbn [mbind option_bind]. rewrite card_phase_busy. change (current_card (with_painted true s)) with (current_card s).
    rewrite Ec. cbn [mbind option_bind]. rewrite Hr. cbn [negb].
    change (notify_service_slide_offset W H (with_painted true s)) with (notify_service_slide_offset W H s).
    rewrite (offset_front W H s c r) by done. cbn [mbind option_bind]. fold offset.
    change (card_size W H (Some c)) with (W, height W H c). cbv iota zeta. rewrite Ep.
    change (if text_line H + 8 <=? height W H c then 4 else 0) with (cap_height (height W H c)).
    destruct (fill_clipped W H disp 0 offset W (height W H c) (NOTIFY_RGB 255 186 48) p) as [p1|] eqn:E1;
      unfold card_color; rewrite E1; cbn [mbind option_bind]; [|done].
    destruct (0 <? cap_height (height W H c)); cbn [mbind option_bind].
    2:{ destruct (draw_line _ _ _ _ _ _ _ _); cbn [mbind option_bind]; [|done]. by destruct two. }
    unfold cap_color. destruct (fill_clipped _ _ _ _ _ _ _ _ p1); cbn [mbind option_bind]; [|done].
    unfold text_color. destruct (draw_line _ _ _ _ _ _ _ _); cbn [mbind option_bind]; [|done]. by destruct two.
Qed.

(** C15: a notification is painted over the application and nowhere else. With no card the
    panel is left alone. With a card in front, whatever its texts, height and place in its
    slide, every dot of the card's rectangle that is on the panel gets the colour of the
    card, of its cap or of its text, the text staying inside the card; every other dot
    keeps what the application drew, and nothing is written outside the panel. *)
Theorem notify_composite disp s p :
  state_inv W H s → panel_ok W H p → ready disp = true →
  ∃ p', notify_service_composite W H disp s p = Some (with_painted (bool_decide (queue s ≠ [])) s, p') ∧
    panel_ok W H p' ∧ rest_of p' = rest_of p ∧
    ∀ x y, on_panel W H x y = true →
      look W p' x y =
        match queue s with
        | c :: _ =>
          let offset := card_offset (height W H c) (notify_now s) c in
          if in_box 0 offset W (height W H c) x y
          then (mono W p x y, Some (card_dot offset c x y)) else look W p x y
        | [] => look W p x y
        end.
Proof.
  intros Hs Hp Hr. destruct (queue s) as [|c r] eqn:Eq.
  { exists p. unfold notify_service_composite. rewrite (phase_empty W H s Hs Eq). by split_and!. }
  destruct (paints_composite disp s c r Hr Hs Eq) as (D & HD & EC). cbv zeta in HD.
  destruct (HD p Hp) as (p' & E1 & Hp' & R & L). exists p'. rewrite EC, E1. cbn [mbind option_bind].
  split_and!; [done..|]. intros x y Hon. rewrite L by done.
  pose proof (proj2 (proj2 (proj2 (proj1 Hs)))) as Hok. rewrite Eq in Hok.
  apply Forall_cons_1 in Hok as [(_ & _ & _ & _ & Hb & _) _].
  rewrite layers_dot by done. by destruct (in_box _ _ _ _ x y).
Qed.
End Card.

Module CardRuns.
#[local] Instance no_bus : SimI2c unit := {|
  sim_i2c_register_device _ u := u; sim_i2c_unregister_device _ u := u
|}.
#[local] Instance no_time : NotifyEnv unit := {| time_now_ms := λ _, 0; app_kit_wake_foreground e := e |}.

Definition small : panel unit :=
  set_first false (ssd1306_model_clear (ssd1306_model_register 32 24
    (mk_panel (mk_ssd [] 0 0 0 false false 0 0 0 false 0) false (zeros 768) (zeros 768) true tt))).
Definition disp : option app_display_t := Some (mk_display true 32 24).

(** A card of sixteen rows that has come out by half. *)
Definition hi : notify_card_t :=
  mk_card (copied 48 [72; 73]) (copied 96 [33]) NOTIFY_EXTENT_BAND 70 0 1000 0 0 false.
Definition half : notify_state unit :=
  mk_notify (hi :: replicate 3 card_zero) 0 1 true true 1100 false tt.

Lemma notify_composite_witness :
  ∃ p', notify_service_composite 32 24 disp half small = Some (with_painted true half, p') ∧
    colour 32 p' 0 0 = Some (card_color) ∧ colour 32 p' 0 8 = None ∧
    (∀ x y, 0 <= x < 32 → 8 <= y < 24 → look 32 p' x y = look 32 small x y).
Proof.
  assert (state_inv 32 24 half) as Hs.
  { split; [|split; [done|split; vm_compute; done]].
    split; [done|]. split; [cbn; lia|]. split; [cbn; lia|].
    constructor; [|apply Forall_nil_2]. apply new_card_ok; try lia; try (split; vm_compute; done).
    all: repeat constructor; vm_decide. }
  assert (panel_ok 32 24 small) as Hp by (split_and!; vm_compute; reflexivity).
  destruct (notify_composite 32 24 ltac:(lia) ltac:(lia) disp half small Hs Hp eq_refl)
    as (p' & E1 & _ & _ & L). exists p'.
  split; [exact E1|]. split; [|split].
  - specialize (L 0 0 eq_refl). apply (f_equal snd) in L. etransitivity; [exact L|]. vm_compute. reflexivity.
  - specialize (L 0 8 eq_refl). apply (f_equal snd) in L. etransitivity; [exact L|]. vm_compute. reflexivity.
  - intros x y Hx Hy. rewrite (L x y) by (apply on_panel_true; lia).
    change (queue half) with [hi]. cbv beta iota zeta.
    destruct (in_box 0 (card_offset (height 32 24 hi) (notify_now half) hi) 32 (height 32 24 hi) x y) eqn:Eb; [|done].
    apply in_box_true in Eb. destruct Eb as [_ Eb]. exfalso.
    change (card_offset (height 32 24 hi) (notify_now half) hi) with (-8) in Eb.
    change (height 32 24 hi) with 16 in Eb. lia.
Defined.
End CardRuns.
