(* ===== verification/Input.v ===== *)
(** * Input (apps/input.c)

    Devices with their key mappings, a ring of 64 events, the classification of key
    presses, and gesture recognizers.  Callbacks are arbitrary functions of the whole
    state: they may post events and change the devices. *)

From Stdlib Require Import ZArith Lia String.
From stdpp Require Import base tactics option numbers list.
From S2P Require Import Prelude.
From S2P Require Import CString.

Class InputClock (E : Type) := { scheduler_get_tick_count : E → Z }.

Definition INPUT_EVENT_QUEUE_SIZE : Z := 64.
Definition INPUT_MAX_DEVICES : Z := 8.
Definition INPUT_MAX_GESTURES : Z := 16.
Definition INPUT_MAP_MAX : Z := 32.
Definition INPUT_KEY_MAX : Z := 46.

Definition INPUT_EVENT_KEY_DOWN : Z := 1.
Definition INPUT_EVENT_KEY_UP : Z := 2.
Definition INPUT_EVENT_BUTTON_TAP : Z := 4.
Definition INPUT_EVENT_BUTTON_LONG_TAP : Z := 5.
Definition INPUT_EVENT_BUTTON_DOUBLE_TAP : Z := 6.
Definition INPUT_EVENT_BUTTON_RELEASE : Z := 8.

Record input_event_t := mk_iev {
  iv_type : Z; iv_key : Z; iv_timestamp : Z; iv_app_id : Z; iv_x : Z; iv_y : Z; iv_dx : Z; iv_dy : Z;
  iv_pressure : Z; iv_duration_ms : Z; iv_tap_count : Z
}.
Definition iev_zero : input_event_t := mk_iev 0 0 0 0 0 0 0 0 0 0 0.

Record input_mapping_t := mk_imap {
  im_type : Z; im_source_key : Z; im_target_action : Z; im_app_id : Z; im_enabled : bool
}.
Definition imap_zero : input_mapping_t := mk_imap 0 0 0 0 false.

Record input_config_t := mk_icfg {
  ic_tap_threshold_ms : Z; ic_long_press_threshold_ms : Z; ic_double_tap_threshold_ms : Z;
  ic_hold_threshold_ms : Z; ic_swipe_threshold_px : Z; ic_drag_threshold_px : Z; ic_pinch_threshold_px : Z
}.
Definition default_config : input_config_t := mk_icfg 300 500 400 1000 30 10 20.

Section Input.
(** Code of callbacks, and the world the clock is part of. *)
Context {F E : Type} `{InputClock E}.

Record input_device_t := mk_idev {
  id_name : list Z; id_type : Z; id_mappings : list input_mapping_t; id_mapping_count : Z;
  id_callback : option F; id_callback_arg : Z; id_active : bool
}.
Definition idev_zero : input_device_t := mk_idev (zeros 32) 0 (replicate 32 imap_zero) 0 None 0 false.

Record recognizer_entry_t := mk_entry { re_gesture : Z; re_cb : option F; re_arg : Z; re_active : bool }.
Record input_recognizer := mk_rec { ir_entries : list recognizer_entry_t; ir_count : Z }.
Definition rec_zero : input_recognizer := mk_rec (replicate 16 (mk_entry 0 None 0 false)) 0.

(** [recs] are the live recognizers of the heap, by address. *)
Record input_state := mk_input {
  g_devices : list input_device_t; g_device_count : Z; g_config : input_config_t;
  g_event_queue : list input_event_t; g_queue_head : Z; g_queue_tail : Z; g_queue_count : Z;
  g_last_key_states : list Z; g_key_repeat_states : list Z; g_lock : Z;
  recs : list (option input_recognizer); in_env : E
}.
Implicit Types (s : input_state) (d : input_device_t).

Definition with_devices (l : list input_device_t) (count : Z) s : input_state :=
  mk_input l count (g_config s) (g_event_queue s) (g_queue_head s) (g_queue_tail s) (g_queue_count s)
    (g_last_key_states s) (g_key_repeat_states s) (g_lock s) (recs s) (in_env s).
Definition with_queue (q : list input_event_t) (head tail count : Z) s : input_state :=
  mk_input (g_devices s) (g_device_count s) (g_config s) q head tail count
    (g_last_key_states s) (g_key_repeat_states s) (g_lock s) (recs s) (in_env s).
Definition with_keys (last repeat : list Z) s : input_state :=
  mk_input (g_devices s) (g_device_count s) (g_config s) (g_event_queue s) (g_queue_head s) (g_queue_tail s)
    (g_queue_count s) last repeat (g_lock s) (recs s) (in_env s).
Definition with_lock (lock : Z) s : input_state :=
  mk_input (g_devices s) (g_device_count s) (g_config s) (g_event_queue s) (g_queue_head s) (g_queue_tail s)
    (g_queue_count s) (g_last_key_states s) (g_key_repeat_states s) lock (recs s) (in_env s).
Definition with_recs (r : list (option input_recognizer)) s : input_state :=
  mk_input (g_devices s) (g_device_count s) (g_config s) (g_event_queue s) (g_queue_head s) (g_queue_tail s)
    (g_queue_count s) (g_last_key_states s) (g_key_repeat_states s) (g_lock s) r (in_env s).
Definition with_maps (m : list input_mapping_t) (count : Z) d : input_device_t :=
  mk_idev (id_name d) (id_type d) m count (id_callback d) (id_callback_arg d) (id_active d).

(** Taking a lock that is held never returns. *)
Definition input_lock s : option input_state := if c_true (g_lock s) then None else Some (with_lock 1 s).
Definition input_unlock s : input_state := with_lock 0 s.

Definition input_queue_event (event : input_event_t) s : option (Z * input_state) :=
  if INPUT_EVENT_QUEUE_SIZE <=? g_queue_count s then Some (-1, s) else
  q ← wr (g_event_queue s) (g_queue_tail s) event;
  Some (0, with_queue q (g_queue_head s) (Z.rem (g_queue_tail s + 1) INPUT_EVENT_QUEUE_SIZE)
             (g_queue_count s + 1) s).

(** [memset (&g_input, 0, sizeof (g_input))]; all that is not in [g_input] stays. *)
Definition cleared (config : input_config_t) s : input_state :=
  mk_input (replicate 8 idev_zero) 0 config (replicate 64 iev_zero) 0 0 0 (zeros 46) (zeros 46) 0
    (recs s) (in_env s).

Definition input_init (config : option input_config_t) s : Z * input_state :=
  (0, cleared (default default_config config) s).

Definition input_deinit s : option input_state :=
  s ← input_lock s;
  Some (input_unlock (cleared (mk_icfg 0 0 0 0 0 0 0) s)).

(** ** Devices *)

(** The first device, from [i], with the name. *)
Fixpoint find_loop (n : nat) (i : Z) (name : list Z) s : option (option Z) :=
  match n with
  | O => Some None
  | S n =>
    d ← rd (g_devices s) i;
    if str_eq (c_str (id_name d)) name then Some (Some i) else find_loop n (i + 1) name s
  end.

Definition input_device_register (type : Z) (name : option (list Z)) (cb : option F) (arg : Z) s
    : option (Z * input_state) :=
  match name with
  | None => Some (-1, s)
  | Some name =>
    s ← input_lock s;
    if INPUT_MAX_DEVICES <=? g_device_count s then Some (-1, input_unlock s) else
    found ← find_loop (Z.to_nat (g_device_count s)) 0 name s;
    match found with
    | Some _ => Some (-1, input_unlock s)
    | None =>
      l ← wr (g_devices s) (g_device_count s)
            (mk_idev (strncpy (zeros 32) name 31) type (id_mappings idev_zero) 0 cb arg true);
      Some (0, input_unlock (with_devices l (g_device_count s + 1) s))
    end
  end.

Definition input_device_unregister (name : option (list Z)) s : option (Z * input_state) :=
  match name with
  | None => Some (-1, s)
  | Some name =>
    s ← input_lock s;
    found ← find_loop (Z.to_nat (g_device_count s)) 0 name s;
    match found with
    | Some i =>
      l ← shift_left (Z.to_nat (g_device_count s - 1 - i)) i (g_devices s);
      Some (0, input_unlock (with_devices l (g_device_count s - 1) s))
    | None => Some (-1, input_unlock s)
    end
  end.

(** The pointer is the index in the table. *)
Definition input_device_find (name : option (list Z)) s : option (option Z * input_state) :=
  match name with
  | None => Some (None, s)
  | Some name =>
    s ← input_lock s;
    found ← find_loop (Z.to_nat (g_device_count s)) 0 name s;
    Some (found, input_unlock s)
  end.

(** ** Mappings *)

(** A new mapping goes to the first device with room. *)
Fixpoint set_loop (n : nat) (i : Z) (m : input_mapping_t) s : option (Z * input_state) :=
  match n with
  | O => Some (-1, s)
  | S n =>
    d ← rd (g_devices s) i;
    if id_mapping_count d <? INPUT_MAP_MAX then
      maps ← wr (id_mappings d) (id_mapping_count d) m;
      l ← wr (g_devices s) i (with_maps maps (id_mapping_count d + 1) d);
      Some (0, with_devices l (g_device_count s) s)
    else set_loop n (i + 1) m s
  end.

Definition input_set_mapping (app_id type source_key target_action : Z) s : option (Z * input_state) :=
  s ← input_lock s;
  '(r, s) ← set_loop (Z.to_nat (g_device_count s)) 0
              (mk_imap type source_key target_action app_id true) s;
  Some (r, input_unlock s).

(** A round of the inner loop moves on, or takes a mapping away and steps back. *)
Fixpoint clear_loop (fuel : nat) (j app_id : Z) d : option input_device_t :=
  if j <? id_mapping_count d then
    match fuel with
    | O => None
    | S fuel =>
      m ← rd (id_mappings d) j;
      if im_app_id m =? app_id then
        maps ← shift_left (Z.to_nat (id_mapping_count d - 1 - j)) j (id_mappings d);
        clear_loop fuel (u32 (u32 (j - 1) + 1)) app_id (with_maps maps (id_mapping_count d - 1) d)
      else clear_loop fuel (u32 (j + 1)) app_id d
    end
  else Some d.

Fixpoint clear_devices (n : nat) (i app_id : Z) s : option input_state :=
  match n with
  | O => Some s
  | S n =>
    d ← rd (g_devices s) i;
    d ← clear_loop (Z.to_nat (id_mapping_count d)) 0 app_id d;
    l ← wr (g_devices s) i d;
    clear_devices n (i + 1) app_id (with_devices l (g_device_count s) s)
  end.

Definition input_clear_mappings (app_id : Z) s : option (Z * input_state) :=
  s ← input_lock s;
  s ← clear_devices (Z.to_nat (g_device_count s)) 0 app_id s;
  Some (0, input_unlock s).

Fixpoint mapping_loop (n : nat) (j app_id source_key : Z) d : option (option Z) :=
  match n with
  | O => Some None
  | S n =>
    m ← rd (id_mappings d) j;
    if (im_app_id m =? app_id) && (im_source_key m =? source_key) then Some (Some (im_target_action m))
    else mapping_loop n (j + 1) app_id source_key d
  end.

Fixpoint get_loop (n : nat) (i app_id source_key : Z) s : option (option Z) :=
  match n with
  | O => Some None
  | S n =>
    d ← rd (g_devices s) i;
    found ← mapping_loop (Z.to_nat (id_mapping_count d)) 0 app_id source_key d;
    match found with Some a => Some (Some a) | None => get_loop n (i + 1) app_id source_key s end
  end.

(** The result, and what is written to [*target_action]. *)
Definition input_get_mapping (app_id source_key : Z) s : option (Z * option Z * input_state) :=
  s ← input_lock s;
  found ← get_loop (Z.to_nat (g_device_count s)) 0 app_id source_key s;
  Some (match found with Some a => (0, Some a) | None => (-1, None) end, input_unlock s).

(** ** Events *)

Definition process_key_event (key : Z) (pressed : bool) s : option input_state :=
  let now := scheduler_get_tick_count (in_env s) in
  if pressed then
    last ← wr (g_last_key_states s) key now;
    before ← rd (g_key_repeat_states s) key;
    let twice := (0 <? before) && (u32 (now - before) <? ic_double_tap_threshold_ms (g_config s)) in
    repeat ← wr (g_key_repeat_states s) key (if twice then 0 else now);
    let event :=
      mk_iev (if twice then INPUT_EVENT_BUTTON_DOUBLE_TAP else INPUT_EVENT_KEY_DOWN) key now 0 0 0 0 0 0 0
        (if twice then 2 else 1) in
    '(_, s) ← input_queue_event event (with_keys last repeat s); Some s
  else
    last ← rd (g_last_key_states s) key;
    let duration := u32 (now - last) in
    let cfg := g_config s in
    let '(type, ms) :=
      if ic_hold_threshold_ms cfg <=? duration then (INPUT_EVENT_BUTTON_RELEASE, duration)
      else if ic_long_press_threshold_ms cfg <=? duration then (INPUT_EVENT_BUTTON_LONG_TAP, 0)
      else if ic_tap_threshold_ms cfg <=? duration then (INPUT_EVENT_BUTTON_TAP, 0)
      else (INPUT_EVENT_KEY_UP, 0) in
    '(_, s) ← input_queue_event (mk_iev type key now 0 0 0 0 0 0 ms 0) s; Some s.

Definition input_post_event (event : option input_event_t) s : option (Z * input_state) :=
  match event with
  | None => Some (-1, s)
  | Some e =>
    if iv_type e =? INPUT_EVENT_KEY_DOWN then s ← process_key_event (iv_key e) true s; Some (0, s)
    else if iv_type e =? INPUT_EVENT_KEY_UP then s ← process_key_event (iv_key e) false s; Some (0, s)
    else input_queue_event e s
  end.

(** What the code of a callback does with an event and its argument. *)
Variable call : F → input_event_t → Z → input_state → option input_state.

(** [for (i = 0; i < g_input.device_count; i++)]: the count is read in every round. *)
Fixpoint deliver_loop (fuel : nat) (i : Z) (event : input_event_t) s : option input_state :=
  if i <? g_device_count s then
    match fuel with
    | O => None
    | S fuel =>
      d ← rd (g_devices s) i;
      s ← match id_callback d with
          | Some f => if id_active d then call f event (id_callback_arg d) s else Some s
          | None => Some s
          end;
      deliver_loop fuel (i + 1) event s
    end
  else Some s.

(** The table has eight places, so eight rounds are enough for a delivery. *)
Fixpoint process_loop (fuel : nat) (processed : Z) s : option (Z * input_state) :=
  if 0 <? g_queue_count s then
    match fuel with
    | O => None
    | S fuel =>
      event ← rd (g_event_queue s) (g_queue_head s);
      let s := with_queue (g_event_queue s) (Z.rem (g_queue_head s + 1) INPUT_EVENT_QUEUE_SIZE)
                 (g_queue_tail s) (g_queue_count s - 1) s in
      s ← deliver_loop 8 0 event (input_unlock s);
      s ← input_lock s;
      process_loop fuel (processed + 1) s
    end
  else Some (processed, s).

(** [fuel] bounds the number of events; a callback may post more. *)
Definition input_process_events (fuel : nat) s : option (Z * input_state) :=
  s ← input_lock s;
  '(processed, s) ← process_loop fuel 0 s;
  Some (processed, input_unlock s).

(** ** Gestures *)

(** [calloc] succeeds when [ok]; the new object is put at the end of the heap. *)
Definition input_recognizer_create (ok : bool) s : option Z * input_state :=
  if ok then (Some (Z.of_nat (List.length (recs s))), with_recs (recs s ++ [Some rec_zero]) s) else (None, s).

(** [free (NULL)] does nothing; freeing twice is a fault. *)
Definition input_recognizer_destroy (rec : option Z) s : option input_state :=
  match rec with
  | None => Some s
  | Some a => r ← rd (recs s) a; r ← r; l ← wr (recs s) a None; Some (with_recs l s)
  end.

Definition input_recognizer_add_gesture (rec : option Z) (gesture : Z) (cb : option F) (arg : Z) s
    : option (Z * input_state) :=
  match rec, cb with
  | Some a, Some _ =>
    r ← rd (recs s) a; r ← r;
    if INPUT_MAX_GESTURES <=? ir_count r then Some (-1, s) else
    entries ← wr (ir_entries r) (ir_count r) (mk_entry gesture cb arg true);
    l ← wr (recs s) a (Some (mk_rec entries (ir_count r + 1)));
    Some (0, with_recs l s)
  | _, _ => Some (-1, s)
  end.

Fixpoint dispatch_loop (fuel : nat) (i count : Z) (a : Z) (event : input_event_t) s
    : option (Z * input_state) :=
  r ← rd (recs s) a; r ← r;
  if i <? ir_count r then
    match fuel with
    | O => None
    | S fuel =>
      e ← rd (ir_entries r) i;
      if re_active e && (re_gesture e =? iv_type event) then
        f ← re_cb e;
        s ← call f event (re_arg e) s;
        dispatch_loop fuel (i + 1) (count + 1) a event s
      else dispatch_loop fuel (i + 1) count a event s
    end
  else Some (count, s).

Definition input_recognizer_dispatch (rec : option Z) (event : option input_event_t) s
    : option (Z * input_state) :=
  match rec, event with
  | Some a, Some event => dispatch_loop 16 0 0 a event s
  | _, _ => Some (-1, s)
  end.
End Input.
Arguments input_device_t : clear implicits.
Arguments input_state : clear implicits.
Arguments input_recognizer : clear implicits.

(** ** Names *)

Local Open Scope string_scope.
Definition key_names : list string :=
  ["UNKNOWN"; "UP"; "DOWN"; "LEFT"; "RIGHT"; "ENTER"; "ESCAPE"; "BACK"; "HOME"; "MENU"; "VOL_UP"; "VOL_DOWN";
   "POWER"; "A"; "B"; "C"; "D"; "E"; "F"; "G"; "H"; "I"; "J"; "K"; "L"; "M"; "N"; "O"; "P"; "Q"; "R"; "S"; "T";
   "U"; "V"; "W"; "X"; "Y"; "Z"; "SHIFT"; "CTRL"; "ALT"; "META"; "SPACE"; "TAB"; "BACKSPACE"].
Definition input_key_to_str (key : Z) : string := default "UNKNOWN" (key_names !! Z.to_nat key).

Definition event_names : list string :=
  ["NONE"; "KEY_DOWN"; "KEY_UP"; "KEY_REPEAT"; "BUTTON_TAP"; "BUTTON_LONG_TAP"; "BUTTON_DOUBLE_TAP";
   "BUTTON_HOLD"; "BUTTON_RELEASE"; "ENCODER_CW"; "ENCODER_CCW"; "TOUCH_DOWN"; "TOUCH_UP"; "TOUCH_MOVE";
   "GESTURE_TAP"; "GESTURE_LONG_PRESS"; "GESTURE_DRAG"; "GESTURE_SWIPE"; "GESTURE_PINCH"].
Definition input_event_to_str (type : Z) : string := default "UNKNOWN" (event_names !! Z.to_nat type).
