(* ===== verification/InputThm.v ===== *)
(** * Input is a list of devices and a queue of events *)

From Stdlib Require Import ZArith Lia.
From stdpp Require Import base tactics option numbers list.
From S2P Require Import Prelude.
From S2P Require Import CString.
From S2P Require Import Runs.
From S2P Require Import Tables.
From S2P Require Import Input.

Lemma first_map {A B} (f : A → B) p l : first p (f <$> l) = first (λ a, p (f a)) l.
Proof. induction l as [|a l IH]; [done|]. cbn. by rewrite IH. Qed.

Lemma u32_back j : 0 <= j < 2 ^ 32 → u32 (u32 (j - 1) + 1) = j.
Proof. intros Hj. rewrite wrap_add_l. replace (j - 1 + 1) with j by lia. by apply wrap_id. Qed.

Lemma rem_add a b : 0 <= a → 0 <= b → Z.rem (Z.rem a 64 + b) 64 = Z.rem (a + b) 64.
Proof.
  intros. pose proof (Z.mod_pos_bound a 64 ltac:(lia)). rewrite (Z.rem_mod_nonneg a), !Z.rem_mod_nonneg by lia.
  apply Zplus_mod_idemp_l.
Qed.

Section InputThm.
Context {F E : Type} `{InputClock E}.
(** What the callbacks do to the world; they leave the input system alone. *)
Context (act : F → input_event_t → Z → E → E).

Definition with_env {F' : Type} (e : E) (s : input_state F' E) : input_state F' E :=
  mk_input (g_devices s) (g_device_count s) (g_config s) (g_event_queue s) (g_queue_head s) (g_queue_tail s)
    (g_queue_count s) (g_last_key_states s) (g_key_repeat_states s) (g_lock s) (recs s) e.
Definition quiet (f : F) (event : input_event_t) (arg : Z) (s : input_state F E) : option (input_state F E) :=
  Some (with_env (act f event arg (in_env s)) s).

(** ** The model *)

Record mdev := mk_mdev {
  md_name : list Z; md_type : Z; md_maps : list input_mapping_t; md_cb : option F; md_arg : Z
}.
Record minput := mk_minput {
  m_devs : list mdev; m_config : input_config_t; m_queue : list input_event_t;
  m_last : list Z; m_repeat : list Z; m_env : E
}.
Implicit Types (s : input_state F E) (d : input_device_t F) (n : minput) (m : input_mapping_t).

Definition devs s : list (input_device_t F) := packed (g_device_count s) (g_devices s).
Definition maps d : list input_mapping_t := packed (id_mapping_count d) (id_mappings d).
Definition abs_dev d : mdev := mk_mdev (c_str (id_name d)) (id_type d) (maps d) (id_callback d) (id_callback_arg d).
Definition events s : list input_event_t := ring (g_event_queue s) (g_queue_head s) (g_queue_count s).
Definition abs s : minput :=
  mk_minput (abs_dev <$> devs s) (g_config s) (events s) (g_last_key_states s) (g_key_repeat_states s) (in_env s).

Definition dev_ok d : Prop := blen (id_mappings d) = 32 ∧ 0 <= id_mapping_count d <= 32.

(** With the lock at [lock]. *)
Record inv (lock : Z) s : Prop := {
  inv_size : blen (g_devices s) = 8;
  inv_count : 0 <= g_device_count s <= 8;
  inv_devices : Forall dev_ok (g_devices s);
  inv_active : Forall (λ d, id_active d = true) (devs s);
  inv_ring : ring_ok 64 (g_event_queue s) (g_queue_head s) (g_queue_count s);
  inv_tail : g_queue_tail s = Z.rem (g_queue_head s + g_queue_count s) 64;
  inv_last : blen (g_last_key_states s) = 46;
  inv_repeat : blen (g_key_repeat_states s) = 46;
  inv_lock : g_lock s = lock
}.

Lemma inv_relock a b s : inv a s → inv b (with_lock b s).
Proof. intros [? ? ? ? ? ? ? ? _]. by constructor. Qed.

Lemma lock_ok s : inv 0 s → input_lock s = Some (with_lock 1 s) ∧ inv 1 (with_lock 1 s).
Proof. intros Hs. unfold input_lock. rewrite (inv_lock _ _ Hs). split; [done|]. by eapply inv_relock. Qed.

(** A new table of devices. *)
Lemma inv_devs k s l count :
  inv k s → blen l = 8 → 0 <= count <= 8 → Forall dev_ok l → Forall (λ d, id_active d = true) (packed count l) →
  inv k (with_devices l count s).
Proof. intros [? ? ? ? ? ? ? ? ?] **. by constructor. Qed.

Lemma devs_length s : inv 1 s ∨ inv 0 s → length (devs s) = Z.to_nat (g_device_count s).
Proof. intros [Hs|Hs]; apply packed_length; rewrite (inv_size _ _ Hs); apply (inv_count _ _ Hs). Qed.

Lemma devs_get k s i :
  inv k s → 0 <= i < g_device_count s →
  ∃ d, rd (g_devices s) i = Some d ∧ devs s !! Z.to_nat i = Some d ∧ dev_ok d ∧ id_active d = true.
Proof.
  intros Hs Hi. pose proof (inv_count _ _ Hs) as Hc. pose proof (inv_size _ _ Hs) as Hl.
  destruct (packed_in (g_device_count s) (g_devices s) i Hi ltac:(lia)) as (d & Ed & Ep).
  exists d. split; [done|]. split; [done|].
  pose proof (inv_devices _ _ Hs) as Hd. pose proof (inv_active _ _ Hs) as Ha.
  rewrite Forall_lookup in Hd, Ha. split; [|by eapply Ha].
  rewrite rd_lookup in Ed by lia. by eapply Hd.
Qed.

(** ** Searching the table *)

Definition named (name : list Z) (x : mdev) : bool := str_eq (md_name x) name.

Lemma find_loop_ok k s name r i :
  inv k s → 0 <= i → i + Z.of_nat r = g_device_count s →
  find_loop r i name s =
    Some ((λ j, i + Z.of_nat j) <$> first (named name) (abs_dev <$> drop (Z.to_nat i) (devs s))).
Proof.
  intros Hs. revert i. induction r as [|r IH]; intros i Hi Hr; cbn [find_loop].
  - rewrite drop_ge; [done|]. unfold devs, packed. rewrite length_take. lia.
  - destruct (devs_get k s i Hs ltac:(lia)) as (d & Ed & Ep & _). rewrite Ed. cbn [mbind option_bind].
    rewrite (drop_S _ _ _ Ep). cbn [fmap list_fmap first].
    change (named name (abs_dev d)) with (str_eq (c_str (id_name d)) name).
    destruct (str_eq (c_str (id_name d)) name).
    + cbn. do 2 f_equal. lia.
    + rewrite IH by lia. replace (Z.to_nat (i + 1)) with (S (Z.to_nat i)) by lia. unfold fmap.
      destruct (first (named name) _) as [j|]; cbn; [|done]. do 2 f_equal. lia.
Qed.

Lemma find_ok k s name :
  inv k s →
  find_loop (Z.to_nat (g_device_count s)) 0 name s = Some (Z.of_nat <$> first (named name) (m_devs (abs s))).
Proof.
  intros Hs. pose proof (inv_count _ _ Hs). rewrite (find_loop_ok k) by (done || lia). done.
Qed.

Lemma first_dev_lt s p j : first p (m_devs (abs s)) = Some j → (j < length (devs s))%nat.
Proof. intros Hj%first_lt. cbn in Hj. by rewrite length_fmap in Hj. Qed.

(** ** Mappings *)

Definition room (x : mdev) : bool := bool_decide (length (md_maps x) < 32)%nat.

Definition set_at (i : Z) m s : option (Z * input_state F E) :=
  d ← rd (g_devices s) i;
  ms ← wr (id_mappings d) (id_mapping_count d) m;
  l ← wr (g_devices s) i (with_maps ms (id_mapping_count d + 1) d);
  Some (0, with_devices l (g_device_count s) s).

Lemma maps_length d : dev_ok d → length (maps d) = Z.to_nat (id_mapping_count d).
Proof. intros [Hl Hc]. apply packed_length. lia. Qed.

Lemma room_count d : dev_ok d → room (abs_dev d) = (id_mapping_count d <? 32).
Proof.
  intros Hd. unfold room. cbn [abs_dev md_maps]. rewrite maps_length by done. destruct Hd as [_ Hc].
  destruct (Z.ltb_spec (id_mapping_count d) 32); [apply bool_decide_eq_true_2|apply bool_decide_eq_false_2]; lia.
Qed.

Lemma set_loop_ok k s m r i :
  inv k s → 0 <= i → i + Z.of_nat r = g_device_count s →
  set_loop r i m s =
    match first room (abs_dev <$> drop (Z.to_nat i) (devs s)) with
    | Some j => set_at (i + Z.of_nat j) m s
    | None => Some (-1, s)
    end.
Proof.
  intros Hs. revert i. induction r as [|r IH]; intros i Hi Hr; cbn [set_loop].
  - rewrite drop_ge; [done|]. unfold devs, packed. rewrite length_take. lia.
  - destruct (devs_get k s i Hs ltac:(lia)) as (d & Ed & Ep & Hd & _). rewrite Ed. cbn [mbind option_bind].
    rewrite (drop_S _ _ _ Ep). cbn [fmap list_fmap first]. rewrite room_count by done. unfold INPUT_MAP_MAX.
    destruct (id_mapping_count d <? 32).
    + unfold set_at. rewrite Z.add_0_r. by rewrite Ed.
    + rewrite IH by lia. replace (Z.to_nat (i + 1)) with (S (Z.to_nat i)) by lia. unfold fmap.
      destruct (first room _) as [j|]; cbn; [|done]. f_equal. lia.
Qed.

Definition with_md_maps (l : list input_mapping_t) (x : mdev) : mdev :=
  mk_mdev (md_name x) (md_type x) l (md_cb x) (md_arg x).
Definition with_devs (l : list mdev) n : minput :=
  mk_minput l (m_config n) (m_queue n) (m_last n) (m_repeat n) (m_env n).

(** Writing a device that is in use. *)
Lemma put_device k s i d' :
  inv k s → 0 <= i < g_device_count s → dev_ok d' → id_active d' = true →
  ∃ l, wr (g_devices s) i d' = Some l ∧ inv k (with_devices l (g_device_count s) s) ∧
    abs (with_devices l (g_device_count s) s) = with_devs (<[Z.to_nat i := abs_dev d']> (m_devs (abs s))) (abs s).
Proof.
  intros Hs Hi Hd' Ha'. pose proof (inv_size _ _ Hs) as Hl. pose proof (inv_count _ _ Hs) as Hc.
  destruct (packed_set (g_device_count s) (g_devices s) i d' Hi ltac:(lia)) as (l & Ew & Hl' & Ep & HP).
  exists l. split; [done|]. split.
  - apply inv_devs; [done|lia|done|apply HP; [done|by apply (inv_devices _ _ Hs)]|].
    rewrite Ep. apply Forall_insert; [|done]. apply (inv_active _ _ Hs).
  - unfold abs, with_devs, devs. cbn [g_devices g_device_count with_devices m_devs]. rewrite Ep. f_equal.
    by rewrite list_fmap_insert.
Qed.

Lemma set_at_ok k s m j x :
  inv k s → m_devs (abs s) !! j = Some x → room x = true →
  ∃ s', set_at (Z.of_nat j) m s = Some (0, s') ∧ inv k s' ∧
    abs s' = with_devs (<[j := with_md_maps (md_maps x ++ [m]) x]> (m_devs (abs s))) (abs s).
Proof.
  intros Hs Hx Hr. cbn in Hx. apply list_lookup_fmap_Some_1 in Hx as (d & -> & Hd).
  pose proof (lookup_lt_Some _ _ _ Hd) as Hj. pose proof (inv_size _ _ Hs). pose proof (inv_count _ _ Hs).
  unfold devs in Hj. rewrite packed_length in Hj by lia.
  destruct (devs_get k s (Z.of_nat j) Hs ltac:(lia)) as (d' & Ed & Ep & Hok & Ha).
  rewrite Nat2Z.id in Ep. assert (d' = d) as -> by congruence. rewrite room_count in Hr by done.
  unfold set_at. rewrite Ed. cbn [mbind option_bind]. apply Z.ltb_lt in Hr. destruct Hok as [Hm Hmc].
  destruct (packed_push (id_mapping_count d) (id_mappings d) m ltac:(lia)) as (ms & Ew & Hms & Epm & _).
  rewrite Ew. cbn [mbind option_bind].
  destruct (put_device k s (Z.of_nat j) (with_maps ms (id_mapping_count d + 1) d) Hs ltac:(lia)) as (l & El & Hi & Eabs).
  { split; cbn; lia. } { done. }
  rewrite El. cbn [mbind option_bind]. eexists. split; [done|]. split; [done|]. rewrite Eabs, Nat2Z.id.
  do 2 f_equal. unfold abs_dev, with_md_maps, maps. cbn. by rewrite Epm.
Qed.

(** Clearing keeps the mappings of the other applications, in order. *)
Definition others (app_id : Z) (l : list input_mapping_t) : list input_mapping_t :=
  filter (λ m, im_app_id m ≠ app_id) l.

Lemma clear_loop_ok app_id fuel j d :
  dev_ok d → 0 <= j <= id_mapping_count d → id_mapping_count d - j <= Z.of_nat fuel →
  ∃ d', clear_loop fuel j app_id d = Some d' ∧ dev_ok d' ∧ id_active d' = id_active d ∧
    abs_dev d' = with_md_maps (take (Z.to_nat j) (maps d) ++ others app_id (drop (Z.to_nat j) (maps d))) (abs_dev d).
Proof.
  revert j d. induction fuel as [|fuel IH]; intros j d Hd Hj Hf; cbn [clear_loop];
    pose proof (maps_length d Hd) as Hlen; pose proof Hd as [Hm Hmc].
  { rewrite (proj2 (Z.ltb_ge _ _)) by lia. exists d. split; [done|]. split; [done|]. split; [done|].
    rewrite take_ge, drop_ge, app_nil_r by lia. by destruct d. }
  destruct (Z.ltb_spec j (id_mapping_count d)) as [Hlt|Hge].
  2:{ exists d. split; [done|]. split; [done|]. split; [done|].
      rewrite take_ge, drop_ge, app_nil_r by lia. by destruct d. }
  destruct (packed_in (id_mapping_count d) (id_mappings d) j ltac:(lia) ltac:(lia)) as (m & Em & Ep).
  rewrite Em. cbn [mbind option_bind]. fold (maps d) in Ep.
  rewrite (drop_S _ _ _ Ep). unfold others. rewrite filter_cons. rewrite u32_back by lia.
  destruct (Z.eqb_spec (im_app_id m) app_id) as [Heq|Hne].
  - destruct (packed_remove (id_mapping_count d) (id_mappings d) j ltac:(lia) ltac:(lia)) as (ms & Es & Hms & Epm & _).
    rewrite Es. cbn [mbind option_bind].
    destruct (IH j (with_maps ms (id_mapping_count d - 1) d)) as (d' & E1 & Hd' & Ha' & Eabs).
    { split; cbn; lia. } { cbn; lia. } { cbn; lia. }
    exists d'. split; [done|]. split; [done|]. split; [done|]. rewrite Eabs.
    rewrite decide_False by tauto. unfold with_md_maps. cbn. f_equal.
    change (maps (with_maps ms (id_mapping_count d - 1) d)) with (packed (id_mapping_count d - 1) ms).
    rewrite Epm. fold (maps d). rewrite delete_take_drop.
    rewrite take_app_le, drop_app_le by (rewrite length_take; lia).
    rewrite take_take, Nat.min_id. by rewrite (drop_ge (take _ _)) by (rewrite length_take; lia).
  - destruct (IH (j + 1) d Hd ltac:(lia) ltac:(lia)) as (d' & E1 & Hd' & Ha' & Eabs).
    rewrite (wrap_id 32 (j + 1)) by (split; lia). exists d'. split; [done|]. split; [done|]. split; [done|].
    rewrite Eabs. rewrite decide_True by done. replace (Z.to_nat (j + 1)) with (S (Z.to_nat j)) by lia.
    rewrite (take_S_r _ _ _ Ep). by rewrite <- app_assoc.
Qed.

Definition cleared_dev (app_id : Z) (x : mdev) : mdev := with_md_maps (others app_id (md_maps x)) x.

Lemma clear_devices_ok k app_id r i s :
  inv k s → 0 <= i → i + Z.of_nat r = g_device_count s →
  ∃ s', clear_devices r i app_id s = Some s' ∧ inv k s' ∧
    abs s' = with_devs (take (Z.to_nat i) (m_devs (abs s)) ++
                        (cleared_dev app_id <$> drop (Z.to_nat i) (m_devs (abs s)))) (abs s).
Proof.
  revert i s. induction r as [|r IH]; intros i s Hs Hi Hr; cbn [clear_devices];
    pose proof (inv_size _ _ Hs) as Hsz; pose proof (inv_count _ _ Hs) as Hc.
  { exists s. split; [done|]. split; [done|].
    assert (length (m_devs (abs s)) = Z.to_nat (g_device_count s)) as Hlen
      by (cbn; rewrite length_fmap; apply packed_length; lia).
    rewrite take_ge, drop_ge by lia. rewrite app_nil_r. by destruct (abs s). }
  destruct (devs_get k s i Hs ltac:(lia)) as (d & Ed & Ep & Hok & Ha). rewrite Ed. cbn [mbind option_bind].
  destruct (clear_loop_ok app_id (Z.to_nat (id_mapping_count d)) 0 d Hok) as (d' & E1 & Hd' & Ha' & Eabs).
  { destruct Hok. lia. } { destruct Hok. lia. }
  rewrite E1. cbn [mbind option_bind].
  destruct (put_device k s i d' Hs ltac:(lia) Hd' ltac:(congruence)) as (l & El & Hi' & Ea).
  rewrite El. cbn [mbind option_bind].
  destruct (IH (i + 1) (with_devices l (g_device_count s) s) Hi' ltac:(lia) ltac:(cbn; lia)) as (s' & E2 & Hs' & Ea').
  exists s'. split; [done|]. split; [done|]. rewrite Ea', Ea. unfold with_devs at 1 3. cbn [m_devs with_devs].
  assert (m_devs (abs s) !! Z.to_nat i = Some (abs_dev d)) as Em by (cbn; by rewrite list_lookup_fmap, Ep).
  assert (Z.to_nat i < length (m_devs (abs s)))%nat as Hlt by by eapply lookup_lt_Some.
  replace (Z.to_nat (i + 1)) with (S (Z.to_nat i)) by lia. unfold with_devs. cbn [m_config m_queue m_last m_repeat m_env].
  f_equal. rewrite (drop_S _ _ _ Em). cbn [fmap list_fmap].
  rewrite (take_S_r _ _ (abs_dev d')) by by apply list_lookup_insert_eq.
  rewrite take_insert_ge, drop_insert_lt by lia. rewrite <- app_assoc. cbn [app]. do 2 f_equal.
  rewrite Eabs. unfold cleared_dev. cbn [Z.to_nat take app drop md_maps abs_dev]. done.
Qed.

(** The first mapping of the application for the key, device by device. *)
Definition asked (app_id source_key : Z) (l : list input_mapping_t) : list input_mapping_t :=
  filter (λ m, im_app_id m = app_id ∧ im_source_key m = source_key) l.

Lemma mapping_loop_ok app_id key d r j :
  dev_ok d → 0 <= j → j + Z.of_nat r = id_mapping_count d →
  mapping_loop r j app_id key d = Some (im_target_action <$> head (asked app_id key (drop (Z.to_nat j) (maps d)))).
Proof.
  intros Hd. pose proof (maps_length d Hd) as Hlen. pose proof Hd as [Hm Hmc].
  revert j. induction r as [|r IH]; intros j Hj Hr; cbn [mapping_loop].
  { by rewrite drop_ge by lia. }
  destruct (packed_in (id_mapping_count d) (id_mappings d) j ltac:(lia) ltac:(lia)) as (m & Em & Ep).
  rewrite Em. cbn [mbind option_bind]. fold (maps d) in Ep.
  rewrite (drop_S _ _ _ Ep). unfold asked. rewrite filter_cons.
  destruct (Z.eqb_spec (im_app_id m) app_id) as [E1|E1], (Z.eqb_spec (im_source_key m) key) as [E2|E2]; cbn [andb].
  1:{ by rewrite decide_True. }
  all: rewrite decide_False by tauto; rewrite IH by lia; by replace (Z.to_nat (j + 1)) with (S (Z.to_nat j)) by lia.
Qed.

Lemma get_loop_ok k app_id key s r i :
  inv k s → 0 <= i → i + Z.of_nat r = g_device_count s →
  get_loop r i app_id key s =
    Some (im_target_action <$> head (asked app_id key (concat (md_maps <$> drop (Z.to_nat i) (m_devs (abs s)))))).
Proof.
  intros Hs. pose proof (inv_size _ _ Hs) as Hsz. pose proof (inv_count _ _ Hs) as Hc.
  revert i. induction r as [|r IH]; intros i Hi Hr; cbn [get_loop].
  { rewrite drop_ge; [done|]. cbn. rewrite length_fmap. unfold devs. rewrite packed_length by lia. lia. }
  destruct (devs_get k s i Hs ltac:(lia)) as (d & Ed & Ep & Hok & Ha). rewrite Ed. cbn [mbind option_bind].
  rewrite mapping_loop_ok by (done || destruct Hok; lia). cbn [mbind option_bind Z.to_nat drop].
  assert (m_devs (abs s) !! Z.to_nat i = Some (abs_dev d)) as Em by (cbn; by rewrite list_lookup_fmap, Ep).
  rewrite (drop_S _ _ _ Em). cbn [fmap list_fmap concat]. unfold asked. rewrite filter_app.
  change (md_maps (abs_dev d)) with (maps d). change (drop (Z.to_nat 0) (maps d)) with (maps d).
  destruct (filter _ (maps d)) as [|m l]; [|done]. cbn [head fmap option_fmap option_map app].
  rewrite IH by lia. by replace (Z.to_nat (i + 1)) with (S (Z.to_nat i)) by lia.
Qed.

(** ** Events *)

(** The queue holds 64 events; what comes later is lost. *)
Definition enqueue (e : input_event_t) n : minput :=
  mk_minput (m_devs n) (m_config n) (if bool_decide (length (m_queue n) < 64)%nat then m_queue n ++ [e] else m_queue n)
    (m_last n) (m_repeat n) (m_env n).
Definition queue_code n : Z := if bool_decide (length (m_queue n) < 64)%nat then 0 else -1.

Lemma events_length k s : inv k s → length (events s) = Z.to_nat (g_queue_count s).
Proof. intros Hs. apply (ring_length 64), (inv_ring _ _ Hs). Qed.

Lemma queue_event_ok k e s :
  inv k s →
  ∃ s', input_queue_event e s = Some (queue_code (abs s), s') ∧ inv k s' ∧ abs s' = enqueue e (abs s).
Proof.
  intros Hs. pose proof (events_length k s Hs) as Hlen. pose proof (inv_ring _ _ Hs) as Hr.
  pose proof Hr as (_ & Hh & Hc). unfold input_queue_event, queue_code, enqueue, INPUT_EVENT_QUEUE_SIZE.
  cbn [m_queue abs]. destruct (Z.leb_spec 64 (g_queue_count s)) as [Hf|Hf].
  { rewrite bool_decide_eq_false_2 by lia. exists s. by destruct s. }
  rewrite bool_decide_eq_true_2 by lia. rewrite (inv_tail _ _ Hs).
  destruct (ring_push 64 _ _ _ e Hr Hf) as (q & Ew & Hr' & Eq). rewrite Ew. cbn [mbind option_bind].
  eexists. split; [done|]. split.
  - destruct Hs as [? ? ? ? ? ? ? ? ?]. constructor; try done. cbn [g_queue_tail g_queue_head g_queue_count with_queue].
    rewrite rem_add by lia. f_equal. lia.
  - unfold abs, events. cbn [g_event_queue g_queue_head g_queue_count with_queue]. by rewrite Eq.
Qed.

(** The classification of a key event, on the tables of the last presses. *)
Definition pressed_event (cfg : input_config_t) (key now before : Z) : input_event_t :=
  let twice := (0 <? before) && (u32 (now - before) <? ic_double_tap_threshold_ms cfg) in
  mk_iev (if twice then INPUT_EVENT_BUTTON_DOUBLE_TAP else INPUT_EVENT_KEY_DOWN) key now 0 0 0 0 0 0 0
    (if twice then 2 else 1).
Definition released_event (cfg : input_config_t) (key now last : Z) : input_event_t :=
  let held := u32 (now - last) in
  if ic_hold_threshold_ms cfg <=? held then mk_iev INPUT_EVENT_BUTTON_RELEASE key now 0 0 0 0 0 0 held 0
  else mk_iev (if ic_long_press_threshold_ms cfg <=? held then INPUT_EVENT_BUTTON_LONG_TAP
               else if ic_tap_threshold_ms cfg <=? held then INPUT_EVENT_BUTTON_TAP
               else INPUT_EVENT_KEY_UP) key now 0 0 0 0 0 0 0 0.
Definition m_now n : Z := scheduler_get_tick_count (m_env n).

Definition spec_press (key : Z) n : minput :=
  let before := default 0 (m_repeat n !! Z.to_nat key) in
  let e := pressed_event (m_config n) key (m_now n) before in
  enqueue e (mk_minput (m_devs n) (m_config n) (m_queue n) (<[Z.to_nat key := m_now n]> (m_last n))
    (<[Z.to_nat key := if iv_tap_count e =? 2 then 0 else m_now n]> (m_repeat n)) (m_env n)).
Definition spec_release (key : Z) n : minput :=
  enqueue (released_event (m_config n) key (m_now n) (default 0 (m_last n !! Z.to_nat key))) n.

Lemma press_ok k key s :
  inv k s → 0 <= key < 46 →
  ∃ s', process_key_event key true s = Some s' ∧ inv k s' ∧ abs s' = spec_press key (abs s).
Proof.
  intros Hs Hk. pose proof (inv_last _ _ Hs) as Hl. pose proof (inv_repeat _ _ Hs) as Hr.
  unfold process_key_event, spec_press. cbn [m_repeat m_config abs m_devs m_queue m_last m_env]. cbv zeta.
  rewrite wr_ok by lia. cbn [mbind option_bind].
  destruct (rd_ok (g_key_repeat_states s) key) as [before Eb]; [lia|]. rewrite Eb. cbn [mbind option_bind].
  rewrite rd_lookup in Eb by lia. rewrite Eb. cbn [default from_option].
  rewrite wr_ok by lia. cbn [mbind option_bind]. change (m_now (abs s)) with (scheduler_get_tick_count (in_env s)).
  set (e := mk_iev _ _ _ _ _ _ _ _ _ _ _).
  match goal with |- context [input_queue_event e ?x] => set (s1 := x) end.
  assert (inv k s1) as Hs1.
  { destruct Hs as [? ? ? ? ? ? ? ? ?]. constructor; try done; unfold blen in *; cbn; by rewrite length_insert. }
  destruct (queue_event_ok k e s1 Hs1) as (s' & -> & Hs' & Ea). cbn [mbind option_bind].
  exists s'. split; [done|]. split; [done|]. rewrite Ea. f_equal. unfold s1, abs, pressed_event. cbn. f_equal.
  by destruct ((0 <? before) && _).
Qed.

Lemma release_ok k key s :
  inv k s → 0 <= key < 46 →
  ∃ s', process_key_event key false s = Some s' ∧ inv k s' ∧ abs s' = spec_release key (abs s).
Proof.
  intros Hs Hk. pose proof (inv_last _ _ Hs) as Hl.
  unfold process_key_event, spec_release. cbn [m_last m_config abs m_env]. cbv zeta.
  destruct (rd_ok (g_last_key_states s) key) as [last Eb]; [lia|]. rewrite Eb. cbn [mbind option_bind].
  rewrite rd_lookup in Eb by lia. rewrite Eb. cbn [default from_option].
  change (m_now (abs s)) with (scheduler_get_tick_count (in_env s)).
  assert (∀ e, (∃ s', ('(_, s') ← input_queue_event e s; Some s') = Some s' ∧ inv k s' ∧ abs s' = enqueue e (abs s))) as Hq.
  { intros e. destruct (queue_event_ok k e s Hs) as (s' & -> & Hs' & Ea). by exists s'. }
  unfold released_event. cbv zeta.
  destruct (ic_hold_threshold_ms _ <=? _); [apply Hq|]. destruct (ic_long_press_threshold_ms _ <=? _); [apply Hq|].
  destruct (ic_tap_threshold_ms _ <=? _); apply Hq.
Qed.

(** ** Delivery *)

Definition deliver (l : list mdev) (e : E) (event : input_event_t) : E :=
  foldl (λ e x, match md_cb x with Some f => act f event (md_arg x) e | None => e end) e l.

Lemma deliver_loop_ok k event fuel i s :
  inv k s → 0 <= i <= g_device_count s → g_device_count s - i <= Z.of_nat fuel →
  deliver_loop quiet fuel i event s =
    Some (with_env (deliver (drop (Z.to_nat i) (m_devs (abs s))) (in_env s) event) s).
Proof.
  revert i s. induction fuel as [|fuel IH]; intros i s Hs Hi Hf; cbn [deliver_loop];
    pose proof (inv_size _ _ Hs) as Hsz; pose proof (inv_count _ _ Hs) as Hc;
    assert (length (m_devs (abs s)) = Z.to_nat (g_device_count s)) as Hlen
      by (cbn; rewrite length_fmap; apply packed_length; lia).
  { rewrite (proj2 (Z.ltb_ge _ _)) by lia. rewrite drop_ge by lia. by destruct s. }
  destruct (Z.ltb_spec i (g_device_count s)) as [Hlt|Hge]; [|rewrite drop_ge by lia; by destruct s].
  destruct (devs_get k s i Hs ltac:(lia)) as (d & Ed & Ep & Hok & Ha). rewrite Ed. cbn [mbind option_bind]. rewrite Ha.
  assert (m_devs (abs s) !! Z.to_nat i = Some (abs_dev d)) as Em by (cbn; by rewrite list_lookup_fmap, Ep).
  rewrite (drop_S _ _ _ Em). unfold deliver. cbn [foldl].
  change (md_cb (abs_dev d)) with (id_callback d). change (md_arg (abs_dev d)) with (id_callback_arg d).
  assert (∀ e, deliver_loop quiet fuel (i + 1) event (with_env e s) =
    Some (with_env (deliver (drop (S (Z.to_nat i)) (m_devs (abs s))) e event) s)) as Hn.
  { intros e. rewrite IH; [|destruct Hs; by constructor|cbn; lia|cbn; lia].
    replace (Z.to_nat (i + 1)) with (S (Z.to_nat i)) by lia. done. }
  destruct (id_callback d) as [f|]; [apply Hn|]. cbn [mbind option_bind]. etransitivity; [|exact (Hn (in_env s))]. by destruct s.
Qed.

Definition spec_process n : Z * minput :=
  (Z.of_nat (length (m_queue n)),
   mk_minput (m_devs n) (m_config n) [] (m_last n) (m_repeat n)
     (foldl (deliver (m_devs n)) (m_env n) (m_queue n))).

Lemma process_loop_ok fuel done s :
  inv 1 s → (length (events s) <= fuel)%nat →
  ∃ s', process_loop quiet fuel done s = Some (done + Z.of_nat (length (events s)), s') ∧ inv 1 s' ∧
    abs s' = snd (spec_process (abs s)).
Proof.
  revert done s. induction fuel as [|fuel IH]; intros done s Hs Hf; cbn [process_loop];
    pose proof (ring_front 64 _ _ _ (inv_ring _ _ Hs)) as Hfr; fold (events s) in Hfr;
    destruct (events s) as [|e l] eqn:Eq; cbn [length] in *.
  1, 3: (rewrite Hfr; exists s; split; [cbn; by rewrite Z.add_0_r|]; split; [done|];
         unfold spec_process, abs; cbn; by rewrite Eq).
  { lia. }
  destruct Hfr as [Hc Ee]. rewrite (proj2 (Z.ltb_lt 0 _)), Ee by lia. cbn [mbind option_bind].
  destruct (ring_pop 64 _ _ _ e l (inv_ring _ _ Hs) Eq) as [Hr' Eq'].
  match goal with |- context [input_unlock ?x] => set (s1 := x) end.
  assert (inv 1 s1) as Hs1.
  { destruct Hs as [? ? ? ? [_ [? ?]] Ht ? ? ?]. constructor; try done. cbn. rewrite Ht. unfold INPUT_EVENT_QUEUE_SIZE.
    rewrite rem_add by lia. f_equal. lia. }
  assert (inv 0 (input_unlock s1)) as Hs0 by by eapply inv_relock.
  pose proof (inv_count _ _ Hs) as Hdc.
  rewrite (deliver_loop_ok 0) by (done || (cbn; lia)). cbn [mbind option_bind].
  destruct (lock_ok (with_env (deliver (drop (Z.to_nat 0) (m_devs (abs (input_unlock s1)))) (in_env (input_unlock s1)) e)
    (input_unlock s1))) as [-> Hs2]; [destruct Hs0; by constructor|]. cbn [mbind option_bind].
  match goal with |- context [process_loop quiet fuel (done + 1) ?x] => set (s2 := x) in * end.
  assert (events s2 = l) as E2 by exact Eq'.
  destruct (IH (done + 1) s2 Hs2) as (s' & E3 & Hs' & Ea); [rewrite E2; lia|].
  exists s'. split; [rewrite E3, E2; do 2 f_equal; lia|]. split; [done|]. rewrite Ea.
  unfold spec_process, abs. cbn. fold (events s2). rewrite E2, Eq. done.
Qed.

(** ** Every sequence of calls *)

Inductive input_op :=
  | Init (config : option input_config_t) | Deinit
  | Register (type : Z) (name : option (list Z)) (cb : option F) (arg : Z)
  | Unregister (name : option (list Z)) | Find (name : option (list Z))
  | Post (event : option input_event_t)
  | SetMapping (app_id type source_key target_action : Z)
  | ClearMappings (app_id : Z) | GetMapping (app_id source_key : Z)
  | Process | World (e : E).
Inductive input_res := RInt (z : Z) | RPlace (i : option Z) | RAction (z : Z) (action : option Z).

(** Strings end, and key events name keys. *)
Definition op_ok (o : input_op) : Prop :=
  match o with
  | Register _ (Some name) _ _ => is_cstr name
  | Post (Some e) => iv_type e = INPUT_EVENT_KEY_DOWN ∨ iv_type e = INPUT_EVENT_KEY_UP → 0 <= iv_key e < 46
  | _ => True
  end.

Definition step (o : input_op) s : option (input_res * input_state F E) :=
  match o with
  | Init config => let (r, s) := input_init config s in Some (RInt r, s)
  | Deinit => s ← input_deinit s; Some (RInt 0, s)
  | Register type name cb arg => '(r, s) ← input_device_register type name cb arg s; Some (RInt r, s)
  | Unregister name => '(r, s) ← input_device_unregister name s; Some (RInt r, s)
  | Find name => '(i, s) ← input_device_find name s; Some (RPlace i, s)
  | Post event => '(r, s) ← input_post_event event s; Some (RInt r, s)
  | SetMapping app type key action => '(r, s) ← input_set_mapping app type key action s; Some (RInt r, s)
  | ClearMappings app => '(r, s) ← input_clear_mappings app s; Some (RInt r, s)
  | GetMapping app key => '(r, a, s) ← input_get_mapping app key s; Some (RAction r a, s)
  | Process => '(r, s) ← input_process_events quiet (Z.to_nat (g_queue_count s)) s; Some (RInt r, s)
  | World e => Some (RInt 0, with_env e s)
  end.

Definition m_clear (cfg : input_config_t) n : minput :=
  mk_minput [] cfg [] (replicate 46 0) (replicate 46 0) (m_env n).

Definition spec_register (type : Z) (name : option (list Z)) (cb : option F) (arg : Z) n : Z * minput :=
  match name with
  | None => (-1, n)
  | Some name =>
    if bool_decide (8 <= length (m_devs n))%nat then (-1, n) else
    match first (named name) (m_devs n) with
    | Some _ => (-1, n)
    | None => (0, with_devs (m_devs n ++ [mk_mdev (take 31 name) type [] cb arg]) n)
    end
  end.

Definition found (name : option (list Z)) n : option nat := name ← name; first (named name) (m_devs n).

Definition spec_post (event : option input_event_t) n : Z * minput :=
  match event with
  | None => (-1, n)
  | Some e =>
    if iv_type e =? INPUT_EVENT_KEY_DOWN then (0, spec_press (iv_key e) n)
    else if iv_type e =? INPUT_EVENT_KEY_UP then (0, spec_release (iv_key e) n)
    else (queue_code n, enqueue e n)
  end.

Definition spec_set_mapping m n : Z * minput :=
  match first room (m_devs n) with
  | Some j => (0, with_devs (alter (λ x, with_md_maps (md_maps x ++ [m]) x) j (m_devs n)) n)
  | None => (-1, n)
  end.

Definition spec (o : input_op) n : option (input_res * minput) :=
  Some match o with
  | Init config => (RInt 0, m_clear (default default_config config) n)
  | Deinit => (RInt 0, m_clear (mk_icfg 0 0 0 0 0 0 0) n)
  | Register type name cb arg => let (r, n) := spec_register type name cb arg n in (RInt r, n)
  | Unregister name =>
    match found name n with
    | Some i => (RInt 0, with_devs (delete i (m_devs n)) n)
    | None => (RInt (-1), n)
    end
  | Find name => (RPlace (Z.of_nat <$> found name n), n)
  | Post event => let (r, n) := spec_post event n in (RInt r, n)
  | SetMapping app type key action =>
    let (r, n) := spec_set_mapping (mk_imap type key action app true) n in (RInt r, n)
  | ClearMappings app => (RInt 0, with_devs (cleared_dev app <$> m_devs n) n)
  | GetMapping app key =>
    (match im_target_action <$> head (asked app key (concat (md_maps <$> m_devs n))) with
     | Some a => RAction 0 (Some a) | None => RAction (-1) None end, n)
  | Process => let (r, n) := spec_process n in (RInt r, n)
  | World e => (RInt 0, mk_minput (m_devs n) (m_config n) (m_queue n) (m_last n) (m_repeat n) e)
  end.

Lemma cleared_ok cfg s : inv 0 (cleared cfg s) ∧ abs (cleared cfg s) = m_clear cfg (abs s).
Proof.
  split; [|done]. constructor; try done.
  - assert (dev_ok idev_zero) by (split; [done|cbn; lia]). by repeat constructor.
Qed.

(** What each call has to show. *)
Definition does (x : option (input_res * input_state F E)) (y : option (input_res * minput)) : Prop :=
  ∃ r s', x = Some (r, s') ∧ inv 0 s' ∧ y = Some (r, abs s').

Lemma register_ok type name cb arg s :
  op_ok (Register type name cb arg) → inv 0 s →
  does (step (Register type name cb arg) s) (spec (Register type name cb arg) (abs s)).
Proof.
  intros Hn Hs. cbn [step]. unfold spec. unfold input_device_register, spec_register, does.
  destruct name as [name|]; [|by eauto 10]. cbn in Hn.
  destruct (lock_ok s Hs) as [-> Hl]. cbn [mbind option_bind].
  pose proof (inv_count _ _ Hs) as Hc. pose proof (inv_size _ _ Hs) as Hsz.
  assert (length (m_devs (abs s)) = Z.to_nat (g_device_count s)) as Hlen
    by (cbn; rewrite length_fmap; apply devs_length; auto).
  rewrite Hlen. unfold INPUT_MAX_DEVICES. cbn [g_device_count with_lock].
  assert (inv 0 (input_unlock (with_lock 1 s)) ∧ abs (input_unlock (with_lock 1 s)) = abs s) as [Hu Eu]
    by (split; [by eapply inv_relock|done]).
  destruct (Z.leb_spec 8 (g_device_count s)) as [Hf|Hf].
  { rewrite bool_decide_eq_true_2 by lia. eauto 10. }
  rewrite bool_decide_eq_false_2 by lia.
  pose proof (find_ok 1 (with_lock 1 s) name Hl) as Ef. cbn [g_device_count with_lock] in Ef. rewrite Ef.
  change (abs (with_lock 1 s)) with (abs s). cbn [mbind option_bind].
  destruct (first (named name) (m_devs (abs s))) as [j|]; cbn [fmap option_fmap option_map]; [by eauto 10|].
  set (d := mk_idev _ _ _ _ _ _ _).
  destruct (packed_push (g_device_count s) (g_devices s) d ltac:(lia)) as (l & Ew & Hl' & Ep & HP).
  cbn [g_devices with_lock]. rewrite Ew. cbn [mbind option_bind]. do 2 eexists. split; [done|].
  assert (dev_ok d) as Hd by (split; cbn; [done|lia]). split.
  - eapply inv_relock. apply inv_devs; [done|lia|lia| |].
    + apply HP; [done|]. apply (inv_devices _ _ Hs).
    + rewrite Ep. apply Forall_app. split; [apply (inv_active _ _ Hs)|by constructor].
  - do 2 f_equal. unfold abs, with_devs, devs. cbn. rewrite Ep, fmap_app. do 3 f_equal.
    unfold d, abs_dev. cbn. by rewrite c_str_strncpy.
Qed.

Lemma unregister_ok name s :
  inv 0 s → does (step (Unregister name) s) (spec (Unregister name) (abs s)).
Proof.
  intros Hs. cbn [step]. unfold spec. unfold input_device_unregister, found, does.
  destruct name as [name|]; [|by eauto 10]. cbn [mbind option_bind].
  destruct (lock_ok s Hs) as [-> Hl]. cbn [mbind option_bind].
  pose proof (inv_count _ _ Hs) as Hc. pose proof (inv_size _ _ Hs) as Hsz.
  rewrite (find_ok 1 _ name Hl). change (abs (with_lock 1 s)) with (abs s). cbn [mbind option_bind].
  destruct (first (named name) (m_devs (abs s))) as [j|] eqn:Ej; cbn [fmap option_fmap option_map].
  2:{ do 2 eexists. split; [done|]. split; [by eapply inv_relock|done]. }
  apply first_dev_lt in Ej. rewrite (devs_length s (or_intror Hs)) in Ej.
  cbn [g_devices g_device_count with_lock].
  destruct (packed_remove (g_device_count s) (g_devices s) (Z.of_nat j) ltac:(lia) ltac:(lia)) as (l & Es & Hl' & Ep & HP).
  rewrite Es. cbn [mbind option_bind]. rewrite Nat2Z.id in Ep. do 2 eexists. split; [done|]. split.
  - eapply inv_relock. apply inv_devs; [done|lia|lia| |].
    + apply HP, (inv_devices _ _ Hs).
    + rewrite Ep. apply Forall_delete, (inv_active _ _ Hs).
  - do 2 f_equal. unfold abs, with_devs, devs. cbn. rewrite Ep. by rewrite list_fmap_delete.
Qed.

Lemma input_post_ok event s :
  op_ok (Post event) → inv 0 s → does (step (Post event) s) (spec (Post event) (abs s)).
Proof.
  intros He Hs. cbn [step]. unfold spec. unfold input_post_event, spec_post, does.
  destruct event as [e|]; [|by eauto 10]. cbn in He.
  destruct (Z.eqb_spec (iv_type e) INPUT_EVENT_KEY_DOWN) as [E1|E1].
  { destruct (press_ok 0 (iv_key e) s Hs ltac:(auto)) as (s' & -> & Hs' & Ea). cbn. rewrite <- Ea. eauto 10. }
  destruct (Z.eqb_spec (iv_type e) INPUT_EVENT_KEY_UP) as [E2|E2].
  { destruct (release_ok 0 (iv_key e) s Hs ltac:(auto)) as (s' & -> & Hs' & Ea). cbn. rewrite <- Ea. eauto 10. }
  destruct (queue_event_ok 0 e s Hs) as (s' & -> & Hs' & Ea). cbn [mbind option_bind]. rewrite <- Ea. eauto 10.
Qed.

Lemma set_mapping_ok app type key action s :
  inv 0 s → does (step (SetMapping app type key action) s) (spec (SetMapping app type key action) (abs s)).
Proof.
  intros Hs. cbn [step]. unfold spec. unfold input_set_mapping, spec_set_mapping, does.
  destruct (lock_ok s Hs) as [-> Hl]. cbn [mbind option_bind]. pose proof (inv_count _ _ Hs) as Hc.
  rewrite (set_loop_ok 1) by (done || cbn; lia). set (m := mk_imap type key action app true).
  change (abs_dev <$> drop (Z.to_nat 0) (devs (with_lock 1 s))) with (m_devs (abs s)).
  destruct (first room (m_devs (abs s))) as [j|] eqn:Ej.
  2:{ do 2 eexists. split; [done|]. split; [by eapply inv_relock|done]. }
  apply first_some in Ej as (x & Ex & Hx).
  destruct (set_at_ok 1 (with_lock 1 s) m j x Hl Ex Hx) as (s' & E1 & Hs' & Ea). rewrite Z.add_0_l, E1.
  cbn [mbind option_bind]. do 2 eexists. split; [done|]. split; [by eapply inv_relock|].
  change (abs (input_unlock s')) with (abs s'). rewrite Ea. change (abs (with_lock 1 s)) with (abs s).
  do 4 f_equal. rewrite list_insert_alter. apply list_alter_ext; [|done]. congruence.
Qed.

Lemma input_step_refines : refines step spec op_ok (inv 0) abs.
Proof.
  intros o s Ho Hs.
  assert (does (step o s) (spec o (abs s))) as (r & s' & -> & Hs' & ->).
  2:{ split; [done|]. by intros ? ? [= _ <-]. }
  pose proof (inv_count _ _ Hs) as Hc.
  destruct (lock_ok s Hs) as [El Hl]. assert (∀ s1, inv 1 s1 → inv 0 (input_unlock s1)) as Hu by (intros ? ?; by eapply inv_relock).
  destruct o as [config| |type name cb arg|name|name|event|app type key action|app|app key| |e].
  - destruct (cleared_ok (default default_config config) s) as [Hi Ea]. cbn [step]. unfold spec. rewrite <- Ea. by do 2 eexists.
  - cbn [step]. unfold spec. unfold input_deinit. rewrite El. cbn [mbind option_bind].
    destruct (cleared_ok (mk_icfg 0 0 0 0 0 0 0) (with_lock 1 s)) as [Hi Ea].
    do 2 eexists. split; [done|]. split; [by eapply inv_relock|].
    change (abs (input_unlock ?x)) with (abs x). by rewrite Ea.
  - by apply register_ok.
  - by apply unregister_ok.
  - cbn [step]. unfold spec. unfold input_device_find, found. destruct name as [name|]; [|by do 2 eexists].
    rewrite El. cbn [mbind option_bind]. rewrite (find_ok 1 _ name Hl). cbn [mbind option_bind].
    do 2 eexists. split; [done|]. split; [by apply Hu|done].
  - by apply input_post_ok.
  - by apply set_mapping_ok.
  - cbn [step]. unfold spec. unfold input_clear_mappings. rewrite El. cbn [mbind option_bind].
    destruct (clear_devices_ok 1 app (Z.to_nat (g_device_count s)) 0 (with_lock 1 s) Hl) as (s' & E1 & Hs' & Ea);
      [lia|cbn; lia|]. cbn [g_device_count with_lock]. rewrite E1. cbn [mbind option_bind].
    do 2 eexists. split; [done|]. split; [by apply Hu|]. change (abs (input_unlock ?x)) with (abs x). by rewrite Ea.
  - cbn [step]. unfold spec. unfold input_get_mapping. rewrite El. cbn [mbind option_bind].
    rewrite (get_loop_ok 1) by (done || cbn; lia). cbn [mbind option_bind Z.to_nat drop].
    change (abs (with_lock 1 s)) with (abs s).
    destruct (im_target_action <$> _); (do 2 eexists; split; [done|]; split; [by apply Hu|done]).
  - cbn [step]. unfold spec. unfold input_process_events. rewrite El. cbn [mbind option_bind].
    destruct (process_loop_ok (Z.to_nat (g_queue_count s)) 0 (with_lock 1 s) Hl) as (s' & E1 & Hs' & Ea).
    { by rewrite (events_length 1). }
    rewrite E1. cbn [mbind option_bind]. do 2 eexists. split; [done|]. split; [by apply Hu|].
    change (abs (input_unlock ?x)) with (abs x). by rewrite Ea.
  - do 2 eexists. split; [done|]. split; [destruct Hs; by constructor|done].
Qed.

Lemma input_spec_total o n : ∃ r n', spec o n = Some (r, n').
Proof. unfold spec. match goal with |- ∃ r n', Some ?x = _ => destruct x as [r n'] end. eauto. Qed.

(** C16: input is a table of at most eight named devices with their key mappings and a queue
    of 64 events. From any good state every sequence of calls (initialising, registering and
    removing devices, posting, setting, clearing and reading mappings, processing) gives the
    results of the lists: names are found and removed at their first place, a mapping is
    added to the first device with room and cleared by application without disturbing the
    others, key events are classified by the times of the last presses, events come out once
    and in order and go to every device in the order of registration. No call faults, hangs
    on the lock or leaves it taken, as long as callbacks leave the input system alone. *)
Theorem input_refines l s :
  Forall op_ok l → inv 0 s →
  runs spec l (abs s) = seen abs (runs step l s) ∧
  ∃ rs s', runs step l s = Some (rs, s') ∧ inv 0 s'.
Proof.
  intros Hl Hs. destruct (runs_refine step spec op_ok (inv 0) abs l s input_step_refines Hl Hs) as [E1 Hi].
  split; [done|].
  destruct (runs_total spec input_spec_total l (abs s)) as [x Ex].
  rewrite Ex in E1. destruct (runs step l s) as [[rs s']|]; [|done]. exists rs, s'. split; [done|]. by eapply Hi.
Qed.
End InputThm.
