(* ===== verification/InputKeys.v ===== *)
(** * What key events mean

    The events that a history of key presses and releases queues, from the history
    alone. *)

From Stdlib Require Import ZArith Lia.
From stdpp Require Import base tactics option numbers list.
From S2P Require Import Prelude.
From S2P Require Import Runs.
From S2P Require Import Tables.
From S2P Require Import Input.
From S2P Require Import InputThm.

Section Keys.
Context {F E : Type} `{InputClock E}.
(** A world where the clock shows a given tick. *)
Context (at_tick : Z → E) (Hat : ∀ t, scheduler_get_tick_count (at_tick t) = t).
Implicit Types (s : input_state F E) (cfg : input_config_t).

Record key_event := mk_kev { ke_key : Z; ke_pressed : bool; ke_time : Z }.
Implicit Types (e : key_event) (past l : list key_event).

Definition raw e : input_event_t :=
  mk_iev (if ke_pressed e then INPUT_EVENT_KEY_DOWN else INPUT_EVENT_KEY_UP) (ke_key e) 0 0 0 0 0 0 0 0 0.

(** The events are posted one after the other, each at its time. *)
Fixpoint play l s : option (input_state F E) :=
  match l with
  | [] => Some s
  | e :: l => '(_, s) ← input_post_event (Some (raw e)) (with_env (at_tick (ke_time e)) s); play l s
  end.

(** The times a key was pressed, the last one first. *)
Definition presses (key : Z) past : list Z :=
  ke_time <$> filter (λ e, ke_key e = key ∧ ke_pressed e = true) past.

(** A press is the second of a double tap when the one before it was not, was soon enough
    before it, and was not at tick 0. *)
Fixpoint double cfg (t : Z) (before : list Z) : bool :=
  match before with
  | [] => false
  | p :: before =>
    negb (double cfg p before) && (0 <? p) && (u32 (t - p) <? ic_double_tap_threshold_ms cfg)
  end.

Definition meaning cfg past e : input_event_t :=
  let key := ke_key e in let t := ke_time e in
  if ke_pressed e then
    if double cfg t (presses key past) then mk_iev INPUT_EVENT_BUTTON_DOUBLE_TAP key t 0 0 0 0 0 0 0 2
    else mk_iev INPUT_EVENT_KEY_DOWN key t 0 0 0 0 0 0 0 1
  else released_event cfg key t (default 0 (head (presses key past))).

Fixpoint reference cfg past l : list input_event_t :=
  match l with [] => [] | e :: l => meaning cfg past e :: reference cfg (e :: past) l end.

(** The tables of the last presses say what the history says. *)
Definition tables_of cfg past s : Prop :=
  g_config s = cfg ∧
  ∀ key, 0 <= key < 46 →
    g_last_key_states s !! Z.to_nat key = Some (default 0 (head (presses key past))) ∧
    g_key_repeat_states s !! Z.to_nat key =
      Some match presses key past with [] => 0 | p :: ps => if double cfg p ps then 0 else p end.

Lemma presses_cons key e past :
  presses key (e :: past) =
    if bool_decide (ke_key e = key ∧ ke_pressed e = true) then ke_time e :: presses key past else presses key past.
Proof. unfold presses. rewrite filter_cons. by case_bool_decide; case_decide. Qed.

Lemma play_one cfg past e s :
  inv 0 s → tables_of cfg past s → 0 <= ke_key e < 46 →
  ∃ s', input_post_event (Some (raw e)) (with_env (at_tick (ke_time e)) s) = Some (0, s') ∧
    inv 0 s' ∧ tables_of cfg (e :: past) s' ∧
    events s' = if bool_decide (length (events s) < 64)%nat then events s ++ [meaning cfg past e] else events s.
Proof.
  intros Hs [Hcfg Ht] Hk. set (s1 := with_env (at_tick (ke_time e)) s).
  assert (inv 0 s1) as Hs1 by (destruct Hs; by constructor).
  destruct (Ht (ke_key e) Hk) as [El Er]. unfold input_post_event, meaning. destruct e as [key [|] t];
    cbn [raw ke_pressed ke_key ke_time iv_type iv_key] in *.
  - change (INPUT_EVENT_KEY_DOWN =? INPUT_EVENT_KEY_DOWN) with true. cbv iota.
    destruct (press_ok 0 key s1 Hs1 Hk) as (s' & -> & Hs' & Ea). cbn [mbind option_bind].
    exists s'. split; [done|]. split; [done|].
    assert (m_now (abs s1) = t) as Hnow by apply Hat.
    assert (pressed_event cfg key t (default 0 (g_key_repeat_states s !! Z.to_nat key)) =
      if double cfg t (presses key past) then mk_iev INPUT_EVENT_BUTTON_DOUBLE_TAP key t 0 0 0 0 0 0 0 2
      else mk_iev INPUT_EVENT_KEY_DOWN key t 0 0 0 0 0 0 0 1) as Ep.
    { rewrite Er. cbn [default from_option]. unfold pressed_event, id.
      destruct (presses key past) as [|p ps]; [done|]. cbn [double].
      destruct (double cfg p ps); [done|]. cbn [negb andb]. by destruct ((0 <? p) && _). }
    unfold spec_press in Ea. rewrite Hnow in Ea. cbn [abs m_repeat m_config m_devs m_queue m_last m_env] in Ea.
    change (g_config s1) with (g_config s) in Ea. rewrite Hcfg in Ea.
    change (g_key_repeat_states s1) with (g_key_repeat_states s) in Ea. rewrite Ep in Ea.
    unfold enqueue in Ea. cbn [m_devs m_config m_queue m_last m_repeat m_env] in Ea.
    injection Ea as E1 E2 E3 E4 E5 E6. split; [|exact E3]. split; [done|].
    intros k Hk'. rewrite E4, E5. pose proof (inv_last _ _ Hs) as Hll. pose proof (inv_repeat _ _ Hs) as Hrl.
    unfold blen in *. rewrite presses_cons. cbn [ke_key ke_pressed ke_time].
    destruct (decide (key = k)) as [<-|Hne].
    + rewrite bool_decide_eq_true_2 by done.
      change (g_last_key_states s1) with (g_last_key_states s).
      rewrite !list_lookup_insert_eq by lia. split; [done|]. by destruct (double cfg t (presses key past)).
    + rewrite bool_decide_eq_false_2 by naive_solver. rewrite !list_lookup_insert_ne by lia. by apply Ht.
  - change (INPUT_EVENT_KEY_UP =? INPUT_EVENT_KEY_DOWN) with false.
    change (INPUT_EVENT_KEY_UP =? INPUT_EVENT_KEY_UP) with true. cbv iota.
    destruct (release_ok 0 key s1 Hs1 Hk) as (s' & -> & Hs' & Ea). cbn [mbind option_bind].
    exists s'. split; [done|]. split; [done|].
    assert (m_now (abs s1) = t) as Hnow by apply Hat.
    unfold spec_release in Ea. rewrite Hnow in Ea. cbn [abs m_config m_last] in Ea.
    change (g_config s1) with (g_config s) in Ea. rewrite Hcfg in Ea.
    change (g_last_key_states s1) with (g_last_key_states s) in Ea. rewrite El in Ea.
    unfold enqueue in Ea. cbn [abs default from_option m_devs m_config m_queue m_last m_repeat m_env] in Ea.
    injection Ea as E1 E2 E3 E4 E5 E6. split; [|exact E3]. split; [by rewrite E2|].
    intros k Hk'. rewrite E4, E5, presses_cons. rewrite bool_decide_eq_false_2 by (cbn; naive_solver). by apply Ht.
Qed.

Lemma play_ok cfg l past s :
  inv 0 s → tables_of cfg past s → Forall (λ e, 0 <= ke_key e < 46) l → (length (events s) <= 64)%nat →
  ∃ s', play l s = Some s' ∧ events s' = take 64 (events s ++ reference cfg past l).
Proof.
  revert past s. induction l as [|e l IH]; intros past s Hs Ht Hl Hq.
  { exists s. split; [done|]. cbn [reference]. by rewrite app_nil_r, take_ge. }
  apply Forall_cons in Hl as [He Hl]. destruct (play_one cfg past e s Hs Ht He) as (s1 & E1 & Hs1 & Ht1 & Ee).
  cbn [play]. rewrite E1. cbn [mbind option_bind reference].
  destruct (IH (e :: past) s1 Hs1 Ht1 Hl) as (s' & E2 & E3).
  { rewrite Ee. case_bool_decide; [rewrite length_app; cbn; lia|done]. }
  exists s'. split; [done|]. rewrite E3, Ee. case_bool_decide as Hb; [by rewrite <- app_assoc|].
  by rewrite !take_app_le by lia.
Qed.

(** C17: what a key event means is a function of the history of the key alone. After the
    input system starts with any thresholds, any sequence of presses and releases of any keys
    at any ticks leaves in the queue, up to its 64 places, the reference reading of each: a
    press is a double tap when the press of the same key before it was a single one within
    the threshold (differences of ticks wrap at 32 bits) and not at tick 0; a release is a
    long hold with its duration, a long tap, a tap or a plain release by the time since the
    last press of the same key. *)
Theorem input_gestures config l s :
  Forall (λ e, 0 <= ke_key e < 46) l →
  ∃ s', play l (snd (input_init config s)) = Some s' ∧
    events s' = take 64 (reference (default default_config config) [] l).
Proof.
  intros Hl. destruct (cleared_ok (default default_config config) s) as [Hs _].
  apply (play_ok (default default_config config) l [] _ Hs); [|done|exact (Nat.le_0_l 64)].
  split; [done|]. intros key Hk. cbn [input_init snd cleared g_last_key_states g_key_repeat_states presses].
  assert (zeros 46 !! Z.to_nat key = Some 0) as Ez by (apply lookup_replicate; split; [done|lia]).
  by split.
Qed.
End Keys.

Module InputRuns.
(** The world is its tick. *)
#[local] Instance ticks : InputClock Z := {| scheduler_get_tick_count t := t |}.
Definition empty : input_state unit Z :=
  mk_input [] 0 default_config [] 0 0 0 [] [] 0 [] 0.

Definition taps : list key_event :=
  [mk_kev 5 true 1000; mk_kev 5 false 1350; mk_kev 5 true 1390; mk_kev 7 true 1395; mk_kev 5 false 1400;
   mk_kev 5 true 1405; mk_kev 7 false 3000].

Lemma input_gestures_witness :
  ∃ s', play (λ t, t) taps (snd (input_init None empty)) = Some s' ∧
    (iv_type <$> events s') = [1; 4; 6; 1; 2; 1; 8].
Proof.
  destruct (@input_gestures unit Z ticks (λ t, t) (λ t, eq_refl) None taps empty) as (s' & E1 & E2).
  { repeat constructor; cbn; lia. }
  exists s'. split; [exact E1|]. rewrite E2. vm_compute. reflexivity.
Defined.

(** A key that was down when the system started is released as a hold since tick 0. *)
Example release_without_press :
  (λ s, (λ e, (iv_type e, iv_duration_ms e)) <$> events s) <$>
    play (λ t, t) [mk_kev 5 false 5000] (snd (input_init None empty)) = Some [(8, 5000)].
Proof. vm_compute. reflexivity. Qed.

(** The code of a key is not checked: INPUT_KEY_MAX is written past the tables. *)
Example key_out_of_range :
  play (λ t, t) [mk_kev INPUT_KEY_MAX true 5] (snd (input_init None empty)) = None.
Proof. vm_compute. reflexivity. Qed.

(** A key event that finds the queue full is lost, and posting it reports success. *)
Example lost_event :
  option_map fst (input_post_event (Some (mk_iev 1 5 0 0 0 0 0 0 0 0 0))
    (with_queue (replicate 64 iev_zero) 0 0 64 (snd (input_init None empty)))) = Some 0.
Proof. vm_compute. reflexivity. Qed.

(** A name of 32 characters is registered twice and never found. *)
Example long_name_twice :
  let name := Some (replicate 32 97) in
  ('(r1, s) ← input_device_register 0 name None 0 (snd (input_init None empty));
   '(r2, s) ← input_device_register 0 name None 0 s;
   '(i, s) ← input_device_find name s; Some (r1, r2, i)) = Some (0, 0, None).
Proof. vm_compute. reflexivity. Qed.

(** A callback that posts an event for each event keeps the processing going for ever. *)
Definition echo (_ : unit) (e : input_event_t) (_ : Z) (s : input_state unit Z) : option (input_state unit Z) :=
  '(_, s) ← input_post_event (Some (mk_iev 14 0 0 0 0 0 0 0 0 0 0)) s; Some s.
Example echo_keeps_going :
  ('(_, s) ← input_device_register 0 (Some [97]) (Some tt) 0 (snd (input_init None empty));
   '(_, s) ← input_post_event (Some (mk_iev 14 0 0 0 0 0 0 0 0 0 0)) s;
   input_process_events echo 1000 s) = None.
Proof. vm_compute. reflexivity. Qed.

Definition calls : list (@input_op unit Z) :=
  [Init None; Register 0 (Some [97]) (Some tt) 7; Register 1 (Some [98]) None 0; Register 1 (Some [97]) None 0;
   SetMapping 3 0 5 100; SetMapping 4 0 5 101; SetMapping 3 0 6 102; GetMapping 3 6; ClearMappings 3;
   GetMapping 3 6; GetMapping 4 5; World 50; Post (Some (mk_iev 1 5 0 0 0 0 0 0 0 0 0));
   Post (Some (mk_iev 14 0 9 0 0 0 0 0 0 0 0)); Process; Unregister (Some [97]); Find (Some [98])].

Lemma input_refines_witness :
  ∃ s', runs (step (λ _ _ _ t, t + 1)) calls (snd (input_init None empty)) =
    Some ([RInt 0; RInt 0; RInt 0; RInt (-1); RInt 0; RInt 0; RInt 0; RAction 0 (Some 102); RInt 0;
           RAction (-1) None; RAction 0 (Some 101); RInt 0; RInt 0; RInt 0; RInt 2; RInt 0; RPlace (Some 0)], s') ∧
    inv 0 s' ∧ in_env s' = 52.
Proof.
  destruct (input_refines (λ _ _ _ t, t + 1) calls (snd (input_init None empty))) as (E1 & rs & s' & E2 & Hi).
  { repeat constructor; cbn; try vm_decide; try lia; try discriminate. }
  { apply cleared_ok. }
  rewrite E2 in E1. cbn [seen mbind option_bind] in E1. exists s'. rewrite E2. split; [|split; [exact Hi|]].
  - apply (f_equal (option_map fst)) in E1. vm_compute in E1. injection E1 as E1. do 2 f_equal. by rewrite <- E1.
  - apply (f_equal (option_map (λ x, m_env (snd x)))) in E1. vm_compute in E1. by injection E1.
Defined.
End InputRuns.
