(* ===== verification/Sensor.v ===== *)
(** * Sensors (apps/sensor_service.c)

    The variant of the host and the boards without FreeRTOS: eight slots, each a named
    sensor with its last sample. *)

From Stdlib Require Import ZArith Lia String.
From stdpp Require Import base tactics option numbers list.
From S2P Require Import Prelude.
From S2P Require Import CString.
From S2P Require Import Tables.
From S2P Require Import OsClock.

(** The converter, the heap, the scheduler's counters and the clock. *)
Class SensorHw (E : Type) := {
  hal_adc_open : list Z → E → option Z * E;
  hal_adc_init : Z → E → Z * E;
  hal_adc_close : Z → E → E;
  hal_adc_read : Z → E → Z * Z * E;
  os_get_heap_total : E → Z;
  os_get_free_heap : E → Z;
  scheduler_get_idle_tick_count : E → Z;
  scheduler_get_tick_count : E → Z;
  time_now_ms : E → Z
}.

Definition SENSOR_KEY_MAX : Z := 16.
Definition SENSOR_PATH_MAX : Z := 32.
Definition SENSOR_SERVICE_MAX : Z := 8.
Definition SENSOR_TYPE_ADC : Z := 1.
Definition SENSOR_TYPE_TEMP : Z := 2.
Definition SENSOR_TYPE_CPU : Z := 3.
Definition SENSOR_TYPE_RAM : Z := 4.
Definition SENSOR_TYPE_POWER : Z := 5.

Record sensor_slot_t := mk_slot {
  ss_key : list Z; ss_type : Z; ss_path : list Z; ss_refresh_ms : Z; ss_hw : option Z;
  ss_value : Z; ss_sampled_ms : Z; ss_has_sample : bool; ss_used : bool
}.
Definition slot_zero : sensor_slot_t :=
  mk_slot (zeros SENSOR_KEY_MAX) 0 (zeros SENSOR_PATH_MAX) 0 None 0 0 false false.
Definition with_hw (hw : option Z) (s : sensor_slot_t) : sensor_slot_t :=
  mk_slot (ss_key s) (ss_type s) (ss_path s) (ss_refresh_ms s) hw (ss_value s) (ss_sampled_ms s)
    (ss_has_sample s) (ss_used s).
Definition with_sample (value now : Z) (s : sensor_slot_t) : sensor_slot_t :=
  mk_slot (ss_key s) (ss_type s) (ss_path s) (ss_refresh_ms s) (ss_hw s) value now true (ss_used s).

Definition sensor_cpu_busy_percent (idle total : Z) : Z :=
  if (total =? 0) || (total <=? idle) then 0 else i32 (u64 (u64 (total - idle) * 100) / total).

Definition adc0 : list Z := str "/dev/adc0".

Section Sensor.
Context `{Arch} {E : Type} `{SensorHw E}.

Record sensor_state := mk_sensors { g_slots : list sensor_slot_t; g_samples : Z; sn_env : E }.
Implicit Types (s : sensor_state).
Definition with_slots (l : list sensor_slot_t) s : sensor_state := mk_sensors l (g_samples s) (sn_env s).
Definition sampled s : sensor_state := mk_sensors (g_slots s) (u32 (g_samples s + 1)) (sn_env s).
Definition with_sn_env (e : E) s : sensor_state := mk_sensors (g_slots s) (g_samples s) e.

(** ** Samples: the return code and the value. *)

Definition sample_temp s : Z * Z * sensor_state := (0, 250, sampled s).
Definition sample_cpu s : Z * Z * sensor_state :=
  (0, sensor_cpu_busy_percent (scheduler_get_idle_tick_count (sn_env s)) (scheduler_get_tick_count (sn_env s)),
   sampled s).
Definition sample_ram s : Z * Z * sensor_state :=
  let total := os_get_heap_total (sn_env s) in
  let freeb := os_get_free_heap (sn_env s) in
  (0, if (total =? 0) || (total <=? freeb) then 0 else i32 (usz (usz (total - freeb) * 100) / total), sampled s).
Definition sample_power s : Z * Z * sensor_state := (0, -1, sampled s).

Definition sample_meter (type : Z) s : Z * Z * sensor_state :=
  if type =? SENSOR_TYPE_TEMP then sample_temp s else
  if type =? SENSOR_TYPE_CPU then sample_cpu s else
  if type =? SENSOR_TYPE_RAM then sample_ram s else
  if type =? SENSOR_TYPE_POWER then sample_power s else (1, 0, s).

(** [slot] is a place of the table. *)
Definition sample_hw (slot : Z) s : option (Z * Z * sensor_state) :=
  c ← rd (g_slots s) slot;
  let '(meter, value, s) := sample_meter (ss_type c) s in
  if meter <=? 0 then Some (meter, value, s) else
  '(adc, s) ←
    match ss_hw c with
    | Some adc => Some (Some adc, s)
    | None =>
      let path := c_str (ss_path c) in
      let '(adc, e) := hal_adc_open (if str_eq path [] then adc0 else path) (sn_env s) in
      match adc with
      | None => Some (None, with_sn_env e s)
      | Some adc =>
        let (r, e) := hal_adc_init adc e in
        if r =? 0 then
          l ← wr (g_slots s) slot (with_hw (Some adc) c);
          Some (Some adc, with_sn_env e (with_slots l s))
        else Some (None, with_sn_env (hal_adc_close adc e) s)
      end
    end;
  match adc with
  | None => Some (-1, 0, s)
  | Some adc =>
    let '(r, raw, e) := hal_adc_read adc (sn_env s) in
    let s := with_sn_env e s in
    if negb (r =? 0) then Some (-1, 0, s) else Some (0, raw, sampled s)
  end.

(** ** The table *)

Definition is_key (key : list Z) (c : sensor_slot_t) : bool := ss_used c && str_eq (c_str (ss_key c)) key.
Definition find_slot (key : option (list Z)) s : option Z :=
  match key with
  | None => None
  | Some key => if str_eq key [] then None else Z.of_nat <$> first (is_key key) (g_slots s)
  end.

Fixpoint reset_loop (l : list sensor_slot_t) (e : E) : list sensor_slot_t * E :=
  match l with
  | [] => ([], e)
  | c :: l =>
    let e := match ss_hw c with Some adc => hal_adc_close adc e | None => e end in
    let (l, e) := reset_loop l e in (slot_zero :: l, e)
  end.
Definition sensor_service_reset s : Z * sensor_state :=
  let (l, e) := reset_loop (g_slots s) (sn_env s) in (0, mk_sensors l 0 e).

Definition is_type (type : Z) : bool :=
  (type =? SENSOR_TYPE_ADC) || (type =? SENSOR_TYPE_TEMP) || (type =? SENSOR_TYPE_CPU) ||
  (type =? SENSOR_TYPE_RAM) || (type =? SENSOR_TYPE_POWER).

Definition sensor_service_add (key : option (list Z)) (type : Z) (path : option (list Z)) (refresh_ms : Z) s
    : option (Z * sensor_state) :=
  match key with
  | None => Some (-1, s)
  | Some k =>
    if str_eq k [] || (SENSOR_KEY_MAX <=? blen k) then Some (-1, s) else
    if negb (is_type type) then Some (-1, s) else
    match find_slot key s with
    | Some _ => Some (-1, s)
    | None =>
      match first (λ c, negb (ss_used c)) (g_slots s) with
      | None => Some (-1, s)
      | Some i =>
        let path :=
          if (type =? SENSOR_TYPE_ADC) && str_eq (default [] path) [] then adc0 else default [] path in
        l ← wr (g_slots s) (Z.of_nat i)
              (mk_slot (strncpy (zeros SENSOR_KEY_MAX) k 15) type (strncpy (zeros SENSOR_PATH_MAX) path 31)
                 refresh_ms None 0 0 false true);
        Some (0, with_slots l s)
      end
    end
  end.

(** A sensor of the device configuration: key, type, path and refresh time. *)
Definition config_t : Type := list Z * Z * list Z * Z.
Fixpoint load_loop (l : list config_t) (n : Z) s : option (Z * sensor_state) :=
  match l with
  | [] => Some (n, s)
  | (key, type, path, refresh_ms) :: l =>
    '(r, s) ← sensor_service_add (Some key) type (Some path) refresh_ms s;
    load_loop l (if r =? 0 then n + 1 else n) s
  end.
Definition builtins : list config_t :=
  [(str "cpu", SENSOR_TYPE_CPU, [], 1000); (str "ram", SENSOR_TYPE_RAM, [], 1000);
   (str "pwr", SENSOR_TYPE_POWER, [], 1000)].
(** [configured] are the macros [ARDUBOT_SENSOR_0_KEY] and so on, at most eight. *)
Definition sensor_service_load_builtin (configured : list config_t) s : option (Z * sensor_state) :=
  load_loop (take 8 configured ++ builtins) 0 s.

(** The used slot with [index] used ones before it. *)
Fixpoint slot_loop (l : list sensor_slot_t) (i n index : Z) : option Z :=
  match l with
  | [] => None
  | c :: l =>
    if negb (ss_used c) then slot_loop l (i + 1) n index
    else if n =? index then Some i else slot_loop l (i + 1) (n + 1) index
  end.
Definition slot_at (index : Z) s : option Z :=
  if index <? 0 then None else slot_loop (g_slots s) 0 0 index.

Fixpoint count_loop (l : list sensor_slot_t) (n : Z) : Z :=
  match l with [] => n | c :: l => count_loop l (if ss_used c then n + 1 else n) end.
Definition sensor_service_count s : Z := count_loop (g_slots s) 0.

Definition sensor_service_key (index : Z) s : option (option (list Z)) :=
  match slot_at index s with Some i => c ← rd (g_slots s) i; Some (Some (ss_key c)) | None => Some None end.
Definition sensor_service_type (index : Z) s : option Z :=
  match slot_at index s with Some i => c ← rd (g_slots s) i; Some (ss_type c) | None => Some 0 end.
Definition sensor_service_samples s : Z := g_samples s.

(** The code, and what is written to [*value]; [out] says whether [value] is not NULL. *)
Definition sensor_get_at (key : option (list Z)) (now_ms : Z) (out : bool) s
    : option (Z * option Z * sensor_state) :=
  match find_slot key s with
  | None => Some (-1, None, s)
  | Some slot =>
    if negb out then Some (-1, None, s) else
    c ← rd (g_slots s) slot;
    if ss_has_sample c && (0 <? ss_refresh_ms c) && (u32 (now_ms - ss_sampled_ms c) <? ss_refresh_ms c)
    then Some (0, Some (ss_value c), s) else
    '(r, sample, s) ← sample_hw slot s;
    if negb (r =? 0) then Some (-1, None, s) else
    c ← rd (g_slots s) slot;
    l ← wr (g_slots s) slot (with_sample sample now_ms c);
    Some (0, Some sample, with_slots l s)
  end.

Definition sensor_get (key : option (list Z)) (out : bool) s : option (Z * option Z * sensor_state) :=
  sensor_get_at key (time_now_ms (sn_env s)) out s.
End Sensor.
Arguments sensor_state : clear implicits.
