(* ===== verification/SensorThm.v ===== *)
(** * Sensors are a list of named readings with their last samples *)

From Stdlib Require Import ZArith Lia String.
From stdpp Require Import base tactics option numbers list.
From S2P Require Import Prelude.
From S2P Require Import CString.
From S2P Require Import Runs.
From S2P Require Import Tables.
From S2P Require Import OsClock.
From S2P Require Import Sensor.

Lemma first_app {A} (p : A → bool) l1 l2 :
  Forall (λ a, p a = false) l2 → first p (l1 ++ l2) = first p l1.
Proof.
  intros Hl. induction l1 as [|a l1 IH]; cbn.
  - induction Hl as [|b l2 Hb _ IH]; [done|]. cbn. by rewrite Hb, IH.
  - by rewrite IH.
Qed.

Lemma rd_pre {A} (l r : list A) i x : l !! i = Some x → rd (l ++ r) (Z.of_nat i) = Some x.
Proof. intros Hi. rewrite rd_nat. by apply lookup_app_l_Some. Qed.

Lemma wr_pre {A} (l r : list A) i x : (i < length l)%nat → wr (l ++ r) (Z.of_nat i) x = Some (<[i := x]> l ++ r).
Proof.
  intros Hi. rewrite wr_ok by (unfold blen; rewrite length_app; lia). by rewrite Nat2Z.id, insert_app_l.
Qed.

(** A share of a total is a percentage when the product does not wrap. *)
Lemma percent_bounds idle total :
  0 <= idle → 0 <= total < 2 ^ 57 → 0 <= sensor_cpu_busy_percent idle total <= 100.
Proof.
  intros Hi Ht. unfold sensor_cpu_busy_percent.
  destruct (Z.eqb_spec total 0), (Z.leb_spec total idle); cbn [orb]; try lia.
  rewrite (wrap_id 64 (total - idle)) by (split; lia). rewrite wrap_id by (split; lia).
  assert (0 <= (total - idle) * 100 / total <= 100) as Hq
    by (split; [apply Z.div_pos; lia|apply Z.div_le_upper_bound; lia]).
  unfold i32. rewrite Z.mod_small by lia. lia.
Qed.

Section SensorThm.
Context `{Arch} {E : Type} `{SensorHw E}.
Implicit Types (s : sensor_state E) (c : sensor_slot_t) (e : E).

(** ** The model *)

Record msensor := mk_ms {
  ms_key : list Z; ms_type : Z; ms_path : list Z; ms_refresh : Z; ms_hw : option Z; ms_last : option (Z * Z)
}.
Record msensors := mk_mss { ms_list : list msensor; ms_samples : Z; ms_env : E }.
Implicit Types (x : msensor) (n : msensors).

Definition abs_slot c : msensor :=
  mk_ms (c_str (ss_key c)) (ss_type c) (c_str (ss_path c)) (ss_refresh_ms c) (ss_hw c)
    (if ss_has_sample c then Some (ss_value c, ss_sampled_ms c) else None).
Definition used s : list sensor_slot_t := filter (λ c, ss_used c = true) (g_slots s).
Definition abs s : msensors := mk_mss (abs_slot <$> used s) (g_samples s) (sn_env s).

Definition free (k : nat) : list sensor_slot_t := replicate (8 - k) slot_zero.

(** The used slots come first, the others are clear. *)
Definition inv s : Prop :=
  g_slots s = used s ++ free (length (used s)) ∧ (length (used s) <= 8)%nat ∧
  Forall (λ c, is_type (ss_type c) = true) (used s).

Lemma used_all s : Forall (λ c, ss_used c = true) (used s).
Proof. apply Forall_forall. intros c Hc. by apply list_elem_of_filter in Hc as [Hc _]. Qed.

Lemma free_unused k : Forall (λ c, ss_used c = false) (free k).
Proof. by apply Forall_replicate. Qed.

Lemma filter_used l k :
  Forall (λ c, ss_used c = true) l → filter (λ c, ss_used c = true) (l ++ free k) = l.
Proof.
  intros Hl. rewrite filter_app.
  assert (filter (λ c, ss_used c = true) (free k) = []) as ->.
  { unfold free. induction (8 - k)%nat as [|j IH]; [done|]. cbn [replicate]. by rewrite filter_cons, decide_False. }
  rewrite app_nil_r. induction Hl as [|c l Hc _ IH]; [done|]. rewrite filter_cons, decide_True by done. by rewrite IH.
Qed.

(** A table with other used slots. *)
Lemma inv_used s l m e :
  (length l <= 8)%nat → Forall (λ c, ss_used c = true) l → Forall (λ c, is_type (ss_type c) = true) l →
  inv (mk_sensors (l ++ free (length l)) m e) ∧
  abs (mk_sensors (l ++ free (length l)) m e) = mk_mss (abs_slot <$> l) m e.
Proof.
  intros Hl Hu Ht.
  assert (used (mk_sensors (l ++ free (length l)) m e) = l) as Eu by by apply filter_used.
  unfold inv, abs. by rewrite Eu.
Qed.

(** ** Reading *)

(** The converter of a sensor, opened if need be. *)
Definition converter x e : option Z * E :=
  match ms_hw x with
  | Some adc => (Some adc, e)
  | None =>
    let (adc, e) := hal_adc_open (if str_eq (ms_path x) [] then adc0 else ms_path x) e in
    match adc with
    | None => (None, e)
    | Some adc =>
      let (r, e) := hal_adc_init adc e in
      if r =? 0 then (Some adc, e) else (None, hal_adc_close adc e)
    end
  end.

Definition meter_value (type : Z) e : Z :=
  if type =? SENSOR_TYPE_TEMP then 250 else
  if type =? SENSOR_TYPE_CPU then
    sensor_cpu_busy_percent (scheduler_get_idle_tick_count e) (scheduler_get_tick_count e) else
  if type =? SENSOR_TYPE_RAM then
    let total := os_get_heap_total e in let freeb := os_get_free_heap e in
    if (total =? 0) || (total <=? freeb) then 0 else i32 (usz (usz (total - freeb) * 100) / total)
  else -1.

(** Whether it succeeds, the value, the handle the sensor then has, and the world. *)
Definition reading x e : bool * Z * option Z * E :=
  if ms_type x =? SENSOR_TYPE_ADC then
    let (adc, e) := converter x e in
    match adc with
    | None => (false, 0, None, e)
    | Some adc => let '(r, raw, e) := hal_adc_read adc e in (r =? 0, raw, Some adc, e)
    end
  else (true, meter_value (ms_type x) e, ms_hw x, e).

Definition sampled_as (hw : option Z) (last : option (Z * Z)) x : msensor :=
  mk_ms (ms_key x) (ms_type x) (ms_path x) (ms_refresh x) hw last.

(** The last sample, while it is younger than the refresh time. *)
Definition cached (now : Z) x : option Z :=
  '(v, at_) ← ms_last x; if (0 <? ms_refresh x) && (u32 (now - at_) <? ms_refresh x) then Some v else None.

Definition has_key (key : list Z) x : bool := str_eq (ms_key x) key.
Definition lookup_key (key : option (list Z)) n : option nat :=
  match key with
  | Some ((_ :: _) as key) => first (has_key key) (ms_list n)
  | _ => None
  end.

Definition spec_get (key : option (list Z)) (now : Z) (out : bool) n : Z * option Z * msensors :=
  match lookup_key key n with
  | Some i =>
    match ms_list n !! i, out with
    | Some x, true =>
      match cached now x with
      | Some v => (0, Some v, n)
      | None =>
        let '(ok, v, hw, e) := reading x (ms_env n) in
        if ok : bool
        then (0, Some v, mk_mss (<[i := sampled_as hw (Some (v, now)) x]> (ms_list n)) (u32 (ms_samples n + 1)) e)
        else (-1, None, mk_mss (<[i := sampled_as hw (ms_last x) x]> (ms_list n)) (ms_samples n) e)
      end
    | _, _ => (-1, None, n)
    end
  | None => (-1, None, n)
  end.

Definition spec_add (key : option (list Z)) (type : Z) (path : option (list Z)) (refresh : Z) n : Z * msensors :=
  match key with
  | Some ((_ :: _) as k) =>
    if bool_decide (length k < 16)%nat && is_type type && bool_decide (lookup_key key n = None)
       && bool_decide (length (ms_list n) < 8)%nat
    then
      let path := if (type =? SENSOR_TYPE_ADC) && str_eq (default [] path) [] then adc0 else default [] path in
      (0, mk_mss (ms_list n ++ [mk_ms k type (take 31 path) refresh None None]) (ms_samples n) (ms_env n))
    else (-1, n)
  | _ => (-1, n)
  end.

(** ** The code does it *)

Lemma find_slot_ok key s :
  inv s → find_slot key s = Z.of_nat <$> lookup_key key (abs s).
Proof.
  intros (Es & _ & _). unfold find_slot, lookup_key. destruct key as [[|a key]|]; [done| |done].
  unfold str_eq at 1. rewrite bool_decide_eq_false_2 by done. rewrite Es.
  rewrite first_app.
  2:{ eapply Forall_impl; [apply free_unused|]. intros c Hc. unfold is_key. by rewrite Hc. }
  cbn [abs ms_list]. f_equal. pose proof (used_all s) as Hu.
  clear Es. induction Hu as [|c l Hc _ IH]; [done|]. cbn [first fmap list_fmap].
  unfold is_key at 1. rewrite Hc. cbn [andb].
  change (has_key (a :: key) (abs_slot c)) with (str_eq (c_str (ss_key c)) (a :: key)). by rewrite IH.
Qed.

Lemma lookup_key_slot key s i :
  lookup_key key (abs s) = Some i → ∃ c, used s !! i = Some c ∧ ms_list (abs s) !! i = Some (abs_slot c).
Proof.
  intros Hi. assert (i < length (used s))%nat as Hlt.
  { unfold lookup_key in Hi. destruct key as [[|a key]|]; [done| |done]. apply first_lt in Hi. cbn in Hi.
    by rewrite length_fmap in Hi. }
  destruct (lookup_lt_is_Some_2 _ _ Hlt) as [c Ec]. exists c. split; [done|]. cbn. by rewrite list_lookup_fmap, Ec.
Qed.

(** Writing a used slot. *)
Lemma put_slot s i c' m e :
  inv s → (i < length (used s))%nat → ss_used c' = true → is_type (ss_type c') = true →
  ∃ l, wr (g_slots s) (Z.of_nat i) c' = Some l ∧ inv (mk_sensors l m e) ∧
    used (mk_sensors l m e) = <[i := c']> (used s) ∧
    abs (mk_sensors l m e) = mk_mss (<[i := abs_slot c']> (ms_list (abs s))) m e.
Proof.
  intros (Es & Hl & Ht) Hi Hu Hc. rewrite Es, wr_pre by done. eexists. split; [done|].
  replace (length (used s)) with (length (<[i := c']> (used s))) by apply length_insert.
  assert (Forall (λ c, ss_used c = true) (<[i := c']> (used s))) as Hu' by (apply Forall_insert; [apply used_all|done]).
  destruct (inv_used s (<[i := c']> (used s)) m e) as [Hs' Ea];
    [by rewrite length_insert|done|by apply Forall_insert|].
  split; [done|]. split; [by apply filter_used|]. rewrite Ea. by rewrite list_fmap_insert.
Qed.

Lemma meter_cases s ty :
  is_type ty = true →
  sample_meter ty s =
    if ty =? SENSOR_TYPE_ADC then (1, 0, s) else (0, meter_value ty (sn_env s), sampled s).
Proof.
  intros Ht. unfold sample_meter, meter_value, is_type, SENSOR_TYPE_ADC, SENSOR_TYPE_TEMP, SENSOR_TYPE_CPU,
    SENSOR_TYPE_RAM, SENSOR_TYPE_POWER in *.
  rewrite !orb_true_iff, !Z.eqb_eq in Ht. by destruct Ht as [[[[->| ->]| ->]| ->]| ->].
Qed.

Lemma sample_ok s i c :
  inv s → used s !! i = Some c →
  let '(ok, v, hw, e) := reading (abs_slot c) (sn_env s) in
  ∃ v' s', sample_hw (Z.of_nat i) s = Some (if ok then 0 else -1, v', s') ∧ (ok = true → v' = v) ∧ inv s' ∧
    used s' = <[i := with_hw hw c]> (used s) ∧ sn_env s' = e ∧
    g_samples s' = if ok : bool then u32 (g_samples s + 1) else g_samples s.
Proof.
  intros Hs Hi. pose proof Hs as (Es & Hl & Ht). pose proof (lookup_lt_Some _ _ _ Hi) as Hlt.
  pose proof (used_all s) as Hu. rewrite Forall_lookup in Hu, Ht. specialize (Hu _ _ Hi). specialize (Ht _ _ Hi).
  unfold sample_hw. assert (rd (g_slots s) (Z.of_nat i) = Some c) as Ec by (rewrite Es; by apply rd_pre).
  rewrite Ec. cbn [mbind option_bind]. rewrite meter_cases by done. unfold reading.
  change (ms_type (abs_slot c)) with (ss_type c).
  assert (used s = <[i := with_hw (ss_hw c) c]> (used s)) as Esame
    by (rewrite list_insert_id; [done|rewrite Hi; by destruct c]).
  destruct (ss_type c =? SENSOR_TYPE_ADC).
  2:{ cbn [Z.leb Z.compare]. do 2 eexists. split; [done|]. split; [done|]. by split; [exact Hs|split; [exact Esame|]]. }
  change (1 <=? 0) with false. cbv iota. unfold converter. change (ms_hw (abs_slot c)) with (ss_hw c).
  change (ms_path (abs_slot c)) with (c_str (ss_path c)).
  destruct (ss_hw c) as [adc|] eqn:Ehw.
  - cbn [mbind option_bind]. destruct (hal_adc_read adc (sn_env s)) as [[r raw] e]. cbn [negb].
    destruct (r =? 0); cbn [negb]; (do 2 eexists; split; [done|]); (split; [done|]); by split; [exact Hs|split; [exact Esame|]].
  - destruct (hal_adc_open _ (sn_env s)) as [[adc|] e].
    2:{ cbn [mbind option_bind]. do 2 eexists. split; [done|]. split; [done|]. by split; [exact Hs|split; [exact Esame|]]. }
    destruct (hal_adc_init adc e) as [r1 e1]. destruct (r1 =? 0).
    2:{ cbn [mbind option_bind]. do 2 eexists. split; [done|]. split; [done|]. by split; [exact Hs|split; [exact Esame|]]. }
    destruct (put_slot s i (with_hw (Some adc) c) (g_samples s) e1 Hs Hlt Hu Ht) as (l & Ew & Hs1 & Eu & _).
    rewrite Ew. cbn [mbind option_bind]. unfold with_slots. cbn [sn_env with_sn_env].
    destruct (hal_adc_read adc e1) as [[r raw] e2].
    destruct (r =? 0); cbn [negb]; (do 2 eexists; split; [done|]); (split; [done|]); (split; [exact Hs1|]);
      (split; [exact Eu|]); done.
Qed.

Lemma get_ok key now out s :
  inv s →
  ∃ r v s', sensor_get_at key now out s = Some (r, v, s') ∧ inv s' ∧ spec_get key now out (abs s) = (r, v, abs s').
Proof.
  intros Hs. unfold sensor_get_at, spec_get. rewrite find_slot_ok by done.
  destruct (lookup_key key (abs s)) as [i|] eqn:Ei; cbn [fmap option_fmap option_map]; [|by eauto 10].
  destruct (lookup_key_slot key s i Ei) as (c & Ec & Em). rewrite Em. destruct out; cbn [negb]; [|by eauto 10].
  pose proof Hs as (Es & Hl & Ht). pose proof (lookup_lt_Some _ _ _ Ec) as Hlt.
  assert (rd (g_slots s) (Z.of_nat i) = Some c) as Erd by (rewrite Es; by apply rd_pre).
  rewrite Erd. cbn [mbind option_bind].
  assert (if ss_has_sample c && (0 <? ss_refresh_ms c) && (u32 (now - ss_sampled_ms c) <? ss_refresh_ms c)
          then cached now (abs_slot c) = Some (ss_value c) else cached now (abs_slot c) = None) as Hcached.
  { unfold cached. cbn [abs_slot ms_last ms_refresh]. destruct (ss_has_sample c); [|done]. cbn [andb mbind option_bind].
    by destruct ((0 <? ss_refresh_ms c) && _). }
  assert (Hmiss : ∃ r v s', 
    ('(r, sample, s) ← sample_hw (Z.of_nat i) s;
     if negb (r =? 0) then Some (-1, None, s) else
     c ← rd (g_slots s) (Z.of_nat i);
     l ← wr (g_slots s) (Z.of_nat i) (with_sample sample now c); Some (0, Some sample, with_slots l s)) = Some (r, v, s') ∧
    inv s' ∧
    (let '(ok, v, hw, e) := reading (abs_slot c) (ms_env (abs s)) in
     if ok : bool
     then (0, Some v, mk_mss (<[i := sampled_as hw (Some (v, now)) (abs_slot c)]> (ms_list (abs s))) (u32 (ms_samples (abs s) + 1)) e)
     else (-1, None, mk_mss (<[i := sampled_as hw (ms_last (abs_slot c)) (abs_slot c)]> (ms_list (abs s))) (ms_samples (abs s)) e))
    = (r, v, abs s')).
  { pose proof (sample_ok s i c Hs Ec) as Hx. cbn [abs ms_env ms_samples].
    destruct (reading (abs_slot c) (sn_env s)) as [[[ok v] hw] e].
    destruct Hx as (v' & s' & E1 & Hv & Hs' & Eu & Ee & Eg). rewrite E1. cbn [mbind option_bind].
    destruct ok; cbn [Z.eqb negb].
    - rewrite Hv by done. clear v' Hv E1.
      assert (used s' !! i = Some (with_hw hw c)) as Ec' by (rewrite Eu; by apply list_lookup_insert_eq).
      pose proof Hs' as (Es' & _ & Ht').
      assert (rd (g_slots s') (Z.of_nat i) = Some (with_hw hw c)) as Erd' by (rewrite Es'; by apply rd_pre).
      rewrite Erd'. cbn [mbind option_bind]. pose proof (used_all s) as Hu. rewrite Forall_lookup in Hu, Ht.
      destruct (put_slot s' i (with_sample v now (with_hw hw c)) (g_samples s') (sn_env s') Hs') as (l & Ew & Hs2 & _ & Ea);
        [by eapply lookup_lt_Some|by apply (Hu _ _ Ec)|by apply (Ht _ _ Ec)|].
      rewrite Ew. cbn [mbind option_bind]. do 3 eexists. split; [done|]. split; [exact Hs2|].
      unfold with_slots. rewrite Ea, Ee, Eg. do 2 f_equal. cbn [abs ms_list]. rewrite Eu, list_fmap_insert, list_insert_insert_eq.
      f_equal.
    - do 3 eexists. split; [done|]. split; [done|]. f_equal. unfold abs. rewrite Eu, Ee, Eg, list_fmap_insert. f_equal. }
  destruct (ss_has_sample c && _ && _); rewrite Hcached; [by eauto 10|exact Hmiss].
Qed.

Lemma first_unused l m :
  Forall (λ c, ss_used c = true) l →
  first (λ c, negb (ss_used c)) (l ++ replicate m slot_zero) = if bool_decide (0 < m)%nat then Some (length l) else None.
Proof.
  intros Hl. induction Hl as [|c l Hc _ IH]; [by destruct m|]. cbn [app first length]. rewrite Hc. cbn [negb].
  rewrite IH. by case_bool_decide.
Qed.

Lemma add_ok key type path refresh s :
  is_cstr (default [] key) → is_cstr (default [] path) → inv s →
  ∃ r s', sensor_service_add key type path refresh s = Some (r, s') ∧ inv s' ∧
    spec_add key type path refresh (abs s) = (r, abs s').
Proof.
  intros Hk Hp Hs. unfold sensor_service_add, spec_add. destruct key as [[|a k]|]; [by eauto 10| |by eauto 10].
  cbn [default from_option] in Hk. unfold id in Hk. unfold str_eq at 1. rewrite bool_decide_eq_false_2 by done.
  cbn [orb]. unfold SENSOR_KEY_MAX. unfold blen at 1.
  destruct (Z.leb_spec 16 (Z.of_nat (length (a :: k)))) as [Hlong|Hshort].
  { rewrite bool_decide_eq_false_2 by lia. eauto 10. }
  rewrite bool_decide_eq_true_2 by lia. destruct (is_type type) eqn:Ety; cbn [negb andb]; [|by eauto 10].
  rewrite find_slot_ok by done. destruct (lookup_key (Some (a :: k)) (abs s)) as [i|]; cbn [fmap option_fmap option_map].
  { rewrite bool_decide_eq_false_2 by done. eauto 10. }
  rewrite bool_decide_eq_true_2 by done. cbn [andb]. pose proof Hs as (Es & Hl & Ht).
  cbn [abs ms_list]. rewrite length_fmap. set (us := used s) in *.
  assert (first (λ c, negb (ss_used c)) (g_slots s) = if bool_decide (length us < 8)%nat then Some (length us) else None) as Ef.
  { rewrite Es. unfold free. rewrite first_unused by apply used_all. by rewrite (bool_decide_ext _ (length us < 8)%nat) by lia. }
  rewrite Ef. case_bool_decide as Hlt; [|by eauto 10].
  set (path' := if (type =? SENSOR_TYPE_ADC) && str_eq (default [] path) [] then adc0 else default [] path).
  assert (is_cstr path') as Hp' by (unfold path'; destruct (_ && _); [vm_decide|done]).
  rewrite Es, wr_ok by (unfold blen, free; rewrite length_app, length_replicate; lia).
  cbn [mbind option_bind]. set (c := mk_slot _ _ _ _ _ _ _ _ _).
  assert (<[Z.to_nat (Z.of_nat (length us)) := c]> (us ++ free (length us)) = (us ++ [c]) ++ free (length (us ++ [c]))) as El.
  { rewrite Nat2Z.id. unfold free. rewrite length_app. cbn [length]. replace (8 - length us)%nat with (S (8 - (length us + 1))) by lia.
    cbn [replicate]. rewrite insert_app_r_alt, Nat.sub_diag by lia. cbn. by rewrite <- app_assoc. }
  rewrite El. do 2 eexists. split; [done|].
  destruct (inv_used s (us ++ [c]) (g_samples s) (sn_env s)) as [Hs' Ea].
  { rewrite length_app. cbn. lia. } { apply Forall_app. split; [apply used_all|by constructor]. }
  { apply Forall_app. split; [done|by constructor]. }
  split; [exact Hs'|]. unfold with_slots. rewrite Ea, fmap_app.
  assert (abs_slot c = mk_ms (a :: k) type (take 31 path') refresh None None) as Ec; [|by rewrite <- Ec].
  transitivity (mk_ms (c_str (strncpy (zeros 16) (a :: k) 15)) type (c_str (strncpy (zeros 32) path' 31)) refresh None None);
    [done|]. rewrite !c_str_strncpy by done. by rewrite (take_ge (a :: k)) by lia.
Qed.

(** ** The whole service *)

Definition close_all (l : list msensor) e : E :=
  foldl (λ e x, match ms_hw x with Some adc => hal_adc_close adc e | None => e end) e l.

Lemma reset_loop_free k e : reset_loop (free k) e = (free k, e).
Proof. unfold free. induction (8 - k)%nat as [|j IH]; [done|]. cbn. by rewrite IH. Qed.

Lemma reset_loop_ok l k e :
  reset_loop (l ++ free k) e = (replicate (length l) slot_zero ++ free k, close_all (abs_slot <$> l) e).
Proof.
  revert e. induction l as [|c l IH]; intros e; [apply reset_loop_free|]. cbn [app reset_loop].
  rewrite IH. done.
Qed.

Lemma sensor_reset_ok s :
  inv s → ∃ s', sensor_service_reset s = (0, s') ∧ inv s' ∧
    abs s' = mk_mss [] 0 (close_all (ms_list (abs s)) (ms_env (abs s))).
Proof.
  intros (Es & Hl & _). unfold sensor_service_reset. rewrite Es, reset_loop_ok. eexists. split; [done|].
  unfold free. rewrite <- replicate_add. replace (length (used s) + (8 - length (used s)))%nat with 8%nat by lia.
  apply (inv_used s []); [cbn; lia|constructor|constructor].
Qed.

Lemma count_loop_ok l k z :
  Forall (λ c, ss_used c = true) l → count_loop (l ++ free k) z = z + Z.of_nat (length l).
Proof.
  intros Hl. revert z. induction Hl as [|c l Hc _ IH]; intros z; cbn [app length count_loop].
  - rewrite Z.add_0_r. unfold free. by induction (8 - k)%nat.
  - rewrite Hc, IH. lia.
Qed.

Lemma count_ok s : inv s → sensor_service_count s = Z.of_nat (length (ms_list (abs s))).
Proof.
  intros (Es & _ & _). unfold sensor_service_count. rewrite Es, count_loop_ok by apply used_all.
  cbn. by rewrite length_fmap.
Qed.

Lemma slot_loop_ok l k i z index :
  Forall (λ c, ss_used c = true) l → z <= index →
  slot_loop (l ++ free k) i z index =
    if index - z <? Z.of_nat (length l) then Some (i + (index - z)) else None.
Proof.
  intros Hl. revert i z. induction Hl as [|c l Hc _ IH]; intros i z Hn; cbn [app slot_loop length].
  { rewrite (proj2 (Z.ltb_ge _ _)) by lia. unfold free. revert i. by induction (8 - k)%nat as [|j IH]; intros i; cbn. }
  rewrite Hc. cbn [negb]. destruct (Z.eqb_spec z index) as [->|Hne].
  - rewrite (proj2 (Z.ltb_lt _ _)) by lia. f_equal. lia.
  - rewrite IH by lia. destruct (Z.ltb_spec (index - (z + 1)) (Z.of_nat (length l))), (Z.ltb_spec (index - z) (Z.of_nat (S (length l)))); try lia; [|done].
    f_equal. lia.
Qed.

(** The [index]-th sensor. *)
Definition nth_sensor (index : Z) n : option msensor :=
  if index <? 0 then None else ms_list n !! Z.to_nat index.

Lemma slot_at_ok index s :
  inv s →
  match nth_sensor index (abs s) with
  | Some x => ∃ i c, slot_at index s = Some i ∧ rd (g_slots s) i = Some c ∧ x = abs_slot c
  | None => slot_at index s = None
  end.
Proof.
  intros (Es & _ & _). unfold nth_sensor, slot_at. destruct (Z.ltb_spec index 0); [done|].
  rewrite Es, slot_loop_ok by (apply used_all || lia). cbn [abs ms_list]. rewrite list_lookup_fmap.
  destruct (used s !! Z.to_nat index) as [c|] eqn:Ec; cbn [fmap option_fmap option_map].
  - pose proof (lookup_lt_Some _ _ _ Ec). rewrite (proj2 (Z.ltb_lt _ _)) by lia.
    do 2 eexists. split; [done|]. split; [|done]. rewrite Z.sub_0_r, Z.add_0_l.
    rewrite <- (Z2Nat.id index) by lia. by apply rd_pre.
  - apply lookup_ge_None in Ec. by rewrite (proj2 (Z.ltb_ge _ _)) by lia.
Qed.

Inductive sensor_op :=
  | Reset | Add (key : option (list Z)) (type : Z) (path : option (list Z)) (refresh : Z)
  | Load (configured : list config_t) | Get (key : option (list Z)) (now : Z) (out : bool)
  | GetNow (key : option (list Z)) (out : bool) | Count | KeyAt (index : Z) | TypeAt (index : Z) | Samples
  | World (e : E).
Inductive sensor_res := RInt (z : Z) | RText (text : option (list Z)) | RRead (r : Z) (value : option Z).

Definition config_ok (c : config_t) : Prop := let '(key, _, path, _) := c in is_cstr key ∧ is_cstr path.
Definition op_ok (o : sensor_op) : Prop :=
  match o with
  | Add key _ path _ => is_cstr (default [] key) ∧ is_cstr (default [] path)
  | Load configured => Forall config_ok configured
  | _ => True
  end.

Definition step (o : sensor_op) s : option (sensor_res * sensor_state E) :=
  match o with
  | Reset => let (r, s) := sensor_service_reset s in Some (RInt r, s)
  | Add key type path refresh => '(r, s) ← sensor_service_add key type path refresh s; Some (RInt r, s)
  | Load configured => '(r, s) ← sensor_service_load_builtin configured s; Some (RInt r, s)
  | Get key now out => '(r, v, s) ← sensor_get_at key now out s; Some (RRead r v, s)
  | GetNow key out => '(r, v, s) ← sensor_get key out s; Some (RRead r v, s)
  | Count => Some (RInt (sensor_service_count s), s)
  | KeyAt index => k ← sensor_service_key index s; Some (RText (c_str <$> k), s)
  | TypeAt index => t ← sensor_service_type index s; Some (RInt t, s)
  | Samples => Some (RInt (sensor_service_samples s), s)
  | World e => Some (RInt 0, with_sn_env e s)
  end.

Fixpoint spec_load (l : list config_t) (count : Z) n : Z * msensors :=
  match l with
  | [] => (count, n)
  | (key, type, path, refresh) :: l =>
    let (r, n) := spec_add (Some key) type (Some path) refresh n in
    spec_load l (if r =? 0 then count + 1 else count) n
  end.

Definition spec (o : sensor_op) n : option (sensor_res * msensors) :=
  Some match o with
  | Reset => (RInt 0, mk_mss [] 0 (close_all (ms_list n) (ms_env n)))
  | Add key type path refresh => let (r, n) := spec_add key type path refresh n in (RInt r, n)
  | Load configured => let (r, n) := spec_load (take 8 configured ++ builtins) 0 n in (RInt r, n)
  | Get key now out => let '(r, v, n) := spec_get key now out n in (RRead r v, n)
  | GetNow key out => let '(r, v, n) := spec_get key (time_now_ms (ms_env n)) out n in (RRead r v, n)
  | Count => (RInt (Z.of_nat (length (ms_list n))), n)
  | KeyAt index => (RText (ms_key <$> nth_sensor index n), n)
  | TypeAt index => (RInt (default 0 (ms_type <$> nth_sensor index n)), n)
  | Samples => (RInt (ms_samples n), n)
  | World e => (RInt 0, mk_mss (ms_list n) (ms_samples n) e)
  end.

Lemma load_ok l count s :
  Forall config_ok l → inv s →
  ∃ r s', load_loop l count s = Some (r, s') ∧ inv s' ∧ spec_load l count (abs s) = (r, abs s').
Proof.
  intros Hl. revert count s. induction Hl as [|[[[key type] path] refresh] l [Hk Hp] _ IH]; intros count s Hs;
    cbn [load_loop spec_load]; [by eauto 10|].
  destruct (add_ok (Some key) type (Some path) refresh s Hk Hp Hs) as (r & s1 & -> & Hs1 & ->).
  cbn [mbind option_bind]. by apply IH.
Qed.

Lemma builtins_ok : Forall config_ok builtins.
Proof. repeat (apply Forall_cons; split; [split; vm_decide|]). by apply Forall_nil. Qed.

Lemma sensor_step_refines : refines step spec op_ok inv abs.
Proof.
  intros o s Ho Hs.
  assert (∃ r s', step o s = Some (r, s') ∧ inv s' ∧ spec o (abs s) = Some (r, abs s')) as (r & s' & -> & Hs' & ->).
  2:{ split; [done|]. by intros ? ? [= _ <-]. }
  destruct o as [|key type path refresh|configured|key now out|key out| |index|index| |e]; unfold spec; cbn [step].
  - destruct (sensor_reset_ok s Hs) as (s' & -> & Hs' & Ea). rewrite <- Ea. eauto.
  - destruct Ho as [Hk Hp]. destruct (add_ok key type path refresh s Hk Hp Hs) as (r & s' & -> & Hs' & ->). cbn. eauto.
  - cbn in Ho. destruct (load_ok (take 8 configured ++ builtins) 0 s) as (r & s' & E1 & Hs' & E2); [|done|].
    { apply Forall_app. split; [by apply Forall_take|apply builtins_ok]. }
    unfold sensor_service_load_builtin. rewrite E1, E2. cbn. eauto.
  - destruct (get_ok key now out s Hs) as (r & v & s' & -> & Hs' & ->). cbn. eauto.
  - destruct (get_ok key (time_now_ms (sn_env s)) out s Hs) as (r & v & s' & E1 & Hs' & E2). unfold sensor_get.
    change (ms_env (abs s)) with (sn_env s). rewrite E1, E2. cbn. eauto.
  - rewrite count_ok by done. eauto.
  - pose proof (slot_at_ok index s Hs) as Hi. unfold sensor_service_key.
    destruct (nth_sensor index (abs s)) as [x|].
    + destruct Hi as (i & c & -> & -> & ->). cbn. eauto.
    + rewrite Hi. cbn. eauto.
  - pose proof (slot_at_ok index s Hs) as Hi. unfold sensor_service_type.
    destruct (nth_sensor index (abs s)) as [x|].
    + destruct Hi as (i & c & -> & -> & ->). cbn. eauto.
    + rewrite Hi. cbn. eauto.
  - eauto.
  - do 2 eexists. split; [done|]. by split.
Qed.

Lemma sensor_spec_total o n : ∃ r n', spec o n = Some (r, n').
Proof. unfold spec. match goal with |- ∃ r n', Some ?x = _ => destruct x as [r n'] end. eauto. Qed.

(** the sensor service is a list of at most eight named sensors, each with its last
    sample. Any sequence of resets, additions (of configured and built-in sensors too), reads
    and queries gives the results of the list: names are unique, a read within the refresh
    time (differences of times wrap at 32 bits) returns the last sample without touching the
    hardware or the count of samples, any other read takes one sample of the sensor's kind and
    keeps it, a converter is opened at the first read that needs it and closed by the reset,
    and a failed read changes nothing but the handle. No call faults. *)
Theorem sensors_refine l s :
  Forall op_ok l → inv s →
  runs spec l (abs s) = seen abs (runs step l s) ∧ ∃ rs s', runs step l s = Some (rs, s') ∧ inv s'.
Proof.
  intros Hl Hs. destruct (runs_refine step spec op_ok inv abs l s sensor_step_refines Hl Hs) as [E1 Hi].
  split; [done|].
  destruct (runs_total spec sensor_spec_total l (abs s)) as [x Ex].
  rewrite Ex in E1. destruct (runs step l s) as [[rs s']|]; [|done]. exists rs, s'. split; [done|]. by eapply Hi.
Qed.
End SensorThm.

Module SensorRuns.
(** A world whose converter gives 7, 8, 9, ... *)
#[local] Instance ramp : SensorHw Z := {|
  hal_adc_open path e := if str_eq path adc0 then (Some 1, e) else (None, e);
  hal_adc_init _ e := (0, e); hal_adc_close _ e := e + 100; hal_adc_read _ e := (0, e, e + 1);
  os_get_heap_total _ := 200; os_get_free_heap _ := 50; scheduler_get_idle_tick_count _ := 25;
  scheduler_get_tick_count _ := 100; time_now_ms e := e
|}.
#[local] Existing Instance arch32.
Definition none : sensor_state Z := mk_sensors (free 0) 0 7.

Definition calls : list (@sensor_op Z) :=
  [Add (Some (str "a")) 1 None 100; Add (Some (str "a")) 2 None 5; Add (Some (str "b")) 1 (Some (str "/dev/x")) 5;
   Load []; Get (Some (str "a")) 1000 true; Get (Some (str "a")) 1099 true; Get (Some (str "a")) 1100 true;
   Get (Some (str "b")) 0 true; Get (Some (str "cpu")) 0 true; Get (Some (str "ram")) 0 true; Get (Some (str "no")) 0 true;
   Count; KeyAt 1; TypeAt 4; KeyAt 5; Samples; Reset; Count].

Lemma sensors_refine_witness :
  ∃ s', runs step calls none =
    Some ([RInt 0; RInt (-1); RInt 0; RInt 3; RRead 0 (Some 7); RRead 0 (Some 7); RRead 0 (Some 8);
           RRead (-1) None; RRead 0 (Some 75); RRead 0 (Some 75); RRead (-1) None;
           RInt 5; RText (Some (str "b")); RInt 5; RText None; RInt 4; RInt 0; RInt 0], s') ∧
    inv s' ∧ sn_env s' = 109.
Proof.
  destruct (sensors_refine calls none) as (E1 & rs & s' & E2 & Hi).
  { repeat (apply Forall_cons; split; [first [done|exact (Forall_nil_2 config_ok)|split; vm_decide]|]). by apply Forall_nil. }
  { split; [done|]. split; [exact (Nat.le_0_l 8)|constructor]. }
  rewrite E2 in E1. cbn [seen mbind option_bind] in E1. exists s'. rewrite E2. split; [|split; [exact Hi|]].
  - apply (f_equal (option_map fst)) in E1. vm_compute in E1. injection E1 as E1. do 2 f_equal. by rewrite <- E1.
  - apply (f_equal (option_map (λ x, ms_env (snd x)))) in E1. vm_compute in E1. by injection E1.
Defined.
End SensorRuns.
