(* ===== verification/ClockService.v ===== *)
(** * The saved clock (apps/clock_service.c)

    The time of the wall clock in a file, over the mounts of Vfs and the host variant of
    OsClock; after the code, the theorem that the clock survives a restart.  [long] has
    the width of [size_t], as on every target of the program. *)

From Stdlib Require Import ZArith Lia String.
From stdpp Require Import base tactics option numbers list.
From S2P Require Import Prelude.
From S2P Require Import CString.
From S2P Require Import Vfs.
From S2P Require Import OsClock.

Definition CLOCK_SERVICE_PATH : list Z := str "/flash/clock.dat".
Definition VFS_MODE_READ : Z := 1.
(** [VFS_MODE_WRITE | VFS_MODE_CREATE | VFS_MODE_TRUNC] *)
Definition MODE_SAVE : Z := Z.lor (Z.lor 2 8) 16.

Section ClockService.
Context `{Arch} {Hd U : Type} (vs : @vfs_state Hd U).

(** [host] is the clock of the host, [adjust] the shift of OsClock. *)
Record clock_state := mk_clock { g_saved : Z; adjust : Z; host : Z; flash : U }.
Implicit Types (s : clock_state).
Definition with_flash (u : U) s : clock_state := mk_clock (g_saved s) (adjust s) (host s) u.
Definition with_saved (t : Z) s : clock_state := mk_clock t (adjust s) (host s) (flash s).
Definition with_adjust (a : Z) s : clock_state := mk_clock (g_saved s) a (host s) (flash s).
Definition clock_now s : Z := os_clock_now (adjust s) (host s).

(** What the bytes of the file say; 0 when they say nothing. *)
Definition read_saved (open_ok : bool) s : Z * clock_state :=
  let '(ret, file, u) := vfs_open open_ok (Some CLOCK_SERVICE_PATH) VFS_MODE_READ true vs (flash s) in
  if negb (ret =? 0) then (0, with_flash u s) else
  let '(n, got, u) := vfs_read file 31 u in
  let u := snd (vfs_close file u) in
  if n <=? 0 then (0, with_flash u s) else
  (match strtol size_bits (c_str (take (Z.to_nat n) got)) with
   | Some value => if value <=? OS_CLOCK_SET_AFTER then 0 else value
   | None => 0
   end, with_flash u s).

Definition write_saved (open_ok : bool) (unix_time : Z) s : Z * clock_state :=
  let text := CString.fmt_d (to_long unix_time) ++ [10] in
  let n := blen text in
  if (n <=? 0) || (32 <=? n) then (-1, s) else
  let '(ret, file, u) := vfs_open open_ok (Some CLOCK_SERVICE_PATH) MODE_SAVE true vs (flash s) in
  if negb (ret =? 0) then (-1, with_flash u s) else
  let (wrote, u) := vfs_write file text n u in
  let u := snd (vfs_sync file u) in
  let u := snd (vfs_close file u) in
  if negb (wrote =? n) then (-1, with_flash u s) else (0, with_saved unix_time (with_flash u s)).

Definition set_clock (t : Z) s : Z * clock_state :=
  let (r, a) := os_clock_set t (adjust s) (host s) in (r, with_adjust a s).

Definition clock_service_start (open_ok : bool) (rtc_now compiled_unix : Z) s : Z * clock_state :=
  let (saved, s) := read_saved open_ok s in
  let '(chosen, s) :=
    if OS_CLOCK_SET_AFTER <? saved then (saved, with_saved saved s)
    else if OS_CLOCK_SET_AFTER <? rtc_now then (rtc_now, s)
    else if OS_CLOCK_SET_AFTER <? compiled_unix then (compiled_unix, s) else (0, s) in
  if chosen =? 0 then (-1, s) else
  let s := if saved =? 0
           then let (r, s) := write_saved open_ok chosen s in if negb (r =? 0) then with_saved chosen s else s
           else s in
  let s := if negb (os_clock_stamp rtc_now chosen =? 0) then snd (set_clock chosen s) else s in
  (0, s).

Definition clock_service_shift (open_ok : bool) (delta_s : Z) s : Z * clock_state :=
  let (r, a) := os_clock_shift delta_s (adjust s) in
  let s := with_adjust a s in
  if negb (r =? 0) then (-1, s) else write_saved open_ok (clock_now s) s.

Definition clock_service_set (open_ok : bool) (unix_time : Z) s : Z * clock_state :=
  let (r, s) := set_clock unix_time s in
  if negb (r =? 0) then (-1, s) else write_saved open_ok unix_time s.

Definition clock_service_checkpoint (open_ok : bool) s : Z * clock_state :=
  let now := clock_now s in
  if negb (g_saved s =? 0) && (g_saved s <=? now) && (now - g_saved s <? 60) then (0, s)
  else write_saved open_ok now s.
End ClockService.
Arguments clock_state : clear implicits.

(** ** The clock survives a restart *)

(** ** Printing and reading a number *)

Definition dec_value (l : list Z) : Z := foldl (λ n c, n * 10 + (c - 48)) 0 l.

Lemma digits_read k n :
  (0 < k)%nat → 0 <= n < 10 ^ Z.of_nat k →
  Forall (λ c, isdigit c = true) (digits k n) ∧ dec_value (digits k n) = n ∧ digits k n ≠ [] ∧
  (length (digits k n) <= k)%nat.
Proof.
  revert n. induction k as [|k IH]; intros n Hk Hn; [lia|]. cbn [digits].
  assert (∀ d, 0 <= d < 10 → isdigit (48 + d) = true) as Hd
    by (intros d ?; unfold isdigit; apply andb_true_iff; rewrite !Z.leb_le; lia).
  destruct (Z.ltb_spec n 10) as [Hlt|Hge].
  { split; [|split; [unfold dec_value; cbn; lia|split; [done|cbn; lia]]]. constructor; [apply Hd; lia|constructor]. }
  destruct k as [|k]; [cbn in Hn; lia|].
  pose proof (Z.mod_pos_bound n 10 ltac:(lia)) as Hm.
  destruct (IH (n / 10)) as (Hf & Hv & _ & Hl); [lia| |].
  { split; [apply Z.div_pos; lia|]. apply Z.div_lt_upper_bound; [lia|].
    rewrite <- Z.pow_succ_r by lia. replace (Z.succ (Z.of_nat (S k))) with (Z.of_nat (S (S k))) by lia. lia. }
  split; [apply Forall_app; split; [done|]; constructor; [by apply Hd|constructor]|].
  split; [|split; [by destruct (digits (S k) (n / 10))|rewrite length_app; cbn [length]; lia]].
  unfold dec_value in *. rewrite foldl_app, Hv. cbn [foldl]. pose proof (Z.div_mod n 10 ltac:(lia)). lia.
Qed.

Lemma leading_all (f : Z → bool) l c r :
  Forall (λ x, f x = true) l → f c = false → leading f (l ++ c :: r) = l.
Proof.
  intros Hl Hc. induction Hl as [|x l Hx _ IH]; cbn; [by rewrite Hc|]. by rewrite Hx, IH.
Qed.

Lemma strtol_digits bits l :
  l ≠ [] → Forall (λ c, isdigit c = true) l → dec_value l < 2 ^ (bits - 1) →
  strtol bits (l ++ [10]) = Some (dec_value l).
Proof.
  intros Hne Hl Hv. destruct l as [|c l]; [done|]. pose proof Hl as Hl'. apply Forall_cons in Hl' as [Hc _].
  assert (48 <= c <= 57) as Hcr by (unfold isdigit in Hc; bool_hyps; lia).
  assert (isspace c = false) as Hs.
  { unfold isspace. apply orb_false_iff. split; [apply Z.eqb_neq; lia|].
    apply andb_false_iff. right. apply Z.leb_gt. lia. }
  unfold strtol. cbn [app leading]. rewrite Hs. cbn [length drop].
  assert (match c :: l ++ [10] with 45 :: _ => true | _ => false end = false ∧
          match c :: l ++ [10] with 45 :: t => t | 43 :: t => t | _ => c :: l ++ [10] end = c :: l ++ [10]) as [-> ->].
  { assert (c = 48 ∨ c = 49 ∨ c = 50 ∨ c = 51 ∨ c = 52 ∨ c = 53 ∨ c = 54 ∨ c = 55 ∨ c = 56 ∨ c = 57) as Hcs by lia.
    by repeat destruct Hcs as [->|Hcs]; subst. }
  rewrite app_comm_cons, leading_all by done. fold (dec_value (c :: l)). f_equal. lia.
Qed.

Section Saved.
Context `{Arch} {Hd U : Type} (vs : @vfs_state Hd U) (content : U → option (list Z)).
Implicit Types (s : clock_state U).

(** The file system of the saved clock behaves as a POSIX one: a file that exists opens for
    reading at its start, opening it to save empties it, and a write to it is complete. *)
Class SavedFile : Prop := {
  saved_read u :
    match content u with
    | Some c => ∃ f u1 u2 r u3,
        vfs_open true (Some CLOCK_SERVICE_PATH) VFS_MODE_READ true vs u = (0, Some f, u1) ∧
        vfs_read (Some f) 31 u1 = (blen (take 31 c), take 31 c, u2) ∧
        vfs_close (Some f) u2 = (r, u3) ∧ content u3 = Some c
    | None => ∃ r f u1,
        vfs_open true (Some CLOCK_SERVICE_PATH) VFS_MODE_READ true vs u = (r, f, u1) ∧ r ≠ 0 ∧ content u1 = None
    end;
  saved_write b u : ∃ f u1 u2 r3 u3 r4 u4,
    vfs_open true (Some CLOCK_SERVICE_PATH) MODE_SAVE true vs u = (0, Some f, u1) ∧
    vfs_write (Some f) b (blen b) u1 = (blen b, u2) ∧ vfs_sync (Some f) u2 = (r3, u3) ∧
    vfs_close (Some f) u3 = (r4, u4) ∧ content u4 = Some b
}.
Context `{!SavedFile}.

Definition file s : option (list Z) := content (flash s).

(** The time a file says, 0 when it says none. *)
Definition time_in (c : option (list Z)) : Z :=
  match c with
  | Some c =>
    match strtol size_bits (c_str (take 31 c)) with
    | Some t => if t <=? OS_CLOCK_SET_AFTER then 0 else t
    | None => 0
    end
  | None => 0
  end.

(** Times the clock can keep: after the beginning of 2020, in the range of [long]. *)
Definition keeps (t : Z) : Prop := OS_CLOCK_SET_AFTER < t < 2 ^ (size_bits - 1).

Lemma bits_cases : size_bits = 32 ∨ size_bits = 64.
Proof. apply size_bits_ok. Qed.

Lemma keeps_bound t : keeps t → 0 <= t < 10 ^ 20 ∧ to_long t = t.
Proof.
  unfold keeps, to_long, OS_CLOCK_SET_AFTER. intros Ht.
  destruct bits_cases as [Eb|Eb]; rewrite Eb in *; (split; [lia|]); rewrite Z.mod_small by lia; lia.
Qed.

Lemma text_long t : (length (CString.fmt_d (to_long t)) <= 21)%nat.
Proof.
  assert (- 2 ^ 63 <= to_long t < 2 ^ 63) as Ht.
  { unfold to_long. destruct bits_cases as [Eb|Eb]; rewrite Eb.
    - pose proof (Z.mod_pos_bound (t + 2 ^ (32 - 1)) (2 ^ 32) ltac:(lia)). lia.
    - pose proof (Z.mod_pos_bound (t + 2 ^ (64 - 1)) (2 ^ 64) ltac:(lia)). lia. }
  unfold CString.fmt_d. change (10 ^ 20) with 100000000000000000000 in *. destruct (Z.ltb_spec (to_long t) 0).
  - destruct (digits_read 20 (- to_long t)) as (_ & _ & _ & Hl); [lia|split; [lia|cbn; lia]|]. cbn [length]. lia.
  - destruct (digits_read 20 (to_long t)) as (_ & _ & _ & Hl); [lia|split; [lia|cbn; lia]|]. lia.
Qed.

Lemma time_in_text t : keeps t → time_in (Some (CString.fmt_d (to_long t) ++ [10])) = t.
Proof.
  intros Ht. destruct (keeps_bound t Ht) as [Hb ->]. unfold time_in.
  pose proof (text_long t) as Hl. destruct (keeps_bound t Ht) as [_ El]. rewrite El in Hl.
  unfold CString.fmt_d in *. rewrite (proj2 (Z.ltb_ge t 0)) in * by lia.
  destruct (digits_read 20 t) as (Hf & Hv & Hne & _); [lia|exact Hb|].
  rewrite take_ge by (rewrite length_app; cbn [length]; lia).
  assert (is_cstr (digits 20 t ++ [10])) as Hs.
  { apply is_cstr_app. split; [|by constructor]. eapply Forall_impl; [exact Hf|]. intros c Hc ->. done. }
  rewrite <- (app_nil_r (digits 20 t ++ [10])), c_str_app by done. cbn [c_str]. rewrite app_nil_r.
  rewrite strtol_digits by (done || (rewrite Hv; apply Ht)). rewrite Hv.
  by rewrite (proj2 (Z.leb_gt _ _)) by apply Ht.
Qed.

Lemma read_ok s :
  ∃ u, read_saved vs true s = (time_in (file s), with_flash u s) ∧ content u = file s.
Proof.
  unfold read_saved, file. pose proof (saved_read (flash s)) as Hr. destruct (content (flash s)) as [c|].
  - destruct Hr as (f & u1 & u2 & r & u3 & -> & -> & -> & Ec). exists u3. cbn [negb Z.eqb snd]. split; [|done].
    destruct c as [|a c]; [done|]. cbn [take]. rewrite (proj2 (Z.leb_gt _ 0)) by (rewrite blen_cons; pose proof (blen_nonneg (take 30 c)); lia).
    unfold blen. rewrite Nat2Z.id, firstn_all. done.
  - destruct Hr as (r & f & u1 & -> & Hne & Ec). exists u1. by rewrite (proj2 (Z.eqb_neq r 0)).
Qed.

Lemma write_ok t s :
  ∃ u, write_saved vs true t s = (0, with_saved t (with_flash u s)) ∧
    content u = Some (CString.fmt_d (to_long t) ++ [10]).
Proof.
  unfold write_saved. pose proof (text_long t) as Hl. set (text := CString.fmt_d (to_long t) ++ [10]).
  assert (0 < blen text < 32) as Hb.
  { unfold blen, text. rewrite length_app. cbn [length]. lia. }
  rewrite (proj2 (Z.leb_gt _ 0)), (proj2 (Z.leb_gt 32 _)) by lia. cbn [orb].
  destruct (saved_write text (flash s)) as (f & u1 & u2 & r3 & u3 & r4 & u4 & -> & -> & E3 & E4 & Ec).
  cbn [negb Z.eqb]. rewrite E3. cbn [snd]. rewrite E4. cbn [snd]. rewrite Z.eqb_refl. by exists u4.
Qed.

(** What was saved last is what the file says. *)
Definition saved_ok s : Prop := keeps (g_saved s) → time_in (file s) = g_saved s.

Lemma write_saved_ok t s :
  ∃ s', write_saved vs true t s = (0, s') ∧ saved_ok s' ∧ g_saved s' = t ∧ clock_now s' = clock_now s.
Proof.
  destruct (write_ok t s) as (u & E1 & Ec). eexists. split; [exact E1|]. split; [|done].
  intros Hk. unfold file. cbn [flash with_saved with_flash]. rewrite Ec. by apply time_in_text.
Qed.

(** ** Calls *)

Inductive clock_op := Start (rtc_now compiled : Z) | Shift (delta : Z) | Set_time (t : Z) | Checkpoint | Pass (seconds : Z).
Definition step (o : clock_op) s : clock_state U :=
  match o with
  | Start rtc_now compiled => snd (clock_service_start vs true rtc_now compiled s)
  | Shift delta => snd (clock_service_shift vs true delta s)
  | Set_time t => snd (clock_service_set vs true t s)
  | Checkpoint => snd (clock_service_checkpoint vs true s)
  | Pass seconds => mk_clock (g_saved s) (adjust s) (host s + seconds) (flash s)
  end.

Lemma start_ok rtc_now compiled s :
  saved_ok s →
  ∃ r s', clock_service_start vs true rtc_now compiled s = (r, s') ∧ saved_ok s' ∧
    (keeps (time_in (file s)) → r = 0 ∧ g_saved s' = time_in (file s) ∧
      clock_now s' = if OS_CLOCK_SET_AFTER <? rtc_now then clock_now s
                     else os_clock_now (os_clock_set (time_in (file s)) (adjust s) (host s)).2 (host s)).
Proof.
  intros Hs. unfold clock_service_start. destruct (read_ok s) as (u & -> & Eu). set (t := time_in (file s)).
  destruct (Z.ltb_spec OS_CLOCK_SET_AFTER t) as [Ht|Ht].
  - assert (t ≠ 0) as Hnz by (unfold OS_CLOCK_SET_AFTER in Ht; lia).
    rewrite (proj2 (Z.eqb_neq t 0)) by done. unfold os_clock_stamp.
    rewrite (proj2 (Z.ltb_lt _ t)) by done.
    assert (∀ a, saved_ok (with_adjust a (with_saved t (with_flash u s)))) as Hok.
    { intros a _. unfold file. cbn. by rewrite Eu. }
    destruct (OS_CLOCK_SET_AFTER <? rtc_now); cbn [negb Z.eqb].
    + do 2 eexists. split; [done|]. split; [apply (Hok (adjust s))|]. done.
    + rewrite (proj2 (Z.eqb_neq t 0)) by done. cbn [negb snd set_clock]. do 2 eexists. split; [done|]. by split; [apply Hok|].
  - assert (t = 0) as Et0.
    { unfold t, time_in in *. destruct (file s); [|done]. destruct (strtol _ _); [|done].
      destruct (Z.leb_spec z OS_CLOCK_SET_AFTER); [done|lia]. }
    assert (¬ keeps t) as Hnk by (unfold keeps; lia).
    assert (saved_ok (with_flash u s)) as Hsu by (intros Hk; unfold file; cbn; rewrite Eu; by apply Hs).
    rewrite Et0. cbn [Z.eqb].
    assert (∀ chosen, chosen ≠ 0 → ∃ s', (if chosen =? 0 then (-1, with_flash u s) else
      let s := (let (r, s) := write_saved vs true chosen (with_flash u s) in
                if negb (r =? 0) then with_saved chosen s else s) in
      (0, if negb (os_clock_stamp rtc_now chosen =? 0) then snd (set_clock chosen s) else s)) = (0, s') ∧ saved_ok s') as Hc.
    { intros chosen Hne. rewrite (proj2 (Z.eqb_neq chosen 0)) by done.
      destruct (write_saved_ok chosen (with_flash u s)) as (s1 & -> & Hs1 & _). cbn [negb Z.eqb].
      destruct (negb _); eexists; (split; [done|]); exact Hs1. }
    destruct (Z.ltb_spec OS_CLOCK_SET_AFTER rtc_now); [|destruct (Z.ltb_spec OS_CLOCK_SET_AFTER compiled)].
    + destruct (Hc rtc_now) as (s' & E1 & Hs1); [unfold OS_CLOCK_SET_AFTER in *; lia|]. do 2 eexists. split; [exact E1|]. split; [done|]. by rewrite <- Et0.
    + destruct (Hc compiled) as (s' & E1 & Hs1); [unfold OS_CLOCK_SET_AFTER in *; lia|]. do 2 eexists. split; [exact E1|]. split; [done|]. by rewrite <- Et0.
    + do 2 eexists. split; [done|]. split; [done|]. by rewrite <- Et0.
Qed.

Lemma step_ok o s : saved_ok s → saved_ok (step o s).
Proof.
  intros Hs. destruct o as [rtc_now compiled|delta|t| |seconds]; cbn [step].
  - destruct (start_ok rtc_now compiled s Hs) as (r & s' & -> & Hs' & _). done.
  - unfold clock_service_shift. cbn [os_clock_shift negb Z.eqb].
    by destruct (write_saved_ok (clock_now (with_adjust (i32 (adjust s + delta)) s))
      (with_adjust (i32 (adjust s + delta)) s)) as (s' & -> & Hs' & _).
  - unfold clock_service_set, set_clock. cbn [os_clock_set negb Z.eqb].
    by destruct (write_saved_ok t (with_adjust (i32 (t - host s)) s)) as (s' & -> & Hs' & _).
  - unfold clock_service_checkpoint. destruct (negb _ && _ && _); [done|].
    by destruct (write_saved_ok (clock_now s) s) as (s' & -> & Hs' & _).
  - done.
Qed.

Lemma steps_ok l s : saved_ok s → saved_ok (foldl (λ s o, step o s) s l).
Proof. revert s. induction l as [|o l IH]; intros s Hs; [done|]. by apply IH, step_ok. Qed.

Lemma checkpoint_ok s :
  saved_ok s → keeps (clock_now s) → keeps (clock_now s - 60) →
  let s' := snd (clock_service_checkpoint vs true s) in
  clock_now s - 60 < time_in (file s') <= clock_now s.
Proof.
  intros Hs Hk Hk'. cbv zeta. unfold clock_service_checkpoint.
  destruct (negb (g_saved s =? 0) && (g_saved s <=? clock_now s) && (clock_now s - g_saved s <? 60)) eqn:Ec.
  - bool_hyps. cbn [snd]. rewrite Hs by (unfold keeps in *; lia). lia.
  - destruct (write_saved_ok (clock_now s) s) as (s' & -> & Hs' & Eg & _). cbn [snd]. rewrite Hs'; rewrite Eg; [lia|done].
Qed.

(** C24: the clock survives a restart with a loss of less than a minute. After any sequence
    of starts, adjustments, settings, checkpoints and passing time that ends in a checkpoint,
    a machine that starts again with no time of its own finds the saved time: the start
    succeeds and the clock shows a time at most the one at the checkpoint and less than sixty
    seconds before it. The time is written as decimal text to the file and read back from it,
    for any file system that keeps what is written. *)
Theorem clock_survives_restart l s rtc_now compiled host' :
  let s1 := foldl (λ s o, step o s) s (l ++ [Checkpoint]) in
  let now := clock_now (foldl (λ s o, step o s) s l) in
  g_saved s = 0 → keeps now → keeps (now - 60) → rtc_now <= OS_CLOCK_SET_AFTER →
  - 2 ^ 31 <= now - 60 - host' → now - host' < 2 ^ 31 →
  ∃ s2, clock_service_start vs true rtc_now compiled (mk_clock 0 0 host' (flash s1)) = (0, s2) ∧
    now - 60 < clock_now s2 <= now ∧ g_saved s2 = clock_now s2.
Proof.
  cbv zeta. intros Hg Hk Hk' Hrtc Hlo Hhi. rewrite foldl_app. cbn [foldl].
  set (s0 := foldl (λ s o, step o s) s l) in *.
  assert (saved_ok s0) as Hs0.
  { assert (saved_ok s) as Hs by (intros Hx; rewrite Hg in Hx; unfold keeps, OS_CLOCK_SET_AFTER in Hx; lia).
    by apply steps_ok. }
  pose proof (checkpoint_ok s0 Hs0 Hk Hk') as Hc. cbv zeta in Hc. cbn [step]. set (s1 := snd _) in *.
  set (t := time_in (file s1)) in *.
  destruct (start_ok rtc_now compiled (mk_clock 0 0 host' (flash s1))) as (r & s2 & E1 & _ & Hr).
  { intros Hx. unfold keeps, OS_CLOCK_SET_AFTER in Hx. cbn in Hx. lia. }
  change (time_in (file (mk_clock 0 0 host' (flash s1)))) with t in Hr.
  destruct Hr as (-> & Eg & En); [unfold keeps in *; lia|].
  rewrite (proj2 (Z.ltb_ge _ rtc_now)) in En by lia. cbn [adjust host] in En.
  rewrite os_clock_set_now in En by lia. rewrite Z.sub_diag, Z.add_0_r in En.
  exists s2. split; [done|]. rewrite Eg, En. lia.
Qed.
End Saved.

Module ClockRuns.
#[local] Existing Instance arch64.

(** A flash of one file: its bytes, if it exists, and the place in it. *)
Definition flash_t : Type := option (list Z) * nat.
Definition flash_ops : @vfs_ops_t unit flash_t := {|
  op_open := Some (λ _ mode u,
    if mode =? 1 then match u.1 with Some c => (0, tt, (Some c, 0%nat)) | None => (-1, tt, u) end
    else (0, tt, (Some [], 0%nat)));
  op_close := Some (λ _ u, (0, u));
  op_read := Some (λ _ n u,
    let got := take (Z.to_nat n) (drop u.2 (default [] u.1)) in (blen got, got, (u.1, (u.2 + length got)%nat)));
  op_write := Some (λ _ b n u, (n, (Some (take u.2 (default [] u.1) ++ b), (u.2 + length b)%nat)));
  op_seek := None; op_tell := None; op_stat := None; op_unlink := None; op_rename := None; op_mkdir := None;
  op_rmdir := None; op_opendir := None; op_readdir := None; op_closedir := None;
  op_sync := Some (λ _ u, (0, u))
|}.
Definition mounts : @vfs_state unit flash_t := snd (vfs_mount true (Some (str "/flash")) (Some flash_ops) 0 (mk_vfs [] 0)).

#[export] Instance flash_saves : SavedFile mounts fst.
Proof.
  split.
  - intros [[c|] p].
    + exists (mk_file flash_ops tt). do 4 eexists. split; [reflexivity|]. split; [reflexivity|]. by split.
    + do 3 eexists. split; [reflexivity|]. done.
  - intros b [c p]. exists (mk_file flash_ops tt). do 6 eexists. split; [reflexivity|]. split; [reflexivity|].
    split; [reflexivity|]. split; [reflexivity|]. done.
Qed.

Lemma clock_survives_restart_witness :
  ∃ s2, clock_service_start mounts true 0 0
          (mk_clock 0 0 1600001000 (flash (foldl (λ s o, step mounts o s) (mk_clock 0 0 1000 (None, 0%nat))
             [Start 0 1700000000; Pass 30; Shift 3600; Pass 59; Checkpoint]))) = (0, s2) ∧
    1700003629 < clock_now s2 <= 1700003689 ∧ g_saved s2 = clock_now s2.
Proof.
  assert (clock_now (foldl (λ s o, step mounts o s) (mk_clock 0 0 1000 (None, 0%nat))
    [Start 0 1700000000; Pass 30; Shift 3600; Pass 59]) = 1700003689) as En by vm_decide.
  change 1700003629 with (1700003689 - 60). rewrite <- En.
  apply (clock_survives_restart mounts fst [Start 0 1700000000; Pass 30; Shift 3600; Pass 59]
    (mk_clock 0 0 1000 (None, 0%nat)) 0 0 1600001000);
    vm_compute; repeat split; congruence.
Defined.
End ClockRuns.
