(* ===== verification/DeviceRegistry.v ===== *)
(** * The device registry (drivers/device_registry.c)

    An array of pointers to the devices of Driver, grown by doubling, with a callback
    that hears of every arrival and departure.  The callback is run on the whole
    state, so it may call back; a pointer to a freed device leads nowhere. *)

From Stdlib Require Import ZArith Lia String.
From stdpp Require Import base tactics option numbers fin_maps gmap list.
From S2P Require Import Prelude.
From S2P Require Import CString.
From S2P Require Import Driver.
From S2P Require Import Tables.

Definition INITIAL_CAPACITY : Z := 16.
Definition DRIVER_NAME_MAX : Z := 32.
Definition HOTPLUG_EVENT_ADD : Z := 0.
Definition HOTPLUG_EVENT_REMOVE : Z := 1.
Definition HOTPLUG_EVENT_CHANGE : Z := 2.

(** The strings of an event. *)
Record hotplug_event_t := mk_event { ev_type : Z; ev_path : list Z; ev_driver : list Z; ev_bus : Z }.

(** [0x%02X] of a byte *)
Definition hex_digit (d : Z) : Z := if d <? 10 then 48 + d else 55 + d.
Definition fmt_0x02X (b : Z) : list Z := [48; 120; hex_digit (b / 16); hex_digit (b mod 16)].

(** Reading a byte from an address of the bus, for its return code. *)
Class I2cBus (U : Type) := { hal_i2c_read : Z → Z → U → Z * U }.

Section Registry.
Context `{Arch} {Fn Cb U : Type} `{I2cBus U}.

(** [rg_drivers] and [rg_devices] are the structs that pointers lead to. *)
Record device_registry := mk_registry {
  rg_array : option (list (option nat)); rg_capacity : Z; rg_count : Z; rg_cb : option Cb; rg_arg : Z;
  rg_drivers : gmap nat (@driver Fn); rg_devices : gmap nat device; rg_env : U
}.
Implicit Types (s : device_registry).

Class HotplugCode := { run_hotplug : Cb → hotplug_event_t → Z → device_registry → option device_registry }.
Context `{HotplugCode}.

Definition with_array (a : option (list (option nat))) (capacity count : Z) s : device_registry :=
  mk_registry a capacity count (rg_cb s) (rg_arg s) (rg_drivers s) (rg_devices s) (rg_env s).
Definition with_cb (cb : option Cb) (arg : Z) s : device_registry :=
  mk_registry (rg_array s) (rg_capacity s) (rg_count s) cb arg (rg_drivers s) (rg_devices s) (rg_env s).
Definition with_devices (d : gmap nat device) s : device_registry :=
  mk_registry (rg_array s) (rg_capacity s) (rg_count s) (rg_cb s) (rg_arg s) (rg_drivers s) d (rg_env s).
Definition with_env (u : U) s : device_registry :=
  mk_registry (rg_array s) (rg_capacity s) (rg_count s) (rg_cb s) (rg_arg s) (rg_drivers s) (rg_devices s) u.

Definition device_registry_init (calloc_ok : bool) s : Z * device_registry :=
  if calloc_ok
  then (0, with_cb None 0 (with_array (Some (replicate (Z.to_nat INITIAL_CAPACITY) None)) INITIAL_CAPACITY 0 s))
  else (-1, with_array None INITIAL_CAPACITY (rg_count s) s).

(** [registry.devices[i]] *)
Definition entry (i : Z) s : option (option nat) := a ← rg_array s; rd a i.

(** [if (dev->owned) free (dev);] *)
Definition free_owned (p : nat) s : option device_registry :=
  d ← rg_devices s !! p;
  Some (if dv_owned d then with_devices (delete p (rg_devices s)) s else s).

Fixpoint deinit_loop (n : nat) (i : Z) s : option device_registry :=
  match n with
  | O => Some s
  | S n =>
    e ← entry i s;
    s ← match e with Some p => free_owned p s | None => Some s end;
    deinit_loop n (i + 1) s
  end.
Definition device_registry_deinit s : option device_registry :=
  s ← deinit_loop (Z.to_nat (rg_count s)) 0 s;
  Some (with_array None 0 0 s).

(** The size of the array in bytes; an object has less than half of the address space. *)
Definition array_bytes (capacity : Z) : Z := usz (capacity * (size_bits / 8)).

Definition registry_resize (realloc_ok : bool) s : Z * device_registry :=
  let new_cap := usz (rg_capacity s * 2) in
  let bytes := array_bytes new_cap in
  if realloc_ok && (bytes <? 2 ^ (size_bits - 1)) then
    let n := Z.to_nat (bytes / (size_bits / 8)) in
    let old := default [] (rg_array s) in
    (0, with_array (Some (take n old ++ replicate (n - length old) None)) new_cap (rg_count s) s)
  else (-1, s).

(** The first of the [n] entries from [i] on with the property. *)
Fixpoint search_loop (P : device → bool) (n : nat) (i : Z) s : option (option Z) :=
  match n with
  | O => Some None
  | S n =>
    e ← entry i s;
    match e with
    | Some p => d ← rg_devices s !! p; if P d then Some (Some i) else search_loop P n (i + 1) s
    | None => search_loop P n (i + 1) s
    end
  end.
Definition search (P : device → bool) s : option (option Z) := search_loop P (Z.to_nat (rg_count s)) 0 s.

(** The event of a device, and telling the callback. *)
Definition device_event (type : Z) (d : device) (drivers : gmap nat (@driver Fn)) : option hotplug_event_t :=
  name ← match dv_driver d with
         | Some q => r ← drivers !! q; Some (take 31 (dr_name r))
         | None => Some []
         end;
  Some (mk_event type (take 63 (dv_path d)) name (dv_bus d)).
Definition announce (type : Z) (d : device) s : option device_registry :=
  match rg_cb s with
  | Some cb => e ← device_event type d (rg_drivers s); run_hotplug cb e (rg_arg s) s
  | None => Some s
  end.

Definition device_registry_add (dev : option nat) (realloc_ok : bool) s : option (Z * device_registry) :=
  match dev with
  | None => Some (-1, s)
  | Some p =>
    d ← rg_devices s !! p;
    if str_eq (dv_name d) [] then Some (-1, s) else
    found ← search (λ e, str_eq (dv_path e) (dv_path d) || str_eq (dv_name e) (dv_name d)) s;
    match found with
    | Some _ => Some (-1, s)
    | None =>
      let (r, s) := if rg_capacity s <=? rg_count s then registry_resize realloc_ok s else (0, s) in
      if negb (r =? 0) then Some (-1, s) else
      a ← rg_array s;
      a ← wr a (rg_count s) (Some p);
      s ← announce HOTPLUG_EVENT_ADD d (with_array (Some a) (rg_capacity s) (usz (rg_count s + 1)) s);
      Some (0, s)
    end
  end.

Definition device_registry_remove (path : option (list Z)) s : option (Z * device_registry) :=
  match path with
  | None => Some (-1, s)
  | Some path =>
    found ← search (λ e, str_eq (dv_path e) path) s;
    match found with
    | None => Some (-1, s)
    | Some i =>
      e ← entry i s;
      p ← e;
      d ← rg_devices s !! p;
      s ← announce HOTPLUG_EVENT_REMOVE d s;
      let last := usz (rg_count s - 1) in
      a ← rg_array s;
      a ← shift_left (Z.to_nat (last - i)) i a;
      a ← wr a last None;
      s ← free_owned p (with_array (Some a) (rg_capacity s) last s);
      Some (0, s)
    end
  end.

(** The pointer at the place a search found. *)
Definition found_device (found : option Z) s : option (option nat) :=
  match found with Some i => entry i s | None => Some None end.
Definition device_registry_find (path : option (list Z)) s : option (option nat) :=
  match path with
  | None => Some None
  | Some path => found ← search (λ e, str_eq (dv_path e) path) s; found_device found s
  end.
Definition device_registry_find_by_name (name : option (list Z)) s : option (option nat) :=
  match name with
  | None => Some None
  | Some name => found ← search (λ e, str_eq (dv_name e) name) s; found_device found s
  end.

(** The array and the count, which the caller may read up to. *)
Definition device_registry_list (out : bool) s : Z * option (option (list (option nat)) * Z) :=
  if out then (0, Some (rg_array s, rg_count s)) else (-1, None).

Definition device_registry_set_hotplug_callback (cb : option Cb) (arg : Z) s : device_registry := with_cb cb arg s.

Definition device_registry_emit_hotplug (type : Z) (path driver_name : option (list Z)) (bus_data : Z) s
    : option device_registry :=
  match rg_cb s, path with
  | Some cb, Some path =>
    run_hotplug cb (mk_event type (take 63 path) (take 31 (default [] driver_name)) bus_data) (rg_arg s) s
  | _, _ => Some s
  end.

(** ** Scanning a bus *)

(** [addr] runs from 0x08 to 0x77. *)
Fixpoint scan_loop (fuel : nat) (i2c addr : Z) (addrs : list Z) (max_addrs found : Z) s
    : option (list Z * Z * device_registry) :=
  match fuel with
  | O => None
  | S fuel =>
    if (addr <=? 0x77) && (found <? max_addrs) then
      let (ret, u) := hal_i2c_read i2c addr (rg_env s) in
      let s := with_env u s in
      if ret =? 0 then
        addrs ← wr addrs found addr;
        scan_loop fuel i2c (addr + 1) addrs max_addrs (usz (found + 1)) s
      else scan_loop fuel i2c (addr + 1) addrs max_addrs found s
    else Some (addrs, found, s)
  end.
(** What is written to [addrs] and [*found]; [out] says whether [found] is not NULL. *)
Definition i2c_scan_bus (i2c : option Z) (addrs : option (list Z)) (max_addrs : Z) (out : bool) s
    : option (Z * option (list Z * Z) * device_registry) :=
  match i2c, addrs with
  | Some i2c, Some addrs =>
    if negb out then Some (-1, None, s) else
    '(addrs, found, s) ← scan_loop 113 i2c 0x08 addrs max_addrs 0 s;
    Some (0, Some (addrs, found), s)
  | _, _ => Some (-1, None, s)
  end.

Definition spi_scan_bus s : Z * device_registry := (0, s).

Definition i2c_device (addr : Z) : device :=
  mk_device (str "i2c-dev-" ++ fmt_0x02X addr) (str "/dev/i2c/" ++ fmt_0x02X addr) None 0 addr 0 false true.

(** [calloc_ok] and [realloc_ok] say which allocations succeed for an address. *)
Fixpoint hotplug_loop (calloc_ok realloc_ok : Z → bool) (addrs : list Z) (n : nat) (i : Z) s
    : option device_registry :=
  match n with
  | O => Some s
  | S n =>
    addr ← rd addrs i;
    present ← device_registry_find (Some (dv_path (i2c_device addr))) s;
    match present with
    | Some _ => hotplug_loop calloc_ok realloc_ok addrs n (i + 1) s
    | None =>
      if negb (calloc_ok addr) then hotplug_loop calloc_ok realloc_ok addrs n (i + 1) s else
      let p := fresh (dom (rg_devices s)) in
      let s := with_devices (<[p := i2c_device addr]> (rg_devices s)) s in
      '(_, s) ← device_registry_add (Some p) (realloc_ok addr) s;
      hotplug_loop calloc_ok realloc_ok addrs n (i + 1) s
    end
  end.
Definition hotplug_scan_i2c (i2c : option Z) (calloc_ok realloc_ok : Z → bool) s : option (Z * device_registry) :=
  match i2c with
  | None => Some (-1, s)
  | Some _ =>
    '(ret, got, s) ← i2c_scan_bus i2c (Some (zeros 128)) 128 true s;
    if negb (ret =? 0) then Some (ret, s) else
    let (addrs, found) := default ([], 0) got in
    s ← hotplug_loop calloc_ok realloc_ok addrs (Z.to_nat found) 0 s;
    Some (0, s)
  end.

Definition hotplug_scan_spi (spi : option Z) s : Z * device_registry :=
  match spi with None => (-1, s) | Some _ => (0, s) end.
End Registry.
Arguments device_registry : clear implicits.
