(* ===== verification/DeviceRegistryThm.v ===== *)
(** * The device registry is a list of devices with distinct paths and names *)

From Stdlib Require Import ZArith Lia String.
From stdpp Require Import base tactics option numbers fin_maps gmap list.
From S2P Require Import Prelude.
From S2P Require Import CString.
From S2P Require Import Runs.
From S2P Require Import Tables.
From S2P Require Import Driver.
From S2P Require Import DeviceRegistry.

Section RegistryThm.
Context `{Arch} {Fn Cb U : Type} `{I2cBus U} `{@HotplugCode Fn Cb U}.
Abbreviation device_registry := (device_registry Fn Cb U).
Implicit Types (s : device_registry) (d e : device) (ds : list device) (u : U).

(** A callback that leaves the registry alone. *)
Class QuietHotplug := {
  heard : Cb → hotplug_event_t → Z → U → U;
  hotplug_quiet cb v arg s : run_hotplug cb v arg s = Some (with_env (heard cb v arg (rg_env s)) s)
}.
Context `{!QuietHotplug}.

(** The drivers, and the devices of the callers, who keep them while they are registered. *)
Context (drv : gmap nat (@driver Fn)) (statics : gmap nat device).
Definition has_driver d : Prop := ∀ q, dv_driver d = Some q → is_Some (drv !! q).
Definition static_ok d : Prop := dv_owned d = false ∧ has_driver d.
Context (statics_ok : map_Forall (λ _ d, static_ok d) statics).

(** ** The model *)

Record mregistry := mk_mreg { mr_list : list device; mr_room : Z; mr_cb : option Cb; mr_arg : Z; mr_env : U }.
Implicit Types (m : mregistry).

Definition driver_name d : list Z :=
  match q ← dv_driver d; drv !! q with Some r => take 31 (dr_name r) | None => [] end.
Definition tell (type : Z) d m : mregistry :=
  match mr_cb m with
  | Some cb =>
    mk_mreg (mr_list m) (mr_room m) (mr_cb m) (mr_arg m)
      (heard cb (mk_event type (take 63 (dv_path d)) (driver_name d) (dv_bus d)) (mr_arg m) (mr_env m))
  | None => m
  end.
Definition with_mlist ds m : mregistry := mk_mreg ds (mr_room m) (mr_cb m) (mr_arg m) (mr_env m).
Definition with_menv u m : mregistry := mk_mreg (mr_list m) (mr_room m) (mr_cb m) (mr_arg m) u.
Definition same d e : bool := str_eq (dv_path e) (dv_path d) || str_eq (dv_name e) (dv_name d).
Definition at_path (path : list Z) d : bool := str_eq (dv_path d) path.
Definition at_name (name : list Z) d : bool := str_eq (dv_name d) name.
Definition lookup_dev (P : device → bool) m : option device := i ← first P (mr_list m); mr_list m !! i.

(** An array of [room] pointers fits in memory. *)
Definition fits (room : Z) : bool := room * (size_bits / 8) <? 2 ^ (size_bits - 1).
Definition grown (realloc_ok : bool) m : option Z :=
  if mr_room m <=? blen (mr_list m)
  then if realloc_ok && fits (mr_room m * 2) then Some (mr_room m * 2) else None
  else Some (mr_room m).

Definition spec_add d (realloc_ok : bool) m : Z * mregistry :=
  if str_eq (dv_name d) [] then (-1, m) else
  if first (same d) (mr_list m) is Some _ then (-1, m) else
  match grown realloc_ok m with
  | None => (-1, m)
  | Some room => (0, tell HOTPLUG_EVENT_ADD d (mk_mreg (mr_list m ++ [d]) room (mr_cb m) (mr_arg m) (mr_env m)))
  end.

Definition spec_remove (path : option (list Z)) m : Z * mregistry :=
  match path with
  | None => (-1, m)
  | Some path =>
    match first (at_path path) (mr_list m) with
    | None => (-1, m)
    | Some i =>
      (0, match mr_list m !! i with
          | Some d => tell HOTPLUG_EVENT_REMOVE d (with_mlist (delete i (mr_list m)) m)
          | None => m
          end)
    end
  end.

(** The addresses from [addr] on that answer, at most [room] of them. *)
Fixpoint probe (n room : nat) (i2c addr : Z) u : list Z * U :=
  match n, room with
  | S n, S room' =>
    let (r, u) := hal_i2c_read i2c addr u in
    if r =? 0 then let (l, u) := probe n room' i2c (addr + 1) u in (addr :: l, u)
    else probe n room i2c (addr + 1) u
  | _, _ => ([], u)
  end.

Fixpoint spec_arrivals (calloc_ok realloc_ok : Z → bool) (l : list Z) m : mregistry :=
  match l with
  | [] => m
  | addr :: l =>
    spec_arrivals calloc_ok realloc_ok l
      (if lookup_dev (at_path (dv_path (i2c_device addr))) m is Some _ then m
       else if negb (calloc_ok addr) then m
       else snd (spec_add (i2c_device addr) (realloc_ok addr) m))
  end.

(** [AddNew] adds a device of the caller's at a new address; when it is marked as owned, the
    registry frees it when it leaves. *)
Inductive registry_op :=
  | Init (calloc_ok : bool) | Deinit
  | Add (dev : option nat) (realloc_ok : bool) | AddNew (d : device) (realloc_ok : bool) | Remove (path : option (list Z))
  | Find (path : option (list Z)) | FindName (name : option (list Z)) | List
  | SetCallback (cb : option Cb) (arg : Z) | Emit (type : Z) (path driver : option (list Z)) (bus : Z)
  | ScanBus (i2c : option Z) (room : nat) | ScanI2c (i2c : option Z) (calloc_ok realloc_ok : Z → bool)
  | ScanSpi (spi : option Z).
Inductive registry_res := RInt (z : Z) | RDevice (d : option device) | RList (ds : list device) | RAddrs (l : list Z).

Definition op_ok (o : registry_op) : Prop :=
  match o with
  | Add (Some p) _ => is_Some (statics !! p)
  | AddNew d _ => has_driver d
  | ScanBus _ room => Z.of_nat room < 2 ^ size_bits
  | _ => True
  end.

(** The registry is open after [device_registry_init] and closed before it and after
    [device_registry_deinit].  Devices are added to an open one only. *)
Definition opens (open : bool) (o : registry_op) : bool :=
  match o with Init calloc_ok => calloc_ok | Deinit => false | _ => open end.
Definition callable (open : bool) (o : registry_op) : Prop :=
  match o with
  | Add (Some _) _ | AddNew _ _ | ScanI2c (Some _) _ _ => open = true
  | Init false => open = false
  | _ => True
  end.
Fixpoint legal (open : bool) (l : list registry_op) : Prop :=
  match l with [] => True | o :: l => op_ok o ∧ callable open o ∧ legal (opens open o) l end.

(** The devices that pointers lead to. *)
Definition leads s (p : option nat) : option device := p ← p; rg_devices s !! p.

Definition step (o : registry_op) s : option (registry_res * device_registry) :=
  match o with
  | Init calloc_ok => let (r, s) := device_registry_init calloc_ok s in Some (RInt r, s)
  | Deinit => s ← device_registry_deinit s; Some (RInt 0, s)
  | Add dev realloc_ok => '(r, s) ← device_registry_add dev realloc_ok s; Some (RInt r, s)
  | AddNew d realloc_ok =>
    let p := fresh (dom (rg_devices s)) in
    '(r, s) ← device_registry_add (Some p) realloc_ok (with_devices (<[p := d]> (rg_devices s)) s);
    Some (RInt r, s)
  | Remove path => '(r, s) ← device_registry_remove path s; Some (RInt r, s)
  | Find path => p ← device_registry_find path s; Some (RDevice (leads s p), s)
  | FindName name => p ← device_registry_find_by_name name s; Some (RDevice (leads s p), s)
  | List =>
    match device_registry_list true s with
    | (_, Some (Some a, n)) => Some (RList (omap (leads s) (take (Z.to_nat n) a)), s)
    | (_, Some (None, n)) => if n =? 0 then Some (RList [], s) else None
    | (r, None) => Some (RInt r, s)
    end
  | SetCallback cb arg => Some (RInt 0, device_registry_set_hotplug_callback cb arg s)
  | Emit type path driver bus => s ← device_registry_emit_hotplug type path driver bus s; Some (RInt 0, s)
  | ScanBus i2c room =>
    '(r, got, s) ← i2c_scan_bus i2c (Some (zeros (Z.of_nat room))) (Z.of_nat room) true s;
    Some (match got with Some (a, n) => RAddrs (take (Z.to_nat n) a) | None => RInt r end, s)
  | ScanI2c i2c calloc_ok realloc_ok => '(r, s) ← hotplug_scan_i2c i2c calloc_ok realloc_ok s; Some (RInt r, s)
  | ScanSpi spi => let (r, s) := hotplug_scan_spi spi s in Some (RInt r, s)
  end.

Definition spec (o : registry_op) m : option (registry_res * mregistry) :=
  Some match o with
  | Init true => (RInt 0, mk_mreg [] INITIAL_CAPACITY None 0 (mr_env m))
  | Init false => (RInt (-1), mk_mreg [] INITIAL_CAPACITY (mr_cb m) (mr_arg m) (mr_env m))
  | Deinit => (RInt 0, mk_mreg [] 0 (mr_cb m) (mr_arg m) (mr_env m))
  | Add dev realloc_ok =>
    match p ← dev; statics !! p with
    | Some d => let (r, m) := spec_add d realloc_ok m in (RInt r, m)
    | None => (RInt (-1), m)
    end
  | AddNew d realloc_ok => let (r, m) := spec_add d realloc_ok m in (RInt r, m)
  | Remove path => let (r, m) := spec_remove path m in (RInt r, m)
  | Find path => (RDevice (path ← path; lookup_dev (at_path path) m), m)
  | FindName name => (RDevice (name ← name; lookup_dev (at_name name) m), m)
  | List => (RList (mr_list m), m)
  | SetCallback cb arg => (RInt 0, mk_mreg (mr_list m) (mr_room m) cb arg (mr_env m))
  | Emit type path driver bus =>
    (RInt 0, match mr_cb m, path with
             | Some cb, Some path =>
               with_menv (heard cb (mk_event type (take 63 path) (take 31 (default [] driver)) bus) (mr_arg m) (mr_env m)) m
             | _, _ => m
             end)
  | ScanBus None _ => (RInt (-1), m)
  | ScanBus (Some i2c) room => let (l, u) := probe 112 room i2c 8 (mr_env m) in (RAddrs l, with_menv u m)
  | ScanI2c None _ _ => (RInt (-1), m)
  | ScanI2c (Some i2c) calloc_ok realloc_ok =>
    let (l, u) := probe 112 128 i2c 8 (mr_env m) in (RInt 0, spec_arrivals calloc_ok realloc_ok l (with_menv u m))
  | ScanSpi spi => (RInt (if spi is Some _ then 0 else -1), m)
  end.

(** ** Representation *)

Definition entries s : list (option nat) := packed (rg_count s) (default [] (rg_array s)).
Definition abs s : mregistry :=
  mk_mreg (omap (leads s) (entries s)) (rg_capacity s) (rg_cb s) (rg_arg s) (rg_env s).
Definition distinct ds : Prop := NoDup (dv_path <$> ds) ∧ NoDup (dv_name <$> ds).

(** [l] are the pointers in the array, [ds] the devices they lead to. *)
Record rep s (l : list nat) ds : Prop := {
  rep_array : ∃ a, rg_array s = Some a ∧ blen a = rg_capacity s ∧ packed (rg_count s) a = Some <$> l;
  rep_count : 0 <= rg_count s <= rg_capacity s;
  rep_room : 0 < rg_capacity s ∧ fits (rg_capacity s) = true;
  rep_devices : Forall2 (λ p d, rg_devices s !! p = Some d) l ds;
  rep_drivers : rg_drivers s = drv ∧ Forall has_driver ds;
  rep_statics : statics ⊆ rg_devices s;
  rep_distinct : distinct ds
}.
Definition inv s : Prop := ∃ l ds, rep s l ds.

Lemma rep_entries s l ds : rep s l ds → entries s = Some <$> l.
Proof. intros [(a & Ea & _ & El) _ _ _ _ _ _]. unfold entries. by rewrite Ea. Qed.

Lemma leads_all s l ds :
  Forall2 (λ p d, rg_devices s !! p = Some d) l ds → omap (leads s) (Some <$> l) = ds.
Proof. induction 1 as [|p d l ds Hp _ IH]; [done|]. cbn. by rewrite Hp, IH. Qed.

Lemma rep_list s l ds : rep s l ds → omap (leads s) (entries s) = ds.
Proof. intros Hr. rewrite (rep_entries s l ds Hr). by apply leads_all, Hr. Qed.

Lemma rep_abs s l ds : rep s l ds → abs s = mk_mreg ds (rg_capacity s) (rg_cb s) (rg_arg s) (rg_env s).
Proof. intros Hr. unfold abs. by rewrite (rep_list s l ds Hr). Qed.

Lemma rep_length s l ds : rep s l ds → Z.to_nat (rg_count s) = length l ∧ length l = length ds.
Proof.
  intros Hr. destruct (rep_array _ _ _ Hr) as (a & _ & Hb & El). pose proof (rep_count _ _ _ Hr).
  split; [|eapply Forall2_length, Hr]. rewrite <- (length_fmap (Some (A := nat))), <- El.
  by rewrite packed_length by lia.
Qed.

Lemma rep_entry s l ds i p : rep s l ds → l !! i = Some p → entry (Z.of_nat i) s = Some (Some p).
Proof.
  intros Hr Hi. destruct (rep_array _ _ _ Hr) as (a & Ea & Hb & El). pose proof (rep_count _ _ _ Hr).
  destruct (rep_length _ _ _ Hr) as [Hc _]. pose proof (lookup_lt_Some _ _ _ Hi).
  unfold entry. rewrite Ea. cbn [mbind option_bind]. rewrite (packed_get (rg_count s)) by lia.
  rewrite El, Nat2Z.id, list_lookup_fmap, Hi. done.
Qed.

Lemma search_from s l ds P n i :
  rep s l ds → (n + i = length l)%nat →
  search_loop P n (Z.of_nat i) s = Some ((λ k, Z.of_nat (i + k)) <$> first P (drop i ds)).
Proof.
  intros Hr. destruct (rep_length _ _ _ Hr) as [_ Hl]. revert i. induction n as [|n IH]; intros i Hn; cbn [search_loop].
  { rewrite drop_ge by lia. done. }
  destruct (lookup_lt_is_Some_2 l i) as [p Hp]; [lia|].
  destruct (Forall2_lookup_l _ _ _ _ _ (rep_devices _ _ _ Hr) Hp) as (d & Hd & Ed).
  rewrite (rep_entry s l ds i p Hr Hp). cbn [mbind option_bind]. rewrite Ed. cbn [mbind option_bind].
  rewrite (drop_S ds d i Hd). cbn [first]. destruct (P d).
  { cbn. by rewrite Nat.add_0_r. }
  replace (Z.of_nat i + 1) with (Z.of_nat (S i)) by lia. rewrite IH by lia. f_equal.
  destruct (first P (drop (S i) ds)) as [k|]; [cbn; f_equal; lia|done].
Qed.

Lemma search_ok s l ds P : rep s l ds → search P s = Some (Z.of_nat <$> first P ds).
Proof.
  intros Hr. unfold search. destruct (rep_length _ _ _ Hr) as [-> _].
  apply (search_from s l ds P (length l) 0 Hr). lia.
Qed.

Lemma find_at s l ds P :
  rep s l ds →
  ∃ p, (found ← search P s; found_device found s) = Some p ∧ leads s p = lookup_dev P (abs s).
Proof.
  intros Hr. rewrite (search_ok s l ds P Hr). cbn [mbind option_bind]. unfold lookup_dev.
  rewrite (rep_abs s l ds Hr). cbn [mr_list]. destruct (first P ds) as [i|] eqn:Ei; cbn [fmap option_fmap option_map found_device mbind option_bind].
  - pose proof (first_some P ds i Ei) as (d & Hd & _).
    destruct (Forall2_lookup_r _ _ _ _ _ (rep_devices _ _ _ Hr) Hd) as (p & Hp & Ed).
    exists (Some p). rewrite (rep_entry s l ds i p Hr Hp). split; [done|]. cbn. by rewrite Ed.
  - by exists None.
Qed.

(** ** Changes that leave the list alone *)

Lemma rep_same s s' l ds :
  rep s l ds → rg_array s' = rg_array s → rg_capacity s' = rg_capacity s → rg_count s' = rg_count s →
  rg_drivers s' = rg_drivers s → rg_devices s' = rg_devices s → rep s' l ds.
Proof. intros [? ? ? ? ? ? ?] Ea Ec En Er Ed. by split; rewrite ?Ea, ?Ec, ?En, ?Er, ?Ed. Qed.

Lemma rep_env s l ds u : rep s l ds → rep (with_env u s) l ds.
Proof. intros Hr. by apply (rep_same s). Qed.

Lemma announce_ok type d s m :
  rg_drivers s = drv → has_driver d → mr_cb m = rg_cb s → mr_arg m = rg_arg s → mr_env m = rg_env s →
  announce type d s = Some (with_env (mr_env (tell type d m)) s).
Proof.
  intros Er Hd Ec Ea Ee. unfold announce, tell. rewrite Ec. destruct (rg_cb s) as [cb|] eqn:Ecb; [|rewrite Ee; by destruct s].
  unfold device_event, driver_name. rewrite Er.
  assert (∃ name, match dv_driver d with Some q => r ← drv !! q; Some (take 31 (dr_name r)) | None => Some [] end = Some name ∧
    name = match q ← dv_driver d; drv !! q with Some r => take 31 (dr_name r) | None => [] end) as (name & -> & ->).
  { destruct (dv_driver d) as [q|] eqn:Eq; [|by eexists]. destruct (Hd q Eq) as [r Hq]. cbn. rewrite Hq. by eexists. }
  cbn [mbind option_bind mr_env]. by rewrite hotplug_quiet, Ea, Ee.
Qed.

Lemma tell_fields type d m :
  mr_list (tell type d m) = mr_list m ∧ mr_room (tell type d m) = mr_room m ∧ mr_cb (tell type d m) = mr_cb m ∧
  mr_arg (tell type d m) = mr_arg m.
Proof. unfold tell. by destruct (mr_cb m) eqn:E; cbn; rewrite ?E. Qed.

Lemma tell_eq type d m ds room cb arg :
  mr_list m = ds → mr_room m = room → mr_cb m = cb → mr_arg m = arg →
  tell type d m = mk_mreg ds room cb arg (mr_env (tell type d m)).
Proof. intros <- <- <- <-. destruct (tell_fields type d m) as (<- & <- & <- & <-). by destruct (tell type d m). Qed.

(** The environment after an event does not depend on the list. *)
Lemma tell_env type d m m' :
  mr_cb m = mr_cb m' → mr_arg m = mr_arg m' → mr_env m = mr_env m' → mr_env (tell type d m) = mr_env (tell type d m').
Proof. intros Ec Ea Ee. unfold tell. rewrite Ec, Ea, Ee. by destruct (mr_cb m'). Qed.

(** ** Growing *)

Lemma fits_bytes room :
  0 <= room → fits room = true →
  0 <= room * 2 < 2 ^ size_bits ∧ usz (room * 2) = room * 2 ∧ array_bytes (room * 2) = room * 2 * (size_bits / 8) ∧
  array_bytes (room * 2) / (size_bits / 8) = room * 2.
Proof.
  intros Hr Hf. unfold fits, array_bytes, usz in *. bool_hyps.
  destruct size_bits_ok as [E|E]; rewrite E in *; change (32 / 8) with 4 in *; change (64 / 8) with 8 in *;
    rewrite (wrap_id _ (room * 2)), wrap_id by (split; lia); rewrite Z.div_mul by lia; lia.
Qed.

Lemma resize_ok s l ds ok :
  rep s l ds →
  if ok && fits (rg_capacity s * 2) then
    ∃ a, registry_resize ok s = (0, with_array (Some a) (rg_capacity s * 2) (rg_count s) s) ∧
      rep (with_array (Some a) (rg_capacity s * 2) (rg_count s) s) l ds
  else registry_resize ok s = (-1, s).
Proof.
  intros Hr. destruct (rep_room _ _ _ Hr) as [Hpos Hf]. pose proof (rep_count _ _ _ Hr) as Hc.
  destruct (fits_bytes (rg_capacity s)) as (Hb & E1 & E2 & E3); [lia|done|].
  unfold registry_resize. rewrite E1, E3, E2. fold (fits (rg_capacity s * 2)).
  destruct (ok && fits (rg_capacity s * 2)) eqn:Eg; [|done].
  destruct (rep_array _ _ _ Hr) as (a & Ea & Hl & El). rewrite Ea. cbn [default from_option id].
  eexists. split; [done|]. destruct Hr as [_ _ _ ? ? ? ?]. apply andb_true_iff in Eg as [_ Eg].
  split; cbn [with_array rg_array rg_capacity rg_count]; try done; [|lia..|split; [lia|done]].
  assert (length a = Z.to_nat (rg_capacity s)) as La by (unfold blen in Hl; lia).
  rewrite take_ge by lia. eexists. split; [done|]. split.
  - unfold blen. rewrite length_app, length_replicate. lia.
  - rewrite <- El. unfold packed. by rewrite take_app_le by lia.
Qed.

(** ** Adding and removing *)

Lemma nodup_snoc {A B} (f : A → B) (xs : list A) x :
  NoDup (f <$> xs) → Forall (λ y, f y ≠ f x) xs → NoDup (f <$> xs ++ [x]).
Proof.
  intros Hn Hx. rewrite fmap_app. apply NoDup_app. split; [done|]. split; [|apply NoDup_singleton].
  intros y (z & -> & Hz)%list_elem_of_fmap Hy. apply list_elem_of_singleton in Hy. rewrite Forall_forall in Hx. by apply (Hx z).
Qed.

Lemma nodup_delete {A B} (f : A → B) (xs : list A) i : NoDup (f <$> xs) → NoDup (f <$> delete i xs).
Proof.
  intros Hn. eapply sublist_NoDup; [exact Hn|]. by apply fmap_sublist, sublist_delete.
Qed.

Lemma distinct_snoc d ds : distinct ds → first (same d) ds = None → distinct (ds ++ [d]).
Proof.
  intros [Hp Hn] Hf.
  assert (∀ e, e ∈ ds → dv_path e ≠ dv_path d ∧ dv_name e ≠ dv_name d) as Hne.
  { intros e (i & Hi)%list_elem_of_lookup. pose proof (first_none _ _ _ _ Hf Hi) as Es.
    unfold same, str_eq in Es. apply orb_false_iff in Es as [E1 E2].
    by split; [apply bool_decide_eq_false in E1|apply bool_decide_eq_false in E2]. }
  split; apply nodup_snoc; try done; apply Forall_forall; intros e He; by apply Hne.
Qed.

Lemma place_ok s l ds p d :
  rep s l ds → rg_count s < rg_capacity s → rg_devices s !! p = Some d → has_driver d → first (same d) ds = None →
  ∃ a a', rg_array s = Some a ∧ wr a (rg_count s) (Some p) = Some a' ∧
    rep (with_array (Some a') (rg_capacity s) (usz (rg_count s + 1)) s) (l ++ [p]) (ds ++ [d]).
Proof.
  intros Hr Hlt Hp Hd Hf. destruct (rep_array _ _ _ Hr) as (a & Ea & Hl & El).
  pose proof (rep_count _ _ _ Hr) as Hc. destruct (rep_room _ _ _ Hr) as [Hpos Hfit].
  destruct (fits_bytes (rg_capacity s)) as (Hb & _); [lia|done|].
  destruct (packed_push (rg_count s) a (Some p)) as (a' & Ea' & Hl' & El' & _); [lia|].
  exists a, a'. split; [done|]. split; [done|].
  assert (usz (rg_count s + 1) = rg_count s + 1) as -> by (unfold usz; rewrite wrap_id by (split; lia); done).
  destruct Hr as [_ _ _ Hdev [Edrv Hdrv] ? ?]. split; cbn [with_array rg_array rg_capacity rg_count rg_devices rg_drivers]; try done; [|lia|..].
  - exists a'. split; [done|]. split; [lia|]. by rewrite El', El, fmap_app.
  - apply Forall2_app; [done|]. by constructor.
  - split; [done|]. apply Forall_app. by repeat constructor.
  - by apply distinct_snoc.
Qed.

Lemma dev_add_ok p d ok s l ds :
  rep s l ds → rg_devices s !! p = Some d → has_driver d →
  ∃ r s', device_registry_add (Some p) ok s = Some (r, s') ∧ spec_add d ok (abs s) = (r, abs s') ∧ inv s'.
Proof.
  intros Hr Hp Hd. assert (inv s) as Hi by (by exists l, ds). unfold device_registry_add, spec_add.
  rewrite Hp. cbn [mbind option_bind]. destruct (str_eq (dv_name d) []); [by do 2 eexists|].
  fold (same d). rewrite (search_ok s l ds _ Hr). cbn [mbind option_bind].
  rewrite (rep_abs s l ds Hr). cbn [mr_list]. destruct (first (same d) ds) as [i|] eqn:Ef; cbn [fmap option_fmap option_map].
  { do 2 eexists. split; [done|]. by rewrite (rep_abs s l ds Hr). }
  unfold grown. cbn [mr_room mr_list]. destruct (rep_length _ _ _ Hr) as [Hc Hl].
  pose proof (rep_count _ _ _ Hr) as Hcc. assert (blen ds = rg_count s) as -> by (unfold blen; lia).
  assert (∀ s1, rep s1 l ds → rg_count s1 < rg_capacity s1 → rg_devices s1 = rg_devices s → rg_cb s1 = rg_cb s →
    rg_arg s1 = rg_arg s → rg_env s1 = rg_env s →
    ∃ r s', (a ← rg_array s1; a ← wr a (rg_count s1) (Some p);
             s ← announce HOTPLUG_EVENT_ADD d (with_array (Some a) (rg_capacity s1) (usz (rg_count s1 + 1)) s1);
             Some (0, s)) = Some (r, s') ∧
      (0, tell HOTPLUG_EVENT_ADD d (mk_mreg (ds ++ [d]) (rg_capacity s1) (rg_cb s) (rg_arg s) (rg_env s))) = (r, abs s') ∧
      inv s') as Hplace.
  { intros s1 Hr1 Hlt Ed1 Ec1 Ea1 Ee1.
    destruct (place_ok s1 l ds p d Hr1 Hlt) as (a & a' & -> & Ea' & Hr2); [by rewrite Ed1|done|done|].
    cbn [mbind option_bind]. rewrite Ea'. cbn [mbind option_bind].
    erewrite (announce_ok _ d _ (mk_mreg (ds ++ [d]) (rg_capacity s1) (rg_cb s) (rg_arg s) (rg_env s)));
      [|apply Hr1|done..]. cbn [mbind option_bind].
    pose proof (rep_env _ _ _ (mr_env (tell HOTPLUG_EVENT_ADD d (mk_mreg (ds ++ [d]) (rg_capacity s1) (rg_cb s) (rg_arg s) (rg_env s)))) Hr2) as Hr3.
    do 2 eexists. split; [done|]. split; [|by do 2 eexists]. rewrite (rep_abs _ _ _ Hr3). f_equal.
    cbn [with_env with_array rg_capacity rg_cb rg_arg rg_env]. by apply tell_eq. }
  destruct (Z.leb_spec (rg_capacity s) (rg_count s)) as [Hge|Hlt].
  - pose proof (resize_ok s l ds ok Hr) as Hz. destruct (ok && fits (rg_capacity s * 2)).
    + destruct Hz as (a & -> & Hr1). cbn [negb Z.eqb].
      destruct (Hplace (with_array (Some a) (rg_capacity s * 2) (rg_count s) s)) as (r & s' & E1 & E2 & Hi');
        [done|cbn [with_array rg_count rg_capacity]; pose proof (rep_room _ _ _ Hr); lia|done..|].
      do 2 eexists. split; [exact E1|]. by split.
    + rewrite Hz. cbn [negb Z.eqb]. do 2 eexists. split; [done|]. by rewrite (rep_abs s l ds Hr).
  - cbn [negb Z.eqb]. by apply Hplace.
Qed.

Lemma leads_delete (m : gmap nat device) l ds p :
  p ∉ l → Forall2 (λ p d, m !! p = Some d) l ds → Forall2 (λ q d, delete p m !! q = Some d) l ds.
Proof.
  intros Hp Hl. induction Hl as [|q e l ds Hq _ IH]; [constructor|]. apply not_elem_of_cons in Hp as [Hne Hp].
  constructor; [by rewrite lookup_delete_ne|by apply IH].
Qed.

Lemma dev_free_ok s l ds p d :
  rep s l ds → rg_devices s !! p = Some d → p ∉ l →
  ∃ s', free_owned p s = Some s' ∧ rep s' l ds ∧ rg_capacity s' = rg_capacity s ∧ rg_cb s' = rg_cb s ∧
    rg_arg s' = rg_arg s ∧ rg_env s' = rg_env s.
Proof.
  intros Hr Hp Hl. unfold free_owned. rewrite Hp. cbn [mbind option_bind]. destruct (dv_owned d) eqn:Eo; [|by exists s].
  eexists. split; [done|]. split; [|done]. destruct Hr as [? ? ? Hdev ? Hs ?].
  split; cbn [with_devices rg_array rg_devices]; try done; [by apply leads_delete|].
  apply map_subseteq_spec. intros q e Hq. rewrite lookup_delete_ne; [by eapply lookup_weaken|].
  intros <-. pose proof (lookup_weaken _ _ _ _ Hq Hs) as He. rewrite Hp in He. injection He as <-.
  destruct (statics_ok p d Hq) as [Hno _]. by rewrite Hno in Eo.
Qed.

(** A pointer is in the array once. *)
Lemma rep_nodup s l ds : rep s l ds → NoDup l.
Proof.
  intros [_ _ _ Hdev _ _ [Hp _]]. induction Hdev as [|p d l ds Hpd Hl IH]; [constructor|].
  cbn in Hp. apply NoDup_cons in Hp as [Hd Hp]. constructor; [|by apply IH].
  intros (i & Hi)%list_elem_of_lookup. destruct (Forall2_lookup_l _ _ _ _ _ Hl Hi) as (e & He & Hpe).
  rewrite Hpd in Hpe. injection Hpe as <-. apply Hd, list_elem_of_fmap. exists d. split; [done|].
  by eapply list_elem_of_lookup_2.
Qed.

Lemma dev_remove_ok path s l ds :
  rep s l ds →
  ∃ r s', device_registry_remove path s = Some (r, s') ∧ spec_remove path (abs s) = (r, abs s') ∧ inv s'.
Proof.
  intros Hr. assert (inv s) as Hi by (by exists l, ds). unfold device_registry_remove, spec_remove.
  destruct path as [path|]; [|by do 2 eexists]. fold (at_path path). rewrite (search_ok s l ds _ Hr). cbn [mbind option_bind].
  rewrite (rep_abs s l ds Hr). cbn [mr_list]. destruct (first (at_path path) ds) as [i|] eqn:Ef; cbn [fmap option_fmap option_map].
  2:{ do 2 eexists. split; [done|]. by rewrite (rep_abs s l ds Hr). }
  destruct (first_some _ _ _ Ef) as (d & Hd & _). rewrite Hd.
  destruct (Forall2_lookup_r _ _ _ _ _ (rep_devices _ _ _ Hr) Hd) as (p & Hp & Epd).
  rewrite (rep_entry s l ds i p Hr Hp). cbn [mbind option_bind]. rewrite Epd. cbn [mbind option_bind].
  destruct (rep_drivers _ _ _ Hr) as [Edrv Hdrv].
  set (m := mk_mreg (delete i ds) (rg_capacity s) (rg_cb s) (rg_arg s) (rg_env s)).
  rewrite (announce_ok HOTPLUG_EVENT_REMOVE d s m) by (done || by eapply Forall_lookup_1).
  cbn [mbind option_bind with_env rg_array rg_count rg_capacity].
  destruct (rep_array _ _ _ Hr) as (a & Ea & Hl & El). pose proof (rep_count _ _ _ Hr) as Hc.
  destruct (rep_room _ _ _ Hr) as [Hpos Hfit]. destruct (fits_bytes (rg_capacity s)) as (Hb & _); [lia|done|].
  destruct (rep_length _ _ _ Hr) as [Hcl _]. pose proof (lookup_lt_Some _ _ _ Hp) as Hil.
  assert (usz (rg_count s - 1) = rg_count s - 1) as -> by (unfold usz; rewrite wrap_id by (split; lia); done).
  rewrite Ea. cbn [mbind option_bind].
  destruct (packed_remove (rg_count s) a (Z.of_nat i)) as (a1 & -> & Hl1 & El1 & _); [lia|lia|]. cbn [mbind option_bind].
  rewrite wr_ok by lia. cbn [mbind option_bind]. set (a2 := <[_ := None]> a1).
  match goal with |- context [free_owned p ?x] => set (s1 := x) end.
  assert (rep s1 (delete i l) (delete i ds)) as Hr1.
  { destruct Hr as [_ _ _ Hdev [? ?] ? [? ?]].
    split; cbn [s1 with_array with_env rg_array rg_capacity rg_count rg_devices rg_drivers]; try done; [|lia|..].
    - exists a2. split; [done|]. split; [unfold a2, blen in *; rewrite length_insert; lia|].
      unfold packed, a2. rewrite take_insert_ge by lia. fold (packed (rg_count s - 1) a1).
      by rewrite El1, El, Nat2Z.id, <- list_fmap_delete.
    - by apply Forall2_delete.
    - split; [done|]. by apply Forall_delete.
    - by split; apply nodup_delete. }
  assert (p ∉ delete i l) as Hpl.
  { pose proof (rep_nodup _ _ _ Hr) as Hn. rewrite (delete_Permutation l i p Hp) in Hn. by apply NoDup_cons in Hn as [? _]. }
  destruct (dev_free_ok s1 _ _ p d Hr1 Epd Hpl) as (s2 & -> & Hr2 & Ec & Ecb & Earg & Eenv). cbn [mbind option_bind].
  do 2 eexists. split; [done|]. split; [|by do 2 eexists]. rewrite (rep_abs _ _ _ Hr2), Ec, Ecb, Earg, Eenv. f_equal.
  by apply tell_eq.
Qed.

(** ** Starting over *)

Lemma deinit_from a l n i s :
  rg_array s = Some a → (∀ k p, l !! k = Some p → rd a (Z.of_nat k) = Some (Some p)) → (n + i = length l)%nat →
  NoDup l → Forall (λ p, is_Some (rg_devices s !! p)) (drop i l) → statics ⊆ rg_devices s →
  ∃ dv, deinit_loop n (Z.of_nat i) s = Some (with_devices dv s) ∧ statics ⊆ dv.
Proof.
  revert i s. induction n as [|n IH]; intros i s Ea Hl Hn Hnd Hdev Hs; cbn [deinit_loop].
  { exists (rg_devices s). split; [by destruct s|done]. }
  destruct (lookup_lt_is_Some_2 l i) as [p Hp]; [lia|]. unfold entry. rewrite Ea. cbn [mbind option_bind].
  rewrite (Hl i p Hp). cbn [mbind option_bind]. rewrite (drop_S l p i Hp) in Hdev. apply Forall_cons in Hdev as [[d Hd] Hdev].
  unfold free_owned. rewrite Hd. cbn [mbind option_bind].
  replace (Z.of_nat i + 1) with (Z.of_nat (S i)) by lia.
  destruct (dv_owned d) eqn:Eo; [|by apply IH; try lia].
  destruct (IH (S i) (with_devices (delete p (rg_devices s)) s)) as (dv & -> & Hdv); try done; [lia| |..].
  - rewrite <- (take_drop i l), (drop_S l p i Hp) in Hnd. apply NoDup_app in Hnd as (_ & _ & Hnd).
    apply NoDup_cons in Hnd as [Hnp _]. cbn [with_devices rg_devices]. rewrite Forall_forall in Hdev |- *.
    intros q Hq. rewrite lookup_delete_ne; [by apply Hdev|]. by intros <-.
  - cbn [with_devices rg_devices]. apply map_subseteq_spec. intros q e Hq.
    rewrite lookup_delete_ne; [by eapply lookup_weaken|]. intros <-.
    pose proof (lookup_weaken _ _ _ _ Hq Hs) as He. rewrite Hd in He. injection He as <-.
    destruct (statics_ok p d Hq) as [Hno _]. by rewrite Hno in Eo.
  - by exists dv.
Qed.

(** A closed registry has no array and no device. *)
Record closed s : Prop := {
  cl_array : rg_array s = None;
  cl_count : rg_count s = 0;
  cl_drivers : rg_drivers s = drv;
  cl_statics : statics ⊆ rg_devices s
}.

Lemma closed_abs s : closed s → abs s = mk_mreg [] (rg_capacity s) (rg_cb s) (rg_arg s) (rg_env s).
Proof. intros [Ea En _ _]. unfold abs, entries. by rewrite Ea, En. Qed.

Lemma closed_search s P : closed s → search P s = Some None.
Proof. intros Hc. unfold search. by rewrite (cl_count s Hc). Qed.

Lemma closed_env s u : closed s → closed (with_env u s).
Proof. by intros []. Qed.

Lemma dev_deinit_ok s l ds :
  rep s l ds →
  ∃ s', step Deinit s = Some (RInt 0, s') ∧ abs s' = mk_mreg [] 0 (rg_cb s) (rg_arg s) (rg_env s) ∧ closed s'.
Proof.
  intros Hr. destruct (rep_array _ _ _ Hr) as (a & Ea & Hb & El). destruct (rep_length _ _ _ Hr) as [Hc _].
  pose proof (rep_count _ _ _ Hr) as Hcc. cbn [step]. unfold device_registry_deinit. rewrite Hc.
  destruct (deinit_from a l (length l) 0 s) as (dv & Ed & Hdv); [done| |lia|by eapply rep_nodup| |apply Hr|].
  { intros k p Hk. pose proof (rep_entry s l ds k p Hr Hk) as He. unfold entry in He. by rewrite Ea in He. }
  { rewrite drop_0. apply Forall_forall. intros p (k & Hk)%list_elem_of_lookup.
    destruct (Forall2_lookup_l _ _ _ _ _ (rep_devices _ _ _ Hr) Hk) as (d & _ & ->). by exists d. }
  change (Z.of_nat 0) with 0 in Ed. rewrite Ed. cbn [mbind option_bind]. eexists. split; [done|]. split; [done|].
  split; cbn; try done. apply Hr.
Qed.

(** Opening, whatever was there before. *)
Lemma dev_init_ok s :
  rg_drivers s = drv → statics ⊆ rg_devices s →
  ∃ s', step (Init true) s = Some (RInt 0, s') ∧ abs s' = mk_mreg [] INITIAL_CAPACITY None 0 (rg_env s) ∧ inv s'.
Proof.
  intros Hd Hs. cbn [step device_registry_init]. eexists. split; [done|]. split; [done|]. exists [], [].
  split; cbn; try done; [by eexists| |by split; constructor].
  split; [done|]. unfold fits. by destruct size_bits_ok as [->| ->].
Qed.

(** ** Scanning *)

Lemma scan_ok n fuel i2c addr buf cap found pre s :
  addr + Z.of_nat n = 0x78 → (n < fuel)%nat → blen buf = cap → 0 <= found <= cap → cap < 2 ^ size_bits →
  packed found buf = pre →
  ∃ buf' found', scan_loop fuel i2c addr buf cap found s =
      Some (buf', found', with_env (snd (probe n (Z.to_nat (cap - found)) i2c addr (rg_env s))) s) ∧
    blen buf' = cap ∧ 0 <= found' <= cap ∧
    packed found' buf' = pre ++ fst (probe n (Z.to_nat (cap - found)) i2c addr (rg_env s)).
Proof.
  revert fuel addr buf found pre s. induction n as [|n IH]; intros fuel addr buf found pre s Ha Hf Hb Hc Hcap Hp;
    (destruct fuel as [|fuel]; [lia|]); cbn [scan_loop probe].
  { rewrite (proj2 (Z.leb_gt addr _)) by lia. cbn [andb fst snd]. rewrite app_nil_r. exists buf, found. by destruct s. }
  rewrite (proj2 (Z.leb_le addr _)) by lia. cbn [andb]. destruct (Z.ltb_spec found cap) as [Hlt|Hge].
  2:{ replace (Z.to_nat (cap - found)) with O by lia. cbn [fst snd]. rewrite app_nil_r. exists buf, found. by destruct s. }
  destruct (Z.to_nat (cap - found)) as [|room] eqn:Er; [lia|].
  destruct (hal_i2c_read i2c addr (rg_env s)) as [r u]. destruct (Z.eqb_spec r 0) as [->|Hne].
  - destruct (packed_push found buf addr) as (buf1 & -> & Hb1 & Hp1 & _); [lia|]. cbn [mbind option_bind].
    assert (usz (found + 1) = found + 1) as -> by (unfold usz; rewrite wrap_id by (split; lia); done).
    destruct (IH fuel (addr + 1) buf1 (found + 1) (pre ++ [addr]) (with_env u s)) as (buf' & found' & E1 & I1 & I2 & I3);
      [lia..|by rewrite Hp1, Hp|].
    cbn [with_env rg_env] in E1, I3. replace (Z.to_nat (cap - (found + 1))) with room in * by lia.
    destruct (probe n room i2c (addr + 1) u) as [l u']. cbn [fst snd] in *. rewrite <- app_assoc in I3. by exists buf', found'.
  - destruct (IH fuel (addr + 1) buf found pre (with_env u s)) as (buf' & found' & E1 & I1 & I2 & I3); [lia..|done|].
    cbn [with_env rg_env] in E1, I3. rewrite Er in *. by exists buf', found'.
Qed.

Lemma scan_bus_ok i2c room s :
  Z.of_nat room < 2 ^ size_bits →
  ∃ buf found, i2c_scan_bus (Some i2c) (Some (zeros (Z.of_nat room))) (Z.of_nat room) true s =
      Some (0, Some (buf, found), with_env (snd (probe 112 room i2c 8 (rg_env s))) s) ∧
    0 <= found <= blen buf ∧ packed found buf = fst (probe 112 room i2c 8 (rg_env s)).
Proof.
  intros Hroom. unfold i2c_scan_bus. cbn [negb].
  assert (blen (zeros (Z.of_nat room)) = Z.of_nat room) as Hz by (unfold blen, zeros; rewrite length_replicate; lia).
  destruct (scan_ok 112 113 i2c 8 (zeros (Z.of_nat room)) (Z.of_nat room) 0 [] s) as (buf & found & E1 & I1 & I2 & I3);
    [done|lia|done|lia|done|done|].
  rewrite Z.sub_0_r, Nat2Z.id in E1, I3. rewrite E1. exists buf, found. rewrite app_nil_l in I3. split; [reflexivity|]. split; [lia|exact I3].
Qed.

(** A new device at a fresh address. *)
Lemma rep_new s l ds d :
  rep s l ds → rep (with_devices (<[fresh (dom (rg_devices s)) := d]> (rg_devices s)) s) l ds.
Proof.
  intros Hr. set (q := fresh (dom (rg_devices s))).
  assert (rg_devices s !! q = None) as Hq by (apply not_elem_of_dom, is_fresh).
  destruct Hr as [? ? ? Hdev ? ? ?]. split; cbn; try done.
  - eapply Forall2_impl; [exact Hdev|]. intros r e He. rewrite lookup_insert_ne; [done|]. intros <-. by rewrite Hq in He.
  - by apply insert_subseteq_r; [apply (lookup_weaken_None _ _ _ Hq)|].
Qed.

Lemma arrivals_ok callocs reallocs addrs n i s :
  0 <= i → i + Z.of_nat n <= blen addrs → inv s →
  ∃ s', hotplug_loop callocs reallocs addrs n i s = Some s' ∧ inv s' ∧
    abs s' = spec_arrivals callocs reallocs (take n (drop (Z.to_nat i) addrs)) (abs s).
Proof.
  revert i s. induction n as [|n IH]; intros i s Hi Hn Hs; [by exists s|]. cbn [hotplug_loop].
  destruct (rd_ok addrs i) as [addr Eaddr]; [lia|]. rewrite Eaddr. cbn [mbind option_bind].
  assert (take (S n) (drop (Z.to_nat i) addrs) = addr :: take n (drop (Z.to_nat (i + 1)) addrs)) as ->.
  { rewrite rd_lookup in Eaddr by lia. rewrite (drop_S _ _ _ Eaddr). by replace (Z.to_nat (i + 1)) with (S (Z.to_nat i)) by lia. }
  cbn [spec_arrivals]. unfold device_registry_find.
  destruct Hs as (l & ds & Hr). fold (at_path (dv_path (i2c_device addr))).
  destruct (find_at s l ds (at_path (dv_path (i2c_device addr))) Hr) as (p & Ep & El). rewrite Ep. cbn [mbind option_bind].
  assert (inv s) as Hs by (by do 2 eexists).
  assert (match lookup_dev (at_path (dv_path (i2c_device addr))) (abs s) with Some _ => is_Some p | None => p = None end) as Hpm.
  { unfold search, lookup_dev in *. rewrite <- El. destruct p as [q|]; [|done]. cbn [leads mbind option_bind] in *.
    destruct (rg_devices s !! q) eqn:Eq; [done|exfalso].
    pose proof (search_ok s l ds (at_path (dv_path (i2c_device addr))) Hr) as Es. unfold search in Es. rewrite Es in Ep. cbn [mbind option_bind] in Ep.
    destruct (first _ ds) as [k|] eqn:Ek; [|done]. cbn [fmap option_fmap option_map found_device] in Ep.
    destruct (first_some _ _ _ Ek) as (d & Hd & _).
    destruct (Forall2_lookup_r _ _ _ _ _ (rep_devices _ _ _ Hr) Hd) as (q' & Hq' & Eq').
    rewrite (rep_entry s l ds k q' Hr Hq') in Ep. injection Ep as ->. by rewrite Eq' in Eq. }
  destruct (lookup_dev _ (abs s)) as [d|].
  { destruct Hpm as [q ->]. apply IH; [lia|lia|done]. }
  rewrite Hpm. destruct (callocs addr); cbn [negb]; [|apply IH; [lia|lia|done]].
  set (q := fresh (dom (rg_devices s))). set (s1 := with_devices _ s).
  pose proof (rep_new s l ds (i2c_device addr) Hr : rep s1 l ds) as Hr1.
  destruct (dev_add_ok q (i2c_device addr) (reallocs addr) s1 l ds Hr1) as (r & s2 & -> & E2 & Hs2); [by cbn; rewrite lookup_insert_eq|done|].
  cbn [mbind option_bind]. destruct (IH (i + 1) s2) as (s' & E1 & Hs' & Ea); [lia|lia|done|].
  exists s'. split; [done|]. split; [done|]. rewrite Ea. f_equal.
  replace (abs s) with (abs s1) by (rewrite (rep_abs s1 l ds), (rep_abs s l ds) by done; done). by rewrite E2.
Qed.

(** ** Every sequence of calls *)

Lemma list_ok s l ds :
  rep s l ds → step List s = Some (RList ds, s).
Proof.
  intros Hr. cbn [step device_registry_list]. destruct (rep_array _ _ _ Hr) as (a & Ea & _ & El). rewrite Ea.
  pose proof (rep_list _ _ _ Hr) as E. unfold entries in E. rewrite Ea in E. cbn [default from_option id] in E.
  unfold packed in *. by rewrite E.
Qed.

Lemma emit_ok type path driver bus s :
  inv s →
  ∃ s', device_registry_emit_hotplug type path driver bus s = Some s' ∧ inv s' ∧
    abs s' = match mr_cb (abs s), path with
             | Some cb, Some path =>
               with_menv (heard cb (mk_event type (take 63 path) (take 31 (default [] driver)) bus) (mr_arg (abs s))
                 (mr_env (abs s))) (abs s)
             | _, _ => abs s
             end.
Proof.
  intros Hs. unfold device_registry_emit_hotplug. cbn [abs mr_cb mr_arg mr_env].
  destruct (rg_cb s) as [cb|] eqn:Ecb; [|by exists s]. destruct path as [path|]; [|by exists s].
  rewrite hotplug_quiet. eexists. split; [done|]. destruct Hs as (l & ds & Hr).
  set (u := heard _ _ _ _). pose proof (rep_env _ _ _ u Hr) as Hr'.
  split; [by do 2 eexists|]. rewrite (rep_abs _ _ _ Hr'), (rep_abs _ _ _ Hr). done.
Qed.

Lemma scan_i2c_ok i2c callocs reallocs s :
  inv s →
  ∃ s', hotplug_scan_i2c (Some i2c) callocs reallocs s = Some (0, s') ∧ inv s' ∧
    abs s' = spec_arrivals callocs reallocs (fst (probe 112 128 i2c 8 (rg_env s)))
      (with_menv (snd (probe 112 128 i2c 8 (rg_env s))) (abs s)).
Proof.
  intros (l & ds & Hr). unfold hotplug_scan_i2c.
  destruct (scan_bus_ok i2c 128 s) as (buf & found & E1 & Hf & El); [by destruct size_bits_ok as [->| ->]|].
  change (Z.of_nat 128) with 128 in E1. rewrite E1. cbn [mbind option_bind negb Z.eqb default from_option id].
  destruct (probe 112 128 i2c 8 (rg_env s)) as [got u]. cbn [fst snd] in *. pose proof (rep_env _ _ _ u Hr) as Hr'.
  destruct (arrivals_ok callocs reallocs buf (Z.to_nat found) 0 (with_env u s)) as (s' & -> & Hs' & Ea); [lia|lia|by do 2 eexists|].
  cbn [mbind option_bind]. exists s'. split; [done|]. split; [done|]. rewrite Ea. change (Z.to_nat 0) with O.
  rewrite drop_0. fold (packed found buf). by rewrite El.
Qed.

Definition inv_at (open : bool) s : Prop := if open then inv s else closed s.

(** What a call does, from an open and from a closed registry. *)
Definition fares (open : bool) (o : registry_op) s : Prop :=
  ∃ r s', step o s = Some (r, s') ∧ inv_at (opens open o) s' ∧ spec o (abs s) = Some (r, abs s').

Lemma open_step o s : op_ok o → callable true o → inv s → fares true o s.
Proof.
  intros Ho Hcall Hs. unfold fares. pose proof Hs as (l & ds & Hr).
  destruct o as [[|]| |[p|] ok|d ok|path|path|name| |cb arg|type path driver bus|[i2c|] room|[i2c|] callocs reallocs|spi];
    unfold spec; cbn [step opens inv_at]; try done.
  - destruct (dev_init_ok s) as (s' & E & Ea & Hs'); [apply Hr|apply Hr|]. cbn [step] in E. rewrite E.
    change (mr_env (abs s)) with (rg_env s). rewrite <- Ea. eauto.
  - destruct (dev_deinit_ok s l ds Hr) as (s' & E & Ea & Hs'). cbn [step] in E. rewrite E.
    change (mr_env (abs s)) with (rg_env s). change (mr_cb (abs s)) with (rg_cb s).
    change (mr_arg (abs s)) with (rg_arg s). rewrite <- Ea. eauto.
  - destruct Ho as [d Hd]. cbn [mbind option_bind]. rewrite Hd.
    destruct (dev_add_ok p d ok s l ds Hr) as (r & s' & -> & -> & Hs');
      [by eapply lookup_weaken, Hr|by destruct (statics_ok p d Hd)|]. cbn. eauto.
  - cbn. eauto.
  - pose proof (rep_new s l ds d Hr) as Hr1.
    destruct (dev_add_ok (fresh (dom (rg_devices s))) d ok _ l ds Hr1) as (r & s' & -> & E2 & Hs');
      [by cbn; rewrite lookup_insert_eq|done|]. cbn [mbind option_bind].
    replace (abs s) with (abs (with_devices (<[fresh (dom (rg_devices s)) := d]> (rg_devices s)) s))
      by (rewrite (rep_abs _ l ds Hr1), (rep_abs s l ds Hr); done).
    rewrite E2. eauto.
  - destruct (dev_remove_ok path s l ds Hr) as (r & s' & -> & -> & Hs'). cbn. eauto.
  - unfold device_registry_find. destruct path as [path|]; cbn [mbind option_bind]; [|by eauto].
    destruct (find_at s l ds (at_path path) Hr) as (p & Ep & El). unfold at_path in Ep at 1. rewrite Ep.
    cbn [mbind option_bind]. rewrite El. eauto.
  - unfold device_registry_find_by_name. destruct name as [name|]; cbn [mbind option_bind]; [|by eauto].
    destruct (find_at s l ds (at_name name) Hr) as (p & Ep & El). unfold at_name in Ep at 1. rewrite Ep.
    cbn [mbind option_bind]. rewrite El. eauto.
  - fold (step List s). rewrite (list_ok s l ds Hr). do 2 eexists. split; [done|]. split; [done|]. by rewrite (rep_abs s l ds Hr).
  - assert (rep (with_cb cb arg s) l ds) as Hr' by by apply (rep_same s). do 2 eexists. split; [done|].
    split; [by do 2 eexists|]. unfold device_registry_set_hotplug_callback. by rewrite (rep_abs _ _ _ Hr'), (rep_abs _ _ _ Hr).
  - destruct (emit_ok type path driver bus s Hs) as (s' & -> & Hs' & Ea). cbn [mbind option_bind]. rewrite <- Ea. eauto.
  - destruct (scan_bus_ok i2c room s Ho) as (buf & found & -> & Hf & El). cbn [mbind option_bind].
    fold (packed found buf). rewrite El. change (mr_env (abs s)) with (rg_env s).
    destruct (probe 112 room i2c 8 (rg_env s)) as [got u]. pose proof (rep_env _ _ _ u Hr) as Hr'.
    cbn [fst snd]. do 2 eexists. split; [done|]. split; [by do 2 eexists|]. done.
  - cbn. eauto.
  - destruct (scan_i2c_ok i2c callocs reallocs s Hs) as (s' & -> & Hs' & Ea). cbn [mbind option_bind].
    change (mr_env (abs s)) with (rg_env s). destruct (probe 112 128 i2c 8 (rg_env s)) as [got u]. cbn [fst snd] in Ea. rewrite <- Ea. eauto.
  - cbn. eauto.
  - destruct spi; cbn; eauto.
Qed.

Lemma closed_step o s : op_ok o → callable false o → closed s → fares false o s.
Proof.
  intros Ho Hcall Hs. unfold fares. pose proof Hs as [Ea En Ed Est].
  destruct o as [[|]| |[p|] ok|d ok|path|path|name| |cb arg|type path driver bus|[i2c|] room|[i2c|] callocs reallocs|spi];
    unfold spec; cbn [step opens inv_at]; try done; rewrite ?(closed_abs s Hs); cbn [mr_cb mr_arg mr_env mr_list].
  - destruct (dev_init_ok s Ed Est) as (s' & E & Eb & Hs'). cbn [step] in E. rewrite E, <- Eb. eauto.
  - cbn [device_registry_init]. assert (closed (with_array None INITIAL_CAPACITY (rg_count s) s)) as Hc by by split.
    do 2 eexists. split; [done|]. split; [exact Hc|]. by rewrite (closed_abs _ Hc).
  - unfold device_registry_deinit. rewrite En. cbn [Z.to_nat deinit_loop mbind option_bind].
    assert (closed (with_array None 0 0 s)) as Hc by by split.
    do 2 eexists. split; [done|]. split; [exact Hc|]. by rewrite (closed_abs _ Hc).
  - cbn. rewrite <- (closed_abs s Hs). eauto.
  - rewrite <- (closed_abs s Hs). unfold device_registry_remove, spec_remove. destruct path as [path|]; [|cbn; eauto].
    rewrite (closed_search s _ Hs). cbn [mbind option_bind]. rewrite (closed_abs s Hs). cbn [mr_list first].
    do 2 eexists. split; [done|]. split; [done|]. by rewrite (closed_abs s Hs).
  - unfold device_registry_find. destruct path as [path|]; cbn [mbind option_bind]; rewrite ?(closed_search s _ Hs);
      cbn; do 2 eexists; (split; [done|]); (split; [done|]); by rewrite (closed_abs s Hs).
  - unfold device_registry_find_by_name. destruct name as [name|]; cbn [mbind option_bind]; rewrite ?(closed_search s _ Hs);
      cbn; do 2 eexists; (split; [done|]); (split; [done|]); by rewrite (closed_abs s Hs).
  - cbn [device_registry_list]. rewrite Ea, En. do 2 eexists. split; [done|]. split; [done|]. by rewrite (closed_abs s Hs).
  - assert (closed (with_cb cb arg s)) as Hc by by split. do 2 eexists. split; [done|]. split; [exact Hc|].
    unfold device_registry_set_hotplug_callback. by rewrite (closed_abs _ Hc).
  - unfold device_registry_emit_hotplug. destruct (rg_cb s) as [cb|] eqn:Ecb, path as [path|]; cbn [mbind option_bind].
    1: { rewrite hotplug_quiet. cbn [mbind option_bind]. set (u := heard _ _ _ _). pose proof (closed_env s u Hs) as Hc.
         do 2 eexists. split; [done|]. split; [exact Hc|]. rewrite (closed_abs _ Hc). cbn. by rewrite Ecb. }
    all: do 2 eexists; (split; [done|]); (split; [done|]); by rewrite (closed_abs s Hs), ?Ecb.
  - destruct (scan_bus_ok i2c room s Ho) as (buf & found & -> & Hf & El). cbn [mbind option_bind].
    fold (packed found buf). rewrite El.
    destruct (probe 112 room i2c 8 (rg_env s)) as [got u]. pose proof (closed_env s u Hs) as Hc.
    cbn [fst snd]. do 2 eexists. split; [done|]. split; [exact Hc|]. by rewrite (closed_abs _ Hc).
  - rewrite <- (closed_abs s Hs). cbn. eauto.
  - rewrite <- (closed_abs s Hs). cbn. eauto.
  - rewrite <- (closed_abs s Hs). destruct spi; cbn; eauto.
Qed.

Lemma inv_distinct open s : inv_at open s → distinct (mr_list (abs s)).
Proof.
  destruct open; cbn [inv_at].
  - intros (l & ds & Hr). rewrite (rep_abs _ _ _ Hr). apply Hr.
  - intros Hc. rewrite (closed_abs s Hc). split; constructor.
Qed.

Lemma registry_runs l open s :
  legal open l → inv_at open s →
  ∃ rs s', runs step l s = Some (rs, s') ∧ runs spec l (abs s) = Some (rs, abs s') ∧
    inv_at (foldl opens open l) s'.
Proof.
  revert open s. induction l as [|o l IH]; intros open s Hl Hs; [by exists [], s|].
  cbn [legal] in Hl. destruct Hl as (Ho & Hcall & Hl).
  assert (fares open o s) as (r & s1 & E1 & Hs1 & M1) by (destruct open; [by apply open_step|by apply closed_step]).
  destruct (IH _ s1 Hl Hs1) as (rs & s2 & E2 & M2 & Hs2). exists (r :: rs), s2. cbn [runs foldl].
  rewrite E1, M1. cbn [mbind option_bind]. by rewrite E2, M2.
Qed.

(** The statics of the file at the start of the program. *)
Definition unbooted u : device_registry := mk_registry None 0 0 None 0 drv statics u.

End RegistryThm.

Module RegistryRuns.
#[local] Existing Instance arch32.

(** A bus with a display and a thermometer; the log of the events. *)
Definition log_t : Type := list (Z * list Z).
#[export] Instance bus : I2cBus log_t := {|
  hal_i2c_read _ addr u := (if (addr =? 0x3C) || (addr =? 0x76) then 0 else -1, u)
|}.
Definition note (e : hotplug_event_t) (u : log_t) : log_t := u ++ [(ev_type e, ev_path e)].
#[export] Instance logging : @HotplugCode Z unit log_t := {|
  run_hotplug _ e _ s := Some (with_env (note e (rg_env s)) s)
|}.
#[export] Instance logging_quiet : @QuietHotplug Z unit log_t logging.
Proof. refine {| heard _ e _ u := note e u |}. done. Defined.

Definition gpio : driver Z := mk_driver (str "gpio") 0 None 0 0.
Definition led (k : Z) : device := mk_device [108; k] (str "/dev/led" ++ [k]) (Some 1%nat) 0 0 0 false false.
Definition clash : device := mk_device (str "i2c-dev-0x76") (str "/dev/bme") None 0 0 0 false false.
Definition drv : gmap nat (driver Z) := {[1%nat := gpio]}.
Definition statics : gmap nat device := {[1%nat := led 49; 2%nat := led 50; 3%nat := clash]}.
Definition start : device_registry Z unit log_t := unbooted drv statics [].
(** A device that the registry is to free. *)
Definition given : device := mk_device (str "fan") (str "/dev/fan") (Some 1%nat) 0 0 0 false true.

Definition calls : list (@registry_op unit) :=
  [Init true; SetCallback (Some tt) 0; Add (Some 1%nat) true; Add (Some 1%nat) true;
   ScanI2c (Some 1) (λ _, true) (λ _, true); Add (Some 2%nat) true; AddNew given true;
   Remove (Some (str "/dev/i2c/0x3C")); Find (Some (str "/dev/i2c/0x76")); List; ScanBus (Some 1) 1;
   Remove (Some (str "/dev/fan")); Deinit; Remove (Some (str "/dev/led1")); List; Deinit; Init false; Init true;
   Add (Some 2%nat) true; List].


(** What the calls return and what the callback heard. *)
Example calls_seen :
  (x ← runs step calls start; Some (x.1, rg_env x.2)) =
    Some ([RInt 0; RInt 0; RInt 0; RInt (-1); RInt 0; RInt 0; RInt 0; RInt 0; RDevice (Some (i2c_device 0x76));
           RList [led 49; i2c_device 0x76; led 50; given]; RAddrs [0x3C]; RInt 0; RInt 0; RInt (-1); RList [];
           RInt 0; RInt (-1); RInt 0; RInt 0; RList [led 50]],
          [(0, str "/dev/led1"); (0, str "/dev/i2c/0x3C"); (0, str "/dev/i2c/0x76"); (0, str "/dev/led2");
           (0, str "/dev/fan"); (1, str "/dev/i2c/0x3C"); (1, str "/dev/fan")]).
Proof. vm_compute. reflexivity. Qed.

(** Doubling a capacity of nothing makes no room: a device added after the registry was closed,
    or before it was opened, is written behind the array. *)
Example add_after_deinit :
  runs step [Init true; Deinit; Add (Some 1%nat) true] start = None ∧ runs step [Add (Some 1%nat) true] start = None.
Proof. by vm_compute. Qed.

(** A name in use keeps the device a scan made out of the registry, and nothing frees it. *)
Example scan_leaks :
  (x ← runs step [Init true; Add (Some 3%nat) true; ScanI2c (Some 1) (λ _, true) (λ _, true); List] start;
   Some (last x.1, size (rg_devices x.2))) =
    Some (Some (RList [clash; i2c_device 0x3C]), 5%nat).
Proof. vm_compute. reflexivity. Qed.

(** A callback that removes an earlier device while one is leaving: the place found before the
    callback is used after it, so another device is dropped and the one that leaves stays. *)
Definition cleaning : @HotplugCode Z unit log_t := {|
  run_hotplug _ e _ s :=
    if str_eq (ev_path e) (str "/dev/led2")
    then x ← @device_registry_remove _ _ _ _ logging (Some (str "/dev/led1")) s; Some x.2
    else Some s
|}.
Example removal_in_callback :
  (x ← runs step [Init true; Add (Some 1%nat) true; Add (Some 2%nat) true; Add (Some 3%nat) true; SetCallback (Some tt) 0]
         start;
   y ← @device_registry_remove _ _ _ _ cleaning (Some (str "/dev/led2")) x.2;
   Some (omap (leads y.2) (entries y.2))) = Some [led 50].
Proof. vm_compute. reflexivity. Qed.
End RegistryRuns.
