(* ===== verification/SimGpio.v ===== *)
(** * Pins and keys (sim/sim_gpio.c, the buttons of apps/fw/io.h)

    A key of the keyboard moves the level of every pin it is mapped to, and an edge runs the
    callback of the pin.  Callbacks are run on the whole state, so they may map keys and
    register pins themselves. *)

From Stdlib Require Import ZArith Lia.
From stdpp Require Import base tactics option numbers list.
From S2P Require Import Prelude.
From S2P Require Import Notify.

Definition MAX_GPIO_PINS : Z := 64.

Inductive hal_gpio_irq_t :=
  | HAL_GPIO_IRQ_NONE | HAL_GPIO_IRQ_RISING | HAL_GPIO_IRQ_FALLING | HAL_GPIO_IRQ_BOTH.

Record gpio_pin_t := mk_pin {
  gp_registered : bool; gp_level : bool; gp_key_pressed : Z; gp_key_released : Z
}.
Definition pin_zero : gpio_pin_t := mk_pin false false 0 0.

Section SimGpio.
(** [Cb]: functions called back, with their argument; [E]: the rest of the program. *)
Context {Cb E : Type}.

Record hal_gpio_pin_t := mk_hal_pin {
  hp_registered : bool; hp_callback : option Cb; hp_irq_trigger : hal_gpio_irq_t; hp_last_level : bool
}.
Definition hal_pin_zero : hal_gpio_pin_t := mk_hal_pin false None HAL_GPIO_IRQ_NONE false.

Record gpio_state := mk_gpio {
  g_pins : list gpio_pin_t; g_hal_pins : list hal_gpio_pin_t; g_callback : option Cb; gpio_env : E
}.
Implicit Types (s : gpio_state).
Definition with_pins (l : list gpio_pin_t) s : gpio_state := mk_gpio l (g_hal_pins s) (g_callback s) (gpio_env s).
Definition with_hal_pins (l : list hal_gpio_pin_t) s : gpio_state := mk_gpio (g_pins s) l (g_callback s) (gpio_env s).
Definition with_gpio_env (e : E) s : gpio_state := mk_gpio (g_pins s) (g_hal_pins s) (g_callback s) e.

(** [run_pin] is a callback given the pin, [run_level] the global one given pin and level,
    [notify_on_key] the notification service, which may take a key. *)
Class GpioCode := {
  run_pin : Cb → Z → gpio_state → option gpio_state;
  run_level : Cb → Z → bool → gpio_state → option gpio_state;
  notify_on_key : Z → bool → gpio_state → bool * gpio_state
}.
Context `{GpioCode}.

Definition sim_gpio_init s : Z * gpio_state :=
  (0, mk_gpio (replicate (Z.to_nat MAX_GPIO_PINS) pin_zero) (replicate (Z.to_nat MAX_GPIO_PINS) hal_pin_zero)
        (g_callback s) (gpio_env s)).

Definition in_range (pin : Z) : bool := negb ((pin <? 0) || (MAX_GPIO_PINS <=? pin)).

(** [g_pins[pin].field = ...] *)
Definition upd_pin (pin : Z) (f : gpio_pin_t → gpio_pin_t) s : option gpio_state :=
  p ← rd (g_pins s) pin; l ← wr (g_pins s) pin (f p); Some (with_pins l s).
Definition upd_hal (pin : Z) (f : hal_gpio_pin_t → hal_gpio_pin_t) s : option gpio_state :=
  p ← rd (g_hal_pins s) pin; l ← wr (g_hal_pins s) pin (f p); Some (with_hal_pins l s).
Definition set_registered (b level : bool) (p : gpio_pin_t) : gpio_pin_t :=
  mk_pin b level (gp_key_pressed p) (gp_key_released p).
Definition set_level (level : bool) (p : gpio_pin_t) : gpio_pin_t := set_registered (gp_registered p) level p.
Definition set_last (level : bool) (p : hal_gpio_pin_t) : hal_gpio_pin_t :=
  mk_hal_pin (hp_registered p) (hp_callback p) (hp_irq_trigger p) level.

Definition sim_gpio_register (pin : Z) (initial_level : bool) s : option (Z * gpio_state) :=
  if negb (in_range pin) then Some (-1, s) else
  s ← upd_pin pin (set_registered true initial_level) s; Some (0, s).

Definition sim_gpio_unregister (pin : Z) s : option gpio_state :=
  if in_range pin then upd_pin pin (λ p, set_registered false (gp_level p) p) s else Some s.

Definition sim_gpio_read (pin : Z) s : option bool :=
  if negb (in_range pin) then Some false else p ← rd (g_pins s) pin; Some (gp_level p).

Definition sim_gpio_write (pin : Z) (level : bool) s : option gpio_state :=
  if negb (in_range pin) then Some s else
  p ← rd (g_pins s) pin;
  if bool_decide (gp_level p = level) then Some s else
  s ← upd_pin pin (set_level level) s;
  match g_callback s with Some cb => run_level cb pin level s | None => Some s end.

Definition sim_gpio_set_key_mapping (key pin : Z) (pressed_level : bool) s : option gpio_state :=
  if negb (in_range pin) then Some s else
  upd_pin pin (λ p, if pressed_level
                    then mk_pin (gp_registered p) (gp_level p) key (gp_key_released p)
                    else mk_pin (gp_registered p) (gp_level p) (gp_key_pressed p) key) s.

Definition sim_gpio_set_callback (cb : option Cb) s : gpio_state :=
  mk_gpio (g_pins s) (g_hal_pins s) cb (gpio_env s).

Definition sim_gpio_register_hal_gpio_with_trigger (pin : Z) (cb : option Cb) (trigger : hal_gpio_irq_t) s
    : option (Z * gpio_state) :=
  if negb (in_range pin) then Some (-1, s) else
  s ← upd_hal pin (λ _, mk_hal_pin true cb trigger false) s; Some (0, s).
Definition sim_gpio_register_hal_gpio (pin : Z) (cb : option Cb) s : option (Z * gpio_state) :=
  sim_gpio_register_hal_gpio_with_trigger pin cb HAL_GPIO_IRQ_BOTH s.
Definition sim_gpio_unregister_hal_gpio (pin : Z) s : option gpio_state :=
  if in_range pin
  then upd_hal pin (λ p, mk_hal_pin false (hp_callback p) (hp_irq_trigger p) (hp_last_level p)) s
  else Some s.

Definition edge (trigger : hal_gpio_irq_t) (old new : bool) : bool :=
  match trigger with
  | HAL_GPIO_IRQ_RISING => negb old && new
  | HAL_GPIO_IRQ_FALLING => old && negb new
  | HAL_GPIO_IRQ_BOTH => negb old && new || old && negb new
  | HAL_GPIO_IRQ_NONE => false
  end.
Definition hal_gpio_check_edge (pin : Z) (new_level : bool) s : option gpio_state :=
  hp ← rd (g_hal_pins s) pin;
  match hp_registered hp, hp_callback hp with
  | true, Some cb =>
    s ← (if edge (hp_irq_trigger hp) (hp_last_level hp) new_level then run_pin cb pin s else Some s);
    upd_hal pin (set_last new_level) s
  | _, _ => Some s
  end.

(** The level of a pin changes: global callback, then the callback of the pin. *)
Definition pin_edge (pin : Z) (level : bool) s : option gpio_state :=
  s ← upd_pin pin (set_level level) s;
  s ← match g_callback s with Some cb => run_level cb pin level s | None => Some s end;
  hal_gpio_check_edge pin level s.

(** Whether the key in this position moves the pin. *)
Definition key_moves (key : Z) (pressed : bool) (p : gpio_pin_t) : bool :=
  gp_registered p &&
  (if pressed then gp_key_pressed p =? key
   else (if gp_key_released p =? 0 then gp_key_pressed p else gp_key_released p) =? key).
(** [n] pins from [i] on. *)
Fixpoint key_loop (n : nat) (i key : Z) (pressed : bool) s : option gpio_state :=
  match n with
  | O => Some s
  | S n =>
    p ← rd (g_pins s) i;
    s ← (if key_moves key pressed p then pin_edge i pressed s else Some s);
    key_loop n (i + 1) key pressed s
  end.
Definition sim_gpio_handle_key (key : Z) (pressed : bool) s : option gpio_state :=
  let (taken, s) := if negb (sim_key_is_system key) then notify_on_key key pressed s else (false, s) in
  if taken then Some s else key_loop (Z.to_nat MAX_GPIO_PINS) 0 key pressed s.

(** A button (app_button_init): [gpio_ok] says whether [hal_gpio_open] has memory. *)
Record app_button_t := mk_button {
  bt_pin : Z; bt_key : Z; bt_trigger : hal_gpio_irq_t; bt_on_press : option Cb; bt_on_release : option Cb
}.
Definition app_button_init (gpio_ok : bool) (btn : app_button_t) s : option (Z * gpio_state) :=
  '(_, s) ← sim_gpio_register (bt_pin btn) false s;
  if negb gpio_ok then Some (-1, s) else
  s ← sim_gpio_set_key_mapping (bt_key btn) (bt_pin btn) true s;
  s ← match bt_on_press btn, bt_on_release btn with
      | None, None => Some s
      | press, release =>
        '(_, s) ← sim_gpio_register_hal_gpio_with_trigger (bt_pin btn)
                    (match bt_trigger btn with HAL_GPIO_IRQ_FALLING => release | _ => press end)
                    (bt_trigger btn) s;
        Some s
      end;
  Some (0, s).
End SimGpio.
Arguments hal_gpio_pin_t : clear implicits.
Arguments gpio_state : clear implicits.
Arguments app_button_t : clear implicits.
