(* ===== verification/AppKit.v ===== *)
(** * The application kit (apps/app_kit.c, the key bindings of apps/app_ui.c)

    The context of a running app is a local variable of [app_kit_run] on the stack of its
    task: here a key of the map [ctxs], gone when the run ends, and a pointer to it leads
    nowhere from then on ([None]).  The whole state is that of the pins (SimGpio), whose
    callbacks point into the contexts.

    The code of the applications is given by the class [AppCode] as the calls it makes in a
    state; application core, tasks and power hints are the class [KitOs].  The loop of
    [app_kit_run] is cut at the places where it sleeps: [kit_enter], [kit_frame] and
    [kit_leave]. *)

From Stdlib Require Import ZArith Lia String.
From stdpp Require Import base tactics option numbers fin_maps gmap list.
From S2P Require Import Prelude.
From S2P Require Import CString.
From S2P Require Import PowerGovernor.
From S2P Require Import Tables.
From S2P Require Import App.
From S2P Require Import SimGpio.

Definition APP_KIT_HOME_NAME : list Z := str "launcher".
Definition APP_KIT_PIN_BASE : Z := 20.
Definition APP_KIT_MAX_CTX : Z := 8.
Definition APP_KIT_MAX_KEYS : Z := 8.
Definition SIM_KEY_ESCAPE : Z := 6.
Definition APP_UI_MODE_UI : Z := 0.
Definition APP_UI_MODE_GAME : Z := 1.
Definition ARDUBOT_DEFAULT_FPS : Z := 30.

(** The application core, the tasks, the governor and what is shown.  A context knows tasks by
    their keys; [task_get_current] says whether the task is the idle task. *)
Class KitOs (W : Type) := {
  app_state : list Z → W → option app_state_t;
  kit_app_start : list Z → W → Z * W;
  kit_app_resume : list Z → W → Z * W;
  kit_app_suspend : list Z → W → Z * W;
  kit_set_demand : nat → Z → W → W;
  kit_set_foreground : Z → W → W;
  task_get_current : W → option (nat * bool);
  task_blocked : nat → W → bool;
  task_wake_time : nat → W → Z;
  task_set_wake : nat → Z → W → W;
  scheduler_ticks : W → Z;
  display_height : Z;
  header_height : Z;
  header_app_visible : W → bool;
  notify_needs_present : W → bool;
  notify_pump : W → W
}.

Section AppKit.
(** [Fn]: functions of the applications. *)
Context {Fn W : Type} `{KitOs W}.

Record app_desc_t := mk_desc {
  ad_name : option (list Z); ad_version : option (list Z); ad_author : option (list Z);
  ad_description : option (list Z); ad_type : Z; ad_fps : Z; ad_stack_size : Z; ad_heap_size : Z;
  ad_icon : option Z; ad_on_init : option Fn; ad_on_frame : option Fn; ad_on_cleanup : option Fn;
  ad_on_load : option Fn
}.

Record app_key_binding_t := mk_binding {
  kb_key : Z; kb_pin : Z; kb_fn : option Fn; kb_user : Z; kb_app : option nat
}.
Definition binding_zero : app_key_binding_t := mk_binding 0 0 None 0 None.

Record app_ctx := mk_ctx {
  cx_dirty : bool; cx_running : bool; cx_desc : option nat; cx_keys : list app_key_binding_t; cx_key_count : Z;
  cx_mode : Z; cx_demand : Z; cx_demand_set : bool; cx_demand_task : option nat; cx_paced : bool; cx_every_ms : Z;
  cx_run_task : option nat; cx_retired : bool
}.
Implicit Types (c : app_ctx).
Definition set_dirty (b : bool) c : app_ctx :=
  mk_ctx b (cx_running c) (cx_desc c) (cx_keys c) (cx_key_count c) (cx_mode c) (cx_demand c) (cx_demand_set c)
    (cx_demand_task c) (cx_paced c) (cx_every_ms c) (cx_run_task c) (cx_retired c).
Definition set_running (running retired : bool) c : app_ctx :=
  mk_ctx (cx_dirty c) running (cx_desc c) (cx_keys c) (cx_key_count c) (cx_mode c) (cx_demand c) (cx_demand_set c)
    (cx_demand_task c) (cx_paced c) (cx_every_ms c) (cx_run_task c) retired.
Definition set_keys (l : list app_key_binding_t) (n : Z) c : app_ctx :=
  mk_ctx (cx_dirty c) (cx_running c) (cx_desc c) l n (cx_mode c) (cx_demand c) (cx_demand_set c)
    (cx_demand_task c) (cx_paced c) (cx_every_ms c) (cx_run_task c) (cx_retired c).
Definition set_demand (d : Z) (task : option nat) c : app_ctx :=
  mk_ctx (cx_dirty c) (cx_running c) (cx_desc c) (cx_keys c) (cx_key_count c) (cx_mode c) d true
    task (cx_paced c) (cx_every_ms c) (cx_run_task c) (cx_retired c).
Definition set_pace (paced : bool) (every_ms : Z) c : app_ctx :=
  mk_ctx (cx_dirty c) (cx_running c) (cx_desc c) (cx_keys c) (cx_key_count c) (cx_mode c) (cx_demand c)
    (cx_demand_set c) (cx_demand_task c) paced every_ms (cx_run_task c) (cx_retired c).
Definition set_run_task (task : option nat) c : app_ctx :=
  mk_ctx (cx_dirty c) (cx_running c) (cx_desc c) (cx_keys c) (cx_key_count c) (cx_mode c) (cx_demand c)
    (cx_demand_set c) (cx_demand_task c) (cx_paced c) (cx_every_ms c) task (cx_retired c).

(** The functions given to the pins: trampolines with their binding (a context and a place in
    its keys), and others. *)
Inductive kit_cb := KitKey (ctx : nat) (i : Z) | UiKey (ctx : nat) (i : Z) | OtherCb (fn : Fn).

Record kit_state := mk_kit {
  g_fg : option nat; g_home : option nat; g_next_pin : Z;
  g_ctx_reg : list (option (list Z) * option nat);
  ctxs : gmap nat app_ctx; descs : gmap nat app_desc_t; os : W
}.
Abbreviation world := (gpio_state kit_cb kit_state).
Implicit Types (w : world) (k : kit_state).

Definition kit w : kit_state := gpio_env w.
Definition with_kit (k : kit_state) w : world := with_gpio_env k w.
Definition with_fg (fg : option nat) w : world :=
  let k := kit w in
  with_kit (mk_kit fg (g_home k) (g_next_pin k) (g_ctx_reg k) (ctxs k) (descs k) (os k)) w.
Definition with_home (home : option nat) w : world :=
  let k := kit w in
  with_kit (mk_kit (g_fg k) home (g_next_pin k) (g_ctx_reg k) (ctxs k) (descs k) (os k)) w.
Definition with_next_pin (pin : Z) w : world :=
  let k := kit w in
  with_kit (mk_kit (g_fg k) (g_home k) pin (g_ctx_reg k) (ctxs k) (descs k) (os k)) w.
Definition with_reg (l : list (option (list Z) * option nat)) w : world :=
  let k := kit w in
  with_kit (mk_kit (g_fg k) (g_home k) (g_next_pin k) l (ctxs k) (descs k) (os k)) w.
Definition with_ctxs (m : gmap nat app_ctx) w : world :=
  let k := kit w in
  with_kit (mk_kit (g_fg k) (g_home k) (g_next_pin k) (g_ctx_reg k) m (descs k) (os k)) w.
Definition with_os (o : W) w : world :=
  let k := kit w in
  with_kit (mk_kit (g_fg k) (g_home k) (g_next_pin k) (g_ctx_reg k) (ctxs k) (descs k) o) w.

(** [app->...] and [app->field = ...] *)
Definition ctx_at (app : nat) w : option app_ctx := ctxs (kit w) !! app.
Definition ctx_upd (app : nat) (f : app_ctx → app_ctx) w : option world :=
  c ← ctx_at app w; Some (with_ctxs (<[app := f c]> (ctxs (kit w))) w).
(** [app->desc->name], [None] when there is no descriptor or no name. *)
Definition desc_of c w : option (option app_desc_t) :=
  match cx_desc c with None => Some None | Some d => x ← descs (kit w) !! d; Some (Some x) end.
Definition name_of c w : option (option (list Z)) :=
  d ← desc_of c w; Some (x ← d; ad_name x).

(** ** The registry of contexts *)

Definition reg_has (name : list Z) (e : option (list Z) * option nat) : bool :=
  match e.1 with Some n => str_eq n name | None => false end.
Definition reg_free (e : option (list Z) * option nat) : bool := match e.1 with Some _ => false | None => true end.

Definition app_kit_register_ctx (name : option (list Z)) (ctx : option nat) w : option world :=
  match name, ctx with
  | Some name, Some ctx =>
    match first (reg_has name) (g_ctx_reg (kit w)) with
    | Some i =>
      e ← rd (g_ctx_reg (kit w)) (Z.of_nat i);
      l ← wr (g_ctx_reg (kit w)) (Z.of_nat i) (e.1, Some ctx); Some (with_reg l w)
    | None =>
      match first reg_free (g_ctx_reg (kit w)) with
      | Some i => l ← wr (g_ctx_reg (kit w)) (Z.of_nat i) (Some name, Some ctx); Some (with_reg l w)
      | None => Some w
      end
    end
  | _, _ => Some w
  end.

Definition app_kit_unregister_ctx (name : option (list Z)) w : option world :=
  match name with
  | None => Some w
  | Some name =>
    match first (reg_has name) (g_ctx_reg (kit w)) with
    | Some i => l ← wr (g_ctx_reg (kit w)) (Z.of_nat i) (None, None); Some (with_reg l w)
    | None => Some w
    end
  end.

Definition app_kit_find_ctx (name : option (list Z)) w : option (option nat) :=
  match name with
  | None => Some None
  | Some name =>
    match first (reg_has name) (g_ctx_reg (kit w)) with
    | Some i => e ← rd (g_ctx_reg (kit w)) (Z.of_nat i); Some e.2
    | None => Some None
    end
  end.

(** ** Focus *)

(** [n] bindings from [i] on. *)
Fixpoint remap_loop (n : nat) (i : Z) c w : option world :=
  match n with
  | O => Some w
  | S n =>
    b ← rd (cx_keys c) i;
    w ← sim_gpio_set_key_mapping (kb_key b) (kb_pin b) true w;
    remap_loop n (i + 1) c w
  end.
Definition app_kit_remap_keys (app : option nat) w : option world :=
  match app with
  | None => Some w
  | Some app => c ← ctx_at app w; remap_loop (Z.to_nat (cx_key_count c)) 0 c w
  end.

(** [(void)power_set_demand (task, demand)], which refuses no demand and those above the highest *)
Definition hint_task (task : option nat) (demand : Z) w : world :=
  match task with
  | Some t => if power_set_demand_ok demand then with_os (kit_set_demand t demand (os (kit w))) w else w
  | None => w
  end.
Definition foreground_demand (demand : Z) w : world := with_os (kit_set_foreground demand (os (kit w))) w.

Definition publish_focus_demand (app : option nat) w : option world :=
  match app with
  | None => Some (foreground_demand POWER_DEMAND_NORMAL w)
  | Some app =>
    c ← ctx_at app w;
    let demand := if cx_demand_set c then cx_demand c else POWER_DEMAND_NORMAL in
    Some (foreground_demand demand (hint_task (cx_demand_task c) demand w))
  end.

Definition app_mark_dirty (app : option nat) w : option world :=
  match app with Some app => ctx_upd app (set_dirty true) w | None => Some w end.

Definition app_kit_focus (app : option nat) w : option world :=
  w ← match g_fg (kit w) with
      | Some fg =>
        if bool_decide (app = Some fg) then Some w else
        c ← ctx_at fg w; Some (hint_task (cx_demand_task c) POWER_DEMAND_NORMAL w)
      | None => Some w
      end;
  w ← publish_focus_demand app (with_fg app w);
  match app with
  | Some _ => w ← app_kit_remap_keys app w; app_mark_dirty app w
  | None => Some w
  end.

Definition app_kit_is_foreground_desc (desc : option nat) w : option bool :=
  match desc, g_fg (kit w) with
  | Some d, Some fg => c ← ctx_at fg w; Some (bool_decide (cx_desc c = Some d))
  | _, _ => Some false
  end.
Definition app_kit_is_foreground (app : option nat) w : option bool :=
  match app with
  | None => Some false
  | Some a =>
    if bool_decide (g_fg (kit w) = Some a) then Some true else
    c ← ctx_at a w; app_kit_is_foreground_desc (cx_desc c) w
  end.

Definition app_kit_set_demand (app : option nat) (demand : Z) w : option (Z * world) :=
  match app with
  | None => Some (-1, w)
  | Some a =>
    if negb (power_set_demand_ok demand) then Some (-1, w) else
    c ← ctx_at a w;
    let task := match cx_demand_task c, task_get_current (os (kit w)) with
                | None, Some (t, false) => Some t
                | t, _ => t
                end in
    w ← ctx_upd a (set_demand demand task) w;
    fg ← app_kit_is_foreground app w;
    Some (0, if fg : bool then foreground_demand demand (hint_task task demand w) else w)
  end.

Definition app_kit_get_demand (app : option nat) w : option Z :=
  match app with
  | None => Some POWER_DEMAND_NORMAL
  | Some a => c ← ctx_at a w; Some (if cx_demand_set c then cx_demand c else POWER_DEMAND_NORMAL)
  end.

(** ** Keys.  [gpio_ok] is the allocation of the button. *)

Definition app_bind_key (gpio_ok : bool) (app : option nat) (key : Z) (fn : option Fn) (user : Z) w
    : option (Z * world) :=
  match app, fn with
  | Some a, Some f =>
    c ← ctx_at a w;
    if APP_KIT_MAX_KEYS <=? cx_key_count c then Some (-1, w) else
    let pin := g_next_pin (kit w) in
    let w := with_next_pin (pin + 1) w in
    l ← wr (cx_keys c) (cx_key_count c) (mk_binding key pin (Some f) user app);
    w ← ctx_upd a (set_keys l (cx_key_count c)) w;
    '(r, w) ← app_button_init gpio_ok
                (mk_button pin key HAL_GPIO_IRQ_RISING (Some (KitKey a (cx_key_count c))) None) w;
    if negb (r =? 0) then Some (-1, w) else
    w ← ctx_upd a (set_keys l (u32 (cx_key_count c + 1))) w;
    fg ← app_kit_is_foreground app w;
    w ← (if fg : bool then sim_gpio_set_key_mapping key pin true w else Some w);
    Some (0, w)
  | _, _ => Some (-1, w)
  end.

(** [ui] is the context of the app's [app_ui_t]; the pin of the binding is not written. *)
Definition app_ui_bind_key (gpio_ok : bool) (ui : option nat) (key : Z) (fn : option Fn) (user : Z) w
    : option (Z * world) :=
  match ui, fn with
  | Some a, Some f =>
    c ← ctx_at a w;
    if APP_KIT_MAX_KEYS <=? cx_key_count c then Some (-1, w) else
    b ← rd (cx_keys c) (cx_key_count c);
    l ← wr (cx_keys c) (cx_key_count c) (mk_binding key (kb_pin b) (Some f) user ui);
    w ← ctx_upd a (set_keys l (cx_key_count c)) w;
    let pin := g_next_pin (kit w) in
    let w := with_next_pin (pin + 1) w in
    '(r, w) ← app_button_init gpio_ok
                (mk_button pin key HAL_GPIO_IRQ_RISING (Some (UiKey a (cx_key_count c))) None) w;
    if negb (r =? 0) then Some (-1, w) else
    w ← sim_gpio_set_key_mapping key pin true w;
    w ← ctx_upd a (set_keys l (u32 (cx_key_count c + 1))) w;
    Some (0, w)
  | _, _ => Some (-1, w)
  end.

(** ** Switching apps *)

Definition os_call (f : W → Z * W) w : Z * world := let (r, o) := f (os (kit w)) in (r, with_os o w).
Definition app_kit_foreground_name w : option (option (list Z)) :=
  match g_fg (kit w) with None => Some None | Some fg => c ← ctx_at fg w; name_of c w end.

(** Resuming or starting the launcher. *)
Definition bring_home w : world :=
  match app_state APP_KIT_HOME_NAME (os (kit w)) with
  | Some APP_STATE_SUSPENDED => snd (os_call (kit_app_resume APP_KIT_HOME_NAME) w)
  | Some APP_STATE_INSTALLED | Some APP_STATE_STOPPED => snd (os_call (kit_app_start APP_KIT_HOME_NAME) w)
  | _ => w
  end.
Definition focus_home w : option world :=
  match g_home (kit w) with Some home => app_kit_focus (Some home) w | None => Some w end.

Definition app_request_exit (app : option nat) w : option world :=
  match app with
  | None => Some w
  | Some a =>
    c ← ctx_at a w;
    name ← name_of c w;
    match name with
    | None => focus_home w
    | Some name =>
      if str_eq name APP_KIT_HOME_NAME then focus_home w else
      w ← focus_home (bring_home w);
      let (r, w) := os_call (kit_app_suspend name) w in
      if negb (r =? 0) then ctx_upd a (λ c, set_running false (cx_retired c) c) w else Some w
    end
  end.

(** The handler of the back key, [exit_key] as a function of an app. *)
Definition app_request_exit_key (app : option nat) (user : Z) w : option world := app_request_exit app w.
Definition app_bind_back (gpio_ok : bool) (app : option nat) (exit_key : Fn) w : option (Z * world) :=
  app_bind_key gpio_ok app SIM_KEY_ESCAPE (Some exit_key) 0 w.

Definition app_kit_return_home (leaving : option (list Z)) w : option world :=
  match leaving with
  | Some l => if str_eq l APP_KIT_HOME_NAME then Some w else
              match app_state APP_KIT_HOME_NAME (os (kit w)) with
              | None => Some w
              | Some _ => focus_home (bring_home w)
              end
  | None =>
    match app_state APP_KIT_HOME_NAME (os (kit w)) with
    | None => Some w
    | Some _ => focus_home (bring_home w)
    end
  end.

Definition app_kit_switch (name : option (list Z)) w : option (Z * world) :=
  match name with
  | None => Some (-1, w)
  | Some name =>
    if str_eq name [] then Some (-1, w) else
    match app_state name (os (kit w)) with
    | None => Some (-1, w)
    | Some st =>
      from ← app_kit_foreground_name w;
      let (r, w) := match st with
                    | APP_STATE_SUSPENDED => os_call (kit_app_resume name) w
                    | APP_STATE_RUNNING => (0, w)
                    | _ => os_call (kit_app_start name) w
                    end in
      if negb (r =? 0) then Some (-1, w) else
      to ← app_kit_find_ctx (Some name) w;
      w ← match to with Some _ => app_kit_focus to w | None => Some w end;
      Some (0, match from with
               | Some from => if str_eq from name then w else snd (os_call (kit_app_suspend from) w)
               | None => w
               end)
    end
  end.

Definition app_kit_wake (app : option nat) w : option world :=
  match app with
  | None => Some w
  | Some a =>
    c ← ctx_at a w;
    match cx_run_task c with
    | None => Some w
    | Some t =>
      let o := os (kit w) in
      let now := scheduler_ticks o in
      Some (if task_blocked t o && (now <? task_wake_time t o) then with_os (task_set_wake t now o) w else w)
    end
  end.
Definition app_kit_wake_foreground w : option world := app_kit_wake (g_fg (kit w)) w.

(** The context gives up the foreground. *)
Definition drop_focus (a : nat) w : option world :=
  if bool_decide (g_fg (kit w) = Some a) then
    c ← ctx_at a w;
    Some (foreground_demand POWER_DEMAND_NORMAL
            (with_fg None (hint_task (cx_demand_task c) POWER_DEMAND_NORMAL w)))
  else Some w.

Definition app_kit_request_stop (name : option (list Z)) w : option (Z * world) :=
  match name with
  | None => Some (-1, w)
  | Some nm =>
    if str_eq nm [] then Some (-1, w) else
    ctx ← app_kit_find_ctx name w;
    match ctx, app_state nm (os (kit w)) with
    | Some a, Some st =>
      if negb (bool_decide (st = APP_STATE_RUNNING) || bool_decide (st = APP_STATE_SUSPENDED)) then Some (-1, w) else
      let was_fg := bool_decide (g_fg (kit w) = Some a) in
      w ← ctx_upd a (set_running false true) w;
      w ← drop_focus a w;
      w ← (if was_fg : bool then app_kit_return_home name w else Some w);
      let w := match app_state nm (os (kit w)) with
               | Some APP_STATE_SUSPENDED => snd (os_call (kit_app_resume nm) w)
               | _ => w
               end in
      w ← app_kit_wake (Some a) w;
      Some (0, w)
    | _, _ => Some (-1, w)
    end
  end.

Definition app_open (from : option nat) (name : option (list Z)) w : option (Z * world) :=
  match from, name with
  | Some f, Some name =>
    c ← ctx_at f w;
    own ← name_of c w;
    match own with
    | None => Some (-1, w)
    | Some own =>
      if str_eq own name then Some (0, w) else
      let (r, w) := match app_state name (os (kit w)) with
                    | Some APP_STATE_SUSPENDED => os_call (kit_app_resume name) w
                    | Some APP_STATE_RUNNING => (0, w)
                    | _ => os_call (kit_app_start name) w
                    end in
      if negb (r =? 0) then Some (-1, w) else
      to ← app_kit_find_ctx (Some name) w;
      w ← match to with Some _ => app_kit_focus to w | None => Some w end;
      Some (0, snd (os_call (kit_app_suspend own) w))
    end
  | _, _ => Some (-1, w)
  end.

Definition app_kit_next_sleep_ms (app : option nat) w : option Z :=
  match app with
  | None => Some 1
  | Some a =>
    c ← ctx_at a w;
    d ← desc_of c w;
    let o := os (kit w) in
    let wait :=
      if cx_paced c then
        let fps := match d with
                   | Some d => if 0 <? ad_fps d then ad_fps d else ARDUBOT_DEFAULT_FPS
                   | None => ARDUBOT_DEFAULT_FPS
                   end in
        let wait := if 0 <? fps then 1000 / fps else 1 in
        if wait =? 0 then 1 else wait
      else if 0 <? cx_every_ms c then cx_every_ms c else 60000 in
    let wait := if header_app_visible o && (0 <? header_height) && (cx_mode c =? APP_UI_MODE_UI) && (1000 <? wait)
                then 1000 else wait in
    Some (if notify_needs_present o && (16 <? wait) then 16 else wait)
  end.

(** ** The code of the applications *)

(** A call of the kit.  [CSleepPace] is the writing of the pace fields by app_helper_start. *)
Inductive kit_call :=
  | CBind (gpio_ok : bool) (app : option nat) (key : Z) (fn : option Fn) (user : Z)
  | CUiBind (gpio_ok : bool) (app : option nat) (key : Z) (fn : option Fn) (user : Z)
  | CSetDemand (app : option nat) (demand : Z) | COpen (from : option nat) (name : option (list Z))
  | CSwitch (name : option (list Z)) | CRequestExit (app : option nat) | CRequestStop (name : option (list Z))
  | CWake (app : option nat) | CWakeForeground | CMarkDirty (app : option nat)
  | CPace (app : nat) (paced : bool) (every_ms : Z) | COs (f : W → W).

Definition do_call (x : kit_call) w : option world :=
  match x with
  | CBind gpio_ok app key fn user => snd <$> app_bind_key gpio_ok app key fn user w
  | CUiBind gpio_ok app key fn user => snd <$> app_ui_bind_key gpio_ok app key fn user w
  | CSetDemand app demand => snd <$> app_kit_set_demand app demand w
  | COpen from name => snd <$> app_open from name w
  | CSwitch name => snd <$> app_kit_switch name w
  | CRequestExit app => app_request_exit app w
  | CRequestStop name => snd <$> app_kit_request_stop name w
  | CWake app => app_kit_wake app w
  | CWakeForeground => app_kit_wake_foreground w
  | CMarkDirty app => app_mark_dirty app w
  | CPace app paced every_ms => ctx_upd app (set_pace paced every_ms) w
  | COs f => Some (with_os (f (os (kit w))) w)
  end.
Fixpoint do_calls (l : list kit_call) w : option world :=
  match l with [] => Some w | x :: l => w ← do_call x w; do_calls l w end.

(** What a function of an app does, given the context and the user pointer; the other callbacks
    of the pins, and whether the notification service takes a key. *)
Class AppCode := {
  app_calls : Fn → nat → Z → world → list kit_call;
  other_calls : Fn → Z → world → list kit_call;
  takes_key : Z → bool → world → bool
}.
Context `{AppCode}.

Definition run_app (f : Fn) (app : nat) (user : Z) w : option world := do_calls (app_calls f app user w) w.
Definition run_hook (f : option Fn) (app : nat) w : option world :=
  match f with Some f => run_app f app 0 w | None => Some w end.

(** [kit_key_trampoline] and [ui_key_trampoline] *)
Definition kit_key_trampoline (ctx : nat) (i : Z) w : option world :=
  c ← ctx_at ctx w;
  b ← rd (cx_keys c) i;
  match kb_fn b, kb_app b with
  | Some f, Some app =>
    fg ← app_kit_is_foreground (Some app) w;
    if fg : bool then run_app f app (kb_user b) w else Some w
  | _, _ => Some w
  end.

#[export] Instance kit_pins : @GpioCode kit_cb kit_state := {|
  run_pin cb pin w :=
    match cb with
    | KitKey ctx i => kit_key_trampoline ctx i w
    | UiKey ctx i => kit_key_trampoline ctx i w
    | OtherCb f => do_calls (other_calls f pin w) w
    end;
  run_level cb pin level w :=
    match cb with OtherCb f => do_calls (other_calls f pin w) w | _ => Some w end;
  notify_on_key key pressed w := (takes_key key pressed w, w)
|}.

Definition handle_key (key : Z) (pressed : bool) w : option world := sim_gpio_handle_key key pressed w.

(** ** Running an app *)

Definition fresh_ctx (desc : nat) : app_ctx :=
  mk_ctx true true (Some desc) (replicate (Z.to_nat APP_KIT_MAX_KEYS) binding_zero) 0
    (if 64 <? display_height then APP_UI_MODE_UI else APP_UI_MODE_GAME) 0 false None false 0 None false.

(** Up to the loop; [ctx] is the place on the stack of the task, [display_ok] the display. *)
Definition kit_enter (desc : option nat) (ctx : nat) (display_ok : bool) w : option world :=
  match desc with
  | None => Some w
  | Some d =>
    x ← descs (kit w) !! d;
    if negb display_ok then Some w else
    let w := with_ctxs (<[ctx := fresh_ctx d]> (ctxs (kit w))) w in
    let w := match ad_name x with
             | Some n => if str_eq n APP_KIT_HOME_NAME then with_home (Some ctx) w else w
             | None => w
             end in
    w ← app_kit_register_ctx (ad_name x) (Some ctx) w;
    w ← app_kit_focus (Some ctx) w;
    w ← ctx_upd ctx (set_run_task (fst <$> task_get_current (os (kit w)))) w;
    match ad_on_init x with
    | Some f => w ← run_app f ctx 0 w; app_kit_remap_keys (Some ctx) w
    | None => Some w
    end
  end.

(** One round of the loop: what the task sleeps, or [None] when the loop ends. *)
Definition kit_frame (ctx : nat) w : option (option Z * world) :=
  c ← ctx_at ctx w;
  if negb (cx_running c && negb (cx_retired c)) then Some (None, w) else
  d ← desc_of c w;
  let name := x ← d; ad_name x in
  found ← app_kit_find_ctx name w;
  w ← (if bool_decide (found = Some ctx) && negb (bool_decide (g_fg (kit w) = Some ctx)) then
         match name with
         | Some n =>
           match app_state n (os (kit w)) with
           | Some APP_STATE_RUNNING => app_kit_focus (Some ctx) w
           | _ => Some w
           end
         | None => Some w
         end
       else Some w);
  let w := with_os (notify_pump (os (kit w))) w in
  w ← (if notify_needs_present (os (kit w)) then ctx_upd ctx (set_dirty true) w else Some w);
  c ← ctx_at ctx w;
  if cx_retired c || negb (cx_running c) then Some (None, w) else
  w ← run_hook (x ← d; ad_on_frame x) ctx w;
  c ← ctx_at ctx w;
  if negb (cx_running c) then Some (None, w) else
  wait ← app_kit_next_sleep_ms (Some ctx) w;
  Some (Some wait, w).

(** After the loop: the context ends with the run. *)
Definition kit_leave (ctx : nat) w : option world :=
  c ← ctx_at ctx w;
  d ← desc_of c w;
  let name := x ← d; ad_name x in
  w ← run_hook (x ← d; ad_on_cleanup x) ctx w;
  w ← app_kit_unregister_ctx name w;
  w ← drop_focus ctx w;
  let w := if bool_decide (g_home (kit w) = Some ctx) then with_home None w else w in
  w ← app_kit_return_home name w;
  Some (with_ctxs (delete ctx (ctxs (kit w))) w).
End AppKit.
Arguments kit_state : clear implicits.
Arguments kit_cb : clear implicits.
Arguments app_desc_t : clear implicits.
Arguments app_ctx : clear implicits.
