(* ===== verification/AppKitThm.v ===== *)
(** * Focus: contexts in use are live, and only the app in front has a demand *)

From Stdlib Require Import ZArith Lia String.
From stdpp Require Import base tactics option numbers fin_maps gmap list.
From S2P Require Import Prelude.
From S2P Require Import CString.
From S2P Require Import PowerGovernor.
From S2P Require Import Tables.
From S2P Require Import App.
From S2P Require Import Notify.
From S2P Require Import SimGpio.
From S2P Require Import AppKit.

Section AppKitThm.
Context {Fn W : Type} `{KitOs W}.
Abbreviation world := (gpio_state (kit_cb Fn) (kit_state Fn W)).
Abbreviation app_ctx := (app_ctx Fn).
Abbreviation kit_call := (@kit_call Fn W).
Implicit Types (w : world) (k : kit_state Fn W) (c : app_ctx) (o : W).

(** What is seen of the tasks and the governor: the demand of a task ([POWER_DEMAND_NORMAL] when
    none was ever set), and the demand of the foreground. *)
Class KitOsLaws := {
  hint : nat → W → Z;
  fg_demand : W → Z;
  is_idle : nat → Prop;
  set_hint t t' d o : hint t' (kit_set_demand t d o) = if decide (t = t') then d else hint t' o;
  set_hint_fg t d o : fg_demand (kit_set_demand t d o) = fg_demand o;
  set_foreground_hint t d o : hint t (kit_set_foreground d o) = hint t o;
  set_foreground_fg d o : fg_demand (kit_set_foreground d o) = d;
  start_calm n t o : hint t (kit_app_start n o).2 = hint t o ∧ fg_demand (kit_app_start n o).2 = fg_demand o;
  resume_calm n t o : hint t (kit_app_resume n o).2 = hint t o ∧ fg_demand (kit_app_resume n o).2 = fg_demand o;
  suspend_calm n t o : hint t (kit_app_suspend n o).2 = hint t o ∧ fg_demand (kit_app_suspend n o).2 = fg_demand o;
  wake_calm p z t o : hint t (task_set_wake p z o) = hint t o ∧ fg_demand (task_set_wake p z o) = fg_demand o;
  pump_calm t o : hint t (notify_pump o) = hint t o ∧ fg_demand (notify_pump o) = fg_demand o
}.
Context `{!KitOsLaws}.

Definition calm (o o' : W) : Prop := (∀ t, hint t o' = hint t o) ∧ fg_demand o' = fg_demand o.

(** ** The invariant *)

Definition demand_of c : Z := if cx_demand_set c then cx_demand c else POWER_DEMAND_NORMAL.

Record ctx_ok (ds : gmap nat (app_desc_t Fn)) (a : nat) c : Prop := {
  ok_keys : length (cx_keys c) = 8%nat ∧ 0 <= cx_key_count c <= 8;
  ok_desc : ∃ d x, cx_desc c = Some d ∧ ds !! d = Some x;
  ok_demand : power_set_demand_ok (demand_of c) = true;
  ok_bindings : Forall (λ b, ∀ a', kb_app b = Some a' → a' = a) (cx_keys c)
}.

(** The foreground and its demand: the governor and the task of the app in front have it, every
    other task has the normal one. *)
Definition focus_ok (fg : option app_ctx) o : Prop :=
  fg_demand o = match fg with Some c => demand_of c | None => POWER_DEMAND_NORMAL end ∧
  (∀ c t, fg = Some c → cx_demand_task c = Some t → hint t o = demand_of c) ∧
  (∀ t, hint t o ≠ POWER_DEMAND_NORMAL → is_idle t ∨ ∃ c, fg = Some c ∧ cx_demand_task c = Some t).

Definition live k (a : nat) : Prop := is_Some (ctxs k !! a).
Definition live_opt k (app : option nat) : Prop := ∀ a, app = Some a → live k a.
Definition fg_ctx k : option app_ctx := a ← g_fg k; ctxs k !! a.

(** No two contexts share a descriptor: an app runs once. *)
Definition apart (m : gmap nat app_ctx) : Prop :=
  ∀ a b c d, m !! a = Some c → m !! b = Some d → cx_desc c = cx_desc d → a = b.

(** The registry: eight places, names once each, and a context under the name of its app. *)
Definition ctx_name k c : option (list Z) := d ← cx_desc c; x ← descs k !! d; ad_name x.
Definition entry_ok k (e : option (list Z) * option nat) : Prop :=
  ∀ a, e.2 = Some a → ∃ c, ctxs k !! a = Some c ∧ is_Some e.1 ∧ ctx_name k c = e.1.
Definition reg_ok k : Prop :=
  length (g_ctx_reg k) = 8%nat ∧ Forall (entry_ok k) (g_ctx_reg k) ∧ NoDup (omap fst (g_ctx_reg k)).

Record kit_ok k : Prop := {
  ok_fg : live_opt k (g_fg k);
  ok_home : live_opt k (g_home k);
  ok_reg : reg_ok k;
  ok_ctxs : map_Forall (ctx_ok (descs k)) (ctxs k);
  ok_apart : apart (ctxs k);
  ok_focus : focus_ok (fg_ctx k) (os k)
}.
Definition inv w : Prop := blen (g_pins w) = 64 ∧ blen (g_hal_pins w) = 64 ∧ kit_ok (kit w).

(** What a call keeps: the invariant, which contexts and descriptors there are, and that the
    callbacks of the pins lead to live contexts, when they do. *)
Definition cb_ok k (cb : kit_cb Fn) : Prop :=
  match cb with KitKey a i | UiKey a i => live k a ∧ 0 <= i < 8 | OtherCb _ => True end.
Definition wired w : Prop := Forall (λ hp, ∀ cb, hp_callback hp = Some cb → cb_ok (kit w) cb) (g_hal_pins w).
Definition same_live w w' : Prop :=
  cx_desc <$> ctxs (kit w') = cx_desc <$> ctxs (kit w) ∧ descs (kit w') = descs (kit w) ∧ (wired w → wired w').
Definition keeps w (x : option world) : Prop := ∃ w', x = Some w' ∧ inv w' ∧ same_live w w'.

Lemma same_live_refl w : same_live w w.
Proof. done. Qed.
Lemma same_live_trans w1 w2 w3 : same_live w1 w2 → same_live w2 w3 → same_live w1 w3.
Proof. intros (H1 & H2 & H3) (H4 & H5 & H6). split; [congruence|]. split; [congruence|auto]. Qed.
Lemma same_live_live w w' a : same_live w w' → live (kit w) a → live (kit w') a.
Proof.
  intros [Hd _]. unfold live. rewrite <- !elem_of_dom. by rewrite <- (dom_fmap_L cx_desc), <- Hd, dom_fmap_L.
Qed.
Lemma same_live_opt w w' app : same_live w w' → live_opt (kit w) app → live_opt (kit w') app.
Proof. intros Hs Ha a ->. by eapply same_live_live, Ha. Qed.
Lemma wired_cb w w' :
  (∀ a, live (kit w) a → live (kit w') a) →
  (∀ hp, hp ∈ g_hal_pins w' → hp ∈ g_hal_pins w ∨ ∀ cb, hp_callback hp = Some cb → cb_ok (kit w) cb) →
  wired w → wired w'.
Proof.
  intros Hl Hp Hw. apply Forall_forall. intros hp Hin cb Hcb. unfold wired in Hw. rewrite Forall_forall in Hw.
  assert (cb_ok (kit w) cb) as Hok by (destruct (Hp hp Hin) as [?|Hx]; eauto).
  destruct cb; cbn in *; destruct_and?; auto.
Qed.
(** Changes that leave the callbacks alone. *)
Lemma same_live_intro w w' :
  cx_desc <$> ctxs (kit w') = cx_desc <$> ctxs (kit w) → descs (kit w') = descs (kit w) →
  g_hal_pins w' = g_hal_pins w → same_live w w'.
Proof.
  intros H1 H2 H3. split; [done|]. split; [done|]. apply wired_cb.
  - intros a. unfold live. rewrite <- !elem_of_dom. by rewrite <- (dom_fmap_L cx_desc), <- H1, dom_fmap_L.
  - intros hp. rewrite H3. by left.
Qed.
Lemma same_live_kit w w' : kit w' = kit w → g_hal_pins w' = g_hal_pins w → same_live w w'.
Proof. intros E1 E2. by apply same_live_intro; rewrite ?E1. Qed.

Lemma keeps_self w : inv w → keeps w (Some w).
Proof. intros Hw. by exists w. Qed.
Lemma keeps_bind w x (f : world → option world) :
  keeps w x → (∀ w', inv w' → same_live w w' → keeps w' (f w')) → keeps w (x ≫= f).
Proof.
  intros (w1 & -> & Hi & Hs) Hf. cbn. destruct (Hf w1 Hi Hs) as (w2 & -> & Hi2 & Hs2).
  exists w2. split; [done|]. split; [done|]. by eapply same_live_trans.
Qed.

(** ** Changes of the pins *)

Lemma upd_pin_ok pin f w :
  inv w → in_range pin = true →
  ∃ w', upd_pin pin f w = Some w' ∧ inv w' ∧ kit w' = kit w ∧ g_hal_pins w' = g_hal_pins w.
Proof.
  intros (Hp & Hh & Hk) Hr. unfold in_range, MAX_GPIO_PINS in Hr. bool_hyps. unfold upd_pin.
  destruct (rd_ok (g_pins w) pin) as [p ->]; [lia|]. cbn [mbind option_bind]. rewrite wr_ok by lia. cbn [mbind option_bind].
  eexists. split; [done|]. split; [|done]. split; [|done]. cbn. unfold blen in *. by rewrite length_insert.
Qed.
Lemma upd_hal_ok pin f w :
  inv w → in_range pin = true →
  (∀ p, p ∈ g_hal_pins w → hp_callback (f p) = hp_callback p ∨ ∀ cb, hp_callback (f p) = Some cb → cb_ok (kit w) cb) →
  ∃ w', upd_hal pin f w = Some w' ∧ inv w' ∧ kit w' = kit w ∧ same_live w w'.
Proof.
  intros (Hp & Hh & Hk) Hr Hf. unfold in_range, MAX_GPIO_PINS in Hr. bool_hyps. unfold upd_hal.
  destruct (rd_ok (g_hal_pins w) pin) as [p Ep]; [lia|]. rewrite Ep. cbn [mbind option_bind]. rewrite wr_ok by lia. cbn [mbind option_bind].
  eexists. split; [done|]. split; [|split; [done|]].
  { split; [done|]. split; [|done]. cbn. unfold blen in *. by rewrite length_insert. }
  split; [done|]. split; [done|]. intros Hw. unfold wired in *. cbn. apply Forall_insert; [done|].
  rewrite rd_lookup in Ep by lia. apply list_elem_of_lookup_2 in Ep. intros cb Hcb. rewrite Forall_forall in Hw.
  destruct (Hf p Ep) as [E|E]; [|by apply E]. rewrite E in Hcb. by eapply Hw.
Qed.

Lemma map_key_ok key pin b w :
  inv w → ∃ w', sim_gpio_set_key_mapping key pin b w = Some w' ∧ inv w' ∧ kit w' = kit w ∧ same_live w w'.
Proof.
  intros Hw. unfold sim_gpio_set_key_mapping. destruct (in_range pin) eqn:Er; cbn [negb]; [|by exists w].
  destruct (upd_pin_ok pin (λ p, if b then mk_pin (gp_registered p) (gp_level p) key (gp_key_released p)
     else mk_pin (gp_registered p) (gp_level p) (gp_key_pressed p) key) w Hw Er) as (w' & E & Hw' & Ek & Eh).
  exists w'. split; [done|]. split; [done|]. split; [done|]. by apply same_live_kit.
Qed.

Lemma button_ok gpio_ok btn w :
  inv w → bt_on_release btn = None → (∀ cb, bt_on_press btn = Some cb → cb_ok (kit w) cb) →
  ∃ r w', app_button_init gpio_ok btn w = Some (r, w') ∧ inv w' ∧ kit w' = kit w ∧ same_live w w'.
Proof.
  intros Hw Hrel Hcb. unfold app_button_init, sim_gpio_register.
  assert (∃ r w1, (if negb (in_range (bt_pin btn)) then Some (-1, w)
      else s ← upd_pin (bt_pin btn) (set_registered true false) w; Some (0, s)) = Some (r, w1) ∧ inv w1 ∧ kit w1 = kit w ∧
      same_live w w1) as (r & w1 & -> & Hw1 & E1 & Hs1).
  { destruct (in_range (bt_pin btn)) eqn:Er; cbn [negb]; [|by do 2 eexists].
    destruct (upd_pin_ok (bt_pin btn) (set_registered true false) w Hw Er) as (w' & -> & Hw' & Ek & Eh).
    do 2 eexists. split; [done|]. split; [done|]. split; [done|]. by apply same_live_kit. }
  cbn [mbind option_bind]. destruct gpio_ok; cbn [negb]; [|by do 2 eexists].
  destruct (map_key_ok (bt_key btn) (bt_pin btn) true w1 Hw1) as (w2 & -> & Hw2 & E2 & Hs2). cbn [mbind option_bind].
  assert (same_live w w2) as Hs by by eapply same_live_trans. assert (kit w2 = kit w) as Ek by congruence.
  rewrite Hrel. destruct (bt_on_press btn) as [f|]; cbn [mbind option_bind]; [|by do 2 eexists].
  unfold sim_gpio_register_hal_gpio_with_trigger.
  set (cb := match bt_trigger btn with HAL_GPIO_IRQ_FALLING => _ | _ => _ end).
  destruct (in_range (bt_pin btn)) eqn:Er; cbn [negb mbind option_bind]; [|by do 2 eexists].
  destruct (upd_hal_ok (bt_pin btn) (λ _, mk_hal_pin true cb (bt_trigger btn) false) w2 Hw2 Er) as (w3 & -> & Hw3 & E3 & Hs3).
  { intros p _. right. cbn. rewrite Ek. intros g Hg. apply Hcb. unfold cb in Hg. by destruct (bt_trigger btn). }
  cbn [mbind option_bind]. do 2 eexists. split; [done|]. split; [done|]. split; [congruence|]. by eapply same_live_trans.
Qed.

(** ** Changes of one context, and of the rest of the system *)

Lemma ctx_of w a : live (kit w) a → ∃ c, ctx_at a w = Some c.
Proof. intros [c Hc]. by exists c. Qed.

Lemma descs_upd (m : gmap nat app_ctx) a c c' :
  m !! a = Some c → cx_desc c' = cx_desc c → cx_desc <$> <[a := c']> m = cx_desc <$> m.
Proof. intros Hc Ed. rewrite fmap_insert, Ed. apply insert_id. by rewrite lookup_fmap, Hc. Qed.

Lemma apart_upd m a c c' : apart m → m !! a = Some c → cx_desc c' = cx_desc c → apart (<[a := c']> m).
Proof.
  intros Hm Hc Ed x y cx cy Hx Hy E.
  apply (Hm x y (if decide (x = a) then c else cx) (if decide (y = a) then c else cy)).
  - destruct (decide (x = a)) as [->|Hne]; [done|]. by rewrite lookup_insert_ne in Hx.
  - destruct (decide (y = a)) as [->|Hne]; [done|]. by rewrite lookup_insert_ne in Hy.
  - destruct (decide (x = a)) as [->|Hnx], (decide (y = a)) as [->|Hny]; try done;
      rewrite ?lookup_insert_eq in *; simplify_eq; congruence.
Qed.

Lemma reg_upd k k' a c c' :
  reg_ok k → ctxs k !! a = Some c → ctxs k' = <[a := c']> (ctxs k) → cx_desc c' = cx_desc c → descs k' = descs k →
  g_ctx_reg k' = g_ctx_reg k → reg_ok k'.
Proof.
  intros (H1 & H2 & H3) Hc Em Ed Eds Er. split; [by rewrite Er|]. rewrite Er. split; [|done].
  eapply Forall_impl; [exact H2|]. intros e He b Hb. destruct (He b Hb) as (d & Hd & Hn & En). rewrite Em.
  destruct (decide (b = a)) as [->|Hne].
  - exists c'. rewrite lookup_insert_eq. split; [done|]. split; [done|]. simplify_eq.
    by rewrite <- En; unfold ctx_name; rewrite Ed, Eds.
  - exists d. rewrite lookup_insert_ne by done. split; [done|]. split; [done|]. by rewrite <- En; unfold ctx_name; rewrite Eds.
Qed.

Lemma ctx_upd_ok a f w c :
  inv w → ctx_at a w = Some c → ctx_ok (descs (kit w)) a (f c) → cx_desc (f c) = cx_desc c →
  (g_fg (kit w) = Some a → demand_of (f c) = demand_of c ∧ cx_demand_task (f c) = cx_demand_task c) →
  ∃ w', ctx_upd a f w = Some w' ∧ inv w' ∧ same_live w w' ∧ ctx_at a w' = Some (f c) ∧
    os (kit w') = os (kit w) ∧ g_fg (kit w') = g_fg (kit w) ∧ g_home (kit w') = g_home (kit w) ∧
    g_ctx_reg (kit w') = g_ctx_reg (kit w).
Proof.
  intros (Hp & Hh & Hk) Ec Hc Ed Hfg. unfold ctx_upd. rewrite Ec. cbn [mbind option_bind].
  set (w' := with_ctxs _ w). exists w'. split; [done|].
  assert (same_live w w') as Hs.
  { apply same_live_intro; [|done|done]. cbn. by apply descs_upd with c. }
  split; [|split; [done|split; [|done]]].
  2:{ unfold ctx_at. cbn. by rewrite lookup_insert_eq. }
  split; [done|]. split; [done|]. destruct Hk as [Hf Hho Hr Hcs Hap Hfo]. split.
  - by apply (same_live_opt _ _ _ Hs).
  - by apply (same_live_opt _ _ _ Hs).
  - by apply (reg_upd (kit w) (kit w') a c (f c)).
  - cbn. by apply map_Forall_insert_2.
  - by apply apart_upd with c.
  - unfold fg_ctx in *. cbn. destruct (g_fg (kit w)) as [b|] eqn:Efg; [|done]. cbn in *.
    destruct (decide (b = a)) as [->|Hne]; [|by rewrite lookup_insert_ne].
    rewrite lookup_insert_eq. unfold ctx_at in Ec. rewrite Ec in Hfo. destruct (Hfg eq_refl) as [E1 E2].
    destruct Hfo as (H1 & H2 & H3). split; [by rewrite E1|]. split.
    + intros d t [= <-] Et. rewrite E1. apply (H2 c); [done|]. by rewrite <- E2.
    + intros t Ht. destruct (H3 t Ht) as [?|(d & [= <-] & Et)]; [by left|]. right. exists (f c). by rewrite E2.
Qed.

Lemma ctx_keep f ds a c :
  ctx_ok ds a c → cx_keys (f c) = cx_keys c → cx_key_count (f c) = cx_key_count c → cx_desc (f c) = cx_desc c →
  demand_of (f c) = demand_of c → ctx_ok ds a (f c).
Proof. intros [H1 H2 H3 H4] E1 E2 E3 E4. by split; rewrite ?E1, ?E2, ?E3, ?E4. Qed.

Lemma inv_ctx w a c : inv w → ctx_at a w = Some c → ctx_ok (descs (kit w)) a c.
Proof. intros (_ & _ & Hk) Hc. by apply (ok_ctxs _ Hk). Qed.

(** Writing a field that is neither keys nor demand. *)
Lemma ctx_field_ok a f w :
  inv w → live (kit w) a →
  (∀ c, cx_keys (f c) = cx_keys c ∧ cx_key_count (f c) = cx_key_count c ∧ cx_desc (f c) = cx_desc c ∧
        demand_of (f c) = demand_of c ∧ cx_demand_task (f c) = cx_demand_task c) →
  keeps w (ctx_upd a f w).
Proof.
  intros Hw Ha Hf. destruct (ctx_of w a Ha) as [c Ec]. destruct (Hf c) as (E1 & E2 & E3 & E4 & E5).
  destruct (ctx_upd_ok a f w c Hw Ec) as (w' & E & Hw' & Hs & _); [by apply (ctx_keep f); try done; eapply inv_ctx|done|done|].
  by exists w'.
Qed.

Lemma os_calm o' w : inv w → calm (os (kit w)) o' → inv (with_os o' w).
Proof.
  intros (Hp & Hh & Hk) [Hhint Hfgd]. split; [done|]. split; [done|]. destruct Hk as [Hf Hho Hr Hcs Hap Hfo].
  split; try done. destruct Hfo as (H1 & H2 & H3). unfold fg_ctx in *. cbn in *. split; [by rewrite Hfgd|]. split.
  - intros c t Hc Ht. rewrite Hhint. by apply H2.
  - intros t. rewrite Hhint. apply H3.
Qed.

Lemma os_call_ok f w :
  inv w → (∀ o, calm o (f o).2) →
  inv (snd (os_call f w)) ∧ same_live w (snd (os_call f w)) ∧ g_fg (kit (snd (os_call f w))) = g_fg (kit w).
Proof.
  intros Hw Hf. unfold os_call. pose proof (Hf (os (kit w))) as Hc. destruct (f (os (kit w))) as [r o'].
  split; [by apply os_calm|]. done.
Qed.
Lemma start_keeps n o : calm o (kit_app_start n o).2.
Proof. split; [intros t; apply start_calm|apply (start_calm n 0)]. Qed.
Lemma resume_keeps n o : calm o (kit_app_resume n o).2.
Proof. split; [intros t; apply resume_calm|apply (resume_calm n 0)]. Qed.
Lemma suspend_keeps n o : calm o (kit_app_suspend n o).2.
Proof. split; [intros t; apply suspend_calm|apply (suspend_calm n 0)]. Qed.
Hint Resolve start_keeps resume_keeps suspend_keeps : core.

(** ** Focus *)

Definition hint_os (task : option nat) (d : Z) o : W :=
  match task with Some t => if power_set_demand_ok d then kit_set_demand t d o else o | None => o end.
Lemma hint_task_os task d w : hint_task task d w = with_os (hint_os task d (os (kit w))) w.
Proof. unfold hint_task, hint_os. destruct task as [t|]; [destruct (power_set_demand_ok d); [done|]|]; by destruct w as [? ? ? []]. Qed.

Lemma hint_os_spec task d o t :
  power_set_demand_ok d = true → hint t (hint_os task d o) = if decide (task = Some t) then d else hint t o.
Proof.
  intros Hd. unfold hint_os. destruct task as [u|]; [|done]. rewrite Hd, set_hint. by repeat case_decide; simplify_eq.
Qed.
Lemma hint_os_fg task d o : fg_demand (hint_os task d o) = fg_demand o.
Proof. unfold hint_os. destruct task as [t|]; [|done]. destruct (power_set_demand_ok d); [apply set_hint_fg|done]. Qed.

(** Giving the demand of [c] to the governor and the task. *)
Definition publish_os c o : W := kit_set_foreground (demand_of c) (hint_os (cx_demand_task c) (demand_of c) o).
Lemma publish_ok c c' o :
  power_set_demand_ok (demand_of c) = true → demand_of c' = demand_of c → cx_demand_task c' = cx_demand_task c →
  (∀ t, hint t o ≠ POWER_DEMAND_NORMAL → is_idle t ∨ cx_demand_task c = Some t) →
  focus_ok (Some c') (publish_os c o).
Proof.
  intros Hd E1 E2 Ho. unfold publish_os. split; [by rewrite set_foreground_fg|]. split.
  - intros d t [= <-] Et. rewrite E2 in Et. rewrite set_foreground_hint, hint_os_spec by done. rewrite E1. by case_decide.
  - intros t Ht. rewrite set_foreground_hint, hint_os_spec in Ht by done. rewrite <- E2 in *. case_decide as Et.
    + right. by exists c'.
    + destruct (Ho t Ht) as [?|?]; [by left|]. right. by exists c'.
Qed.

Lemma normal_ok : power_set_demand_ok POWER_DEMAND_NORMAL = true.
Proof. done. Qed.

(** Taking the demand of the foreground back. *)
Lemma drop_ok c o :
  focus_ok (Some c) o → ∀ t, hint t (hint_os (cx_demand_task c) POWER_DEMAND_NORMAL o) ≠ POWER_DEMAND_NORMAL → is_idle t.
Proof.
  intros (_ & _ & H3) t. rewrite hint_os_spec by done. case_decide as E; [done|]. intros Ht.
  destruct (H3 t Ht) as [?|(d & [= <-] & Et)]; done.
Qed.

Lemma remap_from n i c w :
  inv w → length (cx_keys c) = 8%nat → 0 <= i → i + Z.of_nat n <= 8 →
  ∃ w', remap_loop n i c w = Some w' ∧ inv w' ∧ kit w' = kit w ∧ same_live w w'.
Proof.
  revert i w. induction n as [|n IH]; intros i w Hw Hl Hi Hn; cbn [remap_loop]; [by exists w|].
  destruct (rd_ok (cx_keys c) i) as [b ->]; [unfold blen; lia|]. cbn [mbind option_bind].
  destruct (map_key_ok (kb_key b) (kb_pin b) true w Hw) as (w1 & -> & Hw1 & E1 & Hs1). cbn [mbind option_bind].
  destruct (IH (i + 1) w1 Hw1 Hl) as (w' & -> & Hw' & E' & Hs'); [lia|lia|]. exists w'. split; [done|]. split; [done|].
  split; [congruence|]. by eapply same_live_trans.
Qed.

Lemma remap_ok a w : inv w → live (kit w) a → 
  ∃ w', app_kit_remap_keys (Some a) w = Some w' ∧ inv w' ∧ kit w' = kit w ∧ same_live w w'.
Proof.
  intros Hw Ha. unfold app_kit_remap_keys. destruct (ctx_of w a Ha) as [c Ec]. rewrite Ec. cbn [mbind option_bind].
  destruct (ok_keys _ _ _ (inv_ctx w a c Hw Ec)) as [Hl Hc]. apply remap_from; [done|done|lia|lia].
Qed.

(** A state that differs in the foreground and the rest of the system. *)
Lemma refocus_inv w fg o' :
  inv w → live_opt (kit w) fg → focus_ok (a ← fg; ctxs (kit w) !! a) o' → inv (with_os o' (with_fg fg w)).
Proof.
  intros (Hp & Hh & Hk) Hfg Ho. split; [done|]. split; [done|]. destruct Hk as [Hf Hho Hr Hcs Hap Hfo]. by split.
Qed.

Lemma focus_ok_some a w :
  inv w → live (kit w) a →
  ∃ w', app_kit_focus (Some a) w = Some w' ∧ inv w' ∧ same_live w w' ∧ g_fg (kit w') = Some a ∧
    g_home (kit w') = g_home (kit w) ∧ g_ctx_reg (kit w') = g_ctx_reg (kit w).
Proof.
  intros Hw Ha. destruct (ctx_of w a Ha) as [c Ec]. pose proof (inv_ctx w a c Hw Ec) as Hc.
  pose proof Hw as (_ & _ & Hk). pose proof (ok_focus _ Hk) as Hfo.
  assert (∃ o1, match g_fg (kit w) with
      | Some fg => if bool_decide (Some a = Some fg) then Some w else
                   c ← ctx_at fg w; Some (hint_task (cx_demand_task c) POWER_DEMAND_NORMAL w)
      | None => Some w end = Some (with_os o1 w) ∧
    ∀ t, hint t o1 ≠ POWER_DEMAND_NORMAL → is_idle t ∨ cx_demand_task c = Some t) as (o1 & E1 & Ho1).
  { unfold fg_ctx in Hfo. destruct (g_fg (kit w)) as [fg|] eqn:Efg.
    - destruct (ctx_of w fg) as [d Ed]; [by apply (ok_fg _ Hk)|]. unfold ctx_at in Ed. cbn in Hfo. rewrite Ed in Hfo.
      case_bool_decide as Ea.
      + exists (os (kit w)). split; [by destruct w as [? ? ? []]|]. intros t Ht. injection Ea as <-.
        unfold ctx_at in Ec. rewrite Ed in Ec. injection Ec as ->.
        destruct Hfo as (_ & _ & H3). destruct (H3 t Ht) as [?|(e & [= <-] & ?)]; [by left|by right].
      + unfold ctx_at. rewrite Ed. cbn [mbind option_bind]. rewrite hint_task_os. eexists. split; [done|].
        intros t Ht. left. by eapply drop_ok.
    - exists (os (kit w)). split; [by destruct w as [? ? ? []]|]. intros t Ht.
      destruct Hfo as (_ & _ & H3). destruct (H3 t Ht) as [?|(e & [=] & _)]. by left. }
  unfold app_kit_focus. rewrite E1. cbn [mbind option_bind]. unfold publish_focus_demand.
  change (ctx_at a (with_fg (Some a) (with_os o1 w))) with (ctx_at a w). rewrite Ec. cbn [mbind option_bind].
  fold (demand_of c). rewrite hint_task_os. unfold foreground_demand.
  set (w2 := with_os _ _). assert (w2 = with_os (publish_os c o1) (with_fg (Some a) w)) as E2 by (by destruct w as [? ? ? []]).
  assert (inv w2) as Hw2.
  { rewrite E2. apply refocus_inv; [done|by intros b [= <-]|]. cbn. unfold ctx_at in Ec. rewrite Ec.
    apply publish_ok; [apply Hc|done|done|done]. }
  assert (same_live w w2) as Hs2 by by rewrite E2.
  destruct (remap_ok a w2 Hw2) as (w3 & -> & Hw3 & E3 & Hs3); [by eapply same_live_live|]. cbn [mbind option_bind].
  unfold app_mark_dirty. destruct (ctx_upd_ok a (set_dirty true) w3 c Hw3) as (w' & -> & Hw' & Hs' & _ & _ & Efg' & Eho' & Ere').
  - unfold ctx_at. rewrite E3, E2. exact Ec.
  - rewrite E3, E2. by apply (ctx_keep (set_dirty true)).
  - done.
  - done.
  - exists w'. split; [done|]. split; [done|]. split; [|by rewrite Efg', Eho', Ere', E3, E2].
    by do 2 (eapply same_live_trans; [done|]).
Qed.

Lemma focus_keeps a w : inv w → live (kit w) a → keeps w (app_kit_focus (Some a) w).
Proof. intros Hw Ha. destruct (focus_ok_some a w Hw Ha) as (w' & E & Hw' & Hs & _). by exists w'. Qed.

Lemma focus_home_keeps w : inv w → keeps w (focus_home w).
Proof.
  intros Hw. unfold focus_home. destruct (g_home (kit w)) as [h|] eqn:Eh; [|by apply keeps_self].
  apply focus_keeps; [done|]. destruct Hw as (_ & _ & Hk). by apply (ok_home _ Hk).
Qed.

Lemma bring_home_keeps w : inv w → inv (bring_home w) ∧ same_live w (bring_home w).
Proof.
  intros Hw. unfold bring_home. destruct (app_state _ _) as [[]|]; try done;
    match goal with |- context [os_call ?f w] => destruct (os_call_ok f w Hw) as (H1 & H2 & _) end; auto.
Qed.

Lemma keeps_from w w1 x : same_live w w1 → keeps w1 x → keeps w x.
Proof. intros Hs (w' & E & Hw' & Hs'). exists w'. split; [done|]. split; [done|]. by eapply same_live_trans. Qed.

Lemma home_again_keeps w : inv w → keeps w (focus_home (bring_home w)).
Proof.
  intros Hw. destruct (bring_home_keeps w Hw) as [Hb Hs]. eapply keeps_from; [exact Hs|]. by apply focus_home_keeps.
Qed.

Lemma return_home_keeps leaving w : inv w → keeps w (app_kit_return_home leaving w).
Proof.
  intros Hw. unfold app_kit_return_home. destruct leaving as [l|].
  - destruct (str_eq l APP_KIT_HOME_NAME); [by apply keeps_self|]. destruct (app_state _ _); [|by apply keeps_self].
    by apply home_again_keeps.
  - destruct (app_state _ _); [|by apply keeps_self]. by apply home_again_keeps.
Qed.

Lemma find_ctx_ok name w :
  inv w → ∃ x, app_kit_find_ctx name w = Some x ∧ live_opt (kit w) x.
Proof.
  intros (_ & _ & Hk). unfold app_kit_find_ctx. destruct name as [n|]; [|by exists None].
  destruct (first (reg_has n) (g_ctx_reg (kit w))) as [i|] eqn:Ei; [|by exists None].
  destruct (first_some _ _ _ Ei) as (e & He & _). rewrite rd_nat, He. exists e.2. split; [done|].
  destruct (ok_reg _ Hk) as (_ & Hf & _). rewrite Forall_lookup in Hf. intros a Ha.
  destruct (Hf i e He a Ha) as (c & Hc & _). by exists c.
Qed.

Lemma name_ok w a c : inv w → ctx_at a w = Some c → ∃ n, name_of c w = Some n.
Proof.
  intros Hw Hc. destruct (ok_desc _ _ _ (inv_ctx w a c Hw Hc)) as (d & x & Ed & Ex). unfold name_of, desc_of.
  rewrite Ed, Ex. cbn. eauto.
Qed.

Lemma exit_keeps app w : inv w → live_opt (kit w) app → keeps w (app_request_exit app w).
Proof.
  intros Hw Ha. unfold app_request_exit. destruct app as [a|]; [|by apply keeps_self].
  destruct (ctx_of w a) as [c Ec]; [by apply Ha|]. rewrite Ec. cbn [mbind option_bind].
  destruct (name_ok w a c Hw Ec) as [n ->]. cbn [mbind option_bind].
  destruct n as [n|]; [|by apply focus_home_keeps]. destruct (str_eq n APP_KIT_HOME_NAME); [by apply focus_home_keeps|].
  apply keeps_bind; [by apply home_again_keeps|]. intros w1 Hw1 Hs1.
  destruct (os_call_ok (kit_app_suspend n) w1 Hw1 (suspend_keeps n)) as (Hw2 & Hs2 & _).
  destruct (os_call (kit_app_suspend n) w1) as [r w2]. cbn [snd] in *. eapply keeps_from; [exact Hs2|].
  destruct (negb (r =? 0)); [|by apply keeps_self]. apply ctx_field_ok; [done| |done].
  by eapply same_live_live, same_live_live, Ha.
Qed.

(** The foreground test is the test for the context in front: no two live contexts share a
    descriptor. *)
Lemma is_foreground_ok a w :
  inv w → live (kit w) a → app_kit_is_foreground (Some a) w = Some (bool_decide (g_fg (kit w) = Some a)).
Proof.
  intros Hw Ha. unfold app_kit_is_foreground. case_bool_decide as Ef; [done|].
  destruct (ctx_of w a Ha) as [c Ec]. rewrite Ec. cbn [mbind option_bind]. unfold app_kit_is_foreground_desc.
  destruct (ok_desc _ _ _ (inv_ctx w a c Hw Ec)) as (d & x & Ed & _). rewrite Ed.
  pose proof Hw as (_ & _ & Hk). destruct (g_fg (kit w)) as [fg|] eqn:Efg; [|done].
  destruct (ctx_of w fg) as [e Ee]; [by apply (ok_fg _ Hk)|]. rewrite Ee. cbn [mbind option_bind].
  case_bool_decide as Ede; [|done]. destruct Ef. f_equal. eapply (ok_apart _ Hk fg a e c); [done|done|congruence].
Qed.

Lemma set_demand_keeps app d w :
  inv w → live_opt (kit w) app → ∃ r w', app_kit_set_demand app d w = Some (r, w') ∧ inv w' ∧ same_live w w'.
Proof.
  intros Hw Ha. unfold app_kit_set_demand. destruct app as [a|]; [|by do 2 eexists].
  destruct (power_set_demand_ok d) eqn:Ed; cbn [negb]; [|by do 2 eexists].
  destruct (ctx_of w a) as [c Ec]; [by apply Ha|]. rewrite Ec. cbn [mbind option_bind].
  set (task := match cx_demand_task c, task_get_current _ with None, Some (t, false) => Some t | t, _ => t end).
  pose proof (inv_ctx w a c Hw Ec) as Hc. set (c' := set_demand d task c).
  assert (ctx_ok (descs (kit w)) a c') as Hc' by (destruct Hc; by split).
  unfold ctx_upd. rewrite Ec. cbn [mbind option_bind]. set (w1 := with_ctxs _ w).
  assert (app_kit_is_foreground (Some a) w1 = Some (bool_decide (g_fg (kit w) = Some a))) as ->.
  { rewrite <- (is_foreground_ok a w Hw) by by apply Ha. unfold app_kit_is_foreground.
    change (g_fg (kit w1)) with (g_fg (kit w)). case_bool_decide as Ef; [done|].
    assert (ctx_at a w1 = Some c') as -> by (unfold ctx_at; cbn; by rewrite lookup_insert_eq). rewrite Ec. cbn [mbind option_bind].
    change (cx_desc c') with (cx_desc c). unfold app_kit_is_foreground_desc. change (g_fg (kit w1)) with (g_fg (kit w)).
    destruct (cx_desc c); [|done]. destruct (g_fg (kit w)) as [fg|]; [|done].
    assert (fg ≠ a) by (intros ->; done). unfold ctx_at. cbn. by rewrite lookup_insert_ne. }
  cbn [mbind option_bind]. case_bool_decide as Ef.
  - rewrite hint_task_os. do 2 eexists. split; [done|].
    assert (same_live w w1) as Hs1.
    { apply same_live_intro; [|done|done]. cbn. by apply descs_upd with c. }
    split; [|exact Hs1]. destruct Hw as (Hp & Hh & Hk). split; [done|]. split; [done|].
    destruct Hk as [Hf Hho Hr Hcs Hap Hfo]. split; try by apply (same_live_opt _ _ _ Hs1).
    + by apply (reg_upd (kit w) (kit w1) a c c').
    + cbn. by apply map_Forall_insert_2.
    + by apply apart_upd with c.
    + unfold fg_ctx in *. cbn. rewrite Ef in *. cbn in *. rewrite lookup_insert_eq.
      unfold ctx_at in Ec. rewrite Ec in Hfo. destruct Hfo as (H1 & H2 & H3).
      apply (publish_ok c' c'); [done|done|done|]. intros t Ht.
      destruct (H3 t Ht) as [?|(e & [= <-] & Et)]; [by left|]. right. cbn. unfold task. by rewrite Et.
  - destruct (ctx_upd_ok a (set_demand d task) w c Hw Ec Hc') as (w' & E & Hw' & Hs' & _); [done|by intros ?|].
    unfold ctx_upd in E. rewrite Ec in E. injection E as <-. by do 2 eexists.
Qed.

(** Writing a binding: the keys of a context, all of it. *)
Lemma keys_upd_ok a c l n w :
  inv w → ctx_at a w = Some c → length l = 8%nat → 0 <= n <= 8 →
  Forall (λ b, ∀ a', kb_app b = Some a' → a' = a) l →
  ∃ w', ctx_upd a (set_keys l n) w = Some w' ∧ inv w' ∧ same_live w w' ∧ ctx_at a w' = Some (set_keys l n c).
Proof.
  intros Hw Ec Hl Hn Hb. pose proof (inv_ctx w a c Hw Ec) as [_ H2 H3 _].
  destruct (ctx_upd_ok a (set_keys l n) w c Hw Ec) as (w' & E & Hw' & Hs & Ec' & _); [by split|done|done|].
  by exists w'.
Qed.

Lemma next_pin_ok pin w : inv w → inv (with_next_pin pin w) ∧ same_live w (with_next_pin pin w).
Proof. intros (Hp & Hh & [? ? ? ? ? ?]). by split. Qed.

Lemma bind_keeps gpio_ok app key fn user w :
  inv w → live_opt (kit w) app →
  ∃ r w', app_bind_key gpio_ok app key fn user w = Some (r, w') ∧ inv w' ∧ same_live w w'.
Proof.
  intros Hw Ha. unfold app_bind_key. destruct app as [a|]; [|by do 2 eexists]. destruct fn as [f|]; [|by do 2 eexists].
  destruct (ctx_of w a) as [c Ec]; [by apply Ha|]. rewrite Ec. cbn [mbind option_bind].
  pose proof (inv_ctx w a c Hw Ec) as [[Hl Hn] _ _ Hb]. unfold APP_KIT_MAX_KEYS.
  destruct (Z.leb_spec 8 (cx_key_count c)) as [Hge|Hlt]; [by do 2 eexists|].
  rewrite wr_ok by (unfold blen; lia). cbn [mbind option_bind].
  set (pin := g_next_pin (kit w)). set (l := <[_ := _]> (cx_keys c)).
  assert (length l = 8%nat) as Hl' by (unfold l; by rewrite length_insert).
  assert (Forall (λ b, ∀ a', kb_app b = Some a' → a' = a) l) as Hb' by (apply Forall_insert; [done|by intros a' [= <-]]).
  destruct (next_pin_ok (pin + 1) w Hw) as [Hw0 Hs0]. set (w0 := with_next_pin (pin + 1) w) in *.
  destruct (keys_upd_ok a c l (cx_key_count c) w0 Hw0 Ec Hl') as (w1 & -> & Hw1 & Hs1 & Ec1); [lia|done|]. cbn [mbind option_bind].
  set (btn := mk_button pin key _ _ _). destruct (button_ok gpio_ok btn w1 Hw1) as (r & w2 & -> & Hw2 & E2 & Hs2'); [done| |].
  { intros cb [= <-]. split; [|lia]. by do 2 (eapply same_live_live; [done|]); apply Ha. }
  cbn [mbind option_bind]. assert (same_live w w2) as Hs2 by (by do 2 (eapply same_live_trans; [done|])).
  destruct (negb (r =? 0)); [by do 2 eexists|].
  assert (u32 (cx_key_count c + 1) = cx_key_count c + 1) as Eu by (rewrite wrap_id by (split; lia); done).
  destruct (keys_upd_ok a (set_keys l (cx_key_count c) c) l (u32 (cx_key_count c + 1)) w2 Hw2) as (w3 & -> & Hw3 & Hs3 & Ec3);
    [unfold ctx_at; by rewrite E2|done|lia|done|]. cbn [mbind option_bind].
  assert (same_live w w3) as Hsw3 by by eapply same_live_trans.
  rewrite (is_foreground_ok a w3 Hw3) by by eapply same_live_live, Ha. cbn [mbind option_bind].
  case_bool_decide; [|by do 2 eexists]. destruct (map_key_ok key pin true w3 Hw3) as (w4 & -> & Hw4 & E4 & Hs4).
  cbn [mbind option_bind]. do 2 eexists. split; [done|]. split; [done|]. by eapply same_live_trans.
Qed.

Lemma ui_bind_keeps gpio_ok app key fn user w :
  inv w → live_opt (kit w) app →
  ∃ r w', app_ui_bind_key gpio_ok app key fn user w = Some (r, w') ∧ inv w' ∧ same_live w w'.
Proof.
  intros Hw Ha. unfold app_ui_bind_key. destruct app as [a|]; [|by do 2 eexists]. destruct fn as [f|]; [|by do 2 eexists].
  destruct (ctx_of w a) as [c Ec]; [by apply Ha|]. rewrite Ec. cbn [mbind option_bind].
  pose proof (inv_ctx w a c Hw Ec) as [[Hl Hn] _ _ Hb]. unfold APP_KIT_MAX_KEYS.
  destruct (Z.leb_spec 8 (cx_key_count c)) as [Hge|Hlt]; [by do 2 eexists|].
  destruct (rd_ok (cx_keys c) (cx_key_count c)) as [b ->]; [unfold blen; lia|]. cbn [mbind option_bind].
  rewrite wr_ok by (unfold blen; lia). cbn [mbind option_bind]. set (l := <[_ := _]> (cx_keys c)).
  assert (length l = 8%nat) as Hl' by (unfold l; by rewrite length_insert).
  assert (Forall (λ b, ∀ a', kb_app b = Some a' → a' = a) l) as Hb' by (apply Forall_insert; [done|by intros a' [= <-]]).
  destruct (keys_upd_ok a c l (cx_key_count c) w Hw Ec Hl') as (w1 & -> & Hw1 & Hs1 & Ec1); [lia|done|]. cbn [mbind option_bind].
  set (pin := g_next_pin (kit w1)). destruct (next_pin_ok (pin + 1) w1 Hw1) as [Hw0 Hs0]. set (w0 := with_next_pin (pin + 1) w1) in *.
  set (btn := mk_button pin key _ _ _). destruct (button_ok gpio_ok btn w0 Hw0) as (r & w2 & -> & Hw2 & E2 & Hs2'); [done| |].
  { intros cb [= <-]. split; [|lia]. exact (same_live_live _ _ _ Hs0 (same_live_live _ _ _ Hs1 (Ha a eq_refl))). }
  cbn [mbind option_bind]. assert (same_live w w2) as Hs2 by (by do 2 (eapply same_live_trans; [done|])).
  destruct (negb (r =? 0)); [by do 2 eexists|].
  destruct (map_key_ok key pin true w2 Hw2) as (w3 & -> & Hw3 & E3 & Hs3). cbn [mbind option_bind].
  assert (u32 (cx_key_count c + 1) = cx_key_count c + 1) as Eu by (rewrite wrap_id by (split; lia); done).
  destruct (keys_upd_ok a (set_keys l (cx_key_count c) c) l (u32 (cx_key_count c + 1)) w3 Hw3) as (w4 & -> & Hw4 & Hs4 & _);
    [unfold ctx_at; rewrite E3, E2; exact Ec1|done|lia|done|]. cbn [mbind option_bind].
  do 2 eexists. split; [done|]. split; [done|]. by do 2 (eapply same_live_trans; [done|]).
Qed.

(** ** Switching *)

Lemma wake_keeps app w : inv w → live_opt (kit w) app → keeps w (app_kit_wake app w).
Proof.
  intros Hw Ha. unfold app_kit_wake. destruct app as [a|]; [|by apply keeps_self].
  destruct (ctx_of w a) as [c Ec]; [by apply Ha|]. rewrite Ec. cbn [mbind option_bind].
  destruct (cx_run_task c) as [t|]; [|by apply keeps_self]. destruct (_ && _); [|by apply keeps_self].
  eexists. split; [done|]. split; [|done]. apply os_calm; [done|]. split; [intros u; apply wake_calm|apply (wake_calm t _ 0)].
Qed.

Lemma drop_focus_ok a w :
  inv w → live (kit w) a → ∃ w', drop_focus a w = Some w' ∧ inv w' ∧ same_live w w' ∧ g_fg (kit w') ≠ Some a ∧
    g_home (kit w') = g_home (kit w) ∧ g_ctx_reg (kit w') = g_ctx_reg (kit w) ∧ ctxs (kit w') = ctxs (kit w).
Proof.
  intros Hw Ha. unfold drop_focus. case_bool_decide as Ef; [|by exists w].
  destruct (ctx_of w a Ha) as [c Ec]. rewrite Ec. cbn [mbind option_bind]. rewrite hint_task_os.
  eexists. split; [done|]. split; [|done].
  match goal with |- inv ?x => set (w' := x) end.
  assert (w' = with_os (kit_set_foreground POWER_DEMAND_NORMAL (hint_os (cx_demand_task c) POWER_DEMAND_NORMAL (os (kit w))))
    (with_fg None w)) as -> by (by destruct w as [? ? ? []]).
  apply refocus_inv; [done|done|]. cbn. pose proof Hw as (_ & _ & Hk). pose proof (ok_focus _ Hk) as Hfo.
  unfold fg_ctx in Hfo. rewrite Ef in Hfo. unfold ctx_at in Ec. cbn in Hfo. rewrite Ec in Hfo.
  split; [by rewrite set_foreground_fg|]. split; [done|]. intros t. rewrite set_foreground_hint. intros Ht. left. by eapply drop_ok.
Qed.

Lemma launch_ok name st w :
  inv w →
  let x := match st with
           | Some APP_STATE_SUSPENDED => os_call (kit_app_resume name) w
           | Some APP_STATE_RUNNING => (0, w)
           | _ => os_call (kit_app_start name) w
           end in
  inv x.2 ∧ same_live w x.2.
Proof.
  intros Hw. destruct (os_call_ok (kit_app_resume name) w Hw (resume_keeps name)) as (H1 & H2 & _).
  destruct (os_call_ok (kit_app_start name) w Hw (start_keeps name)) as (H3 & H4 & _). by destruct st as [[]|].
Qed.

Lemma focus_found name w :
  inv w → keeps w (to ← app_kit_find_ctx (Some name) w; match to with Some _ => app_kit_focus to w | None => Some w end).
Proof.
  intros Hw. destruct (find_ctx_ok (Some name) w Hw) as (to & -> & Hto). cbn [mbind option_bind].
  destruct to as [a|]; [|by apply keeps_self]. apply focus_keeps; [done|by apply Hto].
Qed.

(** The result of a call that also returns a code. *)
Definition keeps_code w (x : option (Z * world)) : Prop := ∃ r w', x = Some (r, w') ∧ inv w' ∧ same_live w w'.
Lemma keeps_code_snd w x : keeps_code w x → keeps w (snd <$> x).
Proof. intros (r & w' & -> & Hi & Hs). by exists w'. Qed.

Lemma switch_keeps name w : inv w → keeps_code w (app_kit_switch name w).
Proof.
  intros Hw. unfold app_kit_switch. destruct name as [n|]; [|by do 2 eexists].
  destruct (str_eq n []); [by do 2 eexists|]. destruct (app_state n (os (kit w))) as [st|]; [|by do 2 eexists].
  assert (∃ from, app_kit_foreground_name w = Some from) as [from ->].
  { unfold app_kit_foreground_name. pose proof Hw as (_ & _ & Hk). destruct (g_fg (kit w)) as [fg|] eqn:Efg; [|by eexists].
    destruct (ctx_of w fg) as [c Ec]; [by apply (ok_fg _ Hk)|]. rewrite Ec. cbn [mbind option_bind]. by eapply name_ok. }
  cbn [mbind option_bind]. pose proof (launch_ok n (Some st) w Hw) as Hx. cbv beta iota zeta in Hx.
  set (x := match st with APP_STATE_SUSPENDED => _ | APP_STATE_RUNNING => _ | _ => _ end) in *.
  destruct x as [r w1]. cbn [snd] in Hx. destruct Hx as [Hw1 Hs1]. destruct (negb (r =? 0)); [by do 2 eexists|].
  destruct (focus_found n w1 Hw1) as (w2 & E2 & Hw2 & Hs2).
  destruct (app_kit_find_ctx (Some n) w1) as [to|]; [|done]. cbn [mbind option_bind] in *. rewrite E2. cbn [mbind option_bind].
  assert (same_live w w2) as Hsw2 by by eapply same_live_trans.
  destruct from as [from|]; [|by do 2 eexists]. destruct (str_eq from n); [by do 2 eexists|].
  destruct (os_call_ok (kit_app_suspend from) w2 Hw2 (suspend_keeps from)) as (Hw3 & Hs3 & _).
  do 2 eexists. split; [done|]. split; [done|]. by eapply same_live_trans.
Qed.

Lemma open_keeps from name w : inv w → live_opt (kit w) from → keeps_code w (app_open from name w).
Proof.
  intros Hw Hf. unfold app_open. destruct from as [f|]; [|by do 2 eexists]. destruct name as [n|]; [|by do 2 eexists].
  destruct (ctx_of w f) as [c Ec]; [by apply Hf|]. rewrite Ec. cbn [mbind option_bind].
  destruct (name_ok w f c Hw Ec) as [own ->]. cbn [mbind option_bind]. destruct own as [own|]; [|by do 2 eexists].
  destruct (str_eq own n); [by do 2 eexists|].
  pose proof (launch_ok n (app_state n (os (kit w))) w Hw) as Hx. cbv zeta in Hx.
  set (x := match app_state n _ with Some APP_STATE_SUSPENDED => _ | Some APP_STATE_RUNNING => _ | _ => _ end) in *.
  destruct x as [r w1]. cbn [snd] in Hx. destruct Hx as [Hw1 Hs1]. destruct (negb (r =? 0)); [by do 2 eexists|].
  destruct (focus_found n w1 Hw1) as (w2 & E2 & Hw2 & Hs2).
  destruct (app_kit_find_ctx (Some n) w1) as [to|]; [|done]. cbn [mbind option_bind] in *. rewrite E2. cbn [mbind option_bind].
  destruct (os_call_ok (kit_app_suspend own) w2 Hw2 (suspend_keeps own)) as (Hw3 & Hs3 & _).
  do 2 eexists. split; [done|]. split; [done|]. by do 2 (eapply same_live_trans; [done|]).
Qed.

Lemma stop_keeps name w : inv w → keeps_code w (app_kit_request_stop name w).
Proof.
  intros Hw. unfold app_kit_request_stop. destruct name as [n|]; [|by do 2 eexists].
  destruct (str_eq n []); [by do 2 eexists|].
  destruct (find_ctx_ok (Some n) w Hw) as (ctx & -> & Hctx). cbn [mbind option_bind].
  destruct ctx as [a|]; [|by do 2 eexists]. destruct (app_state n (os (kit w))) as [st|]; [|by do 2 eexists].
  destruct (negb _); [by do 2 eexists|]. assert (live (kit w) a) as Ha by by apply Hctx.
  destruct (ctx_field_ok a (set_running false true) w Hw Ha) as (w1 & -> & Hw1 & Hs1); [done|]. cbn [mbind option_bind].
  destruct (drop_focus_ok a w1 Hw1) as (w2 & -> & Hw2 & Hs2 & _); [by eapply same_live_live|]. cbn [mbind option_bind].
  assert (same_live w w2) as Hsw2 by by eapply same_live_trans.
  match goal with |- context [if ?b then app_kit_return_home ?l ?x else Some ?x] =>
    assert (keeps x (if b then app_kit_return_home l x else Some x)) as (w3 & -> & Hw3 & Hs3) end.
  { destruct (bool_decide _); [by apply return_home_keeps|by apply keeps_self]. }
  cbn [mbind option_bind].
  assert (same_live w w3) as Hsw3 by by eapply same_live_trans.
  set (w4 := match app_state n _ with Some APP_STATE_SUSPENDED => _ | _ => _ end).
  assert (inv w4 ∧ same_live w3 w4) as [Hw4 Hs4].
  { destruct (os_call_ok (kit_app_resume n) w3 Hw3 (resume_keeps n)) as (? & ? & _). unfold w4.
    by destruct (app_state n (os (kit w3))) as [[]|]. }
  destruct (wake_keeps (Some a) w4 Hw4) as (w5 & -> & Hw5 & Hs5).
  { intros b [= <-]. eapply same_live_live; [|exact Ha]. by eapply same_live_trans. }
  cbn [mbind option_bind]. do 2 eexists. split; [done|]. split; [done|]. by do 2 (eapply same_live_trans; [done|]).
Qed.

(** ** The calls of applications *)

Definition call_ok k (x : kit_call) : Prop :=
  match x with
  | CBind _ app _ _ _ | CUiBind _ app _ _ _ | CSetDemand app _ | COpen app _ | CRequestExit app | CWake app
  | CMarkDirty app => live_opt k app
  | CPace app _ _ => live k app
  | COs f => ∀ o, calm o (f o)
  | _ => True
  end.
Lemma call_ok_live w w' x : same_live w w' → call_ok (kit w) x → call_ok (kit w') x.
Proof. intros Hs. destruct x; cbn; try done; intros Hx; first [exact (same_live_opt _ _ _ Hs Hx) | exact (same_live_live _ _ _ Hs Hx)]. Qed.

Lemma do_call_keeps x w : inv w → call_ok (kit w) x → keeps w (do_call x w).
Proof.
  intros Hw Hx. destruct x; cbn [do_call call_ok] in *.
  - by apply keeps_code_snd, bind_keeps.
  - by apply keeps_code_snd, ui_bind_keeps.
  - by apply keeps_code_snd, set_demand_keeps.
  - by apply keeps_code_snd, open_keeps.
  - by apply keeps_code_snd, switch_keeps.
  - by apply exit_keeps.
  - by apply keeps_code_snd, stop_keeps.
  - by apply wake_keeps.
  - apply wake_keeps; [done|]. destruct Hw as (_ & _ & Hk). apply Hk.
  - unfold app_mark_dirty. destruct app as [a|]; [|by apply keeps_self]. by apply ctx_field_ok; [|apply Hx|].
  - by apply ctx_field_ok.
  - eexists. split; [done|]. split; [|done]. apply os_calm; [done|apply Hx].
Qed.

Lemma do_calls_keeps l w : inv w → Forall (call_ok (kit w)) l → keeps w (do_calls l w).
Proof.
  revert w. induction l as [|x l IH]; intros w Hw Hl; [by apply keeps_self|]. apply Forall_cons in Hl as [Hx Hl]. cbn [do_calls].
  apply keeps_bind; [by apply do_call_keeps|]. intros w' Hw' Hs. apply IH; [done|].
  eapply Forall_impl; [exact Hl|]. intros y. by apply call_ok_live.
Qed.

(** ** Keys *)

Context `{!@AppCode Fn W}.

(** Applications give the kit pointers to live contexts only, and leave demands to the kit. *)
Class PoliteApps : Prop := {
  polite_app f a u w : live (kit w) a → Forall (call_ok (kit w)) (app_calls f a u w);
  polite_other f pin w : Forall (call_ok (kit w)) (other_calls f pin w)
}.
Context `{!PoliteApps}.

Lemma run_app_keeps f a u w : inv w → live (kit w) a → keeps w (run_app f a u w).
Proof. intros Hw Ha. by apply do_calls_keeps, polite_app. Qed.
Lemma run_hook_keeps f a w : inv w → live (kit w) a → keeps w (run_hook f a w).
Proof. intros Hw Ha. destruct f as [f|]; [by apply run_app_keeps|by apply keeps_self]. Qed.

Lemma trampoline_keeps a i w : inv w → live (kit w) a → 0 <= i < 8 → keeps w (kit_key_trampoline a i w).
Proof.
  intros Hw Ha Hi. unfold kit_key_trampoline. destruct (ctx_of w a Ha) as [c Ec]. rewrite Ec. cbn [mbind option_bind].
  destruct (inv_ctx w a c Hw Ec) as [[Hl _] _ _ Hb]. destruct (rd_ok (cx_keys c) i) as [b Eb]; [unfold blen; lia|].
  rewrite Eb. cbn [mbind option_bind]. destruct (kb_fn b) as [f|]; [|by apply keeps_self].
  destruct (kb_app b) as [a'|] eqn:Ea; [|by apply keeps_self].
  assert (a' = a) as ->.
  { rewrite rd_lookup in Eb by lia. rewrite Forall_lookup in Hb. by apply (Hb _ _ Eb). }
  rewrite is_foreground_ok by done. cbn [mbind option_bind]. case_bool_decide; [by apply run_app_keeps|by apply keeps_self].
Qed.

Lemma run_pin_keeps cb pin w : inv w → cb_ok (kit w) cb → keeps w (run_pin cb pin w).
Proof.
  intros Hw Hcb. destruct cb as [a i|a i|f]; cbn [run_pin kit_pins].
  1-2: destruct Hcb; by apply trampoline_keeps.
  by apply do_calls_keeps, polite_other.
Qed.

Lemma pin_edge_keeps pin level w : inv w → wired w → in_range pin = true → keeps w (pin_edge pin level w).
Proof.
  intros Hw Hwi Hr. unfold pin_edge. destruct (upd_pin_ok pin (set_level level) w Hw Hr) as (w1 & -> & Hw1 & E1 & Eh).
  cbn [mbind option_bind]. assert (same_live w w1) as Hs1 by by apply same_live_kit. eapply keeps_from; [exact Hs1|].
  apply keeps_bind.
  { destruct (g_callback w1) as [[]|]; try by apply keeps_self. by apply do_calls_keeps, polite_other. }
  intros w2 Hw2 Hs2. assert (wired w2) as Hwi2 by (apply Hs2, Hs1, Hwi). unfold hal_gpio_check_edge.
  pose proof Hr as Hr'. unfold in_range, MAX_GPIO_PINS in Hr'. bool_hyps. pose proof Hw2 as (_ & Hh & _).
  destruct (rd_ok (g_hal_pins w2) pin) as [hp Ehp]; [lia|]. rewrite Ehp. cbn [mbind option_bind].
  destruct (hp_registered hp); [|by apply keeps_self]. destruct (hp_callback hp) as [cb|] eqn:Ecb; [|by apply keeps_self].
  rewrite rd_lookup in Ehp by lia. unfold wired in Hwi2. rewrite Forall_lookup in Hwi2.
  apply keeps_bind.
  { destruct (edge _ _ _); [|by apply keeps_self]. apply run_pin_keeps; [done|]. by eapply Hwi2. }
  intros w3 Hw3 Hs3. destruct (upd_hal_ok pin (set_last level) w3 Hw3 Hr) as (w4 & -> & Hw4 & _ & Hs4); [by left|].
  by exists w4.
Qed.

Lemma key_loop_keeps n i key pressed w :
  inv w → wired w → 0 <= i → i + Z.of_nat n <= 64 → keeps w (key_loop n i key pressed w).
Proof.
  revert i w. induction n as [|n IH]; intros i w Hw Hwi Hi Hn; cbn [key_loop]; [by apply keeps_self|].
  pose proof Hw as (Hp & _ & _). destruct (rd_ok (g_pins w) i) as [p ->]; [lia|]. cbn [mbind option_bind].
  apply keeps_bind.
  - destruct (key_moves key pressed p); [|by apply keeps_self]. apply pin_edge_keeps; [done|done|].
    unfold in_range, MAX_GPIO_PINS. rewrite (proj2 (Z.ltb_ge _ _)), (proj2 (Z.leb_gt _ _)) by lia. done.
  - intros w' Hw' Hs. apply IH; [done|by apply Hs|lia|lia].
Qed.

Lemma handle_key_keeps key pressed w : inv w → wired w → keeps w (handle_key key pressed w).
Proof.
  intros Hw Hwi. unfold handle_key, sim_gpio_handle_key. destruct (sim_key_is_system key); cbn [negb].
  - by apply key_loop_keeps.
  - cbn [notify_on_key kit_pins]. destruct (takes_key key pressed w); [by apply keeps_self|by apply key_loop_keeps].
Qed.

(** ** Frames *)

Lemma desc_ok w a c : inv w → ctx_at a w = Some c → ∃ d, desc_of c w = Some d.
Proof.
  intros Hw Hc. destruct (ok_desc _ _ _ (inv_ctx w a c Hw Hc)) as (d & x & Ed & Ex). unfold desc_of.
  rewrite Ed, Ex. cbn. eauto.
Qed.

Lemma sleep_ok a w : inv w → live (kit w) a → ∃ z, app_kit_next_sleep_ms (Some a) w = Some z.
Proof.
  intros Hw Ha. unfold app_kit_next_sleep_ms. destruct (ctx_of w a Ha) as [c Ec]. rewrite Ec. cbn [mbind option_bind].
  destruct (desc_ok w a c Hw Ec) as [d ->]. cbn [mbind option_bind]. eauto.
Qed.

Definition keeps_frame w (x : option (option Z * world)) : Prop := ∃ r w', x = Some (r, w') ∧ inv w' ∧ same_live w w'.
Lemma keeps_frame_bind w x (f : world → option (option Z * world)) :
  keeps w x → (∀ w', inv w' → same_live w w' → keeps_frame w' (f w')) → keeps_frame w (x ≫= f).
Proof.
  intros (w1 & -> & Hi & Hs) Hf. cbn. destruct (Hf w1 Hi Hs) as (r & w2 & -> & Hi2 & Hs2).
  exists r, w2. split; [done|]. split; [done|]. by eapply same_live_trans.
Qed.

Lemma frame_keeps a w : inv w → live (kit w) a → keeps_frame w (kit_frame a w).
Proof.
  intros Hw Ha. unfold kit_frame. destruct (ctx_of w a Ha) as [c Ec]. rewrite Ec. cbn [mbind option_bind].
  destruct (negb (cx_running c && negb (cx_retired c))); [by do 2 eexists|].
  destruct (desc_ok w a c Hw Ec) as [d ->]. cbn [mbind option_bind].
  destruct (find_ctx_ok (x ← d; ad_name x) w Hw) as (found & -> & _). cbn [mbind option_bind].
  apply keeps_frame_bind.
  { destruct (_ && _); [|by apply keeps_self]. destruct (d ≫= _) as [n|]; [|by apply keeps_self].
    destruct (app_state n _) as [[]|]; try by apply keeps_self. by apply focus_keeps. }
  intros w1 Hw1 Hs1. assert (inv (with_os (notify_pump (os (kit w1))) w1)) as Hw2.
  { apply os_calm; [done|]. split; [intros t; apply pump_calm|apply (pump_calm 0)]. }
  set (w2 := with_os _ w1) in *. assert (same_live w w2) as Hs2 by (eapply same_live_trans; [exact Hs1|done]).
  assert (live (kit w2) a) as Ha2 by by eapply same_live_live.
  assert (keeps_frame w2 (w ← (if notify_needs_present (os (kit w2)) then ctx_upd a (set_dirty true) w2 else Some w2);
    c ← ctx_at a w; if cx_retired c || negb (cx_running c) then Some (None, w) else
    w ← run_hook (x ← d; ad_on_frame x) a w; c ← ctx_at a w; if negb (cx_running c) then Some (None, w) else
    wait ← app_kit_next_sleep_ms (Some a) w; Some (Some wait, w))) as (r & w' & E & Hw' & Hs').
  2:{ exists r, w'. split; [exact E|]. split; [done|]. done. }
  apply keeps_frame_bind.
  { destruct (notify_needs_present _); [by apply ctx_field_ok|by apply keeps_self]. }
  intros w3 Hw3 Hs3. assert (live (kit w3) a) as Ha3 by by eapply same_live_live.
  destruct (ctx_of w3 a Ha3) as [c3 ->]. cbn [mbind option_bind]. destruct (_ || _); [by do 2 eexists|].
  apply keeps_frame_bind; [by apply run_hook_keeps|]. intros w4 Hw4 Hs4.
  assert (live (kit w4) a) as Ha4 by by eapply same_live_live.
  destruct (ctx_of w4 a Ha4) as [c4 ->]. cbn [mbind option_bind]. destruct (negb _); [by do 2 eexists|].
  destruct (sleep_ok a w4 Hw4 Ha4) as [z ->]. cbn [mbind option_bind]. by do 2 eexists.
Qed.

(** ** Runs begin and end *)

Lemma inv_kit w w' :
  blen (g_pins w') = blen (g_pins w) → blen (g_hal_pins w') = blen (g_hal_pins w) → inv w → kit_ok (kit w') → inv w'.
Proof. intros E1 E2 (Hp & Hh & _) Hk. split; [congruence|]. split; [congruence|done]. Qed.

Lemma with_home_ok h w : inv w → live_opt (kit w) h → inv (with_home h w) ∧ same_live w (with_home h w).
Proof. intros Hw Hh. split; [|done]. pose proof Hw as (_ & _ & [? ? ? ? ? ?]). by apply (inv_kit w). Qed.

Lemma with_reg_ok l w :
  inv w → length l = 8%nat → Forall (entry_ok (kit w)) l → NoDup (omap fst l) →
  keeps w (Some (with_reg l w)).
Proof.
  intros Hw Hl He Hn. eexists. split; [done|]. split; [|done]. pose proof Hw as (_ & _ & [? ? ? ? ? ?]).
  apply (inv_kit w); done || by split.
Qed.

Lemma omap_insert {A B} (f : A → option B) (l : list A) i x y :
  l !! i = Some x → omap f (<[i := y]> l) = omap f (take i l) ++ omap f [y] ++ omap f (drop (S i) l) ∧
  omap f l = omap f (take i l) ++ omap f [x] ++ omap f (drop (S i) l).
Proof.
  intros Hx. split.
  - rewrite insert_take_drop by (by eapply lookup_lt_Some). rewrite omap_app. f_equal. cbn. by destruct (f y).
  - rewrite <- (take_drop_middle l i x Hx) at 1. rewrite omap_app. f_equal. cbn. by destruct (f x).
Qed.

Lemma ctx_register_keeps name a c w :
  inv w → ctx_at a w = Some c → ctx_name (kit w) c = name → keeps w (app_kit_register_ctx name (Some a) w).
Proof.
  intros Hw Hc Hname. unfold app_kit_register_ctx. destruct name as [n|]; [|by apply keeps_self].
  pose proof Hw as (_ & _ & Hk). destruct (ok_reg _ Hk) as (Hl & He & Hn).
  destruct (first (reg_has n) (g_ctx_reg (kit w))) as [i|] eqn:Ei.
  - destruct (first_some _ _ _ Ei) as (e & Hi & Hhas). pose proof (lookup_lt_Some _ _ _ Hi) as Hlt.
    rewrite rd_nat, Hi. cbn [mbind option_bind]. rewrite wr_ok by (unfold blen; lia). rewrite Nat2Z.id. cbn [mbind option_bind].
    unfold reg_has, str_eq in Hhas. destruct e as [[m|] x]; [|done]. cbn in Hhas. apply bool_decide_eq_true in Hhas as ->. cbn [fst].
    apply with_reg_ok; [done|by rewrite length_insert| |].
    + apply Forall_insert; [done|]. intros b [= <-]. exists c. split; [done|]. by split; [eexists|].
    + destruct (omap_insert fst _ i (Some n, x) (Some n, Some a) Hi) as [-> E]. by rewrite E in Hn.
  - destruct (first reg_free (g_ctx_reg (kit w))) as [i|] eqn:Ef; [|by apply keeps_self].
    destruct (first_some _ _ _ Ef) as (e & Hi & Hfree). pose proof (lookup_lt_Some _ _ _ Hi) as Hlt.
    rewrite wr_ok by (unfold blen; lia). rewrite Nat2Z.id. cbn [mbind option_bind].
    apply with_reg_ok; [done|by rewrite length_insert| |].
    + apply Forall_insert; [done|]. intros b [= <-]. exists c. split; [done|]. by split; [eexists|].
    + destruct (omap_insert fst _ i e (Some n, Some a) Hi) as [-> E]. rewrite E in Hn.
      destruct e as [[m|] x]; [done|]. cbn in Hn |- *. apply NoDup_app in Hn as (Hn1 & Hn2 & Hn3).
      assert (n ∉ omap fst (g_ctx_reg (kit w))) as Hnew.
      { intros (e & Hin & Hfst)%list_elem_of_omap. apply list_elem_of_lookup in Hin as [j Hj].
        pose proof (first_none _ _ _ _ Ei Hj) as Hno. destruct e as [[m|] y]; [|done]. cbn in Hfst. injection Hfst as ->.
        unfold reg_has, str_eq in Hno. cbn in Hno. by rewrite bool_decide_eq_true_2 in Hno. }
      rewrite E in Hnew. cbn in Hnew. apply not_elem_of_app in Hnew as [Hx1 Hx2].
      apply NoDup_app. split; [done|]. split; [|by constructor]. intros m Hm [->|Hm']%elem_of_cons; [done|]. by eapply Hn2.
Qed.

(** After unregistering the name of a context nothing in the registry leads to it. *)
Lemma ctx_unregister_ok a c w :
  inv w → ctx_at a w = Some c →
  ∃ w', app_kit_unregister_ctx (ctx_name (kit w) c) w = Some w' ∧ inv w' ∧ same_live w w' ∧ ctxs (kit w') = ctxs (kit w) ∧
    g_fg (kit w') = g_fg (kit w) ∧ Forall (λ e, e.2 ≠ Some a) (g_ctx_reg (kit w')).
Proof.
  intros Hw Hc. pose proof Hw as (_ & _ & Hk). destruct (ok_reg _ Hk) as (Hl & He & Hn).
  assert (∀ e, e ∈ g_ctx_reg (kit w) → e.2 = Some a → is_Some e.1 ∧ e.1 = ctx_name (kit w) c) as Hin.
  { intros e Hin Ha. rewrite Forall_forall in He. destruct (He e Hin a Ha) as (d & Hd & Hs & En).
    unfold ctx_at in Hc. rewrite Hc in Hd. by injection Hd as <-. }
  unfold app_kit_unregister_ctx. destruct (ctx_name (kit w) c) as [n|] eqn:En.
  2:{ exists w. split; [done|]. split; [done|]. split; [done|]. split; [done|]. split; [done|].
      apply Forall_forall. intros e Hie Ha. destruct (Hin e Hie Ha) as [[m Em] Ee]. congruence. }
  destruct (first (reg_has n) (g_ctx_reg (kit w))) as [i|] eqn:Ei.
  - destruct (first_some _ _ _ Ei) as (e & Hi & Hhas). pose proof (lookup_lt_Some _ _ _ Hi) as Hlt.
    rewrite wr_ok by (unfold blen; lia). rewrite Nat2Z.id. cbn [mbind option_bind].
    unfold reg_has, str_eq in Hhas. destruct e as [[m|] x]; [|done]. cbn in Hhas. apply bool_decide_eq_true in Hhas as ->.
    destruct (omap_insert fst _ i (Some n, x) (None, None) Hi) as [E1 E2]. rewrite E2 in Hn. cbn in E1, Hn.
    pose proof (NoDup_app (omap fst (take i (g_ctx_reg (kit w)))) (n :: omap fst (drop (S i) (g_ctx_reg (kit w))))) as Hsplit.
    apply Hsplit in Hn as (Hn1 & Hn2 & Hn3). apply NoDup_cons in Hn3 as [Hn3 Hn4].
    destruct (with_reg_ok (<[i := (None, None)]> (g_ctx_reg (kit w))) w Hw) as (w' & [= <-] & Hw' & Hs').
    { by rewrite length_insert. }
    { apply Forall_insert; [done|]. by intros b. }
    { rewrite E1. apply NoDup_app. split; [done|]. split; [|done]. intros m Hm Hm'. apply (Hn2 m Hm). by right. }
    eexists. split; [done|]. split; [done|]. split; [done|]. split; [done|]. split; [done|].
    apply Forall_lookup. intros j e Hj Ha. cbn [kit with_reg with_kit with_gpio_env gpio_env g_ctx_reg] in Hj.
    destruct (decide (j = i)) as [->|Hne]; [rewrite list_lookup_insert_eq in Hj by done; by injection Hj as <-|].
    rewrite list_lookup_insert_ne in Hj by done.
    destruct (Hin e) as [_ Ee]; [by eapply list_elem_of_lookup_2|done|].
    assert (∀ l, e ∈ l → n ∈ omap fst l) as Hname by (intros l Hel; apply list_elem_of_omap; eauto).
    destruct (decide (j < i)%nat) as [Hji|Hji].
    + apply (Hn2 n); [|by left]. apply Hname. apply list_elem_of_lookup. exists j. by rewrite lookup_take_lt.
    + apply Hn3, Hname. apply list_elem_of_lookup. exists (j - S i)%nat. rewrite lookup_drop.
      by replace (S i + (j - S i))%nat with j by lia.
  - exists w. split; [done|]. split; [done|]. split; [done|]. split; [done|]. split; [done|].
    apply Forall_forall. intros e Hie Ha. destruct (Hin e Hie Ha) as [_ Ee].
    apply list_elem_of_lookup in Hie as [j Hj]. pose proof (first_none _ _ _ _ Ei Hj) as Hno.
    unfold reg_has, str_eq in Hno. rewrite Ee in Hno. by rewrite bool_decide_eq_true_2 in Hno.
Qed.

Lemma return_home_ok a leaving w :
  inv w → g_fg (kit w) ≠ Some a → g_home (kit w) ≠ Some a →
  ∃ w', app_kit_return_home leaving w = Some w' ∧ inv w' ∧ same_live w w' ∧ g_fg (kit w') ≠ Some a ∧
    g_home (kit w') = g_home (kit w) ∧ g_ctx_reg (kit w') = g_ctx_reg (kit w).
Proof.
  intros Hw Hf Hh.
  assert (∃ w', focus_home (bring_home w) = Some w' ∧ inv w' ∧ same_live w w' ∧ g_fg (kit w') ≠ Some a ∧
    g_home (kit w') = g_home (kit w) ∧ g_ctx_reg (kit w') = g_ctx_reg (kit w)) as Hgo.
  { destruct (bring_home_keeps w Hw) as [Hb Hs].
    assert (g_fg (kit (bring_home w)) = g_fg (kit w) ∧ g_home (kit (bring_home w)) = g_home (kit w) ∧
      g_ctx_reg (kit (bring_home w)) = g_ctx_reg (kit w)) as (Efg & Eho & Ere).
    { unfold bring_home, os_call. destruct (app_state _ _) as [[]|]; try done;
        match goal with |- context [let (_, _) := ?x in _] => by destruct x end. }
    unfold focus_home. rewrite Eho. destruct (g_home (kit w)) as [h|] eqn:Eh; [|exists (bring_home w); by rewrite Efg, Ere, Eho].
    destruct (focus_ok_some h (bring_home w) Hb) as (w' & -> & Hw' & Hs' & Ef' & Eh' & Er').
    { destruct Hb as (_ & _ & Hk). by apply (ok_home _ Hk). }
    exists w'. split; [done|]. split; [done|]. split; [by eapply same_live_trans|]. rewrite Ef', Eh', Er', Eho, Ere. done. }
  unfold app_kit_return_home. destruct leaving as [l|].
  - destruct (str_eq l APP_KIT_HOME_NAME); [by exists w|]. destruct (app_state _ _); [done|by exists w].
  - destruct (app_state _ _); [done|by exists w].
Qed.

Lemma fresh_ctx_ok d ds a x : ds !! d = Some x → ctx_ok ds a (fresh_ctx d).
Proof.
  intros Hx. split; [split; [done|cbn; lia]|by exists d, x|done|].
  apply Forall_replicate. by intros a'.
Qed.

(** A context on the stack of a task that begins to run an app. *)
Lemma begin_ok d x a w :
  inv w → descs (kit w) !! d = Some x → ¬ live (kit w) a → (∀ b c, ctx_at b w = Some c → cx_desc c ≠ Some d) →
  let w1 := with_ctxs (<[a := fresh_ctx d]> (ctxs (kit w))) w in
  inv w1 ∧ live (kit w1) a ∧ (wired w → wired w1).
Proof.
  intros Hw Hx Ha Hd. cbv zeta. set (w1 := with_ctxs _ w).
  assert (ctxs (kit w) !! a = None) as En by (by apply eq_None_not_Some).
  assert (∀ b, live (kit w) b → live (kit w1) b) as Hl.
  { intros b [c Hc]. unfold live. cbn. destruct (decide (b = a)) as [->|Hne]; [rewrite lookup_insert_eq; by eexists|].
    rewrite lookup_insert_ne by done. by eexists. }
  assert (∀ b c, ctxs (kit w) !! b = Some c → ctxs (kit w1) !! b = Some c) as Hkeep.
  { intros b c Hc. cbn. rewrite lookup_insert_ne; [done|]. intros <-. by rewrite En in Hc. }
  split; [|split].
  - pose proof Hw as (Hp & Hh & [Hf Hho (Hr1 & Hr2 & Hr3) Hcs Hap Hfo]). apply (inv_kit w); [done|done|done|]. split.
    + intros b Hb. by apply Hl, Hf.
    + intros b Hb. by apply Hl, Hho.
    + split; [done|]. split; [|done]. eapply Forall_impl; [exact Hr2|]. intros e He b Hb.
      destruct (He b Hb) as (c & Hc & Hn & En'). exists c. split; [by apply Hkeep|]. done.
    + cbn. apply map_Forall_insert_2; [by eapply fresh_ctx_ok|done].
    + cbn. intros b b' c c' Hb Hb' E. destruct (decide (b = a)) as [->|Hne], (decide (b' = a)) as [->|Hne'];
        rewrite ?lookup_insert_eq, ?lookup_insert_ne in * by done; try done.
      * injection Hb as <-. destruct (Hd b' c' Hb'). by rewrite <- E.
      * injection Hb' as <-. destruct (Hd b c Hb). by rewrite E.
      * by eapply Hap.
    + unfold fg_ctx in *. change (g_fg (kit w1)) with (g_fg (kit w)). change (os (kit w1)) with (os (kit w)).
      destruct (g_fg (kit w)) as [fg|] eqn:Efg; [|done]. cbn [mbind option_bind] in *.
      destruct (Hf fg eq_refl) as [c Hc]. rewrite (Hkeep fg c Hc). by rewrite Hc in Hfo.
  - unfold live. cbn. rewrite lookup_insert_eq. by eexists.
  - apply wired_cb; [done|]. by left.
Qed.

Definition keeps_inv w (x : option world) : Prop := ∃ w', x = Some w' ∧ inv w'.

Lemma enter_ok desc a display_ok w :
  inv w → ¬ live (kit w) a →
  (∀ d, desc = Some d → is_Some (descs (kit w) !! d) ∧ ∀ b c, ctx_at b w = Some c → cx_desc c ≠ Some d) →
  ∃ w', kit_enter desc a display_ok w = Some w' ∧ inv w' ∧ (wired w → wired w').
Proof.
  intros Hw Ha Hd. unfold kit_enter. destruct desc as [d|]; [|by exists w].
  destruct (Hd d eq_refl) as [[x Hx] Hfree]. rewrite Hx. cbn [mbind option_bind].
  destruct display_ok; cbn [negb]; [|by exists w].
  destruct (begin_ok d x a w Hw Hx Ha Hfree) as (Hw1 & Ha1 & Hwi1). set (w1 := with_ctxs _ w) in *.
  set (w2 := match ad_name x with Some n => _ | None => _ end).
  assert (inv w2 ∧ same_live w1 w2) as [Hw2 Hs2].
  { unfold w2. destruct (ad_name x) as [n|]; [|done]. destruct (str_eq n APP_KIT_HOME_NAME); [|done].
    apply with_home_ok; [done|]. by intros b [= <-]. }
  assert (ctx_at a w2 = Some (fresh_ctx d) ∧ descs (kit w2) = descs (kit w)) as [Ec2 Ed2].
  { assert (ctx_at a w1 = Some (fresh_ctx d)) by (unfold ctx_at; cbn; by rewrite lookup_insert_eq).
    unfold w2. destruct (ad_name x) as [n|]; [|done]. by destruct (str_eq n APP_KIT_HOME_NAME). }
  assert (keeps w2 (w ← app_kit_register_ctx (ad_name x) (Some a) w2;
    w ← app_kit_focus (Some a) w; w ← ctx_upd a (set_run_task (fst <$> task_get_current (os (kit w)))) w;
    match ad_on_init x with Some f => w ← run_app f a 0 w; app_kit_remap_keys (Some a) w | None => Some w end))
    as (w' & -> & Hw' & Hs').
  2:{ exists w'. split; [done|]. split; [done|]. intros Hwi. by apply Hs', Hs2, Hwi1. }
  assert (live (kit w2) a) as Ha2 by (by eexists).
  apply keeps_bind.
  { apply (ctx_register_keeps _ a (fresh_ctx d)); [done|done|]. unfold ctx_name. cbn. by rewrite Ed2, Hx. }
  intros w3 Hw3 Hs3. assert (live (kit w3) a) as Ha3 by by eapply same_live_live.
  apply keeps_bind; [by apply focus_keeps|]. intros w4 Hw4 Hs4. assert (live (kit w4) a) as Ha4 by by eapply same_live_live.
  apply keeps_bind; [by apply ctx_field_ok|]. intros w5 Hw5 Hs5. assert (live (kit w5) a) as Ha5 by by eapply same_live_live.
  destruct (ad_on_init x) as [f|]; [|by apply keeps_self]. apply keeps_bind; [by apply run_app_keeps|].
  intros w6 Hw6 Hs6. destruct (remap_ok a w6 Hw6) as (w7 & -> & Hw7 & _ & Hs7); [by eapply same_live_live|]. by exists w7.
Qed.

(** A context nothing leads to can go. *)
Lemma end_ok a w :
  inv w → g_fg (kit w) ≠ Some a → g_home (kit w) ≠ Some a → Forall (λ e, e.2 ≠ Some a) (g_ctx_reg (kit w)) →
  inv (with_ctxs (delete a (ctxs (kit w))) w).
Proof.
  intros Hw Hnf Hnh Hnr. set (w1 := with_ctxs _ w).
  assert (∀ b c, b ≠ a → ctxs (kit w) !! b = Some c → ctxs (kit w1) !! b = Some c) as Hkeep.
  { intros b c Hne Hc. cbn. by rewrite lookup_delete_ne. }
  pose proof Hw as (Hp & Hh & [Hf Hho (Hr1 & Hr2 & Hr3) Hcs Hap Hfo]). apply (inv_kit w); [done|done|done|]. split.
  - intros b Hb. destruct (Hf b Hb) as [c Hc]. exists c. apply Hkeep; [by intros ->|done].
  - intros b Hb. destruct (Hho b Hb) as [c Hc]. exists c. apply Hkeep; [by intros ->|done].
  - split; [done|]. split; [|done]. cbn. apply Forall_forall. intros e Hin b Hb.
    rewrite Forall_forall in Hr2, Hnr. destruct (Hr2 e Hin b Hb) as (c & Hc & Hn & En).
    exists c. split; [|done]. apply Hkeep; [|done]. intros ->. by apply (Hnr e Hin).
  - cbn. by apply map_Forall_delete.
  - cbn. intros b b' c c' Hb Hb'. apply lookup_delete_Some in Hb as [_ Hb]. apply lookup_delete_Some in Hb' as [_ Hb'].
    by apply (Hap b b' c c').
  - unfold fg_ctx in *. change (g_fg (kit w1)) with (g_fg (kit w)). change (os (kit w1)) with (os (kit w)).
    destruct (g_fg (kit w)) as [fg|] eqn:Efg; [|done]. cbn [mbind option_bind] in *.
    destruct (Hf fg eq_refl) as [c Hc]. rewrite (Hkeep fg c); [by rewrite Hc in Hfo|by intros ->|done].
Qed.

Lemma same_live_ctx w w' a c :
  same_live w w' → ctx_at a w = Some c → ∃ c', ctx_at a w' = Some c' ∧ cx_desc c' = cx_desc c.
Proof.
  intros [Hd _] Hc. assert ((cx_desc <$> ctxs (kit w')) !! a = Some (cx_desc c)) as E.
  { rewrite Hd, lookup_fmap. unfold ctx_at in Hc. by rewrite Hc. }
  rewrite lookup_fmap in E. apply fmap_Some in E as (c' & Hc' & E). by exists c'.
Qed.

Lemma leave_ok a w : inv w → live (kit w) a → keeps_inv w (kit_leave a w).
Proof.
  intros Hw Ha. unfold kit_leave. destruct (ctx_of w a Ha) as [c Ec]. rewrite Ec. cbn [mbind option_bind].
  destruct (ok_desc _ _ _ (inv_ctx w a c Hw Ec)) as (d & x & Ed & Ex).
  assert (desc_of c w = Some (Some x)) as -> by (unfold desc_of; by rewrite Ed, Ex). cbn [mbind option_bind].
  destruct (run_hook_keeps (ad_on_cleanup x) a w Hw Ha) as (w1 & -> & Hw1 & Hs1). cbn [mbind option_bind].
  destruct (same_live_ctx w w1 a c Hs1 Ec) as (c1 & Ec1 & Ed1).
  assert (ad_name x = ctx_name (kit w1) c1) as ->.
  { unfold ctx_name. destruct Hs1 as (_ & -> & _). rewrite Ed1, Ed. cbn. by rewrite Ex. }
  destruct (ctx_unregister_ok a c1 w1 Hw1 Ec1) as (w2 & -> & Hw2 & Hs2 & Em2 & _ & Hr2). cbn [mbind option_bind].
  destruct (drop_focus_ok a w2 Hw2) as (w3 & -> & Hw3 & Hs3 & Hf3 & Eh3 & Er3 & Em3).
  { unfold live. rewrite Em2. by eexists. }
  cbn [mbind option_bind]. set (w4 := if bool_decide (g_home (kit w3) = Some a) then with_home None w3 else w3).
  assert (inv w4 ∧ same_live w3 w4 ∧ g_fg (kit w4) ≠ Some a ∧ g_home (kit w4) ≠ Some a ∧ g_ctx_reg (kit w4) = g_ctx_reg (kit w3))
    as (Hw4 & Hs4 & Hf4 & Hh4 & Er4).
  { unfold w4. case_bool_decide; [|done]. destruct (with_home_ok None w3 Hw3) as [? ?]; [done|]. done. }
  destruct (return_home_ok a (ctx_name (kit w1) c1) w4 Hw4 Hf4 Hh4) as (w5 & -> & Hw5 & Hs5 & Hf5 & Eh5 & Er5).
  cbn [mbind option_bind]. eexists. split; [done|]. apply end_ok; [done|done|by rewrite Eh5|]. by rewrite Er5, Er4, Er3.
Qed.

(** ** Every interleaving *)

(** What happens between two sleeps: a call from outside the apps, a key, or a step of a run. *)
Inductive kit_op :=
  | Outside (x : kit_call) | Key (key : Z) (pressed : bool) | Enter (desc : option nat) (ctx : nat) (display_ok : bool)
  | Frame (ctx : nat) | Leave (ctx : nat).
Definition step (o : kit_op) w : option world :=
  match o with
  | Outside x => do_call x w
  | Key key pressed => handle_key key pressed w
  | Enter desc ctx display_ok => kit_enter desc ctx display_ok w
  | Frame ctx => snd <$> kit_frame ctx w
  | Leave ctx => kit_leave ctx w
  end.

(** An app runs once; runs step where they are; keys come while no binding leads to a run that
    has ended. *)
Definition op_ok (o : kit_op) w : Prop :=
  match o with
  | Outside x => call_ok (kit w) x
  | Key _ _ => wired w
  | Enter desc ctx _ =>
    ¬ live (kit w) ctx ∧
    ∀ d, desc = Some d → is_Some (descs (kit w) !! d) ∧ ∀ b c, ctx_at b w = Some c → cx_desc c ≠ Some d
  | Frame ctx | Leave ctx => live (kit w) ctx
  end.

(** The system before the first app runs. *)
Record booted w : Prop := {
  boot_pins : blen (g_pins w) = 64 ∧ blen (g_hal_pins w) = 64;
  boot_wired : wired w;
  boot_kit : g_fg (kit w) = None ∧ g_home (kit w) = None ∧ g_ctx_reg (kit w) = replicate 8 (None, None) ∧ ctxs (kit w) = ∅;
  boot_demand : fg_demand (os (kit w)) = POWER_DEMAND_NORMAL ∧ ∀ t, hint t (os (kit w)) = POWER_DEMAND_NORMAL ∨ is_idle t
}.

Inductive reachable : world → Prop :=
  | reach_boot w : booted w → reachable w
  | reach_step (x : kit_op) w w' : reachable w → op_ok x w → step x w = Some w' → reachable w'.

Lemma kit_booted_inv w : booted w → inv w.
Proof.
  intros [[Hp Hh] _ (Ef & Ehome & Er & Em) [Hd Ht]]. split; [done|]. split; [done|]. split.
  - by rewrite Ef.
  - by rewrite Ehome.
  - unfold reg_ok. rewrite Er. split; [done|]. split; [by repeat constructor|constructor].
  - by rewrite Em.
  - rewrite Em. intros a b c d Hc. by rewrite lookup_empty in Hc.
  - unfold fg_ctx. rewrite Ef. split; [done|]. split; [done|]. intros t Hn. destruct (Ht t); [done|by left].
Qed.

Definition ends (o : kit_op) : bool := match o with Leave _ => true | _ => false end.

Lemma kit_step_ok (o : kit_op) w :
  inv w → op_ok o w → ∃ w', step o w = Some w' ∧ inv w' ∧ (ends o = false → wired w → wired w').
Proof.
  intros Hw Ho. destruct o as [x|key pressed|desc a display_ok|a|a]; cbn [step op_ok] in *.
  - destruct (do_call_keeps x w Hw Ho) as (w' & -> & Hw' & Hs). exists w'. split; [done|]. split; [done|]. intros _. apply Hs.
  - destruct (handle_key_keeps key pressed w Hw Ho) as (w' & -> & Hw' & Hs). exists w'. split; [done|]. split; [done|]. intros _. apply Hs.
  - destruct Ho as [Ha Hd]. destruct (enter_ok desc a display_ok w Hw Ha Hd) as (w' & -> & Hw' & Hs). by exists w'.
  - destruct (frame_keeps a w Hw Ho) as (r & w' & -> & Hw' & Hs). exists w'. split; [done|]. split; [done|]. intros _. apply Hs.
  - destruct (leave_ok a w Hw Ho) as (w' & -> & Hw'). by exists w'.
Qed.

(** C12: the focus of the application kit.  Take any interleaving of runs of applications that
    start, make their frames and end (an app runs once at a time), of calls from outside, and of
    keys, where a key comes only while no pin leads to the binding of a run that has ended
    ([wired]; the code leaves such bindings behind, and Example [key_after_end] shows that the
    next press then reads a dead stack).  No call of the kit faults, and only the end of a run can
    leave such a binding: every other call keeps [wired].  The contexts the kit can reach - in front, at home, in the registry -
    are those of runs that have not ended, the registry names each app once, and the demands
    are in order: the governor and the task of the app in front have the demand of that app,
    and no task of any other app has a live one. *)
Theorem kit_focus_safe w :
  reachable w →
  (live_opt (kit w) (g_fg (kit w)) ∧ live_opt (kit w) (g_home (kit w)) ∧ reg_ok (kit w)) ∧
  focus_ok (fg_ctx (kit w)) (os (kit w)) ∧
  ∀ o : kit_op, op_ok o w → ∃ w', step o w = Some w' ∧ reachable w' ∧ (ends o = false → wired w → wired w').
Proof.
  intros Hr. assert (inv w) as Hw.
  { induction Hr as [w Hb|o w w' _ IH Ho E]; [by apply kit_booted_inv|].
    destruct (kit_step_ok o w IH Ho) as (w1 & E1 & Hw1 & _). congruence. }
  pose proof Hw as (_ & _ & [? ? ? ? ? ?]). split; [done|]. split; [done|]. intros o Ho.
  destruct (kit_step_ok o w Hw Ho) as (w' & E & _ & Hwi). exists w'. split; [done|]. split; [by eapply reach_step|done].
Qed.
End AppKitThm.
