(* ===== verification/AppKitRuns.v ===== *)
(** * The application kit on a small system

    The witness of the theorem of AppKitThm, and what the kit does at its limits. *)

From Stdlib Require Import ZArith Lia String.
From stdpp Require Import base tactics option numbers fin_maps gmap list.
From S2P Require Import Prelude.
From S2P Require Import CString.
From S2P Require Import PowerGovernor.
From S2P Require Import App.
From S2P Require Import SimGpio.
From S2P Require Import AppKit.
From S2P Require Import AppKitThm.

Module KitRuns.
(** The states of the apps by name, the demands of the tasks, the demand of the foreground, the
    task that runs, and a log of what handlers did. *)
Record sys := mk_sys {
  sy_apps : list (list Z * app_state_t); sy_hints : gmap nat Z; sy_fg : Z; sy_task : nat; sy_log : list Z
}.
Definition set_app (name : list Z) (st : app_state_t) (o : sys) : sys :=
  mk_sys ((λ e, if str_eq e.1 name then (name, st) else e) <$> sy_apps o) (sy_hints o) (sy_fg o) (sy_task o) (sy_log o).
Definition state_of (name : list Z) (o : sys) : option app_state_t :=
  snd <$> head (filter (λ e, e.1 = name) (sy_apps o)).
Definition note (z : Z) (o : sys) : sys := mk_sys (sy_apps o) (sy_hints o) (sy_fg o) (sy_task o) (sy_log o ++ [z]).

(** An app that is started has the next task, and runs. *)
Definition next_task (o : sys) : sys := mk_sys (sy_apps o) (sy_hints o) (sy_fg o) (S (sy_task o)) (sy_log o).

#[export] Instance small : KitOs sys := {|
  app_state := state_of;
  kit_app_start n o := match state_of n o with Some _ => (0, next_task (set_app n APP_STATE_RUNNING o)) | None => (-1, o) end;
  kit_app_resume n o := match state_of n o with
                        | Some APP_STATE_SUSPENDED => (0, set_app n APP_STATE_RUNNING o) | _ => (-1, o) end;
  kit_app_suspend n o := match state_of n o with
                         | Some APP_STATE_RUNNING => (0, set_app n APP_STATE_SUSPENDED o) | _ => (-1, o) end;
  kit_set_demand t d o := mk_sys (sy_apps o) (<[t := d]> (sy_hints o)) (sy_fg o) (sy_task o) (sy_log o);
  kit_set_foreground d o := mk_sys (sy_apps o) (sy_hints o) d (sy_task o) (sy_log o);
  task_get_current o := Some (sy_task o, false);
  task_blocked _ _ := false; task_wake_time _ _ := 0; task_set_wake _ _ o := o; scheduler_ticks _ := 0;
  display_height := 240; header_height := 24; header_app_visible _ := true; notify_needs_present _ := false;
  notify_pump o := o
|}.
#[export] Instance small_laws : KitOsLaws (W := sys).
Proof.
  refine {| hint t o := default POWER_DEMAND_NORMAL (sy_hints o !! t); fg_demand := sy_fg; is_idle _ := False |}; try done.
  - intros t t' d o. cbn. case_decide as E; [by rewrite E, lookup_insert_eq|by rewrite lookup_insert_ne].
  - intros n t o. cbn. by destruct (state_of n o).
  - intros n t o. cbn. by destruct (state_of n o) as [[]|].
  - intros n t o. cbn. by destruct (state_of n o) as [[]|].
Defined.

(** The launcher opens the clock at Enter (5); the clock leaves at Escape (6) and notes Enter. *)
Definition ENTER : Z := 5.
#[export] Instance code : @AppCode Z sys := {|
  app_calls f a u w :=
    if f =? 1 then [CBind true (Some a) ENTER (Some 2) 0]
    else if f =? 2 then [COpen (Some a) (Some (str "clock"))]
    else if f =? 3 then [CBind true (Some a) ENTER (Some 4) 0; CBind true (Some a) SIM_KEY_ESCAPE (Some 5) 0;
                         CSetDemand (Some a) POWER_DEMAND_HIGH]
    else if f =? 4 then [COs (note 4)]
    else if f =? 5 then [CRequestExit (Some a)]
    else if f =? 6 then [CUiBind true (Some a) SIM_KEY_ESCAPE (Some 5) 0] else [];
  other_calls _ _ _ := []; takes_key _ _ _ := false
|}.
#[export] Instance polite : PoliteApps.
Proof.
  split; [|by constructor]. intros f a u w Ha. cbn.
  assert (live_opt (kit w) (Some a)) as Hl by by intros b [= <-].
  repeat case_match; repeat (constructor; [by try done|]); by constructor.
Qed.

Definition desc (name : list Z) (init : Z) : app_desc_t Z :=
  mk_desc (Some name) None None None 0 0 0 0 None (Some init) None None None.
Definition apps : gmap nat (app_desc_t Z) :=
  {[1%nat := desc APP_KIT_HOME_NAME 1; 2%nat := desc (str "clock") 3; 3%nat := desc (str "notes") 6]}.
Definition sys0 : sys :=
  mk_sys [(APP_KIT_HOME_NAME, APP_STATE_RUNNING); (str "clock", APP_STATE_INSTALLED); (str "notes", APP_STATE_INSTALLED)]
    ∅ POWER_DEMAND_NORMAL 1 [].
Definition boot : gpio_state (kit_cb Z) (kit_state Z sys) :=
  snd (sim_gpio_init (mk_gpio [] [] None
    (mk_kit None None APP_KIT_PIN_BASE (replicate 8 (None, None)) ∅ apps sys0))).
Definition runs (l : list (kit_op (Fn := Z) (W := sys))) (w : gpio_state (kit_cb Z) (kit_state Z sys)) :=
  foldl (λ w o, w ← w; step o w) (Some w) l.
(** What can be seen: the context in front, the states of the apps, the demands and the log. *)
Definition view (w : option (gpio_state (kit_cb Z) (kit_state Z sys))) :=
  w ← w; Some (g_fg (kit w), (sy_apps (os (kit w))).*2, sy_fg (os (kit w)),
               hint 1 (os (kit w)), hint 2 (os (kit w)), sy_log (os (kit w))).

Lemma boot_ok : booted boot.
Proof.
  split; [done| |done|].
  - apply Forall_replicate. by intros cb.
  - split; [done|]. intros t. by left.
Qed.

(** Which steps are allowed, by evaluation. *)
#[export] Instance cb_ok_dec (k : kit_state Z sys) (cb : kit_cb Z) : Decision (cb_ok k cb).
Proof. unfold cb_ok, live. destruct cb; apply _. Defined.
Definition pin_ok (k : kit_state Z sys) (hp : hal_gpio_pin_t (kit_cb Z)) : bool :=
  match hp_callback hp with Some cb => bool_decide (cb_ok k cb) | None => true end.
Definition allowed (o : kit_op (Fn := Z) (W := sys)) (w : gpio_state (kit_cb Z) (kit_state Z sys)) : bool :=
  match o with
  | Outside (CSwitch _) | Outside (CRequestStop _) | Outside CWakeForeground => true
  | Outside _ => false
  | Key _ _ => forallb (pin_ok (kit w)) (g_hal_pins w)
  | Enter None ctx _ => bool_decide (ctxs (kit w) !! ctx = None)
  | Enter (Some d) ctx _ =>
    bool_decide (ctxs (kit w) !! ctx = None) && bool_decide (is_Some (descs (kit w) !! d)) &&
    bool_decide (map_Forall (λ _ c, cx_desc c ≠ Some d) (ctxs (kit w)))
  | Frame ctx | Leave ctx => bool_decide (is_Some (ctxs (kit w) !! ctx))
  end.
Lemma allowed_ok o w : allowed o w = true → op_ok o w.
Proof.
  destruct o as [x|key pressed|[d|] a ok|a|a]; cbn.
  - by destruct x.
  - intros Hf. apply Forall_forall. intros hp Hin cb Hcb. rewrite forallb_forall in Hf.
    apply list_elem_of_In, Hf in Hin. unfold pin_ok in Hin. rewrite Hcb in Hin. by apply bool_decide_eq_true in Hin.
  - rewrite !andb_true_iff, !bool_decide_eq_true. intros [[Hn Hd] Hf]. split; [unfold live; by rewrite Hn; intros []|].
    intros e [= <-]. split; [done|]. intros b c Hc. by apply (Hf b c).
  - rewrite bool_decide_eq_true. intros Hn. split; [unfold live; by rewrite Hn; intros []|done].
  - by rewrite bool_decide_eq_true.
  - by rewrite bool_decide_eq_true.
Qed.

Fixpoint all_allowed (l : list (kit_op (Fn := Z) (W := sys))) (w : gpio_state (kit_cb Z) (kit_state Z sys)) : bool :=
  match l with
  | [] => true
  | o :: l => allowed o w && match step o w with Some w => all_allowed l w | None => false end
  end.
Lemma runs_reachable l w : all_allowed l w = true → reachable w → ∃ w', runs l w = Some w' ∧ reachable w'.
Proof.
  revert w. induction l as [|o l IH]; intros w Hl Hr; [by exists w|]. cbn in Hl. apply andb_true_iff in Hl as [Ho Hl].
  unfold runs. cbn [foldl mbind option_bind]. destruct (step o w) as [w'|] eqn:E; [|done].
  apply IH; [done|]. by apply (reach_step o w); [|apply allowed_ok|].
Qed.

(** The launcher opens the clock by a key, and the clock goes back by another. *)
Definition tour : list (kit_op (Fn := Z) (W := sys)) :=
  [Enter (Some 1%nat) 10%nat true; Key ENTER true; Enter (Some 2%nat) 20%nat true; Frame 20%nat; Key ENTER false;
   Key SIM_KEY_ESCAPE true; Key SIM_KEY_ESCAPE false].
Definition toured : gpio_state (kit_cb Z) (kit_state Z sys) := default boot (runs tour boot).

Lemma toured_reachable : reachable toured.
Proof.
  destruct (runs_reachable tour boot) as (w & E & Hr); [vm_compute; reflexivity|apply reach_boot, boot_ok|].
  unfold toured. by rewrite E.
Qed.

Lemma kit_focus_safe_witness :
  (live_opt (kit toured) (g_fg (kit toured)) ∧ live_opt (kit toured) (g_home (kit toured)) ∧ reg_ok (kit toured)) ∧
  focus_ok (fg_ctx (kit toured)) (os (kit toured)) ∧
  ∀ o : kit_op (Fn := Z) (W := sys), op_ok o toured →
    ∃ w', step o toured = Some w' ∧ reachable w' ∧ (ends o = false → wired toured → wired w').
Proof. apply (kit_focus_safe toured). exact toured_reachable. Defined.

(** In front of the clock the governor and its task have the high demand; at home again nobody
    has. *)
Example demands :
  view (runs (take 3 tour) boot) =
    Some (Some 20%nat, [APP_STATE_SUSPENDED; APP_STATE_RUNNING; APP_STATE_INSTALLED], 4, 3, 4, []) ∧
  view (runs tour boot) =
    Some (Some 10%nat, [APP_STATE_RUNNING; APP_STATE_SUSPENDED; APP_STATE_INSTALLED], 3, 3, 3, []).
Proof. split; vm_compute; reflexivity. Qed.

(** ** At the limits *)

(** The press that opens the clock again also reaches the clock: its pin comes later in the loop
    over the pins, and by then the clock is in front. *)
Example press_reaches_two : view (runs (tour ++ [Key ENTER true]) boot) =
  Some (Some 20%nat, [APP_STATE_SUSPENDED; APP_STATE_RUNNING; APP_STATE_INSTALLED], 4, 3, 4, [4]).
Proof. vm_compute. reflexivity. Qed.

(** The pins keep the bindings of a run that has ended: the next press reads its stack. *)
Example key_after_end :
  is_Some (runs (tour ++ [Leave 20%nat]) boot) ∧ runs (tour ++ [Leave 20%nat; Key ENTER true]) boot = None.
Proof. split; [vm_compute; by eexists|vm_compute; reflexivity]. Qed.

(** Stopping an app by deleting its task, as [app_stop] does, ends the context without
    [kit_leave]: the context in front is gone and the next change of focus reads it. *)
Example stop_leaves_focus :
  (w ← runs (take 3 tour) boot;
   app_kit_switch (Some APP_KIT_HOME_NAME) (with_ctxs (delete 20%nat (ctxs (kit w))) w)) = None.
Proof. vm_compute. reflexivity. Qed.

(** Every binding takes a pin and none is given back: after runs with forty-four bindings a new
    one has no pin, is accepted, and is never called. *)
Definition again : list (kit_op (Fn := Z) (W := sys)) := [Enter (Some 1%nat) 10%nat true; Leave 10%nat].
Definition leads_to (a : nat) (hp : hal_gpio_pin_t (kit_cb Z)) : bool :=
  match hp_callback hp with Some (KitKey b _) => bool_decide (a = b) | _ => false end.
Example pins_run_out :
  (w ← runs (concat (replicate 44 again) ++ [Enter (Some 1%nat) 11%nat true]) boot;
   c ← ctx_at 11%nat w;
   Some (cx_key_count c, kb_pin <$> head (cx_keys c), existsb (leads_to 11) (g_hal_pins w))) = Some (1, Some 64, false).
Proof. vm_compute. reflexivity. Qed.

(** A run whose context lies where an ended one was gets each key twice. *)
Example stack_reused :
  view (runs [Enter (Some 2%nat) 10%nat true; Leave 10%nat; Enter (Some 2%nat) 10%nat true; Key ENTER true] boot) =
    Some (Some 10%nat, [APP_STATE_RUNNING; APP_STATE_INSTALLED; APP_STATE_INSTALLED], 4, 4, 3, [4; 4]).
Proof. vm_compute. reflexivity. Qed.

(** A binding of the user interface does not know its pin: taking the focus maps pin 0. *)
Example ui_binding_pin :
  (w ← runs [Enter (Some 3%nat) 30%nat true] boot;
   c ← ctx_at 30%nat w; p ← rd (g_pins w) 0; q ← rd (g_pins w) 20;
   Some (kb_pin <$> head (cx_keys c), gp_key_pressed p, gp_key_pressed q)) = Some (Some 0, SIM_KEY_ESCAPE, SIM_KEY_ESCAPE).
Proof. vm_compute. reflexivity. Qed.
End KitRuns.
