(* ===== verification/AppKitTables.v ===== *)
(** * The tables of the application kit (apps/app_kit.c)

    Icons and preload hooks by name, and the descriptors from which apps are installed. *)

From Stdlib Require Import ZArith Lia String.
From stdpp Require Import base tactics option numbers list.
From S2P Require Import Prelude.
From S2P Require Import CString.
From S2P Require Import Tables.
From S2P Require Import AppRuntime.
From S2P Require Import App.
From S2P Require Import AppKit.

Definition APP_MAX : Z := 16.
Definition CAP_DISPLAY_ACCESS : Z := 5.
Definition CAP_EVENT_ACCESS : Z := 12.
Definition app_icon_default : Z := 0.

Section Descriptors.
Context {Fn : Type} (APP_STACK_SMALL APP_HEAP_SMALL : Z).

(** [over ? over : dest] of pointers, and of numbers. *)
Definition over_ptr {A} (over dest : option A) : option A := match over with Some _ => over | None => dest end.
Definition over_num (over dest : Z) : Z := if over =? 0 then dest else over.
Definition app_kit_apply_overrides (dest over : option (app_desc_t Fn)) : option (app_desc_t Fn) :=
  match dest, over with
  | Some d, Some o =>
    Some (mk_desc (over_ptr (ad_name o) (ad_name d)) (over_ptr (ad_version o) (ad_version d))
            (over_ptr (ad_author o) (ad_author d)) (over_ptr (ad_description o) (ad_description d))
            (over_num (ad_type o) (ad_type d)) (over_num (ad_fps o) (ad_fps d))
            (over_num (ad_stack_size o) (ad_stack_size d)) (over_num (ad_heap_size o) (ad_heap_size d))
            (over_ptr (ad_icon o) (ad_icon d)) (over_ptr (ad_on_init o) (ad_on_init d))
            (over_ptr (ad_on_frame o) (ad_on_frame d)) (over_ptr (ad_on_cleanup o) (ad_on_cleanup d))
            (over_ptr (ad_on_load o) (ad_on_load d)))
  | _, _ => dest
  end.

(** [entry] is the address of the entry function, [calloc_ok] the memory for the manifest. *)
Definition app_kit_make_manifest (calloc_ok : bool) (desc : option (app_desc_t Fn)) (entry : option Z)
    : option app_manifest_t :=
  match desc, entry with
  | Some d, Some e =>
    match ad_name d with
    | None => None
    | Some name =>
      if negb calloc_ok then None else
      let field n (s : option (list Z)) :=
        match s with Some s => strncpy (zeros n) s (Z.to_nat (n - 1)) | None => zeros n end in
      Some (mk_manifest (field APP_NAME_MAX (Some name)) (field 16 (ad_version d)) (ad_type d) 1 e
              (if 0 <? ad_stack_size d then ad_stack_size d else APP_STACK_SMALL)
              (if 0 <? ad_heap_size d then ad_heap_size d else APP_HEAP_SMALL)
              ([CAP_DISPLAY_ACCESS; CAP_EVENT_ACCESS] ++ zeros 14) 2
              (field 64 (ad_author d)) (field 256 (ad_description d)))
    end
  | _, _ => None
  end.
End Descriptors.

(** ** Icons *)

Record app_kit_icon_slot_t := mk_icon_slot { ic_name : option (list Z); ic_icon : option Z }.
Record icon_table := mk_icons { g_icons : list app_kit_icon_slot_t; g_icon_count : Z }.
Definition icons_zero : icon_table := mk_icons (replicate (Z.to_nat APP_MAX) (mk_icon_slot None None)) 0.
Definition has_name (n name : option (list Z)) : bool :=
  match n, name with Some n, Some name => str_eq n name | _, _ => false end.

Definition app_kit_set_icon (name : option (list Z)) (icon : option Z) (t : icon_table) : option icon_table :=
  match name, icon with
  | Some _, Some _ =>
    match first (λ s, has_name (ic_name s) name) (packed (g_icon_count t) (g_icons t)) with
    | Some i =>
      s ← rd (g_icons t) (Z.of_nat i);
      l ← wr (g_icons t) (Z.of_nat i) (mk_icon_slot (ic_name s) icon); Some (mk_icons l (g_icon_count t))
    | None =>
      if APP_MAX <=? g_icon_count t then Some t else
      l ← wr (g_icons t) (g_icon_count t) (mk_icon_slot name icon); Some (mk_icons l (g_icon_count t + 1))
    end
  | _, _ => Some t
  end.

Definition app_kit_get_icon (name : option (list Z)) (t : icon_table) : option Z :=
  match name with
  | None => Some app_icon_default
  | Some _ =>
    match first (λ s, has_name (ic_name s) name) (packed (g_icon_count t) (g_icons t)) with
    | Some i => s ← rd (g_icons t) (Z.of_nat i); Some (default app_icon_default (ic_icon s))
    | None => Some app_icon_default
    end
  end.

(** ** Preload hooks *)

Section Loads.
Context {Fn U : Type}.
Record app_kit_load_slot_t := mk_load_slot { ld_name : option (list Z); ld_fn : option Fn; ld_loaded : bool }.
Record load_table := mk_loads { g_loads : list app_kit_load_slot_t; g_load_count : Z; load_env : U }.
Definition loads_zero (u : U) : load_table :=
  mk_loads (replicate (Z.to_nat APP_MAX) (mk_load_slot None None false)) 0 u.
(** A hook, which may itself register hooks and load apps. *)
Context (run_load : Fn → load_table → option load_table).
Implicit Types (t : load_table).

Definition find_load (name : option (list Z)) t : option nat :=
  first (λ s, has_name (ld_name s) name) (packed (g_load_count t) (g_loads t)).

Definition app_kit_set_load (name : option (list Z)) (fn : option Fn) t : option load_table :=
  match name, fn with
  | Some _, Some _ =>
    match find_load name t with
    | Some i =>
      s ← rd (g_loads t) (Z.of_nat i);
      if ld_loaded s then Some t else
      l ← wr (g_loads t) (Z.of_nat i) (mk_load_slot (ld_name s) fn false);
      Some (mk_loads l (g_load_count t) (load_env t))
    | None =>
      if APP_MAX <=? g_load_count t then Some t else
      l ← wr (g_loads t) (g_load_count t) (mk_load_slot name fn false);
      Some (mk_loads l (g_load_count t + 1) (load_env t))
    end
  | _, _ => Some t
  end.

Definition app_kit_load (name : option (list Z)) t : option (Z * load_table) :=
  match name with
  | None => Some (-1, t)
  | Some _ =>
    match find_load name t with
    | None => Some (0, t)
    | Some i =>
      s ← rd (g_loads t) (Z.of_nat i);
      match ld_loaded s, ld_fn s with
      | false, Some f =>
        l ← wr (g_loads t) (Z.of_nat i) (mk_load_slot (ld_name s) (Some f) true);
        t ← run_load f (mk_loads l (g_load_count t) (load_env t));
        Some (0, t)
      | _, _ => Some (0, t)
      end
    end
  end.

(** ** A hook runs at most once *)

Definition loads_ok t : Prop := blen (g_loads t) = 16 ∧ 0 <= g_load_count t <= 16.
(** Hooks that leave the table alone. *)
Definition quiet_hooks : Prop :=
  ∀ f t, ∃ u, run_load f t = Some (mk_loads (g_loads t) (g_load_count t) u).

Lemma first_insert {A} (P : A → bool) (l : list A) i x y :
  first P l = Some i → l !! i = Some x → P y = P x → first P (<[i := y]> l) = Some i.
Proof.
  intros Hf Hx Hy. revert i Hf Hx. induction l as [|a l IH]; intros i Hf Hx; [done|].
  cbn [first] in Hf. destruct (P a) eqn:Ea.
  - injection Hf as <-. injection Hx as ->. change (<[0%nat := y]> (x :: l)) with (y :: l). cbn [first]. by rewrite Hy, Ea.
  - destruct (first P l) as [j|] eqn:Ej; [|done]. injection Hf as <-.
    change (<[S j := y]> (a :: l)) with (a :: <[j := y]> l). cbn [first]. by rewrite Ea, (IH j).
Qed.

Lemma find_load_set i s s' name t :
  loads_ok t → find_load name t = Some i → rd (g_loads t) (Z.of_nat i) = Some s → ld_name s' = ld_name s →
  ∃ l, wr (g_loads t) (Z.of_nat i) s' = Some l ∧ (∀ u, loads_ok (mk_loads l (g_load_count t) u)) ∧
    (∀ u, find_load name (mk_loads l (g_load_count t) u) = Some i) ∧ rd l (Z.of_nat i) = Some s'.
Proof.
  intros [Hb Hc] Hf Hs En. unfold find_load in *. pose proof (first_lt _ _ _ Hf) as Hi.
  rewrite packed_length in Hi by lia.
  destruct (packed_set (g_load_count t) (g_loads t) (Z.of_nat i) s') as (l & El & Hl & Ep & _); [lia|lia|].
  exists l. split; [done|]. split; [intros u; split; cbn; lia|]. split.
  - intros u. cbn [g_load_count g_loads]. rewrite Ep, Nat2Z.id. clear El Hl Ep Hi.
    rewrite (packed_get (g_load_count t)) in Hs.
    2:{ pose proof (first_lt _ _ _ Hf) as Hi. rewrite packed_length in Hi by lia. lia. }
    rewrite Nat2Z.id in Hs. apply first_insert with s; [done|done|by rewrite En].
  - rewrite wr_ok in El by lia. injection El as <-. rewrite rd_lookup, Nat2Z.id by lia.
    apply list_lookup_insert_eq. unfold blen in Hb. lia.
Qed.

(** Loading an app again does nothing: its preload hook has run, and is not run again. *)
Lemma load_once name t :
  quiet_hooks → loads_ok t →
  ∃ r t1, app_kit_load name t = Some (r, t1) ∧ loads_ok t1 ∧ app_kit_load name t1 = Some (r, t1).
Proof.
  intros Hq Ht. unfold app_kit_load at 1. destruct name as [n|]; [|by do 2 eexists].
  destruct (find_load (Some n) t) as [i|] eqn:Ei; [|do 2 eexists; split; [done|]; split; [done|]; cbn; by rewrite Ei].
  pose proof Ht as [Hb Hc]. pose proof (first_lt _ _ _ Ei) as Hi. rewrite packed_length in Hi by lia.
  destruct (rd_ok (g_loads t) (Z.of_nat i)) as [s Es]; [lia|]. rewrite Es. cbn [mbind option_bind].
  destruct (ld_loaded s) eqn:El, (ld_fn s) as [f|] eqn:Ef;
    try (do 2 eexists; split; [done|]; split; [done|]; cbn; rewrite Ei, Es; cbn; by rewrite El, ?Ef).
  destruct (find_load_set i s (mk_load_slot (ld_name s) (Some f) true) (Some n) t Ht Ei Es eq_refl) as (l & -> & Hok & Hfind & Hrd).
  cbn [mbind option_bind]. destruct (Hq f (mk_loads l (g_load_count t) (load_env t))) as [u ->].
  cbn [mbind option_bind g_loads g_load_count]. do 2 eexists. split; [done|]. split; [apply Hok|].
  cbn [app_kit_load]. rewrite Hfind. cbn [g_loads]. by rewrite Hrd.
Qed.
End Loads.
Arguments load_table : clear implicits.
Arguments app_kit_load_slot_t : clear implicits.
