(* ===== verification/Widgets.v ===== *)
(** * Widgets (apps/ui.c, apps/ui.h)

    The heap of widgets, contexts and themes: a pointer is the number of an object, and
    reaching a freed object is a fault.  Widgets form trees through their lists of
    children; layouts compute rectangles in 16-bit integers; drawing goes to the display
    of FwUi.  Recursion along children has the number of widgets as fuel. *)

From Stdlib Require Import ZArith Lia.
From stdpp Require Import base tactics option numbers gmap list.
From S2P Require Import Prelude.
From S2P Require Import CString.
From S2P Require Import Runs.
From S2P Require Import Input.
From S2P Require Import Ssd1306.
From S2P Require Import FwUi.

(** The 16-bit signed value of an [int]. *)
Definition i16 (z : Z) : Z := (z + 2 ^ 15) mod 2 ^ 16 - 2 ^ 15.

Definition UI_MAX_CHILDREN : Z := 16.
Definition UI_MAX_FOCUSABLE : Z := 64.

Inductive ui_widget_type_t :=
  UI_WIDGET_CONTAINER | UI_WIDGET_LABEL | UI_WIDGET_BUTTON | UI_WIDGET_IMAGE | UI_WIDGET_SLIDER
| UI_WIDGET_SWITCH | UI_WIDGET_CHECKBOX | UI_WIDGET_LIST | UI_WIDGET_GRIDVIEW | UI_WIDGET_TEXTINPUT
| UI_WIDGET_PROGRESS | UI_WIDGET_SPINNER | UI_WIDGET_CUSTOM.
Inductive ui_flex_dir_t :=
  UI_FLEX_DIR_ROW | UI_FLEX_DIR_COL | UI_FLEX_DIR_ROW_REVERSE | UI_FLEX_DIR_COL_REVERSE.
Inductive ui_justify_t :=
  UI_JUSTIFY_START | UI_JUSTIFY_CENTER | UI_JUSTIFY_END | UI_JUSTIFY_SPACE_BETWEEN
| UI_JUSTIFY_SPACE_AROUND | UI_JUSTIFY_SPACE_EVENLY.
Inductive ui_align_t :=
  UI_ALIGN_START | UI_ALIGN_CENTER | UI_ALIGN_END | UI_ALIGN_STRETCH | UI_ALIGN_BASELINE.
Inductive ui_size_mode_t :=
  UI_SIZE_MODE_AUTO | UI_SIZE_MODE_FIXED | UI_SIZE_MODE_FLEX | UI_SIZE_MODE_PERCENT.

Definition is_flex (m : ui_size_mode_t) : bool := match m with UI_SIZE_MODE_FLEX => true | _ => false end.
Definition is_fixed (m : ui_size_mode_t) : bool := match m with UI_SIZE_MODE_FIXED => true | _ => false end.

Record ui_rect_t := mk_rect { rc_x : Z; rc_y : Z; rc_w : Z; rc_h : Z }.
Record ui_margin_t := mk_margin { mg_left : Z; mg_top : Z; mg_right : Z; mg_bottom : Z }.
Record ui_color_t := mk_color { cl_r : Z; cl_g : Z; cl_b : Z; cl_a : Z }.
Record ui_colors_t := mk_colors {
  cs_bg : ui_color_t; cs_fg : ui_color_t; cs_border : ui_color_t; cs_focus : ui_color_t; cs_disabled : ui_color_t
}.
Record ui_text_style_t := mk_text_style {
  ts_font_size : Z; ts_font_family : list Z; ts_bold : bool; ts_italic : bool; ts_line_height : Z; ts_align : ui_align_t
}.
Record ui_layout_params_t := mk_layout {
  lp_width_mode : ui_size_mode_t; lp_height_mode : ui_size_mode_t; lp_width : Z; lp_height : Z;
  lp_min_w : Z; lp_min_h : Z; lp_max_w : Z; lp_max_h : Z; lp_flex_grow : Z; lp_flex_shrink : Z; lp_flex_basis : Z
}.
Record ui_style_t := mk_style {
  st_colors : ui_colors_t; st_text : ui_text_style_t; st_margin : ui_margin_t; st_padding : ui_margin_t;
  st_border_width : Z; st_border_radius : Z; st_flags : Z
}.
Record ui_container := mk_container {
  ct_flex_dir : ui_flex_dir_t; ct_justify : ui_justify_t; ct_align : ui_align_t; ct_gap : Z;
  ct_grid_cols : Z; ct_grid_rows : Z; ct_is_scroll : bool; ct_scroll_offset : Z
}.

(** The functions of ui.c that widgets point to. *)
Inductive ui_layout_cb_t := container_layout_fn | grid_layout_fn | scroll_layout_fn.
Inductive ui_draw_cb_t :=
  label_draw_fn | button_draw_fn | slider_draw_fn | switch_draw_fn | checkbox_draw_fn | list_draw_fn
| textinput_draw_fn | progress_draw_fn | spinner_draw_fn | image_draw_fn.

Definition UI_COLOR_WHITE := mk_color 255 255 255 255.
Definition UI_COLOR_BLACK := mk_color 0 0 0 255.
Definition UI_COLOR_RED := mk_color 255 0 0 255.
Definition UI_COLOR_GREEN := mk_color 0 255 0 255.
Definition UI_COLOR_BLUE := mk_color 0 0 255 255.
Definition UI_COLOR_GRAY := mk_color 128 128 128 255.
Definition UI_COLOR_LTGRAY := mk_color 200 200 200 255.
Definition UI_COLOR_DKGRAY := mk_color 64 64 64 255.

(** The style new widgets and the default theme have. *)
Definition default_text_style : ui_text_style_t :=
  mk_text_style 14 [100; 101; 102; 97; 117; 108; 116] false false 18 UI_ALIGN_START.
Definition default_style : ui_style_t :=
  mk_style (mk_colors UI_COLOR_WHITE UI_COLOR_BLACK UI_COLOR_GRAY UI_COLOR_BLUE UI_COLOR_DKGRAY)
    default_text_style (mk_margin 0 0 0 0) (mk_margin 8 8 8 8) 1 4 0.
Definition zero_text_style : ui_text_style_t := mk_text_style 0 [] false false 0 UI_ALIGN_START.
Definition zero_container : ui_container :=
  mk_container UI_FLEX_DIR_ROW UI_JUSTIFY_START UI_ALIGN_START 0 0 0 false 0.

Record ui_theme_t := mk_theme {
  th_name : list Z; th_base_style : ui_style_t; th_colors : list ui_color_t;
  th_text_styles : list ui_text_style_t; th_color_count : Z; th_text_style_count : Z
}.
Record ui_context := mk_ctx {
  cx_root : option nat; cx_focused : option nat; cx_theme : option nat; cx_canvas_w : Z; cx_canvas_h : Z;
  cx_logical_w : Z; cx_logical_h : Z; cx_display : option app_display_t
}.

Section Widgets.
(** Code of the applications' callbacks, their arguments, and the rest of the world. *)
Context {C A E : Type}.

Inductive ui_callback_t := button_click_fn | app_callback (c : C).

Record ui_widget := mk_widget {
  w_type : ui_widget_type_t;
  w_name : list Z;
  w_ctx : option nat;
  w_rect : ui_rect_t;
  w_layout : ui_layout_params_t;
  w_style : ui_style_t;
  w_parent : option nat;
  w_children : list nat;
  w_ref_count : Z;
  w_visible : bool;
  w_enabled : bool;
  w_focused : bool;
  w_dirty : bool;
  w_on_click : option ui_callback_t;
  w_on_focus : option ui_callback_t;
  w_on_blur : option ui_callback_t;
  w_on_value_change : option ui_callback_t;
  w_draw : option ui_draw_cb_t;
  w_layout_fn : option ui_layout_cb_t;
  w_user : option A;
  w_cont : option ui_container
}.

Definition set_rect (r : ui_rect_t) (w : ui_widget) : ui_widget :=
  mk_widget (w_type w) (w_name w) (w_ctx w) r (w_layout w) (w_style w) (w_parent w) (w_children w)
    (w_ref_count w) (w_visible w) (w_enabled w) (w_focused w) (w_dirty w) (w_on_click w) (w_on_focus
    w) (w_on_blur w) (w_on_value_change w) (w_draw w) (w_layout_fn w) (w_user w) (w_cont w).
Definition set_layout (l : ui_layout_params_t) (w : ui_widget) : ui_widget :=
  mk_widget (w_type w) (w_name w) (w_ctx w) (w_rect w) l (w_style w) (w_parent w) (w_children w)
    (w_ref_count w) (w_visible w) (w_enabled w) (w_focused w) (w_dirty w) (w_on_click w) (w_on_focus
    w) (w_on_blur w) (w_on_value_change w) (w_draw w) (w_layout_fn w) (w_user w) (w_cont w).
Definition set_style (y : ui_style_t) (w : ui_widget) : ui_widget :=
  mk_widget (w_type w) (w_name w) (w_ctx w) (w_rect w) (w_layout w) y (w_parent w) (w_children w)
    (w_ref_count w) (w_visible w) (w_enabled w) (w_focused w) (w_dirty w) (w_on_click w) (w_on_focus
    w) (w_on_blur w) (w_on_value_change w) (w_draw w) (w_layout_fn w) (w_user w) (w_cont w).
Definition set_parent (p : option nat) (w : ui_widget) : ui_widget :=
  mk_widget (w_type w) (w_name w) (w_ctx w) (w_rect w) (w_layout w) (w_style w) p (w_children w)
    (w_ref_count w) (w_visible w) (w_enabled w) (w_focused w) (w_dirty w) (w_on_click w) (w_on_focus
    w) (w_on_blur w) (w_on_value_change w) (w_draw w) (w_layout_fn w) (w_user w) (w_cont w).
Definition set_children (l : list nat) (w : ui_widget) : ui_widget :=
  mk_widget (w_type w) (w_name w) (w_ctx w) (w_rect w) (w_layout w) (w_style w) (w_parent w) l
    (w_ref_count w) (w_visible w) (w_enabled w) (w_focused w) (w_dirty w) (w_on_click w) (w_on_focus
    w) (w_on_blur w) (w_on_value_change w) (w_draw w) (w_layout_fn w) (w_user w) (w_cont w).
Definition set_visible (b : bool) (w : ui_widget) : ui_widget :=
  mk_widget (w_type w) (w_name w) (w_ctx w) (w_rect w) (w_layout w) (w_style w) (w_parent w)
    (w_children w) (w_ref_count w) b (w_enabled w) (w_focused w) (w_dirty w) (w_on_click w)
    (w_on_focus w) (w_on_blur w) (w_on_value_change w) (w_draw w) (w_layout_fn w) (w_user w) (w_cont
    w).
Definition set_focused (b : bool) (w : ui_widget) : ui_widget :=
  mk_widget (w_type w) (w_name w) (w_ctx w) (w_rect w) (w_layout w) (w_style w) (w_parent w)
    (w_children w) (w_ref_count w) (w_visible w) (w_enabled w) b (w_dirty w) (w_on_click w)
    (w_on_focus w) (w_on_blur w) (w_on_value_change w) (w_draw w) (w_layout_fn w) (w_user w) (w_cont
    w).
Definition set_dirty (b : bool) (w : ui_widget) : ui_widget :=
  mk_widget (w_type w) (w_name w) (w_ctx w) (w_rect w) (w_layout w) (w_style w) (w_parent w)
    (w_children w) (w_ref_count w) (w_visible w) (w_enabled w) (w_focused w) b (w_on_click w)
    (w_on_focus w) (w_on_blur w) (w_on_value_change w) (w_draw w) (w_layout_fn w) (w_user w) (w_cont
    w).
Definition set_click (cb : option ui_callback_t) (w : ui_widget) : ui_widget :=
  mk_widget (w_type w) (w_name w) (w_ctx w) (w_rect w) (w_layout w) (w_style w) (w_parent w)
    (w_children w) (w_ref_count w) (w_visible w) (w_enabled w) (w_focused w) (w_dirty w) cb
    (w_on_focus w) (w_on_blur w) (w_on_value_change w) (w_draw w) (w_layout_fn w) (w_user w) (w_cont
    w).
Definition set_change (cb : option ui_callback_t) (w : ui_widget) : ui_widget :=
  mk_widget (w_type w) (w_name w) (w_ctx w) (w_rect w) (w_layout w) (w_style w) (w_parent w)
    (w_children w) (w_ref_count w) (w_visible w) (w_enabled w) (w_focused w) (w_dirty w) (w_on_click
    w) (w_on_focus w) (w_on_blur w) cb (w_draw w) (w_layout_fn w) (w_user w) (w_cont w).
Definition set_user (a : option A) (w : ui_widget) : ui_widget :=
  mk_widget (w_type w) (w_name w) (w_ctx w) (w_rect w) (w_layout w) (w_style w) (w_parent w)
    (w_children w) (w_ref_count w) (w_visible w) (w_enabled w) (w_focused w) (w_dirty w) (w_on_click
    w) (w_on_focus w) (w_on_blur w) (w_on_value_change w) (w_draw w) (w_layout_fn w) a (w_cont w).
Definition set_draw (d : option ui_draw_cb_t) (w : ui_widget) : ui_widget :=
  mk_widget (w_type w) (w_name w) (w_ctx w) (w_rect w) (w_layout w) (w_style w) (w_parent w)
    (w_children w) (w_ref_count w) (w_visible w) (w_enabled w) (w_focused w) (w_dirty w) (w_on_click
    w) (w_on_focus w) (w_on_blur w) (w_on_value_change w) d (w_layout_fn w) (w_user w) (w_cont w).
Definition set_layout_fn (f : option ui_layout_cb_t) (w : ui_widget) : ui_widget :=
  mk_widget (w_type w) (w_name w) (w_ctx w) (w_rect w) (w_layout w) (w_style w) (w_parent w)
    (w_children w) (w_ref_count w) (w_visible w) (w_enabled w) (w_focused w) (w_dirty w) (w_on_click
    w) (w_on_focus w) (w_on_blur w) (w_on_value_change w) (w_draw w) f (w_user w) (w_cont w).
Definition set_cont (c : ui_container) (w : ui_widget) : ui_widget :=
  mk_widget (w_type w) (w_name w) (w_ctx w) (w_rect w) (w_layout w) (w_style w) (w_parent w)
    (w_children w) (w_ref_count w) (w_visible w) (w_enabled w) (w_focused w) (w_dirty w) (w_on_click
    w) (w_on_focus w) (w_on_blur w) (w_on_value_change w) (w_draw w) (w_layout_fn w) (w_user w)
    (Some c).


Record ui_state := mk_ui {
  ui_widgets : gmap nat ui_widget; ui_contexts : gmap nat ui_context; ui_themes : gmap nat ui_theme_t;
  ui_next : nat; ui_env : E
}.
Implicit Types (w : ui_widget) (s : ui_state) (i c t : nat) (o ctx widget : option nat).

(** Fuel for recursion along children. *)
Definition tree_fuel s : nat := S (size (ui_widgets s)).

Definition put_widget i w s : ui_state :=
  mk_ui (<[i := w]> (ui_widgets s)) (ui_contexts s) (ui_themes s) (ui_next s) (ui_env s).
Definition put_context c (cx : ui_context) s : ui_state :=
  mk_ui (ui_widgets s) (<[c := cx]> (ui_contexts s)) (ui_themes s) (ui_next s) (ui_env s).
Definition put_theme t (th : ui_theme_t) s : ui_state :=
  mk_ui (ui_widgets s) (ui_contexts s) (<[t := th]> (ui_themes s)) (ui_next s) (ui_env s).
Definition bump s : ui_state :=
  mk_ui (ui_widgets s) (ui_contexts s) (ui_themes s) (S (ui_next s)) (ui_env s).
Definition free_widget i s : option ui_state :=
  _ ← ui_widgets s !! i;
  Some (mk_ui (delete i (ui_widgets s)) (ui_contexts s) (ui_themes s) (ui_next s) (ui_env s)).
Definition free_context c s : option ui_state :=
  _ ← ui_contexts s !! c;
  Some (mk_ui (ui_widgets s) (delete c (ui_contexts s)) (ui_themes s) (ui_next s) (ui_env s)).
Definition free_theme t s : option ui_state :=
  _ ← ui_themes s !! t;
  Some (mk_ui (ui_widgets s) (ui_contexts s) (delete t (ui_themes s)) (ui_next s) (ui_env s)).

(** Change the widget at [i], which must be live. *)
Definition at_widget i (f : ui_widget → ui_widget) s : option ui_state :=
  w ← ui_widgets s !! i; Some (put_widget i (f w) s).

Definition set_cx_focused o (cx : ui_context) : ui_context :=
  mk_ctx (cx_root cx) o (cx_theme cx) (cx_canvas_w cx) (cx_canvas_h cx) (cx_logical_w cx) (cx_logical_h cx)
    (cx_display cx).
Definition set_cx_theme o (cx : ui_context) : ui_context :=
  mk_ctx (cx_root cx) (cx_focused cx) o (cx_canvas_w cx) (cx_canvas_h cx) (cx_logical_w cx) (cx_logical_h cx)
    (cx_display cx).
Definition set_cx_display (d : option app_display_t) (cx : ui_context) : ui_context :=
  mk_ctx (cx_root cx) (cx_focused cx) (cx_theme cx) (cx_canvas_w cx) (cx_canvas_h cx) (cx_logical_w cx)
    (cx_logical_h cx) d.

(** ** Themes *)

Definition ui_theme_create_default (ok : bool) s : option nat * ui_state :=
  if negb ok then (None, s) else
  (Some (ui_next s),
   bump (put_theme (ui_next s)
     (mk_theme [100; 101; 102; 97; 117; 108; 116] default_style
       ([UI_COLOR_WHITE; UI_COLOR_BLACK; UI_COLOR_BLUE; UI_COLOR_RED; UI_COLOR_GREEN; UI_COLOR_GRAY;
         UI_COLOR_LTGRAY; UI_COLOR_DKGRAY] ++ replicate 8 (mk_color 0 0 0 0))
       (replicate 8 zero_text_style) 8 0) s)).

Definition ui_theme_destroy o s : option ui_state :=
  match o with None => Some s | Some t => free_theme t s end.

Definition ui_theme_set_color o (index : Z) (color : ui_color_t) s : option ui_state :=
  match o with
  | Some t =>
    if index <? 16 then
      th ← ui_themes s !! t; cs ← wr (th_colors th) index color;
      Some (put_theme t (mk_theme (th_name th) (th_base_style th) cs (th_text_styles th) (th_color_count th)
                           (th_text_style_count th)) s)
    else Some s
  | None => Some s
  end.

Definition ui_theme_set_text_style o (index : Z) (style : option ui_text_style_t) s : option ui_state :=
  match o, style with
  | Some t, Some style =>
    if index <? 8 then
      th ← ui_themes s !! t; ss ← wr (th_text_styles th) index style;
      Some (put_theme t (mk_theme (th_name th) (th_base_style th) (th_colors th) ss (th_color_count th)
                           (th_text_style_count th)) s)
    else Some s
  | _, _ => Some s
  end.

(** ** Widgets and their trees *)

(** [strncpy (w->name, name, 31)] into a cleared buffer of 32 bytes. *)
Definition widget_name (name : option (list Z)) : list Z :=
  match name with Some n => strncpy (zeros 32) n 31 | None => zeros 32 end.

Definition default_layout : ui_layout_params_t :=
  mk_layout UI_SIZE_MODE_AUTO UI_SIZE_MODE_AUTO 0 0 0 0 65535 65535 0 1 0.

Definition widget_alloc (ok : bool) ctx (type : ui_widget_type_t) (name : option (list Z))
    (cont : option ui_container) s : option nat * ui_state :=
  if negb ok then (None, s) else
  (Some (ui_next s),
   bump (put_widget (ui_next s)
     (mk_widget type (widget_name name) ctx (mk_rect 0 0 0 0) default_layout default_style None [] 1
        true true false true None None None None None None None cont) s)).

Definition ui_widget_create (ok : bool) ctx (type : ui_widget_type_t) (name : option (list Z)) s
    : option nat * ui_state :=
  widget_alloc ok ctx type name None s.

Fixpoint destroy_rec (fuel : nat) i s : option ui_state :=
  match fuel with
  | O => None
  | S n =>
    w ← ui_widgets s !! i;
    s ← each (destroy_rec n) (w_children w) s;
    free_widget i s
  end.
Definition ui_widget_destroy widget s : option ui_state :=
  match widget with None => Some s | Some i => destroy_rec (tree_fuel s) i s end.

Definition ui_widget_add_child (parent child : option nat) s : option (Z * ui_state) :=
  match parent, child with
  | Some p, Some k =>
    w ← ui_widgets s !! p;
    if UI_MAX_CHILDREN <=? blen (w_children w) then Some (-1, s) else
    s ← at_widget k (set_parent (Some p)) s;
    s ← at_widget p (λ w, set_dirty true (set_children (w_children w ++ [k]) w)) s;
    Some (0, s)
  | _, _ => Some (-1, s)
  end.

(** The children after the first occurrence of [k] is taken out and the rest moved down. *)
Fixpoint without_first (k : nat) (l : list nat) : option (list nat) :=
  match l with
  | [] => None
  | j :: l => if bool_decide (j = k) then Some l else l ← without_first k l; Some (j :: l)
  end.

Definition ui_widget_remove_child (parent child : option nat) s : option (Z * ui_state) :=
  match parent, child with
  | Some p, Some k =>
    w ← ui_widgets s !! p;
    match without_first k (w_children w) with
    | None => Some (-1, s)
    | Some l =>
      s ← at_widget p (set_children l) s;
      s ← at_widget k (set_parent None) s;
      s ← at_widget p (set_dirty true) s;
      Some (0, s)
    end
  | _, _ => Some (-1, s)
  end.

Definition if_widget widget (f : ui_widget → ui_widget) s : option ui_state :=
  match widget with None => Some s | Some i => at_widget i f s end.

Definition ui_widget_set_rect widget (x y w h : Z) : ui_state → option ui_state :=
  if_widget widget (λ wd, set_dirty true (set_rect (mk_rect x y w h) wd)).

Definition ui_widget_set_layout widget (layout : option ui_layout_params_t) s : option ui_state :=
  match layout with
  | None => Some s
  | Some l => if_widget widget (λ wd, set_dirty true (set_layout l wd)) s
  end.

Definition ui_widget_set_style widget (style : option ui_style_t) s : option ui_state :=
  match style with
  | None => Some s
  | Some y => if_widget widget (λ wd, set_dirty true (set_style y wd)) s
  end.

Definition set_margin (m : ui_margin_t) (y : ui_style_t) : ui_style_t :=
  mk_style (st_colors y) (st_text y) m (st_padding y) (st_border_width y) (st_border_radius y) (st_flags y).
Definition set_padding (m : ui_margin_t) (y : ui_style_t) : ui_style_t :=
  mk_style (st_colors y) (st_text y) (st_margin y) m (st_border_width y) (st_border_radius y) (st_flags y).

Definition ui_widget_set_margin widget (l t r b : Z) : ui_state → option ui_state :=
  if_widget widget (λ wd, set_dirty true (set_style (set_margin (mk_margin l t r b) (w_style wd)) wd)).
Definition ui_widget_set_padding widget (l t r b : Z) : ui_state → option ui_state :=
  if_widget widget (λ wd, set_dirty true (set_style (set_padding (mk_margin l t r b) (w_style wd)) wd)).

Definition ui_widget_set_callback widget (cb : option ui_callback_t) (arg : option A)
    : ui_state → option ui_state :=
  if_widget widget (λ wd, set_user arg (set_click cb wd)).

(** ** Contexts *)

(** The outcome of the allocations of the context, its theme and its root. *)
Definition ui_context_create (ok_ctx ok_theme ok_root : bool) (logical_w logical_h canvas_w canvas_h : Z) s
    : option (option nat * ui_state) :=
  if negb ok_ctx then Some (None, s) else
  let c := ui_next s in
  let s := bump s in
  let '(theme, s) := ui_theme_create_default ok_theme s in
  let '(root, s) := ui_widget_create ok_root (Some c) UI_WIDGET_CONTAINER (Some [114; 111; 111; 116]) s in
  let s := put_context c (mk_ctx root None theme canvas_w canvas_h logical_w logical_h None) s in
  s ← if_widget root (λ w,
        set_layout (mk_layout UI_SIZE_MODE_FIXED UI_SIZE_MODE_FIXED logical_w logical_h 0 0 65535 65535 0 1 0)
          (set_rect (mk_rect 0 0 logical_w logical_h) w)) s;
  Some (Some c, s).

Definition ui_context_destroy ctx s : option ui_state :=
  match ctx with
  | None => Some s
  | Some c =>
    cx ← ui_contexts s !! c;
    s ← ui_widget_destroy (cx_root cx) s;
    s ← ui_theme_destroy (cx_theme cx) s;
    free_context c s
  end.

Definition ui_context_set_theme ctx (theme : option nat) s : option ui_state :=
  match ctx, theme with
  | Some c, Some t =>
    cx ← ui_contexts s !! c;
    s ← ui_theme_destroy (cx_theme cx) s;
    Some (put_context c (set_cx_theme (Some t) cx) s)
  | _, _ => Some s
  end.

Definition ui_context_set_display ctx (display : option app_display_t) s : option ui_state :=
  match ctx with
  | None => Some s
  | Some c => cx ← ui_contexts s !! c; Some (put_context c (set_cx_display display cx) s)
  end.

(** ** Focus and callbacks *)

(** What the code behind a callback does. *)
Context (code : C → nat → option A → ui_state → option ui_state).

(** A call through a callback pointer; [button_click] calls the [on_click] of its widget. *)
Fixpoint call_back (fuel : nat) (cb : ui_callback_t) i (arg : option A) s : option ui_state :=
  match fuel with
  | O => None
  | S n =>
    match cb with
    | app_callback c => code c i arg s
    | button_click_fn =>
      w ← ui_widgets s !! i;
      match w_on_click w with Some cb => call_back n cb i arg s | None => Some s end
    end
  end.

(** One call of [button_click] leads to another function, or to itself for ever. *)
Definition call_opt (cb : option ui_callback_t) i (arg : option A) s : option ui_state :=
  match cb with Some cb => call_back 2 cb i arg s | None => Some s end.

Definition ui_widget_unfocus widget s : option ui_state :=
  match widget with
  | None => Some s
  | Some i =>
    w ← ui_widgets s !! i;
    if w_focused w then
      let s := put_widget i (set_focused false w) s in
      s ← match w_ctx w with
          | None => Some s
          | Some c =>
            cx ← ui_contexts s !! c;
            Some (if bool_decide (cx_focused cx = Some i) then put_context c (set_cx_focused None cx) s else s)
          end;
      call_opt (w_on_blur w) i (w_user w) s
    else Some s
  end.

(** [widget->ctx && widget->ctx->focused && widget->ctx->focused != widget] *)
Definition other_focused i ctx s : option (option nat) :=
  match ctx with
  | None => Some None
  | Some c =>
    cx ← ui_contexts s !! c;
    Some match cx_focused cx with Some j => if bool_decide (j = i) then None else Some j | None => None end
  end.

Definition ui_widget_focus widget s : option (Z * ui_state) :=
  match widget with
  | None => Some (-1, s)
  | Some i =>
    w ← ui_widgets s !! i;
    if negb (w_enabled w) then Some (-1, s) else
    other ← other_focused i (w_ctx w) s;
    s ← ui_widget_unfocus other s;
    s ← at_widget i (set_focused true) s;
    w ← ui_widgets s !! i;
    s ← match w_ctx w with
        | None => Some s
        | Some c => cx ← ui_contexts s !! c; Some (put_context c (set_cx_focused (Some i) cx) s)
        end;
    s ← call_opt (w_on_focus w) i (w_user w) s;
    Some (0, s)
  end.

Definition ui_widget_get_focused ctx s : option (option nat) :=
  match ctx with None => Some None | Some c => cx ← ui_contexts s !! c; Some (cx_focused cx) end.

(** ** Keys *)

Definition is_some_cb (cb : option ui_callback_t) : bool := if cb is Some _ then true else false.

Definition widget_is_focusable w : bool :=
  w_enabled w && w_visible w && (is_some_cb (w_on_click w) || is_some_cb (w_on_value_change w)).

(** [out] is the array as far as it is filled. *)
Fixpoint collect_focusable (fuel : nat) s i (out : list nat) : option (list nat) :=
  match fuel with
  | O => None
  | S n =>
    if UI_MAX_FOCUSABLE <=? blen out then Some out else
    w ← ui_widgets s !! i;
    each (collect_focusable n s) (w_children w) (if widget_is_focusable w then out ++ [i] else out)
  end.

(** The place of the focused widget in the array, or -1. *)
Fixpoint index_of o (l : list nat) (k : Z) : Z :=
  match l with
  | [] => -1
  | i :: l => if bool_decide (Some i = o) then k else index_of o l (k + 1)
  end.

Definition focus_next c s : option ui_state :=
  cx ← ui_contexts s !! c;
  focusable ← match cx_root cx with
              | Some r => collect_focusable (tree_fuel s) s r []
              | None => Some []
              end;
  let count := blen focusable in
  if count =? 0 then Some s else
  let current := index_of (cx_focused cx) focusable 0 in
  next ← rd focusable (Z.rem (current + 1) count);
  s ← ui_widget_unfocus (cx_focused cx) s;
  '(_, s) ← ui_widget_focus (Some next) s;
  Some s.

Definition INPUT_KEY_ENTER : Z := 5.
Definition INPUT_KEY_TAB : Z := 44.

Definition ui_input_event ctx (event : option input_event_t) s : option ui_state :=
  match ctx, event with
  | Some c, Some ev =>
    if negb (iv_type ev =? INPUT_EVENT_KEY_DOWN) then Some s else
    if iv_key ev =? INPUT_KEY_TAB then focus_next c s else
    if iv_key ev =? INPUT_KEY_ENTER then
      cx ← ui_contexts s !! c;
      match cx_focused cx with
      | Some i => w ← ui_widgets s !! i; call_opt (w_on_click w) i (w_user w) s
      | None => Some s
      end
    else Some s
  | _, _ => Some s
  end.

(** ** Widgets of each kind *)

(** A widget made by [ui_widget_create] and then set up. *)
Definition made (r : option nat * ui_state) (f : ui_widget → ui_widget) : option (option nat * ui_state) :=
  let '(o, s) := r in s ← if_widget o f s; Some (o, s).

(** A fixed size, over whatever else the layout parameters say. *)
Definition fixed_size (width height : Z) w : ui_widget :=
  let l := w_layout w in
  set_layout (mk_layout UI_SIZE_MODE_FIXED UI_SIZE_MODE_FIXED width height (lp_min_w l) (lp_min_h l)
                (lp_max_w l) (lp_max_h l) (lp_flex_grow l) (lp_flex_shrink l) (lp_flex_basis l)) w.

Definition ui_label_create ok ctx (text : option (list Z)) s :=
  made (ui_widget_create ok ctx UI_WIDGET_LABEL text s) (set_draw (Some label_draw_fn)).

Definition ui_button_create ok ctx (text : option (list Z)) (cb : option ui_callback_t) s :=
  made (ui_widget_create ok ctx UI_WIDGET_BUTTON text s)
    (λ w, fixed_size 100 32
            (set_click (Some (match cb with Some f => f | None => button_click_fn end))
               (set_draw (Some button_draw_fn) w))).

Definition ui_slider_create ok ctx (min max value : Z) s :=
  made (ui_widget_create ok ctx UI_WIDGET_SLIDER (Some [115; 108; 105; 100; 101; 114]) s)
    (λ w, fixed_size 200 24 (set_draw (Some slider_draw_fn) w)).

Definition ui_switch_create ok ctx (value : bool) (cb : option ui_callback_t) s :=
  made (ui_widget_create ok ctx UI_WIDGET_SWITCH (Some [115; 119; 105; 116; 99; 104]) s)
    (λ w, fixed_size 52 28 (set_click cb (set_draw (Some switch_draw_fn) w))).

Definition ui_checkbox_create ok ctx (label : option (list Z)) (value : bool) (cb : option ui_callback_t) s :=
  made (ui_widget_create ok ctx UI_WIDGET_CHECKBOX label s)
    (λ w, fixed_size 200 24 (set_click cb (set_draw (Some checkbox_draw_fn) w))).

Definition ui_list_create ok ctx s :=
  made (ui_widget_create ok ctx UI_WIDGET_LIST (Some [108; 105; 115; 116]) s) (set_draw (Some list_draw_fn)).

Definition ui_gridview_create ok ctx s : option nat * ui_state :=
  ui_widget_create ok ctx UI_WIDGET_GRIDVIEW (Some [103; 114; 105; 100; 118; 105; 101; 119]) s.

Definition ui_textinput_create ok ctx (placeholder : option (list Z)) (cb : option ui_callback_t) s :=
  made (ui_widget_create ok ctx UI_WIDGET_TEXTINPUT placeholder s)
    (λ w, fixed_size 200 24 (set_change cb (set_draw (Some textinput_draw_fn) w))).

Definition ui_progress_create ok ctx (min max value : Z) s :=
  made (ui_widget_create ok ctx UI_WIDGET_PROGRESS (Some [112; 114; 111; 103; 114; 101; 115; 115]) s)
    (λ w, fixed_size 200 24 (set_draw (Some progress_draw_fn) w)).

Definition ui_spinner_create ok ctx s :=
  made (ui_widget_create ok ctx UI_WIDGET_SPINNER (Some [115; 112; 105; 110; 110; 101; 114]) s)
    (λ w, fixed_size 32 32 (set_draw (Some spinner_draw_fn) w)).

Definition ui_image_create ok ctx (width height : Z) s :=
  made (ui_widget_create ok ctx UI_WIDGET_IMAGE (Some [105; 109; 97; 103; 101]) s)
    (λ w, fixed_size width height (set_draw (Some image_draw_fn) w)).

(** ** Containers *)

Definition ui_flex_create ok ctx (dir : ui_flex_dir_t) (justify : ui_justify_t) (align : ui_align_t) (gap : Z) s :=
  made (widget_alloc ok ctx UI_WIDGET_CONTAINER (Some [102; 108; 101; 120]) (Some zero_container) s)
    (λ w, set_layout_fn (Some container_layout_fn) (set_cont (mk_container dir justify align gap 0 0 false 0) w)).

Definition ui_grid_create ok ctx (cols rows gap : Z) s :=
  made (widget_alloc ok ctx UI_WIDGET_CONTAINER (Some [103; 114; 105; 100]) (Some zero_container) s)
    (λ w, set_layout_fn (Some grid_layout_fn)
            (set_cont (mk_container UI_FLEX_DIR_ROW UI_JUSTIFY_START UI_ALIGN_START gap
                         (if 0 <? cols then cols else 1) rows false 0) w)).

Definition ui_scroll_create ok ctx (dir : ui_flex_dir_t) s :=
  made (widget_alloc ok ctx UI_WIDGET_CONTAINER (Some [115; 99; 114; 111; 108; 108]) (Some zero_container) s)
    (λ w, set_layout_fn (Some scroll_layout_fn)
            (set_cont (mk_container dir UI_JUSTIFY_START UI_ALIGN_START 0 0 0 true 0) w)).

(** A container pointer that leads to a plain widget reads past its allocation. *)
Definition ui_scroll_set_offset (scroll : option nat) (offset : Z) s : option ui_state :=
  match scroll with
  | None => Some s
  | Some i =>
    w ← ui_widgets s !! i; c ← w_cont w;
    if negb (ct_is_scroll c) then Some s else
    let offset := if offset <? 0 then 0 else offset in
    Some (put_widget i (set_dirty true (set_cont
      (mk_container (ct_flex_dir c) (ct_justify c) (ct_align c) (ct_gap c) (ct_grid_cols c) (ct_grid_rows c)
         (ct_is_scroll c) offset) w)) s)
  end.
End Widgets.
