(* ===== verification/WidgetLayout.v ===== *)
(** * Layout and drawing of widgets (apps/ui.c)

    The layout functions of containers write the rectangles of children, in 16-bit
    integers that wrap; rendering draws the visible widgets from the root. *)

From Stdlib Require Import ZArith Lia.
From stdpp Require Import base tactics option numbers gmap list.
From S2P Require Import Prelude.
From S2P Require Import CString.
From S2P Require Import Runs.
From S2P Require Import Ssd1306.
From S2P Require Import FwUi.
From S2P Require Import Widgets.

Section WidgetLayout.
Context {C A E : Type}.
#[local] Abbreviation widget := (ui_widget (C := C) (A := A)).
#[local] Abbreviation state := (ui_state (C := C) (A := A) (E := E)).
Implicit Types (w : widget) (s : state).
Implicit Types (i k : nat) (row : bool).

(** ** Rows and columns *)

(** The content box: the rectangle of the widget without its padding. *)
Definition content_x w : Z := i16 (rc_x (w_rect w) + mg_left (st_padding (w_style w))).
Definition content_y w : Z := i16 (rc_y (w_rect w) + mg_top (st_padding (w_style w))).
Definition content_w w : Z :=
  i16 (rc_w (w_rect w) - mg_left (st_padding (w_style w)) - mg_right (st_padding (w_style w))).
Definition content_h w : Z :=
  i16 (rc_h (w_rect w) - mg_top (st_padding (w_style w)) - mg_bottom (st_padding (w_style w))).

(** Size along the direction of the children, and across it. *)
Definition main_mode row w : ui_size_mode_t :=
  if row then lp_width_mode (w_layout w) else lp_height_mode (w_layout w).
Definition main_size row w : Z := if row then lp_width (w_layout w) else lp_height (w_layout w).
Definition cross_mode row w : ui_size_mode_t := main_mode (negb row) w.
Definition cross_size row w : Z := main_size (negb row) w.

Definition is_row (d : ui_flex_dir_t) : bool :=
  match d with UI_FLEX_DIR_ROW | UI_FLEX_DIR_ROW_REVERSE => true | _ => false end.

(** First loop: [total_flex] and [fixed_w] (or [fixed_h]). *)
Definition flex_total row (gap : Z) s k (acc : Z * Z) : option (Z * Z) :=
  let '(total_flex, fixed) := acc in
  child ← ui_widgets s !! k;
  Some (if negb (w_visible child) then acc
        else if is_flex (main_mode row child) then (i16 (total_flex + lp_flex_grow (w_layout child)), fixed)
        else (total_flex, i16 (fixed + (main_size row child + gap)))).

(** The size a child gets along the container. *)
Definition main_share row (flex total_flex : Z) w : Z :=
  if is_flex (main_mode row w) && (0 <? total_flex)
  then u16 (Z.quot (flex * lp_flex_grow (w_layout w)) total_flex)
  else main_size row w.

Definition place_rect row (pos lead main cross : Z) : ui_rect_t :=
  if row then mk_rect (u16 pos) (u16 lead) main cross else mk_rect (u16 lead) (u16 pos) cross main.

(** Second loop: sizes and positions; [pos] runs along the container. *)
Definition flex_place row (gap flex total_flex lead cross : Z) k (acc : Z * state) : option (Z * state) :=
  let '(pos, s) := acc in
  child ← ui_widgets s !! k;
  if negb (w_visible child) then Some acc else
  let main := main_share row flex total_flex child in
  let other := if is_fixed (cross_mode row child) then cross_size row child else u16 cross in
  Some (i16 (pos + (main + gap)), put_widget k (set_rect (place_rect row pos lead main other) child) s).

(** Third loop: the visible children are marked and laid out themselves. *)
Definition layout_child (lay : ui_layout_cb_t → nat → state → option state) k s : option state :=
  child ← ui_widgets s !! k;
  if negb (w_visible child) then Some s else
  let s := put_widget k (set_dirty true child) s in
  match w_layout_fn child with Some f => lay f k s | None => Some s end.

Definition container_layout (lay : ui_layout_cb_t → nat → state → option state) i s : option state :=
  w ← ui_widgets s !! i; cont ← w_cont w;
  let row := is_row (ct_flex_dir cont) in
  let gap := ct_gap cont in
  '(total_flex, fixed) ← each (flex_total row gap s) (w_children w) (0, 0);
  let avail := if row then content_w w else content_h w in
  let flex := if fixed <? avail then i16 (avail - fixed) else 0 in
  let pos := if row then content_x w else content_y w in
  let lead := if row then content_y w else content_x w in
  let cross := if row then content_h w else content_w w in
  '(_, s) ← each (flex_place row gap flex total_flex lead cross) (w_children w) (pos, s);
  each (layout_child lay) (w_children w) s.

(** ** Grids *)

Definition count_visible s k (n : Z) : option Z :=
  child ← ui_widgets s !! k; Some (if w_visible child then n + 1 else n).

Definition grid_place (lay : ui_layout_cb_t → nat → state → option state)
    (cols x0 y0 cell_w cell_h gap : Z) k (acc : Z * state) : option (Z * state) :=
  let '(idx, s) := acc in
  child ← ui_widgets s !! k;
  if negb (w_visible child) then Some acc else
  let col := idx mod cols in
  let row := idx / cols in
  let r := mk_rect (u16 (i16 (u32 (x0 + u32 (col * u32 (cell_w + gap))))))
                   (u16 (i16 (u32 (y0 + u32 (row * u32 (cell_h + gap)))))) (u16 cell_w) (u16 cell_h) in
  let s := put_widget k (set_dirty true (set_rect r child)) s in
  s ← match w_layout_fn child with Some f => lay f k s | None => Some s end;
  Some (idx + 1, s).

Definition clamp0 (z : Z) : Z := if z <? 0 then 0 else z.

(** The size of a cell: what [n] of them and the gaps between them leave. *)
Definition cell_size (size n gap : Z) : Z := clamp0 (i16 (Z.quot (size - i16 (n - 1) * i16 gap) n)).

Definition grid_layout (lay : ui_layout_cb_t → nat → state → option state) i s : option state :=
  w ← ui_widgets s !! i; cont ← w_cont w;
  let cols := if 0 <? ct_grid_cols cont then ct_grid_cols cont else 1 in
  visible ← each (count_visible s) (w_children w) 0;
  if visible =? 0 then Some s else
  let rows := if ct_grid_rows cont =? 0 then u8 (u32 (visible + cols - 1) / cols) else ct_grid_rows cont in
  if rows =? 0 then None (* a division by zero *) else
  let cell_w := cell_size (content_w w) cols (ct_gap cont) in
  let cell_h := cell_size (content_h w) rows (ct_gap cont) in
  '(_, s) ← each (grid_place lay cols (content_x w) (content_y w) cell_w cell_h (ct_gap cont))
              (w_children w) (0, s);
  Some s.

(** ** Scrolling containers *)

(** Shift a child by the offset and hide it when it is outside. *)
Definition scroll_child (vertical : bool) (off : Z) i k s : option state :=
  w ← ui_widgets s !! i;
  child ← ui_widgets s !! k;
  let r := w_rect child in
  let shifted := (if vertical then rc_y r else rc_x r) - off in
  let len := if vertical then rc_h r else rc_w r in
  let from := if vertical then rc_y (w_rect w) else rc_x (w_rect w) in
  let size := if vertical then rc_h (w_rect w) else rc_w (w_rect w) in
  let in_view := (from <? shifted + len) && (shifted <? from + size) in
  let at_ := u16 (clamp0 shifted) in
  let r' := if vertical then mk_rect (rc_x r) at_ (rc_w r) (rc_h r) else mk_rect at_ (rc_y r) (rc_w r) (rc_h r) in
  Some (put_widget k (set_visible in_view (set_rect r' child)) s).

Definition scroll_layout (lay : ui_layout_cb_t → nat → state → option state) i s : option state :=
  s ← container_layout lay i s;
  w ← ui_widgets s !! i; cont ← w_cont w;
  each (scroll_child (negb (is_row (ct_flex_dir cont))) (ct_scroll_offset cont) i) (w_children w) s.

(** ** The whole tree *)

Fixpoint layout_call (fuel : nat) (f : ui_layout_cb_t) i s : option state :=
  match fuel with
  | O => None
  | S n =>
    match f with
    | container_layout_fn => container_layout (layout_call n) i s
    | grid_layout_fn => grid_layout (layout_call n) i s
    | scroll_layout_fn => scroll_layout (layout_call n) i s
    end
  end.

Fixpoint layout_widget (fuel : nat) i s : option state :=
  match fuel with
  | O => None
  | S n =>
    w ← ui_widgets s !! i;
    match w_layout_fn w with
    | Some f => layout_call fuel f i s
    | None => each (layout_widget n) (w_children w) s
    end
  end.

Definition ui_layout (ctx : option nat) s : option state :=
  match ctx with
  | None => Some s
  | Some c =>
    cx ← ui_contexts s !! c;
    match cx_root cx with None => Some s | Some r => layout_widget (tree_fuel s) r s end
  end.

(** ** Drawing *)

Context (W H : Z) {U : Type} `{SimI2c U}.
Implicit Types (p : panel U) (canvas : option app_display_t).

Definition is_some canvas : bool := if canvas is Some _ then true else false.

Definition color_is_ink (c : ui_color_t) : bool :=
  negb ((250 <=? cl_r c) && (250 <=? cl_g c) && (250 <=? cl_b c)).

Definition draw_rect canvas (rect : ui_rect_t) (color : ui_color_t) p : option (panel U) :=
  if negb (is_some canvas) || negb (color_is_ink color) then Some p
  else app_display_rect W H canvas (rc_x rect) (rc_y rect) (rc_w rect) (rc_h rect) true p.

Definition draw_text canvas (text : list Z) (x y : Z) (color : ui_color_t) p : option (panel U) :=
  if negb (is_some canvas) then Some p else app_display_text W H canvas x y (Some (c_str text)) p.

Definition label_draw w canvas : panel U → option (panel U) :=
  let cs := st_colors (w_style w) in
  let color := if w_enabled w then cs_fg cs else cs_disabled cs in
  draw_text canvas (w_name w) (i16 (rc_x (w_rect w))) (i16 (rc_y (w_rect w) + rc_h (w_rect w) / 2)) color.

Definition button_draw w canvas p : option (panel U) :=
  let cs := st_colors (w_style w) in
  let bg := if w_focused w then cs_focus cs else if w_enabled w then cs_bg cs else cs_disabled cs in
  let fg := if w_enabled w then cs_fg cs else cs_disabled cs in
  p ← draw_rect canvas (w_rect w) bg p;
  draw_text canvas (w_name w) (i16 (rc_x (w_rect w) + rc_w (w_rect w) / 2))
    (i16 (rc_y (w_rect w) + rc_h (w_rect w) / 2)) fg p.

(** [slider_draw], [switch_draw], [list_draw], [progress_draw], [spinner_draw] and [image_draw]. *)
Definition box_draw w canvas : panel U → option (panel U) :=
  draw_rect canvas (w_rect w) (cs_bg (st_colors (w_style w))).

Definition checkbox_draw w canvas p : option (panel U) :=
  p ← draw_rect canvas (w_rect w) (cs_bg (st_colors (w_style w))) p;
  draw_text canvas (w_name w) (i16 (rc_x (w_rect w) + 24)) (i16 (rc_y (w_rect w) + 4))
    (cs_fg (st_colors (w_style w))) p.

Definition textinput_draw w canvas p : option (panel U) :=
  let cs := st_colors (w_style w) in
  p ← draw_rect canvas (w_rect w) (if w_focused w then cs_focus cs else cs_bg cs) p;
  draw_text canvas (w_name w) (i16 (rc_x (w_rect w) + 4)) (i16 (rc_y (w_rect w) + 4)) (cs_fg cs) p.

Definition draw_call (d : ui_draw_cb_t) : widget → option app_display_t → panel U → option (panel U) :=
  match d with
  | label_draw_fn => label_draw
  | button_draw_fn => button_draw
  | checkbox_draw_fn => checkbox_draw
  | textinput_draw_fn => textinput_draw
  | slider_draw_fn | switch_draw_fn | list_draw_fn | progress_draw_fn | spinner_draw_fn | image_draw_fn => box_draw
  end.

Fixpoint render_widget (fuel : nat) s canvas i p : option (panel U) :=
  match fuel with
  | O => None
  | S n =>
    w ← ui_widgets s !! i;
    if negb (w_visible w) then Some p else
    p ← match w_draw w with Some d => draw_call d w canvas p | None => Some p end;
    each (render_widget n s canvas) (w_children w) p
  end.

Definition ui_render (ctx : option nat) s p : option (panel U) :=
  match ctx with
  | None => Some p
  | Some c =>
    cx ← ui_contexts s !! c;
    match cx_root cx with None => Some p | Some r => render_widget (tree_fuel s) s (cx_display cx) r p end
  end.
End WidgetLayout.
