(* ===== verification/WidgetTree.v ===== *)
(** * Trees of widgets

    The links of a heap of widgets: for each its parent and the list of its children.
    When parents and children agree and no widget is below itself they form trees; what
    a recursion along the children visits is the tree in preorder. *)

From Stdlib Require Import ZArith Lia.
From stdpp Require Import base tactics option numbers gmap list.
From S2P Require Import Prelude.
From S2P Require Import Runs.
From S2P Require Import Widgets.

#[local] Set Warnings "-register-all".

Inductive tree := Node (i : nat) (ts : list tree).

Definition top (t : tree) : nat := let 'Node i _ := t in i.
(** The widgets of a tree, in preorder. *)
Fixpoint ids (t : tree) : list nat := let 'Node i ts := t in i :: flat_map ids ts.
Fixpoint height (t : tree) : nat := let 'Node i ts := t in S (foldr Nat.max 0%nat (map height ts)).

Lemma tree_induction (P : tree → Prop) : (∀ i ts, Forall P ts → P (Node i ts)) → ∀ t, P t.
Proof.
  intros Hn. fix IH 1. intros [i ts]. apply Hn. induction ts as [|t ts IHts]; constructor; [apply IH|apply IHts].
Qed.

Lemma top_in t : top t ∈ ids t.
Proof. destruct t. left. Qed.

Lemma ids_child t ts j : t ∈ ts → j ∈ ids t → j ∈ flat_map ids ts.
Proof. intros Ht Hj. apply list_elem_of_In, in_flat_map. exists t. by rewrite <- !list_elem_of_In. Qed.

Lemma ids_children ts j : j ∈ flat_map ids ts → ∃ t, t ∈ ts ∧ j ∈ ids t.
Proof. intros Hj%list_elem_of_In%in_flat_map. destruct Hj as (t & Ht & Hj). exists t. by rewrite !list_elem_of_In. Qed.

Lemma height_children t ts : t ∈ ts → (height t <= foldr Nat.max 0 (map height ts))%nat.
Proof. intros Ht. induction Ht as [t ts|t u ts Ht IH]; cbn; lia. Qed.

Lemma height_ids t : (height t <= length (ids t))%nat.
Proof.
  induction t as [i ts IH] using tree_induction. cbn [height ids length]. apply le_n_S.
  induction IH as [|t ts Ht _ IHts]; cbn; [done|]. rewrite length_app. lia.
Qed.

Abbreviation links := (gmap nat (option nat * list nat)).
Implicit Types (g : links) (i j k : nat) (o : option nat) (l : list nat).

(** The tree [t] is in the heap, below [o]. *)
Inductive stored g : option nat → tree → Prop :=
  stored_node o i ts :
    g !! i = Some (o, map top ts) → Forall (stored g (Some i)) ts → stored g o (Node i ts).

Lemma stored_top g o t : stored g o t → ∃ l, g !! top t = Some (o, l).
Proof. intros Hs. inversion Hs. cbn. eauto. Qed.

Lemma stored_frame g g' o t : stored g o t → (∀ j, j ∈ ids t → g' !! j = g !! j) → stored g' o t.
Proof.
  revert o. induction t as [i ts IH] using tree_induction. intros o Hs Hl.
  inversion_clear Hs as [? ? ? Hi Hts].
  constructor; [by rewrite (Hl i (top_in (Node i ts)))|].
  rewrite Forall_forall in IH, Hts |- *. intros t Ht. apply IH; [done|by apply Hts|].
  intros j Hj. apply Hl. right. by eapply ids_child.
Qed.

Lemma stored_live g o t j : stored g o t → j ∈ ids t → is_Some (g !! j).
Proof.
  revert o. induction t as [i ts IH] using tree_induction. intros o Hs Hj.
  inversion_clear Hs as [? ? ? Hi Hts]. apply elem_of_cons in Hj as [->|Hj]; [by rewrite Hi|].
  apply ids_children in Hj as (t & Ht & Hj). rewrite Forall_forall in IH, Hts. by eapply IH; [|apply Hts|].
Qed.

(** The children of a widget of the tree are in the tree. *)
Lemma stored_closed g o t j o' l k : stored g o t → j ∈ ids t → g !! j = Some (o', l) → k ∈ l → k ∈ ids t.
Proof.
  revert o. induction t as [i ts IH] using tree_induction. intros o Hs Hj Hg Hk. right.
  inversion_clear Hs as [? ? ? Hi Hts]. apply elem_of_cons in Hj as [->|Hj].
  - rewrite Hi in Hg. injection Hg as <- <-. apply list_elem_of_In, in_map_iff in Hk as (t & <- & Ht%list_elem_of_In).
    by eapply ids_child, top_in.
  - apply ids_children in Hj as (t & Ht & Hj). rewrite Forall_forall in IH, Hts. eapply ids_child; [done|].
    by apply (IH t Ht (Some i) (Hts t Ht) Hj Hg Hk).
Qed.

(** ** Links that agree *)

Record linked g : Prop := {
  lk_child : ∀ i o l k, g !! i = Some (o, l) → k ∈ l → ∃ l', g !! k = Some (Some i, l');
  lk_nodup : ∀ i o l, g !! i = Some (o, l) → NoDup l ∧ blen l <= UI_MAX_CHILDREN;
  lk_parent : ∀ k i l, g !! k = Some (Some i, l) → ∃ o l', g !! i = Some (o, l') ∧ k ∈ l';
  lk_rank : ∃ rank : nat → nat, ∀ k i l, g !! k = Some (Some i, l) → rank k = S (rank i)
}.

(** The [n]-th ancestor. *)
Fixpoint ancestor g (n : nat) k : option nat :=
  match n with O => Some k | S n => '(o, _) ← g !! k; p ← o; ancestor g n p end.

Lemma ancestor_step g n k i o l : ancestor g n k = Some i → g !! i = Some (o, l) → ancestor g (S n) k = o.
Proof.
  revert k. induction n as [|n IH]; intros k; cbn [ancestor].
  { intros [= ->] ->. cbn. by destruct o. }
  destruct (g !! k) as [[ok lk]|]; [|done]. cbn [mbind option_bind]. destruct ok as [p|]; [|done].
  cbn [mbind option_bind]. intros Ha Hi. by rewrite <- (IH p Ha Hi).
Qed.

Lemma stored_ancestor g (rank : nat → nat) o t j :
  (∀ k i l, g !! k = Some (Some i, l) → rank k = S (rank i)) →
  stored g o t → j ∈ ids t → (rank (top t) <= rank j)%nat ∧ ancestor g (rank j - rank (top t)) j = Some (top t).
Proof.
  intros Hr. revert o. induction t as [i ts IH] using tree_induction. intros o Hs Hj. cbn [top].
  inversion_clear Hs as [? ? ? Hi Hts]. apply elem_of_cons in Hj as [->|Hj].
  { split; [done|]. by rewrite Nat.sub_diag. }
  apply ids_children in Hj as (t & Ht & Hj). rewrite Forall_forall in IH, Hts.
  destruct (IH t Ht (Some i) (Hts t Ht) Hj) as [Hle Ha]. destruct (stored_top _ _ _ (Hts t Ht)) as [l Hk].
  pose proof (Hr _ _ _ Hk) as Hrk. split; [lia|].
  replace (rank j - rank i)%nat with (S (rank j - rank (top t))) by lia. by rewrite (ancestor_step _ _ _ _ _ _ Ha Hk).
Qed.

Lemma ancestor_stored g o t d j :
  linked g → stored g o t → is_Some (g !! j) → ancestor g d j = Some (top t) → j ∈ ids t.
Proof.
  intros Hg Ht. revert j. induction d as [|d IH]; intros j [[oj lj] Hj]; cbn [ancestor].
  { intros [= ->]. apply top_in. }
  rewrite Hj. cbn [mbind option_bind]. destruct oj as [p|]; [|done]. cbn [mbind option_bind]. intros Ha.
  destruct (lk_parent g Hg j p lj Hj) as (op & lp & Hp & Hin). eapply stored_closed; [done|apply IH|done|done]; [|done].
  by rewrite Hp.
Qed.

Lemma stored_nodup g o t : linked g → stored g o t → NoDup (ids t).
Proof.
  intros Hg. destruct (lk_rank g Hg) as [rank Hr]. revert o. induction t as [i ts IH] using tree_induction.
  intros o Hs. inversion_clear Hs as [? ? ? Hi Hts].
  assert (∀ v, stored g (Some i) v → rank (top v) = S (rank i)) as Htop.
  { intros v Hv. destruct (stored_top _ _ _ Hv) as [l Hk]. by apply (Hr _ _ l). }
  cbn [ids]. constructor.
  - intros (t & Ht & Hj)%ids_children. rewrite Forall_forall in Hts.
    destruct (stored_ancestor g rank (Some i) t i Hr (Hts t Ht) Hj) as [Hle _].
    rewrite (Htop t (Hts t Ht)) in Hle. lia.
  - pose proof (proj1 (lk_nodup g Hg i _ _ Hi)) as Hnd. clear Hi.
    induction ts as [|t ts IHts]; [constructor|]. cbn [flat_map map] in *. inversion_clear IH as [|? ? IHt IH'].
    inversion_clear Hts as [|? ? Ht Hts']. inversion_clear Hnd as [|? ? Hnt Hnd'].
    apply NoDup_app. split; [by apply (IHt (Some i))|]. split; [|by apply IHts].
    intros j Hj (u & Hu & Hju)%ids_children. apply Hnt. rewrite Forall_forall in Hts'.
    destruct (stored_ancestor g rank (Some i) t j Hr Ht Hj) as [_ Ea].
    destruct (stored_ancestor g rank (Some i) u j Hr (Hts' u Hu) Hju) as [_ Eb].
    rewrite (Htop t Ht) in Ea. rewrite (Htop u (Hts' u Hu)) in Eb. rewrite Ea in Eb. injection Eb as ->.
    apply list_elem_of_In, in_map. by apply list_elem_of_In.
Qed.

Lemma rank_bound g (rank : nat → nat) : ∃ b, ∀ k, is_Some (g !! k) → (rank k <= b)%nat.
Proof.
  exists (max_list (rank <$> elements (dom g))). intros k Hk.
  apply max_list_elem_of_le. apply list_elem_of_fmap. exists k. split; [done|]. by apply elem_of_elements, elem_of_dom.
Qed.

(** Every widget is the top of a tree of live widgets. *)
Lemma tree_at g i o l : linked g → g !! i = Some (o, l) → ∃ t, top t = i ∧ stored g o t.
Proof.
  intros Hg. destruct (lk_rank g Hg) as [rank Hr]. destruct (rank_bound g rank) as [b Hb].
  cut (∀ n i o l, (b < n + rank i)%nat → g !! i = Some (o, l) → ∃ t, top t = i ∧ stored g o t).
  { intros H Hi. apply (H (S b) i o l); [lia|done]. }
  clear i o l. intros n. induction n as [|n IH]; intros i o l Hn Hi.
  { pose proof (Hb i ltac:(by rewrite Hi)). lia. }
  assert (∃ ts, map top ts = l ∧ Forall (stored g (Some i)) ts) as (ts & Ets & Hts).
  { assert (∀ k, k ∈ l → ∃ l', g !! k = Some (Some i, l')) as Hch by (intros k; by apply (lk_child g Hg i o)).
    clear Hi. induction l as [|k l IHl]; [by exists []|].
    destruct IHl as (ts & Ets & Hts); [intros k' H; apply Hch; by right|].
    destruct (Hch k ltac:(left)) as (l' & Hk).
    destruct (IH k (Some i) l') as (t & Et & Ht); [rewrite (Hr k i l' Hk); lia|done|].
    exists (t :: ts). cbn [map]. rewrite Et, Ets. split; [done|]. by constructor. }
  exists (Node i ts). split; [done|]. constructor; [by rewrite Ets|done].
Qed.

(** A tree is not larger than the heap. *)
Lemma tree_size g o t : linked g → stored g o t → (height t <= size g)%nat.
Proof.
  intros Hg Hs. pose proof (height_ids t). pose proof (stored_nodup _ _ _ Hg Hs) as Hnd.
  etransitivity; [done|]. rewrite <- size_dom. rewrite <- (size_list_to_set (C := gset nat) (ids t)) by done.
  apply subseteq_size. intros j Hj%elem_of_list_to_set. apply elem_of_dom. by eapply stored_live.
Qed.

(** ** Changing the links *)

Lemma linked_live g i o l k : linked g → g !! i = Some (o, l) → o = Some k ∨ k ∈ l → is_Some (g !! k).
Proof.
  intros Hg Hi [->|Hk].
  - destruct (lk_parent g Hg i k l Hi) as (o' & l' & -> & _). done.
  - destruct (lk_child g Hg i o l k Hi Hk) as (l' & ->). done.
Qed.

Lemma linked_new g i : linked g → g !! i = None → linked (<[i := (None, [])]> g).
Proof.
  intros Hg Hi.
  assert (∀ j o l, <[i := (None, [])]> g !! j = Some (o, l) → (j = i ∧ o = None ∧ l = []) ∨ (j ≠ i ∧ g !! j = Some (o, l))) as Hc.
  { intros j o l. destruct (decide (j = i)) as [->|Hne]; [rewrite lookup_insert_eq|rewrite lookup_insert_ne by done; by right].
    intros [= <- <-]. by left. }
  assert (∀ j o l k, g !! j = Some (o, l) → o = Some k ∨ k ∈ l → k ≠ i) as Hne.
  { intros j o l k Hj Hk ->. destruct (linked_live g j o l i Hg Hj Hk) as [x Hx]. congruence. }
  split.
  - intros j o l k [(_ & _ & ->)|[_ Hj]]%Hc Hk; [by apply elem_of_nil in Hk|].
    rewrite lookup_insert_ne by (by apply not_eq_sym; eapply Hne; [|right]). by eapply lk_child.
  - intros j o l [(_ & _ & ->)|[_ Hj]]%Hc; [split; [constructor|done]|by eapply lk_nodup].
  - intros k j l [(_ & [=] & _)|[_ Hk]]%Hc.
    rewrite lookup_insert_ne by (by apply not_eq_sym; eapply Hne; [|left]). by eapply lk_parent.
  - destruct (lk_rank g Hg) as [rank Hr]. exists rank. intros k j l [(_ & [=] & _)|[_ Hk]]%Hc. by eapply Hr.
Qed.

(** The depths after [k] and what is below it moved under [p]. *)
Definition below_b g (rank : nat → nat) k j : bool :=
  bool_decide (rank k <= rank j)%nat && bool_decide (ancestor g (rank j - rank k) j = Some k).

Lemma below_parent g rank k j i l :
  (∀ k i l, g !! k = Some (Some i, l) → rank k = S (rank i)) →
  g !! j = Some (Some i, l) → j ≠ k → below_b g rank k j = below_b g rank k i.
Proof.
  intros Hr Hj Hne. pose proof (Hr j i l Hj) as Erk. unfold below_b. rewrite Erk.
  destruct (decide (rank k <= rank i)%nat) as [Hle|Hgt].
  - rewrite (bool_decide_true (rank k <= S (rank i))%nat), (bool_decide_true (rank k <= rank i)%nat) by lia.
    replace (S (rank i) - rank k)%nat with (S (rank i - rank k)) by lia.
    cbn [ancestor]. rewrite Hj. reflexivity.
  - rewrite (bool_decide_false (rank k <= rank i)%nat) by lia. cbn [andb].
    destruct (decide (rank k <= S (rank i))%nat) as [Hle|?]; [|by rewrite bool_decide_false by lia].
    replace (S (rank i) - rank k)%nat with O by lia. cbn [ancestor].
    rewrite (bool_decide_false (Some j = Some k)) by congruence. apply andb_false_r.
Qed.

Lemma linked_add g p k op lp lk :
  linked g → g !! p = Some (op, lp) → g !! k = Some (None, lk) → blen lp < UI_MAX_CHILDREN →
  (∀ d, ancestor g d p ≠ Some k) →
  linked (<[p := (op, lp ++ [k])]> (<[k := (Some p, lk)]> g)).
Proof.
  intros Hg Hp Hk Hn Ha. assert (p ≠ k) as Hpk by (intros ->; by apply (Ha O)).
  set (g' := <[p := _]> _).
  assert (∀ j o l, g' !! j = Some (o, l) →
    ∃ o0 l0, g !! j = Some (o0, l0) ∧ o = (if decide (j = k) then Some p else o0) ∧
             l = (if decide (j = p) then lp ++ [k] else l0)) as Hc.
  { intros j o l. unfold g'. destruct (decide (j = p)) as [->|Hj].
    - rewrite lookup_insert_eq. intros [= <- <-]. exists op, lp. by rewrite decide_False.
    - rewrite lookup_insert_ne by done. destruct (decide (j = k)) as [->|Hj'].
      + rewrite lookup_insert_eq. intros [= <- <-]. by exists None, lk.
      + rewrite lookup_insert_ne by done. intros Hl. by exists o, l. }
  assert (∀ j o l, g !! j = Some (o, l) →
    g' !! j = Some (if decide (j = k) then Some p else o, if decide (j = p) then lp ++ [k] else l)) as Hc'.
  { intros j o l Hj. unfold g'. destruct (decide (j = p)) as [->|Hjp].
    - rewrite lookup_insert_eq, decide_False by done. congruence.
    - rewrite lookup_insert_ne by done. destruct (decide (j = k)) as [->|Hjk].
      + rewrite lookup_insert_eq. congruence.
      + by rewrite lookup_insert_ne by done. }
  assert (∀ i o l, g !! i = Some (o, l) → k ∉ l) as Hnk.
  { intros i o l Hi Hin. destruct (lk_child g Hg i o l k Hi Hin) as [l' Hk']. congruence. }
  clearbody g'. split.
  - intros i o l j (o0 & l0 & Hi & -> & ->)%Hc Hj. destruct (decide (j = k)) as [->|Hjk].
    + destruct (decide (i = p)) as [->|_]; [|by apply (Hnk i o0 l0) in Hj].
      rewrite (Hc' k None lk Hk), decide_True by done. eauto.
    + assert (j ∈ l0) as Hj0.
      { destruct (decide (i = p)) as [->|_]; [|done]. rewrite Hp in Hi. injection Hi as <- <-.
        apply elem_of_app in Hj as [?|Hj]; [done|]. by apply list_elem_of_singleton in Hj. }
      destruct (lk_child g Hg i o0 l0 j Hi Hj0) as [l' Hj']. rewrite (Hc' j _ _ Hj'), decide_False by done. eauto.
  - intros i o l (o0 & l0 & Hi & -> & ->)%Hc. destruct (decide (i = p)) as [->|_]; [|by eapply lk_nodup].
    rewrite Hp in Hi. injection Hi as <- <-. destruct (lk_nodup g Hg p op lp Hp) as [Hnd _]. split.
    + apply NoDup_app. split; [done|]. split; [|apply NoDup_singleton].
      intros x Hx ->%list_elem_of_singleton. by apply (Hnk p op lp).
    + rewrite blen_app. change (blen [k]) with 1. lia.
  - intros j i l (o0 & l0 & Hj & Ho & ->)%Hc. destruct (decide (j = k)) as [->|Hjk].
    + injection Ho as ->. rewrite (Hc' p op lp Hp), decide_False, decide_True by done.
      exists op, (lp ++ [k]). split; [done|]. apply elem_of_app. right. by left.
    + subst o0. destruct (lk_parent g Hg j i l0 Hj) as (oi & li & Hi & Hin). rewrite (Hc' i oi li Hi).
      eexists _, _. split; [done|]. destruct (decide (i = p)) as [->|_]; [|done].
      rewrite Hp in Hi. injection Hi as <- <-. apply elem_of_app. by left.
  - destruct (lk_rank g Hg) as [rank Hr].
    exists (λ j, if below_b g rank k j then rank j + S (rank p) - rank k else rank j)%nat.
    assert (below_b g rank k p = false) as Hbp.
    { unfold below_b. rewrite (bool_decide_false (ancestor _ _ _ = _)) by apply Ha. apply andb_false_r. }
    intros j i l (o0 & l0 & Hj & Ho & ->)%Hc. destruct (decide (j = k)) as [->|Hjk].
    + injection Ho as ->. rewrite Hbp. unfold below_b. rewrite Nat.sub_diag. cbn [ancestor].
      rewrite !bool_decide_true by done. cbn. lia.
    + subst o0. rewrite (below_parent g rank k j i l0 Hr Hj Hjk), (Hr j i l0 Hj).
      destruct (below_b g rank k i) eqn:Eb; [|done]. unfold below_b in Eb. apply andb_true_iff in Eb as [Eb _].
      apply bool_decide_eq_true in Eb. lia.
Qed.

Lemma without_first_spec k l :
  match without_first k l with
  | Some l' => ∃ a b, l = a ++ k :: b ∧ l' = a ++ b
  | None => k ∉ l
  end.
Proof.
  induction l as [|j l IH]; cbn [without_first]; [by apply not_elem_of_nil|].
  case_bool_decide as Ej; [subst; by exists [], l|]. destruct (without_first k l) as [l'|]; cbn [mbind option_bind].
  - destruct IH as (a & b & -> & ->). by exists (j :: a), b.
  - apply not_elem_of_cons. split; [congruence|done].
Qed.

Lemma linked_remove g p k op lp l lk :
  linked g → g !! p = Some (op, lp) → without_first k lp = Some l → g !! k = Some (Some p, lk) →
  linked (<[k := (None, lk)]> (<[p := (op, l)]> g)).
Proof.
  intros Hg Hp Hl Hk. pose proof (without_first_spec k lp) as Hw. rewrite Hl in Hw. destruct Hw as (a & b & -> & ->).
  destruct (lk_rank g Hg) as [rank Hr]. destruct (lk_nodup g Hg p _ _ Hp) as [Hnd Hlen].
  assert (p ≠ k) as Hpk by (intros ->; pose proof (Hr _ _ _ Hk); lia).
  assert (NoDup (a ++ b) ∧ k ∉ a ++ b) as [Hnd' Hkn].
  { apply NoDup_app in Hnd as (Ha & Hd & Hb). apply NoDup_cons in Hb as [Hkb Hb]. split.
    - apply NoDup_app. split; [done|]. split; [|done]. intros x Hx Hxb. apply (Hd x Hx). by right.
    - intros [Hka|?]%elem_of_app; [|done]. apply (Hd k Hka). by left. }
  assert (∀ j o l, <[k := (None, lk)]> (<[p := (op, a ++ b)]> g) !! j = Some (o, l) →
    ∃ o0 l0, g !! j = Some (o0, l0) ∧ o = (if decide (j = k) then None else o0) ∧
             l = (if decide (j = p) then a ++ b else l0)) as Hc.
  { intros j o l. destruct (decide (j = k)) as [->|Hj].
    - rewrite lookup_insert_eq. intros [= <- <-]. exists (Some p), lk. by rewrite decide_False.
    - rewrite lookup_insert_ne by done. destruct (decide (j = p)) as [->|Hj'].
      + rewrite lookup_insert_eq. intros [= <- <-]. by exists op, (a ++ k :: b).
      + rewrite lookup_insert_ne by done. intros Hl'. by exists o, l. }
  assert (∀ j o l, g !! j = Some (o, l) → <[k := (None, lk)]> (<[p := (op, a ++ b)]> g) !! j =
    Some (if decide (j = k) then None else o, if decide (j = p) then a ++ b else l)) as Hc'.
  { intros j o l Hj. destruct (decide (j = k)) as [->|Hjk].
    - rewrite lookup_insert_eq, decide_False by done. congruence.
    - rewrite lookup_insert_ne by done. destruct (decide (j = p)) as [->|Hjp].
      + rewrite lookup_insert_eq. congruence.
      + by rewrite lookup_insert_ne by done. }
  set (g' := <[k := _]> _) in *. clearbody g'. split.
  - intros i o l j (o0 & l0 & Hi & -> & ->)%Hc Hj.
    assert (j ∈ l0 ∧ j ≠ k) as [Hj0 Hjk].
    { destruct (decide (i = p)) as [->|Hip].
      - rewrite Hp in Hi. injection Hi as <- <-. split; [|intros ->; by apply Hkn]. set_solver.
      - split; [done|]. intros ->. destruct (lk_child g Hg i o0 l0 k Hi Hj) as [l' Hk']. congruence. }
    destruct (lk_child g Hg i o0 l0 j Hi Hj0) as [l' Hj']. rewrite (Hc' j _ _ Hj'), decide_False by done. eauto.
  - intros i o l (o0 & l0 & Hi & -> & ->)%Hc. destruct (decide (i = p)) as [->|_]; [|by eapply lk_nodup].
    split; [done|]. revert Hlen. rewrite !blen_app, blen_cons. lia.
  - intros j i l (o0 & l0 & Hj & Ho & ->)%Hc. destruct (decide (j = k)) as [->|Hjk]; [done|]. subst o0.
    destruct (lk_parent g Hg j i l0 Hj) as (oi & li & Hi & Hin). rewrite (Hc' i oi li Hi).
    eexists _, _. split; [done|]. destruct (decide (i = p)) as [->|_]; [|done].
    rewrite Hp in Hi. injection Hi as <- <-. set_solver.
  - exists rank. intros j i l (o0 & l0 & Hj & Ho & ->)%Hc. destruct (decide (j = k)) as [->|Hjk]; [done|]. subst o0.
    by eapply Hr.
Qed.

Lemma linked_drop g g' t :
  linked g → stored g None t → (∀ j, g' !! j = (if decide (j ∈ ids t) then None else g !! j)) → linked g'.
Proof.
  intros Hg Ht Hd.
  assert (∀ j o l, g' !! j = Some (o, l) → (j ∉ ids t) ∧ g !! j = Some (o, l)) as Hc.
  { intros j o l. rewrite Hd. by case_decide. }
  assert (∀ j, j ∉ ids t → g' !! j = g !! j) as Hc' by (intros j Hj; by rewrite Hd, decide_False).
  assert (∀ j p l, g !! j = Some (Some p, l) → j ∈ ids t → p ∈ ids t) as Hup.
  { intros j p l Hj Hin. destruct (lk_rank g Hg) as [rank Hr]. destruct (stored_top _ _ _ Ht) as [lt Htop].
    destruct (stored_ancestor g rank None t j Hr Ht Hin) as [_ Ha].
    destruct (rank j - rank (top t))%nat as [|d] eqn:En; cbn [ancestor] in Ha.
    { injection Ha as ->. congruence. }
    rewrite Hj in Ha. cbn in Ha. eapply ancestor_stored; [done|done| |done]. by apply (linked_live g j (Some p) l p Hg Hj); left. }
  split.
  - intros i o l k [Hi Hgi]%Hc Hk. destruct (lk_child g Hg i o l k Hgi Hk) as [l' Hgk].
    rewrite Hc'; [by eauto|]. intros Hin. by eapply Hi, Hup.
  - intros i o l [_ Hgi]%Hc. by eapply lk_nodup.
  - intros k i l [Hk Hgk]%Hc. destruct (lk_parent g Hg k i l Hgk) as (o & l' & Hgi & Hin).
    rewrite Hc'; [by eauto|]. intros Hii. by eapply Hk, stored_closed.
  - destruct (lk_rank g Hg) as [rank Hr]. exists rank. intros k i l [_ Hgk]%Hc. by eapply Hr.
Qed.
