(* ===== verification/WidgetsThm.v ===== *)
(** * Widgets stay well formed

    [wf]: links agree, a context and its focused widget point to each other, roots and
    themes are live and belong to one context, containers have their fields.  What
    callbacks and layouts may change is what [similar] leaves open; every call that the
    rules of [legal] allow returns and keeps [wf]. *)

From Stdlib Require Import ZArith Lia.
From stdpp Require Import base tactics option numbers gmap list.
From S2P Require Import Prelude.
From S2P Require Import Runs.
From S2P Require Import Widgets.
From S2P Require Import WidgetLayout.
From S2P Require Import WidgetTree.

Section WidgetsThm.
Context {C A E : Type}.
#[local] Abbreviation widget := (ui_widget (C := C) (A := A)).
#[local] Abbreviation state := (ui_state (C := C) (A := A) (E := E)).
Implicit Types (w : widget) (s : state) (i j k c : nat) (o : option nat) (cx : ui_context).

Definition links_of w : option nat * list nat := (w_parent w, w_children w).
Definition graph s : links := links_of <$> ui_widgets s.
Definition cols_of w : option Z := ct_grid_cols <$> w_cont w.
(** What stays fixed in a widget while its links and its focus change. *)
Definition shell w := (w_ctx w, w_layout_fn w, cols_of w, (w_on_click w, w_on_focus w, w_on_blur w)).
Definition skeleton w := (shell w, links_of w, w_focused w).

(** The two states differ in rectangles, styles, visibility and the like, and in the focus. *)
Record same_shape s s' : Prop := {
  ss_widgets : ∀ i, (λ w, (shell w, links_of w)) <$> ui_widgets s' !! i = (λ w, (shell w, links_of w)) <$> ui_widgets s !! i;
  ss_contexts : ∀ c, (λ cx, (cx_root cx, cx_theme cx)) <$> ui_contexts s' !! c = (λ cx, (cx_root cx, cx_theme cx)) <$> ui_contexts s !! c;
  ss_themes : ui_themes s' = ui_themes s;
  ss_next : ui_next s' = ui_next s
}.

(** The focus is the same too. *)
Record similar s s' : Prop := {
  sim_shape : same_shape s s';
  sim_focused : ∀ i, w_focused <$> ui_widgets s' !! i = w_focused <$> ui_widgets s !! i;
  sim_contexts : ui_contexts s' = ui_contexts s
}.

#[export] Instance same_shape_preorder : PreOrder same_shape.
Proof.
  split; [by intros s; split|]. intros s1 s2 s3 [H1 H2 H3 H4] [H5 H6 H7 H8].
  split; [intros i; by rewrite H5|intros c; by rewrite H6|congruence..].
Qed.

#[export] Instance similar_preorder : PreOrder similar.
Proof.
  split; [by intros s; split|]. intros s1 s2 s3 [H1 H2 H3] [H5 H6 H7].
  split; [by transitivity s2|intros i; by rewrite H6|congruence].
Qed.

(** A callback that is not [button_click]. *)
Definition no_loop (cb : option (ui_callback_t (C := C))) : Prop := cb ≠ Some button_click_fn.

Record wf_widget s i w : Prop := {
  ww_next : (i < ui_next s)%nat;
  ww_ctx : ∀ c, w_ctx w = Some c → is_Some (ui_contexts s !! c);
  ww_cont : is_Some (w_layout_fn w) → is_Some (cols_of w);
  ww_cols : ∀ n, cols_of w = Some n → 0 <= n <= 255;
  ww_click : no_loop (w_on_click w) ∧ no_loop (w_on_focus w) ∧ no_loop (w_on_blur w)
}.

Record wf_context s c cx : Prop := {
  wc_next : (c < ui_next s)%nat;
  wc_root : ∀ r, cx_root cx = Some r → ∃ w, ui_widgets s !! r = Some w ∧ w_parent w = None ∧ w_ctx w = Some c;
  wc_theme : ∀ t, cx_theme cx = Some t → is_Some (ui_themes s !! t);
  wc_own : ∀ c' cx' t, ui_contexts s !! c' = Some cx' → cx_theme cx = Some t → cx_theme cx' = Some t → c' = c
}.

(** A context and its focused widget lead to each other. *)
Record focus_ok s : Prop := {
  fo_back : ∀ c cx i, ui_contexts s !! c = Some cx → cx_focused cx = Some i →
    ∃ w, ui_widgets s !! i = Some w ∧ w_focused w = true ∧ w_ctx w = Some c;
  fo_one : ∀ i w c cx, ui_widgets s !! i = Some w → w_ctx w = Some c → w_focused w = true →
    ui_contexts s !! c = Some cx → cx_focused cx = Some i
}.

Record wf s : Prop := {
  wf_links : linked (graph s);
  wf_widgets : ∀ i w, ui_widgets s !! i = Some w → wf_widget s i w;
  wf_contexts : ∀ c cx, ui_contexts s !! c = Some cx → wf_context s c cx;
  wf_themes : ∀ t th, ui_themes s !! t = Some th →
    (t < ui_next s)%nat ∧ blen (th_colors th) = 16 ∧ blen (th_text_styles th) = 8;
  wf_focus : focus_ok s
}.

(** ** States of the same shape *)

Lemma same_shape_sym s s' : same_shape s s' → same_shape s' s.
Proof. intros [H1 H2 H3 H4]. by split. Qed.

Lemma same_shape_get s s' i w :
  same_shape s s' → ui_widgets s !! i = Some w →
  ∃ w', ui_widgets s' !! i = Some w' ∧ shell w' = shell w ∧ links_of w' = links_of w.
Proof.
  intros Hs Hi. pose proof (ss_widgets _ _ Hs i) as Hk. rewrite Hi in Hk. cbn in Hk.
  destruct (ui_widgets s' !! i) as [w'|]; [|done]. exists w'. split; [done|].
  by apply (inj Some), pair_equal_spec in Hk.
Qed.

Lemma same_shape_context s s' c cx :
  same_shape s s' → ui_contexts s !! c = Some cx →
  ∃ cx', ui_contexts s' !! c = Some cx' ∧ cx_root cx' = cx_root cx ∧ cx_theme cx' = cx_theme cx.
Proof.
  intros Hs Hc. pose proof (ss_contexts _ _ Hs c) as Hk. rewrite Hc in Hk. cbn in Hk.
  destruct (ui_contexts s' !! c) as [cx'|]; [|done]. exists cx'. split; [done|]. by injection Hk.
Qed.

Lemma same_shape_graph s s' : same_shape s s' → graph s' = graph s.
Proof.
  intros Hs. apply map_eq. intros i. unfold graph. rewrite !lookup_fmap.
  pose proof (ss_widgets _ _ Hs i) as Hk. destruct (ui_widgets s' !! i) as [w'|], (ui_widgets s !! i) as [w|]; try done.
  injection Hk. intros. cbn. unfold links_of. congruence.
Qed.

Lemma same_shape_wf s s' : same_shape s s' → wf s → focus_ok s' → wf s'.
Proof.
  intros Hs Hw Hf. pose proof (ss_themes _ _ Hs) as Et. pose proof (ss_next _ _ Hs) as En. split; [| | | |done].
  - rewrite (same_shape_graph _ _ Hs). apply Hw.
  - intros i w Hi. destruct (same_shape_get _ _ i w (same_shape_sym _ _ Hs) Hi) as (w0 & H0 & Ek & _).
    injection Ek as E1 E2 E3 E4 E5 E6. destruct (wf_widgets s Hw i w0 H0) as [H1 H2 H3 H4 H5]. split.
    + by rewrite En.
    + intros c Hc. rewrite <- E1 in Hc. destruct (H2 c Hc) as [cx Hcx].
      destruct (same_shape_context _ _ c cx Hs Hcx) as (cx' & -> & _). done.
    + by rewrite <- E2, <- E3.
    + by rewrite <- E3.
    + by rewrite <- E4, <- E5, <- E6.
  - intros c cx Hc. destruct (same_shape_context _ _ c cx (same_shape_sym _ _ Hs) Hc) as (cx0 & H0 & Er & Eth).
    destruct (wf_contexts s Hw c cx0 H0) as [H1 H2 H3 H4]. split.
    + by rewrite En.
    + intros r Hr. rewrite <- Er in Hr. destruct (H2 r Hr) as (w & Hwi & Hp & Hx).
      destruct (same_shape_get _ _ r w Hs Hwi) as (w' & Hw' & Ek & El). injection Ek. injection El. intros.
      exists w'. split; [done|]. split; congruence.
    + rewrite <- Eth, Et. done.
    + intros c' cx' t Hc' Ht Ht'.
      destruct (same_shape_context _ _ c' cx' (same_shape_sym _ _ Hs) Hc') as (cx0' & H0' & _ & Eth').
      apply (H4 c' cx0' t); congruence.
  - intros t th. rewrite Et, En. by apply Hw.
Qed.

Lemma similar_get s s' i w :
  similar s s' → ui_widgets s !! i = Some w →
  ∃ w', ui_widgets s' !! i = Some w' ∧ shell w' = shell w ∧ links_of w' = links_of w ∧ w_focused w' = w_focused w.
Proof.
  intros Hs Hi. destruct (same_shape_get _ _ i w (sim_shape _ _ Hs) Hi) as (w' & Hw' & H1 & H2).
  exists w'. split; [done|]. split; [done|]. split; [done|]. pose proof (sim_focused _ _ Hs i) as Ef.
  rewrite Hi, Hw' in Ef. by injection Ef.
Qed.

Lemma similar_sym s s' : similar s s' → similar s' s.
Proof. intros [H1 H2 H3]. split; [by apply same_shape_sym|done..]. Qed.

Lemma similar_wf s s' : similar s s' → wf s → wf s'.
Proof.
  intros Hs Hw. apply (same_shape_wf s); [by apply Hs|done|]. destruct (wf_focus s Hw) as [Hb Ho].
  pose proof (sim_contexts _ _ Hs) as Ec. split.
  - intros c cx i. rewrite Ec. intros Hc Hi. destruct (Hb c cx i Hc Hi) as (w & Hwi & Hf & Hx).
    destruct (similar_get _ _ i w Hs Hwi) as (w' & Hw' & Ek & _ & Ef). injection Ek. intros.
    exists w'. split; [done|]. split; congruence.
  - intros i w c cx Hi Hx Hf. rewrite Ec.
    destruct (similar_get _ _ i w (similar_sym _ _ Hs) Hi) as (w0 & H0 & Ek & _ & Ef). injection Ek. intros.
    apply (Ho i w0 c cx); congruence.
Qed.

(** Writing a widget that keeps its skeleton. *)
Lemma similar_put s i w w' : ui_widgets s !! i = Some w → skeleton w' = skeleton w → similar s (put_widget i w' s).
Proof.
  intros Hi Hk. injection Hk as Hsh Hp Hf. assert (links_of w' = links_of w) as Hl by (unfold links_of; congruence).
  assert (shell w' = shell w) as Hsh' by (unfold shell; congruence).
  split; [split; [|done..]| |done]; intros j; cbn; (destruct (decide (j = i)) as [->|Hne];
    [rewrite lookup_insert_eq, Hi; cbn; congruence|by rewrite lookup_insert_ne by done]).
Qed.

(** ** Focus *)

Lemma same_shape_put s i w w' :
  ui_widgets s !! i = Some w → shell w' = shell w → links_of w' = links_of w → same_shape s (put_widget i w' s).
Proof.
  intros Hi H1 H2. split; [|done..]. intros j. cbn. destruct (decide (j = i)) as [->|Hne].
  - rewrite lookup_insert_eq, Hi. cbn. congruence.
  - by rewrite lookup_insert_ne by done.
Qed.

Lemma same_shape_put_context s c cx cx' :
  ui_contexts s !! c = Some cx → cx_root cx' = cx_root cx → cx_theme cx' = cx_theme cx →
  same_shape s (put_context c cx' s).
Proof.
  intros Hc H1 H2. split; [done| |done..]. intros d. cbn. destruct (decide (d = c)) as [->|Hne].
  - rewrite lookup_insert_eq, Hc. cbn. congruence.
  - by rewrite lookup_insert_ne by done.
Qed.

(** Nothing has the focus of [i]. *)
Lemma focus_cleared s s' i w :
  wf s → ui_widgets s !! i = Some w →
  ui_widgets s' = <[i := set_focused false w]> (ui_widgets s) →
  (∀ c, ui_contexts s' !! c = (λ cx, if bool_decide (cx_focused cx = Some i) then set_cx_focused None cx else cx) <$> ui_contexts s !! c) →
  focus_ok s'.
Proof.
  intros Hw Hi Ew Ec. destruct (wf_focus s Hw) as [Hb Ho]. split.
  - intros c cx j. rewrite Ec. destruct (ui_contexts s !! c) as [cx0|] eqn:Hc; [|done]. cbn. intros [= <-].
    case_bool_decide as Ef; [done|]. intros Hj. destruct (Hb c cx0 j Hc Hj) as (wj & Hwj & Hf & Hx).
    rewrite Ew, lookup_insert_ne by congruence. by exists wj.
  - intros j wj c cx. rewrite Ew, Ec. destruct (decide (j = i)) as [->|Hne].
    { rewrite lookup_insert_eq. by intros [= <-]. }
    rewrite lookup_insert_ne by done. destruct (ui_contexts s !! c) as [cx0|] eqn:Hc; [|done].
    intros Hj Hx Hf [= <-]. pose proof (Ho j wj c cx0 Hj Hx Hf Hc) as Ef. rewrite bool_decide_false by congruence. done.
Qed.

(** [i] has the focus, in a context whose focus nothing else has. *)
Lemma focus_given s s' i w :
  wf s → ui_widgets s !! i = Some w →
  ui_widgets s' = <[i := set_focused true w]> (ui_widgets s) →
  (∀ c, ui_contexts s' !! c = (if decide (w_ctx w = Some c) then set_cx_focused (Some i) <$> ui_contexts s !! c else ui_contexts s !! c)) →
  (∀ c cx, w_ctx w = Some c → ui_contexts s !! c = Some cx → cx_focused cx = None ∨ cx_focused cx = Some i) →
  focus_ok s'.
Proof.
  intros Hw Hi Ew Ec Hfree. destruct (wf_focus s Hw) as [Hb Ho]. split.
  - intros c cx j. rewrite Ec, Ew. case_decide as Hc.
    + destruct (ui_contexts s !! c) as [cx0|]; [|done]. cbn. intros [= <-]. cbn. intros [= <-].
      rewrite lookup_insert_eq. eexists. split; [done|]. by cbn.
    + intros Hcx Hj. destruct (Hb c cx j Hcx Hj) as (wj & Hwj & Hf & Hx).
      rewrite lookup_insert_ne by congruence. by exists wj.
  - intros j wj c cx. rewrite Ec, Ew. destruct (decide (j = i)) as [->|Hne].
    + rewrite lookup_insert_eq. intros [= <-]. cbn. intros Hc _. rewrite decide_True by done.
      destruct (ui_contexts s !! c) as [cx0|]; [|done]. by intros [= <-].
    + rewrite lookup_insert_ne by done. intros Hj Hx Hf. case_decide as Hc; [|by apply (Ho j wj)].
      destruct (ui_contexts s !! c) as [cx0|] eqn:Hcx; [|done]. cbn. intros [= <-].
      pose proof (Ho j wj c cx0 Hj Hx Hf Hcx) as Ef. destruct (Hfree c cx0 Hc Hcx); congruence.
Qed.

(** Applications that set neither [on_focus] nor [on_blur]; then only the focus changes. *)
Definition no_hooks s : Prop := ∀ i w, ui_widgets s !! i = Some w → w_on_focus w = None ∧ w_on_blur w = None.
Definition but_focus s s' : Prop :=
  ∀ i, set_focused false <$> ui_widgets s' !! i = set_focused false <$> ui_widgets s !! i.

#[export] Instance but_focus_preorder : PreOrder but_focus.
Proof. split; [by intros s i|]. intros s1 s2 s3 H1 H2 i. by rewrite H2. Qed.

Lemma but_focus_put s s' i b w :
  ui_widgets s !! i = Some w → ui_widgets s' = <[i := set_focused b w]> (ui_widgets s) → but_focus s s'.
Proof.
  intros Hi Ew j. rewrite Ew. destruct (decide (j = i)) as [->|Hne].
  - rewrite lookup_insert_eq, Hi. by destruct w.
  - by rewrite lookup_insert_ne by done.
Qed.

Lemma but_focus_get s s' i w :
  but_focus s s' → ui_widgets s !! i = Some w → ∃ w', ui_widgets s' !! i = Some w' ∧ set_focused false w' = set_focused false w.
Proof.
  intros Hb Hi. specialize (Hb i). rewrite Hi in Hb. destruct (ui_widgets s' !! i) as [w'|]; [|done].
  exists w'. split; [done|]. by apply (inj Some) in Hb.
Qed.

Lemma no_hooks_but s s' : no_hooks s → but_focus s s' → no_hooks s'.
Proof.
  intros Hn Hb i w' Hi. pose proof (Hb i) as Ei. rewrite Hi in Ei. destruct (ui_widgets s !! i) as [w|] eqn:Hw; [|done].
  apply (inj Some) in Ei. destruct (Hn i w Hw) as [H1 H2].
  split; [by transitivity (w_on_focus w); [apply (f_equal w_on_focus Ei)|]|].
  by transitivity (w_on_blur w); [apply (f_equal w_on_blur Ei)|].
Qed.

(** Callbacks may change what [similar] leaves open. *)
Context (code : C → nat → option A → state → option state).
Context (polite : ∀ f i a s, wf s → ∃ s', code f i a s = Some s' ∧ similar s s').

Lemma call_opt_ok cb i a s :
  wf s → no_loop cb → ∃ s', call_opt code cb i a s = Some s' ∧ similar s s'.
Proof.
  intros Hw Hn. destruct cb as [[|f]|]; [done|cbn; by apply polite|]. by exists s.
Qed.

(** What is left of the focus: [i] has lost it, and no one else. *)
Record unfocused i s s' : Prop := {
  uf_shape : same_shape s s';
  uf_focused : ∀ j, j ≠ i → w_focused <$> ui_widgets s' !! j = w_focused <$> ui_widgets s !! j;
  uf_contexts : ∀ c, cx_focused <$> ui_contexts s' !! c =
    (λ cx, if bool_decide (cx_focused cx = Some i) then None else cx_focused cx) <$> ui_contexts s !! c
}.

Lemma unfocus_ok i w s :
  wf s → ui_widgets s !! i = Some w →
  ∃ s', ui_widget_unfocus code (Some i) s = Some s' ∧ wf s' ∧ unfocused i s s' ∧ (no_hooks s → but_focus s s').
Proof.
  intros Hw Hi. cbn [ui_widget_unfocus]. rewrite Hi. cbn [mbind option_bind].
  destruct (wf_widgets s Hw i w Hi) as [_ Hctx _ _ (_ & _ & Hblur)]. destruct (wf_focus s Hw) as [Hb Ho].
  destruct (w_focused w) eqn:Ef.
  2: { exists s. split; [done|]. split; [done|]. split; [|done]. split; [done|done|]. intros c.
       destruct (ui_contexts s !! c) as [cx|] eqn:Hc; [|done]. cbn. case_bool_decide as Hf; [|done].
       destruct (Hb c cx i Hc Hf) as (w' & ? & ? & _). congruence. }
  set (s1 := put_widget i (set_focused false w) s).
  assert (∃ s2, match w_ctx w with
      | Some c => cx ← ui_contexts s1 !! c;
                  Some (if bool_decide (cx_focused cx = Some i) then put_context c (set_cx_focused None cx) s1 else s1)
      | None => Some s1 end = Some s2 ∧ same_shape s s2 ∧ ui_widgets s2 = <[i := set_focused false w]> (ui_widgets s) ∧
      ∀ c, ui_contexts s2 !! c = (λ cx, if bool_decide (cx_focused cx = Some i) then set_cx_focused None cx else cx) <$> ui_contexts s !! c)
    as (s2 & -> & Hsh & Ew & Ec).
  { assert (same_shape s s1) as H1 by (by apply (same_shape_put s i w)).
    destruct (w_ctx w) as [c|] eqn:Ex; cbn [mbind option_bind].
    - destruct (Hctx c eq_refl) as [cx Hc]. cbn. rewrite Hc. cbn [mbind option_bind].
      pose proof (Ho i w c cx Hi Ex Ef Hc) as Hf. rewrite bool_decide_true by done. eexists. split; [done|].
      split; [transitivity s1; [done|by apply (same_shape_put_context s1 c cx)]|]. split; [done|].
      intros d. cbn. destruct (decide (d = c)) as [->|Hne].
      + by rewrite lookup_insert_eq, Hc; cbn; rewrite bool_decide_true.
      + rewrite lookup_insert_ne by done. destruct (ui_contexts s !! d) as [dx|] eqn:Hd; [|done]. cbn.
        case_bool_decide as Hfd; [|done]. destruct (Hb d dx i Hd Hfd) as (w' & ? & _ & ?). congruence.
    - exists s1. split; [done|]. split; [done|]. split; [done|]. intros d. cbn.
      destruct (ui_contexts s !! d) as [dx|] eqn:Hd; [|done]. cbn.
      case_bool_decide as Hfd; [|done]. destruct (Hb d dx i Hd Hfd) as (w' & ? & _ & ?). congruence. }
  cbn [mbind option_bind]. assert (wf s2) as Hw2 by (by apply (same_shape_wf s); [| |eapply focus_cleared]).
  destruct (call_opt_ok (w_on_blur w) i (w_user w) s2 Hw2 Hblur) as (s3 & Ecall & Hsim). exists s3.
  split; [done|]. split; [by apply (similar_wf s2)|].
  split; [|intros Hn; rewrite (proj2 (Hn i w Hi)) in Ecall; injection Ecall as <-; by eapply but_focus_put]. split.
  - transitivity s2; [done|apply Hsim].
  - intros j Hj. by rewrite (sim_focused _ _ Hsim), Ew, lookup_insert_ne.
  - intros c. rewrite (sim_contexts _ _ Hsim), Ec. destruct (ui_contexts s !! c); [|done]. cbn. by case_bool_decide.
Qed.

(** The context of [i], if any, has no other focused widget. *)
Definition free_for i w s : Prop :=
  ∀ c cx, w_ctx w = Some c → ui_contexts s !! c = Some cx → cx_focused cx = None ∨ cx_focused cx = Some i.

Lemma other_unfocused i w s :
  wf s → ui_widgets s !! i = Some w →
  ∃ other s', other_focused i (w_ctx w) s = Some other ∧ ui_widget_unfocus code other s = Some s' ∧
    wf s' ∧ same_shape s s' ∧ free_for i w s' ∧ (no_hooks s → but_focus s s').
Proof.
  intros Hw Hi. unfold other_focused. destruct (wf_widgets s Hw i w Hi) as [_ Hctx _ _ _].
  destruct (w_ctx w) as [c|] eqn:Ex.
  2: { exists None, s. split; [done|]. split; [done|]. split; [done|]. split; [done|]. split; [|done]. intros c cx. congruence. }
  destruct (Hctx c eq_refl) as [cx Hc]. rewrite Hc. cbn [mbind option_bind].
  destruct (cx_focused cx) as [j|] eqn:Ef; [case_bool_decide as Ej|].
  - subst j. exists None, s. split; [done|]. split; [done|]. split; [done|]. split; [done|].
    split; [|done]. intros d dx Hd Hdx. right. congruence.
  - destruct (fo_back s (wf_focus s Hw) c cx j Hc Ef) as (wj & Hj & _ & _).
    destruct (unfocus_ok j wj s Hw Hj) as (s' & Eu & Hw' & [Hsh _ Hcs] & Hbut). exists (Some j), s'.
    split; [done|]. split; [done|]. split; [done|]. split; [done|]. split; [|done]. intros d dx Hd Hdx. left.
    assert (d = c) as -> by congruence. specialize (Hcs c). rewrite Hdx, Hc in Hcs. cbn in Hcs.
    rewrite bool_decide_true in Hcs by done. by injection Hcs.
  - exists None, s. split; [done|]. split; [done|]. split; [done|]. split; [done|].
    split; [|done]. intros d dx Hd Hdx. left. congruence.
Qed.

(** The steps after that: the focus is set in the widget and in its context. *)
Lemma focus_set_ok i w s :
  wf s → ui_widgets s !! i = Some w → free_for i w s →
  ∃ s', match w_ctx w with
        | None => Some (put_widget i (set_focused true w) s)
        | Some c => cx ← ui_contexts s !! c;
                    Some (put_context c (set_cx_focused (Some i) cx) (put_widget i (set_focused true w) s))
        end = Some s' ∧
    wf s' ∧ same_shape s s' ∧ (∀ c, w_ctx w = Some c → cx_focused <$> ui_contexts s' !! c = Some (Some i)) ∧
    ui_widgets s' = <[i := set_focused true w]> (ui_widgets s).
Proof.
  intros Hw Hi Hfree. destruct (wf_widgets s Hw i w Hi) as [_ Hctx _ _ _].
  set (s1 := put_widget i (set_focused true w) s).
  assert (same_shape s s1) as H1 by (by apply (same_shape_put s i w)).
  destruct (w_ctx w) as [c|] eqn:Ex.
  - destruct (Hctx c eq_refl) as [cx Hc]. rewrite Hc. cbn [mbind option_bind]. eexists. split; [done|].
    assert (same_shape s (put_context c (set_cx_focused (Some i) cx) s1)) as H2.
    { transitivity s1; [done|by apply (same_shape_put_context s1 c cx)]. }
    split; [|split; [done|]].
    + apply (same_shape_wf s); [done|done|]. apply (focus_given s (put_context c (set_cx_focused (Some i) cx) s1) i w Hw Hi eq_refl); [|done].
      intros d. cbn. rewrite Ex. destruct (decide (Some c = Some d)) as [[= <-]|Hne].
      * by rewrite lookup_insert_eq, Hc.
      * by rewrite lookup_insert_ne by congruence.
    + split; [|done]. intros d [= <-]. cbn. by rewrite lookup_insert_eq.
  - exists s1. split; [done|]. split; [|split; [done|split; done]]. apply (same_shape_wf s); [done|done|].
    apply (focus_given s s1 i w Hw Hi eq_refl); [|done]. intros d. by rewrite Ex, decide_False.
Qed.

Lemma focus_ok_widget i w s :
  wf s → ui_widgets s !! i = Some w →
  ∃ s', ui_widget_focus code (Some i) s = Some (if w_enabled w then 0 else -1, s') ∧ wf s' ∧ same_shape s s' ∧
    (if w_enabled w then ∀ c, w_ctx w = Some c → cx_focused <$> ui_contexts s' !! c = Some (Some i) else s' = s) ∧
    (no_hooks s → but_focus s s').
Proof.
  intros Hw Hi. cbn [ui_widget_focus]. rewrite Hi. cbn [mbind option_bind].
  destruct (w_enabled w); cbn [negb]; [|by exists s].
  destruct (other_unfocused i w s Hw Hi) as (other & s1 & -> & Hu & Hw1 & H1 & Hfree & Hb1). cbn [mbind option_bind].
  rewrite Hu. cbn [mbind option_bind]. destruct (same_shape_get _ _ i w H1 Hi) as (w1 & Hi1 & Ek & _).
  injection Ek as Ex _ _ _ _ _. unfold at_widget. rewrite Hi1. cbn [mbind option_bind ui_widgets put_widget].
  rewrite lookup_insert_eq. cbn [mbind option_bind w_ctx set_focused].
  assert (free_for i w1 s1) as Hfree1 by (intros c cx; rewrite Ex; apply Hfree).
  destruct (focus_set_ok i w1 s1 Hw1 Hi1 Hfree1) as (s2 & Es & Hw2 & H2 & Hf & Ew2). cbn [ui_contexts put_widget] in Es |- *.
  rewrite Es. cbn [mbind option_bind w_on_focus w_user set_focused].
  destruct (wf_widgets s1 Hw1 i w1 Hi1) as [_ _ _ _ (_ & Hcb & _)].
  destruct (call_opt_ok (w_on_focus w1) i (w_user w1) s2 Hw2 Hcb) as (s3 & Ecall & Hsim). rewrite Ecall. cbn [mbind option_bind].
  exists s3. split; [done|]. split; [by apply (similar_wf s2)|].
  split; [transitivity s1; [done|]; transitivity s2; [done|apply Hsim]|].
  split; [intros c Hc; rewrite (sim_contexts _ _ Hsim); apply Hf; congruence|].
  intros Hn. pose proof (no_hooks_but s s1 Hn (Hb1 Hn)) as Hn1. rewrite (proj1 (Hn1 i w1 Hi1)) in Ecall.
  injection Ecall as <-. transitivity s1; [by apply Hb1|by eapply but_focus_put].
Qed.
End WidgetsThm.
