(* ===== verification/WidgetKeys.v ===== *)
(** * Tab and Enter

    The widgets Tab moves through are the focusable ones of the tree in preorder, and it
    moves through them in a circle. *)

From Stdlib Require Import ZArith Lia.
From stdpp Require Import base tactics option numbers gmap list.
From S2P Require Import Prelude.
From S2P Require Import Input.
From S2P Require Import Runs.
From S2P Require Import Widgets.
From S2P Require Import WidgetLayout.
From S2P Require Import WidgetTree.
From S2P Require Import WidgetsThm.

Section WidgetKeys.
Context {C A E : Type}.
#[local] Abbreviation widget := (ui_widget (C := C) (A := A)).
#[local] Abbreviation state := (ui_state (C := C) (A := A) (E := E)).
Implicit Types (w : widget) (s : state) (i j k c : nat) (o : option nat) (l out : list nat) (t : tree).

(** The links of a stored tree as the code reads them. *)
Lemma stored_widget s o i ts :
  stored (graph s) o (Node i ts) →
  ∃ w, ui_widgets s !! i = Some w ∧ w_parent w = o ∧ w_children w = map top ts ∧ Forall (stored (graph s) (Some i)) ts.
Proof.
  intros Hs. inversion_clear Hs as [? ? ? Hi Hts]. unfold graph in Hi. rewrite lookup_fmap in Hi.
  destruct (ui_widgets s !! i) as [w|]; [|done]. injection Hi as H1 H2. by exists w.
Qed.

Lemma widget_tree s i w :
  wf s → ui_widgets s !! i = Some w →
  ∃ t, top t = i ∧ stored (graph s) (w_parent w) t ∧ NoDup (ids t) ∧ (height t < tree_fuel s)%nat.
Proof.
  intros Hw Hi. pose proof (wf_links s Hw) as Hl.
  assert (graph s !! i = Some (links_of w)) as Hg by (unfold graph; by rewrite lookup_fmap, Hi).
  destruct (tree_at _ _ _ _ Hl Hg) as (t & Et & Ht). exists t. split; [done|]. split; [done|].
  split; [by eapply stored_nodup|]. pose proof (tree_size _ _ _ Hl Ht) as Hsz. unfold graph in Hsz.
  rewrite map_size_fmap in Hsz. unfold tree_fuel. lia.
Qed.

(** ** The focusable widgets *)

Definition focusable_at s i : bool :=
  match ui_widgets s !! i with Some w => widget_is_focusable w | None => false end.

Definition focusables s t : list nat := List.filter (focusable_at s) (ids t).

Lemma filter_flat_map {X Y} (p : Y → bool) (f : X → list Y) (l : list X) :
  List.filter p (flat_map f l) = flat_map (λ x, List.filter p (f x)) l.
Proof. induction l as [|x l IH]; [done|]. cbn. by rewrite List.filter_app, IH. Qed.

Lemma take_take_app {X} (n : nat) (a b : list X) : take n (take n a ++ b) = take n (a ++ b).
Proof.
  destruct (decide (n <= length a)%nat) as [Hle|Hgt].
  - rewrite !take_app_le by (rewrite ?length_take; lia). by rewrite take_take, Nat.min_id.
  - by rewrite (take_ge a) by lia.
Qed.

Lemma collect_ok s t :
  ∀ n o out, stored (graph s) o t → (height t <= n)%nat → (length out <= 64)%nat →
    collect_focusable n s (top t) out = Some (take 64 (out ++ focusables s t)).
Proof.
  induction t as [i ts IH] using tree_induction. intros [|n] o out Hs Hn Ho; [cbn in Hn; lia|].
  cbn [collect_focusable top height] in *. unfold UI_MAX_FOCUSABLE, blen. destruct (64 <=? _) eqn:Ef; bool_hyps.
  { rewrite take_app_le, take_ge by lia. done. }
  destruct (stored_widget s o i ts Hs) as (w & Hi & _ & Hc & Hts). rewrite Hi. cbn [mbind option_bind]. rewrite Hc.
  unfold focusables. cbn [ids List.filter]. unfold focusable_at at 1. rewrite Hi.
  set (out1 := if widget_is_focusable w then out ++ [i] else out).
  assert (out ++ (if widget_is_focusable w then i :: List.filter (focusable_at s) (flat_map ids ts)
                  else List.filter (focusable_at s) (flat_map ids ts)) =
          out1 ++ List.filter (focusable_at s) (flat_map ids ts)) as ->.
  { unfold out1. destruct (widget_is_focusable w); [by rewrite <- app_assoc|done]. }
  rewrite filter_flat_map.
  assert (length out1 <= 64)%nat as Ho1 by (unfold out1; destruct (widget_is_focusable w); rewrite ?length_app; cbn; lia).
  clearbody out1. clear Hs Hi Hc Ho Ef.
  assert (Forall (λ t, height t <= n)%nat ts) as Hh.
  { apply Forall_forall. intros t Ht. pose proof (height_children t ts Ht). lia. }
  clear Hn. revert out1 Ho1. induction ts as [|t ts IHts]; intros out1 Ho1; cbn [map each flat_map].
  { by rewrite app_nil_r, take_ge by lia. }
  inversion_clear IH as [|? ? IHt IH']. inversion_clear Hts as [|? ? Ht Hts']. inversion_clear Hh as [|? ? Hht Hh'].
  rewrite (IHt n (Some i) out1 Ht Hht Ho1). cbn [mbind option_bind]. rewrite IHts; [|done..|rewrite length_take; lia].
  f_equal. by rewrite take_take_app, <- app_assoc.
Qed.

Lemma index_of_none o l (k : Z) : (∀ i, i ∈ l → Some i ≠ o) → index_of o l k = -1.
Proof.
  revert k. induction l as [|i l IH]; intros k Hl; cbn [index_of]; [done|].
  rewrite bool_decide_false by (apply Hl; left). apply IH. intros j Hj. apply Hl. by right.
Qed.

Lemma index_of_nth l (j : nat) i (k : Z) : NoDup l → l !! j = Some i → index_of (Some i) l k = k + Z.of_nat j.
Proof.
  revert j k. induction l as [|x l IH]; intros j k Hnd Hj; [done|]. apply NoDup_cons in Hnd as [Hx Hnd].
  cbn [index_of]. destruct j as [|j]; cbn in Hj.
  - injection Hj as ->. rewrite bool_decide_true by done. lia.
  - rewrite bool_decide_false by (intros [= ->]; apply Hx; by apply (list_elem_of_lookup_2 l j)).
    rewrite (IH j) by done. lia.
Qed.

Lemma focusables_nodup s t : NoDup (ids t) → NoDup (focusables s t).
Proof. intros Hn. apply NoDup_ListNoDup, List.NoDup_filter. by apply NoDup_ListNoDup. Qed.

Lemma focusables_live s t i :
  i ∈ focusables s t → ∃ w, ui_widgets s !! i = Some w ∧ widget_is_focusable w = true.
Proof.
  intros [_ Hf]%list_elem_of_In%List.filter_In. unfold focusable_at in Hf.
  destruct (ui_widgets s !! i) as [w|]; [by exists w|done].
Qed.

Lemma focusables_but s s' t : but_focus s s' → focusables s' t = focusables s t.
Proof.
  intros Hb. unfold focusables. apply List.filter_ext. intros i. unfold focusable_at. specialize (Hb i).
  destruct (ui_widgets s' !! i) as [w'|], (ui_widgets s !! i) as [w|]; try done. apply (inj Some) in Hb.
  by apply (f_equal widget_is_focusable Hb).
Qed.

(** ** The next widget *)

Context (code : C → nat → option A → state → option state).
Context (polite : ∀ f i a s, wf s → ∃ s', code f i a s = Some s' ∧ similar s s').

(** The tree of the root of a context; nothing when it has none. *)
Definition tree_of_context s (cx : ui_context) (ot : option tree) : Prop :=
  match ot with
  | Some t => cx_root cx = Some (top t) ∧ stored (graph s) None t ∧ NoDup (ids t) ∧ (height t < tree_fuel s)%nat
  | None => cx_root cx = None
  end.

Lemma context_tree s c cx : wf s → ui_contexts s !! c = Some cx → ∃ ot, tree_of_context s cx ot.
Proof.
  intros Hw Hc. destruct (cx_root cx) as [r|] eqn:Er; [|by exists None].
  destruct (wc_root s c cx (wf_contexts s Hw c cx Hc) r Er) as (w & Hr & Hp & _).
  destruct (widget_tree s r w Hw Hr) as (t & Et & Ht & Hn & Hh). exists (Some t). cbn. rewrite <- Hp. by rewrite Et.
Qed.

(** Tab gives the focus to [next], the one after the focused widget among the first 64. *)
Definition tab_target s (cx : ui_context) (ot : option tree) : option nat :=
  let l := match ot with Some t => take 64 (focusables s t) | None => [] end in
  l !! Z.to_nat ((index_of (cx_focused cx) l 0 + 1) mod blen l).

Lemma index_of_range o l (k : Z) : 0 <= k → -1 <= index_of o l k < k + blen l.
Proof.
  revert k. induction l as [|i l IH]; intros k Hk; cbn [index_of].
  { change (blen []) with 0. lia. }
  pose proof (blen_nonneg l). rewrite blen_cons. case_bool_decide; [lia|]. specialize (IH (k + 1) ltac:(lia)). lia.
Qed.

Lemma focus_next_ok s c cx ot :
  wf s → ui_contexts s !! c = Some cx → tree_of_context s cx ot →
  ∃ s', focus_next code c s = Some s' ∧ wf s' ∧ same_shape s s' ∧
    (no_hooks s → but_focus s s' ∧ ∀ i w, tab_target s cx ot = Some i → ui_widgets s !! i = Some w → w_ctx w = Some c →
       cx_focused <$> ui_contexts s' !! c = Some (Some i)).
Proof.
  intros Hw Hc Ht. unfold focus_next. rewrite Hc. cbn [mbind option_bind].
  assert (match cx_root cx with Some r => collect_focusable (tree_fuel s) s r [] | None => Some [] end =
          Some (match ot with Some t => take 64 (focusables s t) | None => [] end)) as ->.
  { destruct ot as [t|]; cbn [tree_of_context] in Ht; [|by rewrite Ht]. destruct Ht as (Er & Hst & _ & Hh).
    rewrite Er. rewrite (collect_ok s t (tree_fuel s) None []); [done|done|lia|cbn; lia]. }
  cbn [mbind option_bind]. unfold tab_target.
  set (l := match ot with Some t => take 64 (focusables s t) | None => [] end).
  assert (∀ i, i ∈ l → ∃ w, ui_widgets s !! i = Some w ∧ widget_is_focusable w = true) as Hl.
  { unfold l. intros i Hi. destruct ot as [t|]; [|by apply elem_of_nil in Hi].
    eapply focusables_live. by eapply subseteq_take. }
  clearbody l. destruct (blen l =? 0) eqn:El; bool_hyps.
  { exists s. split; [done|]. split; [done|]. split; [done|]. intros _. split; [done|]. intros i w Hi. exfalso.
    destruct l; [done|rewrite blen_cons in El; pose proof (blen_nonneg l); lia]. }
  pose proof (blen_nonneg l) as Hn0. pose proof (index_of_range (cx_focused cx) l 0 ltac:(lia)) as Hidx.
  rewrite Z.rem_mod_nonneg by lia.
  pose proof (Z.mod_pos_bound (index_of (cx_focused cx) l 0 + 1) (blen l) ltac:(lia)) as Hm.
  destruct (rd_ok l ((index_of (cx_focused cx) l 0 + 1) mod blen l)) as [next En]; [lia|]. rewrite En. cbn [mbind option_bind].
  rewrite rd_lookup in En by lia. rewrite En. destruct (Hl next ltac:(by eapply list_elem_of_lookup_2)) as (wn & Hwn & Hfn).
  assert (∃ s1, ui_widget_unfocus code (cx_focused cx) s = Some s1 ∧ wf s1 ∧ same_shape s s1 ∧ (no_hooks s → but_focus s s1))
    as (s1 & -> & Hw1 & H1 & Hb1).
  { destruct (cx_focused cx) as [j|] eqn:Ef; [|by exists s].
    destruct (fo_back s (wf_focus s Hw) c cx j Hc Ef) as (wj & Hj & _ & _).
    destruct (unfocus_ok code polite j wj s Hw Hj) as (s1 & ? & ? & [? _ _] & ?). by exists s1. }
  cbn [mbind option_bind]. destruct (same_shape_get _ _ next wn H1 Hwn) as (wn1 & Hwn1 & Ek & _).
  destruct (focus_ok_widget code polite next wn1 s1 Hw1 Hwn1) as (s2 & -> & Hw2 & H2 & Hf & Hb2). cbn [mbind option_bind].
  exists s2. split; [done|]. split; [done|]. split; [by transitivity s1|]. intros Hn.
  pose proof (no_hooks_but s s1 Hn (Hb1 Hn)) as Hn1. split; [transitivity s1; auto|].
  intros i w [= <-] Hi Hx. assert (w = wn) as -> by congruence. destruct (but_focus_get _ _ _ _ (Hb1 Hn) Hwn) as (w' & Hw' & Ew').
  assert (w' = wn1) as -> by congruence. pose proof (f_equal w_enabled Ew') as Een. cbn in Een.
  unfold widget_is_focusable in Hfn. bool_hyps. rewrite Een in Hf. replace (w_enabled wn) with true in Hf by done.
  apply Hf. injection Ek. congruence.
Qed.

(** ** Keys *)

Lemma input_event_ok s c cx ev :
  wf s → ui_contexts s !! c = Some cx →
  ∃ s', ui_input_event code (Some c) (Some ev) s = Some s' ∧ wf s' ∧ same_shape s s'.
Proof.
  intros Hw Hc. cbn [ui_input_event]. destruct (iv_type ev =? _); cbn [negb]; [|by exists s].
  destruct (iv_key ev =? INPUT_KEY_TAB).
  { destruct (context_tree s c cx Hw Hc) as [ot Ht].
    destruct (focus_next_ok s c cx ot Hw Hc Ht) as (s' & ? & ? & ? & _). by exists s'. }
  destruct (iv_key ev =? INPUT_KEY_ENTER); [|by exists s]. rewrite Hc. cbn [mbind option_bind].
  destruct (cx_focused cx) as [i|] eqn:Ef; [|by exists s].
  destruct (fo_back s (wf_focus s Hw) c cx i Hc Ef) as (w & Hi & _ & _). rewrite Hi. cbn [mbind option_bind].
  destruct (wf_widgets s Hw i w Hi) as [_ _ _ _ (Hcb & _ & _)].
  destruct (call_opt_ok code polite (w_on_click w) i (w_user w) s Hw Hcb) as (s' & -> & Hsim).
  exists s'. split; [done|]. split; [by apply (similar_wf s)|apply Hsim].
Qed.

Definition press c (l : list input_event_t) : state → option state :=
  each (λ ev, ui_input_event code (Some c) (Some ev)) l.

(** A context ready for Tab: its tree, whose focusable widgets are its own. *)
Definition tab_ready c t (l : list nat) s : Prop :=
  wf s ∧ no_hooks s ∧ stored (graph s) None t ∧ focusables s t = l ∧
  (∀ i w, i ∈ l → ui_widgets s !! i = Some w → w_ctx w = Some c).

(** One Tab from the place [p] of the focus, -1 when it is on none of [l]. *)
Lemma tab_once c cx t l s ev :
  tab_ready c t l s → ui_contexts s !! c = Some cx → cx_root cx = Some (top t) →
  l ≠ [] → blen l <= UI_MAX_FOCUSABLE → iv_type ev = INPUT_EVENT_KEY_DOWN → iv_key ev = INPUT_KEY_TAB →
  ∃ s' cx', ui_input_event code (Some c) (Some ev) s = Some s' ∧ tab_ready c t l s' ∧
    ui_contexts s' !! c = Some cx' ∧ cx_root cx' = Some (top t) ∧
    cx_focused cx' = l !! Z.to_nat ((index_of (cx_focused cx) l 0 + 1) mod blen l).
Proof.
  intros (Hw & Hn & Ht & El & Hx) Hc Hr Hne Hlen Ety Ek. cbn [ui_input_event]. rewrite Ety, Ek. cbn [negb Z.eqb Pos.eqb].
  assert (tree_of_context s cx (Some t)) as Htc.
  { split; [done|]. split; [done|]. split; [eapply stored_nodup; [apply Hw|done]|].
    pose proof (tree_size _ _ _ (wf_links s Hw) Ht) as Hsz. unfold graph in Hsz. rewrite map_size_fmap in Hsz.
    unfold tree_fuel. lia. }
  destruct (focus_next_ok s c cx (Some t) Hw Hc Htc) as (s' & Es & Hw' & Hsh & Hres). destruct (Hres Hn) as [Hb Hf].
  destruct (same_shape_context _ _ c cx Hsh Hc) as (cx' & Hc' & Er & _). exists s', cx'. split; [done|].
  split; [|split; [done|split; [congruence|]]].
  - split; [done|]. split; [by eapply no_hooks_but|]. split; [by rewrite (same_shape_graph _ _ Hsh)|].
    split; [by rewrite (focusables_but _ _ _ Hb)|]. intros i w' Hi Hw1.
    destruct (same_shape_get _ _ i w' (same_shape_sym _ _ Hsh) Hw1) as (w & Hwi & Esk & _).
    injection Esk. intros. rewrite <- (Hx i w Hi Hwi). congruence.
  - unfold tab_target in Hf. rewrite El, take_ge in Hf by (unfold blen, UI_MAX_FOCUSABLE in Hlen; lia).
    assert (0 < blen l) as Hpos by (destruct l; [done|rewrite blen_cons; pose proof (blen_nonneg l); lia]).
    pose proof (Z.mod_pos_bound (index_of (cx_focused cx) l 0 + 1) (blen l) Hpos) as Hm.
    destruct (lookup_lt_is_Some_2 l (Z.to_nat ((index_of (cx_focused cx) l 0 + 1) mod blen l))) as [i Hi];
      [unfold blen in *; lia|].
    assert (i ∈ focusables s t) as Hin by (rewrite El; by eapply list_elem_of_lookup_2).
    destruct (focusables_live _ _ _ Hin) as (w & Hwi & _). rewrite El in Hin.
    pose proof (Hf i w Hi Hwi (Hx i w Hin Hwi)) as Hfin. rewrite Hc' in Hfin. injection Hfin as ->. done.
Qed.

(** C19: Tab moves the focus in a circle through the focusable widgets of the tree in
    preorder: [n] presses from the place [p] lead to place [p + n] modulo their number,
    and a press with no focus among them leads to the first. *)
Theorem tab_cycles c cx t l s ev n :
  tab_ready c t l s → ui_contexts s !! c = Some cx → cx_root cx = Some (top t) →
  l ≠ [] → blen l <= UI_MAX_FOCUSABLE → iv_type ev = INPUT_EVENT_KEY_DOWN → iv_key ev = INPUT_KEY_TAB →
  ∃ s', press c (replicate (S n) ev) s = Some s' ∧
    ui_widget_get_focused (Some c) s' =
      Some (l !! Z.to_nat ((index_of (cx_focused cx) l 0 + Z.of_nat (S n)) mod blen l)).
Proof.
  intros Hrdy Hc Hr Hne Hlen Ety Ek.
  assert (0 < blen l) as Hpos by (destruct l; [done|rewrite blen_cons; pose proof (blen_nonneg l); lia]).
  revert s cx Hrdy Hc Hr. induction n as [|n IH]; intros s cx Hrdy Hc Hr;
    (destruct (tab_once c cx t l s ev Hrdy Hc Hr Hne Hlen Ety Ek) as (s1 & cx1 & Es & Hrdy1 & Hc1 & Hr1 & Hf1));
    unfold press; cbn [replicate each]; rewrite Es; cbn [mbind option_bind].
  { exists s1. split; [done|]. cbn [ui_widget_get_focused]. rewrite Hc1. cbn [mbind option_bind]. by rewrite Hf1. }
  destruct (IH s1 cx1 Hrdy1 Hc1 Hr1) as (s2 & E2 & Hfin). exists s2. split; [exact E2|]. rewrite Hfin, Hf1.
  pose proof (Z.mod_pos_bound (index_of (cx_focused cx) l 0 + 1) (blen l) Hpos) as Hm.
  set (q := (index_of (cx_focused cx) l 0 + 1) mod blen l) in *.
  destruct (lookup_lt_is_Some_2 l (Z.to_nat q)) as [i Hi]; [unfold blen in *; lia|]. rewrite Hi.
  assert (NoDup l) as Hnd.
  { destruct Hrdy as (Hw & _ & Ht & <- & _). apply focusables_nodup. eapply stored_nodup; [apply Hw|done]. }
  rewrite (index_of_nth l _ i 0 Hnd Hi). do 3 f_equal. rewrite Z.add_0_l, Z2Nat.id by lia. unfold q.
  rewrite Zplus_mod_idemp_l. f_equal. lia.
Qed.
End WidgetKeys.
