(* ===== verification/WidgetBoxes.v ===== *)
(** * What layouts compute

    Laying out a container returns and changes rectangles, visibility and dirty marks of
    what is below it.  When the numbers stay below 2^15, rows and columns put the visible
    children one after the other, and grids put them into cells. *)

From Stdlib Require Import ZArith Lia.
From stdpp Require Import base tactics option numbers gmap list.
From S2P Require Import Prelude.
From S2P Require Import Runs.
From S2P Require Import Widgets.
From S2P Require Import WidgetLayout.
From S2P Require Import WidgetTree.
From S2P Require Import WidgetsThm.
From S2P Require Import WidgetKeys.

(** ** Layouts end, and what they change *)

Lemma each_ok {X S} (body : X → S → option S) (P : S → Prop) l s :
  P s → (∀ x s, x ∈ l → P s → ∃ s', body x s = Some s' ∧ P s') → ∃ s', each body l s = Some s' ∧ P s'.
Proof.
  revert s. induction l as [|x l IH]; intros s Hs Hb; cbn [each]; [by exists s|].
  destruct (Hb x s ltac:(left) Hs) as (s1 & -> & H1). cbn [mbind option_bind].
  apply IH; [done|]. intros y s2 Hy. apply Hb. by right.
Qed.

Section WidgetLayoutThm.
Context {C A E : Type}.
#[local] Abbreviation widget := (ui_widget (C := C) (A := A)).
#[local] Abbreviation state := (ui_state (C := C) (A := A) (E := E)).
Implicit Types (w : widget) (s : state) (i j k c : nat) (o : option nat) (l : list nat) (t : tree).

(** From [s] to [s'] only the widgets of [l] changed, and kept their skeletons. *)
Record moves l s s' : Prop := {
  mv_similar : similar s s';
  mv_frame : ∀ j, j ∉ l → ui_widgets s' !! j = ui_widgets s !! j
}.

#[export] Instance moves_preorder l : PreOrder (moves l).
Proof.
  split; [by intros s; split|]. intros s1 s2 s3 [H1 H2] [H3 H4]. split; [by transitivity s2|].
  intros j Hj. by rewrite H4, H2.
Qed.

Lemma moves_more l l' s s' : l ⊆ l' → moves l s s' → moves l' s s'.
Proof. intros Hl [H1 H2]. split; [done|]. intros j Hj. apply H2. intros Hj'. by apply Hj, Hl. Qed.

Lemma moves_put l k w w' s : k ∈ l → ui_widgets s !! k = Some w → skeleton w' = skeleton w → moves l s (put_widget k w' s).
Proof.
  intros Hk Hw Hs. split; [by apply (similar_put s k w)|]. intros j Hj. cbn.
  rewrite lookup_insert_ne; [done|]. by intros ->.
Qed.

(** The children of a stored node are live, also after moves. *)
Lemma child_live s0 s l o i ts k :
  stored (graph s0) o (Node i ts) → moves l s0 s → k ∈ map top ts → ∃ w, ui_widgets s !! k = Some w.
Proof.
  intros Hs Hm (t & <- & Ht%list_elem_of_In)%list_elem_of_In%in_map_iff.
  destruct (stored_widget s0 o i ts Hs) as (_ & _ & _ & _ & Hts). rewrite Forall_forall in Hts.
  destruct (stored_live _ _ _ (top t) (Hts t Ht) (top_in t)) as [x Hx]. unfold graph in Hx. rewrite lookup_fmap in Hx.
  destruct (ui_widgets s0 !! top t) as [w|] eqn:Ew; [|done].
  destruct (similar_get _ _ _ w (mv_similar _ _ _ Hm) Ew) as (w' & Hw' & _). by exists w'.
Qed.

(** What a layout function must do for the child [t]. *)
Definition lays (lay : ui_layout_cb_t → nat → state → option state) t : Prop :=
  ∀ s o f w, wf s → stored (graph s) o t → ui_widgets s !! top t = Some w → w_layout_fn w = Some f →
    ∃ s', lay f (top t) s = Some s' ∧ moves (tl (ids t)) s s'.

Lemma stored_moves l s s' o t : moves l s s' → stored (graph s) o t → stored (graph s') o t.
Proof. intros Hm. by rewrite (same_shape_graph _ _ (sim_shape _ _ (mv_similar _ _ _ Hm))). Qed.

Lemma wf_moves l s s' : moves l s s' → wf s → wf s'.
Proof. intros [Hs _]. by apply similar_wf. Qed.

Lemma tl_ids_below t ts : t ∈ ts → tl (ids t) ⊆ flat_map ids ts.
Proof. intros Ht j Hj. eapply ids_child; [done|]. destruct t. by right. Qed.

Lemma layout_call_child lay s o i ts t w :
  wf s → stored (graph s) o (Node i ts) → t ∈ ts → lays lay t → ui_widgets s !! top t = Some w →
  ∃ s', match w_layout_fn w with Some f => lay f (top t) s | None => Some s end = Some s' ∧
    moves (flat_map ids ts) s s'.
Proof.
  intros Hw Hs Ht Hlay Hi. destruct (w_layout_fn w) as [f|] eqn:Ef; [|by exists s].
  destruct (stored_widget s o i ts Hs) as (_ & _ & _ & _ & Hts). rewrite Forall_forall in Hts.
  destruct (Hlay s (Some i) f w Hw (Hts t Ht) Hi Ef) as (s' & Es & Hm). exists s'. split; [done|].
  eapply moves_more; [by apply tl_ids_below|done].
Qed.

Lemma layout_child_ok lay s o i ts t :
  wf s → stored (graph s) o (Node i ts) → t ∈ ts → lays lay t →
  ∃ s', layout_child lay (top t) s = Some s' ∧ moves (flat_map ids ts) s s'.
Proof.
  intros Hw Hs Ht Hlay. assert (top t ∈ map top ts) as Hin by (apply list_elem_of_In, in_map; by apply list_elem_of_In).
  destruct (child_live s s [] o i ts (top t) Hs ltac:(done) Hin) as [w Hi]. unfold layout_child. rewrite Hi.
  cbn [mbind option_bind]. destruct (w_visible w); cbn [negb]; [|by exists s].
  set (s1 := put_widget (top t) (set_dirty true w) s).
  assert (moves (flat_map ids ts) s s1) as H1.
  { eapply moves_put; [by eapply ids_child, top_in|done|done]. }
  destruct (layout_call_child lay s1 o i ts t (set_dirty true w)) as (s2 & E2 & H2);
    [by eapply wf_moves|by eapply stored_moves|done|done|apply lookup_insert_eq|].
  exists s2. split; [exact E2|by transitivity s1].
Qed.

Lemma map_top_in ts k : k ∈ map top ts → ∃ t, top t = k ∧ t ∈ ts.
Proof. intros (t & <- & Ht%list_elem_of_In)%list_elem_of_In%in_map_iff. by exists t. Qed.

Lemma flex_total_ok row gap s o i ts acc :
  stored (graph s) o (Node i ts) → ∃ acc', each (flex_total row gap s) (map top ts) acc = Some acc'.
Proof.
  intros Hs. destruct (each_ok (flex_total row gap s) (λ _, True) (map top ts) acc I) as (acc' & -> & _); [|by exists acc'].
  intros k [tf fx] Hk _. destruct (child_live s s [] o i ts k Hs ltac:(done) Hk) as [w Hi]. cbn [flex_total].
  rewrite Hi. cbn. eauto.
Qed.

Lemma flex_place_ok row gap flex tf lead cross s0 s o i ts pos :
  stored (graph s0) o (Node i ts) → moves (map top ts) s0 s →
  ∃ pos' s', each (flex_place row gap flex tf lead cross) (map top ts) (pos, s) = Some (pos', s') ∧ moves (map top ts) s0 s'.
Proof.
  intros Hs Hm. destruct (each_ok (flex_place row gap flex tf lead cross)
    (λ acc, moves (map top ts) s0 acc.2) (map top ts) (pos, s) Hm) as ([pos' s'] & -> & H'); [|by exists pos', s'].
  intros k [p s1] Hk H1. cbn [snd] in H1. destruct (child_live s0 s1 _ o i ts k Hs H1 Hk) as [w Hi].
  cbn [flex_place]. rewrite Hi. cbn [mbind option_bind]. destruct (w_visible w); cbn [negb]; [|eauto].
  eexists. split; [done|]. cbn [snd]. transitivity s1; [done|by eapply moves_put].
Qed.

Lemma tops_below ts : map top ts ⊆ flat_map ids ts.
Proof. intros k (t & <- & Ht)%map_top_in. by eapply ids_child, top_in. Qed.

Lemma container_layout_ok lay s o i ts w :
  wf s → stored (graph s) o (Node i ts) → Forall (lays lay) ts → ui_widgets s !! i = Some w → is_Some (w_cont w) →
  ∃ s', container_layout lay i s = Some s' ∧ moves (flat_map ids ts) s s'.
Proof.
  intros Hw Hs Hlay Hi [cont Hc]. destruct (stored_widget s o i ts Hs) as (w' & Hi' & _ & Ech & _).
  assert (w' = w) as -> by congruence. unfold container_layout. rewrite Hi. cbn [mbind option_bind].
  rewrite Hc. cbn [mbind option_bind]. rewrite Ech.
  destruct (flex_total_ok (is_row (ct_flex_dir cont)) (ct_gap cont) s o i ts (0, 0) Hs) as [[tf fx] ->].
  cbn [mbind option_bind].
  match goal with |- context [each (flex_place ?a ?b ?f ?d ?e ?g) _ (?p, s)] =>
    destruct (flex_place_ok a b f d e g s s o i ts p Hs ltac:(done)) as (pos & s1 & -> & H1) end.
  cbn [mbind option_bind]. apply (moves_more _ _ _ _ (tops_below ts)) in H1.
  destruct (each_ok (layout_child lay) (λ s', moves (flat_map ids ts) s s') (map top ts) s1 H1) as (s2 & E2 & H2); [|by exists s2].
  intros k s2 (t & <- & Ht)%map_top_in H2. rewrite Forall_forall in Hlay.
  destruct (layout_child_ok lay s2 o i ts t) as (s3 & E3 & H3);
    [by eapply wf_moves|by eapply stored_moves|done|by apply Hlay|]. exists s3. split; [done|by transitivity s2].
Qed.

(** ** Grids, scrolling, and every layout *)

Lemma count_visible_ok s o i ts :
  stored (graph s) o (Node i ts) →
  ∃ v, each (count_visible s) (map top ts) 0 = Some v ∧ 0 <= v <= Z.of_nat (length ts).
Proof.
  intros Hs.
  assert (∀ l n, (∀ k, k ∈ l → ∃ w, ui_widgets s !! k = Some w) →
    ∃ v, each (count_visible s) l n = Some v ∧ n <= v <= n + Z.of_nat (length l)) as H.
  { intros l. induction l as [|k l IH]; intros n Hl; [exists n; split; [done|cbn; lia]|]. cbn [each length].
    destruct (Hl k ltac:(left)) as [w Hw]. unfold count_visible at 2. rewrite Hw. cbn [mbind option_bind].
    destruct (IH (if w_visible w then n + 1 else n)) as (v & -> & Hv); [intros j Hj; apply Hl; by right|].
    exists v. split; [done|]. destruct (w_visible w); lia. }
  destruct (H (map top ts) 0) as (v & -> & Hv); [|rewrite length_map in Hv; by exists v].
  intros k Hk. by apply (child_live s s [] o i ts k).
Qed.

Lemma grid_place_ok lay cols x0 y0 cw ch gap s o i ts idx :
  wf s → stored (graph s) o (Node i ts) → Forall (lays lay) ts →
  ∃ idx' s', each (grid_place lay cols x0 y0 cw ch gap) (map top ts) (idx, s) = Some (idx', s') ∧
    moves (flat_map ids ts) s s'.
Proof.
  intros Hw Hs Hlay. destruct (each_ok (grid_place lay cols x0 y0 cw ch gap)
    (λ acc, moves (flat_map ids ts) s acc.2) (map top ts) (idx, s) ltac:(done)) as ([idx' s'] & -> & H'); [|by exists idx', s'].
  intros k [n s1] Hk H1. cbn [snd] in H1. destruct (map_top_in _ _ Hk) as (t & <- & Ht).
  destruct (child_live s s1 _ o i ts _ Hs H1 Hk) as [w Hi].
  cbn [grid_place]. rewrite Hi. cbn [mbind option_bind]. destruct (w_visible w); cbn [negb]; [|eauto].
  match goal with |- context [put_widget (top t) ?w' s1] => set (w1 := w'); set (s2 := put_widget (top t) w1 s1) end.
  assert (moves (flat_map ids ts) s1 s2) as H2 by (eapply moves_put; [by eapply ids_child, top_in|done|done]).
  rewrite Forall_forall in Hlay.
  destruct (layout_call_child lay s2 o i ts t w1) as (s3 & E3 & H3);
    [eapply wf_moves; [by transitivity s1|done]|eapply stored_moves; [by transitivity s1|done]|done|by apply Hlay
    |apply lookup_insert_eq|].
  cbn [w_layout_fn w1 set_dirty set_rect] in E3. rewrite E3. cbn [mbind option_bind]. eexists. split; [done|].
  cbn [snd]. transitivity s1; [done|by transitivity s2].
Qed.

Lemma wf_children s o i ts : wf s → stored (graph s) o (Node i ts) → Z.of_nat (length ts) <= UI_MAX_CHILDREN.
Proof.
  intros Hw Hs. inversion_clear Hs as [? ? ? Hi Hts]. destruct (lk_nodup _ (wf_links s Hw) _ _ _ Hi) as [_ H].
  by rewrite <- (length_map top).
Qed.

(** The number of rows that hold [v] cells is not zero. *)
Lemma auto_rows cols v : 0 < cols <= 255 → 0 < v <= 16 →
  u8 (u32 (v + cols - 1) / cols) = (v + cols - 1) / cols ∧ 0 < (v + cols - 1) / cols ∧ v <= cols * ((v + cols - 1) / cols).
Proof.
  intros Hc Hv. rewrite (wrap_id 32) by (unfold in_w; lia).
  pose proof (Z.div_mod (v + cols - 1) cols ltac:(lia)) as Hd.
  pose proof (Z.mod_pos_bound (v + cols - 1) cols ltac:(lia)) as Hm.
  assert (0 < (v + cols - 1) / cols) by (apply Z.div_str_pos; lia).
  assert ((v + cols - 1) / cols <= v + cols - 1) by (apply Z.div_le_upper_bound; nia).
  split; [|split; [done|nia]]. apply wrap_id. unfold in_w. split; [lia|].
  apply Z.div_lt_upper_bound; [lia|]. nia.
Qed.

Lemma cols_live s i w cont :
  wf s → ui_widgets s !! i = Some w → w_cont w = Some cont → 0 <= ct_grid_cols cont <= 255.
Proof. intros Hw Hi Hc. apply (ww_cols s i w (wf_widgets s Hw i w Hi)). unfold cols_of. by rewrite Hc. Qed.

Lemma grid_layout_ok lay s o i ts w :
  wf s → stored (graph s) o (Node i ts) → Forall (lays lay) ts → ui_widgets s !! i = Some w → is_Some (w_cont w) →
  ∃ s', grid_layout lay i s = Some s' ∧ moves (flat_map ids ts) s s'.
Proof.
  intros Hw Hs Hlay Hi [cont Hc]. destruct (stored_widget s o i ts Hs) as (w' & Hi' & _ & Ech & _).
  assert (w' = w) as -> by congruence. unfold grid_layout. rewrite Hi. cbn [mbind option_bind].
  rewrite Hc. cbn [mbind option_bind]. rewrite Ech.
  destruct (count_visible_ok s o i ts Hs) as (v & -> & Hv). cbn [mbind option_bind].
  destruct (v =? 0) eqn:E0; bool_hyps; [by exists s|].
  pose proof (wf_children s o i ts Hw Hs) as Hlen. unfold UI_MAX_CHILDREN in Hlen.
  pose proof (cols_live s i w cont Hw Hi Hc) as Hcols.
  set (cols := if 0 <? ct_grid_cols cont then ct_grid_cols cont else 1).
  assert (0 < cols <= 255) as Hc1 by (unfold cols; destruct (0 <? _) eqn:?; bool_hyps; lia).
  destruct (auto_rows cols v Hc1 ltac:(lia)) as (Er & Hr & _). rewrite Er.
  match goal with |- context [if ?r =? 0 then None else _] => assert ((r =? 0) = false) as -> end.
  { destruct (ct_grid_rows cont =? 0) eqn:Eg; bool_hyps; by zbool. }
  match goal with |- context [each (grid_place _ ?a ?b ?f ?d ?e ?g) _ _] =>
    destruct (grid_place_ok lay a b f d e g s o i ts 0 Hw Hs Hlay) as (idx & s1 & -> & H1) end.
  by exists s1.
Qed.

Lemma scroll_layout_ok lay s o i ts w :
  wf s → stored (graph s) o (Node i ts) → Forall (lays lay) ts → ui_widgets s !! i = Some w → is_Some (w_cont w) →
  ∃ s', scroll_layout lay i s = Some s' ∧ moves (flat_map ids ts) s s'.
Proof.
  intros Hw Hs Hlay Hi Hc. destruct (container_layout_ok lay s o i ts w Hw Hs Hlay Hi Hc) as (s1 & E1 & H1).
  unfold scroll_layout. rewrite E1. cbn [mbind option_bind].
  destruct (stored_widget s1 o i ts) as (w1 & Hi1 & _ & Ech & _); [by eapply stored_moves|].
  destruct (similar_get _ _ i w (mv_similar _ _ _ H1) Hi) as (w1' & Hi1' & Esk & _).
  assert (w1' = w1) as -> by congruence. assert (is_Some (w_cont w1)) as [cont1 Hc1].
  { injection Esk as _ _ Ecols _ _ _. unfold cols_of in Ecols. destruct Hc as [x Hx]. rewrite Hx in Ecols.
    by destruct (w_cont w1). }
  rewrite Hi1. cbn [mbind option_bind]. rewrite Hc1. cbn [mbind option_bind]. rewrite Ech.
  match goal with |- context [each (scroll_child ?v ?off i)] =>
    destruct (each_ok (scroll_child v off i) (λ s', moves (flat_map ids ts) s s') (map top ts) s1 H1) as (s2 & E2 & H2); [|by exists s2] end.
  intros k s2 Hk H2. unfold scroll_child. destruct (similar_get _ _ i w (mv_similar _ _ _ H2) Hi) as (w2 & -> & _).
  cbn [mbind option_bind]. destruct (child_live s s2 _ o i ts k Hs H2 Hk) as [wk Hwk]. rewrite Hwk. cbn [mbind option_bind].
  eexists. split; [done|]. transitivity s2; [done|]. eapply moves_put; [by apply tops_below|done|done].
Qed.

Lemma layout_call_lays t : ∀ n, (height t <= n)%nat → lays (layout_call n) t.
Proof.
  induction t as [i ts IH] using tree_induction. intros [|n] Hn s o f w Hw Hs Hi Hf; cbn [height] in Hn; [lia|].
  cbn [top ids tl layout_call].
  assert (Forall (lays (layout_call n)) ts) as Hlay.
  { rewrite Forall_forall in IH |- *. intros t Ht. apply IH; [done|]. pose proof (height_children t ts Ht). lia. }
  assert (is_Some (w_cont w)) as Hc.
  { destruct (ww_cont s i w (wf_widgets s Hw i w Hi)) as [x Hx]; [by rewrite Hf|]. unfold cols_of in Hx.
    by destruct (w_cont w). }
  destruct f; [by eapply container_layout_ok|by eapply grid_layout_ok|by eapply scroll_layout_ok].
Qed.

Lemma layout_widget_ok t : ∀ n s o, (height t <= n)%nat → wf s → stored (graph s) o t →
  ∃ s', layout_widget n (top t) s = Some s' ∧ moves (ids t) s s'.
Proof.
  induction t as [i ts IH] using tree_induction. intros n s o Hn Hw Hs.
  destruct (stored_widget s o i ts Hs) as (w & Hi & _ & Ech & _). cbn [top]. destruct n as [|n]; [cbn in Hn; lia|].
  cbn [layout_widget]. rewrite Hi. cbn [mbind option_bind]. destruct (w_layout_fn w) as [f|] eqn:Ef.
  { destruct (layout_call_lays (Node i ts) (S n) Hn s o f w Hw Hs Hi Ef) as (s' & Es & Hm). exists s'.
    split; [exact Es|]. eapply moves_more; [|done]. intros j Hj. by right. }
  rewrite Ech. cbn [height] in Hn.
  destruct (each_ok (layout_widget n) (λ s', moves (ids (Node i ts)) s s') (map top ts) s ltac:(done)) as (s' & -> & H'); [|by exists s'].
  intros k s1 (t & <- & Ht)%map_top_in H1. rewrite Forall_forall in IH.
  assert (stored (graph s1) o (Node i ts)) as Hs1 by (by eapply stored_moves).
  destruct (stored_widget s1 o i ts Hs1) as (_ & _ & _ & _ & Hts). rewrite Forall_forall in Hts.
  pose proof (height_children t ts Ht). destruct (IH t Ht n s1 (Some i)) as (s2 & E2 & H2); [lia|by eapply wf_moves|by apply Hts|].
  exists s2. split; [done|]. transitivity s1; [done|]. eapply moves_more; [|done]. intros j Hj. right. by eapply ids_child.
Qed.

Lemma ui_layout_ok s c cx :
  wf s → ui_contexts s !! c = Some cx → ∃ s', ui_layout (Some c) s = Some s' ∧ wf s' ∧ similar s s'.
Proof.
  intros Hw Hc. cbn [ui_layout]. rewrite Hc. cbn [mbind option_bind].
  destruct (context_tree s c cx Hw Hc) as [[t|] Ht]; cbn in Ht; [|rewrite Ht; by exists s].
  destruct Ht as (-> & Hst & _ & Hh).
  destruct (layout_widget_ok t (tree_fuel s) s None) as (s' & -> & Hm); [lia|done|done|].
  exists s'. split; [done|]. split; [by eapply wf_moves|apply Hm].
Qed.
End WidgetLayoutThm.

(** ** Rows, columns and cells *)

Definition zsum (l : list Z) : Z := foldr Z.add 0 l.

Lemma zsum_nonneg l : Forall (λ x, 0 <= x) l → 0 <= zsum l.
Proof. intros H. induction H; cbn; [lia|]. unfold zsum in *. lia. Qed.

Lemma zsum_app a b : zsum (a ++ b) = zsum a + zsum b.
Proof. induction a as [|x a IH]; [done|]. cbn. unfold zsum in *. lia. Qed.

Lemma zsum_take n l : Forall (λ x, 0 <= x) l → zsum (take n l) <= zsum l.
Proof.
  intros H. rewrite <- (take_drop n l) at 2. rewrite zsum_app.
  pose proof (zsum_nonneg (drop n l) ltac:(by apply Forall_drop)). lia.
Qed.

(** Shares rounded down do not exceed the whole. *)
Lemma shares_fit (whole total : Z) gs :
  0 <= whole → 0 < total → Forall (λ g, 0 <= g) gs → total * zsum (map (λ g, (whole * g) / total) gs) <= whole * zsum gs.
Proof.
  intros Hw Ht Hg. induction Hg as [|g gs Hg _ IH]; cbn [map zsum foldr]; [lia|]. unfold zsum in *.
  pose proof (Z.mul_div_le (whole * g) total Ht). lia.
Qed.

Lemma i16_id z : -32768 <= z < 32768 → i16 z = z.
Proof. intros Hz. unfold i16. rewrite Z.mod_small by lia. lia. Qed.

Section WidgetBoxes.
Context {C A E : Type}.
#[local] Abbreviation widget := (ui_widget (C := C) (A := A)).
#[local] Abbreviation state := (ui_state (C := C) (A := A) (E := E)).
Implicit Types (w ch : widget) (s : state) (i k c : nat) (o : option nat) (ks : list nat) (t : tree) (row : bool).

(** The visible ones of the children [ks]. *)
Definition kids s ks : list (nat * widget) :=
  omap (λ k, ch ← ui_widgets s !! k; if w_visible ch then Some (k, ch) else None) ks.

Lemma kids_in s ks j k ch : kids s ks !! j = Some (k, ch) → k ∈ ks ∧ ui_widgets s !! k = Some ch ∧ w_visible ch = true.
Proof.
  intros Hj%list_elem_of_lookup_2. apply list_elem_of_omap in Hj as (k' & Hk & Hch).
  destruct (ui_widgets s !! k') as [ch'|] eqn:Ek; [|done]. cbn in Hch. destruct (w_visible ch') eqn:Ev; [|done].
  by injection Hch as -> ->.
Qed.

Lemma kids_same s s' ks : (∀ k, k ∈ ks → ui_widgets s' !! k = ui_widgets s !! k) → kids s' ks = kids s ks.
Proof.
  intros H. unfold kids. induction ks as [|k ks IH]; [done|]. cbn. rewrite (H k) by left.
  destruct (ui_widgets s !! k ≫= _); [f_equal|]; apply IH; intros j Hj; apply H; by right.
Qed.

(** Sizes of children are values of their C types. *)
Definition sized ch : Prop :=
  is_u16 (lp_width (w_layout ch)) ∧ is_u16 (lp_height (w_layout ch)) ∧ is_u8 (lp_flex_grow (w_layout ch)).

#[export] Instance sized_dec ch : Decision (sized ch).
Proof. unfold sized. apply _. Defined.

Definition flexible row ch : bool := is_flex (main_mode row ch).
Definition grow_of row ch : Z := if flexible row ch then lp_flex_grow (w_layout ch) else 0.
(** What an inflexible child takes, with the gap after it. *)
Definition taken row (gap : Z) ch : Z := if flexible row ch then 0 else main_size row ch + gap.

(** The size of a child along the container: its share of [flex], or its own size. *)
Definition share row (flex total : Z) ch : Z :=
  if flexible row ch && (0 <? total) then (flex * lp_flex_grow (w_layout ch)) / total else main_size row ch.
Definition across row (cross : Z) ch : Z := if is_fixed (cross_mode row ch) then cross_size row ch else cross.

Definition over_kids (f : widget → Z) (l : list (nat * widget)) : list Z := map (λ kc, f kc.2) l.

Lemma sized_main row ch : sized ch → 0 <= main_size row ch < 65536 ∧ 0 <= lp_flex_grow (w_layout ch) < 256.
Proof. intros (H1 & H2 & H3). unfold main_size, in_w in *. destruct row; lia. Qed.

Lemma taken_nonneg row gap ch : 0 <= gap → sized ch → 0 <= taken row gap ch.
Proof. intros Hg Hs. destruct (sized_main row ch Hs). unfold taken. destruct (flexible row ch); lia. Qed.

Lemma grow_nonneg row ch : sized ch → 0 <= grow_of row ch.
Proof. intros Hs. destruct (sized_main row ch Hs). unfold grow_of. destruct (flexible row ch); lia. Qed.

(** ** First loop *)

Lemma flex_total_sums row gap s ks a b :
  0 <= gap → 0 <= a → 0 <= b →
  (∀ k, k ∈ ks → is_Some (ui_widgets s !! k)) → Forall (λ kc, sized kc.2) (kids s ks) →
  a + zsum (over_kids (grow_of row) (kids s ks)) < 32768 → b + zsum (over_kids (taken row gap) (kids s ks)) < 32768 →
  each (flex_total row gap s) ks (a, b) =
    Some (a + zsum (over_kids (grow_of row) (kids s ks)), b + zsum (over_kids (taken row gap) (kids s ks))).
Proof.
  intros Hg. revert a b. induction ks as [|k ks IH]; intros a b Ha Hb Hl Hs Hga Hta; cbn [each].
  { cbn. by rewrite !Z.add_0_r. }
  destruct (Hl k ltac:(left)) as [ch Hk]. cbn [flex_total]. rewrite Hk. cbn [mbind option_bind].
  cbn [kids omap list_omap] in *. rewrite Hk in *. cbn [mbind option_bind] in *.
  destruct (w_visible ch); cbn [negb].
  2: { apply IH; try done. intros j Hj. apply Hl. by right. }
  apply Forall_cons in Hs as [Hch Hs]. cbn [snd] in Hch. change (omap _ ks) with (kids s ks) in *.
  cbn [over_kids map zsum foldr snd] in *. change (map _ (kids s ks)) with (over_kids (grow_of row) (kids s ks)) in Hga.
  assert (Forall (λ x, 0 <= x) (over_kids (grow_of row) (kids s ks)) ∧ Forall (λ x, 0 <= x) (over_kids (taken row gap) (kids s ks))) as [Hgn Htn].
  { split; apply Forall_map; (eapply Forall_impl; [exact Hs|]); intros kc Hkc; [by apply grow_nonneg|by apply taken_nonneg]. }
  apply zsum_nonneg in Hgn, Htn. pose proof (grow_nonneg row ch Hch) as Hg0. pose proof (taken_nonneg row gap ch Hg Hch) as Ht0.
  unfold zsum, over_kids in *.
  assert (∀ x y, x = a + grow_of row ch → y = b + taken row gap ch →
    each (flex_total row gap s) ks (x, y) = Some (a + (grow_of row ch + foldr Z.add 0 (map (λ kc, grow_of row kc.2) (kids s ks))),
      b + (taken row gap ch + foldr Z.add 0 (map (λ kc, taken row gap kc.2) (kids s ks))))) as Hstep.
  { intros x y -> ->. rewrite IH; [f_equal; f_equal; lia|lia|lia| |done|lia|lia]. intros j Hj. apply Hl. by right. }
  unfold grow_of, taken, flexible in *. destruct (is_flex (main_mode row ch)); apply Hstep; rewrite ?i16_id by lia; lia.
Qed.

(** ** Second loop *)

Lemma kids_cons s k ks ch :
  ui_widgets s !! k = Some ch → kids s (k :: ks) = if w_visible ch then (k, ch) :: kids s ks else kids s ks.
Proof. intros Hk. cbn [kids omap list_omap]. rewrite Hk. cbn [mbind option_bind]. by destruct (w_visible ch). Qed.

Lemma share_range row flex total ch :
  sized ch → 0 <= flex < 32768 → grow_of row ch <= total →
  main_share row flex total ch = share row flex total ch ∧ 0 <= share row flex total ch < 65536.
Proof.
  intros Hs Hf Ht. destruct (sized_main row ch Hs) as [Hm Hg]. unfold main_share, share, grow_of, flexible in *.
  destruct (is_flex (main_mode row ch)); cbn [andb]; [|done]. destruct (0 <? total) eqn:E0; bool_hyps; [|done].
  rewrite Z.quot_div_nonneg by lia.
  assert (0 <= flex * lp_flex_grow (w_layout ch) / total < 32768).
  { split; [apply Z.div_pos; lia|]. apply Z.div_lt_upper_bound; [lia|]. nia. }
  rewrite wrap_id by (unfold in_w; lia). lia.
Qed.

(** The space the children take, one gap after each. *)
Definition extents row (gap flex total : Z) (l : list (nat * widget)) : list Z :=
  over_kids (λ ch, share row flex total ch + gap) l.

Definition box row (pos lead main cross : Z) : ui_rect_t :=
  if row then mk_rect pos lead main cross else mk_rect lead pos cross main.

Lemma extents_nonneg row gap flex total l :
  0 <= gap → 0 <= flex < 32768 → Forall (λ kc, sized kc.2 ∧ grow_of row kc.2 <= total) l →
  Forall (λ x, 0 <= x) (extents row gap flex total l).
Proof.
  intros Hg Hf Hs. unfold extents, over_kids. apply Forall_map. eapply Forall_impl; [exact Hs|].
  intros [k ch] [H1 H2]. cbn [snd] in *. destruct (share_range row flex total ch H1 Hf H2). cbn. lia.
Qed.

Lemma flex_place_flow row gap flex total lead cross s ks pos :
  0 <= gap → 0 <= flex < 32768 → 0 <= lead < 32768 → 0 <= cross < 32768 → 0 <= pos → NoDup ks →
  (∀ k, k ∈ ks → is_Some (ui_widgets s !! k)) →
  Forall (λ kc, sized kc.2 ∧ grow_of row kc.2 <= total) (kids s ks) →
  pos + zsum (extents row gap flex total (kids s ks)) < 32768 →
  ∃ pos' s', each (flex_place row gap flex total lead cross) ks (pos, s) = Some (pos', s') ∧
    (∀ j, j ∉ ks → ui_widgets s' !! j = ui_widgets s !! j) ∧
    ∀ j k ch, kids s ks !! j = Some (k, ch) →
      w_rect <$> ui_widgets s' !! k = Some (box row (pos + zsum (take j (extents row gap flex total (kids s ks)))) lead
        (share row flex total ch) (across row cross ch)).
Proof.
  intros Hg Hf Hld Hcr. revert s pos. induction ks as [|k ks IH]; intros s pos Hp Hnd Hl Hs Hext; cbn [each].
  { exists pos, s. split; [done|]. split; [done|]. by intros j k ch. }
  destruct (Hl k ltac:(left)) as [ch Hk]. apply NoDup_cons in Hnd as [Hni Hnd]. cbn [flex_place]. rewrite Hk.
  cbn [mbind option_bind]. rewrite (kids_cons s k ks ch Hk) in *. destruct (w_visible ch) eqn:Ev; cbn [negb].
  2: { destruct (IH s pos) as (pos' & s' & E' & Hfr & Hr); [done|done|intros j Hj; apply Hl; by right|done|done|].
       exists pos', s'. split; [exact E'|]. split; [|done]. intros j Hj. apply Hfr. set_solver. }
  apply Forall_cons in Hs as [[Hch Hgr] Hs]. cbn [snd] in Hch, Hgr.
  destruct (share_range row flex total ch Hch Hf Hgr) as [Esh Hsh]. destruct (sized_main (negb row) ch Hch) as [Hcs _].
  assert (zsum (extents row gap flex total ((k, ch) :: kids s ks)) = share row flex total ch + gap + zsum (extents row gap flex total (kids s ks))) as Ez by done.
  rewrite Ez in Hext. pose proof (zsum_nonneg _ (extents_nonneg row gap flex total (kids s ks) Hg Hf Hs)) as Hrest.
  rewrite Esh, i16_id by lia.
  match goal with |- context [put_widget k ?w s] => set (w1 := w); set (s1 := put_widget k w1 s) end.
  assert (kids s1 ks = kids s ks) as Ekids.
  { apply kids_same. intros j Hj. cbn. apply lookup_insert_ne. by intros ->. }
  destruct (IH s1 (pos + (share row flex total ch + gap))) as (pos' & s' & E' & Hfr & Hr); [lia|done| | |rewrite Ekids; lia|].
  { intros j Hj. cbn. rewrite lookup_insert_ne by (by intros ->). apply Hl. by right. }
  { by rewrite Ekids. }
  exists pos', s'. split; [exact E'|]. split.
  { intros j Hj. rewrite Hfr by set_solver. cbn. apply lookup_insert_ne. set_solver. }
  rewrite Ekids in Hr. intros [|j] k' ch'; cbn [lookup list_lookup].
  - intros [= <- <-]. rewrite (Hfr k Hni). cbn. rewrite lookup_insert_eq. cbn. rewrite Z.add_0_r. f_equal.
    unfold place_rect, box, across, cross_size, is_fixed. rewrite !(wrap_id 16 pos), !(wrap_id 16 lead) by (unfold in_w; lia).
    destruct (cross_mode row ch); rewrite ?(wrap_id 16 cross) by (unfold in_w; lia); done.
  - intros Hj. rewrite (Hr j k' ch' Hj).
    assert (zsum (take (S j) (extents row gap flex total ((k, ch) :: kids s ks))) =
      share row flex total ch + gap + zsum (take j (extents row gap flex total (kids s ks)))) as -> by done.
    do 2 f_equal. lia.
Qed.

(** ** A whole row or column *)

(** The third loop leaves the rectangles of the children alone. *)
Lemma top_not_below ts t k : NoDup (flat_map ids ts) → t ∈ ts → k ∈ map top ts → k ∉ tl (ids t).
Proof.
  intros Hnd Ht (u & <- & Hu)%map_top_in Hin. induction ts as [|v ts IH]; [by apply elem_of_nil in Ht|].
  cbn [flat_map] in Hnd. apply NoDup_app in Hnd as (Hv & Hd & Hnd).
  assert (∀ x, top x ∈ ids x) as Htop by apply top_in.
  assert (top u ∈ ids t) as Hin' by (destruct t; by right).
  apply elem_of_cons in Ht as [->|Ht], Hu as [->|Hu].
  - destruct v as [i vs]. cbn in *. by apply NoDup_cons in Hv as [? _].
  - apply (Hd (top u) Hin'). by eapply ids_child.
  - apply (Hd (top v) (Htop v)). by eapply ids_child.
  - by apply IH.
Qed.

Lemma layout_children_rects lay s o i ts :
  wf s → stored (graph s) o (Node i ts) → Forall (lays lay) ts →
  ∃ s', each (layout_child lay) (map top ts) s = Some s' ∧ moves (flat_map ids ts) s s' ∧
    ∀ k, k ∈ map top ts → w_rect <$> ui_widgets s' !! k = w_rect <$> ui_widgets s !! k.
Proof.
  intros Hw Hs Hlay.
  assert (NoDup (flat_map ids ts)) as Hnd by (pose proof (stored_nodup _ _ _ (wf_links s Hw) Hs) as Hn; by inversion Hn).
  destruct (each_ok (layout_child lay) (λ s', moves (flat_map ids ts) s s' ∧
    ∀ k, k ∈ map top ts → w_rect <$> ui_widgets s' !! k = w_rect <$> ui_widgets s !! k) (map top ts) s ltac:(done))
    as (s' & -> & H'); [|by exists s'].
  intros k s1 (t & <- & Ht)%map_top_in [H1 Hr1]. rewrite Forall_forall in Hlay.
  assert (stored (graph s1) o (Node i ts)) as Hs1 by (by eapply stored_moves).
  destruct (layout_child_ok lay s1 o i ts t) as (s2 & E2 & H2); [by eapply wf_moves|done|done|by apply Hlay|].
  exists s2. split; [done|]. split; [by transitivity s1|]. intros k Hk. rewrite <- (Hr1 k Hk).
  unfold layout_child in E2. destruct (ui_widgets s1 !! top t) as [w|] eqn:Ew; [|done]. cbn [mbind option_bind] in E2.
  destruct (w_visible w); cbn [negb] in E2; [|by injection E2 as <-].
  assert (w_rect <$> ui_widgets (put_widget (top t) (set_dirty true w) s1) !! k = w_rect <$> ui_widgets s1 !! k) as Eput.
  { cbn. destruct (decide (k = top t)) as [->|Hne]; [by rewrite lookup_insert_eq, Ew|by rewrite lookup_insert_ne]. }
  rewrite <- Eput. destruct (w_layout_fn w) as [f|] eqn:Ef; cbn [w_layout_fn set_dirty] in E2; rewrite ?Ef in E2;
    [|by injection E2 as <-].
  destruct (stored_widget s1 o i ts Hs1) as (_ & _ & _ & _ & Hts). rewrite Forall_forall in Hts.
  set (s1' := put_widget (top t) (set_dirty true w) s1) in *.
  assert (moves (ids t) s1 s1') as Hp by (by eapply moves_put; [apply top_in| |]).
  destruct (Hlay t Ht s1' (Some i) f (set_dirty true w)) as (s3 & E3 & H3);
    [eapply wf_moves; [exact Hp|by eapply wf_moves]|eapply stored_moves; [exact Hp|by apply Hts]|apply lookup_insert_eq|done|].
  assert (s3 = s2) as -> by congruence. f_equal. apply (mv_frame _ _ _ H3). by eapply top_not_below.
Qed.

(** The quantities of a row or column with the visible children [l]. *)
Definition total_of row (l : list (nat * widget)) : Z := zsum (over_kids (grow_of row) l).
Definition fixed_of row (gap : Z) (l : list (nat * widget)) : Z := zsum (over_kids (taken row gap) l).
Definition flexibles row (l : list (nat * widget)) : Z := zsum (over_kids (λ ch, if flexible row ch then 1 else 0) l).
Definition avail_of row w : Z := if row then content_w w else content_h w.
Definition start_of row w : Z := if row then content_x w else content_y w.
Definition spare_of row (gap : Z) w (l : list (nat * widget)) : Z := Z.max 0 (avail_of row w - fixed_of row gap l).
Definition extents_of row (gap : Z) w (l : list (nat * widget)) : list Z :=
  extents row gap (spare_of row gap w l) (total_of row l) l.

(** The numbers of the layout stay below 2^15. *)
Record flow_fits row (gap : Z) w (l : list (nat * widget)) : Prop := {
  ff_sized : Forall (λ kc, sized kc.2) l;
  ff_gap : 0 <= gap;
  ff_total : total_of row l < 32768;
  ff_fixed : fixed_of row gap l < 32768;
  ff_box : 0 <= avail_of row w ∧ 0 <= avail_of (negb row) w ∧ 0 <= start_of row w ∧ 0 <= start_of (negb row) w;
  ff_extent : start_of row w + zsum (extents_of row gap w l) < 32768
}.

Lemma i16_range z : -32768 <= i16 z < 32768.
Proof. unfold i16. pose proof (Z.mod_pos_bound (z + 2 ^ 15) (2 ^ 16) ltac:(lia)). lia. Qed.

Lemma content_range row w : avail_of row w < 32768 ∧ start_of row w < 32768.
Proof.
  unfold avail_of, start_of, content_w, content_h, content_x, content_y.
  destruct row; split; apply i16_range.
Qed.

Lemma grow_le_total row l kc : Forall (λ kc, sized kc.2) l → kc ∈ l → grow_of row kc.2 <= total_of row l.
Proof.
  intros Hs Hin. induction Hin as [kc l|kc x l Hin IH]; apply Forall_cons in Hs as [Hx Hs].
  - assert (0 <= total_of row l); [|unfold total_of, over_kids, zsum in *; cbn; lia].
    apply zsum_nonneg, Forall_map. eapply Forall_impl; [exact Hs|]. intros y Hy. by apply grow_nonneg.
  - specialize (IH Hs). pose proof (grow_nonneg row _ Hx). unfold total_of, over_kids, zsum in *. cbn. lia.
Qed.

(** The children fill the container up to the gaps after flexible children. *)
Lemma extents_sum row gap w l :
  Forall (λ kc, sized kc.2) l → 0 < total_of row l ∨ flexibles row l = 0 → fixed_of row gap l <= avail_of row w →
  zsum (extents_of row gap w l) <= avail_of row w + gap * flexibles row l.
Proof.
  intros Hs Ht Hfit. unfold extents_of. set (spare := spare_of row gap w l). set (total := total_of row l) in *.
  assert (0 <= spare ∧ spare = avail_of row w - fixed_of row gap l) as [Hsp0 Hsp] by (unfold spare, spare_of; lia).
  assert (∀ l, Forall (λ kc, sized kc.2) l → 0 <= flexibles row l) as Hfl0.
  { intros l' _. apply zsum_nonneg, Forall_map, Forall_true. intros kc. cbn. by destruct (flexible row kc.2). }
  destruct Ht as [Ht|Hnone].
  - assert (zsum (extents row gap spare total l) =
            fixed_of row gap l + zsum (map (λ g, (spare * g) / total) (over_kids (grow_of row) l)) + gap * flexibles row l) as ->.
    { clear Hs Hfit Hsp Hfl0. clearbody spare total. unfold extents, over_kids, fixed_of, flexibles, zsum.
      induction l as [|[k ch] l IH]; cbn [map foldr snd]; [unfold over_kids; cbn; lia|]. unfold over_kids in *. cbn [map foldr snd].
      unfold share at 1. unfold taken at 1. unfold grow_of at 1. destruct (flexible row ch); cbn [andb].
      - rewrite (proj2 (Z.ltb_lt 0 total)) by done. lia.
      - rewrite Z.mul_0_r, Z.div_0_l by lia. lia. }
    pose proof (shares_fit spare total (over_kids (grow_of row) l) Hsp0 Ht) as Hsh.
    assert (Forall (λ g, 0 <= g) (over_kids (grow_of row) l)) as Hg.
    { apply Forall_map. eapply Forall_impl; [exact Hs|]. intros y Hy. by apply grow_nonneg. }
    specialize (Hsh Hg). change (zsum (over_kids (grow_of row) l)) with total in Hsh. nia.
  - assert (zsum (extents row gap spare total l) = fixed_of row gap l) as ->; [|lia].
    clear Hfit Hsp. clearbody spare total. induction Hs as [|[k ch] l Hch Hs IH]; [done|].
    unfold extents, fixed_of, flexibles, over_kids, zsum in *. cbn [map foldr snd] in *.
    specialize (Hfl0 l Hs). unfold over_kids in Hfl0.
    unfold share at 1. unfold taken at 1. destruct (flexible row ch); cbn [andb] in *; lia.
Qed.

Lemma taken_total row gap l : 0 <= gap → Forall (λ kc, sized kc.2) l → 0 <= fixed_of row gap l.
Proof.
  intros Hg Hs. apply zsum_nonneg, Forall_map. eapply Forall_impl; [exact Hs|]. intros y Hy. by apply taken_nonneg.
Qed.

Lemma spare_code row gap w l :
  0 <= gap → Forall (λ kc, sized kc.2) l → avail_of row w < 32768 → 0 <= avail_of row w →
  (if fixed_of row gap l <? avail_of row w then i16 (avail_of row w - fixed_of row gap l) else 0) = spare_of row gap w l ∧
  0 <= spare_of row gap w l < 32768.
Proof.
  intros Hg Hs Ha H0. pose proof (taken_total row gap l Hg Hs). unfold spare_of.
  destruct (_ <? _) eqn:Ef; bool_hyps; [rewrite i16_id by lia|]; lia.
Qed.

(** The three loops together. *)
Lemma container_flow lay s o i ts w cont :
  wf s → stored (graph s) o (Node i ts) → Forall (lays lay) ts → ui_widgets s !! i = Some w → w_cont w = Some cont →
  let row := is_row (ct_flex_dir cont) in let gap := ct_gap cont in let l := kids s (map top ts) in
  flow_fits row gap w l →
  ∃ s', container_layout lay i s = Some s' ∧ moves (flat_map ids ts) s s' ∧
    ∀ j k ch, l !! j = Some (k, ch) → w_rect <$> ui_widgets s' !! k =
       Some (box row (start_of row w + zsum (take j (extents_of row gap w l))) (start_of (negb row) w)
               (share row (spare_of row gap w l) (total_of row l) ch) (across row (avail_of (negb row) w) ch)).
Proof.
  intros Hw Hs Hlay Hi Hc row gap l [Hsz Hgap Htot Hfix (Hav & Hcr & Hst & Hld) Hext].
  destruct (stored_widget s o i ts Hs) as (w' & Hi' & _ & Ech & Hts). assert (w' = w) as -> by congruence.
  assert (∀ k, k ∈ map top ts → is_Some (ui_widgets s !! k)) as Hlive.
  { intros k Hk. destruct (child_live s s [] o i ts k Hs ltac:(done) Hk) as [x ->]. done. }
  assert (NoDup (map top ts)) as Hnd.
  { inversion Hs as [? ? ? Hg _]. apply (lk_nodup _ (wf_links s Hw) _ _ _ Hg). }
  destruct (content_range row w) as [Hav1 Hst1]. destruct (content_range (negb row) w) as [Hcr1 Hld1].
  destruct (spare_code row gap w l Hgap Hsz Hav1 Hav) as [Esp Hsp].
  unfold container_layout. rewrite Hi. cbn [mbind option_bind]. rewrite Hc. cbn [mbind option_bind]. rewrite Ech.
  fold row gap. rewrite (flex_total_sums row gap s (map top ts) 0 0 Hgap); [|lia|lia|done|done|exact Htot|exact Hfix].
  cbn [mbind option_bind]. rewrite !Z.add_0_l. fold l (total_of row l) (fixed_of row gap l) (avail_of row w) (start_of row w).
  rewrite Esp. replace (if row then content_y w else content_x w) with (start_of (negb row) w) by (by destruct row).
  replace (if row then content_h w else content_w w) with (avail_of (negb row) w) by (by destruct row).
  destruct (flex_place_flow row gap (spare_of row gap w l) (total_of row l) (start_of (negb row) w)
    (avail_of (negb row) w) s (map top ts) (start_of row w)) as (pos' & s1 & E1 & _ & Hr); try done.
  { apply Forall_forall. intros kc Hin. split; [|by apply grow_le_total]. rewrite Forall_forall in Hsz. by apply Hsz. }
  destruct (flex_place_ok row gap (spare_of row gap w l) (total_of row l) (start_of (negb row) w)
    (avail_of (negb row) w) s s o i ts (start_of row w) Hs ltac:(done)) as (pos'' & s1' & E1' & H1).
  rewrite E1 in E1'. injection E1' as <- <-. rewrite E1. cbn [mbind option_bind].
  destruct (layout_children_rects lay s1 o i ts) as (s2 & -> & H2 & Hr2); [by eapply wf_moves|by eapply stored_moves|done|].
  exists s2. split; [done|]. split; [transitivity s1; [eapply moves_more; [apply tops_below|done]|done]|].
  intros j k ch Hj. rewrite Hr2 by (by apply kids_in in Hj as [? _]). by apply Hr.
Qed.

(** C20: a row or column puts its visible children one after the other from the start of
    the content box, each with its own size or its share of what the others leave, and
    they end within the box but for the gaps after flexible children. *)
Theorem flex_layout_flow s i w cont :
  wf s → ui_widgets s !! i = Some w → w_layout_fn w = Some container_layout_fn → w_cont w = Some cont →
  let row := is_row (ct_flex_dir cont) in let gap := ct_gap cont in let l := kids s (w_children w) in
  flow_fits row gap w l →
  ∃ s', layout_widget (tree_fuel s) i s = Some s' ∧ similar s s' ∧
    (∀ j k ch, l !! j = Some (k, ch) → w_rect <$> ui_widgets s' !! k =
       Some (box row (start_of row w + zsum (take j (extents_of row gap w l))) (start_of (negb row) w)
               (share row (spare_of row gap w l) (total_of row l) ch) (across row (avail_of (negb row) w) ch))) ∧
    (fixed_of row gap l <= avail_of row w → 0 < total_of row l ∨ flexibles row l = 0 →
     zsum (extents_of row gap w l) <= avail_of row w + gap * flexibles row l).
Proof.
  intros Hw Hi Hfn Hc row gap l Hfits. destruct (widget_tree s i w Hw Hi) as ([i' ts] & Et & Ht & _ & Hh).
  cbn in Et. subst i'. destruct (stored_widget s _ i ts Ht) as (w' & Hi' & _ & Ech & Hts). assert (w' = w) as -> by congruence.
  unfold tree_fuel in *. cbn [height] in Hh. cbn [layout_widget]. rewrite Hi. cbn [mbind option_bind]. rewrite Hfn.
  cbn [layout_call].
  assert (Forall (lays (C := C) (A := A) (E := E) (layout_call (size (ui_widgets s)))) ts) as Hlay.
  { apply Forall_forall. intros t Hin. apply layout_call_lays. pose proof (height_children t ts Hin). lia. }
  assert (l = kids s (map top ts)) as El by (unfold l; by rewrite Ech). clearbody l. subst l.
  destruct (container_flow _ s _ i ts w cont Hw Ht Hlay Hi Hc Hfits) as (s' & E' & Hm & Hr).
  exists s'. split; [exact E'|]. split; [apply Hm|]. split; [exact Hr|]. intros Hfit Htot. apply extents_sum; try done. apply Hfits.
Qed.

(** ** Grids *)

(** The cell of the [n]-th visible child. *)
Definition cell (cols x0 y0 cell_w cell_h gap n : Z) : ui_rect_t :=
  mk_rect (x0 + (n mod cols) * (cell_w + gap)) (y0 + (n / cols) * (cell_h + gap)) cell_w cell_h.

(** The corners of the first [v] cells are below 2^15. *)
Definition cells_small (cols x0 y0 cell_w cell_h gap v : Z) : Prop :=
  0 <= x0 ∧ 0 <= y0 ∧ 0 <= cell_w < 32768 ∧ 0 <= cell_h < 32768 ∧ 0 <= gap ∧ 0 < cols ∧
  ∀ n, 0 <= n < v → x0 + (n mod cols) * (cell_w + gap) < 32768 ∧ y0 + (n / cols) * (cell_h + gap) < 32768.

Lemma coordinate_small x0 m size gap :
  0 <= x0 → 0 <= m → 0 <= size → 0 <= gap → x0 + m * (size + gap) < 32768 → m * (size + gap) < 32768 →
  (m = 0 ∨ size + gap < 32768) →
  u16 (i16 (u32 (x0 + u32 (m * u32 (size + gap))))) = x0 + m * (size + gap).
Proof.
  intros Hx Hm Hs Hg Hb Hb' Hz. assert (u32 (m * u32 (size + gap)) = m * (size + gap)) as ->.
  { destruct Hz as [->|Hz]; [done|]. rewrite (wrap_id 32 (size + gap)) by (unfold in_w; lia).
    apply wrap_id. unfold in_w. nia. }
  rewrite (wrap_id 32) by (unfold in_w; nia). rewrite i16_id by nia. apply wrap_id. unfold in_w. nia.
Qed.

Lemma cell_code cols x0 y0 cell_w cell_h gap v n :
  cells_small cols x0 y0 cell_w cell_h gap v → 0 <= n < v →
  mk_rect (u16 (i16 (u32 (x0 + u32 (n mod cols * u32 (cell_w + gap))))))
          (u16 (i16 (u32 (y0 + u32 (n / cols * u32 (cell_h + gap)))))) (u16 cell_w) (u16 cell_h) =
  cell cols x0 y0 cell_w cell_h gap n.
Proof.
  intros (Hx & Hy & Hcw & Hch & Hg & Hc & Hall) Hn. destruct (Hall n Hn) as [H1 H2].
  pose proof (Z.mod_pos_bound n cols Hc) as Hm. pose proof (Z.div_pos n cols ltac:(lia) Hc) as Hd.
  unfold cell. rewrite !(wrap_id 16 cell_w), !(wrap_id 16 cell_h) by (unfold in_w; lia).
  rewrite !coordinate_small; try done; try lia; try nia.
Qed.

Lemma grid_place_cells lay cols x0 y0 cell_w cell_h gap o ts : ∀ s idx v,
  wf s → Forall (stored (graph s) o) ts → Forall (lays lay) ts → NoDup (flat_map ids ts) →
  0 <= idx → idx + blen (kids s (map top ts)) <= v → cells_small cols x0 y0 cell_w cell_h gap v →
  ∃ idx' s', each (grid_place lay cols x0 y0 cell_w cell_h gap) (map top ts) (idx, s) = Some (idx', s') ∧
    moves (flat_map ids ts) s s' ∧
    ∀ j k ch, kids s (map top ts) !! j = Some (k, ch) →
      w_rect <$> ui_widgets s' !! k = Some (cell cols x0 y0 cell_w cell_h gap (idx + Z.of_nat j)).
Proof.
  induction ts as [|t ts IH]; intros s idx v Hw Hts Hlay Hnd Hi Hv Hsm; cbn [map each flat_map] in *.
  { exists idx, s. by split. }
  apply Forall_cons in Hts as [Ht Hts]. apply Forall_cons in Hlay as [Hl Hlay]. apply NoDup_app in Hnd as (Hnt & Hdis & Hnd).
  destruct (stored_live _ _ _ (top t) Ht (top_in t)) as [x Hx]. unfold graph in Hx. rewrite lookup_fmap in Hx.
  destruct (ui_widgets s !! top t) as [ch|] eqn:Ek; [|done]. clear x Hx. cbn [grid_place]. rewrite Ek.
  cbn [mbind option_bind]. rewrite (kids_cons s (top t) (map top ts) ch Ek) in *.
  destruct (w_visible ch) eqn:Ev; cbn [negb].
  2: { destruct (IH s idx v) as (idx' & s' & E' & Hm & Hr); try done. exists idx', s'. split; [exact E'|]. split; [|done].
       apply (moves_more (flat_map ids ts)); [|done]. intros j Hj. apply elem_of_app. by right. }
  rewrite blen_cons in Hv. pose proof (blen_nonneg (kids s (map top ts))) as Hb0.
  rewrite (cell_code cols x0 y0 cell_w cell_h gap v idx Hsm ltac:(lia)).
  match goal with |- context [put_widget (top t) ?w' s] => set (w1 := w'); set (s1 := put_widget (top t) w1 s) end.
  assert (moves (ids t) s s1) as H1 by (eapply moves_put; [apply top_in|done|done]).
  assert (∃ s2, match w_layout_fn ch with Some f => lay f (top t) s1 | None => Some s1 end = Some s2 ∧ moves (tl (ids t)) s1 s2)
    as (s2 & E2 & H2).
  { destruct (w_layout_fn ch) as [f|] eqn:Ef; [|by exists s1].
    apply (Hl s1 o f w1); [by eapply wf_moves|by eapply stored_moves|apply lookup_insert_eq|done]. }
  rewrite E2. cbn [mbind option_bind]. assert (moves (ids t) s s2) as H12.
  { transitivity s1; [done|]. apply (moves_more (tl (ids t))); [|done]. intros j Hj. destruct t. by right. }
  assert (∀ j, j ∈ map top ts → j ∉ ids t) as Hout.
  { intros j (u & <- & Hu)%map_top_in Hj. apply (Hdis (top u) Hj). by eapply ids_child, top_in. }
  assert (kids s2 (map top ts) = kids s (map top ts)) as Ekids.
  { apply kids_same. intros j Hj. apply (mv_frame _ _ _ H12). by apply Hout. }
  destruct (IH s2 (idx + 1) v) as (idx' & s' & E' & Hm & Hr);
    [by eapply wf_moves|eapply Forall_impl; [exact Hts|]; intros u; by apply (stored_moves (ids t))|done|done|lia|rewrite Ekids; lia|done|].
  exists idx', s'. split; [exact E'|]. split.
  { transitivity s2; [apply (moves_more (ids t))|apply (moves_more (flat_map ids ts))]; try done;
      intros j Hj; apply elem_of_app; first [by left|by right]. }
  rewrite Ekids in Hr. intros [|j] k c; cbn [lookup list_lookup].
  - intros [= <- <-]. rewrite (mv_frame _ _ _ Hm) by (by intros Hin; apply (Hdis (top t) (top_in t))).
    rewrite (mv_frame _ _ _ H2); [cbn; rewrite lookup_insert_eq; cbn; by rewrite Z.add_0_r|].
    destruct t as [i' us]. cbn in *. by apply NoDup_cons in Hnt as [? _].
  - intros Hj. rewrite (Hr j k c Hj). do 2 f_equal. lia.
Qed.

Definition cols_count (cont : ui_container) : Z := if 0 <? ct_grid_cols cont then ct_grid_cols cont else 1.
(** The rows asked for, or as many as the [v] visible children need. *)
Definition rows_count (cont : ui_container) (v : Z) : Z :=
  if ct_grid_rows cont =? 0 then (v + cols_count cont - 1) / cols_count cont else ct_grid_rows cont.

(** The gaps leave room in the content box, and there are cells for all. *)
Record grid_fits w (cont : ui_container) (v : Z) : Prop := {
  gf_some : 0 < v;
  gf_gap : 0 <= ct_gap cont;
  gf_rows : ct_grid_rows cont = 0 ∨ 0 < ct_grid_rows cont <= 255 ∧ v <= cols_count cont * ct_grid_rows cont;
  gf_box : 0 <= content_x w ∧ 0 <= content_y w ∧ content_x w + content_w w < 32768 ∧ content_y w + content_h w < 32768;
  gf_room : (cols_count cont - 1) * ct_gap cont <= content_w w ∧ (rows_count cont v - 1) * ct_gap cont <= content_h w
}.

Lemma cell_size_exact size n gap :
  0 < n <= 255 → 0 <= gap → 0 <= size < 32768 → (n - 1) * gap <= size →
  0 <= cell_size size n gap < 32768 ∧ n * cell_size size n gap + (n - 1) * gap <= size.
Proof.
  intros Hn Hg Hs Hr. assert (i16 (n - 1) * i16 gap = (n - 1) * gap) as E0.
  { rewrite (i16_id (n - 1)) by lia. destruct (decide (n = 1)) as [->|Hne]; [done|]. rewrite i16_id by nia. done. }
  unfold cell_size, clamp0. rewrite E0, Z.quot_div_nonneg by lia.
  pose proof (Z.div_pos (size - (n - 1) * gap) n ltac:(lia) ltac:(lia)) as Hd.
  pose proof (Z.mul_div_le (size - (n - 1) * gap) n ltac:(lia)) as Hle.
  rewrite i16_id by nia. destruct (_ <? 0) eqn:?; bool_hyps; [lia|]. nia.
Qed.

(** A cell lies within the [cols] columns, or the [rows] rows. *)
Lemma strip_inside n m size gap total :
  0 <= m < n → 0 <= size → 0 <= gap → n * size + (n - 1) * gap <= total → m * (size + gap) + size <= total.
Proof. intros. nia. Qed.

Lemma strip_apart a b size gap x0 :
  a + 1 <= b → 0 <= size + gap → x0 + a * (size + gap) + size + gap <= x0 + b * (size + gap).
Proof. intros. nia. Qed.

Definition cell_w_of w cont : Z := cell_size (content_w w) (cols_count cont) (ct_gap cont).
Definition cell_h_of w cont (v : Z) : Z := cell_size (content_h w) (rows_count cont v) (ct_gap cont).
Definition cell_of w cont (v n : Z) : ui_rect_t :=
  cell (cols_count cont) (content_x w) (content_y w) (cell_w_of w cont) (cell_h_of w cont v) (ct_gap cont) n.

(** A cell is inside the content box. *)
Definition in_box w (r : ui_rect_t) : Prop :=
  content_x w <= rc_x r ∧ rc_x r + rc_w r <= content_x w + content_w w ∧
  content_y w <= rc_y r ∧ rc_y r + rc_h r <= content_y w + content_h w.
(** [r] is left of [q] or above it, with at least [gap] between them. *)
Definition apart (gap : Z) (r q : ui_rect_t) : Prop :=
  rc_x r + rc_w r + gap <= rc_x q ∨ rc_y r + rc_h r + gap <= rc_y q.

Lemma rows_range cont v :
  0 <= ct_grid_cols cont <= 255 → 0 < v <= 16 →
  ct_grid_rows cont = 0 ∨ 0 < ct_grid_rows cont <= 255 ∧ v <= cols_count cont * ct_grid_rows cont →
  0 < cols_count cont <= 255 ∧ 0 < rows_count cont v <= 255 ∧ v <= cols_count cont * rows_count cont v ∧
  (if ct_grid_rows cont =? 0 then u8 (u32 (v + cols_count cont - 1) / cols_count cont) else ct_grid_rows cont) = rows_count cont v.
Proof.
  intros Hc Hv Hr. assert (0 < cols_count cont <= 255) as Hcc by (unfold cols_count; destruct (0 <? _) eqn:?; bool_hyps; lia).
  destruct (auto_rows (cols_count cont) v Hcc Hv) as (E0 & H1 & H2). unfold rows_count.
  split; [done|]. destruct (ct_grid_rows cont =? 0) eqn:?; bool_hyps; [|lia]. split; [|done]. split; [done|].
  assert ((v + cols_count cont - 1) / cols_count cont <= 16); [|lia].
  apply Z.div_le_upper_bound; [lia|]. nia.
Qed.

Lemma grid_geometry w cont v :
  grid_fits w cont v → 0 <= ct_grid_cols cont <= 255 → 0 < v <= 16 →
  cells_small (cols_count cont) (content_x w) (content_y w) (cell_w_of w cont) (cell_h_of w cont v) (ct_gap cont) v ∧
  (∀ n, 0 <= n < v → in_box w (cell_of w cont v n)) ∧
  (∀ n m, 0 <= n < m → m < v → apart (ct_gap cont) (cell_of w cont v n) (cell_of w cont v m)).
Proof.
  intros [_ Hg Hr (Hx & Hy & Hxw & Hyh) (Rw & Rh)] Hc Hv. destruct (rows_range cont v Hc Hv Hr) as (Hcc & Hrr & Hcap & _).
  destruct (cell_size_exact (content_w w) (cols_count cont) (ct_gap cont)) as [Hcw Hfw]; [lia|done|nia|done|].
  destruct (cell_size_exact (content_h w) (rows_count cont v) (ct_gap cont)) as [Hch Hfh]; [lia|done|nia|done|].
  fold (cell_w_of w cont) in *. fold (cell_h_of w cont v) in *.
  assert (∀ n, 0 <= n < v → in_box w (cell_of w cont v n)) as Hin.
  { intros n Hn. pose proof (Z.mod_pos_bound n (cols_count cont) ltac:(lia)) as Hm.
    pose proof (Z.div_pos n (cols_count cont) ltac:(lia) ltac:(lia)) as Hd.
    assert (n / cols_count cont < rows_count cont v) as Hd' by (apply Z.div_lt_upper_bound; lia).
    pose proof (strip_inside (cols_count cont) (n mod cols_count cont) (cell_w_of w cont) (ct_gap cont) (content_w w) Hm ltac:(lia) Hg Hfw).
    pose proof (strip_inside (rows_count cont v) (n / cols_count cont) (cell_h_of w cont v) (ct_gap cont) (content_h w) ltac:(lia) ltac:(lia) Hg Hfh).
    unfold in_box, cell_of, cell. cbn. nia. }
  split; [|split; [done|]].
  - split; [done|]. split; [done|]. split; [done|]. split; [done|]. split; [done|]. split; [lia|].
    intros n Hn. destruct (Hin n Hn) as (H1 & H2 & H3 & H4). unfold cell_of, cell in *. cbn in *. lia.
  - intros n m Hnm Hm. unfold apart, cell_of, cell. cbn. set (k := cols_count cont) in *.
    pose proof (Z.div_mod n k ltac:(lia)). pose proof (Z.div_mod m k ltac:(lia)).
    pose proof (Z.mod_pos_bound n k ltac:(lia)). pose proof (Z.mod_pos_bound m k ltac:(lia)).
    pose proof (Z.div_le_mono n m k ltac:(lia) ltac:(lia)) as Hle.
    destruct (decide (n / k = m / k)) as [Eq|Hne]; [left|right]; apply strip_apart; lia.
Qed.

Lemma count_kids s ks n :
  (∀ k, k ∈ ks → is_Some (ui_widgets s !! k)) → each (count_visible s) ks n = Some (n + blen (kids s ks)).
Proof.
  revert n. induction ks as [|k ks IH]; intros n Hl; cbn [each]; [by rewrite Z.add_0_r|].
  destruct (Hl k ltac:(left)) as [ch Hk]. unfold count_visible at 2. rewrite Hk. cbn [mbind option_bind].
  rewrite IH by (intros j Hj; apply Hl; by right). rewrite (kids_cons s k ks ch Hk).
  destruct (w_visible ch); [rewrite blen_cons|]; f_equal; lia.
Qed.

Lemma kids_length s ks : blen (kids s ks) <= blen ks.
Proof.
  induction ks as [|k ks IH]; [done|]. rewrite blen_cons. cbn [kids omap list_omap].
  change (omap _ ks) with (kids s ks). destruct (_ ≫= _); rewrite ?blen_cons; lia.
Qed.

(** C21: a grid with room in its content box puts its visible children, in order, into
    its cells from left to right and from top to bottom; the cells have one size, lie
    within the box and keep the gap from each other. *)
Theorem grid_layout_cells s i w cont :
  wf s → ui_widgets s !! i = Some w → w_layout_fn w = Some grid_layout_fn → w_cont w = Some cont →
  let l := kids s (w_children w) in
  grid_fits w cont (blen l) →
  ∃ s', layout_widget (tree_fuel s) i s = Some s' ∧ similar s s' ∧
    (∀ j k ch, l !! j = Some (k, ch) → w_rect <$> ui_widgets s' !! k = Some (cell_of w cont (blen l) (Z.of_nat j))) ∧
    (∀ n, 0 <= n < blen l → in_box w (cell_of w cont (blen l) n)) ∧
    (∀ n m, 0 <= n < m → m < blen l → apart (ct_gap cont) (cell_of w cont (blen l) n) (cell_of w cont (blen l) m)).
Proof.
  intros Hw Hi Hfn Hc l Hfits. destruct (widget_tree s i w Hw Hi) as ([i' ts] & Et & Ht & Hnd & Hh).
  cbn in Et. subst i'. destruct (stored_widget s _ i ts Ht) as (w' & Hi' & _ & Ech & Hts). assert (w' = w) as -> by congruence.
  unfold tree_fuel in *. cbn [height] in Hh. cbn [layout_widget]. rewrite Hi. cbn [mbind option_bind]. rewrite Hfn.
  cbn [layout_call].
  assert (Forall (lays (C := C) (A := A) (E := E) (layout_call (size (ui_widgets s)))) ts) as Hlay.
  { apply Forall_forall. intros t Hin. apply layout_call_lays. pose proof (height_children t ts Hin). lia. }
  assert (l = kids s (map top ts)) as El by (unfold l; by rewrite Ech). clearbody l. subst l.
  assert (∀ k, k ∈ map top ts → is_Some (ui_widgets s !! k)) as Hlive.
  { intros k Hk. destruct (child_live s s [] _ i ts k Ht ltac:(done) Hk) as [x ->]. done. }
  set (v := blen (kids s (map top ts))) in *.
  assert (0 < v <= 16) as Hv.
  { pose proof (kids_length s (map top ts)). pose proof (wf_children s _ i ts Hw Ht) as Hlen. unfold UI_MAX_CHILDREN in Hlen.
    unfold blen in *. rewrite length_map in *. pose proof (gf_some _ _ _ Hfits). lia. }
  pose proof (cols_live s i w cont Hw Hi Hc) as Hcols. destruct (grid_geometry w cont v Hfits Hcols Hv) as (Hsm & Hin & Hap).
  destruct (rows_range cont v Hcols Hv (gf_rows _ _ _ Hfits)) as (Hcc & Hrr & _ & Erows).
  unfold grid_layout. rewrite Hi. cbn [mbind option_bind]. rewrite Hc. cbn [mbind option_bind]. rewrite Ech.
  rewrite (count_kids s (map top ts) 0 Hlive), Z.add_0_l. fold v. cbn [mbind option_bind].
  rewrite (proj2 (Z.eqb_neq v 0)) by lia. fold (cols_count cont). rewrite Erows.
  rewrite (proj2 (Z.eqb_neq (rows_count cont v) 0)) by lia.
  fold (cell_w_of w cont) (cell_h_of w cont v).
  destruct (grid_place_cells (layout_call (size (ui_widgets s))) (cols_count cont) (content_x w) (content_y w)
    (cell_w_of w cont) (cell_h_of w cont v) (ct_gap cont) (Some i) ts s 0 v) as (idx & s' & E' & Hm & Hr);
    [done|done|done|by inversion Hnd|lia|unfold v; lia|done|].
  rewrite E'. cbn [mbind option_bind]. exists s'. split; [done|]. split; [apply Hm|]. split; [|split; [exact Hin|exact Hap]].
  intros j k ch Hj. rewrite (Hr j k ch Hj). by rewrite Z.add_0_l.
Qed.
End WidgetBoxes.
