(* ===== verification/WidgetRuns.v ===== *)
(** * Sequences of widget calls

    The calls of ui.c on one state, the rules their callers must follow, and the proof
    that calls which follow them never reach a freed object, recurse for ever or leave
    links and focus inconsistent. *)

From Stdlib Require Import ZArith Lia.
From stdpp Require Import base tactics option numbers gmap list.
From S2P Require Import Prelude.
From S2P Require Import FwUi.
From S2P Require Import Input.
From S2P Require Import Runs.
From S2P Require Import Widgets.
From S2P Require Import WidgetLayout.
From S2P Require Import WidgetTree.
From S2P Require Import WidgetsThm.
From S2P Require Import WidgetKeys.
From S2P Require Import WidgetBoxes.

Inductive kind {C : Type} :=
| KPlain (type : ui_widget_type_t) (name : option (list Z))
| KLabel (text : option (list Z)) | KButton (text : option (list Z)) (cb : option C)
| KSlider | KSwitch (cb : option C) | KCheckbox (text : option (list Z)) (cb : option C)
| KList | KGridview | KTextinput (text : option (list Z)) (cb : option C) | KProgress | KSpinner
| KImage (width height : Z)
| KFlex (dir : ui_flex_dir_t) (justify : ui_justify_t) (align : ui_align_t) (gap : Z)
| KGrid (cols rows gap : Z) | KScroll (dir : ui_flex_dir_t).

Section WidgetRuns.
Context {C A E : Type}.
#[local] Abbreviation widget := (ui_widget (C := C) (A := A)).
#[local] Abbreviation state := (ui_state (C := C) (A := A) (E := E)).
Implicit Types (w : widget) (s : state) (i j k c : nat) (o : option nat) (cx : ui_context).
Context (code : C → nat → option A → state → option state).

(** The creation function of each kind. *)
Definition create (K : kind (C := C)) (ok : bool) (ctx : option nat) s : option (option nat * state) :=
  match K with
  | KPlain type name => Some (ui_widget_create ok ctx type name s)
  | KLabel text => ui_label_create ok ctx text s
  | KButton text cb => ui_button_create ok ctx text (app_callback <$> cb) s
  | KSlider => ui_slider_create ok ctx 0 100 50 s
  | KSwitch cb => ui_switch_create ok ctx true (app_callback <$> cb) s
  | KCheckbox text cb => ui_checkbox_create ok ctx text true (app_callback <$> cb) s
  | KList => ui_list_create ok ctx s
  | KGridview => Some (ui_gridview_create ok ctx s)
  | KTextinput text cb => ui_textinput_create ok ctx text (app_callback <$> cb) s
  | KProgress => ui_progress_create ok ctx 0 100 50 s
  | KSpinner => ui_spinner_create ok ctx s
  | KImage width height => ui_image_create ok ctx width height s
  | KFlex dir justify align gap => ui_flex_create ok ctx dir justify align gap s
  | KGrid cols rows gap => ui_grid_create ok ctx cols rows gap s
  | KScroll dir => ui_scroll_create ok ctx dir s
  end.

Inductive call :=
| NewContext (ok_ctx ok_theme ok_root : bool) (lw lh cw ch : Z) | DestroyContext c
| NewTheme (ok : bool) | FreeTheme (t : nat) | SetTheme c (t : nat)
| ThemeColor (t : nat) (index : Z) (color : ui_color_t) | ThemeText (t : nat) (index : Z) (y : ui_text_style_t)
| New (K : kind (C := C)) (ok : bool) (ctx : option nat) | Destroy i | AddChild (p : nat) k | RemoveChild (p : nat) k
| SetRect i (x y w h : Z) | SetLayout i (l : ui_layout_params_t) | SetStyle i (y : ui_style_t)
| SetMargin i (l t r b : Z) | SetPadding i (l t r b : Z) | SetCallback i (cb : option C) (arg : option A)
| SetDisplay c (d : option app_display_t) | ScrollTo i (offset : Z)
| Focus i | Unfocus i | Key c (ev : input_event_t) | Layout c.

Definition do_call (o : call) s : option state :=
  match o with
  | NewContext a b r lw lh cw ch => '(_, s) ← ui_context_create a b r lw lh cw ch s; Some s
  | DestroyContext c => ui_context_destroy (Some c) s
  | NewTheme ok => Some (ui_theme_create_default ok s).2
  | FreeTheme t => ui_theme_destroy (Some t) s
  | SetTheme c t => ui_context_set_theme (Some c) (Some t) s
  | ThemeColor t index color => ui_theme_set_color (Some t) index color s
  | ThemeText t index y => ui_theme_set_text_style (Some t) index (Some y) s
  | New K ok ctx => '(_, s) ← create K ok ctx s; Some s
  | Destroy i => ui_widget_destroy (Some i) s
  | AddChild p k => '(_, s) ← ui_widget_add_child (Some p) (Some k) s; Some s
  | RemoveChild p k => '(_, s) ← ui_widget_remove_child (Some p) (Some k) s; Some s
  | SetRect i x y w h => ui_widget_set_rect (Some i) x y w h s
  | SetLayout i l => ui_widget_set_layout (Some i) (Some l) s
  | SetStyle i y => ui_widget_set_style (Some i) (Some y) s
  | SetMargin i l t r b => ui_widget_set_margin (Some i) l t r b s
  | SetPadding i l t r b => ui_widget_set_padding (Some i) l t r b s
  | SetCallback i cb arg => ui_widget_set_callback (Some i) (app_callback <$> cb) arg s
  | SetDisplay c d => ui_context_set_display (Some c) d s
  | ScrollTo i offset => ui_scroll_set_offset (Some i) offset s
  | Focus i => '(_, s) ← ui_widget_focus code (Some i) s; Some s
  | Unfocus i => ui_widget_unfocus code (Some i) s
  | Key c ev => ui_input_event code (Some c) (Some ev) s
  | Layout c => ui_layout (Some c) s
  end.

(** ** The rules *)

Definition live i s : bool := bool_decide (is_Some (ui_widgets s !! i)).
Definition live_context c s : bool := bool_decide (is_Some (ui_contexts s !! c)).
Definition live_theme (t : nat) s : bool := bool_decide (is_Some (ui_themes s !! t)).

(** Going up from [j]: is [i] on the way to the top? *)
Fixpoint up (fuel : nat) s j i : option bool :=
  match fuel with
  | O => None
  | S n =>
    if bool_decide (j = i) then Some true else
    w ← ui_widgets s !! j;
    match w_parent w with Some p => up n s p i | None => Some false end
  end.
Definition is_below s j i (b : bool) : bool := bool_decide (up (tree_fuel s) s j i = Some b).

(** A detached widget that is the root of no context. *)
Definition loose i s : bool :=
  match ui_widgets s !! i with
  | Some w => bool_decide (w_parent w = None) && bool_decide (map_Forall (λ _ cx, cx_root cx ≠ Some i) (ui_contexts s))
  | None => false
  end.

(** No context uses the theme. *)
Definition theme_unused (t : nat) s : bool := bool_decide (map_Forall (λ _ cx, cx_theme cx ≠ Some t) (ui_contexts s)).

(** No focused widget is in the tree of [i]. *)
Definition focus_outside i s : bool :=
  bool_decide (map_Forall (λ _ cx, match cx_focused cx with Some j => is_below s j i false | None => true end = true)
    (ui_contexts s)).

(** The widgets of the context are those below its root that have a context. *)
Definition all_below c s : bool :=
  match ui_contexts s !! c with
  | Some cx => bool_decide (map_Forall (λ j w,
      match w_ctx w, cx_root cx with
      | Some d, Some r => is_below s j r (bool_decide (d = c))
      | Some d, None => bool_decide (d ≠ c)
      | None, _ => true
      end = true) (ui_widgets s))
  | None => false
  end.

(** A button without a callback would call itself for ever. *)
Definition kind_ok (K : kind (C := C)) : bool :=
  match K with
  | KButton _ None => false
  | KGrid cols _ _ => (0 <=? cols) && (cols <=? 255)
  | _ => true
  end.

Definition legal (o : call) s : bool :=
  match o with
  | NewContext _ _ _ _ _ _ _ | NewTheme _ => true
  | DestroyContext c => all_below c s
  | FreeTheme t => live_theme t s && theme_unused t s
  | SetTheme c t => live_context c s && live_theme t s && theme_unused t s
  | ThemeColor t index _ => live_theme t s && (0 <=? index)
  | ThemeText t index _ => live_theme t s && (0 <=? index)
  | New K _ ctx => kind_ok K && match ctx with Some c => live_context c s | None => true end
  | Destroy i => loose i s && focus_outside i s
  | AddChild p k => live p s && loose k s && is_below s p k false
  | RemoveChild p k => live p s && live k s
  | SetRect i _ _ _ _ | SetLayout i _ | SetStyle i _ | SetMargin i _ _ _ _ | SetPadding i _ _ _ _
  | SetCallback i _ _ | Focus i | Unfocus i => live i s
  | ScrollTo i _ => match ui_widgets s !! i with Some w => if w_cont w is Some _ then true else false | None => false end
  | SetDisplay c _ | Key c _ | Layout c => live_context c s
  end.

Fixpoint legal_run (l : list call) s : bool :=
  match l with
  | [] => true
  | o :: l => legal o s && match do_call o s with Some s => legal_run l s | None => true end
  end.

Definition ui_empty (env : E) : state := mk_ui ∅ ∅ ∅ 0%nat env.

(** ** New objects *)

Lemma graph_lookup s i : graph s !! i = links_of <$> ui_widgets s !! i.
Proof. unfold graph. by rewrite lookup_fmap. Qed.

Lemma graph_put s i w : graph (put_widget i w s) = <[i := links_of w]> (graph s).
Proof. unfold graph. cbn. by rewrite fmap_insert. Qed.

Lemma next_free s : wf s → ui_widgets s !! ui_next s = None ∧ ui_contexts s !! ui_next s = None ∧ ui_themes s !! ui_next s = None.
Proof.
  intros Hw. split; [|split]; apply eq_None_not_Some; intros [x Hx].
  - pose proof (ww_next _ _ _ (wf_widgets s Hw _ _ Hx)). lia.
  - pose proof (wc_next _ _ _ (wf_contexts s Hw _ _ Hx)). lia.
  - destruct (wf_themes s Hw _ _ Hx). lia.
Qed.

(** What a new widget is like. *)
Record fresh_widget s w : Prop := {
  fw_links : links_of w = (None, []);
  fw_focused : w_focused w = false;
  fw_ctx : ∀ c, w_ctx w = Some c → is_Some (ui_contexts s !! c);
  fw_cont : is_Some (w_layout_fn w) → is_Some (cols_of w);
  fw_cols : ∀ n, cols_of w = Some n → 0 <= n <= 255;
  fw_click : no_loop (w_on_click w) ∧ no_loop (w_on_focus w) ∧ no_loop (w_on_blur w)
}.

(** More objects can be created later. *)
Lemma wf_bump s : wf s → wf (bump s).
Proof.
  intros [H1 H2 H3 H4 [H5 H6]]. split; [done| | | |by split].
  - intros i w Hi. destruct (H2 i w Hi). split; try done. cbn. lia.
  - intros c cx Hc. destruct (H3 c cx Hc). split; try done. cbn. lia.
  - intros t th Ht. destruct (H4 t th Ht). cbn. split; [lia|done].
Qed.

Lemma wf_new s w : wf s → fresh_widget s w → wf (bump (put_widget (ui_next s) w s)).
Proof.
  intros Hw [F1 F2 F3 F4 F5 F6]. destruct (next_free s Hw) as (Hn & _ & _).
  assert (∀ i w', <[ui_next s := w]> (ui_widgets s) !! i = Some w' →
    (i = ui_next s ∧ w' = w) ∨ (i ≠ ui_next s ∧ ui_widgets s !! i = Some w')) as Hc.
  { intros i w'. destruct (decide (i = ui_next s)) as [->|Hne];
      [rewrite lookup_insert_eq; intros [= <-]; by left|rewrite lookup_insert_ne by done; by right]. }
  assert (∀ i w', ui_widgets s !! i = Some w' → <[ui_next s := w]> (ui_widgets s) !! i = Some w') as Hold.
  { intros i w' Hi. rewrite lookup_insert_ne; [done|congruence]. }
  split.
  - change (linked (graph (put_widget (ui_next s) w s))). rewrite graph_put, F1. apply linked_new; [apply Hw|].
    by rewrite graph_lookup, Hn.
  - intros i w' [[-> ->]|[Hne Hi]]%Hc; [split; [cbn; lia|done..]|].
    destruct (wf_widgets s Hw i w' Hi). split; try done. cbn. lia.
  - intros c cx Hcx. destruct (wf_contexts s Hw c cx Hcx) as [C1 C2 C3 C4]. split; [cbn; lia| |done|done].
    intros r Hr. destruct (C2 r Hr) as (wr & Hwr & ?). exists wr. split; [by apply Hold|done].
  - intros t th Ht. destruct (wf_themes s Hw t th Ht). cbn. split; [lia|done].
  - destruct (wf_focus s Hw) as [Hb Ho]. split.
    + intros c cx i Hcx Hi. destruct (Hb c cx i Hcx Hi) as (wi & Hwi & ?). exists wi. split; [by apply Hold|done].
    + intros i w' c cx [[-> ->]|[Hne Hi]]%Hc; [congruence|by apply (Ho i w')].
Qed.

Lemma made_ok (r : option nat * state) f s :
  (∃ o s1, r = (o, s1) ∧ match o with
     | None => s1 = s
     | Some i => ∃ w, i = ui_next s ∧ s1 = bump (put_widget i w s) ∧ fresh_widget s (f w)
     end) →
  wf s → ∃ o s', made r f = Some (o, s') ∧ wf s'.
Proof.
  intros (o & s1 & -> & Hr) Hw. unfold made. destruct o as [i|]; cbn [if_widget mbind option_bind].
  - destruct Hr as (w & -> & -> & Hf). unfold at_widget. cbn [ui_widgets bump put_widget].
    rewrite lookup_insert_eq. cbn [mbind option_bind]. eexists _, _. split; [done|].
    assert (put_widget (ui_next s) (f w) (bump (put_widget (ui_next s) w s)) = bump (put_widget (ui_next s) (f w) s)) as ->.
    { unfold put_widget, bump. cbn. by rewrite insert_insert_eq. }
    by apply wf_new.
  - subst s1. eexists _, _. by split.
Qed.

Lemma alloc_made ok ctx type name cont f s :
  wf s → match ctx with Some c => is_Some (ui_contexts s !! c) | None => True end →
  (∀ w, w_ctx w = ctx → links_of w = (None, []) → w_focused w = false → w_cont w = cont → w_layout_fn w = None →
     w_on_click w = None → w_on_focus w = None → w_on_blur w = None →
     links_of (f w) = (None, []) ∧ w_focused (f w) = false ∧ w_ctx (f w) = ctx ∧
     (is_Some (w_layout_fn (f w)) → is_Some (cols_of (f w))) ∧ (∀ n, cols_of (f w) = Some n → 0 <= n <= 255) ∧
     no_loop (w_on_click (f w)) ∧ no_loop (w_on_focus (f w)) ∧ no_loop (w_on_blur (f w))) →
  ∃ o s', made (widget_alloc ok ctx type name cont s) f = Some (o, s') ∧ wf s'.
Proof.
  intros Hw Hctx Hf. apply made_ok with (s := s); [|done]. unfold widget_alloc. destruct ok; cbn [negb].
  - eexists _, _. split; [done|]. eexists. split; [done|]. split; [done|].
    match goal with |- fresh_widget s (f ?w0) =>
      destruct (Hf w0 eq_refl eq_refl eq_refl eq_refl eq_refl eq_refl eq_refl eq_refl) as (? & ? & Ex & ? & ? & ?) end.
    split; try done. intros c. rewrite Ex. by intros ->.
  - eexists _, _. by split.
Qed.

Lemma ui_create_ok K ok ctx s :
  wf s → match ctx with Some c => is_Some (ui_contexts s !! c) | None => True end → kind_ok K = true →
  ∃ o s', create K ok ctx s = Some (o, s') ∧ wf s'.
Proof.
  intros Hw Hctx HK.
  assert (∀ type name cont, cont = None ∨ cont = Some zero_container → ∃ o s', widget_alloc ok ctx type name cont s = (o, s') ∧ wf s') as Hplain.
  { intros type name cont Hct. destruct (alloc_made ok ctx type name cont (λ w, w) s Hw Hctx) as (o & s' & Em & Hw').
    - intros w Hx Hl Hfo Hc Hlf Hcl Hof Hob. unfold cols_of, no_loop. rewrite Hc, Hlf, Hcl, Hof, Hob.
      split_and!; try done; try (by intros [? ?]). destruct Hct as [->| ->]; by intros n [= <-].
    - unfold widget_alloc in *. destruct ok; cbn in *; unfold at_widget in Em; cbn in Em.
      + rewrite lookup_insert_eq in Em. cbn in Em. injection Em as <- Es. eexists _, _. split; [done|].
        rewrite <- Es in Hw'. unfold put_widget, bump in Hw'. cbn in Hw'. by rewrite insert_insert_eq in Hw'.
      + injection Em as <- <-. by eexists _, _. }
  destruct K; cbn [create kind_ok] in *;
    try (destruct (Hplain type name None ltac:(by left)) as (o & s' & E1 & Hw'); exists o, s'; unfold ui_widget_create; by rewrite E1);
    try (destruct (Hplain UI_WIDGET_GRIDVIEW (Some [103; 114; 105; 100; 118; 105; 101; 119]) None ltac:(by left)) as (o & s' & E1 & Hw');
         exists o, s'; unfold ui_gridview_create, ui_widget_create; by rewrite E1);
    (apply alloc_made; [done|done|]); intros w Hx Hl Hfo Hc Hlf Hcl Hof Hob;
    unfold cols_of, links_of, no_loop, fixed_size in *; cbn; rewrite ?Hc, ?Hlf, ?Hcl, ?Hof, ?Hob; bool_hyps;
    try destruct cb; (split_and!; try done; try (by intros [? ?]); try (by intros n [= <-])).
  intros n [= <-]. destruct (0 <? cols) eqn:?; bool_hyps; lia.
Qed.

(** ** Contexts and themes *)

Lemma wf_put_context s c cx' :
  wf s → (c < ui_next s)%nat →
  match ui_contexts s !! c with Some cx => cx_focused cx' = cx_focused cx | None => cx_focused cx' = None end →
  (∀ r, cx_root cx' = Some r → ∃ w, ui_widgets s !! r = Some w ∧ w_parent w = None ∧ w_ctx w = Some c) →
  (∀ t, cx_theme cx' = Some t → is_Some (ui_themes s !! t) ∧
     ∀ d dx, ui_contexts s !! d = Some dx → cx_theme dx = Some t → d = c) →
  wf (put_context c cx' s).
Proof.
  intros Hw Hn Hf Hr Ht.
  assert (∀ d dx, <[c := cx']> (ui_contexts s) !! d = Some dx → (d = c ∧ dx = cx') ∨ (d ≠ c ∧ ui_contexts s !! d = Some dx)) as Hc.
  { intros d dx. destruct (decide (d = c)) as [->|Hne];
      [rewrite lookup_insert_eq; intros [= <-]; by left|rewrite lookup_insert_ne by done; by right]. }
  destruct (wf_focus s Hw) as [Hb Ho]. split; [apply Hw| | |apply Hw|split].
  - intros i w Hi. destruct (wf_widgets s Hw i w Hi) as [W1 W2 W3 W4 W5]. split; try done.
    intros d Hd. cbn. destruct (decide (d = c)) as [->|Hne]; [by rewrite lookup_insert_eq|].
    rewrite lookup_insert_ne by done. by apply W2.
  - intros d dx [[-> ->]|[Hne Hd]]%Hc.
    + split; [done|done|by apply Ht|]. intros c2 cx2 t [[-> ->]|[Hne2 H2]]%Hc Ht1 Ht2; [done|].
      by apply (proj2 (Ht t Ht1) c2 cx2).
    + destruct (wf_contexts s Hw d dx Hd) as [C1 C2 C3 C4]. split; try done.
      intros c2 cx2 t [[-> ->]|[Hne2 H2]]%Hc Ht1 Ht2; [|by apply (C4 c2 cx2 t)]. symmetry. by apply (proj2 (Ht t Ht2) d dx).
  - intros d dx i [[-> ->]|[Hne Hd]]%Hc Hi; [|by apply (Hb d dx)].
    destruct (ui_contexts s !! c) as [cx|] eqn:Hcx; [|congruence]. apply (Hb c cx i Hcx). congruence.
  - intros i w d dx Hi Hx Hfo [[-> ->]|[Hne Hd]]%Hc; [|by apply (Ho i w d)].
    destruct (ui_contexts s !! c) as [cx|] eqn:Hcx; [rewrite Hf; by apply (Ho i w c)|].
    destruct (ww_ctx _ _ _ (wf_widgets s Hw i w Hi) c Hx). congruence.
Qed.

Lemma wf_put_theme s t th :
  wf s → (t < ui_next s)%nat → blen (th_colors th) = 16 → blen (th_text_styles th) = 8 → wf (put_theme t th s).
Proof.
  intros [H1 H2 H3 H4 [H5 H6]] Hn Hc Hy. split; [done| | | |by split].
  - intros i w Hi. by destruct (H2 i w Hi).
  - intros c cx Hcx. destruct (H3 c cx Hcx) as [C1 C2 C3 C4]. split; try done. intros u Hu. cbn.
    destruct (decide (u = t)) as [->|Hne]; [by rewrite lookup_insert_eq|]. rewrite lookup_insert_ne by done. by apply C3.
  - intros u uh. cbn. destruct (decide (u = t)) as [->|Hne];
      [rewrite lookup_insert_eq; by intros [= <-]|rewrite lookup_insert_ne by done; apply H4].
Qed.

Lemma new_theme_ok ok s :
  wf s → ∃ o s', ui_theme_create_default ok s = (o, s') ∧ wf s' ∧ ui_contexts s' = ui_contexts s ∧ (ui_next s <= ui_next s')%nat ∧
    ∀ t, o = Some t → is_Some (ui_themes s' !! t) ∧ t = ui_next s.
Proof.
  intros Hw. unfold ui_theme_create_default. destruct ok; cbn [negb]; eexists _, _; (split; [done|]).
  - split; [|split; [done|split; [cbn; lia|]]].
    + match goal with |- wf (bump (put_theme _ ?th s)) => change (wf (put_theme (ui_next s) th (bump s))) end.
      apply wf_put_theme; [by apply wf_bump|cbn; lia|done|done].
    + intros t [= <-]. cbn. by rewrite lookup_insert_eq.
  - split; [done|]. split; [done|]. split; [done|]. by intros t [=].
Qed.

Lemma new_context_ok a b r lw lh cw ch s :
  wf s → ∃ o s', ui_context_create a b r lw lh cw ch s = Some (o, s') ∧ wf s'.
Proof.
  intros Hw. unfold ui_context_create. destruct a; cbn [negb]; [|by eexists _, _].
  set (c := ui_next s). set (s1 := bump s).
  destruct (new_theme_ok b s1 ltac:(by apply wf_bump)) as (ot & s2 & -> & Hw2 & Ec & Hn & Hth).
  assert (ui_contexts s2 !! c = None) as Hnc by (rewrite Ec; by destruct (next_free s Hw) as (_ & ? & _)).
  assert (c < ui_next s2)%nat as Hlt by (unfold c; cbn in Hn; lia).
  set (cx0 := mk_ctx None None ot cw ch lw lh None).
  assert (wf (put_context c cx0 s2)) as Hw3.
  { apply wf_put_context; [done|done|by rewrite Hnc|done|]. intros t Ht. destruct (Hth t Ht) as [Hl ->]. split; [done|].
    intros d dx Hd Hdt. rewrite Ec in Hd. destruct (wc_theme _ _ _ (wf_contexts s Hw d dx Hd) _ Hdt) as [th Hth'].
    destruct (wf_themes s Hw _ _ Hth'). cbn in *. lia. }
  unfold ui_widget_create, widget_alloc. destruct r; cbn [negb if_widget mbind option_bind].
  - unfold at_widget. cbn [ui_widgets put_context bump put_widget]. rewrite lookup_insert_eq. cbn [mbind option_bind].
    eexists _, _. split; [done|].
    match goal with |- wf (put_widget ?k (?f ?w0) (put_context _ ?cx _)) => set (w1 := f w0); set (k1 := k); set (cx1 := cx) end.
    assert (fresh_widget (put_context c cx0 s2) w1) as Hfr.
    { split; try done; try (by intros [? ?]); try (by split_and!). cbn. intros d [= <-]. by rewrite lookup_insert_eq. }
    pose proof (wf_new _ w1 Hw3 Hfr) as Hw4.
    assert (wf (put_context c cx1 (bump (put_widget (ui_next (put_context c cx0 s2)) w1 (put_context c cx0 s2))))) as Hw5.
    { apply wf_put_context; [done|cbn; lia|cbn; by rewrite lookup_insert_eq|..].
      - intros k [= <-]. exists w1. cbn. by rewrite lookup_insert_eq.
      - intros t Ht. cbn. split; [by apply Hth|]. intros d dx. destruct (decide (d = c)) as [->|Hne]; [done|].
        rewrite lookup_insert_ne by done. intros Hd Hdt. symmetry.
        apply (wc_own _ _ _ (wf_contexts _ Hw3 d dx ltac:(cbn; by rewrite lookup_insert_ne)) c cx0 t);
          [cbn; by rewrite lookup_insert_eq|done|done]. }
    revert Hw5. unfold put_context, put_widget, bump, k1. cbn. by rewrite !insert_insert_eq.
  - eexists _, _. split; [done|]. exact Hw3.
Qed.

(** ** Links *)

Lemma up_not s n j i : up n s j i = Some false → ∀ d, ancestor (graph s) d j ≠ Some i.
Proof.
  revert j. induction n as [|n IH]; intros j; cbn [up]; [done|]. case_bool_decide as Hji; [done|].
  destruct (ui_widgets s !! j) as [w|] eqn:Hj; [|done]. cbn [mbind option_bind]. intros Hup [|d]; cbn [ancestor]; [congruence|].
  rewrite graph_lookup, Hj. cbn. destruct (w_parent w) as [p|]; [|done]. cbn. by apply IH.
Qed.

Lemma up_true s n j i : up n s j i = Some true → ∃ d, ancestor (graph s) d j = Some i.
Proof.
  revert j. induction n as [|n IH]; intros j; cbn [up]; [done|]. case_bool_decide as Hji; [subst; by exists O|].
  destruct (ui_widgets s !! j) as [w|] eqn:Hj; [|done]. cbn [mbind option_bind].
  destruct (w_parent w) as [p|] eqn:Hp; [|done]. intros [d Hd]%IH. exists (S d). cbn [ancestor].
  rewrite graph_lookup, Hj. cbn. by rewrite Hp.
Qed.

(** Only links and dirty marks change. *)
Lemma wf_relink s s' :
  wf s → linked (graph s') →
  (∀ i, (λ w, (shell w, w_focused w)) <$> ui_widgets s' !! i = (λ w, (shell w, w_focused w)) <$> ui_widgets s !! i) →
  ui_contexts s' = ui_contexts s → ui_themes s' = ui_themes s → ui_next s' = ui_next s →
  (∀ c cx r w, ui_contexts s !! c = Some cx → cx_root cx = Some r → ui_widgets s' !! r = Some w → w_parent w = None) →
  wf s'.
Proof.
  intros Hw Hl Hk Ec Et En Hr.
  assert (∀ i w', ui_widgets s' !! i = Some w' → ∃ w, ui_widgets s !! i = Some w ∧ shell w' = shell w ∧ w_focused w' = w_focused w) as Hback.
  { intros i w' Hi. specialize (Hk i). rewrite Hi in Hk. destruct (ui_widgets s !! i) as [w|]; [|done]. exists w.
    by apply (inj Some), pair_equal_spec in Hk as [? ?]. }
  assert (∀ i w, ui_widgets s !! i = Some w → ∃ w', ui_widgets s' !! i = Some w' ∧ shell w' = shell w ∧ w_focused w' = w_focused w) as Hfwd.
  { intros i w Hi. specialize (Hk i). rewrite Hi in Hk. destruct (ui_widgets s' !! i) as [w'|]; [|done]. exists w'.
    by apply (inj Some), pair_equal_spec in Hk as [? ?]. }
  destruct (wf_focus s Hw) as [Hb Ho]. split; [done| | | |split].
  - intros i w' Hi. destruct (Hback i w' Hi) as (w & Hwi & Esk & _). injection Esk as E1 E2 E3 E4 E5 E6.
    destruct (wf_widgets s Hw i w Hwi) as [W1 W2 W3 W4 W5]. split; [by rewrite En|by rewrite E1, Ec|by rewrite E2, E3|by rewrite E3|by rewrite E4, E5, E6].
  - intros c cx. rewrite Ec. intros Hc. destruct (wf_contexts s Hw c cx Hc) as [C1 C2 C3 C4]. split; [by rewrite En| |by rewrite Et|by rewrite Ec].
    intros r Hcr. destruct (C2 r Hcr) as (w & Hwr & _ & Hx). destruct (Hfwd r w Hwr) as (w' & Hw' & Esk & _). exists w'.
    split; [done|]. split; [by apply (Hr c cx r)|]. injection Esk as E1 _ _ _ _ _. congruence.
  - intros t th. rewrite Et, En. by apply Hw.
  - intros c cx i. rewrite Ec. intros Hc Hi. destruct (Hb c cx i Hc Hi) as (w & Hwi & Hf & Hx).
    destruct (Hfwd i w Hwi) as (w' & Hw' & Esk & Ef). injection Esk as E1 _ _ _ _ _. exists w'. split; [done|]. split; congruence.
  - intros i w' c cx Hi Hx Hf. rewrite Ec. destruct (Hback i w' Hi) as (w & Hwi & Esk & Ef). injection Esk as E1 _ _ _ _ _.
    apply (Ho i w); congruence.
Qed.

Lemma put_keeps s i w w' :
  ui_widgets s !! i = Some w → shell w' = shell w → w_focused w' = w_focused w →
  ∀ j, (λ w, (shell w, w_focused w)) <$> ui_widgets (put_widget i w' s) !! j = (λ w, (shell w, w_focused w)) <$> ui_widgets s !! j.
Proof.
  intros Hi H1 H2 j. cbn. destruct (decide (j = i)) as [->|Hne].
  - rewrite lookup_insert_eq, Hi. cbn. congruence.
  - by rewrite lookup_insert_ne by done.
Qed.

Lemma loose_spec i s : loose i s = true → ∃ w, ui_widgets s !! i = Some w ∧ w_parent w = None ∧
  ∀ c cx, ui_contexts s !! c = Some cx → cx_root cx ≠ Some i.
Proof.
  unfold loose. destruct (ui_widgets s !! i) as [w|]; [|done]. intros [Hp Hr]%andb_true_iff.
  apply bool_decide_eq_true in Hp, Hr. exists w. split; [done|]. by split.
Qed.

Lemma add_child_ok p k s :
  wf s → live p s = true → loose k s = true → is_below s p k false = true →
  ∃ r s', ui_widget_add_child (Some p) (Some k) s = Some (r, s') ∧ wf s'.
Proof.
  intros Hw Hp Hk Hup. unfold live in Hp. apply bool_decide_eq_true in Hp as [wp Hp].
  destruct (loose_spec k s Hk) as (wk & Hwk & Hpk & Hroot).
  unfold is_below in Hup. apply bool_decide_eq_true in Hup. pose proof (up_not _ _ _ _ Hup) as Hanc.
  assert (p ≠ k) as Hne by (intros ->; by apply (Hanc O)).
  cbn [ui_widget_add_child]. rewrite Hp. cbn [mbind option_bind].
  destruct (UI_MAX_CHILDREN <=? _) eqn:Hlen; bool_hyps; [by eexists _, _|].
  unfold at_widget. rewrite Hwk. cbn [mbind option_bind ui_widgets put_widget]. rewrite lookup_insert_ne, Hp by done.
  cbn [mbind option_bind]. eexists _, _. split; [done|].
  match goal with |- wf (put_widget p ?w2 (put_widget k ?w1 s)) => set (wp' := w2); set (wk' := w1) end.
  apply (wf_relink s); try done.
  - rewrite !graph_put. apply (linked_add (graph s) p k (w_parent wp) (w_children wp) (w_children wk)); [apply Hw| | |lia|done].
    + by rewrite graph_lookup, Hp.
    + rewrite graph_lookup, Hwk. cbn. unfold links_of. by rewrite Hpk.
  - intros i. rewrite (put_keeps (put_widget k wk' s) p wp wp'); [by apply (put_keeps s k wk)| |done|done].
    cbn. by rewrite lookup_insert_ne.
  - intros c cx r w Hc Hr. cbn. destruct (wc_root _ _ _ (wf_contexts s Hw c cx Hc) r Hr) as (wr & Hwr & Hpr & _).
    destruct (decide (r = p)) as [->|Hrp].
    + rewrite lookup_insert_eq. intros [= <-]. cbn. congruence.
    + rewrite lookup_insert_ne by done. rewrite lookup_insert_ne by (intros ->; by apply (Hroot c cx)). congruence.
Qed.

Lemma remove_child_ok p k s :
  wf s → live p s = true → live k s = true → ∃ r s', ui_widget_remove_child (Some p) (Some k) s = Some (r, s') ∧ wf s'.
Proof.
  intros Hw Hp Hk. unfold live in *. apply bool_decide_eq_true in Hp as [wp Hp], Hk as [wk Hk].
  cbn [ui_widget_remove_child]. rewrite Hp. cbn [mbind option_bind].
  destruct (without_first k (w_children wp)) as [l|] eqn:Hl; [|by eexists _, _].
  assert (k ∈ w_children wp) as Hin.
  { pose proof (without_first_spec k (w_children wp)) as H. rewrite Hl in H. destruct H as (a & b & -> & _). set_solver. }
  destruct (lk_child _ (wf_links s Hw) p (w_parent wp) (w_children wp) k) as [lk Hgk]; [by rewrite graph_lookup, Hp|done|].
  pose proof Hgk as Hgk'. rewrite graph_lookup, Hk in Hgk'. injection Hgk' as Hpk Hlk.
  destruct (lk_rank _ (wf_links s Hw)) as [rank Hrank].
  assert (p ≠ k) as Hne by (intros ->; pose proof (Hrank _ _ _ Hgk); lia).
  unfold at_widget. rewrite Hp. cbn [mbind option_bind ui_widgets put_widget]. rewrite lookup_insert_ne, Hk by done.
  cbn [mbind option_bind ui_widgets put_widget]. rewrite lookup_insert_ne, lookup_insert_eq by done. cbn [mbind option_bind].
  eexists _, _. split; [done|].
  match goal with |- wf (put_widget p ?w3 (put_widget k ?w2 (put_widget p ?w1 s))) => set (wp2 := w3); set (wk' := w2); set (wp1 := w1) end.
  set (s2 := put_widget k wk' (put_widget p wp1 s)).
  assert (wf s2) as Hw2.
  { apply (wf_relink s); try done.
    - unfold s2. rewrite !graph_put. unfold links_of. cbn. rewrite Hlk.
      apply (linked_remove (graph s) p k (w_parent wp) (w_children wp) l lk); [apply Hw|by rewrite graph_lookup, Hp|done|done].
    - intros i. unfold s2. rewrite (put_keeps (put_widget p wp1 s) k wk wk'); [by apply (put_keeps s p wp)| |done|done].
      cbn. by rewrite lookup_insert_ne.
    - intros c cx r w Hc Hr. unfold s2. cbn. destruct (wc_root _ _ _ (wf_contexts s Hw c cx Hc) r Hr) as (wr & Hwr & Hpr & _).
      destruct (decide (r = k)) as [->|Hrk]; [rewrite lookup_insert_eq; by intros [= <-]|]. rewrite lookup_insert_ne by done.
      destruct (decide (r = p)) as [->|Hrp]; [rewrite lookup_insert_eq; intros [= <-]; cbn; congruence|].
      rewrite lookup_insert_ne by done. congruence. }
  apply (similar_wf s2); [|done]. apply (similar_put s2 p wp1); [|done].
  unfold s2. cbn. rewrite lookup_insert_ne by done. by rewrite lookup_insert_eq.
Qed.

(** ** Freeing *)

(** Objects may go when nothing that stays leads to them. *)
Lemma wf_shrink s s' :
  wf s → linked (graph s') → ui_next s' = ui_next s →
  (∀ i w, ui_widgets s' !! i = Some w → ui_widgets s !! i = Some w) →
  (∀ c cx, ui_contexts s' !! c = Some cx → ui_contexts s !! c = Some cx) →
  (∀ t th, ui_themes s' !! t = Some th → ui_themes s !! t = Some th) →
  (∀ i w c, ui_widgets s' !! i = Some w → w_ctx w = Some c → is_Some (ui_contexts s' !! c)) →
  (∀ c cx i w, ui_contexts s' !! c = Some cx → cx_focused cx = Some i ∨ cx_root cx = Some i →
     ui_widgets s !! i = Some w → ui_widgets s' !! i = Some w) →
  (∀ c cx t, ui_contexts s' !! c = Some cx → cx_theme cx = Some t → is_Some (ui_themes s' !! t)) →
  wf s'.
Proof.
  intros Hw Hl En Hi Hc Ht Hx Hstay Hth. destruct (wf_focus s Hw) as [Hb Ho]. split; [done| | | |split].
  - intros i w Hwi. destruct (wf_widgets s Hw i w (Hi i w Hwi)). split; try done; [by rewrite En|]. intros c. by apply (Hx i w).
  - intros c cx Hcx. destruct (wf_contexts s Hw c cx (Hc c cx Hcx)) as [C1 C2 C3 C4]. split; [by rewrite En| |intros t; by apply (Hth c)|].
    + intros r Hr. destruct (C2 r Hr) as (w & Hwr & ?). exists w. split; [|done]. apply (Hstay c cx r w); auto.
    + intros c2 cx2 t H2. by apply C4, Hc.
  - intros t th Hth'. rewrite En. by apply (wf_themes s Hw), Ht.
  - intros c cx i Hcx Hf. destruct (Hb c cx i (Hc c cx Hcx) Hf) as (w & Hwi & ?). exists w. split; [|done].
    apply (Hstay c cx i w); auto.
  - intros i w c cx Hwi Hxc Hf Hcx. by apply (Ho i w c cx); [apply Hi| | |apply Hc].
Qed.

(** The widgets of [l] are gone, and nothing else changed. *)
Definition dropped (l : list nat) s s' : Prop :=
  (∀ j, ui_widgets s' !! j = (if decide (j ∈ l) then None else ui_widgets s !! j)) ∧
  ui_contexts s' = ui_contexts s ∧ ui_themes s' = ui_themes s ∧ ui_next s' = ui_next s.

Lemma dropped_app l1 l2 s1 s2 s3 : dropped l1 s1 s2 → dropped l2 s2 s3 → dropped (l1 ++ l2) s1 s3.
Proof.
  intros (H1 & H2 & H3 & H4) (H5 & H6 & H7 & H8). split; [|split; [congruence|split; congruence]].
  intros j. rewrite H5, H1. repeat case_decide; set_solver.
Qed.

Lemma destroy_each n ts :
  Forall (λ t, ∀ s o, stored (graph s) o t → NoDup (ids t) → ∃ s', destroy_rec n (top t) s = Some s' ∧ dropped (ids t) s s') ts →
  ∀ s o, Forall (stored (graph s) o) ts → NoDup (flat_map ids ts) →
    ∃ s', each (destroy_rec n) (map top ts) s = Some s' ∧ dropped (flat_map ids ts) s s'.
Proof.
  intros Hd. induction Hd as [|t ts Ht _ IH]; intros s o Hts Hnd; cbn [map each flat_map] in *.
  { exists s. split; [done|]. split; [|done]. intros j. by rewrite decide_False by apply not_elem_of_nil. }
  apply Forall_cons in Hts as [Hst Hts]. apply NoDup_app in Hnd as (Hnt & Hdis & Hnd).
  destruct (Ht s o Hst Hnt) as (s1 & -> & H1). cbn [mbind option_bind].
  assert (Forall (stored (graph s1) o) ts) as Hts1.
  { rewrite Forall_forall in Hts |- *. intros u Hu. eapply stored_frame; [by apply Hts|]. intros j Hj.
    rewrite !graph_lookup, (proj1 H1 j), decide_False; [done|]. intros Hjt. apply (Hdis j Hjt). by eapply ids_child. }
  destruct (IH s1 o Hts1 Hnd) as (s2 & -> & H2). exists s2. split; [done|]. by eapply dropped_app.
Qed.

Lemma destroy_tree t : ∀ n s o, (height t <= n)%nat → stored (graph s) o t → NoDup (ids t) →
  ∃ s', destroy_rec n (top t) s = Some s' ∧ dropped (ids t) s s'.
Proof.
  induction t as [i ts IH] using tree_induction. intros [|n] s o Hn Hs Hnd; cbn [height] in Hn; [lia|].
  destruct (stored_widget s o i ts Hs) as (w & Hi & _ & Ech & Hts). cbn [destroy_rec top ids] in *. rewrite Hi.
  cbn [mbind option_bind]. rewrite Ech. apply NoDup_cons in Hnd as [Hni Hnd].
  destruct (destroy_each n ts) with (s := s) (o := Some i) as (s1 & -> & H1); [|done|done|].
  { rewrite Forall_forall in IH |- *. intros t Ht s' o' H H'. apply (IH t Ht n s' o'); [|done|done].
    pose proof (height_children t ts Ht). lia. }
  cbn [mbind option_bind]. unfold free_widget. destruct H1 as (Hg & Ec & Et & En). rewrite Hg, decide_False, Hi by done.
  cbn [mbind option_bind]. eexists. split; [done|]. split; [|done]. intros j. cbn. destruct (decide (j = i)) as [->|Hne].
  - rewrite lookup_delete_eq, decide_True by (by left). done.
  - rewrite lookup_delete_ne, Hg by done. repeat case_decide; set_solver.
Qed.

(** A widget without parent in the tree of a detached widget is its top. *)
Lemma parentless_top s t i w :
  wf s → stored (graph s) None t → i ∈ ids t → ui_widgets s !! i = Some w → w_parent w = None → i = top t.
Proof.
  intros Hw Ht Hin Hi Hp. destruct (lk_rank _ (wf_links s Hw)) as [rank Hr].
  destruct (stored_ancestor _ rank None t i Hr Ht Hin) as [_ Ha].
  destruct (rank i - rank (top t))%nat as [|d]; cbn [ancestor] in Ha; [congruence|].
  rewrite graph_lookup, Hi in Ha. cbn in Ha. by rewrite Hp in Ha.
Qed.

Lemma below_not_in s t j i : wf s → stored (graph s) None t → top t = i → is_below s j i false = true → j ∉ ids t.
Proof.
  intros Hw Ht <- Hb Hin. unfold is_below in Hb. apply bool_decide_eq_true in Hb.
  destruct (lk_rank _ (wf_links s Hw)) as [rank Hr]. destruct (stored_ancestor _ rank None t j Hr Ht Hin) as [_ Ha].
  by apply (up_not _ _ _ _ Hb) in Ha.
Qed.

Lemma dropped_graph l s s' j : dropped l s s' → graph s' !! j = (if decide (j ∈ l) then None else graph s !! j).
Proof. intros (H & _). rewrite !graph_lookup, H. by case_decide. Qed.

Lemma destroy_ok i s :
  wf s → loose i s = true → focus_outside i s = true → ∃ s', ui_widget_destroy (Some i) s = Some s' ∧ wf s'.
Proof.
  intros Hw Hl Hf. destruct (loose_spec i s Hl) as (w & Hi & Hp & Hroot).
  destruct (widget_tree s i w Hw Hi) as (t & Et & Ht & Hnd & Hh). rewrite Hp in Ht. cbn [ui_widget_destroy]. rewrite <- Et.
  destruct (destroy_tree t (tree_fuel s) s None ltac:(lia) Ht Hnd) as (s' & -> & Hd). exists s'. split; [done|].
  pose proof Hd as (Hg & Ec & Eth & En). unfold focus_outside in Hf. apply bool_decide_eq_true in Hf.
  apply (wf_shrink s); [done| |done|..].
  - apply (linked_drop (graph s) (graph s') t); [apply Hw|done|]. intros j. by apply dropped_graph.
  - intros j wj. rewrite Hg. by case_decide.
  - by rewrite Ec.
  - by rewrite Eth.
  - intros j wj c. rewrite Hg, Ec. case_decide; [done|]. intros Hj. by apply (ww_ctx _ _ _ (wf_widgets s Hw j wj Hj)).
  - intros c cx j wj. rewrite Ec, Hg. intros Hc Hor Hj. rewrite decide_False; [done|]. intros Hin. destruct Hor as [Hfo|Hro].
    + specialize (Hf c cx Hc). cbn in Hf. rewrite Hfo in Hf. by eapply below_not_in.
    + destruct (wc_root _ _ _ (wf_contexts s Hw c cx Hc) j Hro) as (wr & Hwr & Hpr & _).
      assert (j = top t) as -> by (by eapply parentless_top). apply (Hroot c cx Hc). congruence.
  - intros c cx u. rewrite Ec, Eth. intros Hc. apply (wc_theme _ _ _ (wf_contexts s Hw c cx Hc)).
Qed.

(** The tree below the root goes, whatever it is. *)
Lemma root_destroy s c cx :
  wf s → ui_contexts s !! c = Some cx → all_below c s = true →
  ∃ D s', ui_widget_destroy (cx_root cx) s = Some s' ∧ dropped D s s' ∧ linked (graph s') ∧
    ∀ j w d, ui_widgets s !! j = Some w → w_ctx w = Some d → (j ∈ D ↔ d = c).
Proof.
  intros Hw Hc Hall. unfold all_below in Hall. rewrite Hc in Hall. apply bool_decide_eq_true in Hall.
  destruct (cx_root cx) as [r|] eqn:Er; cbn [ui_widget_destroy].
  - destruct (wc_root _ _ _ (wf_contexts s Hw c cx Hc) r Er) as (wr & Hwr & Hpr & _).
    destruct (widget_tree s r wr Hw Hwr) as (t & Et & Ht & Hnd & Hh). rewrite Hpr in Ht.
    destruct (destroy_tree t (tree_fuel s) s None ltac:(lia) Ht Hnd) as (s' & Erec & Hd). rewrite Et in Erec.
    exists (ids t), s'. split; [done|]. split; [done|]. split.
    { apply (linked_drop (graph s) (graph s') t); [apply Hw|done|]. intros j. by apply dropped_graph. }
    intros j w d Hj Hx. specialize (Hall j w Hj). cbn in Hall. rewrite Hx in Hall. case_bool_decide as Hdc.
    + split; [done|]. intros _. unfold is_below in Hall. apply bool_decide_eq_true in Hall.
      apply up_true in Hall as [n Ha]. eapply ancestor_stored; [apply Hw|done| |by rewrite Et]. by rewrite graph_lookup, Hj.
    + split; [|done]. intros Hin. exfalso. by eapply below_not_in.
  - exists [], s. split; [done|]. split; [split; [intros j; by rewrite decide_False by apply not_elem_of_nil|done]|].
    split; [apply Hw|]. intros j w d Hj Hx. specialize (Hall j w Hj). cbn in Hall. rewrite Hx in Hall.
    apply bool_decide_eq_true in Hall. split; [by intros ?%elem_of_nil|done].
Qed.

Lemma destroy_context_ok c s : wf s → all_below c s = true → ∃ s', ui_context_destroy (Some c) s = Some s' ∧ wf s'.
Proof.
  intros Hw Hall. destruct (ui_contexts s !! c) as [cx|] eqn:Hc; [|unfold all_below in Hall; by rewrite Hc in Hall].
  cbn [ui_context_destroy]. rewrite Hc. cbn [mbind option_bind].
  destruct (root_destroy s c cx Hw Hc Hall) as (D & s1 & -> & Hd & Hl & Hin). cbn [mbind option_bind].
  destruct Hd as (Hg & Ec & Eth & En).
  assert (∃ s2, ui_theme_destroy (cx_theme cx) s1 = Some s2 ∧ ui_widgets s2 = ui_widgets s1 ∧ ui_contexts s2 = ui_contexts s ∧
    ui_next s2 = ui_next s ∧ ui_themes s2 = match cx_theme cx with Some t => delete t (ui_themes s) | None => ui_themes s end)
    as (s2 & -> & Ew2 & Ec2 & En2 & Et2).
  { destruct (cx_theme cx) as [t|] eqn:Et; cbn [ui_theme_destroy]; [|by exists s1].
    destruct (wc_theme _ _ _ (wf_contexts s Hw c cx Hc) t Et) as [th Hth]. unfold free_theme. rewrite Eth, Hth.
    cbn [mbind option_bind]. eexists. split; [done|]. by cbn. }
  cbn [mbind option_bind]. unfold free_context. rewrite Ec2, Hc. cbn [mbind option_bind]. eexists. split; [done|].
  assert (∀ d dx, delete c (ui_contexts s) !! d = Some dx → d ≠ c ∧ ui_contexts s !! d = Some dx) as Hdel.
  { intros d dx [? ?]%lookup_delete_Some. done. }
  apply (wf_shrink s); cbn; rewrite ?Ew2, ?Et2; [done| |done|..].
  - unfold graph in *. cbn. by rewrite ?Ew2.
  - intros j wj. rewrite Hg. by case_decide.
  - intros d dx Hdx. by apply Hdel.
  - intros t th. destruct (cx_theme cx); [|done]. by intros [_ ?]%lookup_delete_Some.
  - intros j wj d. rewrite Hg. case_decide as Hj; [done|]. intros Hwj Hx. rewrite lookup_delete_ne.
    + by apply (ww_ctx _ _ _ (wf_widgets s Hw j wj Hwj)).
    + intros ->. apply Hj. by apply (Hin j wj d).
  - intros d dx j wj [Hne Hdx]%Hdel Hor Hwj. rewrite Hg, decide_False; [done|]. intros Hj.
    assert (w_ctx wj = Some d) as Hx; [|by apply Hne, (Hin j wj d)]. destruct Hor as [Hfo|Hro].
    + destruct (fo_back s (wf_focus s Hw) d dx j Hdx Hfo) as (w' & ? & _ & ?). congruence.
    + destruct (wc_root _ _ _ (wf_contexts s Hw d dx Hdx) j Hro) as (w' & ? & _ & ?). congruence.
  - intros d dx t [Hne Hdx]%Hdel Ht. pose proof (wc_theme _ _ _ (wf_contexts s Hw d dx Hdx) t Ht) as Hlive.
    destruct (cx_theme cx) as [u|] eqn:Eu; [|done]. rewrite lookup_delete_ne; [done|]. intros ->.
    apply Hne. by apply (wc_own _ _ _ (wf_contexts s Hw c cx Hc) d dx t).
Qed.

(** ** Themes and the rest *)

Lemma theme_unused_spec t s : theme_unused t s = true → ∀ c cx, ui_contexts s !! c = Some cx → cx_theme cx ≠ Some t.
Proof. unfold theme_unused. by intros H%bool_decide_eq_true. Qed.

Lemma drop_theme_ok t s : wf s → live_theme t s = true → theme_unused t s = true →
  ∃ s', free_theme t s = Some s' ∧ wf s'.
Proof.
  intros Hw Hl Hu. unfold live_theme in Hl. apply bool_decide_eq_true in Hl as [th Hth]. pose proof (theme_unused_spec t s Hu) as Hun.
  unfold free_theme. rewrite Hth. cbn [mbind option_bind]. eexists. split; [done|]. apply (wf_shrink s); cbn; try done.
  - apply Hw.
  - by intros u uh [_ ?]%lookup_delete_Some.
  - intros i w c Hi. by apply (ww_ctx _ _ _ (wf_widgets s Hw i w Hi)).
  - intros c cx u Hc Hcu. rewrite lookup_delete_ne by (intros ->; by apply (Hun c cx)).
    by apply (wc_theme _ _ _ (wf_contexts s Hw c cx Hc)).
Qed.

Lemma set_theme_ok c t s :
  wf s → live_context c s = true → live_theme t s = true → theme_unused t s = true →
  ∃ s', ui_context_set_theme (Some c) (Some t) s = Some s' ∧ wf s'.
Proof.
  intros Hw Hc Hl Hu. unfold live_context, live_theme in *. apply bool_decide_eq_true in Hc as [cx Hc], Hl.
  pose proof (theme_unused_spec t s Hu) as Hun. cbn [ui_context_set_theme]. rewrite Hc. cbn [mbind option_bind].
  assert (wf (put_context c (set_cx_theme (Some t) cx) s)) as Hw1.
  { apply wf_put_context; [done|apply (wc_next _ _ _ (wf_contexts s Hw c cx Hc))|by rewrite Hc| |].
    - apply (wc_root _ _ _ (wf_contexts s Hw c cx Hc)).
    - intros u [= <-]. split; [done|]. intros d dx Hd Hdt. by apply (Hun d dx) in Hd. }
  destruct (cx_theme cx) as [u|] eqn:Eu; cbn [ui_theme_destroy mbind option_bind]; [|by eexists].
  destruct (drop_theme_ok u (put_context c (set_cx_theme (Some t) cx) s)) as (s2 & E2 & Hw2); [done|..].
  - unfold live_theme. apply bool_decide_eq_true. apply (wc_theme _ _ _ (wf_contexts s Hw c cx Hc) u Eu).
  - unfold theme_unused. apply bool_decide_eq_true. intros d dx. cbn. destruct (decide (d = c)) as [->|Hne].
    + rewrite lookup_insert_eq. intros [= <-]. cbn. intros [= ->]. by apply (Hun c cx Hc).
    + rewrite lookup_insert_ne by done. intros Hd Hdt. apply Hne. by apply (wc_own _ _ _ (wf_contexts s Hw c cx Hc) d dx u).
  - unfold free_theme in *. cbn in E2. destruct (ui_themes s !! u); [|done]. cbn [mbind option_bind] in *.
    injection E2 as <-. eexists. split; [done|]. exact Hw2.
Qed.

Lemma theme_put_ok t index (A0 : Type) (x : A0) (f : ui_theme_t → list A0) (g : ui_theme_t → list A0 → ui_theme_t) (n : Z) s :
  wf s → live_theme t s = true → 0 <= index →
  (∀ th, blen (th_colors th) = 16 → blen (th_text_styles th) = 8 → blen (f th) = n ∧
     ∀ l, blen l = n → blen (th_colors (g th l)) = 16 ∧ blen (th_text_styles (g th l)) = 8) →
  ∃ s', (if index <? n then th ← ui_themes s !! t; l ← wr (f th) index x; Some (put_theme t (g th l) s) else Some s) = Some s' ∧ wf s'.
Proof.
  intros Hw Hl Hi Hg. unfold live_theme in Hl. apply bool_decide_eq_true in Hl as [th Hth]. destruct (index <? n) eqn:En; bool_hyps; [|by exists s].
  rewrite Hth. cbn [mbind option_bind]. destruct (wf_themes s Hw t th Hth) as (Hn & H16 & H8). destruct (Hg th H16 H8) as [Hf Hgl].
  rewrite wr_ok by lia. cbn [mbind option_bind]. eexists. split; [done|].
  destruct (Hgl (<[Z.to_nat index := x]> (f th))) as [? ?]; [unfold blen in *; by rewrite length_insert|].
  by apply wf_put_theme.
Qed.

Lemma at_widget_ok i f s :
  wf s → live i s = true → (∀ w, skeleton (f w) = skeleton w) → ∃ s', at_widget i f s = Some s' ∧ wf s'.
Proof.
  intros Hw Hl Hf. unfold live in Hl. apply bool_decide_eq_true in Hl as [w Hi]. unfold at_widget. rewrite Hi. cbn [mbind option_bind].
  eexists. split; [done|]. apply (similar_wf s); [|done]. by apply (similar_put s i w).
Qed.

Lemma callback_ok i (cb : option C) (arg : option A) s :
  wf s → live i s = true → ∃ s', ui_widget_set_callback (Some i) (app_callback <$> cb) arg s = Some s' ∧ wf s'.
Proof.
  intros Hw Hl. unfold live in Hl. apply bool_decide_eq_true in Hl as [w Hi]. cbn [ui_widget_set_callback if_widget]. unfold at_widget. rewrite Hi.
  cbn [mbind option_bind]. eexists. split; [done|].
  match goal with |- wf (put_widget i ?w1 s) => set (w' := w1) end.
  assert (no_loop (app_callback <$> cb)) as Hnl by (by destruct cb).
  destruct (wf_widgets s Hw i w Hi) as [W1 W2 W3 W4 (W5 & W6 & W7)]. destruct (wf_focus s Hw) as [Hb Ho].
  assert (∀ j wj, <[i := w']> (ui_widgets s) !! j = Some wj → ∃ w0, ui_widgets s !! j = Some w0 ∧ links_of wj = links_of w0 ∧
    w_focused wj = w_focused w0 ∧ w_ctx wj = w_ctx w0) as Hback.
  { intros j wj. destruct (decide (j = i)) as [->|Hne]; [rewrite lookup_insert_eq|rewrite lookup_insert_ne by done].
    - intros [= <-]. by exists w.
    - intros Hj. by exists wj. }
  assert (∀ j w0, ui_widgets s !! j = Some w0 → ∃ wj, <[i := w']> (ui_widgets s) !! j = Some wj ∧ links_of wj = links_of w0 ∧
    w_focused wj = w_focused w0 ∧ w_ctx wj = w_ctx w0) as Hfwd.
  { intros j w0. destruct (decide (j = i)) as [->|Hne]; [rewrite lookup_insert_eq|rewrite lookup_insert_ne by done].
    - intros Hj. exists w'. assert (w0 = w) as -> by congruence. done.
    - intros Hj. by exists w0. }
  split; [| | |apply Hw|split].
  - rewrite graph_put. change (links_of w') with (links_of w). rewrite insert_id; [apply Hw|by rewrite graph_lookup, Hi].
  - intros j wj. cbn. destruct (decide (j = i)) as [->|Hne]; [rewrite lookup_insert_eq; by intros [= <-]|rewrite lookup_insert_ne by done].
    intros Hj. by destruct (wf_widgets s Hw j wj Hj).
  - intros c cx Hc. destruct (wf_contexts s Hw c cx Hc) as [C1 C2 C3 C4]. split; try done. intros r Hr.
    destruct (C2 r Hr) as (wr & Hwr & Hp & Hx). destruct (Hfwd r wr Hwr) as (wr' & ? & El & _ & Ex). exists wr'.
    split; [done|]. injection El. split; congruence.
  - intros c cx j Hc Hj. destruct (Hb c cx j Hc Hj) as (wj & Hwj & Hf & Hx). destruct (Hfwd j wj Hwj) as (wj' & ? & _ & Ef & Ex).
    exists wj'. split; [done|]. split; congruence.
  - intros j wj c cx Hj Hx Hf Hc. destruct (Hback j wj Hj) as (w0 & Hw0 & _ & Ef & Ex). apply (Ho j w0 c cx); [done|congruence|congruence|exact Hc].
Qed.

(** ** Every call *)

Context (polite : ∀ f i a s, wf s → ∃ s', code f i a s = Some s' ∧ similar s s').

Lemma focus_call_ok i s : wf s → live i s = true →
  (∃ s', ('(_, s) ← ui_widget_focus code (Some i) s; Some s) = Some s' ∧ wf s') ∧
  (∃ s', ui_widget_unfocus code (Some i) s = Some s' ∧ wf s').
Proof.
  intros Hw Hl. unfold live in Hl. apply bool_decide_eq_true in Hl as [w Hi]. split.
  - destruct (focus_ok_widget code polite i w s Hw Hi) as (s' & -> & ? & _). by exists s'.
  - destruct (unfocus_ok code polite i w s Hw Hi) as (s' & -> & ? & _). by exists s'.
Qed.

Lemma scroll_ok i offset s :
  wf s → legal (ScrollTo i offset) s = true → ∃ s', ui_scroll_set_offset (Some i) offset s = Some s' ∧ wf s'.
Proof.
  intros Hw Hl. cbn [legal ui_scroll_set_offset] in *. destruct (ui_widgets s !! i) as [w|] eqn:Hi; [|done].
  destruct (w_cont w) as [cont|] eqn:Hc; [|done]. cbn [mbind option_bind]. rewrite Hc. cbn [mbind option_bind].
  destruct (ct_is_scroll cont); cbn [negb]; [|by exists s]. eexists. split; [done|].
  apply (similar_wf s); [|done]. apply (similar_put s i w); [done|]. unfold skeleton, shell, cols_of. cbn. by rewrite Hc.
Qed.

Lemma do_call_ok (o : call) s : wf s → legal o s = true → ∃ s', do_call o s = Some s' ∧ wf s'.
Proof.
  intros Hw Hl. destruct o; cbn [legal do_call] in *; bool_hyps;
    try (by apply at_widget_ok); try (by apply focus_call_ok).
  - destruct (new_context_ok ok_ctx ok_theme ok_root lw lh cw ch s Hw) as (o & s' & -> & Hw'). by exists s'.
  - by apply destroy_context_ok.
  - destruct (new_theme_ok ok s Hw) as (o & s' & -> & Hw' & _). by exists s'.
  - by apply drop_theme_ok.
  - by apply set_theme_ok.
  - apply (theme_put_ok t index _ color th_colors (λ th l, mk_theme (th_name th) (th_base_style th) l (th_text_styles th)
      (th_color_count th) (th_text_style_count th)) 16); done.
  - apply (theme_put_ok t index _ y th_text_styles (λ th l, mk_theme (th_name th) (th_base_style th) (th_colors th) l
      (th_color_count th) (th_text_style_count th)) 8); done.
  - destruct (ui_create_ok K ok ctx s Hw) as (o & s' & -> & Hw'); [|done|by exists s'].
    destruct ctx as [c|]; [|done]. unfold live_context in *. by eapply bool_decide_eq_true.
  - by apply destroy_ok.
  - destruct (add_child_ok p k s) as (r & s' & -> & Hw'); [done..|by exists s'].
  - destruct (remove_child_ok p k s) as (r & s' & -> & Hw'); [done..|by exists s'].
  - by apply callback_ok.
  - unfold live_context in Hl. apply bool_decide_eq_true in Hl as [cx Hc]. cbn [ui_context_set_display]. rewrite Hc.
    cbn [mbind option_bind]. eexists. split; [done|].
    apply wf_put_context; [done|apply (wc_next _ _ _ (wf_contexts s Hw c cx Hc))|by rewrite Hc|apply (wc_root _ _ _ (wf_contexts s Hw c cx Hc))|].
    cbn. intros t Ht. split; [by apply (wc_theme _ _ _ (wf_contexts s Hw c cx Hc))|]. intros e ex He Het.
    by apply (wc_own _ _ _ (wf_contexts s Hw c cx Hc) e ex t).
  - by apply scroll_ok.
  - unfold live_context in Hl. apply bool_decide_eq_true in Hl as [cx Hc].
    destruct (input_event_ok code polite s c cx ev Hw Hc) as (s' & -> & ? & _). by exists s'.
  - unfold live_context in Hl. apply bool_decide_eq_true in Hl as [cx Hc].
    destruct (ui_layout_ok s c cx Hw Hc) as (s' & -> & ? & _). by exists s'.
Qed.

Lemma empty_wf env : wf (ui_empty env).
Proof.
  split; [split|by intros i w; cbn|by intros c cx; cbn|by intros t th; cbn|by split; [intros c cx i|intros i w c cx]].
  - by intros i o l k.
  - by intros i o l.
  - by intros k i l.
  - by exists (λ _, O).
Qed.

Lemma ui_calls_ok (l : list call) s : wf s → legal_run l s = true → ∃ s', each do_call l s = Some s' ∧ wf s'.
Proof.
  revert s. induction l as [|o l IH]; intros s Hw Hl; cbn [each legal_run] in *; [by exists s|].
  apply andb_true_iff in Hl as [Ho Hl]. destruct (do_call_ok o s Hw Ho) as (s' & E' & Hw'). rewrite E' in *.
  cbn [mbind option_bind]. by apply IH.
Qed.

(** C18: every sequence of widget calls that follows the rules runs to its end: no call
    reaches a freed widget, context or theme, frees one twice, divides by zero or calls
    itself for ever, and afterwards the widgets form trees of which each widget has one
    parent, each context and its focused widget lead to each other, and roots and
    themes are live and belong to one context. *)
Theorem widgets_safe env (l : list call) :
  legal_run l (ui_empty env) = true → ∃ s', each do_call l (ui_empty env) = Some s' ∧ wf s'.
Proof. apply ui_calls_ok, empty_wf. Qed.
End WidgetRuns.
