(* ===== verification/WidgetDemos.v ===== *)
(** * Widgets at work

    Concrete calls: the theorems applied to them, and what goes wrong outside the rules.
    Then [ui_render]: it lights the dots of the visible widgets of a tree and nothing
    else. *)

From Stdlib Require Import ZArith Lia.
From stdpp Require Import base tactics option numbers gmap list.
From S2P Require Import Prelude.
From S2P Require Import CString.
From S2P Require Import Runs.
From S2P Require Import Ssd1306.
From S2P Require Import Ssd1306Thm.
From S2P Require Import FwUi.
From S2P Require Import Input.
From S2P Require Import Widgets.
From S2P Require Import WidgetLayout.
From S2P Require Import WidgetTree.
From S2P Require Import WidgetsThm.
From S2P Require Import WidgetKeys.
From S2P Require Import WidgetBoxes.
From S2P Require Import WidgetRuns.

Module WidgetDemo.
(** Callback [f] adds [f] to a counter. *)
Abbreviation state := (ui_state (C := Z) (A := Z) (E := Z)).
Definition count (f : Z) (i : nat) (a : option Z) (s : state) : option state :=
  Some (mk_ui (ui_widgets s) (ui_contexts s) (ui_themes s) (ui_next s) (ui_env s + f)).
Abbreviation call := (call (C := Z) (A := Z)).

Lemma count_polite f i a (s : state) : wf s → ∃ s', count f i a s = Some s' ∧ similar s s'.
Proof. intros _. eexists. split; [done|]. by split. Qed.

Definition run (l : list call) : option state := each (do_call count) l (ui_empty 0).
Definition after (l : list call) : state := default (ui_empty 0) (run l).

Lemma after_wf l : legal_run count l (ui_empty 0) = true → wf (after l).
Proof.
  intros Hl. destruct (ui_calls_ok count count_polite l (ui_empty 0) (empty_wf 0) Hl) as (s & Es & Hw).
  unfold after, run. by rewrite Es.
Qed.

Definition key (k : Z) : input_event_t := mk_iev INPUT_EVENT_KEY_DOWN k 0 0 0 0 0 0 0 0 0.
Definition tab := key INPUT_KEY_TAB.
Definition enter := key INPUT_KEY_ENTER.

(** Context 0 with theme 1 and root 2; a row 3 with two buttons 4 and 5. *)
Definition two_buttons : list call :=
  [NewContext true true true 100 50 100 50;
   New (KFlex UI_FLEX_DIR_ROW UI_JUSTIFY_START UI_ALIGN_START 0) true (Some 0%nat); AddChild 2 3;
   New (KButton None (Some 10)) true (Some 0%nat); AddChild 3 4;
   New (KButton None (Some 1)) true (Some 0%nat); AddChild 3 5].

Lemma widgets_safe_witness :
  ∃ s', each (do_call count) (two_buttons ++ [Focus 4; Key 0 tab; Key 0 enter; Layout 0; Unfocus 5; RemoveChild 3 5; Destroy 5; DestroyContext 0])
    (ui_empty 0) = Some s' ∧ wf s'.
Proof. apply (widgets_safe count count_polite). vm_compute. reflexivity. Defined.

(** Tab went from the first button to the second, and Enter clicked it. *)
Example second_clicked : ui_env <$> run (two_buttons ++ [Focus 4; Key 0 tab; Key 0 enter]) = Some 1.
Proof. vm_compute. reflexivity. Qed.

Definition tree2 : tree := Node 2 [Node 3 [Node 4 []; Node 5 []]].

Lemma two_ready : tab_ready 0 tree2 [4%nat; 5%nat] (after two_buttons).
Proof.
  split; [apply after_wf; vm_compute; reflexivity|]. split; [|split; [|split]].
  - assert (map_Forall (λ _ w, (is_some_cb (w_on_focus w), is_some_cb (w_on_blur w)) = (false, false)) (ui_widgets (after two_buttons))) as H by vm_decide.
    intros i w Hi. specialize (H i w Hi). cbn in H. injection H. by destruct (w_on_focus w), (w_on_blur w).
  - repeat (constructor; try (vm_compute; reflexivity)).
  - vm_compute. reflexivity.
  - assert (map_Forall (λ _ w, w_ctx w = Some 0%nat) (ui_widgets (after two_buttons))) as H by vm_decide.
    intros i w _ Hi. by apply (H i w).
Qed.

Lemma tab_cycles_witness :
  ∃ s', press count 0 (replicate 3 tab) (after two_buttons) = Some s' ∧
    ui_widget_get_focused (Some 0%nat) s' = Some (Some 4%nat).
Proof.
  destruct (ui_contexts (after two_buttons) !! 0%nat) as [cx|] eqn:Hc; [|vm_compute in Hc; discriminate].
  assert (cx_root cx = Some 2%nat ∧ cx_focused cx = None) as [Hr Hf] by (vm_compute in Hc; by injection Hc as <-).
  destruct (tab_cycles count count_polite 0 cx tree2 [4%nat; 5%nat] (after two_buttons) tab 2) as (s' & Ep & Hg);
    [apply two_ready|done|done|done|vm_compute; discriminate|done|done|].
  exists s'. split; [exact Ep|]. rewrite Hg, Hf. reflexivity.
Defined.

(** A row of 100 by 50 at (0, 0) without padding, with children of the given layouts. *)
Definition flexi (g : Z) : ui_layout_params_t :=
  mk_layout UI_SIZE_MODE_FLEX UI_SIZE_MODE_AUTO 0 0 0 0 65535 65535 g 1 0.
Definition row_of (gap : Z) (dir : ui_flex_dir_t) (ls : list ui_layout_params_t) : list call :=
  [NewContext true true true 100 50 100 50;
   New (KFlex dir UI_JUSTIFY_START UI_ALIGN_START gap) true (Some 0%nat); AddChild 2 3;
   SetRect 3 0 0 100 50; SetPadding 3 0 0 0 0] ++
  flat_map (λ p : nat * ui_layout_params_t, [New (KLabel None) true (Some 0%nat); SetLayout p.1 p.2; AddChild 3 p.1]) (zip (seq 4 (length ls)) ls).
Definition rect_after (l : list call) (i : nat) : option ui_rect_t := s ← run l; w_rect <$> ui_widgets s !! i.

Lemma flex_layout_flow_witness :
  ∃ s', layout_widget (tree_fuel (after (row_of 0 UI_FLEX_DIR_ROW [flexi 1; flexi 3]))) 3 (after (row_of 0 UI_FLEX_DIR_ROW [flexi 1; flexi 3])) = Some s' ∧
    w_rect <$> ui_widgets s' !! 4%nat = Some (mk_rect 0 0 25 50) ∧ w_rect <$> ui_widgets s' !! 5%nat = Some (mk_rect 25 0 75 50).
Proof.
  set (s := after _). destruct (ui_widgets s !! 3%nat) as [w|] eqn:Hi; [|vm_compute in Hi; discriminate].
  assert (w = default w (ui_widgets s !! 3%nat)) as Ew by by rewrite Hi.
  assert (w_layout_fn w = Some container_layout_fn) as Hfn by (rewrite Ew; vm_compute; reflexivity).
  assert (w_cont w = Some (mk_container UI_FLEX_DIR_ROW UI_JUSTIFY_START UI_ALIGN_START 0 0 0 false 0)) as Hc
    by (rewrite Ew; vm_compute; reflexivity).
  destruct (flex_layout_flow s 3 w _ ltac:(apply after_wf; vm_compute; reflexivity) Hi Hfn Hc) as (s' & El & _ & Hr & _).
  { rewrite Ew. split; vm_decide. }
  exists s'. split; [exact El|]. rewrite Ew in Hr.
  split; [rewrite (Hr 0%nat 4%nat _ ltac:(vm_compute; reflexivity))|rewrite (Hr 1%nat 5%nat _ ltac:(vm_compute; reflexivity))]; vm_compute; reflexivity.
Defined.

Definition grid_of (cols rows gap : Z) (n : nat) : list call :=
  [NewContext true true true 100 100 100 100;
   New (KGrid cols rows gap) true (Some 0%nat); AddChild 2 3; SetRect 3 0 0 100 100; SetPadding 3 0 0 0 0] ++
  flat_map (λ i, [New (KLabel None) true (Some 0%nat); AddChild 3 i]) (seq 4 n).

Lemma grid_layout_cells_witness :
  ∃ s', layout_widget (tree_fuel (after (grid_of 2 0 4 3))) 3 (after (grid_of 2 0 4 3)) = Some s' ∧
    w_rect <$> ui_widgets s' !! 5%nat = Some (mk_rect 52 0 48 48) ∧ w_rect <$> ui_widgets s' !! 6%nat = Some (mk_rect 0 52 48 48).
Proof.
  set (s := after _). destruct (ui_widgets s !! 3%nat) as [w|] eqn:Hi; [|vm_compute in Hi; discriminate].
  assert (w = default w (ui_widgets s !! 3%nat)) as Ew by by rewrite Hi.
  assert (w_layout_fn w = Some grid_layout_fn) as Hfn by (rewrite Ew; vm_compute; reflexivity).
  assert (w_cont w = Some (mk_container UI_FLEX_DIR_ROW UI_JUSTIFY_START UI_ALIGN_START 4 2 0 false 0)) as Hc
    by (rewrite Ew; vm_compute; reflexivity).
  destruct (grid_layout_cells s 3 w _ ltac:(apply after_wf; vm_compute; reflexivity) Hi Hfn Hc) as (s' & El & _ & Hr & _).
  { rewrite Ew. split; vm_decide. }
  exists s'. split; [exact El|]. rewrite Ew in Hr.
  split; [rewrite (Hr 1%nat 5%nat _ ltac:(vm_compute; reflexivity))|rewrite (Hr 2%nat 6%nat _ ltac:(vm_compute; reflexivity))]; vm_compute; reflexivity.
Defined.

(** ** Outside the rules, and where the code departs from its intent *)

(** The gap after a flexible child is not reserved: the second child ends at 105 of 100. *)
Example flexible_gap_overflows :
  rect_after (row_of 5 UI_FLEX_DIR_ROW [flexi 1; flexi 1] ++ [Layout 0]) 5 = Some (mk_rect 55 0 50 50).
Proof. vm_compute. reflexivity. Qed.

(** A reversed row is laid out like a row. *)
Example reverse_is_ignored :
  rect_after (row_of 0 UI_FLEX_DIR_ROW_REVERSE [flexi 1; flexi 3] ++ [Layout 0]) 4 =
  rect_after (row_of 0 UI_FLEX_DIR_ROW [flexi 1; flexi 3] ++ [Layout 0]) 4.
Proof. vm_compute. reflexivity. Qed.

(** Three rows of 20 in a viewport of 30. *)
Definition scrolled (more : list call) : list call :=
  [NewContext true true true 50 30 50 30; New (KScroll UI_FLEX_DIR_COL) true (Some 0%nat); AddChild 2 3;
   SetRect 3 0 0 50 30; SetPadding 3 0 0 0 0] ++
  flat_map (λ i, [New (KLabel None) true (Some 0%nat);
    SetLayout i (mk_layout UI_SIZE_MODE_AUTO UI_SIZE_MODE_FIXED 0 20 0 0 65535 65535 0 1 0); AddChild 3 i]) [4; 5; 6]%nat ++ more.
Definition row_after (l : list call) (i : nat) : option (Z * bool) :=
  s ← run l; (λ w, (rc_y (w_rect w), w_visible w)) <$> ui_widgets s !! i.

(** Scrolled down by 20 and back: the first two rows are both drawn at the top, since a
    hidden row no longer takes part in the layout. *)
Example scrolling_back_overlaps :
  row_after (scrolled [Layout 0]) 4 = Some (0, true) ∧ row_after (scrolled [Layout 0]) 5 = Some (20, true) ∧
  row_after (scrolled [Layout 0; ScrollTo 3 20; Layout 0; ScrollTo 3 0; Layout 0]) 4 = Some (0, true) ∧
  row_after (scrolled [Layout 0; ScrollTo 3 20; Layout 0; ScrollTo 3 0; Layout 0]) 5 = Some (0, true).
Proof. vm_compute. done. Qed.

(** Enter on a focused button that was created without a callback: [button_click] calls
    the [on_click] of its widget, which is itself. *)
Lemma button_without_callback {C A E : Type} code (n : nat) i a w (s : ui_state (C := C) (A := A) (E := E)) :
  ui_widgets s !! i = Some w → w_on_click w = Some button_click_fn → call_back code n button_click_fn i a s = None.
Proof.
  intros Hi Hc. induction n as [|n IH]; cbn [call_back]; [done|]. rewrite Hi. cbn [mbind option_bind]. by rewrite Hc.
Qed.

Example button_enter_never_returns :
  run [NewContext true true true 100 50 100 50; New (KButton None None) true (Some 0%nat); AddChild 2 3; Focus 3; Key 0 enter] = None.
Proof. vm_compute. reflexivity. Qed.

(** A destroyed widget keeps the focus of its context, and Enter reads it. *)
Example destroyed_focus_is_read :
  run [NewContext true true true 100 50 100 50; New (KButton None (Some 1)) true (Some 0%nat); Focus 3; Destroy 3; Key 0 enter] = None.
Proof. vm_compute. reflexivity. Qed.

(** A destroyed child stays in the list of its parent. *)
Example destroyed_child_is_read :
  run [NewContext true true true 100 50 100 50; New (KLabel None) true (Some 0%nat); AddChild 2 3; Destroy 3; Layout 0] = None.
Proof. vm_compute. reflexivity. Qed.

(** A removed widget keeps the focus: Enter clicks what is no longer on the screen. *)
Example removed_focus_is_clicked :
  ui_env <$> run (two_buttons ++ [Focus 5; RemoveChild 3 5; Key 0 enter]) = Some 1.
Proof. vm_compute. reflexivity. Qed.

(** Setting the theme a context has already frees it. *)
Example same_theme_is_freed :
  run [NewContext true true true 100 50 100 50; SetTheme 0 1; DestroyContext 0] = None.
Proof. vm_compute. reflexivity. Qed.
End WidgetDemo.

(** ** What rendering draws *)

Section WidgetDraw.
Context {C A E : Type} (W H : Z) {U : Type} `{SimI2c U} (HW : 0 < W) (HH : 0 < H).
#[local] Abbreviation widget := (ui_widget (C := C) (A := A)).
#[local] Abbreviation state := (ui_state (C := C) (A := A) (E := E)).
Implicit Types (w : widget) (s : state) (i c : nat) (t : tree) (x y : Z) (d : app_display_t).

(** ** Shapes *)

Definition fill_shape (r : ui_rect_t) (color : ui_color_t) x y : bool :=
  color_is_ink color && Ssd1306Thm.in_box (rc_x r) (rc_y r) (rc_w r) (rc_h r) x y.
(** The name of a widget, at an offset from its corner. *)
Definition name_shape w (dx dy : Z) x y : bool :=
  plain_text_shape W H (i16 (rc_x (w_rect w) + dx)) (i16 (rc_y (w_rect w) + dy)) (c_str (w_name w)) x y.
Definition bg_shape w : Z → Z → bool := fill_shape (w_rect w) (cs_bg (st_colors (w_style w))).
(** The background of a widget that shows its focus. *)
Definition focus_shape w (other : ui_color_t) : Z → Z → bool :=
  fill_shape (w_rect w) (if w_focused w then cs_focus (st_colors (w_style w)) else other).

Definition draw_shape (f : ui_draw_cb_t) w x y : bool :=
  let cs := st_colors (w_style w) in
  match f with
  | label_draw_fn => name_shape w 0 (rc_h (w_rect w) / 2) x y
  | button_draw_fn => focus_shape w (if w_enabled w then cs_bg cs else cs_disabled cs) x y
                      || name_shape w (rc_w (w_rect w) / 2) (rc_h (w_rect w) / 2) x y
  | checkbox_draw_fn => bg_shape w x y || name_shape w 24 4 x y
  | textinput_draw_fn => focus_shape w (cs_bg cs) x y || name_shape w 4 4 x y
  | _ => bg_shape w x y
  end.

Definition widget_shape w x y : bool := match w_draw w with Some f => draw_shape f w x y | None => false end.

(** A hidden widget hides what is below it. *)
Fixpoint tree_shape s t x y : bool :=
  let 'Node i ts := t in
  match ui_widgets s !! i with
  | Some w => w_visible w && (widget_shape w x y || existsb (λ t, tree_shape s t x y) ts)
  | None => false
  end.

(** ** Drawing them *)

#[local] Abbreviation lights := (draws (U := U) W H (Bit true)).

Lemma lights_rect d (x0 y0 w h : Z) :
  dp_initialized d = true → lights (Ssd1306Thm.in_box x0 y0 w h) (app_display_rect W H (Some d) x0 y0 w h true).
Proof.
  intros Hr. destruct ((w <=? 0) || (h <=? 0)) eqn:Eb.
  { eapply draws_ext; [apply draws_none| |].
    - intros x y _. symmetry. apply not_true_iff_false. rewrite in_box_true. intros [? ?].
      apply orb_true_iff in Eb. rewrite !Z.leb_le in Eb. lia.
    - intros p. unfold app_display_rect. cbn [ready]. rewrite Hr. cbn [negb orb]. by rewrite Eb. }
  eapply draws_ext; [|intros x y Hon|].
  - apply (draws_for _ _ _ y0 (y0 + h)). intros iy _. apply (draws_for _ _ _ x0 (x0 + w)). intros ix _.
    apply (draws_set_pixel W H HW ix iy true).
  - apply eq_true_iff_eq. rewrite any_true. setoid_rewrite any_true. rewrite in_box_true. split.
    + intros (iy & Hy & ix & Hx & [-> ->]%dot_true). lia.
    + intros Hbox. exists y. split; [lia|]. exists x. split; [lia|]. by apply dot_true.
  - intros p. unfold app_display_rect. cbn [ready]. rewrite Hr. cbn [negb orb]. by rewrite Eb.
Qed.

Lemma lights_fill d r color : dp_initialized d = true → lights (fill_shape r color) (draw_rect W H (Some d) r color).
Proof.
  intros Hr. unfold draw_rect, fill_shape. cbn [WidgetLayout.is_some negb orb].
  destruct (color_is_ink color); cbn [negb andb]; [by apply lights_rect|apply draws_none].
Qed.

Lemma lights_text d text (x0 y0 : Z) color :
  dp_initialized d = true → lights (plain_text_shape W H x0 y0 (c_str text)) (draw_text W H (Some d) text x0 y0 color).
Proof.
  intros Hr. unfold draw_text. cbn [WidgetLayout.is_some negb]. unfold app_display_text, when_ready. cbn [ready].
  rewrite Hr. by apply draws_draw_text.
Qed.

Lemma lights_widget d f w : dp_initialized d = true → lights (draw_shape f w) (draw_call W H f w (Some d)).
Proof.
  intros Hr. destruct f; cbn [draw_call]; try (by apply lights_fill).
  - unfold label_draw. eapply draws_ext; [by apply lights_text| |done]. intros x y _. cbn [draw_shape].
    unfold name_shape. by rewrite Z.add_0_r.
  - eapply draws_ext; [apply draws_seq; [by apply lights_fill|by apply lights_text]| |done]. intros x y _. reflexivity.
  - eapply draws_ext; [apply draws_seq; [by apply lights_fill|by apply lights_text]| |done]. intros x y _. reflexivity.
  - eapply draws_ext; [apply draws_seq; [by apply lights_fill|by apply lights_text]| |done]. intros x y _. reflexivity.
Qed.

Lemma lights_each {X} (S : X → Z → Z → bool) (body : X → panel U → option (panel U)) l :
  (∀ u, u ∈ l → lights (S u) (body u)) → lights (λ x y, existsb (λ u, S u x y) l) (each body l).
Proof.
  induction l as [|u l IH]; intros Hb; [apply draws_none|]. cbn [each existsb].
  apply (draws_seq W H); [apply Hb; left|]. apply IH. intros v Hv. apply Hb. by right.
Qed.

Lemma render_tree d s t : dp_initialized d = true →
  ∀ n o, stored (graph s) o t → (height t <= n)%nat → lights (tree_shape s t) (render_widget W H n s (Some d) (top t)).
Proof.
  intros Hr. induction t as [i ts IH] using tree_induction. intros [|n] o Hs Hn; cbn [height] in Hn; [lia|].
  destruct (stored_widget s o i ts Hs) as (w & Hi & _ & Ech & Hts). cbn [top].
  set (S := λ x y, negb (negb (w_visible w)) && (widget_shape w x y || existsb (λ t, tree_shape s t x y) ts)).
  eapply (draws_ext W H _ S _ (λ p, if negb (w_visible w) then Some p else
    p ← match w_draw w with Some f => draw_call W H f w (Some d) p | None => Some p end;
    each (render_widget W H n s (Some d)) (w_children w) p)).
  - apply draws_skip, draws_seq.
    + unfold widget_shape. destruct (w_draw w) as [f|]; [by apply lights_widget|apply draws_none].
    + rewrite Ech. clear S Hs Ech Hi.
      assert (Forall (λ t, lights (tree_shape s t) (render_widget W H n s (Some d) (top t))) ts) as Hall.
      { rewrite Forall_forall in IH, Hts |- *. intros t Ht. apply (IH t Ht n (Some i)); [by apply Hts|].
        pose proof (height_children t ts Ht). lia. }
      clear IH Hts Hn. induction Hall as [|t ts Ht _ IHts]; [apply draws_none|]. cbn [map each existsb].
      by apply (draws_seq W H).
  - intros x y _. unfold S. cbn [tree_shape]. by rewrite Hi, negb_involutive.
  - intros p. cbn [render_widget]. by rewrite Hi.
Qed.

(** Rendering a context on a ready display lights exactly the dots of its visible
    widgets, backgrounds that are not white and names, below visible widgets; every
    other dot and the colours keep what they were, and nothing is drawn outside the
    buffers whatever the rectangles are. *)
Theorem ui_render_lights s c cx t d :
  wf s → ui_contexts s !! c = Some cx → cx_display cx = Some d → dp_initialized d = true →
  cx_root cx = Some (top t) → stored (graph s) None t →
  draws (U := U) W H (Bit true) (tree_shape s t) (ui_render W H (Some c) s).
Proof.
  intros Hw Hc Hd Hr Hroot Ht.
  assert (height t <= tree_fuel s)%nat as Hn.
  { pose proof (tree_size _ _ _ (wf_links s Hw) Ht) as Hsz. unfold graph in Hsz. rewrite map_size_fmap in Hsz. unfold tree_fuel. lia. }
  eapply draws_ext; [exact (render_tree d s t Hr (tree_fuel s) None Ht Hn)|done|].
  intros p. cbn [ui_render]. rewrite Hc. cbn [mbind option_bind]. by rewrite Hroot, Hd.
Qed.
End WidgetDraw.

Module DrawDemo.
Import WidgetDemo.
#[local] Existing Instance PanelRuns.no_bus.

(** A button of 6 by 7 with the focus, and a label with a text, on a panel of 16 by 8. *)
Definition screen : list call :=
  [NewContext true true true 16 8 16 8; SetDisplay 0 (Some (mk_display true 16 8));
   New (KButton None (Some 1)) true (Some 0%nat); SetRect 3 10 1 6 7; AddChild 2 3;
   New (KLabel (Some [73])) true (Some 0%nat); SetRect 4 0 0 6 0; AddChild 2 4; Focus 3].

Lemma ui_render_lights_witness :
  ∃ p', ui_render 16 8 (Some 0%nat) (after screen) PanelRuns.small = Some p' ∧
    mono 16 p' 10 1 = true ∧ mono 16 p' 9 1 = false ∧ mono 16 p' 2 3 = true ∧ mono 16 p' 0 3 = false.
Proof.
  destruct (ui_contexts (after screen) !! 0%nat) as [cx|] eqn:Hc; [|vm_compute in Hc; discriminate].
  assert (cx_root cx = Some 2%nat ∧ cx_display cx = Some (mk_display true 16 8)) as [Hr Hd]
    by (vm_compute in Hc; by injection Hc as <-).
  destruct (ui_render_lights 16 8 ltac:(lia) (after screen) 0 cx (Node 2 [Node 3 []; Node 4 []]) (mk_display true 16 8)
    ltac:(apply after_wf; vm_compute; reflexivity) Hc Hd eq_refl Hr
    ltac:(repeat (constructor; try (vm_compute; reflexivity))) PanelRuns.small) as (p' & Ep & _ & _ & Hl).
  { split_and!; vm_compute; reflexivity. }
  exists p'. split; [exact Ep|].
  assert (∀ x y b, on_panel 16 8 x y = true →
    (if tree_shape 16 8 (after screen) (Node 2 [Node 3 []; Node 4 []]) x y then ink_on (Bit true) (look 16 PanelRuns.small x y)
     else look 16 PanelRuns.small x y).1 = b → mono 16 p' x y = b) as Hm.
  { intros x y b Hon. rewrite <- (Hl x y Hon). done. }
  split; [|split; [|split]]; apply Hm; vm_compute; reflexivity.
Defined.
End DrawDemo.
