(* ===== verification/Menu.v ===== *)
(** * Menus, the status cluster and the header (apps/ui/components/, header_app.c)

    The canvas of an application in front, icons, the radio and battery signs, the header
    band, the catalog, menus as lists and as strips of icons, and what the launcher does
    with its menu.  They draw through FwUi and flush through Notify, so a screen is the
    panel with the notifications and the window behind it.

    The icon of an item is an address, 0 being that of [app_icon_default]; the icons of the
    applications are given by [app_icons].  [cv_fg] is the answer of
    [app_kit_is_foreground], which drawing does not change. *)

From Stdlib Require Import ZArith Lia String.
From stdpp Require Import base tactics option numbers list.
From S2P Require Import Prelude.
From S2P Require Import CString.
From S2P Require Import Runs.
From S2P Require Import Ssd1306.
From S2P Require Import Ssd1306Thm.
From S2P Require Import FwUi.
From S2P Require Import Notify.
From S2P Require Import NotifyThm.
From S2P Require Import NotifyCard.
From S2P Require Import SimGpio.
From S2P Require Import AppKit.
From S2P Require Import AppKitTables.

Definition APP_ICON_SIZE : Z := 16.
Definition APP_ICON_PITCH : Z := 28.
Definition APP_STATUS_WIDTH : Z := 28.
Definition APP_STATUS_REDRAW_MS : Z := 100.
Definition APP_STATUS_BAR_HOLD_MS : Z := 400.
Definition APP_HEADER_MIN_WIDTH : Z := 280.
Definition APP_HEADER_MIN_HEIGHT : Z := 150.
Definition APP_HEADER_BAND : Z := 25.
Definition APP_KIT_MENU_MAX : Z := 16.
Definition APP_MENU_ONE_UP : Z := -1.
Definition APP_MENU_ONE_DOWN : Z := 1.
Definition SIM_KEY_UP : Z := 1.
Definition SIM_KEY_DOWN : Z := 2.
Definition SIM_KEY_LEFT : Z := 3.
Definition SIM_KEY_RIGHT : Z := 4.

Definition APP_UI_RGB565 (r g b : Z) : Z :=
  u16 (Z.lor (Z.lor (Z.shiftl (Z.land r 0xF8) 8) (Z.shiftl (Z.land g 0xFC) 3))
         (Z.shiftr (Z.land b 0xF8) 3)).
Definition MENU_COLOR_WHITE : Z := APP_UI_RGB565 255 255 255.
Definition MENU_COLOR_BLACK : Z := APP_UI_RGB565 0 0 0.
Definition MENU_COLOR_CYAN : Z := APP_UI_RGB565 0 252 248.
Definition MENU_COLOR_ORANGE : Z := APP_UI_RGB565 255 160 0.

(** [(c >> 11) & 0x1F >> shift] and so on; the same code as [header_dim]. *)
Definition menu_dim_color (c shift : Z) : Z :=
  let r := Z.shiftr (Z.land (Z.shiftr c 11) 0x1F) shift in
  let g := Z.shiftr (Z.land (Z.shiftr c 5) 0x3F) shift in
  let b := Z.shiftr (Z.land c 0x1F) shift in
  u16 (Z.lor (Z.lor (Z.shiftl r 11) (Z.shiftl g 5)) b).

(** ** Icons *)

Definition app_icon_t : Type := list Z.
Definition default_rows : app_icon_t := 0x3FFC :: replicate 14 0x6006 ++ [0x3FFC].

(** The callbacks get whether the dot is on, and act on a state. *)
Definition pixel_fn (S : Type) : Type := Z → Z → bool → S → option S.

Section Blit.
Context {S : Type}.
Implicit Types (set_pixel : pixel_fn S) (s : S).

Definition dots set_pixel (x y : Z) (l : list (Z * Z)) : S → option S :=
  each (λ '(dx, dy), set_pixel (x + dx) (y + dy) true) l.

Definition app_icon_blit (x y : Z) (icon : app_icon_t) (selected : bool) (set_pixel : option (pixel_fn S))
    (scale : Z) s : option S :=
  match set_pixel with
  | None => Some s
  | Some set_pixel =>
    if scale <=? 0 then Some s else
    let size := APP_ICON_SIZE * scale in
    s ← (if selected then
           s ← for_z (-1) (size + 1) (λ c s,
                 s ← set_pixel (x + c) (y - 1) true s; set_pixel (x + c) (y + size) true s) s;
           for_z (-1) (size + 1) (λ r s,
             s ← set_pixel (x - 1) (y + r) true s; set_pixel (x + size) (y + r) true s) s
         else Some s);
    for_z 0 APP_ICON_SIZE (λ r s,
      bits ← rd icon r;
      for_z 0 APP_ICON_SIZE (λ c s,
        if bits_set bits (u16 (Z.shiftr 0x8000 c)) then
          for_z 0 scale (λ sr, for_z 0 scale (λ sc,
            set_pixel (x + c * scale + sc) (y + r * scale + sr) true)) s
        else Some s) s) s
  end.

(** ** The status cluster *)

Definition blit_battery (x y percent : Z) set_pixel s : option S :=
  let bars := Z.quot (percent + 24) 25 in
  let bars := if 4 <? bars then 4 else bars in
  s ← for_z 0 10 (λ bx s, s ← set_pixel (x + bx) y true s; set_pixel (x + bx) (y + 6) true s) s;
  s ← for_z 1 6 (λ by_ s, s ← set_pixel x (y + by_) true s; set_pixel (x + 9) (y + by_) true s) s;
  s ← dots set_pixel x y [(10, 2); (10, 3); (10, 4)] s;
  for_z 0 bars (λ i s,
    let fx := x + 2 + i * 2 in
    for_z 2 5 (λ by_ s, s ← set_pixel fx (y + by_) true s; set_pixel (fx + 1) (y + by_) true s) s) s.

Definition blit_wifi (x y bars : Z) (up : bool) set_pixel s : option S :=
  if negb up then
    dots set_pixel x y [(1, 0); (2, 0); (3, 0); (4, 0); (5, 0); (0, 1); (6, 1); (5, 1); (4, 2); (3, 3); (2, 4); (1, 5)] s
  else
    s ← (if 4 <=? bars then dots set_pixel x y [(1, 0); (2, 0); (3, 0); (4, 0); (5, 0); (0, 1); (6, 1)] s else Some s);
    s ← (if 3 <=? bars then dots set_pixel x y [(2, 2); (4, 2)] s else Some s);
    s ← (if 2 <=? bars then dots set_pixel x y [(3, 3)] s else Some s);
    if 1 <=? bars then dots set_pixel x y [(3, 4); (3, 5)] s else Some s.

Definition k_height : list Z := [2; 3; 5; 7].
Definition blit_signal (x y bars : Z) set_pixel s : option S :=
  let bars := if bars <? 0 then 0 else bars in
  let bars := if 4 <? bars then 4 else bars in
  for_z 0 4 (λ i s,
    h ← (if i <? bars then rd k_height i else Some 1);
    for_z (7 - h) 7 (λ dy, set_pixel (x + i * 2) (y + dy) true) s) s.
End Blit.

Inductive app_status_link_t := APP_STATUS_LINK_OFF | APP_STATUS_LINK_DOWN | APP_STATUS_LINK_UP.
#[export] Instance app_status_link_eq_dec : EqDecision app_status_link_t.
Proof. solve_decision. Defined.

(** [link_done]: the static of [ensure_sim_link]. *)
Record status_t := mk_status { g_battery_percent : Z; g_link : app_status_link_t; g_rssi : Z; link_done : bool }.
Definition status_zero : status_t := mk_status 100 APP_STATUS_LINK_OFF (-127) false.

Definition app_status_set_battery_percent (percent : Z) (t : status_t) : status_t :=
  let percent := if percent <? 0 then 0 else percent in
  let percent := if 100 <? percent then 100 else percent in
  mk_status percent (g_link t) (g_rssi t) (link_done t).
Definition app_status_set_link (link : app_status_link_t) (rssi_dbm : Z) (t : status_t) : status_t :=
  mk_status (g_battery_percent t) link rssi_dbm (link_done t).

Definition app_status_redraw_due (now_ms last_paint_ms : Z) (have_painted : bool) : bool :=
  if negb have_painted || (APP_STATUS_REDRAW_MS =? 0) then true
  else APP_STATUS_REDRAW_MS <=? u32 (now_ms - last_paint_ms).

(** The result, [*pending] and [*since_ms]; the pointers are not NULL. *)
Definition app_status_stable_bars (shown proposed now_ms pending since_ms : Z) : Z * Z * Z :=
  if proposed =? shown then (shown, shown, since_ms) else
  if negb (pending =? proposed) then (shown, proposed, now_ms) else
  if APP_STATUS_BAR_HOLD_MS <=? u32 (now_ms - since_ms) then (proposed, pending, since_ms)
  else (shown, pending, since_ms).

Definition app_status_signal_bars (link : app_status_link_t) (rssi_dbm : Z) : Z :=
  if negb (bool_decide (link = APP_STATUS_LINK_UP)) then 0 else
  if -55 <=? rssi_dbm then 4 else if -67 <=? rssi_dbm then 3 else if -75 <=? rssi_dbm then 2 else 1.

Definition app_status_blit {S : Type} (display_w battery_percent : Z) (link : app_status_link_t) (rssi_dbm : Z)
    (set_pixel : option (pixel_fn S)) (s : S) : option S :=
  match set_pixel with
  | None => Some s
  | Some set_pixel =>
    if display_w <? APP_STATUS_WIDTH then Some s else
    let up := bool_decide (link = APP_STATUS_LINK_UP) in
    let bars := app_status_signal_bars link rssi_dbm in
    s ← blit_wifi (display_w - 28) 0 bars up set_pixel s;
    s ← blit_signal (display_w - 20) 0 bars set_pixel s;
    blit_battery (display_w - 12) 0 battery_percent set_pixel s
  end.

(** [wifi]: without credentials [None]; else the strength when joining the network worked. *)
Definition ensure_sim_link (wifi : option (option Z)) (t : status_t) : status_t :=
  if link_done t then t else
  let t := mk_status (g_battery_percent t) (g_link t) (g_rssi t) true in
  match wifi with
  | Some (Some rssi) => app_status_set_link APP_STATUS_LINK_UP rssi t
  | Some None => app_status_set_link APP_STATUS_LINK_DOWN (-127) t
  | None => app_status_set_link APP_STATUS_LINK_OFF (-127) t
  end.

(** ** The layout of an application's screen (app_ui.h) *)

Record app_ui_config_t := mk_ui {
  ui_mode : Z; ui_content_x : Z; ui_content_y : Z; ui_content_w : Z; ui_content_h : Z; ui_text_scale : Z
}.

(** The canvas of an app. *)
Record app_canvas := mk_canvas {
  cv_dirty : bool; cv_fg : bool; cv_display : app_display_t; cv_ui : app_ui_config_t
}.

Section Menu.
(** [APP_DISPLAY_WIDTH] and [APP_DISPLAY_HEIGHT], the window, and the icons of the apps. *)
Context (W H : Z) {U : Type} `{SimI2c U} {E : Type} `{NotifyEnv E} (sim_w sim_h : Z)
  (app_icons : Z → app_icon_t).

Definition icon_rows (icon : Z) : app_icon_t := if icon =? app_icon_default then default_rows else app_icons icon.

Definition ARDUBOT_UI_PADDING : Z := if 64 <? H then 16 else 0.
Definition app_header_height : Z :=
  if (W <? APP_HEADER_MIN_WIDTH) || (H <? APP_HEADER_MIN_HEIGHT) then 0 else APP_HEADER_BAND.

Definition app_ui_config_ui : app_ui_config_t :=
  let text_scale := if 64 <? H then 2 else 1 in
  let bar_h := 8 * text_scale in
  let pad := ARDUBOT_UI_PADDING in
  mk_ui APP_UI_MODE_UI pad (app_header_height + bar_h + pad) (W - 2 * pad) (H - bar_h - pad) text_scale.
Definition app_ui_config_game : app_ui_config_t := mk_ui APP_UI_MODE_GAME 0 0 W H (if 64 <? H then 2 else 1).

(** The app that draws, [None] for a NULL pointer; the panel; the notifications; the status; whether
    the header shows; and the memory of the window. *)
Record screen := mk_screen {
  sn_app : option app_canvas; sn_panel : panel U; sn_notes : notify_state E; sn_status : status_t;
  sn_header : bool; sn_pixels : option (list Z)
}.
Implicit Types (s : screen) (p : panel U) (disp : option app_display_t).

Definition with_panel p s : screen :=
  mk_screen (sn_app s) p (sn_notes s) (sn_status s) (sn_header s) (sn_pixels s).
Definition with_status (t : status_t) s : screen :=
  mk_screen (sn_app s) (sn_panel s) (sn_notes s) t (sn_header s) (sn_pixels s).
Definition with_app (a : option app_canvas) s : screen :=
  mk_screen a (sn_panel s) (sn_notes s) (sn_status s) (sn_header s) (sn_pixels s).
Definition header_app_set_visible (visible : bool) s : screen :=
  mk_screen (sn_app s) (sn_panel s) (sn_notes s) (sn_status s) visible (sn_pixels s).

(** ** The header band *)

(** [%02u:%02u] *)
Definition clock_text (up_s : Z) : list Z :=
  let two n := if n <? 10 then 48 :: fmt_d n else fmt_d n in
  two (Z.rem (Z.quot up_s 60) 100) ++ 58 :: two (Z.rem up_s 60).

Definition app_header_draw (battery now_ms : Z) disp p : option (panel U) :=
  if negb (ready disp) || (app_header_height <=? 0) then Some p else
  let white := MENU_COLOR_WHITE in
  p ← app_display_fill_rect_color W H disp 0 0 W APP_HEADER_BAND 0 MENU_COLOR_BLACK p;
  p ← app_display_draw_rect_color W H disp 6 5 26 14 2 white p;
  p ← app_display_fill_rect_color W H disp 32 9 3 6 0 white p;
  let level := Z.quot (battery * 4) 100 in
  p ← for_z 0 4 (λ i,
        app_display_fill_rect_color W H disp (9 + i * 5) 8 3 8 0
          (if i <? level then white else menu_dim_color white 3)) p;
  let clock_buf := row 8 (clock_text (u32 (Z.quot now_ms 1000))) in
  p ← app_display_text_color W H disp (Z.quot (W - app_display_text_width (Some clock_buf) 2) 2) 5
        (Some clock_buf) 2 white p;
  app_display_hline_color W H disp 0 (APP_HEADER_BAND - 1) W (menu_dim_color white 4) p.

Definition header_app_composite s disp p : option (panel U) :=
  if negb (sn_header s) then Some p
  else app_header_draw (g_battery_percent (sn_status s)) (time_now_ms (nt_env (sn_notes s))) disp p.

(** ** The canvas (canvas.c): only the app in front draws *)

Definition mark (dirty : bool) s : screen :=
  match sn_app s with
  | Some a => with_app (Some (mk_canvas dirty (cv_fg a) (cv_display a) (cv_ui a))) s
  | None => s
  end.
Definition canvas_mark_dirty s : screen := mark true s.
Definition app_clear_dirty s : screen := mark false s.
Definition app_is_dirty s : bool := match sn_app s with Some a => cv_dirty a | None => false end.

Definition on_canvas (draw : option app_display_t → panel U → option (panel U)) s : option screen :=
  match sn_app s with
  | Some a => if cv_fg a then p ← draw (Some (cv_display a)) (sn_panel s); Some (with_panel p s) else Some s
  | None => Some s
  end.
(** [if (!text) return;] *)
Definition with_text (text : option (list Z)) (draw : list Z → screen → option screen) s : option screen :=
  match text with Some t => draw t s | None => Some s end.

Definition app_clear : screen → option screen := on_canvas (λ disp p, Some (app_display_clear disp p)).
Definition app_text (x y : Z) (text : option (list Z)) : screen → option screen :=
  with_text text (λ t, on_canvas (λ disp, app_display_text W H disp x y (Some t))).
(** [text] is what the format prints, of any length. *)
Definition app_textf (x y : Z) (text : option (list Z)) : screen → option screen :=
  with_text text (λ t, on_canvas (λ disp, app_display_text W H disp x y (Some (row 96 t)))).
Definition app_pixel (x y : Z) (on : bool) : screen → option screen :=
  on_canvas (λ disp, app_display_pixel W H disp x y on).
Definition app_pixel_color (x y rgb565 : Z) : screen → option screen :=
  on_canvas (λ disp, app_display_pixel_color W H disp x y rgb565).
Definition app_fill_rect_color (x y w h radius rgb565 : Z) : screen → option screen :=
  on_canvas (λ disp, app_display_fill_rect_color W H disp x y w h radius rgb565).
Definition app_draw_rect_color (x y w h radius rgb565 : Z) : screen → option screen :=
  on_canvas (λ disp, app_display_draw_rect_color W H disp x y w h radius rgb565).
Definition app_fill_circle_color (cx cy r rgb565 : Z) : screen → option screen :=
  on_canvas (λ disp, app_display_fill_circle_color W H disp cx cy r rgb565).
Definition app_hline_color (x y w rgb565 : Z) : screen → option screen :=
  on_canvas (λ disp, app_display_hline_color W H disp x y w rgb565).
Definition app_text_color (x y : Z) (text : option (list Z)) (scale rgb565 : Z) : screen → option screen :=
  with_text text (λ t, on_canvas (λ disp, app_display_text_color W H disp x y (Some t) scale rgb565)).
Definition app_text_width (text : option (list Z)) (scale : Z) : Z := app_display_text_width text scale.

Definition app_flush s : option screen :=
  match sn_app s with
  | Some a =>
    if cv_fg a then
      '(pixels, n, p) ← app_display_flush W H (header_app_composite s) (sn_pixels s) sim_w sim_h
                          (Some (cv_display a)) (sn_notes s) (sn_panel s);
      Some (app_clear_dirty (mk_screen (sn_app s) p n (sn_status s) (sn_header s) pixels))
    else Some s
  | None => Some s
  end.

Definition status_set_pixel : pixel_fn screen := λ x y on s, if on then app_pixel x y true s else Some s.
(** The build with the SDL window; [wifi] as for [ensure_sim_link]. *)
Definition app_status_draw (wifi : option (option Z)) s : option screen :=
  match sn_app s with
  | Some a =>
    if negb (cv_fg a) then Some s else
    let s := with_status (ensure_sim_link wifi (sn_status s)) s in
    let t := sn_status s in
    app_status_blit W (g_battery_percent t) (g_link t) (g_rssi t) (Some status_set_pixel) s
  | None => Some s
  end.

(** screen.c *)
Definition app_screen_begin (title : option (list Z)) s : option (bool * screen) :=
  if negb (app_is_dirty s) then Some (false, s) else
  s ← app_clear s;
  s ← app_text 0 0 title s;
  Some (true, s).
Definition app_screen_end (wifi : option (option Z)) s : option screen :=
  match sn_app s with
  | None => Some s
  | Some _ => s ← app_status_draw wifi s; s ← app_flush s; Some (app_clear_dirty s)
  end.

(** ** The catalog (catalog.c) *)

Record app_catalog_entry_t := mk_entry { ce_name : list Z; ce_type : Z; ce_icon : Z }.

Definition app_type_tag (type : Z) : list Z :=
  if type =? 1 then str "[SYS]" else if type =? 0 then str "[USR]" else
  if type =? 2 then str "[GME]" else if type =? 3 then str "[TOL]" else [].

(** The entries in use, in order.  [apps]: names and types of the apps that [app_list] gives. *)
Fixpoint catalog_loop (exclude_name : option (list Z)) (icons : icon_table) (apps : list (list Z * Z))
    (catalog : list app_catalog_entry_t) : option (list app_catalog_entry_t) :=
  match apps with
  | [] => Some catalog
  | (name, type) :: apps =>
    if APP_KIT_MENU_MAX <=? blen catalog then Some catalog else
    if str_eq name [] then catalog_loop exclude_name icons apps catalog else
    if match exclude_name with Some e => str_eq name e | None => false end
    then catalog_loop exclude_name icons apps catalog else
    icon ← app_kit_get_icon (Some name) icons;
    catalog_loop exclude_name icons apps (catalog ++ [mk_entry name type icon])
  end.
(** [apps] is [None] when [app_list] fails. *)
Definition app_kit_catalog_build (exclude_name : option (list Z)) (icons : icon_table)
    (apps : option (list (list Z * Z))) : option (Z * list app_catalog_entry_t) :=
  match apps with
  | None => Some (-1, [])
  | Some apps =>
    catalog ← catalog_loop exclude_name icons (take (Z.to_nat APP_KIT_MENU_MAX) apps) [];
    Some (blen catalog, catalog)
  end.
Definition app_kit_catalog_at (catalog : list app_catalog_entry_t) (index : Z) : option app_catalog_entry_t :=
  if (index <? 0) || (blen catalog <=? index) then None else rd catalog index.

(** ** Menus (menu.c) *)

Inductive app_menu_layout_t := APP_MENU_LAYOUT_LIST | APP_MENU_LAYOUT_ICONS.
#[export] Instance app_menu_layout_eq_dec : EqDecision app_menu_layout_t.
Proof. solve_decision. Defined.

Record app_menu_item_t := mk_item {
  mi_id : option (list Z); mi_label : option (list Z); mi_tag : option (list Z); mi_icon : option Z
}.
Record app_menu_t := mk_menu {
  mn_items : list app_menu_item_t; mn_count : Z; mn_selected : Z; mn_first_visible : Z;
  mn_start_y : Z; mn_row_h : Z; mn_layout : app_menu_layout_t
}.
Implicit Types (m : app_menu_t).

Definition app_menu_init (menu : option app_menu_t) (start_y row_h : Z) : option app_menu_t :=
  match menu with
  | None => None
  | Some _ =>
    Some (mk_menu (replicate (Z.to_nat APP_KIT_MENU_MAX) (mk_item None None None None)) 0 0 0
            (if 0 <? start_y then start_y else 16) (if 0 <? row_h then row_h else 12) APP_MENU_LAYOUT_LIST)
  end.

Definition app_menu_set_icon_strip (menu : option app_menu_t) : option app_menu_t :=
  m ← menu;
  Some (mk_menu (mn_items m) (mn_count m) (mn_selected m) 0 (mn_start_y m) (mn_row_h m) APP_MENU_LAYOUT_ICONS).

Definition app_menu_clear (menu : option app_menu_t) : option app_menu_t :=
  m ← menu; Some (mk_menu (mn_items m) 0 0 0 (mn_start_y m) (mn_row_h m) (mn_layout m)).

(** The result and the menu; the outer [None] is a write outside the items. *)
Definition app_menu_add (menu : option app_menu_t) (id label tag : option (list Z)) (icon : option Z)
    : option (Z * option app_menu_t) :=
  match menu, id, label with
  | Some m, Some _, Some _ =>
    if APP_KIT_MENU_MAX <=? mn_count m then Some (-1, menu) else
    l ← wr (mn_items m) (mn_count m) (mk_item id label tag (Some (default app_icon_default icon)));
    Some (0, Some (mk_menu l (mn_count m + 1) (mn_selected m) (mn_first_visible m) (mn_start_y m) (mn_row_h m)
                     (mn_layout m)))
  | _, _, _ => Some (-1, menu)
  end.

(** [n] entries from the index [i]. *)
Fixpoint load_loop (n : nat) (i : Z) (catalog : list app_catalog_entry_t) (menu : option app_menu_t)
    : option (option app_menu_t) :=
  match n with
  | O => Some menu
  | S n =>
    match app_kit_catalog_at catalog i with
    | None => Some menu
    | Some e =>
      '(r, menu') ← app_menu_add menu (Some (ce_name e)) (Some (ce_name e)) (Some (app_type_tag (ce_type e)))
                      (Some (ce_icon e));
      if negb (r =? 0) then Some menu' else load_loop n (i + 1) catalog menu'
    end
  end.
Definition app_menu_load_catalog (catalog : list app_catalog_entry_t) (menu : option app_menu_t)
    : option (Z * option app_menu_t) :=
  match menu with
  | None => Some (-1, menu)
  | Some _ =>
    menu ← load_loop (length catalog) 0 catalog (app_menu_clear menu);
    Some (match menu with Some m => mn_count m | None => -1 end, menu)
  end.

Definition app_menu_visible_rows (menu : option app_menu_t) : Z :=
  match menu with
  | None => 0
  | Some m =>
    if mn_row_h m <=? 0 then 0 else
    let avail := H - mn_start_y m - 8 in
    let rows := Z.quot avail (mn_row_h m) in
    let rows := if rows <? 0 then 0 else rows in
    if mn_count m <? rows then mn_count m else rows
  end.

(** [while (n < 0) n += count; while (n >= count) n -= count;] with as many rounds as there can be
    when the menu has an item; with none the code never leaves its loop. *)
Fixpoint wrap_up (fuel : nat) (count n : Z) : option Z :=
  if n <? 0 then match fuel with O => None | S fuel => wrap_up fuel count (n + count) end else Some n.
Fixpoint wrap_down (fuel : nat) (count n : Z) : option Z :=
  if count <=? n then match fuel with O => None | S fuel => wrap_down fuel count (n - count) end else Some n.
Definition wrap_index (count n : Z) : option Z :=
  n ← wrap_up (Z.to_nat (- n)) count n; wrap_down (Z.to_nat n) count n.

(** [a + b] of type [int]. *)
Definition int_add (a b : Z) : option Z :=
  if (- 2 ^ 31 <=? a + b) && (a + b <? 2 ^ 31) then Some (a + b) else None.

(** The window of a list moves to the selected item. *)
Definition scroll_to (selected first_visible visible : Z) : Z :=
  if 0 <? visible then
    if selected <? first_visible then selected else
    if first_visible + visible <=? selected then selected - visible + 1 else first_visible
  else first_visible.
Definition select (next visible : Z) m : app_menu_t :=
  mk_menu (mn_items m) (mn_count m) next
    (if bool_decide (mn_layout m = APP_MENU_LAYOUT_ICONS) then mn_first_visible m
     else scroll_to next (mn_first_visible m) visible)
    (mn_start_y m) (mn_row_h m) (mn_layout m).

Definition app_menu_move (menu : option app_menu_t) (delta : Z) s : option (bool * option app_menu_t * screen) :=
  match menu with
  | None => Some (false, menu, s)
  | Some m =>
    if (mn_count m <=? 0) || (delta =? 0) then Some (false, menu, s) else
    next ← int_add (mn_selected m) delta;
    next ← wrap_index (mn_count m) next;
    if next =? mn_selected m then Some (false, menu, s) else
    Some (true, Some (select next (app_menu_visible_rows menu) m), canvas_mark_dirty s)
  end.

(** app_ui.c: the same over the content box of the app; [app->ctx] is the app of the screen. *)
Definition app_ui_menu_move (menu : option app_menu_t) (delta : Z) s : option (option app_menu_t * screen) :=
  match sn_app s, menu with
  | Some a, Some m =>
    if (mn_count m <=? 0) || (delta =? 0) then Some (menu, s) else
    next ← int_add (mn_selected m) delta;
    next ← wrap_index (mn_count m) next;
    if next =? mn_selected m then Some (menu, s) else
    visible ← (if bool_decide (mn_layout m = APP_MENU_LAYOUT_ICONS) then Some 0 else
               if mn_row_h m =? 0 then None else
               let avail := ui_content_h (cv_ui a) - mn_start_y m - 8 in
               let rows := Z.quot avail (mn_row_h m) in
               let rows := if rows <? 0 then 0 else rows in
               Some (if mn_count m <? rows then mn_count m else rows));
    Some (Some (select next visible m), canvas_mark_dirty s)
  | _, _ => Some (menu, s)
  end.
Definition app_ui_menu_nav_next (menu : option app_menu_t) := app_ui_menu_move menu APP_MENU_ONE_DOWN.
Definition app_ui_menu_nav_prev (menu : option app_menu_t) := app_ui_menu_move menu APP_MENU_ONE_UP.

Definition app_menu_selected (menu : option app_menu_t) : option (option app_menu_item_t) :=
  match menu with
  | None => Some None
  | Some m =>
    if (mn_selected m <? 0) || (mn_count m <=? mn_selected m) then Some None
    else i ← rd (mn_items m) (mn_selected m); Some (Some i)
  end.

(** *** Drawing *)

Definition menu_icon_set_pixel : pixel_fn screen := status_set_pixel.
Definition menu_icon_set_pixel_color (color : Z) : pixel_fn screen :=
  λ px py on s, if on then app_pixel_color px py color s else Some s.
(** [icon ? icon : &app_icon_default] *)
Definition item_rows (i : app_menu_item_t) : app_icon_t := icon_rows (default app_icon_default (mi_icon i)).
Definition label_of (sel : option app_menu_item_t) : option (list Z) := i ← sel; mi_label i.
Definition tag_of (sel : option app_menu_item_t) : option (list Z) := i ← sel; mi_tag i.

(** The strip on a small panel. *)
Definition draw_strip (wifi : option (option Z)) m (title : option (list Z)) (sel : option app_menu_item_t)
    (scale : Z) s : option screen :=
  let icon_size := APP_ICON_SIZE * scale in
  let icon_pitch := APP_ICON_PITCH * scale in
  let center_x := Z.quot W 2 - Z.quot (APP_ICON_SIZE * scale) 2 in
  if icon_pitch =? 0 then None else
  let side := Z.quot (Z.quot (W - APP_STATUS_WIDTH) icon_pitch) 2 in
  let side := if side <? 1 then 1 else side in
  s ← app_clear s;
  s ← app_text 0 0 title s;
  s ← for_z (- side) (side + 1) (λ off s,
        idx ← wrap_index (mn_count m) (mn_selected m + off);
        let x := center_x + off * icon_pitch in
        if (W - APP_STATUS_WIDTH <? x + icon_size) && negb (off =? 0) then Some s else
        i ← rd (mn_items m) idx;
        app_icon_blit x (8 * scale) (item_rows i) (off =? 0) (Some menu_icon_set_pixel) scale s) s;
  s ← match label_of sel with
      | Some label =>
        let lx := Z.quot (W - blen label * 6) 2 in
        app_text (if lx <? 0 then 0 else lx) (24 * scale) (Some label) s
      | None => Some s
      end;
  s ← app_status_draw wifi s;
  app_flush s.

(** One of the three cards. *)
Definition draw_card m (slot : Z) s : option screen :=
  let tile_gap := 12 in let side_w := 54 in let side_h := 70 in let center_w := 140 in let center_h := 85 in
  let row_mid := 25 + Z.quot (108 - 25) 2 in
  let center_x := Z.quot (W - center_w) 2 in
  idx ← wrap_index (mn_count m) (mn_selected m + (slot - 1));
  let is_sel := slot =? 1 in
  let x := if slot =? 0 then center_x - tile_gap - side_w
           else if is_sel then center_x else center_x + center_w + tile_gap in
  let w := if is_sel then center_w else side_w in
  let h := if is_sel then center_h else side_h in
  let y := row_mid - Z.quot h 2 in
  s ← (if is_sel then app_fill_rect_color x y w h 10 MENU_COLOR_CYAN s
       else s ← app_fill_rect_color x y w h 10 MENU_COLOR_BLACK s;
            app_draw_rect_color x y w h 10 (menu_dim_color MENU_COLOR_WHITE 3) s);
  let icon_size := if is_sel then 4 else 3 in
  let icon_x := x + Z.quot (w - APP_ICON_SIZE * icon_size) 2 in
  let icon_y := y + Z.quot (h - APP_ICON_SIZE * icon_size) 2 in
  let color := if is_sel then MENU_COLOR_BLACK else menu_dim_color MENU_COLOR_WHITE 2 in
  i ← rd (mn_items m) idx;
  app_icon_blit icon_x icon_y (item_rows i) false (Some (menu_icon_set_pixel_color color)) icon_size s.

(** The carousel of cards. *)
Definition draw_cards m (sel : option app_menu_item_t) s : option screen :=
  let dim := menu_dim_color MENU_COLOR_WHITE in
  let row_mid := 25 + Z.quot (108 - 25) 2 in
  let center_x := Z.quot (W - 140) 2 in
  s ← app_clear s;
  s ← for_z 0 3 (draw_card m) s;
  s ← app_text_color (Z.quot 24 2 - 3) (row_mid - 3) (Some (str "<")) 2 (dim 2) s;
  s ← app_text_color (W - Z.quot 24 2 - 9) (row_mid - 3) (Some (str ">")) 2 (dim 2) s;
  let dots_w := (mn_count m - 1) * 10 in
  let dx := center_x + Z.quot 140 2 - Z.quot dots_w 2 in
  let bottom := row_mid - Z.quot 85 2 + 85 in
  s ← for_z 0 (mn_count m) (λ i,
        app_fill_circle_color (dx + i * 10) (bottom + 7) (if i =? mn_selected m then 3 else 2)
          (if i =? mn_selected m then MENU_COLOR_CYAN else dim 3)) s;
  s ← with_text (label_of sel)
        (λ t, app_text_color (Z.quot (W - app_text_width (Some t) 2) 2) 120 (Some t) 2 MENU_COLOR_WHITE) s;
  s ← with_text (tag_of sel)
        (λ t, app_text_color (Z.quot (W - app_text_width (Some t) 1) 2) 142 (Some t) 1 (dim 2)) s;
  s ← app_hline_color 0 152 W (dim 4) s;
  s ← app_draw_rect_color 16 155 16 16 3 MENU_COLOR_ORANGE s;
  s ← app_text_color 21 159 (Some (str "A")) 1 MENU_COLOR_ORANGE s;
  s ← app_text_color 38 158 (Some (str "Next")) 2 MENU_COLOR_ORANGE s;
  let label := Some (str "Open") in
  let box_x := W - 16 - 16 - 6 - app_text_width label 2 in
  s ← app_draw_rect_color box_x 155 16 16 3 MENU_COLOR_CYAN s;
  s ← app_text_color (box_x + 5) 159 (Some (str "B")) 1 MENU_COLOR_CYAN s;
  s ← app_text_color (box_x + 16 + 6) 158 label 2 MENU_COLOR_CYAN s;
  app_flush s.

Definition app_menu_draw_icons (wifi : option (option Z)) m (title : option (list Z)) s : option screen :=
  a ← sn_app s;
  sel ← app_menu_selected (Some m);
  if (W <? 280) || (H <? 150) then draw_strip wifi m title sel (ui_text_scale (cv_ui a)) s
  else draw_cards m sel s.

(** A row of a list. *)
Definition draw_row m (i : Z) s : option screen :=
  let idx := mn_first_visible m + i in
  it ← rd (mn_items m) idx;
  let is_sel := idx =? mn_selected m in
  let y := mn_start_y m + i * mn_row_h m in
  s ← (if is_sel then app_fill_rect_color 0 y W (mn_row_h m) 0 MENU_COLOR_CYAN s else Some s);
  let line := row 40 ((if is_sel then 62 else 32) :: 32 :: default (str "?") (mi_label it)) in
  s ← app_text_color 0 y (Some line) 1 (if is_sel then MENU_COLOR_BLACK else MENU_COLOR_WHITE) s;
  app_text_color 72 y (mi_tag it) 1 (if is_sel then MENU_COLOR_BLACK else menu_dim_color MENU_COLOR_WHITE 2) s.

(** The rows, until an index outside the menu ([break]). *)
Definition draw_rows m (visible : Z) : screen → option screen :=
  for_while (Z.to_nat visible) 0
    (λ i, negb ((mn_first_visible m + i <? 0) || (mn_count m <=? mn_first_visible m + i))) (draw_row m).

Definition app_menu_draw (wifi : option (option Z)) (menu : option app_menu_t) (title help : option (list Z)) s
    : option screen :=
  match sn_app s, menu with
  | Some _, Some m =>
    if bool_decide (mn_layout m = APP_MENU_LAYOUT_ICONS) then app_menu_draw_icons wifi m title s else
    let visible := app_menu_visible_rows menu in
    s ← app_clear s;
    s ← app_text_color 0 0 title 1 MENU_COLOR_CYAN s;
    s ← draw_rows m visible s;
    let help_y := mn_start_y m + visible * mn_row_h m in
    s ← (if help_y <=? H - 8 then app_text_color 0 help_y help 1 (menu_dim_color MENU_COLOR_WHITE 4) s else Some s);
    s ← app_status_draw wifi s;
    app_flush s
  | _, _ => Some s
  end.

(** *** The launcher's menu (launcher_app.c) *)

Definition launcher_ready (has_state : bool) (catalog : list app_catalog_entry_t) (g_menu : app_menu_t)
    : option (option app_menu_t) :=
  let keep := mn_selected g_menu in
  let menu := if H <=? 32 then app_menu_init (Some g_menu) 8 10
              else app_menu_set_icon_strip (app_menu_init (Some g_menu) 8 8) in
  '(_, menu) ← app_menu_load_catalog catalog menu;
  Some (m ← menu;
        Some (if has_state && (0 <=? keep) && (keep <? mn_count m)
              then mk_menu (mn_items m) (mn_count m) keep (mn_first_visible m) (mn_start_y m) (mn_row_h m) (mn_layout m)
              else m)).
End Menu.
Arguments screen : clear implicits.

(** *** Keys, over the kit: [prev] and [next] are [menu_nav_prev] and [menu_nav_next], [user] the menu. *)
Section Keys.
Context {Fn O : Type} `{KitOs O}.
Definition app_menu_bind_nav (gpio_ok : Z → bool) (app : option nat) (menu : bool) (prev next : Fn) (user : Z)
    (w : gpio_state (kit_cb Fn) (kit_state Fn O)) : option (Z * gpio_state (kit_cb Fn) (kit_state Fn O)) :=
  if negb (bool_decide (app ≠ None)) || negb menu then Some (-1, w) else
  '(r, w) ← app_bind_key (gpio_ok 0) app SIM_KEY_UP (Some prev) user w;
  if negb (r =? 0) then Some (-1, w) else
  '(r, w) ← app_bind_key (gpio_ok 1) app SIM_KEY_DOWN (Some next) user w;
  if negb (r =? 0) then Some (-1, w) else
  '(r, w) ← app_bind_key (gpio_ok 2) app SIM_KEY_RIGHT (Some next) user w;
  if negb (r =? 0) then Some (-1, w) else
  '(r, w) ← app_bind_key (gpio_ok 3) app SIM_KEY_LEFT (Some prev) user w;
  if negb (r =? 0) then Some (-1, w) else Some (0, w).
End Keys.
