(* ===== verification/MenuThm.v ===== *)
(** * Menus are safe and show what is selected

    Every sequence of menu calls leaves the selection on an item and, in a list, the
    selected row among the visible ones; drawing returns whatever the sizes are; and the
    colours of a drawn list are those of its strokes. *)

From Stdlib Require Import ZArith Lia String.
From stdpp Require Import base tactics option numbers list.
From S2P Require Import Prelude.
From S2P Require Import CString.
From S2P Require Import Tables.
From S2P Require Import Runs.
From S2P Require Import Ssd1306.
From S2P Require Import Ssd1306Thm.
From S2P Require Import FwUi.
From S2P Require Import Notify.
From S2P Require Import NotifyThm.
From S2P Require Import NotifyCard.
From S2P Require Import AppKitTables.
From S2P Require Import Menu.

Create HintDb canvas.

(** ** Going round *)

Lemma wrap_down_mod count : 0 < count →
  ∀ fuel n, 0 <= n → (Z.to_nat n <= fuel)%nat → wrap_down fuel count n = Some (n mod count).
Proof.
  intros Hc. induction fuel as [|fuel IH]; intros n Hn Hf; cbn [wrap_down].
  - rewrite Z.mod_small by lia. by zbool.
  - destruct (Z.leb_spec count n); [|by rewrite Z.mod_small by lia]. rewrite IH by lia. f_equal.
    rewrite <- (Z_mod_plus_full (n - count) 1 count). f_equal. lia.
Qed.

Lemma wrap_up_mod count : 0 < count →
  ∀ fuel n, (Z.to_nat (- n) <= fuel)%nat → ∃ r, wrap_up fuel count n = Some r ∧ 0 <= r ∧ r mod count = n mod count.
Proof.
  intros Hc. induction fuel as [|fuel IH]; intros n Hf; cbn [wrap_up].
  - exists n. zbool. split_and!; [done|lia|done].
  - destruct (Z.ltb_spec n 0); [|by exists n]. destruct (IH (n + count)) as (r & E & Hr & Em); [lia|].
    exists r. split_and!; [done..|]. rewrite Em. rewrite <- (Z_mod_plus_full n 1 count). f_equal. lia.
Qed.

(** The two loops compute the remainder, in as many rounds as they have fuel for. *)
Lemma wrap_index_mod count n : 0 < count → wrap_index count n = Some (n mod count).
Proof.
  intros Hc. unfold wrap_index. destruct (wrap_up_mod count Hc (Z.to_nat (- n)) n) as (r & -> & Hr & <-); [done|].
  cbn [mbind option_bind]. by apply wrap_down_mod.
Qed.

(** With no item the loop never ends: no number of rounds is enough. *)
Lemma wrap_empty fuel n : (n < 0 → wrap_up fuel 0 n = None) ∧ (0 <= n → wrap_down fuel 0 n = None).
Proof.
  split; intros Hn; induction fuel as [|fuel IH]; cbn [wrap_up wrap_down]; zbool; try done.
  - by rewrite Z.add_0_r.
  - by rewrite Z.sub_0_r.
Qed.

Section MenuThm.
Context (W H : Z) {U : Type} `{SimI2c U} {E : Type} `{NotifyEnv E} (sim_w sim_h : Z)
  (app_icons : Z → app_icon_t).
Context (HW : 0 < W) (HH : 8 <= H) (Hsw : 0 <= sim_w) (Hsh : 0 <= sim_h)
  (icons_ok : ∀ a, length (app_icons a) = 16%nat).
#[local] Abbreviation screen := (screen U E).
Implicit Types (s : screen) (p : panel U) (m : app_menu_t).

(** ** The screen *)

Definition pixels_ok (px : option (list Z)) : Prop :=
  match px with Some px => blen px = sim_w * sim_h | None => True end.
Definition screen_ok s : Prop :=
  panel_ok W H (sn_panel s) ∧ state_inv W H (sn_notes s) ∧ pixels_ok (sn_pixels s).
(** What drawing leaves alone: everything but the panel and the link in the status. *)
Definition frame s s' : Prop :=
  sn_app s' = sn_app s ∧ sn_notes s' = sn_notes s ∧ sn_header s' = sn_header s ∧ sn_pixels s' = sn_pixels s.

(** [D] returns, and relates the panels by [K]. *)
Definition safe (K : relation (panel U)) (D : screen → option screen) : Prop :=
  ∀ s, screen_ok s → ∃ s', D s = Some s' ∧ screen_ok s' ∧ frame s s' ∧ K (sn_panel s) (sn_panel s').

Section Safe.
Context (K : relation (panel U)) `{!PreOrder K}.

Lemma safe_none : safe K Some.
Proof. intros s Hs. by exists s. Qed.

Lemma safe_seq D1 D2 : safe K D1 → safe K D2 → safe K (λ s, s ← D1 s; D2 s).
Proof.
  intros Ha Hb s Hs. destruct (Ha s Hs) as (s1 & -> & Hs1 & (E1 & E2 & E3 & E4) & K1).
  cbn [mbind option_bind]. destruct (Hb s1 Hs1) as (s2 & -> & Hs2 & (F1 & F2 & F3 & F4) & K2).
  exists s2. unfold frame. split_and!; [done..|congruence|congruence|congruence|congruence|]. by trans (sn_panel s1).
Qed.

Lemma safe_if (b : bool) D1 D2 : safe K D1 → safe K D2 → safe K (λ s, if b then D1 s else D2 s).
Proof. by destruct b. Qed.

Lemma safe_for_while n i c body : (∀ j, i <= j < i + Z.of_nat n → c j = true → safe K (body j)) → safe K (for_while n i c body).
Proof.
  revert i. induction n as [|n IH]; intros i Hb; [apply safe_none|]. cbn [for_while].
  destruct (c i) eqn:Ec; [|apply safe_none]. apply safe_seq; [apply Hb; [lia|done]|]. apply IH. intros j Hj. apply Hb. lia.
Qed.

Lemma safe_for a b body : (∀ j, a <= j < b → safe K (body j)) → safe K (for_z a b body).
Proof. intros Hb. apply safe_for_while. intros j Hj _. apply Hb. lia. Qed.

Lemma safe_each {X} (l : list X) body : (∀ x, safe K (body x)) → safe K (each body l).
Proof. intros Hb. induction l as [|x l IH]; [apply safe_none|]. cbn [each]. by apply safe_seq. Qed.

Lemma safe_known {A} (o : option A) v D : o = Some v → safe K (D v) → safe K (λ s, x ← o; D x s).
Proof. intros -> Hd s Hs. by apply Hd. Qed.

(** The panel call of a canvas call. *)
Lemma safe_canvas draw :
  (∀ disp p, panel_ok W H p → ∃ p', draw disp p = Some p' ∧ panel_ok W H p' ∧ K p p') → safe K (on_canvas draw).
Proof.
  intros Hd s (Hp & Hn & Hx). unfold on_canvas. destruct (sn_app s) as [a|] eqn:Ea; [|by apply safe_none].
  destruct (cv_fg a); [|by apply safe_none].
  destruct (Hd (Some (cv_display a)) _ Hp) as (p' & -> & Hp' & Hk). cbn [mbind option_bind].
  exists (with_panel p' s). by split_and!.
Qed.

Lemma safe_text (text : option (list Z)) draw : (∀ t, safe K (draw t)) → safe K (with_text text draw).
Proof. intros Hd. destruct text; [apply Hd|apply safe_none]. Qed.
End Safe.

(** ** The calls of the canvas *)

Definition anything : relation (panel U) := λ _ _, True.
Definition same_colours : relation (panel U) :=
  λ p p', ∀ x y, on_panel W H x y = true → colour W p' x y = colour W p x y.
#[local] Instance anything_preorder : PreOrder anything.
Proof. done. Qed.
#[local] Instance same_colours_preorder : PreOrder same_colours.
Proof. split; [done|]. intros p1 p2 p3 H12 H23 x y Hon. by rewrite H23, H12. Qed.

Lemma safe_anything K D : safe K D → safe anything D.
Proof. intros Hd s Hs. destruct (Hd s Hs) as (s' & E1 & Hs' & F & _). by exists s'. Qed.

Lemma draws_ready disp k S (D : panel U → option (panel U)) : draws W H k S D → ∃ S', draws W H k S' (when_ready disp D).
Proof.
  intros Hd. unfold when_ready. destruct (ready disp); [by exists S|]. exists (λ _ _, false). apply draws_none.
Qed.

Lemma safe_ink (draw : option app_display_t → panel U → option (panel U)) k :
  (∀ disp, ∃ S, draws W H k S (draw disp)) → safe anything (on_canvas draw).
Proof.
  intros Hd. apply safe_canvas; [apply _|]. intros disp p Hp. destruct (Hd disp) as [S HS].
  destruct (HS p Hp) as (p' & E1 & Hp' & _). by exists p'.
Qed.

Lemma safe_bits (draw : option app_display_t → panel U → option (panel U)) b :
  (∀ disp, ∃ S, draws W H (Bit b) S (draw disp)) → safe same_colours (on_canvas draw).
Proof.
  intros Hd. apply safe_canvas; [apply _|]. intros disp p Hp. destruct (Hd disp) as [S HS].
  destruct (HS p Hp) as (p' & E1 & Hp' & _ & L). exists p'. split_and!; [done..|]. intros x y Hon.
  specialize (L x y Hon). apply (f_equal snd) in L. cbn [look snd] in L. rewrite L. by destruct (S x y).
Qed.

Lemma safe_clear : safe anything (app_clear (U := U) (E := E)).
Proof.
  apply safe_canvas; [apply _|]. intros disp p Hp. unfold app_display_clear. eexists. split; [done|].
  split; [|done]. destruct (ready disp); [|done]. by apply (clear_blank W H).
Qed.

Lemma safe_app_text x y text : safe anything (app_text W H (E := E) x y text).
Proof. apply safe_text; [apply _|]. intros t. apply (safe_ink _ (Bit true)). intros disp. by eapply draws_ready; apply draws_draw_text. Qed.

Lemma safe_app_pixel x y on : safe same_colours (app_pixel W H (E := E) x y on).
Proof. apply (safe_bits _ on). intros disp. by eapply draws_ready; apply draws_set_pixel. Qed.

Lemma safe_pixel_color x y c : safe anything (app_pixel_color W H (E := E) x y c).
Proof. apply (safe_ink _ (Colour c)). intros disp. by eapply draws_ready; apply draws_pixel_color. Qed.

Lemma safe_fill_rect x y w h r c : safe anything (app_fill_rect_color W H (E := E) x y w h r c).
Proof. apply (safe_ink _ (Colour c)). intros disp. by eapply draws_ready; apply draws_fill_rect. Qed.

Lemma safe_draw_rect x y w h r c : safe anything (app_draw_rect_color W H (E := E) x y w h r c).
Proof. apply (safe_ink _ (Colour c)). intros disp. by eapply draws_ready; apply draws_draw_rect. Qed.

Lemma safe_circle x y r c : safe anything (app_fill_circle_color W H (E := E) x y r c).
Proof. apply (safe_ink _ (Colour c)). intros disp. by eapply draws_ready; apply draws_fill_circle. Qed.

Lemma safe_hline x y w c : safe anything (app_hline_color W H (E := E) x y w c).
Proof. apply (safe_ink _ (Colour c)). intros disp. by eapply draws_ready; apply draws_hline. Qed.

Lemma safe_text_color x y text scale c : safe anything (app_text_color W H (E := E) x y text scale c).
Proof. apply safe_text; [apply _|]. intros t. apply (safe_ink _ (Colour c)). intros disp. by eapply draws_ready; apply draws_text_color. Qed.

#[local] Hint Resolve safe_clear safe_app_text safe_fill_rect safe_draw_rect safe_circle safe_hline safe_text_color : canvas.

(** ** Icons and the status cluster *)

Section Blits.
Context (K : relation (panel U)) `{!PreOrder K} (set_pixel : pixel_fn screen).
Context (pixel_safe : ∀ x y on, safe K (set_pixel x y on)).

(** The shape of the code: sequences, loops, conditions, dots. *)
#[local] Ltac walk :=
  repeat match goal with
  | |- safe _ (λ s, Some s) => apply (safe_none K)
  | |- safe _ (λ s, set_pixel _ _ _ s) => apply pixel_safe
  | |- safe _ (set_pixel _ _ _) => apply pixel_safe
  | |- safe _ (λ s, mbind _ (set_pixel _ _ _ s)) => apply (safe_seq K)
  | |- safe _ (for_z _ _ _) => apply (safe_for K); intros ? ?
  | |- safe _ (λ s, for_z _ _ _ s) => apply (safe_for K); intros ? ?
  end.

Lemma safe_dots x y l : safe K (dots set_pixel x y l).
Proof. apply (safe_each K). intros [dx dy]. apply pixel_safe. Qed.

Lemma safe_icon_blit x y icon selected scale :
  length icon = 16%nat → safe K (app_icon_blit x y icon selected (Some set_pixel) scale).
Proof.
  intros Hl. unfold app_icon_blit. destruct (scale <=? 0); [apply (safe_none K)|].
  apply (safe_seq K).
  - apply (safe_if K); [|apply (safe_none K)]. apply (safe_seq K); [walk..].
  - apply (safe_for K). intros r Hr. destruct (rd_ok icon r) as [bits Eb]; [unfold blen, APP_ICON_SIZE in *; lia|].
    apply (safe_known K _ bits); [done|]. apply (safe_for K). intros c Hc.
    apply (safe_if K); [walk|apply (safe_none K)].
Qed.

Lemma safe_battery x y percent : safe K (blit_battery x y percent set_pixel).
Proof.
  unfold blit_battery. cbv zeta. do 2 (apply (safe_seq K); [walk|]).
  apply (safe_seq K); [apply safe_dots|]. walk.
Qed.

Lemma safe_wifi x y bars up : safe K (blit_wifi x y bars up set_pixel).
Proof.
  unfold blit_wifi. destruct up; cbn [negb]; [|apply safe_dots].
  do 3 (apply (safe_seq K); [apply (safe_if K); [apply safe_dots|apply (safe_none K)]|]).
  apply (safe_if K); [apply safe_dots|apply (safe_none K)].
Qed.

Lemma safe_signal x y bars : safe K (blit_signal x y bars set_pixel).
Proof.
  unfold blit_signal. cbv zeta. apply (safe_for K). intros i Hi.
  set (b := if 4 <? _ then _ else _). destruct (rd_ok k_height i) as [h Eh]; [unfold blen; cbn; lia|].
  apply (safe_known K _ (if i <? b then h else 1)); [by destruct (i <? b)|]. walk.
Qed.

Lemma safe_status_blit w percent link rssi : safe K (app_status_blit w percent link rssi (Some set_pixel)).
Proof.
  unfold app_status_blit. destruct (w <? APP_STATUS_WIDTH); [apply (safe_none K)|]. cbv zeta.
  apply (safe_seq K); [apply safe_wifi|].
  apply (safe_seq K); [apply safe_signal|]. apply safe_battery.
Qed.
End Blits.

Lemma safe_status_pixel x y on : safe same_colours (status_set_pixel W H (E := E) x y on).
Proof. unfold status_set_pixel. apply safe_if; [apply safe_app_pixel|apply safe_none; apply _]. Qed.

(** The status cluster leaves the colours alone. *)
Lemma safe_status wifi : safe same_colours (app_status_draw W H (E := E) wifi).
Proof.
  intros s (Hp & Hn & Hx). unfold app_status_draw. destruct (sn_app s) as [a|] eqn:Ea; [|by exists s].
  destruct (cv_fg a); cbn [negb]; [|by exists s].
  set (s1 := with_status _ s).
  destruct (safe_status_blit same_colours (status_set_pixel W H (E := E)) safe_status_pixel W
    (g_battery_percent (sn_status s1)) (g_link (sn_status s1)) (g_rssi (sn_status s1)) s1) as (s' & E1 & Hs' & F & Hk); [done|].
  exists s'. by split_and!.
Qed.

(** ** The frame *)

(** Rendering always returns; it changes no dot of the panel. *)
Lemma render_total p px :
  panel_ok W H p → pixels_ok px →
  ∃ px' p', ssd1306_model_render W H px sim_w sim_h p = Some (px', p') ∧ pixels_ok px' ∧ panel_ok W H p' ∧ same_colours p p'.
Proof.
  intros Hp Hx.
  destruct (sd_display_on (g_ssd1306 p)) eqn:Eon; [|exists px, p; unfold ssd1306_model_render; by rewrite Eon].
  destruct (Z.eqb_spec (sd_canary (g_ssd1306 p)) CANARY) as [Ec|Ec].
  2:{ exists px, p. unfold ssd1306_model_render. rewrite Eon. cbn [negb]. by rewrite (proj2 (Z.eqb_neq _ _) Ec). }
  destruct px as [px|]; [|exists None, p; unfold ssd1306_model_render; by rewrite Eon, Ec, Z.eqb_refl].
  destruct (first_render p && all_zero (set_first false p)) eqn:Ef.
  - apply andb_true_iff in Ef as [Ef Ez].
    destruct (for_while_inv (λ _ px, blen px = sim_w * sim_h) (Z.to_nat (sim_h - 0)) 0 (λ _, true)
      (λ y, for_z 0 sim_w (λ x pixels, wr pixels (y * sim_w + x) (if c_true (Z.rem (x + y) 2) then 0xFFFFFFFF else 0xFF000000)))
      px) as (px' & E1 & Hl); [done| |done|].
    { intros y px1 Hy _ H1'.
      apply (for_while_inv (λ _ px, blen px = sim_w * sim_h) (Z.to_nat (sim_w - 0)) 0); [done| |done].
      intros x px2 Hx' _ H2. rewrite wr_ok by nia. eexists. split; [done|].
      unfold blen in *. by rewrite length_insert. }
    exists (Some px'), (set_first false p). split; [|by destruct p].
    unfold ssd1306_model_render. rewrite Eon, Ec, Z.eqb_refl, Ef. cbn [negb andb]. rewrite Ez. cbn [negb andb].
    unfold test_pattern, for_z at 1. by rewrite E1.
  - destruct (render_ok W H HW ltac:(lia) sim_w sim_h Hsw Hsh p px Hp Hx Eon Ec) as (px' & p' & E1 & Hl & _).
    { destruct (first_render p); [right|by left]. exact Ef. }
    exists (Some px'), p'. split; [done|]. cbn [pixels_ok] in *. split; [by rewrite Hl|].
    unfold ssd1306_model_render in E1. rewrite Eon, Ec, Z.eqb_refl in E1. cbn [negb] in E1.
    destruct (first_render p) eqn:Efr; cbn [andb] in E1, Ef.
    + rewrite Ef in E1. destruct (for_while _ _ _ _ px); [|done]. by injection E1 as <- <-.
    + destruct (for_while _ _ _ _ px); [|done]. by injection E1 as <- <-.
Qed.

Lemma composite_ok disp n p :
  ready disp = true → state_inv W H n → panel_ok W H p →
  ∃ n' p', notify_service_composite W H disp n p = Some (n', p') ∧ state_inv W H n' ∧ panel_ok W H p' ∧ (queue n = [] → p' = p).
Proof.
  intros Hr Hn Hp. destruct (queue n) as [|c r] eqn:Eq.
  - exists (with_painted false n), p. unfold notify_service_composite. rewrite (phase_empty W H n Hn Eq). by split_and!.
  - destruct (paints_composite W H (U := U) HW HH disp n c r Hr Hn Eq) as (D & HD & EC). cbv zeta in HD.
    destruct (HD p Hp) as (p' & E1 & Hp' & _ & _). exists (with_painted true n), p'. rewrite EC, E1. by split_and!.
Qed.

(** A drawing of the panel that returns. *)
Definition fine (D : panel U → option (panel U)) : Prop := ∀ p, panel_ok W H p → ∃ p', D p = Some p' ∧ panel_ok W H p'.

Lemma fine_seq D1 D2 : fine D1 → fine D2 → fine (λ p, p ← D1 p; D2 p).
Proof. intros Ha Hb p Hp. destruct (Ha p Hp) as (p1 & -> & Hp1). cbn [mbind option_bind]. by apply Hb. Qed.

Lemma fine_draws disp k S D : draws W H k S D → fine (when_ready disp D).
Proof.
  intros Hd p Hp. destruct (draws_ready disp k S D Hd) as [S' Hd']. destruct (Hd' p Hp) as (p' & E1 & Hp' & _). by exists p'.
Qed.

Lemma header_fine battery now disp : fine (app_header_draw W H battery now disp).
Proof.
  unfold app_header_draw. destruct (_ || _); [by intros p Hp; exists p|]. cbv zeta.
  do 3 (apply fine_seq; [eapply fine_draws; first [by apply draws_fill_rect|by apply draws_draw_rect]|]).
  apply fine_seq.
  { intros p Hp. destruct (for_while_inv (λ _ p, panel_ok W H p) (Z.to_nat (4 - 0)) 0 (λ _, true)
      (λ i, app_display_fill_rect_color W H disp (9 + i * 5) 8 3 8 0
          (if i <? Z.quot (battery * 4) 100 then MENU_COLOR_WHITE else menu_dim_color MENU_COLOR_WHITE 3)) p)
      as (p' & E1 & Hp'); [done| |done|by exists p'].
    intros i p1 _ _ Hp1. eapply fine_draws; [by apply draws_fill_rect|done]. }
  apply fine_seq; eapply fine_draws; [by apply draws_text_color|by apply draws_hline].
Qed.

(** A flush returns and, for the app in front, cleans it; without header and cards the colours stay. *)
Lemma flush_ok s :
  screen_ok s →
  ∃ s', app_flush W H sim_w sim_h s = Some s' ∧ screen_ok s' ∧
    sn_app s' = (a ← sn_app s; Some (if cv_fg a then mk_canvas false true (cv_display a) (cv_ui a) else a)) ∧
    (sn_header s = false → queue (sn_notes s) = [] → same_colours (sn_panel s) (sn_panel s')).
Proof.
  intros (Hp & Hn & Hx). unfold app_flush. destruct (sn_app s) as [a|] eqn:Ea; cbn [mbind option_bind]; [|by exists s].
  destruct (cv_fg a) eqn:Ef; [|by exists s]. unfold app_display_flush.
  destruct (ready (Some (cv_display a))) eqn:Er; cbn [mbind option_bind].
  2:{ eexists. split; [done|]. unfold app_clear_dirty, mark. cbn [sn_app]. rewrite Ef. by split_and!. }
  assert (∃ p1, header_app_composite W H s (Some (cv_display a)) (sn_panel s) = Some p1 ∧ panel_ok W H p1 ∧
    (sn_header s = false → p1 = sn_panel s)) as (p1 & -> & Hp1 & K1).
  { unfold header_app_composite. destruct (sn_header s); cbn [negb]; [|by exists (sn_panel s)].
    edestruct header_fine as (p1 & E1 & Hp1); [exact Hp|]. exists p1. by split_and!. }
  cbn [mbind option_bind].
  destruct (composite_ok (Some (cv_display a)) (sn_notes s) p1 Er Hn Hp1) as (n2 & p2 & -> & Hn2 & Hp2 & K2).
  cbn [mbind option_bind].
  destruct (render_total p2 (sn_pixels s) Hp2 Hx) as (px & p3 & -> & Hx3 & Hp3 & K3). cbn [mbind option_bind].
  eexists. split; [done|]. unfold app_clear_dirty, mark. cbn [sn_app]. rewrite Ef. split_and!; [done..|].
  intros Hh Hq x y Hon. cbn [sn_panel with_app]. rewrite (K3 x y Hon), K2, K1; done.
Qed.

(** ** The menu *)

(** The rows that fit on the panel. *)
Definition capacity m : Z := Z.max 0 (Z.quot (H - mn_start_y m - 8) (mn_row_h m)).

(** The selection is an item; the rows a list shows are items, the selected one among them. *)
Definition menu_ok m : Prop :=
  length (mn_items m) = 16%nat ∧ 0 <= mn_count m <= 16 ∧ 0 < mn_row_h m ∧
  0 <= mn_first_visible m ∧ 0 <= mn_selected m ∧
  (mn_count m = 0 → mn_selected m = 0 ∧ mn_first_visible m = 0) ∧ (0 < mn_count m → mn_selected m < mn_count m).
Definition shows_selected m : Prop :=
  mn_layout m = APP_MENU_LAYOUT_LIST → 0 < capacity m → 0 < mn_count m →
  let rows := Z.min (capacity m) (mn_count m) in
  mn_first_visible m <= mn_selected m < mn_first_visible m + rows ∧ mn_first_visible m + rows <= mn_count m.

Lemma visible_rows m : menu_ok m → app_menu_visible_rows H (Some m) = Z.min (capacity m) (mn_count m).
Proof.
  intros (_ & Hc & Hr & _). unfold app_menu_visible_rows, capacity. zbool. cbv zeta.
  set (q := Z.quot _ _). clearbody q. destruct (Z.ltb_spec q 0).
  - destruct (Z.ltb_spec (mn_count m) 0); lia.
  - destruct (Z.ltb_spec (mn_count m) q); lia.
Qed.

Definition good m : Prop := menu_ok m ∧ shows_selected m.

(** A call that leaves a well-formed menu, with the selected row shown if it was. *)
Definition keeps m m' : Prop := menu_ok m' ∧ (shows_selected m → shows_selected m').
Lemma keeps_good m m' : keeps m m' → good m → good m'.
Proof. intros [? Hs] [_ ?]. split; [done|by apply Hs]. Qed.
Lemma good_keeps m m' : good m' → keeps m m'.
Proof. by intros [? ?]. Qed.
Lemma keeps_itself m : menu_ok m → keeps m m.
Proof. by split. Qed.

(** What a menu is: its items and the place of the selected one. *)
Definition abs m : list app_menu_item_t * Z := (packed (mn_count m) (mn_items m), mn_selected m).

Lemma init_good m start_y row_h : ∃ m', app_menu_init (Some m) start_y row_h = Some m' ∧ good m' ∧ abs m' = ([], 0).
Proof.
  eexists. split; [done|]. split; [|done]. split; [|intros _ _; cbn; lia]. unfold menu_ok. cbn.
  split_and!; try done; try lia. destruct (Z.ltb_spec 0 row_h); lia.
Qed.

Lemma strip_good m : menu_ok m → ∃ m', app_menu_set_icon_strip (Some m) = Some m' ∧ good m' ∧ abs m' = abs m.
Proof.
  intros (Hl & Hc & Hr & Hf & Hs & H0' & Hlt). eexists. split; [done|]. split; [|done]. split; [|done].
  unfold menu_ok. cbn. split_and!; try done; try lia.
Qed.

Lemma clear_good m : menu_ok m → ∃ m', app_menu_clear (Some m) = Some m' ∧ good m' ∧ abs m' = ([], 0).
Proof.
  intros (Hl & Hc & Hr & _). eexists. split; [done|]. split; [|done]. split; [|intros _ _; cbn; lia].
  unfold menu_ok. cbn. split_and!; done || lia.
Qed.

Definition spec_add (id label tag : option (list Z)) (icon : option Z) (n : list app_menu_item_t * Z)
    : Z * (list app_menu_item_t * Z) :=
  match id, label with
  | Some _, Some _ =>
    if 16 <=? blen n.1 then (-1, n)
    else (0, (n.1 ++ [mk_item id label tag (Some (default app_icon_default icon))], n.2))
  | _, _ => (-1, n)
  end.

Lemma add_good m id label tag icon :
  menu_ok m → ∃ r m', app_menu_add (Some m) id label tag icon = Some (r, Some m') ∧ keeps m m' ∧
    spec_add id label tag icon (abs m) = (r, abs m').
Proof.
  intros (Hl & Hc & Hr & Hf & Hs & H0' & Hlt). unfold app_menu_add, spec_add.
  destruct id as [id|], label as [label|]; try (by exists (-1), m).
  assert (blen (abs m).1 = mn_count m) as Hab by (unfold abs, blen; cbn; rewrite packed_length; unfold blen; lia).
  rewrite Hab. change APP_KIT_MENU_MAX with 16. destruct (Z.leb_spec 16 (mn_count m)); [by exists (-1), m|].
  destruct (packed_push (mn_count m) (mn_items m) (mk_item (Some id) (Some label) tag (Some (default app_icon_default icon))))
    as (l & -> & Hl' & Ep & _); [unfold blen; lia|]. cbn [mbind option_bind].
  eexists _, _. split; [done|]. split; [|unfold abs; cbn [mn_count mn_items mn_selected fst snd]; by rewrite Ep]. split.
  - unfold menu_ok. cbn. unfold blen in Hl'. split_and!; try done; lia.
  - intros Hw Hlay Hcap _. unfold capacity in *. cbn [mn_layout mn_start_y mn_row_h mn_count mn_first_visible mn_selected] in *.
    destruct (Z.eq_dec (mn_count m) 0) as [Hz|Hz]; [apply H0' in Hz as E1; destruct E1 as [-> ->]; lia|].
    specialize (Hw Hlay Hcap ltac:(lia)). cbv zeta in Hw. unfold capacity in Hw. lia.
Qed.

(** The item of an entry of the catalog. *)
Definition entry_item (e : app_catalog_entry_t) : app_menu_item_t :=
  mk_item (Some (ce_name e)) (Some (ce_name e)) (Some (app_type_tag (ce_type e))) (Some (ce_icon e)).

Lemma load_loop_good catalog n : ∀ (i : nat) m, good m → (i + n = length catalog)%nat →
  ∃ m', load_loop n (Z.of_nat i) catalog (Some m) = Some (Some m') ∧ good m' ∧
    abs m' = (take 16 ((abs m).1 ++ map entry_item (drop i catalog)), (abs m).2).
Proof.
  induction n as [|n IH]; intros i m Hm Hi; cbn [load_loop].
  all: pose proof Hm as [(Hl & Hc & _) _].
  all: assert (length (abs m).1 <= 16)%nat as Hlen by (cbn; rewrite packed_length; unfold blen; lia).
  { exists m. rewrite drop_ge, app_nil_r, take_ge by lia. by destruct (abs m). }
  unfold app_kit_catalog_at, blen. zbool. cbn [orb].
  destruct (lookup_lt_is_Some_2 catalog i) as [e Ee]; [lia|]. rewrite rd_nat, Ee.
  destruct (add_good m (Some (ce_name e)) (Some (ce_name e)) (Some (app_type_tag (ce_type e))) (Some (ce_icon e)))
    as (r & m' & -> & Hk & Es); [apply Hm|]. pose proof (keeps_good _ _ Hk Hm) as Hm'.
  cbn [mbind option_bind]. rewrite (drop_S _ _ _ Ee). cbn [map].
  unfold spec_add in Es. destruct (Z.leb_spec 16 (blen (abs m).1)) as [Hb|Hb]; apply pair_equal_spec in Es as [<- Ea]; cbn [negb Z.eqb].
  - exists m'. split; [done|]. split; [done|]. rewrite <- Ea. unfold blen in Hb. rewrite take_app_le, take_ge by lia.
    by destruct (abs m).
  - replace (Z.of_nat i + 1) with (Z.of_nat (S i)) by lia. destruct (IH (S i) m' Hm') as (m2 & -> & Hm2 & Ea2); [lia|].
    exists m2. split; [done|]. split; [done|]. rewrite Ea2, <- Ea. cbn [fst snd]. by rewrite <- app_assoc.
Qed.

Lemma load_good catalog m :
  menu_ok m → ∃ m', app_menu_load_catalog catalog (Some m) = Some (mn_count m', Some m') ∧ good m' ∧
    abs m' = (map entry_item (take 16 catalog), 0).
Proof.
  intros Hm. unfold app_menu_load_catalog. destruct (clear_good m Hm) as (m1 & -> & Hm1 & E1).
  destruct (load_loop_good catalog (length catalog) 0 m1 Hm1) as (m' & E2 & Hm' & Ea); [lia|]. change (Z.of_nat 0) with 0 in E2.
  rewrite E2. cbn [mbind option_bind]. exists m'. split; [done|]. split; [done|]. rewrite Ea, E1. cbn [fst snd app]. rewrite drop_0.
  by rewrite <- firstn_map.
Qed.

Definition spec_move (delta : Z) (n : list app_menu_item_t * Z) : list app_menu_item_t * Z :=
  if blen n.1 =? 0 then n else (n.1, (n.2 + delta) mod blen n.1).

(** Moving to an item, for a list that shows [visible] rows. *)
Lemma select_keeps m next visible :
  menu_ok m → 0 <= next < mn_count m → menu_ok (select next visible m) ∧
    (visible = Z.min (capacity m) (mn_count m) → shows_selected m → shows_selected (select next visible m)).
Proof.
  intros (Hl & Hc & Hr & Hf & Hs & H0' & Hlt) Hn.
  unfold shows_selected, menu_ok, capacity, select, scroll_to in *. cbn in *.
  destruct (mn_layout m) eqn:Elay; cbn.
  2:{ split; [|done]. split_and!; done || lia. }
  change (bool_decide (APP_MENU_LAYOUT_LIST = APP_MENU_LAYOUT_ICONS)) with false. cbv iota.
  set (cap := Z.max 0 _) in *. clearbody cap.
  repeat match goal with |- context [if ?a <? ?b then _ else _] => destruct (Z.ltb_spec a b)
                       | |- context [if ?a <=? ?b then _ else _] => destruct (Z.leb_spec a b) end;
    (split; [split_and!; try done; lia|intros Ev Hw _ Hcap Hpos; specialize (Hw eq_refl Hcap Hpos); lia]).
Qed.

Lemma spec_move_eq m delta :
  menu_ok m → spec_move delta (abs m) =
    if mn_count m =? 0 then abs m else ((abs m).1, (mn_selected m + delta) mod mn_count m).
Proof.
  intros (Hl & Hc & _). unfold spec_move.
  by replace (blen (abs m).1) with (mn_count m) by (unfold abs, blen; cbn; rewrite packed_length; unfold blen; lia).
Qed.

(** The number of places to move, when there is an item to move to. *)
Lemma move_target m delta :
  menu_ok m → - 2 ^ 30 <= delta <= 2 ^ 30 → 0 < mn_count m →
  int_add (mn_selected m) delta = Some (mn_selected m + delta) ∧
  wrap_index (mn_count m) (mn_selected m + delta) = Some ((mn_selected m + delta) mod mn_count m) ∧
  0 <= (mn_selected m + delta) mod mn_count m < mn_count m.
Proof.
  intros (_ & Hc & _ & _ & Hs & _ & Hlt) Hd Hpos. specialize (Hlt Hpos).
  split; [|split; [by apply wrap_index_mod|by apply Z.mod_pos_bound]].
  unfold int_add. by rewrite (proj2 (andb_true_iff _ _)) by (rewrite Z.leb_le, Z.ltb_lt; lia).
Qed.

(** Without a place to go the menu stays as it is. *)
Lemma move_nowhere m delta :
  menu_ok m → (mn_count m <=? 0) || (delta =? 0) = true → spec_move delta (abs m) = abs m.
Proof.
  intros Hok. rewrite spec_move_eq by done. destruct Hok as (_ & Hc & _ & _ & Hs & _ & Hlt).
  rewrite orb_true_iff, Z.leb_le, Z.eqb_eq. destruct (Z.eqb_spec (mn_count m) 0); [done|]. intros [?| ->]; [lia|].
  specialize (Hlt ltac:(lia)). by rewrite Z.add_0_r, Z.mod_small by lia.
Qed.

(** Moving selects the item that many places on, round the menu. *)
Lemma move_good m delta s :
  menu_ok m → - 2 ^ 30 <= delta <= 2 ^ 30 →
  ∃ m' s', app_menu_move H (Some m) delta s = Some (negb (mn_selected m' =? mn_selected m), Some m', s') ∧ keeps m m' ∧
    abs m' = spec_move delta (abs m) ∧ (s' = s ∨ s' = canvas_mark_dirty s).
Proof.
  intros Hok Hd. unfold app_menu_move. destruct (_ || _) eqn:Eno.
  { exists m, s. rewrite Z.eqb_refl. split_and!; [done|by apply keeps_itself|by rewrite move_nowhere|by left]. }
  apply orb_false_iff in Eno as [Hc _]. apply Z.leb_gt in Hc. rewrite (spec_move_eq m delta Hok).
  destruct (move_target m delta Hok Hd Hc) as (-> & Hm & Hn). cbn [mbind option_bind]. rewrite Hm.
  cbn [mbind option_bind]. rewrite (proj2 (Z.eqb_neq (mn_count m) 0)) by lia. clear Hm.
  set (next := _ mod _) in *. clearbody next. destruct (Z.eqb_spec next (mn_selected m)) as [E1|E1].
  { exists m, s. rewrite Z.eqb_refl. split_and!; [done|by apply keeps_itself| |by left]. by rewrite E1. }
  rewrite visible_rows by done. exists (select next (Z.min (capacity m) (mn_count m)) m), (canvas_mark_dirty s).
  split; [by cbn [select mn_selected]; rewrite (proj2 (Z.eqb_neq _ _) E1)|]. split_and!; [|done|by right].
  destruct (select_keeps m next (Z.min (capacity m) (mn_count m)) Hok Hn) as [? Hk]. split; [done|by apply Hk].
Qed.

(** An app owns the screen. *)
Definition has_app s : bool := match sn_app s with Some _ => true | None => false end.

(** The same over the content box of the app, which need not hold the rows of the panel: the
    selected row may leave the window. *)
Lemma ui_move_ok m delta s :
  menu_ok m → - 2 ^ 30 <= delta <= 2 ^ 30 →
  ∃ m' s', app_ui_menu_move (Some m) delta s = Some (Some m', s') ∧ menu_ok m' ∧
    abs m' = (if has_app s then spec_move delta (abs m) else abs m) ∧ (s' = s ∨ s' = canvas_mark_dirty s).
Proof.
  intros Hok Hd. unfold app_ui_menu_move, has_app. destruct (sn_app s) as [a|]; [|by exists m, s; auto].
  destruct (_ || _) eqn:Eno.
  { exists m, s. split_and!; [done|done|by rewrite move_nowhere|by left]. }
  apply orb_false_iff in Eno as [Hc _]. apply Z.leb_gt in Hc. rewrite (spec_move_eq m delta Hok).
  destruct (move_target m delta Hok Hd Hc) as (-> & Hm & Hn). cbn [mbind option_bind]. rewrite Hm.
  cbn [mbind option_bind]. rewrite (proj2 (Z.eqb_neq (mn_count m) 0)) by lia. clear Hm.
  set (next := _ mod _) in *. clearbody next. destruct (Z.eqb_spec next (mn_selected m)) as [E1|E1].
  { exists m, s. split_and!; [done|done| |by left]. by rewrite E1. }
  pose proof Hok as (_ & _ & Hr & _). rewrite (proj2 (Z.eqb_neq (mn_row_h m) 0)) by lia.
  match goal with |- ∃ m' s', mbind ?f ?o = _ ∧ _ => assert (is_Some o) as [v Ev] by (destruct (bool_decide _); by eexists);
    rewrite Ev end.
  cbn [mbind option_bind]. exists (select next v m), (canvas_mark_dirty s).
  split_and!; [done|by apply select_keeps|done|by right].
Qed.

(** The launcher builds its menu again, and keeps the selection of a session it restored. *)
Definition spec_ready (has_state : bool) (catalog : list app_catalog_entry_t) (n : list app_menu_item_t * Z)
    : list app_menu_item_t * Z :=
  let items := map entry_item (take 16 catalog) in
  (items, if has_state && (0 <=? n.2) && (n.2 <? blen items) then n.2 else 0).

Lemma ready_ok has_state catalog m :
  menu_ok m → ∃ m', launcher_ready H has_state catalog m = Some (Some m') ∧ menu_ok m' ∧
    (has_state = false → shows_selected m') ∧ abs m' = spec_ready has_state catalog (abs m).
Proof.
  intros Hm. unfold launcher_ready. cbv zeta.
  assert (∃ m1, (if H <=? 32 then app_menu_init (Some m) 8 10 else app_menu_set_icon_strip (app_menu_init (Some m) 8 8))
    = Some m1 ∧ menu_ok m1) as (m1 & -> & Hm1).
  { destruct (H <=? 32).
    - destruct (init_good m 8 10) as (m1 & -> & [? _] & _). by exists m1.
    - destruct (init_good m 8 8) as (m0 & -> & [Hm0 _] & _). destruct (strip_good m0 Hm0) as (m1 & -> & [? _] & _). by exists m1. }
  destruct (load_good catalog m1 Hm1) as (m2 & -> & [Hm2 Hs2] & E2). cbn [mbind option_bind].
  unfold spec_ready. assert (blen (map entry_item (take 16 catalog)) = mn_count m2) as ->.
  { change (map entry_item (take 16 catalog)) with (map entry_item (take 16 catalog), 0).1. rewrite <- E2.
    destruct Hm2 as (Hl & Hc & _). unfold abs, blen. cbn. rewrite packed_length; unfold blen; lia. }
  cbn [abs snd]. assert (abs m2 = (map entry_item (take 16 catalog), 0)) as E3 by exact E2.
  destruct (has_state && _ && _) eqn:Ek; [|by exists m2; split_and!].
  bool_hyps. eexists. split; [done|]. destruct Hm2 as (Hl & Hc & Hr & Hf & Hsel & H0' & Hlt).
  split_and!; [|congruence|].
  - unfold menu_ok. cbn. split_and!; try done; lia.
  - injection E3 as E3 _. unfold abs. cbn [mn_count mn_items mn_selected]. by rewrite E3.
Qed.

(** ** Drawing a menu *)

(** The app after a flush. *)
Definition cleaned (app : option app_canvas) : option app_canvas :=
  a ← app; Some (if cv_fg a then mk_canvas false true (cv_display a) (cv_ui a) else a).
Definition flushed (F : screen → option screen) : Prop :=
  ∀ s, screen_ok s → ∃ s', F s = Some s' ∧ screen_ok s' ∧ sn_app s' = cleaned (sn_app s).

Lemma flushed_seq D F : safe anything D → flushed F → flushed (λ s, s ← D s; F s).
Proof.
  intros Hd Hf s Hs. destruct (Hd s Hs) as (s1 & -> & Hs1 & (E1 & _) & _). cbn [mbind option_bind]. rewrite <- E1. by apply Hf.
Qed.

Lemma flushed_flush : flushed (app_flush W H sim_w sim_h).
Proof. intros s Hs. destruct (flush_ok s Hs) as (s' & E1 & Hs' & Ea & _). by exists s'. Qed.

Lemma safe_menu_icon x y i selected K scale set_pixel `{!PreOrder K} :
  (∀ x y on, safe K (set_pixel x y on)) →
  safe K (app_icon_blit x y (item_rows app_icons i) selected (Some set_pixel) scale).
Proof.
  intros Hp. apply safe_icon_blit; [done..|]. unfold item_rows, icon_rows. destruct (_ =? _); [done|apply icons_ok].
Qed.

Lemma item_at m i : menu_ok m → 0 <= i < mn_count m → ∃ it, rd (mn_items m) i = Some it.
Proof. intros (Hl & Hc & _) Hi. destruct (rd_ok (mn_items m) i) as [it E1]; [unfold blen; lia|]. by exists it. Qed.

Lemma safe_sel_text (text : option (list Z)) draw : (∀ t, safe anything (draw t)) → safe anything (with_text text draw).
Proof. apply safe_text. apply _. Qed.

Lemma safe_card m slot : menu_ok m → 0 < mn_count m → safe anything (draw_card W H app_icons (E := E) m slot).
Proof.
  intros Hm Hc. unfold draw_card. cbv zeta. rewrite wrap_index_mod by done. cbn [mbind option_bind].
  set (idx := (mn_selected m + (slot - 1)) mod mn_count m).
  destruct (item_at m idx Hm) as [it Ei]; [apply Z.mod_pos_bound; lia|].
  apply (safe_seq anything).
  - apply (safe_if anything); [auto with canvas|apply (safe_seq anything); auto with canvas].
  - apply (safe_known anything _ it); [done|]. apply safe_menu_icon; [apply _|]. intros x y on.
    unfold menu_icon_set_pixel_color. apply (safe_if anything); [apply safe_pixel_color|apply (safe_none anything)].
Qed.

Lemma flushed_cards m sel : menu_ok m → 0 < mn_count m → flushed (draw_cards W H sim_w sim_h app_icons (E := E) m sel).
Proof.
  intros Hm Hc. unfold draw_cards. cbv zeta.
  repeat first [apply flushed_flush | apply flushed_seq]; auto with canvas.
  - apply (safe_for anything). intros slot _. by apply safe_card.
  - apply (safe_for anything). intros i _. auto with canvas.
  - apply safe_sel_text. auto with canvas.
  - apply safe_sel_text. auto with canvas.
Qed.

Lemma flushed_strip wifi m title sel scale :
  menu_ok m → 0 < mn_count m → 0 < scale → flushed (draw_strip W H sim_w sim_h app_icons (E := E) wifi m title sel scale).
Proof.
  intros Hm Hc Hs. unfold draw_strip. cbv zeta.
  rewrite (proj2 (Z.eqb_neq (APP_ICON_PITCH * scale) 0)) by (unfold APP_ICON_PITCH; lia).
  apply flushed_seq; [auto with canvas|]. apply flushed_seq; [auto with canvas|].
  apply flushed_seq.
  { apply (safe_for anything). intros off _. rewrite wrap_index_mod by done. cbn [mbind option_bind].
    apply (safe_if anything); [apply (safe_none anything)|].
    destruct (item_at m ((mn_selected m + off) mod mn_count m) Hm) as [it Ei]; [apply Z.mod_pos_bound; lia|].
    apply (safe_known anything _ it); [done|]. apply safe_menu_icon; [apply _|]. intros x y on.
    eapply safe_anything, safe_status_pixel. }
  apply flushed_seq; [destruct (label_of sel); [auto with canvas|apply (safe_none anything)]|].
  apply flushed_seq; [eapply safe_anything, safe_status|apply flushed_flush].
Qed.

Lemma safe_rows m visible : menu_ok m → safe anything (draw_rows W (E := E) H m visible).
Proof.
  intros Hm. apply (safe_for_while anything). intros i _ Hi. bool_hyps.
  unfold draw_row. destruct (item_at m (mn_first_visible m + i) Hm) as [it Ei]; [lia|].
  apply (safe_known anything _ it); [done|]. cbv zeta.
  apply (safe_seq anything); [apply (safe_if anything); [auto with canvas|apply (safe_none anything)]|].
  apply (safe_seq anything); auto with canvas.
Qed.

(** Something is drawn for every panel: the strip needs an item, and a scale of its text. *)
Definition drawable m s : Prop :=
  mn_layout m = APP_MENU_LAYOUT_ICONS → 0 < mn_count m ∧ ∀ a, sn_app s = Some a → 0 < ui_text_scale (cv_ui a).

Lemma menu_draw_ok wifi m title help s :
  menu_ok m → drawable m s → screen_ok s →
  ∃ s', app_menu_draw W H sim_w sim_h app_icons wifi (Some m) title help s = Some s' ∧ screen_ok s' ∧
    sn_app s' = cleaned (sn_app s).
Proof.
  intros Hm Hd Hs. unfold app_menu_draw. destruct (sn_app s) as [a|] eqn:Ea; [|by exists s].
  case_bool_decide as El.
  - destruct (Hd El) as [Hc Hsc]. specialize (Hsc a Ea). unfold app_menu_draw_icons. rewrite Ea. cbn [mbind option_bind].
    assert (∃ sel, app_menu_selected (Some m) = Some sel) as [sel ->].
    { pose proof Hm as (_ & _ & _ & _ & Hs0 & _ & Hlt). specialize (Hlt Hc). unfold app_menu_selected. zbool. cbn [orb].
      destruct (item_at m (mn_selected m) Hm) as [it ->]; [lia|]. by eexists. }
    cbn [mbind option_bind]. rewrite <- Ea. destruct (_ || _).
    + by apply flushed_strip.
    + by apply flushed_cards.
  - rewrite <- Ea. cbv zeta. revert s Hs Hd Ea. intros s Hs _ _. revert s Hs.
    change (flushed (λ s, s ← app_clear s; s ← app_text_color W H 0 0 title 1 MENU_COLOR_CYAN s;
      s ← draw_rows W H m (app_menu_visible_rows H (Some m)) s;
      s ← (if mn_start_y m + app_menu_visible_rows H (Some m) * mn_row_h m <=? H - 8
           then app_text_color W H 0 (mn_start_y m + app_menu_visible_rows H (Some m) * mn_row_h m) help 1
                  (menu_dim_color MENU_COLOR_WHITE 4) s else Some s);
      s ← app_status_draw W H wifi s; app_flush W H sim_w sim_h s)).
    do 2 (apply flushed_seq; [auto with canvas|]). apply flushed_seq; [by apply safe_rows|].
    apply flushed_seq; [apply (safe_if anything); [auto with canvas|apply (safe_none anything)]|].
    apply flushed_seq; [eapply safe_anything, safe_status|apply flushed_flush].
Qed.

(** ** Sequences of calls *)

Inductive menu_op :=
  | MInit (start_y row_h : Z) | MStrip | MClear
  | MAdd (id label tag : option (list Z)) (icon : option Z) | MLoad (catalog : list app_catalog_entry_t)
  | MMove (delta : Z) | MUiMove (delta : Z)
  | MReady (has_state : bool) (catalog : list app_catalog_entry_t)
  | MDraw (wifi : option (option Z)) (title help : option (list Z)).

Definition menu_step (o : menu_op) (ms : app_menu_t * screen) : option (app_menu_t * screen) :=
  let '(m, s) := ms in
  match o with
  | MInit start_y row_h => m ← app_menu_init (Some m) start_y row_h; Some (m, s)
  | MStrip => m ← app_menu_set_icon_strip (Some m); Some (m, s)
  | MClear => m ← app_menu_clear (Some m); Some (m, s)
  | MAdd id label tag icon => '(_, menu) ← app_menu_add (Some m) id label tag icon; m ← menu; Some (m, s)
  | MLoad catalog => '(_, menu) ← app_menu_load_catalog catalog (Some m); m ← menu; Some (m, s)
  | MMove delta => '(_, menu, s) ← app_menu_move H (Some m) delta s; m ← menu; Some (m, s)
  | MUiMove delta => '(menu, s) ← app_ui_menu_move (Some m) delta s; m ← menu; Some (m, s)
  | MReady has_state catalog => menu ← launcher_ready H has_state catalog m; m ← menu; Some (m, s)
  | MDraw wifi title help => s ← app_menu_draw W H sim_w sim_h app_icons wifi (Some m) title help s; Some (m, s)
  end.

Definition menu_op_ok (o : menu_op) : Prop :=
  match o with MMove delta | MUiMove delta => - 2 ^ 30 <= delta <= 2 ^ 30 | _ => True end.

(** What the calls mean for the items and the selection; [app] says whether an app owns the screen. *)
Definition menu_spec (app : bool) (n : list app_menu_item_t * Z) (o : menu_op) : list app_menu_item_t * Z :=
  match o with
  | MInit _ _ | MClear => ([], 0)
  | MAdd id label tag icon => snd (spec_add id label tag icon n)
  | MLoad catalog => (map entry_item (take 16 catalog), 0)
  | MMove delta => spec_move delta n
  | MUiMove delta => if app then spec_move delta n else n
  | MReady has_state catalog => spec_ready has_state catalog n
  | MStrip | MDraw _ _ _ => n
  end.

(** Whether the selected row is sure to be among those a list shows: two calls do not scroll to
    it, those that start a list over show it again. *)
Definition shown_after (shown : bool) (o : menu_op) : bool :=
  match o with
  | MUiMove _ | MReady true _ => false
  | MInit _ _ | MClear | MLoad _ | MStrip | MReady false _ => true
  | MAdd _ _ _ _ | MMove _ | MDraw _ _ _ => shown
  end.

(** The text scale that every context of the kit has. *)
Definition scaled s : Prop := ∀ a, sn_app s = Some a → 0 < ui_text_scale (cv_ui a).

Lemma scaled_cleaned s s' : sn_app s' = cleaned (sn_app s) → scaled s → scaled s'.
Proof.
  intros E1 Hs a Ha. rewrite Ha in E1. destruct (sn_app s) as [a0|] eqn:E0; [|done]. specialize (Hs a0 E0).
  cbn in E1. injection E1 as ->. by destruct (cv_fg a0).
Qed.

Lemma scaled_dirty s : scaled s → scaled (canvas_mark_dirty s).
Proof.
  intros Hs a. unfold canvas_mark_dirty, mark. destruct (sn_app s) as [a0|] eqn:E0; [|by rewrite E0].
  intros [= <-]. exact (Hs a0 E0).
Qed.

Lemma dirty_ok s : screen_ok s → screen_ok (canvas_mark_dirty s).
Proof. unfold canvas_mark_dirty, mark. by destruct (sn_app s). Qed.

(** A strip without an item. *)
Definition empty_strip m s : Prop := mn_layout m = APP_MENU_LAYOUT_ICONS ∧ mn_count m = 0 ∧ has_app s = true.
Lemma empty_strip_dec m s : empty_strip m s ∨ ¬ empty_strip m s.
Proof.
  unfold empty_strip. destruct (mn_layout m); [by right; intros []|]. destruct (Z.eq_dec (mn_count m) 0); [|by right; intros (? & ? & ?)].
  destruct (has_app s); [by left|by right; intros (? & ? & ?)].
Qed.

Lemma wrap_empty_index n : wrap_index 0 n = None.
Proof.
  unfold wrap_index. destruct (Z.lt_ge_cases n 0) as [Hn|Hn]; [by rewrite (proj1 (wrap_empty _ n) Hn)|].
  replace (Z.to_nat (- n)) with 0%nat by lia. cbn [wrap_up]. zbool. cbn [mbind option_bind].
  by rewrite (proj2 (wrap_empty _ n) Hn).
Qed.

(** Drawing it never gets past the first icon. *)
Lemma empty_strip_never wifi m title help s :
  menu_ok m → empty_strip m s → app_menu_draw W H sim_w sim_h app_icons wifi (Some m) title help s = None.
Proof.
  intros (_ & _ & _ & _ & _ & Hz & _) (El & Ec & Ha). destruct (Hz Ec) as [Es _]. unfold app_menu_draw, has_app in *.
  destruct (sn_app s) as [a|] eqn:Ea; [|done]. rewrite El, bool_decide_eq_true_2 by done.
  unfold app_menu_draw_icons, app_menu_selected. rewrite Ea, Ec, Es. cbn [mbind option_bind Z.ltb Z.leb Z.compare orb].
  destruct (_ || _).
  - unfold draw_strip. cbv zeta. destruct (_ =? 0); [done|]. destruct (app_clear s) as [s1|]; [|done].
    cbn [mbind option_bind]. destruct (app_text _ _ _ _) as [s2|]; [|done]. cbn [mbind option_bind].
    set (q := Z.quot _ 2). set (side := if q <? 1 then 1 else q).
    assert (1 <= side) by (subst side; destruct (Z.ltb_spec q 1); lia). clearbody side. unfold for_z. replace (Z.to_nat (side + 1 - - side)) with (S (Z.to_nat (2 * side))) by lia.
    cbn [for_while]. by rewrite Ec, wrap_empty_index.
  - unfold draw_cards. destruct (app_clear s) as [s1|]; [|done]. cbn [mbind option_bind]. unfold for_z.
    change (Z.to_nat (3 - 0)) with 3%nat. cbn [for_while].
    assert (draw_card W H app_icons m 0 s1 = None) as ->; [|done].
    unfold draw_card. by rewrite Ec, wrap_empty_index.
Qed.

Lemma has_app_cleaned s s' : sn_app s' = cleaned (sn_app s) → has_app s' = has_app s.
Proof. unfold has_app. intros ->. by destruct (sn_app s). Qed.
Lemma has_app_dirty s : has_app (canvas_mark_dirty s) = has_app s.
Proof. unfold has_app, canvas_mark_dirty, mark. destruct (sn_app s) eqn:Ea; [done|by rewrite Ea]. Qed.

Lemma dirty_screen s s' :
  s' = s ∨ s' = canvas_mark_dirty s → screen_ok s → scaled s → screen_ok s' ∧ scaled s' ∧ has_app s' = has_app s.
Proof.
  intros [-> | ->] ? ?; [done|]. split_and!; [by apply dirty_ok|by apply scaled_dirty|apply has_app_dirty].
Qed.

Lemma menu_step_ok o m s shown :
  menu_ok m → (shown = true → shows_selected m) → screen_ok s → scaled s → menu_op_ok o →
  (∃ m' s', menu_step o (m, s) = Some (m', s') ∧ menu_ok m' ∧ (shown_after shown o = true → shows_selected m') ∧
     screen_ok s' ∧ scaled s' ∧ has_app s' = has_app s ∧ abs m' = menu_spec (has_app s) (abs m) o) ∨
  (∃ wifi title help, o = MDraw wifi title help) ∧ empty_strip m s.
Proof.
  intros Hm Hk Hs Hc Ho.
  destruct o as [start_y row_h| | |id label tag icon|catalog|delta|delta|has_state catalog|wifi title help];
    cbn [menu_step menu_spec shown_after menu_op_ok] in *.
  - left. destruct (init_good m start_y row_h) as (m' & -> & [? ?] & ?). by exists m', s.
  - left. destruct (strip_good m Hm) as (m' & -> & [? ?] & ?). by exists m', s.
  - left. destruct (clear_good m Hm) as (m' & -> & [? ?] & ?). by exists m', s.
  - left. destruct (add_good m id label tag icon Hm) as (r & m' & -> & [? ?] & ->). exists m', s. split_and!; auto.
  - left. destruct (load_good catalog m Hm) as (m' & -> & [? ?] & ?). by exists m', s.
  - left. destruct (move_good m delta s Hm Ho) as (m' & s' & -> & [? ?] & ? & Es). exists m', s'.
    destruct (dirty_screen s s' Es Hs Hc) as (? & ? & ?). split_and!; auto.
  - left. destruct (ui_move_ok m delta s Hm Ho) as (m' & s' & -> & ? & ? & Es). exists m', s'.
    destruct (dirty_screen s s' Es Hs Hc) as (? & ? & ?). by split_and!.
  - left. destruct (ready_ok has_state catalog m Hm) as (m' & -> & ? & Hr & ?). exists m', s. split_and!; try done.
    by destruct has_state; [|intros _; apply Hr].
  - destruct (empty_strip_dec m s) as [He|He]; [right; split; [by eexists _, _, _|done]|left].
    destruct (sn_app s) as [a|] eqn:Ea.
    2:{ exists m, s. split; [unfold app_menu_draw; by rewrite Ea|]. by split_and!. }
    destruct (menu_draw_ok wifi m title help s) as (s' & -> & Hs' & Es); [done| |done|].
    { intros El. split; [|exact Hc]. destruct (Z.lt_ge_cases 0 (mn_count m)); [done|]. destruct He. unfold empty_strip, has_app.
      rewrite Ea. destruct Hm as (_ & ? & _). split_and!; [done|lia|done]. }
    exists m, s'. split_and!; try done; [by eapply scaled_cleaned|by apply has_app_cleaned].
Qed.

(** C22: Menus work and show what is selected.  Take any sequence of the calls of a menu: starting,
    clearing, adding, loading the catalog, moving by any number of places up to 2^30 over the rows
    of the panel ([app_menu_move]) or of the content box ([app_ui_menu_move]), making the launcher's
    menu with or without a restored selection, and drawing as a list or a strip of icons, on a panel
    of any size and for any texts and icons.  The calls run without a fault and compute a list of at
    most sixteen items and a selection that goes round it; the selection is an item, and what a
    list shows are items of it.  The one exception is drawing a strip without items for an app: it
    never returns, and the sequence ends there.  The selected row is among those a list shows
    ([shown_after]) unless, since the list was last started, cleared, loaded or turned into a
    strip, a call moved by the content box or restored a selection, neither of which scrolls to it
    (Examples [launcher_cursor_leaves] and [restored_selection_hidden]). *)
Theorem menu_safe (l : list menu_op) m s shown :
  menu_ok m → (shown = true → shows_selected m) → screen_ok s → scaled s → Forall menu_op_ok l →
  ∃ l1 l2 m' s', l = l1 ++ l2 ∧ each menu_step l1 (m, s) = Some (m', s') ∧ menu_ok m' ∧
    (foldl shown_after shown l1 = true → shows_selected m') ∧ screen_ok s' ∧
    abs m' = foldl (menu_spec (has_app s)) (abs m) l1 ∧
    (l2 = [] ∨ ∃ wifi title help l3, l2 = MDraw wifi title help :: l3 ∧ empty_strip m' s' ∧
       app_menu_draw W H sim_w sim_h app_icons wifi (Some m') title help s' = None).
Proof.
  intros Hm Hk Hs Hc Hl. revert m s shown Hm Hk Hs Hc. induction Hl as [|o l Ho _ IH]; intros m s shown Hm Hk Hs Hc.
  { exists [], [], m, s. split_and!; try done. by left. }
  destruct (menu_step_ok o m s shown Hm Hk Hs Hc Ho) as
    [(m1 & s1 & E1 & Hm1 & Hk1 & Hs1 & Hc1 & Ha & Ea)|((wifi & title & help & ->) & He)].
  - destruct (IH m1 s1 _ Hm1 Hk1 Hs1 Hc1) as (l1 & l2 & m' & s' & -> & E2 & ? & ? & ? & Eb & Hend).
    exists (o :: l1), l2, m', s'. cbn [each foldl app]. rewrite E1. rewrite Ha, Ea in Eb. by split_and!.
  - exists [], (MDraw wifi title help :: l), m, s. split_and!; try done. right.
    eexists _, _, _, _. split_and!; [done..|by apply empty_strip_never].
Qed.

(** ** The picture of a list *)

(** A list is drawn by these strokes. *)
Definition text_strokes (x y : Z) (text : option (list Z)) (c : Z) : list draw_op :=
  match text with Some t => [TextColor x y t 1 c] | None => [] end.
Definition row_strokes m (it : app_menu_item_t) (i : Z) : list draw_op :=
  let sel := mn_first_visible m + i =? mn_selected m in
  let y := mn_start_y m + i * mn_row_h m in
  (if sel then [FillRect 0 y W (mn_row_h m) 0 MENU_COLOR_CYAN] else []) ++
  TextColor 0 y (row 40 ((if sel then 62 else 32) :: 32 :: default (str "?") (mi_label it))) 1
    (if sel then MENU_COLOR_BLACK else MENU_COLOR_WHITE) ::
  text_strokes 72 y (mi_tag it) (if sel then MENU_COLOR_BLACK else menu_dim_color MENU_COLOR_WHITE 2).
Definition rows_strokes m (rows : nat) : list draw_op :=
  concat (imap (λ i it, row_strokes m it (Z.of_nat i)) (take rows (drop (Z.to_nat (mn_first_visible m)) (abs m).1))).
Definition help_strokes m (help : option (list Z)) (rows : nat) : list draw_op :=
  let y := mn_start_y m + Z.of_nat rows * mn_row_h m in
  if y <=? H - 8 then text_strokes 0 y help (menu_dim_color MENU_COLOR_WHITE 4) else [].
Definition list_strokes m (title help : option (list Z)) : list draw_op :=
  let rows := Z.to_nat (Z.min (capacity m) (mn_count m)) in
  Clear :: text_strokes 0 0 title MENU_COLOR_CYAN ++ rows_strokes m rows ++ help_strokes m help rows.

(** The app in front, with its display. *)
Definition in_front s : Prop := ∃ a, sn_app s = Some a ∧ cv_fg a = true ∧ dp_initialized (cv_display a) = true.

(** [D] draws the strokes, for the app in front. *)
Definition strokes (l : list draw_op) (D : screen → option screen) : Prop :=
  ∀ s, in_front s → D s = (p ← draw_all W H l (sn_panel s); Some (with_panel p s)).

Lemma strokes_none : strokes [] Some.
Proof. intros s _. by destruct s. Qed.

Lemma draw_all_app l1 l2 p : draw_all W H (l1 ++ l2) p = (p ← draw_all W H l1 p; draw_all W H l2 p).
Proof.
  revert p. induction l1 as [|o l1 IH]; intros p; [done|]. cbn [app draw_all].
  destruct (draw_step W H o p); [apply IH|done].
Qed.

Lemma strokes_seq l1 l2 D1 D2 : strokes l1 D1 → strokes l2 D2 → strokes (l1 ++ l2) (λ s, s ← D1 s; D2 s).
Proof.
  intros Ha Hb s Hs. rewrite (Ha s Hs), draw_all_app. destruct (draw_all W H l1 (sn_panel s)) as [p1|]; [|done].
  cbn [mbind option_bind]. rewrite (Hb (with_panel p1 s)) by exact Hs. cbn [with_panel sn_panel]. by destruct (draw_all W H l2 p1).
Qed.

Lemma strokes_call o (draw : option app_display_t → panel U → option (panel U)) :
  (∀ d p, dp_initialized d = true → draw (Some d) p = draw_step W H o p) → strokes [o] (on_canvas draw).
Proof.
  intros Hd s (a & Ea & Ef & Er). unfold on_canvas. rewrite Ea, Ef, Hd by done. cbn [draw_all].
  by destruct (draw_step W H o (sn_panel s)).
Qed.

Lemma strokes_clear : strokes [Clear] (app_clear (U := U) (E := E)).
Proof. apply strokes_call. intros d p Hr. unfold app_display_clear. cbn [ready]. by rewrite Hr. Qed.

Lemma strokes_fill x y w h r c : strokes [FillRect x y w h r c] (app_fill_rect_color W H (E := E) x y w h r c).
Proof. apply strokes_call. intros d p Hr. unfold app_display_fill_rect_color, when_ready. cbn [ready]. by rewrite Hr. Qed.

Lemma strokes_text x y text c : strokes (text_strokes x y text c) (app_text_color W H (E := E) x y text 1 c).
Proof.
  destruct text as [t|]; [|apply strokes_none]. apply strokes_call. intros d p Hr.
  unfold app_display_text_color, when_ready. cbn [ready]. by rewrite Hr.
Qed.

Lemma strokes_if (b : bool) l D : strokes l D → strokes (if b then l else []) (λ s, if b then D s else Some s).
Proof. intros Hd. destruct b; [done|apply strokes_none]. Qed.

Lemma strokes_row m i it :
  rd (mn_items m) (mn_first_visible m + i) = Some it → strokes (row_strokes m it i) (draw_row W H (E := E) m i).
Proof.
  intros Ei s Hs. unfold draw_row. rewrite Ei. cbn [mbind option_bind]. cbv zeta.
  refine (strokes_seq _ _ _ _ _ _ s Hs); [apply strokes_if, strokes_fill|].
  refine (strokes_seq [_] _ _ _ _ _); [|apply strokes_text]. apply (strokes_text _ _ (Some _)).
Qed.

Lemma strokes_rows m n i l :
  menu_ok m → 0 <= i → length l = n → l = take n (drop (Z.to_nat (mn_first_visible m + i)) (abs m).1) →
  strokes (concat (imap (λ j it, row_strokes m it (i + Z.of_nat j)) l))
    (for_while n i (λ i, negb ((mn_first_visible m + i <? 0) || (mn_count m <=? mn_first_visible m + i))) (draw_row W H (E := E) m)).
Proof.
  intros Hm. pose proof Hm as (Hl & Hc & _ & Hf & _). revert i l.
  induction n as [|n IH]; intros i l Hi Hn El; [destruct l; [apply strokes_none|done]|].
  destruct l as [|it l]; [done|]. cbn [length] in Hn.
  assert ((abs m).1 !! Z.to_nat (mn_first_visible m + i) = Some it) as Eit.
  { rewrite <- (Nat.add_0_r (Z.to_nat _)), <- lookup_drop, <- (lookup_take_lt _ (S n)), <- El by lia. done. }
  assert (mn_first_visible m + i < mn_count m) as Hlt.
  { apply lookup_lt_Some in Eit. cbn [abs fst] in Eit. rewrite packed_length in Eit by (unfold blen; lia). lia. }
  cbn [for_while]. zbool. cbn [orb negb]. cbn [imap concat]. rewrite Z.add_0_r.
  apply (strokes_seq (row_strokes m it i)).
  - apply strokes_row. rewrite (packed_get (mn_count m)) by lia. exact Eit.
  - eapply (eq_rect _ (λ l, strokes l _)); [apply (IH (i + 1) l)|]; [lia|lia| |].
    + replace (Z.to_nat (mn_first_visible m + (i + 1))) with (S (Z.to_nat (mn_first_visible m + i))) by lia.
      rewrite (drop_S _ _ _ Eit) in El. cbn [take] in El. by injection El.
    + f_equal. apply imap_ext. intros j it' _. unfold compose. f_equal. lia.
Qed.

(** The frame of a list before the status cluster. *)
Definition list_body m (title help : option (list Z)) s : option screen :=
  let visible := app_menu_visible_rows H (Some m) in
  s ← app_clear s;
  s ← app_text_color W H 0 0 title 1 MENU_COLOR_CYAN s;
  s ← draw_rows W H m visible s;
  if mn_start_y m + visible * mn_row_h m <=? H - 8
  then app_text_color W H 0 (mn_start_y m + visible * mn_row_h m) help 1 (menu_dim_color MENU_COLOR_WHITE 4) s else Some s.

Lemma draw_list_eq wifi m title help s :
  mn_layout m = APP_MENU_LAYOUT_LIST → is_Some (sn_app s) →
  app_menu_draw W H sim_w sim_h app_icons wifi (Some m) title help s =
  (s ← list_body m title help s; s ← app_status_draw W H wifi s; app_flush W H sim_w sim_h s).
Proof.
  intros El [a Ea]. unfold app_menu_draw, list_body. rewrite Ea, El. cbv zeta.
  change (bool_decide (APP_MENU_LAYOUT_LIST = APP_MENU_LAYOUT_ICONS)) with false. cbv iota.
  destruct (app_clear s) as [s1|]; [|done]. cbn [mbind option_bind].
  destruct (app_text_color W H 0 0 title 1 MENU_COLOR_CYAN s1) as [s2|]; [|done]. cbn [mbind option_bind].
  by destruct (draw_rows W H m _ s2).
Qed.

(** The rows drawn: those that fit, of a list that shows its selection. *)
Definition rows_of m : nat := Z.to_nat (Z.min (capacity m) (mn_count m)).

Lemma rows_bounds m :
  good m → mn_layout m = APP_MENU_LAYOUT_LIST → mn_first_visible m + Z.of_nat (rows_of m) <= mn_count m ∨ rows_of m = 0%nat.
Proof.
  intros [(_ & Hc & _) Hw] El. specialize (Hw El). unfold rows_of.
  destruct (Z.lt_ge_cases 0 (capacity m)) as [Hcap|]; [|right; lia].
  destruct (Z.lt_ge_cases 0 (mn_count m)) as [Hpos|]; [|right; lia].
  specialize (Hw Hcap Hpos). cbv zeta in Hw. left. lia.
Qed.

Lemma strokes_list m title help :
  good m → mn_layout m = APP_MENU_LAYOUT_LIST → strokes (list_strokes m title help) (list_body m title help).
Proof.
  intros Hg El. pose proof Hg as [Hm _]. pose proof Hm as (Hl & Hc & _ & Hf & _). pose proof (rows_bounds m Hg El) as Hb.
  unfold list_body, list_strokes. rewrite visible_rows by done. cbv zeta. fold (rows_of m).
  replace (Z.min (capacity m) (mn_count m)) with (Z.of_nat (rows_of m)) by (unfold rows_of, capacity; lia).
  apply (strokes_seq [Clear]); [apply strokes_clear|]. apply strokes_seq; [apply strokes_text|].
  apply strokes_seq; [|apply strokes_if, strokes_text].
  unfold rows_strokes, draw_rows. rewrite Nat2Z.id.
  apply (strokes_rows m (rows_of m) 0); [done|done| |by rewrite Z.add_0_r].
  cbn [abs fst]. rewrite length_take, length_drop, packed_length by (unfold blen; lia). lia.
Qed.

(** *** What a dot of a row shows *)

Section Dot.
Context (m : app_menu_t) (x y : Z) (Hx : 0 <= x < W) (Hrow : 7 <= mn_row_h m).
Implicit Types (pic : picture).
#[local] Abbreviation top i := (mn_start_y m + i * mn_row_h m).

Lemma text_off pic x0 y0 t c : ¬ (y0 <= y < y0 + 7) → paint W H pic (TextColor x0 y0 t 1 c) x y = pic x y.
Proof.
  intros Hy. cbn [paint]. unfold stroke. destruct (color_text_shape x0 y0 t 1 x y) eqn:Et; [|done].
  unfold color_text_shape in Et. cbn [Z.leb Z.compare negb andb] in Et. apply text_rows in Et; lia.
Qed.

Lemma texts_off pic x0 y0 text c : ¬ (y0 <= y < y0 + 7) → foldl (paint W H) pic (text_strokes x0 y0 text c) x y = pic x y.
Proof. intros Hy. destruct text; [by apply text_off|done]. Qed.

(** A text gives its dots its colour and leaves the others. *)
Lemma text_colour pic x0 y0 t c :
  (paint W H pic (TextColor x0 y0 t 1 c) x y).2 =
    if color_text_shape x0 y0 t 1 x y then Some c else (pic x y).2.
Proof. cbn [paint]. unfold stroke. by destruct (color_text_shape x0 y0 t 1 x y). Qed.

(** The colour of a dot of the row of an item: its tag, at the 72nd column, lies over its label,
    after a cursor at the left edge; the selected row is cyan with both texts in black, the others
    stay dark with a white label and a grey tag. *)
Definition row_dot (selected : bool) (it : app_menu_item_t) (y0 : Z) : option Z :=
  if (match mi_tag it with Some t => color_text_shape 72 y0 t 1 x y | None => false end)
  then Some (if selected then MENU_COLOR_BLACK else menu_dim_color MENU_COLOR_WHITE 2)
  else if color_text_shape 0 y0 (row 40 ((if selected then 62 else 32) :: 32 :: default (str "?") (mi_label it))) 1 x y
  then Some (if selected then MENU_COLOR_BLACK else MENU_COLOR_WHITE)
  else if selected then Some MENU_COLOR_CYAN else None.

Lemma row_off pic it i :
  ¬ (top i <= y < top (i + 1)) → foldl (paint W H) pic (row_strokes m it i) x y = pic x y.
Proof.
  intros Hy. unfold row_strokes. cbv zeta. rewrite foldl_app. cbn [foldl].
  rewrite texts_off by lia. rewrite text_off by lia.
  destruct (_ =? _); [|done]. cbn [foldl paint]. unfold stroke. rewrite square_box.
  destruct (in_box _ _ _ _ x y) eqn:Eb; [|done]. apply in_box_true in Eb. lia.
Qed.

Lemma row_on pic it i :
  top i <= y < top (i + 1) → (pic x y).2 = None →
  (foldl (paint W H) pic (row_strokes m it i) x y).2 =
    row_dot (mn_first_visible m + i =? mn_selected m) it (top i).
Proof.
  intros Hy Hp. unfold row_strokes. cbv zeta. rewrite foldl_app. cbn [foldl].
  set (sel := _ =? _). set (pic0 := foldl _ pic _).
  assert ((pic0 x y).2 = if sel then Some MENU_COLOR_CYAN else None) as E0.
  { subst pic0. destruct sel; [|done]. cbn [foldl paint]. unfold stroke. rewrite square_box.
    rewrite (proj2 (in_box_true _ _ _ _ _ _)) by lia. done. }
  unfold row_dot. rewrite <- E0. clearbody pic0. destruct (mi_tag it) as [t|]; cbn [text_strokes foldl]; by rewrite !text_colour.
Qed.

Lemma rows_off l : ∀ i pic,
  y < top i → foldl (paint W H) pic (concat (imap (λ j it, row_strokes m it (i + Z.of_nat j)) l)) x y = pic x y.
Proof.
  induction l as [|it l IH]; intros i pic Hy; [done|]. cbn [imap concat]. rewrite Z.add_0_r, foldl_app.
  replace (imap _ l) with (imap (λ j it, row_strokes m it (i + 1 + Z.of_nat j)) l)
    by (apply imap_ext; intros j it' _; unfold compose; f_equal; lia).
  rewrite IH by lia. apply row_off. lia.
Qed.

Lemma rows_on l : ∀ i pic k it,
  i <= k → l !! Z.to_nat (k - i) = Some it → top k <= y < top (k + 1) → (pic x y).2 = None →
  (foldl (paint W H) pic (concat (imap (λ j it, row_strokes m it (i + Z.of_nat j)) l)) x y).2 =
    row_dot (mn_first_visible m + k =? mn_selected m) it (top k).
Proof.
  induction l as [|it0 l IH]; intros i pic k it Hk Hit Hy Hp; [done|].
  cbn [imap concat]. rewrite Z.add_0_r, foldl_app.
  replace (imap _ l) with (imap (λ j it, row_strokes m it (i + 1 + Z.of_nat j)) l)
    by (apply imap_ext; intros j it' _; unfold compose; f_equal; lia).
  destruct (Z.eq_dec k i) as [-> |].
  - rewrite Z.sub_diag in Hit. injection Hit as ->. rewrite rows_off by lia. by apply row_on.
  - apply IH; [lia| |done|rewrite row_off; [done|nia]].
    replace (Z.to_nat (k - i)) with (S (Z.to_nat (k - (i + 1)))) in Hit by lia. exact Hit.
Qed.
End Dot.

Lemma quot_below a b n : 0 < b → 0 < n → n <= Z.quot a b → n * b <= a.
Proof.
  intros Hb Hn Hq. Z.to_euclidean_division_equations. nia.
Qed.

(** C23: A list shows which item is selected.  Drawing the menu of the app in front, on a panel where
    a row fits and with rows of at least the height of the text, puts the row of the selected item
    among those drawn, and gives every dot of every row exactly its colour: the label after its
    cursor and the tag over it show as black text on cyan in the selected row, and as white and
    grey text on the dark ground in each other row.  The status cluster and the frame that follow
    leave these colours alone when neither header nor notification shows. *)
Theorem menu_list_highlights wifi m title help s :
  good m → mn_layout m = APP_MENU_LAYOUT_LIST → 0 < capacity m → 0 < mn_count m →
  7 <= mn_start_y m → 7 <= mn_row_h m →
  screen_ok s → in_front s → sn_header s = false → queue (sn_notes s) = [] →
  ∃ s', app_menu_draw W H sim_w sim_h app_icons wifi (Some m) title help s = Some s' ∧ app_is_dirty s' = false ∧
    (∃ i, 0 <= i < Z.of_nat (rows_of m) ∧ mn_first_visible m + i = mn_selected m) ∧
    ∀ i it x y, 0 <= i < Z.of_nat (rows_of m) → (abs m).1 !! Z.to_nat (mn_first_visible m + i) = Some it →
      0 <= x < W → mn_start_y m + i * mn_row_h m <= y < mn_start_y m + (i + 1) * mn_row_h m →
      y < H ∧ colour W (sn_panel s') x y =
        row_dot x y (mn_first_visible m + i =? mn_selected m) it (mn_start_y m + i * mn_row_h m).
Proof.
  intros Hg El Hcap Hpos Hy0 Hrow Hs Hf Hh Hq. pose proof Hf as (a & Ea & Efg & Er).
  pose proof Hg as [Hm Hw]. specialize (Hw El Hcap Hpos). cbv zeta in Hw. pose proof Hm as (Hl & Hc & _ & Hfv & _).
  assert (Z.of_nat (rows_of m) = Z.min (capacity m) (mn_count m)) as Erows by (unfold rows_of; lia).
  rewrite draw_list_eq by (rewrite ?Ea; done). rewrite (strokes_list m title help Hg El s Hf).
  destruct (draw_all_paints W H HW (list_strokes m title help) (sn_panel s) (look W (sn_panel s)))
    as (p1 & -> & Hp1 & _ & Hd); [apply Hs|done|]. cbn [mbind option_bind].
  assert (screen_ok (with_panel p1 s)) as Hs1 by (destruct Hs as (_ & ? & ?); by split_and!).
  destruct (safe_status wifi (with_panel p1 s) Hs1) as (s2 & -> & Hs2 & (F1 & F2 & F3 & _) & K2). cbn [mbind option_bind].
  destruct (flush_ok s2 Hs2) as (s3 & -> & _ & A3 & K3). exists s3. split; [done|]. split.
  { unfold app_is_dirty. rewrite A3, F1. cbn [with_panel sn_app]. rewrite Ea. cbn [mbind option_bind]. by rewrite Efg. }
  split; [exists (mn_selected m - mn_first_visible m); lia|].
  intros i it x y Hi Hit Hx Hy.
  assert (mn_start_y m + (i + 1) * mn_row_h m <= H - 8) as Hbot.
  { assert (i + 1 <= Z.quot (H - mn_start_y m - 8) (mn_row_h m)) as Hic by (unfold capacity in *; lia).
    apply quot_below in Hic; lia. }
  split; [lia|].
  assert (on_panel W H x y = true) as Hon by (apply on_panel_true; nia).
  rewrite (K3 ltac:(by rewrite F3) ltac:(by rewrite F2) x y Hon), (K2 x y Hon). cbn [sn_panel with_panel].
  change (colour W p1 x y) with (look W p1 x y).2. rewrite (Hd x y Hon).
  unfold list_strokes. cbv zeta. fold (rows_of m). cbn [foldl paint]. rewrite !foldl_app.
  set (pic0 := foldl (paint W H) (λ _ _, (false, None)) (text_strokes 0 0 title MENU_COLOR_CYAN)).
  assert (pic0 x y = (false, None)) as E0 by (apply texts_off; nia).
  assert (∀ pic, foldl (paint W H) pic (help_strokes m help (rows_of m)) x y = pic x y) as Ehelp.
  { intros pic. unfold help_strokes. cbv zeta. destruct (_ <=? _); [apply texts_off; nia|done]. }
  rewrite Ehelp. unfold rows_strokes.
  apply (rows_on m x y Hx Hrow _ 0); [lia| |done|by rewrite E0].
  rewrite lookup_take_lt, lookup_drop by lia. rewrite <- Hit. f_equal. lia.
Qed.
End MenuThm.

Module MenuRuns.
#[local] Existing Instance PanelRuns.no_bus.
#[local] Existing Instance CardRuns.no_time.

(** A panel of forty by thirty-two dots, with an app in front of it and a window of the same size. *)
Definition blank (w h : Z) : panel unit :=
  set_first false (ssd1306_model_clear (ssd1306_model_register w h
    (mk_panel (mk_ssd [] 0 0 0 false false 0 0 0 false 0) false (zeros (w * h)) (zeros (w * h)) true tt))).
Definition quiet : notify_state unit := mk_notify (replicate 4 card_zero) 0 0 true true 0 false tt.
Definition front (w h : Z) : screen unit unit :=
  mk_screen (Some (mk_canvas true true (mk_display true w h) (app_ui_config_ui w h))) (blank w h) quiet status_zero
    false (Some (zeros (w * h))).
Definition no_icons (a : Z) : app_icon_t := zeros 16.
Definition fresh : app_menu_t := mk_menu (replicate 16 (mk_item None None None None)) 0 0 0 16 12 APP_MENU_LAYOUT_LIST.
Definition named (c : Z) : menu_op := MAdd (Some [c]) (Some [c]) None None.
Definition item (c : Z) : app_menu_item_t := mk_item (Some [c]) (Some [c]) None (Some 0).

Lemma fresh_good : good 32 fresh.
Proof. split; [|intros _ _; cbn; lia]. unfold menu_ok. cbn. split_and!; done || lia. Qed.
Lemma front_ok : screen_ok 40 32 40 32 (front 40 32).
Proof.
  split; [split_and!; vm_compute; reflexivity|]. split; [|reflexivity].
  split; [|split; [done|split; vm_compute; done]]. split; [done|]. split; [cbn; lia|]. split; [cbn; lia|]. constructor.
Qed.

(** Three items, one step up from the first: the last is selected, in the list and in the strip;
    then the launcher's menu, its selection restored, and at last a strip without items. *)
Definition calls : list menu_op :=
  [MInit 8 8; named 97; named 98; named 99; MMove (-1); MDraw None None None; MStrip; MDraw None None None; MMove 7].
Definition more_calls : list menu_op := [MUiMove 1; MInit 8 8; MStrip].

Lemma menu_safe_witness :
  (∃ l1 l2 m' s', calls ++ more_calls ++ [MDraw None None None; MClear] = l1 ++ l2 ∧
     each (menu_step 40 32 40 32 no_icons) l1 (fresh, front 40 32) = Some (m', s') ∧ menu_ok m' ∧
     (foldl shown_after true l1 = true → shows_selected 32 m') ∧ screen_ok 40 32 40 32 s' ∧
     abs m' = foldl (menu_spec true) ([], 0) l1 ∧
     (l2 = [] ∨ ∃ wifi title help l3, l2 = MDraw wifi title help :: l3 ∧ empty_strip m' s' ∧
        app_menu_draw 40 32 40 32 no_icons wifi (Some m') title help s' = None)) ∧
  option_map (λ ms, abs ms.1) (each (menu_step 40 32 40 32 no_icons) calls (fresh, front 40 32)) =
    Some ([item 97; item 98; item 99], 0) ∧
  is_Some (each (menu_step 40 32 40 32 no_icons) (calls ++ more_calls) (fresh, front 40 32)).
Proof.
  split; [|split; [vm_compute; reflexivity|vm_compute; by eexists]].
  apply (menu_safe 40 32 40 32 no_icons ltac:(lia) ltac:(lia) ltac:(lia) ltac:(lia) (λ _, eq_refl)
    (calls ++ more_calls ++ [MDraw None None None; MClear]) fresh (front 40 32) true).
  - apply fresh_good.
  - intros _. apply fresh_good.
  - exact front_ok.
  - intros a [= <-]. vm_compute. reflexivity.
  - unfold calls, more_calls. cbn [app]. repeat (apply Forall_cons_2; [cbn; lia || exact I|]). apply Forall_nil_2.
Defined.

(** The menu after the step up: two rows fit, the second is selected. *)
Definition three : app_menu_t :=
  mk_menu (item 97 :: item 98 :: item 99 :: replicate 13 (mk_item None None None None)) 3 2 1 8 8 APP_MENU_LAYOUT_LIST.

Lemma menu_list_highlights_witness :
  ∃ s', app_menu_draw 40 32 40 32 no_icons None (Some three) None None (front 40 32) = Some s' ∧
    (∀ x y, 0 <= x < 40 → 16 <= y < 24 →
       colour 40 (sn_panel s') x y = row_dot x y true (item 99) 16) ∧
    (∀ x y, 0 <= x < 40 → 8 <= y < 16 →
       colour 40 (sn_panel s') x y = row_dot x y false (item 98) 8) ∧
    colour 40 (sn_panel s') 39 16 = Some MENU_COLOR_CYAN ∧ colour 40 (sn_panel s') 12 19 = Some MENU_COLOR_BLACK ∧
    colour 40 (sn_panel s') 39 8 = None ∧ colour 40 (sn_panel s') 12 8 = Some MENU_COLOR_WHITE.
Proof.
  destruct (menu_list_highlights 40 32 40 32 no_icons ltac:(lia) ltac:(lia) ltac:(lia) ltac:(lia) None three None None
    (front 40 32)) as (s' & E1 & _ & _ & L).
  - split; [|intros _ _ _; change (Z.min _ _) with 2; cbn; lia]. unfold menu_ok. cbn. split_and!; done || lia.
  - reflexivity.
  - vm_compute. reflexivity.
  - vm_compute. reflexivity.
  - cbn. lia.
  - cbn. lia.
  - exact front_ok.
  - eexists. split; [reflexivity|]. split; reflexivity.
  - reflexivity.
  - vm_compute. reflexivity.
  - exists s'. split; [exact E1|].
    assert (∀ x y, 0 <= x < 40 → 16 <= y < 24 → colour 40 (sn_panel s') x y = row_dot x y true (item 99) 16) as L1.
    { intros x y Hx Hy.
      exact (proj2 (L 1 (item 99) x y ltac:(vm_compute; split; [discriminate|reflexivity]) eq_refl Hx ltac:(cbn; lia))). }
    assert (∀ x y, 0 <= x < 40 → 8 <= y < 16 → colour 40 (sn_panel s') x y = row_dot x y false (item 98) 8) as L0.
    { intros x y Hx Hy.
      exact (proj2 (L 0 (item 98) x y ltac:(vm_compute; split; [discriminate|reflexivity]) eq_refl Hx ltac:(cbn; lia))). }
    split; [exact L1|]. split; [exact L0|].
    rewrite !L1, !L0 by lia. vm_compute. split_and!; reflexivity.
Defined.

(** ** Where the code departs from its intent *)

Definition no_apps : app_menu_t :=
  mk_menu (replicate 16 (mk_item None None None None)) 0 0 0 8 8 APP_MENU_LAYOUT_ICONS.
(** A strip without items is drawn for ever: the loop that brings the index of the item before the
    first into the range of the items adds zero in every round. *)
Example empty_strip_hangs :
  app_menu_draw 40 32 40 32 no_icons None (Some no_apps) None None (front 40 32) = None ∧
  ∀ fuel, wrap_up fuel (mn_count no_apps) (mn_selected no_apps - 1) = None.
Proof. split; [vm_compute; reflexivity|]. intros fuel. apply wrap_empty. cbn. lia. Qed.

(** The launcher of the default panel, 128 by 32, with three apps. *)
Definition catalog : list app_catalog_entry_t :=
  match app_kit_catalog_build (Some (str "launcher")) icons_zero
          (Some [(str "clock", 0); (str "launcher", 1); (str "pong", 2); (str "shell", 3)]) with
  | Some (_, l) => l
  | None => []
  end.
Definition launcher (has_state : bool) (keep : Z) : option app_menu_t :=
  default None (launcher_ready 32 has_state catalog
    (mk_menu (mn_items fresh) 0 keep 0 8 10 APP_MENU_LAYOUT_LIST)).

(** One row fits, and the key for the next item leaves it where it is: moving looks at the content
    box, in which no row fits, and drawing at the panel.  The selected item is not on the screen. *)
Example launcher_cursor_leaves :
  (r ← app_ui_menu_nav_next (launcher false 0) (front 128 32);
   m ← r.1;
   Some (mn_selected m, mn_first_visible m, app_menu_visible_rows 32 (Some m))) = Some (1, 0, 1).
Proof. vm_compute. reflexivity. Qed.

(** A selection restored from a session is not scrolled to either. *)
Example restored_selection_hidden :
  (m ← launcher true 2; Some (mn_selected m, mn_first_visible m, app_menu_visible_rows 32 (Some m))) = Some (2, 0, 1).
Proof. vm_compute. reflexivity. Qed.
End MenuRuns.
